(* ===== verification/_CoqProject ===== *)
-Q . S2P
Prelude.v
Arithmetic.v
Bitmap.v
KList.v
KListSpec.v
KListSort.v
CStdlib.v
CString.v
Random.v
Hash.v
Inode.v
FreeMap.v
Directory.v
Thread.v
Synch.v
Lexer.v
LexerSpec.v
Vm.v
PageDir.v
VmSpec.v
VmBoot.v
ByteMem.v
Isolation.v
Process.v
LoadSpec.v
StackSpec.v
Syscall.v
SyscallSpec.v
SyscallRw.v
Malloc.v
MallocSpec.v
PallocLaws.v
MallocProps.v
Stdio.v
StdioSpec.v
Wait.v
WaitSpec.v
Ustar.v
Block.v
BlockSpec.v
FsDevice.v
Intq.v
IntqSpec.v
Input.v
InputSpec.v
Segments.v
Interrupt.v
InterruptSpec.v
Cmdline.v
CmdlineSpec.v
Clock.v
ClockSpec.v
Vga.v
VgaSpec.v
Ide.v
IdeSpec.v
Console.v
ConsoleSpec.v
FsFrame.v
FsSpec.v
OpenSpec.v
Fsutil.v
HexSpec.v
FsutilSpec.v
UserCall.v
UserIo.v
ThreadBoot.v
ProgramSpec.v
Exec.v
Switch.v
