(* ===== verification/Prelude.v ===== *)
(** * A verification development for the Pintos kernel of this repository

    The repository holds a teaching kernel (threads, synchronization, file
    system, user programs, devices and the C library the kernel is linked
    with), and beside it a hand-written lexical analyser for Pascal.  The
    development models the kernel's library, its file system, its threads, its
    memory management, its processes with their system calls, its interrupts
    and its device drivers, and the library of user programs, and proves that
    each part does what it promises to the next one; and it models the whole
    analyser.

    ** Parts and files

    Library (src/lib):
    - [Arithmetic]: lib/arithmetic.c, 64-bit division on a 32-bit processor.
    - [CStdlib]: lib/stdlib.c (atoi, heap sort, binary search) on arrays of
      bytes, and the parts of lib/ctype.h it uses.
    - [CString]: lib/string.c on a byte memory, and the argument-parsing loop of
      start_process (userprog/process.c), its client.
    - [Random]: lib/random.c, RC4.
    - [Bitmap]: lib/kernel/bitmap.c on arrays of 32-bit words.
    - [KList], [KListSpec], [KListSort]: lib/kernel/list.c on a heap of list
      elements with prev and next pointers; the model, the specifications of
      the plain operations, and those of the operations on ordered lists.
    - [Hash]: lib/kernel/hash.c, chained hash tables that grow and shrink.
    - [Stdio], [StdioSpec], [HexSpec]: lib/stdio.c, the printf family over any
      output function, and its specifications.
    - [Ustar]: lib/ustar.c, tar headers.
    - [Console], [ConsoleSpec]: lib/kernel/console.c, lib/debug.c,
      lib/kernel/debug.c and shutdown of devices/shutdown.c; threads that print
      are a transition system.

    File system (src/filesys), each file on top of the ones before:
    - [Inode]: inode.c and the positional operations of file.c, on the sectors
      of a device.
    - [FreeMap]: free-map.c with the bitmap's file operations, creation and
      deletion of inodes, opening and closing of files.
    - [Directory]: directory.c and filesys.c.
    - [FsFrame]: which sectors an operation changes; [FsSpec]: the whole file
      system against a map from names to contents; [OpenSpec]: opening a file
      while others are open.
    - [FsDevice]: the sectors of [Inode] are those of a device of [Block].
    - [Fsutil], [FsutilSpec]: fsutil.c, on the file system and a scratch device.
    The state is one record, [Inode.fs]: the sectors of the device, the table of
    in-memory inodes by address, the list of open inodes, the open files, the
    free map and its file, and an oracle for the outcomes of malloc.

    Threads (src/threads):
    - [Thread]: the scheduler of thread.c.
    - [Synch]: synch.c, thread_create and allocate_tid; programs of many threads
      as a transition system.
    - [ThreadBoot]: thread_init, thread_start and idle.
    - [Switch]: switch.S and the stack that thread_create prepares, on a machine
      with registers and words of memory.
    The state is [Thread.kernel].  What runs with interrupts off is one atomic
    action; the rest (lock_acquire, cond_wait, allocate_tid, ...) is a list of
    actions between which the timer may preempt the thread.

    Memory:
    - [Vm]: threads/vaddr.h, threads/pte.h, threads/old_palloc.c,
      threads/palloc.c, userprog/pagedir.c, vm/frame.c and paging_init of
      threads/init.c, on words of physical memory.  The state is [Vm.vm]: the
      memory, the two pools with their bitmaps, the frame table, the kernel's
      page directory, CR3 and the running process.
    - [PageDir]: what page directories map, as finite maps.
    - [VmSpec]: the invariant of the memory of many processes, and that the
      operations preserve it; [VmBoot]: that start-up establishes it, and the
      properties that follow.
    - [ByteMem]: bytes of physical and of user memory on top of the words.
    - [Isolation]: runs of processes that map, unmap and store, with the
      kernel at work in between.
    - [Malloc], [MallocSpec], [MallocProps]: threads/malloc.c over an interface
      to a page allocator, the classes [Malloc.PageAlloc] (operations) and
      [MallocSpec.PageAllocLaws] (promises); [PallocLaws] proves that palloc.c
      on [Vm.vm] keeps the promises.

    Processes (src/userprog):
    - [Process]: load, load_segment, validate_segment and setup_stack of
      process.c; [LoadSpec], [StackSpec]: what they leave in memory;
      [ProgramSpec]: load as a whole, on the file system of [OpenSpec].
    - [Exec]: from the command line to load, process_execute and
      start_process, on the strings of [CString].
    - [Syscall]: syscall.c, on the memory of the process and the file system;
      [SyscallSpec], [SyscallRw]: what the calls keep and what they return.
    - [Wait]: process_execute, start_process, process_wait and process_exit as
      steps of many processes; [WaitSpec]: its invariant and the properties.
    - [UserCall]: lib/user/syscall.c, the program's side of a system call, on
      top of [Syscall]; [UserIo]: lib/user/console.c, debug.c and entry.c.

    Interrupts and start-up:
    - [Segments]: descriptors, userprog/gdt.c, userprog/tss.c and the gates of
      threads/interrupt.c.
    - [Interrupt], [InterruptSpec]: threads/interrupt.c, userprog/exception.c
      and the registrations of drivers and system calls.
    - [Cmdline], [CmdlineSpec]: the command line, options and actions of
      threads/init.c.

    Devices (src/devices):
    - [Block], [BlockSpec]: block.c, partition.c and the choice of devices in
      threads/init.c.
    - [Intq], [IntqSpec]: intq.c as a transition system of threads and
      interrupt handlers.
    - [Input], [InputSpec]: kbd.c, input.c and serial.c, on [Intq].
    - [Clock], [ClockSpec]: rtc.c, pit.c, timer.c and speaker.c.
    - [Vga], [VgaSpec]: vga.c, on the bytes of the frame buffer.
    - [Ide], [IdeSpec]: ide.c over the class [Ide.Ata] (operations of a
      controller), whose promises, from the ATA standard, are the class
      [IdeSpec.AtaLaws]; it lets a drive end a command with an error.  A
      controller that keeps the promises is an instance.

    Lexical analyser (top of src):
    - [Lexer]: lexanc.c, scanner.c, printtoken.c, lexandr.c, token.h, lexan.h.
    - [LexerSpec]: its specifications.
    The state is [Lexer.lexer]: the rest of the input, the end-of-file flag, the
    two tables of powers of ten and the output.  Reals are IEEE doubles.

    ** How code is modelled

    A function that can fail an ASSERT, fault or trap returns [res], with the
    error as a value; a function with state is in the monad [stM] of explicit
    state passing.  [int], [size_t] and the like are [Z], with [u32], [s32], ...
    written where the code relies on the width.  Pointers are [Z], 0 is NULL.
    A port is a list of answers for its inputs and a list of what was written.
    Loops are Fixpoints.  Where the recursion is on a bound of the code
    (for loops, the retries of ide.c) the bound is the argument; otherwise there
    is fuel, and running out of it is the error [EFuel].  The fuel is the number
    of elements of the heap plus one in [KList] (a loop visits an element once),
    the size of the memory plus one in [CString] (a string ends inside it), the
    size of the request plus one in [Inode] (an iteration moves a byte at
    least), the number of entries plus one in [Directory], the number of
    elements in heap sort, 33 in [Hash.round_down_pow2] (each iteration clears a
    bit), the length of the input plus two in [Lexer] (an iteration eats a
    character or ends), the bytes that remain plus one in [Process.load_segment]
    (an iteration loads a page), 33 in [Malloc.malloc_init] (sizes double), the
    length of the format plus 32 and 65 digits in [Stdio] (an iteration eats a
    character, and a number of 64 bits has no more digits), the number of bytes
    plus one in [Stdio.hex_dump], the length of a name plus one in [Ustar], the
    position of the device plus one in [Block] (a partition is registered after
    its device), the number of answers plus one where a port is polled in
    [Input] and [Clock] (each turn uses one), 64 in the loops of [Input] that
    empty or fill a queue (that is its size), 130 in [Cmdline] (128 bytes of
    words), 20 months and 33 bits in [Clock], and in [Fsutil] the bytes of the
    directory or of the file plus two and the sectors of the scratch device plus
    one.  The states that start-up of the threads can reach are computed in
    [ThreadBoot]; there are fewer than the 2000 steps allowed.  A backtrace
    follows the chain of frames as far as its argument says.  The theorems state
    that the functions return, so that the fuel is shown to be enough.

    Code outside the repository, hardware and what memory happens to hold are
    parameters: comparison and hash functions are arguments, with their laws as
    the classes [KListSort.StrictWeak], [CStdlib.CmpOrder] and
    [Hash.HashOrder]; so are the addresses of the stubs of intr-stubs.S and
    of string literals, the answers of ports, the time that delays take, the
    outcomes of malloc in the file system and of palloc_get_page in [Exec], the
    padding of directory entries and
    the byte behind the buffer of fsutil_append.  The classes
    [SyscallSpec.Keeps] and [SyscallSpec.Quiet] say which parts of the state a
    computation leaves alone; their instances follow the structure of the code.

    ** What the theorems show

    - Library: 64-bit quotients are exact; [list_sort] sorts in place and fails
      none of its assertions; insertion, removal, reversal and removal of
      duplicates do exactly that and leave all other lists alone; [qsort] sorts
      and [bsearch] finds; the memory and string functions read and write only
      what they may; bitmap scans find the first fit; the hash table refines a
      finite set for every operation and iteration is complete; a tar header
      that was made is parsed to the name and size it was made from.
    - File system: reads and writes of an inode act on its contents as on an
      array of bytes, and leave other inodes alone; allocation of sectors is
      all or nothing, and the map on disk is the map in memory; an inode is in
      memory once; directories refine finite maps from names to sectors; and
      the whole file system refines a map from names to contents, for every
      program of creations, removals, reads and writes.  Files that were
      appended to an archive are extracted with the same names and contents.
    - Threads: start-up reaches states with the scheduler's invariant whatever
      interrupts come, if there is a page for the idle thread; a thread that is switched to goes on exactly where it was
      left, as long as no one writes to the saved frames on the stacks of
      others, and a new one in the function it was created for; in every
      reachable state of the scheduler one thread runs, the queues hold
      exactly the threads they should, and the scheduler's assertions hold;
      locks give mutual exclusion; tids are unique; semaphores wake in FIFO
      order; ready threads are served in turn.
    - Memory: start-up establishes the invariant; in every state that processes
      reach by mapping, unmapping, storing, creating and destroying, no frame
      belongs to two of them, none reaches the page tables or the kernel's
      frames, and no store of one changes what another sees;
      a page directory refines a finite map from pages to frames; malloc returns
      blocks that are disjoint from all that are in use, keeps what the others
      hold, and free gives back whole pages.
    - Processes: the words of a command line become the arguments of load; load
      gives a well-formed program in a file an address space that holds exactly
      the bytes of its segments, zeros after them, and the initial stack that
      the calling convention asks for, and refuses other files; every function of the user library makes the
      kernel run the call it names on the arguments it was given; descriptors
      stay unique and valid over every
      system call, and none changes its meaning while it is open; read and write
      transfer the bytes they say, and nothing is written to a running program.
      Processes that
      end after they have waited for their children are each waited for at most
      once, with the status they printed, no wait hangs on a process that has
      ended, and no freed thread or node is used, with the exceptions stated.
    - Interrupts and start-up: descriptors decode to what they were made from;
      user programs can raise exactly the vectors they should; external
      interrupts are acknowledged, and a yield they ask for happens last; the
      command line gives the options and actions that were written on it.
    - Devices: on a controller that follows the standard a disk is an array of
      sectors, until a command ends with an error, where the driver panics;
      disjoint partitions do not see each other and a scan finds
      exactly the partitions of the table; an interrupt queue is a bounded FIFO
      for any number of threads and interrupts, with no lost wake-up, and its
      assertion fails in exactly one situation; keys mean the characters of
      the layout; what is sent to the serial port arrives in order; the screen
      shows the end of what was printed; timer_sleep returns at the first moment
      it may.
    - Output: integer conversions print the numeral that flags, width
      and precision ask for; snprintf stays in its buffer and reports the full
      length; printing an integer and reading it back is the identity; every
      format is processed to its end; the output of threads that print at the
      same time does not mix; a panic is printed, with its place, message and
      call stack, whoever holds the console.
    - Lexical analyser: on a program text of words, operators, strings and
      integers with blanks and comments between them the scanner returns exactly
      their tokens; it reads every text to its end and stays inside its tables
      and buffers, unless 99 digits follow one another or the text ends in a
      word or in the point of a number.
    - Defects of the code are stated as theorems where modelling shows them:
      64-bit remainders are truncated to 32 bits, [memmove] returns the wrong
      pointer on upward copies, a failing [filesys_create] leaks data sectors,
      reserved words are never printed, some comments close early, a truncated
      executable makes the kernel panic, long argument lists overflow the
      stack page, some system call numbers jump to address 0, the size of a
      large malloc wraps around, processes use freed memory when their parent
      has ended, exec races with its child, extended partitions are read from
      the wrong sector, statistics of block devices are read from behind
      their array, the real-time clock is a month ahead, the second calibration
      of the timer tests the wrong value, many empty words overflow the array of
      arguments, an archive can end in a byte of garbage, removing an empty
      name succeeds, executing a command line without words panics, creating a
      file of negative size panics, the seed on the command line is lost, and
      freeing a user page can free a page table.

    Many theorems assume that allocations succeed, that sizes are in a range, or
    that no file is open; the comment of each says so.

    ** What is not modelled

    Assembly code other than switch.S (loader.S, start.S, intr-stubs.S); main
    and usage of threads/init.c, which call the modelled parts in turn or
    print; print_stacktrace and debug_backtrace_all, which walk the stacks of
    other threads, and thread_foreach, their support; printing of statistics;
    the TLB; the locks around the page and block allocators, whose models are
    sequential; the example programs, the tests and the tools for the host.
    The files process2.c, syscall2.c, lex1.c and those of the directory
    TurninFiles are old copies of code that is modelled.

    This file holds what all the others use: errors, the two monads, machine
    integers, string literals, and lemmas on lists and on arrays of rows. *)

From stdpp Require Import base list numbers gmap strings sorting.
From Stdlib Require Import ZArith Lia.
From Stdlib Require Ascii String.

#[global] Open Scope Z_scope.

(** The characters of a string literal. *)
Definition chars (s : String.string) : list Z := map (fun c => Z.of_N (Ascii.N_of_ascii c)) (String.list_ascii_of_string s).

(** ** Errors and the result monad *)

Inductive error :=
  | EAssert      (* an ASSERT failed: the kernel panics *)
  | EPanic       (* an explicit PANIC *)
  | EFault       (* access to a NULL pointer or outside an object *)
  | EDivide      (* processor divide error, #DE *)
  | EFuel.       (* the bound of a modelled loop ran out; never a behaviour of the code *)

Inductive res (A : Type) :=
  | Ok (a : A)
  | Err (e : error).
Arguments Ok {A} a.
Arguments Err {A} e.

#[export] Instance error_eq_dec : EqDecision error.
Proof. solve_decision. Defined.

#[export] Instance res_eq_dec `{EqDecision A} : EqDecision (res A).
Proof. solve_decision. Defined.

#[export] Instance res_ret : MRet res := fun A a => Ok a.
#[export] Instance res_bind : MBind res := fun A B f m =>
  match m with Ok a => f a | Err e => Err e end.
#[export] Instance res_fmap : FMap res := fun A B f m =>
  match m with Ok a => Ok (f a) | Err e => Err e end.

Definition ASSERT (b : bool) : res unit := if b then Ok tt else Err EAssert.

Definition of_option {A} (e : error) (o : option A) : res A :=
  match o with Some a => Ok a | None => Err e end.

Definition is_Ok {A} (r : res A) : bool := match r with Ok _ => true | Err _ => false end.

(** ** The state-and-error monad of stateful code *)

Definition stM (S A : Type) : Type := S -> res (A * S).

#[export] Instance stM_ret {S} : MRet (stM S) := fun A a s => Ok (a, s).
#[export] Instance stM_bind {S} : MBind (stM S) := fun A B f m s =>
  match m s with Ok (a, s') => f a s' | Err e => Err e end.

Definition get {S} : stM S S := fun s => Ok (s, s).
Definition put {S} (s : S) : stM S unit := fun _ => Ok (tt, s).
Definition modify {S} (f : S -> S) : stM S unit := fun s => Ok (tt, f s).
Definition raise {S A} (e : error) : stM S A := fun _ => Err e.
Definition lift {S A} (r : res A) : stM S A := fun s =>
  match r with Ok a => Ok (a, s) | Err e => Err e end.
Definition assertM {S} (b : bool) : stM S unit := lift (ASSERT b).

(** ** Machine integers: a w-bit value is a [Z] with its wrap-around written out *)

Definition u8 (x : Z) : Z := x mod 2 ^ 8.
Definition u32 (x : Z) : Z := x mod 2 ^ 32.
Definition u64 (x : Z) : Z := x mod 2 ^ 64.
Definition s32 (x : Z) : Z := (x + 2 ^ 31) mod 2 ^ 32 - 2 ^ 31.
Definition s64 (x : Z) : Z := (x + 2 ^ 63) mod 2 ^ 64 - 2 ^ 63.

Definition is_u8 (x : Z) : Prop := 0 <= x < 2 ^ 8.
Definition is_u32 (x : Z) : Prop := 0 <= x < 2 ^ 32.
Definition is_u64 (x : Z) : Prop := 0 <= x < 2 ^ 64.
Definition is_s32 (x : Z) : Prop := - 2 ^ 31 <= x < 2 ^ 31.
Definition is_s64 (x : Z) : Prop := - 2 ^ 63 <= x < 2 ^ 63.

(** ** Lemmas on the monads *)

Lemma bind_Ok {A B} (m : res A) (f : A -> res B) b :
  (m ≫= f) = Ok b <-> exists a, m = Ok a /\ f a = Ok b.
Proof. destruct m; naive_solver. Qed.

Lemma ASSERT_Ok b u : ASSERT b = Ok u <-> b = true.
Proof. destruct b, u; naive_solver. Qed.

Lemma stbind_Ok {S A B} (m : stM S A) (f : A -> stM S B) s r :
  (m ≫= f) s = Ok r <-> exists a s', m s = Ok (a, s') /\ f a s' = Ok r.
Proof.
  unfold mbind, stM_bind. destruct (m s) as [[a s']|e]; naive_solver.
Qed.

(** Rewriting with a known result of the first computation of a [bind]. *)
Lemma stbind_err {S A B} (m : stM S A) (f : A -> stM S B) s e :
  m s = Err e -> (m ≫= f) s = Err e.
Proof. intros H. unfold mbind, stM_bind. by rewrite H. Qed.

Lemma stbind_step {S A B} (m : stM S A) (f : A -> stM S B) s a s' :
  m s = Ok (a, s') -> (m ≫= f) s = f a s'.
Proof. intros E. unfold mbind, stM_bind. by rewrite E. Qed.

Lemma assertM_true {S} b (s : S) : b = true -> assertM b s = Ok (tt, s).
Proof. by intros ->. Qed.

(** ** Lemmas on machine integers *)

Create HintDb wrap.

Lemma u8_small x : is_u8 x -> u8 x = x.
Proof. intros. by apply Z.mod_small. Qed.
Lemma u32_small x : is_u32 x -> u32 x = x.
Proof. intros. by apply Z.mod_small. Qed.
Lemma u64_small x : is_u64 x -> u64 x = x.
Proof. intros. by apply Z.mod_small. Qed.
Lemma s32_small x : is_s32 x -> s32 x = x.
Proof. intros H. unfold s32, is_s32 in *. rewrite Z.mod_small; lia. Qed.
Lemma s64_small x : is_s64 x -> s64 x = x.
Proof. intros H. unfold s64, is_s64 in *. rewrite Z.mod_small; lia. Qed.

Lemma u8_range x : is_u8 (u8 x).
Proof. by apply Z.mod_pos_bound. Qed.
Lemma u32_range x : is_u32 (u32 x).
Proof. by apply Z.mod_pos_bound. Qed.
Lemma u64_range x : is_u64 (u64 x).
Proof. by apply Z.mod_pos_bound. Qed.
Lemma s32_range x : is_s32 (s32 x).
Proof.
  unfold s32, is_s32. pose proof (Z.mod_pos_bound (x + 2 ^ 31) (2 ^ 32)). lia.
Qed.
Lemma s64_range x : is_s64 (s64 x).
Proof.
  unfold s64, is_s64. pose proof (Z.mod_pos_bound (x + 2 ^ 63) (2 ^ 64)). lia.
Qed.

Lemma s32_ex x : exists k, s32 x = x + k * 2 ^ 32.
Proof.
  unfold s32. exists (- ((x + 2 ^ 31) / 2 ^ 32)).
  pose proof (Z.div_mod (x + 2 ^ 31) (2 ^ 32)). lia.
Qed.
Lemma s32_shift x k : s32 (x + k * 2 ^ 32) = s32 x.
Proof.
  unfold s32. f_equal. replace (x + k * 2 ^ 32 + 2 ^ 31) with (x + 2 ^ 31 + k * 2 ^ 32) by lia.
  by apply Z.mod_add.
Qed.

#[export] Hint Resolve u8_small u32_small u64_small s32_small s64_small
  u8_range u32_range u64_range s32_range s64_range : wrap.

(** ** Lemmas on lists *)

Lemma StronglySorted_lookup {A} (R : relation A) l i j x y :
  StronglySorted R l -> (i < j)%nat -> l !! i = Some x -> l !! j = Some y -> R x y.
Proof.
  intros HS. revert i j. induction HS as [|a l HS IH HF]; intros i j Hij Hx Hy; [done|].
  destruct j as [|j]; [lia|]. destruct i as [|i]; simpl in *; [|by apply (IH i j); [lia|..]].
  simplify_eq. rewrite Forall_lookup in HF. eauto.
Qed.

(** Arrays of fixed-size rows, seen as the concatenation of the rows. *)
Section Flat.
Context (n : nat).

Lemma flat_length (els : list (list Z)) :
  Forall (fun e => length e = n) els -> length (mjoin els) = (length els * n)%nat.
Proof. intros H. rewrite length_join. by apply sum_list_fmap_same. Qed.

Lemma flat_lookup (els : list (list Z)) k e j :
  Forall (fun e => length e = n) els -> els !! k = Some e -> (j < n)%nat ->
  mjoin els !! (k * n + j)%nat = e !! j.
Proof.
  intros HF Hk Hj. destruct (e !! j) as [x|] eqn:Ex.
  - apply join_lookup_Some_same_length'; [done|done|]. eauto.
  - apply lookup_ge_None in Ex. rewrite Forall_lookup in HF. specialize (HF _ _ Hk). lia.
Qed.

Lemma flat_slice (els : list (list Z)) k e :
  Forall (fun e => length e = n) els -> els !! k = Some e ->
  take n (drop (k * n) (mjoin els)) = e.
Proof.
  intros HF Hk. pose proof HF as HF'. rewrite Forall_lookup in HF'. pose proof (HF' _ _ Hk) as He.
  apply list_eq. intros j. rewrite lookup_take, lookup_drop. case_decide.
  - by apply flat_lookup.
  - symmetry. apply lookup_ge_None. lia.
Qed.

End Flat.

(** ** Tactics *)

(** Splits the hypotheses that say a monadic computation returned. *)
Ltac inv_res :=
  repeat match goal with
  | H : (_ ≫= _) = Ok _ |- _ => apply bind_Ok in H; destruct H as (? & ? & H)
  | H : ASSERT _ = Ok _ |- _ => apply ASSERT_Ok in H
  | H : mret _ = Ok _ |- _ => injection H as H
  | H : Ok _ = Ok _ |- _ => injection H as H
  | H : Err _ = Ok _ |- _ => discriminate H
  | H : Ok _ = Err _ |- _ => discriminate H
  end; subst.

(** Turns the boolean tests of the code into propositions on [Z]. *)
Ltac zbool :=
  repeat match goal with
  | H : (_ && _)%bool = true |- _ => apply andb_true_iff in H; destruct H
  | H : (_ || _)%bool = false |- _ => apply orb_false_iff in H; destruct H
  | H : negb _ = true |- _ => apply negb_true_iff in H
  | H : negb _ = false |- _ => apply negb_false_iff in H
  | H : (_ <? _) = true |- _ => apply Z.ltb_lt in H
  | H : (_ <? _) = false |- _ => apply Z.ltb_ge in H
  | H : (_ <=? _) = true |- _ => apply Z.leb_le in H
  | H : (_ <=? _) = false |- _ => apply Z.leb_gt in H
  | H : (_ =? _) = true |- _ => apply Z.eqb_eq in H
  | H : (_ =? _) = false |- _ => apply Z.eqb_neq in H
  end.
