(* ===== verification/Arithmetic.v ===== *)
(** 64-bit division on a 32-bit machine: lib/arithmetic.c.

    [divl] is the x86 instruction, with its trap as [Err EDivide]; every
    other function is the C function of the same name over [Z], with the
    wrap-around of its integer types written out. *)

From stdpp Require Import base numbers.
From Stdlib Require Import ZArith Lia.
From S2P Require Import Prelude.

(** The DIVL instruction: EDX:EAX divided by a 32-bit operand.  It traps when
    the divisor is zero or the quotient does not fit in 32 bits. *)
Definition divl (n d : Z) : res Z :=
  let n1 := u32 (Z.shiftr n 32) in
  let n0 := u32 n in
  let nd := n1 * 2 ^ 32 + n0 in
  if d =? 0 then Err EDivide
  else if 2 ^ 32 <=? nd / d then Err EDivide
  else Ok (nd / d).

(** One test of the binary search of [nlz]: shift left by [k] if [x <= m]. *)
Definition nlz (x : Z) : Z :=
  let n := 0 in
  let '(n, x) := if x <=? 0x0000FFFF then (n + 16, u32 (Z.shiftl x 16)) else (n, x) in
  let '(n, x) := if x <=? 0x00FFFFFF then (n + 8, u32 (Z.shiftl x 8)) else (n, x) in
  let '(n, x) := if x <=? 0x0FFFFFFF then (n + 4, u32 (Z.shiftl x 4)) else (n, x) in
  let '(n, x) := if x <=? 0x3FFFFFFF then (n + 2, u32 (Z.shiftl x 2)) else (n, x) in
  if x <=? 0x7FFFFFFF then n + 1 else n.

Definition udiv64 (n d : Z) : res Z :=
  if Z.shiftr d 32 =? 0 then
    let b := Z.shiftl 1 32 in
    let n1 := u32 (Z.shiftr n 32) in
    let n0 := u32 n in
    let d0 := u32 d in
    if d0 =? 0 then Err EDivide   (* n1 % d0 *)
    else
      q ← divl (u64 (b * (n1 mod d0) + n0)) d0;
      mret (u64 (q + b * (n1 / d0)))
  else if n <? d then mret 0
  else
    let d1 := u32 (Z.shiftr d 32) in
    let s := nlz d1 in
    q0 ← divl (Z.shiftr n 1) (u32 (Z.shiftr (u64 (Z.shiftl d s)) 32));
    let q := Z.shiftr q0 (31 - s) in
    mret (if u64 (n - u64 (u64 (q - 1) * d)) <? d then u64 (q - 1) else q).

Definition umod64 (n d : Z) : res Z :=
  q ← udiv64 n d;
  mret (u32 (u64 (n - u64 (d * q)))).

Definition sdiv64 (n d : Z) : res Z :=
  let n_abs := if 0 <=? n then u64 n else u64 (- u64 n) in
  let d_abs := if 0 <=? d then u64 d else u64 (- u64 d) in
  q_abs ← udiv64 n_abs d_abs;
  mret (if Bool.eqb (n <? 0) (d <? 0) then s64 q_abs else s64 (- s64 q_abs)).

Definition smod64 (n d : Z) : res Z :=
  q ← sdiv64 n d;
  mret (s32 (s64 (n - s64 (d * q)))).

(** The routines that GCC calls. *)
Definition __divdi3 (n d : Z) : res Z := sdiv64 n d.
Definition __moddi3 (n d : Z) : res Z := smod64 n d.
Definition __udivdi3 (n d : Z) : res Z := udiv64 n d.
Definition __umoddi3 (n d : Z) : res Z := umod64 n d.

(** ** Supporting lemmas *)

Lemma divl_spec n d :
  is_u64 n -> 0 < d -> n / d < 2 ^ 32 -> divl n d = Ok (n / d).
Proof.
  intros Hn Hd Hq. unfold divl, is_u64 in *.
  assert (En : u32 (Z.shiftr n 32) * 2 ^ 32 + u32 n = n).
  { unfold u32. rewrite Z.shiftr_div_pow2 by lia.
    rewrite (Z.mod_small (n / 2 ^ 32)).
    - pose proof (Z.div_mod n (2 ^ 32)). lia.
    - split; [apply Z.div_pos; lia | apply Z.div_lt_upper_bound; lia]. }
  rewrite En. destruct (Z.eqb_spec d 0) as [|_]; [lia|].
  destruct (Z.leb_spec (2 ^ 32) (n / d)); [lia|done].
Qed.

(** [nlz] normalises: shifting by it brings the top bit to position 31. *)
Lemma nlz_spec x :
  0 < x < 2 ^ 32 -> 0 <= nlz x <= 31 /\ 2 ^ 31 <= x * 2 ^ nlz x < 2 ^ 32.
Proof.
  intros Hx. unfold nlz.
  repeat match goal with
  | |- context [Z.leb ?a ?b] => destruct (Z.leb_spec a b)
  end; unfold u32 in *; rewrite ?Z.shiftl_mul_pow2 in * by lia;
  repeat match goal with
  | H : context [(?a mod 2 ^ 32)] |- _ => rewrite (Z.mod_small a (2 ^ 32)) in H by lia
  end; simpl; lia.
Qed.

(** The estimate of Hacker's Delight: dividing by the 32 leading bits of the
    normalised divisor gives the quotient or the quotient plus one. *)
Lemma estimate_bounds n d s v :
  0 <= s <= 31 -> 0 <= n < 2 ^ 64 -> d <= n ->
  2 ^ 63 <= d * 2 ^ s < 2 ^ 64 ->
  v = (d * 2 ^ s) / 2 ^ 32 ->
  n / d <= (n / 2 / v) / 2 ^ (31 - s) <= n / d + 1.
Proof.
  intros Hs Hn Hdn Hd ->.
  assert (P : exists k, k = 2 ^ (32 - s) /\ 2 ^ s * k = 2 ^ 32 /\ 2 ^ (31 - s) * 2 = k /\ 2 <= k).
  { exists (2 ^ (32 - s)). repeat split.
    - rewrite <- Z.pow_add_r by lia. f_equal; lia.
    - replace (2 ^ (31 - s) * 2) with (2 ^ (31 - s) * 2 ^ 1) by lia.
      rewrite <- Z.pow_add_r by lia. f_equal; lia.
    - change 2 with (2 ^ 1) at 1. apply Z.pow_le_mono_r; lia. }
  destruct P as (k & Ek & Esk & Ek2 & Hk2).
  assert (H2s : 0 < 2 ^ s) by (apply Z.pow_pos_nonneg; lia).
  assert (Hdpos : 0 < d) by nia.
  set (v := d * 2 ^ s / 2 ^ 32).
  assert (Hv : 2 ^ 31 <= v < 2 ^ 32).
  { unfold v. split.
    - apply Z.div_le_lower_bound; lia.
    - apply Z.div_lt_upper_bound; lia. }
  set (e := v * k).
  assert (He : e <= d <= e + k - 1).
  { pose proof (Z.div_mod (d * 2 ^ s) (2 ^ 32) ltac:(lia)) as Hm. fold v in Hm.
    pose proof (Z.mod_pos_bound (d * 2 ^ s) (2 ^ 32) ltac:(lia)).
    unfold e. rewrite <- Esk in *. split; nia. }
  assert (Eq : (n / 2 / v) / 2 ^ (31 - s) = n / e).
  { rewrite !Z.div_div by (try lia; apply Z.pow_pos_nonneg; lia).
    f_equal. unfold e. rewrite <- Ek2. ring. }
  rewrite Eq. assert (He0 : 0 < e) by (unfold e; nia).
  split.
  - apply Z.div_le_lower_bound; [lia|].
    pose proof (Z.mul_div_le n d Hdpos). pose proof (Z.div_pos n d). nia.
  - apply Z.lt_succ_r. apply Z.div_lt_upper_bound; [lia|].
    set (q := n / d).
    assert (Hq : 0 <= q) by (apply Z.div_pos; lia).
    assert (Hqd : n < (q + 1) * d).
    { pose proof (Z.mul_succ_div_gt n d Hdpos). unfold q. lia. }
    (* q + 1 <= 2 * 2^s, from n < 2^64 and d * 2^s >= 2^63 *)
    assert (Hq1 : q + 1 <= 2 * 2 ^ s).
    { assert (q < 2 * 2 ^ s); [|lia].
      apply Z.div_lt_upper_bound; nia. }
    (* (q + 1) * (d - e) <= e *)
    assert (Hprod : (q + 1) * (d - e) <= 2 * 2 ^ s * (k - 1)) by nia.
    assert (Hfin : 2 * 2 ^ s * (k - 1) <= e).
    { replace (2 * 2 ^ s * (k - 1)) with (2 ^ 33 - 2 * 2 ^ s) by lia.
      unfold e. destruct (Z.eq_dec s 31) as [->|Hs31].
      - lia.
      - assert (4 <= k).
        { rewrite Ek. change 4 with (2 ^ 2). apply Z.pow_le_mono_r; lia. }
        nia. }
    nia.
Qed.

Lemma udiv64_small n d :
  is_u64 n -> 0 < d < 2 ^ 32 -> udiv64 n d = Ok (n / d).
Proof.
  intros Hn Hd. unfold udiv64, is_u64 in *.
  rewrite Z.shiftr_div_pow2 by lia. rewrite Z.div_small by lia. simpl Z.eqb. cbv iota.
  rewrite (u32_small d) by (unfold is_u32; lia).
  destruct (Z.eqb_spec d 0) as [|_]; [lia|].
  rewrite Z.shiftr_div_pow2, Z.shiftl_1_l by lia.
  set (b := 2 ^ 32) in *. set (n1 := n / b).
  assert (Hn1 : 0 <= n1 < b).
  { unfold n1, b. split; [apply Z.div_pos; lia | apply Z.div_lt_upper_bound; lia]. }
  rewrite (u32_small n1) by done.
  assert (En : n = b * n1 + u32 n) by (apply (Z.div_mod n b); done).
  pose proof (u32_range n) as Hn0. unfold is_u32 in Hn0. fold b in Hn0.
  set (n0 := u32 n) in *.
  pose proof (Z.mod_pos_bound n1 d ltac:(lia)) as Hm.
  assert (Hx : 0 <= b * (n1 mod d) + n0 < b * d) by (unfold b in *; nia).
  rewrite u64_small by (unfold is_u64, b in *; nia).
  rewrite divl_spec; [|unfold is_u64, b in *; nia|lia|].
  2: { apply Z.div_lt_upper_bound; unfold b in *; nia. }
  simpl. unfold mret, res_ret.
  assert (Eq : (b * (n1 mod d) + n0) / d + b * (n1 / d) = n / d).
  { rewrite <- Z.div_add by lia. f_equal.
    pose proof (Z.div_mod n1 d ltac:(lia)). nia. }
  rewrite Eq, u64_small; [done|].
  unfold is_u64. split; [apply Z.div_pos; lia|].
  apply Z.div_lt_upper_bound; lia.
Qed.

Lemma udiv64_large n d :
  is_u64 n -> 2 ^ 32 <= d < 2 ^ 64 -> udiv64 n d = Ok (n / d).
Proof.
  intros Hn Hd. unfold udiv64, is_u64 in *.
  rewrite (Z.shiftr_div_pow2 d 32) by lia. set (d1 := d / 2 ^ 32).
  assert (Hd1 : 0 < d1 < 2 ^ 32).
  { unfold d1. split; [apply Z.div_str_pos; lia | apply Z.div_lt_upper_bound; lia]. }
  destruct (Z.eqb_spec d1 0) as [|_]; [lia|].
  destruct (Z.ltb_spec n d); [by rewrite Z.div_small by lia|].
  rewrite (u32_small d1) by (unfold is_u32; lia).
  destruct (nlz_spec d1 Hd1) as [Hs Hnorm]. set (s := nlz d1) in *.
  assert (H2s : 0 < 2 ^ s) by (apply Z.pow_pos_nonneg; lia).
  assert (Hd64 : 2 ^ 63 <= d * 2 ^ s < 2 ^ 64).
  { pose proof (Z.div_mod d (2 ^ 32) ltac:(lia)) as Hdm. fold d1 in Hdm.
    pose proof (Z.mod_pos_bound d (2 ^ 32) ltac:(lia)) as Hr.
    assert (E32 : 2 ^ s * 2 ^ (32 - s) = 2 ^ 32).
    { rewrite <- Z.pow_add_r by lia. f_equal; lia. }
    assert (d1 + 1 <= 2 ^ (32 - s)) by nia. split; nia. }
  rewrite Z.shiftl_mul_pow2 by lia. rewrite (u64_small (d * 2 ^ s)) by (unfold is_u64; lia).
  rewrite !Z.shiftr_div_pow2 by lia. change (2 ^ 1) with 2.
  set (v := d * 2 ^ s / 2 ^ 32).
  assert (Hv : 2 ^ 31 <= v < 2 ^ 32).
  { unfold v. split; [apply Z.div_le_lower_bound; lia | apply Z.div_lt_upper_bound; lia]. }
  rewrite (u32_small v) by (unfold is_u32; lia).
  assert (Hn2 : 0 <= n / 2 < 2 ^ 63).
  { split; [apply Z.div_pos; lia | apply Z.div_lt_upper_bound; lia]. }
  rewrite divl_spec; [|unfold is_u64; lia|lia|apply Z.div_lt_upper_bound; lia].
  cbn [mbind res_bind]. rewrite Z.shiftr_div_pow2 by lia.
  pose proof (estimate_bounds n d s v Hs Hn ltac:(lia) Hd64 eq_refl) as Hq.
  set (q := n / 2 / v / 2 ^ (31 - s)) in *. set (Q := n / d) in *.
  assert (HQ : 1 <= Q) by (apply Z.div_le_lower_bound; lia).
  pose proof (Z.mul_div_le n d ltac:(lia)) as Hlo. fold Q in Hlo.
  pose proof (Z.mul_succ_div_gt n d ltac:(lia)) as Hhi. fold Q in Hhi.
  rewrite !(u64_small (q - 1)) by (unfold is_u64; nia).
  rewrite (u64_small ((q - 1) * d)) by (unfold is_u64; nia).
  rewrite (u64_small (n - (q - 1) * d)) by (unfold is_u64; nia).
  unfold mret, res_ret. f_equal.
  destruct (Z.ltb_spec (n - (q - 1) * d) d); nia.
Qed.

Lemma udiv64_spec n d :
  is_u64 n -> is_u64 d -> d <> 0 -> udiv64 n d = Ok (n / d).
Proof.
  intros Hn Hd H0. unfold is_u64 in *. destruct (Z.lt_ge_cases d (2 ^ 32)).
  - apply udiv64_small; [done|lia].
  - apply udiv64_large; [done|lia].
Qed.

Lemma udiv64_zero n : is_u64 n -> udiv64 n 0 = Err EDivide.
Proof. done. Qed.

Lemma s64_mod a b : a mod 2 ^ 64 = b mod 2 ^ 64 -> s64 a = s64 b.
Proof.
  intros E. unfold s64. rewrite (Z.add_mod a), (Z.add_mod b), E by lia. done.
Qed.

Lemma s64_congr x : s64 x mod 2 ^ 64 = x mod 2 ^ 64.
Proof.
  unfold s64. rewrite Zminus_mod_idemp_l. f_equal. lia.
Qed.

Lemma u64_abs n :
  is_s64 n -> (if 0 <=? n then u64 n else u64 (- u64 n)) = Z.abs n.
Proof.
  intros Hn. unfold is_s64 in Hn. destruct (Z.leb_spec 0 n).
  - rewrite u64_small by (unfold is_u64; lia). lia.
  - rewrite Z.abs_neq by lia. unfold u64.
    rewrite <- (Z.mod_small (- n) (2 ^ 64)) by lia.
    rewrite <- (Z.sub_0_l (n mod 2 ^ 64)), Zminus_mod_idemp_r. f_equal.
Qed.

Lemma sdiv64_spec n d :
  is_s64 n -> is_s64 d -> d <> 0 -> sdiv64 n d = Ok (s64 (Z.quot n d)).
Proof.
  intros Hn Hd H0. unfold sdiv64. rewrite !u64_abs by done.
  unfold is_s64 in *.
  rewrite udiv64_spec by (unfold is_u64; lia).
  cbn [mbind res_bind]. unfold mret, res_ret. f_equal.
  rewrite Z.quot_div by done.
  destruct (Z.eq_dec n 0) as [->|Hn0]; [by repeat case_match|].
  destruct (Z.ltb_spec n 0), (Z.ltb_spec d 0); simpl Bool.eqb; cbv iota;
    rewrite ?(Z.sgn_neg n), ?(Z.sgn_neg d), ?(Z.sgn_pos n), ?(Z.sgn_pos d) by lia.
  - f_equal; lia.
  - apply s64_mod. rewrite <- (Z.sub_0_l (s64 _)), Zminus_mod, s64_congr, <- Zminus_mod.
    f_equal; lia.
  - apply s64_mod. rewrite <- (Z.sub_0_l (s64 _)), Zminus_mod, s64_congr, <- Zminus_mod.
    f_equal; lia.
  - f_equal; lia.
Qed.

(** ** Properties *)

(** C38. The unsigned 64-bit division routine returns the exact quotient for
    every 64-bit dividend and nonzero divisor, never trapping on the way, and
    raises the divide error exactly for a zero divisor. *)
Theorem udivdi3_correct n d :
  is_u64 n -> is_u64 d ->
  __udivdi3 n d = if d =? 0 then Err EDivide else Ok (n / d).
Proof.
  intros Hn Hd. destruct (Z.eqb_spec d 0) as [->|H0].
  - by apply udiv64_zero.
  - by apply udiv64_spec.
Qed.

Lemma udivdi3_correct_witness :
  __udivdi3 (2 ^ 64 - 1) (2 ^ 33 - 1) = Ok ((2 ^ 64 - 1) / (2 ^ 33 - 1)).
Proof.
  apply (udivdi3_correct (2 ^ 64 - 1) (2 ^ 33 - 1)); unfold is_u64; lia.
Defined.

(** Signed 64-bit division truncates toward zero, as C requires; the one
    overflowing case INT64_MIN / -1 wraps. *)
Theorem divdi3_correct n d :
  is_s64 n -> is_s64 d ->
  __divdi3 n d = if d =? 0 then Err EDivide else Ok (s64 (Z.quot n d)).
Proof.
  intros Hn Hd. destruct (Z.eqb_spec d 0) as [->|H0].
  - unfold __divdi3, sdiv64. rewrite !u64_abs by done. change (Z.abs 0) with 0.
    unfold is_s64 in Hn. by rewrite udiv64_zero by (unfold is_u64; lia).
  - by apply sdiv64_spec.
Qed.

Lemma divdi3_correct_witness :
  __divdi3 (- 2 ^ 63) (-1) = Ok (- 2 ^ 63).
Proof. apply (divdi3_correct (- 2 ^ 63) (-1)); unfold is_s64; lia. Defined.

(** The remainder routine that GCC calls for unsigned long long returns
    the remainder truncated to 32 bits, because [umod64] is declared to return
    uint32_t: it is the remainder exactly when that is below 2^32. *)
Theorem umoddi3_truncates n d :
  is_u64 n -> is_u64 d -> d <> 0 ->
  __umoddi3 n d = Ok ((n mod d) mod 2 ^ 32) /\
  (__umoddi3 n d = Ok (n mod d) <-> n mod d < 2 ^ 32).
Proof.
  intros Hn Hd H0. unfold __umoddi3, umod64. rewrite udiv64_spec by done.
  cbn [mbind res_bind]. unfold mret, res_ret, is_u64 in *.
  pose proof (Z.mod_pos_bound n d ltac:(lia)) as Hm.
  pose proof (Z.div_mod n d H0) as Hdm. pose proof (Z.div_pos n d ltac:(lia) ltac:(lia)).
  rewrite (u64_small (d * (n / d))) by (unfold is_u64; nia).
  replace (n - d * (n / d)) with (n mod d) by lia.
  rewrite u64_small by (unfold is_u64; lia). unfold u32. split; [done|].
  pose proof (Z.mod_pos_bound (n mod d) (2 ^ 32) ltac:(lia)).
  split; [injection 1; lia | intros; f_equal; apply Z.mod_small; lia].
Qed.

Lemma umoddi3_truncates_witness :
  __umoddi3 (2 ^ 33 + 5) (2 ^ 34) = Ok 5 /\ (2 ^ 33 + 5) mod 2 ^ 34 = 2 ^ 33 + 5.
Proof.
  destruct (umoddi3_truncates (2 ^ 33 + 5) (2 ^ 34)) as [E _];
    [unfold is_u64; lia..|]. split; [exact E | reflexivity].
Defined.
