(* ===== verification/Bitmap.v ===== *)
(** Bitmaps: lib/kernel/bitmap.c (all but the console dump).

    A bitmap is, as in the code, a bit count and an array of 32-bit elements
    ([elem_type] is [unsigned long] and [size_t] is 32 bits wide on the
    machine the kernel runs on).  Storage comes from [malloc] or from the
    caller; what the allocator returned is an argument of [bitmap_create].
    The file operations, which go through the file system, are in the file
    FreeMap.  [babs] is the abstract value of a bitmap, the list of its bits,
    and the theorems state every operation on it. *)

From stdpp Require Import base list numbers.
From Stdlib Require Import ZArith Lia.
From S2P Require Import Prelude.

Definition ELEM_BITS : Z := 4 * 8.
Definition BITMAP_ERROR : Z := 2 ^ 32 - 1.
Definition sizeof_bitmap : Z := 8.

Record bitmap := mk_bitmap {
  bit_cnt : Z;
  bits : list Z
}.

Definition elem_idx (bit_idx : Z) : Z := bit_idx / ELEM_BITS.

Definition bit_mask (bit_idx : Z) : Z := u32 (Z.shiftl 1 (bit_idx mod ELEM_BITS)).

Definition elem_cnt (bit_cnt : Z) : Z := u32 (bit_cnt + ELEM_BITS - 1) / ELEM_BITS.

Definition byte_cnt (bit_cnt : Z) : Z := u32 (4 * elem_cnt bit_cnt).

Definition last_mask (b : bitmap) : Z :=
  let last_bits := bit_cnt b mod ELEM_BITS in
  if negb (last_bits =? 0) then u32 (u32 (Z.shiftl 1 last_bits) - 1) else u32 (-1).

Definition bitmap_size (b : bitmap) : Z := bit_cnt b.

(** [b->bits[idx]]; an index outside the array is a fault. *)
Definition read_elem (b : bitmap) (idx : Z) : res Z :=
  of_option EFault (bits b !! Z.to_nat idx).

Definition update_elem (b : bitmap) (idx : Z) (f : Z -> Z) : res bitmap :=
  x ← read_elem b idx;
  mret (mk_bitmap (bit_cnt b) (<[Z.to_nat idx := f x]> (bits b))).

Definition bitmap_mark (b : bitmap) (bit_idx : Z) : res bitmap :=
  let idx := elem_idx bit_idx in
  let mask := bit_mask bit_idx in
  update_elem b idx (fun x => Z.lor x mask).

Definition bitmap_reset (b : bitmap) (bit_idx : Z) : res bitmap :=
  let idx := elem_idx bit_idx in
  let mask := bit_mask bit_idx in
  update_elem b idx (fun x => Z.land x (u32 (Z.lnot mask))).

Definition bitmap_flip (b : bitmap) (bit_idx : Z) : res bitmap :=
  let idx := elem_idx bit_idx in
  let mask := bit_mask bit_idx in
  update_elem b idx (fun x => Z.lxor x mask).

Definition bitmap_set (b : bitmap) (idx : Z) (value : bool) : res bitmap :=
  ASSERT (idx <? bit_cnt b);;
  if value then bitmap_mark b idx else bitmap_reset b idx.

Definition bitmap_test (b : bitmap) (idx : Z) : res bool :=
  ASSERT (idx <? bit_cnt b);;
  x ← read_elem b (elem_idx idx);
  mret (negb (Z.land x (bit_mask idx) =? 0)).

(** The loops run while [i < cnt]; [k] is the number of iterations left. *)
Fixpoint set_multiple_loop (k : nat) (i : Z) (b : bitmap) (start : Z) (value : bool)
    : res bitmap :=
  match k with
  | O => mret b
  | S k' =>
      b' ← bitmap_set b (u32 (start + i)) value;
      set_multiple_loop k' (i + 1) b' start value
  end.

Definition bitmap_set_multiple (b : bitmap) (start cnt : Z) (value : bool) : res bitmap :=
  ASSERT (start <=? bit_cnt b);;
  ASSERT (u32 (start + cnt) <=? bit_cnt b);;
  set_multiple_loop (Z.to_nat cnt) 0 b start value.

Definition bitmap_set_all (b : bitmap) (value : bool) : res bitmap :=
  bitmap_set_multiple b 0 (bitmap_size b) value.

Fixpoint count_loop (k : nat) (i : Z) (b : bitmap) (start : Z) (value : bool)
    (value_cnt : Z) : res Z :=
  match k with
  | O => mret value_cnt
  | S k' =>
      t ← bitmap_test b (u32 (start + i));
      count_loop k' (i + 1) b start value
        (if Bool.eqb t value then u32 (value_cnt + 1) else value_cnt)
  end.

Definition bitmap_count (b : bitmap) (start cnt : Z) (value : bool) : res Z :=
  ASSERT (start <=? bit_cnt b);;
  ASSERT (u32 (start + cnt) <=? bit_cnt b);;
  count_loop (Z.to_nat cnt) 0 b start value 0.

Fixpoint contains_loop (k : nat) (i : Z) (b : bitmap) (start : Z) (value : bool) : res bool :=
  match k with
  | O => mret false
  | S k' =>
      t ← bitmap_test b (u32 (start + i));
      if Bool.eqb t value then mret true
      else contains_loop k' (i + 1) b start value
  end.

Definition bitmap_contains (b : bitmap) (start cnt : Z) (value : bool) : res bool :=
  ASSERT (start <=? bit_cnt b);;
  ASSERT (u32 (start + cnt) <=? bit_cnt b);;
  contains_loop (Z.to_nat cnt) 0 b start value.

Definition bitmap_any (b : bitmap) (start cnt : Z) : res bool :=
  bitmap_contains b start cnt true.

Definition bitmap_none (b : bitmap) (start cnt : Z) : res bool :=
  negb <$> bitmap_contains b start cnt true.

Definition bitmap_all (b : bitmap) (start cnt : Z) : res bool :=
  negb <$> bitmap_contains b start cnt false.

Fixpoint scan_loop (k : nat) (i : Z) (b : bitmap) (cnt : Z) (value : bool) : res Z :=
  match k with
  | O => mret BITMAP_ERROR
  | S k' =>
      c ← bitmap_contains b i cnt (negb value);
      if negb c then mret i else scan_loop k' (i + 1) b cnt value
  end.

Definition bitmap_scan (b : bitmap) (start cnt : Z) (value : bool) : res Z :=
  ASSERT (start <=? bit_cnt b);;
  if cnt <=? bit_cnt b then
    let last := bit_cnt b - cnt in
    scan_loop (Z.to_nat (last + 1 - start)) start b cnt value
  else mret BITMAP_ERROR.

Definition bitmap_scan_and_flip (b : bitmap) (start cnt : Z) (value : bool)
    : res (Z * bitmap) :=
  idx ← bitmap_scan b start cnt value;
  if negb (idx =? BITMAP_ERROR) then
    b' ← bitmap_set_multiple b idx cnt (negb value);
    mret (idx, b')
  else mret (idx, b).

(** Creation.  [struct_ok] tells whether the first [malloc] succeeded and
    [mem] is the block the second one returned, with whatever it held. *)
Definition bitmap_create (struct_ok : bool) (mem : option (list Z)) (cnt : Z)
    : res (option bitmap) :=
  if struct_ok then
    if (match mem with Some _ => true | None => false end) || (cnt =? 0) then
      b ← bitmap_set_all (mk_bitmap cnt (default [] mem)) false;
      mret (Some b)
    else mret None
  else mret None.

Definition bitmap_buf_size (cnt : Z) : Z := u32 (sizeof_bitmap + byte_cnt cnt).

(** [block] is the caller's storage as 32-bit words; the bitmap's elements
    follow its two-word header. *)
Definition bitmap_create_in_buf (cnt : Z) (block : list Z) (block_size : Z) : res bitmap :=
  ASSERT (bitmap_buf_size cnt <=? block_size);;
  bitmap_set_all (mk_bitmap cnt (drop 2 block)) false.

(** ** Abstract value *)

Definition bget (b : bitmap) (i : Z) : bool :=
  Z.testbit (nth (Z.to_nat (i / 32)) (bits b) 0) (i mod 32).

Definition babs (b : bitmap) : list bool :=
  map (fun i => bget b (Z.of_nat i)) (seq 0 (Z.to_nat (bit_cnt b))).

(** The type invariant of a bitmap: enough 32-bit elements for its bits, and
    a size for which the element count does not overflow. *)
Definition bitmap_wf (b : bitmap) : Prop :=
  0 <= bit_cnt b <= 2 ^ 32 - ELEM_BITS /\
  elem_cnt (bit_cnt b) <= Z.of_nat (length (bits b)) /\
  Forall is_u32 (bits b).

(** The bits from [i] up to [i + cnt], as the scanning operations read them. *)
Definition run_of (l : list bool) (i cnt : nat) (v : bool) : Prop :=
  take cnt (drop i l) = replicate cnt v.

(** ** Supporting lemmas *)

Lemma elem_cnt_eq n : 0 <= n <= 2 ^ 32 - ELEM_BITS -> elem_cnt n = (n + 31) / 32.
Proof.
  intros H. unfold elem_cnt, ELEM_BITS in *. rewrite u32_small by (unfold is_u32; lia).
  f_equal; lia.
Qed.

Lemma wf_index b i :
  bitmap_wf b -> 0 <= i < bit_cnt b -> (Z.to_nat (i / 32) < length (bits b))%nat.
Proof.
  intros (Hc & Hl & _) Hi. rewrite elem_cnt_eq in Hl by done.
  pose proof (Z.div_mod (bit_cnt b + 31) 32 ltac:(lia)).
  pose proof (Z.div_mod i 32 ltac:(lia)).
  pose proof (Z.mod_pos_bound (bit_cnt b + 31) 32 ltac:(lia)).
  pose proof (Z.mod_pos_bound i 32 ltac:(lia)). lia.
Qed.

Lemma read_elem_wf b i :
  bitmap_wf b -> 0 <= i < bit_cnt b ->
  read_elem b (elem_idx i) = Ok (nth (Z.to_nat (i / 32)) (bits b) 0).
Proof.
  intros Hwf Hi. unfold read_elem, elem_idx. change ELEM_BITS with 32.
  destruct (nth_lookup_or_length (bits b) (Z.to_nat (i / 32)) 0) as [->|H]; [done|].
  pose proof (wf_index b i Hwf Hi). lia.
Qed.

Lemma bit_mask_eq i : bit_mask i = 2 ^ (i mod 32).
Proof.
  unfold bit_mask. change ELEM_BITS with 32. rewrite Z.shiftl_1_l. apply u32_small.
  pose proof (Z.mod_pos_bound i 32 ltac:(lia)). unfold is_u32. split; [lia|].
  apply Z.pow_lt_mono_r; lia.
Qed.

Lemma testbit_u32_high x j : is_u32 x -> 32 <= j -> Z.testbit x j = false.
Proof.
  intros Hx Hj. unfold is_u32 in Hx. apply Z.bits_above_log2; [lia|].
  destruct (Z.eq_dec x 0) as [->|]; [simpl; lia|].
  apply Z.log2_lt_pow2; [lia|]. apply Z.lt_le_trans with (2 ^ 32); [lia|].
  apply Z.pow_le_mono_r; lia.
Qed.

Lemma is_u32_bits x : 0 <= x -> (forall j, 32 <= j -> Z.testbit x j = false) -> is_u32 x.
Proof.
  intros H0 Hb. split; [done|]. destruct (Z.eq_dec x 0) as [->|]; [lia|].
  apply Z.log2_lt_pow2; [lia|]. destruct (Z.lt_ge_cases (Z.log2 x) 32) as [|Hge]; [done|].
  specialize (Hb _ Hge). rewrite Z.bit_log2 in Hb by lia. done.
Qed.

(** Each single-bit operation changes one element by a function that is
    known bit by bit. *)
Lemma update_elem_spec b i f (g : bool -> bool) :
  bitmap_wf b -> 0 <= i < bit_cnt b ->
  (forall x j, is_u32 x -> 0 <= j < 32 ->
     Z.testbit (f x) j = if j =? i mod 32 then g (Z.testbit x j) else Z.testbit x j) ->
  (forall x, is_u32 x -> is_u32 (f x)) ->
  exists b', update_elem b (elem_idx i) f = Ok b' /\ bitmap_wf b' /\
    bit_cnt b' = bit_cnt b /\
    forall j, 0 <= j -> bget b' j = if j =? i then g (bget b j) else bget b j.
Proof.
  intros Hwf Hi Hf Hu. unfold update_elem. rewrite read_elem_wf by done.
  cbn [mbind res_bind]. eexists; split; [done|].
  pose proof (wf_index b i Hwf Hi) as Hlt. destruct Hwf as (Hc & Hl & HF).
  unfold elem_idx. change ELEM_BITS with 32.
  set (x := nth (Z.to_nat (i / 32)) (bits b) 0).
  assert (Hx : is_u32 x).
  { unfold x. rewrite Forall_forall in HF. by apply HF, nth_In. }
  split; [|split; [done|]].
  - split; [done|]. simpl. rewrite length_insert. split; [done|].
    apply Forall_insert; auto.
  - intros j Hj. unfold bget. simpl.
    pose proof (Z.mod_pos_bound j 32 ltac:(lia)).
    pose proof (Z.div_mod j 32 ltac:(lia)). pose proof (Z.div_mod i 32 ltac:(lia)).
    destruct (decide (Z.to_nat (i / 32) = Z.to_nat (j / 32))) as [E|E].
    + rewrite <- E. rewrite (nth_lookup (<[_:=_]> _)), list_lookup_insert_eq by done. simpl.
      rewrite Hf by done.
      assert (i / 32 = j / 32).
      { apply Z2Nat.inj; [apply Z.div_pos; lia|apply Z.div_pos; lia|done]. }
      destruct (Z.eqb_spec (j mod 32) (i mod 32)), (Z.eqb_spec j i); try done; lia.
    + rewrite (nth_lookup (<[_:=_]> _)), list_lookup_insert_ne, <- nth_lookup by done.
      destruct (Z.eqb_spec j i) as [->|]; [done|done].
Qed.

Lemma bitmap_mark_spec b i :
  bitmap_wf b -> 0 <= i < bit_cnt b ->
  exists b', bitmap_mark b i = Ok b' /\ bitmap_wf b' /\ bit_cnt b' = bit_cnt b /\
    forall j, 0 <= j -> bget b' j = if j =? i then true else bget b j.
Proof.
  intros Hwf Hi. unfold bitmap_mark. rewrite bit_mask_eq.
  pose proof (Z.mod_pos_bound i 32 ltac:(lia)).
  apply (update_elem_spec b i _ (fun _ => true)); [done..| |].
  - intros x j Hx Hj. rewrite Z.lor_spec, Z.pow2_bits_eqb by lia.
    rewrite Z.eqb_sym. destruct (Z.eqb_spec j (i mod 32)); [apply orb_true_r | apply orb_false_r].
  - intros x Hx. unfold is_u32 in Hx. apply is_u32_bits.
    + apply Z.lor_nonneg; lia.
    + intros j Hj. rewrite Z.lor_spec, Z.pow2_bits_false, testbit_u32_high by (done || lia). done.
Qed.

Lemma bitmap_reset_spec b i :
  bitmap_wf b -> 0 <= i < bit_cnt b ->
  exists b', bitmap_reset b i = Ok b' /\ bitmap_wf b' /\ bit_cnt b' = bit_cnt b /\
    forall j, 0 <= j -> bget b' j = if j =? i then false else bget b j.
Proof.
  intros Hwf Hi. unfold bitmap_reset. rewrite bit_mask_eq.
  pose proof (Z.mod_pos_bound i 32 ltac:(lia)).
  apply (update_elem_spec b i _ (fun _ => false)); [done..| |].
  - intros x j Hx Hj. unfold u32.
    rewrite Z.land_spec, Z.mod_pow2_bits_low, Z.lnot_spec, Z.pow2_bits_eqb by lia.
    rewrite Z.eqb_sym. destruct (Z.eqb_spec j (i mod 32)); simpl;
      [apply andb_false_r | apply andb_true_r].
  - intros x Hx. pose proof Hx as [Hx0 _]. apply is_u32_bits.
    + apply Z.land_nonneg; lia.
    + intros j Hj. by rewrite Z.land_spec, testbit_u32_high.
Qed.

Lemma bitmap_flip_spec b i :
  bitmap_wf b -> 0 <= i < bit_cnt b ->
  exists b', bitmap_flip b i = Ok b' /\ bitmap_wf b' /\ bit_cnt b' = bit_cnt b /\
    forall j, 0 <= j -> bget b' j = if j =? i then negb (bget b j) else bget b j.
Proof.
  intros Hwf Hi. unfold bitmap_flip. rewrite bit_mask_eq.
  pose proof (Z.mod_pos_bound i 32 ltac:(lia)).
  apply (update_elem_spec b i _ negb); [done..| |].
  - intros x j Hx Hj. rewrite Z.lxor_spec, Z.pow2_bits_eqb by lia.
    rewrite Z.eqb_sym. destruct (Z.eqb_spec j (i mod 32)); [apply xorb_true_r | apply xorb_false_r].
  - intros x Hx. pose proof Hx as [Hx0 _]. apply is_u32_bits.
    + apply Z.lxor_nonneg. split; [lia|]. intros; lia.
    + intros j Hj. rewrite Z.lxor_spec, Z.pow2_bits_false, testbit_u32_high by (done || lia). done.
Qed.

Lemma bitmap_set_spec b i v :
  bitmap_wf b -> 0 <= i < bit_cnt b ->
  exists b', bitmap_set b i v = Ok b' /\ bitmap_wf b' /\ bit_cnt b' = bit_cnt b /\
    forall j, 0 <= j -> bget b' j = if j =? i then v else bget b j.
Proof.
  intros Hwf Hi. unfold bitmap_set. rewrite (proj2 (Z.ltb_lt _ _)) by lia. simpl.
  destruct v; [by apply bitmap_mark_spec | by apply bitmap_reset_spec].
Qed.

Lemma bitmap_test_spec b i :
  bitmap_wf b -> 0 <= i < bit_cnt b -> bitmap_test b i = Ok (bget b i).
Proof.
  intros Hwf Hi. unfold bitmap_test. rewrite (proj2 (Z.ltb_lt _ _)) by lia. simpl.
  rewrite read_elem_wf by done. cbn [mbind res_bind]. unfold mret, res_ret. f_equal.
  rewrite bit_mask_eq. unfold bget. set (x := nth _ _ _).
  pose proof (Z.mod_pos_bound i 32 ltac:(lia)).
  destruct (Z.testbit x (i mod 32)) eqn:E.
  - apply negb_true_iff, Z.eqb_neq. intros E0.
    assert (Z.testbit (Z.land x (2 ^ (i mod 32))) (i mod 32) = true) as Ht.
    { by rewrite Z.land_spec, E, Z.pow2_bits_true by lia. }
    rewrite E0, Z.bits_0 in Ht. done.
  - apply negb_false_iff, Z.eqb_eq. apply Z.bits_inj'. intros j Hj.
    rewrite Z.bits_0, Z.land_spec, Z.pow2_bits_eqb by lia.
    destruct (Z.eqb_spec (i mod 32) j) as [<-|]; [by rewrite E|apply andb_false_r].
Qed.

Lemma length_babs b : length (babs b) = Z.to_nat (bit_cnt b).
Proof. unfold babs. by rewrite length_map, length_seq. Qed.

Lemma lookup_babs b (i : nat) :
  (i < Z.to_nat (bit_cnt b))%nat -> babs b !! i = Some (bget b (Z.of_nat i)).
Proof.
  intros Hi. unfold babs. change (map ?f ?l) with (f <$> l).
  rewrite list_lookup_fmap, lookup_seq_lt by done. done.
Qed.

(** The bitmap operations never wrap on indices inside the bitmap. *)
Lemma u32_index b x : bitmap_wf b -> 0 <= x <= bit_cnt b -> u32 x = x.
Proof. intros (H & _) ?. apply u32_small. unfold is_u32, ELEM_BITS in *. lia. Qed.

Lemma range_checks b start cnt {A} (k : res A) :
  bitmap_wf b -> 0 <= start -> 0 <= cnt -> start + cnt <= bit_cnt b ->
  (ASSERT (start <=? bit_cnt b);; ASSERT (u32 (start + cnt) <=? bit_cnt b);; k) = k.
Proof.
  intros Hwf ???. rewrite (u32_index b) by (done || lia).
  by rewrite !(proj2 (Z.leb_le _ _)) by lia.
Qed.

Lemma set_multiple_loop_spec k : forall i b start v,
  bitmap_wf b -> 0 <= start -> 0 <= i -> start + i + Z.of_nat k <= bit_cnt b ->
  exists b', set_multiple_loop k i b start v = Ok b' /\ bitmap_wf b' /\
    bit_cnt b' = bit_cnt b /\
    forall j, 0 <= j ->
      bget b' j = if (start + i <=? j) && (j <? start + i + Z.of_nat k) then v else bget b j.
Proof.
  induction k as [|k IH]; intros i b start v Hwf Hs Hi Hk.
  - exists b. split_and!; [done..|]. intros j Hj.
    destruct (Z.leb_spec (start + i) j), (Z.ltb_spec j (start + i + Z.of_nat 0)); simpl; done || lia.
  - simpl set_multiple_loop. rewrite (u32_index b) by (done || lia).
    destruct (bitmap_set_spec b (start + i) v) as (b1 & -> & Hwf1 & Hc1 & Hg1); [done|lia|].
    destruct (IH (i + 1) b1 start v) as (b2 & E & Hwf2 & Hc2 & Hg2); [done|lia..|].
    exists b2. cbn [mbind res_bind]. split_and!; [done|done|congruence|]. intros j Hj.
    rewrite Hg2, Hg1 by done.
    destruct (Z.leb_spec (start + (i + 1)) j), (Z.ltb_spec j (start + (i + 1) + Z.of_nat k)),
      (Z.leb_spec (start + i) j), (Z.ltb_spec j (start + i + Z.of_nat (S k))),
      (Z.eqb_spec j (start + i)); simpl; done || lia.
Qed.

Lemma bitmap_set_multiple_spec b (start cnt : nat) v :
  bitmap_wf b -> (start + cnt <= length (babs b))%nat ->
  exists b', bitmap_set_multiple b (Z.of_nat start) (Z.of_nat cnt) v = Ok b' /\
    bitmap_wf b' /\ bit_cnt b' = bit_cnt b /\
    babs b' = take start (babs b) ++ replicate cnt v ++ drop (start + cnt) (babs b).
Proof.
  intros Hwf Hr. rewrite length_babs in Hr. pose proof (proj1 Hwf). unfold bitmap_set_multiple.
  rewrite range_checks by (done || lia). rewrite Nat2Z.id.
  destruct (set_multiple_loop_spec cnt 0 b (Z.of_nat start) v) as (b' & -> & Hwf' & Hc & Hg);
    [done|lia..|].
  exists b'. split_and!; [done..|]. apply list_eq. intros j.
  destruct (decide (j < Z.to_nat (bit_cnt b))%nat) as [Hj|Hj].
  - rewrite lookup_babs, Hg by lia.
    destruct (Z.leb_spec (Z.of_nat start + 0) (Z.of_nat j)).
    + rewrite lookup_app_r; rewrite length_take, length_babs, Nat.min_l by lia; [|lia].
      destruct (Z.ltb_spec (Z.of_nat j) (Z.of_nat start + 0 + Z.of_nat cnt)); simpl.
      * rewrite lookup_app_l by (rewrite length_replicate; lia).
        by rewrite lookup_replicate_2 by lia.
      * rewrite lookup_app_r; rewrite length_replicate; [|lia].
        rewrite lookup_drop, lookup_babs by lia. do 2 f_equal; lia.
    + simpl. rewrite lookup_app_l by (rewrite length_take, length_babs; lia).
      rewrite lookup_take, decide_True by lia. by rewrite lookup_babs by lia.
  - rewrite !lookup_ge_None_2; [done| |rewrite length_babs; lia].
    rewrite !length_app, length_take, length_replicate, length_drop, length_babs. lia.
Qed.

Lemma drop_babs b (n : nat) :
  (n < Z.to_nat (bit_cnt b))%nat ->
  drop n (babs b) = bget b (Z.of_nat n) :: drop (S n) (babs b).
Proof. intros Hn. apply drop_S, lookup_babs, Hn. Qed.

Lemma contains_loop_spec k : forall i b start v,
  bitmap_wf b -> 0 <= start -> 0 <= i -> start + i + Z.of_nat k <= bit_cnt b ->
  contains_loop k i b start v =
    Ok (bool_decide (v ∈ take k (drop (Z.to_nat (start + i)) (babs b)))).
Proof.
  induction k as [|k IH]; intros i b start v Hwf Hs Hi Hk.
  - done.
  - simpl contains_loop. rewrite (u32_index b) by (done || lia).
    rewrite bitmap_test_spec by (done || lia). cbn [mbind res_bind].
    rewrite drop_babs by lia. rewrite Z2Nat.id by lia. simpl take.
    destruct (Bool.eqb_spec (bget b (start + i)) v) as [E|E].
    + rewrite bool_decide_true; [done|]. rewrite E. apply list_elem_of_here.
    + rewrite IH by (done || lia). f_equal.
      replace (Z.to_nat (start + (i + 1))) with (S (Z.to_nat (start + i))) by lia.
      apply bool_decide_ext. rewrite elem_of_cons. split; [by right | by intros [->|?]].
Qed.

Lemma bitmap_contains_spec b (start cnt : nat) v :
  bitmap_wf b -> (start + cnt <= length (babs b))%nat ->
  bitmap_contains b (Z.of_nat start) (Z.of_nat cnt) v =
    Ok (bool_decide (v ∈ take cnt (drop start (babs b)))).
Proof.
  intros Hwf Hr. rewrite length_babs in Hr. pose proof (proj1 Hwf). unfold bitmap_contains.
  rewrite range_checks by (done || lia). rewrite Nat2Z.id.
  rewrite contains_loop_spec by (done || lia). by rewrite Z.add_0_r, Nat2Z.id.
Qed.

Lemma count_loop_spec k : forall i b start v c,
  bitmap_wf b -> 0 <= start -> 0 <= i -> start + i + Z.of_nat k <= bit_cnt b ->
  0 <= c <= start + i ->
  count_loop k i b start v c =
    Ok (c + Z.of_nat (length (filter (.= v) (take k (drop (Z.to_nat (start + i)) (babs b)))))).
Proof.
  induction k as [|k IH]; intros i b start v c Hwf Hs Hi Hk Hc.
  - simpl. unfold mret, res_ret. f_equal; lia.
  - simpl count_loop. rewrite (u32_index b (start + i)) by (done || lia).
    rewrite bitmap_test_spec by (done || lia). cbn [mbind res_bind].
    rewrite drop_babs by lia. rewrite Z2Nat.id by lia. simpl take.
    rewrite (u32_index b (c + 1)) by (done || lia).
    rewrite IH; [|done|lia..|destruct Bool.eqb; lia].
    replace (Z.to_nat (start + (i + 1))) with (S (Z.to_nat (start + i))) by lia.
    rewrite filter_cons.
    destruct (Bool.eqb_spec (bget b (start + i)) v); case_decide; try done;
      f_equal; simpl length; lia.
Qed.

(** A range holds only [v] exactly when it does not contain the other value. *)
Lemma run_of_not_elem l i cnt v :
  (i + cnt <= length l)%nat -> run_of l i cnt v <-> negb v ∉ take cnt (drop i l).
Proof.
  intros Hr. unfold run_of.
  assert (Hlen : length (take cnt (drop i l)) = cnt) by (rewrite length_take, length_drop; lia).
  split.
  - intros ->. rewrite elem_of_replicate. destruct v; naive_solver.
  - intros Hn. symmetry. apply replicate_as_Forall_2; [done|].
    apply Forall_forall. intros x Hx. apply list_elem_of_In in Hx.
    destruct x, v; done.
Qed.

(** What a scan promises: the first position at or after [start] where [cnt]
    bits all equal [v], or [BITMAP_ERROR] when there is none. *)
Definition first_run (l : list bool) (start cnt : nat) (v : bool) (r : Z) : Prop :=
  (exists i, r = Z.of_nat i /\ (start <= i)%nat /\ (i + cnt <= length l)%nat /\
     run_of l i cnt v /\ forall j, (start <= j < i)%nat -> ~ run_of l j cnt v) \/
  (r = BITMAP_ERROR /\
   forall j, (start <= j)%nat -> (j + cnt <= length l)%nat -> ~ run_of l j cnt v).

Lemma scan_loop_spec k : forall i b (cnt : nat) v,
  bitmap_wf b -> (cnt <= length (babs b))%nat ->
  (i + k = length (babs b) - cnt + 1 \/ k = 0 /\ length (babs b) - cnt + 1 <= i)%nat ->
  exists r, scan_loop k (Z.of_nat i) b (Z.of_nat cnt) v = Ok r /\
    first_run (babs b) i cnt v r.
Proof.
  induction k as [|k IH]; intros i b cnt v Hwf Hc Hk.
  - exists BITMAP_ERROR. split; [done|]. right. split; [done|]. intros; lia.
  - simpl scan_loop. rewrite bitmap_contains_spec by (done || lia). cbn [mbind res_bind].
    case_bool_decide as Hin; simpl.
    + replace (Z.of_nat i + 1) with (Z.of_nat (S i)) by lia.
      destruct (IH (S i) b cnt v) as (r & -> & Hr); [done|done|lia|].
      exists r. split; [done|]. assert (Hno : ~ run_of (babs b) i cnt v).
      { rewrite run_of_not_elem by lia. naive_solver. }
      destruct Hr as [(i' & -> & ? & ? & ? & Hmin)|[-> Hmin]]; [left; exists i'|right].
      * split_and!; [done|lia|lia|done|]. intros j Hj.
        destruct (decide (j = i)) as [->|]; [done|]. apply Hmin; lia.
      * split; [done|]. intros j Hj Hl.
        destruct (decide (j = i)) as [->|]; [done|]. apply Hmin; lia.
    + exists (Z.of_nat i). split; [done|]. left. exists i.
      split_and!; [done|lia|lia| |intros; lia]. by apply run_of_not_elem; [lia|].
Qed.

Lemma bitmap_scan_spec b (start cnt : nat) v :
  bitmap_wf b -> (start <= length (babs b))%nat ->
  exists r, bitmap_scan b (Z.of_nat start) (Z.of_nat cnt) v = Ok r /\
    first_run (babs b) start cnt v r.
Proof.
  intros Hwf Hs. pose proof (proj1 Hwf). rewrite length_babs in Hs. unfold bitmap_scan.
  rewrite (proj2 (Z.leb_le (Z.of_nat start) _)) by lia. simpl.
  destruct (Z.leb_spec (Z.of_nat cnt) (bit_cnt b)).
  - apply scan_loop_spec; rewrite ?length_babs; [done|lia|lia].
  - exists BITMAP_ERROR. split; [done|]. right. split; [done|].
    intros j ?. rewrite length_babs. lia.
Qed.

(** A found run is never [BITMAP_ERROR]: positions are below the bit count. *)
Lemma first_run_found b start cnt v (i : nat) :
  bitmap_wf b -> (i <= length (babs b))%nat -> first_run (babs b) start cnt v (Z.of_nat i) ->
  (Z.of_nat i =? BITMAP_ERROR) = false.
Proof.
  intros ((_ & Hb) & _) Hi _. rewrite length_babs in Hi.
  unfold BITMAP_ERROR, ELEM_BITS in *. apply Z.eqb_neq. lia.
Qed.

Lemma bitmap_scan_and_flip_spec b (start cnt : nat) v :
  bitmap_wf b -> (start <= length (babs b))%nat ->
  exists r b', bitmap_scan_and_flip b (Z.of_nat start) (Z.of_nat cnt) v = Ok (r, b') /\
    bitmap_wf b' /\ bit_cnt b' = bit_cnt b /\ first_run (babs b) start cnt v r /\
    (r = BITMAP_ERROR /\ b' = b \/
     exists i, r = Z.of_nat i /\ (start <= i)%nat /\ (i + cnt <= length (babs b))%nat /\
       babs b' = take i (babs b) ++ replicate cnt (negb v) ++ drop (i + cnt) (babs b)).
Proof.
  intros Hwf Hs. unfold bitmap_scan_and_flip.
  destruct (bitmap_scan_spec b start cnt v Hwf Hs) as (r & -> & Hr). cbn [mbind res_bind].
  pose proof Hr as [(i & -> & Hsi & Hi & _ & _)|[-> _]].
  - rewrite (first_run_found b start cnt v i) by (done || lia). simpl.
    destruct (bitmap_set_multiple_spec b i cnt (negb v)) as (b' & -> & Hwf' & Hc & Ha);
      [done|lia|].
    exists (Z.of_nat i), b'. split_and!; [done..|]. right. by exists i.
  - rewrite Z.eqb_refl. simpl. exists BITMAP_ERROR, b. split_and!; [done..|]. by left.
Qed.

Lemma bitmap_set_all_spec b v :
  bitmap_wf b ->
  exists b', bitmap_set_all b v = Ok b' /\ bitmap_wf b' /\ bit_cnt b' = bit_cnt b /\
    babs b' = replicate (Z.to_nat (bit_cnt b)) v.
Proof.
  intros Hwf. unfold bitmap_set_all, bitmap_size. pose proof (proj1 Hwf).
  destruct (bitmap_set_multiple_spec b 0 (Z.to_nat (bit_cnt b)) v)
    as (b' & E & Hwf' & Hc & Ha); [done|by rewrite length_babs|].
  rewrite Z2Nat.id in E by lia. exists b'. split_and!; [done..|].
  rewrite Ha. simpl. rewrite drop_ge by (by rewrite length_babs). apply app_nil_r.
Qed.

(** ** Properties *)

(** Setting a range of bits refines the list update: on a well-formed
    bitmap and an in-range request it returns a well-formed bitmap of the same
    size whose bits are the old ones with exactly the requested range replaced. *)
Theorem bitmap_set_multiple_refines b (start cnt : nat) v :
  bitmap_wf b -> (start + cnt <= length (babs b))%nat ->
  exists b', bitmap_set_multiple b (Z.of_nat start) (Z.of_nat cnt) v = Ok b' /\
    bitmap_wf b' /\ bit_cnt b' = bit_cnt b /\
    babs b' = take start (babs b) ++ replicate cnt v ++ drop (start + cnt) (babs b).
Proof. apply bitmap_set_multiple_spec. Qed.

Definition sample_bitmap : bitmap := mk_bitmap 40 [0xF0F0; 0x1].

Lemma sample_bitmap_wf : bitmap_wf sample_bitmap.
Proof. split; [vm_compute; split; discriminate|]. split; [done|].
  repeat constructor; vm_compute; congruence. Defined.

Lemma bitmap_set_multiple_refines_witness :
  exists b', bitmap_set_multiple sample_bitmap 30 6 true = Ok b' /\ bitmap_wf b'.
Proof.
  destruct (bitmap_set_multiple_refines sample_bitmap 30 6 true) as (b' & E & Hwf & _).
  - exact sample_bitmap_wf.
  - vm_compute. lia.
  - exists b'. split; assumption.
Defined.

(** [bitmap_scan] returns the least position at or after START of a run of
    CNT bits equal to VALUE, and BITMAP_ERROR exactly when there is none; it
    always returns. *)
Theorem bitmap_scan_first_fit b (start cnt : nat) v :
  bitmap_wf b -> (start <= length (babs b))%nat ->
  exists r, bitmap_scan b (Z.of_nat start) (Z.of_nat cnt) v = Ok r /\
    first_run (babs b) start cnt v r.
Proof. apply bitmap_scan_spec. Qed.

Lemma bitmap_scan_first_fit_witness :
  exists r, bitmap_scan sample_bitmap 0 5 false = Ok r /\
    first_run (babs sample_bitmap) 0 5 false r.
Proof.
  apply (bitmap_scan_first_fit sample_bitmap 0 5 false); [exact sample_bitmap_wf | vm_compute; lia].
Defined.

(** [bitmap_scan_and_flip] allocates: it returns the first run of CNT bits
    equal to VALUE and inverts that run and no other bit, or returns
    BITMAP_ERROR and leaves the bitmap alone when no such run exists. *)
Theorem bitmap_scan_and_flip_allocates b (start cnt : nat) v :
  bitmap_wf b -> (start <= length (babs b))%nat ->
  exists r b', bitmap_scan_and_flip b (Z.of_nat start) (Z.of_nat cnt) v = Ok (r, b') /\
    bitmap_wf b' /\ bit_cnt b' = bit_cnt b /\ first_run (babs b) start cnt v r /\
    (r = BITMAP_ERROR /\ b' = b \/
     exists i, r = Z.of_nat i /\ (start <= i)%nat /\ (i + cnt <= length (babs b))%nat /\
       babs b' = take i (babs b) ++ replicate cnt (negb v) ++ drop (i + cnt) (babs b)).
Proof. apply bitmap_scan_and_flip_spec. Qed.

Lemma bitmap_scan_and_flip_allocates_witness :
  exists r b', bitmap_scan_and_flip sample_bitmap 0 5 false = Ok (r, b') /\ bitmap_wf b'.
Proof.
  destruct (bitmap_scan_and_flip_allocates sample_bitmap 0 5 false)
    as (r & b' & E & Hwf & _).
  - exact sample_bitmap_wf.
  - vm_compute. lia.
  - exists r, b'. split; assumption.
Defined.

(** [bitmap_count] returns the number of bits equal to VALUE in the range. *)
Theorem bitmap_count_counts b (start cnt : nat) v :
  bitmap_wf b -> (start + cnt <= length (babs b))%nat ->
  bitmap_count b (Z.of_nat start) (Z.of_nat cnt) v =
    Ok (Z.of_nat (length (filter (.= v) (take cnt (drop start (babs b)))))).
Proof.
  intros Hwf Hr. rewrite length_babs in Hr. pose proof (proj1 Hwf). unfold bitmap_count.
  rewrite range_checks by (done || lia). rewrite Nat2Z.id.
  rewrite count_loop_spec by (done || lia). by rewrite Z.add_0_r, Nat2Z.id.
Qed.

Lemma bitmap_count_counts_witness : bitmap_count sample_bitmap 2 10 true = Ok 4.
Proof.
  apply (bitmap_count_counts sample_bitmap 2 10 true); [exact sample_bitmap_wf | vm_compute; lia].
Defined.
