(* ===== verification/KList.v ===== *)
(** The kernel's intrusive doubly linked lists: lib/kernel/list.c, list.h.

    Memory is a finite map from the address of a [struct list_elem] to its two
    links; a [struct list] is the pair of the addresses of its two header
    elements.  Every function is a computation on that memory: dereferencing a
    null or unmapped pointer is [EFault], a failed ASSERT is [EAssert].  Loops
    are bounded by the number of elements in memory, which is never reached on
    a well-formed list because a list visits each element once.
    [dll h l xs] says that in memory [h] the list [l] holds the elements [xs]. *)

From stdpp Require Import base list numbers gmap sorting.
From Stdlib Require Import ZArith Lia.
From S2P Require Import Prelude.

#[local] Abbreviation ptr := Z.
Definition NULL : Z := 0.

Record list_elem := mk_elem { prev : ptr; next : ptr }.
Record lst := mk_list { lhead : ptr; ltail : ptr }.

#[local] Abbreviation heap := (gmap Z list_elem).
#[local] Abbreviation M := (stM (gmap Z list_elem)).

Definition load (p : ptr) : M list_elem := fun h =>
  match h !! p with Some e => Ok (e, h) | None => Err EFault end.

Definition upd_prev (p v : ptr) (h : heap) : heap :=
  alter (fun e => mk_elem v (next e)) p h.
Definition upd_next (p v : ptr) (h : heap) : heap :=
  alter (fun e => mk_elem (prev e) v) p h.

Definition set_prev (p v : ptr) : M unit := _ ← load p; modify (upd_prev p v).
Definition set_next (p v : ptr) : M unit := _ ← load p; modify (upd_next p v).

Definition get_prev (p : ptr) : M ptr := e ← load p; mret (prev e).
Definition get_next (p : ptr) : M ptr := e ← load p; mret (next e).

(** Enough iterations for any loop that visits each element at most once. *)
Definition enough : M nat := h ← get; mret (S (size h)).

Definition is_head (elem : ptr) : M bool :=
  if elem =? NULL then mret false
  else e ← load elem; mret ((prev e =? NULL) && negb (next e =? NULL)).

Definition is_interior (elem : ptr) : M bool :=
  if elem =? NULL then mret false
  else e ← load elem; mret (negb (prev e =? NULL) && negb (next e =? NULL)).

Definition is_tail (elem : ptr) : M bool :=
  if elem =? NULL then mret false
  else e ← load elem; mret (negb (prev e =? NULL) && (next e =? NULL)).

(** [a || b] on effectful tests. *)
Definition orM (a b : M bool) : M bool := x ← a; if (x : bool) then mret true else b.

Definition list_init (l : lst) : M unit :=
  set_prev (lhead l) NULL;;
  set_next (lhead l) (ltail l);;
  set_prev (ltail l) (lhead l);;
  set_next (ltail l) NULL.

Definition list_begin (l : lst) : M ptr := get_next (lhead l).

Definition list_next (elem : ptr) : M ptr :=
  ok ← orM (is_head elem) (is_interior elem);
  assertM ok;;
  get_next elem.

Definition list_end (l : lst) : ptr := ltail l.

Definition list_rbegin (l : lst) : M ptr := get_prev (ltail l).

Definition list_prev (elem : ptr) : M ptr :=
  ok ← orM (is_interior elem) (is_tail elem);
  assertM ok;;
  get_prev elem.

Definition list_rend (l : lst) : ptr := lhead l.
Definition list_head (l : lst) : ptr := lhead l.
Definition list_tail (l : lst) : ptr := ltail l.

Definition list_insert (before elem : ptr) : M unit :=
  ok ← orM (is_interior before) (is_tail before);
  assertM ok;;
  assertM (negb (elem =? NULL));;
  bp ← get_prev before;
  set_prev elem bp;;
  set_next elem before;;
  bp' ← get_prev before;
  set_next bp' elem;;
  set_prev before elem.

Definition list_splice (before first last : ptr) : M unit :=
  ok ← orM (is_interior before) (is_tail before);
  assertM ok;;
  if first =? last then mret tt
  else
    last ← list_prev last;
    i1 ← is_interior first; assertM i1;;
    i2 ← is_interior last; assertM i2;;
    (* Cleanly remove FIRST...LAST from its current list. *)
    fp ← get_prev first; ln ← get_next last;
    set_next fp ln;;
    ln' ← get_next last; fp' ← get_prev first;
    set_prev ln' fp';;
    (* Splice FIRST...LAST into new list. *)
    bp ← get_prev before;
    set_prev first bp;;
    set_next last before;;
    bp' ← get_prev before;
    set_next bp' first;;
    set_prev before last.

Definition list_push_front (l : lst) (elem : ptr) : M unit :=
  b ← list_begin l; list_insert b elem.

Definition list_push_back (l : lst) (elem : ptr) : M unit :=
  list_insert (list_end l) elem.

Definition list_remove (elem : ptr) : M ptr :=
  ok ← is_interior elem;
  assertM ok;;
  p ← get_prev elem; n ← get_next elem;
  set_next p n;;
  n' ← get_next elem; p' ← get_prev elem;
  set_prev n' p';;
  get_next elem.

Definition list_empty (l : lst) : M bool :=
  b ← list_begin l; mret (b =? list_end l).

Definition list_front (l : lst) : M ptr :=
  em ← list_empty l; assertM (negb em);; get_next (lhead l).

Definition list_back (l : lst) : M ptr :=
  em ← list_empty l; assertM (negb em);; get_prev (ltail l).

Definition list_pop_front (l : lst) : M ptr :=
  front ← list_front l; list_remove front;; mret front.

Definition list_pop_back (l : lst) : M ptr :=
  back ← list_back l; list_remove back;; mret back.

Fixpoint list_size_loop (fuel : nat) (l : lst) (e : ptr) (cnt : Z) : M Z :=
  match fuel with
  | O => raise EFuel
  | S fuel' =>
      if e =? list_end l then mret cnt
      else e' ← list_next e; list_size_loop fuel' l e' (u32 (cnt + 1))
  end.

Definition list_size (l : lst) : M Z :=
  fuel ← enough; e ← list_begin l; list_size_loop fuel l e 0.

(** [swap (&e->prev, &e->next)] *)
Definition swap_links (e : ptr) : M unit :=
  t ← get_prev e; n ← get_next e; set_prev e n;; set_next e t.

Fixpoint list_reverse_loop (fuel : nat) (l : lst) (e : ptr) : M unit :=
  match fuel with
  | O => raise EFuel
  | S fuel' =>
      if e =? list_end l then mret tt
      else swap_links e;; e' ← get_prev e; list_reverse_loop fuel' l e'
  end.

Definition list_reverse (l : lst) : M unit :=
  em ← list_empty l;
  if negb em then
    fuel ← enough;
    e ← list_begin l;
    list_reverse_loop fuel l e;;
    (* swap (&list->head.next, &list->tail.prev) *)
    t ← get_next (lhead l); p ← get_prev (ltail l);
    set_next (lhead l) p;; set_prev (ltail l) t;;
    (* swap (&list->head.next->prev, &list->tail.prev->next) *)
    f ← get_next (lhead l); b ← get_prev (ltail l);
    t' ← get_prev f; n ← get_next b;
    set_prev f n;; set_next b t'
  else mret tt.

(** Ordered operations.  [less] is the caller's comparison; it may look at the
    objects the elements are embedded in, but not at the links. *)
Section Ordered.
Context (less : ptr -> ptr -> bool).

Fixpoint is_sorted_loop (fuel : nat) (a b : ptr) : M bool :=
  match fuel with
  | O => raise EFuel
  | S fuel' =>
      a ← list_next a;
      if a =? b then mret true
      else p ← list_prev a; if less a p then mret false else is_sorted_loop fuel' a b
  end.

Definition is_sorted (a b : ptr) : M bool :=
  if negb (a =? b) then fuel ← enough; is_sorted_loop fuel a b else mret true.

Fixpoint find_end_of_run_loop (fuel : nat) (a b : ptr) : M ptr :=
  match fuel with
  | O => raise EFuel
  | S fuel' =>
      a ← list_next a;
      if a =? b then mret a
      else p ← list_prev a; if less a p then mret a else find_end_of_run_loop fuel' a b
  end.

Definition find_end_of_run (a b : ptr) : M ptr :=
  assertM (negb (a =? NULL));;
  assertM (negb (b =? NULL));;
  assertM (negb (a =? b));;
  fuel ← enough;
  find_end_of_run_loop fuel a b.

Fixpoint inplace_merge_loop (fuel : nat) (a0 a1b0 b1 : ptr) : M unit :=
  match fuel with
  | O => raise EFuel
  | S fuel' =>
      if negb (a0 =? a1b0) && negb (a1b0 =? b1) then
        if negb (less a1b0 a0) then
          a0 ← list_next a0; inplace_merge_loop fuel' a0 a1b0 b1
        else
          a1b0 ← list_next a1b0;
          p ← list_prev a1b0;
          list_splice a0 p a1b0;;
          inplace_merge_loop fuel' a0 a1b0 b1
      else mret tt
  end.

Definition inplace_merge (a0 a1b0 b1 : ptr) : M unit :=
  assertM (negb (a0 =? NULL));;
  assertM (negb (a1b0 =? NULL));;
  assertM (negb (b1 =? NULL));;
  s1 ← is_sorted a0 a1b0; assertM s1;;
  s2 ← is_sorted a1b0 b1; assertM s2;;
  fuel ← enough;
  inplace_merge_loop fuel a0 a1b0 b1.

(** One pass of [list_sort]: the body of its outer loop, from [a0] on. *)
Fixpoint list_sort_pass (fuel : nat) (l : lst) (a0 : ptr) (output_run_cnt : Z) : M Z :=
  match fuel with
  | O => raise EFuel
  | S fuel' =>
      if a0 =? list_end l then mret output_run_cnt
      else
        let output_run_cnt := u32 (output_run_cnt + 1) in
        a1b0 ← find_end_of_run a0 (list_end l);
        if a1b0 =? list_end l then mret output_run_cnt
        else
          b1 ← find_end_of_run a1b0 (list_end l);
          inplace_merge a0 a1b0 b1;;
          list_sort_pass fuel' l b1 output_run_cnt
  end.

Fixpoint list_sort_loop (fuel : nat) (l : lst) : M unit :=
  match fuel with
  | O => raise EFuel
  | S fuel' =>
      pass ← enough;
      a0 ← list_begin l;
      output_run_cnt ← list_sort_pass pass l a0 0;
      if 1 <? output_run_cnt then list_sort_loop fuel' l else mret tt
  end.

Definition list_sort (l : lst) : M unit :=
  fuel ← enough;
  list_sort_loop fuel l;;
  b ← list_begin l;
  s ← is_sorted b (list_end l);
  assertM s.

Fixpoint insert_ordered_loop (fuel : nat) (l : lst) (elem e : ptr) : M ptr :=
  match fuel with
  | O => raise EFuel
  | S fuel' =>
      if e =? list_end l then mret e
      else if less elem e then mret e
      else e' ← list_next e; insert_ordered_loop fuel' l elem e'
  end.

Definition list_insert_ordered (l : lst) (elem : ptr) : M unit :=
  assertM (negb (elem =? NULL));;
  fuel ← enough;
  b ← list_begin l;
  e ← insert_ordered_loop fuel l elem b;
  list_insert e elem.

Fixpoint list_unique_loop (fuel : nat) (l : lst) (duplicates : option lst) (elem : ptr)
    : M unit :=
  match fuel with
  | O => raise EFuel
  | S fuel' =>
      nxt ← list_next elem;
      if nxt =? list_end l then mret tt
      else if negb (less elem nxt) && negb (less nxt elem) then
        list_remove nxt;;
        match duplicates with Some d => list_push_back d nxt | None => mret tt end;;
        list_unique_loop fuel' l duplicates elem
      else list_unique_loop fuel' l duplicates nxt
  end.

Definition list_unique (l : lst) (duplicates : option lst) : M unit :=
  em ← list_empty l;
  if (em : bool) then mret tt
  else fuel ← enough; elem ← list_begin l; list_unique_loop fuel l duplicates elem.

Fixpoint list_max_loop (fuel : nat) (l : lst) (max e : ptr) : M ptr :=
  match fuel with
  | O => raise EFuel
  | S fuel' =>
      if e =? list_end l then mret max
      else
        let max := if less max e then e else max in
        e' ← list_next e; list_max_loop fuel' l max e'
  end.

Definition list_max (l : lst) : M ptr :=
  max ← list_begin l;
  if negb (max =? list_end l) then
    fuel ← enough; e ← list_next max; list_max_loop fuel l max e
  else mret max.

Fixpoint list_min_loop (fuel : nat) (l : lst) (min e : ptr) : M ptr :=
  match fuel with
  | O => raise EFuel
  | S fuel' =>
      if e =? list_end l then mret min
      else
        let min := if less e min then e else min in
        e' ← list_next e; list_min_loop fuel' l min e'
  end.

Definition list_min (l : lst) : M ptr :=
  min ← list_begin l;
  if negb (min =? list_end l) then
    fuel ← enough; e ← list_next min; list_min_loop fuel l min e
  else mret min.

End Ordered.

(** ** Specification: memory holds a list *)

Definition nxt (h : heap) (p : ptr) : option ptr := next <$> h !! p.
Definition prv (h : heap) (p : ptr) : option ptr := prev <$> h !! p.

(** Consecutive elements of [zs] point at each other. *)
Fixpoint chain (h : heap) (zs : list ptr) : Prop :=
  match zs with
  | a :: ((b :: _) as t) => nxt h a = Some b /\ prv h b = Some a /\ chain h t
  | _ => True
  end.

Definition nodes (l : lst) (xs : list ptr) : list ptr := lhead l :: xs ++ [ltail l].

Record dll (h : heap) (l : lst) (xs : list ptr) : Prop := {
  dll_chain : chain h (nodes l xs);
  dll_nodup : NoDup (nodes l xs);
  dll_nonnull : NULL ∉ nodes l xs;
  dll_head : prv h (lhead l) = Some NULL;
  dll_tail : nxt h (ltail l) = Some NULL
}.

(** Memory [h'] differs from [h] only in the links of the elements [ps]. *)
Definition same_except (ps : list ptr) (h h' : heap) : Prop :=
  forall q, q ∉ ps -> h' !! q = h !! q.

(** ** Memory accesses *)

Lemma nxt_upd_prev p v h q : nxt (upd_prev p v h) q = nxt h q.
Proof.
  unfold nxt, upd_prev. rewrite lookup_alter. case_decide; [subst|done].
  by destruct (h !! q).
Qed.
Lemma prv_upd_next p v h q : prv (upd_next p v h) q = prv h q.
Proof.
  unfold prv, upd_next. rewrite lookup_alter. case_decide; [subst|done].
  by destruct (h !! q).
Qed.
Lemma nxt_upd_next_ne p v h q : p <> q -> nxt (upd_next p v h) q = nxt h q.
Proof. intros. unfold nxt, upd_next. by rewrite lookup_alter_ne. Qed.
Lemma prv_upd_prev_ne p v h q : p <> q -> prv (upd_prev p v h) q = prv h q.
Proof. intros. unfold prv, upd_prev. by rewrite lookup_alter_ne. Qed.
Lemma nxt_upd_next_eq p v h : is_Some (h !! p) -> nxt (upd_next p v h) p = Some v.
Proof. intros [e E]. unfold nxt, upd_next. by rewrite lookup_alter_eq, E. Qed.
Lemma prv_upd_prev_eq p v h : is_Some (h !! p) -> prv (upd_prev p v h) p = Some v.
Proof. intros [e E]. unfold prv, upd_prev. by rewrite lookup_alter_eq, E. Qed.

Lemma upd_prev_is_Some p v h q : is_Some (upd_prev p v h !! q) <-> is_Some (h !! q).
Proof. unfold upd_prev. rewrite lookup_alter_is_Some. done. Qed.
Lemma upd_next_is_Some p v h q : is_Some (upd_next p v h !! q) <-> is_Some (h !! q).
Proof. unfold upd_next. rewrite lookup_alter_is_Some. done. Qed.

Lemma size_upd_prev p v h : size (upd_prev p v h) = size h.
Proof. unfold upd_prev. rewrite <- !size_dom. by rewrite dom_alter_L. Qed.
Lemma size_upd_next p v h : size (upd_next p v h) = size h.
Proof. unfold upd_next. rewrite <- !size_dom. by rewrite dom_alter_L. Qed.

Lemma nxt_is_Some h p v : nxt h p = Some v -> is_Some (h !! p).
Proof. unfold nxt. destruct (h !! p); [eauto|done]. Qed.
Lemma prv_is_Some h p v : prv h p = Some v -> is_Some (h !! p).
Proof. unfold prv. destruct (h !! p); [eauto|done]. Qed.

Lemma get_next_ok h p v : nxt h p = Some v -> get_next p h = Ok (v, h).
Proof.
  unfold nxt, get_next, mbind, stM_bind, load. destruct (h !! p); naive_solver.
Qed.
Lemma get_prev_ok h p v : prv h p = Some v -> get_prev p h = Ok (v, h).
Proof.
  unfold prv, get_prev, mbind, stM_bind, load. destruct (h !! p); naive_solver.
Qed.
Lemma set_next_ok h p v : is_Some (h !! p) -> set_next p v h = Ok (tt, upd_next p v h).
Proof. intros [e E]. unfold set_next, mbind, stM_bind, load. by rewrite E. Qed.
Lemma set_prev_ok h p v : is_Some (h !! p) -> set_prev p v h = Ok (tt, upd_prev p v h).
Proof. intros [e E]. unfold set_prev, mbind, stM_bind, load. by rewrite E. Qed.

Lemma is_interior_ok h p a b :
  p <> NULL -> prv h p = Some a -> nxt h p = Some b ->
  is_interior p h = Ok (negb (a =? NULL) && negb (b =? NULL), h).
Proof.
  intros Hp Ha Hb. unfold is_interior. destruct (Z.eqb_spec p NULL); [done|].
  unfold nxt, prv, mbind, stM_bind, load in *. by destruct (h !! p) as [[]|]; simplify_eq/=.
Qed.
Lemma is_tail_ok h p a b :
  p <> NULL -> prv h p = Some a -> nxt h p = Some b ->
  is_tail p h = Ok (negb (a =? NULL) && (b =? NULL), h).
Proof.
  intros Hp Ha Hb. unfold is_tail. destruct (Z.eqb_spec p NULL); [done|].
  unfold nxt, prv, mbind, stM_bind, load in *. by destruct (h !! p) as [[]|]; simplify_eq/=.
Qed.
Lemma is_head_ok h p a b :
  p <> NULL -> prv h p = Some a -> nxt h p = Some b ->
  is_head p h = Ok ((a =? NULL) && negb (b =? NULL), h).
Proof.
  intros Hp Ha Hb. unfold is_head. destruct (Z.eqb_spec p NULL); [done|].
  unfold nxt, prv, mbind, stM_bind, load in *. by destruct (h !! p) as [[]|]; simplify_eq/=.
Qed.

Lemma eqb_NULL p : p <> NULL -> (p =? NULL) = false.
Proof. apply Z.eqb_neq. Qed.

(** An element in memory has both links. *)
Lemma links_both h p : is_Some (h !! p) -> exists a b, prv h p = Some a /\ nxt h p = Some b.
Proof. intros [[a b] E]. exists a, b. unfold prv, nxt. by rewrite E. Qed.

(** The test "interior or tail" only asks for a predecessor. *)
Lemma interior_or_tail h p a :
  p <> NULL -> prv h p = Some a -> a <> NULL ->
  orM (is_interior p) (is_tail p) h = Ok (true, h).
Proof.
  intros Hp Ha Hn. destruct (links_both h p) as (a' & b & E1 & E2).
  { by eapply prv_is_Some. }
  simplify_eq. unfold orM.
  rewrite (stbind_step _ _ _ _ _ (is_interior_ok h p a b Hp Ha E2)).
  rewrite (eqb_NULL a) by done. simpl.
  destruct (Z.eqb_spec b NULL) as [->|]; simpl; [|done].
  rewrite (is_tail_ok h p a NULL) by done. by rewrite (eqb_NULL a).
Qed.

Lemma head_or_interior h p b :
  p <> NULL -> nxt h p = Some b -> b <> NULL ->
  orM (is_head p) (is_interior p) h = Ok (true, h).
Proof.
  intros Hp Hb Hn. destruct (links_both h p) as (a & b' & E1 & E2).
  { by eapply nxt_is_Some. }
  simplify_eq. unfold orM.
  rewrite (stbind_step _ _ _ _ _ (is_head_ok h p a b Hp E1 Hb)).
  rewrite (eqb_NULL b) by done. simpl.
  destruct (Z.eqb_spec a NULL) as [->|]; simpl; [done|].
  rewrite (is_interior_ok h p a b) by done. by rewrite !eqb_NULL.
Qed.

(** Runs the first step of a computation whose result is known. *)
Ltac mstep H := rewrite (stbind_step _ _ _ _ _ H).

Ltac inmem :=
  repeat first [rewrite upd_prev_is_Some | rewrite upd_next_is_Some];
  eauto using nxt_is_Some, prv_is_Some.

(** Links after a sequence of updates at known, distinct addresses. *)
Ltac links :=
  repeat first
    [ rewrite nxt_upd_prev | rewrite prv_upd_next
    | rewrite nxt_upd_next_ne by congruence | rewrite prv_upd_prev_ne by congruence
    | rewrite nxt_upd_next_eq by
        (inmem; fail)
    | rewrite prv_upd_prev_eq by
        (inmem; fail) ];
  eauto.

Lemma list_next_ok h p b :
  p <> NULL -> nxt h p = Some b -> b <> NULL -> list_next p h = Ok (b, h).
Proof.
  intros Hp Hb Hn. unfold list_next. mstep (head_or_interior h p b Hp Hb Hn).
  mstep (assertM_true true h eq_refl). by apply get_next_ok.
Qed.

Lemma list_prev_ok h p a :
  p <> NULL -> prv h p = Some a -> a <> NULL -> list_prev p h = Ok (a, h).
Proof.
  intros Hp Ha Hn. unfold list_prev. mstep (interior_or_tail h p a Hp Ha Hn).
  mstep (assertM_true true h eq_refl). by apply get_prev_ok.
Qed.

(** The memory after [list_insert], [list_remove] and [list_splice]. *)
Definition inserted (p e b : ptr) (h : heap) : heap :=
  upd_prev b e (upd_next p e (upd_next e b (upd_prev e p h))).

Lemma list_insert_ok h b e p :
  b <> NULL -> e <> NULL -> p <> NULL -> e <> b ->
  prv h b = Some p -> is_Some (h !! e) -> is_Some (h !! p) ->
  list_insert b e h = Ok (tt, inserted p e b h).
Proof.
  intros Hb He Hp Heb Hbp Hine Hinp. unfold list_insert.
  mstep (interior_or_tail h b p Hb Hbp Hp).
  mstep (assertM_true true h eq_refl).
  mstep (assertM_true (negb (e =? NULL)) h ltac:(by rewrite eqb_NULL)).
  mstep (get_prev_ok h b p Hbp).
  mstep (set_prev_ok h e p Hine).
  erewrite stbind_step by (apply set_next_ok; inmem).
  erewrite stbind_step by (apply get_prev_ok; links).
  erewrite stbind_step by (apply set_next_ok; inmem).
  apply set_prev_ok. inmem.
Qed.

Definition unlinked (p n : ptr) (h : heap) : heap := upd_prev n p (upd_next p n h).

Lemma list_remove_ok h e p n :
  e <> NULL -> p <> NULL -> n <> NULL -> p <> e -> n <> e ->
  prv h e = Some p -> nxt h e = Some n -> is_Some (h !! p) -> is_Some (h !! n) ->
  list_remove e h = Ok (n, unlinked p n h).
Proof.
  intros He Hp Hn Hpe Hne Ep En Hip Hin. unfold list_remove.
  mstep (is_interior_ok h e p n He Ep En). rewrite !eqb_NULL by done.
  mstep (assertM_true true h eq_refl).
  mstep (get_prev_ok h e p Ep). mstep (get_next_ok h e n En).
  erewrite stbind_step by (apply set_next_ok; inmem).
  erewrite stbind_step by (apply get_next_ok; links).
  erewrite stbind_step by (apply get_prev_ok; links).
  erewrite stbind_step by (apply set_prev_ok; inmem).
  apply get_next_ok. unfold unlinked. links.
Qed.

Definition spliced (bp b f l fp n : ptr) (h : heap) : heap :=
  upd_prev b l (upd_next bp f (upd_next l b (upd_prev f bp (upd_prev n fp (upd_next fp n h))))).

Lemma list_splice_ok h b f n l bp fp :
  b <> NULL -> f <> NULL -> l <> NULL -> n <> NULL -> bp <> NULL -> fp <> NULL ->
  f <> n -> b <> n -> b <> f -> fp <> l -> f <> n ->
  prv h b = Some bp -> prv h n = Some l -> nxt h l = Some n -> prv h f = Some fp ->
  is_Some (h !! bp) -> is_Some (h !! fp) ->
  (exists a, prv h l = Some a /\ a <> NULL) ->
  (exists c, nxt h f = Some c /\ c <> NULL) ->
  list_splice b f n h = Ok (tt, spliced bp b f l fp n h).
Proof.
  intros Hb Hf Hl Hn Hbp Hfp Hfn Hbn Hbf Hfpl _ Eb En El Ef Hibp Hifp (a & Ea & Ha) (c & Ec & Hc).
  unfold list_splice.
  mstep (interior_or_tail h b bp Hb Eb Hbp).
  mstep (assertM_true true h eq_refl).
  rewrite (proj2 (Z.eqb_neq f n)) by done.
  mstep (list_prev_ok h n l Hn En Hl).
  mstep (is_interior_ok h f fp c Hf Ef Ec). rewrite !eqb_NULL by done.
  mstep (assertM_true true h eq_refl).
  mstep (is_interior_ok h l a n Hl Ea El). rewrite !eqb_NULL by done.
  mstep (assertM_true true h eq_refl).
  mstep (get_prev_ok h f fp Ef). mstep (get_next_ok h l n El).
  erewrite stbind_step by (apply set_next_ok; inmem).
  erewrite stbind_step by (apply get_next_ok; links).
  erewrite stbind_step by (apply get_prev_ok; links).
  erewrite stbind_step by (apply set_prev_ok; inmem).
  erewrite stbind_step by (apply get_prev_ok; links).
  erewrite stbind_step by (apply set_prev_ok; inmem).
  erewrite stbind_step by (apply set_next_ok; inmem).
  erewrite stbind_step by (apply get_prev_ok; links).
  erewrite stbind_step by (apply set_next_ok; inmem).
  apply set_prev_ok. inmem.
Qed.

(** ** Chains *)

(** The link between the end of one segment and the start of the next. *)
Definition link (h : heap) (a b : option ptr) : Prop :=
  match a, b with
  | Some a, Some b => nxt h a = Some b /\ prv h b = Some a
  | _, _ => True
  end.

Lemma chain_cons h a zs : chain h (a :: zs) <-> link h (Some a) (hd_error zs) /\ chain h zs.
Proof. destruct zs; simpl; tauto. Qed.

Lemma chain_app h xs ys :
  chain h (xs ++ ys) <-> chain h xs /\ link h (last xs) (hd_error ys) /\ chain h ys.
Proof.
  induction xs as [|a xs IH]; [simpl; tauto|].
  rewrite <- app_comm_cons, !chain_cons, IH.
  destruct xs as [|b xs]; simpl; tauto.
Qed.

Lemma chain_frame h h' zs :
  NoDup zs ->
  (forall u, u ∈ zs -> last zs <> Some u -> nxt h' u = nxt h u) ->
  (forall u, u ∈ zs -> hd_error zs <> Some u -> prv h' u = prv h u) ->
  chain h zs -> chain h' zs.
Proof.
  induction zs as [|a zs IH]; [done|]. intros Hnd Hn Hp Hc.
  apply NoDup_cons in Hnd as [Ha Hnd]. apply chain_cons in Hc as [Hl Hc].
  apply chain_cons. split.
  - destruct zs as [|b zs]; [done|]. destruct Hl as [E1 E2]. simpl. split.
    + rewrite Hn; [done|left|]. intros E. apply Ha, last_Some_elem_of.
      by rewrite last_cons_cons in E.
    + rewrite Hp; [done|set_solver|]. simpl. set_solver.
  - apply IH; [done| | |done].
    + intros u Hu Hl'. apply Hn; [by right|]. rewrite last_cons.
      destruct (last zs) eqn:E; [done|]. apply last_None in E as ->. set_solver.
    + intros u Hu _. apply Hp; [by right|]. simpl. intros [= ->]. done.
Qed.

Lemma chain_pair h us a b vs :
  chain h (us ++ a :: b :: vs) -> nxt h a = Some b /\ prv h b = Some a.
Proof. rewrite chain_app. simpl. tauto. Qed.

(** Elements of a chain of two or more are in memory. *)
Lemma chain_mem h zs u : chain h zs -> u ∈ zs -> (2 <= length zs)%nat -> is_Some (h !! u).
Proof.
  intros Hc Hu Hlen. apply list_elem_of_split in Hu as (us & vs & ->).
  destruct vs as [|v vs].
  - destruct us as [|w us _] using rev_ind; [simpl in Hlen; lia|].
    rewrite <- app_assoc in Hc. apply chain_pair in Hc as [_ ?]. by eapply prv_is_Some.
  - apply chain_pair in Hc as [? _]. by eapply nxt_is_Some.
Qed.

Lemma app_cons_snoc {A} (us : list A) p vs : us ++ p :: vs = (us ++ [p]) ++ vs.
Proof. by rewrite <- app_assoc. Qed.

Lemma chain_insert h us p e b vs :
  chain h (us ++ p :: b :: vs) -> NoDup (us ++ p :: b :: vs) ->
  e ∉ us ++ p :: b :: vs -> is_Some (h !! e) ->
  chain (inserted p e b h) (us ++ p :: e :: b :: vs).
Proof.
  intros Hc Hnd He Hin. pose proof (chain_pair _ _ _ _ _ Hc) as [Enp Epb].
  rewrite app_cons_snoc in Hc, Hnd. rewrite app_cons_snoc.
  apply chain_app in Hc as (Hc1 & _ & Hc2).
  apply NoDup_app in Hnd as (Hn1 & Hd & Hn2).
  assert (e <> p) by set_solver. assert (e <> b) by set_solver. assert (p <> b) by set_solver.
  apply chain_app. split; [|split].
  - refine (chain_frame _ _ _ Hn1 _ _ Hc1); rewrite ?last_snoc; intros u Hu Hne;
      assert (u <> e) by set_solver; assert (u <> b) by set_solver; unfold inserted; links.
  - rewrite last_snoc. simpl. unfold inserted. split; links.
  - apply chain_cons. split; [unfold inserted; simpl; split; links|].
    refine (chain_frame _ _ _ Hn2 _ _ Hc2); simpl; intros u Hu Hne;
      assert (u <> e) by set_solver; assert (u <> p) by set_solver; unfold inserted; links.
Qed.

Lemma chain_remove h us p e n vs :
  chain h (us ++ p :: e :: n :: vs) -> NoDup (us ++ p :: e :: n :: vs) ->
  chain (unlinked p n h) (us ++ p :: n :: vs).
Proof.
  intros Hc Hnd.
  rewrite app_cons_snoc in Hc, Hnd. rewrite app_cons_snoc.
  apply chain_app in Hc as (Hc1 & Hl1 & Hc2). rewrite last_snoc in Hl1. simpl in Hl1.
  apply chain_cons in Hc2 as [[Een Epn] Hc2].
  apply NoDup_app in Hnd as (Hn1 & Hd & [He Hn2]%NoDup_cons).
  assert (p <> e) by set_solver. assert (p <> n) by set_solver. assert (e <> n) by set_solver.
  apply chain_app. split; [|split].
  - refine (chain_frame _ _ _ Hn1 _ _ Hc1); rewrite ?last_snoc; intros u Hu Hne;
      assert (u <> e) by set_solver; assert (u <> n) by set_solver; unfold unlinked; links.
  - rewrite last_snoc. simpl. unfold unlinked. destruct Hl1. split; links.
  - refine (chain_frame _ _ _ Hn2 _ _ Hc2); simpl; intros u Hu Hne;
      assert (u <> e) by set_solver; assert (u <> p) by set_solver; unfold unlinked; links.
Qed.

(** Elements of two disjoint segments differ. *)
Definition apart (xs ys : list ptr) : Prop := forall x, x ∈ xs -> x ∉ ys.

Lemma apart_ne xs ys a b : apart xs ys -> a ∈ xs -> b ∈ ys -> a <> b.
Proof. intros H Ha Hb ->. by apply (H b). Qed.
Lemma apart_ne' xs ys a b : apart xs ys -> a ∈ xs -> b ∈ ys -> b <> a.
Proof. intros H Ha Hb ->. by apply (H a). Qed.

Create HintDb apart.
#[local] Hint Resolve apart_ne apart_ne' : apart.

Lemma NoDup_app4 (A B C D : list ptr) :
  NoDup (A ++ B ++ C ++ D) ->
  (NoDup A /\ NoDup B /\ NoDup C /\ NoDup D) /\
  (apart A B /\ apart A C /\ apart A D) /\ (apart B C /\ apart B D) /\ apart C D.
Proof.
  intros (? & H1 & (? & H2 & (? & H3 & ?)%NoDup_app)%NoDup_app)%NoDup_app.
  unfold apart. repeat setoid_rewrite elem_of_app in H1. setoid_rewrite elem_of_app in H2.
  split_and!; try done; intros x Hx Hy; naive_solver.
Qed.

(** The links of an element away from the updated addresses are unchanged. *)
Ltac away := intros u Hu Hne; unfold spliced;
  repeat first
    [ rewrite nxt_upd_prev | rewrite prv_upd_next
    | rewrite nxt_upd_next_ne by (first [congruence | eauto with apart])
    | rewrite prv_upd_prev_ne by (first [congruence | eauto with apart]) ]; done.

(** Moving the segment F, which follows B, in front of B. *)
Lemma chain_splice h us bp B F vs b fp f l n :
  chain h ((us ++ [bp]) ++ B ++ F ++ n :: vs) -> NoDup ((us ++ [bp]) ++ B ++ F ++ n :: vs) ->
  hd_error B = Some b -> last B = Some fp -> hd_error F = Some f -> last F = Some l ->
  chain (spliced bp b f l fp n h) ((us ++ [bp]) ++ F ++ B ++ n :: vs).
Proof.
  intros Hc Hnd Eb Efp Ef El.
  apply chain_app in Hc as (Hc1 & L1 & (Hc2 & L2 & (Hc3 & L3 & Hc4)%chain_app)%chain_app).
  apply NoDup_app4 in Hnd as ((Hn1 & Hn2 & Hn3 & Hn4) & (D1 & D2 & D3) & (D4 & D5) & D6).
  assert (HbB : b ∈ B) by (destruct B; simplify_eq/=; left).
  assert (HfF : f ∈ F) by (destruct F; simplify_eq/=; left).
  assert (Hbp : bp ∈ us ++ [bp]) by (apply elem_of_app; right; left).
  assert (Hn : n ∈ n :: vs) by left.
  apply last_Some_elem_of in Efp as HfpB. apply last_Some_elem_of in El as HlF.
  assert (Hh1 : forall t, hd_error (B ++ t) = Some b) by (by destruct B).
  assert (Hh2 : forall t, hd_error (F ++ t) = Some f) by (by destruct F).
  rewrite last_snoc, Hh1 in L1. rewrite Efp, Hh2 in L2. rewrite El in L3. simpl in L1, L2, L3.
  destruct L1 as [L1 L1'], L2 as [L2 L2'], L3 as [L3 L3'].
  assert (bp <> b /\ bp <> fp /\ bp <> f /\ bp <> l /\ bp <> n) as (?&?&?&?&?)
    by (split_and!; eauto with apart).
  assert (b <> f /\ b <> l /\ b <> n /\ fp <> f /\ fp <> l /\ fp <> n) as (?&?&?&?&?&?)
    by (split_and!; eauto with apart).
  assert (f <> n /\ l <> n) as (?&?) by (split_and!; eauto with apart).
  rewrite (chain_app _ (us ++ [bp])), (chain_app _ F), (chain_app _ B).
  rewrite last_snoc, El, Efp, Hh1, Hh2. split_and!.
  - refine (chain_frame _ _ _ Hn1 _ _ Hc1); rewrite ?last_snoc; away.
  - simpl. unfold spliced. split; links.
  - refine (chain_frame _ _ _ Hn3 _ _ Hc3); rewrite ?El, ?Ef; away.
  - simpl. unfold spliced. split; links.
  - refine (chain_frame _ _ _ Hn2 _ _ Hc2); rewrite ?Efp, ?Eb; away.
  - simpl. unfold spliced. split; links.
  - refine (chain_frame _ _ _ Hn4 _ _ Hc4); simpl; away.
Qed.

(** ** Lists in memory *)

(** The element after a prefix and before a suffix of a list's contents. *)
Definition first_of (l : lst) (ys : list ptr) : ptr := hd (ltail l) ys.
Definition last_of (l : lst) (xs : list ptr) : ptr := default (lhead l) (last xs).

Lemma nodes_split l xs ys :
  exists us vs, nodes l (xs ++ ys) = us ++ last_of l xs :: first_of l ys :: vs /\
    lhead l :: xs = us ++ [last_of l xs] /\ ys ++ [ltail l] = first_of l ys :: vs.
Proof.
  assert (exists us, lhead l :: xs = us ++ [last_of l xs]) as [us Eu].
  { destruct xs as [|x xs _] using rev_ind; [by exists []|].
    exists (lhead l :: xs). unfold last_of. by rewrite last_snoc. }
  assert (exists vs, ys ++ [ltail l] = first_of l ys :: vs) as [vs Ev].
  { destruct ys as [|y ys]; [by exists []|]. by exists (ys ++ [ltail l]). }
  exists us, vs. split_and!; [|done..]. unfold nodes.
  rewrite <- app_assoc, Ev, app_comm_cons, Eu. by rewrite <- app_assoc.
Qed.

Lemma dll_links h l xs ys :
  dll h l (xs ++ ys) ->
  nxt h (last_of l xs) = Some (first_of l ys) /\ prv h (first_of l ys) = Some (last_of l xs).
Proof.
  intros Hd. destruct (nodes_split l xs ys) as (us & vs & E & _ & _).
  apply dll_chain in Hd. rewrite E in Hd. by apply chain_pair in Hd.
Qed.

Lemma dll_mem h l xs u : dll h l xs -> u ∈ nodes l xs -> is_Some (h !! u).
Proof.
  intros Hd Hu. eapply chain_mem; [by apply dll_chain|done|].
  unfold nodes. simpl. rewrite length_app. simpl. lia.
Qed.

Lemma last_of_in l xs ys : last_of l xs ∈ nodes l (xs ++ ys).
Proof. destruct (nodes_split l xs ys) as (us & vs & -> & _). set_solver. Qed.
Lemma first_of_in l xs ys : first_of l ys ∈ nodes l (xs ++ ys).
Proof. destruct (nodes_split l xs ys) as (us & vs & -> & _). set_solver. Qed.

Lemma dll_ne_NULL h l xs u : dll h l xs -> u ∈ nodes l xs -> u <> NULL.
Proof. intros Hd Hu ->. by apply (dll_nonnull _ _ _ Hd). Qed.

(** The loops have enough iterations: a list is no longer than memory. *)
Lemma dll_length h l xs : dll h l xs -> (length xs + 2 <= size h)%nat.
Proof.
  intros Hd. pose proof (dll_nodup _ _ _ Hd) as Hnd.
  assert (length (nodes l xs) <= size h)%nat as Hle.
  { rewrite <- (size_list_to_set (C := gset Z) _ Hnd), <- size_dom.
    apply subseteq_size. intros u Hu. apply elem_of_list_to_set in Hu.
    apply elem_of_dom. by eapply dll_mem. }
  unfold nodes in Hle. simpl in Hle. rewrite length_app in Hle. simpl in Hle. lia.
Qed.

Lemma first_of_cons l y ys : first_of l (y :: ys) = y.
Proof. done. Qed.
Lemma last_of_snoc l xs x : last_of l (xs ++ [x]) = x.
Proof. unfold last_of. by rewrite last_snoc. Qed.

Lemma first_of_end h l xs ys :
  dll h l (xs ++ ys) -> (first_of l ys =? list_end l) = match ys with [] => true | _ => false end.
Proof.
  intros Hd. unfold list_end. destruct ys as [|y ys]; simpl; [apply Z.eqb_refl|].
  apply Z.eqb_neq. intros ->. pose proof (dll_nodup _ _ _ Hd) as Hnd. unfold nodes in Hnd.
  apply NoDup_cons in Hnd as [_ Hnd]. rewrite <- app_assoc in Hnd.
  apply NoDup_app in Hnd as (_ & _ & Hnd). simpl in Hnd. apply NoDup_cons in Hnd as [Hn _].
  set_solver.
Qed.

Lemma list_begin_dll h l xs : dll h l xs -> list_begin l h = Ok (first_of l xs, h).
Proof. intros Hd. apply get_next_ok. apply (dll_links h l [] xs Hd). Qed.

Lemma list_next_dll h l xs x ys :
  dll h l (xs ++ x :: ys) -> list_next x h = Ok (first_of l ys, h).
Proof.
  intros Hd. rewrite app_cons_snoc in Hd. pose proof (dll_links _ _ _ _ Hd) as [En _].
  rewrite last_of_snoc in En. apply list_next_ok; [|done|].
  - eapply dll_ne_NULL; [done|]. unfold nodes. set_solver.
  - eapply dll_ne_NULL; [done|]. apply first_of_in.
Qed.

Lemma list_prev_dll h l xs ys :
  dll h l (xs ++ ys) -> list_prev (first_of l ys) h = Ok (last_of l xs, h).
Proof.
  intros Hd. pose proof (dll_links _ _ _ _ Hd) as [_ Ep].
  apply list_prev_ok; [|done|]; (eapply dll_ne_NULL; [done|]);
    [apply first_of_in | apply last_of_in].
Qed.

Lemma list_empty_dll h l xs :
  dll h l xs -> list_empty l h = Ok (match xs with [] => true | _ => false end, h).
Proof.
  intros Hd. unfold list_empty. mstep (list_begin_dll h l xs Hd).
  by rewrite (first_of_end h l [] xs Hd).
Qed.

Lemma same_except_trans ps h1 h2 h3 :
  same_except ps h1 h2 -> same_except ps h2 h3 -> same_except ps h1 h3.
Proof. intros H1 H2 q Hq. by rewrite H2, H1. Qed.

Lemma same_except_weaken ps qs h h' : ps ⊆ qs -> same_except ps h h' -> same_except qs h h'.
Proof. intros Hs H q Hq. apply H. set_solver. Qed.

Lemma dll_insert h l xs ys e :
  dll h l (xs ++ ys) -> e ∉ nodes l (xs ++ ys) -> e <> NULL -> is_Some (h !! e) ->
  exists h', list_insert (first_of l ys) e h = Ok (tt, h') /\ dll h' l (xs ++ e :: ys) /\
    same_except (e :: nodes l (xs ++ ys)) h h' /\ size h' = size h.
Proof.
  intros Hd He Hnull Hin. pose proof (dll_links _ _ _ _ Hd) as [_ Ep].
  pose proof (first_of_in l xs ys) as Hf. pose proof (last_of_in l xs ys) as Hl.
  destruct (nodes_split l xs ys) as (us & vs & En & Eu & Ev).
  set (p := last_of l xs) in *. set (b := first_of l ys) in *.
  assert (En' : nodes l (xs ++ e :: ys) = us ++ p :: e :: b :: vs).
  { unfold nodes. rewrite <- app_assoc. simpl. rewrite Ev, app_comm_cons, Eu.
    by rewrite <- app_assoc. }
  exists (inserted p e b h). split; [|split; [|split]].
  - apply list_insert_ok; eauto using dll_ne_NULL, dll_mem. set_solver.
  - destruct Hd as [Hc Hnd Hn Hh Ht]. rewrite En in *.
    assert (p <> b).
    { apply NoDup_app in Hnd as (_ & _ & [Hpb _]%NoDup_cons). intros E. apply Hpb. rewrite E. left. }
    split; rewrite ?En'.
    + by apply chain_insert.
    + rewrite app_cons_snoc. apply NoDup_app. rewrite app_cons_snoc in Hnd, He.
      apply NoDup_app in Hnd as (H1 & H2 & H3). split; [done|]. split; [|constructor; set_solver].
      intros x Hx [->|Hx']%elem_of_cons; [set_solver|]. by apply (H2 x).
    + set_solver.
    + unfold inserted. assert (e <> lhead l /\ b <> lhead l) as [? ?]; [|links].
      assert (lhead l ∈ us ++ [p]) by (rewrite <- Eu; left). rewrite app_cons_snoc in Hnd, He.
      apply NoDup_app in Hnd as (_ & H2 & _). split; [set_solver|].
      intros E. apply (H2 (lhead l)); [done|rewrite <- E; left].
    + unfold inserted. assert (e <> ltail l /\ p <> ltail l) as [? ?]; [|links].
      assert (ltail l ∈ b :: vs) by (rewrite <- Ev; set_solver). rewrite app_cons_snoc in Hnd, He.
      apply NoDup_app in Hnd as (_ & H2 & _). split; [set_solver|].
      intros E. apply (H2 (ltail l)); [rewrite <- E; set_solver|done].
  - intros q Hq. unfold inserted, upd_prev, upd_next.
    rewrite !lookup_alter_ne; [done|set_solver..].
  - unfold inserted. by rewrite size_upd_prev, !size_upd_next, size_upd_prev.
Qed.

Lemma dll_remove h l xs e ys :
  dll h l (xs ++ e :: ys) ->
  exists h', list_remove e h = Ok (first_of l ys, h') /\ dll h' l (xs ++ ys) /\
    same_except (nodes l (xs ++ ys)) h h' /\ size h' = size h.
Proof.
  intros Hd. pose proof (dll_links _ _ _ _ Hd) as [_ Ep]. simpl first_of in Ep.
  pose proof Hd as Hd'. rewrite app_cons_snoc in Hd'. pose proof (dll_links _ _ _ _ Hd') as [En _].
  rewrite last_of_snoc in En. change (hd (ltail l) (e :: ys)) with e in Ep.
  destruct (nodes_split l xs ys) as (us & vs & Es & Eu & Ev).
  set (p := last_of l xs) in *. set (n := first_of l ys) in *.
  assert (Es' : nodes l (xs ++ e :: ys) = us ++ p :: e :: n :: vs).
  { unfold nodes. rewrite <- app_assoc. simpl. rewrite Ev, app_comm_cons, Eu.
    by rewrite <- app_assoc. }
  pose proof (dll_nodup _ _ _ Hd) as Hnd. rewrite Es', app_cons_snoc in Hnd.
  apply NoDup_app in Hnd as (Hn1 & Hn2 & [He Hn3]%NoDup_cons).
  assert (p <> e) by set_solver. assert (e <> n) by set_solver. assert (p <> n) by set_solver.
  assert (p ∈ nodes l (xs ++ e :: ys) /\ e ∈ nodes l (xs ++ e :: ys) /\ n ∈ nodes l (xs ++ e :: ys))
    as (? & ? & ?) by (rewrite Es'; set_solver).
  exists (unlinked p n h). split; [|split; [|split]].
  - apply list_remove_ok; eauto using dll_ne_NULL, dll_mem.
  - destruct Hd as [Hc Hnd Hn Hh Ht]. rewrite Es' in Hc, Hnd, Hn. split; rewrite ?Es.
    + by eapply chain_remove.
    + rewrite app_cons_snoc. apply NoDup_app. split; [done|]. split; [|done].
      intros x Hx Hx'. apply (Hn2 x Hx). by right.
    + clear -Hn. set_solver.
    + unfold unlinked. assert (n <> lhead l); [|links].
      assert (lhead l ∈ us ++ [p]) by (rewrite <- Eu; left).
      intros E. apply (Hn2 (lhead l)); [done|rewrite <- E; right; left].
    + unfold unlinked. assert (p <> ltail l); [|links].
      assert (ltail l ∈ n :: vs) by (rewrite <- Ev; apply elem_of_app; right; left).
      intros E. apply (Hn2 (ltail l)); [rewrite <- E; apply elem_of_app; right; left|by right].
  - intros q Hq. unfold unlinked, upd_prev, upd_next. rewrite Es in Hq.
    rewrite !lookup_alter_ne; [done|clear -Hq; set_solver..].
  - unfold unlinked. by rewrite size_upd_prev, size_upd_next.
Qed.
