(* ===== verification/KListSpec.v ===== *)
(** Correctness of the list operations of lib/kernel/list.c other than sorting.

    Each theorem starts from a memory that holds a list, gives the result and
    the list held afterwards, and bounds the memory that changed, so that any
    other list is untouched ([dll_frame]). *)

From stdpp Require Import base list numbers gmap sorting.
From Stdlib Require Import ZArith Lia.
From S2P Require Import Prelude KList.

#[local] Abbreviation ptr := Z.
#[local] Abbreviation heap := (gmap Z list_elem).

Lemma enough_ok (h : heap) : enough h = Ok (S (size h), h).
Proof. done. Qed.

(** ** Framing *)

Lemma same_except_nxt ps h h' q : same_except ps h h' -> q ∉ ps -> nxt h' q = nxt h q.
Proof. intros H Hq. unfold nxt. by rewrite H. Qed.
Lemma same_except_prv ps h h' q : same_except ps h h' -> q ∉ ps -> prv h' q = prv h q.
Proof. intros H Hq. unfold prv. by rewrite H. Qed.

Lemma dll_frame ps h h' l xs :
  same_except ps h h' -> (forall u, u ∈ nodes l xs -> u ∉ ps) -> dll h l xs -> dll h' l xs.
Proof.
  intros Hs Hdis [Hc Hnd Hn Hh Ht]. split; [|done|done| |].
  - refine (chain_frame _ _ _ Hnd _ _ Hc); intros u Hu _;
      [eapply same_except_nxt | eapply same_except_prv]; eauto.
  - rewrite <- Hh. eapply same_except_prv; [done|]. apply Hdis. left.
  - rewrite <- Ht. eapply same_except_nxt; [done|]. apply Hdis.
    apply elem_of_cons; right; apply elem_of_app; right; left.
Qed.

(** ** Insertion and removal at the ends *)

Lemma list_push_front_dll h l xs e :
  dll h l xs -> e ∉ nodes l xs -> e <> NULL -> is_Some (h !! e) ->
  exists h', list_push_front l e h = Ok (tt, h') /\ dll h' l (e :: xs) /\
    same_except (e :: nodes l xs) h h' /\ size h' = size h.
Proof.
  intros Hd He Hn Hin. unfold list_push_front. mstep (list_begin_dll h l xs Hd).
  by apply (dll_insert h l [] xs e).
Qed.

Lemma list_push_back_dll h l xs e :
  dll h l xs -> e ∉ nodes l xs -> e <> NULL -> is_Some (h !! e) ->
  exists h', list_push_back l e h = Ok (tt, h') /\ dll h' l (xs ++ [e]) /\
    same_except (e :: nodes l xs) h h' /\ size h' = size h.
Proof.
  intros Hd He Hn Hin. pose proof (dll_insert h l xs [] e) as Hi.
  rewrite app_nil_r in Hi. by apply Hi.
Qed.

Lemma list_pop_front_dll h l x xs :
  dll h l (x :: xs) ->
  exists h', list_pop_front l h = Ok (x, h') /\ dll h' l xs /\
    same_except (nodes l xs) h h' /\ size h' = size h.
Proof.
  intros Hd. unfold list_pop_front, list_front.
  destruct (dll_remove h l [] x xs Hd) as (h' & E & Hd' & Hs & Hz).
  exists h'. split_and!; [|done..].
  assert (Hf : (em ← list_empty l; assertM (negb em);; get_next (lhead l)) h = Ok (x, h)).
  { mstep (list_empty_dll h l _ Hd). mstep (assertM_true true h eq_refl).
    apply get_next_ok. apply (dll_links h l [] (x :: xs) Hd). }
  mstep Hf. by mstep E.
Qed.

Lemma list_pop_back_dll h l xs x :
  dll h l (xs ++ [x]) ->
  exists h', list_pop_back l h = Ok (x, h') /\ dll h' l xs /\
    same_except (nodes l xs) h h' /\ size h' = size h.
Proof.
  intros Hd. unfold list_pop_back, list_back.
  destruct (dll_remove h l xs x [] Hd) as (h' & E & Hd' & Hs & Hz).
  rewrite app_nil_r in Hd', Hs. exists h'. split_and!; [|done..].
  assert (Hf : (em ← list_empty l; assertM (negb em);; get_prev (ltail l)) h = Ok (x, h)).
  { mstep (list_empty_dll h l _ Hd).
    mstep (assertM_true (negb match xs ++ [x] with [] => true | _ => false end) h
             ltac:(by destruct xs)).
    apply get_prev_ok.
    pose proof (dll_links h l (xs ++ [x]) []) as Hl. rewrite app_nil_r, last_of_snoc in Hl.
    by apply Hl. }
  mstep Hf. by mstep E.
Qed.

Lemma list_pop_front_empty h l : dll h l [] -> list_pop_front l h = Err EAssert.
Proof.
  intros Hd. unfold list_pop_front, list_front, mbind at 1, stM_bind at 1.
  by mstep (list_empty_dll h l _ Hd).
Qed.

(** ** Traversals *)

Lemma list_size_loop_dll fuel : forall h l xs ys cnt,
  dll h l (xs ++ ys) -> (length ys < fuel)%nat -> is_u32 cnt ->
  list_size_loop fuel l (first_of l ys) cnt h = Ok (u32 (cnt + Z.of_nat (length ys)), h).
Proof.
  induction fuel as [|fuel IH]; intros h l xs ys cnt Hd Hf Hc; [lia|].
  simpl list_size_loop. rewrite (first_of_end h l xs ys Hd). destruct ys as [|y ys].
  - simpl. rewrite Z.add_0_r, u32_small by done. done.
  - simpl first_of. mstep (list_next_dll h l xs y ys Hd). rewrite app_cons_snoc in Hd.
    rewrite (IH h l (xs ++ [y]) ys); [|done|simpl in Hf; lia|apply u32_range].
    unfold u32. rewrite Zplus_mod_idemp_l. do 3 f_equal. simpl length. lia.
Qed.

Lemma list_size_dll h l xs :
  dll h l xs -> list_size l h = Ok (u32 (Z.of_nat (length xs)), h).
Proof.
  intros Hd. unfold list_size. mstep (enough_ok h). mstep (list_begin_dll h l xs Hd).
  apply (list_size_loop_dll _ h l [] xs 0); [done| |unfold is_u32; lia].
  pose proof (dll_length h l xs Hd). lia.
Qed.

(** Two lists of one memory share no element. *)
Definition separate (l1 : lst) (xs : list ptr) (l2 : lst) (ys : list ptr) : Prop :=
  apart (nodes l1 xs) (nodes l2 ys).

Lemma separate_frame h h' l1 xs l2 ys :
  separate l1 xs l2 ys -> same_except (nodes l1 xs) h h' -> dll h l2 ys -> dll h' l2 ys.
Proof.
  intros Hs He Hd. eapply dll_frame; [done| |done]. intros u Hu Hu'. by apply (Hs u).
Qed.

Lemma nodes_app_in l xs ys u : u ∈ nodes l (xs ++ ys) <-> u ∈ nodes l xs \/ u ∈ ys.
Proof. unfold nodes. rewrite !elem_of_cons, !elem_of_app, list_elem_of_singleton. tauto. Qed.

Lemma nodes_perm_in l xs ys u : xs ≡ₚ ys -> u ∈ nodes l xs <-> u ∈ nodes l ys.
Proof. intros Hp. unfold nodes. rewrite !elem_of_cons, !elem_of_app. by rewrite Hp. Qed.

Lemma nodes_remove_in l xs x ys u : u ∈ nodes l (xs ++ ys) -> u ∈ nodes l (xs ++ x :: ys).
Proof. rewrite !nodes_app_in. set_solver. Qed.

(** Taking [y] out of [l] and appending it to [d] keeps the two lists apart. *)
Lemma move_to_back h l xs y ys d ds :
  dll h l (xs ++ y :: ys) -> dll h d ds -> separate l (xs ++ y :: ys) d ds ->
  exists h', (list_remove y;; list_push_back d y : stM heap unit) h = Ok (tt, h') /\
    dll h' l (xs ++ ys) /\ dll h' d (ds ++ [y]) /\ separate l (xs ++ ys) d (ds ++ [y]) /\
    size h' = size h.
Proof.
  intros Hl Hd Hsep.
  assert (Hyl : y ∈ nodes l (xs ++ y :: ys)) by (rewrite nodes_app_in; set_solver).
  assert (Hyn : y ∉ nodes l (xs ++ ys)).
  { pose proof (dll_nodup _ _ _ Hl) as Hnd. unfold nodes in Hnd |- *.
    rewrite <- app_assoc in Hnd. simpl in Hnd.
    rewrite <- app_assoc, app_comm_cons. rewrite app_comm_cons in Hnd.
    apply NoDup_app in Hnd as (_ & H2 & [H3 _]%NoDup_cons). rewrite elem_of_app.
    intros [Hx|Hx]; [|done]. apply (H2 y Hx). left. }
  destruct (dll_remove h l xs y ys Hl) as (h1 & E1 & Hl1 & Hs1 & Hz1).
  assert (Hd1 : dll h1 d ds).
  { eapply dll_frame; [done| |done]. intros u Hu Hu'.
    apply (Hsep u); [by apply nodes_remove_in|done]. }
  destruct (list_push_back_dll h1 d ds y) as (h2 & E2 & Hd2 & Hs2 & Hz2); [done| | | |].
  { intros Hy. by apply (Hsep y). }
  { by apply (dll_ne_NULL h l (xs ++ y :: ys)). }
  { rewrite (Hs1 y Hyn). by apply (dll_mem h l (xs ++ y :: ys)). }
  exists h2. split_and!.
  - rewrite (stbind_step _ _ _ _ _ E1). done.
  - eapply dll_frame; [exact Hs2| |done]. intros u Hu [->|Hu']%elem_of_cons; [done|].
    apply (Hsep u); [by apply nodes_remove_in|done].
  - done.
  - intros u Hu. rewrite nodes_app_in, list_elem_of_singleton. intros [Hu'| ->]; [|done].
    apply (Hsep u); [by apply nodes_remove_in|done].
  - congruence.
Qed.

Section Ordered.
Context (less : ptr -> ptr -> bool).

(** The first element at or after a position that [elem] is less than. *)
Fixpoint split_less (elem : ptr) (ys : list ptr) : list ptr * list ptr :=
  match ys with
  | [] => ([], [])
  | y :: ys' =>
      if less elem y then ([], ys)
      else let '(a, b) := split_less elem ys' in (y :: a, b)
  end.

Lemma split_less_app elem ys : (split_less elem ys).1 ++ (split_less elem ys).2 = ys.
Proof.
  induction ys as [|y ys IH]; [done|]. simpl. destruct (less elem y); [done|].
  destruct (split_less elem ys). simpl in *. by rewrite IH.
Qed.

Lemma insert_ordered_loop_dll fuel : forall h l elem xs ys,
  dll h l (xs ++ ys) -> (length ys < fuel)%nat ->
  insert_ordered_loop less fuel l elem (first_of l ys) h =
    Ok (first_of l (split_less elem ys).2, h).
Proof.
  induction fuel as [|fuel IH]; intros h l elem xs ys Hd Hf; [lia|].
  simpl. rewrite (first_of_end h l xs ys Hd). destruct ys as [|y ys]; [done|].
  rewrite first_of_cons. simpl split_less. destruct (less elem y) eqn:El; [done|].
  mstep (list_next_dll h l xs y ys Hd). rewrite app_cons_snoc in Hd.
  rewrite (IH h l elem (xs ++ [y]) ys Hd) by (simpl in Hf; lia).
  by destruct (split_less elem ys).
Qed.

Lemma list_insert_ordered_dll h l xs e :
  dll h l xs -> e ∉ nodes l xs -> e <> NULL -> is_Some (h !! e) ->
  exists h', list_insert_ordered less l e h = Ok (tt, h') /\
    dll h' l ((split_less e xs).1 ++ e :: (split_less e xs).2) /\
    same_except (e :: nodes l xs) h h' /\ size h' = size h.
Proof.
  intros Hd He Hn Hin. unfold list_insert_ordered.
  mstep (assertM_true (negb (e =? NULL)) h ltac:(by rewrite eqb_NULL)).
  mstep (enough_ok h). mstep (list_begin_dll h l xs Hd).
  assert (Hl := insert_ordered_loop_dll (S (size h)) h l e [] xs Hd).
  rewrite (stbind_step _ _ _ _ _ (Hl ltac:(pose proof (dll_length h l xs Hd); lia))).
  rewrite <- (split_less_app e xs) in Hd, He.
  destruct (dll_insert h l _ _ e Hd He Hn Hin) as (h' & E & Hd' & Hs & Hz).
  exists h'. by rewrite (split_less_app e xs) in Hs.
Qed.

(** The running maximum and minimum of the loops. *)
Definition max_of (m : ptr) (ys : list ptr) : ptr :=
  fold_left (fun m e => if less m e then e else m) ys m.
Definition min_of (m : ptr) (ys : list ptr) : ptr :=
  fold_left (fun m e => if less e m then e else m) ys m.

Lemma list_max_loop_dll fuel : forall h l m xs ys,
  dll h l (xs ++ ys) -> (length ys < fuel)%nat ->
  list_max_loop less fuel l m (first_of l ys) h = Ok (max_of m ys, h).
Proof.
  induction fuel as [|fuel IH]; intros h l m xs ys Hd Hf; [lia|].
  simpl. rewrite (first_of_end h l xs ys Hd). destruct ys as [|y ys]; [done|].
  rewrite first_of_cons.
  mstep (list_next_dll h l xs y ys Hd). rewrite app_cons_snoc in Hd.
  by rewrite (IH h l _ (xs ++ [y]) ys Hd) by (simpl in Hf; lia).
Qed.

Lemma list_min_loop_dll fuel : forall h l m xs ys,
  dll h l (xs ++ ys) -> (length ys < fuel)%nat ->
  list_min_loop less fuel l m (first_of l ys) h = Ok (min_of m ys, h).
Proof.
  induction fuel as [|fuel IH]; intros h l m xs ys Hd Hf; [lia|].
  simpl. rewrite (first_of_end h l xs ys Hd). destruct ys as [|y ys]; [done|].
  rewrite first_of_cons.
  mstep (list_next_dll h l xs y ys Hd). rewrite app_cons_snoc in Hd.
  by rewrite (IH h l _ (xs ++ [y]) ys Hd) by (simpl in Hf; lia).
Qed.

Lemma list_max_dll h l xs :
  dll h l xs ->
  list_max less l h = Ok (match xs with [] => ltail l | x :: ys => max_of x ys end, h).
Proof.
  intros Hd. unfold list_max. mstep (list_begin_dll h l xs Hd).
  rewrite (first_of_end h l [] xs Hd). destruct xs as [|x xs]; [done|]. cbn [negb].
  mstep (enough_ok h). mstep (list_next_dll h l [] x xs Hd).
  apply (list_max_loop_dll _ h l x [x] xs Hd).
  pose proof (dll_length h l _ Hd). simpl in *. lia.
Qed.

Lemma list_min_dll h l xs :
  dll h l xs ->
  list_min less l h = Ok (match xs with [] => ltail l | x :: ys => min_of x ys end, h).
Proof.
  intros Hd. unfold list_min. mstep (list_begin_dll h l xs Hd).
  rewrite (first_of_end h l [] xs Hd). destruct xs as [|x xs]; [done|]. cbn [negb].
  mstep (enough_ok h). mstep (list_next_dll h l [] x xs Hd).
  apply (list_min_loop_dll _ h l x [x] xs Hd).
  pose proof (dll_length h l _ Hd). simpl in *. lia.
Qed.

(** What [list_unique] keeps and what it moves to the duplicates list, after
    the element [e]. *)
Definition equiv (a b : ptr) : bool := negb (less a b) && negb (less b a).

Fixpoint unique_keep (e : ptr) (ys : list ptr) : list ptr :=
  match ys with
  | [] => []
  | y :: ys' => if equiv e y then unique_keep e ys' else y :: unique_keep y ys'
  end.

Fixpoint unique_dups (e : ptr) (ys : list ptr) : list ptr :=
  match ys with
  | [] => []
  | y :: ys' => if equiv e y then y :: unique_dups e ys' else unique_dups y ys'
  end.

Lemma list_unique_loop_dll fuel : forall h l d xs e ys ds,
  dll h l (xs ++ e :: ys) -> dll h d ds -> separate l (xs ++ e :: ys) d ds ->
  (length ys < fuel)%nat ->
  exists h', list_unique_loop less fuel l (Some d) e h = Ok (tt, h') /\
    dll h' l (xs ++ e :: unique_keep e ys) /\ dll h' d (ds ++ unique_dups e ys).
Proof.
  induction fuel as [|fuel IH]; intros h l d xs e ys ds Hl Hd Hsep Hf; [lia|].
  simpl list_unique_loop. mstep (list_next_dll h l xs e ys Hl).
  pose proof Hl as Hl'. rewrite app_cons_snoc in Hl'. rewrite (first_of_end h l _ ys Hl').
  destruct ys as [|y ys].
  - exists h. simpl. rewrite app_nil_r. done.
  - rewrite first_of_cons. simpl. unfold equiv.
    destruct (negb (less e y) && negb (less y e)).
    + rewrite app_cons_snoc in Hsep.
      destruct (move_to_back h l (xs ++ [e]) y ys d ds Hl' Hd Hsep)
        as (h1 & E1 & Hl1 & Hd1 & Hsep1 & _).
      unfold mbind, stM_bind in E1 |- *. destruct (list_remove y h) as [[? ?]|]; [|done].
      rewrite E1. rewrite <- app_cons_snoc in Hl1, Hsep1.
      destruct (IH h1 l d xs e ys (ds ++ [y]) Hl1 Hd1 Hsep1) as (h2 & E2 & Hl2 & Hd2);
        [simpl in Hf; lia|].
      exists h2. rewrite <- app_assoc in Hd2. done.
    + rewrite app_cons_snoc in Hsep.
      destruct (IH h l d (xs ++ [e]) y ys ds Hl' Hd Hsep) as (h1 & E1 & Hl1 & Hd1);
        [simpl in Hf; lia|].
      exists h1. rewrite <- app_cons_snoc in Hl1. done.
Qed.

Lemma list_unique_dll h l d xs ds :
  dll h l xs -> dll h d ds -> separate l xs d ds ->
  exists h', list_unique less l (Some d) h = Ok (tt, h') /\
    dll h' l (match xs with [] => [] | x :: ys => x :: unique_keep x ys end) /\
    dll h' d (ds ++ match xs with [] => [] | x :: ys => unique_dups x ys end).
Proof.
  intros Hl Hd Hsep. unfold list_unique. mstep (list_empty_dll h l xs Hl).
  destruct xs as [|x ys]; [exists h; by rewrite app_nil_r|].
  mstep (enough_ok h). mstep (list_begin_dll h l _ Hl).
  apply (list_unique_loop_dll _ h l d [] x ys ds Hl Hd Hsep).
  pose proof (dll_length h l _ Hl). simpl in *. lia.
Qed.

End Ordered.

(** ** Reversal *)

Definition swapE (e : list_elem) : list_elem := mk_elem (next e) (prev e).
Definition swap_all (xs : list ptr) (h : heap) : heap :=
  fold_left (fun h x => alter swapE x h) xs h.

Lemma swap_links_ok h x : is_Some (h !! x) -> swap_links x h = Ok (tt, alter swapE x h).
Proof.
  intros Hx. destruct (links_both h x Hx) as (a & b & Ea & Eb). unfold swap_links.
  mstep (get_prev_ok h x a Ea). mstep (get_next_ok h x b Eb). mstep (set_prev_ok h x b Hx).
  rewrite set_next_ok by inmem. do 2 f_equal. unfold upd_next, upd_prev.
  apply map_eq. intros i. destruct (decide (x = i)) as [<-|]; [|by rewrite !lookup_alter_ne].
  rewrite !lookup_alter_eq. unfold prv, nxt in *. destruct (h !! x) as [[? ?]|]; by simplify_eq/=.
Qed.

Lemma swap_all_lookup xs : forall h u,
  NoDup xs -> swap_all xs h !! u = if decide (u ∈ xs) then swapE <$> h !! u else h !! u.
Proof.
  induction xs as [|x xs IH]; intros h u Hnd; [done|].
  apply NoDup_cons in Hnd as [Hx Hnd]. simpl. rewrite IH by done.
  destruct (decide (u = x)) as [->|Hne].
  - rewrite decide_False by done. rewrite decide_True by left. apply lookup_alter_eq.
  - rewrite lookup_alter_ne by done.
    destruct (decide (u ∈ xs)); [rewrite decide_True by (by right) | rewrite decide_False by set_solver];
      done.
Qed.

Lemma swap_all_nxt xs h u :
  NoDup xs -> nxt (swap_all xs h) u = if decide (u ∈ xs) then prv h u else nxt h u.
Proof.
  intros Hnd. unfold nxt, prv. rewrite swap_all_lookup by done.
  destruct (decide (u ∈ xs)); [|done]. by destruct (h !! u).
Qed.
Lemma swap_all_prv xs h u :
  NoDup xs -> prv (swap_all xs h) u = if decide (u ∈ xs) then nxt h u else prv h u.
Proof.
  intros Hnd. unfold nxt, prv. rewrite swap_all_lookup by done.
  destruct (decide (u ∈ xs)); [|done]. by destruct (h !! u).
Qed.

Lemma swap_all_snoc xs x h : alter swapE x (swap_all xs h) = swap_all (xs ++ [x]) h.
Proof. unfold swap_all. by rewrite fold_left_app. Qed.

Lemma list_reverse_loop_dll fuel : forall h l xs ys,
  dll h l (xs ++ ys) -> (length ys < fuel)%nat ->
  list_reverse_loop fuel l (first_of l ys) (swap_all xs h) = Ok (tt, swap_all (xs ++ ys) h).
Proof.
  induction fuel as [|fuel IH]; intros h l xs ys Hd Hf; [lia|].
  simpl. rewrite (first_of_end h l xs ys Hd). destruct ys as [|y ys].
  - by rewrite app_nil_r.
  - rewrite first_of_cons.
    assert (Hnd : NoDup (xs ++ y :: ys)).
    { pose proof (dll_nodup _ _ _ Hd) as [_ Hnd]%NoDup_cons. by apply NoDup_app in Hnd as [? _]. }
    assert (Hnd1 : NoDup (xs ++ [y])).
    { rewrite app_cons_snoc in Hnd. by apply NoDup_app in Hnd as [? _]. }
    pose proof Hnd1 as (Hndx & Hy & _)%NoDup_app.
    assert (y ∉ xs) by set_solver.
    assert (Hmem : is_Some (swap_all xs h !! y)).
    { rewrite swap_all_lookup, decide_False by done. eapply dll_mem; [done|].
      unfold nodes. set_solver. }
    mstep (swap_links_ok _ _ Hmem). rewrite swap_all_snoc. rewrite app_cons_snoc in Hd.
    pose proof (dll_links _ _ _ _ Hd) as [En _]. rewrite last_of_snoc in En.
    assert (Ep : prv (swap_all (xs ++ [y]) h) y = Some (first_of l ys)).
    { rewrite swap_all_prv, decide_True by (done || set_solver). done. }
    mstep (get_prev_ok _ _ _ Ep). rewrite (IH h l (xs ++ [y]) ys Hd) by (simpl in Hf; lia).
    by rewrite <- app_cons_snoc.
Qed.

Lemma chain_reverse h h' zs :
  (forall u, u ∈ zs -> nxt h' u = prv h u /\ prv h' u = nxt h u) ->
  chain h zs -> chain h' (reverse zs).
Proof.
  induction zs as [|a zs IH]; [done|]. intros Hs [Hl Hc]%chain_cons.
  rewrite reverse_cons. apply chain_app. split; [|split; [|done]].
  - apply IH; [|done]. intros u Hu. apply Hs. by right.
  - rewrite last_reverse. destruct zs as [|b zs]; [done|]. simpl in *. destruct Hl as [E1 E2].
    destruct (Hs a) as [_ Ha]; [left|]. destruct (Hs b) as [Hb _]; [set_solver|].
    split; congruence.
Qed.

Lemma list_reverse_dll h l xs :
  dll h l xs ->
  exists h', list_reverse l h = Ok (tt, h') /\ dll h' l (reverse xs) /\
    same_except (nodes l xs) h h' /\ size h' = size h.
Proof.
  intros Hd. unfold list_reverse. mstep (list_empty_dll h l xs Hd).
  destruct (decide (xs = [])) as [->|Hne]; [by exists h|].
  replace (match xs with [] => true | _ => false end) with false by (by destruct xs).
  cbn [negb]. mstep (enough_ok h). mstep (list_begin_dll h l xs Hd).
  pose proof (dll_length h l xs Hd) as Hlen.
  rewrite (stbind_step _ _ _ _ _ (list_reverse_loop_dll (S (size h)) h l [] xs Hd ltac:(lia))).
  simpl app. set (hs := swap_all xs h).
  pose proof (dll_links h l [] xs Hd) as [L1 L2]. change (last_of l []) with (lhead l) in *.
  pose proof Hd as Hd'. rewrite <- (app_nil_r xs) in Hd'.
  pose proof (dll_links h l xs [] Hd') as [L3 L4]. change (first_of l []) with (ltail l) in *.
  pose proof (dll_nodup _ _ _ Hd) as Hnd. unfold nodes in Hnd.
  apply NoDup_cons in Hnd as [Hh Hnd]. apply NoDup_app in Hnd as (Hndx & Ht & _).
  assert (Hhx : lhead l ∉ xs) by set_solver. assert (Htx : ltail l ∉ xs) by set_solver.
  assert (Hht : lhead l <> ltail l) by set_solver. clear Ht Hh.
  assert (Hf : hd_error xs = Some (first_of l xs)) by (by destruct xs).
  assert (Hb : last xs = Some (last_of l xs)).
  { unfold last_of. destruct (last xs) eqn:E; [done|]. by apply last_None in E. }
  set (f := first_of l xs) in *. set (b := last_of l xs) in *.
  assert (Hfx : f ∈ xs) by (destruct xs; simplify_eq/=; left).
  assert (Hbx : b ∈ xs) by (by apply last_Some_elem_of).
  assert (f <> lhead l /\ f <> ltail l /\ b <> lhead l /\ b <> ltail l) as (?&?&?&?)
    by (split_and!; congruence).
  assert (S1 : nxt hs (lhead l) = Some f) by (unfold hs; rewrite swap_all_nxt, decide_False; done).
  assert (S2 : prv hs (ltail l) = Some b) by (unfold hs; rewrite swap_all_prv, decide_False; done).
  assert (S3 : prv hs b = Some (ltail l)) by (unfold hs; rewrite swap_all_prv, decide_True; done).
  assert (S4 : nxt hs f = Some (lhead l)) by (unfold hs; rewrite swap_all_nxt, decide_True; done).
  assert (S5 : prv hs (lhead l) = Some NULL).
  { unfold hs; rewrite swap_all_prv, decide_False by done. apply Hd. }
  assert (S6 : nxt hs (ltail l) = Some NULL).
  { unfold hs; rewrite swap_all_nxt, decide_False by done. apply Hd. }
  mstep (get_next_ok _ _ _ S1). mstep (get_prev_ok _ _ _ S2).
  erewrite stbind_step by (apply set_next_ok; inmem).
  erewrite stbind_step by (apply set_prev_ok; inmem).
  erewrite stbind_step by (apply get_next_ok; links).
  erewrite stbind_step by (apply get_prev_ok; links).
  erewrite stbind_step by (apply get_prev_ok; links).
  erewrite stbind_step by (apply get_next_ok; links).
  erewrite stbind_step by (apply set_prev_ok; inmem).
  rewrite set_next_ok by inmem.
  eexists; split; [done|]. split_and!.
  - destruct Hd as [Hc Hnd Hnull _ _]. unfold nodes in *. split.
    + unfold nodes. apply (chain_app _ [lhead l]) in Hc as (_ & _ & Hc).
      apply chain_app in Hc as (Hc & _ & _).
      apply (chain_app _ [lhead l]). split; [done|].
      assert (Eh : forall t, hd_error (reverse xs ++ t) = Some b).
      { intros t. rewrite <- Hb, <- head_reverse. destruct (reverse xs) eqn:E; [|done].
        apply (f_equal reverse) in E. rewrite reverse_involutive in E. done. }
      rewrite Eh. split; [simpl; split; links|]. apply chain_app. rewrite last_reverse.
      change (head xs) with (hd_error xs). rewrite Hf.
      split; [|split; [simpl; split; links|done]].
      refine (chain_frame hs _ _ _ _ _ _).
      * by rewrite reverse_Permutation.
      * intros u Hu. rewrite elem_of_reverse in Hu. rewrite last_reverse. change (head xs) with (hd_error xs).
        rewrite Hf. intros Hu'. assert (u <> lhead l) by (by intros ->). links.
      * intros u Hu. rewrite elem_of_reverse in Hu. specialize (Eh []). rewrite app_nil_r in Eh. rewrite Eh.
        intros Hu'. assert (u <> ltail l) by (by intros ->). links.
      * apply (chain_reverse h); [|done]. intros u Hu. unfold hs.
        rewrite swap_all_nxt, swap_all_prv, !decide_True by done. done.
    + unfold nodes. by rewrite reverse_Permutation.
    + unfold nodes. by rewrite reverse_Permutation.
    + links.
    + links.
  - intros q Hq. unfold upd_prev, upd_next.
    assert ((q ∉ xs) /\ q <> lhead l /\ q <> ltail l) as (?&?&?)
      by (unfold nodes in Hq; split_and!; set_solver).
    rewrite !lookup_alter_ne by congruence. unfold hs.
    by rewrite swap_all_lookup, decide_False by done.
  - rewrite size_upd_next, !size_upd_prev, size_upd_next. unfold hs. clear.
    revert h. induction xs as [|x xs IH]; intros h; [done|]. simpl. rewrite IH.
    rewrite <- !size_dom. by rewrite dom_alter_L.
Qed.

(** ** Properties *)

(** A memory with two lists, [10; 11; 12] and [], and a free element 13. *)
Definition sample_l : lst := mk_list 1 2.
Definition sample_d : lst := mk_list 3 4.
Definition sample_heap : heap :=
  list_to_map [(1, mk_elem 0 10); (10, mk_elem 1 11); (11, mk_elem 10 12);
               (12, mk_elem 11 2); (2, mk_elem 12 0);
               (3, mk_elem 0 4); (4, mk_elem 3 0); (13, mk_elem 0 0)].

Lemma sample_l_dll : dll sample_heap sample_l [10; 11; 12].
Proof.
  split; [repeat split; reflexivity | | | reflexivity | reflexivity];
    apply (bool_decide_unpack _); vm_compute; exact I.
Defined.
Lemma sample_d_dll : dll sample_heap sample_d [].
Proof.
  split; [repeat split; reflexivity | | | reflexivity | reflexivity];
    apply (bool_decide_unpack _); vm_compute; exact I.
Defined.
Lemma sample_separate : separate sample_l [10; 11; 12] sample_d [].
Proof.
  assert (H : Forall (fun x => x ∉ nodes sample_d []) (nodes sample_l [10; 11; 12]))
    by (apply (bool_decide_unpack _); vm_compute; exact I).
  intros x Hx. rewrite Forall_forall in H. by apply H.
Defined.
Lemma sample_fresh : 13 ∉ nodes sample_l [10; 11; 12].
Proof. apply (bool_decide_unpack _). vm_compute. exact I. Defined.
Lemma sample_mem : is_Some (sample_heap !! 13).
Proof. exists (mk_elem 0 0). reflexivity. Defined.

(** [list_insert] puts the new element exactly between the elements before
    and after the insertion point of a well-formed list, keeps the list well
    formed, and writes no link outside that list and the new element, so every
    other list in memory is unchanged. *)
Theorem list_insert_correct h l xs ys e l2 zs :
  dll h l (xs ++ ys) -> e ∉ nodes l (xs ++ ys) -> e <> NULL -> is_Some (h !! e) ->
  dll h l2 zs -> separate l (xs ++ ys) l2 zs -> e ∉ nodes l2 zs ->
  exists h', list_insert (first_of l ys) e h = Ok (tt, h') /\
    dll h' l (xs ++ e :: ys) /\ dll h' l2 zs.
Proof.
  intros Hd He Hn Hin Hd2 Hsep He2.
  destruct (dll_insert h l xs ys e Hd He Hn Hin) as (h' & E & Hd' & Hs & _).
  exists h'. split_and!; [done..|]. eapply dll_frame; [exact Hs| |exact Hd2].
  intros u Hu [->|Hu']%elem_of_cons; [done|]. by apply (Hsep u).
Qed.

Lemma list_insert_correct_witness :
  exists h', list_insert 11 13 sample_heap = Ok (tt, h') /\
    dll h' sample_l [10; 13; 11; 12] /\ dll h' sample_d [].
Proof.
  apply (list_insert_correct sample_heap sample_l [10] [11; 12] 13 sample_d []).
  - exact sample_l_dll.
  - exact sample_fresh.
  - vm_compute. discriminate.
  - exact sample_mem.
  - exact sample_d_dll.
  - exact sample_separate.
  - apply (bool_decide_unpack _). vm_compute. exact I.
Defined.

(** [list_remove] unlinks exactly its argument from a well-formed list and
    returns the element that followed it; other lists are unchanged, and a
    removal undoes the insertion of the same element. *)
Theorem list_remove_correct h l xs e ys l2 zs :
  dll h l (xs ++ e :: ys) -> dll h l2 zs -> separate l (xs ++ e :: ys) l2 zs ->
  exists h', list_remove e h = Ok (first_of l ys, h') /\ dll h' l (xs ++ ys) /\ dll h' l2 zs.
Proof.
  intros Hd Hd2 Hsep. destruct (dll_remove h l xs e ys Hd) as (h' & E & Hd' & Hs & _).
  exists h'. split_and!; [done..|]. eapply dll_frame; [exact Hs| |exact Hd2].
  intros u Hu Hu'. apply (Hsep u); [by apply nodes_remove_in|done].
Qed.

Lemma list_remove_correct_witness :
  exists h', list_remove 11 sample_heap = Ok (12, h') /\
    dll h' sample_l [10; 12] /\ dll h' sample_d [].
Proof.
  apply (list_remove_correct sample_heap sample_l [10] 11 [12] sample_d []).
  - exact sample_l_dll.
  - exact sample_d_dll.
  - exact sample_separate.
Defined.

(** [list_reverse] reverses the list in place: it terminates, the same
    elements are in the list in the opposite order with all forward and
    backward links consistent, and nothing outside the list changes. *)
Theorem list_reverse_correct h l xs :
  dll h l xs ->
  exists h', list_reverse l h = Ok (tt, h') /\ dll h' l (reverse xs) /\
    same_except (nodes l xs) h h'.
Proof. intros Hd. destruct (list_reverse_dll h l xs Hd) as (h' & ? & ? & ? & _). eauto. Qed.

Lemma list_reverse_correct_witness :
  exists h', list_reverse sample_l sample_heap = Ok (tt, h') /\ dll h' sample_l [12; 11; 10].
Proof.
  destruct (list_reverse_correct sample_heap sample_l [10; 11; 12] sample_l_dll)
    as (h' & E & Hd & _). exists h'. split; [exact E | exact Hd].
Defined.

(** No two neighbours of [x :: ys] are equal under the comparison. *)
Fixpoint no_adjacent (less : ptr -> ptr -> bool) (x : ptr) (ys : list ptr) : Prop :=
  match ys with
  | [] => True
  | y :: ys' => equiv less x y = false /\ no_adjacent less y ys'
  end.

Lemma unique_keep_no_adjacent less e ys : no_adjacent less e (unique_keep less e ys).
Proof.
  revert e. induction ys as [|y ys IH]; intros e; simpl; [done|].
  destruct (equiv less e y) eqn:E; simpl; auto.
Qed.

Lemma unique_keep_dups_perm less e ys :
  unique_keep less e ys ++ unique_dups less e ys ≡ₚ ys.
Proof.
  revert e. induction ys as [|y ys IH]; intros e; simpl; [done|].
  destruct (equiv less e y) eqn:E; simpl.
  - rewrite <- Permutation_middle. by rewrite IH.
  - by rewrite IH.
Qed.

(** [list_unique] leaves in the list a subsequence in which no two
    neighbours are equal, and appends every removed element to the duplicates
    list: nothing is lost. *)
Theorem list_unique_correct less h l d xs ds :
  dll h l xs -> dll h d ds -> separate l xs d ds ->
  exists h' keep dups, list_unique less l (Some d) h = Ok (tt, h') /\
    dll h' l keep /\ dll h' d (ds ++ dups) /\ keep ++ dups ≡ₚ xs /\
    match keep with [] => xs = [] | k :: ks => no_adjacent less k ks end.
Proof.
  intros Hl Hd Hsep.
  destruct (list_unique_dll less h l d xs ds Hl Hd Hsep) as (h' & E & Hl' & Hd').
  destruct xs as [|x ys].
  - exists h', [], []. done.
  - exists h', (x :: unique_keep less x ys), (unique_dups less x ys).
    split_and!; [done..| |apply unique_keep_no_adjacent].
    simpl. by rewrite unique_keep_dups_perm.
Qed.

Lemma list_unique_correct_witness :
  exists h' keep dups, list_unique (fun a b => a / 2 <? b / 2) sample_l (Some sample_d) sample_heap
      = Ok (tt, h') /\ dll h' sample_l keep /\ dll h' sample_d dups.
Proof.
  destruct (list_unique_correct (fun a b => a / 2 <? b / 2) sample_heap sample_l sample_d
    [10; 11; 12] [] sample_l_dll sample_d_dll sample_separate)
    as (h' & keep & dups & E & Hl & Hd & _).
  exists h', keep, dups. split; [exact E | split; [exact Hl | exact Hd]].
Defined.
