(* ===== verification/KListSort.v ===== *)
(** Correctness of [list_sort] of lib/kernel/list.c, the natural merge sort on
    the links of a list in memory.

    The comparison is assumed to be a strict weak order, which is what the
    header asks of a [list_less_func].  The passes are followed on the list of
    elements: [run_split] is the end of a run, [merge] the result of
    [inplace_merge], [runs] the number of nondecreasing runs, which every pass
    with more than one output run makes smaller. *)

From stdpp Require Import base list numbers gmap sorting.
From Stdlib Require Import ZArith Lia.
From S2P Require Import Prelude KList KListSpec.

#[local] Abbreviation ptr := Z.
#[local] Abbreviation heap := (gmap Z list_elem).

(** What a [list_less_func] has to be. *)
Class StrictWeak (less : ptr -> ptr -> bool) : Prop := {
  less_asym : forall x y, less x y = true -> less y x = false;
  nless_trans : forall x y z, less y x = false -> less z y = false -> less z x = false
}.

Section Sort.
Context (less : ptr -> ptr -> bool).

Definition le (x y : ptr) : Prop := less y x = false.

Fixpoint run_split (p : ptr) (ys : list ptr) : list ptr * list ptr :=
  match ys with
  | [] => ([], [])
  | y :: ys' =>
      if less y p then ([], ys)
      else let '(a, b) := run_split y ys' in (y :: a, b)
  end.

Fixpoint merge (xs : list ptr) : list ptr -> list ptr :=
  fix merge_xs (ys : list ptr) : list ptr :=
    match xs, ys with
    | [], _ => ys
    | _, [] => xs
    | x :: xs', y :: ys' => if less y x then y :: merge_xs ys' else x :: merge xs' ys
    end.

Fixpoint descents (p : ptr) (ys : list ptr) : nat :=
  match ys with
  | [] => 0
  | y :: ys' => (if less y p then 1 else 0) + descents y ys'
  end.

Definition runs (ys : list ptr) : nat :=
  match ys with [] => 0 | y :: ys' => S (descents y ys') end.

(** ** Facts about runs and merging *)

Lemma run_split_app p ys : (run_split p ys).1 ++ (run_split p ys).2 = ys.
Proof.
  revert p. induction ys as [|y ys IH]; intros p; [done|]. simpl. destruct (less y p); [done|].
  specialize (IH y). destruct (run_split y ys). simpl in *. by rewrite IH.
Qed.

Lemma run_split_sorted p ys : Sorted le (p :: (run_split p ys).1).
Proof.
  revert p. induction ys as [|y ys IH]; intros p; simpl; [by repeat constructor|].
  destruct (less y p) eqn:E; [by repeat constructor|].
  specialize (IH y). destruct (run_split y ys). simpl in *. constructor; [done|].
  by constructor.
Qed.

Lemma run_split_descents p ys :
  descents p ys = match (run_split p ys).2 with [] => 0%nat | z :: t => S (descents z t) end.
Proof.
  revert p. induction ys as [|y ys IH]; intros p; [done|]. simpl.
  destruct (less y p) eqn:E; simpl; [done|]. rewrite IH.
  by destruct (run_split y ys).
Qed.

Lemma descents_sorted p ys : Sorted le (p :: ys) <-> descents p ys = 0%nat.
Proof.
  revert p. induction ys as [|y ys IH]; intros p; simpl.
  - split; [done|]. by repeat constructor.
  - split.
    + intros [Hs Hr]%Sorted_inv. apply IH in Hs. rewrite Hs.
      apply HdRel_inv in Hr. unfold le in Hr. by rewrite Hr.
    + intros E. destruct (less y p) eqn:El; [done|]. constructor; [by apply IH|]. by constructor.
Qed.

Lemma runs_sorted ys : (runs ys <= 1)%nat <-> Sorted le ys.
Proof.
  destruct ys as [|y ys]; simpl; [split; [constructor|lia]|]. rewrite descents_sorted. lia.
Qed.

Lemma descents_app p xs ys :
  (descents p (xs ++ ys) <= descents p xs + runs ys)%nat.
Proof.
  revert p. induction xs as [|x xs IH]; intros p; simpl.
  - destruct ys; simpl; [lia|]. destruct (less _ _); lia.
  - specialize (IH x). lia.
Qed.

Lemma runs_app xs ys : (runs (xs ++ ys) <= runs xs + runs ys)%nat.
Proof. destruct xs as [|x xs]; simpl; [lia|]. pose proof (descents_app x xs ys). lia. Qed.

Lemma descents_length p ys : (descents p ys <= length ys)%nat.
Proof.
  revert p. induction ys as [|y ys IH]; intros p; simpl; [lia|].
  specialize (IH y). destruct (less y p); lia.
Qed.

Lemma runs_length ys : (runs ys <= length ys)%nat.
Proof. destruct ys as [|y ys]; simpl; [lia|]. pose proof (descents_length y ys). lia. Qed.

Lemma merge_nil_r xs : merge xs [] = xs.
Proof. by destruct xs. Qed.

Lemma merge_nil_l ys : merge [] ys = ys.
Proof. by destruct ys. Qed.

Lemma merge_perm xs : forall ys, merge xs ys ≡ₚ xs ++ ys.
Proof.
  induction xs as [|x xs IHx]; [by intros []|].
  induction ys as [|y ys IHy]; [by rewrite app_nil_r|].
  simpl. destruct (less y x).
  - etrans; [apply perm_skip, IHy|]. apply (Permutation_middle (x :: xs) ys y).
  - apply perm_skip, IHx.
Qed.

Lemma merge_HdRel z xs : forall ys,
  HdRel le z xs -> HdRel le z ys -> HdRel le z (merge xs ys).
Proof.
  intros [|y ys] Hx Hy; [by rewrite merge_nil_r|]. destruct xs as [|x xs]; [done|].
  simpl. apply HdRel_inv in Hx, Hy. destruct (less y x); by constructor.
Qed.

Context `{SW : !StrictWeak less}.

Lemma merge_sorted xs : forall ys, Sorted le xs -> Sorted le ys -> Sorted le (merge xs ys).
Proof.
  induction xs as [|x xs IHx]; [by intros []|].
  induction ys as [|y ys IHy]; [done|]. intros Hx Hy. simpl.
  destruct (less y x) eqn:E.
  - apply Sorted_inv in Hy as [Hy Hry]. constructor; [by apply IHy|].
    apply (merge_HdRel y (x :: xs) ys); [|done]. constructor. by apply less_asym.
  - apply Sorted_inv in Hx as [Hx Hrx]. constructor; [by apply IHx|].
    apply merge_HdRel; [done|]. by constructor.
Qed.

(** ** The functions of the code *)

(** Two positions of one list are equal only if nothing lies between them. *)
Lemma first_of_seg h l xs A ws :
  dll h l (xs ++ A ++ ws) ->
  (first_of l (A ++ ws) =? first_of l ws) = match A with [] => true | _ => false end.
Proof using Type.
  intros Hd. destruct A as [|a A]; simpl; [apply Z.eqb_refl|]. apply Z.eqb_neq.
  change (first_of l (a :: A ++ ws)) with a. intros ->.
  pose proof (dll_nodup _ _ _ Hd) as [_ Hnd]%NoDup_cons.
  rewrite <- app_assoc in Hnd. apply NoDup_app in Hnd as (_ & _ & Hnd). simpl in Hnd.
  apply NoDup_cons in Hnd as [Hn _]. apply Hn. rewrite <- app_assoc. apply elem_of_app. right.
  unfold first_of. destruct ws; simpl; left.
Qed.

Lemma first_of_ne_NULL h l xs ys : dll h l (xs ++ ys) -> first_of l ys <> NULL.
Proof using Type. intros Hd. eapply dll_ne_NULL; [done|]. apply first_of_in. Qed.

Lemma is_sorted_loop_dll fuel : forall h l xs a A zs,
  dll h l (xs ++ a :: A ++ zs) -> Sorted le (a :: A) -> (length A < fuel)%nat ->
  is_sorted_loop less fuel a (first_of l zs) h = Ok (true, h).
Proof using Type.
  induction fuel as [|fuel IH]; intros h l xs a A zs Hd Hs Hf; [lia|].
  simpl. mstep (list_next_dll h l xs a (A ++ zs) Hd).
  pose proof Hd as Hd'. rewrite app_cons_snoc in Hd'.
  rewrite (first_of_seg h l _ A zs Hd'). destruct A as [|b A]; [done|].
  mstep (list_prev_dll h l _ _ Hd'). rewrite last_of_snoc.
  change (first_of l ((b :: A) ++ zs)) with b.
  apply Sorted_inv in Hs as [Hs Hr]. apply HdRel_inv in Hr. unfold le in Hr. rewrite Hr.
  apply (IH h l (xs ++ [a]) b A zs); [done|done|simpl in Hf; lia].
Qed.

Lemma is_sorted_dll h l xs A zs :
  dll h l (xs ++ A ++ zs) -> Sorted le A ->
  is_sorted less (first_of l (A ++ zs)) (first_of l zs) h = Ok (true, h).
Proof using Type.
  intros Hd Hs. unfold is_sorted. rewrite (first_of_seg h l xs A zs Hd).
  destruct A as [|a A]; [done|]. cbn [negb]. mstep (enough_ok h).
  apply (is_sorted_loop_dll _ h l xs a A zs); [done|done|].
  pose proof (dll_length h l _ Hd) as Hl. rewrite !length_app in Hl. simpl in Hl. lia.
Qed.

Lemma find_end_of_run_loop_dll fuel : forall h l xs a ys,
  dll h l (xs ++ a :: ys) -> (length ys < fuel)%nat ->
  find_end_of_run_loop less fuel a (ltail l) h = Ok (first_of l (run_split a ys).2, h).
Proof using Type.
  induction fuel as [|fuel IH]; intros h l xs a ys Hd Hf; [lia|].
  simpl. mstep (list_next_dll h l xs a ys Hd).
  pose proof Hd as Hd'. rewrite app_cons_snoc in Hd'.
  change (ltail l) with (list_end l) at 1. rewrite (first_of_end h l _ ys Hd').
  destruct ys as [|y ys]; [done|].
  mstep (list_prev_dll h l _ _ Hd'). rewrite last_of_snoc, first_of_cons. simpl run_split.
  destruct (less y a) eqn:E; [done|].
  rewrite (IH h l (xs ++ [a]) y ys) by (done || simpl in Hf; lia).
  by destruct (run_split y ys).
Qed.

Lemma find_end_of_run_dll h l xs a ys :
  dll h l (xs ++ a :: ys) ->
  find_end_of_run less a (list_end l) h = Ok (first_of l (run_split a ys).2, h).
Proof using Type.
  intros Hd. unfold find_end_of_run.
  mstep (assertM_true (negb (a =? NULL)) h
    ltac:(rewrite eqb_NULL; [done|]; exact (first_of_ne_NULL h l xs (a :: ys) Hd))).
  mstep (assertM_true (negb (list_end l =? NULL)) h
    ltac:(rewrite eqb_NULL; [done|]; rewrite <- (app_nil_r (xs ++ _)) in Hd;
          exact (first_of_ne_NULL h l _ [] Hd))).
  mstep (assertM_true (negb (a =? list_end l)) h
    ltac:(pose proof (first_of_end h l xs (a :: ys) Hd) as E; simpl in E; by rewrite E)).
  mstep (enough_ok h). apply (find_end_of_run_loop_dll _ h l xs); [done|].
  pose proof (dll_length h l _ Hd) as Hl. rewrite length_app in Hl. simpl in Hl. lia.
Qed.

(** Moving the element that starts the second run in front of the first. *)
Lemma dll_splice h l xs a A b ws :
  dll h l (xs ++ (a :: A) ++ b :: ws) ->
  exists h', list_splice a b (first_of l ws) h = Ok (tt, h') /\
    dll h' l (xs ++ b :: (a :: A) ++ ws) /\
    same_except (nodes l (xs ++ (a :: A) ++ b :: ws)) h h' /\ size h' = size h.
Proof using Type.
  intros Hd.
  destruct (nodes_split l xs ((a :: A) ++ b :: ws)) as (us & _ & _ & Eu & _).
  assert (exists vs, ws ++ [ltail l] = first_of l ws :: vs) as [vs Ev].
  { destruct ws; simpl; eauto. }
  set (bp := last_of l xs) in *. set (n := first_of l ws) in *.
  assert (En : nodes l (xs ++ (a :: A) ++ b :: ws) = (us ++ [bp]) ++ (a :: A) ++ [b] ++ n :: vs).
  { unfold nodes. rewrite <- Eu, <- Ev. simpl. rewrite <- !app_assoc. simpl. by rewrite <- !app_assoc. }
  assert (En' : nodes l (xs ++ b :: (a :: A) ++ ws) = (us ++ [bp]) ++ [b] ++ (a :: A) ++ n :: vs).
  { unfold nodes. rewrite <- Eu, <- Ev. simpl. rewrite <- !app_assoc. simpl. by rewrite <- !app_assoc. }
  pose proof (dll_links h l xs _ Hd) as [L1 L2]. fold bp in L1, L2.
  change (first_of l ((a :: A) ++ b :: ws)) with a in L1, L2.
  pose proof Hd as Hd2. rewrite (app_assoc xs) in Hd2.
  pose proof (dll_links h l _ _ Hd2) as [L3 L4]. rewrite first_of_cons in L3, L4.
  rewrite app_cons_snoc in Hd2. pose proof (dll_links h l _ _ Hd2) as [L5 L6].
  rewrite last_of_snoc in L5, L6. fold n in L5, L6.
  assert (Efp : last (a :: A) = Some (last_of l (xs ++ a :: A))).
  { unfold last_of. rewrite last_app. destruct (last (a :: A)) eqn:E; [done|].
    by apply last_None in E. }
  set (fp := last_of l (xs ++ a :: A)) in *.
  pose proof (dll_nodup _ _ _ Hd) as Hnd. pose proof Hnd as Hnd'. rewrite En in Hnd'.
  apply NoDup_app4 in Hnd' as (_ & (D1 & D2 & D3) & (D4 & D5) & D6).
  assert (bp ∈ us ++ [bp]) by (apply elem_of_app; right; left).
  assert (a ∈ a :: A) by left. assert (b ∈ [b]) by left. assert (n ∈ n :: vs) by left.
  assert (fp ∈ a :: A) by (by apply last_Some_elem_of).
  assert (lhead l ∈ us ++ [bp]) by (rewrite <- Eu; left).
  assert (ltail l ∈ n :: vs) by (rewrite <- Ev; apply elem_of_app; right; left).
  assert (Hin : forall u, u ∈ us ++ [bp] \/ u ∈ a :: A \/ u ∈ [b] \/ u ∈ n :: vs ->
            u ∈ nodes l (xs ++ (a :: A) ++ b :: ws)).
  { intros u Hu. rewrite En, !elem_of_app. rewrite elem_of_app in Hu. tauto. }
  assert (Hnn : forall u, u ∈ us ++ [bp] \/ u ∈ a :: A \/ u ∈ [b] \/ u ∈ n :: vs -> u <> NULL)
    by eauto using dll_ne_NULL.
  assert (Hmm : forall u, u ∈ us ++ [bp] \/ u ∈ a :: A \/ u ∈ [b] \/ u ∈ n :: vs -> is_Some (h !! u))
    by eauto using dll_mem.
  exists (spliced bp a b b fp n h). split_and!.
  - apply list_splice_ok; eauto 6 using apart_ne, apart_ne';
      (eexists; split; [eassumption|]); apply Hnn; tauto.
  - assert (Hp : nodes l (xs ++ b :: (a :: A) ++ ws) ≡ₚ nodes l (xs ++ (a :: A) ++ b :: ws)).
    { unfold nodes. do 2 f_equiv. f_equiv. apply (Permutation_middle (a :: A)). }
    destruct Hd as [Hc _ Hn Hh Ht]. split.
    + rewrite En'. rewrite En in Hc, Hnd. by apply chain_splice.
    + by rewrite Hp.
    + by rewrite Hp.
    + assert (a <> lhead l /\ b <> lhead l /\ n <> lhead l) as (?&?&?)
        by (split_and!; eauto using apart_ne').
      unfold spliced. links.
    + assert (bp <> ltail l /\ b <> ltail l /\ fp <> ltail l) as (?&?&?)
        by (split_and!; eauto using apart_ne).
      unfold spliced. links.
  - intros q Hq. unfold spliced, upd_prev, upd_next.
    rewrite !lookup_alter_ne; [done|intros ->; apply Hq, Hin; auto..].
  - unfold spliced. by rewrite size_upd_prev, !size_upd_next, !size_upd_prev, size_upd_next.
Qed.

Lemma inplace_merge_loop_dll fuel : forall h l xs A B zs,
  dll h l (xs ++ A ++ B ++ zs) -> (length A + length B < fuel)%nat ->
  exists h', inplace_merge_loop less fuel (first_of l (A ++ B ++ zs)) (first_of l (B ++ zs))
      (first_of l zs) h = Ok (tt, h') /\
    dll h' l (xs ++ merge A B ++ zs) /\
    same_except (nodes l (xs ++ A ++ B ++ zs)) h h' /\ size h' = size h.
Proof using Type.
  induction fuel as [|fuel IH]; intros h l xs A B zs Hd Hf; [lia|].
  simpl inplace_merge_loop. rewrite (first_of_seg h l xs A (B ++ zs) Hd).
  pose proof Hd as Hd2. rewrite app_assoc in Hd2. rewrite (first_of_seg h l _ B zs Hd2).
  destruct A as [|a A]; [exists h; by rewrite merge_nil_l|].
  destruct B as [|b B]; [exists h; by rewrite merge_nil_r|]. cbn [negb andb].
  change (first_of l ((a :: A) ++ (b :: B) ++ zs)) with a.
  change (first_of l ((b :: B) ++ zs)) with b. simpl merge.
  destruct (less b a) eqn:E; cbn [negb].
  - simpl app in Hd2. mstep (list_next_dll h l _ b (B ++ zs) Hd2).
    rewrite app_cons_snoc in Hd2. mstep (list_prev_dll h l _ _ Hd2). rewrite last_of_snoc.
    destruct (dll_splice h l xs a A b (B ++ zs)) as (h1 & E1 & Hd1 & Hs1 & Hz1); [done|].
    mstep E1. rewrite app_cons_snoc in Hd1.
    destruct (IH h1 l (xs ++ [b]) (a :: A) B zs Hd1) as (h2 & E2 & Hd3 & Hs2 & Hz2);
      [simpl in *; lia|].
    exists h2. split_and!; [done| | |congruence].
    + rewrite <- app_assoc in Hd3. done.
    + eapply same_except_trans; [done|]. eapply same_except_weaken; [|exact Hs2].
      intros u. apply nodes_perm_in. rewrite <- app_assoc. f_equiv.
      symmetry. apply (Permutation_middle (a :: A) (B ++ zs) b).
  - mstep (list_next_dll h l xs a (A ++ (b :: B) ++ zs) Hd).
    pose proof Hd as Hd1. simpl app in Hd1. rewrite app_cons_snoc in Hd1.
    destruct (IH h l (xs ++ [a]) A (b :: B) zs Hd1) as (h2 & E2 & Hd3 & Hs2 & Hz2);
      [simpl in *; lia|].
    exists h2. split_and!; [done| | |done].
    + rewrite <- app_assoc in Hd3. done.
    + rewrite <- app_assoc in Hs2. done.
Qed.

Lemma inplace_merge_dll h l xs A B zs :
  dll h l (xs ++ A ++ B ++ zs) -> Sorted le A -> Sorted le B ->
  exists h', inplace_merge less (first_of l (A ++ B ++ zs)) (first_of l (B ++ zs))
      (first_of l zs) h = Ok (tt, h') /\
    dll h' l (xs ++ merge A B ++ zs) /\
    same_except (nodes l (xs ++ A ++ B ++ zs)) h h' /\ size h' = size h.
Proof using Type.
  intros Hd HA HB. unfold inplace_merge.
  pose proof Hd as Hd2. rewrite app_assoc in Hd2. pose proof Hd2 as Hd3. rewrite app_assoc in Hd3.
  pose proof (first_of_ne_NULL _ _ _ _ Hd). pose proof (first_of_ne_NULL _ _ _ _ Hd2).
  pose proof (first_of_ne_NULL _ _ _ _ Hd3).
  do 3 (erewrite stbind_step by (apply assertM_true; by rewrite eqb_NULL)).
  mstep (is_sorted_dll h l xs A (B ++ zs) Hd HA). mstep (assertM_true true h eq_refl).
  mstep (is_sorted_dll h l (xs ++ A) B zs Hd2 HB). mstep (assertM_true true h eq_refl).
  mstep (enough_ok h). apply inplace_merge_loop_dll; [done|].
  pose proof (dll_length h l _ Hd) as Hl. rewrite !length_app in Hl. lia.
Qed.

(** One pass: it permutes the list, outputs at most half the runs rounded up,
    and leaves no more runs than it output. *)
Lemma list_sort_pass_dll fuel : forall h l xs ys cnt,
  dll h l (xs ++ ys) -> (length ys < fuel)%nat ->
  0 <= cnt -> cnt + Z.of_nat (length ys) < 2 ^ 32 ->
  exists h' ys' c, list_sort_pass less fuel l (first_of l ys) cnt h = Ok (cnt + Z.of_nat c, h') /\
    dll h' l (xs ++ ys') /\ ys' ≡ₚ ys /\ (runs ys' <= c)%nat /\ (2 * c <= runs ys + 1)%nat /\
    same_except (nodes l (xs ++ ys)) h h' /\ size h' = size h.
Proof.
  induction fuel as [|fuel IH]; intros h l xs ys cnt Hd Hf Hc0 Hc; [lia|].
  simpl list_sort_pass. rewrite (first_of_end h l xs ys Hd). destruct ys as [|y t].
  { exists h, [], 0%nat. rewrite Z.add_0_r. split_and!; try done; simpl; lia. }
  rewrite first_of_cons. mstep (find_end_of_run_dll h l xs y t Hd).
  rewrite (u32_small (cnt + 1)) by (unfold is_u32; simpl in Hc; lia).
  pose proof (run_split_app y t) as Et. pose proof (run_split_sorted y t) as Hs1.
  pose proof (run_split_descents y t) as Hr1.
  destruct (run_split y t) as [r1 rest1]. simpl in Et, Hs1, Hr1 |- *.
  pose proof Hd as Hd1. rewrite <- Et in Hd1.
  change (y :: r1 ++ rest1) with ((y :: r1) ++ rest1) in Hd1.
  rewrite app_assoc in Hd1. rewrite (first_of_end h l _ rest1 Hd1).
  destruct rest1 as [|z t2].
  { rewrite app_nil_r in Et. subst t. exists h, (y :: r1), 1%nat.
    split_and!; try done; simpl; rewrite Hr1; lia. }
  rewrite first_of_cons. mstep (find_end_of_run_dll h l _ z t2 Hd1).
  pose proof (run_split_app z t2) as Et2. pose proof (run_split_sorted z t2) as Hs2.
  pose proof (run_split_descents z t2) as Hr2.
  destruct (run_split z t2) as [r2 rest2]. simpl in Et2, Hs2, Hr2 |- *. subst t2.
  rewrite <- app_assoc in Hd1. change (z :: r2 ++ rest2) with ((z :: r2) ++ rest2) in *.
  destruct (inplace_merge_dll h l xs (y :: r1) (z :: r2) rest2 Hd1 Hs1 Hs2)
    as (h1 & E1 & Hd2 & Hse1 & Hz1).
  change (first_of l ((y :: r1) ++ (z :: r2) ++ rest2)) with y in E1.
  change (first_of l ((z :: r2) ++ rest2)) with z in E1. mstep E1.
  rewrite app_assoc in Hd2.
  assert (Hlen : length t = (length r1 + S (length r2) + length rest2)%nat).
  { rewrite <- Et, !length_app. simpl. lia. }
  destruct (IH h1 l _ rest2 (cnt + 1) Hd2) as (h2 & o & c & E2 & Hd3 & Hp & Hr & Hc2 & Hse2 & Hz2);
    [simpl in Hf; lia|lia|simpl in Hc; lia|].
  exists h2, (merge (y :: r1) (z :: r2) ++ o), (S c). split_and!.
  - rewrite E2. do 2 f_equal. lia.
  - rewrite <- app_assoc in Hd3. done.
  - rewrite merge_perm, Hp, <- Et. by rewrite <- app_assoc.
  - pose proof (runs_app (merge (y :: r1) (z :: r2)) o).
    pose proof (proj2 (runs_sorted _) (merge_sorted _ _ Hs1 Hs2)). lia.
  - simpl. rewrite Hr1, Hr2. destruct rest2; simpl in *; lia.
  - rewrite <- Et. eapply same_except_trans; [exact Hse1|].
    eapply same_except_weaken; [|exact Hse2]. intros u. apply nodes_perm_in.
    rewrite <- app_assoc. f_equiv. rewrite merge_perm. by rewrite <- app_assoc.
  - congruence.
Qed.

Lemma list_sort_loop_dll fuel : forall h l xs,
  dll h l xs -> (runs xs < fuel)%nat -> Z.of_nat (length xs) < 2 ^ 32 ->
  exists h' ys, list_sort_loop less fuel l h = Ok (tt, h') /\ dll h' l ys /\ ys ≡ₚ xs /\
    Sorted le ys /\ same_except (nodes l xs) h h' /\ size h' = size h.
Proof.
  induction fuel as [|fuel IH]; intros h l xs Hd Hf Hlen; [lia|].
  simpl list_sort_loop. mstep (enough_ok h). mstep (list_begin_dll h l xs Hd).
  pose proof (dll_length h l xs Hd) as Hsz.
  destruct (list_sort_pass_dll (S (size h)) h l [] xs 0) 
    as (h1 & ys & c & E1 & Hd1 & Hp1 & Hr1 & Hc1 & Hse1 & Hz1); [done|lia..|].
  mstep E1. destruct (Z.ltb_spec 1 (0 + Z.of_nat c)).
  - destruct (IH h1 l ys) as (h2 & zs & E2 & Hd2 & Hp2 & Hs2 & Hse2 & Hz2); [done|lia| |].
    { by rewrite Hp1. }
    exists h2, zs. split_and!; [done|done|by rewrite Hp2|done| |congruence].
    eapply same_except_trans; [exact Hse1|]. eapply same_except_weaken; [|exact Hse2].
    intros u. by apply nodes_perm_in.
  - exists h1, ys. split_and!; try done. apply runs_sorted. lia.
Qed.

Lemma list_sort_dll h l xs :
  dll h l xs -> Z.of_nat (length xs) < 2 ^ 32 ->
  exists h' ys, list_sort less l h = Ok (tt, h') /\ dll h' l ys /\ ys ≡ₚ xs /\
    Sorted le ys /\ same_except (nodes l xs) h h' /\ size h' = size h.
Proof.
  intros Hd Hlen. unfold list_sort. mstep (enough_ok h).
  pose proof (dll_length h l xs Hd). pose proof (runs_length xs).
  destruct (list_sort_loop_dll (S (size h)) h l xs)
    as (h1 & ys & E1 & Hd1 & Hp & Hs & Hse & Hz); [done|lia|done|].
  mstep E1. exists h1, ys. split_and!; try done.
  mstep (list_begin_dll h1 l ys Hd1).
  pose proof (is_sorted_dll h1 l [] ys []) as Hi. rewrite app_nil_r in Hi.
  by mstep (Hi Hd1 Hs).
Qed.

End Sort.

(** ** Further facts on the ordered operations *)

Section OrderedFacts.
Context (less : ptr -> ptr -> bool) `{SW : !StrictWeak less}.

Lemma le_total x y : le less x y \/ le less y x.
Proof.
  unfold le. destruct (less y x) eqn:E; [right|by left]. by apply less_asym.
Qed.

Lemma le_transitive : Transitive (le less).
Proof. intros x y z. unfold le. apply nless_trans. Qed.

Lemma split_less_sorted e xs :
  Sorted (le less) xs ->
  Sorted (le less) ((split_less less e xs).1 ++ e :: (split_less less e xs).2).
Proof.
  induction xs as [|x xs IH]; simpl; intros Hs; [by repeat constructor|].
  destruct (less e x) eqn:E; simpl.
  - constructor; [done|]. constructor. by apply less_asym.
  - apply Sorted_inv in Hs as [Hs Hr]. specialize (IH Hs).
    destruct xs as [|y ys]; simpl in *.
    { constructor; [done|]. by constructor. }
    destruct (less e y) eqn:E2; simpl in *.
    + constructor; [done|]. by constructor.
    + destruct (split_less less e ys). simpl in *. constructor; [done|].
      apply HdRel_inv in Hr. by constructor.
Qed.

(** The loop's maximum is an element nothing exceeds, and the first such. *)
Lemma max_of_spec m ys :
  exists ys1 ys2, m :: ys = ys1 ++ max_of less m ys :: ys2 /\
    Forall (fun y => less y (max_of less m ys) = true) ys1 /\
    Forall (fun y => less (max_of less m ys) y = false) ys2.
Proof.
  revert m. induction ys as [|y ys IH]; intros m; [by exists [], []|].
  change (max_of less m (y :: ys)) with (max_of less (if less m y then y else m) ys).
  destruct (less m y) eqn:E.
  - destruct (IH y) as (ys1 & ys2 & E1 & H1 & H2). set (M := max_of less y ys) in *.
    exists (m :: ys1), ys2. split_and!; [simpl; congruence| |done]. constructor; [|done].
    destruct ys1 as [|z ys1]; injection E1 as E1 E1'; [congruence|].
    apply Forall_cons in H1 as [H1 _]. rewrite <- E1 in H1.
    destruct (less m M) eqn:EM; [done|].
    by rewrite (nless_trans y M m (less_asym _ _ H1) EM) in E.
  - destruct (IH m) as (ys1 & ys2 & E1 & H1 & H2). set (M := max_of less m ys) in *.
    destruct ys1 as [|z ys1]; injection E1 as E1 E1'.
    + exists [], (y :: ys2). rewrite <- E1'. split_and!; [simpl; congruence|constructor|].
      constructor; congruence.
    + exists (m :: y :: ys1), ys2. split_and!; [simpl; congruence| |done].
      apply Forall_cons in H1 as [H1 H1']. rewrite <- E1 in H1. repeat constructor; [done| |done].
      destruct (less y M) eqn:EM; [done|].
      pose proof (nless_trans M y m EM E) as Hc. congruence.
Qed.

End OrderedFacts.

(** ** Properties *)

(** The order on addresses, used as a concrete comparison. *)
Definition by_address (a b : ptr) : bool := a <? b.
#[local] Instance by_address_sw : StrictWeak by_address.
Proof.
  unfold by_address. split.
  - intros x y H%Z.ltb_lt. apply Z.ltb_ge. lia.
  - intros x y z H1%Z.ltb_ge H2%Z.ltb_ge. apply Z.ltb_ge. lia.
Defined.

(** C2. [list_sort] terminates on every well-formed list (shorter than the
    range of its run counter) and leaves it well formed, holding a permutation
    of its elements in nondecreasing order, without touching memory outside
    the list; all its internal assertions hold. *)
Theorem list_sort_correct less `{!StrictWeak less} h l xs :
  dll h l xs -> Z.of_nat (length xs) < 2 ^ 32 ->
  exists h' ys, list_sort less l h = Ok (tt, h') /\ dll h' l ys /\ ys ≡ₚ xs /\
    Sorted (le less) ys /\ same_except (nodes l xs) h h'.
Proof.
  intros Hd Hl. destruct (list_sort_dll less h l xs Hd Hl) as (h' & ys & ? & ? & ? & ? & ? & _).
  eauto 10.
Qed.

Definition by_address_desc (a b : ptr) : bool := b <? a.
#[local] Instance by_address_desc_sw : StrictWeak by_address_desc.
Proof.
  unfold by_address_desc. split.
  - intros x y H%Z.ltb_lt. apply Z.ltb_ge. lia.
  - intros x y z H1%Z.ltb_ge H2%Z.ltb_ge. apply Z.ltb_ge. lia.
Defined.

Lemma list_sort_correct_witness :
  exists h' ys, list_sort by_address_desc sample_l sample_heap = Ok (tt, h') /\
    dll h' sample_l ys /\ Sorted (le by_address_desc) ys.
Proof.
  destruct (list_sort_correct by_address_desc sample_heap sample_l [10; 11; 12])
    as (h' & ys & E & Hd & _ & Hs & _).
  - exact sample_l_dll.
  - reflexivity.
  - exists h', ys. split; [exact E | split; [exact Hd | exact Hs]].
Defined.

(** [list_insert_ordered] keeps a sorted list sorted and adds exactly the
    new element to it. *)
Theorem list_insert_ordered_correct less `{!StrictWeak less} h l xs e :
  dll h l xs -> Sorted (le less) xs -> e ∉ nodes l xs -> e <> NULL -> is_Some (h !! e) ->
  exists h' ys, list_insert_ordered less l e h = Ok (tt, h') /\ dll h' l ys /\
    ys ≡ₚ e :: xs /\ Sorted (le less) ys /\ same_except (e :: nodes l xs) h h'.
Proof.
  intros Hd Hs He Hn Hin.
  destruct (list_insert_ordered_dll less h l xs e Hd He Hn Hin) as (h' & E & Hd' & Hse & _).
  eexists h', _. split_and!; [done|done| |by apply split_less_sorted|done].
  rewrite <- Permutation_middle. by rewrite split_less_app.
Qed.

Lemma list_insert_ordered_correct_witness :
  exists h' ys, list_insert_ordered by_address sample_l 13 sample_heap = Ok (tt, h') /\
    dll h' sample_l ys /\ Sorted (le by_address) ys.
Proof.
  destruct (list_insert_ordered_correct by_address sample_heap sample_l [10; 11; 12] 13)
    as (h' & ys & E & Hd & _ & Hs & _).
  - exact sample_l_dll.
  - repeat constructor.
  - exact sample_fresh.
  - vm_compute. discriminate.
  - exact sample_mem.
  - exists h', ys. split; [exact E | split; [exact Hd | exact Hs]].
Defined.

(** [list_max] returns the largest element, the earliest one when several
    are maximal, and the tail for an empty list; memory is unchanged. *)
Theorem list_max_correct less `{!StrictWeak less} h l xs :
  dll h l xs ->
  exists m, list_max less l h = Ok (m, h) /\
    (xs = [] /\ m = list_end l \/
     exists ys zs, xs = ys ++ m :: zs /\ Forall (fun y => less y m = true) ys /\
       Forall (fun z => less m z = false) zs).
Proof.
  intros Hd. rewrite (list_max_dll less h l xs Hd). destruct xs as [|x xs].
  - eexists; split; [done|]. by left.
  - eexists; split; [done|]. right. apply max_of_spec, _.
Qed.

Lemma list_max_correct_witness :
  exists m, list_max by_address sample_l sample_heap = Ok (m, sample_heap).
Proof.
  destruct (list_max_correct by_address sample_heap sample_l [10; 11; 12] sample_l_dll)
    as (m & E & _). exists m. exact E.
Defined.
