(* ===== verification/CStdlib.v ===== *)
(** Conversion, sorting and searching: lib/stdlib.c, with the character
    classes of lib/ctype.h it uses.

    An array of CNT elements of SIZE bytes is the list of its bytes, as the
    code sees it; a comparison function receives the SIZE bytes its pointer
    arguments address.  Accesses outside the array are [EFault].  The theorems
    relate the byte array to the list of its elements. *)

From stdpp Require Import base list numbers sorting.
From Stdlib Require Import ZArith Lia.
From S2P Require Import Prelude.

(** ** Characters *)

Definition isspace (c : Z) : bool :=
  (c =? 32) || (c =? 12) || (c =? 10) || (c =? 13) || (c =? 9) || (c =? 11).
Definition isdigit (c : Z) : bool := (48 <=? c) && (c <=? 57).

(** ** atoi *)

Fixpoint skip_space (s : list Z) : list Z :=
  match s with
  | c :: s' => if isspace c then skip_space s' else s
  | [] => []
  end.

Fixpoint parse_digits (s : list Z) (value : Z) : Z :=
  match s with
  | c :: s' => if isdigit c then parse_digits s' (s32 (s32 (value * 10) - (c - 48))) else value
  | [] => value
  end.

(** [s] is the string with its terminator, as the bytes from the pointer on. *)
Definition atoi (s : list Z) : Z :=
  let s := skip_space s in
  let '(negative, s) :=
    match s with
    | c :: s' => if c =? 43 then (false, s') else if c =? 45 then (true, s') else (false, s)
    | [] => (false, [])
    end in
  let value := parse_digits s 0 in
  if negative then value else s32 (- value).

(** ** Sorting *)

Section Sorting.
(** The comparison function, on the bytes of two elements. *)
Context (compare : list Z -> list Z -> Z).

(** The SIZE bytes at an offset of the array. *)
Definition elem_at (array : list Z) (ofs size : Z) : res (list Z) :=
  if (0 <=? ofs) && (ofs + size <=? Z.of_nat (length array))
  then Ok (take (Z.to_nat size) (drop (Z.to_nat ofs) array))
  else Err EFault.

Definition get_byte (array : list Z) (i : Z) : res Z :=
  if 0 <=? i then of_option EFault (array !! Z.to_nat i) else Err EFault.

Definition set_byte (array : list Z) (i v : Z) : res (list Z) :=
  _ ← get_byte array i; mret (<[Z.to_nat i := v]> array).

Fixpoint do_swap_loop (k : nat) (i : Z) (array : list Z) (a b : Z) : res (list Z) :=
  match k with
  | O => mret array
  | S k' =>
      t ← get_byte array (a + i);
      bi ← get_byte array (b + i);
      array1 ← set_byte array (a + i) bi;
      array2 ← set_byte array1 (b + i) t;
      do_swap_loop k' (i + 1) array2 a b
  end.

Definition do_swap (array : list Z) (a_idx b_idx size : Z) : res (list Z) :=
  let a := u32 (u32 (a_idx - 1) * size) in
  let b := u32 (u32 (b_idx - 1) * size) in
  do_swap_loop (Z.to_nat size) 0 array a b.

Definition do_compare (array : list Z) (a_idx b_idx size : Z) : res Z :=
  x ← elem_at array (u32 (u32 (a_idx - 1) * size)) size;
  y ← elem_at array (u32 (u32 (b_idx - 1) * size)) size;
  mret (compare x y).

Fixpoint heapify (fuel : nat) (array : list Z) (i cnt size : Z) : res (list Z) :=
  match fuel with
  | O => Err EFuel
  | S fuel' =>
      let left := u32 (2 * i) in
      let right := u32 (2 * i + 1) in
      let max := i in
      max ← (if left <=? cnt
             then c ← do_compare array left max size; mret (if 0 <? c then left else max)
             else mret max);
      max ← (if right <=? cnt
             then c ← do_compare array right max size; mret (if 0 <? c then right else max)
             else mret max);
      if max =? i then mret array
      else array ← do_swap array i max size; heapify fuel' array max cnt size
  end.

(** [for (i = cnt / 2; i > 0; i--)], with [i] iterations left. *)
Fixpoint build_heap (i : nat) (array : list Z) (cnt size : Z) : res (list Z) :=
  match i with
  | O => mret array
  | S i' =>
      array ← heapify (S (Z.to_nat cnt)) array (Z.of_nat i) cnt size;
      build_heap i' array cnt size
  end.

(** [for (i = cnt; i > 1; i--)] *)
Fixpoint sort_heap (i : nat) (array : list Z) (size : Z) : res (list Z) :=
  match i with
  | S ((S _) as i') =>
      array ← do_swap array 1 (Z.of_nat i) size;
      array ← heapify (S i') array 1 (Z.of_nat i') size;
      sort_heap i' array size
  | _ => mret array
  end.

Definition sort (array : list Z) (cnt size : Z) : res (list Z) :=
  ASSERT (0 <? size);;
  array ← build_heap (Z.to_nat (cnt / 2)) array cnt size;
  sort_heap (Z.to_nat cnt) array size.

(** [compare_thunk] only calls the function its AUX points to. *)
Definition qsort (array : list Z) (cnt size : Z) : res (list Z) := sort array cnt size.

(** ** Searching.  The result is the offset of the match, [None] for NULL. *)
Fixpoint binary_search_loop (fuel : nat) (key array : list Z) (first last size : Z)
    : res (option Z) :=
  match fuel with
  | O => Err EFuel
  | S fuel' =>
      if first <? last then
        let range := (last - first) / size in
        let middle := first + (range / 2) * size in
        e ← elem_at array middle size;
        let cmp := compare key e in
        if cmp <? 0 then binary_search_loop fuel' key array first middle size
        else if 0 <? cmp then binary_search_loop fuel' key array (middle + size) last size
        else mret (Some middle)
      else mret None
  end.

Definition binary_search (key array : list Z) (cnt size : Z) : res (option Z) :=
  binary_search_loop (S (Z.to_nat cnt)) key array 0 (u32 (size * cnt)) size.

Definition bsearch (key array : list Z) (cnt size : Z) : res (option Z) :=
  binary_search key array cnt size.

(** ** The same algorithm on the list of elements *)

Definition at1 (a : list (list Z)) (i : nat) : list Z := nth (i - 1) a [].

Definition swap1 (a : list (list Z)) (i j : nat) : list (list Z) :=
  <[(i - 1)%nat := at1 a j]> (<[(j - 1)%nat := at1 a i]> a).

Definition max_child (a : list (list Z)) (i cnt : nat) : nat :=
  let m := if (2 * i <=? cnt)%nat && (0 <? compare (at1 a (2 * i)) (at1 a i))
           then (2 * i)%nat else i in
  if (2 * i + 1 <=? cnt)%nat && (0 <? compare (at1 a (2 * i + 1)) (at1 a m))
  then (2 * i + 1)%nat else m.

Fixpoint heapify1 (fuel : nat) (a : list (list Z)) (i cnt : nat) : list (list Z) :=
  match fuel with
  | O => a
  | S fuel' =>
      let m := max_child a i cnt in
      if decide (m = i) then a else heapify1 fuel' (swap1 a i m) m cnt
  end.

End Sorting.

(** ** Supporting lemmas: elements and bytes *)

Section Flat.
Context (n : nat).

Lemma flat_insert (els : list (list Z)) k e j v :
  Forall (fun e => length e = n) els -> els !! k = Some e -> (j < n)%nat ->
  <[(k * n + j)%nat := v]> (mjoin els) = mjoin (<[k := <[j := v]> e]> els).
Proof.
  intros HF Hk Hj.
  rewrite <- (take_drop_middle els k e Hk) at 1.
  rewrite (insert_take_drop els k) by (by eapply lookup_lt_Some). rewrite !join_app. simpl.
  pose proof (lookup_lt_Some _ _ _ Hk) as Hlt.
  assert (Hlen : length (mjoin (take k els)) = (k * n)%nat).
  { rewrite (flat_length n) by (by apply Forall_take). rewrite length_take. f_equal. lia. }
  assert (He : length e = n) by (rewrite Forall_lookup in HF; by eapply HF).
  rewrite insert_app_r_alt by lia. f_equal.
  rewrite Hlen. replace (k * n + j - k * n)%nat with j by lia.
  by rewrite insert_app_l by lia.
Qed.

Lemma swap_step (xs ys : list Z) i y :
  length xs = n -> length ys = n -> ys !! i = Some y ->
  <[i := y]> (take i ys ++ drop i xs) = take (S i) ys ++ drop (S i) xs.
Proof.
  intros Hx Hy Hi. pose proof (lookup_lt_Some _ _ _ Hi).
  rewrite insert_app_r_alt by (rewrite length_take; lia). rewrite length_take, Nat.min_l by lia.
  rewrite Nat.sub_diag. destruct (lookup_lt_is_Some_2 xs i) as [x Ex]; [lia|].
  rewrite (drop_S xs x i Ex). simpl. rewrite (take_S_r ys i y Hi). by rewrite <- app_assoc.
Qed.

(** The rows [a] and [b] after [i] bytes have been exchanged. *)
Definition partial (els : list (list Z)) (a b : nat) (ea eb : list Z) (i : nat)
    : list (list Z) :=
  <[a := take i eb ++ drop i ea]> (<[b := take i ea ++ drop i eb]> els).

Lemma partial_rows els a b ea eb i :
  a <> b -> els !! a = Some ea -> els !! b = Some eb ->
  partial els a b ea eb i !! a = Some (take i eb ++ drop i ea) /\
  partial els a b ea eb i !! b = Some (take i ea ++ drop i eb).
Proof.
  intros Hab Ha Hb. apply lookup_lt_Some in Ha, Hb. unfold partial.
  rewrite list_lookup_insert_eq by (by rewrite length_insert).
  rewrite list_lookup_insert_ne, list_lookup_insert_eq by done. done.
Qed.

Lemma partial_Forall els a b ea eb i :
  Forall (fun e => length e = n) els -> length ea = n -> length eb = n -> (i <= n)%nat ->
  Forall (fun e => length e = n) (partial els a b ea eb i).
Proof.
  intros HF Ha Hb Hi. unfold partial. apply Forall_insert; [apply Forall_insert; [done|]|];
    rewrite length_app, length_take, length_drop; lia.
Qed.

Lemma get_byte_flat els k e j x :
  Forall (fun e => length e = n) els -> els !! k = Some e -> e !! j = Some x ->
  get_byte (mjoin els) (Z.of_nat (k * n) + Z.of_nat j) = Ok x.
Proof.
  intros HF Hk Hj. unfold get_byte. rewrite (proj2 (Z.leb_le _ _)) by lia.
  replace (Z.to_nat (Z.of_nat (k * n) + Z.of_nat j)) with (k * n + j)%nat by lia.
  assert (j < n)%nat.
  { apply lookup_lt_Some in Hj. rewrite Forall_lookup in HF. by rewrite (HF _ _ Hk) in Hj. }
  rewrite (flat_lookup n els k e j) by done. by rewrite Hj.
Qed.

Lemma set_byte_flat els k e j v :
  Forall (fun e => length e = n) els -> els !! k = Some e -> (j < n)%nat ->
  set_byte (mjoin els) (Z.of_nat (k * n) + Z.of_nat j) v = Ok (mjoin (<[k := <[j := v]> e]> els)).
Proof.
  intros HF Hk Hj. unfold set_byte.
  destruct (lookup_lt_is_Some_2 e j) as [x Ex].
  { rewrite Forall_lookup in HF. by rewrite (HF _ _ Hk). }
  rewrite (get_byte_flat els k e j x) by done. simpl. unfold mret, res_ret. f_equal.
  replace (Z.to_nat (Z.of_nat (k * n) + Z.of_nat j)) with (k * n + j)%nat by lia.
  by apply flat_insert.
Qed.

Lemma do_swap_loop_flat k : forall els a b ea eb i,
  Forall (fun e => length e = n) els -> a <> b -> els !! a = Some ea -> els !! b = Some eb ->
  (i + k = n)%nat ->
  do_swap_loop k (Z.of_nat i) (mjoin (partial els a b ea eb i)) (Z.of_nat (a * n)) (Z.of_nat (b * n))
    = Ok (mjoin (partial els a b ea eb n)).
Proof.
  induction k as [|k IH]; intros els a b ea eb i HF Hab Ha Hb Hi.
  { simpl. by replace i with n by lia. }
  pose proof HF as HF0. rewrite Forall_lookup in HF0.
  pose proof (HF0 _ _ Ha) as Hla. pose proof (HF0 _ _ Hb) as Hlb.
  destruct (lookup_lt_is_Some_2 ea i) as [x Ex]; [lia|].
  destruct (lookup_lt_is_Some_2 eb i) as [y Ey]; [lia|].
  pose proof (partial_Forall els a b ea eb i HF Hla Hlb ltac:(lia)) as HFi.
  destruct (partial_rows els a b ea eb i Hab Ha Hb) as [Ra Rb].
  assert (Ea' : (take i eb ++ drop i ea) !! i = Some x).
  { rewrite lookup_app_r by (rewrite length_take; lia). rewrite length_take, Nat.min_l by lia.
    by rewrite Nat.sub_diag, lookup_drop, Nat.add_0_r. }
  assert (Eb' : (take i ea ++ drop i eb) !! i = Some y).
  { rewrite lookup_app_r by (rewrite length_take; lia). rewrite length_take, Nat.min_l by lia.
    by rewrite Nat.sub_diag, lookup_drop, Nat.add_0_r. }
  simpl do_swap_loop.
  rewrite (get_byte_flat _ a _ i x HFi Ra Ea'). cbn [mbind res_bind].
  rewrite (get_byte_flat _ b _ i y HFi Rb Eb'). cbn [mbind res_bind].
  rewrite (set_byte_flat _ a _ i y HFi Ra) by lia. cbn [mbind res_bind].
  rewrite (swap_step ea eb i y Hla Hlb Ey).
  rewrite (set_byte_flat _ b (take i ea ++ drop i eb)); [| |by rewrite list_lookup_insert_ne|lia].
  2: { apply Forall_insert; [done|]. rewrite length_app, length_take, length_drop; lia. }
  rewrite (swap_step eb ea i x Hlb Hla Ex). cbn [mbind res_bind].
  replace (Z.of_nat i + 1) with (Z.of_nat (S i)) by lia.
  rewrite <- (IH els a b ea eb (S i)) by (done || lia). do 2 f_equal.
  unfold partial. rewrite (list_insert_insert_ne _ b a) by done.
  by rewrite (list_insert_insert_ne _ b a), !list_insert_insert_eq by done.
Qed.

End Flat.

(** What a comparison function has to be: strcmp-type results of a total
    preorder. *)
Class CmpOrder (compare : list Z -> list Z -> Z) : Prop := {
  cmp_antisym : forall x y, 0 < compare x y <-> compare y x < 0;
  cmp_trans : forall x y z, compare x y <= 0 -> compare y z <= 0 -> compare x z <= 0
}.

Section HeapSort.
Context (compare : list Z -> list Z -> Z).

Definition cle (x y : list Z) : Prop := compare x y <= 0.

(** A 1-based heap over the first [cnt] elements, from parent [lo] on. *)
Definition child (c p : nat) : Prop := (c = 2 * p \/ c = 2 * p + 1)%nat.
Definition heap_from (lo : nat) (a : list (list Z)) (cnt : nat) : Prop :=
  forall p c, (lo <= p)%nat -> child c p -> (c <= cnt)%nat -> cle (at1 a c) (at1 a p).

(** The same, except that element [i] may be smaller than its children. *)
Definition heap_except (lo i : nat) (a : list (list Z)) (cnt : nat) : Prop :=
  (forall p c, (lo <= p)%nat -> p <> i -> child c p -> (c <= cnt)%nat ->
     cle (at1 a c) (at1 a p)) /\
  (forall g c, (lo <= g)%nat -> child i g -> child c i -> (c <= cnt)%nat ->
     cle (at1 a c) (at1 a g)).

Lemma length_swap1 a i j : length (swap1 a i j) = length a.
Proof. unfold swap1. by rewrite !length_insert. Qed.

Lemma at1_swap1 a i j k :
  (1 <= i <= length a)%nat -> (1 <= j <= length a)%nat -> (1 <= k)%nat ->
  at1 (swap1 a i j) k = if decide (k = i) then at1 a j else if decide (k = j) then at1 a i else at1 a k.
Proof.
  intros Hi Hj Hk. unfold at1 at 1, swap1. rewrite nth_lookup.
  destruct (decide (k = i)) as [->|Hki].
  - rewrite list_lookup_insert_eq by (rewrite length_insert; lia). done.
  - rewrite list_lookup_insert_ne by lia. destruct (decide (k = j)) as [->|Hkj].
    + rewrite list_lookup_insert_eq by lia. done.
    + rewrite list_lookup_insert_ne by lia. by rewrite <- nth_lookup.
Qed.

Lemma lookup_at1 a i : (1 <= i <= length a)%nat -> a !! (i - 1)%nat = Some (at1 a i).
Proof.
  intros Hi. unfold at1. destruct (lookup_lt_is_Some_2 a (i - 1)) as [x E]; [lia|].
  by rewrite (nth_lookup_Some _ _ _ _ E).
Qed.

Lemma swap1_perm a i j :
  (1 <= i <= length a)%nat -> (1 <= j <= length a)%nat -> swap1 a i j ≡ₚ a.
Proof.
  intros Hi Hj. unfold swap1. apply Permutation_insert_swap; by apply lookup_at1.
Qed.

Context `{CO : !CmpOrder compare}.

Lemma cle_refl x : cle x x.
Proof. unfold cle. pose proof (cmp_antisym x x). lia. Qed.

Lemma cle_of_gt x y : 0 < compare x y -> cle y x.
Proof. rewrite cmp_antisym. unfold cle. lia. Qed.

(** The child picked by [heapify] is at least as large as the parent and both
    children. *)
Lemma max_child_spec a i cnt :
  (1 <= i)%nat ->
  let m := max_child compare a i cnt in
  (m = i \/ child m i /\ (m <= cnt)%nat) /\ cle (at1 a i) (at1 a m) /\
  forall c, child c i -> (c <= cnt)%nat -> cle (at1 a c) (at1 a m).
Proof.
  intros Hi. unfold max_child. cbv zeta.
  set (m := if (_ && _) then (2 * i)%nat else i).
  assert (Hm : (m = i \/ child m i /\ (m <= cnt)%nat) /\ cle (at1 a i) (at1 a m) /\
    ((2 * i <= cnt)%nat -> cle (at1 a (2 * i)) (at1 a m))).
  { unfold m. destruct (Nat.leb_spec (2 * i) cnt); cbn [andb]; [|split_and!; auto using cle_refl; lia].
    destruct (Z.ltb_spec 0 (compare (at1 a (2 * i)) (at1 a i))).
    - split_and!; [right; unfold child; lia|by apply cle_of_gt|intros; apply cle_refl].
    - split_and!; [by left|apply cle_refl|done]. }
  clearbody m. destruct Hm as (Hm1 & Hm2 & Hm3).
  destruct (Nat.leb_spec (2 * i + 1) cnt); cbn [andb].
  - destruct (Z.ltb_spec 0 (compare (at1 a (2 * i + 1)) (at1 a m))) as [Hlt|Hge].
    + apply cle_of_gt in Hlt. split_and!; [right; unfold child; lia|by eapply cmp_trans|].
      intros c [-> | ->] Hc; [|apply cle_refl]. eapply cmp_trans; [by apply Hm3|done].
    + split_and!; [done..|]. intros c [-> | ->] Hc; [by apply Hm3|done].
  - split_and!; [done..|]. intros c [-> | ->] Hc; [by apply Hm3|lia].
Qed.

Lemma heapify1_spec fuel : forall a lo i cnt,
  (1 <= lo <= i)%nat -> (i <= cnt)%nat -> (cnt <= length a)%nat -> (cnt - i < fuel)%nat ->
  heap_except lo i a cnt ->
  let a' := heapify1 compare fuel a i cnt in
  heap_from lo a' cnt /\ a' ≡ₚ a /\
  (forall k, (1 <= k <= cnt)%nat -> exists k', (1 <= k' <= cnt)%nat /\ at1 a' k = at1 a k') /\
  (forall k, (cnt < k)%nat -> at1 a' k = at1 a k).
Proof.
  induction fuel as [|fuel IH]; intros a lo i cnt Hlo Hi Hcnt Hf [H1 H2]; [lia|].
  simpl. destruct (max_child_spec a i cnt) as (Hm & Hmi & Hmc); [lia|].
  set (m := max_child compare a i cnt) in *.
  destruct (decide (m = i)) as [->|Hne].
  - split_and!; [|done|eauto|done]. intros p c Hp Hc Hle.
    destruct (decide (p = i)) as [->|]; [by apply Hmc|by apply H1].
  - destruct Hm as [?|[Hmch Hmle]]; [done|].
    assert (Hmi' : (i < m)%nat) by (unfold child in Hmch; lia).
    assert (Hat : forall k, (1 <= k)%nat -> at1 (swap1 a i m) k =
      if decide (k = i) then at1 a m else if decide (k = m) then at1 a i else at1 a k)
      by (intros; apply at1_swap1; lia).
    destruct (IH (swap1 a i m) lo m cnt) as (R1 & R2 & R3 & R4);
      [lia|lia|by rewrite length_swap1|lia| |].
    { split.
      - intros p c Hp Hpm Hc Hle.
        assert (c <> p /\ (p < c)%nat) as [? ?] by (unfold child in Hc; lia).
        rewrite !Hat by lia. destruct (decide (p = i)) as [->|Hpi].
        + rewrite (decide_False (P := c = i)) by lia.
          destruct (decide (c = m)); [done|by apply Hmc].
        + rewrite (decide_False (P := p = m)) by done.
          destruct (decide (c = i)) as [->|]; [by apply (H2 p m)|].
          destruct (decide (c = m)) as [->|]; [unfold child in *; lia|by apply H1].
      - intros g c Hg Hmg Hcm Hle. assert (g = i) as -> by (unfold child in *; lia).
        assert ((m < c)%nat) by (unfold child in Hcm; lia).
        rewrite !Hat, !decide_False, decide_True by lia. apply H1; [lia|lia|done|done]. }
    split_and!; [done| | |].
    + rewrite R2. apply swap1_perm; lia.
    + intros k Hk. destruct (R3 k Hk) as (k' & Hk' & ->). rewrite Hat by lia.
      repeat case_decide; eauto; exists m + exists i; split; (done || lia).
    + intros k Hk. rewrite R4 by done. rewrite Hat, !decide_False by lia. done.
Qed.

(** The root of a heap is its maximum. *)
Lemma heap_root a cnt k : heap_from 1 a cnt -> (1 <= k <= cnt)%nat -> cle (at1 a k) (at1 a 1).
Proof.
  intros Hh. induction k as [k IH] using lt_wf_ind. intros Hk.
  destruct (decide (k = 1%nat)) as [->|]; [apply cle_refl|].
  pose proof (Nat.div_mod_eq k 2). pose proof (Nat.mod_upper_bound k 2).
  set (p := (k / 2)%nat) in *. set (r := (k mod 2)%nat) in *.
  eapply cmp_trans; [|apply (IH p); lia]. apply (Hh p k); unfold child; lia.
Qed.

Fixpoint build_heap1 (i : nat) (a : list (list Z)) (cnt : nat) : list (list Z) :=
  match i with
  | O => a
  | S i' => build_heap1 i' (heapify1 compare (S cnt) a i cnt) cnt
  end.

Fixpoint sort_heap1 (i : nat) (a : list (list Z)) : list (list Z) :=
  match i with
  | S ((S _) as i') => sort_heap1 i' (heapify1 compare (S i') (swap1 a 1 i) 1 i')
  | _ => a
  end.

Lemma build_heap1_spec i : forall a cnt,
  (i <= cnt)%nat -> (cnt <= length a)%nat -> heap_from (S i) a cnt ->
  heap_from 1 (build_heap1 i a cnt) cnt /\ build_heap1 i a cnt ≡ₚ a.
Proof.
  induction i as [|i IH]; intros a cnt Hi Hc Hh; [done|]. simpl build_heap1.
  destruct (heapify1_spec (S cnt) a (S i) (S i) cnt) as (R1 & R2 & _); [lia..| |].
  { split; [intros p c Hp Hpi; apply Hh; lia|]. unfold child. intros; lia. }
  destruct (IH (heapify1 compare (S cnt) a (S i) cnt) cnt) as (S1 & S2); [lia|by rewrite R2|done|].
  split; [done|]. by rewrite S2.
Qed.

Lemma sort_heap1_spec i : forall a cnt,
  (i <= cnt)%nat -> cnt = length a -> heap_from 1 a i ->
  (forall k, (i < k < cnt)%nat -> cle (at1 a k) (at1 a (S k))) ->
  (forall j k, (1 <= j <= i)%nat -> (i < k <= cnt)%nat -> cle (at1 a j) (at1 a k)) ->
  let a' := sort_heap1 i a in
  a' ≡ₚ a /\ forall k, (1 <= k < cnt)%nat -> cle (at1 a' k) (at1 a' (S k)).
Proof.
  induction i as [|i IH]; intros a cnt Hi Hc Hh Hs Hb.
  { split; [done|]. intros k Hk. apply Hs; lia. }
  destruct i as [|i'].
  { split; [done|]. intros k Hk. simpl. destruct (decide (k = 1%nat)) as [->|]; [apply Hb; lia|apply Hs; lia]. }
  set (i := S i') in *. set (b := swap1 a 1 (S i)).
  assert (Hat : forall k, (1 <= k)%nat -> at1 b k =
    if decide (k = 1%nat) then at1 a (S i) else if decide (k = S i) then at1 a 1 else at1 a k)
    by (intros; apply at1_swap1; lia).
  destruct (heapify1_spec (S i) b 1 1 i) as (R1 & R2 & R3 & R4); [lia|lia| |lia| |].
  { unfold b. rewrite length_swap1. lia. }
  { split.
    - intros p c Hp Hp1 Hch Hle. assert ((p < c)%nat) by (unfold child in Hch; lia).
      rewrite !Hat, !decide_False by lia. apply Hh; [lia|done|lia].
    - unfold child. intros; lia. }
  set (a' := heapify1 compare (S i) b 1 i) in *.
  assert (Hpre : forall k, (1 <= k <= i)%nat -> exists k', (1 <= k' <= S i)%nat /\ at1 a' k = at1 a k').
  { intros k Hk. destruct (R3 k Hk) as (k' & Hk' & ->). rewrite Hat by lia.
    destruct (decide (k' = 1%nat)); [exists (S i); split; [lia|done]|].
    rewrite decide_False by lia. exists k'. split; [lia|done]. }
  assert (Hsuf : forall k, (i < k)%nat -> at1 a' k = if decide (k = S i) then at1 a 1 else at1 a k).
  { intros k Hk. rewrite R4, Hat by lia. rewrite (decide_False (P := k = 1%nat)) by lia. done. }
  assert (Ha' : a' ≡ₚ a) by (rewrite R2; apply swap1_perm; lia).
  destruct (IH a' cnt) as (S1 & S2); [lia|by rewrite Ha'|done| | |].
  - intros k Hk. rewrite !Hsuf by lia. rewrite (decide_False (P := S k = S i)) by lia.
    destruct (decide (k = S i)) as [->|]; [apply Hb; lia|apply Hs; lia].
  - intros j k Hj Hk. destruct (Hpre j Hj) as (j' & Hj' & ->). rewrite Hsuf by lia.
    destruct (decide (k = S i)); [apply (heap_root a (S i)); [done|lia]|apply Hb; lia].
  - change (sort_heap1 (S i) a) with (sort_heap1 i a'). split; [by rewrite S1|done].
Qed.

(** ** The code on bytes refines the algorithm on elements *)

Lemma Sorted_at1 a :
  (forall k, (1 <= k < length a)%nat -> cle (at1 a k) (at1 a (S k))) -> Sorted cle a.
Proof using Type.
  induction a as [|x a IH]; intros H; [constructor|]. constructor.
  - apply IH. intros k Hk. specialize (H (S k)). unfold at1 in *.
    replace (S k - 1)%nat with (S (k - 1)) in H by lia.
    replace (S (S k) - 1)%nat with (S k) in H by lia.
    replace (S k - 1)%nat with k by lia. simpl in H. apply H. lia.
  - destruct a as [|y a]; constructor. apply (H 1%nat). simpl. lia.
Qed.

Section Refine.
Context (n : nat) (Hn : (0 < n)%nat).

Definition rows (els : list (list Z)) : Prop :=
  Forall (fun e => length e = n) els /\ Z.of_nat (length els) * Z.of_nat n < 2 ^ 31.

Lemma rows_perm els els' : els' ≡ₚ els -> rows els -> rows els'.
Proof using Type. intros Hp [HF Hl]. split; by rewrite Hp. Qed.

Lemma row_offset els i :
  rows els -> (1 <= i <= length els)%nat ->
  u32 (u32 (Z.of_nat i - 1) * Z.of_nat n) = Z.of_nat ((i - 1) * n) /\
  (((i - 1) * n + n <= length els * n)%nat).
Proof using Hn.
  intros [HF Hl] Hi. assert (Hle : ((i - 1) * n + n <= length els * n)%nat).
  { replace ((i - 1) * n + n)%nat with (i * n)%nat by (destruct i; lia).
    apply Nat.mul_le_mono_r. lia. }
  split; [|done].
  assert (Hm : Z.of_nat (length els * n) < 2 ^ 31) by lia.
  pose proof (Nat.le_mul_r (i - 1) n ltac:(lia)) as Hi'.
  rewrite (u32_small (Z.of_nat i - 1)) by (unfold is_u32; lia).
  replace ((Z.of_nat i - 1) * Z.of_nat n) with (Z.of_nat ((i - 1) * n)) by (rewrite Nat2Z.inj_mul, Nat2Z.inj_sub by lia; done).
  apply u32_small. unfold is_u32. lia.
Qed.

Lemma elem_at_flat els i :
  rows els -> (1 <= i <= length els)%nat ->
  elem_at (mjoin els) (u32 (u32 (Z.of_nat i - 1) * Z.of_nat n)) (Z.of_nat n) = Ok (at1 els i).
Proof using Hn.
  intros Hr Hi. destruct (row_offset els i Hr Hi) as [-> Hle]. destruct Hr as [HF Hl].
  unfold elem_at. rewrite (flat_length n) by done.
  assert (Hz : Z.of_nat ((i - 1) * n) + Z.of_nat n <= Z.of_nat (length els * n))
    by (rewrite <- Nat2Z.inj_add; by apply Nat2Z.inj_le).
  rewrite (proj2 (Z.leb_le _ _) Hz), (proj2 (Z.leb_le _ _) (Nat2Z.is_nonneg _)).
  simpl. f_equal. rewrite !Nat2Z.id.
  apply flat_slice; [done|]. by apply lookup_at1.
Qed.

Lemma elem_at_row els k e :
  rows els -> els !! k = Some e -> elem_at (mjoin els) (Z.of_nat (k * n)) (Z.of_nat n) = Ok e.
Proof using Hn.
  intros Hr Hk. pose proof (lookup_lt_Some _ _ _ Hk).
  pose proof (elem_at_flat els (S k) Hr ltac:(lia)) as E.
  rewrite (proj1 (row_offset els (S k) Hr ltac:(lia))) in E.
  replace (S k - 1)%nat with k in E by lia. rewrite E. f_equal. unfold at1.
  replace (S k - 1)%nat with k by lia. by apply nth_lookup_Some.
Qed.

Lemma do_compare_flat els i j :
  rows els -> (1 <= i <= length els)%nat -> (1 <= j <= length els)%nat ->
  do_compare compare (mjoin els) (Z.of_nat i) (Z.of_nat j) (Z.of_nat n)
    = Ok (compare (at1 els i) (at1 els j)).
Proof using Hn.
  intros Hr Hi Hj. unfold do_compare. rewrite elem_at_flat by done. cbn [mbind res_bind].
  rewrite elem_at_flat by done. done.
Qed.

Lemma do_swap_flat els i j :
  rows els -> (1 <= i <= length els)%nat -> (1 <= j <= length els)%nat -> i <> j ->
  do_swap (mjoin els) (Z.of_nat i) (Z.of_nat j) (Z.of_nat n) = Ok (mjoin (swap1 els i j)).
Proof using Hn.
  intros Hr Hi Hj Hij. unfold do_swap.
  rewrite (proj1 (row_offset els i Hr Hi)), (proj1 (row_offset els j Hr Hj)), Nat2Z.id.
  destruct Hr as [HF _]. pose proof (lookup_at1 els i Hi) as Ei. pose proof (lookup_at1 els j Hj) as Ej.
  pose proof (do_swap_loop_flat n n els (i - 1) (j - 1) _ _ 0 HF ltac:(lia) Ei Ej eq_refl) as E.
  assert (Hp0 : partial els (i - 1) (j - 1) (at1 els i) (at1 els j) 0 = els).
  { unfold partial. simpl. rewrite !drop_0. rewrite (list_insert_id els (j - 1)) by done.
    by apply list_insert_id. }
  rewrite Hp0 in E. change (Z.of_nat 0) with 0 in E. rewrite E. do 2 f_equal.
  pose proof HF as HF0. rewrite Forall_lookup in HF0.
  unfold partial, swap1. rewrite !take_ge, !drop_ge, !app_nil_r; [done|..];
    first [rewrite (HF0 _ _ Ei) | rewrite (HF0 _ _ Ej)]; done.
Qed.

Lemma max_child_bounds els i cnt :
  (1 <= i <= cnt)%nat ->
  (1 <= max_child compare els i cnt <= cnt)%nat /\
  (max_child compare els i cnt = i \/ (i < max_child compare els i cnt)%nat).
Proof using Type.
  clear Hn. intros Hi. unfold max_child. cbv zeta.
  destruct (Nat.leb_spec (2 * i) cnt), (Nat.leb_spec (2 * i + 1) cnt); cbn [andb];
    repeat match goal with |- context [if ?b then _ else _] => destruct b end; lia.
Qed.

Lemma heapify_flat fuel : forall els i cnt,
  rows els -> (1 <= i <= cnt)%nat -> (cnt <= length els)%nat -> (cnt - i < fuel)%nat ->
  heapify compare fuel (mjoin els) (Z.of_nat i) (Z.of_nat cnt) (Z.of_nat n)
    = Ok (mjoin (heapify1 compare fuel els i cnt)).
Proof using Hn.
  induction fuel as [|fuel IH]; intros els i cnt Hr Hi Hc Hf; [lia|].
  assert (Hcn : Z.of_nat cnt < 2 ^ 31) by (destruct Hr as [_ ?]; nia).
  destruct (max_child_bounds els i cnt Hi) as [Hb Hb'].
  simpl heapify1. simpl heapify.
  rewrite (u32_small (2 * Z.of_nat i)) by (unfold is_u32; lia).
  rewrite (u32_small (2 * Z.of_nat i + 1)) by (unfold is_u32; lia).
  replace (2 * Z.of_nat i) with (Z.of_nat (2 * i)) by lia.
  replace (Z.of_nat (2 * i) + 1) with (Z.of_nat (2 * i + 1)) by lia.
  set (m := max_child compare els i cnt) in *. unfold max_child in m.
  set (m1 := if _ && _ then (2 * i)%nat else i) in m.
  assert (Hm1 : (1 <= m1 <= cnt)%nat).
  { unfold m1. destruct (Nat.leb_spec (2 * i) cnt); cbn [andb]; [destruct (_ <? _)|]; lia. }
  set (M1 := if Z.of_nat (2 * i) <=? Z.of_nat cnt then _ else _).
  assert (E1 : M1 = Ok (Z.of_nat m1)).
  { unfold M1, m1. destruct (Z.leb_spec (Z.of_nat (2 * i)) (Z.of_nat cnt)),
      (Nat.leb_spec (2 * i) cnt); try lia; cbn [andb]; [|done].
    rewrite do_compare_flat by (done || lia). cbn [mbind res_bind]. by destruct (0 <? compare _ _). }
  rewrite E1. cbn [mbind res_bind].
  set (M2 := if Z.of_nat (2 * i + 1) <=? Z.of_nat cnt then _ else _).
  assert (E2 : M2 = Ok (Z.of_nat m)).
  { unfold M2, m. destruct (Z.leb_spec (Z.of_nat (2 * i + 1)) (Z.of_nat cnt)),
      (Nat.leb_spec (2 * i + 1) cnt); try lia; cbn [andb]; [|done].
    rewrite do_compare_flat by (done || lia). cbn [mbind res_bind]. clearbody m1. by destruct (0 <? compare _ _). }
  rewrite E2. cbn [mbind res_bind]. clear M1 M2 E1 E2.
  destruct (Z.eqb_spec (Z.of_nat m) (Z.of_nat i)), (decide (m = i)); try lia; [done|].
  rewrite do_swap_flat by (done || lia). cbn [mbind res_bind].
  rewrite IH; [done| |lia|rewrite length_swap1; lia|lia].
  eapply rows_perm; [|done]. apply swap1_perm; lia.
Qed.

Lemma heapify1_perm fuel : forall els i cnt,
  (1 <= i <= cnt)%nat -> (cnt <= length els)%nat -> heapify1 compare fuel els i cnt ≡ₚ els.
Proof using Type.
  clear Hn. induction fuel as [|fuel IH]; intros els i cnt Hi Hc; [done|]. simpl.
  destruct (max_child_bounds els i cnt Hi) as [Hb Hb'].
  destruct (decide _) as [|Hne]; [done|].
  rewrite IH by (rewrite ?length_swap1; lia). apply swap1_perm; lia.
Qed.

Lemma build_heap_flat i : forall els cnt,
  rows els -> (i <= cnt)%nat -> (cnt <= length els)%nat ->
  build_heap compare i (mjoin els) (Z.of_nat cnt) (Z.of_nat n) = Ok (mjoin (build_heap1 i els cnt)).
Proof using Hn.
  induction i as [|i IH]; intros els cnt Hr Hi Hc; [done|].
  cbn [build_heap build_heap1]. rewrite Nat2Z.id, heapify_flat by (done || lia).
  cbn [mbind res_bind]. pose proof (heapify1_perm (S cnt) els (S i) cnt ltac:(lia) Hc) as Hp.
  apply IH; [by eapply rows_perm|lia|by rewrite Hp].
Qed.

Lemma sort_heap_flat i : forall els,
  rows els -> (i <= length els)%nat ->
  sort_heap compare i (mjoin els) (Z.of_nat n) = Ok (mjoin (sort_heap1 i els)).
Proof using Hn.
  induction i as [|i IH]; intros els Hr Hi; [done|]. destruct i as [|i']; [done|].
  set (i := S i') in *.
  change (sort_heap1 (S i) els) with (sort_heap1 i (heapify1 compare (S i) (swap1 els 1 (S i)) 1 i)).
  change (sort_heap compare (S i) (mjoin els) (Z.of_nat n)) with
    (array ← do_swap (mjoin els) (Z.of_nat 1) (Z.of_nat (S i)) (Z.of_nat n);
     array ← heapify compare (S i) array (Z.of_nat 1) (Z.of_nat i) (Z.of_nat n);
     sort_heap compare i array (Z.of_nat n)).
  rewrite do_swap_flat by (done || lia). cbn [mbind res_bind].
  assert (Hp : swap1 els 1 (S i) ≡ₚ els) by (apply swap1_perm; lia).
  rewrite heapify_flat; [|by eapply rows_perm|lia|rewrite Hp; lia|lia]. cbn [mbind res_bind].
  assert (Hq : heapify1 compare (S i) (swap1 els 1 (S i)) 1 i ≡ₚ els).
  { rewrite heapify1_perm; [done|lia|rewrite Hp; lia]. }
  apply IH; [by eapply rows_perm|rewrite Hq; lia].
Qed.

Lemma sort_flat els :
  rows els ->
  exists els', sort compare (mjoin els) (Z.of_nat (length els)) (Z.of_nat n) = Ok (mjoin els') /\
    els' ≡ₚ els /\ Sorted cle els'.
Proof using Hn CO.
  intros Hr. unfold sort. rewrite (proj2 (Z.ltb_lt 0 _)) by lia. cbn [ASSERT mbind res_bind].
  change 2 with (Z.of_nat 2). rewrite <- Nat2Z.inj_div, !Nat2Z.id.
  set (h := (length els / 2)%nat).
  assert (Hh : (h <= length els)%nat /\ (length els < 2 * S h)%nat).
  { unfold h. pose proof (Nat.div_mod_eq (length els) 2).
    pose proof (Nat.mod_upper_bound (length els) 2). lia. }
  destruct (build_heap1_spec h els (length els)) as (B1 & B2); [lia|done| |].
  { unfold heap_from, child. intros; lia. }
  rewrite build_heap_flat by (done || lia). cbn [mbind res_bind].
  set (b := build_heap1 h els (length els)) in *.
  rewrite sort_heap_flat; [|by eapply rows_perm|rewrite B2; lia].
  destruct (sort_heap1_spec (length els) b (length els)) as (S1 & S2);
    [lia|by rewrite B2|done|lia|lia|].
  exists (sort_heap1 (length els) b). split_and!; [done|by rewrite S1|].
  assert (Hl : length (sort_heap1 (length els) b) = length els) by (by rewrite S1, B2).
  apply Sorted_at1. intros k Hk. apply S2. lia.
Qed.
End Refine.
End HeapSort.

(** ** Binary search *)

Section Search.
Context (compare : list Z -> list Z -> Z) `{CO : !CmpOrder compare}.
Context (n : nat) (Hn : (0 < n)%nat) (key : list Z) (els : list (list Z)).
Context (Hrows : rows n els).

(** What the search promises: an offset of a matching element, or no match. *)
Definition search_result (r : option Z) : Prop :=
  match r with
  | Some o => exists k e, els !! k = Some e /\ o = Z.of_nat (k * n) /\ compare key e = 0
  | None => forall k e, els !! k = Some e -> compare key e <> 0
  end.

Definition nomatch_outside (lo hi : nat) : Prop :=
  forall k e, els !! k = Some e -> (k < lo)%nat \/ (hi <= k)%nat -> compare key e <> 0.

(** The key's position is monotone along a sorted array. *)
Lemma sorted_above i j x y :
  Sorted (cle compare) els -> (i <= j)%nat -> els !! i = Some x -> els !! j = Some y ->
  (compare key x < 0 -> compare key y < 0) /\ (0 < compare key y -> 0 < compare key x).
Proof using CO.
  clear Hn Hrows. intros HS Hij Hx Hy.
  assert (Hxy : cle compare x y).
  { destruct (decide (i = j)) as [->|]; [simplify_eq; by apply cle_refl|].
    assert (StronglySorted (cle compare) els) as HSS.
    { apply Sorted_StronglySorted; [intros a b c; apply cmp_trans|done]. }
    eapply StronglySorted_lookup; [done|..|done|done]; lia. }
  unfold cle in Hxy. pose proof (cmp_antisym key x). pose proof (cmp_antisym x key).
  pose proof (cmp_antisym key y). pose proof (cmp_antisym y key).
  split; intros H'.
  - destruct (Z.lt_ge_cases (compare key y) 0) as [|Hge]; [done|].
    pose proof (cmp_trans x y key Hxy). lia.
  - destruct (Z.lt_ge_cases 0 (compare key x)) as [|Hge]; [done|].
    pose proof (cmp_trans key x y). lia.
Qed.

Lemma binary_search_loop_spec fuel : forall lo hi,
  Sorted (cle compare) els -> (lo <= hi <= length els)%nat -> (hi - lo < fuel)%nat ->
  nomatch_outside lo hi ->
  exists r, binary_search_loop compare fuel key (mjoin els) (Z.of_nat (lo * n)) (Z.of_nat (hi * n))
              (Z.of_nat n) = Ok r /\ search_result r.
Proof using CO Hn Hrows.
  induction fuel as [|fuel IH]; intros lo hi HS Hb Hf Hno; [lia|]. cbn [binary_search_loop].
  destruct (decide (lo = hi)) as [->|Hlt].
  { rewrite Z.ltb_irrefl. exists None. split; [done|]. intros k e Hk. apply (Hno k e Hk). lia. }
  rewrite (proj2 (Z.ltb_lt _ _)) by nia.
  set (d := (hi - lo)%nat). set (mid := (lo + d / 2)%nat).
  assert (Hd : (d / 2 < d)%nat) by (apply Nat.div_lt; lia).
  assert (Hmid : (lo <= mid < hi)%nat) by lia.
  assert (Hrange : (Z.of_nat (hi * n) - Z.of_nat (lo * n)) / Z.of_nat n = Z.of_nat d).
  { replace (Z.of_nat (hi * n) - Z.of_nat (lo * n)) with (Z.of_nat d * Z.of_nat n) by nia.
    apply Z.div_mul. lia. }
  rewrite Hrange. change 2 with (Z.of_nat 2). rewrite <- Nat2Z.inj_div.
  replace (Z.of_nat (lo * n) + Z.of_nat (d / 2) * Z.of_nat n) with (Z.of_nat (mid * n)) by lia.
  destruct (lookup_lt_is_Some_2 els mid) as [e He]; [lia|].
  rewrite (elem_at_row n Hn els mid e Hrows He). cbn [mbind res_bind].
  destruct (Z.ltb_spec (compare key e) 0); [|destruct (Z.ltb_spec 0 (compare key e))].
  - apply IH; [done|lia|lia|]. intros k x Hk [?|Hge]; [apply (Hno k x Hk); lia|].
    pose proof (proj1 (sorted_above mid k e x HS Hge He Hk)). lia.
  - replace (Z.of_nat (mid * n) + Z.of_nat n) with (Z.of_nat (S mid * n)) by lia.
    apply IH; [done|lia|lia|]. intros k x Hk [?|Hge]; [|apply (Hno k x Hk); lia].
    pose proof (proj2 (sorted_above k mid x e HS ltac:(lia) Hk He)). lia.
  - exists (Some (Z.of_nat (mid * n))). split; [done|]. exists mid, e. split_and!; [done..|lia].
Qed.
End Search.

(** ** atoi *)

(** The value of a string of digits. *)
Definition dec_value (ds : list Z) : Z := fold_left (fun v c => v * 10 + (c - 48)) ds 0.

Lemma dec_value_acc ds : forall v,
  fold_left (fun v c => v * 10 + (c - 48)) ds v = v * 10 ^ Z.of_nat (length ds) + dec_value ds.
Proof.
  induction ds as [|d ds IH]; intros v; [cbn; lia|]. unfold dec_value.
  cbn [fold_left length]. rewrite IH, (IH (0 * 10 + (d - 48))).
  rewrite Nat2Z.inj_succ, Z.pow_succ_r by lia. lia.
Qed.

(** Each step wraps, and the wrapped value is the right one at the end. *)
Lemma parse_digits_app ds rest : forall v,
  Forall (fun c => isdigit c = true) ds ->
  match rest with c :: _ => isdigit c = false | [] => True end ->
  parse_digits (ds ++ rest) (s32 v) = s32 (v * 10 ^ Z.of_nat (length ds) - dec_value ds).
Proof.
  induction ds as [|d ds IH]; intros v HF Hrest.
  - destruct rest as [|c rest]; cbn; rewrite ?Hrest; f_equal; lia.
  - inversion HF as [|? ? Hd HF']; subst. cbn [app parse_digits]. rewrite Hd.
    destruct (s32_ex v) as [k ->]. destruct (s32_ex ((v + k * 2 ^ 32) * 10)) as [k' ->].
    replace ((v + k * 2 ^ 32) * 10 + k' * 2 ^ 32 - (d - 48))
      with (v * 10 - (d - 48) + (k * 10 + k') * 2 ^ 32) by lia.
    rewrite s32_shift, IH by done. f_equal. unfold dec_value at 2. cbn [fold_left].
    rewrite dec_value_acc. cbn [length]. rewrite Nat2Z.inj_succ, Z.pow_succ_r by lia. lia.
Qed.

Lemma s32_neg_s32 x : s32 (- s32 (- x)) = s32 x.
Proof.
  destruct (s32_ex (- x)) as [k ->].
  replace (- (- x + k * 2 ^ 32)) with (x + (- k) * 2 ^ 32) by lia. apply s32_shift.
Qed.

Lemma skip_space_app sp s :
  Forall (fun c => isspace c = true) sp ->
  match s with c :: _ => isspace c = false | [] => True end -> skip_space (sp ++ s) = s.
Proof.
  intros HF Hs. induction HF as [|c sp Hc HF IH]; simpl.
  - destruct s; simpl; by rewrite ?Hs.
  - by rewrite Hc.
Qed.

Lemma isdigit_range c : isdigit c = true -> 48 <= c <= 57.
Proof. unfold isdigit. intros. zbool. lia. Qed.

Lemma isdigit_nospace c : isdigit c = true -> isspace c = false /\ (c =? 43) = false /\ (c =? 45) = false.
Proof.
  intros H%isdigit_range. unfold isspace.
  repeat match goal with |- context [c =? ?x] => rewrite (proj2 (Z.eqb_neq c x)) by lia end. done.
Qed.

(** [qsort] returns: the array becomes a permutation of its elements that
    is ordered by the comparison function. *)
Theorem qsort_correct (compare : list Z -> list Z -> Z) (n : nat) (els : list (list Z)) :
  CmpOrder compare -> (0 < n)%nat -> rows n els ->
  exists els', qsort compare (mjoin els) (Z.of_nat (length els)) (Z.of_nat n) = Ok (mjoin els') /\
    els' ≡ₚ els /\ Sorted (cle compare) els'.
Proof. intros CO Hn Hr. by apply sort_flat. Qed.

(** [bsearch] over a sorted array returns the offset of an element that
    compares equal to the key if there is one, and NULL otherwise. *)
Theorem bsearch_correct (compare : list Z -> list Z -> Z) (n : nat) key (els : list (list Z)) :
  CmpOrder compare -> (0 < n)%nat -> rows n els -> Sorted (cle compare) els ->
  exists r, bsearch compare key (mjoin els) (Z.of_nat (length els)) (Z.of_nat n) = Ok r /\
    search_result compare n key els r.
Proof.
  intros CO Hn Hr HS. unfold bsearch, binary_search. rewrite Nat2Z.id.
  rewrite Z.mul_comm. rewrite u32_small by (destruct Hr; unfold is_u32; lia).
  rewrite <- Nat2Z.inj_mul. change 0 with (Z.of_nat (0 * n)).
  apply binary_search_loop_spec; [done|done|done|done|lia|lia|].
  intros k e Hk. apply lookup_lt_Some in Hk. lia.
Qed.

(** [atoi] skips white space, takes an optional sign and returns the value
    of the digits that follow, for every value an int can hold. *)
Theorem atoi_correct sp sign ds rest :
  Forall (fun c => isspace c = true) sp -> sign ∈ [[]; [43]; [45]] ->
  Forall (fun c => isdigit c = true) ds -> ds <> [] ->
  match rest with c :: _ => isdigit c = false | [] => True end ->
  let v := if decide (sign = [45]) then - dec_value ds else dec_value ds in
  is_s32 v -> atoi (sp ++ sign ++ ds ++ rest) = v.
Proof.
  intros Hsp Hsign Hds Hne Hrest v Hv. destruct ds as [|d ds]; [done|].
  assert (Hd : isdigit d = true) by (by inversion Hds).
  destruct (isdigit_nospace d Hd) as (Hd1 & Hd2 & Hd3).
  pose proof (parse_digits_app (d :: ds) rest 0 Hds Hrest) as Hp.
  change (s32 0) with 0 in Hp. rewrite Z.mul_0_l, Z.sub_0_l in Hp.
  unfold atoi. rewrite skip_space_app; [|done|].
  - rewrite !elem_of_cons, elem_of_nil in Hsign. destruct Hsign as [->|[->|[->|[]]]];
      cbn [app] in *; unfold v in *; cbn [decide] in Hv.
    + rewrite Hd2, Hd3, Hp. rewrite decide_False in * by done.
      by rewrite s32_neg_s32, s32_small.
    + change (43 =? 43) with true. cbv iota. rewrite Hp. rewrite decide_False in * by done.
      by rewrite s32_neg_s32, s32_small.
    + change (45 =? 43) with false. change (45 =? 45) with true. cbv iota.
      rewrite Hp. rewrite decide_True in * by done. by apply s32_small.
  - rewrite !elem_of_cons, elem_of_nil in Hsign. by destruct Hsign as [->|[->|[->|[]]]].
Qed.

(** ** Concrete instances *)

(** Comparison of one-byte elements. *)
Definition cmp_byte (x y : list Z) : Z := nth 0 x 0 - nth 0 y 0.

#[local] Instance cmp_byte_order : CmpOrder cmp_byte.
Proof. split; unfold cmp_byte; intros; lia. Qed.

Definition sample_rows : list (list Z) := [[5]; [2]; [9]; [2]; [7]].

Lemma sample_rows_ok : rows 1 sample_rows.
Proof. split; [repeat constructor|done]. Qed.

Lemma qsort_correct_witness :
  exists els', qsort cmp_byte (mjoin sample_rows) 5 1 = Ok (mjoin els') /\
    els' ≡ₚ sample_rows /\ Sorted (cle cmp_byte) els'.
Proof.
  exact (qsort_correct cmp_byte 1 sample_rows cmp_byte_order ltac:(lia) sample_rows_ok).
Defined.

Example qsort_sample : qsort cmp_byte (mjoin sample_rows) 5 1 = Ok [2; 2; 5; 7; 9].
Proof. reflexivity. Qed.

Lemma bsearch_correct_witness :
  exists r, bsearch cmp_byte [7] (mjoin [[2]; [5]; [7]; [9]]) 4 1 = Ok r /\
    search_result cmp_byte 1 [7] [[2]; [5]; [7]; [9]] r.
Proof.
  apply (bsearch_correct cmp_byte 1 [7] [[2]; [5]; [7]; [9]] cmp_byte_order); [lia| |].
  - split; [repeat constructor|done].
  - repeat constructor; unfold cle, cmp_byte; simpl; lia.
Defined.

Lemma atoi_correct_witness : atoi [32; 45; 50; 49; 52; 55; 52; 56; 51; 54; 52; 56; 0] = - 2 ^ 31.
Proof.
  apply (atoi_correct [32] [45] [50; 49; 52; 55; 52; 56; 51; 54; 52; 56] [0]);
    [repeat constructor|by rewrite !elem_of_cons; auto|repeat constructor|done|done|].
  unfold is_s32. vm_compute. split; [discriminate|reflexivity].
Defined.
