(* ===== verification/CString.v ===== *)
(** The block and string functions of lib/string.c.

    Memory is a finite map from addresses to bytes; address 0 is NULL, and an
    access to NULL or to an unmapped address is [EFault].  Bytes are in
    0..255: every comparison of the code is either on [unsigned char] or a
    test of equality between two [char]s, for which the sign of [char] does
    not matter.  Addresses do not wrap: an object of the kernel does not cross
    the end of the address space.  A loop over a string takes as fuel one more
    than the number of mapped bytes, which no scan of a string can exceed
    ([is_str_fuel]). *)

From stdpp Require Import base list numbers gmap fin_maps.
From Stdlib Require Import ZArith Lia.
From S2P Require Import Prelude.

Abbreviation mem := (gmap Z Z).

Definition load (p : Z) : stM mem Z := fun m =>
  if p =? 0 then Err EFault
  else match m !! p with Some b => Ok (b, m) | None => Err EFault end.

Definition store (p b : Z) : stM mem unit := fun m =>
  if p =? 0 then Err EFault
  else match m !! p with Some _ => Ok (tt, <[p := u8 b]> m) | None => Err EFault end.

(** ** Blocks *)

(** [while (size-- > 0) *dst++ = *src++;] *)
Fixpoint copy_up (size : nat) (dst src : Z) : stM mem Z :=
  match size with
  | O => mret dst
  | S k => b ← load src; store dst b;; copy_up k (dst + 1) (src + 1)
  end.

(** [while (size-- > 0) *--dst = *--src;] *)
Fixpoint copy_down (size : nat) (dst src : Z) : stM mem Z :=
  match size with
  | O => mret dst
  | S k => b ← load (src - 1); store (dst - 1) b;; copy_down k (dst - 1) (src - 1)
  end.

Definition memcpy (dst src size : Z) : stM mem Z :=
  assertM (negb (dst =? 0) || (size =? 0));;
  assertM (negb (src =? 0) || (size =? 0));;
  copy_up (Z.to_nat size) dst src;;
  mret dst.

Definition memmove (dst src size : Z) : stM mem Z :=
  assertM (negb (dst =? 0) || (size =? 0));;
  assertM (negb (src =? 0) || (size =? 0));;
  if dst <? src then copy_up (Z.to_nat size) dst src
  else copy_down (Z.to_nat size) (dst + size) (src + size).

Fixpoint memcmp_loop (size : nat) (a b : Z) : stM mem Z :=
  match size with
  | O => mret 0
  | S k =>
      x ← load a; y ← load b;
      if negb (x =? y) then mret (if y <? x then 1 else -1)
      else memcmp_loop k (a + 1) (b + 1)
  end.

Definition memcmp (a b size : Z) : stM mem Z :=
  assertM (negb (a =? 0) || (size =? 0));;
  assertM (negb (b =? 0) || (size =? 0));;
  memcmp_loop (Z.to_nat size) a b.

Fixpoint memchr_loop (size : nat) (block ch : Z) : stM mem Z :=
  match size with
  | O => mret 0
  | S k => x ← load block; if x =? ch then mret block else memchr_loop k (block + 1) ch
  end.

Definition memchr (block ch_ size : Z) : stM mem Z :=
  assertM (negb (block =? 0) || (size =? 0));;
  memchr_loop (Z.to_nat size) block (u8 ch_).

Fixpoint memset_loop (size : nat) (dst value : Z) : stM mem unit :=
  match size with
  | O => mret tt
  | S k => store dst value;; memset_loop k (dst + 1) value
  end.

Definition memset (dst value size : Z) : stM mem Z :=
  assertM (negb (dst =? 0) || (size =? 0));;
  memset_loop (Z.to_nat size) dst value;;
  mret dst.

(** ** Strings *)

Definition str_fuel : stM mem nat := fun m => Ok (S (size m), m).

Fixpoint strcmp_loop (fuel : nat) (a b : Z) : stM mem Z :=
  match fuel with
  | O => raise EFuel
  | S fuel' =>
      x ← load a;
      if negb (x =? 0) then
        y ← load b;
        if x =? y then strcmp_loop fuel' (a + 1) (b + 1)
        else mret (if x <? y then -1 else if y <? x then 1 else 0)
      else
        y ← load b;
        mret (if x <? y then -1 else if y <? x then 1 else 0)
  end.

Definition strcmp (a b : Z) : stM mem Z :=
  assertM (negb (a =? 0));; assertM (negb (b =? 0));;
  fuel ← str_fuel; strcmp_loop fuel a b.

Fixpoint strchr_loop (fuel : nat) (string c : Z) : stM mem Z :=
  match fuel with
  | O => raise EFuel
  | S fuel' =>
      x ← load string;
      if x =? c then mret string
      else if x =? 0 then mret 0
      else strchr_loop fuel' (string + 1) c
  end.

Definition strchr (string c_ : Z) : stM mem Z :=
  assertM (negb (string =? 0));; fuel ← str_fuel; strchr_loop fuel string (u8 c_).

(** strcspn and strspn differ in the test that ends the loop. *)
Fixpoint strcspn_loop (fuel : nat) (string length stop : Z) : stM mem Z :=
  match fuel with
  | O => raise EFuel
  | S fuel' =>
      x ← load (string + length);
      if x =? 0 then mret length
      else r ← strchr stop x;
           if negb (r =? 0) then mret length else strcspn_loop fuel' string (length + 1) stop
  end.

Definition strcspn (string stop : Z) : stM mem Z :=
  fuel ← str_fuel; strcspn_loop fuel string 0 stop.

Fixpoint strpbrk_loop (fuel : nat) (string stop : Z) : stM mem Z :=
  match fuel with
  | O => raise EFuel
  | S fuel' =>
      x ← load string;
      if x =? 0 then mret 0
      else r ← strchr stop x;
           if negb (r =? 0) then mret string else strpbrk_loop fuel' (string + 1) stop
  end.

Definition strpbrk (string stop : Z) : stM mem Z :=
  fuel ← str_fuel; strpbrk_loop fuel string stop.

Fixpoint strrchr_loop (fuel : nat) (string c p : Z) : stM mem Z :=
  match fuel with
  | O => raise EFuel
  | S fuel' =>
      x ← load string;
      if x =? 0 then mret p
      else strrchr_loop fuel' (string + 1) c (if x =? c then string else p)
  end.

Definition strrchr (string c_ : Z) : stM mem Z :=
  fuel ← str_fuel; strrchr_loop fuel string (u8 c_) 0.

Fixpoint strspn_loop (fuel : nat) (string length skip : Z) : stM mem Z :=
  match fuel with
  | O => raise EFuel
  | S fuel' =>
      x ← load (string + length);
      if x =? 0 then mret length
      else r ← strchr skip x;
           if r =? 0 then mret length else strspn_loop fuel' string (length + 1) skip
  end.

Definition strspn (string skip : Z) : stM mem Z :=
  fuel ← str_fuel; strspn_loop fuel string 0 skip.

Fixpoint strlen_loop (fuel : nat) (p : Z) : stM mem Z :=
  match fuel with
  | O => raise EFuel
  | S fuel' => x ← load p; if x =? 0 then mret p else strlen_loop fuel' (p + 1)
  end.

Definition strlen (string : Z) : stM mem Z :=
  assertM (negb (string =? 0));;
  fuel ← str_fuel; p ← strlen_loop fuel string; mret (p - string).

Fixpoint strnlen_loop (fuel : nat) (string length maxlen : Z) : stM mem Z :=
  match fuel with
  | O => raise EFuel
  | S fuel' =>
      x ← load (string + length);
      if negb (x =? 0) && (length <? maxlen) then strnlen_loop fuel' string (length + 1) maxlen
      else mret length
  end.

Definition strnlen (string maxlen : Z) : stM mem Z :=
  fuel ← str_fuel; strnlen_loop fuel string 0 maxlen.

(** [k] is the number of positions left, [haystack_len - needle_len + 1 - i]. *)
Fixpoint strstr_loop (k : nat) (haystack i needle needle_len : Z) : stM mem Z :=
  match k with
  | O => mret 0
  | S k' =>
      r ← memcmp (haystack + i) needle needle_len;
      if r =? 0 then mret (haystack + i) else strstr_loop k' haystack (i + 1) needle needle_len
  end.

Definition strstr (haystack needle : Z) : stM mem Z :=
  haystack_len ← strlen haystack;
  needle_len ← strlen needle;
  if needle_len <=? haystack_len
  then strstr_loop (Z.to_nat (haystack_len - needle_len + 1)) haystack 0 needle needle_len
  else mret 0.

(** The first loop of strtok_r: [inl s] when it returns NULL at the end of the
    string, [inr s] when a token starts at [s]. *)
Fixpoint strtok_skip (fuel : nat) (s delimiters : Z) : stM mem (Z + Z) :=
  match fuel with
  | O => raise EFuel
  | S fuel' =>
      x ← load s;
      r ← strchr delimiters x;
      if negb (r =? 0) then
        x ← load s;
        if x =? 0 then mret (inl s) else strtok_skip fuel' (s + 1) delimiters
      else mret (inr s)
  end.

Fixpoint strtok_scan (fuel : nat) (s delimiters : Z) : stM mem Z :=
  match fuel with
  | O => raise EFuel
  | S fuel' =>
      x ← load s;
      r ← strchr delimiters x;
      if r =? 0 then strtok_scan fuel' (s + 1) delimiters else mret s
  end.

(** [save_ptr] is the value of [*save_ptr]; the result is the token and the
    new value of [*save_ptr]. *)
Definition strtok_r (s delimiters save_ptr : Z) : stM mem (Z * Z) :=
  assertM (negb (delimiters =? 0));;
  let s := if s =? 0 then save_ptr else s in
  assertM (negb (s =? 0));;
  fuel ← str_fuel;
  k ← strtok_skip fuel s delimiters;
  match k with
  | inl s => mret (0, s)
  | inr token =>
      s ← strtok_scan fuel token delimiters;
      x ← load s;
      if negb (x =? 0) then store s 0;; mret (token, s + 1)
      else mret (token, s)
  end.

Definition strlcpy (dst src size : Z) : stM mem Z :=
  assertM (negb (dst =? 0));; assertM (negb (src =? 0));;
  src_len ← strlen src;
  (if 0 <? size then
     let dst_len := size - 1 in
     let dst_len := if src_len <? dst_len then src_len else dst_len in
     memcpy dst src dst_len;;
     store (dst + dst_len) 0
   else mret tt);;
  mret src_len.

Definition strlcat (dst src size : Z) : stM mem Z :=
  assertM (negb (dst =? 0));; assertM (negb (src =? 0));;
  src_len ← strlen src;
  dst_len ← strlen dst;
  (if (0 <? size) && (dst_len <? size) then
     let copy_cnt := size - dst_len - 1 in
     let copy_cnt := if src_len <? copy_cnt then src_len else copy_cnt in
     memcpy (dst + dst_len) src copy_cnt;;
     store (dst + dst_len + copy_cnt) 0
   else mret tt);;
  mret (u32 (src_len + dst_len)).

(** ** Specification vocabulary *)

(** The bytes [l] are stored at [p]. *)
Definition mem_array (m : mem) (p : Z) (l : list Z) : Prop :=
  0 < p /\ forall i x, l !! i = Some x -> m !! (p + Z.of_nat i) = Some x.

Definition mapped (m : mem) (p : Z) (n : nat) : Prop :=
  0 < p /\ forall i, (i < n)%nat -> is_Some (m !! (p + Z.of_nat i)).

(** The string [s], with its terminator, is stored at [p]. *)
Definition is_str (m : mem) (p : Z) (s : list Z) : Prop :=
  Forall (fun b => 0 < b < 256) s /\ mem_array m p (s ++ [0]).

(** Memory after the bytes [l] are written at [p]. *)
Fixpoint write (m : mem) (p : Z) (l : list Z) : mem :=
  match l with [] => m | b :: l' => write (<[p := b]> m) (p + 1) l' end.

(** ** Lemmas on memory *)

Lemma mem_array_cons m p b l :
  mem_array m p (b :: l) <-> 0 < p /\ m !! p = Some b /\ mem_array m (p + 1) l.
Proof.
  split.
  - intros [Hp H]. split_and!; [done| |split; [lia|]].
    + specialize (H 0%nat b eq_refl). by rewrite Z.add_0_r in H.
    + intros i x Hi. specialize (H (S i) x Hi). by replace (p + 1 + Z.of_nat i) with (p + Z.of_nat (S i)) by lia.
  - intros (Hp & Hb & _ & H). split; [done|]. intros [|i] x Hi; simpl in Hi.
    + simplify_eq. by rewrite Z.add_0_r.
    + replace (p + Z.of_nat (S i)) with (p + 1 + Z.of_nat i) by lia. by apply H.
Qed.

Lemma mem_array_app m p l1 l2 :
  mem_array m p (l1 ++ l2) <-> mem_array m p l1 /\ mem_array m (p + Z.of_nat (length l1)) l2.
Proof.
  revert p. induction l1 as [|b l1 IH]; intros p; cbn [app length].
  - rewrite Z.add_0_r. split; [intros H; split; [|done]|by intros [? ?]].
    destruct H. split; [done|]. intros i x Hi. by rewrite lookup_nil in Hi.
  - rewrite !mem_array_cons, IH.
    replace (p + 1 + Z.of_nat (length l1)) with (p + Z.of_nat (S (length l1))) by lia. tauto.
Qed.

Lemma mem_array_mapped m p l : mem_array m p l -> mapped m p (length l).
Proof.
  intros [Hp H]. split; [done|]. intros i Hi. destruct (lookup_lt_is_Some_2 l i Hi) as [x Hx]. eauto.
Qed.

Lemma mem_array_insert m p l a v :
  a < p \/ p + Z.of_nat (length l) <= a -> mem_array m p l -> mem_array (<[a := v]> m) p l.
Proof.
  intros Ha [Hp H]. split; [done|]. intros i x Hi. pose proof (lookup_lt_Some _ _ _ Hi).
  rewrite lookup_insert_ne by lia. by apply H.
Qed.

Lemma mapped_insert m p n a v : mapped m p n -> mapped (<[a := v]> m) p n.
Proof.
  intros [Hp H]. split; [done|]. intros i Hi. rewrite lookup_insert_is_Some'. auto.
Qed.

Lemma mapped_S m p n : mapped m p (S n) -> is_Some (m !! p) /\ mapped m (p + 1) n.
Proof.
  intros [Hp H]. split; [|split; [lia|]].
  - specialize (H 0%nat ltac:(lia)). by rewrite Z.add_0_r in H.
  - intros i Hi. replace (p + 1 + Z.of_nat i) with (p + Z.of_nat (S i)) by lia. apply H. lia.
Qed.

Lemma write_lookup m p l a :
  write m p l !! a = if decide (p <= a < p + Z.of_nat (length l))
                     then l !! Z.to_nat (a - p) else m !! a.
Proof.
  revert m p. induction l as [|b l IH]; intros m p; cbn [write length].
  - by rewrite decide_False by lia.
  - rewrite IH. destruct (decide (p = a)) as [->|Hne].
    + rewrite decide_False, decide_True, lookup_insert_eq, Z.sub_diag by lia. done.
    + rewrite lookup_insert_ne by done.
      destruct (decide (p + 1 <= a < p + 1 + Z.of_nat (length l))); [|by rewrite decide_False by lia].
      rewrite decide_True by lia. by replace (Z.to_nat (a - p)) with (S (Z.to_nat (a - (p + 1)))) by lia.
Qed.

Lemma write_snoc m p l b : write m p (l ++ [b]) = write (<[p + Z.of_nat (length l) := b]> m) p l.
Proof.
  apply map_eq. intros a. rewrite !write_lookup, length_app. simpl.
  destruct (decide (a = p + Z.of_nat (length l))) as [->|Hne].
  - rewrite decide_True, decide_False, lookup_insert_eq by lia.
    rewrite lookup_app_r by lia. by replace (_ - length l)%nat with 0%nat by lia.
  - rewrite lookup_insert_ne by done. repeat case_decide; try lia; [|done].
    by rewrite lookup_app_l by lia.
Qed.

Lemma mem_array_write m p l : 0 < p -> mem_array (write m p l) p l.
Proof.
  intros Hp. split; [done|]. intros i x Hi. pose proof (lookup_lt_Some _ _ _ Hi).
  rewrite write_lookup, decide_True by lia. by replace (Z.to_nat _) with i by lia.
Qed.

Lemma load_Ok m p b : 0 < p -> m !! p = Some b -> load p m = Ok (b, m).
Proof. intros Hp Hb. unfold load. rewrite (proj2 (Z.eqb_neq _ _)) by lia. by rewrite Hb. Qed.

Lemma store_Ok m p b :
  0 < p -> is_u8 b -> is_Some (m !! p) -> store p b m = Ok (tt, <[p := b]> m).
Proof.
  intros Hp Hb [x Hx]. unfold store. rewrite (proj2 (Z.eqb_neq _ _)) by lia.
  by rewrite Hx, u8_small.
Qed.

Lemma mem_array_size m p l : mem_array m p l -> (length l <= size m)%nat.
Proof.
  intros [_ H]. set (X := list_to_set (C := gset Z) (seqZ p (Z.of_nat (length l)))).
  assert (Hs : size X = length l).
  { unfold X. rewrite size_list_to_set by apply NoDup_seqZ. rewrite length_seqZ. lia. }
  rewrite <- Hs, <- size_dom. apply subseteq_size.
  intros a. unfold X. rewrite elem_of_list_to_set, elem_of_seqZ. intros Ha. apply elem_of_dom.
  destruct (lookup_lt_is_Some_2 l (Z.to_nat (a - p))) as [x Hx]; [lia|].
  exists x. specialize (H _ _ Hx). by replace (p + Z.of_nat (Z.to_nat (a - p))) with a in H by lia.
Qed.

(** A scan of a string ends within the fuel the loops are given. *)
Lemma is_str_fuel m p s : is_str m p s -> (length s < S (size m))%nat.
Proof. intros [_ H]. apply mem_array_size in H. rewrite length_app in H. simpl in H. lia. Qed.

Lemma nz p : 0 < p -> (p =? 0) = false.
Proof. intros. apply Z.eqb_neq. lia. Qed.

(** Runs one step of a computation whose first action is known. *)
Ltac run E := rewrite (stbind_step _ _ _ _ _ E).

(** ** Copying *)

Lemma copy_up_spec l : forall m dst src,
  Forall is_u8 l -> mem_array m src l -> mapped m dst (length l) ->
  dst <= src \/ src + Z.of_nat (length l) <= dst ->
  copy_up (length l) dst src m = Ok (dst + Z.of_nat (length l), write m dst l).
Proof.
  induction l as [|b l IH]; intros m dst src Hb Ha Hm Hov; cbn [length copy_up write].
  - by rewrite Z.add_0_r.
  - inversion Hb; subst. apply mem_array_cons in Ha as (Hs & Hsb & Ha).
    pose proof (proj1 Hm). apply mapped_S in Hm as [Hd Hm]. cbn [length] in Hov.
    run (load_Ok m src b Hs Hsb). run (store_Ok m dst b ltac:(done) ltac:(done) Hd).
    rewrite IH; [|done| |by apply mapped_insert|lia].
    + do 2 f_equal. lia.
    + apply mem_array_insert; [lia|done].
Qed.

Lemma copy_down_spec l : forall m dst src,
  Forall is_u8 l -> mem_array m (src - Z.of_nat (length l)) l ->
  mapped m (dst - Z.of_nat (length l)) (length l) -> src <= dst ->
  copy_down (length l) dst src m
    = Ok (dst - Z.of_nat (length l), write m (dst - Z.of_nat (length l)) l).
Proof.
  induction l as [|b l IH] using rev_ind; intros m dst src Hb Ha Hm Hov.
  - cbn [length copy_down write]. by rewrite Z.sub_0_r.
  - rewrite write_snoc. apply Forall_app in Hb as [Hbl Hbb].
    apply mem_array_app in Ha as [Ha Hsb]. rewrite length_app in *. cbn [length] in *.
    rewrite Nat.add_1_r in *. cbn [copy_down]. apply mem_array_cons in Hsb as (Hs & Hsb & _).
    replace (src - Z.of_nat (S (length l)) + Z.of_nat (length l)) with (src - 1) in * by lia.
    replace (dst - Z.of_nat (S (length l)) + Z.of_nat (length l)) with (dst - 1) in * by lia.
    replace (src - Z.of_nat (S (length l))) with (src - 1 - Z.of_nat (length l)) in * by lia.
    replace (dst - Z.of_nat (S (length l))) with (dst - 1 - Z.of_nat (length l)) in * by lia.
    run (load_Ok _ _ _ Hs Hsb). destruct Hm as [Hd Hm].
    assert (is_Some (m !! (dst - 1))) as Hdm.
    { specialize (Hm (length l) ltac:(lia)).
      by replace (dst - 1 - Z.of_nat (length l) + Z.of_nat (length l)) with (dst - 1) in Hm by lia. }
    run (store_Ok m (dst - 1) b ltac:(lia) ltac:(by inversion Hbb) Hdm).
    apply IH; [done| | |lia].
    + apply mem_array_insert; [lia|done].
    + apply mapped_insert. split; [done|]. intros i Hi. apply Hm. lia.
Qed.

Lemma memcpy_spec m dst src l :
  Forall is_u8 l -> mem_array m src l -> mapped m dst (length l) ->
  dst <= src \/ src + Z.of_nat (length l) <= dst ->
  memcpy dst src (Z.of_nat (length l)) m = Ok (dst, write m dst l).
Proof.
  intros Hb Ha Hm Hov. pose proof (proj1 Ha). pose proof (proj1 Hm).
  unfold memcpy. rewrite (nz dst), (nz src) by done.
  cbn [negb orb]. run (assertM_true true m eq_refl). run (assertM_true true m eq_refl).
  rewrite Nat2Z.id. run (copy_up_spec l m dst src Hb Ha Hm Hov). done.
Qed.

(** ** Scanning *)

Lemma is_str_nil m p : is_str m p [] <-> 0 < p /\ m !! p = Some 0.
Proof.
  unfold is_str. simpl. rewrite mem_array_cons. split; [tauto|].
  intros [Hp H0]. split_and!; [constructor|done|done|]. split; [lia|]. intros i x Hi. done.
Qed.

Lemma is_str_cons m p b s :
  is_str m p (b :: s) <-> 0 < p /\ m !! p = Some b /\ 0 < b < 256 /\ is_str m (p + 1) s.
Proof. unfold is_str. cbn [app]. rewrite mem_array_cons, Forall_cons. tauto. Qed.

Lemma is_str_pos m p s : is_str m p s -> 0 < p.
Proof. by intros [_ [? _]]. Qed.

(** The suffix of a stored string is a stored string. *)
Lemma is_str_app m p s1 s2 : is_str m p (s1 ++ s2) -> is_str m (p + Z.of_nat (length s1)) s2.
Proof.
  intros [HF Ha]. rewrite <- app_assoc in Ha. apply mem_array_app in Ha as [_ Ha].
  apply Forall_app in HF as [_ HF]. done.
Qed.

Lemma is_str_insert m p s a v :
  a < p \/ p + Z.of_nat (length s) < a -> is_str m p s -> is_str (<[a := v]> m) p s.
Proof.
  intros Ha [HF H]. split; [done|]. apply mem_array_insert; [|done].
  rewrite length_app. simpl. lia.
Qed.

Lemma strlen_loop_spec s : forall fuel m p,
  is_str m p s -> (length s < fuel)%nat -> strlen_loop fuel p m = Ok (p + Z.of_nat (length s), m).
Proof.
  induction s as [|b s IH]; intros [|fuel] m p Hs Hf; cbn [length] in *; [lia| |lia|]; cbn [strlen_loop].
  - apply is_str_nil in Hs as [Hp H0]. run (load_Ok m p 0 Hp H0). by rewrite Z.add_0_r.
  - apply is_str_cons in Hs as (Hp & Hb & Hr & Hs). run (load_Ok m p b Hp Hb).
    rewrite nz by lia. rewrite IH by (done || lia). do 2 f_equal. lia.
Qed.

Lemma strlen_spec m p s : is_str m p s -> strlen p m = Ok (Z.of_nat (length s), m).
Proof.
  intros Hs. unfold strlen. pose proof (is_str_pos _ _ _ Hs).
  rewrite nz by done. cbn [negb].
  run (assertM_true true m eq_refl). run (eq_refl : str_fuel m = Ok (S (size m), m)).
  run (strlen_loop_spec s (S (size m)) m p Hs (is_str_fuel _ _ _ Hs)).
  unfold mret, stM_ret. do 2 f_equal. lia.
Qed.

(** The position of the first [c] of the string and its terminator. *)
Fixpoint chr (s : list Z) (p c : Z) : Z :=
  match s with
  | [] => if c =? 0 then p else 0
  | b :: s' => if b =? c then p else chr s' (p + 1) c
  end.

Lemma strchr_loop_spec s : forall fuel m p c,
  is_str m p s -> (length s < fuel)%nat -> strchr_loop fuel p c m = Ok (chr s p c, m).
Proof.
  induction s as [|b s IH]; intros [|fuel] m p c Hs Hf; cbn [length] in *; [lia| |lia|];
    cbn [strchr_loop chr].
  - apply is_str_nil in Hs as [Hp H0]. run (load_Ok m p 0 Hp H0).
    rewrite (Z.eqb_sym c 0). by destruct (0 =? c).
  - apply is_str_cons in Hs as (Hp & Hb & Hr & Hs). run (load_Ok m p b Hp Hb).
    destruct (b =? c); [done|].
    rewrite nz by lia. apply IH; [done|lia].
Qed.

Lemma strchr_spec m p s c : is_str m p s -> is_u8 c -> strchr p c m = Ok (chr s p c, m).
Proof.
  intros Hs Hc. unfold strchr. pose proof (is_str_pos _ _ _ Hs).
  rewrite nz by done. cbn [negb].
  run (assertM_true true m eq_refl). run (eq_refl : str_fuel m = Ok (S (size m), m)).
  rewrite u8_small by done. apply strchr_loop_spec; [done|]. by apply is_str_fuel in Hs.
Qed.

Lemma chr_zero s : forall p c, 0 < p -> chr s p c = 0 <-> c <> 0 /\ c ∉ s.
Proof.
  induction s as [|b s IH]; intros p c Hp; simpl.
  - destruct (Z.eqb_spec c 0); split; intros; [lia|lia|split; [done|apply not_elem_of_nil]|done].
  - rewrite not_elem_of_cons. destruct (Z.eqb_spec b c) as [->|Hne].
    + split; [lia|]. by intros (? & ? & ?).
    + rewrite IH by lia. naive_solver.
Qed.

Lemma chr_eqb s p c : 0 < p -> (chr s p c =? 0) = bool_decide (c <> 0 /\ c ∉ s).
Proof.
  intros Hp. pose proof (chr_zero s p c Hp) as Hz.
  destruct (Z.eqb_spec (chr s p c) 0); case_bool_decide; tauto.
Qed.

(** ** Tokens *)

(** The longest prefix whose bytes are all (not) delimiters, and the rest. *)
Fixpoint span (f : Z -> bool) (s : list Z) : list Z * list Z :=
  match s with
  | [] => ([], [])
  | b :: s' => if f b then let '(x, y) := span f s' in (b :: x, y) else ([], s)
  end.

Definition delim (ds : list Z) (b : Z) : bool := bool_decide (b ∈ ds).

Lemma span_app f s : let '(x, y) := span f s in s = x ++ y.
Proof. induction s as [|b s IH]; simpl; [done|]. destruct (f b); [|done]. destruct (span f s). by subst. Qed.

Lemma strtok_skip_spec ds s : forall fuel m p d,
  is_str m p s -> is_str m d ds -> (length s < fuel)%nat ->
  let '(pre, rest) := span (delim ds) s in
  strtok_skip fuel p d m = Ok (if rest is [] then inl (p + Z.of_nat (length s))
                               else inr (p + Z.of_nat (length pre)), m).
Proof.
  induction s as [|b s IH]; intros [|fuel] m p d Hs Hd Hf; cbn [length] in *; [lia| |lia|];
    cbn [strtok_skip span]; pose proof (is_str_pos _ _ _ Hd).
  - apply is_str_nil in Hs as [Hp H0]. run (load_Ok m p 0 Hp H0).
    run (strchr_spec m d ds 0 Hd ltac:(done)). rewrite chr_eqb by done.
    rewrite bool_decide_false by (by intros [? _]). cbn [negb]. run (load_Ok m p 0 Hp H0).
    by rewrite Z.add_0_r.
  - apply is_str_cons in Hs as (Hp & Hb & Hr & Hs). run (load_Ok m p b Hp Hb).
    run (strchr_spec m d ds b Hd ltac:(unfold is_u8; lia)). rewrite chr_eqb by done.
    unfold delim. destruct (decide (b ∈ ds)) as [Hin|Hin].
    + rewrite (bool_decide_false (_ /\ _)) by (by intros [_ ?]). rewrite bool_decide_true by done.
      cbn [negb]. run (load_Ok m p b Hp Hb). rewrite nz by lia.
      specialize (IH fuel m (p + 1) d Hs Hd ltac:(lia)). fold (delim ds).
      destruct (span (delim ds) s) as [x y]. rewrite IH. do 2 f_equal.
      destruct y; cbn [length]; f_equal; lia.
    + rewrite (bool_decide_true (_ /\ _)) by (split; [lia|done]). rewrite bool_decide_false by done.
      cbn [negb length]. by rewrite Z.add_0_r.
Qed.

Lemma strtok_scan_spec ds s : forall fuel m p d,
  is_str m p s -> is_str m d ds -> (length s < fuel)%nat ->
  strtok_scan fuel p d m = Ok (p + Z.of_nat (length (span (negb ∘ delim ds) s).1), m).
Proof.
  induction s as [|b s IH]; intros [|fuel] m p d Hs Hd Hf; cbn [length] in *; [lia| |lia|];
    cbn [strtok_scan span]; pose proof (is_str_pos _ _ _ Hd).
  - apply is_str_nil in Hs as [Hp H0]. run (load_Ok m p 0 Hp H0).
    run (strchr_spec m d ds 0 Hd ltac:(done)). rewrite chr_eqb by done.
    rewrite bool_decide_false by (by intros [? _]). by rewrite Z.add_0_r.
  - apply is_str_cons in Hs as (Hp & Hb & Hr & Hs). run (load_Ok m p b Hp Hb).
    run (strchr_spec m d ds b Hd ltac:(unfold is_u8; lia)). rewrite chr_eqb by done.
    unfold compose, delim. destruct (decide (b ∈ ds)) as [Hin|Hin].
    + rewrite (bool_decide_false (_ /\ _)) by (by intros [_ ?]). rewrite bool_decide_true by done.
      cbn [negb fst length]. by rewrite Z.add_0_r.
    + rewrite (bool_decide_true (_ /\ _)) by (split; [lia|done]). rewrite bool_decide_false by done.
      rewrite IH by (done || lia). cbn [negb]. unfold compose, delim.
      destruct (span _ s). cbn [fst length]. do 2 f_equal. lia.
Qed.

Lemma span_head f s : match (span f s).2 with b :: _ => f b = false | [] => True end.
Proof. induction s as [|b s IH]; simpl; [done|]. destruct (f b) eqn:E; [|done]. by destruct (span f s). Qed.

(** The bytes outside an interval are unchanged. *)
Definition same_outside (m m' : mem) (lo hi : Z) : Prop :=
  forall a, a < lo \/ hi <= a -> m' !! a = m !! a.

Lemma is_str_same m m' lo hi p s :
  same_outside m m' lo hi -> p + Z.of_nat (length s) < lo \/ hi <= p -> is_str m p s -> is_str m' p s.
Proof.
  intros Hsame Hp [HF [Hpos H]]. split; [done|]. split; [done|]. intros i x Hi.
  pose proof (lookup_lt_Some _ _ _ Hi) as Hl. rewrite length_app in Hl. simpl in Hl.
  rewrite Hsame by lia. by apply H.
Qed.

(** A stored string cut by a terminator. *)
Lemma is_str_cut m p s1 b s2 :
  is_str m p (s1 ++ b :: s2) ->
  is_str (<[p + Z.of_nat (length s1) := 0]> m) p s1 /\
  is_str (<[p + Z.of_nat (length s1) := 0]> m) (p + Z.of_nat (length s1) + 1) s2.
Proof.
  intros Hs. pose proof (is_str_app _ _ _ _ Hs) as H2. destruct Hs as [HF Ha].
  apply is_str_cons in H2 as (Hp & Hb & _ & H2). split; [|apply is_str_insert; [lia|done]].
  apply Forall_app in HF as [HF _]. split; [done|].
  rewrite <- app_assoc in Ha. apply mem_array_app in Ha as [Ha _].
  apply mem_array_app. split; [apply mem_array_insert; [lia|done]|].
  apply mem_array_cons. rewrite lookup_insert_eq. split_and!; [done|done|].
  split; [lia|]. by intros i x Hi.
Qed.

Definition strtok_split (ds s : list Z) : list Z * list Z * list Z :=
  let '(pre, r) := span (delim ds) s in
  let '(tok, rest) := span (negb ∘ delim ds) r in (pre, tok, rest).

Lemma strtok_r_none m s p save d ds :
  is_str m (if p =? 0 then save else p) s -> is_str m d ds ->
  (strtok_split ds s).1.2 = [] ->
  strtok_r p d save m = Ok ((0, (if p =? 0 then save else p) + Z.of_nat (length s)), m).
Proof.
  unfold strtok_r. set (q := if p =? 0 then save else p). intros Hs Hd Ht.
  pose proof (is_str_pos _ _ _ Hd). pose proof (is_str_pos _ _ _ Hs).
  rewrite (nz d), (nz q) by done. cbn [negb].
  run (assertM_true true m eq_refl). run (assertM_true true m eq_refl).
  run (eq_refl : str_fuel m = Ok (S (size m), m)).
  pose proof (strtok_skip_spec ds s (S (size m)) m q d Hs Hd (is_str_fuel _ _ _ Hs)) as E.
  unfold strtok_split in Ht. pose proof (span_head (delim ds) s) as Hh.
  destruct (span (delim ds) s) as [pre r]. run E. cbn [snd] in Hh.
  destruct r as [|b r]; [done|]. cbn [span] in Ht. unfold compose in Ht. rewrite Hh in Ht.
  cbn [negb] in Ht. by destruct (span _ r).
Qed.

Lemma strtok_r_some m s p save d ds :
  is_str m (if p =? 0 then save else p) s -> is_str m d ds ->
  let q := if p =? 0 then save else p in
  let '(pre, tok, rest) := strtok_split ds s in
  let t := q + Z.of_nat (length pre) in
  tok <> [] ->
  exists next m', strtok_r p d save m = Ok ((t, next), m') /\
    is_str m' t tok /\ is_str m' next (tail rest) /\
    t + Z.of_nat (length tok) <= next <= t + Z.of_nat (length tok) + 1 /\
    next + Z.of_nat (length (tail rest)) = q + Z.of_nat (length s) /\
    same_outside m m' q (q + Z.of_nat (length s)).
Proof.
  unfold strtok_r. set (q := if p =? 0 then save else p). intros Hs Hd. cbv zeta.
  pose proof (is_str_pos _ _ _ Hd). pose proof (is_str_pos _ _ _ Hs).
  pose proof (strtok_skip_spec ds s (S (size m)) m q d Hs Hd (is_str_fuel _ _ _ Hs)) as E.
  pose proof (is_str_fuel _ _ _ Hs) as Hfuel.
  unfold strtok_split. pose proof (span_app (delim ds) s) as Es.
  destruct (span (delim ds) s) as [pre r]. subst s.
  pose proof (strtok_scan_spec ds r (S (size m)) m (q + Z.of_nat (length pre)) d
                (is_str_app _ _ _ _ Hs) Hd ltac:(rewrite length_app in Hfuel; lia)) as E2.
  pose proof (span_app (negb ∘ delim ds) r) as Er.
  destruct (span (negb ∘ delim ds) r) as [tok rest]. subst r. intros Htok. cbn [fst] in E2.
  rewrite (nz d), (nz q) by done. cbn [negb].
  run (assertM_true true m eq_refl). run (assertM_true true m eq_refl).
  run (eq_refl : str_fuel m = Ok (S (size m), m)). run E.
  destruct (tok ++ rest) eqn:Etr; [by destruct tok|]. rewrite <- Etr in *. clear Etr.
  run E2. apply is_str_app in Hs. set (t := q + Z.of_nat (length pre)) in *.
  pose proof (is_str_app _ _ _ _ Hs) as Hrest. set (e := t + Z.of_nat (length tok)) in *.
  rewrite !length_app. destruct rest as [|b rest].
  - rewrite app_nil_r in Hs. pose proof Hrest as [He Hz]%is_str_nil.
    run (load_Ok m e 0 He Hz). exists e, m. cbn [negb tail length]. split_and!; try done; lia.
  - apply is_str_cons in Hrest as (He & Hb & Hr & Hrest). run (load_Ok m e b He Hb).
    rewrite nz by lia. cbn [negb]. run (store_Ok m e 0 He ltac:(done) (mk_is_Some _ _ Hb)).
    destruct (is_str_cut _ _ _ _ _ Hs) as [Hc1 Hc2].
    exists (e + 1), (<[e := 0]> m). cbn [tail length]. split_and!; try done; try lia.
    intros a Ha. apply lookup_insert_ne. lia.
Qed.

(** The argument-parsing loop of start_process in userprog/process.c: the
    first call gets the string, the following ones NULL, until NULL comes
    back.  The result is the contents of argv, without the final NULL. *)
Fixpoint parse_args_loop (fuel : nat) (s delimiters save_ptr : Z) : stM mem (list Z) :=
  match fuel with
  | O => raise EFuel
  | S fuel' =>
      r ← strtok_r s delimiters save_ptr;
      let '(token, save_ptr) := r in
      if token =? 0 then mret []
      else argv ← parse_args_loop fuel' 0 delimiters save_ptr; mret (token :: argv)
  end.

Definition parse_args (cmd_line delimiters : Z) : stM mem (list Z) :=
  fuel ← str_fuel; parse_args_loop fuel cmd_line delimiters 0.

(** The words of a string. *)
Fixpoint words_aux (n : nat) (ds s : list Z) : list (list Z) :=
  match n with
  | O => []
  | S n' => let '(_, tok, rest) := strtok_split ds s in
            if tok is [] then [] else tok :: words_aux n' ds (tail rest)
  end.
Definition words (ds s : list Z) : list (list Z) := words_aux (S (length s)) ds s.

Lemma strtok_split_app ds s :
  let '(pre, tok, rest) := strtok_split ds s in s = pre ++ tok ++ rest.
Proof.
  unfold strtok_split. pose proof (span_app (delim ds) s). destruct (span (delim ds) s) as [pre r].
  pose proof (span_app (negb ∘ delim ds) r). destruct (span (negb ∘ delim ds) r). by subst.
Qed.

(** A word between [lo] and [hi]. *)
Definition word_at (m : mem) (lo hi p : Z) (w : list Z) : Prop := is_str m p w /\ lo <= p /\ p + Z.of_nat (length w) <= hi.

Lemma parse_args_loop_spec ds d : forall n fuel m p save s,
  (length s < n)%nat -> (length s < fuel)%nat ->
  let q := if p =? 0 then save else p in
  is_str m q s -> is_str m d ds -> d + Z.of_nat (length ds) < q \/ q + Z.of_nat (length s) < d ->
  exists argv m', parse_args_loop fuel p d save m = Ok (argv, m') /\
    Forall2 (word_at m' q (q + Z.of_nat (length s))) argv (words_aux n ds s) /\
    same_outside m m' q (q + Z.of_nat (length s)).
Proof.
  induction n as [|n IH]; intros [|fuel] m p save s Hn Hf q Hs Hd Hdis; [lia..|].
  cbn [parse_args_loop words_aux]. pose proof (strtok_r_some m s p save d ds Hs Hd) as Hsome.
  pose proof (strtok_r_none m s p save d ds Hs Hd) as Hnone. fold q in Hsome, Hnone.
  pose proof (strtok_split_app ds s) as Happ. pose proof (is_str_pos _ _ _ Hs).
  destruct (strtok_split ds s) as [[pre tok] rest]. cbn [fst snd] in *.
  destruct tok as [|b tok].
  { run (Hnone eq_refl). exists [], m. split_and!; [done|constructor|done]. }
  destruct (Hsome ltac:(done)) as (next & m1 & E & Htok & Hnext & Hle & Hend & Hsame).
  run E. rewrite nz by (by apply is_str_pos in Htok).
  pose proof (is_str_pos _ _ _ Hnext) as Hnpos.
  assert (Hlen : (length (tail rest) < length s)%nat).
  { subst s. rewrite !length_app. destruct rest; simpl; lia. }
  assert (Hd1 : is_str m1 d ds) by (eapply is_str_same; [done|lia|done]).
  destruct (IH fuel m1 0 next (tail rest)) as (argv & m2 & E2 & HF & Hsame2);
    [lia|lia|done|done|change (0 =? 0) with true; cbv iota; lia|].
  change (0 =? 0) with true in Hsame2, HF. cbv iota in Hsame2, HF. run E2.
  exists (q + Z.of_nat (length pre) :: argv), m2. split_and!; [done| |].
  - constructor; [|eapply Forall2_impl; [exact HF|]; intros p' w (H1 & H2 & H3); split; [done|lia]]. destruct Hle as [Hle1 Hle2].
    split; [|rewrite Happ, !length_app; cbn [length] in *; lia].
    destruct (decide (next = q + Z.of_nat (length pre) + Z.of_nat (length (b :: tok)))) as [Heq|].
    + (* the token ends the string: nothing is left to overwrite *)
      assert (length (tail rest) = 0%nat) as Hz.
      { rewrite Happ, !length_app in Hend. destruct rest; simpl in *; lia. }
      rewrite Hz in Hsame2. split; [apply Htok|]. destruct Htok as [_ [Ht1 Ht2]].
      split; [done|]. intros i x Hi. rewrite Hsame2 by lia. by apply Ht2.
    + eapply is_str_same; [done| |done]. lia.
  - intros a Ha. rewrite Hsame2, Hsame by lia. done.
Qed.

Lemma parse_args_spec m p s d ds :
  is_str m p s -> is_str m d ds -> d + Z.of_nat (length ds) < p \/ p + Z.of_nat (length s) < d ->
  exists argv m', parse_args p d m = Ok (argv, m') /\
    Forall2 (word_at m' p (p + Z.of_nat (length s))) argv (words ds s) /\ same_outside m m' p (p + Z.of_nat (length s)).
Proof.
  intros Hs Hd Hdis. unfold parse_args. run (eq_refl : str_fuel m = Ok (S (size m), m)).
  pose proof (parse_args_loop_spec ds d (S (length s)) (S (size m)) m p 0 s ltac:(lia)
    (is_str_fuel _ _ _ Hs)) as H. cbv zeta in H.
  rewrite (nz p) in H by (by eapply is_str_pos). by apply H.
Qed.

(** ** Bounded copies *)

Lemma strlcpy_spec m dst src s (size : nat) :
  is_str m src s -> mapped m dst size -> (0 < size)%nat ->
  dst + Z.of_nat size <= src \/ src + Z.of_nat (length s) < dst ->
  let c := take (size - 1) s in
  strlcpy dst src (Z.of_nat size) m = Ok (Z.of_nat (length s), write m dst (c ++ [0])).
Proof.
  intros Hs Hm Hsz Hdis c. pose proof (is_str_pos _ _ _ Hs). pose proof (proj1 Hm).
  unfold strlcpy. rewrite (nz dst), (nz src) by done. cbn [negb].
  run (assertM_true true m eq_refl). run (assertM_true true m eq_refl).
  run (strlen_spec m src s Hs). rewrite (proj2 (Z.ltb_lt 0 _)) by lia. cbv zeta.
  assert (Hc : (if Z.of_nat (length s) <? Z.of_nat size - 1 then Z.of_nat (length s)
                else Z.of_nat size - 1) = Z.of_nat (length c)).
  { unfold c. rewrite length_take. destruct (Z.ltb_spec (Z.of_nat (length s)) (Z.of_nat size - 1)); lia. }
  rewrite Hc. destruct Hs as [HF Ha].
  assert (Hcl : (length c < size /\ length c <= length s)%nat) by (unfold c; rewrite length_take; lia).
  assert (Hca : mem_array m src c).
  { rewrite <- (take_drop (size - 1) s), <- app_assoc in Ha. by apply mem_array_app in Ha as [Ha _]. }
  assert (Hcu : Forall is_u8 c).
  { apply Forall_take. eapply Forall_impl; [exact HF|]. unfold is_u8. simpl. lia. }
  assert (Hmc : mapped m dst (length c)).
  { split; [done|]. intros i Hi. apply Hm. lia. }
  rewrite (stbind_step _ _ m tt (write m dst (c ++ [0]))); [done|].
  run (memcpy_spec m dst src c Hcu Hca Hmc ltac:(lia)).
  rewrite store_Ok; [|lia|done|].
  - rewrite write_snoc. do 2 f_equal. apply map_eq. intros a. rewrite write_lookup.
    destruct (decide (a = dst + Z.of_nat (length c))) as [->|Hne].
    + rewrite lookup_insert_eq, decide_False, lookup_insert_eq by lia. done.
    + rewrite !lookup_insert_ne by done. by rewrite write_lookup.
  - rewrite write_lookup, decide_False by lia. apply Hm. lia.
Qed.

(** ** Comparing *)

(** The sign of the first difference, as memcmp reports it. *)
Fixpoint lex (l1 l2 : list Z) : Z :=
  match l1, l2 with
  | x :: l1', y :: l2' => if x =? y then lex l1' l2' else if y <? x then 1 else -1
  | _, _ => 0
  end.

Lemma lex_zero l1 : forall l2, length l1 = length l2 -> lex l1 l2 = 0 <-> l1 = l2.
Proof.
  induction l1 as [|x l1 IH]; intros [|y l2] Hl; simpl in *; try done.
  destruct (Z.eqb_spec x y) as [->|Hne].
  - rewrite IH by lia. naive_solver.
  - destruct (y <? x); naive_solver.
Qed.

Lemma memcmp_loop_spec l1 : forall l2 m a b,
  length l1 = length l2 -> mem_array m a l1 -> mem_array m b l2 ->
  memcmp_loop (length l1) a b m = Ok (lex l1 l2, m).
Proof.
  induction l1 as [|x l1 IH]; intros [|y l2] m a b Hl Ha Hb; try done. cbn [length memcmp_loop lex].
  apply mem_array_cons in Ha as (Ha & Hx & Ha'), Hb as (Hb & Hy & Hb').
  run (load_Ok m a x Ha Hx). run (load_Ok m b y Hb Hy).
  destruct (x =? y); cbn [negb]; [|done]. apply IH; [simpl in Hl; lia|done|done].
Qed.

Lemma memcmp_spec m a b l1 l2 :
  length l1 = length l2 -> mem_array m a l1 -> mem_array m b l2 ->
  memcmp a b (Z.of_nat (length l1)) m = Ok (lex l1 l2, m).
Proof.
  intros Hl Ha Hb. unfold memcmp. rewrite (nz a (proj1 Ha)), (nz b (proj1 Hb)). cbn [negb orb].
  run (assertM_true true m eq_refl). run (assertM_true true m eq_refl).
  rewrite Nat2Z.id. by apply memcmp_loop_spec.
Qed.

(** strcmp compares the strings with their terminators. *)
Lemma strcmp_loop_spec s1 : forall s2 fuel m a b,
  is_str m a s1 -> is_str m b s2 -> (length s1 < fuel)%nat ->
  strcmp_loop fuel a b m = Ok (lex (s1 ++ [0]) (s2 ++ [0]), m).
Proof.
  induction s1 as [|x s1 IH]; intros s2 [|fuel] m a b H1 H2 Hf; cbn [length] in *; [lia| |lia|];
    cbn [strcmp_loop].
  - apply is_str_nil in H1 as [Ha H0]. run (load_Ok m a 0 Ha H0). cbn [negb Z.eqb].
    destruct s2 as [|y s2].
    + apply is_str_nil in H2 as [Hb Hy]. by run (load_Ok m b 0 Hb Hy).
    + apply is_str_cons in H2 as (Hb & Hy & Hr & _). run (load_Ok m b y Hb Hy). cbn [app lex].
      rewrite (proj2 (Z.eqb_neq 0 y)), (proj2 (Z.ltb_lt 0 y)), (proj2 (Z.ltb_ge y 0)) by lia. done.
  - apply is_str_cons in H1 as (Ha & Hx & Hr & H1). run (load_Ok m a x Ha Hx).
    rewrite nz by lia. cbn [negb app lex]. destruct s2 as [|y s2].
    + apply is_str_nil in H2 as [Hb Hy]. run (load_Ok m b 0 Hb Hy). cbn [app lex].
      rewrite nz by lia. rewrite (proj2 (Z.ltb_ge x 0)), (proj2 (Z.ltb_lt 0 x)) by lia. done.
    + apply is_str_cons in H2 as (Hb & Hy & Hr' & H2). run (load_Ok m b y Hb Hy). cbn [app].
      destruct (Z.eqb_spec x y); [apply IH; (done || lia)|].
      destruct (Z.ltb_spec x y), (Z.ltb_spec y x); (lia || done).
Qed.

Lemma strcmp_spec m a b s1 s2 :
  is_str m a s1 -> is_str m b s2 -> strcmp a b m = Ok (lex (s1 ++ [0]) (s2 ++ [0]), m).
Proof.
  intros H1 H2. unfold strcmp. rewrite (nz a), (nz b) by (by eapply is_str_pos). cbn [negb].
  run (assertM_true true m eq_refl). run (assertM_true true m eq_refl).
  run (eq_refl : str_fuel m = Ok (S (size m), m)). apply strcmp_loop_spec; [done|done|].
  by apply is_str_fuel in H1.
Qed.

Lemma lex_str_zero s1 : forall s2,
  Forall (fun b => 0 < b < 256) s1 -> Forall (fun b => 0 < b < 256) s2 ->
  lex (s1 ++ [0]) (s2 ++ [0]) = 0 <-> s1 = s2.
Proof.
  induction s1 as [|x s1 IH]; intros [|y s2] H1 H2; cbn [app lex]; [done|..];
    rewrite ?Forall_cons in *.
  - rewrite (proj2 (Z.eqb_neq 0 y)), (proj2 (Z.ltb_ge y 0)) by lia. done.
  - rewrite nz, (proj2 (Z.ltb_lt 0 x)) by lia. done.
  - destruct (Z.eqb_spec x y) as [->|Hne].
    + rewrite IH by tauto. naive_solver.
    + destruct (y <? x); naive_solver.
Qed.

Lemma strstr_loop_spec m h hs nd ns : forall k i,
  mem_array m h hs -> mem_array m nd ns -> (i + k + length ns = S (length hs))%nat ->
  (forall j, (j < i)%nat -> take (length ns) (drop j hs) <> ns) ->
  exists r, strstr_loop k h (Z.of_nat i) nd (Z.of_nat (length ns)) m = Ok (r, m) /\
    ((r = 0 /\ forall j, (j + length ns <= length hs)%nat -> take (length ns) (drop j hs) <> ns) \/
     (exists j, r = h + Z.of_nat j /\ take (length ns) (drop j hs) = ns /\
        forall j', (j' < j)%nat -> take (length ns) (drop j' hs) <> ns)).
Proof.
  induction k as [|k IH]; intros i Hh Hn Hk Hno; cbn [strstr_loop].
  - exists 0. split; [done|]. left. split; [done|]. intros j Hj. apply Hno. lia.
  - assert (Hl : length (take (length ns) (drop i hs)) = length ns)
      by (rewrite length_take, length_drop; lia).
    assert (Ha : mem_array m (h + Z.of_nat i) (take (length ns) (drop i hs))).
    { split; [destruct Hh; lia|]. intros j x Hj. apply lookup_take_Some in Hj as [Hj Hj'].
      rewrite lookup_drop in Hj. apply Hh in Hj. rewrite <- Hj. f_equal. lia. }
    pose proof (memcmp_spec m _ _ _ _ Hl Ha Hn) as E. rewrite Hl in E. run E.
    destruct (Z.eqb_spec (lex (take (length ns) (drop i hs)) ns) 0) as [H0|H0].
    + exists (h + Z.of_nat i). split; [done|]. right. exists i. apply lex_zero in H0; [|done].
      split_and!; done.
    + replace (Z.of_nat i + 1) with (Z.of_nat (S i)) by lia. apply IH; [done|done|lia|].
      intros j Hj. destruct (decide (j = i)) as [->|]; [|apply Hno; lia].
      intros Heq. apply H0. by apply lex_zero.
Qed.

(** ** Properties *)

(** [memmove] moves overlapping blocks correctly: whatever the positions of
    the two blocks, the destination holds the bytes the source held before the
    call and nothing else changes.  The pointer it returns is DST only when
    the copy runs downwards; otherwise it is the end of the destination. *)
Theorem memmove_correct m dst src l :
  Forall is_u8 l -> mem_array m src l -> mapped m dst (length l) ->
  memmove dst src (Z.of_nat (length l)) m
    = Ok (if dst <? src then dst + Z.of_nat (length l) else dst, write m dst l).
Proof.
  intros Hb Ha Hm. pose proof (proj1 Ha). pose proof (proj1 Hm).
  unfold memmove. rewrite (nz dst), (nz src) by done. cbn [negb orb].
  run (assertM_true true m eq_refl). run (assertM_true true m eq_refl). rewrite Nat2Z.id.
  destruct (Z.ltb_spec dst src); [apply copy_up_spec; (done || lia)|].
  rewrite copy_down_spec; rewrite ?Z.add_simpl_r; [done|done|done|done|lia].
Qed.

(** The argument-parsing loop of start_process terminates and fills argv
    with pointers to the words of the command line, in order, each terminated
    in place; no byte outside the command line changes. *)
Theorem parse_args_correct m p s d ds :
  is_str m p s -> is_str m d ds -> d + Z.of_nat (length ds) < p \/ p + Z.of_nat (length s) < d ->
  exists argv m', parse_args p d m = Ok (argv, m') /\
    Forall2 (is_str m') argv (words ds s) /\ same_outside m m' p (p + Z.of_nat (length s)).
Proof.
  intros Hs Hd Hdis. destruct (parse_args_spec m p s d ds Hs Hd Hdis) as (argv & m' & E & HF & Ho). exists argv, m'. split_and!; [done| |done].
  eapply Forall2_impl; [exact HF|]. by intros q w [? _].
Qed.

(** [strlcpy] copies at most SIZE - 1 characters, always terminates the
    destination inside its SIZE bytes, changes nothing else and returns the
    length of the source. *)
Theorem strlcpy_correct m dst src s (size : nat) :
  is_str m src s -> mapped m dst size -> (0 < size)%nat ->
  dst + Z.of_nat size <= src \/ src + Z.of_nat (length s) < dst ->
  exists m', strlcpy dst src (Z.of_nat size) m = Ok (Z.of_nat (length s), m') /\
    is_str m' dst (take (size - 1) s) /\ is_str m' src s /\
    same_outside m m' dst (dst + Z.of_nat size).
Proof.
  intros Hs Hm Hsz Hdis. eexists. split; [by apply strlcpy_spec|].
  set (c := take (size - 1) s).
  assert (Hc : (length c < size)%nat) by (unfold c; rewrite length_take; lia).
  assert (Hout : same_outside m (write m dst (c ++ [0])) dst (dst + Z.of_nat size)).
  { intros a Ha. rewrite write_lookup, decide_False; [done|]. rewrite length_app. simpl. lia. }
  split_and!; [|by eapply is_str_same; [done|lia|done]|done].
  split; [apply Forall_take, Hs|]. apply mem_array_write, Hm.
Qed.

(** [strstr] finds the first occurrence of NEEDLE in HAYSTACK, and returns
    NULL exactly when there is none. *)
Theorem strstr_correct m h hs nd ns :
  is_str m h hs -> is_str m nd ns ->
  exists r, strstr h nd m = Ok (r, m) /\
    ((r = 0 /\ forall j, (j + length ns <= length hs)%nat -> take (length ns) (drop j hs) <> ns) \/
     (exists j, r = h + Z.of_nat j /\ take (length ns) (drop j hs) = ns /\
        forall j', (j' < j)%nat -> take (length ns) (drop j' hs) <> ns)).
Proof.
  intros Hh Hn. unfold strstr. run (strlen_spec m h hs Hh). run (strlen_spec m nd ns Hn).
  destruct Hh as [_ Hh], Hn as [_ Hn]. apply mem_array_app in Hh as [Hh _], Hn as [Hn _].
  destruct (Z.leb_spec (Z.of_nat (length ns)) (Z.of_nat (length hs))).
  - apply (strstr_loop_spec m h hs nd ns _ 0); [done|done|lia|lia].
  - exists 0. split; [done|]. left. split; [done|]. lia.
Qed.

(** [strcmp] returns zero exactly on equal strings, and leaves memory
    unchanged. *)
Theorem strcmp_decides_equality m a b s1 s2 :
  is_str m a s1 -> is_str m b s2 ->
  exists r, strcmp a b m = Ok (r, m) /\ (r = 0 <-> s1 = s2).
Proof.
  intros H1 H2. eexists. split; [by apply strcmp_spec|]. apply lex_str_zero; [apply H1|apply H2].
Qed.

(** ** Concrete instances *)

Fixpoint mem_arrayb (m : mem) (p : Z) (l : list Z) : bool :=
  match l with
  | [] => 0 <? p
  | b :: l' => (0 <? p) && bool_decide (m !! p = Some b) && mem_arrayb m (p + 1) l'
  end.

Lemma mem_arrayb_ok m p l : mem_arrayb m p l = true -> mem_array m p l.
Proof.
  revert p. induction l as [|b l IH]; intros p; simpl.
  - intros ?%Z.ltb_lt. split; [done|]. by intros i x Hi.
  - intros [[Hp Hb]%andb_true_iff Hl]%andb_true_iff. apply mem_array_cons.
    split_and!; [by apply Z.ltb_lt|by apply bool_decide_eq_true in Hb|by apply IH].
Qed.

Definition is_strb (m : mem) (p : Z) (s : list Z) : bool :=
  forallb (fun b => (0 <? b) && (b <? 256)) s && mem_arrayb m p (s ++ [0]).

Lemma is_strb_ok m p s : is_strb m p s = true -> is_str m p s.
Proof.
  intros [Hf Ha]%andb_true_iff. split; [|by apply mem_arrayb_ok].
  apply List.Forall_forall. intros b Hb. rewrite forallb_forall in Hf. specialize (Hf b Hb). zbool. lia.
Qed.

(** " a bc " at 100 and the delimiter " " at 200. *)
Definition sample_mem : mem := write (write ∅ 100 [32; 97; 32; 98; 99; 32; 0]) 200 [32; 0].

Lemma memmove_correct_witness :
  memmove 101 100 4 sample_mem = Ok (101, write sample_mem 101 [32; 97; 32; 98]).
Proof.
  apply (memmove_correct sample_mem 101 100 [32; 97; 32; 98]).
  - repeat (constructor; [split; [discriminate|reflexivity]|]). constructor.
  - apply mem_arrayb_ok. reflexivity.
  - apply (mem_array_mapped sample_mem 101 [97; 32; 98; 99]), mem_arrayb_ok. reflexivity.
Defined.

Lemma parse_args_correct_witness :
  exists argv m', parse_args 100 200 sample_mem = Ok (argv, m') /\
    Forall2 (is_str m') argv [[97]; [98; 99]] /\ same_outside sample_mem m' 100 106.
Proof.
  apply (parse_args_correct sample_mem 100 [32; 97; 32; 98; 99; 32] 200 [32]).
  - apply is_strb_ok. reflexivity.
  - apply is_strb_ok. reflexivity.
  - right. reflexivity.
Defined.

Lemma strlcpy_correct_witness :
  exists m', strlcpy 103 200 2 sample_mem = Ok (1, m') /\
    is_str m' 103 [32] /\ is_str m' 200 [32] /\ same_outside sample_mem m' 103 105.
Proof.
  apply (strlcpy_correct sample_mem 103 200 [32] 2).
  - apply is_strb_ok. reflexivity.
  - apply (mem_array_mapped sample_mem 103 [98; 99]), mem_arrayb_ok. reflexivity.
  - lia.
  - left. discriminate.
Defined.

Lemma strstr_correct_witness :
  exists r, strstr 100 200 sample_mem = Ok (r, sample_mem) /\
    ((r = 0 /\ forall j, (j + 1 <= 6)%nat -> take 1 (drop j [32; 97; 32; 98; 99; 32]) <> [32]) \/
     (exists j, r = 100 + Z.of_nat j /\ take 1 (drop j [32; 97; 32; 98; 99; 32]) = [32] /\
        forall j', (j' < j)%nat -> take 1 (drop j' [32; 97; 32; 98; 99; 32]) <> [32])).
Proof.
  apply (strstr_correct sample_mem 100 [32; 97; 32; 98; 99; 32] 200 [32]);
    apply is_strb_ok; reflexivity.
Defined.

Lemma strcmp_decides_equality_witness :
  exists r, strcmp 105 200 sample_mem = Ok (r, sample_mem) /\ (r = 0 <-> [32] = [32]).
Proof.
  apply (strcmp_decides_equality sample_mem 105 200 [32] [32]); apply is_strb_ok; reflexivity.
Defined.
