(* ===== verification/Random.v ===== *)
(** The RC4 pseudo-random generator of lib/random.c.

    The file-scope variables are the record [prng]; an index outside the 256
    bytes of [s] is [EFault]. *)

From stdpp Require Import base list numbers.
From Stdlib Require Import ZArith Lia.
From S2P Require Import Prelude.

Record prng := MkPrng { s : list Z; s_i : Z; s_j : Z; inited : bool }.

(** The state of the zero-initialised variables at boot. *)
Definition prng_boot : prng := MkPrng (replicate 256 0) 0 0 false.

Definition s_get (l : list Z) (i : Z) : res Z := of_option EFault (l !! Z.to_nat i).

Definition swap_byte (l : list Z) (a b : Z) : res (list Z) :=
  t ← s_get l a; u ← s_get l b;
  mret (<[Z.to_nat b := t]> (<[Z.to_nat a := u]> l)).

(** Byte [i] of the seed as it lies in memory (little-endian). *)
Definition seedp (seed : Z) (i : Z) : Z := Z.land (Z.shiftr seed (8 * i)) 255.

Fixpoint fill (n : nat) (i : Z) (l : list Z) : list Z :=
  match n with O => l | S n' => fill n' (i + 1) (<[Z.to_nat i := u8 i]> l) end.

Fixpoint mix (n : nat) (i j seed : Z) (l : list Z) : res (list Z) :=
  match n with
  | O => mret l
  | S n' =>
      x ← s_get l i;
      let j := u8 (j + (x + seedp seed (i mod 4))) in
      l ← swap_byte l i j;
      mix n' (i + 1) j seed l
  end.

Definition random_init (seed : Z) (r : prng) : res prng :=
  let l := fill 256 0 (s r) in
  l ← mix 256 0 0 seed l;
  mret (MkPrng l 0 0 true).

Fixpoint random_bytes_loop (size : nat) (r : prng) : res (list Z * prng) :=
  match size with
  | O => mret ([], r)
  | S size' =>
      let si := u8 (s_i r + 1) in
      x ← s_get (s r) si;
      let sj := u8 (s_j r + x) in
      l ← swap_byte (s r) si sj;
      x ← s_get l si; y ← s_get l sj;
      let s_k := u8 (x + y) in
      b ← s_get l s_k;
      '(bs, r) ← random_bytes_loop size' (MkPrng l si sj (inited r));
      mret (b :: bs, r)
  end.

Definition random_bytes (size : Z) (r : prng) : res (list Z * prng) :=
  r ← (if negb (inited r) then random_init 0 r else mret r);
  random_bytes_loop (Z.to_nat size) r.

Definition random_ulong (r : prng) : res (Z * prng) :=
  '(bs, r) ← random_bytes 4 r;
  mret (foldr (fun b acc => b + 256 * acc) 0 bs, r).

(** ** The invariant: [s] is a permutation of 0..255, and the indexes are bytes *)

Definition bytes256 : list Z := seqZ 0 256.

Definition prng_wf (r : prng) : Prop :=
  length (s r) = 256%nat /\ is_u8 (s_i r) /\ is_u8 (s_j r) /\
  (inited r = true -> s r ≡ₚ bytes256).

Lemma perm_length l : l ≡ₚ bytes256 -> length l = 256%nat.
Proof. intros H. by rewrite H. Qed.

Lemma s_get_Ok l i :
  l ≡ₚ bytes256 -> is_u8 i -> exists x, s_get l i = Ok x /\ l !! Z.to_nat i = Some x /\ is_u8 x.
Proof.
  intros Hp Hi. pose proof (perm_length l Hp). unfold is_u8 in *.
  destruct (lookup_lt_is_Some_2 l (Z.to_nat i)) as [x Hx]; [lia|].
  exists x. unfold s_get. rewrite Hx. split_and!; try done.
  1,2: apply list_elem_of_lookup_2 in Hx; rewrite Hp in Hx; apply elem_of_seqZ in Hx; lia.
Qed.

Lemma swap_byte_perm l a b :
  l ≡ₚ bytes256 -> is_u8 a -> is_u8 b -> exists l', swap_byte l a b = Ok l' /\ l' ≡ₚ bytes256.
Proof.
  intros Hp Ha Hb. destruct (s_get_Ok l a Hp Ha) as (x & Ex & Lx & _).
  destruct (s_get_Ok l b Hp Hb) as (y & Ey & Ly & _).
  unfold swap_byte. rewrite Ex. cbn [mbind res_bind]. rewrite Ey. cbn [mbind res_bind].
  eexists. split; [done|]. rewrite <- Hp.
  destruct (decide (Z.to_nat a = Z.to_nat b)) as [E|Hne].
  - rewrite E in *. simplify_eq. rewrite list_insert_insert_eq. by rewrite list_insert_id.
  - by apply Permutation_insert_swap.
Qed.

Lemma fill_lookup n : forall i l k,
  0 <= i -> i + Z.of_nat n <= 256 -> length l = 256%nat ->
  fill n i l !! k = if decide (Z.to_nat i <= k < Z.to_nat i + n)%nat then Some (Z.of_nat k) else l !! k.
Proof.
  induction n as [|n IH]; intros i l k Hi Hn Hl; cbn [fill].
  - by rewrite decide_False by lia.
  - rewrite IH by (rewrite ?length_insert; lia). destruct (decide (k = Z.to_nat i)) as [->|].
    + rewrite decide_False, decide_True, list_lookup_insert_eq by lia.
      rewrite u8_small by (unfold is_u8; lia). f_equal. lia.
    + rewrite list_lookup_insert_ne by lia. repeat case_decide; (done || lia).
Qed.

Lemma fill_all l : length l = 256%nat -> fill 256 0 l = bytes256.
Proof.
  intros Hl. apply list_eq. intros k. rewrite fill_lookup by (done || lia). case_decide as Hk.
  - symmetry. apply lookup_seqZ. lia.
  - rewrite !lookup_ge_None_2; [done| |lia]. unfold bytes256. rewrite length_seqZ. lia.
Qed.

Lemma mix_perm n : forall i j seed l,
  0 <= i -> i + Z.of_nat n <= 256 -> l ≡ₚ bytes256 -> exists l', mix n i j seed l = Ok l' /\ l' ≡ₚ bytes256.
Proof.
  induction n as [|n IH]; intros i j seed l Hi Hn Hp; cbn [mix]; [eauto|].
  destruct (s_get_Ok l i Hp) as (x & -> & _); [unfold is_u8; lia|]. cbn [mbind res_bind]. cbv zeta.
  destruct (swap_byte_perm l i (u8 (j + (x + seedp seed (i mod 4)))) Hp) as (l' & -> & Hp');
    [unfold is_u8; lia|apply u8_range|]. cbn [mbind res_bind]. apply IH; [lia|lia|done].
Qed.

Lemma random_init_spec seed r :
  length (s r) = 256%nat -> exists r', random_init seed r = Ok r' /\ prng_wf r' /\ inited r' = true.
Proof.
  intros Hl. unfold random_init. rewrite fill_all by done.
  destruct (mix_perm 256 0 0 seed bytes256) as (l & -> & Hp); [lia|lia|done|].
  cbn [mbind res_bind]. eexists. split; [done|]. split; [|done].
  split_and!; [by apply perm_length|done|done|done].
Qed.

Lemma random_bytes_loop_spec n : forall r,
  prng_wf r -> inited r = true ->
  exists bs r', random_bytes_loop n r = Ok (bs, r') /\ length bs = n /\ Forall is_u8 bs /\
    prng_wf r' /\ inited r' = true.
Proof.
  induction n as [|n IH]; intros r Hwf Hin; cbn [random_bytes_loop].
  { exists [], r. split_and!; try done; apply Hwf. }
  destruct Hwf as (_ & Hi & Hj & Hp). specialize (Hp Hin). cbv zeta.
  set (si := u8 (s_i r + 1)). assert (Hsi : is_u8 si) by apply u8_range.
  destruct (s_get_Ok (s r) si Hp Hsi) as (x & -> & _). cbn [mbind res_bind].
  set (sj := u8 (s_j r + x)). assert (Hsj : is_u8 sj) by apply u8_range.
  destruct (swap_byte_perm (s r) si sj Hp Hsi Hsj) as (l & -> & Hl). cbn [mbind res_bind].
  destruct (s_get_Ok l si Hl Hsi) as (y & -> & _). cbn [mbind res_bind].
  destruct (s_get_Ok l sj Hl Hsj) as (z & -> & _). cbn [mbind res_bind].
  destruct (s_get_Ok l (u8 (y + z)) Hl (u8_range _)) as (b & -> & _ & Hb). cbn [mbind res_bind].
  destruct (IH (MkPrng l si sj (inited r))) as (bs & r' & -> & Hlen & HF & Hwf' & Hin'); [|done|].
  { split_and!; [by apply perm_length|done|done|done]. }
  cbn [mbind res_bind]. exists (b :: bs), r'. split_and!; try done; try apply Hwf'; [simpl; lia|by constructor].
Qed.

(** ** Properties *)

(** From any state the code can reach, seeded or not, [random_bytes]
    delivers SIZE bytes without an access outside [s], and [s] is a permutation
    of 0..255 afterwards, as RC4 requires. *)
Theorem random_bytes_correct (size : Z) (r : prng) :
  0 <= size -> prng_wf r ->
  exists bs r', random_bytes size r = Ok (bs, r') /\ Z.of_nat (length bs) = size /\
    Forall is_u8 bs /\ s r' ≡ₚ bytes256 /\ prng_wf r'.
Proof.
  intros Hs Hwf. unfold random_bytes.
  assert (exists r0, (if negb (inited r) then random_init 0 r else mret r) = Ok r0 /\
            prng_wf r0 /\ inited r0 = true) as (r0 & -> & Hwf0 & Hin0).
  { destruct (inited r) eqn:E; cbn [negb]; [by exists r|]. apply random_init_spec, Hwf. }
  cbn [mbind res_bind].
  destruct (random_bytes_loop_spec (Z.to_nat size) r0 Hwf0 Hin0) as (bs & r' & -> & Hl & HF & Hwf' & Hin').
  exists bs, r'. split; [done|]. split; [lia|]. split; [done|]. split; [by apply Hwf'|done].
Qed.

Lemma prng_boot_wf : prng_wf prng_boot.
Proof. split_and!; done. Qed.

Lemma random_bytes_correct_witness :
  exists bs r', random_bytes 3 prng_boot = Ok (bs, r') /\ Z.of_nat (length bs) = 3 /\
    Forall is_u8 bs /\ s r' ≡ₚ bytes256 /\ prng_wf r'.
Proof. apply (random_bytes_correct 3 prng_boot); [discriminate|apply prng_boot_wf]. Defined.

(** The generator is deterministic: the first byte after boot. *)
Example random_first : exists r', random_bytes 1 prng_boot = Ok ([222], r').
Proof. eexists. vm_compute. reflexivity. Qed.
