(* ===== verification/Hash.v ===== *)
(** The hash table of lib/kernel/hash.c.

    An element is an abstract pointer type [A]; the hash and comparison
    functions with their AUX data are parameters of the table, as in the code.
    A bucket is the sequence of the elements chained in it: the list
    operations used here ([list_push_front], [list_remove], iteration) are
    those whose heap implementation is verified in KListSpec against exactly
    these sequence operations.  The outcome of each [malloc] is an argument. *)

From stdpp Require Import base list numbers gmap sets.
From Stdlib Require Import ZArith Lia.
From S2P Require Import Prelude.

(** ** Hash functions on bytes *)

Definition FNV_32_PRIME : Z := 16777619.
Definition FNV_32_BASIS : Z := 2166136261.

(** [hash = (hash * FNV_32_PRIME) ^ *buf++] over the bytes of the block. *)
Definition fnv (buf : list Z) (h : Z) : Z :=
  fold_left (fun hash b => Z.lxor (u32 (hash * FNV_32_PRIME)) b) buf h.

(** [buf] is the object BUF points to; reading past it is a fault. *)
Definition hash_bytes (buf : list Z) (size : Z) : res Z :=
  if size <=? Z.of_nat (length buf)
  then Ok (fnv (take (Z.to_nat size) buf) FNV_32_BASIS) else Err EFault.

Fixpoint hash_string_loop (s : list Z) (hash : Z) : res Z :=
  match s with
  | [] => Err EFault
  | c :: s' => if c =? 0 then Ok hash
               else hash_string_loop s' (Z.lxor (u32 (hash * FNV_32_PRIME)) c)
  end.

Definition hash_string (s : list Z) : res Z := hash_string_loop s FNV_32_BASIS.

(** The object representation of a 32-bit int. *)
Definition int_bytes (i : Z) : list Z :=
  map (fun k => Z.land (Z.shiftr (u32 i) (8 * k)) 255) [0; 1; 2; 3].

Definition hash_int (i : Z) : res Z := hash_bytes (int_bytes i) 4.

(** ** Powers of two *)

Definition turn_off_least_1bit (x : Z) : Z := Z.land x (u32 (x - 1)).
Definition is_power_of_2 (x : Z) : bool := negb (x =? 0) && (turn_off_least_1bit x =? 0).

Definition MIN_ELEMS_PER_BUCKET : Z := 1.
Definition BEST_ELEMS_PER_BUCKET : Z := 2.
Definition MAX_ELEMS_PER_BUCKET : Z := 4.

(** [while (!is_power_of_2 (n)) n = turn_off_least_1bit (n);] -- each step
    clears a bit, so that 33 steps are enough. *)
Fixpoint round_down_pow2 (fuel : nat) (n : Z) : res Z :=
  match fuel with
  | O => Err EFuel
  | S fuel' => if negb (is_power_of_2 n) then round_down_pow2 fuel' (turn_off_least_1bit n) else Ok n
  end.

(** ** The table *)

Section Table.
Context {A : Type} `{EqDecision A}.
Context (hash : A -> Z) (less : A -> A -> bool).

Record table := MkTable { elem_cnt : Z; bucket_cnt : Z; buckets : list (list A) }.

(** Does the element compare equal: the test of find_elem. *)
Definition equal (x y : A) : bool := negb (less x y) && negb (less y x).

(** The index of the bucket, which must exist. *)
Definition find_bucket (h : table) (e : A) : res nat :=
  let bucket_idx := Z.to_nat (Z.land (hash e) (u32 (bucket_cnt h - 1))) in
  match buckets h !! bucket_idx with Some _ => Ok bucket_idx | None => Err EFault end.

Definition bucket_at (h : table) (b : nat) : list A := default [] (buckets h !! b).

Definition find_elem (h : table) (bucket : nat) (e : A) : option A :=
  snd <$> list_find (fun hi => equal hi e = true) (bucket_at h bucket).

Definition insert_elem (h : table) (bucket : nat) (e : A) : table :=
  MkTable (u32 (elem_cnt h + 1)) (bucket_cnt h) (alter (cons e) bucket (buckets h)).

(** [list_remove] unlinks the element from the list it is in. *)
Definition remove_elem (h : table) (e : A) : table :=
  MkTable (u32 (elem_cnt h - 1)) (bucket_cnt h) (filter (fun x => x <> e) <$> buckets h).

(** Moves one chain: every element, from front to back, to the front of its new bucket. *)
Fixpoint move_bucket (old_bucket : list A) (h : table) : res table :=
  match old_bucket with
  | [] => mret h
  | e :: rest =>
      b ← find_bucket h e;
      move_bucket rest (MkTable (elem_cnt h) (bucket_cnt h) (alter (cons e) b (buckets h)))
  end.

Fixpoint move_buckets (old_buckets : list (list A)) (h : table) : res table :=
  match old_buckets with
  | [] => mret h
  | b :: rest => h ← move_bucket b h; move_buckets rest h
  end.

Definition rehash (malloc_ok : bool) (h : table) : res table :=
  let old_buckets := buckets h in
  let old_bucket_cnt := bucket_cnt h in
  let new_bucket_cnt := elem_cnt h / BEST_ELEMS_PER_BUCKET in
  let new_bucket_cnt := if new_bucket_cnt <? 4 then 4 else new_bucket_cnt in
  new_bucket_cnt ← round_down_pow2 33 new_bucket_cnt;
  if new_bucket_cnt =? old_bucket_cnt then mret h
  else if negb malloc_ok then mret h
  else
    let h := MkTable (elem_cnt h) new_bucket_cnt (replicate (Z.to_nat new_bucket_cnt) []) in
    move_buckets (take (Z.to_nat old_bucket_cnt) old_buckets) h.

(** The calls of the destructor are returned in order. *)
Definition hash_clear (h : table) (destructor : bool) : list A * table :=
  (if destructor then mjoin (take (Z.to_nat (bucket_cnt h)) (buckets h)) else [],
   MkTable 0 (bucket_cnt h) ((fun _ => []) <$> buckets h)).

(** When the allocation fails, [buckets] is NULL: no bucket exists. *)
Definition hash_init (malloc_ok : bool) : bool * table :=
  if malloc_ok then (true, (hash_clear (MkTable 0 4 (replicate 4 [])) false).2)
  else (false, MkTable 0 4 []).

Definition hash_destroy (h : table) (destructor : bool) : list A :=
  if destructor then (hash_clear h true).1 else [].

Definition hash_insert (malloc_ok : bool) (h : table) (new : A) : res (option A * table) :=
  bucket ← find_bucket h new;
  let old := find_elem h bucket new in
  let h := match old with None => insert_elem h bucket new | Some _ => h end in
  h ← rehash malloc_ok h;
  mret (old, h).

Definition hash_replace (malloc_ok : bool) (h : table) (new : A) : res (option A * table) :=
  bucket ← find_bucket h new;
  let old := find_elem h bucket new in
  let h := match old with Some o => remove_elem h o | None => h end in
  let h := insert_elem h bucket new in
  h ← rehash malloc_ok h;
  mret (old, h).

Definition hash_find (h : table) (e : A) : res (option A) :=
  bucket ← find_bucket h e; mret (find_elem h bucket e).

Definition hash_delete (malloc_ok : bool) (h : table) (e : A) : res (option A * table) :=
  bucket ← find_bucket h e;
  match find_elem h bucket e with
  | Some found => h ← rehash malloc_ok (remove_elem h found); mret (Some found, h)
  | None => mret (None, h)
  end.

(** The elements ACTION is called on, in order. *)
Definition hash_apply (h : table) : list A :=
  mjoin (take (Z.to_nat (bucket_cnt h)) (buckets h)).

(** ** Iteration.  A position in a bucket is 0 at the list head, [k + 1] at
    element [k], and one past the last element at the tail. *)
Record hash_iterator := MkIter { i_bucket : nat; i_pos : nat; i_cur : option A }.

Definition hash_first (h : table) : hash_iterator := MkIter 0 0 None.

(** The [while] loop of hash_next: [n] buckets are left after this one. *)
Fixpoint hash_next_loop (n : nat) (h : table) (b pos : nat) : hash_iterator :=
  if decide (pos = S (length (bucket_at h b))) then
    match n with
    | O => MkIter (S b) pos None
    | S n' => hash_next_loop n' h (S b) 1
    end
  else MkIter b pos (bucket_at h b !! (pos - 1)%nat).

Definition hash_next (h : table) (i : hash_iterator) : hash_iterator :=
  hash_next_loop (Z.to_nat (bucket_cnt h) - 1 - i_bucket i) h (i_bucket i) (S (i_pos i)).

Definition hash_cur (i : hash_iterator) : option A := i_cur i.

Definition hash_size (h : table) : Z := elem_cnt h.
Definition hash_empty (h : table) : bool := elem_cnt h =? 0.

End Table.
Arguments table A : clear implicits.

(** ** Lemmas on powers of two *)

Lemma odd_part x : 0 < x -> exists j q, 0 <= j /\ 0 <= q /\ x = 2 ^ j * (2 * q + 1).
Proof.
  intros Hx. assert (0 <= x) as H0 by lia. revert Hx. pattern x.
  apply Z_lt_induction; [|done]. clear x H0. intros x IH Hx.
  destruct (Z.Even_or_Odd x) as [[y ->]|[q ->]].
  - destruct (IH y) as (j & q & Hj & Hq & ->); [lia|lia|]. exists (j + 1), q.
    rewrite Z.pow_add_r by lia. split_and!; lia.
  - exists 0, q. split_and!; lia.
Qed.

Lemma testbit_split a b j n :
  0 <= j -> 0 <= b < 2 ^ j -> 0 <= n ->
  Z.testbit (a * 2 ^ j + b) n = if n <? j then Z.testbit b n else Z.testbit a (n - j).
Proof.
  intros Hj Hb Hn. destruct (Z.ltb_spec n j).
  - rewrite <- (Z.mod_pow2_bits_low (a * 2 ^ j + b) j n) by lia.
    rewrite Z.add_comm, Z.mod_add by lia. by rewrite Z.mod_small.
  - replace n with (n - j + j) at 1 by lia. rewrite <- Z.shiftr_spec by lia.
    rewrite Z.shiftr_div_pow2 by lia. rewrite Z.div_add_l by lia. by rewrite Z.div_small, Z.add_0_r.
Qed.

(** Turning off the lowest bit of [2 ^ j * (2 * q + 1)]. *)
Lemma turn_off_odd_part j q :
  0 <= j -> 0 <= q -> 2 ^ j * (2 * q + 1) < 2 ^ 32 ->
  turn_off_least_1bit (2 ^ j * (2 * q + 1)) = 2 ^ (j + 1) * q.
Proof.
  intros Hj Hq Hx. assert (0 < 2 ^ j) by lia. unfold turn_off_least_1bit.
  rewrite u32_small by (unfold is_u32; nia).
  replace (2 ^ j * (2 * q + 1) - 1) with (2 * q * 2 ^ j + (2 ^ j - 1)) by lia.
  replace (2 ^ j * (2 * q + 1)) with ((2 * q + 1) * 2 ^ j + 0) by lia.
  replace (2 ^ (j + 1) * q) with (2 * q * 2 ^ j + 0) by (rewrite Z.pow_add_r by lia; lia).
  apply Z.bits_inj'. intros n Hn. rewrite Z.land_spec, !testbit_split by lia.
  destruct (Z.ltb_spec n j); [by rewrite Z.bits_0|].
  destruct (decide (n = j)) as [->|].
  - rewrite Z.sub_diag, Z.testbit_even_0. by rewrite andb_false_r.
  - replace (n - j) with (Z.succ (n - j - 1)) by lia.
    rewrite Z.testbit_odd_succ, Z.testbit_even_succ by lia. by rewrite andb_diag.
Qed.

Lemma is_power_of_2_spec j q :
  0 <= j -> 0 <= q -> 2 ^ j * (2 * q + 1) < 2 ^ 32 -> is_power_of_2 (2 ^ j * (2 * q + 1)) = (q =? 0).
Proof.
  intros Hj Hq Hx. unfold is_power_of_2. rewrite turn_off_odd_part by done.
  assert (0 < 2 ^ j) by lia. assert (0 < 2 ^ (j + 1)) by lia.
  rewrite (proj2 (Z.eqb_neq (2 ^ j * (2 * q + 1)) 0)) by nia. cbn [negb andb].
  destruct (Z.eqb_spec (2 ^ (j + 1) * q) 0), (Z.eqb_spec q 0); (done || nia).
Qed.

(** The loop ends at the largest power of two below its argument. *)
Lemma round_down_pow2_spec fuel : forall n t L,
  0 <= t -> 0 <= L -> (2 ^ t | n) -> 2 ^ L <= n < 2 ^ (L + 1) -> n < 2 ^ 32 ->
  L - t < Z.of_nat fuel -> round_down_pow2 fuel n = Ok (2 ^ L).
Proof.
  induction fuel as [|fuel IH]; intros n t L Ht HL Hdiv Hn H32 Hf.
  { destruct Hdiv as [c ->]. assert (0 < 2 ^ t) by lia. assert (0 < 2 ^ L) by lia.
    assert (0 < c) by nia.
    assert (2 ^ (L + 1) <= 2 ^ t) by (apply Z.pow_le_mono_r; lia). nia. }
  assert (Hpos : 0 < 2 ^ L) by lia.
  destruct (odd_part n) as (j & q & Hj & Hq & ->); [lia|].
  assert (Hjt : t <= j).
  { destruct (Z.le_gt_cases t j) as [|Hlt]; [done|]. destruct Hdiv as [c Hc].
    replace t with (t - j - 1 + 1 + j) in Hc by lia. rewrite !Z.pow_add_r in Hc by lia.
    assert (0 < 2 ^ j) by lia. assert (2 * q + 1 = c * 2 ^ (t - j - 1) * 2) by nia. lia. }
  assert (HjL : j < L + 1).
  { apply (Z.pow_lt_mono_r_iff 2); [lia|lia|]. nia. }
  cbn [round_down_pow2]. rewrite is_power_of_2_spec by done.
  destruct (Z.eqb_spec q 0) as [->|Hq0]; cbn [negb].
  - rewrite Z.mul_1_r in *. destruct (Z.eq_dec j L) as [->|]; [done|].
    assert (2 ^ j < 2 ^ L) by (apply Z.pow_lt_mono_r; lia). lia.
  - rewrite turn_off_odd_part by done. assert (0 < 2 ^ j) by lia.
    assert (Hlt : j < L).
    { destruct (Z.eq_dec j L) as [->|]; [|lia]. rewrite Z.pow_add_r in Hn by lia. nia. }
    assert (HpL : 2 ^ L = 2 ^ j * (2 * 2 ^ (L - j - 1))).
    { rewrite <- Z.pow_succ_r, <- Z.pow_add_r by lia. f_equal. lia. }
    assert (2 ^ (L - j - 1) <= q).
    { rewrite HpL in Hn. assert (2 * 2 ^ (L - j - 1) <= 2 * q + 1) by nia. lia. }
    assert (Hj1 : 2 ^ (j + 1) = 2 * 2 ^ j) by (rewrite Z.pow_add_r by lia; lia).
    apply (IH _ (j + 1) L); [lia|lia|by apply Z.divide_factor_l| | |lia]; nia.
Qed.

Lemma round_down_ge4 n :
  4 <= n < 2 ^ 32 -> exists k, 2 <= k <= 31 /\ round_down_pow2 33 n = Ok (2 ^ k) /\ 2 ^ k <= n < 2 ^ (k + 1).
Proof.
  intros Hn. pose proof (Z.log2_spec n ltac:(lia)) as HL. unfold Z.succ in HL.
  assert (2 <= Z.log2 n) by (change 2 with (Z.log2 4); apply Z.log2_le_mono; lia).
  assert (Z.log2 n < 32) by (apply Z.log2_lt_pow2; lia).
  exists (Z.log2 n). split_and!; [lia|lia| |lia|lia].
  apply (round_down_pow2_spec 33 n 0); [lia|lia|apply Z.divide_1_l|done|lia|lia].
Qed.

(** ** The interface a table needs from its hash and comparison functions:
    "not less in either direction" is an equivalence that the hash respects. *)
Class HashOrder {A} (hash : A -> Z) (less : A -> A -> bool) : Prop := {
  hash_u32 : forall x, is_u32 (hash x);
  equal_refl : forall x, equal less x x = true;
  equal_trans : forall x y z, equal less x y = true -> equal less y z = true -> equal less x z = true;
  equal_hash : forall x y, equal less x y = true -> hash x = hash y
}.

(** ** Lemmas on chains *)

Section Chains.
Context {A : Type} `{EqDecision A}.

Lemma mjoin_cons (l : list A) bs : mjoin (l :: bs) = l ++ mjoin bs.
Proof. done. Qed.

Lemma join_alter_cons (e : A) b bs :
  (b < length bs)%nat -> mjoin (alter (cons e) b bs) ≡ₚ e :: mjoin bs.
Proof.
  revert b. induction bs as [|l bs IH]; intros b Hb; simpl in *; [lia|].
  destruct b as [|b]; [done|]. change (alter (cons e) (S b) (l :: bs)) with (l :: alter (cons e) b bs).
  rewrite !mjoin_cons. rewrite IH by lia. by rewrite Permutation_middle.
Qed.

Lemma join_filter (P : A -> Prop) `{!forall x, Decision (P x)} (bs : list (list A)) :
  mjoin (filter P <$> bs) = filter P (mjoin bs).
Proof.
  induction bs as [|l bs IH]; [done|]. rewrite fmap_cons. rewrite !mjoin_cons. by rewrite IH, filter_app.
Qed.

Lemma NoDup_remove_perm (l : list A) x : NoDup l -> x ∈ l -> x :: filter (fun y => y <> x) l ≡ₚ l.
Proof.
  induction 1 as [|y l Hy HN IH]; intros Hx; [by apply elem_of_nil in Hx|].
  apply elem_of_cons in Hx as [->|Hx].
  - rewrite filter_cons_False by naive_solver. f_equiv.
    assert (filter (fun z => z <> y) l = l) as ->; [|done].
    clear HN IH. induction l as [|z l IH]; [done|]. apply not_elem_of_cons in Hy as [Hyz Hy].
    rewrite filter_cons_True by congruence. by rewrite IH.
  - rewrite filter_cons_True by (intros ->; done). rewrite Permutation_swap. f_equiv. by apply IH.
Qed.

Lemma join_replicate_nil n : mjoin (replicate n ([] : list A)) = [].
Proof. by induction n. Qed.

End Chains.

Section Correct.
Context {A : Type} `{EqDecision A}.
Context (hash : A -> Z) (less : A -> A -> bool).

Definition elems (h : table A) : list A := mjoin (buckets h).

Definition index_of (k : Z) (e : A) : nat := Z.to_nat (hash e mod 2 ^ k).

(** Every chain holds only elements that hash to it. *)
Definition placed (k : Z) (bs : list (list A)) : Prop :=
  forall b l e, bs !! b = Some l -> e ∈ l -> b = index_of k e.

Definition shape (k : Z) (h : table A) : Prop :=
  2 <= k <= 31 /\ bucket_cnt h = 2 ^ k /\ length (buckets h) = Z.to_nat (2 ^ k) /\ placed k (buckets h).

(** The invariant: shape, an exact count, and no two equal elements. *)
Definition table_wf (h : table A) : Prop :=
  (exists k, shape k h) /\ elem_cnt h = Z.of_nat (length (elems h)) /\ elem_cnt h < 2 ^ 32 /\
  NoDup (elems h) /\ (forall x y, x ∈ elems h -> y ∈ elems h -> equal less x y = true -> x = y).

Lemma elem_of_elems (h : table A) e : e ∈ elems h <-> exists b l, buckets h !! b = Some l /\ e ∈ l.
Proof.
  unfold elems. rewrite list_elem_of_join. split.
  - intros (l & He & Hl). apply list_elem_of_lookup in Hl as [b Hb]. eauto.
  - intros (b & l & Hb & He). exists l. split; [done|]. by eapply list_elem_of_lookup_2.
Qed.

Lemma placed_alter k e b bs :
  placed k bs -> b = index_of k e -> placed k (alter (cons e) b bs).
Proof.
  intros Hp Hb b' l x Hl Hx. rewrite list_lookup_alter in Hl. case_decide as Hbb.
  - apply fmap_Some in Hl as (l0 & Hl0 & ->). apply elem_of_cons in Hx as [->|Hx]; subst; [done|eauto].
  - eauto.
Qed.

Lemma alter_shape k h e cnt :
  shape k h -> shape k (MkTable cnt (bucket_cnt h) (alter (cons e) (index_of k e) (buckets h))).
Proof.
  intros (Hk & Hc & Hl & Hp). split; [done|]. split; [done|].
  split; [by cbn; rewrite length_alter|by apply placed_alter].
Qed.

Context `{HO : !HashOrder hash less}.

Lemma find_bucket_Ok k h e : shape k h -> find_bucket hash h e = Ok (index_of k e) /\
  (index_of k e < length (buckets h))%nat.
Proof using HO.
  intros (Hk & Hc & Hl & _). pose proof (hash_u32 e) as Hu. unfold is_u32 in Hu.
  assert (2 ^ k <= 2 ^ 31) by (apply Z.pow_le_mono_r; lia).
  assert (0 < 2 ^ k) by lia. pose proof (Z.mod_pos_bound (hash e) (2 ^ k) ltac:(lia)).
  assert (Hlt : (index_of k e < length (buckets h))%nat) by (rewrite Hl; unfold index_of; lia).
  split; [|done]. unfold find_bucket. rewrite Hc, u32_small by (unfold is_u32; lia).
  replace (2 ^ k - 1) with (Z.ones k) by (rewrite Z.ones_equiv; lia).
  rewrite Z.land_ones by lia. fold (index_of k e).
  destruct (lookup_lt_is_Some_2 _ _ Hlt) as [l ->]. done.
Qed.

Lemma equal_sym x y : equal less x y = equal less y x.
Proof. unfold equal. apply andb_comm. Qed.

(** find_elem searches the right bucket: it finds an equal element of the table
    if there is one. *)
Lemma find_elem_spec k h e :
  shape k h ->
  match find_elem less h (index_of k e) e with
  | Some x => x ∈ elems h /\ equal less x e = true
  | None => forall x, x ∈ elems h -> equal less x e = false
  end.
Proof using HO.
  intros (Hk & Hc & Hl & Hp). unfold find_elem, bucket_at.
  destruct (list_find _ _) as [[i x]|] eqn:E; cbn.
  - apply list_find_Some in E as (Hi & Heq & _). split; [|done].
    destruct (buckets h !! index_of k e) as [l|] eqn:Eb; [|done].
    apply elem_of_elems. exists (index_of k e), l. split; [done|]. by eapply list_elem_of_lookup_2.
  - apply list_find_None in E. intros x Hx. apply elem_of_elems in Hx as (b & l & Hb & Hx).
    destruct (equal less x e) eqn:Heq; [|done]. exfalso.
    assert (b = index_of k e) as ->.
    { rewrite (Hp b l x Hb Hx). unfold index_of. by rewrite (equal_hash x e Heq). }
    rewrite Hb in E. cbn in E. apply list_elem_of_lookup in Hx as [i Hi].
    rewrite Forall_lookup in E. by apply (E i x Hi).
Qed.

Lemma move_bucket_spec k old : forall h,
  shape k h -> exists h', move_bucket hash old h = Ok h' /\ shape k h' /\
    elem_cnt h' = elem_cnt h /\ elems h' ≡ₚ old ++ elems h.
Proof using HO.
  induction old as [|e old IH]; intros h Hs; cbn [move_bucket]; [by exists h|].
  destruct (find_bucket_Ok k h e Hs) as [-> Hlt]. cbn [mbind res_bind].
  destruct (IH (MkTable (elem_cnt h) (bucket_cnt h) (alter (cons e) (index_of k e) (buckets h))))
    as (h' & -> & Hs' & He' & Hel).
  { by apply alter_shape. }
  exists h'. split_and!; [done|done|done|]. rewrite Hel. unfold elems; cbn [buckets].
  rewrite join_alter_cons by done. symmetry; apply Permutation_middle.
Qed.

Lemma move_buckets_spec k old : forall h,
  shape k h -> exists h', move_buckets hash old h = Ok h' /\ shape k h' /\
    elem_cnt h' = elem_cnt h /\ elems h' ≡ₚ mjoin old ++ elems h.
Proof using HO.
  induction old as [|b old IH]; intros h Hs; cbn [move_buckets]; [by exists h|].
  destruct (move_bucket_spec k b h Hs) as (h1 & -> & Hs1 & He1 & Hp1). cbn [mbind res_bind].
  destruct (IH h1 Hs1) as (h2 & -> & Hs2 & He2 & Hp2).
  exists h2. split_and!; [done|done|by rewrite He2|]. rewrite Hp2, Hp1. rewrite !mjoin_cons.
  by rewrite !(assoc (++)), (comm (++) (mjoin old) b).
Qed.

Lemma empty_shape k cnt : 2 <= k <= 31 -> shape k (MkTable cnt (2 ^ k) (replicate (Z.to_nat (2 ^ k)) [])).
Proof.
  intros Hk. split_and!; cbn; [lia|lia|done|apply length_replicate|].
  intros b l e Hl He. apply lookup_replicate in Hl as [-> _]. by apply elem_of_nil in He.
Qed.

(** rehash keeps the elements, whatever malloc answers. *)
Lemma rehash_spec ok h :
  table_wf h -> exists h', rehash hash ok h = Ok h' /\ table_wf h' /\ elems h' ≡ₚ elems h.
Proof using HO.
  intros Hwf. pose proof Hwf as ((k & Hs) & Hcnt & Hlt & HN & Heq). unfold rehash.
  set (n0 := elem_cnt h / BEST_ELEMS_PER_BUCKET).
  assert (0 <= n0 <= elem_cnt h) by (unfold n0, BEST_ELEMS_PER_BUCKET; Z.to_euclidean_division_equations; lia).
  set (n := if n0 <? 4 then 4 else n0).
  assert (4 <= n < 2 ^ 32) by (unfold n; destruct (Z.ltb_spec n0 4); lia).
  destruct (round_down_ge4 n) as (k' & Hk' & -> & _); [done|]. cbn [mbind res_bind].
  destruct (_ =? _); [by exists h|]. destruct ok; cbn [negb]; [|by exists h].
  destruct Hs as (Hk & Hc & Hl & Hp).
  destruct (move_buckets_spec k' (take (Z.to_nat (bucket_cnt h)) (buckets h)) _
              (empty_shape k' (elem_cnt h) Hk')) as (h' & -> & Hs' & He' & Hperm).
  assert (Hel : elems h' ≡ₚ elems h).
  { rewrite Hperm, Hc, take_ge by lia. unfold elems at 1. cbn [buckets].
    by rewrite join_replicate_nil, app_nil_r. }
  exists h'. split; [done|]. split; [|done]. split; [by exists k'|]. cbn in He'.
  rewrite He'. split_and!; [by rewrite Hel|done|by rewrite Hel|].
  intros x y. rewrite Hel. apply Heq.
Qed.

Lemma insert_elem_wf k h e :
  table_wf h -> shape k h -> (forall x, x ∈ elems h -> equal less x e = false) -> elem_cnt h + 1 < 2 ^ 32 ->
  table_wf (insert_elem h (index_of k e) e) /\
  elems (insert_elem h (index_of k e) e) ≡ₚ e :: elems h.
Proof using HO.
  intros Hwf Hs Hno Hb. pose proof Hwf as (_ & Hcnt & Hlt & HN & Heq).
  destruct (find_bucket_Ok k h e Hs) as [_ Hi].
  assert (Hel : elems (insert_elem h (index_of k e) e) ≡ₚ e :: elems h) by (by apply join_alter_cons).
  assert (Hnin : e ∉ elems h) by (intros Hin; specialize (Hno e Hin); by rewrite equal_refl in Hno).
  split; [|done]. split.
  { exists k. by apply alter_shape. }
  rewrite Hel. cbn [elem_cnt insert_elem]. rewrite u32_small by (unfold is_u32; lia).
  split_and!; [simpl; lia|lia|by constructor|].
  intros x y. rewrite Hel, !elem_of_cons. intros [->|Hx] [->|Hy] Hxy; [done|..|by apply Heq].
  - rewrite equal_sym, Hno in Hxy; done.
  - by rewrite Hno in Hxy.
Qed.

Lemma remove_elem_wf h x :
  table_wf h -> x ∈ elems h -> table_wf (remove_elem h x) /\ x :: elems (remove_elem h x) ≡ₚ elems h.
Proof using EqDecision0.
  intros ((k & Hk & Hc & Hl & Hp) & Hcnt & Hlt & HN & Heq) Hx.
  assert (Hel : elems (remove_elem h x) = filter (fun y => y <> x) (elems h)) by apply join_filter.
  assert (Hperm : x :: elems (remove_elem h x) ≡ₚ elems h)
    by (rewrite Hel; by apply NoDup_remove_perm).
  split; [|done]. split.
  { exists k. split; [done|]. split; [done|]. split; [by cbn; rewrite length_fmap|].
    intros b l e Hb He. cbn in Hb. apply list_lookup_fmap_Some in Hb as (l0 & -> & Hb0).
    apply list_elem_of_filter in He as [_ He]. by eapply Hp. }
  pose proof (Permutation_length Hperm) as Hlen. cbn [length] in Hlen. cbn [elem_cnt remove_elem].
  rewrite u32_small by (unfold is_u32; lia). split_and!; [lia|lia| |].
  - rewrite Hel. by apply NoDup_filter.
  - intros y z. rewrite Hel, !list_elem_of_filter. intros [_ Hy] [_ Hz]. by apply Heq.
Qed.

(** ** The contract: a set of elements with no two equal members *)

Inductive hash_op := HInsert (e : A) | HReplace (e : A) | HFind (e : A) | HDelete (e : A).

(** The code of each operation. *)
Definition hash_exec (malloc_ok : bool) (h : table A) (op : hash_op) : res (option A * table A) :=
  match op with
  | HInsert e => hash_insert hash less malloc_ok h e
  | HReplace e => hash_replace hash less malloc_ok h e
  | HFind e => r ← hash_find hash less h e; mret (r, h)
  | HDelete e => hash_delete hash less malloc_ok h e
  end.

(** The result of a search in the set [S]. *)
Definition finds (S : list A) (e : A) (r : option A) : Prop :=
  match r with
  | Some x => x ∈ S /\ equal less x e = true
  | None => forall x, x ∈ S -> equal less x e = false
  end.

(** What the comments of hash.c promise: the returned element and the set
    after the operation, as a list up to order. *)
Inductive hash_spec (S : list A) : hash_op -> option A -> list A -> Prop :=
  | SpecInsertNew e S' : finds S e None -> S' ≡ₚ e :: S -> hash_spec S (HInsert e) None S'
  | SpecInsertOld e x S' : finds S e (Some x) -> S' ≡ₚ S -> hash_spec S (HInsert e) (Some x) S'
  | SpecReplaceNew e S' : finds S e None -> S' ≡ₚ e :: S -> hash_spec S (HReplace e) None S'
  | SpecReplaceOld e x S0 S' : finds S e (Some x) -> S ≡ₚ x :: S0 -> S' ≡ₚ e :: S0 ->
      hash_spec S (HReplace e) (Some x) S'
  | SpecFind e r S' : finds S e r -> S' ≡ₚ S -> hash_spec S (HFind e) r S'
  | SpecDeleteNone e S' : finds S e None -> S' ≡ₚ S -> hash_spec S (HDelete e) None S'
  | SpecDeleteSome e x S' : finds S e (Some x) -> S ≡ₚ x :: S' -> hash_spec S (HDelete e) (Some x) S'.

Lemma hash_insert_spec ok h e :
  table_wf h -> elem_cnt h + 1 < 2 ^ 32 ->
  exists r h', hash_insert hash less ok h e = Ok (r, h') /\ table_wf h' /\
    hash_spec (elems h) (HInsert e) r (elems h').
Proof using HO.
  intros Hwf Hb. pose proof Hwf as ((k & Hs) & _). unfold hash_insert.
  destruct (find_bucket_Ok k h e Hs) as [-> _]. cbn [mbind res_bind]. cbv zeta.
  pose proof (find_elem_spec k h e Hs) as Hf.
  destruct (find_elem less h (index_of k e) e) as [x|].
  - destruct (rehash_spec ok h Hwf) as (h' & -> & Hwf' & Hp). cbn [mbind res_bind].
    exists (Some x), h'. split_and!; [done|done|]. by apply SpecInsertOld.
  - destruct (insert_elem_wf k h e Hwf Hs Hf Hb) as [Hwf1 Hp1].
    destruct (rehash_spec ok _ Hwf1) as (h' & -> & Hwf' & Hp). cbn [mbind res_bind].
    exists None, h'. split_and!; [done|done|]. apply SpecInsertNew; [done|]. by rewrite Hp.
Qed.

Lemma hash_replace_spec ok h e :
  table_wf h -> elem_cnt h + 1 < 2 ^ 32 ->
  exists r h', hash_replace hash less ok h e = Ok (r, h') /\ table_wf h' /\
    hash_spec (elems h) (HReplace e) r (elems h').
Proof using HO.
  intros Hwf Hb. pose proof Hwf as ((k & Hs) & _ & _ & _ & Heq). unfold hash_replace.
  destruct (find_bucket_Ok k h e Hs) as [-> _]. cbn [mbind res_bind]. cbv zeta.
  pose proof (find_elem_spec k h e Hs) as Hf.
  destruct (find_elem less h (index_of k e) e) as [x|].
  - destruct Hf as [Hx Hxe]. destruct (remove_elem_wf h x Hwf Hx) as [Hwf0 Hp0].
    assert (Hs0 : shape k (remove_elem h x)).
    { destruct Hs as (Hk & Hc & Hl & Hpl). split; [done|]. split; [done|].
      split; [by cbn; rewrite length_fmap|]. intros b l y Hb' Hy. cbn in Hb'.
      apply list_lookup_fmap_Some in Hb' as (l0 & -> & Hb0).
      apply list_elem_of_filter in Hy as [_ Hy]. by eapply Hpl. }
    assert (Hno : forall y, y ∈ elems (remove_elem h x) -> equal less y e = false).
    { intros y Hy. destruct (equal less y e) eqn:Hye; [|done]. exfalso.
      assert (y ∈ elems h) as Hyh by (rewrite <- Hp0; by right).
      assert (y = x) as ->.
      { apply Heq; [done|done|]. eapply equal_trans; [done|]. by rewrite equal_sym. }
      assert (NoDup (x :: elems (remove_elem h x))) as HN by (rewrite Hp0; apply Hwf).
      by apply NoDup_cons in HN as [? _]. }
    assert (Hcnt : elem_cnt (remove_elem h x) + 1 < 2 ^ 32).
    { destruct Hwf0 as (_ & -> & _). destruct Hwf as (_ & Hc & _).
      apply Permutation_length in Hp0. cbn [length] in Hp0. lia. }
    destruct (insert_elem_wf k _ e Hwf0 Hs0 Hno Hcnt) as [Hwf1 Hp1].
    destruct (rehash_spec ok _ Hwf1) as (h' & -> & Hwf' & Hp). cbn [mbind res_bind].
    exists (Some x), h'. split_and!; [done|done|].
    apply (SpecReplaceOld _ e x (elems (remove_elem h x))); [done|by rewrite Hp0|by rewrite Hp].
  - destruct (insert_elem_wf k h e Hwf Hs Hf Hb) as [Hwf1 Hp1].
    destruct (rehash_spec ok _ Hwf1) as (h' & -> & Hwf' & Hp). cbn [mbind res_bind].
    exists None, h'. split_and!; [done|done|]. apply SpecReplaceNew; [done|]. by rewrite Hp.
Qed.

Lemma hash_delete_spec ok h e :
  table_wf h ->
  exists r h', hash_delete hash less ok h e = Ok (r, h') /\ table_wf h' /\
    hash_spec (elems h) (HDelete e) r (elems h').
Proof using HO.
  intros Hwf. pose proof Hwf as ((k & Hs) & _). unfold hash_delete.
  destruct (find_bucket_Ok k h e Hs) as [-> _]. cbn [mbind res_bind].
  pose proof (find_elem_spec k h e Hs) as Hf.
  destruct (find_elem less h (index_of k e) e) as [x|].
  - destruct (remove_elem_wf h x Hwf (proj1 Hf)) as [Hwf1 Hp1].
    destruct (rehash_spec ok _ Hwf1) as (h' & -> & Hwf' & Hp). cbn [mbind res_bind].
    exists (Some x), h'. split_and!; [done|done|]. apply SpecDeleteSome; [done|]. by rewrite Hp.
  - exists None, h. split_and!; [done|done|]. by apply SpecDeleteNone.
Qed.

Lemma hash_find_spec h e :
  table_wf h -> exists r, hash_find hash less h e = Ok r /\ finds (elems h) e r.
Proof using HO.
  intros ((k & Hs) & _). unfold hash_find.
  destruct (find_bucket_Ok k h e Hs) as [-> _]. cbn [mbind res_bind].
  eexists. split; [done|]. pose proof (find_elem_spec k h e Hs) as Hf.
  by destruct (find_elem less h (index_of k e) e).
Qed.

(** ** Iteration *)

(** What is left of the table from position [pos] of bucket [b] on. *)
Definition remaining (h : table A) (b pos : nat) : list A :=
  drop (pos - 1) (bucket_at h b) ++ mjoin (drop (S b) (buckets h)).

Lemma bucket_at_lookup (h : table A) b :
  (b < length (buckets h))%nat -> buckets h !! b = Some (bucket_at h b).
Proof. intros Hb. unfold bucket_at. by destruct (lookup_lt_is_Some_2 _ _ Hb) as [l ->]. Qed.

Lemma hash_next_loop_spec n : forall h b pos,
  (b + S n = length (buckets h))%nat -> (1 <= pos <= S (length (bucket_at h b)))%nat ->
  let i := hash_next_loop n h b pos in
  match remaining h b pos with
  | [] => i_cur i = None
  | x :: rest => i_cur i = Some x /\ (i_bucket i < length (buckets h))%nat /\
      (1 <= i_pos i <= length (bucket_at h (i_bucket i)))%nat /\
      remaining h (i_bucket i) (S (i_pos i)) = rest
  end.
Proof.
  induction n as [|n IH]; intros h b pos Hb Hpos; unfold remaining; cbn [hash_next_loop].
  all: destruct (decide (pos = S (length (bucket_at h b)))) as [->|Hne].
  - rewrite drop_ge, drop_ge by lia. done.
  - destruct (bucket_at h b !! (pos - 1)%nat) as [x|] eqn:E; [|apply lookup_ge_None in E; lia].
    rewrite (drop_S _ _ _ E). cbn. split_and!; [done|lia|lia|lia|].
    by replace (pos - 0)%nat with (S (pos - 1)) by lia.
  - rewrite (drop_ge (bucket_at h b)) by lia. cbn [app].
    specialize (IH h (S b) 1%nat ltac:(lia) ltac:(lia)). unfold remaining in IH.
    rewrite (drop_S _ _ _ (bucket_at_lookup h (S b) ltac:(lia))), mjoin_cons. apply IH.
  - destruct (bucket_at h b !! (pos - 1)%nat) as [x|] eqn:E; [|apply lookup_ge_None in E; lia].
    rewrite (drop_S _ _ _ E). cbn. split_and!; [done|lia|lia|lia|].
    by replace (pos - 0)%nat with (S (pos - 1)) by lia.
Qed.

(** The idiom of the comment of hash_first: [while (hash_next (&i)) ...]. *)
Fixpoint iterate (fuel : nat) (h : table A) (i : hash_iterator (A := A)) : res (list A) :=
  match fuel with
  | O => Err EFuel
  | S fuel' =>
      let i := hash_next h i in
      match hash_cur i with
      | None => mret []
      | Some x => l ← iterate fuel' h i; mret (x :: l)
      end
  end.

Lemma iterate_spec k h fuel : forall i,
  shape k h -> (i_bucket i < length (buckets h))%nat ->
  (i_pos i <= length (bucket_at h (i_bucket i)))%nat ->
  (length (remaining h (i_bucket i) (S (i_pos i))) < fuel)%nat ->
  iterate fuel h i = Ok (remaining h (i_bucket i) (S (i_pos i))).
Proof.
  induction fuel as [|fuel IH]; intros i Hs Hb Hp Hf; [lia|]. cbn [iterate].
  pose proof Hs as (_ & Hc & Hl & _).
  pose proof (hash_next_loop_spec (length (buckets h) - 1 - i_bucket i) h (i_bucket i) (S (i_pos i))
    ltac:(lia) ltac:(lia)) as Hn. cbv zeta in Hn. unfold hash_next, hash_cur. rewrite Hc, <- Hl.
  destruct (remaining h (i_bucket i) (S (i_pos i))) as [|x rest]; [by rewrite Hn|].
  destruct Hn as (-> & Hb' & Hp' & Hr). cbn [length] in Hf.
  rewrite IH; [|done|done|lia|rewrite Hr; lia]. cbn [mbind res_bind]. by rewrite Hr.
Qed.

End Correct.

(** ** Properties *)

(** C16. Every operation of the table returns and implements its contract: it
    finds an equal element exactly when the set has one, and inserts, replaces
    or deletes exactly as documented, keeping the invariant, whether or not the
    allocation in rehash succeeds. *)
Theorem hash_refines {A} `{EqDecision A} (hash : A -> Z) (less : A -> A -> bool)
    (malloc_ok : bool) (h : table A) (op : hash_op) :
  HashOrder hash less -> table_wf hash less h -> elem_cnt h + 1 < 2 ^ 32 ->
  exists r h', hash_exec hash less malloc_ok h op = Ok (r, h') /\
    table_wf hash less h' /\ hash_spec less (elems h) op r (elems h').
Proof.
  intros HO Hwf Hb. destruct op as [e|e|e|e]; cbn [hash_exec].
  - by apply hash_insert_spec.
  - by apply hash_replace_spec.
  - destruct (hash_find_spec hash less h e Hwf) as (r & -> & Hf). cbn [mbind res_bind].
    exists r, h. split_and!; [done|done|]. by apply SpecFind.
  - by apply hash_delete_spec.
Qed.

(** Iterating with hash_first and hash_next visits every element of the
    table exactly once and ends. *)
Theorem hash_iteration_complete {A} `{EqDecision A} (hash : A -> Z) (less : A -> A -> bool) (h : table A) :
  table_wf hash less h -> iterate (S (length (elems h))) h (hash_first h) = Ok (elems h).
Proof.
  intros ((k & Hs) & _). pose proof Hs as (Hk & Hc & Hl & _).
  assert (0 < 2 ^ k) by lia. assert (Hl0 : (0 < length (buckets h))%nat) by lia.
  assert (Hr : remaining h 0 1 = elems h).
  { unfold remaining, elems. rewrite <- (drop_0 (buckets h)) at 2.
    by rewrite (drop_S _ _ _ (bucket_at_lookup h 0 Hl0)). }
  pose proof (iterate_spec hash k h (S (length (elems h))) (hash_first h) Hs) as E.
  change (i_bucket (hash_first h)) with 0%nat in E. change (i_pos (hash_first h)) with 0%nat in E.
  rewrite Hr in E. apply E; lia.
Qed.

(** ** A concrete table: integers, hashed by hash_int *)

Definition int_hash (x : Z) : Z := match hash_int x with Ok v => v | Err _ => 0 end.

Definition sample_table : table Z := (hash_init true).2.

Lemma fnv_range buf : forall h, Forall is_u8 buf -> is_u32 h -> is_u32 (fnv buf h).
Proof.
  induction buf as [|b buf IH]; intros h Hb Hh; [done|]. inversion Hb as [|? ? Hb0 Hb']; subst.
  cbn [fnv fold_left]. apply IH; [done|]. pose proof (u32_range (h * FNV_32_PRIME)) as Hu.
  unfold is_u32, is_u8 in *. set (y := u32 (h * FNV_32_PRIME)) in *.
  assert (0 <= Z.lxor y b) by (apply Z.lxor_nonneg; lia). split; [done|].
  destruct (Z.eq_dec (Z.lxor y b) 0) as [->|]; [lia|]. apply Z.log2_lt_pow2; [lia|].
  eapply Z.le_lt_trans; [apply Z.log2_lxor; lia|].
  assert (Z.log2 y < 32) by (destruct (Z.eq_dec y 0) as [->|]; [done|apply Z.log2_lt_pow2; lia]).
  assert (Z.log2 b < 32) by (destruct (Z.eq_dec b 0) as [->|]; [done|apply Z.log2_lt_pow2; lia]).
  lia.
Qed.

#[local] Instance int_hash_order : HashOrder int_hash Z.ltb.
Proof.
  assert (Heq : forall x y, equal Z.ltb x y = true -> x = y).
  { intros x y H. unfold equal in H. zbool. lia. }
  split.
  - intros x. unfold int_hash, hash_int, hash_bytes. cbn [length int_bytes map Z.leb].
    apply fnv_range; [|done]. unfold int_bytes, is_u8.
    repeat (constructor; [change 255 with (Z.ones 8); rewrite Z.land_ones by lia;
      apply Z.mod_pos_bound; lia|]). constructor.
  - intros x. unfold equal. by rewrite Z.ltb_irrefl.
  - intros x y z Hxy Hyz. by rewrite (Heq _ _ Hxy).
  - intros x y Hxy. by rewrite (Heq _ _ Hxy).
Qed.

Lemma sample_table_wf : table_wf int_hash Z.ltb sample_table.
Proof.
  split; [|split_and!; try done; [constructor|]].
  - exists 2. split_and!; try done. intros b l e Hb He.
    destruct b as [|[|[|[|b]]]]; simpl in Hb; simplify_eq; by apply elem_of_nil in He.
  - intros x y Hx. by apply elem_of_nil in Hx.
Qed.

Lemma hash_refines_witness :
  exists r h', hash_exec int_hash Z.ltb true sample_table (HInsert 42) = Ok (r, h') /\
    table_wf int_hash Z.ltb h' /\ hash_spec Z.ltb (elems sample_table) (HInsert 42) r (elems h').
Proof.
  apply (hash_refines int_hash Z.ltb true sample_table (HInsert 42)).
  - apply int_hash_order.
  - apply sample_table_wf.
  - reflexivity.
Defined.

Lemma hash_iteration_complete_witness : iterate 1 sample_table (hash_first sample_table) = Ok [].
Proof. exact (hash_iteration_complete int_hash Z.ltb sample_table sample_table_wf). Defined.
