(* ===== verification/Inode.v ===== *)
(** Inodes and files: filesys/inode.c (reading, writing, the table of open
    inodes) and the positional operations of filesys/file.c.

    The state [fs] holds the file-scope variables and the heap objects of the
    file system: the sectors of the device (each a list of 512 bytes), the
    [struct inode]s and [struct file]s by address, the list of open inodes,
    and the free map.  An access through a NULL or freed pointer is [EFault].
    The outcomes of the next calls of malloc are the list [mallocs]; once it
    is used up, allocation succeeds.  The device is an array of sectors
    that keeps what is written to it: FsDevice.v proves that this is what the
    block layer makes of the file system's device, which is not a foreign one.

    [inode_read_at] and [inode_write_at] are related to the flat contents of
    the device: a read returns the bytes of one contiguous range, a write
    replaces one. *)

From stdpp Require Import base list numbers gmap.
From Stdlib Require Import ZArith Lia.
From S2P Require Import Prelude Bitmap.

Definition BLOCK_SECTOR_SIZE : Z := 512.
Definition INODE_MAGIC : Z := 0x494e4f44.

(** ** Data *)

Record inode_disk := MkInodeDisk { start : Z; length_ : Z; magic : Z }.

Record inode := MkInode {
  sector : Z;
  open_cnt : Z;
  removed : bool;
  deny_write_cnt : Z;
  data : inode_disk
}.

Record file := MkFile { f_inode : Z; f_pos : Z; f_deny_write : bool }.

Record fs := MkFs {
  dev : list (list Z);
  inodes : gmap Z inode;
  open_inodes : list Z;
  files : gmap Z file;
  next_addr : Z;
  free_map : bitmap;
  free_map_file : Z;
  mallocs : list bool
}.

Definition with_dev (s : fs) (d : list (list Z)) : fs :=
  MkFs d (inodes s) (open_inodes s) (files s) (next_addr s) (free_map s) (free_map_file s) (mallocs s).
Definition with_inodes (s : fs) (i : gmap Z inode) : fs :=
  MkFs (dev s) i (open_inodes s) (files s) (next_addr s) (free_map s) (free_map_file s) (mallocs s).
Definition with_open (s : fs) (o : list Z) : fs :=
  MkFs (dev s) (inodes s) o (files s) (next_addr s) (free_map s) (free_map_file s) (mallocs s).
Definition with_files (s : fs) (f : gmap Z file) : fs :=
  MkFs (dev s) (inodes s) (open_inodes s) f (next_addr s) (free_map s) (free_map_file s) (mallocs s).
Definition with_next (s : fs) (a : Z) : fs :=
  MkFs (dev s) (inodes s) (open_inodes s) (files s) a (free_map s) (free_map_file s) (mallocs s).
Definition with_free_map (s : fs) (b : bitmap) : fs :=
  MkFs (dev s) (inodes s) (open_inodes s) (files s) (next_addr s) b (free_map_file s) (mallocs s).
Definition with_free_map_file (s : fs) (f : Z) : fs :=
  MkFs (dev s) (inodes s) (open_inodes s) (files s) (next_addr s) (free_map s) f (mallocs s).
Definition with_mallocs (s : fs) (m : list bool) : fs :=
  MkFs (dev s) (inodes s) (open_inodes s) (files s) (next_addr s) (free_map s) (free_map_file s) m.

(** Does the next allocation succeed? *)
Definition malloc : stM fs bool := fun s =>
  match mallocs s with
  | [] => Ok (true, s)
  | b :: m => Ok (b, with_mallocs s m)
  end.

Definition fresh : stM fs Z := fun s => Ok (next_addr s, with_next s (next_addr s + 1)).

Definition get_inode (i : Z) : stM fs inode := fun s =>
  match inodes s !! i with Some x => Ok (x, s) | None => Err EFault end.
Definition set_inode (i : Z) (x : inode) : stM fs unit :=
  modify (fun s => with_inodes s (<[i := x]> (inodes s))).

Definition get_file (f : Z) : stM fs file := fun s =>
  match files s !! f with Some x => Ok (x, s) | None => Err EFault end.
Definition set_file (f : Z) (x : file) : stM fs unit :=
  modify (fun s => with_files s (<[f := x]> (files s))).

(** ** The sectors of the file system's device

    [block_read] and [block_write] of devices/block.c as the file system sees
    them; see Block.v for the functions and FsDevice.v for the relation. *)

Definition block_size (s : fs) : Z := Z.of_nat (length (dev s)).

Definition block_read (sec : Z) : stM fs (list Z) := fun s =>
  if block_size s <=? sec then Err EPanic
  else match dev s !! Z.to_nat sec with Some b => Ok (b, s) | None => Err EPanic end.

Definition block_write (sec : Z) (buffer : list Z) : stM fs unit := fun s =>
  if block_size s <=? sec then Err EPanic
  else Ok (tt, with_dev s (<[Z.to_nat sec := buffer]> (dev s))).

(** ** The layout of an inode *)

Definition bytes_to_sectors (size : Z) : Z :=
  u32 (Z.quot (s32 (size + BLOCK_SECTOR_SIZE - 1)) BLOCK_SECTOR_SIZE).

Definition byte_to_sector (i : inode) (pos : Z) : Z :=
  if pos <? length_ (data i) then u32 (start (data i) + Z.quot pos BLOCK_SECTOR_SIZE)
  else u32 (-1).

Definition inode_length (i : inode) : Z := length_ (data i).

(** ** Reading and writing *)

(** [bounce] says whether the bounce buffer is allocated; [acc] is the part of
    BUFFER filled so far.  Every iteration moves at least one byte. *)
Fixpoint inode_read_loop (fuel : nat) (i : inode) (size offset : Z) (bounce : bool) (acc : list Z)
    : stM fs (list Z) :=
  match fuel with
  | O => raise EFuel
  | S fuel' =>
      if 0 <? size then
        let sector_idx := byte_to_sector i offset in
        let sector_ofs := Z.rem offset BLOCK_SECTOR_SIZE in
        let inode_left := s32 (inode_length i - offset) in
        let sector_left := BLOCK_SECTOR_SIZE - sector_ofs in
        let min_left := if inode_left <? sector_left then inode_left else sector_left in
        let chunk_size := if size <? min_left then size else min_left in
        if chunk_size <=? 0 then mret acc
        else if (sector_ofs =? 0) && (chunk_size =? BLOCK_SECTOR_SIZE) then
          b ← block_read sector_idx;
          inode_read_loop fuel' i (size - chunk_size) (offset + chunk_size) bounce (acc ++ b)
        else
          ok ← (if bounce then mret true else malloc);
          if negb ok then mret acc
          else
            b ← block_read sector_idx;
            inode_read_loop fuel' i (size - chunk_size) (offset + chunk_size) true
              (acc ++ take (Z.to_nat chunk_size) (drop (Z.to_nat sector_ofs) b))
      else mret acc
  end.

(** Returns the bytes read; their number is the result of the C function. *)
Definition inode_read_at (ip : Z) (size offset : Z) : stM fs (list Z) :=
  i ← get_inode ip;
  inode_read_loop (S (Z.to_nat size)) i size offset false [].

(** [chunk_size] bytes of the caller's buffer, which must be there. *)
Definition buffer_chunk (buffer : list Z) (ofs chunk_size : Z) : stM fs (list Z) :=
  if ofs + chunk_size <=? Z.of_nat (length buffer)
  then mret (take (Z.to_nat chunk_size) (drop (Z.to_nat ofs) buffer)) else raise EFault.

Fixpoint inode_write_loop (fuel : nat) (i : inode) (buffer : list Z) (size offset : Z) (bounce : bool)
    (bytes_written : Z) : stM fs Z :=
  match fuel with
  | O => raise EFuel
  | S fuel' =>
      if 0 <? size then
        let sector_idx := byte_to_sector i offset in
        let sector_ofs := Z.rem offset BLOCK_SECTOR_SIZE in
        let inode_left := s32 (inode_length i - offset) in
        let sector_left := BLOCK_SECTOR_SIZE - sector_ofs in
        let min_left := if inode_left <? sector_left then inode_left else sector_left in
        let chunk_size := if size <? min_left then size else min_left in
        if chunk_size <=? 0 then mret bytes_written
        else if (sector_ofs =? 0) && (chunk_size =? BLOCK_SECTOR_SIZE) then
          c ← buffer_chunk buffer bytes_written chunk_size;
          block_write sector_idx c;;
          inode_write_loop fuel' i buffer (size - chunk_size) (offset + chunk_size) bounce
            (bytes_written + chunk_size)
        else
          ok ← (if bounce then mret true else malloc);
          if negb ok then mret bytes_written
          else
            b ← (if (0 <? sector_ofs) || (chunk_size <? sector_left)
                 then block_read sector_idx else mret (replicate 512 0));
            c ← buffer_chunk buffer bytes_written chunk_size;
            block_write sector_idx (list_inserts (Z.to_nat sector_ofs) c b);;
            inode_write_loop fuel' i buffer (size - chunk_size) (offset + chunk_size) true
              (bytes_written + chunk_size)
      else mret bytes_written
  end.

Definition inode_write_at (ip : Z) (buffer : list Z) (size offset : Z) : stM fs Z :=
  i ← get_inode ip;
  if negb (deny_write_cnt i =? 0) then mret 0
  else inode_write_loop (S (Z.to_nat size)) i buffer size offset false 0.

(** ** The table of open inodes *)

Definition inode_init : stM fs unit := modify (fun s => with_open s []).

(** The on-disk representation: 512 bytes, little-endian words. *)
Definition le_bytes (w : Z) : list Z := map (fun k => Z.land (Z.shiftr w (8 * k)) 255) [0; 1; 2; 3].
Definition le_word (b : list Z) : Z := foldr (fun x acc => x + 256 * acc) 0 b.

Definition inode_disk_bytes (d : inode_disk) : list Z :=
  le_bytes (start d) ++ le_bytes (u32 (length_ d)) ++ le_bytes (magic d) ++ replicate 500 0.

Definition inode_disk_of (b : list Z) : inode_disk :=
  MkInodeDisk (le_word (take 4 b)) (s32 (le_word (take 4 (drop 4 b)))) (le_word (take 4 (drop 8 b))).

Definition inode_reopen (ip : Z) : stM fs Z :=
  if negb (ip =? 0) then
    i ← get_inode ip;
    set_inode ip (MkInode (sector i) (open_cnt i + 1) (removed i) (deny_write_cnt i) (data i));;
    mret ip
  else mret ip.

Definition inode_get_inumber (ip : Z) : stM fs Z := i ← get_inode ip; mret (sector i).

(** The search of the list of open inodes. *)
Fixpoint find_open (l : list Z) (sec : Z) : stM fs (option Z) :=
  match l with
  | [] => mret None
  | ip :: l' => i ← get_inode ip; if sector i =? sec then mret (Some ip) else find_open l' sec
  end.

Definition inode_open (sec : Z) : stM fs Z :=
  s ← get;
  o ← find_open (open_inodes s) sec;
  match o with
  | Some ip => inode_reopen ip
  | None =>
      ok ← malloc;
      if negb ok then mret 0
      else
        ip ← fresh;
        modify (fun s => with_open s (ip :: open_inodes s));;
        b ← block_read sec;
        set_inode ip (MkInode sec 1 false 0 (inode_disk_of b));;
        mret ip
  end.

Definition inode_remove (ip : Z) : stM fs unit :=
  assertM (negb (ip =? 0));;
  i ← get_inode ip;
  set_inode ip (MkInode (sector i) (open_cnt i) true (deny_write_cnt i) (data i)).

Definition inode_deny_write (ip : Z) : stM fs unit :=
  i ← get_inode ip;
  set_inode ip (MkInode (sector i) (open_cnt i) (removed i) (deny_write_cnt i + 1) (data i));;
  assertM (deny_write_cnt i + 1 <=? open_cnt i).

Definition inode_allow_write (ip : Z) : stM fs unit :=
  i ← get_inode ip;
  assertM (0 <? deny_write_cnt i);;
  assertM (deny_write_cnt i <=? open_cnt i);;
  set_inode ip (MkInode (sector i) (open_cnt i) (removed i) (deny_write_cnt i - 1) (data i)).

(** ** Files: the operations that only use the inode's contents *)

Definition file_get_inode (fp : Z) : stM fs Z := f ← get_file fp; mret (f_inode f).

Definition file_read (fp : Z) (size : Z) : stM fs (list Z) :=
  f ← get_file fp;
  bs ← inode_read_at (f_inode f) size (f_pos f);
  set_file fp (MkFile (f_inode f) (s32 (f_pos f + Z.of_nat (length bs))) (f_deny_write f));;
  mret bs.

Definition file_read_at (fp : Z) (size file_ofs : Z) : stM fs (list Z) :=
  f ← get_file fp; inode_read_at (f_inode f) size file_ofs.

Definition file_write (fp : Z) (buffer : list Z) (size : Z) : stM fs Z :=
  f ← get_file fp;
  n ← inode_write_at (f_inode f) buffer size (f_pos f);
  set_file fp (MkFile (f_inode f) (s32 (f_pos f + n)) (f_deny_write f));;
  mret n.

Definition file_write_at (fp : Z) (buffer : list Z) (size file_ofs : Z) : stM fs Z :=
  f ← get_file fp; inode_write_at (f_inode f) buffer size file_ofs.

Definition file_deny_write (fp : Z) : stM fs unit :=
  assertM (negb (fp =? 0));;
  f ← get_file fp;
  if negb (f_deny_write f) then
    set_file fp (MkFile (f_inode f) (f_pos f) true);; inode_deny_write (f_inode f)
  else mret tt.

Definition file_allow_write (fp : Z) : stM fs unit :=
  assertM (negb (fp =? 0));;
  f ← get_file fp;
  if f_deny_write f then
    set_file fp (MkFile (f_inode f) (f_pos f) false);; inode_allow_write (f_inode f)
  else mret tt.

Definition file_length (fp : Z) : stM fs Z :=
  assertM (negb (fp =? 0));; f ← get_file fp; i ← get_inode (f_inode f); mret (inode_length i).

Definition file_seek (fp new_pos : Z) : stM fs unit :=
  assertM (negb (fp =? 0));;
  assertM (0 <=? new_pos);;
  f ← get_file fp;
  set_file fp (MkFile (f_inode f) new_pos (f_deny_write f)).

Definition file_tell (fp : Z) : stM fs Z :=
  assertM (negb (fp =? 0));; f ← get_file fp; mret (f_pos f).

(** ** Specification vocabulary *)

(** The contents of the device, flat. *)
Definition disk (s : fs) : list Z := mjoin (dev s).

Definition dev_wf (s : fs) : Prop :=
  Forall (fun b => length b = 512%nat) (dev s) /\ Z.of_nat (length (dev s)) < 2 ^ 32.

(** The data of the inode lies on the device. *)
Definition inode_ok (s : fs) (i : inode) : Prop :=
  dev_wf s /\ 0 <= start (data i) /\ is_s32 (length_ (data i)) /\ 0 <= length_ (data i) /\
  start (data i) * 512 + length_ (data i) <= Z.of_nat (length (dev s)) * 512.

Definition base (i : inode) : nat := (Z.to_nat (start (data i)) * 512)%nat.

(** How many of SIZE bytes from OFFSET on lie within the inode. *)
Definition avail (i : inode) (size offset : Z) : nat :=
  Z.to_nat (Z.min size (length_ (data i) - offset)).

(** Is every allocation to come a success? *)
Definition mallocs_ok (s : fs) : Prop := Forall (fun b => b = true) (mallocs s).

Definition chunk (i : inode) (size offset : Z) : Z :=
  let inode_left := s32 (inode_length i - offset) in
  let sector_left := BLOCK_SECTOR_SIZE - Z.rem offset BLOCK_SECTOR_SIZE in
  let min_left := if inode_left <? sector_left then inode_left else sector_left in
  if size <? min_left then size else min_left.

(** ** Lemmas on chunks *)

Lemma chunk_none s i size offset :
  inode_ok s i -> 0 < size -> is_s32 offset -> length_ (data i) <= offset -> chunk i size offset <= 0.
Proof.
  intros (_ & _ & Hl & Hl0 & _) Hs Ho Hle. unfold is_s32 in *. unfold chunk, inode_length.
  rewrite s32_small by (unfold is_s32; lia).
  pose proof (Z.rem_bound_pos offset BLOCK_SECTOR_SIZE ltac:(lia) ltac:(done)) as Hr.
  change BLOCK_SECTOR_SIZE with 512 in *. set (so := Z.rem offset 512) in *.
  destruct (Z.ltb_spec (length_ (data i) - offset) (512 - so)); [|lia].
  destruct (Z.ltb_spec size (length_ (data i) - offset)); lia.
Qed.

Lemma chunk_some s i size offset :
  inode_ok s i -> 0 < size -> 0 <= offset < length_ (data i) ->
  let c := chunk i size offset in
  let so := Z.rem offset BLOCK_SECTOR_SIZE in
  let k := Z.to_nat (byte_to_sector i offset) in
  0 < c <= size /\ c <= 512 - so /\ c <= length_ (data i) - offset /\ 0 <= so < 512 /\
  0 <= byte_to_sector i offset < Z.of_nat (length (dev s)) /\
  (k * 512 + Z.to_nat so = base i + Z.to_nat offset)%nat.
Proof.
  intros ((Hd & Hd32) & Hst & Hl & Hl0 & Hin) Hs Ho. cbv zeta. unfold is_s32 in *.
  unfold chunk, inode_length, byte_to_sector, base.
  rewrite s32_small by (unfold is_s32; lia).
  pose proof (Z.rem_bound_pos offset BLOCK_SECTOR_SIZE ltac:(lia) ltac:(done)) as Hr.
  pose proof (Z.quot_rem' offset BLOCK_SECTOR_SIZE) as Hq.
  pose proof (Z.quot_pos offset BLOCK_SECTOR_SIZE ltac:(lia) ltac:(done)) as Hq0.
  change BLOCK_SECTOR_SIZE with 512 in *. rewrite (proj2 (Z.ltb_lt offset _)) by lia.
  set (so := Z.rem offset 512) in *. set (q := Z.quot offset 512) in *.
  rewrite u32_small by (unfold is_u32; lia).
  destruct (Z.ltb_spec (length_ (data i) - offset) (512 - so)).
  - destruct (Z.ltb_spec size (length_ (data i) - offset)); lia.
  - destruct (Z.ltb_spec size (512 - so)); lia.
Qed.

Lemma block_read_Ok s sec :
  0 <= sec < Z.of_nat (length (dev s)) ->
  exists b, block_read sec s = Ok (b, s) /\ dev s !! Z.to_nat sec = Some b.
Proof.
  intros H. unfold block_read, block_size. rewrite (proj2 (Z.leb_gt _ _)) by lia.
  destruct (lookup_lt_is_Some_2 (dev s) (Z.to_nat sec)) as [b Hb]; [lia|].
  exists b. by rewrite Hb.
Qed.

Lemma block_write_Ok s sec b :
  0 <= sec < Z.of_nat (length (dev s)) ->
  block_write sec b s = Ok (tt, with_dev s (<[Z.to_nat sec := b]> (dev s))).
Proof. intros H. unfold block_write, block_size. by rewrite (proj2 (Z.leb_gt _ _)) by lia. Qed.

Lemma malloc_Ok s :
  exists ok m, malloc s = Ok (ok, with_mallocs s m) /\ (mallocs_ok s -> ok = true /\ Forall (fun b => b = true) m).
Proof.
  unfold malloc. destruct (mallocs s) as [|b m] eqn:E.
  - exists true, []. split; [|done]. f_equal. f_equal. destruct s; cbn in *. by subst.
  - exists b, m. split; [done|]. unfold mallocs_ok. rewrite E. by intros [? ?]%Forall_cons.
Qed.

(** A part of a sector is a part of the flat disk. *)
Lemma sector_slice s k b o c :
  dev_wf s -> dev s !! k = Some b -> (o + c <= 512)%nat ->
  take c (drop o b) = take c (drop (k * 512 + o) (disk s)).
Proof.
  intros [HF _] Hk Hoc. pose proof (flat_slice 512 (dev s) k b HF Hk) as E. rewrite <- E at 1.
  apply list_eq. intros j. rewrite !lookup_take. case_decide; [|done].
  rewrite !lookup_drop, lookup_take, decide_True by lia. rewrite lookup_drop. f_equal. lia.
Qed.

Lemma length_disk s : dev_wf s -> length (disk s) = (length (dev s) * 512)%nat.
Proof. intros [HF _]. by apply flat_length. Qed.

Lemma take_drop_add {A} (l : list A) p a b :
  take (a + b) (drop p l) = take a (drop p l) ++ take b (drop (p + a) l).
Proof. by rewrite <- take_take_drop, drop_drop. Qed.

(** ** The read loop *)

Lemma inode_read_loop_S fuel i size offset bounce acc :
  0 < size ->
  inode_read_loop (S fuel) i size offset bounce acc =
    let c := chunk i size offset in
    let so := Z.rem offset BLOCK_SECTOR_SIZE in
    if c <=? 0 then mret acc
    else if (so =? 0) && (c =? BLOCK_SECTOR_SIZE) then
      b ← block_read (byte_to_sector i offset);
      inode_read_loop fuel i (size - c) (offset + c) bounce (acc ++ b)
    else
      ok ← (if bounce then mret true else malloc);
      if negb ok then mret acc
      else b ← block_read (byte_to_sector i offset);
           inode_read_loop fuel i (size - c) (offset + c) true
             (acc ++ take (Z.to_nat c) (drop (Z.to_nat so) b)).
Proof. intros H. cbn [inode_read_loop]. by rewrite (proj2 (Z.ltb_lt 0 size) H). Qed.

Lemma bounce_Ok (bounce : bool) s :
  exists ok m, (if bounce then mret true else malloc) s = Ok (ok, with_mallocs s m) /\
    (mallocs_ok s -> ok = true /\ Forall (fun b => b = true) m).
Proof.
  destruct bounce; [|apply malloc_Ok]. exists true, (mallocs s). split; [by destruct s|done].
Qed.

Lemma avail_step s i size offset :
  inode_ok s i -> 0 < size -> 0 <= offset < length_ (data i) ->
  let c := chunk i size offset in
  avail i size offset = (Z.to_nat c + avail i (size - c) (offset + c))%nat.
Proof.
  intros Hok Hs Ho. destruct (chunk_some s i size offset Hok Hs Ho) as (? & ? & ? & ? & _).
  cbv zeta. unfold avail. lia.
Qed.

Lemma inode_ok_mallocs s i m : inode_ok (with_mallocs s m) i <-> inode_ok s i.
Proof. done. Qed.

Lemma with_mallocs_id s : with_mallocs s (mallocs s) = s.
Proof. by destruct s. Qed.

Lemma inode_read_loop_spec fuel : forall i size offset bounce acc s,
  inode_ok s i -> 0 <= offset -> is_s32 offset -> (Z.to_nat size < fuel)%nat ->
  exists n m, inode_read_loop fuel i size offset bounce acc s =
      Ok (acc ++ take n (drop (base i + Z.to_nat offset) (disk s)), with_mallocs s m) /\
    (n <= avail i size offset)%nat /\
    (mallocs_ok s -> n = avail i size offset /\ Forall (fun b => b = true) m).
Proof.
  induction fuel as [|fuel IH]; intros i size offset bounce acc s Hok Ho Ho' Hf; [lia|].
  assert (Hstop : avail i size offset = 0%nat -> exists n m,
    Ok (acc, s) = Ok (acc ++ take n (drop (base i + Z.to_nat offset) (disk s)), with_mallocs s m) /\
    (n <= avail i size offset)%nat /\
    (mallocs_ok s -> n = avail i size offset /\ Forall (fun b => b = true) m)).
  { intros Ha. exists 0%nat, (mallocs s). rewrite take_0, app_nil_r, with_mallocs_id.
    split_and!; [done|lia|]. intros; auto. }
  destruct (Z.lt_ge_cases 0 size) as [Hs|Hs].
  2:{ cbn [inode_read_loop]. rewrite (proj2 (Z.ltb_ge 0 size) Hs).
      apply Hstop. unfold avail. lia. }
  rewrite inode_read_loop_S by done. cbv zeta.
  destruct (Z.lt_ge_cases offset (length_ (data i))) as [Hlt|Hge].
  2:{ rewrite (proj2 (Z.leb_le _ _) (chunk_none s i size offset Hok Hs Ho' Hge)).
      apply Hstop. unfold avail. lia. }
  clear Hstop. pose proof (avail_step s i size offset Hok Hs ltac:(lia)) as Hav.
  destruct (chunk_some s i size offset Hok Hs ltac:(lia)) as (Hc & Hcs & Hcl & Hso & Hsec & Hpos).
  cbv zeta in *. set (c := chunk i size offset) in *. set (so := Z.rem offset BLOCK_SECTOR_SIZE) in *.
  rewrite (proj2 (Z.leb_gt c 0)) by lia.
  assert (Hwf : dev_wf s) by apply Hok.
  assert (Hlim : is_s32 (offset + c)) by (destruct Hok as (_ & _ & Hl & _); unfold is_s32 in *; lia).
  destruct (block_read_Ok s (byte_to_sector i offset) Hsec) as (b & Eb & Hb).
  pose proof (sector_slice s _ b (Z.to_nat so) (Z.to_nat c) Hwf Hb ltac:(lia)) as Hsl.
  rewrite Hpos in Hsl.
  assert (Hcomb : forall n, take (Z.to_nat c) (drop (base i + Z.to_nat offset) (disk s)) ++
      take n (drop (base i + Z.to_nat (offset + c)) (disk s)) =
      take (Z.to_nat c + n) (drop (base i + Z.to_nat offset) (disk s))).
  { intros n. rewrite take_drop_add. do 3 f_equal. lia. }
  destruct ((so =? 0) && (c =? BLOCK_SECTOR_SIZE)) eqn:E.
  - apply andb_true_iff in E as [E1 E2]. apply Z.eqb_eq in E1, E2.
    rewrite (stbind_step _ _ s b s Eb).
    destruct (IH i (size - c) (offset + c) bounce (acc ++ b) s Hok) as (n & m & -> & Hn & Hm); [lia|done|lia|].
    exists (Z.to_nat c + n)%nat, m. split_and!; [|lia|intros Hmo; destruct (Hm Hmo); split; [lia|done]].
    rewrite <- Hcomb, <- Hsl, <- app_assoc. rewrite E1, E2. change (Z.to_nat 0) with 0%nat. rewrite drop_0.
    rewrite (take_ge b); [done|]. destruct Hwf as [HF _]. rewrite Forall_lookup in HF.
    by rewrite (HF _ _ Hb).
  - destruct (bounce_Ok bounce s) as (ok & m & Em & Hmo). rewrite (stbind_step _ _ s ok _ Em).
    destruct ok; cbn [negb].
    + destruct (block_read_Ok (with_mallocs s m) (byte_to_sector i offset) Hsec) as (b' & Eb' & Hb').
      cbn in Hb'. assert (b' = b) as -> by (rewrite Hb in Hb'; by simplify_eq).
      rewrite (stbind_step _ _ _ b _ Eb').
      destruct (IH i (size - c) (offset + c) true (acc ++ take (Z.to_nat c) (drop (Z.to_nat so) b))
        (with_mallocs s m) Hok) as (n & m' & -> & Hn & Hm'); [lia|done|lia|].
      exists (Z.to_nat c + n)%nat, m'. split_and!; [|lia|].
      * change (disk (with_mallocs s m)) with (disk s).
        rewrite <- Hcomb, <- Hsl, <- app_assoc. done.
      * intros Hmok. destruct (Hmo Hmok) as [_ Hm]. destruct (Hm' Hm). split; [lia|done].
    + exists 0%nat, m. rewrite take_0, app_nil_r. split_and!; [done|lia|].
      intros Hmok. by destruct (Hmo Hmok).
Qed.

(** ** The write loop *)

Lemma list_inserts_app_in {A} (c b l : list A) o :
  (o + length c <= length b)%nat -> list_inserts o c (b ++ l) = list_inserts o c b ++ l.
Proof.
  revert o. induction c as [|x c IH]; intros o Ho; [done|]. cbn [list_inserts length] in *.
  rewrite IH by lia. apply insert_app_l. rewrite length_inserts. lia.
Qed.

(** Updating part of a sector updates a range of the flat disk. *)
Lemma sector_update s k b o c :
  dev_wf s -> dev s !! k = Some b -> (o + length c <= 512)%nat ->
  disk (with_dev s (<[k := list_inserts o c b]> (dev s))) = list_inserts (k * 512 + o) c (disk s).
Proof.
  intros [HF _] Hk Hoc. unfold disk. cbn [dev with_dev].
  pose proof (lookup_lt_Some _ _ _ Hk) as Hlt. pose proof HF as HF'. rewrite Forall_lookup in HF'.
  pose proof (HF' _ _ Hk) as Hb.
  rewrite <- (take_drop_middle (dev s) k b Hk) at 2.
  rewrite (insert_take_drop (dev s) k) by done. rewrite !join_app. cbn [mjoin list_join].
  assert (Hlen : length (mjoin (take k (dev s))) = (k * 512)%nat).
  { rewrite (flat_length 512) by (by apply Forall_take). rewrite length_take. f_equal. lia. }
  rewrite <- Hlen, list_inserts_app_r. f_equal. symmetry. apply list_inserts_app_in. lia.
Qed.

Lemma dev_wf_insert s k b :
  dev_wf s -> length b = 512%nat -> dev_wf (with_dev s (<[k := b]> (dev s))).
Proof.
  intros [HF Hl] Hb. split; cbn; [by apply Forall_insert|by rewrite length_insert].
Qed.

Lemma inode_write_loop_S fuel i buffer size offset bounce bw :
  0 < size ->
  inode_write_loop (S fuel) i buffer size offset bounce bw =
    let c := chunk i size offset in
    let so := Z.rem offset BLOCK_SECTOR_SIZE in
    if c <=? 0 then mret bw
    else if (so =? 0) && (c =? BLOCK_SECTOR_SIZE) then
      ch ← buffer_chunk buffer bw c;
      block_write (byte_to_sector i offset) ch;;
      inode_write_loop fuel i buffer (size - c) (offset + c) bounce (bw + c)
    else
      ok ← (if bounce then mret true else malloc);
      if negb ok then mret bw
      else
        b ← (if (0 <? so) || (c <? BLOCK_SECTOR_SIZE - so)
             then block_read (byte_to_sector i offset) else mret (replicate 512 0));
        ch ← buffer_chunk buffer bw c;
        block_write (byte_to_sector i offset) (list_inserts (Z.to_nat so) ch b);;
        inode_write_loop fuel i buffer (size - c) (offset + c) true (bw + c).
Proof. intros H. cbn [inode_write_loop]. by rewrite (proj2 (Z.ltb_lt 0 size) H). Qed.

Lemma buffer_chunk_Ok buffer ofs c s :
  0 <= ofs -> 0 <= c -> ofs + c <= Z.of_nat (length buffer) ->
  buffer_chunk buffer ofs c s = Ok (take (Z.to_nat c) (drop (Z.to_nat ofs) buffer), s).
Proof. intros. unfold buffer_chunk. by rewrite (proj2 (Z.leb_le _ _)) by lia. Qed.

(** What a write leaves of the state. *)
Definition written (s s' : fs) (p : nat) (l : list Z) : Prop :=
  exists m, s' = with_mallocs (with_dev s (dev s')) m /\ dev_wf s' /\
    length (dev s') = length (dev s) /\ disk s' = list_inserts p l (disk s) /\
    (mallocs_ok s -> mallocs_ok s').

Lemma written_refl s p : dev_wf s -> written s s p [].
Proof.
  intros Hwf. exists (mallocs s). split_and!; try done; [by destruct s|apply Hwf..].
Qed.

Lemma written_trans s s1 s2 p l1 l2 :
  written s s1 p l1 -> written s1 s2 (length l1 + p) l2 -> written s s2 p (l1 ++ l2).
Proof.
  intros (m1 & E1 & W1 & L1 & D1 & M1) (m2 & E2 & W2 & L2 & D2 & M2). exists m2.
  split; [|split; [done|split; [by rewrite L2|split; [|auto]]]].
  - rewrite E2 at 1. rewrite E1. done.
  - by rewrite D2, D1, list_inserts_app_l.
Qed.

Lemma written_mallocs s m p :
  dev_wf s -> (mallocs_ok s -> Forall (fun b => b = true) m) -> written s (with_mallocs s m) p [].
Proof. intros Hwf Hm. exists m. split_and!; try done; apply Hwf. Qed.

Lemma inode_ok_written s s' i p l : written s s' p l -> inode_ok s i -> inode_ok s' i.
Proof.
  intros (m & _ & W & L & _) (_ & H). unfold inode_ok. rewrite L. split; [done|exact H].
Qed.

(** One block write of a chunk. *)
Lemma chunk_written s k b o c :
  dev_wf s -> dev s !! k = Some b -> (o + length c <= 512)%nat ->
  written s (with_dev s (<[k := list_inserts o c b]> (dev s))) (k * 512 + o) c.
Proof.
  intros Hwf Hk Hoc. exists (mallocs s).
  assert (length b = 512%nat) by (destruct Hwf as [HF _]; rewrite Forall_lookup in HF; eauto).
  split; [by destruct s|]. split; [apply dev_wf_insert; [done|by rewrite length_inserts]|].
  split; [cbn; by rewrite length_insert|]. split; [by apply sector_update|done].
Qed.

Lemma list_inserts_full {A} (c b : list A) : length c = length b -> list_inserts 0 c b = c.
Proof.
  intros Hl. apply list_eq. intros j. destruct (decide (j < length b)%nat).
  - rewrite list_lookup_inserts by lia. f_equal. lia.
  - rewrite !lookup_ge_None_2; [done|lia|rewrite length_inserts; lia].
Qed.

Lemma inode_write_loop_spec fuel : forall i buffer size offset bounce bw s,
  inode_ok s i -> 0 <= offset -> is_s32 offset -> (Z.to_nat size < fuel)%nat ->
  0 <= bw -> bw + Z.of_nat (avail i size offset) <= Z.of_nat (length buffer) ->
  exists n s', inode_write_loop fuel i buffer size offset bounce bw s = Ok (bw + Z.of_nat n, s') /\
    written s s' (base i + Z.to_nat offset) (take n (drop (Z.to_nat bw) buffer)) /\
    (n <= avail i size offset)%nat /\ (mallocs_ok s -> n = avail i size offset).
Proof.
  induction fuel as [|fuel IH]; intros i buffer size offset bounce bw s Hok Ho Ho' Hf Hbw Hbuf; [lia|].
  assert (Hwf : dev_wf s) by apply Hok.
  assert (Hstop : avail i size offset = 0%nat -> exists n s',
    Ok (bw, s) = Ok (bw + Z.of_nat n, s') /\
    written s s' (base i + Z.to_nat offset) (take n (drop (Z.to_nat bw) buffer)) /\
    (n <= avail i size offset)%nat /\ (mallocs_ok s -> n = avail i size offset)).
  { intros Ha. exists 0%nat, s. rewrite Z.add_0_r, take_0. split_and!; [done| |lia|lia]. by apply written_refl. }
  destruct (Z.lt_ge_cases 0 size) as [Hs|Hs].
  2:{ cbn [inode_write_loop]. rewrite (proj2 (Z.ltb_ge 0 size) Hs). apply Hstop. unfold avail. lia. }
  rewrite inode_write_loop_S by done. cbv zeta.
  destruct (Z.lt_ge_cases offset (length_ (data i))) as [Hlt|Hge].
  2:{ rewrite (proj2 (Z.leb_le _ _) (chunk_none s i size offset Hok Hs Ho' Hge)).
      apply Hstop. unfold avail. lia. }
  clear Hstop. pose proof (avail_step s i size offset Hok Hs ltac:(lia)) as Hav.
  destruct (chunk_some s i size offset Hok Hs ltac:(lia)) as (Hc & Hcs & Hcl & Hso & Hsec & Hpos).
  cbv zeta in *. set (c := chunk i size offset) in *. set (so := Z.rem offset BLOCK_SECTOR_SIZE) in *.
  rewrite (proj2 (Z.leb_gt c 0)) by lia.
  assert (Hlim : is_s32 (offset + c)) by (destruct Hok as (_ & _ & Hl & _); unfold is_s32 in *; lia).
  destruct (block_read_Ok s (byte_to_sector i offset) Hsec) as (b & _ & Hb).
  set (k := Z.to_nat (byte_to_sector i offset)) in *.
  assert (Hb512 : length b = 512%nat) by (destruct Hwf as [HF _]; rewrite Forall_lookup in HF; eauto).
  set (ch := take (Z.to_nat c) (drop (Z.to_nat bw) buffer)).
  assert (Hch : length ch = Z.to_nat c) by (unfold ch; rewrite length_take, length_drop; lia).
  (* the rest of the loop, from the state after this chunk is written *)
  assert (Hrest : forall s0 bounce', written s s0 (base i + Z.to_nat offset) [] -> dev s0 = dev s ->
    exists n s', inode_write_loop fuel i buffer (size - c) (offset + c) bounce' (bw + c)
        (with_dev s0 (<[k := list_inserts (Z.to_nat so) ch b]> (dev s0))) = Ok (bw + Z.of_nat n, s') /\
      written s s' (base i + Z.to_nat offset) (take n (drop (Z.to_nat bw) buffer)) /\
      (n <= avail i size offset)%nat /\ (mallocs_ok s -> n = avail i size offset)).
  { intros s0 bounce' W0 Hd0.
    assert (W1 : written s (with_dev s0 (<[k := list_inserts (Z.to_nat so) ch b]> (dev s0)))
                   (base i + Z.to_nat offset) ch).
    { apply (written_trans s s0 _ _ [] ch W0). cbn [length]. rewrite Nat.add_0_l, <- Hpos.
      apply chunk_written; [by destruct W0 as (? & _ & ? & _)|by rewrite Hd0|lia]. }
    destruct (IH i buffer (size - c) (offset + c) bounce' (bw + c) _ (inode_ok_written _ _ _ _ _ W1 Hok))
      as (n & s' & -> & W2 & Hn & Hm); [lia|done|lia|lia|lia|].
    exists (Z.to_nat c + n)%nat, s'. split_and!; [do 2 f_equal; lia| |lia|].
    - rewrite take_drop_add. fold ch. apply (written_trans _ _ _ _ _ _ W1). rewrite Hch.
      replace (Z.to_nat c + (base i + Z.to_nat offset))%nat with (base i + Z.to_nat (offset + c))%nat by lia.
      by replace (Z.to_nat bw + Z.to_nat c)%nat with (Z.to_nat (bw + c)) by lia.
    - intros Hmo. rewrite Hm; [lia|]. destruct W1 as (? & _ & _ & _ & _ & HM). by apply HM. }
  destruct ((so =? 0) && (c =? BLOCK_SECTOR_SIZE)) eqn:E.
  - apply andb_true_iff in E as [E1 E2]. apply Z.eqb_eq in E1, E2. change BLOCK_SECTOR_SIZE with 512 in E2.
    rewrite (stbind_step _ _ s ch s) by (apply buffer_chunk_Ok; lia).
    rewrite (stbind_step _ _ s tt _ (block_write_Ok s _ ch Hsec)). fold k.
    destruct (Hrest s bounce) as (n & s' & E & H); [by apply written_refl|done|].
    exists n, s'. split; [|exact H]. rewrite <- E. rewrite E1. change (Z.to_nat 0) with 0%nat.
    rewrite list_inserts_full by lia. done.
  - destruct (bounce_Ok bounce s) as (ok & m & Em & Hmo). rewrite (stbind_step _ _ s ok _ Em).
    destruct ok; cbn [negb].
    + assert (Hrd : (0 <? so) || (c <? BLOCK_SECTOR_SIZE - so) = true).
      { change BLOCK_SECTOR_SIZE with 512 in *. apply orb_true_iff. rewrite !Z.ltb_lt.
        apply andb_false_iff in E. rewrite !Z.eqb_neq in E. lia. }
      rewrite Hrd. destruct (block_read_Ok (with_mallocs s m) (byte_to_sector i offset) Hsec) as (b' & Eb' & Hb').
      cbn in Hb'. fold k in Hb'. assert (b' = b) as -> by (rewrite Hb in Hb'; by simplify_eq).
      rewrite (stbind_step _ _ _ b _ Eb').
      rewrite (stbind_step _ _ (with_mallocs s m) ch (with_mallocs s m)) by (apply buffer_chunk_Ok; lia).
      rewrite (stbind_step _ _ _ tt _ (block_write_Ok (with_mallocs s m) _ (list_inserts (Z.to_nat so) ch b) Hsec)).
      apply Hrest; [|done]. apply written_mallocs; [done|]. intros Hok'. by apply Hmo.
    + exists 0%nat, (with_mallocs s m). rewrite Z.add_0_r, take_0. split_and!; [done| |lia|].
      * apply written_mallocs; [done|]. intros Hok'. by apply Hmo.
      * intros Hmok. by destruct (Hmo Hmok).
Qed.

(** ** The contents of an inode *)

Definition contents (s : fs) (i : inode) : list Z :=
  take (Z.to_nat (length_ (data i))) (drop (base i) (disk s)).

Lemma length_contents s i : inode_ok s i -> length (contents s i) = Z.to_nat (length_ (data i)).
Proof.
  intros (Hwf & Hst & _ & Hl & Hin). unfold contents, base.
  rewrite length_take, length_drop, length_disk by done. lia.
Qed.

Lemma slice_contents s i n offset :
  0 <= offset -> (n = 0 \/ n + Z.to_nat offset <= Z.to_nat (length_ (data i)))%nat ->
  take n (drop (base i + Z.to_nat offset) (disk s)) = take n (drop (Z.to_nat offset) (contents s i)).
Proof.
  intros Ho Hn. apply list_eq. intros j. rewrite !lookup_take. case_decide; [|done].
  rewrite !lookup_drop. unfold contents. rewrite lookup_take, decide_True by lia.
  rewrite lookup_drop. f_equal. lia.
Qed.

Lemma avail_bound i size offset :
  0 <= offset -> (avail i size offset = 0 \/ avail i size offset + Z.to_nat offset <= Z.to_nat (length_ (data i)))%nat.
Proof. unfold avail. lia. Qed.

(** A write within one inode, seen on the contents of that inode. *)
Lemma contents_written s s' i n offset l :
  inode_ok s i -> 0 <= offset -> length l = n -> (n <= avail i (Z.of_nat n) offset)%nat ->
  written s s' (base i + Z.to_nat offset) l ->
  contents s' i = list_inserts (Z.to_nat offset) l (contents s i).
Proof.
  intros Hok Ho Hl Hn (m & _ & Hwf' & _ & HD & _).
  pose proof (length_contents s i Hok) as Hlen. pose proof (avail_bound i (Z.of_nat n) offset Ho) as Hb.
  assert (Hdl : (base i + Z.to_nat (length_ (data i)) <= length (disk s))%nat).
  { destruct Hok as (Hwf & Hst & _ & Hl0 & Hin). unfold base. rewrite length_disk by done. lia. }
  apply list_eq. intros j. unfold contents at 1. rewrite HD, lookup_take.
  destruct (decide (j < Z.to_nat (length_ (data i)))%nat) as [Hj|Hj].
  2:{ rewrite lookup_ge_None_2; [done|]. rewrite length_inserts. lia. }
  rewrite lookup_drop.
  assert (Hin : contents s i !! j = disk s !! (base i + j)%nat).
  { unfold contents. by rewrite lookup_take, decide_True, lookup_drop by lia. }
  destruct (decide (Z.to_nat offset <= j < Z.to_nat offset + length l)%nat).
  - rewrite !list_lookup_inserts by lia. f_equal. lia.
  - destruct (decide (j < Z.to_nat offset)%nat).
    + by rewrite !list_lookup_inserts_lt by lia.
    + by rewrite !list_lookup_inserts_ge by lia.
Qed.

(** The data sectors of two inodes do not overlap. *)
Definition disjoint_data (i j : inode) : Prop :=
  start (data i) * 512 + length_ (data i) <= start (data j) * 512 \/
  start (data j) * 512 + length_ (data j) <= start (data i) * 512.

Lemma contents_other s s' i j n offset l :
  inode_ok s i -> inode_ok s j -> 0 <= offset -> disjoint_data i j -> length l = n ->
  (n <= avail i (Z.of_nat n) offset)%nat ->
  written s s' (base i + Z.to_nat offset) l -> contents s' j = contents s j.
Proof.
  intros (_ & Hi & _ & Hli & _) (_ & Hj & _ & Hlj & _) Ho Hdis Hl Hn (m & _ & _ & _ & HD & _).
  pose proof (avail_bound i (Z.of_nat n) offset Ho) as Hb.
  apply list_eq. intros x. unfold contents. rewrite !lookup_take. case_decide; [|done].
  rewrite !lookup_drop, HD. unfold base, disjoint_data in *.
  destruct l as [|y l]; [done|]. cbn [length] in *. destruct Hdis.
  - apply list_lookup_inserts_ge. cbn [length]. lia.
  - apply list_lookup_inserts_lt. lia.
Qed.

Lemma get_inode_Ok s ip i : inodes s !! ip = Some i -> get_inode ip s = Ok (i, s).
Proof. intros H. unfold get_inode. by rewrite H. Qed.

Lemma get_file_Ok s fp f : files s !! fp = Some f -> get_file fp s = Ok (f, s).
Proof. intros H. unfold get_file. by rewrite H. Qed.

Lemma inode_read_at_spec s ip i size offset :
  inodes s !! ip = Some i -> inode_ok s i -> 0 <= offset -> is_s32 offset ->
  exists n m, inode_read_at ip size offset s =
      Ok (take n (drop (Z.to_nat offset) (contents s i)), with_mallocs s m) /\
    (n <= avail i size offset)%nat /\
    (mallocs_ok s -> n = avail i size offset /\ Forall (fun b => b = true) m).
Proof.
  intros Hi Hok Ho Ho'. unfold inode_read_at. rewrite (stbind_step _ _ s i s (get_inode_Ok s ip i Hi)).
  destruct (inode_read_loop_spec (S (Z.to_nat size)) i size offset false [] s Hok Ho Ho' ltac:(lia))
    as (n & m & -> & Hn & Hm). exists n, m. split_and!; [|done|done].
  pose proof (avail_bound i size offset Ho).
  cbn [app]. rewrite slice_contents by lia. done.
Qed.

Lemma inode_write_at_spec s ip i buffer size offset :
  inodes s !! ip = Some i -> inode_ok s i -> 0 <= offset -> is_s32 offset ->
  (avail i size offset <= length buffer)%nat -> deny_write_cnt i = 0 ->
  exists n s', inode_write_at ip buffer size offset s = Ok (Z.of_nat n, s') /\
    written s s' (base i + Z.to_nat offset) (take n buffer) /\
    (n <= avail i size offset)%nat /\ (mallocs_ok s -> n = avail i size offset).
Proof.
  intros Hi Hok Ho Ho' Hsz Hd. unfold inode_write_at.
  rewrite (stbind_step _ _ s i s (get_inode_Ok s ip i Hi)). rewrite Hd. change (0 =? 0) with true. cbn [negb].
  destruct (inode_write_loop_spec (S (Z.to_nat size)) i buffer size offset false 0 s Hok Ho Ho')
    as (n & s' & -> & HW & Hn & Hm); [lia|lia|lia|].
  exists n, s'. change (Z.to_nat 0) with 0%nat in HW. by rewrite drop_0 in HW.
Qed.

(** ** Properties *)

(** [inode_read_at] returns a prefix of the SIZE bytes of the inode's
    contents from OFFSET on, and all of them that exist when allocation
    succeeds; nothing on the device or in memory changes. *)
Theorem inode_read_at_correct s ip i size offset :
  inodes s !! ip = Some i -> inode_ok s i -> 0 <= offset -> is_s32 offset ->
  exists bs m, inode_read_at ip size offset s = Ok (bs, with_mallocs s m) /\
    bs `prefix_of` take (Z.to_nat size) (drop (Z.to_nat offset) (contents s i)) /\
    (mallocs_ok s -> bs = take (Z.to_nat size) (drop (Z.to_nat offset) (contents s i))).
Proof.
  intros Hi Hok Ho Ho'.
  destruct (inode_read_at_spec s ip i size offset Hi Hok Ho Ho') as (n & m & -> & Hn & Hm).
  pose proof (length_contents s i Hok) as Hl.
  assert (Ha : (avail i size offset <= Z.to_nat size)%nat) by (unfold avail; lia).
  eexists _, m. split; [done|]. split.
  - exists (drop n (take (Z.to_nat size) (drop (Z.to_nat offset) (contents s i)))).
    rewrite <- (take_drop n (take (Z.to_nat size) _)) at 1. f_equal. rewrite take_take. f_equal. lia.
  - intros Hmo. destruct (Hm Hmo) as [-> _]. apply list_eq. intros j. rewrite !lookup_take.
    unfold avail in *. repeat case_decide; try done; try lia.
    symmetry. apply lookup_ge_None_2. rewrite length_drop. lia.
Qed.

(** Denied writes write nothing. *)
Lemma inode_write_denied s ip i buffer size offset :
  inodes s !! ip = Some i -> deny_write_cnt i <> 0 ->
  inode_write_at ip buffer size offset s = Ok (0, s).
Proof.
  intros Hi Hd. unfold inode_write_at. rewrite (stbind_step _ _ s i s (get_inode_Ok s ip i Hi)).
  by rewrite (proj2 (Z.eqb_neq _ 0) Hd).
Qed.

(** C21. [inode_write_at], with an offset that is not negative and a buffer of
    at least SIZE bytes, overwrites a prefix of the SIZE bytes from OFFSET on
    with the caller's bytes.  While writes to the inode are denied the prefix
    is empty, the result is 0 and nothing changes at all; otherwise the result
    is the number of bytes written, which is all that fit in the inode when
    the bounce buffer can be allocated.  The rest of the contents, the contents
    of every inode with disjoint data and the table of inodes are unchanged. *)
Theorem inode_write_at_correct s ip i buffer size offset :
  inodes s !! ip = Some i -> inode_ok s i -> 0 <= offset -> is_s32 offset ->
  size <= Z.of_nat (length buffer) ->
  exists n s', inode_write_at ip buffer size offset s = Ok (Z.of_nat n, s') /\
    contents s' i = list_inserts (Z.to_nat offset) (take n buffer) (contents s i) /\
    (n <= avail i size offset)%nat /\
    (if bool_decide (deny_write_cnt i = 0) then mallocs_ok s -> n = avail i size offset else n = 0%nat /\ s' = s) /\
    inodes s' = inodes s /\
    (forall j, inode_ok s j -> disjoint_data i j -> contents s' j = contents s j).
Proof.
  intros Hi Hok Ho Ho' Hsz. case_bool_decide as Hd.
  2: { exists 0%nat, s. split_and!; try done; [by apply (inode_write_denied s ip i)|lia]. }
  destruct (inode_write_at_spec s ip i buffer size offset Hi Hok Ho Ho' ltac:(unfold avail; lia) Hd) as (n & s' & E & HW & Hn & Hm).
  assert (Hl : length (take n buffer) = n) by (rewrite length_take; unfold avail in *; lia).
  assert (Hav : (n <= avail i (Z.of_nat n) offset)%nat) by (unfold avail in *; lia).
  exists n, s'. split_and!; [done| |done|done| |].
  - by apply (contents_written s s' i n).
  - by destruct HW as (m & -> & _).
  - intros j Hj Hdis. by apply (contents_other s s' i j n offset (take n buffer)).
Qed.

Lemma set_file_Ok fp f s : set_file fp f s = Ok (tt, with_files s (<[fp := f]> (files s))).
Proof. done. Qed.

Lemma contents_with_files s f i : contents (with_files s f) i = contents s i.
Proof. done. Qed.

(** What is written to an open file is read back: a write of SIZE bytes
    that fit, a seek to where it started and a read of SIZE bytes return the
    bytes written, and the position is the end of the write again. *)
Theorem file_write_seek_read s fp f i buffer size :
  fp <> 0 -> files s !! fp = Some f -> inodes s !! f_inode f = Some i -> inode_ok s i ->
  deny_write_cnt i = 0 -> mallocs_ok s -> 0 <= f_pos f -> 0 <= size ->
  f_pos f + size <= length_ (data i) -> size = Z.of_nat (length buffer) ->
  exists s', (n ← file_write fp buffer size; file_seek fp (f_pos f);; file_read fp size) s
      = Ok (buffer, s') /\
    files s' !! fp = Some (MkFile (f_inode f) (f_pos f + size) (f_deny_write f)).
Proof.
  intros Hfp Hf Hi Hok Hd Hm Hp Hs Hfit Hbuf. pose proof Hok as (_ & _ & Hl32 & _ & _).
  assert (Hp32 : is_s32 (f_pos f)) by (unfold is_s32 in *; lia).
  assert (Hav : avail i size (f_pos f) = length buffer) by (unfold avail; lia).
  destruct (inode_write_at_spec s _ i buffer size (f_pos f) Hi Hok Hp Hp32 ltac:(lia) Hd)
    as (n & s1 & E1 & HW & Hn & Hnm). specialize (Hnm Hm).
  assert (Hn' : n = length buffer) by lia.
  assert (Hc : contents s1 i = list_inserts (Z.to_nat (f_pos f)) buffer (contents s i)).
  { apply (contents_written s s1 i n); [done|done|done| |].
    - unfold avail. lia.
    - by rewrite take_ge in HW by lia. }
  pose proof (inode_ok_written _ _ _ _ _ HW Hok) as Hok1.
  destruct HW as (m & Es1 & _ & _ & _ & Hm1). specialize (Hm1 Hm).
  assert (Hf1 : files s1 = files s) by (by rewrite Es1).
  assert (Hi1 : inodes s1 !! f_inode f = Some i) by (by rewrite Es1).
  set (f1 := MkFile (f_inode f) (f_pos f) (f_deny_write f)).
  set (s3 := with_files s1 (<[fp := f1]> (files s1))).
  assert (Hwr : file_write fp buffer size s = Ok (Z.of_nat n, with_files s1
            (<[fp := MkFile (f_inode f) (f_pos f + size) (f_deny_write f)]> (files s1)))).
  { unfold file_write. rewrite (stbind_step _ _ s f s (get_file_Ok s fp f Hf)).
    rewrite (stbind_step _ _ s _ _ E1), (stbind_step _ _ _ _ _ (set_file_Ok _ _ _)).
    rewrite s32_small by (unfold is_s32 in *; lia).
    replace (f_pos f + Z.of_nat n) with (f_pos f + size) by lia. done. }
  rewrite (stbind_step _ _ _ _ _ Hwr).
  assert (Hsk : file_seek fp (f_pos f) (with_files s1
            (<[fp := MkFile (f_inode f) (f_pos f + size) (f_deny_write f)]> (files s1))) = Ok (tt, s3)).
  { unfold file_seek. rewrite (proj2 (Z.eqb_neq fp 0) Hfp), (proj2 (Z.leb_le 0 _) Hp). cbn [negb].
    rewrite (stbind_step _ _ _ _ _ (assertM_true true _ eq_refl)).
    rewrite (stbind_step _ _ _ _ _ (assertM_true true _ eq_refl)).
    rewrite (stbind_step _ _ _ _ _ (get_file_Ok _ fp _ (lookup_insert_eq (files s1) fp _))).
    rewrite set_file_Ok. cbn. rewrite insert_insert_eq. done. }
  rewrite (stbind_step _ _ _ _ _ Hsk). unfold file_read.
  rewrite (stbind_step _ _ s3 f1 s3) by (apply get_file_Ok; apply lookup_insert_eq).
  destruct (inode_read_at_spec s3 (f_inode f) i size (f_pos f) Hi1 Hok1 Hp Hp32) as (n2 & m2 & E2 & _ & Hn2).
  destruct (Hn2 Hm1) as [-> _]. cbn [f_inode f_pos f_deny_write f1].
  rewrite (stbind_step _ _ _ _ _ E2), (stbind_step _ _ _ _ _ (set_file_Ok _ _ _)).
  assert (Hread : take (avail i size (f_pos f)) (drop (Z.to_nat (f_pos f)) (contents s3 i)) = buffer).
  { change (contents s3 i) with (contents s1 i). rewrite Hc, Hav. pose proof (length_contents s i Hok).
    apply list_eq. intros j. rewrite lookup_take. case_decide.
    - rewrite lookup_drop, list_lookup_inserts by lia. f_equal. lia.
    - symmetry. apply lookup_ge_None_2. lia. }
  rewrite Hread. eexists. split; [done|]. cbn. rewrite lookup_insert_eq.
  rewrite s32_small by (unfold is_s32 in *; lia). do 3 f_equal. lia.
Qed.

(** ** Concrete instances *)

(** Four sectors; an inode in sector 1 with 600 bytes of data from sector 2 on. *)
Definition sample_inode : inode := MkInode 1 1 false 0 (MkInodeDisk 2 600 INODE_MAGIC).
Definition sample_fs : fs :=
  MkFs (replicate 4 (replicate 512 0)) {[ 1 := sample_inode ]} [1] {[ 2 := MkFile 1 510 false ]} 3
    (mk_bitmap 4 [15]) 0 [].

Lemma sample_fs_ok : inode_ok sample_fs sample_inode.
Proof.
  split; [split; [by repeat constructor|done]|]. cbn. unfold is_s32. lia.
Qed.

Lemma inode_read_at_correct_witness :
  exists bs m, inode_read_at 1 20 590 sample_fs = Ok (bs, with_mallocs sample_fs m) /\
    bs `prefix_of` take 20 (drop 590 (contents sample_fs sample_inode)) /\
    (mallocs_ok sample_fs -> bs = take 20 (drop 590 (contents sample_fs sample_inode))).
Proof.
  apply (inode_read_at_correct sample_fs 1 sample_inode 20 590).
  - reflexivity.
  - apply sample_fs_ok.
  - discriminate.
  - split; [discriminate|reflexivity].
Defined.

(** Three bytes across the boundary of a sector are written; while writes are
    denied, none are. *)
Lemma inode_write_at_correct_witness :
  (exists s', inode_write_at 1 [7; 8; 9] 3 510 sample_fs = Ok (3, s') /\
    contents s' sample_inode = list_inserts 510 [7; 8; 9] (contents sample_fs sample_inode)) /\
  let denied := MkInode 1 1 false 1 (MkInodeDisk 2 600 INODE_MAGIC) in
  let s := with_inodes sample_fs {[ 1 := denied ]} in
  inode_write_at 1 [7; 8; 9] 3 510 s = Ok (0, s).
Proof.
  split.
  - destruct (inode_write_at_correct sample_fs 1 sample_inode [7; 8; 9] 3 510) as (n & s' & E & Hc & _ & Hn & _);
      [reflexivity|apply sample_fs_ok|discriminate|split; [discriminate|reflexivity]|discriminate|].
    assert (Hm : mallocs_ok sample_fs) by constructor. specialize (Hn Hm). change (avail sample_inode 3 510) with 3%nat in Hn. rewrite Hn in E, Hc. exists s'. split; [exact E|exact Hc].
  - intros denied s. destruct (inode_write_at_correct s 1 denied [7; 8; 9] 3 510) as (n & s' & E & _ & _ & [Hn Hs] & _);
      [reflexivity|exact sample_fs_ok|discriminate|split; [discriminate|reflexivity]|discriminate|].
    rewrite Hn, Hs in E. exact E.
Defined.

Lemma file_write_seek_read_witness :
  exists s', (n ← file_write 2 [7; 8; 9] 3; file_seek 2 510;; file_read 2 3) sample_fs = Ok ([7; 8; 9], s') /\
    files s' !! 2 = Some (MkFile 1 513 false).
Proof.
  apply (file_write_seek_read sample_fs 2 (MkFile 1 510 false) sample_inode [7; 8; 9] 3);
    try reflexivity; try discriminate.
  - apply sample_fs_ok.
  - constructor.
Defined.
