(* ===== verification/FreeMap.v ===== *)
(** The free map and the life cycle of inodes and files: filesys/free-map.c,
    the file operations of lib/kernel/bitmap.c, and the functions of
    filesys/inode.c and filesys/file.c that create, open, close and delete. *)

From stdpp Require Import base list numbers gmap.
From Stdlib Require Import ZArith Lia.
From S2P Require Import Prelude Bitmap Inode.

Definition FREE_MAP_SECTOR : Z := 0.
Definition ROOT_DIR_SECTOR : Z := 1.

(** ** Bitmaps in files *)

(** The elements of a bitmap as they lie in memory. *)
Definition words_bytes (ws : list Z) : list Z := mjoin (le_bytes <$> ws).

Fixpoint bytes_words (n : nat) (bs : list Z) : list Z :=
  match n with O => [] | S n' => le_word (take 4 bs) :: bytes_words n' (drop 4 bs) end.

Definition bitmap_file_size (b : bitmap) : Z := byte_cnt (bit_cnt b).

(** The bytes read replace the first bytes of [b->bits]. *)
Definition bitmap_read (b : bitmap) (fp : Z) : stM fs (bool * bitmap) :=
  if 0 <? bit_cnt b then
    let size := byte_cnt (bit_cnt b) in
    bs ← file_read_at fp size 0;
    let success := Z.of_nat (length bs) =? size in
    let raw := bs ++ drop (length bs) (words_bytes (bits b)) in
    let b := mk_bitmap (bit_cnt b) (bytes_words (length (bits b)) raw) in
    b ← lift (update_elem b (Bitmap.elem_cnt (bit_cnt b) - 1) (fun x => Z.land x (last_mask b)));
    mret (success, b)
  else mret (true, b).

Definition bitmap_write (b : bitmap) (fp : Z) : stM fs bool :=
  let size := byte_cnt (bit_cnt b) in
  n ← file_write_at fp (words_bytes (bits b)) size 0;
  mret (n =? size).

(** ** The free map *)

Definition set_free_map (b : bitmap) : stM fs unit := modify (fun s => with_free_map s b).

(** [mem] is what the memory malloc returned for the bits holds. *)
Definition free_map_init (mem : list Z) : stM fs unit :=
  s ← get;
  ok1 ← malloc;
  ok2 ← (if ok1 then malloc else mret false : stM fs bool);
  o ← lift (bitmap_create ok1 (if ok2 : bool then Some mem else None) (block_size s));
  match o with
  | None => raise EPanic
  | Some b =>
      b ← lift (bitmap_mark b FREE_MAP_SECTOR);
      b ← lift (bitmap_mark b ROOT_DIR_SECTOR);
      set_free_map b
  end.

(** [None] for failure, [Some sector] for success with [*sectorp = sector]. *)
Definition free_map_allocate (cnt : Z) : stM fs (option Z) :=
  s ← get;
  r ← lift (bitmap_scan_and_flip (free_map s) 0 cnt false);
  let '(sec, b) := r in
  set_free_map b;;
  sec ← (if negb (sec =? BITMAP_ERROR) && negb (free_map_file s =? 0) then
           ok ← bitmap_write b (free_map_file s);
           if ok : bool then mret sec
           else
             b ← lift (bitmap_set_multiple b sec cnt false);
             set_free_map b;;
             mret BITMAP_ERROR
         else mret sec : stM fs Z);
  mret (if negb (sec =? BITMAP_ERROR) then Some sec else None).

Definition free_map_release (sec cnt : Z) : stM fs unit :=
  s ← get;
  all ← lift (bitmap_all (free_map s) sec cnt);
  assertM all;;
  b ← lift (bitmap_set_multiple (free_map s) sec cnt false);
  set_free_map b;;
  bitmap_write b (free_map_file s);;
  mret tt.

(** ** Creating and closing inodes *)

Fixpoint write_zeros (k : nat) (sec : Z) : stM fs unit :=
  match k with
  | O => mret tt
  | S k' => block_write sec (replicate 512 0);; write_zeros k' (u32 (sec + 1))
  end.

Definition inode_create (sec length : Z) : stM fs bool :=
  assertM (0 <=? length);;
  ok ← malloc;
  if negb ok then mret false
  else
    let sectors := bytes_to_sectors length in
    r ← free_map_allocate sectors;
    match r with
    | None => mret false
    | Some st =>
        block_write sec (inode_disk_bytes (MkInodeDisk st length INODE_MAGIC));;
        (if 0 <? sectors then write_zeros (Z.to_nat sectors) st else mret tt);;
        mret true
    end.

Definition inode_close (ip : Z) : stM fs unit :=
  if ip =? 0 then mret tt
  else
    i ← get_inode ip;
    set_inode ip (MkInode (sector i) (open_cnt i - 1) (removed i) (deny_write_cnt i) (data i));;
    if open_cnt i - 1 =? 0 then
      modify (fun s => with_open s (filter (fun x => x <> ip) (open_inodes s)));;
      (if removed i then
         free_map_release (sector i) 1;;
         free_map_release (start (data i)) (bytes_to_sectors (length_ (data i)))
       else mret tt);;
      modify (fun s => with_inodes s (delete ip (inodes s)))
    else mret tt.

(** ** Opening and closing files *)

Definition file_open (ip : Z) : stM fs Z :=
  ok ← malloc;
  if negb (ip =? 0) && ok then
    fp ← fresh;
    set_file fp (MkFile ip 0 false);;
    mret fp
  else inode_close ip;; mret 0.

Definition file_reopen (fp : Z) : stM fs Z :=
  f ← get_file fp; ip ← inode_reopen (f_inode f); file_open ip.

Definition file_close (fp : Z) : stM fs unit :=
  if fp =? 0 then mret tt
  else
    file_allow_write fp;;
    f ← get_file fp;
    inode_close (f_inode f);;
    modify (fun s => with_files s (delete fp (files s))).

(** ** The free map file *)

Definition free_map_open : stM fs unit :=
  ip ← inode_open FREE_MAP_SECTOR;
  fp ← file_open ip;
  modify (fun s => with_free_map_file s fp);;
  if fp =? 0 then raise EPanic
  else
    s ← get;
    r ← bitmap_read (free_map s) fp;
    let '(ok, b) := r in
    set_free_map b;;
    if negb ok then raise EPanic else mret tt.

Definition free_map_close : stM fs unit := s ← get; file_close (free_map_file s).

Definition free_map_create : stM fs unit :=
  s ← get;
  ok ← inode_create FREE_MAP_SECTOR (bitmap_file_size (free_map s));
  if negb ok then raise EPanic
  else
    ip ← inode_open FREE_MAP_SECTOR;
    fp ← file_open ip;
    modify (fun s => with_free_map_file s fp);;
    if fp =? 0 then raise EPanic
    else
      s ← get;
      ok ← bitmap_write (free_map s) fp;
      if negb ok then raise EPanic else mret tt.

(** ** Words and bytes *)

Lemma le_word_le_bytes w : is_u32 w -> le_word (le_bytes w) = w.
Proof.
  intros Hw. unfold is_u32 in Hw. unfold le_bytes, le_word. cbn [map foldr].
  change 255 with (Z.ones 8). rewrite !Z.land_ones by lia. rewrite !Z.shiftr_div_pow2 by lia.
  change (2 ^ (8 * 0)) with 1. change (2 ^ (8 * 1)) with 256. change (2 ^ (8 * 2)) with 65536.
  change (2 ^ (8 * 3)) with 16777216. change (2 ^ 8) with 256. change (2 ^ 32) with 4294967296 in Hw.
  Z.to_euclidean_division_equations. lia.
Qed.

Lemma length_words_bytes ws : length (words_bytes ws) = (4 * length ws)%nat.
Proof.
  unfold words_bytes. induction ws as [|w ws IH]; [done|].
  rewrite fmap_cons. change (mjoin (le_bytes w :: (le_bytes <$> ws))) with (le_bytes w ++ mjoin (le_bytes <$> ws)).
  rewrite length_app, IH. simpl. lia.
Qed.

Lemma bytes_words_bytes ws : Forall is_u32 ws -> bytes_words (length ws) (words_bytes ws) = ws.
Proof.
  induction 1 as [|w ws Hw HF IH]; [done|]. cbn [length bytes_words].
  change (words_bytes (w :: ws)) with (le_bytes w ++ words_bytes ws).
  change 4%nat with (length (le_bytes w)). rewrite take_app_length, drop_app_length.
  by rewrite le_word_le_bytes, IH.
Qed.

(** Masking the unused bits of the last element changes no bit of the map. *)
Lemma mask_last_babs b :
  bitmap_wf b -> 0 < bit_cnt b ->
  exists b', update_elem b (Bitmap.elem_cnt (bit_cnt b) - 1) (fun x => Z.land x (last_mask b)) = Ok b' /\
    bit_cnt b' = bit_cnt b /\ babs b' = babs b.
Proof.
  intros (Hc & Hl & HF) Hpos. rewrite elem_cnt_eq in * by done. unfold update_elem, read_elem.
  set (k := Z.to_nat ((bit_cnt b + 31) / 32 - 1)).
  assert (Hk : Z.of_nat k = (bit_cnt b + 31) / 32 - 1 /\ (k < length (bits b))%nat).
  { unfold k. unfold ELEM_BITS in *. Z.to_euclidean_division_equations. lia. }
  destruct (lookup_lt_is_Some_2 (bits b) k (proj2 Hk)) as [x Hx]. rewrite Hx. cbn [of_option mbind res_bind].
  eexists. split; [done|]. split; [done|].
  unfold babs. cbn [bit_cnt]. apply map_ext_in. intros j Hj. apply in_seq in Hj.
  unfold bget. cbn [bits]. set (q := Z.to_nat (Z.of_nat j / 32)).
  destruct (decide (q = k)) as [Hq|Hq]; rewrite !nth_lookup.
  2:{ by rewrite list_lookup_insert_ne by done. }
  rewrite Hq, list_lookup_insert_eq, Hx by lia. cbn [default from_option id].
  rewrite Z.land_spec. assert (Hbit : Z.testbit (last_mask b) (Z.of_nat j mod 32) = true); [|by rewrite Hbit, andb_true_r].
  unfold last_mask. change ELEM_BITS with 32. assert (0 <= Z.of_nat j mod 32 < 32) by (apply Z.mod_pos_bound; lia).
  destruct (Z.eqb_spec (bit_cnt b mod 32) 0) as [E0|E0]; cbn [negb].
  - change (u32 (-1)) with (Z.ones 32). apply Z.ones_spec_low. lia.
  - assert (Hm : 0 < bit_cnt b mod 32 < 32) by (pose proof (Z.mod_pos_bound (bit_cnt b) 32); lia).
    rewrite Z.shiftl_1_l. assert (2 ^ (bit_cnt b mod 32) < 2 ^ 32) by (apply Z.pow_lt_mono_r; lia).
    assert (0 < 2 ^ (bit_cnt b mod 32)) by lia.
    rewrite (u32_small (2 ^ _)) by (unfold is_u32; lia). rewrite u32_small by (unfold is_u32; lia).
    replace (2 ^ (bit_cnt b mod 32) - 1) with (Z.ones (bit_cnt b mod 32)) by (rewrite Z.ones_equiv; lia).
    apply Z.ones_spec_low. split; [lia|]. unfold q, k in Hq. Z.to_euclidean_division_equations. lia.
Qed.

(** ** The free-map file *)

(** [fp] is an open file that has exactly the size of the bitmap. *)
Definition holds_bitmap (s : fs) (fp : Z) (cnt : Z) (i : inode) : Prop :=
  exists f, files s !! fp = Some f /\ inodes s !! f_inode f = Some i /\ inode_ok s i /\
    deny_write_cnt i = 0 /\ length_ (data i) = byte_cnt cnt.

(** A bitmap whose storage has exactly the elements its bits need. *)
Definition bitmap_exact (b : bitmap) : Prop :=
  bitmap_wf b /\ Z.of_nat (length (bits b)) = Bitmap.elem_cnt (bit_cnt b) /\ 4 * Z.of_nat (length (bits b)) < 2 ^ 31.

Lemma byte_cnt_exact b : bitmap_exact b -> byte_cnt (bit_cnt b) = Z.of_nat (length (words_bytes (bits b))).
Proof.
  intros (_ & Hl & Hb). unfold byte_cnt. rewrite length_words_bytes, <- Hl. rewrite u32_small; [lia|].
  unfold is_u32. lia.
Qed.

Lemma bitmap_write_spec s b fp i :
  bitmap_exact b -> holds_bitmap s fp (bit_cnt b) i ->
  exists ok s', bitmap_write b fp s = Ok (ok, s') /\
    (exists n, written s s' (base i) (take n (words_bytes (bits b)))) /\
    (ok = true -> contents s' i = words_bytes (bits b)) /\ (mallocs_ok s -> ok = true).
Proof.
  intros Hex (f & Hf & Hi & Hok & Hd & Hlen). pose proof (byte_cnt_exact b Hex) as Hsz.
  unfold bitmap_write, file_write_at. rewrite Hsz in *.
  set (bs := words_bytes (bits b)) in *.
  destruct (inode_write_at_spec s (f_inode f) i bs (Z.of_nat (length bs)) 0 Hi Hok ltac:(lia) ltac:(done) ltac:(unfold avail; lia) Hd)
    as (n & s' & E & HW & Hn & Hm).
  assert (E' : (f ← get_file fp; inode_write_at (f_inode f) bs (Z.of_nat (length bs)) 0) s = Ok (Z.of_nat n, s')).
  { by rewrite (stbind_step _ _ s f s (get_file_Ok s fp f Hf)). }
  rewrite (stbind_step _ _ s _ _ E'). change (Z.to_nat 0) with 0%nat in HW. rewrite Nat.add_0_r in HW.
  exists (Z.of_nat n =? Z.of_nat (length bs)), s'. split; [done|]. split; [by exists n|]. split.
  - intros Heq%Z.eqb_eq. assert (n = length bs) as -> by lia. rewrite take_ge in HW by lia.
    rewrite (contents_written s s' i (length bs) 0 bs Hok); [|lia|done|unfold avail; lia|].
    + change (Z.to_nat 0) with 0%nat. apply list_inserts_full. rewrite length_contents by done. lia.
    + change (Z.to_nat 0) with 0%nat. by rewrite Nat.add_0_r.
  - intros Hmo. rewrite (Hm Hmo). apply Z.eqb_eq. unfold avail. lia.
Qed.

(** A bitmap written to its file is read back: after a [bitmap_write] that
    reports success, [bitmap_read] into a bitmap of the same size succeeds and
    yields the same bits, when allocation succeeds. *)
Theorem bitmap_file_roundtrip s b b0 fp i :
  bitmap_exact b -> bitmap_exact b0 -> bit_cnt b0 = bit_cnt b -> holds_bitmap s fp (bit_cnt b) i ->
  mallocs_ok s ->
  exists b1 s', (ok ← bitmap_write b fp; bitmap_read b0 fp) s = Ok ((true, b1), s') /\
    bit_cnt b1 = bit_cnt b /\ babs b1 = babs b.
Proof.
  intros Hex Hex0 Hcnt Hold Hmo. pose proof (byte_cnt_exact b Hex) as Hsz.
  destruct (bitmap_write_spec s b fp i Hex Hold) as (ok & s1 & E1 & (n & HW) & Hc & Hm).
  specialize (Hc (Hm Hmo)). rewrite (stbind_step _ _ s _ _ E1).
  destruct Hold as (f & Hf & Hi & Hok & Hd & Hlen).
  pose proof (inode_ok_written _ _ _ _ _ HW Hok) as Hok1. destruct HW as (m & Es1 & _ & _ & _ & Hm1).
  specialize (Hm1 Hmo). unfold bitmap_read. rewrite Hcnt.
  destruct (Z.ltb_spec 0 (bit_cnt b)) as [Hpos|Hz].
  2:{ exists b0, s1. split; [done|]. split; [done|]. unfold babs. rewrite Hcnt.
      by replace (Z.to_nat (bit_cnt b)) with 0%nat by (destruct Hex as ((? & _) & _); lia). }
  assert (E2 : exists m2, file_read_at fp (byte_cnt (bit_cnt b)) 0 s1 = Ok (words_bytes (bits b), with_mallocs s1 m2)).
  { destruct (inode_read_at_spec s1 (f_inode f) i (byte_cnt (bit_cnt b)) 0) as (n2 & m2 & E & _ & Hn2);
      [by rewrite Es1|done|lia|done|]. destruct (Hn2 Hm1) as [-> _]. exists m2.
    unfold file_read_at. rewrite (stbind_step _ _ s1 f s1) by (apply get_file_Ok; by rewrite Es1).
    rewrite E, Hc. do 2 f_equal. change (Z.to_nat 0) with 0%nat. rewrite drop_0, take_ge; [done|].
    unfold avail. lia. }
  destruct E2 as (m2 & E2). cbv zeta. rewrite (stbind_step _ _ s1 _ _ E2). cbn [bit_cnt].
  assert (Hw : length (bits b0) = length (bits b)).
  { destruct Hex as (_ & H1 & _), Hex0 as (_ & H2 & _). rewrite Hcnt in H2. lia. }
  rewrite drop_ge by (rewrite !length_words_bytes; lia). rewrite app_nil_r, Hw, bytes_words_bytes by apply Hex.
  destruct b as [cb wb]. cbn [bits bit_cnt] in *.
  destruct (mask_last_babs (mk_bitmap cb wb) (proj1 Hex) Hpos) as (b' & Eb & Hb1 & Hb2). cbn [bit_cnt] in *.
  exists b', (with_mallocs s1 m2).
  rewrite (stbind_step _ _ _ b' (with_mallocs s1 m2)) by (unfold lift; by rewrite Eb).
  rewrite Hsz, Z.eqb_refl. done.
Qed.

(** ** Allocation *)

Lemma bitmap_set_length b i v b' : bitmap_set b i v = Ok b' -> length (bits b') = length (bits b).
Proof.
  unfold bitmap_set, bitmap_mark, bitmap_reset, update_elem. intros H. inv_res.
  destruct v; inv_res; cbn; by rewrite length_insert.
Qed.

Lemma set_multiple_loop_length k : forall i b st v b',
  set_multiple_loop k i b st v = Ok b' -> length (bits b') = length (bits b).
Proof.
  induction k as [|k IH]; intros i b st v b' H; cbn [set_multiple_loop] in H; inv_res; [done|].
  match goal with H : bitmap_set _ _ _ = Ok _ |- _ => apply bitmap_set_length in H as <- end. by eapply IH.
Qed.

Lemma set_multiple_length b st cnt v b' :
  bitmap_set_multiple b st cnt v = Ok b' -> length (bits b') = length (bits b).
Proof.
  unfold bitmap_set_multiple. intros H. inv_res. by apply set_multiple_loop_length in H.
Qed.

Lemma scan_and_flip_length b st cnt v r b' :
  bitmap_scan_and_flip b st cnt v = Ok (r, b') -> length (bits b') = length (bits b).
Proof.
  unfold bitmap_scan_and_flip. intros H. inv_res. destruct (negb _); inv_res; [|by simplify_eq].
  simplify_eq. by eapply set_multiple_length.
Qed.

Definition fm_ok (s : fs) : Prop :=
  bitmap_exact (free_map s) /\
  (free_map_file s = 0 \/ exists i, holds_bitmap s (free_map_file s) (bit_cnt (free_map s)) i).

Lemma bitmap_exact_same b b' :
  bitmap_exact b -> bitmap_wf b' -> bit_cnt b' = bit_cnt b -> length (bits b') = length (bits b) -> bitmap_exact b'.
Proof. intros (_ & H1 & H2) Hwf Hc Hl. split; [done|]. by rewrite Hl, Hc. Qed.

(** The map after sectors [i] to [i + cnt] change to [v]. *)
Definition marked (l : list bool) (i cnt : nat) (v : bool) : list bool :=
  take i l ++ replicate cnt v ++ drop (i + cnt) l.

Lemma marked_marked l i cnt v v' :
  (i + cnt <= length l)%nat -> marked (marked l i cnt v) i cnt v' = marked l i cnt v'.
Proof.
  intros Hl. unfold marked. f_equal; [|f_equal].
  - rewrite take_app_le by (rewrite length_take; lia). rewrite take_take. f_equal. lia.
  - rewrite app_assoc, drop_app_ge by (rewrite length_app, length_take, length_replicate; lia).
    rewrite length_app, length_take, length_replicate, Nat.min_l by lia.
    by replace (i + cnt - (i + cnt))%nat with 0%nat by lia.
Qed.

Lemma marked_id l i cnt v : run_of l i cnt v -> marked l i cnt v = l.
Proof. intros Hr. unfold marked. rewrite <- Hr, <- drop_drop, take_drop. apply take_drop. Qed.

Lemma free_map_allocate_spec s (cnt : nat) :
  fm_ok s ->
  exists r s', free_map_allocate (Z.of_nat cnt) s = Ok (r, s') /\
    bitmap_exact (free_map s') /\ bit_cnt (free_map s') = bit_cnt (free_map s) /\
    inodes s' = inodes s /\ files s' = files s /\ free_map_file s' = free_map_file s /\
    match r with
    | Some sec => exists i, sec = Z.of_nat i /\ (i + cnt <= length (babs (free_map s)))%nat /\
        run_of (babs (free_map s)) i cnt false /\
        babs (free_map s') = marked (babs (free_map s)) i cnt true /\
        (forall k, holds_bitmap s (free_map_file s) (bit_cnt (free_map s)) k -> free_map_file s <> 0 ->
           contents s' k = words_bytes (bits (free_map s')))
    | None => babs (free_map s') = babs (free_map s)
    end.
Proof.
  intros (Hex & Hfile). unfold free_map_allocate.
  rewrite (stbind_step _ _ s s s) by done.
  destruct (bitmap_scan_and_flip_spec (free_map s) 0 cnt false (proj1 Hex) ltac:(lia))
    as (r & b & E & Hwf & Hc & Hr & Hcase).
  change (Z.of_nat 0) with 0 in E.
  rewrite (stbind_step _ _ s (r, b) s) by (unfold lift; by rewrite E).
  pose proof (scan_and_flip_length _ _ _ _ _ _ E) as Hlen.
  assert (Hexb : bitmap_exact b) by (by eapply bitmap_exact_same).
  rewrite (stbind_step _ _ s tt (with_free_map s b)) by done. set (s1 := with_free_map s b).
  destruct Hcase as [[-> ->]|(i & -> & _ & Hi & Hb)].
  { rewrite Z.eqb_refl. cbn [negb andb]. rewrite (stbind_step _ _ s1 BITMAP_ERROR s1) by done.
    rewrite Z.eqb_refl. exists None, s1. split_and!; done. }
  assert (Hne : (Z.of_nat i =? BITMAP_ERROR) = false).
  { apply Z.eqb_neq. rewrite length_babs in Hi. destruct Hex as (((? & ?) & _) & _).
    unfold BITMAP_ERROR, ELEM_BITS in *. lia. }
  assert (Hrun : run_of (babs (free_map s)) i cnt false).
  { destruct Hr as [(i' & Ei & _ & _ & Hrun & _)|[Hbad _]].
    - by assert (i = i') as -> by lia.
    - rewrite Hbad, Z.eqb_refl in Hne. done. }
  rewrite Hne. cbn [negb andb].
  destruct (Z.eqb_spec (free_map_file s) 0) as [H0|Hf]; cbn [negb].
  { rewrite (stbind_step _ _ s1 (Z.of_nat i) s1) by done. rewrite Hne. cbn [negb].
    exists (Some (Z.of_nat i)), s1. split_and!; try done.
    exists i. split_and!; try done. }
  destruct Hfile as [?|(k & Hk)]; [done|].
  assert (Hk1 : holds_bitmap s1 (free_map_file s) (bit_cnt b) k) by (rewrite Hc; exact Hk).
  destruct (bitmap_write_spec s1 b (free_map_file s) k Hexb Hk1) as (ok & s2 & E2 & (n & HW) & Hcon & _).
  destruct HW as (m & Es2 & _).
  assert (Hs2 : free_map s2 = b) by (by rewrite Es2).
  assert (Hino : inodes s2 = inodes s) by (by rewrite Es2).
  assert (Hfil : files s2 = files s) by (by rewrite Es2).
  assert (Hfmf : free_map_file s2 = free_map_file s) by (by rewrite Es2).
  destruct ok.
  - rewrite (stbind_step _ _ s1 (Z.of_nat i) s2) by (by rewrite (stbind_step _ _ s1 _ _ E2)).
    rewrite Hne. cbn [negb]. exists (Some (Z.of_nat i)), s2. rewrite Hs2, Hino, Hfil, Hfmf.
    split_and!; try done.
    exists i. split_and!; try done.
    intros k' Hk' _. assert (k' = k) as ->.
    { destruct Hk' as (f1 & Hf1 & Hi1 & _), Hk as (f2 & Hf2 & Hi2 & _). simplify_eq. by simplify_eq. }
    by rewrite (Hcon eq_refl).
  - assert (Hi' : (i + cnt <= length (babs b))%nat) by (rewrite length_babs, Hc, <- length_babs; lia).
    destruct (bitmap_set_multiple_spec b i cnt false Hwf Hi') as (b2 & E3 & Hwf2 & Hc2 & Hb2).
    pose proof (set_multiple_length _ _ _ _ _ E3) as Hlen2.
    rewrite (stbind_step _ _ s1 BITMAP_ERROR (with_free_map s2 b2)).
    2:{ rewrite (stbind_step _ _ s1 _ _ E2). cbv iota.
        rewrite (stbind_step _ _ s2 b2 s2) by (unfold lift; by rewrite E3). done. }
    rewrite Z.eqb_refl. cbn [negb]. exists None, (with_free_map s2 b2).
    cbn [free_map with_free_map inodes files free_map_file].
    split_and!; try done; [by eapply bitmap_exact_same|by rewrite Hc2|].
    pose proof (marked_marked (babs (free_map s)) i cnt true false Hi) as Hmm.
    rewrite (marked_id _ _ _ _ Hrun) in Hmm. rewrite Hb2, <- Hmm. unfold marked. by rewrite Hb.
Qed.

Lemma run_of_all l i cnt v : run_of l i cnt v -> negb v ∉ take cnt (drop i l).
Proof. intros ->. intros Hin. apply elem_of_replicate in Hin as [Hv _]. by destruct v. Qed.

Lemma free_map_release_spec s (sec cnt : nat) i :
  bitmap_exact (free_map s) -> holds_bitmap s (free_map_file s) (bit_cnt (free_map s)) i ->
  (sec + cnt <= length (babs (free_map s)))%nat -> run_of (babs (free_map s)) sec cnt true ->
  exists s', free_map_release (Z.of_nat sec) (Z.of_nat cnt) s = Ok (tt, s') /\
    bitmap_exact (free_map s') /\ bit_cnt (free_map s') = bit_cnt (free_map s) /\
    babs (free_map s') = marked (babs (free_map s)) sec cnt false /\
    inodes s' = inodes s /\ open_inodes s' = open_inodes s /\ files s' = files s /\
    free_map_file s' = free_map_file s /\ next_addr s' = next_addr s /\
    dev_wf s' /\ length (dev s') = length (dev s).
Proof.
  intros Hex Hold Hle Hrun. unfold free_map_release. rewrite (stbind_step _ _ s s s) by done.
  assert (Eall : bitmap_all (free_map s) (Z.of_nat sec) (Z.of_nat cnt) = Ok true).
  { unfold bitmap_all. rewrite bitmap_contains_spec by (done || apply Hex). cbn [mbind res_bind].
    rewrite bool_decide_false; [done|]. by apply (run_of_all _ _ _ true). }
  rewrite (stbind_step _ _ s true s) by (unfold lift; by rewrite Eall).
  rewrite (stbind_step _ _ s tt s) by done.
  destruct (bitmap_set_multiple_spec (free_map s) sec cnt false (proj1 Hex) Hle) as (b & E & Hwf & Hc & Hb).
  rewrite (stbind_step _ _ s b s) by (unfold lift; by rewrite E).
  pose proof (set_multiple_length _ _ _ _ _ E) as Hlen.
  assert (Hexb : bitmap_exact b) by (by eapply bitmap_exact_same).
  rewrite (stbind_step _ _ s tt (with_free_map s b)) by done. set (s1 := with_free_map s b).
  assert (Hold1 : holds_bitmap s1 (free_map_file s) (bit_cnt b) i) by (rewrite Hc; exact Hold).
  destruct (bitmap_write_spec s1 b (free_map_file s) i Hexb Hold1) as (ok & s2 & E2 & (n & m & Es2 & Hwf2 & Hl2 & _) & _).
  rewrite (stbind_step _ _ s1 ok s2 E2). exists s2. split; [done|].
  assert (Hs2 : free_map s2 = b) by (by rewrite Es2).
  rewrite Hs2, Hc. split_and!; try done; try apply Hwf2; try (by rewrite Es2).
Qed.

(** ** The table of open inodes *)

Definition table_ok (s : fs) : Prop :=
  NoDup (open_inodes s) /\
  (forall ip, ip ∈ open_inodes s <-> is_Some (inodes s !! ip)) /\
  (forall ip i, inodes s !! ip = Some i ->
     0 < ip < next_addr s /\ 1 <= open_cnt i /\ 0 <= deny_write_cnt i <= open_cnt i) /\
  (forall ip jp i j, inodes s !! ip = Some i -> inodes s !! jp = Some j -> sector i = sector j -> ip = jp) /\
  0 < next_addr s.

Lemma find_open_spec s sec l :
  (forall ip, ip ∈ l -> is_Some (inodes s !! ip)) ->
  exists o, find_open l sec s = Ok (o, s) /\
    match o with
    | Some ip => ip ∈ l /\ exists i, inodes s !! ip = Some i /\ sector i = sec
    | None => forall ip i, ip ∈ l -> inodes s !! ip = Some i -> sector i <> sec
    end.
Proof.
  induction l as [|ip l IH]; intros Hl; cbn [find_open].
  - exists None. split; [done|]. intros ip i Hin. by apply elem_of_nil in Hin.
  - destruct (Hl ip) as [i Hi]; [by left|]. rewrite (stbind_step _ _ s i s (get_inode_Ok s ip i Hi)).
    destruct (Z.eqb_spec (sector i) sec) as [Hs|Hs].
    + exists (Some ip). split; [done|]. split; [by left|]. eauto.
    + destruct IH as (o & E & Ho); [intros; apply Hl; by right|]. exists o. split; [done|].
      destruct o as [jp|].
      * destruct Ho as [Hin Hj]. split; [by right|done].
      * intros jp j [->|Hin]%elem_of_cons Hj; [by simplify_eq|eauto].
Qed.

(** Changing the counters of an open inode keeps the table well-formed. *)
Lemma table_ok_update s ip i i' :
  table_ok s -> inodes s !! ip = Some i -> sector i' = sector i -> 1 <= open_cnt i' ->
  0 <= deny_write_cnt i' <= open_cnt i' -> table_ok (with_inodes s (<[ip := i']> (inodes s))).
Proof.
  intros (HN & Hdom & Hcnt & Hinj & Hna) Hi Hs Ho Hd. split_and!; cbn; [done| | | |done].
  - intros jp. rewrite Hdom, lookup_insert_is_Some'. split; [by right|].
    intros [<-|?]; [by rewrite Hi|done].
  - intros jp j. rewrite lookup_insert_Some. intros [[<- <-]|[_ Hj]]; [|by apply Hcnt].
    split; [by apply (Hcnt ip i)|done].
  - intros ap bp a b. rewrite !lookup_insert_Some.
    intros [[<- <-]|[Ha1 Ha2]] [[<- <-]|[Hb1 Hb2]] Hab; try done.
    + eapply Hinj; [exact Hi|exact Hb2|congruence].
    + eapply Hinj; [exact Ha2|exact Hi|congruence].
    + by eapply Hinj.
Qed.

Definition bump (i : inode) : inode :=
  MkInode (sector i) (open_cnt i + 1) (removed i) (deny_write_cnt i) (data i).

Lemma inode_open_spec s sec :
  table_ok s -> 0 <= sec < Z.of_nat (length (dev s)) ->
  exists ip s', inode_open sec s = Ok (ip, s') /\ table_ok s' /\ dev s' = dev s /\
    ((exists i, inodes s !! ip = Some i /\ sector i = sec /\ inodes s' = <[ip := bump i]> (inodes s)) \/
     ((forall jp j, inodes s !! jp = Some j -> sector j <> sec) /\
      ((ip = 0 /\ inodes s' = inodes s) \/
       (ip <> 0 /\ inodes s !! ip = None /\ exists b, dev s !! Z.to_nat sec = Some b /\
          inodes s' = <[ip := MkInode sec 1 false 0 (inode_disk_of b)]> (inodes s))))).
Proof.
  intros Hok Hsec. pose proof Hok as (HN & Hdom & Hcnt & Hinj & Hna).
  unfold inode_open. rewrite (stbind_step _ _ s s s) by done.
  destruct (find_open_spec s sec (open_inodes s)) as (o & E & Ho); [intros ip; by apply Hdom|].
  rewrite (stbind_step _ _ s o s E). destruct o as [ip|].
  - destruct Ho as (Hin & i & Hi & Hs). destruct (Hcnt ip i Hi) as (Hip & Hoc & Hd). unfold inode_reopen.
    rewrite (proj2 (Z.eqb_neq ip 0)) by lia. cbn [negb].
    rewrite (stbind_step _ _ s i s (get_inode_Ok s ip i Hi)).
    exists ip, (with_inodes s (<[ip := bump i]> (inodes s))). split_and!; [done| |done|].
    + apply (table_ok_update s ip i); cbn; (done || lia).
    + left. by exists i.
  - assert (Hno : forall jp j, inodes s !! jp = Some j -> sector j <> sec).
    { intros jp j Hj. apply (Ho jp); [|done]. apply Hdom. eauto. }
    destruct (malloc_Ok s) as (ok & m & Em & _). rewrite (stbind_step _ _ s ok _ Em).
    destruct ok; cbn [negb].
    2:{ exists 0, (with_mallocs s m). split_and!; [done|by split_and!|done|]. right. split; [done|]. by left. }
    rewrite (stbind_step _ _ _ (next_addr s) (with_next (with_mallocs s m) (next_addr s + 1))) by done.
    set (ip := next_addr s). set (s1 := with_next (with_mallocs s m) (ip + 1)).
    rewrite (stbind_step _ _ s1 tt (with_open s1 (ip :: open_inodes s))) by done.
    destruct (block_read_Ok (with_open s1 (ip :: open_inodes s)) sec Hsec) as (b & Eb & Hb).
    rewrite (stbind_step _ _ _ b _ Eb).
    assert (Hfresh : inodes s !! ip = None).
    { destruct (inodes s !! ip) as [j|] eqn:Ej; [|done]. destruct (Hcnt ip j Ej). unfold ip in *. lia. }
    eexists ip, _. split; [done|]. cbn [dev inodes with_inodes with_open].
    split_and!; [|done|right; split; [done|]; right; split_and!; [unfold ip; lia|done|by exists b]].
    split_and!; cbn.
    + constructor; [|done]. rewrite Hdom. unfold ip in *. rewrite Hfresh. by intros [? ?].
    + intros jp. rewrite elem_of_cons, lookup_insert_is_Some', Hdom. naive_solver.
    + intros jp j. rewrite lookup_insert_Some. intros [[<- <-]|[_ Hj]]; cbn.
      * unfold ip. lia.
      * destruct (Hcnt jp j Hj) as (? & ? & ?). unfold ip. lia.
    + intros ap bp a c. rewrite !lookup_insert_Some.
      intros [[<- <-]|[Ha1 Ha2]] [[<- <-]|[Hb1 Hb2]] Hab; cbn in *; try done.
      * by apply Hno in Hb2.
      * by apply Hno in Ha2.
      * by eapply Hinj.
    + unfold ip. lia.
Qed.

Definition drop_ref (i : inode) : inode :=
  MkInode (sector i) (open_cnt i - 1) (removed i) (deny_write_cnt i) (data i).

(** Taking an inode out of the table keeps it well-formed. *)
Lemma table_ok_delete s ip :
  table_ok s -> table_ok (with_inodes (with_open s (filter (fun x => x <> ip) (open_inodes s)))
                  (delete ip (inodes s))).
Proof.
  intros (HN & Hdom & Hcnt & Hinj & Hna). split_and!; cbn; [by apply NoDup_filter| | | |done].
  - intros jp. rewrite list_elem_of_filter, Hdom, lookup_delete_is_Some. naive_solver.
  - intros jp j [_ Hj]%lookup_delete_Some. by apply (Hcnt jp).
  - intros ap bp a b [_ Ha]%lookup_delete_Some [_ Hb]%lookup_delete_Some. by eapply Hinj.
Qed.

Lemma table_ok_ext s s' :
  open_inodes s' = open_inodes s -> inodes s' = inodes s -> next_addr s' = next_addr s ->
  table_ok s -> table_ok s'.
Proof. unfold table_ok. by intros -> -> ->. Qed.

Lemma inode_close_shared s ip i :
  table_ok s -> inodes s !! ip = Some i -> 1 < open_cnt i -> deny_write_cnt i < open_cnt i ->
  exists s', inode_close ip s = Ok (tt, s') /\ table_ok s' /\
    s' = with_inodes s (<[ip := drop_ref i]> (inodes s)).
Proof.
  intros Hok Hi Ho Hd. pose proof Hok as (_ & _ & Hcnt & _). destruct (Hcnt ip i Hi) as (? & ? & ?).
  unfold inode_close. rewrite (proj2 (Z.eqb_neq ip 0)) by lia.
  rewrite (stbind_step _ _ s i s (get_inode_Ok s ip i Hi)).
  rewrite (stbind_step _ _ s tt (with_inodes s (<[ip := drop_ref i]> (inodes s)))) by done.
  rewrite (proj2 (Z.eqb_neq (open_cnt i - 1) 0)) by lia.
  eexists. split; [done|]. split; [|done]. apply (table_ok_update s ip i); cbn; (done || lia).
Qed.

Lemma inode_close_last s ip i :
  table_ok s -> inodes s !! ip = Some i -> open_cnt i = 1 -> removed i = false ->
  exists s', inode_close ip s = Ok (tt, s') /\ table_ok s' /\
    inodes s' = delete ip (inodes s) /\ free_map s' = free_map s /\ dev s' = dev s.
Proof.
  intros Hok Hi Ho Hr. pose proof Hok as (_ & _ & Hcnt & _). destruct (Hcnt ip i Hi) as (? & ? & ?).
  unfold inode_close. rewrite (proj2 (Z.eqb_neq ip 0)) by lia.
  rewrite (stbind_step _ _ s i s (get_inode_Ok s ip i Hi)).
  set (s1 := with_inodes s (<[ip := drop_ref i]> (inodes s))).
  rewrite (stbind_step _ _ s tt s1) by done. rewrite Ho. change (1 - 1 =? 0) with true. cbv iota.
  set (s2 := with_open s1 (filter (fun x => x <> ip) (open_inodes s))).
  rewrite (stbind_step _ _ s1 tt s2) by done. rewrite Hr, (stbind_step _ _ s2 tt s2) by done.
  eexists. split; [done|]. cbn. rewrite delete_insert_eq. split_and!; try done.
  eapply table_ok_ext; [..|apply (table_ok_delete s ip Hok)]; cbn; (done || apply delete_insert_eq).
Qed.

Lemma run_of_marked l i cnt v j n w :
  (i + cnt <= length l)%nat -> (j + n <= i \/ i + cnt <= j)%nat -> run_of l j n w ->
  run_of (marked l i cnt v) j n w.
Proof.
  intros Hl Hdis Hr. unfold run_of in *. rewrite <- Hr. apply list_eq. intros x.
  rewrite !lookup_take. case_decide; [|done]. rewrite !lookup_drop. unfold marked. destruct Hdis.
  - rewrite lookup_app_l by (rewrite length_take; lia). by rewrite lookup_take, decide_True by lia.
  - rewrite lookup_app_r; rewrite length_take, Nat.min_l by lia; [|lia].
    rewrite lookup_app_r; rewrite length_replicate; [|lia]. rewrite lookup_drop. f_equal. lia.
Qed.

Lemma length_marked l i cnt v : (i + cnt <= length l)%nat -> length (marked l i cnt v) = length l.
Proof. intros. unfold marked. rewrite !length_app, length_take, length_replicate, length_drop. lia. Qed.

Lemma holds_bitmap_ext s s' fp cnt i :
  files s' = files s -> (forall f, files s !! fp = Some f -> inodes s' !! f_inode f = inodes s !! f_inode f) ->
  dev_wf s' -> length (dev s') = length (dev s) -> holds_bitmap s fp cnt i -> holds_bitmap s' fp cnt i.
Proof.
  intros Hf Hi Hwf Hl (f & Hf1 & Hi1 & (_ & Hok) & Hrest). exists f. rewrite Hf, (Hi f Hf1).
  split_and!; try done; try apply Hrest. unfold inode_ok. rewrite Hl. by split.
Qed.

(** The last close of a removed inode gives back its sector and its data. *)
Lemma inode_close_removed s ip i k (sec st cnt : nat) :
  table_ok s -> inodes s !! ip = Some i -> open_cnt i = 1 -> removed i = true ->
  bitmap_exact (free_map s) -> holds_bitmap s (free_map_file s) (bit_cnt (free_map s)) k ->
  (forall f, files s !! free_map_file s = Some f -> f_inode f <> ip) ->
  sector i = Z.of_nat sec -> start (data i) = Z.of_nat st ->
  bytes_to_sectors (length_ (data i)) = Z.of_nat cnt ->
  (sec < length (babs (free_map s)))%nat -> (st + cnt <= length (babs (free_map s)))%nat ->
  (st + cnt <= sec \/ sec + 1 <= st)%nat ->
  run_of (babs (free_map s)) sec 1 true -> run_of (babs (free_map s)) st cnt true ->
  exists s', inode_close ip s = Ok (tt, s') /\ table_ok s' /\ inodes s' = delete ip (inodes s) /\
    babs (free_map s') = marked (marked (babs (free_map s)) sec 1 false) st cnt false.
Proof.
  intros Hok Hi Ho Hr Hex Hold Hfi Esec Est Ecnt Hsec Hst Hdis Hr1 Hr2.
  pose proof Hok as (_ & _ & Hcnt & _). destruct (Hcnt ip i Hi) as (? & ? & ?).
  unfold inode_close. rewrite (proj2 (Z.eqb_neq ip 0)) by lia.
  rewrite (stbind_step _ _ s i s (get_inode_Ok s ip i Hi)).
  set (s1 := with_inodes s (<[ip := drop_ref i]> (inodes s))).
  rewrite (stbind_step _ _ s tt s1) by done. rewrite Ho. change (1 - 1 =? 0) with true. cbv iota.
  set (s2 := with_open s1 (filter (fun x => x <> ip) (open_inodes s))).
  rewrite (stbind_step _ _ s1 tt s2) by done. rewrite Hr, Esec, Est, Ecnt.
  assert (Hdwf : dev_wf s) by (destruct Hold as (? & _ & _ & (? & _) & _); done).
  assert (Hold2 : holds_bitmap s2 (free_map_file s2) (bit_cnt (free_map s2)) k).
  { eapply holds_bitmap_ext; [..|exact Hold]; [done| |done|done].
    intros f Hf. cbn. apply lookup_insert_ne. intros E. by apply (Hfi f Hf). }
  destruct (free_map_release_spec s2 sec 1 k Hex Hold2 ltac:(cbn; lia) Hr1)
    as (s3 & E3 & Hex3 & Hc3 & Hb3 & Hi3 & Ho3 & Hf3 & Hm3 & Hn3 & Hw3 & Hl3).
  assert (Hold3 : holds_bitmap s3 (free_map_file s3) (bit_cnt (free_map s3)) k).
  { rewrite Hm3, Hc3. eapply holds_bitmap_ext; [..|exact Hold2]; [done| |done|done]. intros; by rewrite Hi3. }
  change (free_map s2) with (free_map s) in *.
  destruct (free_map_release_spec s3 st cnt k Hex3 Hold3) as (s4 & E4 & _ & _ & Hb4 & Hi4 & Ho4 & _ & _ & Hn4 & _).
  { rewrite Hb3, length_marked by lia. done. }
  { rewrite Hb3. apply run_of_marked; [lia|lia|done]. }
  change (Z.of_nat 1) with 1 in E3.
  rewrite (stbind_step _ _ s2 tt s4) by (by rewrite (stbind_step _ _ s2 tt s3 E3)).
  eexists. split; [done|]. cbn [inodes with_inodes free_map]. rewrite Hi4, Hi3. cbn [inodes s2 with_open s1 with_inodes].
  rewrite delete_insert_eq. split_and!; [|done|by rewrite <- Hb3, <- Hb4].
  eapply table_ok_ext; [..|apply (table_ok_delete s ip Hok)]; cbn.
  - by rewrite Ho4, Ho3.
  - done.
  - by rewrite Hn4, Hn3.
Qed.

(** ** Properties *)

(** [free_map_allocate] returns: on success the CNT sectors it hands out
    were all free and are exactly the ones now marked, and the map on disk is
    the map in memory; on failure, including a failed write of the map, no
    sector stays marked. *)
Theorem free_map_allocate_correct s (cnt : nat) :
  fm_ok s ->
  exists r s', free_map_allocate (Z.of_nat cnt) s = Ok (r, s') /\
    match r with
    | Some sec => exists i, sec = Z.of_nat i /\ (i + cnt <= length (babs (free_map s)))%nat /\
        run_of (babs (free_map s)) i cnt false /\
        babs (free_map s') = marked (babs (free_map s)) i cnt true /\
        (forall k, holds_bitmap s (free_map_file s) (bit_cnt (free_map s)) k -> free_map_file s <> 0 ->
           contents s' k = words_bytes (bits (free_map s')))
    | None => babs (free_map s') = babs (free_map s)
    end.
Proof.
  intros Hok. destruct (free_map_allocate_spec s cnt Hok) as (r & s' & E & _ & _ & _ & _ & _ & H).
  by exists r, s'.
Qed.

(** Opening an inode twice gives the same [struct inode]: [inode_open]
    bumps the count of the open one, or reads the inode into a fresh structure,
    or fails with NULL when memory is short; the table stays free of duplicates. *)
Theorem inode_open_correct s sec :
  table_ok s -> 0 <= sec < Z.of_nat (length (dev s)) ->
  exists ip s', inode_open sec s = Ok (ip, s') /\ table_ok s' /\ dev s' = dev s /\
    ((exists i, inodes s !! ip = Some i /\ sector i = sec /\ inodes s' = <[ip := bump i]> (inodes s)) \/
     ((forall jp j, inodes s !! jp = Some j -> sector j <> sec) /\
      ((ip = 0 /\ inodes s' = inodes s) \/
       (ip <> 0 /\ inodes s !! ip = None /\ exists b, dev s !! Z.to_nat sec = Some b /\
          inodes s' = <[ip := MkInode sec 1 false 0 (inode_disk_of b)]> (inodes s))))).
Proof. apply inode_open_spec. Qed.

(** Closing the last reference to a removed inode takes it out of the table
    and frees exactly its inode sector and its data sectors. *)
Theorem inode_close_frees s ip i k (sec st cnt : nat) :
  table_ok s -> inodes s !! ip = Some i -> open_cnt i = 1 -> removed i = true ->
  bitmap_exact (free_map s) -> holds_bitmap s (free_map_file s) (bit_cnt (free_map s)) k ->
  (forall f, files s !! free_map_file s = Some f -> f_inode f <> ip) ->
  sector i = Z.of_nat sec -> start (data i) = Z.of_nat st ->
  bytes_to_sectors (length_ (data i)) = Z.of_nat cnt ->
  (sec < length (babs (free_map s)))%nat -> (st + cnt <= length (babs (free_map s)))%nat ->
  (st + cnt <= sec \/ sec + 1 <= st)%nat ->
  run_of (babs (free_map s)) sec 1 true -> run_of (babs (free_map s)) st cnt true ->
  exists s', inode_close ip s = Ok (tt, s') /\ table_ok s' /\ inodes s' = delete ip (inodes s) /\
    babs (free_map s') = marked (marked (babs (free_map s)) sec 1 false) st cnt false.
Proof. apply inode_close_removed. Qed.

(** ** Concrete instances *)

(** Six sectors: the free map's inode in sector 0 with its data in sector 2,
    and a removed inode in sector 3 with its data in sector 4. *)
Definition fm_inode : inode := MkInode 0 1 false 0 (MkInodeDisk 2 4 INODE_MAGIC).
Definition rm_inode : inode := MkInode 3 1 true 0 (MkInodeDisk 4 100 INODE_MAGIC).
Definition sample_fm : fs :=
  MkFs (replicate 6 (replicate 512 0)) {[ 1 := fm_inode; 3 := rm_inode ]} [3; 1]
    {[ 2 := MkFile 1 0 false ]} 4 (mk_bitmap 6 [31]) 2 [].

Lemma sample_fm_exact : bitmap_exact (free_map sample_fm).
Proof.
  split; [|split; [reflexivity|reflexivity]]. split; [cbn; unfold ELEM_BITS; lia|].
  split; [discriminate|]. repeat constructor; discriminate.
Qed.

Lemma sample_fm_holds : holds_bitmap sample_fm 2 6 fm_inode.
Proof.
  exists (MkFile 1 0 false). split; [reflexivity|]. split; [reflexivity|]. split; [|done].
  split; [split; [by repeat constructor|done]|]. cbn. unfold is_s32. lia.
Qed.

Lemma sample_fm_ok : fm_ok sample_fm.
Proof. split; [apply sample_fm_exact|]. right. exists fm_inode. apply sample_fm_holds. Qed.

Lemma sample_fm_table : table_ok sample_fm.
Proof.
  split_and!; cbn; [| | | |lia].
  - repeat constructor; set_solver.
  - intros ip. rewrite !elem_of_cons, elem_of_nil, lookup_insert_is_Some', lookup_singleton_is_Some.
    split; [intros [->|[->|[]]]; auto|intros [<-|<-]; auto].
  - intros ip i. rewrite lookup_insert_Some, lookup_singleton_Some.
    intros [[<- <-]|[_ [<- <-]]]; cbn; lia.
  - intros ip jp i j. rewrite !lookup_insert_Some, !lookup_singleton_Some.
    intros [[<- <-]|[_ [<- <-]]] [[<- <-]|[_ [<- <-]]]; cbn; done.
Qed.

Lemma free_map_allocate_correct_witness :
  exists r s', free_map_allocate 1 sample_fm = Ok (r, s') /\
    match r with
    | Some sec => exists i, sec = Z.of_nat i /\ (i + 1 <= length (babs (free_map sample_fm)))%nat /\
        run_of (babs (free_map sample_fm)) i 1 false /\
        babs (free_map s') = marked (babs (free_map sample_fm)) i 1 true /\
        (forall k, holds_bitmap sample_fm (free_map_file sample_fm) (bit_cnt (free_map sample_fm)) k ->
           free_map_file sample_fm <> 0 -> contents s' k = words_bytes (bits (free_map s')))
    | None => babs (free_map s') = babs (free_map sample_fm)
    end.
Proof. exact (free_map_allocate_correct sample_fm 1 sample_fm_ok). Defined.

Lemma inode_open_correct_witness :
  exists ip s', inode_open 3 sample_fm = Ok (ip, s') /\ table_ok s' /\ dev s' = dev sample_fm /\
    ((exists i, inodes sample_fm !! ip = Some i /\ sector i = 3 /\
        inodes s' = <[ip := bump i]> (inodes sample_fm)) \/
     ((forall jp j, inodes sample_fm !! jp = Some j -> sector j <> 3) /\
      ((ip = 0 /\ inodes s' = inodes sample_fm) \/
       (ip <> 0 /\ inodes sample_fm !! ip = None /\ exists b, dev sample_fm !! 3%nat = Some b /\
          inodes s' = <[ip := MkInode 3 1 false 0 (inode_disk_of b)]> (inodes sample_fm))))).
Proof.
  apply (inode_open_correct sample_fm 3); [apply sample_fm_table|]. split; [discriminate|reflexivity].
Defined.

Lemma inode_close_frees_witness :
  exists s', inode_close 3 sample_fm = Ok (tt, s') /\ table_ok s' /\
    inodes s' = delete 3 (inodes sample_fm) /\
    babs (free_map s') = marked (marked (babs (free_map sample_fm)) 3 1 false) 4 1 false.
Proof.
  apply (inode_close_frees sample_fm 3 rm_inode fm_inode 3 4 1); try reflexivity.
  - apply sample_fm_table.
  - apply sample_fm_exact.
  - apply sample_fm_holds.
  - intros f Hf. vm_compute in Hf. injection Hf as <-. discriminate.
  - apply Nat.ltb_lt. reflexivity.
  - apply Nat.leb_le. reflexivity.
  - lia.
Defined.

Lemma bitmap_file_roundtrip_witness :
  exists b1 s', (ok ← bitmap_write (mk_bitmap 6 [31]) 2; bitmap_read (mk_bitmap 6 [0]) 2) sample_fm
      = Ok ((true, b1), s') /\
    bit_cnt b1 = 6 /\ babs b1 = babs (mk_bitmap 6 [31]).
Proof.
  apply (bitmap_file_roundtrip sample_fm (mk_bitmap 6 [31]) (mk_bitmap 6 [0]) 2 fm_inode).
  - apply sample_fm_exact.
  - split; [|split; [reflexivity|reflexivity]]. split; [cbn; unfold ELEM_BITS; lia|].
    split; [discriminate|]. repeat constructor; discriminate.
  - reflexivity.
  - apply sample_fm_holds.
  - constructor.
Defined.

(** Opening an inode that is open already: the exact state. *)
Lemma inode_open_hit s jp j :
  table_ok s -> inodes s !! jp = Some j ->
  inode_open (sector j) s = Ok (jp, with_inodes s (<[jp := bump j]> (inodes s))).
Proof.
  intros Hok Hj. pose proof Hok as (HN & Hdom & Hcnt & Hinj & Hna).
  unfold inode_open. rewrite (stbind_step _ _ s s s) by done.
  destruct (find_open_spec s (sector j) (open_inodes s)) as (o & E & Ho); [intros ip; by apply Hdom|].
  rewrite (stbind_step _ _ s o s E). destruct o as [ip|].
  - destruct Ho as (Hin & i & Hi & Hs). assert (ip = jp) as -> by (by eapply Hinj). simplify_eq.
    destruct (Hcnt jp j Hj) as (Hip & _). unfold inode_reopen.
    rewrite (proj2 (Z.eqb_neq jp 0)) by lia. cbn [negb].
    by rewrite (stbind_step _ _ s j s (get_inode_Ok s jp j Hj)).
  - exfalso. apply (Ho jp j); [|done|done]. apply Hdom. eauto.
Qed.
