(* ===== verification/Directory.v ===== *)
(** Directories and the top level of the file system: filesys/directory.c and
    filesys/filesys.c.

    A [struct dir_entry] is its 20 bytes: the sector (4, little-endian), the
    name (15) and the in-use flag (1).  A [struct dir] belongs to one caller
    and is passed by value; [None] is NULL.  Names are byte strings without
    their terminator. *)

From stdpp Require Import base list numbers gmap.
From Stdlib Require Import ZArith Lia.
From S2P Require Import Prelude Bitmap Inode FreeMap.

Definition NAME_MAX : Z := 14.
Definition sizeof_dir_entry : Z := 20.

Record dir := MkDir { d_inode : Z; d_pos : Z }.

(** ** Entries *)

Definition e_inode_sector (e : list Z) : Z := le_word (take 4 e).
Definition e_name (e : list Z) : list Z := take 15 (drop 4 e).
Definition e_in_use (e : list Z) : bool := negb (nth 19 e 0 =? 0).

Definition set_in_use (e : list Z) (b : bool) : list Z := <[19%nat := if b then 1 else 0]> e.
Definition set_inode_sector (e : list Z) (sec : Z) : list Z := list_inserts 0 (le_bytes sec) e.

(** [strlcpy (e.name, name, sizeof e.name)] *)
Definition set_name (e : list Z) (name : list Z) : list Z := list_inserts 4 (take 14 name ++ [0]) e.

(** [!strcmp (name, field)]; running past the end of the field is a fault. *)
Fixpoint streq (name field : list Z) : res bool :=
  match field with
  | [] => Err EFault
  | y :: field' =>
      match name with
      | [] => Ok (y =? 0)
      | x :: name' => if x =? y then streq name' field' else Ok false
      end
  end.

(** The prefix of a buffer of 20 bytes that a read replaced. *)
Definition read_into (e bs : list Z) : list Z := bs ++ drop (length bs) e.

(** ** Directories *)

Definition dir_create (sec entry_cnt : Z) : stM fs bool :=
  inode_create sec (s32 (entry_cnt * sizeof_dir_entry)).

Definition dir_open (ip : Z) : stM fs (option dir) :=
  ok ← malloc;
  if negb (ip =? 0) && ok then mret (Some (MkDir ip 0))
  else inode_close ip;; mret None.

Definition dir_open_root : stM fs (option dir) := ip ← inode_open ROOT_DIR_SECTOR; dir_open ip.

Definition dir_reopen (d : dir) : stM fs (option dir) := ip ← inode_reopen (d_inode d); dir_open ip.

Definition dir_close (d : option dir) : stM fs unit :=
  match d with Some d => inode_close (d_inode d) | None => mret tt end.

Definition dir_get_inode (d : dir) : Z := d_inode d.

(** How many whole entries a directory can hold bounds every scan of it. *)
Definition dir_fuel (d : dir) : stM fs nat :=
  i ← get_inode (d_inode d); mret (S (Z.to_nat (length_ (data i)))).

Fixpoint lookup_loop (fuel : nat) (d : dir) (name : list Z) (ofs : Z) : stM fs (option (list Z * Z)) :=
  match fuel with
  | O => raise EFuel
  | S fuel' =>
      e ← inode_read_at (d_inode d) sizeof_dir_entry ofs;
      if Z.of_nat (length e) =? sizeof_dir_entry then
        if e_in_use e then
          eq ← lift (streq name (e_name e));
          if eq : bool then mret (Some (e, ofs)) else lookup_loop fuel' d name (ofs + sizeof_dir_entry)
        else lookup_loop fuel' d name (ofs + sizeof_dir_entry)
      else mret None
  end.

(** The entry found and its offset. *)
Definition lookup (d : dir) (name : list Z) : stM fs (option (list Z * Z)) :=
  fuel ← dir_fuel d; lookup_loop fuel d name 0.

Definition dir_lookup (d : dir) (name : list Z) : stM fs (bool * Z) :=
  r ← lookup d name;
  match r with
  | Some (e, _) => ip ← inode_open (e_inode_sector e); mret (negb (ip =? 0), ip)
  | None => mret (false, 0)
  end.

(** The search for a free slot; [e] is the local variable as the last read left it. *)
Fixpoint free_slot_loop (fuel : nat) (d : dir) (e : list Z) (ofs : Z) : stM fs (list Z * Z) :=
  match fuel with
  | O => raise EFuel
  | S fuel' =>
      bs ← inode_read_at (d_inode d) sizeof_dir_entry ofs;
      let e := read_into e bs in
      if Z.of_nat (length bs) =? sizeof_dir_entry then
        if negb (e_in_use e) then mret (e, ofs)
        else free_slot_loop fuel' d e (ofs + sizeof_dir_entry)
      else mret (e, ofs)
  end.

(** [junk] is what the uninitialised local [e] holds. *)
Definition dir_add (junk : list Z) (d : dir) (name : list Z) (inode_sector : Z) : stM fs bool :=
  if bool_decide (name = []) || (NAME_MAX <? Z.of_nat (length name)) then mret false
  else
    r ← lookup d name;
    match r with
    | Some _ => mret false
    | None =>
        fuel ← dir_fuel d;
        r ← free_slot_loop fuel d junk 0;
        let '(e, ofs) := r in
        let e := set_inode_sector (set_name (set_in_use e true) name) inode_sector in
        n ← inode_write_at (d_inode d) e sizeof_dir_entry ofs;
        mret (n =? sizeof_dir_entry)
    end.

Definition dir_remove (d : dir) (name : list Z) : stM fs bool :=
  r ← lookup d name;
  match r with
  | None => inode_close 0;; mret false
  | Some (e, ofs) =>
      ip ← inode_open (e_inode_sector e);
      if ip =? 0 then inode_close ip;; mret false
      else
        n ← inode_write_at (d_inode d) (set_in_use e false) sizeof_dir_entry ofs;
        if negb (n =? sizeof_dir_entry) then inode_close ip;; mret false
        else
          inode_remove ip;;
          inode_close ip;;
          mret true
  end.

Fixpoint dir_readdir_loop (fuel : nat) (d : dir) : stM fs (option (list Z) * dir) :=
  match fuel with
  | O => raise EFuel
  | S fuel' =>
      e ← inode_read_at (d_inode d) sizeof_dir_entry (d_pos d);
      if Z.of_nat (length e) =? sizeof_dir_entry then
        let d := MkDir (d_inode d) (d_pos d + sizeof_dir_entry) in
        if e_in_use e then mret (Some (e_name e), d) else dir_readdir_loop fuel' d
      else mret (None, d)
  end.

(** The name field of the next entry in use, and the advanced directory. *)
Definition dir_readdir (d : dir) : stM fs (option (list Z) * dir) :=
  fuel ← dir_fuel d; dir_readdir_loop fuel d.

(** ** The file system *)

Definition do_format : stM fs unit :=
  free_map_create;;
  ok ← dir_create ROOT_DIR_SECTOR 16;
  if negb ok then raise EPanic else free_map_close.

(** [present] tells whether a file system device was found; [mem] as in [free_map_init]. *)
Definition filesys_init (present : bool) (mem : list Z) (format : bool) : stM fs unit :=
  if negb present then raise EPanic
  else
    inode_init;;
    free_map_init mem;;
    (if format then do_format else mret tt);;
    free_map_open.

Definition filesys_done : stM fs unit := free_map_close.

Definition filesys_create (junk name : list Z) (initial_size : Z) : stM fs bool :=
  od ← dir_open_root;
  r ← (match od with
       | None => mret (false, 0)
       | Some d =>
           a ← free_map_allocate 1;
           match a with
           | None => mret (false, 0)
           | Some sec =>
               ok ← inode_create sec initial_size;
               if ok : bool then ok ← dir_add junk d name sec; mret (ok, sec)
               else mret (false, sec)
           end
       end : stM fs (bool * Z));
  let '(success, inode_sector) := r in
  (if negb success && negb (inode_sector =? 0) then free_map_release inode_sector 1 else mret tt);;
  dir_close od;;
  mret success.

Definition filesys_open (name : list Z) : stM fs Z :=
  od ← dir_open_root;
  ip ← (match od with
        | Some d => r ← dir_lookup d name; mret (snd r)
        | None => mret 0
        end : stM fs Z);
  dir_close od;;
  file_open ip.

Definition filesys_remove (name : list Z) : stM fs bool :=
  od ← dir_open_root;
  success ← (match od with Some d => dir_remove d name | None => mret false end : stM fs bool);
  dir_close od;;
  mret success.

(** ** A directory as a map from names to inode sectors *)

(** A C string field up to its terminator. *)
Fixpoint cut (l : list Z) : list Z :=
  match l with [] => [] | b :: l' => if b =? 0 then [] else b :: cut l' end.

Definition name_of (e : list Z) : list Z := cut (e_name e).

Definition valid_name (name : list Z) : Prop := Forall (fun b => 0 < b < 256) name.

(** The whole entries of a directory's contents. *)
Definition entries (c : list Z) : list (list Z) :=
  (fun k => take 20 (drop (k * 20) c)) <$> seq 0 (length c / 20).

(** Entries in use have terminated names, and no two of them the same name. *)
Definition dir_wf (es : list (list Z)) : Prop :=
  (forall k e, es !! k = Some e -> length e = 20%nat /\ (e_in_use e = true -> 0 ∈ e_name e)) /\
  (forall k1 k2 e1 e2, es !! k1 = Some e1 -> es !! k2 = Some e2 -> e_in_use e1 = true ->
     e_in_use e2 = true -> name_of e1 = name_of e2 -> k1 = k2).

Definition dirmap (es : list (list Z)) : gmap (list Z) Z :=
  foldr (fun e m => if e_in_use e then <[name_of e := e_inode_sector e]> m else m) ∅ es.

Lemma dirmap_Some es nm x :
  dir_wf es ->
  dirmap es !! nm = Some x <->
  exists k e, es !! k = Some e /\ e_in_use e = true /\ name_of e = nm /\ e_inode_sector e = x.
Proof.
  intros [Ht Hu]. induction es as [|e es IH]; cbn [dirmap foldr].
  - rewrite lookup_empty. split; [done|]. intros (k & e & Hk & _). by rewrite lookup_nil in Hk.
  - fold (dirmap es). destruct IH as [IH1 IH2].
    { intros k e' Hk. by apply (Ht (S k)). }
    { intros k1 k2 e1 e2 H1 H2 U1 U2 HN. specialize (Hu (S k1) (S k2) e1 e2 H1 H2 U1 U2 HN). lia. }
    destruct (e_in_use e) eqn:Eu.
    + rewrite lookup_insert_Some. split.
      * intros [[Hn Hx]|[Hn Hx]]; [by exists 0%nat, e|].
        destruct (IH1 Hx) as (k & e' & Hk & H'). by exists (S k), e'.
      * intros ([|k] & e' & Hk & Hu' & Hn & Hx); simpl in Hk; [simplify_eq; by left|].
        destruct (decide (name_of e = nm)) as [Heq|Hne].
        -- specialize (Hu 0%nat (S k) e e' eq_refl Hk Eu Hu' ltac:(congruence)). lia.
        -- right. split; [done|]. apply IH2. by exists k, e'.
    + split.
      * intros Hx. destruct (IH1 Hx) as (k & e' & Hk & H'). by exists (S k), e'.
      * intros ([|k] & e' & Hk & Hu' & Hn & Hx); simpl in Hk; [simplify_eq; congruence|]. apply IH2. by exists k, e'.
Qed.

(** ** Comparing names *)

Lemma streq_spec name field :
  valid_name name -> 0 ∈ field -> streq name field = Ok (bool_decide (cut field = name)).
Proof.
  revert name. induction field as [|y field IH]; intros name Hv H0; [by apply elem_of_nil in H0|].
  destruct name as [|x name]; cbn [streq cut].
  - destruct (Z.eqb_spec y 0); [by rewrite bool_decide_true|by rewrite bool_decide_false].
  - inversion Hv as [|? ? Hx Hv']; subst. destruct (Z.eqb_spec x y) as [->|Hne].
    + rewrite (proj2 (Z.eqb_neq y 0)) by lia.
      apply elem_of_cons in H0 as [|H0]; [lia|]. rewrite IH by done. f_equal.
      apply bool_decide_ext. naive_solver.
    + rewrite bool_decide_false; [done|]. destruct (Z.eqb_spec y 0); [done|]. naive_solver.
Qed.

Lemma cut_prefix name rest : valid_name name -> cut (name ++ 0 :: rest) = name.
Proof.
  induction 1 as [|x name Hx Hv IH]; [done|]. cbn [app cut].
  rewrite (proj2 (Z.eqb_neq x 0)) by lia. by rewrite IH.
Qed.

(** ** Reading entries *)

Definition dir_ok (s : fs) (d : dir) (i : inode) : Prop :=
  inodes s !! d_inode d = Some i /\ inode_ok s i /\ deny_write_cnt i = 0.

Lemma entries_lookup c k :
  entries c !! k = if decide (k < length c / 20)%nat then Some (take 20 (drop (k * 20) c)) else None.
Proof.
  unfold entries. rewrite list_lookup_fmap. case_decide.
  - by rewrite lookup_seq_lt.
  - by rewrite lookup_seq_ge by lia.
Qed.

Lemma div20 n : (n / 20 * 20 <= n < n / 20 * 20 + 20)%nat.
Proof. pose proof (Nat.div_mod_eq n 20). pose proof (Nat.mod_upper_bound n 20). lia. Qed.

(** Reading 20 bytes at entry [k]: the entry, or a short read at the end. *)
Lemma read_entry s d i k :
  dir_ok s d i -> mallocs_ok s -> (k <= length (contents s i) / 20)%nat ->
  exists bs m, inode_read_at (d_inode d) sizeof_dir_entry (Z.of_nat (k * 20)) s = Ok (bs, with_mallocs s m) /\
    Forall (fun b => b = true) m /\
    match entries (contents s i) !! k with
    | Some e => bs = e /\ length bs = 20%nat
    | None => (length bs < 20)%nat
    end.
Proof.
  intros (Hi & Hok & Hd) Hmo Hk. pose proof (length_contents s i Hok) as Hl.
  pose proof (div20 (length (contents s i))) as H20.
  pose proof Hok as (_ & _ & Hl32 & Hl0 & _).
  destruct (inode_read_at_spec s (d_inode d) i sizeof_dir_entry (Z.of_nat (k * 20)) Hi Hok) as (n & m & -> & _ & Hn);
    [lia|unfold is_s32 in *; lia|]. destruct (Hn Hmo) as [-> Hm]. rewrite Nat2Z.id.
  exists (take (avail i sizeof_dir_entry (Z.of_nat (k * 20))) (drop (k * 20) (contents s i))), m.
  split; [done|]. split; [done|]. rewrite entries_lookup. unfold avail, sizeof_dir_entry. case_decide.
  - replace (Z.to_nat (Z.min 20 (length_ (data i) - Z.of_nat (k * 20)))) with 20%nat by lia.
    split; [done|]. rewrite length_take, length_drop. lia.
  - rewrite length_take, length_drop. lia.
Qed.

Definition matches (name e : list Z) : Prop := e_in_use e = true /\ name_of e = name.

#[local] Instance matches_dec name e : Decision (matches name e).
Proof. unfold matches. apply _. Defined.

Definition find_result (k : nat) (r : option (nat * list Z)) : option (list Z * Z) :=
  match r with Some (j, e) => Some (e, Z.of_nat ((k + j) * 20)) | None => None end.

Lemma lookup_loop_spec name d i fuel : forall s k,
  dir_ok s d i -> mallocs_ok s -> dir_wf (entries (contents s i)) -> valid_name name ->
  (k <= length (contents s i) / 20)%nat -> (length (contents s i) / 20 - k < fuel)%nat ->
  exists m, lookup_loop fuel d name (Z.of_nat (k * 20)) s =
      Ok (find_result k (list_find (matches name) (drop k (entries (contents s i)))), with_mallocs s m) /\
    Forall (fun b => b = true) m.
Proof.
  induction fuel as [|fuel IH]; intros s k Hd Hmo Hwf Hv Hk Hf; [lia|]. cbn [lookup_loop].
  destruct (read_entry s d i k Hd Hmo Hk) as (bs & m & E & Hm & Hbs).
  rewrite (stbind_step _ _ s _ _ E).
  destruct (entries (contents s i) !! k) as [e|] eqn:Ee.
  - destruct Hbs as [-> Hlen]. rewrite Hlen. change (Z.of_nat 20 =? sizeof_dir_entry) with true. cbv iota.
    assert (Hk' : (k < length (contents s i) / 20)%nat).
    { rewrite entries_lookup in Ee. by case_decide. }
    rewrite (drop_S _ _ _ Ee). cbn [list_find].
    destruct (IH (with_mallocs s m) (S k) Hd Hm Hwf Hv Hk'
      ltac:(change (contents (with_mallocs s m) i) with (contents s i); lia)) as (m' & E' & Hm').
    replace (Z.of_nat (k * 20) + sizeof_dir_entry) with (Z.of_nat (S k * 20)) by (unfold sizeof_dir_entry; lia).
    change (contents (with_mallocs s m) i) with (contents s i) in E'.
    assert (Hnext : find_result (S k) (list_find (matches name) (drop (S k) (entries (contents s i)))) =
      find_result k (prod_map S id <$> list_find (matches name) (drop (S k) (entries (contents s i))))).
    { destruct (list_find _ _) as [[j x]|]; [|done]. cbn. do 2 f_equal. lia. }
    destruct (e_in_use e) eqn:Eu.
    + destruct (proj1 Hwf k e Ee) as [_ H0]. rewrite (stbind_step _ _ _ _ (with_mallocs s m)
        (f_equal (fun r => lift r (with_mallocs s m)) (streq_spec name (e_name e) Hv (H0 Eu)))).
      fold (name_of e). destruct (decide (name_of e = name)) as [Hn|Hn].
      * rewrite bool_decide_true by done. rewrite decide_True by done. exists m. split; [|done].
        cbn. by rewrite Nat.add_0_r.
      * rewrite bool_decide_false by done. rewrite decide_False by (by intros [_ ?]).
        exists m'. by rewrite E', <- Hnext.
    + rewrite decide_False by (intros [? _]; congruence). exists m'. by rewrite E', <- Hnext.
  - rewrite (proj2 (Z.eqb_neq _ _)) by (unfold sizeof_dir_entry; lia).
    rewrite (drop_ge (entries _)) by (by apply lookup_ge_None). exists m. done.
Qed.

Lemma dir_fuel_Ok s d i : dir_ok s d i -> dir_fuel d s = Ok (S (length (contents s i)), s).
Proof.
  intros (Hi & Hok & _). unfold dir_fuel. rewrite (stbind_step _ _ s i s (get_inode_Ok s _ i Hi)).
  by rewrite (length_contents s i Hok).
Qed.

Lemma lookup_spec s d i name :
  dir_ok s d i -> mallocs_ok s -> dir_wf (entries (contents s i)) -> valid_name name ->
  exists m, lookup d name s =
      Ok (find_result 0 (list_find (matches name) (entries (contents s i))), with_mallocs s m) /\
    Forall (fun b => b = true) m.
Proof.
  intros Hd Hmo Hwf Hv. unfold lookup. rewrite (stbind_step _ _ s _ _ (dir_fuel_Ok s d i Hd)).
  pose proof (div20 (length (contents s i))).
  destruct (lookup_loop_spec name d i (S (length (contents s i))) s 0 Hd Hmo Hwf Hv) as (m & E & Hm); [lia|lia|].
  exists m. by rewrite drop_0 in E.
Qed.

(** What lookup finds is what the map says. *)
Lemma find_dirmap es name :
  dir_wf es ->
  match list_find (matches name) es with
  | Some (k, e) => es !! k = Some e /\ matches name e /\ dirmap es !! name = Some (e_inode_sector e)
  | None => dirmap es !! name = None
  end.
Proof.
  intros Hwf. destruct (list_find _ _) as [[k e]|] eqn:E.
  - apply list_find_Some in E as (Hk & Hm & _). split_and!; [done|done|].
    apply dirmap_Some; [done|]. exists k, e. by destruct Hm.
  - apply list_find_None in E. apply eq_None_not_Some. intros [x Hx].
    apply dirmap_Some in Hx as (k & e & Hk & Hu & Hn & _); [|done].
    rewrite Forall_lookup in E. by apply (E k e Hk).
Qed.

(** ** Writing entries *)

Lemma length_entries c : length (entries c) = (length c / 20)%nat.
Proof. unfold entries. by rewrite length_fmap, length_seq. Qed.

Lemma entries_inserts c k e :
  (k < length c / 20)%nat -> length e = 20%nat ->
  entries (list_inserts (k * 20) e c) = <[k := e]> (entries c).
Proof.
  intros Hk He. pose proof (div20 (length c)). apply list_eq. intros j.
  rewrite list_lookup_insert, length_entries, !entries_lookup, length_inserts.
  destruct (decide (j < length c / 20)%nat) as [Hj|Hj].
  2:{ by rewrite decide_False by lia. }
  assert (Hlook : forall x, (x < 20)%nat -> list_inserts (k * 20) e c !! (j * 20 + x)%nat =
            if decide (k = j) then e !! x else c !! (j * 20 + x)%nat).
  { intros x Hx. destruct (decide (k = j)) as [->|Hne].
    - rewrite list_lookup_inserts by lia. f_equal. lia.
    - destruct (decide (j < k)%nat); [apply list_lookup_inserts_lt|apply list_lookup_inserts_ge]; lia. }
  destruct (decide (k = j /\ (k < length c / 20)%nat)) as [[Hkj Hlt]|Hne].
  - f_equal. apply list_eq. intros x. rewrite lookup_take. destruct (decide (x < 20)%nat).
    + by rewrite lookup_drop, Hlook, decide_True.
    + symmetry. apply lookup_ge_None_2. lia.
  - f_equal. apply list_eq. intros x. rewrite !lookup_take. destruct (decide (x < 20)%nat); [|done].
    rewrite !lookup_drop, Hlook by done. by rewrite decide_False by lia.
Qed.

Lemma entries_tail c l : entries (list_inserts (length c / 20 * 20) l c) = entries c.
Proof.
  apply list_eq. intros j. rewrite !entries_lookup, length_inserts. case_decide; [|done]. f_equal.
  apply list_eq. intros x. rewrite !lookup_take. case_decide; [|done].
  rewrite !lookup_drop. apply list_lookup_inserts_lt. lia.
Qed.

Definition new_entry (e name : list Z) (sec : Z) : list Z :=
  set_inode_sector (set_name (set_in_use e true) name) sec.

Lemma new_entry_spec e name sec :
  length e = 20%nat -> valid_name name -> (length name <= 14)%nat -> is_u32 sec ->
  length (new_entry e name sec) = 20%nat /\ e_in_use (new_entry e name sec) = true /\
  name_of (new_entry e name sec) = name /\ e_inode_sector (new_entry e name sec) = sec /\
  0 ∈ e_name (new_entry e name sec).
Proof.
  intros He Hv Hn Hs.
  assert (Hlen : length (new_entry e name sec) = 20%nat).
  { unfold new_entry, set_inode_sector, set_name, set_in_use. by rewrite !length_inserts, length_insert. }
  assert (Hsec : take 4 (new_entry e name sec) = le_bytes sec).
  { apply list_eq. intros x. rewrite lookup_take. unfold new_entry, set_inode_sector. case_decide.
    - rewrite list_lookup_inserts; [f_equal; lia|cbn; lia|].
      unfold set_name, set_in_use. rewrite length_inserts, length_insert. lia.
    - symmetry. apply lookup_ge_None_2. cbn. lia. }
  assert (Hname : exists rest, e_name (new_entry e name sec) = name ++ 0 :: rest).
  { exists (drop (S (length name)) (e_name (new_entry e name sec))).
    rewrite <- (take_drop (S (length name)) (e_name (new_entry e name sec))) at 1.
    replace (name ++ 0 :: drop (S (length name)) (e_name (new_entry e name sec)))
      with ((name ++ [0]) ++ drop (S (length name)) (e_name (new_entry e name sec))) by (by rewrite <- app_assoc).
    f_equal. apply list_eq. intros x. rewrite lookup_take. case_decide.
    - unfold e_name. rewrite lookup_take, decide_True, lookup_drop by lia.
      unfold new_entry, set_inode_sector. rewrite list_lookup_inserts_ge by (cbn; lia).
      unfold set_name. rewrite (take_ge name) by lia.
      rewrite list_lookup_inserts; [f_equal; lia|rewrite length_app; cbn; lia|].
      unfold set_in_use. rewrite length_insert. lia.
    - symmetry. apply lookup_ge_None_2. rewrite length_app. cbn. lia. }
  destruct Hname as [rest Hname]. split_and!; [done| | | |].
  - unfold e_in_use. rewrite nth_lookup. unfold new_entry, set_inode_sector.
    rewrite list_lookup_inserts_ge by (cbn; lia). unfold set_name.
    rewrite list_lookup_inserts_ge by (rewrite length_app, length_take; cbn [length]; lia).
    unfold set_in_use. rewrite list_lookup_insert_eq by lia. done.
  - unfold name_of. rewrite Hname. by apply cut_prefix.
  - unfold e_inode_sector. rewrite Hsec. by apply le_word_le_bytes.
  - rewrite Hname. apply elem_of_app. right. by left.
Qed.

Lemma clear_entry_spec e :
  length e = 20%nat -> length (set_in_use e false) = 20%nat /\ e_in_use (set_in_use e false) = false.
Proof.
  intros He. unfold set_in_use, e_in_use. rewrite length_insert. split; [done|].
  rewrite nth_lookup, list_lookup_insert_eq by lia. done.
Qed.

(** Filling a free slot adds a binding. *)
Lemma dirmap_add es k e0 e :
  dir_wf es -> es !! k = Some e0 -> e_in_use e0 = false ->
  length e = 20%nat -> e_in_use e = true -> 0 ∈ e_name e -> dirmap es !! name_of e = None ->
  dir_wf (<[k := e]> es) /\ dirmap (<[k := e]> es) = <[name_of e := e_inode_sector e]> (dirmap es).
Proof.
  intros Hwf Hk He0 Hlen Hu H0 Hno. pose proof (lookup_lt_Some _ _ _ Hk) as Hlt.
  assert (Hno' : forall j x, es !! j = Some x -> e_in_use x = true -> name_of x <> name_of e).
  { intros j x Hj Hx Hn. assert (dirmap es !! name_of e = Some (e_inode_sector x)) as Hbad; [|congruence].
    apply dirmap_Some; [done|]. by exists j, x. }
  assert (Hwf' : dir_wf (<[k := e]> es)).
  { destruct Hwf as [Ht Hun]. split.
    - intros j x. rewrite list_lookup_insert_Some. intros [(-> & -> & _)|[_ Hj]]; [done|by apply (Ht j)].
    - intros j1 j2 x1 x2. rewrite !list_lookup_insert_Some.
      intros [(<- & <- & _)|[Hn1 H1]] [(<- & <- & _)|[Hn2 H2]] U1 U2 HN; [done| | |by eapply Hun].
      + by destruct (Hno' j2 x2 H2 U2).
      + by destruct (Hno' j1 x1 H1 U1). }
  split; [done|]. apply map_eq. intros nm. apply option_eq. intros x.
  rewrite dirmap_Some, lookup_insert_Some, dirmap_Some by done. split.
  - intros (j & y & Hj & Hy & Hn & Hs). rewrite list_lookup_insert_Some in Hj.
    destruct Hj as [(-> & -> & _)|[_ Hj]]; [by left|]. right. split; [|by exists j, y].
    intros E. apply (Hno' j y Hj Hy). congruence.
  - intros [[Hn Hs]|[Hn (j & y & Hj & Hy & Hn' & Hs)]].
    + exists k, e. rewrite list_lookup_insert_eq by done. done.
    + exists j, y. rewrite list_lookup_insert_ne; [done|]. intros ->. simplify_eq. congruence.
Qed.

(** Clearing the in-use flag removes the binding. *)
Lemma dirmap_remove es k e0 e :
  dir_wf es -> es !! k = Some e0 -> e_in_use e0 = true ->
  length e = 20%nat -> e_in_use e = false ->
  dir_wf (<[k := e]> es) /\ dirmap (<[k := e]> es) = delete (name_of e0) (dirmap es).
Proof.
  intros Hwf Hk He0 Hlen Hu. pose proof (lookup_lt_Some _ _ _ Hk) as Hlt.
  assert (Hwf' : dir_wf (<[k := e]> es)).
  { destruct Hwf as [Ht Hun]. split.
    - intros j x. rewrite list_lookup_insert_Some. intros [(-> & -> & _)|[_ Hj]]; [|by apply (Ht j)].
      split; [done|]. congruence.
    - intros j1 j2 x1 x2. rewrite !list_lookup_insert_Some.
      intros [(<- & <- & _)|[Hn1 H1]] [(<- & <- & _)|[Hn2 H2]] U1 U2 HN; [done|congruence|congruence|].
      by eapply Hun. }
  split; [done|]. apply map_eq. intros nm. apply option_eq. intros x.
  rewrite dirmap_Some, lookup_delete_Some, dirmap_Some by done. split.
  - intros (j & y & Hj & Hy & Hn & Hs). rewrite list_lookup_insert_Some in Hj.
    destruct Hj as [(-> & -> & _)|[Hjk Hj]]; [congruence|]. split; [|by exists j, y].
    intros E. apply Hjk. destruct Hwf as [_ Hun]. apply (Hun k j e0 y); congruence.
  - intros (Hn & j & y & Hj & Hy & Hn' & Hs). exists j, y.
    rewrite list_lookup_insert_ne; [done|]. intros ->. simplify_eq.
Qed.

(** ** Adding and removing *)

Lemma free_slot_loop_spec d i fuel : forall s k e,
  dir_ok s d i -> mallocs_ok s -> length e = 20%nat ->
  (k <= length (contents s i) / 20)%nat -> (length (contents s i) / 20 - k < fuel)%nat ->
  (forall j x, (j < k)%nat -> entries (contents s i) !! j = Some x -> e_in_use x = true) ->
  exists e' k' m, free_slot_loop fuel d e (Z.of_nat (k * 20)) s = Ok ((e', Z.of_nat (k' * 20)), with_mallocs s m) /\
    Forall (fun b => b = true) m /\ length e' = 20%nat /\
    match entries (contents s i) !! k' with
    | Some x => x = e' /\ e_in_use e' = false
    | None => k' = (length (contents s i) / 20)%nat /\
        forall j x, entries (contents s i) !! j = Some x -> e_in_use x = true
    end.
Proof.
  induction fuel as [|fuel IH]; intros s k e Hd Hmo He Hk Hf Hall; [lia|]. cbn [free_slot_loop].
  destruct (read_entry s d i k Hd Hmo Hk) as (bs & m & E & Hm & Hbs).
  rewrite (stbind_step _ _ s _ _ E). destruct (entries (contents s i) !! k) as [x|] eqn:Ex.
  - destruct Hbs as [-> Hlen]. rewrite Hlen. change (Z.of_nat 20 =? sizeof_dir_entry) with true. cbv iota.
    assert (Hri : read_into e x = x) by (unfold read_into; rewrite drop_ge by lia; apply app_nil_r).
    rewrite Hri. destruct (e_in_use x) eqn:Eu; cbn [negb].
    + assert (Hk' : (k < length (contents s i) / 20)%nat) by (rewrite entries_lookup in Ex; by case_decide).
      replace (Z.of_nat (k * 20) + sizeof_dir_entry) with (Z.of_nat (S k * 20)) by (unfold sizeof_dir_entry; lia).
      apply (IH (with_mallocs s m) (S k) x Hd Hm Hlen Hk').
      * change (contents (with_mallocs s m) i) with (contents s i). lia.
      * intros j y Hj Hy. destruct (decide (j = k)) as [->|]; [|apply (Hall j); [lia|done]].
        change (contents (with_mallocs s m) i) with (contents s i) in Hy. congruence.
    + exists x, k, m. rewrite Ex. done.
  - rewrite (proj2 (Z.eqb_neq _ _)) by (unfold sizeof_dir_entry; lia).
    exists (read_into e bs), k, m. split; [done|]. split; [done|].
    split; [unfold read_into; rewrite length_app, length_drop; lia|]. rewrite Ex.
    assert (k = (length (contents s i) / 20)%nat) as ->.
    { rewrite entries_lookup in Ex. case_decide; [done|lia]. }
    split; [done|]. intros j y Hy. apply (Hall j); [|done]. rewrite entries_lookup in Hy. by case_decide.
Qed.

Lemma dir_ok_written s s' d i p l : written s s' p l -> dir_ok s d i -> dir_ok s' d i.
Proof.
  intros HW (Hi & Hok & Hd). pose proof (inode_ok_written _ _ _ _ _ HW Hok).
  destruct HW as (m & Es & _). split; [by rewrite Es|done].
Qed.

Lemma dir_ok_mallocs s d i m : dir_ok s d i -> dir_ok (with_mallocs s m) d i.
Proof. done. Qed.

(** Writing the whole entry [k]. *)
Lemma write_entry s d i e k :
  dir_ok s d i -> mallocs_ok s -> length e = 20%nat -> (k <= length (contents s i) / 20)%nat ->
  exists n s', inode_write_at (d_inode d) e sizeof_dir_entry (Z.of_nat (k * 20)) s = Ok (n, s') /\
    dir_ok s' d i /\ mallocs_ok s' /\ open_inodes s' = open_inodes s /\ inodes s' = inodes s /\
    dev_wf s' /\ length (dev s') = length (dev s) /\ next_addr s' = next_addr s /\
    match entries (contents s i) !! k with
    | Some _ => n = sizeof_dir_entry /\ entries (contents s' i) = <[k := e]> (entries (contents s i))
    | None => n <> sizeof_dir_entry /\ entries (contents s' i) = entries (contents s i)
    end.
Proof.
  intros Hd Hmo He Hk. pose proof Hd as (Hi & Hok & Hdn). pose proof (length_contents s i Hok) as Hl.
  pose proof (div20 (length (contents s i))) as H20. pose proof Hok as (_ & _ & Hl32 & _).
  destruct (inode_write_at_spec s (d_inode d) i e sizeof_dir_entry (Z.of_nat (k * 20)) Hi Hok)
    as (n & s' & E & HW & Hn & Hnm);
    [lia|unfold is_s32 in *; lia|unfold avail, sizeof_dir_entry; lia|done|]. specialize (Hnm Hmo).
  assert (Hc : contents s' i = list_inserts (k * 20) (take n e) (contents s i)).
  { rewrite (contents_written s s' i n (Z.of_nat (k * 20)) (take n e)); [by rewrite Nat2Z.id|done|lia| | |done].
    - rewrite length_take. unfold avail, sizeof_dir_entry in *. lia.
    - unfold avail, sizeof_dir_entry in *. lia. }
  exists (Z.of_nat n), s'. pose proof (dir_ok_written _ _ _ _ _ _ HW Hd) as Hd'.
  destruct HW as (m & Es & Hwf' & Hl' & _ & HM).
  split; [done|]. split; [done|]. split; [by apply HM|]. split; [by rewrite Es|]. split; [by rewrite Es|].
  split; [done|]. split; [done|]. split; [by rewrite Es|].
  rewrite entries_lookup, Hc. unfold avail, sizeof_dir_entry in *. case_decide.
  - assert (n = 20%nat) as -> by lia. split; [done|]. rewrite take_ge by lia. by apply entries_inserts.
  - split; [lia|]. assert (k = (length (contents s i) / 20)%nat) as -> by lia. apply entries_tail.
Qed.

Lemma dir_add_spec junk s d i name sec :
  dir_ok s d i -> mallocs_ok s -> dir_wf (entries (contents s i)) -> valid_name name -> is_u32 sec ->
  length junk = 20%nat ->
  let es := entries (contents s i) in
  exists r s', dir_add junk d name sec s = Ok (r, s') /\ dir_ok s' d i /\ mallocs_ok s' /\
    dir_wf (entries (contents s' i)) /\
    dirmap (entries (contents s' i)) = (if r then <[name := sec]> (dirmap es) else dirmap es) /\
    (r = true <-> name <> [] /\ (length name <= 14)%nat /\ dirmap es !! name = None /\
       exists k e, es !! k = Some e /\ e_in_use e = false).
Proof.
  intros Hd Hmo Hwf Hv Hs Hj es. unfold dir_add.
  destruct (bool_decide (name = []) || (NAME_MAX <? Z.of_nat (length name))) eqn:Ebad.
  { exists false, s. split_and!; try done; try apply Hwf; try apply Hd.
    split; [done|]. intros (Hne & Hlen & _). apply orb_true_iff in Ebad as [Hb|Hb].
    - by apply bool_decide_eq_true in Hb.
    - apply Z.ltb_lt in Hb. unfold NAME_MAX in Hb. lia. }
  apply orb_false_iff in Ebad as [Hb1 Hb2]. apply bool_decide_eq_false in Hb1.
  apply Z.ltb_ge in Hb2. unfold NAME_MAX in Hb2. assert (Hlen : (length name <= 14)%nat) by lia.
  destruct (lookup_spec s d i name Hd Hmo Hwf Hv) as (m & E & Hm). fold es in E.
  rewrite (stbind_step _ _ s _ _ E). pose proof (find_dirmap es name Hwf) as Hfind.
  destruct (list_find (matches name) es) as [[k0 e0]|]; cbn [find_result].
  { destruct Hfind as (_ & _ & Hsome). exists false, (with_mallocs s m). split_and!; try done; try apply Hwf; try apply Hd.
    split; [done|]. intros (_ & _ & Hnone & _). congruence. }
  set (s1 := with_mallocs s m). assert (Hd1 : dir_ok s1 d i) by exact Hd.
  rewrite (stbind_step _ _ s1 _ _ (dir_fuel_Ok s1 d i Hd1)).
  pose proof (div20 (length (contents s1 i))) as H20.
  destruct (free_slot_loop_spec d i (S (length (contents s1 i))) s1 0 junk Hd1 Hm Hj)
    as (e & k & m2 & E2 & Hm2 & He & Hslot); [lia|lia|lia|].
  rewrite (stbind_step _ _ s1 _ _ E2). change (contents s1 i) with (contents s i) in *. fold es in Hslot.
  fold (new_entry e name sec).
  destruct (new_entry_spec e name sec He Hv Hlen Hs) as (Hne1 & Hne2 & Hne3 & Hne4 & Hne5).
  set (s2 := with_mallocs s1 m2). assert (Hd2 : dir_ok s2 d i) by exact Hd.
  assert (Hkle : (k <= length (contents s2 i) / 20)%nat).
  { change (contents s2 i) with (contents s i). destruct (es !! k) eqn:Ek; [|lia].
    apply lookup_lt_Some in Ek. unfold es in Ek. rewrite length_entries in Ek. lia. }
  destruct (write_entry s2 d i (new_entry e name sec) k Hd2 Hm2 Hne1 Hkle)
    as (n & s3 & E3 & Hd3 & Hm3 & _ & _ & _ & _ & _ & Hcase).
  change (contents s2 i) with (contents s i) in Hcase. fold es in Hcase.
  rewrite (stbind_step _ _ s2 _ _ E3).
  destruct (es !! k) as [x|] eqn:Ek.
  - destruct Hslot as [-> Hfree]. destruct Hcase as [-> Hes]. rewrite Z.eqb_refl.
    destruct (dirmap_add es k e (new_entry e name sec) Hwf Ek Hfree) as [Hwf3 Hmap]; try done; [by rewrite Hne3|].
    exists true, s3. rewrite Hes. rewrite Hne3, Hne4 in Hmap. split_and!; try done; try apply Hd3; try apply Hwf3.
    split; [|done]. intros _. split_and!; try done. eauto.
  - destruct Hslot as [-> Hfull]. destruct Hcase as [Hn Hes]. rewrite (proj2 (Z.eqb_neq _ _) Hn).
    exists false, s3. rewrite Hes. split_and!; try done; try apply Hd3; try apply Hwf.
    split; [done|]. intros (_ & _ & _ & k' & e' & Hk' & Hu'). rewrite (Hfull k' e' Hk') in Hu'. done.
Qed.

Definition with_removed (j : inode) : inode :=
  MkInode (sector j) (open_cnt j) true (deny_write_cnt j) (data j).

Lemma dir_ok_set s d i jp j' :
  dir_ok s d i -> jp <> d_inode d -> dir_ok (with_inodes s (<[jp := j']> (inodes s))) d i.
Proof. intros (Hi & Hok & Hd) Hne. split; [cbn; by rewrite lookup_insert_ne|done]. Qed.

Lemma dir_remove_open_spec s d i name jp j :
  dir_ok s d i -> mallocs_ok s -> table_ok s -> dir_wf (entries (contents s i)) -> valid_name name ->
  dirmap (entries (contents s i)) !! name = Some (sector j) -> inodes s !! jp = Some j -> sector i <> sector j ->
  exists s', dir_remove d name s = Ok (true, s') /\ dir_ok s' d i /\ table_ok s' /\
    dir_wf (entries (contents s' i)) /\
    dirmap (entries (contents s' i)) = delete name (dirmap (entries (contents s i))) /\
    inodes s' = <[jp := with_removed j]> (inodes s) /\ free_map s' = free_map s.
Proof.
  intros Hd Hmo Htab Hwf Hv Hmap Hj Hij. set (es := entries (contents s i)) in *. unfold dir_remove.
  destruct (lookup_spec s d i name Hd Hmo Hwf Hv) as (m & E & Hm). fold es in E.
  rewrite (stbind_step _ _ s _ _ E). pose proof (find_dirmap es name Hwf) as Hfind.
  destruct (list_find (matches name) es) as [[k e]|]; [|congruence]. cbn [find_result]. rewrite Nat.add_0_l.
  destruct Hfind as (Hk & (Hu & Hn) & Hsome).
  assert (Hsec : e_inode_sector e = sector j) by congruence. rewrite Hsec.
  set (s1 := with_mallocs s m).
  assert (Htab1 : table_ok s1) by (by apply (table_ok_ext s)).
  set (s2 := with_inodes s1 (<[jp := bump j]> (inodes s1))).
  rewrite (stbind_step _ _ s1 jp s2) by (by apply inode_open_hit).
  pose proof Htab as (_ & _ & Hcnt & _). destruct (Hcnt jp j Hj) as (Hjp & Hoc & Hdc).
  rewrite (proj2 (Z.eqb_neq jp 0)) by lia.
  assert (Hne : jp <> d_inode d) by (intros ->; destruct Hd as (Hi & _); simplify_eq; congruence).
  assert (Hd2 : dir_ok s2 d i) by (by apply dir_ok_set).
  destruct (proj1 Hwf k e Hk) as [He20 _]. destruct (clear_entry_spec e He20) as [Hc20 Hcu].
  assert (Hkle : (k <= length (contents s2 i) / 20)%nat).
  { change (contents s2 i) with (contents s i). apply lookup_lt_Some in Hk. unfold es in Hk.
    rewrite length_entries in Hk. lia. }
  destruct (write_entry s2 d i (set_in_use e false) k Hd2 Hm Hc20 Hkle)
    as (n & s3 & E3 & Hd3 & Hm3 & Ho3 & Hi3 & Hw3 & Hl3 & Hn3 & Hcase).
  change (contents s2 i) with (contents s i) in Hcase. fold es in Hcase. rewrite Hk in Hcase.
  destruct Hcase as [-> Hes]. rewrite (stbind_step _ _ s2 _ _ E3). rewrite Z.eqb_refl. cbn [negb].
  assert (Hfm3 : free_map s3 = free_map s).
  { destruct (inode_write_at_spec s2 (d_inode d) i (set_in_use e false) sizeof_dir_entry (Z.of_nat (k * 20)))
      as (n' & s3' & E3' & (mm & Es & _) & _); try apply Hd2.
    - lia.
    - pose proof (div20 (length (contents s2 i))). destruct Hd2 as (_ & Hok2 & _).
      rewrite (length_contents s2 i Hok2) in *. destruct Hok2 as (_ & _ & Hl32 & _). unfold is_s32 in *. lia.
    - unfold avail, sizeof_dir_entry. lia.
    - rewrite E3 in E3'. simplify_eq. by rewrite Es. }
  assert (Hj3 : inodes s3 !! jp = Some (bump j)) by (rewrite Hi3; cbn; apply lookup_insert_eq).
  assert (Htab3 : table_ok s3).
  { apply (table_ok_ext s2); [done|done|done|]. apply (table_ok_update s1 jp j); cbn; (done || lia). }
  set (s4 := with_inodes s3 (<[jp := with_removed (bump j)]> (inodes s3))).
  assert (E4 : inode_remove jp s3 = Ok (tt, s4)).
  { unfold inode_remove. rewrite (proj2 (Z.eqb_neq jp 0)) by lia. cbn [negb].
    rewrite (stbind_step _ _ s3 tt s3) by done.
    by rewrite (stbind_step _ _ s3 _ _ (get_inode_Ok s3 jp _ Hj3)). }
  rewrite (stbind_step _ _ s3 _ _ E4).
  assert (Htab4 : table_ok s4) by (apply (table_ok_update s3 jp (bump j)); cbn; (done || lia)).
  destruct (inode_close_shared s4 jp (with_removed (bump j)) Htab4) as (s5 & E5 & Htab5 & Es5);
    [apply lookup_insert_eq|cbn; lia|cbn; lia|].
  rewrite (stbind_step _ _ s4 _ _ E5). exists s5. split; [done|].
  assert (Hc5 : contents s5 i = contents s3 i) by (by rewrite Es5).
  assert (Hd5 : dir_ok s5 d i) by (rewrite Es5; by repeat apply dir_ok_set).
  destruct (dirmap_remove es k e (set_in_use e false) Hwf Hk Hu Hc20 Hcu) as [Hwf5 Hmap5].
  rewrite Hc5, Hes. split_and!; try done; try apply Hd5; try apply Hwf5.
  - by rewrite Hmap5, Hn.
  - rewrite Es5. cbn. rewrite Hi3. cbn. rewrite !insert_insert_eq. f_equal.
    unfold drop_ref, with_removed, bump. cbn. f_equal. lia.
  - by rewrite Es5.
Qed.

(** ** Properties *)

(** The directory search returns the entry the directory's map has for the
    name, with its inode sector, and nothing when the map has none. *)
Theorem lookup_correct s d i name :
  dir_ok s d i -> mallocs_ok s -> dir_wf (entries (contents s i)) -> valid_name name ->
  exists r m, lookup d name s = Ok (r, with_mallocs s m) /\
    (e_inode_sector ∘ fst) <$> r = dirmap (entries (contents s i)) !! name.
Proof.
  intros Hd Hmo Hwf Hv. destruct (lookup_spec s d i name Hd Hmo Hwf Hv) as (m & E & _).
  eexists _, m. split; [exact E|]. pose proof (find_dirmap (entries (contents s i)) name Hwf) as Hf.
  destruct (list_find _ _) as [[k e]|]; symmetry; apply Hf.
Qed.

(** [dir_add] succeeds exactly when the name is valid and new and the
    directory has a free slot; then the map gains exactly that binding, and
    otherwise it does not change. *)
Theorem dir_add_correct junk s d i name sec :
  dir_ok s d i -> mallocs_ok s -> dir_wf (entries (contents s i)) -> valid_name name -> is_u32 sec ->
  length junk = 20%nat ->
  let es := entries (contents s i) in
  exists r s', dir_add junk d name sec s = Ok (r, s') /\
    dir_wf (entries (contents s' i)) /\
    dirmap (entries (contents s' i)) = (if r then <[name := sec]> (dirmap es) else dirmap es) /\
    (r = true <-> name <> [] /\ (length name <= 14)%nat /\ dirmap es !! name = None /\
       exists k e, es !! k = Some e /\ e_in_use e = false).
Proof.
  intros Hd Hmo Hwf Hv Hs Hj. cbv zeta.
  destruct (dir_add_spec junk s d i name sec Hd Hmo Hwf Hv Hs Hj) as (r & s' & E & _ & _ & H). by exists r, s'.
Qed.

(** Removing a file that is open: its binding disappears from the directory,
    the inode stays in the table of open inodes, marked for deletion at its
    last close, and no sector is freed yet. *)
Theorem dir_remove_open_correct s d i name jp j :
  dir_ok s d i -> mallocs_ok s -> table_ok s -> dir_wf (entries (contents s i)) -> valid_name name ->
  dirmap (entries (contents s i)) !! name = Some (sector j) -> inodes s !! jp = Some j -> sector i <> sector j ->
  exists s', dir_remove d name s = Ok (true, s') /\ table_ok s' /\
    dir_wf (entries (contents s' i)) /\
    dirmap (entries (contents s' i)) = delete name (dirmap (entries (contents s i))) /\
    inodes s' = <[jp := with_removed j]> (inodes s) /\ free_map s' = free_map s.
Proof.
  intros Hd Hmo Ht Hwf Hv Hm Hj Hij.
  destruct (dir_remove_open_spec s d i name jp j Hd Hmo Ht Hwf Hv Hm Hj Hij) as (s' & E & _ & H). by exists s'.
Qed.

(** ** Concrete instances *)

(** A directory of two entries, the first in use for "a" in sector 3, whose
    inode is open. *)
Definition dir_inode : inode := MkInode 1 1 false 0 (MkInodeDisk 2 40 INODE_MAGIC).
Definition a_inode : inode := MkInode 3 1 false 0 (MkInodeDisk 4 100 INODE_MAGIC).
Definition sample_sector : list Z := new_entry (replicate 20 0) [97] 3 ++ replicate 492 0.
Definition sample_dir_fs : fs :=
  MkFs [replicate 512 0; replicate 512 0; sample_sector; replicate 512 0; replicate 512 0]
    {[ 1 := dir_inode; 2 := a_inode ]} [2; 1] ∅ 3 (mk_bitmap 5 [31]) 0 [].
Definition sample_dir : dir := MkDir 1 0.

Lemma sample_dir_ok : dir_ok sample_dir_fs sample_dir dir_inode.
Proof.
  split; [reflexivity|]. split; [|reflexivity].
  split; [split; [repeat constructor|done]|]. cbn. unfold is_s32. lia.
Qed.

Lemma sample_dir_entries :
  entries (contents sample_dir_fs dir_inode) = [new_entry (replicate 20 0) [97] 3; replicate 20 0].
Proof. reflexivity. Qed.

Lemma sample_dir_wf : dir_wf (entries (contents sample_dir_fs dir_inode)).
Proof.
  rewrite sample_dir_entries. split.
  - intros [|[|k]] e Hk; cbn in Hk; simplify_eq; (split; [reflexivity|]); intros Hu; [|done].
    apply elem_of_cons. right. by left.
  - intros [|[|k1]] [|[|k2]] e1 e2 H1 H2 U1 U2 _; cbn in H1, H2; simplify_eq; try done.
Qed.

Lemma sample_dir_table : table_ok sample_dir_fs.
Proof.
  split_and!; cbn; [| | | |lia].
  - repeat constructor; set_solver.
  - intros ip. rewrite !elem_of_cons, elem_of_nil, lookup_insert_is_Some', lookup_singleton_is_Some.
    split; [intros [->|[->|[]]]; auto|intros [<-|<-]; auto].
  - intros ip i. rewrite lookup_insert_Some, lookup_singleton_Some.
    intros [[<- <-]|[_ [<- <-]]]; cbn; lia.
  - intros ip jp i j. rewrite !lookup_insert_Some, !lookup_singleton_Some.
    intros [[<- <-]|[_ [<- <-]]] [[<- <-]|[_ [<- <-]]]; cbn; done.
Qed.

Lemma sample_name_ok b : 0 < b < 256 -> valid_name [b].
Proof. intros Hb. constructor; [done|constructor]. Qed.

Lemma lookup_correct_witness :
  exists r m, lookup sample_dir [97] sample_dir_fs = Ok (r, with_mallocs sample_dir_fs m) /\
    (e_inode_sector ∘ fst) <$> r = dirmap (entries (contents sample_dir_fs dir_inode)) !! [97].
Proof.
  apply (lookup_correct sample_dir_fs sample_dir dir_inode [97]).
  - apply sample_dir_ok.
  - constructor.
  - apply sample_dir_wf.
  - apply sample_name_ok. lia.
Defined.

Lemma dir_add_correct_witness :
  let es := entries (contents sample_dir_fs dir_inode) in
  exists r s', dir_add (replicate 20 7) sample_dir [98] 4 sample_dir_fs = Ok (r, s') /\
    dir_wf (entries (contents s' dir_inode)) /\
    dirmap (entries (contents s' dir_inode)) = (if r then <[[98] := 4]> (dirmap es) else dirmap es) /\
    (r = true <-> [98] <> [] /\ (length [98] <= 14)%nat /\ dirmap es !! [98] = None /\
       exists k e, es !! k = Some e /\ e_in_use e = false).
Proof.
  apply (dir_add_correct (replicate 20 7) sample_dir_fs sample_dir dir_inode [98] 4).
  - apply sample_dir_ok.
  - constructor.
  - apply sample_dir_wf.
  - apply sample_name_ok. lia.
  - split; [discriminate|reflexivity].
  - reflexivity.
Defined.

Lemma dir_remove_open_correct_witness :
  exists s', dir_remove sample_dir [97] sample_dir_fs = Ok (true, s') /\ table_ok s' /\
    dir_wf (entries (contents s' dir_inode)) /\
    dirmap (entries (contents s' dir_inode)) = delete [97] (dirmap (entries (contents sample_dir_fs dir_inode))) /\
    inodes s' = <[2 := with_removed a_inode]> (inodes sample_dir_fs) /\ free_map s' = free_map sample_dir_fs.
Proof.
  apply (dir_remove_open_correct sample_dir_fs sample_dir dir_inode [97] 2 a_inode); try reflexivity.
  - apply sample_dir_ok.
  - constructor.
  - apply sample_dir_table.
  - apply sample_dir_wf.
  - apply sample_name_ok. lia.
  - discriminate.
Defined.

(** ** The whole file system, run *)

(** A blank device of 40 sectors at boot. *)
Definition boot_fs : fs := MkFs (replicate 40 (replicate 512 0)) ∅ [] ∅ 1 (mk_bitmap 0 []) 0 [].

Definition free_sectors (s : fs) : nat := length (filter (fun b => b = false) (babs (free_map s))).

(** The value a run returns and the number of free sectors it leaves. *)
Definition outcome {A} (r : res (A * fs)) : option (A * nat) :=
  match r with Ok (a, s) => Some (a, free_sectors s) | Err _ => None end.

(** Formatting uses four sectors; a file is created, written and read back;
    removing and closing it frees its sectors again. *)
Example format_only : outcome (filesys_init true [0; 0] true boot_fs) = Some (tt, 36%nat).
Proof. vm_compute. reflexivity. Qed.

Definition session : stM fs (bool * list Z * bool * Z) :=
  filesys_init true [0; 0] true;;
  c ← filesys_create (replicate 20 0) [97] 600;
  f ← filesys_open [97];
  file_write f [1; 2; 3] 3;;
  file_seek f 1;;
  bs ← file_read f 2;
  r ← filesys_remove [97];
  file_close f;;
  f ← filesys_open [97];
  mret (c, bs, r, f).

Example session_runs : outcome (session boot_fs) = Some ((true, [2; 3], true, 0), 36%nat).
Proof. vm_compute. reflexivity. Qed.

(** filesys_create leaks: when the name exists already, the failed call
    gives back the inode sector but not the data sectors it allocated, so that
    the disk loses them for good. *)
Theorem filesys_create_leaks_data :
  outcome ((filesys_init true [0; 0] true;;
            filesys_create (replicate 20 0) [97] 600) boot_fs) = Some (true, 33%nat) /\
  outcome ((filesys_init true [0; 0] true;;
            filesys_create (replicate 20 0) [97] 600;;
            filesys_create (replicate 20 0) [97] 600) boot_fs) = Some (false, 31%nat).
Proof. split; vm_compute; reflexivity. Qed.
