(* ===== verification/Thread.v ===== *)
(** Threads and the scheduler: threads/thread.c.

    The kernel runs on one processor.  [kernel] holds the run queue, the list
    of all threads, the [struct thread]s by address, the running thread, the
    tid counter and the synchronization objects of threads/synch.c (whose
    operations are in the file Synch).  Every function here runs with
    interrupts off, so that it is one atomic transition; between transitions an
    interrupt may preempt the running thread.

    What a thread has left to do is its continuation, a list of atomic actions:
    the functions of synch.c, and thread_create and allocate_tid, are the lists
    of the atomic actions they perform.  [switch_threads] saves and restores
    this continuation (and the stack, which is not modelled). *)

From stdpp Require Import base list numbers gmap.
From Stdlib Require Import ZArith Lia.
From S2P Require Import Prelude.

Inductive thread_status := THREAD_RUNNING | THREAD_READY | THREAD_BLOCKED | THREAD_DYING.

#[export] Instance thread_status_eq_dec : EqDecision thread_status.
Proof. solve_decision. Defined.

(** A semaphore: one of its own, the one inside a lock, or the one a waiter on
    a condition variable puts on its stack. *)
Inductive sema_id := SPlain (s : Z) | SLock (l : Z) | SWaiter (w : Z).

#[export] Instance sema_id_eq_dec : EqDecision sema_id.
Proof. solve_decision. Defined.

#[export] Instance sema_id_countable : Countable sema_id.
Proof.
  refine (inj_countable'
    (fun s => match s with SPlain x => inl x | SLock x => inr (inl x) | SWaiter x => inr (inr x) end)
    (fun s => match s with inl x => SPlain x | inr (inl x) => SLock x | inr (inr x) => SWaiter x end) _).
  by intros [].
Defined.

Definition PRI_MIN : Z := 0.
Definition PRI_DEFAULT : Z := 31.
Definition PRI_MAX : Z := 63.
Definition TIME_SLICE : Z := 4.
Definition TID_ERROR : Z := -1.

(** The lock of allocate_tid. *)
Definition tid_lock : Z := 0.

(** Atomic actions. *)
Inductive action :=
  | ASemaInit (s : sema_id) (value : Z)        (* sema_init *)
  | ADown (s : sema_id)                        (* one pass of the loop of sema_down *)
  | AUp (s : sema_id)                          (* sema_up *)
  | AAssertHeld (l : Z)                        (* ASSERT (lock_held_by_current_thread (l)) *)
  | AAssertNotHeld (l : Z)                     (* ASSERT (!lock_held_by_current_thread (l)) *)
  | ASetHolder (l : Z)                         (* l->holder = thread_current () *)
  | AClearHolder (l : Z)                       (* l->holder = NULL *)
  | ATryDown (s : sema_id)                     (* sema_try_down *)
  | ATryAcquire (l : Z)                        (* the rest of lock_try_acquire *)
  | ACondInit (c : Z)                          (* cond_init *)
  | AWaiterInit                                (* sema_init (&waiter.semaphore, 0) *)
  | ACondPush (c : Z)                          (* list_push_back (&cond->waiters, &waiter.elem) *)
  | AWaiterDown                                (* a pass of sema_down (&waiter.semaphore) *)
  | ACondSignal (c : Z)                        (* the body of cond_signal *)
  | ACondBroadcast (c l : Z)                   (* the loop of cond_broadcast *)
  | AYield                                     (* thread_yield *)
  | AExit                                      (* thread_exit *)
  | AIdle                                      (* the loop of idle *)
  | AAllocThread (page_ok : bool) (priority : Z)  (* palloc_get_page and init_thread *)
  | ALoadTid                                   (* tid = next_tid *)
  | AStoreTid                                  (* next_tid = tid + 1 *)
  | AStart (function : Z)                      (* stack frames for FUNCTION, thread_unblock (t) *)
  | AWork.                                     (* computation on the thread's own data *)

Record thread := MkThread {
  status : thread_status;
  tid : Z;
  priority : Z;
  cont : list action;
  v_t : Z;         (* the local variable t of thread_create *)
  v_tid : Z        (* the local variable tid of allocate_tid *)
}.

Record kernel := MkKernel {
  threads : gmap Z thread;
  ready_list : list Z;
  all_list : list Z;
  idle_thread : Z;
  initial_thread : Z;
  current : Z;
  next_tid : Z;
  next_page : Z;
  thread_ticks : Z;
  semas : gmap sema_id (Z * list Z);
  holder : gmap Z Z;
  conds : gmap Z (list Z);
  (* ghost state: who is between the end of sema_down and the sema_up of each
     lock, and the tids handed out *)
  owner : gmap Z Z;
  tid_log : list Z
}.

#[local] Abbreviation K := (stM kernel).

Definition upd_threads (f : gmap Z thread -> gmap Z thread) (k : kernel) : kernel :=
  MkKernel (f (threads k)) (ready_list k) (all_list k) (idle_thread k) (initial_thread k) (current k)
    (next_tid k) (next_page k) (thread_ticks k) (semas k) (holder k) (conds k) (owner k) (tid_log k).
Definition upd_ready (f : list Z -> list Z) (k : kernel) : kernel :=
  MkKernel (threads k) (f (ready_list k)) (all_list k) (idle_thread k) (initial_thread k) (current k)
    (next_tid k) (next_page k) (thread_ticks k) (semas k) (holder k) (conds k) (owner k) (tid_log k).
Definition upd_all (f : list Z -> list Z) (k : kernel) : kernel :=
  MkKernel (threads k) (ready_list k) (f (all_list k)) (idle_thread k) (initial_thread k) (current k)
    (next_tid k) (next_page k) (thread_ticks k) (semas k) (holder k) (conds k) (owner k) (tid_log k).
Definition set_current (t : Z) (k : kernel) : kernel :=
  MkKernel (threads k) (ready_list k) (all_list k) (idle_thread k) (initial_thread k) t
    (next_tid k) (next_page k) (thread_ticks k) (semas k) (holder k) (conds k) (owner k) (tid_log k).
Definition set_next_tid (n : Z) (log : list Z) (k : kernel) : kernel :=
  MkKernel (threads k) (ready_list k) (all_list k) (idle_thread k) (initial_thread k) (current k)
    n (next_page k) (thread_ticks k) (semas k) (holder k) (conds k) (owner k) log.
Definition set_next_page (p : Z) (k : kernel) : kernel :=
  MkKernel (threads k) (ready_list k) (all_list k) (idle_thread k) (initial_thread k) (current k)
    (next_tid k) p (thread_ticks k) (semas k) (holder k) (conds k) (owner k) (tid_log k).
Definition set_ticks (n : Z) (k : kernel) : kernel :=
  MkKernel (threads k) (ready_list k) (all_list k) (idle_thread k) (initial_thread k) (current k)
    (next_tid k) (next_page k) n (semas k) (holder k) (conds k) (owner k) (tid_log k).
Definition upd_semas (f : gmap sema_id (Z * list Z) -> gmap sema_id (Z * list Z)) (k : kernel) : kernel :=
  MkKernel (threads k) (ready_list k) (all_list k) (idle_thread k) (initial_thread k) (current k)
    (next_tid k) (next_page k) (thread_ticks k) (f (semas k)) (holder k) (conds k) (owner k) (tid_log k).
Definition upd_holder (f : gmap Z Z -> gmap Z Z) (k : kernel) : kernel :=
  MkKernel (threads k) (ready_list k) (all_list k) (idle_thread k) (initial_thread k) (current k)
    (next_tid k) (next_page k) (thread_ticks k) (semas k) (f (holder k)) (conds k) (owner k) (tid_log k).
Definition upd_conds (f : gmap Z (list Z) -> gmap Z (list Z)) (k : kernel) : kernel :=
  MkKernel (threads k) (ready_list k) (all_list k) (idle_thread k) (initial_thread k) (current k)
    (next_tid k) (next_page k) (thread_ticks k) (semas k) (holder k) (f (conds k)) (owner k) (tid_log k).
Definition upd_owner (f : gmap Z Z -> gmap Z Z) (k : kernel) : kernel :=
  MkKernel (threads k) (ready_list k) (all_list k) (idle_thread k) (initial_thread k) (current k)
    (next_tid k) (next_page k) (thread_ticks k) (semas k) (holder k) (conds k) (f (owner k)) (tid_log k).

Definition with_status (st : thread_status) (t : thread) : thread :=
  MkThread st (tid t) (priority t) (cont t) (v_t t) (v_tid t).
Definition with_cont (c : list action) (t : thread) : thread :=
  MkThread (status t) (tid t) (priority t) c (v_t t) (v_tid t).
Definition with_tid (n : Z) (t : thread) : thread :=
  MkThread (status t) n (priority t) (cont t) (v_t t) (v_tid t).
Definition with_priority (p : Z) (t : thread) : thread :=
  MkThread (status t) (tid t) p (cont t) (v_t t) (v_tid t).
Definition with_vt (p : Z) (t : thread) : thread :=
  MkThread (status t) (tid t) (priority t) (cont t) p (v_tid t).
Definition with_vtid (n : Z) (t : thread) : thread :=
  MkThread (status t) (tid t) (priority t) (cont t) (v_t t) n.

(** ** Accessors.  [is_thread] is that the pointer refers to a thread. *)

Definition get_thread (t : Z) : K thread := fun k =>
  match threads k !! t with Some x => Ok (x, k) | None => Err EAssert end.
Definition alter_thread (t : Z) (f : thread -> thread) : K unit := modify (upd_threads (alter f t)).

Definition running_thread : K Z := fun k => Ok (current k, k).

Definition thread_current : K Z :=
  t ← running_thread;
  x ← get_thread t;
  assertM (bool_decide (status x = THREAD_RUNNING));;
  mret t.

Definition thread_tid : K Z := t ← thread_current; x ← get_thread t; mret (tid x).
Definition thread_get_priority : K Z := t ← thread_current; x ← get_thread t; mret (priority x).
Definition thread_set_priority (p : Z) : K unit := t ← thread_current; alter_thread t (with_priority p).

(** The thread of a tid, [None] for NULL. *)
Definition get_thread_by_tid (n : Z) (k : kernel) : option Z :=
  snd <$> list_find (fun t => (tid <$> threads k !! t) = Some n) (all_list k).

(** ** The scheduler *)

Definition next_thread_to_run : K Z := fun k =>
  match ready_list k with
  | [] => Ok (idle_thread k, k)
  | t :: l => Ok (t, upd_ready (fun _ => l) k)
  end.

(** [prev] is [None] for NULL. *)
Definition thread_schedule_tail (prev : option Z) : K unit :=
  cur ← running_thread;
  alter_thread cur (with_status THREAD_RUNNING);;
  modify (set_ticks 0);;
  match prev with
  | None => mret tt
  | Some p =>
      x ← get_thread p;
      k ← get;
      if bool_decide (status x = THREAD_DYING) && negb (p =? initial_thread k) then
        assertM (negb (p =? cur));;
        modify (upd_threads (delete p))
      else mret tt
  end.

Definition schedule : K unit :=
  cur ← running_thread;
  next ← next_thread_to_run;
  x ← get_thread cur;
  assertM (negb (bool_decide (status x = THREAD_RUNNING)));;
  _ ← get_thread next;
  modify (set_current next);;
  thread_schedule_tail (if cur =? next then None else Some cur).

Definition thread_block : K unit :=
  t ← thread_current;
  alter_thread t (with_status THREAD_BLOCKED);;
  schedule.

Definition thread_unblock (t : Z) : K unit :=
  x ← get_thread t;
  assertM (bool_decide (status x = THREAD_BLOCKED));;
  modify (upd_ready (fun l => l ++ [t]));;
  alter_thread t (with_status THREAD_READY).

Definition thread_yield : K unit :=
  cur ← thread_current;
  k ← get;
  (if negb (cur =? idle_thread k) then modify (upd_ready (fun l => l ++ [cur]))
   else mret tt);;
  alter_thread cur (with_status THREAD_READY);;
  schedule.

(** process_exit, which comes first, belongs to userprog/process.c. *)
Definition thread_exit : K unit :=
  t ← thread_current;
  modify (upd_all (filter (fun x => x <> t)));;
  alter_thread t (with_status THREAD_DYING);;
  schedule.

(** The timer interrupt: at the end of a time slice the interrupt returns
    through thread_yield. *)
Definition thread_tick : K unit :=
  thread_current;;
  k ← get;
  let n := u32 (thread_ticks k + 1) in
  modify (set_ticks n);;
  if TIME_SLICE <=? n then thread_yield else mret tt.

(** ** Creating threads *)

Definition new_thread (prio : Z) : thread := MkThread THREAD_BLOCKED 0 prio [] 0 0.

Definition init_thread (t prio : Z) : K unit :=
  assertM ((PRI_MIN <=? prio) && (prio <=? PRI_MAX));;
  modify (upd_threads (<[t := new_thread prio]>));;
  modify (upd_all (fun l => l ++ [t])).

(** ** The invariant of the scheduler *)

(** Is the thread between init_thread and thread_unblock of thread_create? *)
Fixpoint creating (c : list action) : bool :=
  match c with
  | [] => false
  | AStart _ :: _ => true
  | AAllocThread _ _ :: _ => false
  | _ :: c' => creating c'
  end.

Definition waiting (k : kernel) (t : Z) (s : sema_id) : Prop :=
  exists v w, semas k !! s = Some (v, w) /\ t ∈ w.

(** A thread that init_thread made and nothing else has touched. *)
Definition newborn (k : kernel) (t : Z) : Prop :=
  (exists x, threads k !! t = Some x /\ status x = THREAD_BLOCKED) /\
  (forall s, ~ waiting k t s) /\ t <> idle_thread k.

(** [running] is false in the middle of a thread switch, when no thread runs;
    [ex] is a thread that is ready and about to be queued. *)
Record sched_inv_but {ex : option Z} (running : bool) (k : kernel) : Prop := {
  si_current : exists x, threads k !! current k = Some x /\ (running = true -> status x = THREAD_RUNNING);
  si_running : forall t x, threads k !! t = Some x -> status x = THREAD_RUNNING ->
                 running = true /\ t = current k;
  si_nodup : NoDup (ready_list k);
  si_ready : forall t, t ∈ ready_list k -> exists x, threads k !! t = Some x /\ status x = THREAD_READY;
  si_idle : idle_thread k ∉ ready_list k;
  si_idle_cont : exists x, threads k !! idle_thread k = Some x /\ cont x = [AIdle] /\ status x <> THREAD_DYING;
  si_sema : forall s v w, semas k !! s = Some (v, w) -> NoDup w /\ 0 <= v;
  si_blocked : forall t s, waiting k t s ->
                 (exists x, threads k !! t = Some x /\ status x = THREAD_BLOCKED) /\ t <> idle_thread k;
  si_one_queue : forall t s s', waiting k t s -> waiting k t s' -> s = s';
  si_pages : forall t x, threads k !! t = Some x -> t < next_page k;
  si_child : forall t x, threads k !! t = Some x -> creating (cont x) = true -> newborn k (v_t x);
  si_children : forall t u x y, threads k !! t = Some x -> threads k !! u = Some y ->
                  creating (cont x) = true -> creating (cont y) = true -> v_t x = v_t y -> t = u;
  si_complete : forall t x, threads k !! t = Some x -> status x = THREAD_READY ->
                  t ∈ ready_list k \/ t = idle_thread k \/ ex = Some t
}.
#[global] Arguments sched_inv_but : clear implicits.

Abbreviation sched_inv := (sched_inv_but None).

(** Everything but the queues and the states of the threads is the same. *)
Record same_code (k k' : kernel) : Prop := {
  sc_threads : forall t x', threads k' !! t = Some x' ->
    exists x, threads k !! t = Some x /\ cont x' = cont x /\ v_t x' = v_t x /\ v_tid x' = v_tid x;
  sc_owner : owner k' = owner k;
  sc_holder : holder k' = holder k;
  sc_tid : next_tid k' = next_tid k;
  sc_log : tid_log k' = tid_log k;
  sc_idle : idle_thread k' = idle_thread k;
  sc_value : forall l v w, semas k' !! SLock l = Some (v, w) -> exists w', semas k !! SLock l = Some (v, w')
}.

Lemma same_code_refl k : same_code k k.
Proof. split; eauto. Qed.

Lemma same_code_trans k1 k2 k3 : same_code k1 k2 -> same_code k2 k3 -> same_code k1 k3.
Proof.
  intros [T1 O1 H1 N1 L1 I1 V1] [T2 O2 H2 N2 L2 I2 V2]. split; try congruence.
  - intros t x3 Hx3. destruct (T2 t x3 Hx3) as (x2 & Hx2 & C2 & D2 & E2).
    destruct (T1 t x2 Hx2) as (x1 & Hx1 & C1 & D1 & E1). exists x1. split_and!; congruence.
  - intros l v w Hv. destruct (V2 l v w Hv) as [w' Hw']. by apply (V1 l v w').
Qed.

(** Changing the status of one thread. *)
Lemma status_same_code k t st : same_code k (upd_threads (alter (with_status st) t) k).
Proof.
  split; try done; [|eauto]. intros u x'. cbn. rewrite lookup_alter_Some.
  intros [(<- & x & Hx & ->)|[_ Hx]]; [by exists x|eauto].
Qed.

(** ** schedule *)

Definition switched (next : Z) (l : list Z) (k : kernel) : kernel :=
  set_ticks 0 (upd_threads (alter (with_status THREAD_RUNNING) next) (set_current next (upd_ready (fun _ => l) k))).

Lemma waiting_switched next l k t s : waiting (switched next l k) t s <-> waiting k t s.
Proof. done. Qed.

Lemma newborn_alter k k' f u t :
  threads k' = alter f u (threads k) -> semas k' = semas k -> idle_thread k' = idle_thread k ->
  u <> t -> newborn k t -> newborn k' t.
Proof.
  intros Ht Hs Hi Hne ((x & Hx & Hst) & Hw & Hid). split; [|split].
  - exists x. rewrite Ht, lookup_alter_ne by done. done.
  - intros s (v & w & Hs' & Hin). apply (Hw s). exists v, w. by rewrite <- Hs.
  - by rewrite Hi.
Qed.

Lemma switched_inv k next l :
  sched_inv false k -> (ready_list k = next :: l \/ ready_list k = [] /\ l = [] /\ next = idle_thread k) ->
  sched_inv true (switched next l k).
Proof.
  intros [Hcur Hrun HN Hready Hidle Hic Hsem Hblk Hone Hpg Hch Hchs Hall] Hnext.
  assert (Hin : exists x, threads k !! next = Some x /\ (forall s, ~ waiting k next s) /\ status x <> THREAD_DYING /\
            (forall c, newborn k c -> next <> c)).
  { destruct Hnext as [E|(E & -> & ->)].
    - destruct (Hready next) as (x & Hx & Hst); [rewrite E; by left|]. exists x. split_and!; [done| |by rewrite Hst|].
      + intros s Hw. destruct (Hblk next s Hw) as ((y & Hy & Hsy) & _). simplify_eq. congruence.
      + intros c ((y & Hy & Hsy) & _) <-. simplify_eq. congruence.
    - destruct Hic as (x & Hx & _ & Hnd). exists x. split_and!; [done| |done|].
      + intros s Hw. by destruct (Hblk _ s Hw) as (_ & ?).
      + by intros c (_ & _ & Hne) <-. }
  destruct Hin as (xn & Hxn & Hnw & Hnd & Hnc).
  assert (Hl : forall t, t ∈ l -> t ∈ ready_list k /\ t <> next).
  { intros t Ht. destruct Hnext as [E|(_ & -> & _)]; [|by apply elem_of_nil in Ht].
    rewrite E in *. apply NoDup_cons in HN as [HN _]. split; [by right|]. intros ->. done. }
  split; cbn.
  - exists (with_status THREAD_RUNNING xn). rewrite lookup_alter_eq, Hxn. done.
  - intros t x. rewrite lookup_alter_Some. intros [(<- & _)|[Hne Hx]] Hst; [done|].
    by destruct (Hrun t x Hx Hst).
  - destruct Hnext as [E|(_ & -> & _)]; [|constructor]. rewrite E in HN. by apply NoDup_cons in HN as [_ ?].
  - intros t Ht. destruct (Hl t Ht) as [Ht' Hne]. destruct (Hready t Ht') as (x & Hx & Hst).
    exists x. by rewrite lookup_alter_ne.
  - intros Hin. by destruct (Hl _ Hin) as [? _].
  - destruct Hic as (x & Hx & Hc & Hd). destruct (decide (next = idle_thread k)) as [->|Hne].
    + exists (with_status THREAD_RUNNING x). rewrite lookup_alter_eq, Hx. done.
    + exists x. by rewrite lookup_alter_ne.
  - done.
  - intros t s Hw. destruct (Hblk t s Hw) as ((x & Hx & Hst) & Hni). split; [|done].
    exists x. rewrite lookup_alter_ne; [done|]. intros ->. by apply (Hnw s).
  - done.
  - intros t x. rewrite lookup_alter_Some. intros [(<- & y & Hy & _)|[_ Hx]]; [by apply (Hpg _ y)|by apply (Hpg _ x)].
  - intros t x. rewrite lookup_alter_Some.
    assert (Hgo : forall c, newborn k c -> newborn (switched next l k) c).
    { intros c Hc. by eapply (newborn_alter k _ _ next); eauto. }
    intros [(<- & y & Hy & ->)|[_ Hx]] Hcr; apply Hgo; [by apply (Hch next y)|by apply (Hch t x)].
  - intros t u x y. rewrite !lookup_alter_Some.
    intros [(<- & x0 & Hx0 & ->)|[Hnt Hx0]] [(<- & y0 & Hy0 & ->)|[Hnu Hy0]] Hc1 Hc2 Hv; [done|..].
    + by apply (Hchs next u x0 y).
    + by apply (Hchs t next x y0).
    + by apply (Hchs t u x y).
  - intros t x. rewrite lookup_alter_Some. intros [(<- & y & Hy & ->)|[Hne Hx]] Hst; [done|].
    destruct (Hall t x Hx Hst) as [Hin|[?|?]]; [|by auto|done]. left.
    destruct Hnext as [E|(E & _)]; rewrite E in Hin; [|by apply elem_of_nil in Hin].
    apply elem_of_cons in Hin as [->|Hin]; done.
Qed.

(** Destroying a dying thread that does not run. *)
Lemma destroy_inv k p x :
  sched_inv true k -> threads k !! p = Some x -> status x = THREAD_DYING -> p <> current k ->
  sched_inv true (upd_threads (delete p) k).
Proof.
  intros [Hcur Hrun HN Hready Hidle Hic Hsem Hblk Hone Hpg Hch Hchs Hall] Hx Hst Hne.
  assert (Hkeep : forall t y, threads k !! t = Some y -> status y <> THREAD_DYING -> delete p (threads k) !! t = Some y).
  { intros t y Hy Hs. rewrite lookup_delete_ne; [done|]. intros ->. simplify_eq. }
  split; cbn; try done.
  - destruct Hcur as (y & Hy & Hs). exists y. by rewrite lookup_delete_ne.
  - intros t y [_ Hy]%lookup_delete_Some. by apply Hrun.
  - intros t Ht. destruct (Hready t Ht) as (y & Hy & Hs). exists y. split; [|done]. apply Hkeep; [done|congruence].
  - destruct Hic as (y & Hy & Hc & Hd). exists y. split; [by apply Hkeep|done].
  - intros t s Hw. destruct (Hblk t s Hw) as ((y & Hy & Hs) & Hni). split; [|done].
    exists y. split; [|done]. apply Hkeep; [done|congruence].
  - intros t y [_ Hy]%lookup_delete_Some. by apply (Hpg t y).
  - intros t y [_ Hy]%lookup_delete_Some Hc. destruct (Hch t y Hy Hc) as ((z & Hz & Hs) & Hw & Hi).
    split; [|by split]. exists z. split; [|done]. apply Hkeep; [done|congruence].
  - intros t u y z [_ Hy]%lookup_delete_Some [_ Hz]%lookup_delete_Some. by apply Hchs.
  - intros t y [_ Hy]%lookup_delete_Some. by apply Hall.
Qed.

(** The scheduler never fails an assertion, and restores the invariant. *)
Lemma schedule_spec k :
  sched_inv false k -> exists k', schedule k = Ok (tt, k') /\ sched_inv true k' /\ same_code k k'.
Proof.
  intros Hinv. unfold schedule. rewrite (stbind_step _ _ k (current k) k) by done.
  set (next := match ready_list k with [] => idle_thread k | t :: _ => t end).
  set (l := match ready_list k with [] => [] | _ :: l => l end).
  assert (Hn : next_thread_to_run k = Ok (next, upd_ready (fun _ => l) k)).
  { unfold next_thread_to_run, next, l. destruct (ready_list k) eqn:E; [|done].
    f_equal. f_equal. destruct k; cbn in *. by subst. }
  rewrite (stbind_step _ _ k _ _ Hn).
  assert (Hcase : ready_list k = next :: l \/ ready_list k = [] /\ l = [] /\ next = idle_thread k).
  { unfold next, l. destruct (ready_list k); [right; done|left; done]. }
  pose proof (switched_inv k next l Hinv Hcase) as Hsw.
  destruct (si_current _ _ Hinv) as (x & Hx & _).
  set (k1 := upd_ready (fun _ => l) k).
  rewrite (stbind_step _ _ k1 x k1) by (unfold get_thread; cbn; by rewrite Hx).
  assert (Hnr : bool_decide (status x = THREAD_RUNNING) = false).
  { apply bool_decide_false. intros Hr. by destruct (si_running _ _ Hinv _ _ Hx Hr). }
  rewrite Hnr. rewrite (stbind_step _ _ k1 tt k1) by done.
  assert (Hxn : exists xn, threads k !! next = Some xn).
  { destruct (si_current _ _ Hsw) as (xn & Hxn & _). cbn in Hxn. apply lookup_alter_Some in Hxn.
    destruct Hxn as [(_ & y & Hy & _)|[? _]]; [by exists y|done]. }
  destruct Hxn as (xn & Hxn).
  rewrite (stbind_step _ _ k1 xn k1) by (unfold get_thread; cbn; by rewrite Hxn).
  rewrite (stbind_step _ _ k1 tt (set_current next k1)) by done.
  unfold thread_schedule_tail. rewrite (stbind_step _ _ _ next (set_current next k1)) by done.
  rewrite (stbind_step _ _ _ tt (upd_threads (alter (with_status THREAD_RUNNING) next) (set_current next k1))) by done.
  rewrite (stbind_step _ _ _ tt (switched next l k)) by done.
  assert (Hsc : same_code k (switched next l k)).
  { apply (same_code_trans _ (upd_threads (alter (with_status THREAD_RUNNING) next) k)); [apply status_same_code|].
    split; try done; eauto. }
  destruct (Z.eqb_spec (current k) next) as [Heq|Hne]; [by exists (switched next l k)|].
  assert (Hxs : threads (switched next l k) !! current k = Some x) by (cbn; by rewrite lookup_alter_ne).
  rewrite (stbind_step _ _ _ x (switched next l k)) by (unfold get_thread; by rewrite Hxs).
  rewrite (stbind_step _ _ _ (switched next l k) (switched next l k)) by done.
  destruct (bool_decide (status x = THREAD_DYING) && negb (current k =? initial_thread (switched next l k))) eqn:E;
    [|by exists (switched next l k)].
  apply andb_true_iff in E as [Hdy%bool_decide_eq_true _].
  rewrite (proj2 (Z.eqb_neq _ _) Hne). cbn [negb].
  rewrite (stbind_step _ _ _ tt (switched next l k)) by done.
  exists (upd_threads (delete (current k)) (switched next l k)). split; [done|]. split; [by eapply destroy_inv|].
  eapply same_code_trans; [exact Hsc|]. split; try done; [|eauto].
  intros t y Hy. cbn in Hy. apply lookup_delete_Some in Hy as [_ Hy]. by exists y.
Qed.

(** ** Blocking, waking, yielding and exiting *)

(** Giving up the processor: the status of the running thread changes. *)
Lemma leave_inv k st :
  sched_inv true k -> st <> THREAD_RUNNING -> (current k = idle_thread k -> st <> THREAD_DYING) ->
  sched_inv_but (if decide (st = THREAD_READY) then Some (current k) else None) false
    (upd_threads (alter (with_status st) (current k)) k).
Proof.
  intros [Hcur Hrun HN Hready Hidle Hic Hsem Hblk Hone Hpg Hch Hchs Hall] Hst Hid.
  destruct Hcur as (x & Hx & Hs). specialize (Hs eq_refl).
  assert (Hother : forall t y, threads k !! t = Some y -> status y <> THREAD_RUNNING ->
            alter (with_status st) (current k) (threads k) !! t = Some y).
  { intros t y Hy Hsy. rewrite lookup_alter_ne; [done|]. intros <-. simplify_eq. }
  split; cbn; try done.
  - exists (with_status st x). by rewrite lookup_alter_eq, Hx.
  - intros t y. rewrite lookup_alter_Some. intros [(<- & z & Hz & ->)|[Hne Hy]] Hr; [done|].
    destruct (Hrun t y Hy Hr) as [_ ->]. done.
  - intros t Ht. destruct (Hready t Ht) as (y & Hy & Hsy). exists y. split; [|done]. apply Hother; [done|congruence].
  - destruct Hic as (y & Hy & Hc & Hd). destruct (decide (current k = idle_thread k)) as [E|E].
    + exists (with_status st y). rewrite E, lookup_alter_eq, Hy. split; [done|]. split; [done|]. by apply Hid.
    + exists y. by rewrite lookup_alter_ne.
  - intros t s Hw. destruct (Hblk t s Hw) as ((y & Hy & Hsy) & Hni). split; [|done].
    exists y. split; [|done]. apply Hother; [done|congruence].
  - intros t y. rewrite lookup_alter_Some. intros [(<- & z & Hz & _)|[_ Hy]]; eauto.
  - assert (Hgo : forall c, newborn k c -> newborn (upd_threads (alter (with_status st) (current k)) k) c).
    { intros c Hc. pose proof Hc as ((y & Hy & Hsy) & _). eapply newborn_alter; try done. intros <-. simplify_eq. congruence. }
    intros t y. rewrite lookup_alter_Some. intros [(<- & z & Hz & ->)|[_ Hy]] Hc; apply Hgo; [exact (Hch _ z Hz Hc)|exact (Hch _ y Hy Hc)].
  - intros t u y z. rewrite !lookup_alter_Some.
    intros [(<- & y0 & Hy0 & ->)|[Hnt Hy0]] [(<- & z0 & Hz0 & ->)|[Hnu Hz0]] Hc1 Hc2 Hv; [done|..].
    + by apply (Hchs (current k) u y0 z).
    + by apply (Hchs t (current k) y z0).
    + by apply (Hchs t u y z).
  - intros t y. rewrite lookup_alter_Some. intros [(<- & z & Hz & ->)|[_ Hy]] Hr.
    + cbn in Hr. rewrite decide_True by done. auto.
    + destruct (Hall t y Hy Hr) as [?|[?|?]]; auto; done.
Qed.

(** A thread that is queued, or is the idle thread, needs no exemption. *)
Lemma exempt_done ex b k :
  sched_inv_but ex b k -> (forall t, ex = Some t -> t = idle_thread k \/ t ∈ ready_list k) -> sched_inv b k.
Proof.
  intros [Hcur Hrun HN Hready Hidle Hic Hsem Hblk Hone Hpg Hch Hchs Hall] Hex. split; try done.
  intros t x Hx Hst. destruct (Hall t x Hx Hst) as [?|[?|E]]; auto. destruct (Hex t E); auto.
Qed.

Lemma thread_current_Ok k : sched_inv true k -> thread_current k = Ok (current k, k).
Proof.
  intros Hinv. destruct (si_current _ _ Hinv) as (x & Hx & Hs). specialize (Hs eq_refl).
  unfold thread_current. rewrite (stbind_step _ _ k (current k) k) by done.
  rewrite (stbind_step _ _ k x k) by (unfold get_thread; by rewrite Hx).
  rewrite bool_decide_true by done. by rewrite (stbind_step _ _ k tt k).
Qed.

Lemma thread_block_spec k :
  sched_inv true k -> exists k', thread_block k = Ok (tt, k') /\ sched_inv true k' /\ same_code k k'.
Proof.
  intros Hinv. unfold thread_block. rewrite (stbind_step _ _ k _ _ (thread_current_Ok k Hinv)).
  rewrite (stbind_step _ _ k tt (upd_threads (alter (with_status THREAD_BLOCKED) (current k)) k)) by done.
  destruct (schedule_spec _ (leave_inv k THREAD_BLOCKED Hinv ltac:(done) ltac:(done))) as (k' & E & Hinv' & Hsc).
  exists k'. split_and!; [done|done|]. eapply same_code_trans; [apply status_same_code|done].
Qed.

(** Appending a READY thread that is not in the queue. *)
Lemma enqueue_inv b k t x :
  sched_inv_but (Some t) b k -> threads k !! t = Some x -> status x = THREAD_READY -> t ∉ ready_list k ->
  t <> idle_thread k -> sched_inv b (upd_ready (fun l => l ++ [t]) k).
Proof.
  intros [Hcur Hrun HN Hready Hidle Hic Hsem Hblk Hone Hpg Hch Hchs Hall] Hx Hst Hnin Hni.
  split; cbn; try done.
  - apply NoDup_app. split; [done|]. split; [|apply NoDup_singleton].
    intros u Hu ->%list_elem_of_singleton. done.
  - intros u [Hu| ->%list_elem_of_singleton]%elem_of_app; eauto.
  - rewrite elem_of_app, list_elem_of_singleton. intros [?|?]; congruence.
  - intros u y Hy Hr. rewrite elem_of_app, list_elem_of_singleton.
    destruct (Hall u y Hy Hr) as [?|[?|[= ->]]]; auto.
Qed.

Lemma thread_yield_spec k :
  sched_inv true k -> exists k', thread_yield k = Ok (tt, k') /\ sched_inv true k' /\ same_code k k'.
Proof.
  intros Hinv. unfold thread_yield. rewrite (stbind_step _ _ k _ _ (thread_current_Ok k Hinv)).
  rewrite (stbind_step _ _ k k k) by done.
  destruct (si_current _ _ Hinv) as (x & Hx & Hs). specialize (Hs eq_refl).
  set (k1 := upd_threads (alter (with_status THREAD_READY) (current k)) k).
  pose proof (leave_inv k THREAD_READY Hinv ltac:(done) ltac:(done)) as Hinv1. fold k1 in Hinv1.
  assert (Hsc1 : same_code k k1) by apply status_same_code.
  destruct (Z.eqb_spec (current k) (idle_thread k)) as [E|E]; cbn [negb].
  - rewrite (stbind_step _ _ k tt k) by done. rewrite (stbind_step _ _ k tt k1) by done.
    destruct (schedule_spec k1) as (k' & Es & Hinv' & Hsc).
    { eapply exempt_done; [exact Hinv1|]. intros t [= <-]. by left. }
    exists k'. split_and!; [done|done|by eapply same_code_trans].
  - rewrite (stbind_step _ _ k tt (upd_ready (fun l => l ++ [current k]) k)) by done.
    rewrite (stbind_step _ _ _ tt (upd_ready (fun l => l ++ [current k]) k1)) by done.
    assert (Hinv2 : sched_inv false (upd_ready (fun l => l ++ [current k]) k1)).
    { eapply enqueue_inv; [done|cbn; by rewrite lookup_alter_eq, Hx|done| |done].
      intros Hin. destruct (si_ready _ _ Hinv _ Hin) as (y & Hy & Hsy). simplify_eq. congruence. }
    destruct (schedule_spec _ Hinv2) as (k' & Es & Hinv' & Hsc).
    exists k'. split_and!; [done|done|]. eapply same_code_trans; [exact Hsc1|].
    eapply same_code_trans; [|exact Hsc]. split; try done; eauto.
Qed.

Lemma thread_exit_spec k :
  sched_inv true k -> current k <> idle_thread k ->
  exists k', thread_exit k = Ok (tt, k') /\ sched_inv true k' /\ same_code k k'.
Proof.
  intros Hinv Hni. unfold thread_exit. rewrite (stbind_step _ _ k _ _ (thread_current_Ok k Hinv)).
  set (k1 := upd_all (filter (fun x => x <> current k)) k).
  assert (Hinv1 : sched_inv true k1) by (destruct Hinv; by split).
  rewrite (stbind_step _ _ k tt k1) by done.
  rewrite (stbind_step _ _ k1 tt (upd_threads (alter (with_status THREAD_DYING) (current k)) k1)) by done.
  destruct (schedule_spec _ (leave_inv k1 THREAD_DYING Hinv1 ltac:(done) ltac:(done))) as (k' & E & Hinv' & Hsc).
  exists k'. split_and!; [done|done|]. eapply same_code_trans; [|exact Hsc].
  apply (same_code_trans _ (upd_threads (alter (with_status THREAD_DYING) (current k)) k)); [apply status_same_code|].
  split; try done; eauto.
Qed.

(** Waking a blocked thread that is in no wait list and is no newborn of
    another thread. *)
Lemma thread_unblock_spec k t x :
  sched_inv true k -> threads k !! t = Some x -> status x = THREAD_BLOCKED -> t <> idle_thread k ->
  (forall s, ~ waiting k t s) ->
  (forall u y, threads k !! u = Some y -> creating (cont y) = true -> v_t y <> t) ->
  exists k', thread_unblock t k = Ok (tt, k') /\ sched_inv true k' /\ same_code k k' /\
    k' = upd_threads (alter (with_status THREAD_READY) t) (upd_ready (fun l => l ++ [t]) k).
Proof.
  intros Hinv Hx Hst Hni Hnw Hnc. unfold thread_unblock.
  rewrite (stbind_step _ _ k x k) by (unfold get_thread; by rewrite Hx).
  rewrite bool_decide_true by done. rewrite (stbind_step _ _ k tt k) by done.
  rewrite (stbind_step _ _ k tt (upd_ready (fun l => l ++ [t]) k)) by done.
  eexists. split; [done|]. split; [|split; [|done]].
  2:{ apply (same_code_trans _ (upd_threads (alter (with_status THREAD_READY) t) k)); [apply status_same_code|].
      split; try done; eauto. }
  pose proof Hinv as [Hcur Hrun HN Hready Hidle Hic Hsem Hblk Hone Hpg Hch Hchs Hall].
  assert (Hnin : t ∉ ready_list k).
  { intros Hin. destruct (Hready t Hin) as (y & Hy & Hsy). simplify_eq. congruence. }
  set (k1 := upd_threads (alter (with_status THREAD_READY) t) k).
  assert (Hinv1 : sched_inv_but (Some t) true k1).
  { split; cbn; try done.
    - destruct Hcur as (y & Hy & Hs). exists y. rewrite lookup_alter_ne; [done|]. intros ->. simplify_eq.
      specialize (Hs eq_refl). congruence.
    - intros u y. rewrite lookup_alter_Some. intros [(<- & z & Hz & ->)|[Hne Hy]] Hr; [done|]. by apply (Hrun u y).
    - intros u Hu. destruct (Hready u Hu) as (y & Hy & Hsy). exists y. rewrite lookup_alter_ne; [done|]. by intros ->.
    - destruct Hic as (y & Hy & Hc & Hd). exists y. by rewrite lookup_alter_ne.
    - intros u s Hw. destruct (Hblk u s Hw) as ((y & Hy & Hsy) & Hn). split; [|done].
      exists y. rewrite lookup_alter_ne; [done|]. intros ->. by apply (Hnw s).
    - intros u y. rewrite lookup_alter_Some. intros [(<- & z & Hz & _)|[_ Hy]]; eauto.
    - assert (Hgo : forall u y, threads k !! u = Some y -> creating (cont y) = true -> newborn k1 (v_t y)).
      { intros u y Hy Hc. eapply newborn_alter; [done..| |by eapply Hch]. intros E. by apply (Hnc u y). }
      intros u y. rewrite lookup_alter_Some. intros [(<- & z & Hz & ->)|[_ Hy]] Hc; [exact (Hgo _ z Hz Hc)|exact (Hgo _ y Hy Hc)].
    - intros a b y z. rewrite !lookup_alter_Some.
      intros [(<- & y0 & Hy0 & ->)|[Hnt Hy0]] [(<- & z0 & Hz0 & ->)|[Hnu Hz0]] Hc1 Hc2 Hv; [done|..].
      + by apply (Hchs t b y0 z).
      + by apply (Hchs a t y z0).
      + by apply (Hchs a b y z).
    - intros u y. rewrite lookup_alter_Some. intros [(<- & z & Hz & ->)|[_ Hy]] Hr; [by auto|].
      destruct (Hall u y Hy Hr) as [?|[?|?]]; auto; done. }
  eapply (enqueue_inv true k1 t (with_status THREAD_READY x)); [done|cbn; by rewrite lookup_alter_eq, Hx|done|done|done].
Qed.

Lemma thread_tick_spec k :
  sched_inv true k -> exists k', thread_tick k = Ok (tt, k') /\ sched_inv true k' /\ same_code k k'.
Proof.
  intros Hinv. unfold thread_tick. rewrite (stbind_step _ _ k _ _ (thread_current_Ok k Hinv)).
  rewrite (stbind_step _ _ k k k) by done. cbv zeta.
  set (k1 := set_ticks (u32 (thread_ticks k + 1)) k).
  assert (Hinv1 : sched_inv true k1) by (destruct Hinv; by split).
  assert (Hsc1 : same_code k k1) by (split; try done; eauto).
  rewrite (stbind_step _ _ k tt k1) by done. destruct (_ <=? _); [|by exists k1].
  destruct (thread_yield_spec k1 Hinv1) as (k' & E & Hinv' & Hsc). exists k'.
  split_and!; [done|done|by eapply same_code_trans].
Qed.

(** ** Round robin *)

Lemma thread_schedule_tail_queue prev k k' :
  thread_schedule_tail prev k = Ok (tt, k') ->
  current k' = current k /\ ready_list k' = ready_list k /\ idle_thread k' = idle_thread k.
Proof.
  unfold thread_schedule_tail. intros E.
  rewrite (stbind_step _ _ k (current k) k) in E by done.
  set (k1 := upd_threads (alter (with_status THREAD_RUNNING) (current k)) k) in E.
  rewrite (stbind_step _ _ k tt k1) in E by done. rewrite (stbind_step _ _ k1 tt (set_ticks 0 k1)) in E by done.
  destruct prev as [p|]; [|by injection E as <-].
  apply stbind_Ok in E as (x & k2 & E2 & E). unfold get_thread in E2. destruct (_ !! p); [|done]. injection E2 as <- <-.
  rewrite (stbind_step _ _ _ (set_ticks 0 k1) (set_ticks 0 k1)) in E by done.
  destruct (_ && _); [|by injection E as <-].
  destruct (negb _); [|done]. by injection E as <-.
Qed.

(** schedule takes the first ready thread, or the idle thread. *)
Lemma schedule_queue k k' :
  schedule k = Ok (tt, k') ->
  current k' = hd (idle_thread k) (ready_list k) /\ ready_list k' = tl (ready_list k) /\ idle_thread k' = idle_thread k.
Proof.
  unfold schedule. intros E. rewrite (stbind_step _ _ k (current k) k) in E by done.
  apply stbind_Ok in E as (next & k1 & E1 & E).
  assert (next = hd (idle_thread k) (ready_list k) /\ ready_list k1 = tl (ready_list k) /\ idle_thread k1 = idle_thread k)
    as (-> & Hl1 & Hi1).
  { unfold next_thread_to_run in E1. destruct (ready_list k) eqn:El; injection E1 as <- <-; by rewrite ?El. }
  apply stbind_Ok in E as (x & k2 & E2 & E). unfold get_thread in E2. destruct (_ !! _); [|done]. injection E2 as <- <-.
  destruct (negb _); [|done]. rewrite (stbind_step _ _ k1 tt k1) in E by done.
  apply stbind_Ok in E as (y & k2 & E2 & E). unfold get_thread in E2. destruct (_ !! _); [|done]. injection E2 as <- <-.
  rewrite (stbind_step _ _ k1 tt (set_current (hd (idle_thread k) (ready_list k)) k1)) in E by done.
  apply thread_schedule_tail_queue in E as (-> & -> & ->). done.
Qed.

(** thread_yield rotates the ready queue. *)
Lemma thread_yield_rotates k t l :
  sched_inv true k -> ready_list k = t :: l ->
  exists k', thread_yield k = Ok (tt, k') /\ sched_inv true k' /\ current k' = t /\
    idle_thread k' = idle_thread k /\ ready_list k' = l ++ (if current k =? idle_thread k then [] else [current k]).
Proof.
  intros Hinv Hl. destruct (thread_yield_spec k Hinv) as (k' & E & Hinv' & _). exists k'. do 2 (split; [done|]).
  unfold thread_yield in E. rewrite (stbind_step _ _ _ _ _ (thread_current_Ok k Hinv)) in E.
  rewrite (stbind_step _ _ k k k) in E by done.
  set (k1 := if current k =? idle_thread k then k else upd_ready (fun l => l ++ [current k]) k).
  rewrite (stbind_step _ _ k tt k1) in E by (unfold k1; by destruct (_ =? _)).
  rewrite (stbind_step _ _ k1 tt (upd_threads (alter (with_status THREAD_READY) (current k)) k1)) in E by done.
  destruct (schedule_queue _ _ E) as (-> & -> & ->). unfold k1.
  destruct (_ =? _); cbn; rewrite Hl; cbn; by rewrite ?app_nil_r.
Qed.

(** [n] threads in a row give up the processor. *)
Fixpoint yields (n : nat) : K unit :=
  match n with O => mret tt | S n => thread_yield;; yields n end.

Lemma yields_queue i : forall k t,
  sched_inv true k -> ready_list k !! i = Some t ->
  exists k', yields (S i) k = Ok (tt, k') /\ sched_inv true k' /\ current k' = t.
Proof.
  induction i as [|i IH]; intros k t Hinv Hi; destruct (ready_list k) as [|u l] eqn:Hl; try done.
  - injection Hi as ->. destruct (thread_yield_rotates k t l Hinv Hl) as (k' & E & Hinv' & Hc & _).
    exists k'. cbn. by rewrite (stbind_step _ _ k tt k' E).
  - destruct (thread_yield_rotates k u l Hinv Hl) as (k1 & E & Hinv1 & _ & _ & Hr).
    destruct (IH k1 t Hinv1) as (k' & E' & Hk'); [rewrite Hr; by apply lookup_app_l_Some|].
    exists k'. split; [|done]. cbn [yields]. by rewrite (stbind_step _ _ k tt k1 E).
Qed.
