(* ===== verification/Synch.v ===== *)
(** Semaphores, locks and condition variables: threads/synch.c, with
    thread_create and allocate_tid of threads/thread.c, which use them.

    sema_down, sema_up and sema_try_down run with interrupts off and are atomic
    transitions, except that sema_down may block and then tests the value again
    when it is scheduled; lock_acquire, lock_release, cond_wait, ... are
    sequences of atomic actions, between which the thread can be preempted.
    [step] is one transition of the kernel: the running thread performs its
    next action, the timer ticks, or an interrupt handler ups a semaphore.  A
    failed ASSERT is an error, not a step.

    The theorems are invariants of every reachable state, for every set of
    thread bodies and every interleaving. *)

From stdpp Require Import base list numbers gmap sets.
From Stdlib Require Import ZArith Lia.
From S2P Require Import Prelude Thread.

#[local] Abbreviation K := (stM kernel).

(** ** Semaphores *)

Definition get_sema (s : sema_id) : K (Z * list Z) := fun k =>
  match semas k !! s with Some x => Ok (x, k) | None => Err EFault end.
Definition set_sema (s : sema_id) (x : Z * list Z) : K unit := modify (upd_semas (<[s := x]>)).

(** The value is an [unsigned]. *)
Definition sema_init (s : sema_id) (value : Z) : K unit := set_sema s (u32 value, []).

(** Ghost updates: a lock is owned from the end of sema_down to sema_up. *)
Definition own (s : sema_id) (t : Z) : K unit :=
  match s with SLock l => modify (upd_owner (<[l := t]>)) | _ => mret tt end.
Definition disown (s : sema_id) : K unit :=
  match s with SLock l => modify (upd_owner (delete l)) | _ => mret tt end.

Definition sema_try_down (s : sema_id) (t : Z) : K bool :=
  x ← get_sema s;
  if 0 <? x.1 then set_sema s (x.1 - 1, x.2);; own s t;; mret true else mret false.

Definition sema_up (s : sema_id) : K unit :=
  x ← get_sema s;
  (match x.2 with
   | [] => mret tt
   | t :: w => set_sema s (x.1, w);; thread_unblock t
   end);;
  x ← get_sema s;
  set_sema s (u32 (x.1 + 1), x.2);;
  disown s.

Definition set_cont (t : Z) (c : list action) : K unit := alter_thread t (with_cont c).

(** One pass of [while (sema->value == 0) ...]: the thread blocks and will make
    another pass, or takes the semaphore and goes on with [rest]. *)
Definition sema_down_pass (t : Z) (s : sema_id) (rest : list action) : K unit :=
  x ← get_sema s;
  if x.1 =? 0 then set_sema s (x.1, x.2 ++ [t]);; thread_block
  else set_sema s (x.1 - 1, x.2);; own s t;; set_cont t rest.

(** ** Locks and condition variables *)

Definition lock_init (l : Z) : K unit := modify (upd_holder (delete l));; sema_init (SLock l) 1.

Definition lock_acquire (l : Z) : list action := [AAssertNotHeld l; ADown (SLock l); ASetHolder l].

Definition lock_try_acquire (l : Z) : list action := [AAssertNotHeld l; ATryAcquire l].

Definition lock_release (l : Z) : list action := [AAssertHeld l; AClearHolder l; AUp (SLock l)].

Definition lock_held_by_current_thread (l t : Z) (k : kernel) : bool := bool_decide (holder k !! l = Some t).

Definition cond_wait (c l : Z) : list action :=
  [AAssertHeld l; AWaiterInit; ACondPush c] ++ lock_release l ++ [AWaiterDown] ++ lock_acquire l.

Definition cond_signal (c l : Z) : list action := [AAssertHeld l; ACondSignal c].

Definition cond_broadcast (c l : Z) : list action := [ACondBroadcast c l].

Definition allocate_tid : list action := lock_acquire tid_lock ++ [ALoadTid; AStoreTid] ++ lock_release tid_lock.

(** [page_ok] is whether palloc_get_page succeeds.  The node that thread_create
    allocates for the parent (thread.c:245-253) is in Wait.v, the frames on the
    new stack are in Switch.v. *)
Definition thread_create (page_ok : bool) (prio function : Z) : list action :=
  AAllocThread page_ok prio :: (if page_ok then allocate_tid ++ [AStart function] else []).

(** ** What thread bodies are made of *)

Inductive command :=
  | CSemaInit (s value : Z) | CSemaDown (s : Z) | CSemaTryDown (s : Z) | CSemaUp (s : Z)
  | CLockAcquire (l : Z) | CLockTryAcquire (l : Z) | CLockRelease (l : Z)
  | CCondInit (c : Z) | CCondWait (c l : Z) | CCondSignal (c l : Z) | CCondBroadcast (c l : Z)
  | CYield | CWork | CCreate (page_ok : bool) (prio function : Z).

Definition actions_of (c : command) : list action :=
  match c with
  | CSemaInit s v => [ASemaInit (SPlain s) v]
  | CSemaDown s => [ADown (SPlain s)]
  | CSemaTryDown s => [ATryDown (SPlain s)]
  | CSemaUp s => [AUp (SPlain s)]
  | CLockAcquire l => lock_acquire l
  | CLockTryAcquire l => lock_try_acquire l
  | CLockRelease l => lock_release l
  | CCondInit c => [ACondInit c]
  | CCondWait c l => cond_wait c l
  | CCondSignal c l => cond_signal c l
  | CCondBroadcast c l => cond_broadcast c l
  | CYield => [AYield]
  | CWork => [AWork]
  | CCreate ok prio f => thread_create ok prio f
  end.

Section Machine.
(** The body of the function at each address. *)
Context (code : Z -> list command).

Definition body (f : Z) : list action := mjoin (actions_of <$> code f).

(** The running thread [t] performs [a]; [rest] is what follows. *)
Definition exec (t : Z) (a : action) (rest : list action) : K unit :=
  match a with
  | ASemaInit s v => set_cont t rest;; sema_init s v
  | ADown s => sema_down_pass t s rest
  | ATryDown s => sema_try_down s t;; set_cont t rest
  | AUp s => set_cont t rest;; sema_up s
  | AAssertHeld l => k ← get; assertM (lock_held_by_current_thread l t k);; set_cont t rest
  | AAssertNotHeld l => k ← get; assertM (negb (lock_held_by_current_thread l t k));; set_cont t rest
  | ASetHolder l => set_cont t rest;; modify (upd_holder (<[l := t]>))
  | AClearHolder l => set_cont t rest;; modify (upd_holder (delete l))
  | ATryAcquire l =>
      ok ← sema_try_down (SLock l) t;
      set_cont t (if ok : bool then ASetHolder l :: rest else rest)
  | ACondInit c => set_cont t rest;; modify (upd_conds (<[c := []]>))
  | AWaiterInit => set_cont t rest;; sema_init (SWaiter t) 0
  | ACondPush c => set_cont t rest;; modify (upd_conds (fun m => <[c := default [] (m !! c) ++ [t]]> m))
  | AWaiterDown => sema_down_pass t (SWaiter t) rest
  | ACondSignal c =>
      set_cont t rest;;
      k ← get;
      match default [] (conds k !! c) with
      | [] => mret tt
      | w :: ws => modify (upd_conds (<[c := ws]>));; sema_up (SWaiter w)
      end
  | ACondBroadcast c l =>
      k ← get;
      match default [] (conds k !! c) with
      | [] => set_cont t rest
      | _ => set_cont t (cond_signal c l ++ ACondBroadcast c l :: rest)
      end
  | AYield => set_cont t rest;; thread_yield
  | AExit => thread_exit
  | AIdle => thread_block
  | AAllocThread ok prio =>
      set_cont t rest;;
      if ok then
        k ← get;
        let p := next_page k in
        modify (set_next_page (p + 1));;
        alter_thread t (with_vt p);;
        init_thread p prio
      else mret tt
  | ALoadTid => set_cont t rest;; k ← get; alter_thread t (with_vtid (next_tid k))
  | AStoreTid =>
      set_cont t rest;;
      x ← get_thread t;
      k ← get;
      (* signed overflow of next_tid is undefined: no step *)
      assertM (v_tid x <? 2 ^ 31 - 1);;
      modify (set_next_tid (v_tid x + 1) (tid_log k ++ [v_tid x]))
  | AStart f =>
      set_cont t rest;;
      x ← get_thread t;
      alter_thread (v_t x) (with_tid (v_tid x) ∘ with_cont (body f));;
      thread_unblock (v_t x)
  | AWork => set_cont t rest
  end.

(** The thread function returns: kernel_thread calls thread_exit. *)
Definition run_current : K unit :=
  t ← thread_current;
  x ← get_thread t;
  match cont x with
  | [] => thread_exit
  | a :: rest => exec t a rest
  end.

Inductive step (k k' : kernel) : Prop :=
  | StepRun : run_current k = Ok (tt, k') -> step k k'
  | StepTick : thread_tick k = Ok (tt, k') -> step k k'
  | StepInterrupt s : sema_up (SPlain s) k = Ok (tt, k') -> step k k'.

(** After thread_start: the initial thread runs [function], the idle thread is
    blocked, and the semaphores and locks given exist. *)
Definition boot (function : Z) (plain : list (Z * Z)) (locks : list Z) : kernel :=
  MkKernel
    {[ 1 := MkThread THREAD_RUNNING 1 PRI_DEFAULT (body function) 0 0;
       2 := MkThread THREAD_BLOCKED 2 PRI_MIN [AIdle] 0 0 ]}
    [] [1; 2] 2 1 1 3 3 0
    (list_to_map ((fun l => (SLock l, (1, []))) <$> (locks ++ [tid_lock])) ∪
     list_to_map ((fun x => (SPlain x.1, (u32 x.2, []))) <$> plain))
    ∅ ∅ ∅ [1; 2].

(** The locks of [boot] are those lock_init makes. *)
Lemma boot_lock_init f plain locks l : lock_init l (boot f plain locks) = Ok (tt, boot f plain (l :: locks)).
Proof.
  unfold lock_init. rewrite (stbind_step _ _ _ tt (boot f plain locks)) by done.
  unfold sema_init, set_sema, modify, boot, upd_semas. cbn [semas threads ready_list all_list idle_thread initial_thread
    current next_tid next_page thread_ticks holder conds owner tid_log].
  rewrite insert_union_l. done.
Qed.

Inductive reachable (k0 : kernel) : kernel -> Prop :=
  | ReachInit : reachable k0 k0
  | ReachStep k k' : reachable k0 k -> step k k' -> reachable k0 k'.
End Machine.

(** ** What is left of a thread's program is well formed *)

(** The action that must have been performed just before the first one. *)
Definition head_prev (c : list action) : option action :=
  match c with
  | AStoreTid :: _ => Some ALoadTid
  | AUp (SLock l) :: _ => Some (AClearHolder l)
  | _ => None
  end.

(** [own] are locks the thread is known to own when it gets there; [prev] is
    the action before. *)
Fixpoint wf_cont (own : Z -> Prop) (prev : option action) (c : list action) : Prop :=
  match c with
  | [] => True
  | a :: c' =>
      match a with
      | ASemaInit s _ => (if s is SPlain _ then True else False) /\ wf_cont own None c'
      | ADown s =>
          match s with
          | SLock l => wf_cont (fun l' => own l' \/ l' = l) None c'
          | SPlain _ => wf_cont own None c'
          | SWaiter _ => False
          end
      | ATryDown s => (if s is SPlain _ then True else False) /\ wf_cont own None c'
      | AUp s =>
          match s with
          | SLock l => prev = Some (AClearHolder l) /\ own l /\ wf_cont (fun l' => own l' /\ l' <> l) None c'
          | SPlain _ => wf_cont own None c'
          | SWaiter _ => False
          end
      | AAssertHeld l => wf_cont (fun l' => own l' \/ l' = l) None c'
      | ASetHolder l => own l /\ wf_cont own None c'
      | AClearHolder l => own l /\ wf_cont own (Some (AClearHolder l)) c'
      | ALoadTid => own tid_lock /\ wf_cont own (Some ALoadTid) c'
      | AStoreTid => prev = Some ALoadTid /\ own tid_lock /\ wf_cont own None c'
      | AStart _ => creating c' = false /\ wf_cont own None c'
      | AAllocThread ok _ => (ok = false -> creating c' = false) /\ wf_cont own None c'
      | _ => wf_cont own None c'
      end
  end.

Lemma wf_cont_mono c : forall (own own' : Z -> Prop) prev,
  (forall l, own l -> own' l) -> wf_cont own prev c -> wf_cont own' prev c.
Proof.
  induction c as [|a c IH]; intros own own' prev Hle Hc; [done|].
  assert (IH1 : forall prev, wf_cont own prev c -> wf_cont own' prev c) by (intros; by eapply IH).
  assert (IH2 : forall l prev, wf_cont (fun l' => own l' \/ l' = l) prev c -> wf_cont (fun l' => own' l' \/ l' = l) prev c).
  { intros l p. apply IH. naive_solver. }
  assert (IH3 : forall l prev, wf_cont (fun l' => own l' /\ l' <> l) prev c -> wf_cont (fun l' => own' l' /\ l' <> l) prev c).
  { intros l p. apply IH. naive_solver. }
  destruct a; cbn [wf_cont] in *; try (destruct s); naive_solver.
Qed.

Lemma wf_cont_head own c : wf_cont own None c -> head_prev c = None.
Proof.
  destruct c as [|a c]; [done|]. destruct a; cbn; try done.
  - destruct s; cbn; [done| |done]. by intros (? & _).
  - by intros (? & _).
Qed.

(** Every body made of commands is well formed, whatever the thread owns. *)
Lemma wf_command cmd c :
  (forall own, wf_cont own None c) -> creating c = false ->
  (forall own, wf_cont own None (actions_of cmd ++ c)) /\ creating (actions_of cmd ++ c) = false.
Proof.
  intros Hc Hn. split.
  - intros own. destruct cmd; cbn; rewrite ?Hn; try (split_and!; auto; fail); auto.
    destruct page_ok; cbn; naive_solver.
  - by destruct cmd.
Qed.

Lemma wf_body code f : (forall own, wf_cont own None (body code f)) /\ creating (body code f) = false.
Proof.
  unfold body. induction (code f) as [|cmd l [IH1 IH2]]; [done|]. rewrite fmap_cons.
  change (mjoin (actions_of cmd :: (actions_of <$> l))) with (actions_of cmd ++ mjoin (actions_of <$> l)).
  by apply wf_command.
Qed.

(** ** The invariant *)

Definition owned (k : kernel) (t : Z) : Z -> Prop := fun l => owner k !! l = Some t.

Record lock_inv (k : kernel) : Prop := {
  li_value : forall l v w, semas k !! SLock l = Some (v, w) -> v = match owner k !! l with Some _ => 0 | None => 1 end;
  li_holder : forall l t, holder k !! l = Some t -> owner k !! l = Some t;
  li_cont : forall t x, threads k !! t = Some x -> wf_cont (owned k t) (head_prev (cont x)) (cont x);
  li_release : forall t x l c, threads k !! t = Some x -> cont x = AUp (SLock l) :: c -> holder k !! l = None
}.

Record tid_inv (k : kernel) : Prop := {
  ti_nodup : NoDup (tid_log k);
  ti_lt : forall n, n ∈ tid_log k -> n < next_tid k;
  ti_store : forall t x c, threads k !! t = Some x -> cont x = AStoreTid :: c -> v_tid x = next_tid k
}.

Definition full_inv (k : kernel) : Prop := sched_inv true k /\ lock_inv k /\ tid_inv k.

Lemma same_code_lock k k' : same_code k k' -> lock_inv k -> lock_inv k'.
Proof.
  intros [T O H N L I V] [L1 L2 L3 L4]. split.
  - intros l v w Hs. destruct (V l v w Hs) as [w' Hw']. rewrite O. by apply (L1 l v w').
  - intros l t. rewrite H, O. apply L2.
  - intros t x Hx. destruct (T t x Hx) as (y & Hy & -> & _). unfold owned. rewrite O. by apply (L3 t y).
  - intros t x l c Hx Hc. destruct (T t x Hx) as (y & Hy & E & _). rewrite H. apply (L4 t y l c); congruence.
Qed.

Lemma same_code_tid k k' : same_code k k' -> tid_inv k -> tid_inv k'.
Proof.
  intros [T O H N L I V] [T1 T2 T3]. split; rewrite ?L, ?N; try done.
  intros t x c Hx Hc. destruct (T t x Hx) as (y & Hy & E & _ & ->). apply (T3 t y c); congruence.
Qed.

Lemma same_code_full k k' : full_inv k -> sched_inv true k' -> same_code k k' -> full_inv k'.
Proof.
  intros (Hs & Hl & Ht) Hs' Hsc. split_and!; [done|by eapply same_code_lock|by eapply same_code_tid].
Qed.

Lemma wf_cont_prev own prev c : wf_cont own prev c -> wf_cont own (head_prev c) c.
Proof.
  destruct c as [|a c]; [done|]. destruct a; cbn; try done.
  - destruct s; cbn; [done| |done]. naive_solver.
  - naive_solver.
Qed.

(** What it takes to give thread [t] the registers [y']. *)
Record registers_ok (k : kernel) (t : Z) (y' : thread) : Prop := {
  ro_child : creating (cont y') = true -> newborn k (v_t y') /\
    forall u y, u <> t -> threads k !! u = Some y -> creating (cont y) = true -> v_t y <> v_t y';
  ro_wf : wf_cont (owned k t) (head_prev (cont y')) (cont y');
  ro_release : forall l c, cont y' = AUp (SLock l) :: c -> holder k !! l = None;
  ro_store : forall c, cont y' = AStoreTid :: c -> v_tid y' = next_tid k
}.

Lemma alter_sched b k t x f :
  sched_inv b k -> threads k !! t = Some x -> t <> idle_thread k -> status (f x) = status x ->
  (creating (cont (f x)) = true -> newborn k (v_t (f x)) /\
    forall u y, u <> t -> threads k !! u = Some y -> creating (cont y) = true -> v_t y <> v_t (f x)) ->
  sched_inv b (upd_threads (alter f t) k).
Proof.
  intros [Hcur Hrun HN Hready Hidle Hic Hsem Hblk Hone Hpg Hch Hchs Hall] Hx Hni Hst Hcr.
  assert (Hkeep : forall u y, threads k !! u = Some y -> exists y', alter f t (threads k) !! u = Some y' /\
            status y' = status y).
  { intros u y Hy. destruct (decide (t = u)) as [<-|Hne].
    - exists (f x). rewrite lookup_alter_eq, Hx. simplify_eq. done.
    - exists y. by rewrite lookup_alter_ne. }
  assert (Hgo : forall u, newborn k u -> newborn (upd_threads (alter f t) k) u).
  { intros u ((y & Hy & Hsy) & Hw). split; [|done]. destruct (Hkeep u y Hy) as (y' & Hy' & E). exists y'. split; [done|congruence]. }
  split; cbn; try done.
  - destruct Hcur as (y & Hy & Hsy). destruct (Hkeep _ y Hy) as (y' & Hy' & E). exists y'. split; [done|]. rewrite E. done.
  - intros u y. rewrite lookup_alter_Some. intros [(<- & z & Hz & ->)|[Hne Hy]] Hr; [|by apply (Hrun u y)].
    apply (Hrun _ z); [done|]. congruence.
  - intros u Hin. destruct (Hready u Hin) as (y & Hy & Hsy). destruct (Hkeep u y Hy) as (y' & Hy' & E). exists y'. split; [done|congruence].
  - destruct Hic as (y & Hy & Hc). exists y. by rewrite lookup_alter_ne.
  - intros u s Hw. destruct (Hblk u s Hw) as ((y & Hy & Hsy) & Hn). split; [|done].
    destruct (Hkeep u y Hy) as (y' & Hy' & E). exists y'. split; [done|congruence].
  - intros u y. rewrite lookup_alter_Some. intros [(<- & z & Hz & _)|[_ Hy]]; eauto.
  - intros u y. rewrite lookup_alter_Some. intros [(<- & z & Hz & ->)|[_ Hy]] Hc; apply Hgo.
    + assert (z = x) as -> by congruence. by apply Hcr.
    + exact (Hch u y Hy Hc).
  - intros a c y z. rewrite !lookup_alter_Some.
    intros [(<- & y0 & Hy0 & ->)|[Hnt Hy0]] [(<- & z0 & Hz0 & ->)|[Hnu Hz0]] Hc1 Hc2 Hv; [done|..].
    + assert (y0 = x) as -> by congruence. destruct (proj2 (Hcr Hc1) c z (not_eq_sym Hnu) Hz0 Hc2). done.
    + assert (z0 = x) as -> by congruence. destruct (proj2 (Hcr Hc2) a y (not_eq_sym Hnt) Hy0 Hc1). done.
    + exact (Hchs a c y z Hy0 Hz0 Hc1 Hc2 Hv).
  - intros u y. rewrite lookup_alter_Some. intros [(<- & z & Hz & ->)|[_ Hy]] Hr; [|by apply (Hall u y)].
    apply (Hall _ z Hz). congruence.
Qed.

(** Changing what a thread has left to do, and its local variables. *)
Lemma alter_inv k t x f :
  full_inv k -> threads k !! t = Some x -> t <> idle_thread k -> status (f x) = status x ->
  registers_ok k t (f x) -> full_inv (upd_threads (alter f t) k).
Proof.
  intros (Hs & [L1 L2 L3 L4] & [T1 T2 T3]) Hx Hni Hst [R1 R2 R3 R4]. split_and!.
  - by eapply alter_sched.
  - split; cbn; try done.
    + intros u y. rewrite lookup_alter_Some. intros [(<- & z & Hz & ->)|[_ Hy]]; [|by apply L3].
      by assert (z = x) as -> by congruence.
    + intros u y l c'. rewrite lookup_alter_Some. intros [(<- & z & Hz & ->)|[_ Hy]] Hc; [|by apply (L4 u y l c')].
      assert (z = x) as -> by congruence. by eapply R3.
  - split; cbn; try done.
    intros u y c'. rewrite lookup_alter_Some. intros [(<- & z & Hz & ->)|[_ Hy]] Hc; [|by apply (T3 u y c')].
    assert (z = x) as -> by congruence. by eapply R4.
Qed.

(** The running thread goes on to [c]. *)
Lemma set_cont_inv k x c :
  full_inv k -> threads k !! current k = Some x -> current k <> idle_thread k ->
  (creating c = true -> creating (cont x) = true) -> wf_cont (owned k (current k)) None c ->
  full_inv (upd_threads (alter (with_cont c) (current k)) k).
Proof.
  intros Hf Hx Hni Hcr Hwf. eapply alter_inv; [done..|]. pose proof Hf as (Hs & _ & _). split; cbn.
  - intros Hc. specialize (Hcr Hc). split; [exact (si_child _ _ Hs _ x Hx Hcr)|].
    intros u y Hne Hy Hcy E. apply Hne. by apply (si_children _ _ Hs u (current k) y x).
  - by eapply wf_cont_prev.
  - intros l c' ->. by destruct Hwf.
  - intros c' ->. by destruct Hwf.
Qed.

(** ** The transitions preserve the invariant *)

Lemma semas_inv b k f :
  sched_inv b k -> (forall t s, waiting (upd_semas f k) t s -> waiting k t s) ->
  (forall s v w, f (semas k) !! s = Some (v, w) -> NoDup w /\ 0 <= v) -> sched_inv b (upd_semas f k).
Proof.
  intros [Hcur Hrun HN Hready Hidle Hic Hsem Hblk Hone Hpg Hch Hchs Hall] Hw Hv. split; cbn; try done.
  - intros t s Hs. exact (Hblk t s (Hw t s Hs)).
  - intros t s s' H1 H2. exact (Hone t s s' (Hw _ _ H1) (Hw _ _ H2)).
  - intros t x Hx Hc. destruct (Hch t x Hx Hc) as (Hb & Hnw & Hi). split; [done|]. split; [|done].
    intros s Hs. exact (Hnw s (Hw _ _ Hs)).
Qed.

(** Replacing one semaphore by one with fewer waiters. *)
Lemma set_sema_inv b k s v w v' w' :
  sched_inv b k -> semas k !! s = Some (v, w) -> w' `sublist_of` w -> 0 <= v' ->
  sched_inv b (upd_semas (<[s := (v', w')]>) k).
Proof.
  intros Hinv Hs Hsub Hv. apply semas_inv; [done| |].
  - intros t s' (a & l & Hl & Ht). cbn in Hl. apply lookup_insert_Some in Hl as [[<- [= <- <-]]|[_ Hl]].
    + exists v, w. split; [done|]. by eapply sublist_subseteq.
    + by exists a, l.
  - intros s' a l. rewrite lookup_insert_Some. intros [[<- [= <- <-]]|[_ Hl]]; [|by eapply si_sema].
    split; [|done]. eapply sublist_NoDup; [|done]. by eapply si_sema.
Qed.

Lemma get_sema_Ok k s x : semas k !! s = Some x -> get_sema s k = Ok (x, k).
Proof. intros H. unfold get_sema. by rewrite H. Qed.

(** The wake-up in sema_up: the first waiter, if any, becomes ready. *)
Lemma sema_wake_spec k s v w :
  sched_inv true k -> semas k !! s = Some (v, w) ->
  exists k1, (match w with [] => mret tt | t :: w' => set_sema s (v, w');; thread_unblock t end : K unit) k
      = Ok (tt, k1) /\
    sched_inv true k1 /\ same_code k k1 /\ semas k1 = <[s := (v, tail w)]> (semas k).
Proof.
  intros Hinv Hs. destruct w as [|t w].
  { exists k. split_and!; [done|done|apply same_code_refl|]. symmetry. by apply insert_id. }
  set (k0 := upd_semas (<[s := (v, w)]>) k).
  rewrite (stbind_step _ _ k tt k0) by done.
  pose proof (si_sema _ _ Hinv s v _ Hs) as [HNw Hv]. apply NoDup_cons in HNw as [Htw HNw].
  assert (Hinv0 : sched_inv true k0).
  { eapply set_sema_inv; [done|done| |done]. apply sublist_cons. done. }
  assert (Hw : waiting k t s) by (exists v, (t :: w); split; [done|by left]).
  destruct (si_blocked _ _ Hinv t s Hw) as ((x & Hx & Hst) & Hni).
  destruct (thread_unblock_spec k0 t x Hinv0 Hx Hst Hni) as (k1 & E & Hinv1 & Hsc & ->).
  - intros s' (a & l & Hl & Ht). cbn in Hl. apply lookup_insert_Some in Hl as [[<- [= <- <-]]|[Hne Hl]]; [done|].
    apply Hne. apply (si_one_queue _ _ Hinv t); [done|]. by exists a, l.
  - intros u y Hy Hc E. destruct (si_child _ _ Hinv u y Hy Hc) as (_ & Hnw & _). apply (Hnw s). by rewrite E.
  - eexists. split; [done|]. split; [done|]. split; [|done].
    eapply same_code_trans; [|exact Hsc]. split; try done; eauto.
    intros l a z. cbn. rewrite lookup_insert_Some. intros [[-> [= -> ->]]|[_ Hl]]; eauto.
Qed.

(** sema_up always succeeds on a semaphore that exists, and leaves this state. *)
Lemma sema_up_spec k s v w :
  sched_inv true k -> semas k !! s = Some (v, w) ->
  exists k1, sema_up s k = disown s (upd_semas (<[s := (u32 (v + 1), tail w)]>) k1) /\
    sched_inv true (upd_semas (<[s := (u32 (v + 1), tail w)]>) k1) /\ sched_inv true k1 /\ same_code k k1 /\
    semas k1 = <[s := (v, tail w)]> (semas k).
Proof.
  intros Hinv Hs. destruct (sema_wake_spec k s v w Hinv Hs) as (k1 & E & Hinv1 & Hsc & Hsem).
  assert (Hs1 : semas k1 !! s = Some (v, tail w)) by (rewrite Hsem; apply lookup_insert_eq).
  exists k1. unfold sema_up. rewrite (stbind_step _ _ k _ _ (get_sema_Ok k s _ Hs)). cbn [fst snd].
  rewrite (stbind_step _ _ k _ _ E). rewrite (stbind_step _ _ k1 _ _ (get_sema_Ok k1 s _ Hs1)). cbn [fst snd].
  rewrite (stbind_step _ _ k1 tt (upd_semas (<[s := (u32 (v + 1), tail w)]>) k1)) by done.
  split; [done|]. split; [|done]. eapply set_sema_inv; [done|done|done|apply u32_range].
Qed.

(** Upping a semaphore that is not part of a lock. *)
Lemma sema_up_plain k s k' :
  full_inv k -> (forall l, s <> SLock l) -> sema_up s k = Ok (tt, k') -> full_inv k'.
Proof.
  intros (Hsi & Hl & Ht) Hne E. destruct (semas k !! s) as [[v w]|] eqn:Hs.
  2:{ unfold sema_up, get_sema in E. unfold mbind, stM_bind in E. by rewrite Hs in E. }
  destruct (sema_up_spec k s v w Hsi Hs) as (k1 & E1 & Hinv2 & Hinv1 & Hsc & Hsem). rewrite E in E1.
  assert (k' = upd_semas (<[s := (u32 (v + 1), tail w)]>) k1) as ->.
  { destruct s; [by injection E1|by destruct (Hne l)|by injection E1]. }
  split; [done|]. split.
  - destruct (same_code_lock _ _ Hsc Hl) as [L1 L2 L3 L4]. split; try done.
    intros l a z Hz. cbn in Hz. rewrite lookup_insert_ne in Hz by apply Hne. by apply (L1 l a z).
  - by destruct (same_code_tid _ _ Hsc Ht).
Qed.

(** Releasing a lock: the running thread owns it and goes on without it. *)
Lemma sema_up_lock k l x k' :
  full_inv k -> threads k !! current k = Some x -> owner k !! l = Some (current k) ->
  wf_cont (fun l' => owned k (current k) l' /\ l' <> l) None (cont x) -> holder k !! l = None ->
  sema_up (SLock l) k = Ok (tt, k') -> full_inv k'.
Proof.
  intros (Hsi & Hl & Ht) Hx How Hwf Hhold E. destruct (semas k !! SLock l) as [[v w]|] eqn:Hs.
  2:{ unfold sema_up, get_sema in E. unfold mbind, stM_bind in E. by rewrite Hs in E. }
  destruct (sema_up_spec k (SLock l) v w Hsi Hs) as (k1 & E1 & Hinv2 & Hinv1 & Hsc & Hsem). rewrite E in E1.
  injection E1 as ->. pose proof (li_value _ Hl l v w Hs) as Hv. rewrite How in Hv. subst v.
  destruct (same_code_lock _ _ Hsc Hl) as [L1 L2 L3 L4]. split_and!.
  - destruct Hinv2; by split.
  - pose proof (sc_owner _ _ Hsc) as HO. pose proof (sc_holder _ _ Hsc) as HH. split; cbn.
    + intros l' a z. rewrite lookup_insert_Some. intros [[[= <-] [= <- <-]]|[Hne Hz]].
      * by rewrite lookup_delete_eq.
      * rewrite lookup_delete_ne by congruence. by apply (L1 l' a z).
    + intros l' t Hh. destruct (decide (l = l')) as [<-|Hne]; [congruence|].
      rewrite lookup_delete_ne by done. by apply L2.
    + intros t y Hy. destruct (decide (t = current k)) as [->|Hne].
      * destruct (sc_threads _ _ Hsc _ _ Hy) as (y0 & Hy0 & -> & _). assert (y0 = x) as -> by congruence.
        rewrite (wf_cont_head _ _ Hwf). eapply wf_cont_mono; [|exact Hwf]. cbn. intros l' [H1 H2].
        unfold owned in *. cbn. rewrite lookup_delete_ne by done. by rewrite HO.
      * eapply wf_cont_mono; [|by apply L3]. unfold owned. cbn. intros l' H1.
        rewrite lookup_delete_ne; [done|]. intros <-. rewrite HO in H1. congruence.
    + intros t y l' c Hy Hc. by apply (L4 t y l' c).
  - by destruct (same_code_tid _ _ Hsc Ht).
Qed.

(** Taking a semaphore that is up. *)
Lemma take_sema_inv k s x v w k1 :
  full_inv k -> threads k !! current k = Some x -> semas k !! s = Some (v, w) -> 0 < v ->
  (set_sema s (v - 1, w);; own s (current k)) k = Ok (tt, k1) ->
  full_inv k1 /\ threads k1 = threads k /\ current k1 = current k /\ idle_thread k1 = idle_thread k /\
  forall l, owned k1 (current k) l <-> owned k (current k) l \/ s = SLock l.
Proof.
  intros (Hsi & [L1 L2 L3 L4] & Ht) Hx Hs Hv E.
  rewrite (stbind_step _ _ k tt (upd_semas (<[s := (v - 1, w)]>) k)) in E by done.
  assert (Hsi1 : sched_inv true (upd_semas (<[s := (v - 1, w)]>) k)) by (eapply set_sema_inv; [done|done|done|lia]).
  assert ((exists l, s = SLock l) \/ forall l, s <> SLock l) as [[l ->]|Hno] by (destruct s; eauto).
  - assert (Hfree : owner k !! l = None).
    { specialize (L1 l v w Hs). destruct (owner k !! l); [lia|done]. }
    injection E as <-. split; [|split_and!; try done].
    + split; [by destruct Hsi1; split|]. split; [|by destruct Ht; split]. split; cbn.
      * intros l' a z. rewrite lookup_insert_Some. intros [[[= <-] [= <- <-]]|[Hne Hz]].
        -- rewrite lookup_insert_eq. specialize (L1 l v w Hs). rewrite Hfree in L1. lia.
        -- rewrite lookup_insert_ne by congruence. by apply (L1 l' a z).
      * intros l' t Hh. rewrite lookup_insert_ne; [by apply L2|]. intros <-. specialize (L2 l t Hh). congruence.
      * intros t y Hy. eapply wf_cont_mono; [|by apply L3]. unfold owned. cbn. intros l' H1.
        rewrite lookup_insert_ne; [done|]. intros <-. congruence.
      * done.
    + intros l'. unfold owned. cbn. rewrite lookup_insert_Some. split.
      * intros [[-> _]|[_ H]]; auto.
      * intros [H|[= ->]]; [|auto]. right. split; [|done]. intros <-. congruence.
  - assert (k1 = upd_semas (<[s := (v - 1, w)]>) k) as ->.
    { destruct s; [by injection E|by destruct (Hno l)|by injection E]. }
    split; [|split_and!; try done].
    + split; [done|]. split; [|by destruct Ht; split]. split; cbn; try done.
      intros l a z. rewrite lookup_insert_ne by apply Hno. apply L1.
    + intros l. split; [by left|]. intros [H|H]; [done|]. by destruct (Hno l).
Qed.

(** The running thread enters the wait list of a semaphore and blocks. *)
Lemma wait_inv k s v w :
  sched_inv true k -> semas k !! s = Some (v, w) -> current k <> idle_thread k ->
  sched_inv false (upd_semas (<[s := (v, w ++ [current k])]>)
    (upd_threads (alter (with_status THREAD_BLOCKED) (current k)) k)).
Proof.
  intros Hinv Hs Hni. destruct (si_current _ _ Hinv) as (x & Hx & Hst). specialize (Hst eq_refl).
  assert (Hnw : forall s', ~ waiting k (current k) s').
  { intros s' Hw. destruct (si_blocked _ _ Hinv _ _ Hw) as ((y & Hy & Hsy) & _). simplify_eq. congruence. }
  assert (Hnc : forall u y, threads k !! u = Some y -> creating (cont y) = true -> v_t y <> current k).
  { intros u y Hy Hc E. destruct (si_child _ _ Hinv u y Hy Hc) as ((z & Hz & Hsz) & _). rewrite E in Hz. simplify_eq. congruence. }
  pose proof (leave_inv k THREAD_BLOCKED Hinv ltac:(done) ltac:(done)) as Hinv1.
  set (k1 := upd_threads (alter (with_status THREAD_BLOCKED) (current k)) k) in *.
  set (k2 := upd_semas (<[s := (v, w ++ [current k])]>) k1).
  assert (Hw : forall t s', waiting k2 t s' -> waiting k t s' \/ t = current k /\ s' = s).
  { intros t s' (a & l & Hl & Ht). cbn in Hl. apply lookup_insert_Some in Hl as [[<- [= <- <-]]|[_ Hl]].
    - apply elem_of_app in Ht as [Ht|Ht%list_elem_of_singleton]; [|auto]. left. by exists v, w.
    - left. by exists a, l. }
  assert (Hc1 : exists y, threads k1 !! current k = Some y /\ status y = THREAD_BLOCKED).
  { exists (with_status THREAD_BLOCKED x). cbn. by rewrite lookup_alter_eq, Hx. }
  assert (HN : NoDup (w ++ [current k]) /\ 0 <= v).
  { destruct (si_sema _ _ Hinv s v w Hs) as [HNw Hv]. split; [|done]. apply NoDup_app. split; [done|].
    split; [|apply NoDup_singleton]. intros t Ht ->%list_elem_of_singleton. apply (Hnw s). by exists v, w. }
  destruct Hinv1 as [Ha Hb Hc Hd He Hf Hg Hh Hi Hj Hk Hl Hm]. split; try done.
  - intros s' a l. cbn. rewrite lookup_insert_Some. intros [[<- [= <- <-]]|[_ Hl']]; [done|]. by apply (Hg s' a l).
  - intros t s' [Hw'|[-> ->]]%Hw; [by apply (Hh t s')|done].
  - intros t s1 s2 [H1|[-> ->]]%Hw [H2|[E ->]]%Hw; try done.
    + by apply (Hi t).
    + subst. by destruct (Hnw s1).
    + by destruct (Hnw s2).
  - intros t y Hy Hcr. destruct (Hk t y Hy Hcr) as (Hbl & Hwt & Hid). split; [done|]. split; [|done].
    intros s' [Hw'|[E _]]%Hw; [by apply (Hwt s')|]. cbn in Hy. apply lookup_alter_Some in Hy.
    destruct Hy as [(<- & z & Hz & ->)|[_ Hy]]; [by apply (Hnc _ z Hz)|by apply (Hnc t y Hy)].
Qed.

(** The pass of sema_down that finds the semaphore down succeeds in giving up
    the processor. *)
Lemma sema_down_blocks k s v w :
  sched_inv true k -> semas k !! s = Some (v, w) -> current k <> idle_thread k ->
  exists k', (set_sema s (v, w ++ [current k]);; thread_block) k = Ok (tt, k') /\ sched_inv true k' /\ same_code k k'.
Proof.
  intros Hinv Hs Hni. pose proof (wait_inv k s v w Hinv Hs Hni) as Hinv2.
  destruct (si_current _ _ Hinv) as (x & Hx & Hst). specialize (Hst eq_refl).
  set (k1 := upd_semas (<[s := (v, w ++ [current k])]>) k).
  rewrite (stbind_step _ _ k tt k1) by done. unfold thread_block.
  assert (E : thread_current k1 = Ok (current k, k1)).
  { unfold thread_current. rewrite (stbind_step _ _ k1 (current k) k1) by done.
    rewrite (stbind_step _ _ k1 x k1) by (unfold get_thread; cbn; by rewrite Hx).
    rewrite bool_decide_true by done. by rewrite (stbind_step _ _ k1 tt k1). }
  rewrite (stbind_step _ _ k1 _ _ E).
  rewrite (stbind_step _ _ k1 tt (upd_threads (alter (with_status THREAD_BLOCKED) (current k)) k1)) by done.
  destruct (schedule_spec _ Hinv2) as (k' & E' & Hinv' & Hsc). exists k'. split_and!; [done|done|].
  eapply same_code_trans; [|exact Hsc].
  apply (same_code_trans _ (upd_threads (alter (with_status THREAD_BLOCKED) (current k)) k)); [apply status_same_code|].
  split; try done; eauto.
  intros l a z. cbn. rewrite lookup_insert_Some. intros [[-> [= <- _]]|[_ Hl]]; eauto.
Qed.

(** One pass of sema_down, for a semaphore of its own or a lock's. *)
Lemma sema_down_pass_inv k s x rest k' :
  full_inv k -> threads k !! current k = Some x -> current k <> idle_thread k ->
  (creating rest = true -> creating (cont x) = true) ->
  wf_cont (fun l => owned k (current k) l \/ s = SLock l) None rest ->
  sema_down_pass (current k) s rest k = Ok (tt, k') -> full_inv k'.
Proof.
  intros Hf Hx Hni Hcr Hwf. unfold sema_down_pass.
  destruct (semas k !! s) as [[v w]|] eqn:Hs; [|unfold get_sema, mbind, stM_bind; by rewrite Hs].
  rewrite (stbind_step _ _ k _ _ (get_sema_Ok k s _ Hs)). cbn [fst snd].
  pose proof Hf as (Hsi & _ & _). destruct (si_sema _ _ Hsi s v w Hs) as [_ Hv].
  destruct (Z.eqb_spec v 0) as [Hz|Hz]; intros E.
  - destruct (sema_down_blocks k s v w Hsi Hs Hni) as (k1 & E1 & Hs1 & Hsc). rewrite E1 in E. injection E as <-.
    by eapply same_code_full.
  - destruct ((set_sema s (v - 1, w);; own s (current k)) k) as [[[] k1]|] eqn:E1.
    2:{ by destruct s. }
    destruct (take_sema_inv k s x v w k1 Hf Hx Hs ltac:(lia) E1) as (Hf1 & HT & HC & HI & HO).
    assert (E2 : set_cont (current k) rest k1 = Ok (tt, k')).
    { destruct s; injection E1 as <-; exact E. }
    injection E2 as <-. rewrite <- HC. eapply set_cont_inv; [done|by rewrite HT, HC|by rewrite HI, HC|done|].
    rewrite HC. eapply wf_cont_mono; [|exact Hwf]. cbn. intros l Hl. by apply HO.
Qed.

(** sema_try_down. *)
Lemma sema_try_down_inv k s x b k' :
  full_inv k -> threads k !! current k = Some x -> sema_try_down s (current k) k = Ok (b, k') ->
  full_inv k' /\ threads k' = threads k /\ current k' = current k /\ idle_thread k' = idle_thread k /\
  forall l, owned k' (current k) l <-> owned k (current k) l \/ b = true /\ s = SLock l.
Proof.
  intros Hf Hx. unfold sema_try_down.
  destruct (semas k !! s) as [[v w]|] eqn:Hs; [|unfold get_sema, mbind, stM_bind; by rewrite Hs].
  rewrite (stbind_step _ _ k _ _ (get_sema_Ok k s _ Hs)). cbn [fst snd].
  destruct (Z.ltb_spec 0 v) as [Hv|Hv]; intros E.
  2:{ injection E as <- <-. split_and!; [done..|]. naive_solver. }
  destruct ((set_sema s (v - 1, w);; own s (current k)) k) as [[[] k1]|] eqn:E1; [|by destruct s].
  destruct (take_sema_inv k s x v w k1 Hf Hx Hs ltac:(lia) E1) as (Hf1 & HT & HC & HI & HO).
  assert (b = true /\ k' = k1) as [-> ->] by (destruct s; injection E1 as <-; by injection E as <- <-).
  split_and!; try done. intros l. rewrite HO. naive_solver.
Qed.

(** The holder field of a lock the running thread owns. *)
Lemma set_holder_inv k l x :
  full_inv k -> threads k !! current k = Some x -> owner k !! l = Some (current k) -> head_prev (cont x) = None ->
  full_inv (upd_holder (<[l := current k]>) k).
Proof.
  intros (Hsi & [L1 L2 L3 L4] & Ht) Hx How Hhead. split; [by destruct Hsi; split|]. split; [|by destruct Ht; split].
  split; cbn; try done.
  - intros l' t. rewrite lookup_insert_Some. intros [[<- <-]|[_ Hh]]; [done|by apply L2].
  - intros t y l' c Hy Hc. rewrite lookup_insert_ne; [by apply (L4 t y l' c)|]. intros <-.
    pose proof (L3 t y Hy) as Hwf. rewrite Hc in Hwf. destruct Hwf as (_ & How' & _). unfold owned in How'.
    assert (t = current k) as -> by congruence. assert (y = x) as -> by congruence. by rewrite Hc in Hhead.
Qed.

Lemma clear_holder_inv k l : full_inv k -> full_inv (upd_holder (delete l) k).
Proof.
  intros (Hsi & [L1 L2 L3 L4] & Ht). split; [by destruct Hsi; split|]. split; [|by destruct Ht; split].
  split; cbn; try done.
  - intros l' t [_ Hh]%lookup_delete_Some. by apply L2.
  - intros t y l' c Hy Hc. apply lookup_delete_None. right. by apply (L4 t y l' c).
Qed.

Lemma conds_inv k f : full_inv k -> full_inv (upd_conds f k).
Proof.
  intros (Hsi & Hl & Ht). split; [by destruct Hsi; split|]. split; [by destruct Hl; split|by destruct Ht; split].
Qed.

Lemma sema_init_inv k s v : full_inv k -> (forall l, s <> SLock l) -> full_inv (upd_semas (<[s := (u32 v, [])]>) k).
Proof.
  intros (Hsi & Hl & Ht) Hne. split.
  - apply semas_inv; [done| |].
    + intros t s' (a & w & Hw & Hin). cbn in Hw. apply lookup_insert_Some in Hw as [[_ [= _ <-]]|[_ Hw]].
      * by apply elem_of_nil in Hin.
      * by exists a, w.
    + intros s' a w. rewrite lookup_insert_Some. intros [[_ [= <- <-]]|[_ Hw]]; [|by eapply si_sema].
      split; [constructor|apply u32_range].
  - split; [|by destruct Ht; split]. destruct Hl as [L1 L2 L3 L4]. split; cbn; try done.
    intros l a z. rewrite lookup_insert_ne by apply Hne. apply L1.
Qed.

(** ** Creating threads *)

(** init_thread puts a new thread at a fresh page. *)
Lemma fresh_thread_inv k prio :
  full_inv k ->
  full_inv (upd_threads (<[next_page k := new_thread prio]>) (set_next_page (next_page k + 1) k)).
Proof.
  intros (Hsi & [L1 L2 L3 L4] & [T1 T2 T3]).
  destruct Hsi as [Hcur Hrun HN Hready Hidle Hic Hsem Hblk Hone Hpg Hch Hchs Hall].
  set (p := next_page k) in *.
  assert (Hkeep : forall t y, threads k !! t = Some y -> <[p := new_thread prio]> (threads k) !! t = Some y).
  { intros t y Hy. rewrite lookup_insert_ne; [done|]. specialize (Hpg t y Hy). lia. }
  assert (Hnew : forall t y, <[p := new_thread prio]> (threads k) !! t = Some y ->
            t = p /\ y = new_thread prio \/ threads k !! t = Some y).
  { intros t y. rewrite lookup_insert_Some. intros [[<- <-]|[_ Hy]]; auto. }
  split_and!.
  - split; cbn; try done.
    + destruct Hcur as (x & Hx & Hs). exists x. split; [by apply Hkeep|done].
    + intros t x [[-> ->]|Hx]%Hnew Hs; [done|by apply (Hrun t x)].
    + intros t Hin. destruct (Hready t Hin) as (y & Hy & Hs). exists y. split; [by apply Hkeep|done].
    + destruct Hic as (y & Hy & Hc). exists y. split; [by apply Hkeep|done].
    + intros t s Hw. destruct (Hblk t s Hw) as ((y & Hy & Hs) & Hni). split; [|done]. exists y. split; [by apply Hkeep|done].
    + intros t x [[-> ->]|Hx]%Hnew; [|specialize (Hpg t x Hx)]; lia.
    + intros t x [[-> ->]|Hx]%Hnew Hc; [done|]. destruct (Hch t x Hx Hc) as ((y & Hy & Hs) & Hw & Hi).
      split; [|done]. exists y. split; [by apply Hkeep|done].
    + intros t u x y [[-> ->]|Hx]%Hnew [[-> ->]|Hy]%Hnew; try done. by apply Hchs.
    + intros t x [[-> ->]|Hx]%Hnew Hr; [done|by apply (Hall t x)].
  - split; cbn; try done.
    + by intros t x [[-> ->]|Hx]%Hnew; [|apply L3].
    + intros t x l c [[-> ->]|Hx]%Hnew Hc; [done|by apply (L4 t x l c)].
  - split; cbn; try done. intros t x c [[-> ->]|Hx]%Hnew Hc; [done|by apply (T3 t x c)].
Qed.

Lemma upd_threads_alter2 f g t k :
  upd_threads (alter f t) (upd_threads (alter g t) k) = upd_threads (alter (f ∘ g) t) k.
Proof. unfold upd_threads. cbn. f_equal. apply alter_alter_eq. Qed.

(** The first action of thread_create: a page, init_thread. *)
Lemma alloc_thread_inv code k x prio rest k' :
  full_inv k -> threads k !! current k = Some x -> current k <> idle_thread k ->
  wf_cont (owned k (current k)) None rest ->
  exec code (current k) (AAllocThread true prio) rest k = Ok (tt, k') -> full_inv k'.
Proof.
  intros Hf Hx Hni Hwf E. pose proof Hf as (Hsi & _ & _). cbn [exec] in E.
  set (p := next_page k) in *. set (k1 := upd_threads (alter (with_cont rest) (current k)) k).
  rewrite (stbind_step _ _ k tt k1) in E by done. rewrite (stbind_step _ _ k1 k1 k1) in E by done. cbv zeta in E.
  change (next_page k1) with p in E.
  rewrite (stbind_step _ _ k1 tt (set_next_page (p + 1) k1)) in E by done.
  rewrite (stbind_step _ _ _ tt (upd_threads (alter (with_vt p) (current k)) (set_next_page (p + 1) k1))) in E by done.
  unfold init_thread in E. destruct (_ && _); [|done]. injection E as <-.
  assert (Hcp : current k <> p) by (specialize (si_pages _ _ Hsi _ x Hx); unfold p; lia).
  pose proof (fresh_thread_inv k prio Hf) as Hf1. fold p in Hf1.
  set (k2 := upd_threads (<[p := new_thread prio]>) (set_next_page (p + 1) k)) in *.
  assert (Hf3 : full_inv (upd_threads (alter (with_vt p ∘ with_cont rest) (current k)) k2)).
  { assert (Hx2 : threads k2 !! current k = Some x) by (cbn; by rewrite lookup_insert_ne).
    eapply alter_inv; [done|exact Hx2|done|done|]. split; cbn.
    - intros _. split.
      + split; [exists (new_thread prio); cbn; by rewrite lookup_insert_eq|]. split.
        * intros s Hw. destruct (si_blocked _ _ Hsi p s Hw) as ((y & Hy & _) & _).
          specialize (si_pages _ _ Hsi _ y Hy). unfold p. lia.
        * cbn. destruct (si_idle_cont _ _ Hsi) as (y & Hy & _). specialize (si_pages _ _ Hsi _ y Hy). unfold p. lia.
      + intros u y Hne. cbn. rewrite lookup_insert_Some. intros [[<- <-]|[_ Hy]] Hc E; [done|].
        destruct (si_child _ _ Hsi u y Hy Hc) as ((z & Hz & _) & _). rewrite E in Hz.
        specialize (si_pages _ _ Hsi _ z Hz). unfold p. lia.
    - by eapply wf_cont_prev.
    - intros l c ->. by destruct Hwf.
    - intros c ->. by destruct Hwf. }
  replace (upd_all _ _) with (upd_all (fun l => l ++ [p]) (upd_threads (alter (with_vt p ∘ with_cont rest) (current k)) k2)).
  - destruct Hf3 as (H1 & H2 & H3). split; [by destruct H1; split|]. split; [by destruct H2; split|by destruct H3; split].
  - unfold k2, k1, upd_all, upd_threads, set_next_page. cbn. f_equal.
    rewrite alter_alter_eq. by rewrite alter_insert_ne.
Qed.

(** allocate_tid: only the owner of tid_lock reads and writes next_tid. *)
Lemma load_tid_inv k x rest :
  full_inv k -> threads k !! current k = Some x -> current k <> idle_thread k ->
  (creating rest = true -> creating (cont x) = true) -> (forall l c, rest <> AUp (SLock l) :: c) ->
  wf_cont (owned k (current k)) (Some ALoadTid) rest ->
  full_inv (upd_threads (alter (with_vtid (next_tid k)) (current k))
             (upd_threads (alter (with_cont rest) (current k)) k)).
Proof.
  intros Hf Hx Hni Hcr Hup Hwf. rewrite upd_threads_alter2. pose proof Hf as (Hs & _ & _).
  eapply alter_inv; [done..|]. split; cbn; try done.
  - intros Hc. specialize (Hcr Hc). split; [exact (si_child _ _ Hs _ x Hx Hcr)|].
    intros u y Hne Hy Hcy E. apply Hne. by apply (si_children _ _ Hs u (current k) y x).
  - by eapply wf_cont_prev.
  - intros l c Hc. by destruct (Hup l c).
Qed.

Lemma store_tid_inv k x :
  full_inv k -> threads k !! current k = Some x -> owner k !! tid_lock = Some (current k) ->
  head_prev (cont x) = None ->
  full_inv (set_next_tid (next_tid k + 1) (tid_log k ++ [next_tid k]) k).
Proof.
  intros (Hs & Hl & [T1 T2 T3]) Hx How Hhead. split; [by destruct Hs; split|]. split; [by destruct Hl; split|].
  split; cbn.
  - apply NoDup_app. split; [done|]. split; [|apply NoDup_singleton].
    intros n Hn ->%list_elem_of_singleton. specialize (T2 _ Hn). lia.
  - intros n [Hn| ->%list_elem_of_singleton]%elem_of_app; [specialize (T2 n Hn)|]; lia.
  - intros t y c Hy Hc. exfalso. pose proof (li_cont _ Hl t y Hy) as Hwf. rewrite Hc in Hwf.
    destruct Hwf as (_ & How' & _). unfold owned in How'. assert (t = current k) as -> by congruence.
    assert (y = x) as -> by congruence. by rewrite Hc in Hhead.
Qed.

(** The end of thread_create: the child gets its program and becomes ready. *)
Lemma start_inv code k x f rest k' :
  full_inv k -> threads k !! current k = Some x -> current k <> idle_thread k ->
  creating (cont x) = true -> creating rest = false -> wf_cont (owned k (current k)) None rest ->
  exec code (current k) (AStart f) rest k = Ok (tt, k') -> full_inv k'.
Proof.
  intros Hf Hx Hni Hcr Hnr Hwf. pose proof Hf as (Hsi & _ & _).
  destruct (si_child _ _ Hsi _ x Hx Hcr) as ((z & Hz & Hzs) & Hnw & Hci).
  destruct (si_current _ _ Hsi) as (x0 & Hx0 & Hst). specialize (Hst eq_refl). assert (x0 = x) as -> by congruence.
  assert (Hne : v_t x <> current k) by (intros E; rewrite E in Hz; simplify_eq; congruence).
  assert (Hf1 : full_inv (upd_threads (alter (with_cont rest) (current k)) k)).
  { eapply set_cont_inv; [done..| |done]. by rewrite Hnr. }
  set (k1 := upd_threads (alter (with_cont rest) (current k)) k) in *.
  destruct (wf_body code f) as [Hbw Hbc].
  set (g := with_tid (v_tid x) ∘ with_cont (body code f)).
  assert (Hz1 : threads k1 !! v_t x = Some z) by (cbn; by rewrite lookup_alter_ne).
  assert (Hf2 : full_inv (upd_threads (alter g (v_t x)) k1)).
  { eapply alter_inv; [done|done|done|done|]. split; unfold g; cbn.
    - by rewrite Hbc.
    - eapply wf_cont_prev, Hbw.
    - intros l c Hc. specialize (Hbw (fun _ => True)). rewrite Hc in Hbw. by destruct Hbw.
    - intros c Hc. specialize (Hbw (fun _ => True)). rewrite Hc in Hbw. by destruct Hbw. }
  set (k2 := upd_threads (alter g (v_t x)) k1) in *. pose proof Hf2 as (Hsi2 & _ & _). cbn [exec].
  rewrite (stbind_step _ _ k tt k1) by done.
  assert (Hx1 : threads k1 !! current k = Some (with_cont rest x)) by (cbn; by rewrite lookup_alter_eq, Hx).
  rewrite (stbind_step _ _ k1 (with_cont rest x) k1) by (unfold get_thread; by rewrite Hx1).
  rewrite (stbind_step _ _ k1 tt k2) by done. cbn [v_t with_cont].
  destruct (thread_unblock_spec k2 (v_t x) (g z) Hsi2) as (k3 & E3 & Hsi3 & Hsc & _); try done.
  - cbn. by rewrite lookup_alter_eq, lookup_alter_ne, Hz by done.
  - intros u y. cbn. rewrite !lookup_alter_Some.
    intros [(<- & y1 & Hy1 & ->)|[Hnu [(<- & y1 & Hy1 & ->)|[Hnc Hy1]]]].
    + unfold g. cbn. by rewrite Hbc.
    + cbn. by rewrite Hnr.
    + intros Hc E. apply Hnc. symmetry. by apply (si_children _ _ Hsi u (current k) y x).
  - rewrite E3. intros [= <-]. by eapply same_code_full.
Qed.

(** ** Every step preserves the invariant *)

Section Steps.
Context (code : Z -> list command).

(** The running thread when it is about to perform [a]. *)
Record at_action (k : kernel) (x : thread) (a : action) (rest : list action) : Prop := {
  at_inv : full_inv k;
  at_thread : threads k !! current k = Some x;
  at_cont : cont x = a :: rest;
  at_not_idle : current k <> idle_thread k;
  at_wf : wf_cont (owned k (current k)) (head_prev (a :: rest)) (a :: rest)
}.

(** An action that starts by going on to [rest]. *)
Lemma advance k x a rest :
  at_action k x a rest -> (creating rest = true -> creating (a :: rest) = true) ->
  wf_cont (owned k (current k)) None rest ->
  full_inv (upd_threads (alter (with_cont rest) (current k)) k) /\
  threads (upd_threads (alter (with_cont rest) (current k)) k) !! current k = Some (with_cont rest x).
Proof.
  intros [Hf Hx Hc Hni _] Hcr Hwf. split; [|cbn; by rewrite lookup_alter_eq, Hx].
  eapply set_cont_inv; [done..| |done]. by rewrite Hc.
Qed.

Lemma exec_sema k x a rest k' :
  at_action k x a rest ->
  match a with ASemaInit _ _ | ADown _ | ATryDown _ | AUp _ => True | _ => False end ->
  exec code (current k) a rest k = Ok (tt, k') -> full_inv k'.
Proof.
  intros Hat Ha E. pose proof Hat as [Hf Hx Hc Hni Hwf].
  assert (Hcr : creating rest = true -> creating (cont x) = true) by (rewrite Hc; by destruct a).
  destruct a; try done; cbn [exec] in E; cbn [wf_cont] in Hwf.
  - destruct s; destruct Hwf as [[] Hwf]. destruct (advance _ _ _ _ Hat) as [Hf1 _]; [done..|].
    injection E as <-. by apply sema_init_inv.
  - eapply sema_down_pass_inv; [done..| |done].
    destruct s; [| |done]; (eapply wf_cont_mono; [|exact Hwf]); cbn; naive_solver.
  - destruct s as [s|l|w].
    + destruct (advance _ _ _ _ Hat) as [Hf1 _]; [done..|]. by eapply (sema_up_plain _ (SPlain s) k' Hf1).
    + destruct Hwf as (_ & How & Hwf). destruct (advance _ _ _ _ Hat) as [Hf1 Hx1]; [done| |].
      { eapply wf_cont_mono; [|exact Hwf]. by intros l' [? _]. }
      eapply (sema_up_lock _ l _ k' Hf1 Hx1); [done|done| |exact E].
      pose proof Hf as (_ & [_ _ _ L4] & _). by apply (L4 (current k) x l rest).
    + done.
  - destruct s; destruct Hwf as [[] Hwf].
    destruct (sema_try_down (SPlain s) (current k) k) as [[b k1]|] eqn:E1; [|by rewrite (stbind_err _ _ _ _ E1) in E].
    rewrite (stbind_step _ _ _ _ _ E1) in E. injection E as <-.
    destruct (sema_try_down_inv _ _ x _ _ Hf Hx E1) as (Hf1 & HT & HC & HI & HO).
    rewrite <- HC. eapply set_cont_inv; [done|by rewrite HT, HC|by rewrite HC, HI|done|].
    rewrite HC. eapply wf_cont_mono; [|exact Hwf]. intros l Hl. apply HO. by left.
Qed.

Lemma exec_lock k x a rest k' :
  at_action k x a rest ->
  match a with AAssertHeld _ | AAssertNotHeld _ | ASetHolder _ | AClearHolder _ | ATryAcquire _ => True | _ => False end ->
  exec code (current k) a rest k = Ok (tt, k') -> full_inv k'.
Proof.
  intros Hat Ha E. pose proof Hat as [Hf Hx Hc Hni Hwf].
  assert (Hcr : creating rest = true -> creating (cont x) = true) by (rewrite Hc; by destruct a).
  destruct a; try done; cbn [exec] in E; cbn [wf_cont] in Hwf.
  - rewrite (stbind_step _ _ k k k) in E by done.
    destruct (lock_held_by_current_thread l (current k) k) eqn:Hh; [|done].
    apply bool_decide_eq_true in Hh. pose proof Hf as (_ & [_ L2 _ _] & _). specialize (L2 _ _ Hh).
    injection E as <-. eapply set_cont_inv; [done..|]. eapply wf_cont_mono; [|exact Hwf].
    intros l' [?| ->]; done.
  - rewrite (stbind_step _ _ k k k) in E by done.
    destruct (lock_held_by_current_thread l (current k) k); [done|].
    injection E as <-. by eapply set_cont_inv.
  - destruct Hwf as [How Hwf]. destruct (advance _ _ _ _ Hat) as [Hf1 Hx1]; [done..|]. injection E as <-.
    eapply (set_holder_inv _ l _ Hf1 Hx1); [done|]. cbn. by eapply wf_cont_head.
  - destruct Hwf as [How Hwf]. injection E as <-.
    pose proof (clear_holder_inv k l Hf) as Hf1. pose proof Hf1 as (Hs1 & _ & _).
    apply (alter_inv (upd_holder (delete l) k) (current k) x (with_cont rest) Hf1 Hx Hni eq_refl). split; cbn.
    + intros Hcr'. specialize (Hcr Hcr'). split; [exact (si_child _ _ Hs1 _ x Hx Hcr)|].
      intros u y Hne Hy Hcy Ev. apply Hne. by apply (si_children _ _ Hs1 u (current k) y x).
    + by eapply wf_cont_prev.
    + intros l' c ->. destruct Hwf as ([= <-] & _). apply lookup_delete_eq.
    + intros c ->. by destruct Hwf.
  - destruct (sema_try_down (SLock l) (current k) k) as [[b k1]|] eqn:E1; [|by rewrite (stbind_err _ _ _ _ E1) in E].
    rewrite (stbind_step _ _ _ _ _ E1) in E. injection E as <-.
    destruct (sema_try_down_inv _ _ x _ _ Hf Hx E1) as (Hf1 & HT & HC & HI & HO).
    rewrite <- HC. eapply set_cont_inv; [done|by rewrite HT, HC|by rewrite HC, HI|by destruct b|].
    rewrite HC. assert (Hr : wf_cont (owned k1 (current k)) None rest).
    { eapply wf_cont_mono; [|exact Hwf]. intros l' Hl'. apply HO. by left. }
    destruct b; [|done]. split; [|done]. apply HO. by right.
Qed.

Lemma exec_cond k x a rest k' :
  at_action k x a rest ->
  match a with ACondInit _ | AWaiterInit | ACondPush _ | AWaiterDown | ACondSignal _ | ACondBroadcast _ _ => True
          | _ => False end ->
  exec code (current k) a rest k = Ok (tt, k') -> full_inv k'.
Proof.
  intros Hat Ha E. pose proof Hat as [Hf Hx Hc Hni Hwf].
  assert (Hcr : creating rest = true -> creating (cont x) = true) by (rewrite Hc; by destruct a).
  assert (Hwf0 : wf_cont (owned k (current k)) None rest) by (destruct a; done).
  assert (Hadv : creating rest = true -> creating (a :: rest) = true) by (by destruct a).
  destruct (advance _ _ _ _ Hat Hadv Hwf0) as [Hf1 Hx1].
  destruct a; try done; cbn [exec] in E.
  - injection E as <-. by apply conds_inv.
  - injection E as <-. by apply sema_init_inv.
  - injection E as <-. by apply conds_inv.
  - eapply (sema_down_pass_inv k _ x _ _ Hf Hx Hni Hcr); [|exact E]. eapply wf_cont_mono; [|exact Hwf0]. cbn. naive_solver.
  - set (k1 := upd_threads (alter (with_cont rest) (current k)) k) in *.
    rewrite (stbind_step _ _ k tt k1) in E by done. rewrite (stbind_step _ _ k1 k1 k1) in E by done.
    destruct (default [] (conds k1 !! c)) as [|w ws]; [by injection E as <-|].
    pose proof (conds_inv _ (<[c := ws]>) Hf1) as Hf2. by eapply (sema_up_plain _ (SWaiter w) k' Hf2).
  - rewrite (stbind_step _ _ k k k) in E by done.
    destruct (default [] (conds k !! c)); [by injection E as <-|]. injection E as <-.
    eapply (set_cont_inv k x); [done..|]. cbn. eapply wf_cont_mono; [|exact Hwf0]. cbn. naive_solver.
Qed.

Lemma exec_thread k x a rest k' :
  at_action k x a rest ->
  match a with AYield | AExit | AAllocThread _ _ | ALoadTid | AStoreTid | AStart _ | AWork => True | _ => False end ->
  exec code (current k) a rest k = Ok (tt, k') -> full_inv k'.
Proof.
  intros Hat Ha E. pose proof Hat as [Hf Hx Hc Hni Hwf]. pose proof Hf as (Hsi & _ & _).
  destruct a; try done; cbn [wf_cont] in Hwf.
  - cbn [exec] in E. destruct (advance _ _ _ _ Hat) as [Hf1 _]; [done..|]. pose proof Hf1 as (Hsi1 & _ & _).
    destruct (thread_yield_spec _ Hsi1) as (k1 & E1 & Hs1 & Hsc).
    assert (k1 = k') as <- by (change (thread_yield (upd_threads (alter (with_cont rest) (current k)) k) = Ok (tt, k')) in E; congruence).
    by eapply same_code_full.
  - cbn [exec] in E. destruct (thread_exit_spec _ Hsi Hni) as (k1 & E1 & Hs1 & Hsc).
    assert (k1 = k') as <- by congruence. by eapply same_code_full.
  - destruct Hwf as [Hok Hwf]. destruct page_ok; [by eapply alloc_thread_inv|].
    destruct (advance _ _ _ _ Hat) as [Hf1 _]; [by rewrite Hok|done|]. by injection E as <-.
  - destruct Hwf as [How Hwf]. injection E as <-. eapply load_tid_inv; [done|done|done|by rewrite Hc| |done].
    intros l c ->. by destruct Hwf.
  - destruct Hwf as (_ & How & Hwf). destruct (advance _ _ _ _ Hat) as [Hf1 Hx1]; [done..|].
    cbn [exec] in E. set (k1 := upd_threads (alter (with_cont rest) (current k)) k) in *.
    rewrite (stbind_step _ _ k tt k1) in E by done.
    rewrite (stbind_step _ _ k1 (with_cont rest x) k1) in E by (unfold get_thread; by rewrite Hx1).
    rewrite (stbind_step _ _ k1 k1 k1) in E by done. cbn [v_tid with_cont] in E. destruct (v_tid x <? 2 ^ 31 - 1); [|done].
    injection E as <-. pose proof Hf as (_ & _ & [_ _ T3]). cbn [v_tid with_cont]. rewrite (T3 _ x rest Hx Hc).
    eapply (store_tid_inv k1 _ Hf1 Hx1); [done|]. cbn. by eapply wf_cont_head.
  - destruct Hwf as [Hnr Hwf]. eapply start_inv; [done|done|done|by rewrite Hc|done|done|exact E].
  - destruct (advance _ _ _ _ Hat) as [Hf1 _]; [done..|]. by injection E as <-.
Qed.

Lemma run_current_inv k k' : full_inv k -> run_current code k = Ok (tt, k') -> full_inv k'.
Proof.
  intros Hf E. pose proof Hf as (Hsi & Hl & _). unfold run_current in E.
  rewrite (stbind_step _ _ _ _ _ (thread_current_Ok k Hsi)) in E.
  destruct (si_current _ _ Hsi) as (x & Hx & _).
  rewrite (stbind_step _ _ k x k) in E by (unfold get_thread; by rewrite Hx).
  destruct (si_idle_cont _ _ Hsi) as (xi & Hxi & Hci & _).
  assert (Hni : cont x <> [AIdle] -> current k <> idle_thread k) by (intros Hn Ei; rewrite Ei in Hx; congruence).
  pose proof (li_cont _ Hl _ x Hx) as Hwf. destruct (cont x) as [|a rest] eqn:Hc.
  - destruct (thread_exit_spec _ Hsi (Hni ltac:(done))) as (k1 & E1 & Hs1 & Hsc).
    assert (k1 = k') as <- by congruence. by eapply same_code_full.
  - destruct (decide (current k = idle_thread k)) as [Ei|Ei].
    + assert (a = AIdle) as -> by (rewrite Ei in Hx; congruence). cbn [exec] in E.
      destruct (thread_block_spec _ Hsi) as (k1 & E1 & Hs1 & Hsc).
      assert (k1 = k') as <- by congruence. by eapply same_code_full.
    + assert (Hat : at_action k x a rest) by (by split).
      destruct a; try by (eapply exec_sema + eapply exec_lock + eapply exec_cond + eapply exec_thread).
      cbn [exec] in E. destruct (thread_block_spec _ Hsi) as (k1 & E1 & Hs1 & Hsc).
      assert (k1 = k') as <- by congruence. by eapply same_code_full.
Qed.

Lemma step_inv k k' : full_inv k -> step code k k' -> full_inv k'.
Proof.
  intros Hf [E|E|s E].
  - by eapply run_current_inv.
  - pose proof Hf as (Hsi & _ & _). destruct (thread_tick_spec _ Hsi) as (k1 & E1 & Hs1 & Hsc).
    assert (k1 = k') as <- by congruence. by eapply same_code_full.
  - by eapply (sema_up_plain k (SPlain s)).
Qed.

(** The state after thread_start satisfies the invariant. *)
Lemma boot_semas f plain locks s v w :
  semas (boot code f plain locks) !! s = Some (v, w) -> w = [] /\ 0 <= v /\ (forall l, s = SLock l -> v = 1).
Proof.
  cbn [semas boot]. rewrite lookup_union_Some_raw. intros [H|[_ H]];
    apply elem_of_list_to_map_2 in H.
  - apply list_elem_of_fmap in H as (l & [= -> -> ->] & _). split_and!; [done|lia|done].
  - apply list_elem_of_fmap in H as (x & [= -> -> ->] & _). split_and!; [done|apply u32_range|done].
Qed.

Lemma boot_threads f plain locks t x :
  threads (boot code f plain locks) !! t = Some x ->
  t = 1 /\ x = MkThread THREAD_RUNNING 1 PRI_DEFAULT (body code f) 0 0 \/
  t = 2 /\ x = MkThread THREAD_BLOCKED 2 PRI_MIN [AIdle] 0 0.
Proof.
  cbn [threads boot]. rewrite lookup_insert_Some. intros [[<- <-]|[_ H]]; [by left|].
  apply lookup_singleton_Some in H as [<- <-]. by right.
Qed.

Lemma boot_inv f plain locks : full_inv (boot code f plain locks).
Proof.
  destruct (wf_body code f) as [Hbw Hbc].
  assert (Hw : forall t s, ~ waiting (boot code f plain locks) t s).
  { intros t s (v & w & Hs & Hin). destruct (boot_semas _ _ _ _ _ _ Hs) as (-> & _). by apply elem_of_nil in Hin. }
  split_and!.
  - split.
    + eexists. split; [done|done].
    + by intros t x [[-> ->]|[-> ->]]%boot_threads.
    + constructor.
    + by intros t Ht%elem_of_nil.
    + by intros Ht%elem_of_nil.
    + eexists. split; [done|]. done.
    + intros s v w Hs. destruct (boot_semas _ _ _ _ _ _ Hs) as (-> & Hv & _). split; [constructor|done].
    + by intros t s Ht%Hw.
    + by intros t s s' Ht%Hw.
    + intros t x [[-> ->]|[-> ->]]%boot_threads; cbn; lia.
    + intros t x [[-> ->]|[-> ->]]%boot_threads; cbn; by rewrite ?Hbc.
    + intros t u x y [[-> ->]|[-> ->]]%boot_threads; cbn; by rewrite ?Hbc.
    + by intros t x [[-> ->]|[-> ->]]%boot_threads.
  - split; try done.
    + intros l v w Hs. destruct (boot_semas _ _ _ _ _ _ Hs) as (_ & _ & Hv). cbn. by rewrite (Hv l).
    + intros t x [[-> ->]|[-> ->]]%boot_threads; [|done]. eapply wf_cont_prev, Hbw.
  - split; try done.
    + cbn. repeat constructor; set_solver.
    + cbn. intros n Hn. set_unfold. lia.
    + intros t x c [[-> ->]|[-> ->]]%boot_threads; [|done]. cbn. intros Hc.
      specialize (Hbw (fun _ => True)). rewrite Hc in Hbw. by destruct Hbw.
Qed.

Lemma reachable_inv f plain locks k : reachable code (boot code f plain locks) k -> full_inv k.
Proof. induction 1; [apply boot_inv|by eapply step_inv]. Qed.
End Steps.

(** ** A run to look at: main and its child contend for lock 5, with the child
    blocked in lock_acquire while main, which yielded, holds the lock. *)

Fixpoint runs (code : Z -> list command) (n : nat) (k : kernel) : res kernel :=
  match n with
  | O => Ok k
  | S n => match run_current code k with Ok (_, k1) => runs code n k1 | Err e => Err e end
  end.

Lemma runs_reachable code k0 n : forall k k', reachable code k0 k -> runs code n k = Ok k' -> reachable code k0 k'.
Proof.
  induction n as [|n IH]; cbn; intros k k' Hr E; [by injection E as <-|].
  destruct (run_current code k) as [[[] k1]|] eqn:E1; [|done].
  eapply IH; [|exact E]. eapply ReachStep; [exact Hr|]. by apply StepRun.
Qed.

Definition demo (f : Z) : list command :=
  match f with
  | 10 => [CCreate true PRI_DEFAULT 20; CLockAcquire 5; CYield; CWork; CLockRelease 5; CYield]
  | 20 => [CLockAcquire 5; CWork; CLockRelease 5; CSemaUp 7]
  | _ => []
  end.

Definition demo_state : kernel :=
  match runs demo 17 (boot demo 10 [(7, 0)] [5]) with Ok k => k | Err _ => boot demo 10 [] [] end.

Lemma demo_reachable : reachable demo (boot demo 10 [(7, 0)] [5]) demo_state.
Proof. apply (runs_reachable _ _ 17 _ _ (ReachInit _ _)). vm_compute. reflexivity. Qed.

(** ** Theorems *)

(** The program points between the end of sema_down and the end of sema_up in
    lock_acquire, lock_try_acquire, lock_release and allocate_tid. *)
Definition in_section (l : Z) (c : list action) : bool :=
  match c with
  | ASetHolder l' :: _ | AClearHolder l' :: _ | AUp (SLock l') :: _ => l =? l'
  | ALoadTid :: _ | AStoreTid :: _ => l =? tid_lock
  | _ => false
  end.

Definition inside (k : kernel) (l t : Z) : Prop :=
  holder k !! l = Some t \/ exists x, threads k !! t = Some x /\ in_section l (cont x) = true.

Lemma inside_owner k l t : full_inv k -> inside k l t -> owner k !! l = Some t.
Proof.
  intros (_ & [L1 L2 L3 L4] & _) [H|(x & Hx & H)]; [by apply L2|].
  pose proof (L3 t x Hx) as Hwf. unfold owned in Hwf. destruct (cont x) as [|a c]; [done|].
  destruct a; cbn in H; try done; [destruct s; try done|..]; apply Z.eqb_eq in H as ->; cbn in Hwf; naive_solver.
Qed.

(** C17. In every state the kernel can reach, whatever the bodies of the threads
    and however they interleave: the current thread is the one running thread;
    the ready queue has no duplicates and holds exactly the ready threads other
    than the idle thread; the threads in the wait list of a semaphore are
    blocked, and wait for that semaphore only; and a timer tick, with the
    thread switch it may cause, fails no assertion. *)
Theorem scheduler_invariant code f plain locks k :
  reachable code (boot code f plain locks) k ->
  (exists x, threads k !! current k = Some x /\ status x = THREAD_RUNNING) /\
  (forall t x, threads k !! t = Some x -> status x = THREAD_RUNNING -> t = current k) /\
  NoDup (ready_list k) /\
  (forall t, t ∈ ready_list k <->
     t <> idle_thread k /\ exists x, threads k !! t = Some x /\ status x = THREAD_READY) /\
  (forall t s, waiting k t s -> exists x, threads k !! t = Some x /\ status x = THREAD_BLOCKED) /\
  (forall t s s', waiting k t s -> waiting k t s' -> s = s') /\
  (exists k', thread_tick k = Ok (tt, k')).
Proof.
  intros Hr. destruct (reachable_inv _ _ _ _ _ Hr) as (Hsi & _ & _).
  destruct (thread_tick_spec k Hsi) as (k' & E & _).
  destruct Hsi as [Hcur Hrun HN Hready Hidle Hic Hsem Hblk Hone Hpg Hch Hchs Hall].
  split_and!; [naive_solver|intros t x H1 H2; by apply (Hrun t x)|done| |intros t s Hw; by apply (Hblk t s Hw)|done|by exists k'].
  intros t. split.
  - intros Ht. split; [by intros ->|by apply Hready].
  - intros (Hni & x & Hx & Hst). destruct (Hall t x Hx Hst) as [?|[?|?]]; done.
Qed.

Lemma scheduler_invariant_witness :
  reachable demo (boot demo 10 [(7, 0)] [5]) demo_state /\ waiting demo_state 3 (SLock 5) /\
  exists x, threads demo_state !! 3 = Some x /\ status x = THREAD_BLOCKED.
Proof.
  split; [exact demo_reachable|].
  assert (Hw : waiting demo_state 3 (SLock 5)) by (exists 0, [3]; split; [vm_compute; reflexivity|by left]).
  split; [exact Hw|].
  exact (proj1 (proj2 (proj2 (proj2 (proj2 (scheduler_invariant demo 10 _ _ _ demo_reachable))))) 3 (SLock 5) Hw).
Defined.

(** C3. Mutual exclusion: in every reachable state at most one thread is in the
    critical section of a lock (it is the holder, or it is between the
    sema_down and the sema_up of lock_acquire, lock_release or allocate_tid),
    and the semaphore of the lock is then 0; it is never more than 1. *)
Theorem mutual_exclusion code f plain locks k l :
  reachable code (boot code f plain locks) k ->
  (forall t u, inside k l t -> inside k l u -> t = u) /\
  (forall t v w, inside k l t -> semas k !! SLock l = Some (v, w) -> v = 0) /\
  (forall v w, semas k !! SLock l = Some (v, w) -> v = 0 \/ v = 1).
Proof.
  intros Hr. pose proof (reachable_inv _ _ _ _ _ Hr) as Hf. pose proof Hf as (_ & [L1 _ _ _] & _). split_and!.
  - intros t u H1%inside_owner H2%inside_owner; [congruence|done..].
  - intros t v w H1%inside_owner Hs; [|done]. rewrite (L1 l v w Hs). by rewrite H1.
  - intros v w Hs. rewrite (L1 l v w Hs). destruct (owner k !! l); auto.
Qed.

Lemma mutual_exclusion_witness :
  reachable demo (boot demo 10 [(7, 0)] [5]) demo_state /\ inside demo_state 5 1 /\
  forall u, inside demo_state 5 u -> u = 1.
Proof.
  split; [exact demo_reachable|]. assert (Hi : inside demo_state 5 1) by (left; vm_compute; reflexivity).
  split; [exact Hi|]. intros u Hu. exact (proj1 (mutual_exclusion demo 10 _ _ _ 5 demo_reachable) u 1 Hu Hi).
Defined.

(** allocate_tid never hands out the same tid twice, however thread_create
    runs are interleaved: the load and the store of [next_tid] are separate
    actions, and tid_lock makes them one. *)
Theorem tids_unique code f plain locks k :
  reachable code (boot code f plain locks) k ->
  NoDup (tid_log k) /\ forall n, n ∈ tid_log k -> n < next_tid k.
Proof. intros Hr. destruct (reachable_inv _ _ _ _ _ Hr) as (_ & _ & [T1 T2 _]). done. Qed.

Lemma tids_unique_witness :
  reachable demo (boot demo 10 [(7, 0)] [5]) demo_state /\ tid_log demo_state = [1; 2; 3] /\ NoDup (tid_log demo_state).
Proof.
  split; [exact demo_reachable|]. split; [vm_compute; reflexivity|].
  exact (proj1 (tids_unique demo 10 _ _ _ demo_reachable)).
Defined.

(** sema_up succeeds on every semaphore of a reachable state: it adds one
    to the value and moves the thread that has waited longest, and no other,
    from the front of the wait list to the back of the ready queue. *)
Theorem sema_up_wakes_first code f plain locks k s v t w :
  reachable code (boot code f plain locks) k -> semas k !! s = Some (v, t :: w) ->
  exists k', sema_up s k = Ok (tt, k') /\
    semas k' = <[s := (u32 (v + 1), w)]> (semas k) /\
    ready_list k' = ready_list k ++ [t] /\ current k' = current k /\
    threads k' = alter (with_status THREAD_READY) t (threads k).
Proof.
  intros Hr Hs. destruct (reachable_inv _ _ _ _ _ Hr) as (Hsi & _ & _).
  destruct (si_blocked _ _ Hsi t s) as ((x & Hx & Hst) & _); [exists v, (t :: w); split; [done|by left]|].
  set (k1 := upd_semas (<[s := (v, w)]>) k).
  set (k2 := upd_threads (alter (with_status THREAD_READY) t) (upd_ready (fun l => l ++ [t]) k1)).
  set (k3 := upd_semas (<[s := (u32 (v + 1), w)]>) k2).
  assert (E : sema_up s k = disown s k3).
  { unfold sema_up. rewrite (stbind_step _ _ _ _ _ (get_sema_Ok k s _ Hs)). cbn [fst snd].
    assert (E2 : (set_sema s (v, w);; thread_unblock t) k = Ok (tt, k2)).
    { rewrite (stbind_step _ _ k tt k1) by done. unfold thread_unblock.
      rewrite (stbind_step _ _ k1 x k1) by (unfold get_thread; cbn; by rewrite Hx).
      by rewrite bool_decide_true by done. }
    rewrite (stbind_step _ _ k tt k2 E2).
    rewrite (stbind_step _ _ k2 (v, w) k2) by (apply get_sema_Ok; apply lookup_insert_eq). done. }
  rewrite E. assert (Hsem : semas k3 = <[s := (u32 (v + 1), w)]> (semas k)) by apply insert_insert_eq.
  destruct s; eexists; (split; [reflexivity|]); done.
Qed.

Lemma sema_up_wakes_first_witness :
  reachable demo (boot demo 10 [(7, 0)] [5]) demo_state /\ semas demo_state !! SLock 5 = Some (0, [3]) /\
  exists k', sema_up (SLock 5) demo_state = Ok (tt, k') /\ ready_list k' = ready_list demo_state ++ [3].
Proof.
  split; [exact demo_reachable|]. assert (Hs : semas demo_state !! SLock 5 = Some (0, [3])) by (vm_compute; reflexivity).
  split; [exact Hs|].
  destruct (sema_up_wakes_first demo 10 _ _ _ (SLock 5) 0 3 [] demo_reachable Hs) as (k' & E & _ & Hr & _).
  exists k'. split; [exact E|exact Hr].
Defined.

(** Round robin: in a reachable state, the thread at position [i] of the
    ready queue runs after [i + 1] threads in a row have given up the
    processor (each at a thread_yield, or at the end of its time slice). *)
Theorem round_robin code f plain locks k i t :
  reachable code (boot code f plain locks) k -> ready_list k !! i = Some t ->
  exists k', yields (S i) k = Ok (tt, k') /\ current k' = t.
Proof.
  intros Hr Hi. destruct (reachable_inv _ _ _ _ _ Hr) as (Hsi & _ & _).
  destruct (yields_queue i k t Hsi Hi) as (k' & E & _ & Hc). by exists k'.
Qed.

Definition demo_ready : kernel :=
  match runs demo 10 (boot demo 10 [(7, 0)] [5]) with Ok k => k | Err _ => boot demo 10 [] [] end.

Lemma round_robin_witness :
  ready_list demo_ready !! 0%nat = Some 3 /\ exists k', yields 1 demo_ready = Ok (tt, k') /\ current k' = 3.
Proof.
  assert (Hr : reachable demo (boot demo 10 [(7, 0)] [5]) demo_ready).
  { apply (runs_reachable _ _ 10 _ _ (ReachInit _ _)). vm_compute. reflexivity. }
  assert (Hl : ready_list demo_ready !! 0%nat = Some 3) by (vm_compute; reflexivity).
  split; [exact Hl|]. exact (round_robin demo 10 _ _ _ 0%nat 3 Hr Hl).
Defined.
