(* ===== verification/Lexer.v ===== *)
(** The Pascal lexical analyser: lexanc.c, scanner.c, printtoken.c and the
    driver lexandr.c, with the definitions of token.h and lexan.h.

    The state is the rest of the input (bytes), the flag EOFFLG, the tables of
    powers of ten that [number] fills on its first call, and what has been
    printed.  A TOKEN is passed by value and returned: each token record is
    reachable from its caller only.  [int] values are 32 bits wide, [long] 64,
    and signed overflow wraps, as the code's own overflow test assumes;
    doubles are IEEE binary64 with round to nearest even.

    The code reads CHARCLASS[EOF], an integer before the table, when a word, or
    "." after a number, ends the input: that is a fault, [EFault], as is any
    other index outside an array.

    The theorems are in the file LexerSpec. *)

From stdpp Require Import base list numbers strings pretty.
From Stdlib Require Import ZArith Lia String Ascii SpecFloat.
From S2P Require Import Prelude.

#[local] Open Scope string_scope.
#[local] Open Scope list_scope.
#[local] Open Scope Z_scope.

(** ** Characters *)

Definition EOF : Z := -1.

(** The character codes of a literal of the code. *)
Definition chars (s : string) : list Z :=
  map (fun a => Z.of_nat (nat_of_ascii a)) (list_ascii_of_string s).
Definition char_of (c : Z) : ascii := ascii_of_nat (Z.to_nat (u8 c)).
Definition string_of (l : list Z) : string := string_of_list_ascii (map char_of l).

(** ** token.h and lexan.h *)

Definition OPERATOR : Z := 0.
Definition DELIMITER : Z := 1.
Definition RESERVED : Z := 2.
Definition IDENTIFIERTOK : Z := 3.
Definition STRINGTOK : Z := 4.
Definition NUMBERTOK : Z := 5.

Definition PLUSOP : Z := 1.
Definition MINUSOP : Z := 2.
Definition TIMESOP : Z := 3.
Definition DIVIDEOP : Z := 4.
Definition ASSIGNOP : Z := 5.
Definition EQOP : Z := 6.
Definition NEOP : Z := 7.
Definition LTOP : Z := 8.
Definition LEOP : Z := 9.
Definition GEOP : Z := 10.
Definition GTOP : Z := 11.
Definition POINTEROP : Z := 12.
Definition DOTOP : Z := 13.
Definition ANDOP : Z := 14.
Definition OROP : Z := 15.
Definition NOTOP : Z := 16.
Definition DIVOP : Z := 17.
Definition MODOP : Z := 18.
Definition INOP : Z := 19.

Definition INTEGER : Z := 0.
Definition REAL : Z := 1.

Definition COMMA : Z := 280.
Definition DELIMITER_BIAS : Z := COMMA - 1.
Definition SEMICOLON : Z := 281.
Definition COLON : Z := 282.
Definition LPAREN : Z := 283.
Definition RPAREN : Z := 284.
Definition LBRACKET : Z := 285.
Definition RBRACKET : Z := 286.
Definition DOTDOT : Z := 287.

Definition ARRAY : Z := 288.
Definition RESERVED_BIAS : Z := ARRAY - 1.
Definition BEGINBEGIN : Z := 289.
Definition CASE : Z := 290.
Definition CONST : Z := 291.
Definition DO : Z := 292.
Definition DOWNTO : Z := 293.
Definition ELSE : Z := 294.
Definition END : Z := 295.
Definition FILEFILE : Z := 296.
Definition FOR : Z := 297.
Definition FUNCTION : Z := 298.
Definition GOTO : Z := 299.
Definition IF : Z := 300.
Definition LABEL : Z := 301.
Definition NIL : Z := 302.
Definition OF : Z := 303.
Definition PACKED : Z := 304.
Definition PROCEDURE : Z := 305.
Definition PROGRAM : Z := 306.
Definition RECORD : Z := 307.
Definition REPEAT : Z := 308.
Definition SET : Z := 309.
Definition THEN : Z := 310.
Definition TO : Z := 311.
Definition TYPE : Z := 312.
Definition UNTIL : Z := 313.
Definition VAR : Z := 314.
Definition WHILE : Z := 315.
Definition WITH : Z := 316.

(** The union [tokenval]; [VZero] is the zeroed memory of calloc, which reads
    as 0 or as the empty string. *)
Inductive tokval :=
  | VZero
  | VString (s : list Z)   (* tokenstring, 16 bytes *)
  | VWhich (n : Z)
  | VInt (n : Z)
  | VReal (r : spec_float).

(** The link fields (symtype, symentry, operands, link) stay NULL. *)
Record token := MkToken { tokentype : Z; datatype : Z; tokenval : tokval }.

Definition MAXCHARCLASS : Z := 256.
Definition ALPHA : Z := 1.
Definition NUMERIC : Z := 2.
Definition SPECIAL : Z := 3.

(** ** Doubles *)

Definition prec : Z := 53.
Definition emax : Z := 1024.
Definition dbl (n : Z) : spec_float := binary_normalize prec emax n 0 false.
Definition dmul (x y : spec_float) : spec_float := SFmul prec emax x y.
Definition dadd (x y : spec_float) : spec_float := SFadd prec emax x y.
(** The double nearest to .1 *)
Definition tenth : spec_float := S754_finite false 7205759403792794 (-56).

(** ** State *)

Record lexer := MkLexer {
  input : list Z;
  EOFFLG : Z;
  dcl : list spec_float;
  dclCreated : Z;
  pdcl : list spec_float;
  pdclCreated : Z;
  out : list string
}.

#[local] Abbreviation L := (stM lexer).

Definition with_input (i : list Z) (s : lexer) : lexer :=
  MkLexer i (EOFFLG s) (dcl s) (dclCreated s) (pdcl s) (pdclCreated s) (out s).
Definition with_eof (n : Z) (s : lexer) : lexer :=
  MkLexer (input s) n (dcl s) (dclCreated s) (pdcl s) (pdclCreated s) (out s).
Definition with_dcl (t : list spec_float) (n : Z) (s : lexer) : lexer :=
  MkLexer (input s) (EOFFLG s) t n (pdcl s) (pdclCreated s) (out s).
Definition with_pdcl (t : list spec_float) (n : Z) (s : lexer) : lexer :=
  MkLexer (input s) (EOFFLG s) (dcl s) (dclCreated s) t n (out s).
Definition print (m : string) : L unit := modify (fun s =>
  MkLexer (input s) (EOFFLG s) (dcl s) (dclCreated s) (pdcl s) (pdclCreated s) (out s ++ [m])).

(** An element of an array; an index outside it is a fault. *)
Definition at_ {A} (l : list A) (i : Z) : L A :=
  if i <? 0 then raise EFault else lift (of_option EFault (l !! Z.to_nat i)).

(** ** scanner.c *)

Definition getchar : L Z := fun s =>
  match input s with [] => Ok (EOF, s) | c :: r => Ok (c, with_input r s) end.
Definition ungetc (c : Z) : L unit :=
  if c =? EOF then mret tt else modify (fun s => with_input (c :: input s) s).

Definition peekchar : L Z :=
  c ← getchar;
  ungetc c;;
  mret c.

Definition peek2char : L Z :=
  c ← getchar;
  cc ← getchar;
  ungetc cc;;
  ungetc c;;
  mret cc.

Definition specchar : list Z := chars "+-*/:=<>^.,;()[]{}".

Definition init_charclass : list Z :=
  let fill := fun (first last v : Z) (t : list Z) =>
    foldr (fun i t => <[Z.to_nat i := v]> t) t (seqZ first (last - first + 1)) in
  let t := replicate (Z.to_nat MAXCHARCLASS) 0 in
  let t := fill 65 90 ALPHA t in
  let t := fill 97 122 ALPHA t in
  let t := fill 48 57 NUMERIC t in
  foldl (fun t c => <[Z.to_nat c := SPECIAL]> t) t specchar.

Definition initscanner : L unit := modify (with_eof 0).

Definition talloc : token := MkToken 0 0 VZero.

(** ** lexanc.c: making tokens *)

Definition createOperator (opVal : Z) (tok : token) : token := MkToken OPERATOR (datatype tok) (VWhich opVal).
Definition createDelimiter (delimVal : Z) (tok : token) : token :=
  MkToken DELIMITER (datatype tok) (VWhich (delimVal - DELIMITER_BIAS)).
Definition createReserved (resVal : Z) (tok : token) : token :=
  MkToken (RESERVED - RESERVED_BIAS) (datatype tok) (VWhich resVal).

(** The characters of a buffer before its first NUL. *)
Fixpoint cstr (buf : list Z) : list Z :=
  match buf with
  | [] => []
  | c :: r => if c =? 0 then [] else c :: cstr r
  end.

(** strncpy of [n] bytes: what does not fit is cut, and the rest is zeroed. *)
Definition strncpy (src : list Z) (n : nat) : list Z := take n (cstr src ++ replicate n 0).

(** strcmp with a literal. *)
Definition streq (buf : list Z) (s : string) : bool := bool_decide (cstr buf = chars s).

Definition createIdentifier (identifier : list Z) (tok : token) : token :=
  MkToken IDENTIFIERTOK (datatype tok) (VString (strncpy identifier 16)).
Definition createString (word : list Z) (tok : token) : token :=
  MkToken STRINGTOK (datatype tok) (VString (strncpy word 16)).

(** The buffer [char word[16]]; its initial contents do not matter. *)
Definition new_word : list Z := replicate 16 0.
Definition set_word (word : list Z) (i c : Z) : L (list Z) :=
  if (0 <=? i) && (i <? 16) then mret (<[Z.to_nat i := u8 c]> word) else raise EFault.

(** The bound on the loops: each iteration eats a character, or is the last. *)
Definition fuel : L nat := fun s => Ok (S (S (List.length (input s))), s).

Definition CHARCLASS (c : Z) : L Z := at_ init_charclass c.

(** ** skipblanks *)

(** The comment loops. *)
Fixpoint brace_loop (n : nat) : L Z :=
  match n with
  | O => raise EFuel
  | S n =>
      getchar;;
      c ← peekchar;
      if negb (c =? EOF) && negb (c =? 125) then brace_loop n else mret c
  end.

Fixpoint star_loop (n : nat) (cc : Z) : L Z :=
  match n with
  | O => raise EFuel
  | S n =>
      getchar;;
      let c := cc in
      cc ← peek2char;
      if negb (cc =? EOF) && (negb (c =? 42) || negb (cc =? 41)) then star_loop n cc else mret cc
  end.

Fixpoint skipblanks_loop (n : nat) : L unit :=
  match n with
  | O => raise EFuel
  | S n =>
      c ← peekchar;
      cc ← (if c =? 40 then peek2char else mret 0);
      if negb (c =? EOF) &&
         ((c =? 32) || (c =? 10) || (c =? 9) || (c =? 123) || ((c =? 40) && (cc =? 42)))
      then
        c ← (if c =? 123 then f ← fuel; brace_loop f
             else if c =? 40 then
               getchar;;
               f ← fuel;
               cc ← star_loop f cc;
               getchar;;
               mret cc
             else mret c);
        (if negb (c =? EOF) then getchar;; mret tt else mret tt);;
        skipblanks_loop n
      else mret tt
  end.

Definition skipblanks : L unit := f ← fuel; skipblanks_loop f.

(** ** identifier *)

Definition alnum (cl : Z) : bool := (cl =? ALPHA) || (cl =? NUMERIC).

Fixpoint word_loop (n : nat) (word : list Z) (counter numericFlag : Z) : L (list Z * Z * Z * Z) :=
  match n with
  | O => raise EFuel
  | S n =>
      ch ← getchar;
      word ← set_word word counter ch;
      let counter := counter + 1 in
      c ← peekchar;
      cl ← CHARCLASS c;
      let numericFlag := if cl =? NUMERIC then 1 else numericFlag in
      if negb (c =? EOF) && (counter <? 15) && alnum cl then word_loop n word counter numericFlag
      else mret (word, counter, numericFlag, c)
  end.

Fixpoint eat_loop (n : nat) (c : Z) : L unit :=
  match n with
  | O => raise EFuel
  | S n =>
      if c =? EOF then mret tt
      else
        cl ← CHARCLASS c;
        if alnum cl then
          getchar;;
          c ← peekchar;
          eat_loop n c
        else mret tt
  end.

(** The switch on the length of the word. *)
Definition reserved_word (word : list Z) (counter : Z) (tok : token) : token :=
  if counter =? 2 then
    if streq word "do" then createReserved DO tok
    else if streq word "if" then createReserved IF tok
    else if streq word "of" then createReserved OF tok
    else if streq word "to" then createReserved TO tok
    else if streq word "or" then createOperator OROP tok
    else if streq word "in" then createOperator INOP tok
    else createIdentifier word tok
  else if counter =? 3 then
    if streq word "end" then createReserved END tok
    else if streq word "for" then createReserved FOR tok
    else if streq word "nil" then createReserved NIL tok
    else if streq word "set" then createReserved SET tok
    else if streq word "var" then createReserved VAR tok
    else if streq word "and" then createOperator ANDOP tok
    else if streq word "not" then createOperator NOTOP tok
    else if streq word "div" then createOperator DIVOP tok
    else if streq word "mod" then createOperator MODOP tok
    else createIdentifier word tok
  else if counter =? 4 then
    if streq word "case" then createReserved CASE tok
    else if streq word "else" then createReserved ELSE tok
    else if streq word "file" then createReserved FILEFILE tok
    else if streq word "goto" then createReserved GOTO tok
    else if streq word "then" then createReserved THEN tok
    else if streq word "type" then createReserved TYPE tok
    else if streq word "with" then createReserved WITH tok
    else createIdentifier word tok
  else if counter =? 5 then
    if streq word "array" then createReserved ARRAY tok
    else if streq word "begin" then createReserved BEGINBEGIN tok
    else if streq word "const" then createReserved CONST tok
    else if streq word "label" then createReserved LABEL tok
    else if streq word "until" then createReserved UNTIL tok
    else if streq word "while" then createReserved WHILE tok
    else createIdentifier word tok
  else
    if streq word "downto" then createReserved DOWNTO tok
    else if streq word "function" then createReserved FUNCTION tok
    else if streq word "packed" then createReserved PACKED tok
    else if streq word "procedure" then createReserved PROCEDURE tok
    else if streq word "program" then createReserved PROGRAM tok
    else if streq word "record" then createReserved RECORD tok
    else if streq word "repeat" then createReserved REPEAT tok
    else createIdentifier word tok.

(** The function has no return statement; its caller uses the token it was
    given, which is what is returned here. *)
Definition identifier (tok : token) : L token :=
  f ← fuel;
  r ← word_loop f new_word 0 0;
  let '(word, counter, numericFlag, c) := r in
  f ← fuel;
  eat_loop f c;;
  word ← set_word word counter 0;
  mret (if (numericFlag =? 1) || (counter <? 2) || (9 <? counter) then createIdentifier word tok
        else reserved_word word counter tok).

(** ** getstring *)

Fixpoint string_loop (n : nat) (word : list Z) (counter c cc : Z) : L (list Z * Z) :=
  match n with
  | O => raise EFuel
  | S n =>
      if c =? EOF then mret (word, counter)
      else if (c =? 39) && negb (cc =? 39) then mret (word, counter)
      else
        (if c =? 39 then getchar;; mret tt else mret tt);;
        ch ← getchar;
        r ← (if counter <? 15 then w ← set_word word counter ch; mret (w, counter + 1)
             else mret (word, counter));
        c ← peekchar;
        cc ← peek2char;
        string_loop n r.1 r.2 c cc
  end.

Definition getstring (tok : token) : L token :=
  getchar;;
  c ← peekchar;
  cc ← peek2char;
  f ← fuel;
  r ← string_loop f new_word 0 c cc;
  getchar;;
  word ← set_word r.1 r.2 0;
  mret (createString word tok).

(** ** special *)

Definition special (tok : token) : L token :=
  c ← peekchar;
  cc ← peek2char;
  let one := fun t : token => mret t : L token in
  let two := fun t : token => getchar;; mret t : L token in
  tok ←
    (if c =? 43 then one (createOperator PLUSOP tok)
     else if c =? 45 then one (createOperator MINUSOP tok)
     else if c =? 42 then one (createOperator TIMESOP tok)
     else if c =? 47 then one (createOperator DIVIDEOP tok)
     else if c =? 58 then
       if cc =? 61 then two (createOperator ASSIGNOP tok) else one (createDelimiter COLON tok)
     else if c =? 61 then one (createOperator EQOP tok)
     else if c =? 60 then
       if cc =? 62 then two (createOperator NEOP tok)
       else if cc =? 61 then two (createOperator LEOP tok)
       else one (createOperator LTOP tok)
     else if c =? 62 then
       if cc =? 61 then two (createOperator GEOP tok) else one (createOperator GTOP tok)
     else if c =? 94 then one (createOperator POINTEROP tok)
     else if c =? 46 then
       if cc =? 46 then two (createDelimiter DOTDOT tok) else one (createOperator DOTOP tok)
     else if c =? 44 then one (createDelimiter COMMA tok)
     else if c =? 59 then one (createDelimiter SEMICOLON tok)
     else if c =? 40 then one (createDelimiter LPAREN tok)
     else if c =? 41 then one (createDelimiter RPAREN tok)
     else if c =? 91 then one (createDelimiter LBRACKET tok)
     else if c =? 93 then one (createDelimiter RBRACKET tok)
     else
       print (String.append "Unrecognized symbol: " (String (char_of c) (String " " (String (char_of 10) ""))));;
       one tok);
  getchar;;
  mret tok.

(** ** number *)

(** Each entry of a table is the one before times a factor. *)
Fixpoint powers (n : nat) (x factor : spec_float) : list spec_float :=
  match n with O => [] | S n => x :: powers n (dmul x factor) factor end.

Definition createDCL : L unit := modify (fun s => with_dcl (powers 100 (dbl 1) tenth) (dclCreated s) s).
Definition createPDCL : L unit := modify (fun s => with_pdcl (powers 100 (dbl 1) (dbl 10)) (pdclCreated s) s).

(** Is the next character a digit?  [c = peekchar() != EOF && CHARCLASS[c] == NUMERIC] *)
Definition digit_next : L bool :=
  c ← peekchar;
  if c =? EOF then mret false else cl ← CHARCLASS c; mret (cl =? NUMERIC).

(** The digits before the point or the exponent. *)
Fixpoint int_loop (n : nat) (lnum : Z) (dnum : spec_float) (nonZeroFlag : bool) (sigDigCounter : Z)
    : L (Z * spec_float * bool * Z) :=
  match n with
  | O => raise EFuel
  | S n =>
      d ← digit_next;
      if d : bool then
        c ← getchar;
        let charval := c - 48 in
        let nonZeroFlag := nonZeroFlag || negb (charval =? 0) in
        let lnum := s64 (lnum * 10 + charval) in
        if nonZeroFlag : bool then
          let charval := if 8 <=? sigDigCounter then 0 else charval in
          int_loop n lnum (dadd (dmul dnum (dbl 10)) (dbl charval)) nonZeroFlag (sigDigCounter + 1)
        else int_loop n lnum dnum nonZeroFlag sigDigCounter
      else mret (lnum, dnum, nonZeroFlag, sigDigCounter)
  end.

(** The digits after the point. *)
Fixpoint frac_loop (n : nat) (dnum : spec_float) (nonZeroFlag : bool) (sigDigCounter dclCounter firstSigDigLoc : Z)
    : L (spec_float * Z) :=
  match n with
  | O => raise EFuel
  | S n =>
      d ← digit_next;
      if d : bool then
        c ← getchar;
        let dcharval := c - 48 in
        let nonZeroFlag := nonZeroFlag || negb (dcharval =? 0) in
        let firstSigDigLoc := if nonZeroFlag then firstSigDigLoc else firstSigDigLoc - 1 in
        s ← get;
        p ← at_ (dcl s) dclCounter;
        let dcharval := dmul (dbl dcharval) p in
        let dclCounter := dclCounter + 1 in
        if nonZeroFlag && (sigDigCounter <? 8) then
          frac_loop n (dadd dnum dcharval) nonZeroFlag (sigDigCounter + 1) dclCounter firstSigDigLoc
        else frac_loop n dnum nonZeroFlag sigDigCounter dclCounter firstSigDigLoc
      else mret (dnum, firstSigDigLoc)
  end.

(** The digits of the exponent. *)
Fixpoint exp_loop (n : nat) (expVal : Z) (nonZeroFlag : bool) : L Z :=
  match n with
  | O => raise EFuel
  | S n =>
      d ← digit_next;
      if d : bool then
        c ← getchar;
        let charval := c - 48 in
        let nonZeroFlag := nonZeroFlag || negb (charval =? 0) in
        exp_loop n (if nonZeroFlag : bool then s32 (expVal * 10 + charval) else expVal) nonZeroFlag
      else mret expVal
  end.

(** [for (i = 0; i > expVal; i--) dnum *= .1;] *)
Fixpoint times_tenth (k : nat) (x : spec_float) : spec_float :=
  match k with O => x | S k => times_tenth k (dmul x tenth) end.

(** The exponent part: whether there is one, and its value and error flag. *)
Definition exponent : L (bool * Z * bool) :=
  c ← peekchar;
  if (c =? 101) || (c =? 69) then
    getchar;;
    c ← peekchar;
    neg ← (if c =? 43 then getchar;; mret false
           else if c =? 45 then getchar;; mret true
           else mret false);
    f ← fuel;
    expVal ← exp_loop f 0 false;
    mret (true, if neg : bool then s32 (- expVal) else expVal, expVal <? 0)
  else mret (false, 0, false).

Definition number (tok : token) : L token :=
  f ← fuel;
  r ← int_loop f 0 (dbl 0) false 0;
  let '(lnum, dnum, nonZeroFlag, sigDigCounter) := r in
  let firstSigDigLoc := sigDigCounter - 1 in
  let intErrorFlag := (10 <? sigDigCounter) || (lnum <? 0) || (2147483647 <? lnum) in
  s ← get;
  (if dclCreated s =? 0 then createDCL;; modify (fun s => with_dcl (dcl s) 1 s) else mret tt);;
  s ← get;
  (if pdclCreated s =? 0 then createPDCL;; modify (fun s => with_pdcl (pdcl s) 1 s) else mret tt);;
  c ← peekchar;
  point ← (if c =? 46 then cc ← peek2char; cl ← CHARCLASS cc; mret (cl =? NUMERIC) else mret false);
  r ← (if point : bool then
         getchar;;
         f ← fuel;
         frac_loop f dnum nonZeroFlag sigDigCounter 1 firstSigDigLoc
       else mret (dnum, firstSigDigLoc));
  let '(dnum, firstSigDigLoc) := r in
  s ← get;
  dnum ← (if 0 <? firstSigDigLoc then p ← at_ (dcl s) firstSigDigLoc; mret (dmul dnum p)
          else if firstSigDigLoc <? 0 then p ← at_ (pdcl s) (- firstSigDigLoc); mret (dmul dnum p)
          else mret dnum);
  r ← exponent;
  let '(has_exp, expVal, floatErrorFlag) := r in
  if point || has_exp then
    let expVal := s32 (expVal + firstSigDigLoc) in
    dnum ← (if (38 <? expVal) || (expVal <? -38) || floatErrorFlag then
              print (String.append "Floating number out of range" (String (char_of 10) ""));;
              mret (dbl 0)
            else if 0 <? expVal then s ← get; p ← at_ (pdcl s) expVal; mret (dmul dnum p)
            else if expVal <? 0 then mret (times_tenth (Z.to_nat (- expVal)) dnum)
            else mret dnum);
    mret (MkToken NUMBERTOK REAL (VReal dnum))
  else
    lnum ← (if intErrorFlag : bool then
              print (String.append "Integer number out of range" (String (char_of 10) ""));;
              mret 0
            else mret lnum);
    mret (MkToken NUMBERTOK INTEGER (VInt lnum)).

(** ** gettoken; DEBUGGETTOKEN is 0 *)

Definition gettoken : L token :=
  let tok := talloc in
  skipblanks;;
  c ← peekchar;
  if negb (c =? EOF) then
    cclass ← CHARCLASS c;
    if cclass =? ALPHA then identifier tok
    else if cclass =? NUMERIC then number tok
    else if c =? 39 then getstring tok
    else special tok
  else modify (with_eof 1);; mret tok.

(** ** printtoken.c *)

Definition newline : string := String (char_of 10) EmptyString.

(** printf's %ws and %wd: right-justified in a field of at least [w]. *)
Fixpoint spaces (n : nat) : string := match n with O => EmptyString | S n => String " " (spaces n) end.
Definition pad (w : nat) (s : string) : string := String.append (spaces (w - String.length s)) s.
Definition padZ (w : nat) (n : Z) : string := pad w (pretty n).
Definition concat (l : list string) : string := foldr String.append EmptyString l.

(** printf's %e: seven significant digits, rounded to nearest even on the exact
    value [num / den]; [e10] is the decimal exponent, found by search. *)
Definition scaled (num den e10 : Z) : Z * Z :=
  if e10 <=? 6 then (num * 10 ^ (6 - e10), den) else (num, den * 10 ^ (e10 - 6)).
Definition round_div (n d : Z) : Z :=
  let q := n / d in
  let r := n mod d in
  if (2 * r <? d) || ((2 * r =? d) && Z.even q) then q else q + 1.
Fixpoint find_e10 (k : nat) (num den e10 : Z) : Z :=
  match k with
  | O => e10
  | S k =>
      let '(n, d) := scaled num den e10 in
      if 10 ^ 7 * d <=? n then find_e10 k num den (e10 + 1)
      else if n <? 10 ^ 6 * d then find_e10 k num den (e10 - 1)
      else e10
  end.
Fixpoint digits (k : nat) (n : Z) (acc : string) : string :=
  match k with
  | O => acc
  | S k => digits k (n / 10) (String (char_of (48 + n mod 10)) acc)
  end.
Definition sci (negative : bool) (num den : Z) : string :=
  let e10 := find_e10 700 num den 0 in
  let '(n, d) := scaled num den e10 in
  let m := round_div n d in
  let '(m, e10) := if m =? 10 ^ 7 then (10 ^ 6, e10 + 1) else (m, e10) in
  concat [if negative then "-" else ""; digits 1 (m / 10 ^ 6) ""; "."; digits 6 (m mod 10 ^ 6) "";
          if e10 <? 0 then "e-" else "e+"; digits (if Z.abs e10 <? 100 then 2 else 3) (Z.abs e10) ""].
Definition fmt_e (x : spec_float) : string :=
  match x with
  | S754_zero n => if n then "-0.000000e+00" else "0.000000e+00"
  | S754_infinity n => if n then "-inf" else "inf"
  | S754_nan => "nan"
  | S754_finite n m e =>
      if 0 <=? e then sci n (Zpos m * 2 ^ e) 1 else sci n (Zpos m) (2 ^ (- e))
  end.

Definition opprnt : list string :=
  [" "; "+"; "-"; "*"; "/"; ":="; "="; "<>"; "<"; "<="; ">="; ">"; "^"; "."; "and"; "or"; "not"; "div";
   "mod"; "in"; "if"; "goto"; "progn"; "label"; "funcall"; "aref"; "program"; "float"].
Definition delprnt : list string := ["  "; " ,"; " ;"; " :"; " ("; " )"; " ["; " ]"; ".."].
Definition resprnt : list string :=
  [" "; "array"; "begin"; "case"; "const"; "do"; "downto"; "else"; "end"; "file"; "for"; "function"; "goto";
   "if"; "label"; "nil"; "of"; "packed"; "procedure"; "program"; "record"; "repeat"; "set"; "then"; "to"; "type";
   "until"; "var"; "while"; "with"].

(** Reading a member of the union.  [printtoken] reads the member that the kind
    of the token says was written, or the zeros of calloc; reading another one
    would depend on the representation, and is an error. *)
Definition whichval (tok : token) : L Z :=
  match tokenval tok with VWhich n => mret n | VZero => mret 0 | _ => raise EFault end.
Definition intval (tok : token) : L Z :=
  match tokenval tok with VInt n => mret n | VZero => mret 0 | _ => raise EFault end.
Definition realval (tok : token) : L spec_float :=
  match tokenval tok with VReal r => mret r | VZero => mret (dbl 0) | _ => raise EFault end.
Definition stringval (tok : token) : L (list Z) :=
  match tokenval tok with VString s => mret (cstr s) | VZero => mret [] | _ => raise EFault end.

Definition print_which (tok : token) (names : list string) : L unit :=
  n ← whichval tok;
  s ← at_ names n;
  print (concat ["tokentype: "; padZ 2 (tokentype tok); "  which: "; padZ 4 n; "   "; pad 10 s; newline]).

Definition printtoken (tok : token) : L unit :=
  let t := tokentype tok in
  if t =? OPERATOR then print_which tok opprnt
  else if t =? DELIMITER then print_which tok delprnt
  else if t =? RESERVED then print_which tok resprnt
  else if (t =? IDENTIFIERTOK) || (t =? STRINGTOK) then
    s ← stringval tok;
    print (concat ["tokentype: "; padZ 2 t; "  value:  "; pad 16 (string_of s); newline])
  else if t =? NUMBERTOK then
    if datatype tok =? INTEGER then
      n ← intval tok;
      print (concat ["tokentype: "; padZ 2 t; "  type:  "; padZ 4 (datatype tok); " "; padZ 12 n; newline])
    else if datatype tok =? REAL then
      r ← realval tok;
      print (concat ["tokentype: "; padZ 2 t; "  type:  "; padZ 4 (datatype tok); " "; pad 12 (fmt_e r); newline])
    else mret tt
  else mret tt.

(** ** lexandr.c.  The tokens got are collected as well. *)

Fixpoint testscanner_loop (n : nat) (toks : list token) : L (list token) :=
  match n with
  | O => raise EFuel
  | S n =>
      s ← get;
      if EOFFLG s =? 0 then
        tok ← gettoken;
        s ← get;
        if EOFFLG s =? 0 then printtoken tok;; testscanner_loop n (toks ++ [tok])
        else testscanner_loop n toks
      else mret toks
  end.

Definition testscanner : L (list token) := f ← fuel; testscanner_loop f [].

Definition main : L (list token) :=
  initscanner;;
  print (concat ["Started scanner test."; newline]);;
  testscanner.

(** The state of the program before [main]. *)
Definition start_lexer (i : list Z) : lexer :=
  MkLexer i 0 (replicate 100 (dbl 0)) 0 (replicate 100 (dbl 0)) 0 [].

Definition run_main (i : list Z) : res (list token * list string) :=
  match main (start_lexer i) with Ok (t, s) => Ok (t, out s) | Err e => Err e end.
