(* ===== verification/LexerSpec.v ===== *)
(** Correctness of the lexical analyser of the file Lexer: what each function
    consumes and returns on the lexemes of the language, and the whole scanner
    on a program text. *)

From stdpp Require Import base list numbers strings pretty.
From Stdlib Require Import ZArith Lia String Ascii SpecFloat.
From S2P Require Import Prelude Lexer.

#[local] Open Scope string_scope.
#[local] Open Scope list_scope.
#[local] Open Scope Z_scope.
#[local] Abbreviation length := List.length.

(** ** Characters and their classes *)

Definition is_byte (c : Z) : Prop := 0 <= c < 256.
Definition letter (c : Z) : bool := ((65 <=? c) && (c <=? 90)) || ((97 <=? c) && (c <=? 122)).
Definition digit (c : Z) : bool := (48 <=? c) && (c <=? 57).
Definition class_of (c : Z) : Z :=
  if letter c then ALPHA else if digit c then NUMERIC
  else if bool_decide (c ∈ specchar) then SPECIAL else 0.

Definition first (l : list Z) : Z := hd EOF l.
Definition second (l : list Z) : Z := hd EOF (tl l).

Lemma first_cons c l : first (c :: l) = c.
Proof. done. Qed.
Lemma second_cons c l : second (c :: l) = first l.
Proof. done. Qed.

(** Nothing but the input of the state changed. *)
Definition at_input (s : lexer) (l : list Z) : lexer := with_input l s.

Section Classes.

Lemma charclass_table : forallb (fun c => bool_decide (init_charclass !! Z.to_nat c = Some (class_of c))) (seqZ 0 256) = true.
Proof. vm_compute. reflexivity. Qed.

(** init_charclass fills in the classes of the letters, the digits and the
    special characters. *)
Lemma CHARCLASS_spec c s : is_byte c -> CHARCLASS c s = Ok (class_of c, s).
Proof.
  intros Hc. unfold CHARCLASS, at_, is_byte in *. rewrite (proj2 (Z.ltb_ge c 0)) by lia.
  pose proof charclass_table as H. rewrite forallb_forall in H.
  specialize (H c). rewrite bool_decide_eq_true in H. rewrite H; [done|].
  apply list_elem_of_In, elem_of_seqZ. lia.
Qed.

Lemma alnum_class c : alnum (class_of c) = letter c || digit c.
Proof.
  unfold class_of, alnum. destruct (letter c), (digit c); try done. by destruct (bool_decide _).
Qed.

Lemma numeric_class c : (class_of c =? NUMERIC) = negb (letter c) && digit c.
Proof. unfold class_of. destruct (letter c), (digit c); try done. by destruct (bool_decide _). Qed.
End Classes.

(** ** Reading characters *)

Lemma getchar_nil s : getchar (at_input s []) = Ok (EOF, at_input s []).
Proof. done. Qed.

Lemma getchar_cons s c l : getchar (at_input s (c :: l)) = Ok (c, at_input s l).
Proof. done. Qed.

Lemma ungetc_byte s c l : is_byte c -> ungetc c (at_input s l) = Ok (tt, at_input s (c :: l)).
Proof. intros Hc. unfold ungetc, is_byte, EOF in *. by rewrite (proj2 (Z.eqb_neq c (-1))) by lia. Qed.

Lemma peekchar_spec s l : Forall is_byte l -> peekchar (at_input s l) = Ok (first l, at_input s l).
Proof.
  intros Hl. unfold peekchar. destruct l as [|c l]; [done|].
  rewrite (stbind_step _ _ _ _ _ (getchar_cons s c l)). apply Forall_cons in Hl as [Hc _].
  by rewrite (stbind_step _ _ _ _ _ (ungetc_byte s c l Hc)).
Qed.

Lemma peek2char_spec s l : Forall is_byte l -> peek2char (at_input s l) = Ok (second l, at_input s l).
Proof.
  intros Hl. unfold peek2char. destruct l as [|c l]; [done|]. apply Forall_cons in Hl as [Hc Hl].
  rewrite (stbind_step _ _ _ _ _ (getchar_cons s c l)). destruct l as [|d l].
  - rewrite (stbind_step _ _ _ _ _ (getchar_nil s)). rewrite (stbind_step _ _ _ tt (at_input s [])) by done.
    by rewrite (stbind_step _ _ _ _ _ (ungetc_byte s c [] Hc)).
  - apply Forall_cons in Hl as [Hd _]. rewrite (stbind_step _ _ _ _ _ (getchar_cons s d l)).
    rewrite (stbind_step _ _ _ _ _ (ungetc_byte s d l Hd)).
    by rewrite (stbind_step _ _ _ _ _ (ungetc_byte s c (d :: l) Hc)).
Qed.

Lemma byte_not_EOF c : is_byte c -> (c =? EOF) = false.
Proof. unfold is_byte, EOF. intros. apply Z.eqb_neq. lia. Qed.

Lemma fuel_spec s l : fuel (at_input s l) = Ok (S (S (length l)), at_input s l).
Proof. done. Qed.

(** One step of a computation whose result is known. *)
Ltac step_with E := rewrite (stbind_step _ _ _ _ _ E).
Ltac bytes := repeat first
  [ assumption
  | match goal with H : Forall is_byte (?a :: ?l) |- Forall is_byte (?a :: ?l ++ ?r) =>
      change (a :: l ++ r) with ((a :: l) ++ r); apply Forall_app_2; [exact H|] end
  | apply Forall_nil_2 | apply Forall_cons_2; [first [assumption | unfold is_byte; lia]|] | apply Forall_app_2 ].
Ltac step_get := step_with (getchar_cons _ _ _) || (rewrite (stbind_step _ _ _ _ _ (getchar_cons _ _ _))).
Ltac step_peek := match goal with |- context [peekchar ≫= _] =>
  erewrite stbind_step; [|apply peekchar_spec; solve [bytes]] end.
Ltac step_peek2 := match goal with |- context [peek2char ≫= _] =>
  erewrite stbind_step; [|apply peek2char_spec; solve [bytes]] end.
Ltac step_fuel := erewrite stbind_step; [|apply fuel_spec].

(** ** Blanks and comments *)

(** No star with a closing parenthesis after it. *)
Fixpoint no_close (t : list Z) : bool :=
  match t with
  | 42 :: (41 :: _) => false
  | _ :: t' => no_close t'
  | [] => true
  end.

(** White space and comments as the code has them.  A comment in braces ends at
    the first closing brace; a parenthesis-star comment ends at the first star
    with a closing parenthesis, or, since the loop of skipblanks also compares
    the opening star with the second character after it, at a closing
    parenthesis in second place. *)
Inductive blank : list Z -> Prop :=
  | BSpace : blank [32]
  | BNewline : blank [10]
  | BTab : blank [9]
  | BBrace t : Forall is_byte t -> 125 ∉ t -> blank (123 :: t ++ [125])
  | BStar t : Forall is_byte t -> no_close t = true -> second t <> 41 -> blank (40 :: 42 :: t ++ [42; 41])
  | BEarly a : is_byte a -> blank [40; 42; a; 41].

Definition starts_blank (l : list Z) : bool :=
  match l with
  | [] => false
  | c :: r => (c =? 32) || (c =? 10) || (c =? 9) || (c =? 123) || ((c =? 40) && (first r =? 42))
  end.

Lemma blank_bytes b : blank b -> Forall is_byte b.
Proof. destruct 1; bytes. Qed.

Lemma brace_loop_spec t : forall n x s rest,
  Forall is_byte t -> Forall is_byte rest -> 125 ∉ t -> (length t < n)%nat ->
  brace_loop n (at_input s (x :: t ++ 125 :: rest)) = Ok (125, at_input s (125 :: rest)).
Proof.
  induction t as [|c t IH]; intros n x s rest Ht Hr Hn Hlen; (destruct n as [|n]; [cbn in Hlen; lia|]);
    cbn [brace_loop app]; step_get.
  - by step_peek.
  - apply Forall_cons in Ht as [Hc Ht]. apply not_elem_of_cons in Hn as [Hne Hn]. step_peek.
    cbn [first hd]. rewrite (byte_not_EOF c Hc), (proj2 (Z.eqb_neq c 125)) by done. cbn [negb andb].
    apply IH; [done..|]. cbn in Hlen. lia.
Qed.

Lemma no_close_cons a t : no_close (a :: t) = true -> no_close t = true /\ (a = 42 -> first t <> 41).
Proof.
  intros H. destruct (decide (a = 42)) as [->|Ha].
  - destruct t as [|b t]; [done|]. destruct (decide (b = 41)) as [->|Hb]; [done|].
    split; [|by intros _]. assert (no_close (42 :: b :: t) = no_close (b :: t)) as <-; [|done].
    cbn. destruct b as [|p|p]; [done| |done]. do 7 (destruct p; try done).
  - split; [|done]. assert (no_close (a :: t) = no_close t) as <-; [|done].
    cbn. destruct a as [|p|p]; [done| |done]. do 7 (destruct p; try done).
Qed.

(** From its second iteration on, the loop compares the next two characters. *)
Lemma star_loop_next v : forall n y s rest,
  is_byte y -> Forall is_byte v -> Forall is_byte rest -> no_close v = true -> (length v < n)%nat ->
  star_loop n (first (v ++ 42 :: 41 :: rest)) (at_input s (y :: v ++ 42 :: 41 :: rest)) =
  Ok (41, at_input s (42 :: 41 :: rest)).
Proof.
  induction v as [|a v IH]; intros n y s rest Hy Hv Hr Hnc Hlen; (destruct n as [|n]; [cbn in Hlen; lia|]);
    cbn [star_loop app]; step_get.
  - by step_peek2.
  - apply Forall_cons in Hv as [Ha Hv]. step_peek2. apply no_close_cons in Hnc as [Hnc Hn41]. rewrite second_cons, first_cons.
    assert (Hsec : is_byte (first (v ++ 42 :: 41 :: rest))).
    { destruct v; cbn; [unfold is_byte; lia|by apply Forall_cons in Hv as [? _]]. }
    rewrite (byte_not_EOF _ Hsec).
    assert (Hgo : negb (a =? 42) || negb (first (v ++ 42 :: 41 :: rest) =? 41) = true).
    { destruct (Z.eqb_spec a 42) as [E|]; [|done]. cbn [negb orb]. specialize (Hn41 E).
      destruct v as [|b v]; [done|]. cbn in *. by rewrite (proj2 (Z.eqb_neq b 41)). }
    rewrite Hgo. cbn [negb andb]. apply (IH n a s rest); [done..|]. cbn in Hlen. lia.
Qed.

Lemma star_loop_spec t n s rest :
  Forall is_byte t -> Forall is_byte rest -> no_close t = true -> second t <> 41 -> (length t < n)%nat ->
  star_loop n 42 (at_input s (42 :: t ++ 42 :: 41 :: rest)) = Ok (41, at_input s (42 :: 41 :: rest)).
Proof.
  intros Ht Hr Hnc Hsec Hlen. destruct n as [|n]; [lia|]. cbn [star_loop]. step_get. step_peek2.
  destruct t as [|a t]; [done|]. apply Forall_cons in Ht as [Ha Ht]. apply no_close_cons in Hnc as [Hnc _].
  cbn [app]. rewrite second_cons.
  assert (Hb : is_byte (first (t ++ 42 :: 41 :: rest)) /\ first (t ++ 42 :: 41 :: rest) <> 41).
  { destruct t; cbn; [unfold is_byte; lia|]. apply Forall_cons in Ht as [? _]. done. }
  destruct Hb as [Hb Hne]. rewrite (byte_not_EOF _ Hb), (proj2 (Z.eqb_neq _ 41) Hne). cbn [negb andb orb].
  apply (star_loop_next t n a s rest); [done..|]. cbn in Hlen. lia.
Qed.

(** One blank is skipped. *)
Lemma skip_blank b n s rest :
  blank b -> Forall is_byte rest ->
  skipblanks_loop (S n) (at_input s (b ++ rest)) = skipblanks_loop n (at_input s rest).
Proof.
  intros Hb Hr. pose proof (blank_bytes b Hb) as Hbb. cbn [skipblanks_loop].
  destruct Hb as [| | |t Ht Hn|t Ht Hnc Hsec|a Ha]; cbn [app]; step_peek; cbn [first hd Z.eqb Pos.eqb].
  - done.
  - done.
  - done.
  - rewrite (stbind_step _ _ _ 0 (at_input s (123 :: (t ++ [125]) ++ rest))) by done. cbn [Z.eqb Pos.eqb EOF negb andb orb].
    rewrite <- app_assoc. cbn [app].
    assert (E : (f ← fuel; brace_loop f) (at_input s (123 :: t ++ 125 :: rest)) = Ok (125, at_input s (125 :: rest))).
    { step_fuel. apply brace_loop_spec; [done..|]. cbn. rewrite length_app. lia. }
    rewrite (stbind_step _ _ _ _ _ E). done.
  - rewrite <- app_assoc in *. cbn [app]. step_peek2. cbn [second hd tl Z.eqb Pos.eqb EOF negb andb orb].
    assert (E : (getchar;; f ← fuel; cc ← star_loop f 42; getchar;; mret cc) (at_input s (40 :: 42 :: t ++ 42 :: 41 :: rest))
                = Ok (41, at_input s (41 :: rest))).
    { step_get. step_fuel.
      erewrite stbind_step; [|apply star_loop_spec; [done..|cbn; rewrite length_app; lia]]. done. }
    rewrite (stbind_step _ _ _ _ _ E). done.
  - step_peek2. cbn [second hd tl Z.eqb Pos.eqb EOF negb andb orb].
    assert (E : (getchar;; f ← fuel; cc ← star_loop f 42; getchar;; mret cc) (at_input s (40 :: 42 :: a :: 41 :: rest)) = Ok (41, at_input s (41 :: rest))).
    { step_get. step_fuel. cbn [star_loop List.length]. erewrite stbind_step; [|step_get; step_peek2; reflexivity]. done. }
    rewrite (stbind_step _ _ _ _ _ E). done.
Qed.

Lemma skip_stop n s rest :
  Forall is_byte rest -> starts_blank rest = false -> skipblanks_loop (S n) (at_input s rest) = Ok (tt, at_input s rest).
Proof.
  intros Hr Hns. cbn [skipblanks_loop]. step_peek. destruct rest as [|c r]; [done|]. cbn [first hd].
  cbn [starts_blank] in Hns. apply orb_false_iff in Hns as [Hns Hp].
  destruct (Z.eqb_spec c 40) as [->|Hc].
  - step_peek2. rewrite second_cons, Hp. done.
  - rewrite (stbind_step _ _ _ 0 (at_input s (c :: r))) by done. rewrite Hns. cbn [andb orb]. by rewrite andb_false_r.
Qed.

Lemma skip_blanks bs : forall n s rest,
  Forall blank bs -> Forall is_byte rest -> starts_blank rest = false -> (length bs < n)%nat ->
  skipblanks_loop n (at_input s (mjoin bs ++ rest)) = Ok (tt, at_input s rest).
Proof.
  induction bs as [|b bs IH]; intros n s rest Hbs Hr Hns Hlen; (destruct n as [|n]; [cbn in Hlen; lia|]).
  - by apply skip_stop.
  - apply Forall_cons in Hbs as [Hb Hbs]. change (mjoin (b :: bs)) with (b ++ mjoin bs). rewrite <- app_assoc.
    assert (Hj : Forall is_byte (mjoin bs)) by (apply Forall_join; eapply Forall_impl; [exact Hbs|apply blank_bytes]).
    rewrite skip_blank; [|done|by apply Forall_app]. apply IH; [done..|]. cbn in Hlen. lia.
Qed.

Lemma blanks_length bs : Forall blank bs -> (length bs <= length (mjoin bs))%nat.
Proof.
  induction 1 as [|b bs Hb _ IH]; [done|]. change (mjoin (b :: bs)) with (b ++ mjoin bs). rewrite length_app. cbn [List.length].
  assert (0 < length b)%nat by (destruct Hb; cbn; lia). lia.
Qed.

Lemma skipblanks_spec bs s rest :
  Forall blank bs -> Forall is_byte rest -> starts_blank rest = false ->
  skipblanks (at_input s (mjoin bs ++ rest)) = Ok (tt, at_input s rest).
Proof.
  intros Hbs Hr Hns. unfold skipblanks. step_fuel. apply skip_blanks; [done..|].
  pose proof (blanks_length bs Hbs). rewrite length_app. lia.
Qed.

(** ** Words *)

(** A buffer of 16 bytes that holds [w] and zeros. *)
Definition buf (w : list Z) : list Z := w ++ replicate (16 - length w) 0.

Lemma set_word_buf w c s :
  (length w < 16)%nat -> is_byte c -> set_word (buf w) (Z.of_nat (length w)) c s = Ok (buf (w ++ [c]), s).
Proof.
  intros Hw Hc. unfold set_word. rewrite (proj2 (Z.leb_le _ _)), (proj2 (Z.ltb_lt _ _)) by lia. cbn [andb].
  unfold mret, stM_ret. do 2 f_equal. rewrite Nat2Z.id. unfold buf. rewrite u8_small by (unfold is_u8, is_byte in *; lia).
  replace (16 - length w)%nat with (S (16 - length (w ++ [c])))%nat by (rewrite length_app; cbn; lia).
  cbn [replicate]. rewrite insert_app_r_alt by lia. rewrite Nat.sub_diag. cbn. by rewrite <- app_assoc.
Qed.

Lemma end_word_buf w s :
  (length w < 16)%nat -> set_word (buf w) (Z.of_nat (length w)) 0 s = Ok (buf w, s).
Proof.
  intros Hw. rewrite set_word_buf by (unfold is_byte; lia). do 2 f_equal. unfold buf. rewrite <- app_assoc. f_equal.
  rewrite length_app. cbn [List.length]. replace (16 - length w)%nat with (S (16 - (length w + 1)))%nat by lia. done.
Qed.

Lemma cstr_zeros w n : 0 ∉ w -> cstr (w ++ replicate n 0) = w.
Proof.
  induction w as [|c w IH]; intros Hw; [by destruct n|]. apply not_elem_of_cons in Hw as [Hc Hw]. cbn.
  rewrite (proj2 (Z.eqb_neq c 0)) by done. by rewrite IH.
Qed.

Lemma strncpy_buf w : 0 ∉ w -> (length w < 16)%nat -> strncpy (buf w) 16 = buf w.
Proof.
  intros Hw Hl. unfold strncpy, buf. rewrite cstr_zeros by done. rewrite take_app_ge by lia. f_equal.
  rewrite take_replicate. f_equal. lia.
Qed.

Lemma numeric_class' c : (class_of c =? NUMERIC) = digit c.
Proof.
  rewrite numeric_class. destruct (letter c) eqn:E, (digit c) eqn:F; try done. unfold letter, digit in *. lia.
Qed.

Definition in_word (c : Z) : bool := letter c || digit c.

Lemma in_word_byte c : in_word c = true -> is_byte c /\ c <> 0.
Proof. unfold in_word, letter, digit, is_byte. lia. Qed.

Lemma in_word_bytes w : Forall (fun c => in_word c = true) w -> Forall is_byte w.
Proof. intros H. eapply Forall_impl; [exact H|]. intros c Hc. by apply in_word_byte. Qed.

Section Words.

(** A word ends before [rest]. *)
Definition word_end (rest : list Z) : Prop :=
  match rest with [] => False | c :: _ => in_word c = false end.

Lemma word_loop_spec w : forall n pre c rest nf s,
  Forall (fun c => in_word c = true) (c :: w) -> Forall is_byte rest -> word_end rest ->
  (length pre < 15)%nat -> (length w < n)%nat ->
  exists fl, word_loop n (buf pre) (Z.of_nat (length pre)) nf (at_input s ((c :: w) ++ rest)) =
      (let used := (15 - length pre)%nat in
       Ok (buf (pre ++ take used (c :: w)), Z.of_nat (length (pre ++ take used (c :: w))), fl,
           first (drop used (c :: w) ++ rest), at_input s (drop used (c :: w) ++ rest))) /\
    ((length pre + length w < 14)%nat -> fl = if existsb digit w then 1 else nf).
Proof.
  induction w as [|d w IH]; intros n pre c rest nf s Hw Hr He Hp Hlen; (destruct n as [|n]; [cbn in Hlen; lia|]);
    apply Forall_cons in Hw as [Hc Hw]; cbn [word_loop app]; step_get; destruct (in_word_byte c Hc) as [Hcb Hc0];
    pose proof (in_word_bytes _ Hw) as Hwb;
    rewrite (stbind_step _ _ _ _ _ (set_word_buf pre c _ ltac:(lia) Hcb)); step_peek; cbv zeta;
    (destruct (15 - length pre)%nat as [|u] eqn:Hu; [lia|]).
  - exists nf. cbn [take drop]. rewrite take_nil, drop_nil. cbn [app]. split; [|done].
    replace (Z.of_nat (length pre) + 1) with (Z.of_nat (length (pre ++ [c]))) by (rewrite length_app; cbn; lia).
    destruct rest as [|e rest]; cbn [word_end] in He; [done|].
    apply Forall_cons in Hr as [Hb Hr]. rewrite (stbind_step _ _ _ _ _ (CHARCLASS_spec e _ Hb)).
      rewrite numeric_class', alnum_class. fold (in_word e). rewrite He, andb_false_r.
      destruct (digit e) eqn:Hd; [|done]. unfold in_word in He. rewrite Hd in He. by destruct (letter e).
  - apply Forall_cons in Hw as [Hd Hw]. destruct (in_word_byte d Hd) as [Hdb _]. cbn [app]. rewrite first_cons.
    rewrite (stbind_step _ _ _ _ _ (CHARCLASS_spec d _ Hdb)).
    rewrite numeric_class', alnum_class. fold (in_word d). rewrite Hd, (byte_not_EOF d Hdb). cbn [negb andb].
    replace (Z.of_nat (length pre) + 1) with (Z.of_nat (length (pre ++ [c]))) by (rewrite length_app; cbn; lia).
    destruct (Z.ltb_spec (Z.of_nat (length (pre ++ [c]))) 15) as [Hlt|Hge]; cbn [andb].
    + rewrite length_app in Hlt. cbn [List.length] in Hlt, Hlen.
      destruct (IH n (pre ++ [c]) d rest (if digit d then 1 else nf) s) as (fl & E & Hfl); try done;
        [by apply Forall_cons|rewrite length_app; cbn; lia|lia|].
      exists fl. cbn [app] in E. rewrite E. cbv zeta. rewrite length_app. cbn [List.length].
      replace (15 - (length pre + 1))%nat with u by lia. cbn [take drop].
      rewrite <- !app_assoc. cbn [app]. split; [done|]. intros Hs. rewrite Hfl by (rewrite length_app; cbn; lia).
      cbn [existsb]. by destruct (digit d), (existsb digit w).
    + rewrite length_app in Hge. cbn [List.length] in Hge. assert (u = 0%nat) as -> by lia.
      eexists. split; [done|]. cbn [List.length]. lia.
Qed.

Lemma eat_loop_spec w : forall n rest s,
  Forall (fun c => in_word c = true) w -> Forall is_byte rest -> word_end rest -> (length w < n)%nat ->
  eat_loop n (first (w ++ rest)) (at_input s (w ++ rest)) = Ok (tt, at_input s rest).
Proof.
  induction w as [|c w IH]; intros n rest s Hw Hr He Hlen; (destruct n as [|n]; [cbn in Hlen; lia|]); cbn [eat_loop app].
  - destruct rest as [|c rest]; [done|]. rewrite first_cons. apply Forall_cons in Hr as [Hb Hr].
    rewrite (byte_not_EOF c Hb), (stbind_step _ _ _ _ _ (CHARCLASS_spec c _ Hb)), alnum_class.
    fold (in_word c). cbn [word_end] in He. by rewrite He.
  - apply Forall_cons in Hw as [Hc Hw]. destruct (in_word_byte c Hc) as [Hb _]. pose proof (in_word_bytes _ Hw) as Hwb.
    rewrite first_cons, (byte_not_EOF c Hb), (stbind_step _ _ _ _ _ (CHARCLASS_spec c _ Hb)), alnum_class.
    fold (in_word c). rewrite Hc. step_get. step_peek. apply IH; [done..|]. cbn in Hlen. lia.
Qed.
End Words.

(** The tokens, as the code numbers them: an operator has kind 0 and a delimiter
    kind 1, with the numbers that token.h gives.  A reserved word has kind -285,
    which is RESERVED less the bias, and its number with the bias, where token.h
    and printtoken.c have kind 2 and the number without the bias. *)
Definition operator (n : Z) (tok : token) : token := MkToken 0 (datatype tok) (VWhich n).
Definition delimiter (n : Z) (tok : token) : token := MkToken 1 (datatype tok) (VWhich (n - 279)).
Definition reserved (n : Z) (tok : token) : token := MkToken (-285) (datatype tok) (VWhich n).

(** The reserved words, and the operators that are words. *)
Definition keywords : list (string * (token -> token)) :=
  [("array", reserved ARRAY); ("begin", reserved BEGINBEGIN); ("case", reserved CASE);
   ("const", reserved CONST); ("do", reserved DO); ("downto", reserved DOWNTO);
   ("else", reserved ELSE); ("end", reserved END); ("file", reserved FILEFILE);
   ("for", reserved FOR); ("function", reserved FUNCTION); ("goto", reserved GOTO);
   ("if", reserved IF); ("label", reserved LABEL); ("nil", reserved NIL);
   ("of", reserved OF); ("packed", reserved PACKED); ("procedure", reserved PROCEDURE);
   ("program", reserved PROGRAM); ("record", reserved RECORD); ("repeat", reserved REPEAT);
   ("set", reserved SET); ("then", reserved THEN); ("to", reserved TO);
   ("type", reserved TYPE); ("until", reserved UNTIL); ("var", reserved VAR);
   ("while", reserved WHILE); ("with", reserved WITH);
   ("and", operator ANDOP); ("or", operator OROP); ("not", operator NOTOP);
   ("div", operator DIVOP); ("mod", operator MODOP); ("in", operator INOP)].

(** The token of a word: that of the keyword, or an identifier of at most 15
    characters. *)
Fixpoint find_keyword (w : list Z) (ks : list (string * (token -> token))) (tok : token) : option token :=
  match ks with
  | [] => None
  | (k, mk) :: ks => if decide (w = chars k) then Some (mk tok) else find_keyword w ks tok
  end.
Definition word_token (w : list Z) (tok : token) : token :=
  match find_keyword w keywords tok with
  | Some t => t
  | None => MkToken IDENTIFIERTOK (datatype tok) (VString (buf (take 15 w)))
  end.

Lemma find_keyword_None w ks tok : w ∉ chars <$> ks.*1 -> find_keyword w ks tok = None.
Proof.
  induction ks as [|[k mk] ks IH]; intros Hn; [done|]. cbn in *. apply not_elem_of_cons in Hn as [Hk Hn].
  rewrite decide_False by done. by apply IH.
Qed.

(** Properties of all keywords, checked one by one. *)
Lemma keyword_forall (P : list Z -> Prop) w :
  Forall P (chars <$> keywords.*1) -> w ∈ chars <$> keywords.*1 -> P w.
Proof. intros H Hw. rewrite Forall_forall in H. by apply H. Qed.

Lemma keyword_shape w :
  w ∈ chars <$> keywords.*1 -> existsb digit (tl w) = false /\ (2 <= length w <= 9)%nat.
Proof.
  apply (keyword_forall (fun w => existsb digit (tl w) = false /\ (2 <= length w <= 9)%nat)).
  apply (bool_decide_unpack _). vm_compute. exact I.
Qed.

Lemma streq_buf w k : 0 ∉ w -> streq (buf w) k = bool_decide (w = chars k).
Proof. intros Hw. unfold streq, buf. by rewrite cstr_zeros. Qed.

Lemma reserved_word_keyword w tok :
  w ∈ chars <$> keywords.*1 -> reserved_word (buf w) (Z.of_nat (length w)) tok = word_token w tok.
Proof.
  apply (keyword_forall (fun w => reserved_word (buf w) (Z.of_nat (length w)) tok = word_token w tok)).
  unfold keywords. cbn [fmap list_fmap fst]. repeat (apply Forall_cons; split; [vm_compute; reflexivity|]). done.
Qed.

Lemma reserved_word_other w counter tok :
  w ∉ chars <$> keywords.*1 -> 0 ∉ w -> (length w < 16)%nat ->
  reserved_word (buf w) counter tok = createIdentifier (buf w) tok.
Proof.
  intros Hn H0 Hl.
  assert (Hk : forall k, k ∈ keywords.*1 -> streq (buf w) k = false).
  { intros k Hk. rewrite streq_buf by done. apply bool_decide_false. intros ->. apply Hn.
    apply list_elem_of_fmap. by exists k. }
  unfold reserved_word. rewrite !Hk by (apply (bool_decide_unpack _); vm_compute; exact I).
  by repeat destruct (_ =? _).
Qed.

Lemma word_nonzero w : Forall (fun c => in_word c = true) w -> 0 ∉ w.
Proof. intros H Hin. rewrite Forall_forall in H. specialize (H 0 Hin). done. Qed.

Lemma identifier_spec c w rest s tok :
  Forall (fun c => in_word c = true) (c :: w) -> Forall is_byte rest -> word_end rest ->
  identifier tok (at_input s ((c :: w) ++ rest)) = Ok (word_token (c :: w) tok, at_input s rest).
Proof.
  intros Hw Hr He. unfold identifier. step_fuel.
  destruct (word_loop_spec w (S (S (length ((c :: w) ++ rest)))) [] c rest 0 s Hw Hr He) as (fl & E & Hfl);
    [cbn; lia|cbn; rewrite length_app; lia|].
  change (buf []) with new_word in E. change (Z.of_nat (length [])) with 0 in E. rewrite (stbind_step _ _ _ _ _ E). cbv zeta.
  clear E. change (length []) with 0%nat. cbn [Nat.sub]. change ([] ++ take 15 (c :: w)) with (take 15 (c :: w)).
  set (u := take 15 (c :: w)). set (v := drop 15 (c :: w)).
  assert (Huv : c :: w = u ++ v) by (symmetry; apply take_drop).
  assert (Hlu : (length u < 16)%nat) by (unfold u; rewrite length_take; lia).
  pose proof Hw as Hw0. rewrite Huv in Hw. apply Forall_app in Hw as [Hu Hv].
  step_fuel. erewrite stbind_step; [|apply eat_loop_spec; [done..|rewrite length_app; lia]].
  rewrite (stbind_step _ _ _ _ _ (end_word_buf u _ Hlu)). unfold mret, stM_ret. do 2 f_equal.
  pose proof (word_nonzero _ Hu) as Hu0. pose proof (strncpy_buf u Hu0 Hlu) as Hs.
  assert (Hid : c :: w ∉ chars <$> keywords.*1 -> createIdentifier (buf u) tok = word_token (c :: w) tok).
  { intros Hn. unfold word_token. rewrite find_keyword_None by done. unfold createIdentifier. by rewrite Hs. }
  destruct (decide (c :: w ∈ chars <$> keywords.*1)) as [Hk|Hk].
  - pose proof (keyword_shape _ Hk) as (Hd & Hl2 & Hl9). cbn [tl List.length] in Hd, Hl2, Hl9.
    assert (u = c :: w) as Hu1 by (unfold u; apply take_ge; cbn; lia).
    rewrite Hfl by (cbn; lia). rewrite Hd. cbn [Z.eqb orb].
    rewrite (proj2 (Z.ltb_ge _ _)), (proj2 (Z.ltb_ge _ _)) by (rewrite Hu1; cbn [List.length]; lia). cbn [orb].
    rewrite Hu1. by apply reserved_word_keyword.
  - rewrite Hid by done. destruct (_ || _) eqn:Eb; [done|].
    apply orb_false_iff in Eb as [_ Eb%Z.ltb_ge].
    assert (u = c :: w) as Hu1.
    { unfold u in Eb |- *. rewrite length_take in Eb. apply take_ge. lia. }
    rewrite reserved_word_other; [by apply Hid| |done..]. by rewrite Hu1.
Qed.

(** ** Strings *)

(** How a string is written between quotes: quotes are doubled. *)
Fixpoint quote (t : list Z) : list Z :=
  match t with
  | [] => []
  | c :: t => if c =? 39 then 39 :: 39 :: quote t else c :: quote t
  end.

Lemma quote_bytes t : Forall is_byte t -> Forall is_byte (quote t).
Proof.
  induction 1 as [|c t Hc _ IH]; cbn; [done|]. destruct (c =? 39); bytes.
Qed.

Lemma quote_length t : (length t <= length (quote t))%nat.
Proof. induction t as [|c t IH]; cbn; [done|]. destruct (c =? 39); cbn; lia. Qed.

Lemma string_loop_spec t : forall n pre rest s,
  Forall is_byte t -> Forall is_byte rest -> first rest <> 39 -> (length pre <= 15)%nat -> (length t < n)%nat ->
  string_loop n (buf pre) (Z.of_nat (length pre)) (first (quote t ++ 39 :: rest)) (second (quote t ++ 39 :: rest))
      (at_input s (quote t ++ 39 :: rest)) =
  (let w := pre ++ take (15 - length pre) t in Ok (buf w, Z.of_nat (length w), at_input s (39 :: rest))).
Proof.
  induction t as [|a t IH]; intros n pre rest s Ht Hr Hf Hp Hlen; (destruct n as [|n]; [cbn in Hlen; lia|]); cbn [string_loop].
  - cbn [quote app]. rewrite first_cons, second_cons, take_nil, app_nil_r, (proj2 (Z.eqb_neq _ _) Hf). done.
  - apply Forall_cons in Ht as [Ha Ht]. pose proof (quote_bytes t Ht) as Hq. cbn [List.length] in Hlen.
    assert (Hgo : forall ch, ch = a ->
      (r ← (if Z.of_nat (length pre) <? 15 then w ← set_word (buf pre) (Z.of_nat (length pre)) ch; mret (w, Z.of_nat (length pre) + 1)
            else mret (buf pre, Z.of_nat (length pre)));
       c ← peekchar; cc ← peek2char; string_loop n r.1 r.2 c cc) (at_input s (quote t ++ 39 :: rest)) =
      (let w := pre ++ take (15 - length pre) (a :: t) in Ok (buf w, Z.of_nat (length w), at_input s (39 :: rest)))).
    { intros ch ->. destruct (Z.ltb_spec (Z.of_nat (length pre)) 15) as [Hlt|Hge].
      - erewrite stbind_step; [|rewrite (stbind_step _ _ _ _ _ (set_word_buf pre a _ ltac:(lia) Ha)); reflexivity].
        cbn [fst snd]. step_peek. step_peek2.
        replace (Z.of_nat (length pre) + 1) with (Z.of_nat (length (pre ++ [a]))) by (rewrite length_app; cbn; lia).
        rewrite IH; [|done..|rewrite length_app; cbn; lia|lia]. cbv zeta. rewrite length_app. cbn [List.length].
        replace (15 - length pre)%nat with (S (15 - (length pre + 1))) by lia. cbn [take]. by rewrite <- app_assoc.
      - erewrite stbind_step; [|reflexivity]. cbn [fst snd]. step_peek. step_peek2. rewrite IH by (done || lia).
        cbv zeta. by replace (15 - length pre)%nat with 0%nat by lia. }
    cbn [quote]. destruct (Z.eqb_spec a 39) as [->|Hne]; cbn [app]; rewrite first_cons, second_cons, (byte_not_EOF _ Ha).
    + rewrite first_cons. cbn [Z.eqb Pos.eqb negb andb].
      rewrite (stbind_step _ _ _ tt (at_input s (39 :: quote t ++ 39 :: rest))) by done. step_get. by apply Hgo.
    + rewrite (proj2 (Z.eqb_neq _ _) Hne). cbn [andb].
      rewrite (stbind_step _ _ _ tt (at_input s (a :: quote t ++ 39 :: rest))) by done. step_get. by apply Hgo.
Qed.

(** The token of a string: its first 15 characters. *)
Definition string_token (t : list Z) (tok : token) : token :=
  MkToken STRINGTOK (datatype tok) (VString (buf (take 15 t))).

Lemma getstring_spec t rest s tok :
  Forall is_byte t -> 0 ∉ t -> Forall is_byte rest -> first rest <> 39 ->
  getstring tok (at_input s (39 :: quote t ++ 39 :: rest)) = Ok (string_token t tok, at_input s rest).
Proof.
  intros Ht H0 Hr Hf. pose proof (quote_bytes t Ht) as Hq. unfold getstring. step_get. step_peek. step_peek2. step_fuel.
  change new_word with (buf []). change 0 with (Z.of_nat (length (@nil Z))) at 1.
  erewrite stbind_step; [|apply string_loop_spec; [done..|cbn; lia|]].
  2:{ pose proof (quote_length t). rewrite length_app. lia. }
  cbn [fst snd app List.length Nat.sub]. step_get. set (w := take 15 t).
  assert (Hw : (length w < 16)%nat) by (unfold w; rewrite length_take; lia).
  rewrite (stbind_step _ _ _ _ _ (end_word_buf w _ Hw)). unfold mret, stM_ret, createString, string_token. do 3 f_equal.
  fold w. f_equal. apply strncpy_buf; [|done]. intros Hin. apply H0. by eapply elem_of_take in Hin as (i & Hi%list_elem_of_lookup_2 & _).
Qed.

(** ** Operators and delimiters *)

Definition specials : list (string * (token -> token)) :=
  [("+", operator PLUSOP); ("-", operator MINUSOP); ("*", operator TIMESOP);
   ("/", operator DIVIDEOP); (":=", operator ASSIGNOP); ("=", operator EQOP);
   ("<>", operator NEOP); ("<", operator LTOP); ("<=", operator LEOP);
   (">=", operator GEOP); (">", operator GTOP); ("^", operator POINTEROP);
   (".", operator DOTOP); (",", delimiter COMMA); (";", delimiter SEMICOLON);
   (":", delimiter COLON); ("(", delimiter LPAREN); (")", delimiter RPAREN);
   ("[", delimiter LBRACKET); ("]", delimiter RBRACKET); ("..", delimiter DOTDOT)].

(** [k] is the longest operator or delimiter at the start of the text. *)
Definition longest (k : string) (text : list Z) : Prop :=
  forall k' mk', (k', mk') ∈ specials -> chars k' `prefix_of` text -> (length (chars k') <= length (chars k))%nat.

Lemma longest_next k k' mk' a b rest :
  longest k (a :: rest) -> (k', mk') ∈ specials -> chars k' = [a; b] -> length (chars k) = 1%nat -> is_byte b ->
  (first rest =? b) = false.
Proof.
  intros Hl Hin Hk' Hk Hb. apply Z.eqb_neq. intros E. specialize (Hl k' mk' Hin). rewrite Hk', Hk in Hl.
  destruct rest as [|c rest]; cbn in E; [unfold is_byte, EOF in *; lia|]. subst c.
  specialize (Hl ltac:(by exists rest)). cbn in Hl. lia.
Qed.

Lemma chars_bytes k : Forall is_byte (chars k).
Proof.
  unfold chars. induction (list_ascii_of_string k) as [|a l IH]; cbn; [done|]. apply Forall_cons. split; [|done].
  pose proof (nat_ascii_bounded a). unfold is_byte. lia.
Qed.

(** [special] takes the longest operator or delimiter. *)
Lemma special_spec k mk rest s tok :
  (k, mk) ∈ specials -> longest k (chars k ++ rest) -> Forall is_byte rest ->
  special tok (at_input s (chars k ++ rest)) = Ok (mk tok, at_input s rest).
Proof.
  intros Hk Hl Hr. pose proof (chars_bytes k) as Hb.
  unfold special. step_peek. step_peek2. cbv zeta.
  assert (Hnext : forall k' mk' a b, (k', mk') ∈ specials -> chars k = [a] -> chars k' = [a; b] -> is_byte b ->
            (second (chars k ++ rest) =? b) = false).
  { intros k' mk' a b Hin E E' Hb'. rewrite E in *. cbn [app] in *. rewrite second_cons.
    eapply longest_next; [exact Hl|exact Hin|exact E'|by rewrite E|done]. }
  unfold specials in Hk. repeat (apply elem_of_cons in Hk as [Hk|Hk]; [injection Hk as -> ->|]);
    [..|by apply elem_of_nil in Hk]; try reflexivity.
  - rewrite (Hnext "<>" (createOperator NEOP) 60 62); [|by apply (list_elem_of_lookup_2 _ 6%nat)|done..].
    rewrite (Hnext "<=" (createOperator LEOP) 60 61); [reflexivity|by apply (list_elem_of_lookup_2 _ 8%nat)|done..].
  - rewrite (Hnext ">=" (createOperator GEOP) 62 61); [reflexivity|by apply (list_elem_of_lookup_2 _ 9%nat)|done..].
  - rewrite (Hnext ".." (createDelimiter DOTDOT) 46 46); [reflexivity|by apply (list_elem_of_lookup_2 _ 20%nat)|done..].
  - rewrite (Hnext ":=" (createOperator ASSIGNOP) 58 61); [reflexivity|by apply (list_elem_of_lookup_2 _ 4%nat)|done..].
Qed.

(** ** Numbers *)

Definition all_digits (ds : list Z) : Prop := Forall (fun c => digit c = true) ds.
Definition dec_step (v c : Z) : Z := v * 10 + (c - 48).
Definition dec_value (ds : list Z) : Z := foldl dec_step 0 ds.

Lemma digit_byte c : digit c = true -> is_byte c /\ 0 <= c - 48 <= 9.
Proof. unfold digit, is_byte. lia. Qed.

Lemma digits_bytes ds : all_digits ds -> Forall is_byte ds.
Proof. intros H. eapply Forall_impl; [exact H|]. intros c Hc. by apply digit_byte. Qed.

Section Numbers.

Lemma digit_next_spec l s :
  Forall is_byte l ->
  digit_next (at_input s l) = Ok (match l with c :: _ => digit c | [] => false end, at_input s l).
Proof.
  intros Hl. unfold digit_next. step_peek. destruct l as [|c l]; [done|]. apply Forall_cons in Hl as [Hc Hl].
  rewrite first_cons, (byte_not_EOF c Hc), (stbind_step _ _ _ _ _ (CHARCLASS_spec c _ Hc)).
  by rewrite numeric_class'.
Qed.

Lemma s64_step v c : s64 (s64 v * 10 + (c - 48)) = s64 (v * 10 + (c - 48)).
Proof. unfold s64. Z.to_euclidean_division_equations. lia. Qed.

(** The digits before the point: the value (kept in 64 bits) and the number of
    significant digits. *)
Lemma int_loop_spec ds : forall n v dnum sig rest s,
  all_digits ds -> Forall is_byte rest -> match rest with c :: _ => digit c = false | [] => True end ->
  0 <= v -> (v = 0 <-> sig = 0%nat) -> (sig <> 0%nat -> 10 ^ (Z.of_nat sig - 1) <= v < 10 ^ Z.of_nat sig) -> (length ds < n)%nat ->
  exists dnum' sig', int_loop n (s64 v) dnum (bool_decide (sig <> 0%nat)) (Z.of_nat sig) (at_input s (ds ++ rest)) =
      Ok (s64 (foldl dec_step v ds), dnum', bool_decide (sig' <> 0%nat), Z.of_nat sig', at_input s rest) /\
    (foldl dec_step v ds = 0 <-> sig' = 0%nat) /\
    (sig' <> 0%nat -> 10 ^ (Z.of_nat sig' - 1) <= foldl dec_step v ds < 10 ^ Z.of_nat sig') /\
    (sig' <= sig + length ds)%nat.
Proof.
  induction ds as [|c ds IH]; intros n v dnum sig rest s Hds Hr Hend Hv H0 Hsig Hlen;
    (destruct n as [|n]; [cbn in Hlen; lia|]); cbn [int_loop app foldl].
  - rewrite (stbind_step _ _ _ _ _ (digit_next_spec rest s Hr)).
    exists dnum, sig. split_and!; [|done|done|lia]. destruct rest as [|c rest]; [done|]. by rewrite Hend.
  - apply Forall_cons in Hds as [Hc Hds]. destruct (digit_byte c Hc) as [Hcb Hcv]. pose proof (digits_bytes _ Hds) as Hdb.
    rewrite (stbind_step _ _ _ _ _ (digit_next_spec (c :: ds ++ rest) s ltac:(bytes))). rewrite Hc. step_get. cbv zeta.
    rewrite s64_step. change (v * 10 + (c - 48)) with (dec_step v c). cbn [List.length] in Hlen.
    destruct (decide (dec_step v c = 0)) as [Hz|Hnz].
    + assert (v = 0 /\ c = 48) as [-> ->] by (unfold dec_step in Hz; lia). assert (sig = 0%nat) as -> by (by apply H0).
      cbn [Z.sub Z.eqb negb orb]. destruct (IH n (dec_step 0 48) dnum 0%nat rest s) as (d' & s' & E & R); try done; [lia|].
      exists d', s'. split; [exact E|]. cbn [List.length]. naive_solver lia.
    + assert (Hnzf : bool_decide (sig <> 0%nat) || negb (c - 48 =? 0) = true).
      { destruct (decide (sig = 0%nat)) as [E|E]; [|by rewrite bool_decide_true].
        apply orb_true_iff. right. apply negb_true_iff, Z.eqb_neq. intros Hc0. apply Hnz. unfold dec_step.
        rewrite (proj2 H0 E). lia. }
      rewrite Hnzf. replace (Z.of_nat sig + 1) with (Z.of_nat (S sig)) by lia.
      match goal with |- context [int_loop n _ ?d true _] => set (d1 := d) end.
      destruct (IH n (dec_step v c) d1 (S sig) rest s) as (d' & s' & E & R1 & R2 & R3); try done.
      * unfold dec_step. lia.
      * intros _. replace (Z.of_nat (S sig)) with (Z.of_nat sig + 1) by lia. unfold dec_step.
        rewrite Z.add_simpl_r. rewrite Z.pow_add_r by lia. destruct (decide (sig = 0%nat)) as [Es|Es].
        -- rewrite Es in *. rewrite (proj2 H0 eq_refl) in *. unfold dec_step in Hnz. cbn. lia.
        -- specialize (Hsig Es). assert (10 ^ Z.of_nat sig = 10 ^ (Z.of_nat sig - 1) * 10).
           { replace (Z.of_nat sig) with (Z.of_nat sig - 1 + 1) at 1 by lia. by rewrite Z.pow_add_r by lia. }
           lia.
      * lia.
      * exists d', s'. rewrite bool_decide_true in E by lia. split; [exact E|]. split_and!; try done. cbn [List.length]. lia.
Qed.

(** The tables after the first call of [number]. *)
Definition with_tables (s : lexer) : lexer :=
  let s := if dclCreated s =? 0 then with_dcl (powers 100 (dbl 1) tenth) 1 s else s in
  if pdclCreated s =? 0 then with_pdcl (powers 100 (dbl 1) (dbl 10)) 1 s else s.

Definition tables_ok (s : lexer) : Prop := length (dcl s) = 100%nat /\ length (pdcl s) = 100%nat.

Lemma powers_length n : forall x f, length (powers n x f) = n.
Proof. induction n as [|n IH]; intros x f; cbn; [done|]. by rewrite IH. Qed.

Lemma with_tables_ok s : tables_ok s -> tables_ok (with_tables s).
Proof.
  intros [H1 H2]. unfold with_tables, tables_ok.
  destruct (dclCreated s =? 0); cbn [pdclCreated with_dcl]; destruct (pdclCreated s =? 0); cbn [dcl pdcl with_dcl with_pdcl];
    rewrite ?powers_length; done.
Qed.

Lemma make_tables {A} (f : stM lexer A) s l :
  (s0 ← get;
   (if dclCreated s0 =? 0 then createDCL;; modify (fun s => with_dcl (dcl s) 1 s) else mret tt);;
   s0 ← get;
   (if pdclCreated s0 =? 0 then createPDCL;; modify (fun s => with_pdcl (pdcl s) 1 s) else mret tt);;
   f) (at_input s l) = f (at_input (with_tables s) l).
Proof.
  rewrite (stbind_step _ _ _ (at_input s l) (at_input s l)) by done. unfold with_tables.
  change (dclCreated (at_input s l)) with (dclCreated s).
  destruct (dclCreated s =? 0).
  - set (s1 := with_dcl (powers 100 (dbl 1) tenth) 1 s).
    rewrite (stbind_step _ _ _ tt (at_input s1 l)) by done.
    rewrite (stbind_step _ _ _ (at_input s1 l) (at_input s1 l)) by done.
    change (pdclCreated (at_input s1 l)) with (pdclCreated s1). by destruct (pdclCreated s1 =? 0).
  - rewrite (stbind_step _ _ _ tt (at_input s l)) by done.
    rewrite (stbind_step _ _ _ (at_input s l) (at_input s l)) by done.
    change (pdclCreated (at_input s l)) with (pdclCreated s). by destruct (pdclCreated s =? 0).
Qed.

(** An integer ends before [rest]. *)
Definition number_end (rest : list Z) : Prop :=
  match rest with
  | [] => True
  | c :: r => digit c = false /\ c <> 101 /\ c <> 69 /\
              (c = 46 -> match r with [] => False | d :: _ => digit d = false end)
  end.

Definition int_token (v : Z) : token := MkToken NUMBERTOK INTEGER (VInt (if 2147483647 <? v then 0 else v)).
Definition range_message : string := String.append "Integer number out of range" (String (char_of 10) "").
Definition after_int (v : Z) (s : lexer) : lexer :=
  if 2147483647 <? v then
    MkLexer (input s) (EOFFLG s) (dcl s) (dclCreated s) (pdcl s) (pdclCreated s) (out s ++ [range_message])
  else s.

(** Some digits are read into [lnum] exactly; with more of them the counter of
    significant digits shows the overflow. *)
Lemma int_error v sig :
  0 <= v -> (v = 0 <-> sig = 0%nat) -> (sig <> 0%nat -> 10 ^ (Z.of_nat sig - 1) <= v < 10 ^ Z.of_nat sig) ->
  (10 <? Z.of_nat sig) || (s64 v <? 0) || (2147483647 <? s64 v) = (2147483647 <? v) /\ (v <= 2147483647 -> s64 v = v).
Proof.
  intros Hv H0 Hsig. assert (Hsmall : v < 10 ^ 10 -> s64 v = v) by (intros; apply s64_small; unfold is_s64; lia).
  split; [|intros; apply Hsmall; lia].
  destruct (Z.ltb_spec 10 (Z.of_nat sig)) as [Hgt|Hle]; cbn [orb].
  - symmetry. apply Z.ltb_lt. specialize (Hsig ltac:(lia)). assert (10 ^ 10 <= 10 ^ (Z.of_nat sig - 1)) by (apply Z.pow_le_mono_r; lia). lia.
  - assert (v < 10 ^ 10).
    { destruct (decide (sig = 0%nat)) as [E|E]; [apply H0 in E; lia|]. specialize (Hsig E).
      assert (10 ^ Z.of_nat sig <= 10 ^ 10) by (apply Z.pow_le_mono_r; lia). lia. }
    rewrite Hsmall by done. rewrite (proj2 (Z.ltb_ge v 0)) by lia. done.
Qed.

Lemma at_Ok {A} (l : list A) i s : 0 <= i < Z.of_nat (length l) -> exists x, at_ l i s = Ok (x, s).
Proof.
  intros Hi. unfold at_. rewrite (proj2 (Z.ltb_ge i 0)) by lia.
  destruct (lookup_lt_is_Some_2 l (Z.to_nat i) ltac:(lia)) as [x Hx]. exists x. by rewrite Hx.
Qed.

(** Moving the point: the product is computed for integers too, and not used. *)
Lemma scale_Ok d loc s l :
  tables_ok s -> -100 < loc < 100 ->
  exists d', (if 0 <? loc then p ← at_ (dcl s) loc; mret (dmul d p)
              else if loc <? 0 then p ← at_ (pdcl s) (- loc); mret (dmul d p)
              else mret d : stM lexer spec_float) (at_input s l) = Ok (d', at_input s l).
Proof.
  intros [T1 T2] Hloc. destruct (Z.ltb_spec 0 loc).
  - destruct (at_Ok (dcl s) loc (at_input s l)) as [x Hx]; [lia|]. rewrite (stbind_step _ _ _ _ _ Hx). by eexists.
  - destruct (Z.ltb_spec loc 0); [|by eexists].
    destruct (at_Ok (pdcl s) (- loc) (at_input s l)) as [x Hx]; [lia|]. rewrite (stbind_step _ _ _ _ _ Hx). by eexists.
Qed.

Lemma no_point rest s :
  Forall is_byte rest -> number_end rest ->
  (if first rest =? 46 then cc ← peek2char; cl ← CHARCLASS cc; mret (cl =? NUMERIC) else mret false : stM lexer bool)
    (at_input s rest) = Ok (false, at_input s rest).
Proof.
  intros Hr He. destruct rest as [|c r]; [done|]. rewrite first_cons. destruct (Z.eqb_spec c 46) as [->|]; [|done].
  destruct He as (_ & _ & _ & He). specialize (He eq_refl). step_peek2. rewrite second_cons. destruct r as [|d r].
  - done.
  - apply Forall_cons in Hr as [_ Hr]. apply Forall_cons in Hr as [Hd _]. rewrite first_cons.
    rewrite (stbind_step _ _ _ _ _ (CHARCLASS_spec d _ Hd)), numeric_class'. by rewrite He.
Qed.

Lemma no_exponent rest s :
  Forall is_byte rest -> number_end rest -> exponent (at_input s rest) = Ok (false, 0, false, at_input s rest).
Proof.
  intros Hr He. unfold exponent. step_peek. destruct rest as [|c r]; [done|]. destruct He as (_ & H1 & H2 & _).
  rewrite first_cons. by rewrite (proj2 (Z.eqb_neq _ _) H1), (proj2 (Z.eqb_neq _ _) H2).
Qed.

Lemma dec_value_nonneg ds : all_digits ds -> 0 <= dec_value ds.
Proof.
  unfold dec_value. assert (H : forall v, 0 <= v -> all_digits ds -> 0 <= foldl dec_step v ds); [|by apply H].
  induction ds as [|c ds IH]; intros v Hv Hds; [done|]. apply Forall_cons in Hds as [Hc Hds]. cbn. apply IH; [|done].
  destruct (digit_byte c Hc). unfold dec_step. lia.
Qed.

Lemma number_int_spec ds rest s tok :
  all_digits ds -> dec_value ds < 10 ^ 100 -> Forall is_byte rest -> number_end rest -> tables_ok s ->
  number tok (at_input s (ds ++ rest)) =
  Ok (int_token (dec_value ds), at_input (after_int (dec_value ds) (with_tables s)) rest).
Proof.
  intros Hds Hbig Hr He Ht. unfold number. step_fuel. set (v := dec_value ds) in *.
  destruct (int_loop_spec ds (S (S (length (ds ++ rest)))) 0 (dbl 0) 0 rest s) as (d & sig & E & H0 & Hsig & _);
    [done|done|by destruct rest; [|destruct He]|lia|done|done|rewrite length_app; lia|].
  change (s64 0) with 0 in E. change (bool_decide (0%nat <> 0%nat)) with false in E. change (Z.of_nat 0) with 0 in E.
  rewrite (stbind_step _ _ _ _ _ E). fold (dec_value ds) in H0, Hsig |- *. fold v in H0, Hsig |- *.
  assert (Hv : 0 <= v) by (by apply dec_value_nonneg).
  destruct (int_error v sig Hv H0 Hsig) as [-> Hexact].
  rewrite make_tables. pose proof (with_tables_ok s Ht) as Ht'. set (s1 := with_tables s) in *.
  step_peek. rewrite (stbind_step _ _ _ _ _ (no_point rest s1 Hr He)).
  rewrite (stbind_step _ _ _ (d, Z.of_nat sig - 1) (at_input s1 rest)) by done.
  rewrite (stbind_step _ _ _ (at_input s1 rest) (at_input s1 rest)) by done.
  assert (Hloc : -100 < Z.of_nat sig - 1 < 100).
  { destruct (decide (sig = 0%nat)) as [Es|Es]; [lia|]. specialize (Hsig Es).
    assert (Z.of_nat sig - 1 < 100); [|lia]. apply (Z.pow_lt_mono_r_iff 10); lia. }
  destruct (scale_Ok d (Z.of_nat sig - 1) s1 rest Ht' Hloc) as [d' Ed].
  change (dcl (at_input s1 rest)) with (dcl s1). change (pdcl (at_input s1 rest)) with (pdcl s1).
  rewrite (stbind_step _ _ _ _ _ Ed). rewrite (stbind_step _ _ _ _ _ (no_exponent rest s1 Hr He)). cbn [orb].
  unfold int_token, after_int. destruct (2147483647 <? v) eqn:Ev; [done|].
  rewrite Hexact by lia. done.
Qed.
End Numbers.

(** ** Program texts *)

Inductive lexeme :=
  | LWord (c : Z) (w : list Z)
  | LSpecial (k : string) (mk : token -> token)
  | LString (t : list Z)
  | LInt (ds : list Z).

Definition text (l : lexeme) : list Z :=
  match l with
  | LWord c w => c :: w
  | LSpecial k _ => chars k
  | LString t => 39 :: quote t ++ [39]
  | LInt ds => ds
  end.

Definition lexeme_ok (l : lexeme) : Prop :=
  match l with
  | LWord c w => letter c = true /\ Forall (fun c => in_word c = true) w
  | LSpecial k mk => (k, mk) ∈ specials
  | LString t => Forall is_byte t /\ 0 ∉ t
  | LInt ds => ds <> [] /\ all_digits ds /\ dec_value ds < 10 ^ 100
  end.

Definition token_of (l : lexeme) : token :=
  match l with
  | LWord c w => word_token (c :: w) talloc
  | LSpecial k mk => mk talloc
  | LString t => string_token t talloc
  | LInt ds => int_token (dec_value ds)
  end.

(** Blanks, then lexemes each followed by at least one blank or comment. *)
Fixpoint program (bs : list (list Z)) (items : list (lexeme * list (list Z))) : list Z :=
  match items with
  | [] => mjoin bs
  | (l, bs') :: items => mjoin bs ++ text l ++ program bs' items
  end.
Definition items_ok (items : list (lexeme * list (list Z))) : Prop :=
  Forall (fun x => lexeme_ok x.1 /\ Forall blank x.2 /\ x.2 <> []) items.

Definition blank_start (c : Z) : bool := existsb (Z.eqb c) [32; 10; 9; 123; 40].

Lemma blank_first b l : blank b -> blank_start (first (b ++ l)) = true.
Proof. by destruct 1. Qed.

Lemma program_first bs items : Forall blank bs -> bs <> [] -> blank_start (first (program bs items)) = true.
Proof.
  intros Hbs Hne. destruct bs as [|b bs]; [done|]. apply Forall_cons in Hbs as [Hb _].
  destruct items as [|[l bs'] items]; cbn [program]; change (mjoin (b :: bs)) with (b ++ mjoin bs);
    rewrite <- ?app_assoc; by apply blank_first.
Qed.

(** What the scanner relies on in the table of operators and delimiters. *)
Definition special_shape (w : list Z) : bool :=
  match w with
  | [] => false
  | c :: r => (class_of c =? SPECIAL) && negb (existsb (Z.eqb c) [32; 10; 9; 123; 39]) &&
              match r with [] => true | [d] => existsb (Z.eqb d) [61; 62; 46] && negb (c =? 40) | _ => false end
  end.

Lemma specials_shape k mk : (k, mk) ∈ specials -> special_shape (chars k) = true.
Proof.
  intros Hk. assert (H : forallb (fun x => special_shape (chars x.1)) specials = true) by (vm_compute; reflexivity).
  rewrite forallb_forall in H. by apply (H (k, mk)), list_elem_of_In.
Qed.

Lemma special_longest k mk rest :
  (k, mk) ∈ specials -> blank_start (first rest) = true -> longest k (chars k ++ rest).
Proof.
  intros Hk Hf k' mk' Hk' [l' Hpre]. apply specials_shape in Hk. apply specials_shape in Hk'.
  destruct (chars k) as [|c r]; [done|]. destruct (chars k') as [|c' [|d' [|? ?]]]; cbn [List.length] in *; try lia.
  - destruct r as [|d r]; cbn [List.length]; [|lia]. cbn in Hpre. injection Hpre as _ ->. exfalso.
    rewrite first_cons in Hf. unfold special_shape in Hk'. apply andb_true_iff in Hk' as [_ Hk'].
    unfold blank_start in Hf. cbn in Hf, Hk'. lia.
  - unfold special_shape in Hk'. by rewrite andb_false_r in Hk'.
Qed.

(** Only what has been printed differs. *)
Definition with_out (o : list string) (s : lexer) : lexer :=
  MkLexer (input s) (EOFFLG s) (dcl s) (dclCreated s) (pdcl s) (pdclCreated s) (out s ++ o).

Definition printable (tok : token) : Prop := forall s, exists o, printtoken tok s = Ok (tt, with_out o s).

Lemma with_out_nil s : with_out [] s = s.
Proof. unfold with_out. rewrite app_nil_r. by destruct s. Qed.

Lemma print_which_printable tok n names :
  tokenval tok = VWhich n -> 0 <= n < Z.of_nat (length names) ->
  forall s, exists o, print_which tok names s = Ok (tt, with_out o s).
Proof.
  intros Hv Hn s. unfold print_which, whichval. rewrite Hv. rewrite (stbind_step _ _ _ n s) by done.
  destruct (at_Ok names n s Hn) as [x Hx]. rewrite (stbind_step _ _ _ _ _ Hx). by eexists [_].
Qed.

Lemma operator_printable n tok : 0 <= n < 28 -> printable (createOperator n tok).
Proof. intros Hn s. unfold printtoken. cbn [tokentype createOperator]. by apply (print_which_printable _ n). Qed.

Lemma delimiter_printable n tok : 279 <= n < 288 -> printable (createDelimiter n tok).
Proof.
  intros Hn s. unfold printtoken. cbn [tokentype createDelimiter].
  apply (print_which_printable _ (n - 279)); [done|]. cbn. lia.
Qed.

Lemma reserved_prints_nothing n tok s : printtoken (createReserved n tok) s = Ok (tt, s).
Proof. done. Qed.

Lemma reserved_printable n tok : printable (createReserved n tok).
Proof. intros s. exists []. rewrite with_out_nil. apply reserved_prints_nothing. Qed.

Lemma identifier_printable w tok : printable (createIdentifier w tok).
Proof. intros s. by eexists [_]. Qed.

Ltac show_printable := match goal with
  | |- printable (createIdentifier _ _) => apply identifier_printable
  | |- printable (createReserved _ _) => apply reserved_printable
  | |- printable (createOperator _ _) => apply operator_printable; vm_compute; split; [discriminate|reflexivity]
  | |- printable (createDelimiter _ _) => apply delimiter_printable; vm_compute; split; [discriminate|reflexivity]
  | |- printable (reserved ?n ?t) => apply (reserved_printable n t)
  | |- printable (operator ?n ?t) => apply (operator_printable n t); vm_compute; split; [discriminate|reflexivity]
  | |- printable (delimiter ?n ?t) => apply (delimiter_printable n t); vm_compute; split; [discriminate|reflexivity]
  end.

Lemma keyword_printable k mk tok : (k, mk) ∈ keywords -> printable (mk tok).
Proof.
  intros Hk. unfold keywords in Hk.
  repeat (apply elem_of_cons in Hk as [Hk|Hk]; [injection Hk as -> ->|]); [..|by apply elem_of_nil in Hk];
    show_printable.
Qed.

Lemma find_keyword_Some w ks tok t : find_keyword w ks tok = Some t -> exists k mk, (k, mk) ∈ ks /\ t = mk tok.
Proof.
  induction ks as [|[k mk] ks IH]; cbn; [done|]. destruct (decide (w = chars k)).
  - intros [= <-]. exists k, mk. split; [by left|done].
  - intros H. destruct (IH H) as (k' & mk' & Hin & ->). exists k', mk'. split; [by right|done].
Qed.

Lemma token_printable l : lexeme_ok l -> printable (token_of l).
Proof.
  destruct l as [c w|k mk|t|ds]; cbn [lexeme_ok token_of].
  - intros _. unfold word_token. destruct (find_keyword (c :: w) keywords talloc) as [t|] eqn:E.
    + apply find_keyword_Some in E as (k & mk & Hin & ->). by eapply keyword_printable.
    + intros s. by eexists [_].
  - intros Hk. unfold specials in Hk.
    repeat (apply elem_of_cons in Hk as [Hk|Hk]; [injection Hk as -> ->|]); [..|by apply elem_of_nil in Hk];
      show_printable.
  - intros _ s. by eexists [_].
  - intros _ s. by eexists [_].
Qed.

Section Scanner.

Lemma blank_start_end rest :
  blank_start (first rest) = true -> word_end rest /\ number_end rest /\ first rest <> 39.
Proof.
  destruct rest as [|c r]; [done|]. rewrite first_cons. unfold blank_start, word_end, number_end, in_word, letter, digit. cbn [existsb].
  intros H. split_and!; lia.
Qed.

Lemma text_not_blank l rest :
  lexeme_ok l -> blank_start (first rest) = true -> starts_blank (text l ++ rest) = false.
Proof.
  intros Hl Hf. destruct l as [c w|k mk|t|ds]; cbn [text lexeme_ok] in *.
  - destruct Hl as [Hc _]. unfold letter in Hc. cbn [app starts_blank]. lia.
  - apply specials_shape in Hl. destruct (chars k) as [|c r]; [done|]. cbn [app starts_blank]. unfold special_shape in Hl.
    cbn [existsb] in Hl. destruct r as [|d r]; cbn [app].
    + destruct (first rest =? 42) eqn:E; [|lia]. unfold blank_start in Hf. cbn [existsb] in Hf. lia.
    + rewrite first_cons. destruct r; [|lia]. lia.
  - done.
  - destruct Hl as (Hne & Hd & _). destruct ds as [|c ds]; [done|]. apply Forall_cons in Hd as [Hc _].
    unfold digit in Hc. cbn [app starts_blank]. lia.
Qed.

Lemma text_bytes l : lexeme_ok l -> Forall is_byte (text l).
Proof.
  destruct l as [c w|k mk|t|ds]; cbn [text lexeme_ok].
  - intros [Hc Hw]. apply in_word_bytes, Forall_cons. split; [|done]. unfold in_word. by rewrite Hc.
  - intros _. apply chars_bytes.
  - intros [Ht _]. pose proof (quote_bytes t Ht). bytes.
  - intros (_ & Hd & _). by apply digits_bytes.
Qed.

(** The state after a lexeme: an integer fills the tables, and may print. *)
Definition after (l : lexeme) (s : lexer) : lexer :=
  match l with LInt ds => after_int (dec_value ds) (with_tables s) | _ => s end.

Lemma gettoken_spec bs l rest s :
  Forall blank bs -> lexeme_ok l -> Forall is_byte rest -> blank_start (first rest) = true -> tables_ok s ->
  gettoken (at_input s (mjoin bs ++ text l ++ rest)) = Ok (token_of l, at_input (after l s) rest).
Proof.
  intros Hbs Hl Hr Hf Ht. pose proof (text_bytes l Hl) as Hb. unfold gettoken. cbv zeta.
  erewrite stbind_step; [|apply skipblanks_spec; [done|by apply Forall_app|by apply text_not_blank]].
  step_peek. destruct (blank_start_end rest Hf) as (Hwe & Hne & H39).
  assert (Hfirst : exists c r, text l = c :: r /\ is_byte c) by
    (destruct l as [c w|k mk|t|ds]; cbn in *; [eauto|apply specials_shape in Hl; destruct (chars k); [done|]|eauto|destruct ds; [by destruct Hl|]];
     try (by do 2 eexists; split; [done|]; apply Forall_cons in Hb as [? _])).
  destruct Hfirst as (c & r & Etext & Hc). rewrite Etext. cbn [app]. rewrite first_cons, (byte_not_EOF c Hc). cbn [negb].
  rewrite (stbind_step _ _ _ _ _ (CHARCLASS_spec c _ Hc)).
  destruct l as [c' w|k mk|t|ds]; cbn [text lexeme_ok token_of after] in *.
  - injection Etext as -> ->. destruct Hl as [Hlet Hw]. unfold class_of. rewrite Hlet. cbn [Z.eqb Pos.eqb ALPHA].
    apply (identifier_spec c r rest s talloc); [|done..]. apply Forall_cons. split; [|done]. unfold in_word. by rewrite Hlet.
  - pose proof (specials_shape _ _ Hl) as Hs. rewrite Etext in Hs. unfold special_shape in Hs. cbn [existsb] in Hs.
    assert (class_of c = SPECIAL /\ c <> 39) as [-> Hc39] by lia. cbn [Z.eqb Pos.eqb SPECIAL ALPHA NUMERIC].
    rewrite (proj2 (Z.eqb_neq c 39)) by done. change (c :: r ++ rest) with ((c :: r) ++ rest). rewrite <- Etext.
    apply special_spec; [done|by eapply special_longest|done].
  - injection Etext as <- <-. change (class_of 39) with 0. cbn [Z.eqb Pos.eqb ALPHA NUMERIC].
    rewrite <- app_assoc. cbn [app]. by apply getstring_spec; [destruct Hl..|done|done].
  - subst ds. destruct Hl as (_ & Hd & Hbig). apply Forall_cons in Hd as Hd'. destruct Hd' as [Hdig _].
    assert (class_of c = NUMERIC) as ->.
    { unfold class_of. rewrite Hdig. destruct (letter c) eqn:E; [|done]. unfold letter, digit in *. lia. }
    cbn [Z.eqb Pos.eqb ALPHA NUMERIC]. by apply (number_int_spec (c :: r) rest s talloc).
Qed.

Lemma program_bytes items : forall bs, Forall blank bs -> items_ok items -> Forall is_byte (program bs items).
Proof.
  assert (Hj : forall bs, Forall blank bs -> Forall is_byte (mjoin bs)).
  { intros bs Hbs. apply Forall_join. eapply Forall_impl; [exact Hbs|apply blank_bytes]. }
  induction items as [|[l bs'] items IH]; intros bs Hbs Hi; cbn [program]; [by apply Hj|].
  apply Forall_cons in Hi as [(Hl & Hbs' & _) Hi]. apply Forall_app. split; [by apply Hj|].
  apply Forall_app. split; [by apply text_bytes|]. by apply IH.
Qed.

Lemma after_ok l s : tables_ok s -> tables_ok (after l s) /\ EOFFLG (after l s) = EOFFLG s.
Proof.
  intros Ht. destruct l; cbn [after]; try done. pose proof (with_tables_ok s Ht) as Ht'.
  assert (HE : EOFFLG (with_tables s) = EOFFLG s).
  { unfold with_tables. destruct (dclCreated s =? 0); cbn [pdclCreated with_dcl]; by destruct (pdclCreated s =? 0). }
  unfold after_int. by destruct (2147483647 <? _).
Qed.

Lemma scan_program items : forall n bs toks s,
  Forall blank bs -> items_ok items -> tables_ok s -> EOFFLG s = 0 -> (length items + 1 < n)%nat ->
  exists s', testscanner_loop n toks (at_input s (program bs items)) = Ok (toks ++ (token_of ∘ fst <$> items), s') /\
    EOFFLG s' = 1 /\ input s' = [].
Proof.
  induction items as [|[l bs'] items IH]; intros n bs toks s Hbs Hi Ht H0 Hn;
    (destruct n as [|n]; [cbn in Hn; lia|]); cbn [testscanner_loop program];
    erewrite stbind_step by reflexivity;
    change (EOFFLG (at_input s ?r)) with (EOFFLG s); rewrite H0; cbn [Z.eqb].
  - assert (E : gettoken (at_input s (mjoin bs)) = Ok (talloc, with_eof 1 (at_input s []))).
    { unfold gettoken. cbv zeta. rewrite <- (app_nil_r (mjoin bs)).
      rewrite (stbind_step _ _ _ _ _ (skipblanks_spec bs s [] Hbs ltac:(done) eq_refl)). done. }
    rewrite (stbind_step _ _ _ _ _ E). rewrite (stbind_step _ _ _ _ (with_eof 1 (at_input s [])) eq_refl).
    cbn [EOFFLG with_eof Z.eqb]. destruct n as [|n]; [cbn in Hn; lia|]. cbn [testscanner_loop].
    erewrite stbind_step by reflexivity. cbn [EOFFLG with_eof Z.eqb fmap list_fmap]. rewrite app_nil_r.
    eexists. split; [reflexivity|done].
  - pose proof Hi as Hi0. apply Forall_cons in Hi as [(Hl & Hbs' & Hne) Hi]. cbn [fst snd] in *.
    rewrite (stbind_step _ _ _ _ _ (gettoken_spec bs l (program bs' items) s Hbs Hl
              (program_bytes items bs' Hbs' Hi) (program_first bs' items Hbs' Hne) Ht)).
    erewrite stbind_step by reflexivity. destruct (after_ok l s Ht) as [Ht' HE].
    change (EOFFLG (at_input (after l s) ?r)) with (EOFFLG (after l s)). rewrite HE, H0. cbn [Z.eqb].
    destruct (token_printable l Hl (at_input (after l s) (program bs' items))) as [o Eo].
    rewrite (stbind_step _ _ _ _ _ Eo). change (with_out o (at_input ?s1 ?r)) with (at_input (with_out o s1) r).
    destruct (IH n bs' (toks ++ [token_of l]) (with_out o (after l s)) Hbs' Hi Ht') as (s' & E' & R);
      [by cbn; rewrite HE|cbn in Hn; lia|].
    exists s'. rewrite E'. rewrite <- app_assoc. done.
Qed.

Lemma program_length items : forall bs, items_ok items -> (length items <= length (program bs items))%nat.
Proof.
  induction items as [|[l bs'] items IH]; intros bs Hi; [cbn; lia|]. apply Forall_cons in Hi as [(Hl & _) Hi].
  cbn [program List.length]. rewrite !length_app. specialize (IH bs' Hi).
  assert (0 < length (text l))%nat; [|lia]. destruct l; cbn in *; try lia.
  - apply specials_shape in Hl. destruct (chars k); [done|cbn; lia].
  - destruct ds; [by destruct Hl|cbn; lia].
Qed.
End Scanner.

(** ** Every text is scanned to its end *)

Fixpoint leading_digits (l : list Z) : nat :=
  match l with c :: l => if digit c then S (leading_digits l) else O | [] => O end.

(** Bytes of which at most 98 digits follow one another (with more of them
    [number] reads past the end of its tables), and the last of which is not a
    letter, a digit or a point (after which the code may look up the class of
    EOF, before the start of its table). *)
Definition ends_closed (l : list Z) : Prop := forall c, last l = Some c -> in_word c = false /\ c <> 46.
Definition input_ok (l : list Z) : Prop :=
  Forall is_byte l /\ (forall l', l' `suffix_of` l -> (leading_digits l' <= 98)%nat) /\ ends_closed l.

Lemma input_ok_suffix l l' : l' `suffix_of` l -> input_ok l -> input_ok l'.
Proof.
  intros [k ->] (H1 & H2 & H3). split; [by apply Forall_app in H1 as [_ ?]|]. split; [intros l2 Hl2; apply H2; by apply suffix_app_r|].
  intros c Hc. apply H3. by rewrite last_app, Hc.
Qed.

(** [m], on the rest [l] of an acceptable text, returns; it leaves a suffix of
    [l], and [Q] holds of its result and of this suffix. *)
Definition reads {A} (m : stM lexer A) (l : list Z) (Q : A -> list Z -> Prop) : Prop :=
  input_ok l -> forall s, tables_ok s ->
  exists a l' s', m (at_input s l) = Ok (a, at_input s' l') /\ tables_ok s' /\ EOFFLG s' = EOFFLG s /\
    l' `suffix_of` l /\ Q a l'.

Lemma reads_ret {A} (a : A) l (Q : A -> list Z -> Prop) : Q a l -> reads (mret a) l Q.
Proof. intros HQ _ s Ht. by exists a, l, s. Qed.

Lemma reads_bind {A B} (m : stM lexer A) (f : A -> stM lexer B) l Q R :
  reads m l Q -> (forall a l', l' `suffix_of` l -> Q a l' -> reads (f a) l' R) -> reads (m ≫= f) l R.
Proof.
  intros Hm Hf Hl s Ht. destruct (Hm Hl s Ht) as (a & l1 & s1 & E1 & T1 & F1 & S1 & Q1).
  destruct (Hf a l1 S1 Q1 (input_ok_suffix _ _ S1 Hl) s1 T1) as (b & l2 & s2 & E2 & T2 & F2 & S2 & R2).
  exists b, l2, s2. rewrite (stbind_step _ _ _ _ _ E1). split_and!; [done|done|congruence|by etrans|done].
Qed.

Lemma reads_weaken {A} (m : stM lexer A) l (Q R : A -> list Z -> Prop) :
  reads m l Q -> (forall a l', l' `suffix_of` l -> Q a l' -> R a l') -> reads m l R.
Proof. intros Hm HQ Hl s Ht. destruct (Hm Hl s Ht) as (a & l1 & s1 & ?). naive_solver. Qed.

Lemma suffix_tl (l : list Z) : tl l `suffix_of` l.
Proof. destruct l as [|c l]; [done|]. by exists [c]. Qed.

Lemma reads_getchar l : reads getchar l (fun c l' => c = first l /\ l' = tl l).
Proof.
  intros _ s Ht. destruct l as [|c l].
  - by exists EOF, [], s.
  - exists c, l, s. split_and!; try done. by exists [c].
Qed.

Lemma reads_peekchar l : reads peekchar l (fun c l' => c = first l /\ l' = l).
Proof. intros [Hb _] s Ht. exists (first l), l, s. split_and!; try done. by apply peekchar_spec. Qed.

Lemma reads_peek2char l : reads peek2char l (fun c l' => c = second l /\ l' = l).
Proof. intros [Hb _] s Ht. exists (second l), l, s. split_and!; try done. by apply peek2char_spec. Qed.

Lemma reads_fuel l : reads fuel l (fun n l' => n = S (S (length l)) /\ l' = l).
Proof. intros _ s Ht. by exists (S (S (length l))), l, s. Qed.

Lemma reads_print m l : reads (print m) l (fun _ l' => l' = l).
Proof. intros _ s Ht. by exists tt, l, (with_out [m] s). Qed.

Lemma reads_set_word w i c l : 0 <= i < 16 -> reads (set_word w i c) l (fun _ l' => l' = l).
Proof.
  intros Hi _ s Ht. eexists _, l, s. unfold set_word. rewrite (proj2 (Z.leb_le _ _)), (proj2 (Z.ltb_lt _ _)) by lia.
  by split.
Qed.

Lemma first_EOF l : input_ok l -> (first l =? EOF) = bool_decide (l = []).
Proof.
  intros [Hb _]. destruct l as [|c l]; [done|]. apply Forall_cons in Hb as [Hc _]. rewrite first_cons, byte_not_EOF by done.
  by rewrite bool_decide_false.
Qed.

Lemma second_EOF l : input_ok l -> second l <> EOF -> (2 <= length l)%nat.
Proof. intros _. destruct l as [|c [|d l]]; cbn; [done|done|lia]. Qed.

Section Total.

(** A word, and a point after a number, are not the end of the text. *)
Lemma goes_on l : input_ok l -> in_word (first l) = true \/ first l = 46 -> tl l <> [].
Proof.
  intros (_ & _ & Hc) H Ht. destruct l as [|c [|d l]]; [by destruct H| |done]. cbn in H. destruct (Hc c eq_refl). destruct H; congruence.
Qed.

(** The class of the next character. *)
Lemma reads_class l c : c = first l -> l <> [] -> reads (CHARCLASS c) l (fun cl l' => cl = class_of c /\ l' = l).
Proof.
  intros -> Hne [Hb Hd] s Ht. destruct l as [|c l]; [done|].
  exists (class_of c), (c :: l), s. split_and!; try done. apply CHARCLASS_spec. by apply Forall_cons in Hb as [? _].
Qed.

Lemma reads_class2 l : tl l <> [] -> reads (CHARCLASS (second l)) l (fun _ l' => l' = l).
Proof.
  intros Hne [Hb Hd] s Ht. destruct l as [|c [|d l]]; [done..|].
  exists (class_of d), (c :: d :: l), s. split_and!; try done. apply CHARCLASS_spec.
  apply Forall_cons in Hb as [_ Hb]. by apply Forall_cons in Hb as [? _].
Qed.

Lemma reads_if {A} (b : bool) (m1 m2 : stM lexer A) l Q :
  (b = true -> reads m1 l Q) -> (b = false -> reads m2 l Q) -> reads (if b then m1 else m2) l Q.
Proof. destruct b; auto. Qed.

Lemma tl_shorter (l : list Z) : l <> [] -> (length (tl l) < length l)%nat.
Proof. destruct l; [done|]. cbn. lia. Qed.

Lemma tl_length (l : list Z) : length (tl l) = (length l - 1)%nat.
Proof. destruct l; cbn; lia. Qed.

Lemma with_ok {A} (m : stM lexer A) l Q : (input_ok l -> reads m l Q) -> reads m l Q.
Proof. intros H Hl. by apply H. Qed.

Ltac next H := eapply reads_bind; [apply H|].
Ltac next_get := next reads_getchar; intros ? ? _ [-> ->].
Ltac next_peek := next reads_peekchar; intros ? ? _ [-> ->].
Ltac next_peek2 := next reads_peek2char; intros ? ? _ [-> ->].
Ltac next_fuel := next reads_fuel; intros ? ? _ [-> ->].

Lemma not_EOF l : input_ok l -> negb (first l =? EOF) = true -> l <> [].
Proof. intros Hl H ->. done. Qed.

Lemma reads_brace n : forall l, (length l < n)%nat -> reads (brace_loop n) l (fun _ l' => l' `suffix_of` tl l).
Proof.
  induction n as [|n IH]; intros l Hn; [lia|]. cbn [brace_loop]. next_get. next_peek. apply with_ok. intros Hok.
  apply reads_if; [|intros _; by apply reads_ret]. intros [Hne%(not_EOF _ Hok) _]%andb_true_iff.
  eapply reads_weaken; [apply IH|].
  - pose proof (tl_length l). assert (length (tl l) <> 0%nat) by (by destruct (tl l)). lia.
  - intros a l' _ Hs. etrans; [exact Hs|apply suffix_tl].
Qed.

Lemma reads_star n : forall l cc, (length l < n)%nat -> reads (star_loop n cc) l (fun _ l' => l' `suffix_of` tl l).
Proof.
  induction n as [|n IH]; intros l cc Hn; [lia|]. cbn [star_loop]. next_get. cbv zeta. next_peek2. apply with_ok. intros Hok.
  apply reads_if; [|intros _; by apply reads_ret]. intros [Hne _]%andb_true_iff.
  apply negb_true_iff, Z.eqb_neq in Hne. apply (second_EOF _ Hok) in Hne.
  eapply reads_weaken; [apply IH|].
  - pose proof (tl_length l). lia.
  - intros a l' _ Hs. etrans; [exact Hs|apply suffix_tl].
Qed.

Lemma suffix_length_le (l l' : list Z) : l' `suffix_of` l -> (length l' <= length l)%nat.
Proof. intros [k ->]. rewrite length_app. lia. Qed.

Lemma reads_skip n : forall l, (length l < n)%nat -> reads (skipblanks_loop n) l (fun _ _ => True).
Proof.
  induction n as [|n IH]; intros l Hn; [lia|]. cbn [skipblanks_loop]. next_peek.
  eapply (reads_bind _ _ _ (fun _ l' => l' = l)).
  { apply reads_if; intros _; [|by apply reads_ret]. eapply reads_weaken; [apply reads_peek2char|]. naive_solver. }
  intros cc ? _ ->. apply with_ok. intros Hok. apply reads_if; [|intros _; by apply reads_ret].
  intros [Hne%(not_EOF _ Hok) _]%andb_true_iff.
  assert (Htl : (length (tl l) < length l)%nat) by (by apply tl_shorter).
  eapply (reads_bind _ _ _ (fun c l' => l' `suffix_of` tl l \/ l' = l /\ (c =? EOF) = false)).
  { apply reads_if; intros _.
    - next_fuel. eapply reads_weaken; [apply reads_brace; lia|]. auto.
    - apply reads_if; intros _.
      + next_get. next_fuel. eapply reads_bind; [apply reads_star; lia|]. intros ? l2 Hs2 Hs. next_get.
        apply reads_ret. left. etrans; [apply suffix_tl|]. done.
      + apply reads_ret. right. split; [done|]. rewrite (first_EOF _ Hok). by rewrite bool_decide_false. }
  intros c l2 Hs2 Hc. eapply (reads_bind _ _ _ (fun _ l' => (length l' < length l)%nat)).
  { apply reads_if.
    - intros _. next_get. apply reads_ret. rewrite tl_length. destruct Hc as [Hc%suffix_length_le|[-> _]]; lia.
    - intros HE. apply reads_ret. destruct Hc as [Hc%suffix_length_le|[_ Hc]]; [lia|]. by rewrite Hc in HE. }
  intros _ l3 _ Hl3. apply IH. lia.
Qed.

Lemma reads_skipblanks l : reads skipblanks l (fun _ _ => True).
Proof. unfold skipblanks. next_fuel. apply reads_skip. lia. Qed.

Lemma reads_word n : forall l word counter nf,
  in_word (first l) = true -> 0 <= counter < 15 -> (length l < n)%nat ->
  reads (word_loop n word counter nf) l
    (fun r l' => let '(_, counter', _, c) := r in 0 <= counter' < 16 /\ c = first l' /\ l' `suffix_of` tl l).
Proof.
  induction n as [|n IH]; intros l word counter nf Hl Hc Hn; [lia|]. cbn [word_loop]. apply with_ok. intros Hok0.
  pose proof (goes_on l Hok0 (or_introl Hl)) as Hgo. next_get.
  eapply reads_bind; [apply reads_set_word; lia|]. intros word' ? _ ->. cbv zeta. next_peek.
  eapply reads_bind; [by apply reads_class|]. intros cl ? _ [-> ->]. rewrite alnum_class. apply reads_if.
  - intros [[_ Hlt%Z.ltb_lt]%andb_true_iff Hw]%andb_true_iff.
    eapply reads_weaken; [apply IH; [done|lia|rewrite tl_length; destruct l; [done|cbn in *; lia]]|].
    intros [[[w c'] f] c] l' _ (H1 & H2 & H3). split; [done|]. split; [done|]. etrans; [exact H3|apply suffix_tl].
  - intros _. apply reads_ret. split_and!; [lia|lia|done|done].
Qed.

Lemma reads_eat n : forall l c, (length l < n)%nat -> c = first l -> reads (eat_loop n c) l (fun _ _ => True).
Proof.
  induction n as [|n IH]; intros l c Hn ->; [lia|]. cbn [eat_loop]. apply with_ok. intros Hok. rewrite (first_EOF _ Hok).
  apply reads_if; [intros _; by apply reads_ret|]. intros Hne%bool_decide_eq_false.
  eapply reads_bind; [by apply reads_class|]. intros cl ? _ [-> ->]. apply reads_if; [|intros _; by apply reads_ret].
  intros _. next_get. next_peek. apply IH; [|done]. pose proof (tl_shorter l Hne). lia.
Qed.

(** A token is made from at least one character, and can be printed. *)
Definition lexed (l : list Z) (tok : token) (l' : list Z) : Prop := printable tok /\ (length l' < length l)%nat.

Lemma reserved_word_printable w counter tok : printable (reserved_word w counter tok).
Proof.
  unfold reserved_word. repeat match goal with |- printable (if ?b then _ else _) => destruct b end;
    show_printable.
Qed.

Lemma reads_identifier l tok : in_word (first l) = true -> reads (identifier tok) l (lexed l).
Proof.
  intros Hl. assert (Hne : l <> []) by (by intros ->). unfold identifier. next_fuel. eapply reads_bind; [apply reads_word; [done|lia|lia]|].
  intros [[[w counter] nf] c] l1 _ (Hc & -> & Hs). next_fuel. eapply reads_bind; [apply reads_eat; [lia|done]|].
  intros _ l2 Hs2 _. eapply reads_bind; [by apply reads_set_word|]. intros w' ? _ ->. apply reads_ret. split.
  - destruct (_ || _); [apply identifier_printable|apply reserved_word_printable].
  - apply suffix_length_le in Hs, Hs2. pose proof (tl_shorter l Hne). lia.
Qed.

Lemma reads_string n : forall l word counter c cc,
  c = first l -> 0 <= counter < 16 -> (length l < n)%nat ->
  reads (string_loop n word counter c cc) l (fun r _ => 0 <= r.2 < 16).
Proof.
  induction n as [|n IH]; intros l word counter c cc -> Hc Hn; [lia|]. cbn [string_loop]. apply with_ok. intros Hok.
  rewrite (first_EOF _ Hok). apply reads_if; [intros _; by apply reads_ret|]. intros Hne%bool_decide_eq_false.
  apply reads_if; [intros _; by apply reads_ret|]. intros _.
  eapply (reads_bind _ _ _ (fun _ l' => l' = l \/ l' = tl l)).
  { apply reads_if; intros _; [next_get|]; apply reads_ret; auto. }
  intros _ l1 _ Hl1. next_get. eapply (reads_bind _ _ _ (fun r l' => 0 <= r.2 < 16 /\ l' = tl l1)).
  { apply reads_if; [intros Hlt%Z.ltb_lt|intros _; by apply reads_ret].
    eapply reads_bind; [by apply reads_set_word|]. intros w ? _ ->. apply reads_ret. cbn. split; [lia|done]. }
  intros r ? _ [Hr ->]. next_peek. next_peek2. apply IH; [done|done|]. rewrite tl_length.
  pose proof (tl_shorter l Hne). assert (length l <> 0%nat) by (by destruct l). destruct Hl1 as [-> | ->]; lia.
Qed.

Lemma reads_getstring l tok : l <> [] -> reads (getstring tok) l (lexed l).
Proof.
  intros Hl. unfold getstring. next_get. next_peek. next_peek2. next_fuel. pose proof (tl_shorter l Hl).
  eapply reads_bind; [apply reads_string; [done|lia|lia]|]. intros r l1 Hs Hr. next_get.
  eapply reads_bind; [by apply reads_set_word|]. intros w ? _ ->. apply reads_ret. split; [intros s; by eexists [_]|].
  rewrite tl_length. apply suffix_length_le in Hs. lia.
Qed.

Lemma reads_special l : l <> [] -> reads (special talloc) l (lexed l).
Proof.
  intros Hl. unfold special. next_peek. next_peek2. cbv zeta. pose proof (tl_shorter l Hl).
  eapply (reads_bind _ _ _ (fun tok _ => printable tok)).
  { repeat (apply reads_if; intros _);
      first [ apply reads_ret; show_printable | next_get; apply reads_ret; show_printable | idtac ].
    eapply reads_bind; [apply reads_print|]. intros _ ? _ ->. apply reads_ret. intros s. by eexists [_]. }
  intros tok l1 Hs Hp. next_get. apply reads_ret. split; [done|]. rewrite tl_length. apply suffix_length_le in Hs.
  assert (length l <> 0%nat) by (by destruct l). lia.
Qed.

(** The digits at the start of the text. *)
Lemma digits_split l :
  exists ds rest, l = ds ++ rest /\ all_digits ds /\ length ds = leading_digits l /\
    match rest with c :: _ => digit c = false | [] => True end.
Proof.
  induction l as [|c l (ds & rest & -> & Hd & Hl & Hr)];
    [exists [], []; split_and!; by try constructor|]. cbn [leading_digits].
  destruct (digit c) eqn:E.
  - exists (c :: ds), rest. split; [done|]. split; [by apply Forall_cons|]. split; [cbn; lia|done].
  - exists [], (c :: ds ++ rest). split_and!; by try constructor.
Qed.

Lemma reads_int l :
  reads (int_loop (S (S (length l))) 0 (dbl 0) false 0) l
    (fun r l' => let '(_, _, _, sig) := r in 0 <= sig <= 98 /\ (leading_digits l <> 0%nat -> length l' < length l)%nat).
Proof.
  intros (Hb & Hd & _) s Ht. destruct (digits_split l) as (ds & rest & -> & Hds & Hlen & Hr).
  specialize (Hd _ (reflexivity _)). apply Forall_app in Hb as [_ Hb].
  destruct (int_loop_spec ds (S (S (length (ds ++ rest)))) 0 (dbl 0) 0 rest s) as (d & sig & E & _ & _ & Hs);
    [done|done|done|lia|done|done|rewrite length_app; lia|].
  eexists _, rest, s. split; [exact E|]. split_and!; try done; [by exists ds|lia|lia|].
  rewrite length_app. lia.
Qed.

Lemma reads_digit_next l :
  reads (digit_next) l (fun d l' => l' = l /\ d = match l with c :: _ => digit c | [] => false end).
Proof. intros [Hb _] s Ht. eexists _, l, s. split; [by apply digit_next_spec|]. by split_and!. Qed.

Lemma reads_at {A} (t : list A) i l : 0 <= i < Z.of_nat (length t) -> reads (at_ t i) l (fun _ l' => l' = l).
Proof. intros Hi _ s Ht. destruct (at_Ok t i (at_input s l) Hi) as [x Hx]. by exists x, l, s. Qed.

(** A table of the state, of 100 entries. *)
Lemma reads_table {A} (f : lexer -> stM lexer A) l Q :
  (forall s, tables_ok s -> reads (f s) l Q) -> reads (get ≫= f) l Q.
Proof.
  intros Hf Hl s Ht. rewrite (stbind_step _ _ _ (at_input s l) (at_input s l)) by done. by apply (Hf (at_input s l) Ht Hl s Ht).
Qed.

Lemma reads_frac n : forall l d nz sig k loc,
  (leading_digits l < n)%nat -> 1 <= k -> k + Z.of_nat (leading_digits l) <= 100 ->
  reads (frac_loop n d nz sig k loc) l (fun r _ => loc - Z.of_nat (leading_digits l) <= r.2 <= loc).
Proof.
  induction n as [|n IH]; intros l d nz sig k loc Hn Hk Hk2; [lia|]. cbn [frac_loop].
  eapply reads_bind; [apply reads_digit_next|]. intros b ? _ [-> ->].
  destruct l as [|c l]; [apply reads_ret; cbn; lia|]. cbn [leading_digits] in *.
  destruct (digit c); [|apply reads_ret; cbn; lia]. next_get. cbn [tl]. cbv zeta. apply reads_table. intros s [Ht _].
  eapply reads_bind; [apply reads_at; lia|]. intros p ? _ ->.
  assert (HIH : forall d' nz' sig' loc', loc - 1 <= loc' <= loc ->
    reads (frac_loop n d' nz' sig' (k + 1) loc') l (fun r _ => loc - Z.of_nat (S (leading_digits l)) <= r.2 <= loc)).
  { intros d' nz' sig' loc' Hloc. eapply reads_weaken; [apply IH; lia|]. cbn. lia. }
  apply reads_if; intros _; apply HIH; destruct (nz || _); lia.
Qed.

Lemma reads_exp n : forall l e nz, (length l < n)%nat -> reads (exp_loop n e nz) l (fun _ _ => True).
Proof.
  induction n as [|n IH]; intros l e nz Hn; [lia|]. cbn [exp_loop].
  eapply reads_bind; [apply reads_digit_next|]. intros b ? _ [-> ->].
  destruct l as [|c l]; [by apply reads_ret|]. destruct (digit c); [|by apply reads_ret]. next_get. cbn [tl]. cbv zeta.
  apply IH. cbn in Hn. lia.
Qed.

Lemma reads_exponent l : reads (exponent) l (fun _ _ => True).
Proof.
  unfold exponent. next_peek. apply reads_if; intros _; [|by apply reads_ret]. next_get. next_peek.
  eapply (reads_bind _ _ _ (fun _ _ => True)).
  { repeat (apply reads_if; intros _); first [next_get; by apply reads_ret|by apply reads_ret]. }
  intros neg l1 _ _. next_fuel. eapply reads_bind; [apply reads_exp; lia|]. intros e l2 _ _. by apply reads_ret.
Qed.

Lemma reads_tables {A} (f : stM lexer A) l Q :
  reads f l Q ->
  reads (s0 ← get;
   (if dclCreated s0 =? 0 then createDCL;; modify (fun s => with_dcl (dcl s) 1 s) else mret tt);;
   s0 ← get;
   (if pdclCreated s0 =? 0 then createPDCL;; modify (fun s => with_pdcl (pdcl s) 1 s) else mret tt);;
   f) l Q.
Proof.
  intros Hf Hl s Ht. rewrite make_tables. destruct (Hf Hl _ (with_tables_ok s Ht)) as (a & l' & s' & E & T & F & R).
  exists a, l', s'. split_and!; try done; [|apply R..]. rewrite F. unfold with_tables.
  destruct (dclCreated s =? 0); cbn [pdclCreated with_dcl]; by destruct (pdclCreated s =? 0).
Qed.

Lemma reads_scale s d loc l :
  tables_ok s -> -100 < loc < 100 ->
  reads (if 0 <? loc then p ← at_ (dcl s) loc; mret (dmul d p)
         else if loc <? 0 then p ← at_ (pdcl s) (- loc); mret (dmul d p)
         else mret d) l (fun _ l' => l' = l).
Proof.
  intros [T1 T2] Hloc. apply reads_if; [intros H%Z.ltb_lt|intros H%Z.ltb_ge; apply reads_if; [intros H'%Z.ltb_lt|intros _; by apply reads_ret]];
    (eapply reads_bind; [apply reads_at; lia|]); intros p ? _ ->; by apply reads_ret.
Qed.

Lemma leading_digits_le l : (leading_digits l <= length l)%nat.
Proof. induction l as [|c l IH]; cbn; [done|]. destruct (digit c); lia. Qed.

Lemma number_printable t : (exists n, t = MkToken NUMBERTOK INTEGER (VInt n)) \/ (exists r, t = MkToken NUMBERTOK REAL (VReal r)) -> printable t.
Proof. intros [[n ->]|[r ->]] s; by eexists [_]. Qed.

Lemma reads_number l tok : leading_digits l <> 0%nat -> reads (number tok) l (lexed l).
Proof.
  intros Hd. unfold number. next_fuel. next reads_int. intros [[[lnum d] nz] sig] l1 _ [Hsig Hl1]. specialize (Hl1 Hd). cbv zeta.
  apply reads_tables. next_peek. eapply (reads_bind _ _ _ (fun _ l' => l' = l1)).
  { apply with_ok. intros Hok1. apply reads_if; [intros H46%Z.eqb_eq|intros _; by apply reads_ret]. next_peek2.
    eapply reads_bind; [apply reads_class2; apply goes_on; [done|by right]|].
    intros cl ? _ ->. by apply reads_ret. }
  intros point ? _ ->. eapply (reads_bind _ _ _ (fun r l' => -100 < r.2 < 100)).
  { destruct point; [|apply reads_ret; cbn; lia]. next_get. next_fuel. apply with_ok. intros (_ & Hok & _).
    specialize (Hok _ (reflexivity _)). pose proof (leading_digits_le (tl l1)).
    eapply reads_weaken; [apply reads_frac; lia|]. cbn. lia. }
  intros [d2 loc] l2 Hs2 Hloc. cbn [snd] in Hloc. apply reads_table. intros s Ht.
  eapply reads_bind; [by apply reads_scale|]. intros d3 ? _ ->. next reads_exponent. intros [[has_exp e] ferr] l3 Hs3 _.
  assert (Hlen : (length l3 < length l)%nat) by (apply suffix_length_le in Hs2, Hs3; lia).
  apply reads_if; intros _.
  - cbv zeta. eapply (reads_bind _ _ _ (fun _ l' => l' = l3)).
    { apply reads_if; [|intros Hrange; apply reads_if; [intros H1%Z.ltb_lt|]].
      - intros _. next reads_print. intros _ ? _ ->. by apply reads_ret.
      - apply reads_table. intros s' [_ Ht']. eapply reads_bind; [apply reads_at; lia|]. intros p ? _ ->. by apply reads_ret.
      - intros _. apply reads_if; intros _; by apply reads_ret. }
    intros d4 ? _ ->. apply reads_ret. split; [|done]. apply number_printable. eauto.
  - eapply (reads_bind _ _ _ (fun _ l' => l' = l3)).
    { apply reads_if; intros _; [next reads_print; intros _ ? _ ->|]; by apply reads_ret. }
    intros n ? _ ->. apply reads_ret. split; [|done]. apply number_printable. eauto.
Qed.

(** [gettoken] sets EOFFLG at the end of the text; otherwise it makes a token
    of at least one character. *)
Lemma gettoken_total l s :
  input_ok l -> tables_ok s -> EOFFLG s = 0 ->
  exists tok s' l', gettoken (at_input s l) = Ok (tok, at_input s' l') /\ tables_ok s' /\ l' `suffix_of` l /\
    (EOFFLG s' = 1 /\ l' = [] \/ EOFFLG s' = 0 /\ lexed l tok l').
Proof.
  intros Hok Ht H0. unfold gettoken. cbv zeta.
  destruct (reads_skipblanks l Hok s Ht) as (? & l1 & s1 & E1 & T1 & F1 & S1 & _). rewrite (stbind_step _ _ _ _ _ E1).
  pose proof (input_ok_suffix _ _ S1 Hok) as Hok1. pose proof Hok1 as [Hb1 _]. step_peek. rewrite (first_EOF _ Hok1).
  destruct (bool_decide (l1 = [])) eqn:El; cbn [negb].
  - apply bool_decide_eq_true in El as ->. exists talloc, (with_eof 1 s1), []. split_and!; try done. by left.
  - apply bool_decide_eq_false in El.
    assert (Hm : reads (cclass ← CHARCLASS (first l1);
        if cclass =? ALPHA then identifier talloc else if cclass =? NUMERIC then number talloc
        else if first l1 =? 39 then getstring talloc else special talloc) l1 (lexed l1)).
    { destruct l1 as [|c r]; [done|]. rewrite first_cons. intros Hok2 s2 Ht2. apply Forall_cons in Hb1 as [Hc _].
      rewrite (stbind_step _ _ _ _ _ (CHARCLASS_spec c _ Hc)). rewrite numeric_class'. revert s2 Ht2. revert Hok2.
      change (reads (if class_of c =? ALPHA then identifier talloc else if digit c then number talloc
                     else if c =? 39 then getstring talloc else special talloc) (c :: r) (lexed (c :: r))).
      apply reads_if; [intros Hcl; apply reads_identifier; rewrite first_cons; unfold in_word; rewrite <- alnum_class; unfold alnum; by rewrite Hcl|]. intros _.
      apply reads_if; [intros Hdc; apply reads_number; cbn; by rewrite Hdc|]. intros _.
      apply reads_if; intros _; [by apply reads_getstring|by apply reads_special]. }
    destruct (Hm Hok1 s1 T1) as (tok & l2 & s2 & E2 & T2 & F2 & S2 & Hp & Hlt).
    exists tok, s2, l2. split; [exact E2|]. split; [exact T2|]. split; [by etrans|]. right. split; [congruence|].
    split; [done|]. apply suffix_length_le in S1. lia.
Qed.

Lemma scan_total n : forall l toks s,
  (length l + 1 < n)%nat -> input_ok l -> tables_ok s -> EOFFLG s = 0 ->
  exists toks' s', testscanner_loop n toks (at_input s l) = Ok (toks', s') /\ EOFFLG s' = 1 /\ input s' = [].
Proof.
  induction n as [|n IH]; intros l toks s Hn Hok Ht H0; [lia|]. cbn [testscanner_loop].
  erewrite stbind_step by reflexivity. change (EOFFLG (at_input s l)) with (EOFFLG s). rewrite H0. cbn [Z.eqb].
  destruct (gettoken_total l s Hok Ht H0) as (tok & s1 & l1 & E & T1 & S1 & HE). rewrite (stbind_step _ _ _ _ _ E).
  erewrite stbind_step by reflexivity. change (EOFFLG (at_input s1 l1)) with (EOFFLG s1).
  destruct HE as [[HE ->]|[HE [Hp Hlt]]]; rewrite HE; cbn [Z.eqb Pos.eqb].
  - destruct n as [|n]; [lia|]. cbn [testscanner_loop]. erewrite stbind_step by reflexivity.
    change (EOFFLG (at_input s1 [])) with (EOFFLG s1). rewrite HE. cbn [Z.eqb Pos.eqb]. eexists _, _. split; [reflexivity|done].
  - destruct (Hp (at_input s1 l1)) as [o Eo]. rewrite (stbind_step _ _ _ _ _ Eo).
    change (with_out o (at_input s1 l1)) with (at_input (with_out o s1) l1).
    apply IH; [lia|by eapply input_ok_suffix|done|done].
Qed.
End Total.

(** ** Theorems *)

Definition word_in (s : string) : lexeme := match chars s with c :: w => LWord c w | [] => LString [] end.

(** A program text with a comment of each kind, and its lexemes. *)
Definition sample_items : list (lexeme * list (list Z)) :=
  [(word_in "begin", [[32]]); (word_in "x1", [[32]; 123 :: chars "a comment" ++ [125]]);
   (LSpecial ":=" (operator ASSIGNOP), [[32]]); (LInt (chars "2147483647"), [[10]]);
   (LSpecial "<" (operator LTOP), [40 :: 42 :: chars "x*" ++ [42; 41]]); (LString (chars "Don't"), [[32]]);
   (word_in "end", [[9]; [32]])].

Lemma chars_nonzero k : bool_decide (0 ∉ chars k) = true -> 0 ∉ chars k.
Proof. by intros ?%bool_decide_eq_true. Qed.

Lemma sample_items_ok : items_ok sample_items.
Proof.
  assert (H1 : blank [32]) by constructor. assert (H2 : blank [10]) by constructor. assert (H3 : blank [9]) by constructor.
  assert (H4 : blank (123 :: chars "a comment" ++ [125])).
  { apply BBrace; [apply chars_bytes|]. apply (bool_decide_unpack _). vm_compute. exact I. }
  assert (H5 : blank (40 :: 42 :: chars "x*" ++ [42; 41])) by (apply BStar; [apply chars_bytes|done|done]).
  unfold sample_items, items_ok.
  repeat (apply Forall_cons; split; [cbn [fst snd]; split; [|split; [by repeat (apply Forall_cons; split; [done|]); apply Forall_nil|done]]|]);
    [| | | | | | |by apply Forall_nil].
  - split; [done|]. apply (bool_decide_unpack _). vm_compute. exact I.
  - split; [done|]. apply (bool_decide_unpack _). vm_compute. exact I.
  - by apply (list_elem_of_lookup_2 _ 4%nat).
  - split; [done|]. split; [apply (bool_decide_unpack _); vm_compute; exact I|done].
  - by apply (list_elem_of_lookup_2 _ 7%nat).
  - split; [apply chars_bytes|]. by apply chars_nonzero.
  - split; [done|]. apply (bool_decide_unpack _). vm_compute. exact I.
Qed.

(** The state in which [main] calls testscanner. *)
Definition started : lexer := with_out [concat ["Started scanner test."; newline]] (start_lexer []).

Lemma main_start l : main (start_lexer l) = testscanner (at_input started l).
Proof. done. Qed.

Lemma started_tables : tables_ok started.
Proof. done. Qed.



(** C37. The scanner reads every text to its end and returns, whatever bytes it
    holds, provided that no more than 98 digits follow one another (with more,
    the tables of powers of ten are indexed out of bounds) and that the text
    does not end with a letter, a digit or a point (after which the class of EOF
    may be looked up, in front of the table): then no loop runs forever, and no
    buffer or table is accessed outside. *)
Theorem scanner_total l : input_ok l -> exists toks o, run_main l = Ok (toks, o).
Proof.
  intros Hl. unfold run_main. rewrite main_start. unfold testscanner. step_fuel.
  destruct (scan_total (S (S (length l))) l [] started ltac:(lia) Hl started_tables eq_refl) as (t & s' & E & _).
  rewrite E. by eexists _, _.
Qed.

Lemma scanner_total_witness :
  input_ok (chars "(* open ") /\ exists toks o, run_main (chars "(* open ") = Ok (toks, o).
Proof.
  assert (H : input_ok (chars "(* open ")).
  { split; [apply chars_bytes|]. split; [intros l' Hl'; pose proof (leading_digits_le l'); apply suffix_length_le in Hl'; cbn in Hl'; lia|].
    intros c Hc. injection Hc as <-. split; [reflexivity|discriminate]. }
  split; [exact H|]. exact (scanner_total (chars "(* open ") H).
Defined.

(** A word, or a point after a number, at the end of the text. *)
Example word_at_end : run_main (chars "end") = Err EFault /\ run_main (chars "1.") = Err EFault.
Proof. split; vm_compute; reflexivity. Qed.

(** [number] on the digits of an integer: the token has its value, when
    this is at most 2147483647; otherwise it is 0 and the message is printed.
    The test on the number of significant digits makes this hold although the
    value itself is kept in a [long] that overflows. *)
Theorem number_integer_correct ds rest s tok :
  all_digits ds -> dec_value ds < 10 ^ 100 -> Forall is_byte rest -> number_end rest -> tables_ok s ->
  number tok (at_input s (ds ++ rest)) =
    Ok (int_token (dec_value ds), at_input (after_int (dec_value ds) (with_tables s)) rest).
Proof. intros H1 H2 H3 H4 H5. by apply number_int_spec. Qed.

Lemma number_integer_correct_witness :
  exists s', number talloc (at_input (start_lexer []) (chars "99999999999999999999" ++ [59])) =
             Ok (MkToken NUMBERTOK INTEGER (VInt 0), s') /\ out s' = [range_message].
Proof.
  eexists. split.
  - apply (number_integer_correct (chars "99999999999999999999") [59] (start_lexer []) talloc).
    + apply (bool_decide_unpack _). vm_compute. exact I.
    + vm_compute. reflexivity.
    + bytes.
    + repeat split; discriminate.
    + done.
  - vm_compute. reflexivity.
Defined.

(** Reserved words are lexed but never printed: [createReserved] subtracts
    the bias from the kind of the token instead of from the number of the word,
    so that printtoken does not recognise the kind and prints nothing. *)
Theorem reserved_not_printed n tok s :
  tokentype (createReserved n tok) <> RESERVED /\ printtoken (createReserved n tok) s = Ok (tt, s).
Proof. split; [done|apply reserved_prints_nothing]. Qed.

(** A parenthesis-star comment whose second character is a closing
    parenthesis ends there: the loop of skipblanks compares the opening star
    with the second character of the comment. *)
Theorem comment_closes_early s :
  skipblanks (at_input s (chars "(*1) x *)")) = Ok (tt, at_input s (chars "x *)")) /\
  exists o, run_main (chars "(*1) x *) ") =
    Ok ([word_token (chars "x") talloc; createOperator TIMESOP talloc; createDelimiter RPAREN talloc], o).
Proof. split; [reflexivity|]. eexists. vm_compute. reflexivity. Qed.
