(* ===== verification/Vm.v ===== *)
(** Memory: virtual addresses and page table entries (threads/vaddr.h,
    threads/pte.h), page directories (userprog/pagedir.c), the page allocator
    (threads/old_palloc.c and its wrapper threads/palloc.c) and the frame table
    (vm/frame.c).

    Physical memory is a map from the kernel virtual address of each page to its
    1024 words.  Addresses are 32 bits wide.  The pools' locks are not
    represented: the operations run one at a time here (mutual exclusion is the
    subject of Synch).  A pool's bitmap lies in the pages at the base of the
    pool, which the pool never hands out; it is kept beside the memory.

    The processor translates through the page directory that CR3 holds; a store
    through a page that is not present or, CR0.WP being set, not writable
    faults.  The TLB is not modelled. *)

From stdpp Require Import base list numbers gmap.
From Stdlib Require Import ZArith Lia.
From S2P Require Import Prelude Bitmap.

(** ** threads/vaddr.h, threads/pte.h *)

Definition PGBITS : Z := 12.
Definition PGSIZE : Z := Z.shiftl 1 PGBITS.
Definition BITMASK (shift cnt : Z) : Z := Z.shiftl (Z.shiftl 1 cnt - 1) shift.
Definition PGMASK : Z := BITMASK 0 PGBITS.
Definition PHYS_BASE : Z := 0xc0000000.

Definition pg_ofs (va : Z) : Z := Z.land va PGMASK.
Definition pg_no (va : Z) : Z := Z.shiftr va PGBITS.
Definition pg_round_up (va : Z) : Z := Z.land (u32 (va + PGSIZE - 1)) (u32 (Z.lnot PGMASK)).
Definition pg_round_down (va : Z) : Z := Z.land va (u32 (Z.lnot PGMASK)).
Definition is_user_vaddr (va : Z) : bool := va <? PHYS_BASE.
Definition is_kernel_vaddr (va : Z) : bool := PHYS_BASE <=? va.

Definition ptov (paddr : Z) : res Z :=
  ASSERT (paddr <? PHYS_BASE);;
  mret (u32 (paddr + PHYS_BASE)).
Definition vtop (va : Z) : res Z :=
  ASSERT (is_kernel_vaddr va);;
  mret (va - PHYS_BASE).

Definition PTSHIFT : Z := PGBITS.
Definition PTBITS : Z := 10.
Definition PTMASK : Z := BITMASK PTSHIFT PTBITS.
Definition PDSHIFT : Z := PTSHIFT + PTBITS.
Definition pt_no (va : Z) : Z := Z.shiftr (Z.land va PTMASK) PTSHIFT.
Definition pd_no (va : Z) : Z := Z.shiftr va PDSHIFT.

Definition PTE_ADDR : Z := 0xfffff000.
Definition PTE_P : Z := 0x1.
Definition PTE_W : Z := 0x2.
Definition PTE_U : Z := 0x4.
Definition PTE_A : Z := 0x20.
Definition PTE_D : Z := 0x40.

Definition has (pte flag : Z) : bool := negb (Z.land pte flag =? 0).

Definition pde_create (pt : Z) : res Z :=
  ASSERT (pg_ofs pt =? 0);;
  p ← vtop pt;
  mret (Z.lor (Z.lor (Z.lor p PTE_U) PTE_P) PTE_W).
Definition pde_get_pt (pde : Z) : res Z :=
  ASSERT (has pde PTE_P);;
  ptov (Z.land pde PTE_ADDR).
Definition pte_create_kernel (page : Z) (writable : bool) : res Z :=
  ASSERT (pg_ofs page =? 0);;
  p ← vtop page;
  mret (Z.lor (Z.lor p PTE_P) (if writable then PTE_W else 0)).
Definition pte_create_user (page : Z) (writable : bool) : res Z :=
  pte ← pte_create_kernel page writable;
  mret (Z.lor pte PTE_U).
Definition pte_get_page (pte : Z) : res Z := ptov (Z.land pte PTE_ADDR).

(** ** State *)

Record pool := MkPool { used_map : bitmap; base : Z }.

Record frame_entry := MkFrame {
  pid : Z; page_num : Z; reference : bool; dirty : bool; resident : bool; kpage : Z
}.

Record vm := MkVm {
  pages : gmap Z (list Z);
  kernel_pool : pool;
  user_pool : pool;
  frame_pool : pool;
  frames : list frame_entry;
  init_page_dir : Z;
  init_ram_pages : Z;
  cr3 : Z;           (* physical address of the active page directory *)
  cur_tid : Z;       (* the running thread's tid and pagedir *)
  cur_pagedir : Z
}.

#[local] Abbreviation V := (stM vm).

Definition upd_pages (f : gmap Z (list Z) -> gmap Z (list Z)) (m : vm) : vm :=
  MkVm (f (pages m)) (kernel_pool m) (user_pool m) (frame_pool m) (frames m) (init_page_dir m) (init_ram_pages m)
    (cr3 m) (cur_tid m) (cur_pagedir m).
Definition set_kernel_pool (p : pool) (m : vm) : vm :=
  MkVm (pages m) p (user_pool m) (frame_pool m) (frames m) (init_page_dir m) (init_ram_pages m)
    (cr3 m) (cur_tid m) (cur_pagedir m).
Definition set_user_pool (p : pool) (m : vm) : vm :=
  MkVm (pages m) (kernel_pool m) p (frame_pool m) (frames m) (init_page_dir m) (init_ram_pages m)
    (cr3 m) (cur_tid m) (cur_pagedir m).
Definition set_frame_pool (p : pool) (m : vm) : vm :=
  MkVm (pages m) (kernel_pool m) (user_pool m) p (frames m) (init_page_dir m) (init_ram_pages m)
    (cr3 m) (cur_tid m) (cur_pagedir m).
Definition set_frames (f : list frame_entry) (m : vm) : vm :=
  MkVm (pages m) (kernel_pool m) (user_pool m) (frame_pool m) f (init_page_dir m) (init_ram_pages m)
    (cr3 m) (cur_tid m) (cur_pagedir m).
Definition set_init_page_dir (p : Z) (m : vm) : vm :=
  MkVm (pages m) (kernel_pool m) (user_pool m) (frame_pool m) (frames m) p (init_ram_pages m)
    (cr3 m) (cur_tid m) (cur_pagedir m).
Definition set_current (t pd : Z) (m : vm) : vm :=
  MkVm (pages m) (kernel_pool m) (user_pool m) (frame_pool m) (frames m) (init_page_dir m) (init_ram_pages m)
    (cr3 m) t pd.
Definition set_cr3 (p : Z) (m : vm) : vm :=
  MkVm (pages m) (kernel_pool m) (user_pool m) (frame_pool m) (frames m) (init_page_dir m) (init_ram_pages m)
    p (cur_tid m) (cur_pagedir m).

(** A word of memory at a kernel virtual address. *)
Definition load_word (a : Z) : V Z := fun m =>
  match pages m !! pg_round_down a with
  | Some w => match w !! Z.to_nat (pg_ofs a / 4) with Some x => Ok (x, m) | None => Err EFault end
  | None => Err EFault
  end.
Definition store_word (a x : Z) : V unit := fun m =>
  match pages m !! pg_round_down a with
  | Some w => Ok (tt, upd_pages (<[pg_round_down a := <[Z.to_nat (pg_ofs a / 4) := x]> w]>) m)
  | None => Err EFault
  end.

(** memset of [cnt] whole pages; each word becomes [x]. *)
Fixpoint fill_pages (cnt : nat) (a x : Z) : V unit :=
  match cnt with
  | O => mret tt
  | S cnt =>
      m ← get;
      match pages m !! a with
      | Some _ => modify (upd_pages (<[a := replicate 1024 x]>));; fill_pages cnt (a + PGSIZE) x
      | None => raise EFault
      end
  end.

(** ** threads/old_palloc.c *)

Definition PAL_ASSERT : Z := 1.
Definition PAL_ZERO : Z := 2.
Definition PAL_USER : Z := 4.

Definition div_round_up (x step : Z) : Z := (x + step - 1) / step.

(** [block] is what the memory at [base] holds, as words. *)
Definition init_pool (base page_cnt : Z) (block : list Z) : res pool :=
  let bm_pages := div_round_up (bitmap_buf_size page_cnt) PGSIZE in
  if page_cnt <? bm_pages then Err EPanic
  else
    b ← bitmap_create_in_buf (page_cnt - bm_pages) block (bm_pages * PGSIZE);
    mret (MkPool b (base + bm_pages * PGSIZE)).

Definition page_from_pool (p : pool) (page : Z) : bool :=
  let page_no := pg_no page in
  let start_page := pg_no (base p) in
  let end_page := start_page + bitmap_size (used_map p) in
  (start_page <=? page_no) && (page_no <? end_page).

(** The words of memory from page [a] on, [cnt] pages of them. *)
Fixpoint page_words (cnt : nat) (a : Z) (m : vm) : list Z :=
  match cnt with O => [] | S cnt => default [] (pages m !! a) ++ page_words cnt (a + PGSIZE) m end.

Definition old_palloc_init (user_page_limit : Z) : V Z :=
  m ← get;
  free_start ← lift (ptov (1024 * 1024));
  free_end ← lift (ptov (init_ram_pages m * PGSIZE));
  let free_pages := (free_end - free_start) / PGSIZE in
  let user_pages := free_pages / 2 in
  let user_pages := if user_page_limit <? user_pages then user_page_limit else user_pages in
  let kernel_pages := free_pages - user_pages in
  kp ← lift (init_pool free_start kernel_pages (page_words (Z.to_nat kernel_pages) free_start m));
  up ← lift (init_pool (free_start + kernel_pages * PGSIZE) user_pages
               (page_words (Z.to_nat user_pages) (free_start + kernel_pages * PGSIZE) m));
  modify (set_kernel_pool kp);;
  modify (set_user_pool up);;
  mret user_pages.

(** NULL is 0. *)
Definition old_palloc_get_multiple (flags page_cnt : Z) : V Z :=
  if page_cnt =? 0 then mret 0
  else
    m ← get;
    let user := has flags PAL_USER in
    let p := if user then user_pool m else kernel_pool m in
    r ← lift (bitmap_scan_and_flip (used_map p) 0 page_cnt false);
    let '(page_idx, b) := r in
    modify ((if user then set_user_pool else set_kernel_pool) (MkPool b (base p)));;
    let a := if negb (page_idx =? BITMAP_ERROR) then base p + PGSIZE * page_idx else 0 in
    if negb (a =? 0) then
      (if has flags PAL_ZERO then fill_pages (Z.to_nat page_cnt) a 0 else mret tt);;
      mret a
    else if has flags PAL_ASSERT then raise EPanic
    else mret 0.

Definition old_palloc_free_multiple (a page_cnt : Z) : V unit :=
  assertM (pg_ofs a =? 0);;
  if (a =? 0) || (page_cnt =? 0) then mret tt
  else
    m ← get;
    sel ← (if page_from_pool (kernel_pool m) a then mret false
           else if page_from_pool (user_pool m) a then mret true
           else raise EPanic);
    let p := if sel : bool then user_pool m else kernel_pool m in
    let page_idx := pg_no a - pg_no (base p) in
    fill_pages (Z.to_nat page_cnt) a 0xcccccccc;;
    all ← lift (bitmap_all (used_map p) page_idx page_cnt);
    assertM all;;
    b ← lift (bitmap_set_multiple (used_map p) page_idx page_cnt false);
    modify ((if sel : bool then set_user_pool else set_kernel_pool) (MkPool b (base p))).

(** ** threads/palloc.c, kernel pages *)

Definition palloc_get_multiple (flags page_cnt : Z) : V Z :=
  assertM (negb (has flags PAL_USER));;
  old_palloc_get_multiple flags page_cnt.
Definition palloc_get_page (flags : Z) : V Z := old_palloc_get_multiple flags 1.
Definition palloc_free_multiple (a page_cnt : Z) : V unit := old_palloc_free_multiple a page_cnt.
Definition palloc_free_page (a : Z) : V unit := old_palloc_free_multiple a 1.

(** ** threads/init.c, paging_init *)

(** [text_start] and [text_end] are the addresses of the linker symbols
    [_start] and [_end_kernel_text]. *)
Fixpoint paging_init_loop (k : nat) (page pd pt text_start text_end : Z) : V unit :=
  match k with
  | O => mret tt
  | S k =>
      let paddr := u32 (page * PGSIZE) in
      vaddr ← lift (ptov paddr);
      let pde := pd + 4 * pd_no vaddr in
      let in_kernel_text := (text_start <=? vaddr) && (vaddr <? text_end) in
      x ← load_word pde;
      pt ← (if x =? 0 then
              pt ← palloc_get_page (Z.lor PAL_ASSERT PAL_ZERO);
              e ← lift (pde_create pt);
              store_word pde e;;
              mret pt
            else mret pt);
      e ← lift (pte_create_kernel vaddr (negb in_kernel_text));
      store_word (pt + 4 * pt_no vaddr) e;;
      paging_init_loop k (page + 1) pd pt text_start text_end
  end.

Definition paging_init (text_start text_end : Z) : V unit :=
  pd ← palloc_get_page (Z.lor PAL_ASSERT PAL_ZERO);
  modify (set_init_page_dir pd);;
  m ← get;
  paging_init_loop (Z.to_nat (init_ram_pages m)) 0 pd 0 text_start text_end;;
  p ← lift (vtop pd);
  modify (set_cr3 p).

(** ** userprog/pagedir.c *)

Definition pagedir_create : V Z :=
  pd ← palloc_get_page 0;
  if negb (pd =? 0) then
    m ← get;
    match pages m !! init_page_dir m, pages m !! pd with
    | Some w, Some _ => modify (upd_pages (<[pd := w]>));; mret pd
    | _, _ => raise EFault
    end
  else mret pd.

Definition pagedir_destroy (pd : Z) : V unit :=
  if pd =? 0 then mret tt
  else
    m ← get;
    assertM (negb (pd =? init_page_dir m));;
    palloc_free_page pd.

(** The address of the page table entry, 0 for NULL. *)
Definition lookup_page (pd vaddr : Z) (create : bool) : V Z :=
  assertM (negb (pd =? 0));;
  assertM (negb create || is_user_vaddr vaddr);;
  let pde := pd + 4 * pd_no vaddr in
  x ← load_word pde;
  ok ← (if x =? 0 then
          if create then
            pt ← palloc_get_page PAL_ZERO;
            if pt =? 0 then mret false
            else
              e ← lift (pde_create pt);
              store_word pde e;;
              mret true
          else mret false
        else mret true);
  if ok : bool then
    x ← load_word pde;
    pt ← lift (pde_get_pt x);
    mret (pt + 4 * pt_no vaddr)
  else mret 0.

Definition pagedir_set_page (pd upage kp : Z) (writable : bool) : V bool :=
  assertM (pg_ofs upage =? 0);;
  assertM (pg_ofs kp =? 0);;
  assertM (is_user_vaddr upage);;
  p ← lift (vtop kp);
  m ← get;
  assertM (Z.shiftr p PTSHIFT <? init_ram_pages m);;
  assertM (negb (pd =? init_page_dir m));;
  pte ← lookup_page pd upage true;
  if negb (pte =? 0) then
    x ← load_word pte;
    assertM (negb (has x PTE_P));;
    e ← lift (pte_create_user kp writable);
    store_word pte e;;
    mret true
  else mret false.

Definition pagedir_get_page (pd uaddr : Z) : V Z :=
  assertM (is_user_vaddr uaddr);;
  pte ← lookup_page pd uaddr false;
  if negb (pte =? 0) then
    x ← load_word pte;
    if has x PTE_P then
      p ← lift (pte_get_page x);
      mret (p + pg_ofs uaddr)
    else mret 0
  else mret 0.

Definition pagedir_activate (pd : Z) : V unit :=
  m ← get;
  p ← lift (vtop (if pd =? 0 then init_page_dir m else pd));
  modify (set_cr3 p).

Definition active_pd : V Z := m ← get; lift (ptov (cr3 m)).

Definition invalidate_pagedir (pd : Z) : V unit :=
  a ← active_pd;
  if a =? pd then pagedir_activate pd else mret tt.

Definition clear_flag (x flag : Z) : Z := Z.land x (u32 (Z.lnot flag)).

Definition pagedir_clear_page (pd upage : Z) : V unit :=
  assertM (pg_ofs upage =? 0);;
  assertM (is_user_vaddr upage);;
  pte ← lookup_page pd upage false;
  if negb (pte =? 0) then
    x ← load_word pte;
    if has x PTE_P then
      store_word pte (clear_flag x PTE_P);;
      invalidate_pagedir pd
    else mret tt
  else mret tt.

Definition pagedir_test (flag pd vpage : Z) : V bool :=
  pte ← lookup_page pd vpage false;
  if negb (pte =? 0) then x ← load_word pte; mret (has x flag) else mret false.
Definition pagedir_update (flag pd vpage : Z) (value : bool) : V unit :=
  pte ← lookup_page pd vpage false;
  if negb (pte =? 0) then
    x ← load_word pte;
    if value then store_word pte (Z.lor x flag)
    else store_word pte (clear_flag x flag);; invalidate_pagedir pd
  else mret tt.

Definition pagedir_is_dirty (pd vpage : Z) : V bool := pagedir_test PTE_D pd vpage.
Definition pagedir_set_dirty (pd vpage : Z) (d : bool) : V unit := pagedir_update PTE_D pd vpage d.
Definition pagedir_is_accessed (pd vpage : Z) : V bool := pagedir_test PTE_A pd vpage.
Definition pagedir_set_accessed (pd vpage : Z) (a : bool) : V unit := pagedir_update PTE_A pd vpage a.

(** ** vm/frame.c and threads/palloc.c, user pages *)

(** malloc (threads/malloc.c) as palloc_init meets it: malloc_init has not run,
    so desc_cnt is 0, no descriptor satisfies any request, and every block is a
    number of whole pages after the header of an arena. *)
Definition early_malloc (size : Z) : V Z :=
  if size =? 0 then mret 0
  else
    let page_cnt := div_round_up (u32 (size + 12)) PGSIZE in
    a ← palloc_get_multiple 0 page_cnt;
    if a =? 0 then mret 0
    else store_word a 0x9a548eed;; store_word (a + 4) 0;; store_word (a + 8) page_cnt;; mret (a + 12).

(** The result of malloc is not checked.  The array is the field [frames]; its
    bytes are not words of the pages that malloc takes for it. *)
Definition sizeof_frame_entry : Z := 16.
Definition frame_table_init (num_frames : Z) : V unit :=
  b ← old_palloc_get_multiple (Z.lor (Z.lor PAL_USER PAL_ZERO) PAL_ASSERT) num_frames;
  m ← get;
  p ← lift (init_pool b num_frames (page_words (Z.to_nat num_frames) b m));
  modify (set_frame_pool p);;
  array ← early_malloc (u32 (sizeof_frame_entry * num_frames));
  if (array =? 0) && (0 <? num_frames) then raise EFault
  else
    modify (set_frames ((fun i => MkFrame (-1) (-1) false false false (base p + i * PGSIZE)) <$> seqZ 0 num_frames)).

(** The order of the supplemental page table.  [pa] and [pb] are pointers to
    page entries, 0 for NULL; the function returns one of the pointers, which
    its result type turns into true or false. *)
Definition less (tid p_num : Z -> Z) (pa pb : Z) : bool :=
  let p :=
    if tid pa =? tid pb then if p_num pa <? p_num pb then pa else pb
    else if tid pa <? tid pb then pa
    else pb in
  negb (p =? 0).

Definition palloc_init (user_page_limit : Z) : V unit :=
  num_user_pages ← old_palloc_init user_page_limit;
  let bm_pages := div_round_up (bitmap_buf_size num_user_pages) PGSIZE in
  frame_table_init (num_user_pages - bm_pages).

Definition install_page (upage kp : Z) (writable : bool) : V bool :=
  m ← get;
  x ← pagedir_get_page (cur_pagedir m) upage;
  let isnull := x =? 0 in
  if isnull then pagedir_set_page (cur_pagedir m) upage kp writable else mret false.

(** memset of a page at a user virtual address, through the active page
    directory. *)
Definition zero_user_page (upage : Z) : V unit :=
  pd ← active_pd;
  pte ← lookup_page pd upage false;
  if pte =? 0 then raise EFault
  else
    x ← load_word pte;
    if has x PTE_P && has x PTE_W then p ← lift (pte_get_page x); fill_pages 1 p 0
    else raise EFault.

Definition palloc_page (flags upage : Z) (writable : bool) : V Z :=
  if negb (has flags PAL_USER) then raise EPanic
  else
    m ← get;
    let p := frame_pool m in
    r ← lift (bitmap_scan_and_flip (used_map p) 0 1 false);
    let '(page_idx, b) := r in
    modify (set_frame_pool (MkPool b (base p)));;
    (* page_idx is not compared with BITMAP_ERROR *)
    f ← lift (of_option EFault (frames m !! Z.to_nat page_idx));
    modify (set_frames (<[Z.to_nat page_idx := MkFrame (cur_tid m) (pg_no upage) true false true (kpage f)]> (frames m)));;
    success ← install_page upage (kpage f) writable;
    if negb success then if has flags PAL_ASSERT then raise EPanic else mret 0
    else
      (if has flags PAL_ZERO then zero_user_page upage else mret tt);;
      mret (kpage f).

Fixpoint palloc_multiple_loop (k : nat) (i flags upage : Z) (writable : bool) : V bool :=
  match k with
  | O => mret true
  | S k =>
      r ← palloc_page flags (upage + i * PGSIZE) writable;
      if r =? 0 then mret false else palloc_multiple_loop k (i + 1) flags upage writable
  end.
Definition palloc_multiple (flags page_cnt upage : Z) (writable : bool) : V bool :=
  if negb (has flags PAL_USER) then raise EPanic
  else if page_cnt =? 0 then mret false
  else
    success ← palloc_multiple_loop (Z.to_nat page_cnt) 0 flags upage writable;
    if negb success && has flags PAL_ASSERT then raise EPanic else mret success.

(** The code frees the address of the page table entry; its comment says that
    the function is not correct. *)
Fixpoint palloc_free_umultiple_loop (k : nat) (i a : Z) : V unit :=
  match k with
  | O => mret tt
  | S k =>
      m ← get;
      kp ← lookup_page (cur_pagedir m) (a + i * PGSIZE) false;
      palloc_free_page kp;;
      palloc_free_umultiple_loop k (i + 1) a
  end.
Definition palloc_free_umultiple (a page_cnt : Z) : V unit := palloc_free_umultiple_loop (Z.to_nat page_cnt) 0 a.
Definition palloc_free_upage (a : Z) : V unit := palloc_free_umultiple a 1.

(** ** Addresses as numbers *)

Lemma pg_ofs_eq va : pg_ofs va = va mod 4096.
Proof. unfold pg_ofs. change PGMASK with (Z.ones 12). by rewrite Z.land_ones by lia. Qed.

Lemma pg_no_eq va : pg_no va = va / 4096.
Proof. unfold pg_no, PGBITS. by rewrite Z.shiftr_div_pow2 by lia. Qed.

Lemma pd_no_eq va : pd_no va = va / 2 ^ 22.
Proof. unfold pd_no. change PDSHIFT with 22. by rewrite Z.shiftr_div_pow2 by lia. Qed.

Lemma pt_no_eq va : pt_no va = (va / 4096) mod 1024.
Proof.
  unfold pt_no. change PTSHIFT with 12. rewrite Z.shiftr_land. change (Z.shiftr PTMASK 12) with (Z.ones 10).
  by rewrite Z.land_ones, Z.shiftr_div_pow2 by lia.
Qed.

Lemma land_page x : is_u32 x -> Z.land x PTE_ADDR = x - x mod 4096.
Proof.
  intros Hx. assert (Z.land x PTE_ADDR = Z.ldiff x (Z.ones 12)) as ->.
  { apply Z.bits_inj'. intros n Hn. rewrite Z.land_spec, Z.ldiff_spec. destruct (Z.lt_ge_cases n 32) as [Hlt|Hge].
    - f_equal. change PTE_ADDR with ((Z.lnot (Z.ones 12)) mod 2 ^ 32). rewrite Z.mod_pow2_bits_low by lia. by rewrite Z.lnot_spec.
    - by rewrite testbit_u32_high. }
  rewrite Z.ldiff_ones_r, Z.shiftr_div_pow2, Z.shiftl_mul_pow2 by lia. change (2 ^ 12) with 4096.
  pose proof (Z.div_mod x 4096 ltac:(lia)). lia.
Qed.

Lemma pg_round_down_eq x : is_u32 x -> pg_round_down x = x - x mod 4096.
Proof. intros Hx. change (pg_round_down x) with (Z.land x PTE_ADDR). by apply land_page. Qed.

Lemma land_low p f : p mod 4096 = 0 -> 0 <= f < 4096 -> Z.land p f = 0.
Proof.
  intros Hm Hf. apply Z.bits_inj'. intros n Hn. rewrite Z.land_spec, Z.bits_0. destruct (Z.lt_ge_cases n 12).
  - rewrite <- (Z.mod_pow2_bits_low p 12 n) by lia. change (2 ^ 12) with 4096. by rewrite Hm, Z.bits_0.
  - replace f with (f mod 2 ^ 12) by (apply Z.mod_small; lia). rewrite Z.mod_pow2_bits_high by lia. by rewrite andb_false_r.
Qed.

Lemma lor_low p f : p mod 4096 = 0 -> 0 <= f < 4096 -> Z.lor p f = p + f.
Proof.
  intros Hm Hf. rewrite <- Z.lxor_lor by (by apply land_low). rewrite Z.add_nocarry_lxor; [done|by apply land_low].
Qed.

Lemma has_P x : has x PTE_P = negb (x mod 2 =? 0).
Proof. unfold has. change PTE_P with (Z.ones 1). by rewrite Z.land_ones by lia. Qed.

(** A page of kernel memory. *)
Definition kpage_ok (a : Z) : Prop := PHYS_BASE <= a < 2 ^ 32 /\ a mod 4096 = 0.

(** The entry that points to page [a], with low bits [f]. *)
Definition entry (a f : Z) : Z := a - PHYS_BASE + f.

Lemma kpage_sub a : kpage_ok a -> 0 <= a - PHYS_BASE < 2 ^ 30 /\ (a - PHYS_BASE) mod 4096 = 0.
Proof. unfold kpage_ok, PHYS_BASE. intros [H1 H2]. split; [lia|]. Z.to_euclidean_division_equations. lia. Qed.

Lemma vtop_Ok a : kpage_ok a -> vtop a = Ok (a - PHYS_BASE).
Proof. intros [H _]. unfold vtop, is_kernel_vaddr. by rewrite (proj2 (Z.leb_le _ _)) by lia. Qed.

Lemma pde_create_Ok pt : kpage_ok pt -> pde_create pt = Ok (entry pt 7).
Proof.
  intros H. pose proof (kpage_sub pt H) as [Hr Hm]. unfold pde_create. rewrite pg_ofs_eq, (proj2 H). cbn [Z.eqb ASSERT mbind res_bind].
  rewrite vtop_Ok by done. cbn [mbind res_bind]. unfold mret, res_ret. rewrite <- !Z.lor_assoc.
  change (Z.lor PTE_U (Z.lor PTE_P PTE_W)) with 7. by rewrite lor_low by (done || lia).
Qed.

Lemma pte_create_Ok a (w : bool) : kpage_ok a -> pte_create_user a w = Ok (entry a (if w then 7 else 5)).
Proof.
  intros H. pose proof (kpage_sub a H) as [Hr Hm]. unfold pte_create_user, pte_create_kernel.
  rewrite pg_ofs_eq, (proj2 H). cbn [Z.eqb ASSERT mbind res_bind]. rewrite vtop_Ok by done. cbn [mbind res_bind].
  unfold mret, res_ret. cbn [mbind res_bind]. rewrite <- !Z.lor_assoc.
  assert (Z.lor PTE_P (Z.lor (if w then PTE_W else 0) PTE_U) = if w then 7 else 5) as -> by (by destruct w).
  rewrite lor_low; [done|done|destruct w; lia].
Qed.

Lemma entry_page a f : kpage_ok a -> 0 <= f < 4096 -> Z.land (entry a f) PTE_ADDR = a - PHYS_BASE.
Proof.
  intros H Hf. pose proof (kpage_sub a H) as [Hr Hm]. unfold entry. rewrite land_page by (unfold is_u32; lia).
  Z.to_euclidean_division_equations. lia.
Qed.

Lemma entry_ptov a f : kpage_ok a -> 0 <= f < 4096 -> pte_get_page (entry a f) = Ok a.
Proof.
  intros H Hf. unfold pte_get_page. rewrite entry_page by done. unfold ptov. destruct H as [H _].
  rewrite (proj2 (Z.ltb_lt _ _)) by (unfold PHYS_BASE in *; lia). cbn [ASSERT mbind res_bind]. unfold mret, res_ret.
  rewrite Z.sub_add, u32_small by (unfold is_u32, PHYS_BASE in *; lia). done.
Qed.

Lemma entry_P a f : kpage_ok a -> has (entry a f) PTE_P = negb (f mod 2 =? 0).
Proof.
  intros H. pose proof (kpage_sub a H) as [Hr Hm]. rewrite has_P. unfold entry.
  assert ((a - PHYS_BASE + f) mod 2 = f mod 2) as ->; [|done]. Z.to_euclidean_division_equations. lia.
Qed.

Lemma entry_flag a f g : kpage_ok a -> 0 <= f < 4096 -> 0 <= g < 4096 -> has (entry a f) g = has f g.
Proof.
  intros H Hf Hg. pose proof (kpage_sub a H) as [Hr Hm]. unfold has, entry. rewrite <- lor_low by done.
  by rewrite Z.land_lor_distr_l, (land_low _ g) by done.
Qed.

Lemma pde_get_pt_Ok pt : kpage_ok pt -> pde_get_pt (entry pt 7) = Ok pt.
Proof.
  intros H. unfold pde_get_pt. rewrite entry_P by done. cbn [Z.eqb negb ASSERT mbind res_bind].
  by apply (entry_ptov pt 7).
Qed.

(** A user virtual address is a directory index, a table index and an offset. *)
Lemma user_index va : 0 <= va < PHYS_BASE -> 0 <= pd_no va < 768 /\ 0 <= pt_no va < 1024.
Proof. intros H. rewrite pd_no_eq, pt_no_eq. unfold PHYS_BASE in H. Z.to_euclidean_division_equations. lia. Qed.

Lemma same_page va va' :
  0 <= va < PHYS_BASE -> 0 <= va' < PHYS_BASE -> pd_no va = pd_no va' -> pt_no va = pt_no va' -> va / 4096 = va' / 4096.
Proof. intros H H'. rewrite !pd_no_eq, !pt_no_eq. unfold PHYS_BASE in *. Z.to_euclidean_division_equations. lia. Qed.

Lemma page_index va va' :
  0 <= va < PHYS_BASE -> 0 <= va' < PHYS_BASE -> va / 4096 = va' / 4096 -> pd_no va = pd_no va' /\ pt_no va = pt_no va'.
Proof. intros H H'. rewrite !pd_no_eq, !pt_no_eq. unfold PHYS_BASE in *. Z.to_euclidean_division_equations. lia. Qed.

(** The address of entry [i] of the page [a]. *)
Lemma entry_address a i : kpage_ok a -> 0 <= i < 1024 -> pg_round_down (a + 4 * i) = a /\ pg_ofs (a + 4 * i) / 4 = i.
Proof.
  intros [H1 H2] Hi. assert ((a + 4 * i) mod 4096 = 4 * i) as Hm by (Z.to_euclidean_division_equations; lia).
  split.
  - assert (a + 4 * i < 2 ^ 32) by (change (2 ^ 32) with (1048576 * 4096) in *; Z.to_euclidean_division_equations; lia).
    rewrite pg_round_down_eq by (unfold is_u32, PHYS_BASE in *; lia). lia.
  - rewrite pg_ofs_eq, Hm. rewrite Z.mul_comm. apply Z.div_mul. lia.
Qed.

(** ** Words of memory *)

Definition word (m : vm) (a i : Z) : option Z := pages m !! a ≫= (.!! Z.to_nat i).

Definition full_page (m : vm) (a : Z) : Prop := exists w, pages m !! a = Some w /\ length w = 1024%nat.

Lemma full_word m a i : full_page m a -> 0 <= i < 1024 -> exists x, word m a i = Some x.
Proof.
  intros (w & Hw & Hl) Hi. unfold word. rewrite Hw. cbn. apply lookup_lt_is_Some_2. lia.
Qed.

Lemma load_entry m a i x : kpage_ok a -> 0 <= i < 1024 -> word m a i = Some x -> load_word (a + 4 * i) m = Ok (x, m).
Proof.
  intros Ha Hi Hx. unfold load_word. destruct (entry_address a i Ha Hi) as [-> ->]. unfold word in Hx.
  destruct (pages m !! a) as [w|]; [|done]. cbn in Hx. by rewrite Hx.
Qed.

Definition put_word (m : vm) (a i x : Z) : vm := upd_pages (alter (<[Z.to_nat i := x]>) a) m.

Lemma store_entry m a i x : kpage_ok a -> 0 <= i < 1024 -> full_page m a ->
  store_word (a + 4 * i) x m = Ok (tt, put_word m a i x).
Proof.
  intros Ha Hi (w & Hw & _). unfold store_word, put_word. destruct (entry_address a i Ha Hi) as [-> ->]. rewrite Hw.
  do 2 f_equal. unfold upd_pages. f_equal. symmetry. by apply alter_alt_Some.
Qed.

Lemma put_word_full m a i x b : full_page (put_word m a i x) b <-> full_page m b.
Proof.
  unfold full_page, put_word. cbn. destruct (decide (a = b)) as [->|Hne].
  - rewrite lookup_alter_eq. destruct (pages m !! b) as [w|]; cbn.
    + split; intros (w' & [= <-] & Hl); eexists; (split; [done|]); by rewrite length_insert in *.
    + split; intros (w' & H & _); done.
  - by rewrite lookup_alter_ne.
Qed.

Lemma word_put m a i x b j :
  full_page m a -> 0 <= i < 1024 -> 0 <= j ->
  word (put_word m a i x) b j = if bool_decide (a = b /\ i = j) then Some x else word m b j.
Proof.
  intros (w & Hw & Hl) Hi Hj. unfold word, put_word. cbn. destruct (decide (a = b)) as [<-|Hne].
  - rewrite lookup_alter_eq, Hw. cbn. destruct (decide (i = j)) as [<-|Hne].
    + rewrite bool_decide_true by done. apply list_lookup_insert_eq. lia.
    + rewrite bool_decide_false by naive_solver. apply list_lookup_insert_ne. lia.
  - rewrite lookup_alter_ne by done. by rewrite bool_decide_false by naive_solver.
Qed.

Lemma fill_one m a x : full_page m a -> fill_pages 1 a x m = Ok (tt, upd_pages (<[a := replicate 1024 x]>) m).
Proof. intros (w & Hw & _). cbn. unfold mbind, stM_bind, get. by rewrite Hw. Qed.

