(* ===== verification/PageDir.v ===== *)
(** The page pools and the page directories: what the operations of
    threads/old_palloc.c and userprog/pagedir.c do to the map from user
    addresses to pages.

    [dir_inv D] is the invariant of the processes' page directories [D];
    [translate] is the map a directory represents.  Each operation is
    described by its effect on [translate] of every directory in [D]. *)

From stdpp Require Import base list numbers gmap.
From Stdlib Require Import ZArith Lia.
From S2P Require Import Prelude Bitmap Vm.

#[local] Abbreviation V := (stM vm).

(** ** Pools *)

Record pool_ok (m : vm) (p : pool) : Prop := {
  po_map : bitmap_wf (used_map p);
  po_base : kpage_ok (base p);
  po_end : base p + PGSIZE * bit_cnt (used_map p) <= 2 ^ 32;
  po_pages : forall k, 0 <= k < bit_cnt (used_map p) -> full_page m (base p + PGSIZE * k)
}.

(** Page [k] of the pool is in use. *)
Definition in_use (p : pool) (k : Z) : Prop := 0 <= k /\ babs (used_map p) !! Z.to_nat k = Some true.

Lemma in_use_range p k : in_use p k -> 0 <= k < bit_cnt (used_map p).
Proof. intros [Hk H]. apply lookup_lt_Some in H. rewrite length_babs in H. lia. Qed.

Lemma pool_page m p k : pool_ok m p -> 0 <= k < bit_cnt (used_map p) -> kpage_ok (base p + PGSIZE * k).
Proof.
  intros [_ [Hb Hm] He _] Hk. change PGSIZE with 4096 in *. split; [unfold PHYS_BASE in *; lia|].
  Z.to_euclidean_division_equations. lia.
Qed.

(** Allocating one page. *)
Lemma pool_alloc p :
  bitmap_wf (used_map p) ->
  exists r b, bitmap_scan_and_flip (used_map p) 0 1 false = Ok (r, b) /\
    (r = BITMAP_ERROR /\ b = used_map p /\ (forall k, 0 <= k < bit_cnt (used_map p) -> in_use p k) \/
     0 <= r < bit_cnt (used_map p) /\ ~ in_use p r /\ (forall k, 0 <= k < r -> in_use p k) /\ bitmap_wf b /\ bit_cnt b = bit_cnt (used_map p) /\
       forall j q, in_use (MkPool b q) j <-> in_use p j \/ j = r).
Proof.
  intros Hwf. destruct (bitmap_scan_and_flip_spec (used_map p) 0 1 false Hwf ltac:(lia)) as (r & b & E & Hwf' & Hc & Hfirst & Hr).
  pose proof (length_babs (used_map p)) as Hlen. pose proof (proj1 Hwf) as Hsize.
  exists r, b. split; [exact E|]. assert (Hbit : forall j, run_of (babs (used_map p)) j 1 false <-> babs (used_map p) !! j = Some false).
  { intros j. unfold run_of. rewrite <- (Nat.add_0_r j) at 2. rewrite <- lookup_drop. by destruct (drop j (babs (used_map p))) as [|[]]. }
  destruct Hr as [[-> ->]|(i & -> & _ & Hi & Hb)].
  - left. split_and!; [done..|]. intros k Hk. split; [lia|].
    destruct (lookup_lt_is_Some_2 (babs (used_map p)) (Z.to_nat k)) as [[|] Hx]; [lia|done|].
    destruct Hfirst as [(i & Hbad & _ & Hi & _)|[_ Hno]]; [unfold BITMAP_ERROR, ELEM_BITS in *; lia|].
    destruct (Hno (Z.to_nat k)); [lia|lia|]. by apply Hbit.
  - right. destruct Hfirst as [(i' & Hi' & _ & _ & Hrun & Hmin)|[Hbad _]]; [|unfold BITMAP_ERROR, ELEM_BITS in *; lia].
    apply Nat2Z.inj in Hi'. subst i'. apply Hbit in Hrun.
    split_and!; [lia|lia| | |done|done|].
    + intros [_ Hu]. rewrite Nat2Z.id in Hu. congruence.
    + intros k Hk. split; [lia|]. destruct (lookup_lt_is_Some_2 (babs (used_map p)) (Z.to_nat k)) as [[|] Hx]; [lia|done|].
      destruct (Hmin (Z.to_nat k)); [lia|]. by apply Hbit.
    + intros j q. unfold in_use. cbn. rewrite Hb.
      assert (Hins : take i (babs (used_map p)) ++ [true] ++ drop (i + 1) (babs (used_map p)) = <[i := true]> (babs (used_map p))).
      { rewrite insert_take_drop by lia. by rewrite Nat.add_1_r. }
      cbn [replicate negb]. rewrite Hins. destruct (decide (j = Z.of_nat i)) as [->|Hne].
      * rewrite Nat2Z.id, list_lookup_insert_eq by lia. split; [by right|]. intros _. split; [lia|done].
      * destruct (decide (0 <= j)); [|naive_solver]. rewrite list_lookup_insert_ne by lia. naive_solver.
Qed.

(** Freeing one page. *)
Lemma pool_free p k :
  bitmap_wf (used_map p) -> in_use p k ->
  bitmap_all (used_map p) k 1 = Ok true /\
  exists b, bitmap_set_multiple (used_map p) k 1 false = Ok b /\ bitmap_wf b /\ bit_cnt b = bit_cnt (used_map p) /\
    forall j q, in_use (MkPool b q) j <-> in_use p j /\ j <> k.
Proof.
  intros Hwf Hu. pose proof (in_use_range p k Hu) as Hr. pose proof (length_babs (used_map p)) as Hlen.
  destruct Hu as [Hk Hu]. rewrite <- (Z2Nat.id k Hk). set (n := Z.to_nat k) in *. split.
  - unfold bitmap_all. rewrite (bitmap_contains_spec _ n 1) by (done || lia). cbn [fmap res_fmap].
    rewrite bool_decide_false; [done|]. rewrite (drop_S _ true) by done. cbn. by intros [=]%list_elem_of_singleton.
  - destruct (bitmap_set_multiple_spec (used_map p) n 1 false Hwf ltac:(lia)) as (b & E & Hwf' & Hc & Hb).
    exists b. split_and!; [done|done..|]. intros j q. unfold in_use. cbn.
    assert (babs b = <[n := false]> (babs (used_map p))) as -> by (rewrite Hb, insert_take_drop by lia; by rewrite Nat.add_1_r).
    destruct (decide (j = Z.of_nat n)) as [->|Hne].
    + rewrite Nat2Z.id, list_lookup_insert_eq by lia. naive_solver.
    + destruct (decide (0 <= j)); [|naive_solver]. rewrite list_lookup_insert_ne by lia. naive_solver.
Qed.

(** ** The page directories *)

(** A page the kernel pool has handed out. *)
Definition taken (m : vm) (a : Z) : Prop := exists k, in_use (kernel_pool m) k /\ a = base (kernel_pool m) + PGSIZE * k.

(** What a page table may hold: nothing present, or a reference to a page. *)
Definition pte_ok (x : Z) : Prop := has x PTE_P = false \/ exists a f, kpage_ok a /\ 0 <= f < 4096 /\ x = entry a f.

(** Entry [i] of the directory [pd] refers to the page table [pt]. *)
Definition has_table (m : vm) (pd i pt : Z) : Prop := kpage_ok pt /\ word m pd i = Some (entry pt 7).

(** The invariant of the page directories [D] of the processes. *)
Record dir_inv (D : gset Z) (m : vm) : Prop := {
  di_pool : pool_ok m (kernel_pool m);
  di_init : taken m (init_page_dir m) /\ (init_page_dir m ∉ D) /\ forall i, 0 <= i < 768 -> word m (init_page_dir m) i = Some 0;
  di_dir : forall pd, pd ∈ D -> taken m pd;
  di_pde : forall pd i, pd ∈ D -> 0 <= i < 768 ->
    word m pd i = Some 0 \/
    exists pt, has_table m pd i pt /\ taken m pt /\ (pt ∉ D) /\ pt <> init_page_dir m;
  di_unique : forall pd pd' i i' pt, pd ∈ D -> pd' ∈ D -> 0 <= i < 768 -> 0 <= i' < 768 ->
    has_table m pd i pt -> has_table m pd' i' pt -> pd = pd' /\ i = i';
  di_pte : forall pd i j pt x, pd ∈ D -> 0 <= i < 768 -> 0 <= j < 1024 ->
    has_table m pd i pt -> word m pt j = Some x -> pte_ok x
}.

(** The page table entry of a user address, when its page table exists. *)
Definition pte_of (m : vm) (pd va : Z) : option Z :=
  e ← word m pd (pd_no va);
  if e =? 0 then None else word m (Z.land e PTE_ADDR + PHYS_BASE) (pt_no va).

(** The abstraction: the page a user address is mapped to, and whether the
    process may write to it. *)
Definition translate (m : vm) (pd va : Z) : option (Z * bool) :=
  x ← pte_of m pd va;
  if has x PTE_P then Some (Z.land x PTE_ADDR + PHYS_BASE, has x PTE_W) else None.

Lemma taken_ok m a : pool_ok m (kernel_pool m) -> taken m a -> kpage_ok a /\ full_page m a.
Proof.
  intros Hp (k & Hk & ->). apply in_use_range in Hk. split; [by eapply pool_page|]. by apply (po_pages _ _ Hp).
Qed.

Lemma entry_nonzero a f : kpage_ok a -> 0 < f -> (entry a f =? 0) = false.
Proof. intros H Hf. apply Z.eqb_neq. pose proof (kpage_sub a H). unfold entry. lia. Qed.

Lemma entry_inj a b f : entry a f = entry b f -> a = b.
Proof. unfold entry. lia. Qed.

Lemma pte_of_None m pd va : word m pd (pd_no va) = Some 0 -> pte_of m pd va = None.
Proof. intros H. unfold pte_of. by rewrite H. Qed.

Lemma pte_of_table m pd va pt :
  has_table m pd (pd_no va) pt -> pte_of m pd va = word m pt (pt_no va).
Proof.
  intros [Hpt H]. unfold pte_of. rewrite H. cbn. rewrite entry_nonzero by (done || lia).
  rewrite entry_page by (done || lia). by rewrite Z.sub_add.
Qed.

Lemma translate_pte m pd va x : pte_of m pd va = Some x ->
  translate m pd va = if has x PTE_P then Some (Z.land x PTE_ADDR + PHYS_BASE, has x PTE_W) else None.
Proof. intros H. unfold translate. by rewrite H. Qed.

(** Reloading CR3 with the directory it holds. *)
Lemma invalidate_same m pd : kpage_ok (cr3 m + PHYS_BASE) -> kpage_ok pd -> invalidate_pagedir pd m = Ok (tt, m).
Proof.
  intros Hcr Hpd. pose proof (kpage_sub _ Hcr) as [Hr _]. rewrite Z.add_simpl_r in Hr. unfold invalidate_pagedir, active_pd, ptov.
  erewrite stbind_step; cycle 1.
  { erewrite stbind_step by done. unfold lift. rewrite (proj2 (Z.ltb_lt _ _)) by (unfold PHYS_BASE; lia). cbn [ASSERT mbind res_bind].
    unfold mret, res_ret. rewrite u32_small by (destruct Hcr; unfold is_u32, PHYS_BASE in *; lia). done. }
  destruct (Z.eqb_spec (cr3 m + PHYS_BASE) pd) as [<-|]; [|done]. unfold pagedir_activate. erewrite stbind_step by done.
  rewrite (proj2 (Z.eqb_neq _ 0)) by (unfold PHYS_BASE; lia).
  erewrite stbind_step by (unfold lift; by rewrite vtop_Ok). rewrite Z.add_simpl_r. by destruct m.
Qed.

Section Directories.
Context (D : gset Z).

Lemma dir_page m pd : dir_inv D m -> pd ∈ D -> kpage_ok pd /\ full_page m pd.
Proof. intros HD Hpd. eapply taken_ok; [apply HD|]. by apply (di_dir D m HD). Qed.

Lemma has_table_fun m pd i pt pt' : has_table m pd i pt -> has_table m pd i pt' -> pt = pt'.
Proof. intros [_ H] [_ H']. rewrite H in H'. injection H' as H'. by eapply entry_inj. Qed.

Lemma table_taken m pd i pt :
  dir_inv D m -> pd ∈ D -> 0 <= i < 768 -> has_table m pd i pt -> taken m pt /\ (pt ∉ D) /\ pt <> init_page_dir m.
Proof.
  intros HD Hpd Hi Hw. destruct (di_pde D m HD pd i Hpd Hi) as [H0|(pt' & Hw' & Ht)].
  - destruct Hw as [Hpt Hw]. rewrite H0 in Hw. injection Hw as Hw. pose proof (entry_nonzero pt 7 Hpt ltac:(lia)). zbool. congruence.
  - by rewrite (has_table_fun m pd i pt pt').
Qed.

Lemma pte_of_ok m pd va x :
  dir_inv D m -> pd ∈ D -> 0 <= va < PHYS_BASE -> pte_of m pd va = Some x -> pte_ok x.
Proof.
  intros HD Hpd Hva Hx. destruct (user_index va Hva) as [Hi Hj]. destruct (di_pde D m HD pd (pd_no va) Hpd Hi) as [H0|(pt & Ht & _)].
  - by rewrite (pte_of_None _ _ _ H0) in Hx.
  - rewrite (pte_of_table _ _ _ _ Ht) in Hx. by eapply (di_pte D m HD).
Qed.

(** Writing an entry of a page table that a directory refers to. *)
Lemma write_pte m pd va pt x :
  dir_inv D m -> pd ∈ D -> 0 <= va < PHYS_BASE -> has_table m pd (pd_no va) pt -> pte_ok x ->
  dir_inv D (put_word m pt (pt_no va) x) /\
  forall pd' va', pd' ∈ D -> 0 <= va' < PHYS_BASE ->
    pte_of (put_word m pt (pt_no va) x) pd' va' =
    if bool_decide (pd' = pd /\ va' / 4096 = va / 4096) then Some x else pte_of m pd' va'.
Proof.
  intros HD Hpd Hva Ht Hx. destruct (user_index va Hva) as [Hi Hj].
  destruct (table_taken m pd _ pt HD Hpd Hi Ht) as (Htk & HptD & Hpti).
  destruct (taken_ok m pt (di_pool D m HD) Htk) as [Hk Hf].
  assert (Hother : forall a i, 0 <= i -> a <> pt -> word (put_word m pt (pt_no va) x) a i = word m a i).
  { intros a i Hi0 Hne. rewrite word_put by (done || lia). by rewrite bool_decide_false by naive_solver. }
  assert (Hdir : forall pd' i, pd' ∈ D -> 0 <= i -> word (put_word m pt (pt_no va) x) pd' i = word m pd' i).
  { intros pd' i Hpd' Hi0. apply Hother; [done|]. by intros ->. }
  assert (Htab : forall pd' i pt', pd' ∈ D -> 0 <= i -> has_table (put_word m pt (pt_no va) x) pd' i pt' <-> has_table m pd' i pt').
  { intros pd' i pt' Hpd' Hi0. unfold has_table. by rewrite Hdir. }
  split.
  - destruct HD as [H1 H2 H3 H4 H5 H6]. split.
    + destruct H1 as [G1 G2 G3 G4]. split; try done. intros k Hk'. apply put_word_full. by apply G4.
    + destruct H2 as (G1 & G2 & G3). split_and!; [done|done|]. intros i Hi'. rewrite Hother; [by apply G3|lia|]. cbn. by apply not_eq_sym.
    + done.
    + intros pd' i Hpd' Hi'. rewrite Hdir by (done || lia). destruct (H4 pd' i Hpd' Hi') as [|(pt' & Ht' & ?)]; [by left|].
      right. exists pt'. split; [|done]. by apply Htab; [|lia|].
    + intros pd1 pd2 i1 i2 pt' ???? Ha Hb. apply Htab in Ha, Hb; [|done || lia..]. by eapply H5.
    + intros pd' i j pt' y Hpd' Hi' Hj' Ha Hy. apply Htab in Ha; [|done || lia..].
      rewrite word_put in Hy by (done || lia). case_bool_decide; [by simplify_eq|]. by eapply H6.
  - intros pd' va' Hpd' Hva'. destruct (user_index va' Hva') as [Hi' Hj'].
    destruct (di_pde D m HD pd' (pd_no va') Hpd' Hi') as [H0|(pt' & Ht' & Htk' & HptD' & _)].
    + rewrite !pte_of_None; [|done|by rewrite Hdir by (done || lia)]. rewrite bool_decide_false; [done|]. intros [-> Heq].
      destruct (page_index va' va) as [Hpn _]; [done..|].
      rewrite Hpn in H0. destruct Ht as [_ Ht]. rewrite H0 in Ht. injection Ht as Ht. pose proof (entry_nonzero pt 7 Hk ltac:(lia)). zbool. congruence.
    + rewrite (pte_of_table m pd' va' pt') by done. rewrite (pte_of_table _ pd' va' pt') by (apply Htab; [done|lia|done]).
      rewrite word_put by (done || lia). do 2 case_bool_decide; try done.
      * destruct H as [<- Hpt]. destruct H0. destruct (di_unique D m HD pd' pd (pd_no va') (pd_no va) pt) as [-> Hpn]; [done..|].
        split; [done|]. by apply same_page.
      * destruct H. destruct H0 as [-> Heq]. destruct (page_index va' va) as [Hpn Htn]; [done..|].
        rewrite Hpn in Ht'. split; [|done]. by eapply has_table_fun.
Qed.

(** At most one more page of the kernel pool is in use. *)
Definition grows (m m' : vm) : Prop := exists a, forall b, taken m' b -> taken m b \/ b = a.

Lemma grows_refl m : grows m m.
Proof. exists 0. by left. Qed.

(** A page of the kernel pool, in use or not. *)
Definition kernel_page (m : vm) (a : Z) : Prop :=
  exists k, 0 <= k < bit_cnt (used_map (kernel_pool m)) /\ a = base (kernel_pool m) + PGSIZE * k.

Lemma taken_kernel m a : taken m a -> kernel_page m a.
Proof. intros (k & Hk%in_use_range & ->). by exists k. Qed.

(** What the operations on page directories leave alone: everything but the
    kernel pool and its pages. *)
Record kframe (m m' : vm) : Prop := {
  kf_user : user_pool m' = user_pool m;
  kf_frame : frame_pool m' = frame_pool m;
  kf_frames : frames m' = frames m;
  kf_init : init_page_dir m' = init_page_dir m;
  kf_ram : init_ram_pages m' = init_ram_pages m;
  kf_cr3 : cr3 m' = cr3 m;
  kf_tid : cur_tid m' = cur_tid m;
  kf_pd : cur_pagedir m' = cur_pagedir m;
  kf_base : base (kernel_pool m') = base (kernel_pool m);
  kf_size : bit_cnt (used_map (kernel_pool m')) = bit_cnt (used_map (kernel_pool m));
  kf_pages : forall a, ~ kernel_page m a -> pages m' !! a = pages m !! a
}.

Lemma kframe_refl m : kframe m m.
Proof. by split. Qed.

Lemma kframe_put m a i x : taken m a -> kframe m (put_word m a i x).
Proof.
  intros Ht%taken_kernel. split; try done. intros b Hb. cbn. apply lookup_alter_ne. intros ->. by apply Hb.
Qed.

Lemma kframe_trans m1 m2 m3 : kframe m1 m2 -> kframe m2 m3 -> kframe m1 m3.
Proof.
  intros [] []. split; try congruence. intros a Ha. rewrite kf_pages1; [by apply kf_pages0|].
  unfold kernel_page in *. by rewrite kf_base0, kf_size0.
Qed.

(** Taking a page from the kernel pool. *)
Lemma palloc_get_page_spec m flags :
  pool_ok m (kernel_pool m) -> has flags PAL_USER = false ->
  palloc_get_page flags m = (if has flags PAL_ASSERT then Err EPanic else Ok (0, m)) /\
    (forall k, 0 <= k < bit_cnt (used_map (kernel_pool m)) -> in_use (kernel_pool m) k) \/
  exists a m', palloc_get_page flags m = Ok (a, m') /\ ~ taken m a /\ (forall k, 0 <= k -> base (kernel_pool m) + PGSIZE * k < a -> in_use (kernel_pool m) k) /\ kpage_ok a /\
    (forall b, taken m' b <-> taken m b \/ b = a) /\ pool_ok m' (kernel_pool m') /\ kframe m m' /\
    (forall b, b <> a -> pages m' !! b = pages m !! b) /\
    (has flags PAL_ZERO = true -> forall i, 0 <= i < 1024 -> word m' a i = Some 0).
Proof.
  intros Hp Hu. unfold palloc_get_page, old_palloc_get_multiple. cbn [Z.eqb]. erewrite stbind_step by done. rewrite Hu.
  destruct (pool_alloc (kernel_pool m) (po_map _ _ Hp)) as (r & b & E & [(-> & -> & Hall)|(Hr & Hnu & Hmin & Hwf & Hc & Huse)]).
  - left. split; [|done]. erewrite stbind_step by (unfold lift; by rewrite E). cbn beta iota. destruct m as [? []]. by destruct (has flags PAL_ASSERT).
  - right. set (a := base (kernel_pool m) + PGSIZE * r).
    pose proof (pool_page m (kernel_pool m) r Hp Hr) as Hok.
    set (m1 := set_kernel_pool (MkPool b (base (kernel_pool m))) m).
    set (m' := if has flags PAL_ZERO then upd_pages (<[a := replicate 1024 0]>) m1 else m1).
    destruct (po_pages _ _ Hp r Hr) as (w & Hw & Hlen).
    assert (Hpk : kernel_pool m' = MkPool b (base (kernel_pool m))) by (by unfold m'; destruct (has flags PAL_ZERO)).
    assert (Hpg : forall c, pages m' !! c = if has flags PAL_ZERO then <[a := replicate 1024 0]> (pages m) !! c else pages m !! c)
      by (intros c; by unfold m'; destruct (has flags PAL_ZERO)).
    assert (Htk : forall c, taken m' c <-> taken m c \/ c = a).
    { intros c. unfold taken. rewrite Hpk. cbn. unfold a. split.
      - intros (k & Hk & ->). apply Huse in Hk as [Hk| ->]; [left; by exists k|by right].
      - intros [(k & Hk & ->)| ->]; [exists k; split; [|done]; apply Huse; by left|exists r; split; [|done]; apply Huse; by right]. }
    exists a, m'. split; [|split; [|split; [|split; [done|split; [done|split; [|split; [|split]]]]]]].
    + erewrite stbind_step by (unfold lift; by rewrite E). cbn beta iota. erewrite stbind_step by done.
      assert (r <> BITMAP_ERROR) by (pose proof (proj1 (po_map _ _ Hp)); unfold BITMAP_ERROR, ELEM_BITS in *; lia).
      rewrite (proj2 (Z.eqb_neq r BITMAP_ERROR)) by done. cbn [negb]. fold a. fold m1.
      assert (a <> 0) by (destruct Hok as [Hok _]; unfold a; unfold PHYS_BASE in Hok; lia).
      rewrite (proj2 (Z.eqb_neq a 0)) by done. cbn [negb]. unfold m'. destruct (has flags PAL_ZERO); [|done].
      erewrite stbind_step; [|apply (fill_one m1 a 0); by exists w]. done.
    + intros (k & Hk & Heq). apply Hnu. assert (k = r) as <- by (unfold a in Heq; change PGSIZE with 4096 in Heq; lia). done.
    + intros k Hk Hlt. apply Hmin. unfold a in Hlt. change PGSIZE with 4096 in Hlt. lia.
    + rewrite Hpk. destruct Hp as [? ? ? G4]. split; cbn; [done|done|by rewrite Hc|]. rewrite Hc. intros k Hk.
      destruct (G4 k Hk) as (w' & Hw' & Hl'). unfold full_page. rewrite Hpg. destruct (has flags PAL_ZERO); [|eauto].
      destruct (decide (base (kernel_pool m) + PGSIZE * k = a)) as [->|Hne].
      * rewrite lookup_insert_eq. eexists. split; [done|]. by rewrite length_replicate.
      * rewrite lookup_insert_ne by done. eauto.
    + assert (Hin : forall c, ~ kernel_page m c -> pages m' !! c = pages m !! c).
      { intros c Hc'. rewrite Hpg. destruct (has flags PAL_ZERO); [|done]. apply lookup_insert_ne. intros <-. apply Hc'. by exists r. }
      split; try (by unfold m'; destruct (has flags PAL_ZERO)); by rewrite Hpk.
    + intros c Hne. rewrite Hpg. destruct (has flags PAL_ZERO); [|done]. by apply lookup_insert_ne.
    + intros Hz i Hi. unfold word. rewrite Hpg, Hz, lookup_insert_eq. apply lookup_replicate_2. lia.
Qed.

(** Giving a page back to the kernel pool. *)
Lemma palloc_free_page_spec m a :
  pool_ok m (kernel_pool m) -> taken m a ->
  exists m', palloc_free_page a m = Ok (tt, m') /\ (forall b, taken m' b <-> taken m b /\ b <> a) /\
    pool_ok m' (kernel_pool m') /\ kframe m m' /\ (forall b, b <> a -> pages m' !! b = pages m !! b).
Proof.
  intros Hp (k & Hk & ->). set (a := base (kernel_pool m) + PGSIZE * k). pose proof (in_use_range _ _ Hk) as Hr.
  pose proof (pool_page m _ k Hp Hr) as [Ha1 Ha2]. fold a in Ha1, Ha2. pose proof (po_base _ _ Hp) as [Hb1 Hb2].
  destruct (pool_free (kernel_pool m) k (po_map _ _ Hp) Hk) as (Hall & b & E & Hwf & Hc & Huse).
  assert (Hidx : pg_no a - pg_no (base (kernel_pool m)) = k).
  { rewrite !pg_no_eq. unfold a. change PGSIZE with 4096. Z.to_euclidean_division_equations. lia. }
  assert (Hfrom : page_from_pool (kernel_pool m) a = true).
  { unfold page_from_pool, bitmap_size. apply andb_true_iff. rewrite Z.leb_le, Z.ltb_lt. lia. }
  set (m1 := upd_pages (<[a := replicate 1024 0xcccccccc]>) m).
  exists (set_kernel_pool (MkPool b (base (kernel_pool m))) m1). split; [|split; [|split; [|split]]].
  - unfold palloc_free_page, old_palloc_free_multiple. rewrite pg_ofs_eq, Ha2. erewrite stbind_step by done.
    rewrite (proj2 (Z.eqb_neq a 0)) by (unfold PHYS_BASE in *; lia). cbn [orb Z.eqb].
    erewrite stbind_step by done. rewrite Hfrom. erewrite stbind_step by done. cbn beta iota.
    erewrite stbind_step; [|apply (fill_one m a); by apply (po_pages _ _ Hp)]. rewrite Hidx.
    erewrite stbind_step by (unfold lift; by rewrite Hall). erewrite stbind_step by done.
    by erewrite stbind_step by (unfold lift; by rewrite E).
  - intros c. unfold taken, a. cbn. change PGSIZE with 4096. split.
    + intros (j & Hj & ->). apply Huse in Hj as [Hj Hne]. split; [by exists j|lia].
    + intros [(j & Hj & ->) Hne]. exists j. split; [|done]. apply Huse. split; [done|]. intros ->. done.
  - destruct Hp as [P1 P2 P3 P4]. split; cbn; [done|done|by rewrite Hc|]. rewrite Hc. intros j Hj. destruct (P4 j Hj) as (w & Hw & Hl).
    unfold full_page. cbn. destruct (decide (a = base (kernel_pool m) + PGSIZE * j)) as [->|Hne].
    + rewrite lookup_insert_eq. eexists. split; [done|]. done.
    + rewrite lookup_insert_ne by done. eauto.
  - split; try done. intros c Hc'. cbn. apply lookup_insert_ne. intros <-. apply Hc'. by exists k.
  - intros c Hne. cbn. by apply lookup_insert_ne.
Qed.

(** A page of the kernel pool that was free becomes the page table of an empty
    directory entry: no user address is mapped differently. *)
Lemma new_table m m1 pd i a :
  dir_inv D m -> pd ∈ D -> 0 <= i < 768 -> word m pd i = Some 0 ->
  ~ taken m a -> kpage_ok a -> (forall b, taken m1 b <-> taken m b \/ b = a) -> pool_ok m1 (kernel_pool m1) -> kframe m m1 ->
  (forall b, b <> a -> pages m1 !! b = pages m !! b) -> (forall j, 0 <= j < 1024 -> word m1 a j = Some 0) ->
  dir_inv D (put_word m1 pd i (entry a 7)) /\ has_table (put_word m1 pd i (entry a 7)) pd i a /\
  forall pd' va, pd' ∈ D -> 0 <= va < PHYS_BASE -> translate (put_word m1 pd i (entry a 7)) pd' va = translate m pd' va.
Proof.
  intros HD Hpd Hi H0 Ha Hok Htk Hp Hk Hpg Hz. set (m' := put_word m1 pd i (entry a 7)).
  assert (HaD : forall b, taken m b -> b <> a) by (intros b Hb ->; done).
  assert (Hfull : full_page m1 pd). { eapply taken_ok; [done|]. apply Htk. left. by apply (di_dir D m HD). }
  assert (Hw : forall b j, 0 <= j -> b <> a -> word m' b j = if bool_decide (pd = b /\ i = j) then Some (entry a 7) else word m b j).
  { intros b j Hj Hb. unfold m'. rewrite word_put by (done || lia). unfold word. by rewrite Hpg. }
  assert (Hwa : forall j, 0 <= j < 1024 -> word m' a j = Some 0).
  { intros j Hj. unfold m'. rewrite word_put by (done || lia). rewrite bool_decide_false; [by apply Hz|].
    intros [-> _]. apply Ha. by apply (di_dir D m HD). }
  assert (Htab : forall pd' i' pt, pd' ∈ D -> 0 <= i' < 768 ->
    has_table m' pd' i' pt <-> (pd' = pd /\ i' = i /\ pt = a) \/ (~ (pd = pd' /\ i = i') /\ has_table m pd' i' pt)).
  { intros pd' i' pt Hpd' Hi'. unfold has_table. rewrite Hw; [|lia|by apply HaD, (di_dir D m HD)]. case_bool_decide as Hc.
    - destruct Hc as [<- <-]. split; [intros [_ [= Heq%entry_inj]]; left; by subst|intros [(_ & _ & ->)|[[] _]]; done].
    - split; [by right|]. intros [(-> & -> & _)|[_ ?]]; [by destruct Hc|done]. }
  split; [|split].
  - pose proof HD as [H1 (G1 & G2 & G3) H3 H4 H5 H6]. split.
    + destruct Hp as [P1 P2 P3 P4]. split; try done. intros k Hk'. unfold m'. apply put_word_full. by apply P4.
    + change (init_page_dir m') with (init_page_dir m1). rewrite (kf_init _ _ Hk). split_and!; [apply Htk; by left|done|].
      intros j Hj. rewrite Hw; [|lia|by apply HaD]. rewrite bool_decide_false; [by apply G3|]. intros [-> _]. done.
    + intros pd' Hpd'. apply Htk. left. by apply H3.
    + intros pd' j Hpd' Hj. destruct (decide (pd = pd' /\ i = j)) as [[<- <-]|Hne].
      * right. exists a. split_and!; [by apply Htab; [..|left]|apply Htk; by right|intros Had; by apply Ha, H3|].
        change (init_page_dir m') with (init_page_dir m1). rewrite (kf_init _ _ Hk). intros ->. done.
      * rewrite Hw; [|lia|by apply HaD, H3]. rewrite bool_decide_false by done. destruct (H4 pd' j Hpd' Hj) as [|(pt & Ht & T1 & T2 & T3)]; [by left|].
        right. exists pt. split_and!; [apply Htab; [done..|]; by right|apply Htk; by left|done|].
        change (init_page_dir m') with (init_page_dir m1). by rewrite (kf_init _ _ Hk).
    + intros pd1 pd2 i1 i2 pt D1 D2 I1 I2 T1 T2. apply Htab in T1, T2; [|done..].
      destruct T1 as [(-> & -> & ->)|[_ T1]], T2 as [(-> & -> & Hpt)|[_ T2]]; [done| | |by eapply H5].
      * destruct (table_taken m pd2 i2 a HD D2 I2 T2) as [? _]. done.
      * subst pt. destruct (table_taken m pd1 i1 a HD D1 I1 T1) as [? _]. done.
    + intros pd' i' j pt x Hpd' Hi' Hj Ht Hx. apply Htab in Ht as [(-> & -> & ->)|[_ Ht]]; [| |done..].
      * rewrite Hwa in Hx by done. injection Hx as <-. by left.
      * destruct (table_taken m pd' i' pt HD Hpd' Hi' Ht) as (T1 & T2 & _).
        rewrite Hw in Hx; [|lia|by apply HaD]. rewrite bool_decide_false in Hx by (intros [<- _]; done). by eapply H6.
  - apply Htab; [done..|]. by left.
  - intros pd' va Hpd' Hva. destruct (user_index va Hva) as [Ipd Ipt]. unfold translate.
    destruct (decide (pd = pd' /\ i = pd_no va)) as [[<- ->]|Hne].
    + rewrite (pte_of_None m) by done. rewrite (pte_of_table m' pd va a) by (apply Htab; [done..|]; by left). by rewrite Hwa.
    + destruct (di_pde D m HD pd' (pd_no va) Hpd' Ipd) as [E|(pt & Ht & T1 & T2 & T3)].
      * rewrite !pte_of_None; [done|done|]. rewrite Hw; [|lia|by apply HaD, (di_dir D m HD)]. by rewrite bool_decide_false.
      * rewrite (pte_of_table m pd' va pt) by done. rewrite (pte_of_table m' pd' va pt) by (apply Htab; [done..|]; by right).
        rewrite Hw; [|lia|by apply HaD]. rewrite bool_decide_false by (intros [<- _]; done). done.
Qed.

Lemma lookup_page_none m pd va :
  dir_inv D m -> pd ∈ D -> 0 <= va < PHYS_BASE -> word m pd (pd_no va) = Some 0 -> lookup_page pd va false m = Ok (0, m).
Proof.
  intros HD Hpd Hva H0. destruct (user_index va Hva) as [Hi _]. destruct (dir_page m pd HD Hpd) as [Hok _].
  unfold lookup_page. rewrite (proj2 (Z.eqb_neq pd 0)) by (destruct Hok; unfold PHYS_BASE in *; lia).
  do 2 (erewrite stbind_step by done). erewrite stbind_step by (apply load_entry; [done|lia|done]). done.
Qed.

(** An entry that exists is found, whether or not it may be created. *)
Lemma lookup_page_table m pd va pt create :
  dir_inv D m -> pd ∈ D -> 0 <= va < PHYS_BASE -> has_table m pd (pd_no va) pt ->
  lookup_page pd va create m = Ok (pt + 4 * pt_no va, m).
Proof.
  intros HD Hpd Hva [Hpt Ht]. destruct (user_index va Hva) as [Hi _]. destruct (dir_page m pd HD Hpd) as [Hok _].
  unfold lookup_page. rewrite (proj2 (Z.eqb_neq pd 0)) by (destruct Hok; unfold PHYS_BASE in *; lia).
  erewrite stbind_step by done.
  erewrite stbind_step by (apply assertM_true; unfold is_user_vaddr; rewrite (proj2 (Z.ltb_lt _ _)) by lia; apply orb_true_r).
  assert (Hl : load_word (pd + 4 * pd_no va) m = Ok (entry pt 7, m)) by (apply load_entry; [done|lia|done]).
  erewrite stbind_step by exact Hl. rewrite entry_nonzero by (done || lia). erewrite stbind_step by done. cbn beta iota.
  erewrite stbind_step by exact Hl. erewrite stbind_step by (unfold lift; by rewrite pde_get_pt_Ok). done.
Qed.

(** Looking an entry up with [create]: the page table exists afterwards, unless
    the kernel pool is exhausted, and the translations are unchanged. *)
Lemma lookup_page_create m pd va :
  dir_inv D m -> pd ∈ D -> 0 <= va < PHYS_BASE ->
  lookup_page pd va true m = Ok (0, m) /\ (forall k, 0 <= k < bit_cnt (used_map (kernel_pool m)) -> in_use (kernel_pool m) k) /\
    word m pd (pd_no va) = Some 0 \/
  exists pt m', lookup_page pd va true m = Ok (pt + 4 * pt_no va, m') /\ dir_inv D m' /\ has_table m' pd (pd_no va) pt /\ kframe m m' /\ grows m m' /\
    forall pd' va', pd' ∈ D -> 0 <= va' < PHYS_BASE -> translate m' pd' va' = translate m pd' va'.
Proof.
  intros HD Hpd Hva. destruct (user_index va Hva) as [Hi _]. destruct (dir_page m pd HD Hpd) as [Hok _].
  destruct (di_pde D m HD pd (pd_no va) Hpd Hi) as [H0|(pt & Ht & _)].
  2: { right. exists pt, m. split; [by apply lookup_page_table|]. do 4 (split; [done || apply kframe_refl || apply grows_refl|]); done. }
  assert (Hl : load_word (pd + 4 * pd_no va) m = Ok (0, m)) by (apply load_entry; [done|lia|done]).
  assert (Hpre : forall (k : Z -> V Z), (assertM (negb (pd =? 0));; assertM (negb true || is_user_vaddr va);; x ← load_word (pd + 4 * pd_no va); k x) m = k 0 m).
  { intros k. rewrite (proj2 (Z.eqb_neq pd 0)) by (destruct Hok; unfold PHYS_BASE in *; lia).
    erewrite stbind_step by done. unfold is_user_vaddr. rewrite (proj2 (Z.ltb_lt _ _)) by lia. erewrite stbind_step by done.
    by erewrite stbind_step by exact Hl. }
  unfold lookup_page. rewrite Hpre. cbn [Z.eqb].
  destruct (palloc_get_page_spec m PAL_ZERO (di_pool D m HD) eq_refl) as [[E Hall]|(a & m1 & E & Ha & _ & Haok & Htk & Hp & Hk & Hpg & Hz)].
  - left. split_and!; [|done|done]. erewrite stbind_step; [|erewrite stbind_step by exact E; done]. done.
  - right. destruct (new_table m m1 pd (pd_no va) a) as (N1 & N2 & N3); try done; [by apply Hz|].
    exists a, (put_word m1 pd (pd_no va) (entry a 7)). split; [|split; [done|split; [done|split; [|split; [|done]]]]].
    + assert (Hf1 : full_page m1 pd). { eapply taken_ok; [done|]. apply Htk. left. by apply (di_dir D m HD). }
      assert (Ht' : taken m1 pd) by (apply Htk; left; by apply (di_dir D m HD)).
      erewrite stbind_step; cycle 1.
      { erewrite stbind_step by exact E. rewrite (proj2 (Z.eqb_neq a 0)) by (destruct Haok; unfold PHYS_BASE in *; lia).
        erewrite stbind_step by (unfold lift; by rewrite pde_create_Ok). erewrite stbind_step by (apply store_entry; [done|lia|done]). done. }
      cbn beta iota. erewrite stbind_step by (apply load_entry; [done|lia|apply N2]).
      erewrite stbind_step by (unfold lift; by rewrite pde_get_pt_Ok). done.
    + eapply kframe_trans; [done|]. apply kframe_put. apply Htk. left. by apply (di_dir D m HD).
    + exists a. intros b Hb. by apply Htk.
Qed.

(** The kernel pool is exhausted. *)
Definition kernel_full (m : vm) : Prop := forall k, 0 <= k < bit_cnt (used_map (kernel_pool m)) -> in_use (kernel_pool m) k.

Lemma get_page_translate m pd va :
  dir_inv D m -> pd ∈ D -> 0 <= va < PHYS_BASE ->
  pagedir_get_page pd va m = Ok (match translate m pd va with Some (p, _) => p + va mod 4096 | None => 0 end, m).
Proof.
  intros HD Hpd Hva. destruct (user_index va Hva) as [Hi Hj]. unfold pagedir_get_page, is_user_vaddr.
  rewrite (proj2 (Z.ltb_lt _ _)) by lia. erewrite stbind_step by done.
  destruct (di_pde D m HD pd (pd_no va) Hpd Hi) as [H0|(pt & Ht & Htk & _)].
  - erewrite stbind_step by (by apply lookup_page_none). unfold translate. by rewrite pte_of_None.
  - erewrite stbind_step by (by apply (lookup_page_table m pd va pt)).
    destruct (taken_ok m pt (di_pool D m HD) Htk) as [Hpt Hf]. destruct (full_word m pt (pt_no va) Hf Hj) as [x Hx].
    rewrite (proj2 (Z.eqb_neq _ 0)) by (destruct Hpt; unfold PHYS_BASE in *; lia). cbn [negb].
    erewrite stbind_step by (by apply load_entry).
    rewrite (translate_pte m pd va x) by (by rewrite (pte_of_table _ _ _ _ Ht)).
    destruct (di_pte D m HD pd _ _ pt x Hpd Hi Hj Ht Hx) as [->|(a & f & Ha & Hf' & ->)]; [done|].
    destruct (has (entry a f) PTE_P); [|done]. erewrite stbind_step by (unfold lift; by rewrite entry_ptov).
    rewrite entry_page by done. by rewrite Z.sub_add, pg_ofs_eq.
Qed.

Lemma set_page_translate m pd upage kp (w : bool) :
  dir_inv D m -> pd ∈ D -> 0 <= upage < PHYS_BASE -> upage mod 4096 = 0 -> kpage_ok kp ->
  Z.shiftr (kp - PHYS_BASE) PTSHIFT < init_ram_pages m -> translate m pd upage = None ->
  pagedir_set_page pd upage kp w m = Ok (false, m) /\ kernel_full m \/
  exists m', pagedir_set_page pd upage kp w m = Ok (true, m') /\ dir_inv D m' /\ kframe m m' /\ grows m m' /\
    forall pd' va, pd' ∈ D -> 0 <= va < PHYS_BASE ->
      translate m' pd' va = if bool_decide (pd' = pd /\ va / 4096 = upage / 4096) then Some (kp, w) else translate m pd' va.
Proof.
  intros HD Hpd Hva Hal Hkp Hram Hnone. destruct (user_index upage Hva) as [Hi Hj]. unfold pagedir_set_page, is_user_vaddr.
  rewrite !pg_ofs_eq, Hal, (proj2 Hkp), (proj2 (Z.ltb_lt upage _)) by lia. do 3 (erewrite stbind_step by done).
  erewrite stbind_step by (unfold lift; by rewrite vtop_Ok). erewrite stbind_step by done.
  rewrite (proj2 (Z.ltb_lt _ _)) by done. erewrite stbind_step by done.
  rewrite (proj2 (Z.eqb_neq pd _)) by (intros ->; by apply (di_init D m HD)). erewrite stbind_step by done.
  destruct (lookup_page_create m pd upage HD Hpd Hva) as [(E & Hfull & _)|(pt & m1 & E & HD1 & Ht & Hk & Hgr & Htr)].
  { left. split; [|done]. by erewrite stbind_step by exact E. }
  right. destruct (table_taken m1 pd _ pt HD1 Hpd Hi Ht) as (Htk & _). destruct (taken_ok m1 pt (di_pool D m1 HD1) Htk) as [Hpt Hf].
  destruct (full_word m1 pt (pt_no upage) Hf Hj) as [x Hx]. set (e := entry kp (if w then 7 else 5)).
  assert (He : pte_ok e) by (right; exists kp, (if w then 7 else 5); split_and!; by destruct w).
  destruct (write_pte m1 pd upage pt e HD1 Hpd Hva Ht He) as [HD2 Hpte].
  exists (put_word m1 pt (pt_no upage) e). split; [|split; [done|split; [|split; [exact Hgr|]]]].
  - erewrite stbind_step by exact E. rewrite (proj2 (Z.eqb_neq _ 0)) by (destruct Hpt; unfold PHYS_BASE in *; lia). cbn [negb].
    erewrite stbind_step by (by apply load_entry). rewrite <- (Htr pd upage Hpd Hva) in Hnone.
    rewrite (translate_pte m1 pd upage x) in Hnone by (by rewrite (pte_of_table _ _ _ _ Ht)).
    destruct (has x PTE_P); [done|]. erewrite stbind_step by done.
    erewrite stbind_step by (unfold lift; by rewrite pte_create_Ok). by erewrite stbind_step by (by apply store_entry).
  - eapply kframe_trans; [done|]. by apply kframe_put.
  - intros pd' va Hpd' Hva'. rewrite <- Htr by done. unfold translate at 1. rewrite Hpte by done. case_bool_decide; [|done].
    cbn [mbind option_bind]. assert (0 <= (if w then 7 else 5) < 4096) by (destruct w; lia).
    unfold e. rewrite !entry_flag, entry_page by done. rewrite Z.sub_add. by destruct w.
Qed.

(** A mapping is removed by clearing the present bit. *)
Lemma clear_page_translate m pd upage :
  dir_inv D m -> kpage_ok (cr3 m + PHYS_BASE) -> pd ∈ D -> 0 <= upage < PHYS_BASE -> upage mod 4096 = 0 ->
  exists m', pagedir_clear_page pd upage m = Ok (tt, m') /\ dir_inv D m' /\ kframe m m' /\
    forall pd' va, pd' ∈ D -> 0 <= va < PHYS_BASE ->
      translate m' pd' va = if bool_decide (pd' = pd /\ va / 4096 = upage / 4096) then None else translate m pd' va.
Proof.
  intros HD Hcr Hpd Hva Hal. destruct (user_index upage Hva) as [Hi Hj]. unfold pagedir_clear_page, is_user_vaddr.
  rewrite pg_ofs_eq, Hal, (proj2 (Z.ltb_lt _ _)) by lia. do 2 (erewrite stbind_step by done).
  assert (Hsame : translate m pd upage = None -> forall pd' va, pd' ∈ D -> 0 <= va < PHYS_BASE ->
    translate m pd' va = if bool_decide (pd' = pd /\ va / 4096 = upage / 4096) then None else translate m pd' va).
  { intros Hn pd' va _ Hva'. case_bool_decide as Hc; [|done]. destruct Hc as [-> Heq].
    unfold translate, pte_of in *. by destruct (page_index va upage Hva' Hva Heq) as [-> ->]. }
  destruct (di_pde D m HD pd (pd_no upage) Hpd Hi) as [H0|(pt & Ht & Htk & _)].
  { exists m. split; [by erewrite stbind_step by (by apply lookup_page_none)|]. split; [done|]. split; [apply kframe_refl|].
    apply Hsame. unfold translate. by rewrite pte_of_None. }
  destruct (taken_ok m pt (di_pool D m HD) Htk) as [Hpt Hf]. destruct (full_word m pt (pt_no upage) Hf Hj) as [x Hx].
  erewrite stbind_step by (by apply (lookup_page_table m pd upage pt)).
  rewrite (proj2 (Z.eqb_neq _ 0)) by (destruct Hpt; unfold PHYS_BASE in *; lia). cbn [negb].
  erewrite stbind_step by (by apply load_entry).
  assert (Hpx : pte_of m pd upage = Some x) by (by rewrite (pte_of_table _ _ _ _ Ht)).
  destruct (has x PTE_P) eqn:EP; cycle 1.
  { exists m. split; [done|]. split; [done|]. split; [apply kframe_refl|]. apply Hsame. by rewrite (translate_pte _ _ _ _ Hpx), EP. }
  assert (Hclr : has (clear_flag x PTE_P) PTE_P = false).
  { unfold has, clear_flag. rewrite <- Z.land_assoc. change (Z.land (u32 (Z.lnot PTE_P)) PTE_P) with 0. by rewrite Z.land_0_r. }
  destruct (write_pte m pd upage pt (clear_flag x PTE_P) HD Hpd Hva Ht) as [HD2 Hpte]; [by left|].
  exists (put_word m pt (pt_no upage) (clear_flag x PTE_P)). split; [|split; [done|split; [by apply kframe_put|]]].
  - erewrite stbind_step by (by apply store_entry). apply invalidate_same; [done|]. by eapply dir_page.
  - intros pd' va Hpd' Hva'. unfold translate at 1. rewrite Hpte by done. case_bool_decide; [|done]. cbn. by rewrite Hclr.
Qed.

End Directories.

(** A page [a] of the kernel pool that no directory uses as a page table becomes
    an empty directory or stops being one. *)
Lemma dir_inv_change D D' m m' a :
  dir_inv D m -> (forall pd, pd ∈ D' -> pd = a \/ pd ∈ D) ->
  pool_ok m' (kernel_pool m') -> init_page_dir m' = init_page_dir m -> init_page_dir m <> a ->
  (forall b, b <> a -> taken m b -> pages m' !! b = pages m !! b) -> (forall b, b <> a -> taken m b -> taken m' b) ->
  (forall pd i pt, pd ∈ D -> 0 <= i < 768 -> has_table m pd i pt -> pt <> a) ->
  (a ∈ D' -> taken m' a /\ forall i, 0 <= i < 768 -> word m' a i = Some 0) ->
  dir_inv D' m' /\
  forall pd va, pd ∈ D' -> 0 <= va < PHYS_BASE -> translate m' pd va = if bool_decide (pd = a) then None else translate m pd va.
Proof.
  intros HD Hsub Hp Hinit Hia Hpg Htk Hpt Ha. pose proof HD as [H1 (G1 & G2 & G3) H3 H4 H5 H6].
  assert (Hw : forall b i, b <> a -> taken m b -> word m' b i = word m b i) by (intros b i Hb Hb'; unfold word; by rewrite Hpg).
  assert (Htab : forall pd i pt, pd ∈ D' -> 0 <= i < 768 -> has_table m' pd i pt -> pd <> a /\ pd ∈ D /\ has_table m pd i pt).
  { intros pd i pt Hpd Hi [Ht1 Ht2]. destruct (decide (pd = a)) as [->|Hne].
    - destruct (Ha Hpd) as [_ H0]. rewrite H0 in Ht2 by done. injection Ht2 as Ht2. pose proof (entry_nonzero pt 7 Ht1 ltac:(lia)). zbool. congruence.
    - destruct (Hsub pd Hpd) as [|HpdD]; [done|]. rewrite Hw in Ht2 by (try apply H3; done). done. }
  split.
  - split; [done| | | | |].
    + rewrite Hinit. split_and!; [by apply Htk|intros [|]%Hsub; done|]. intros i Hi. rewrite Hw by done. by apply G3.
    + intros pd Hpd. destruct (decide (pd = a)) as [->|Hne]; [by apply Ha|]. destruct (Hsub pd Hpd) as [|HpdD]; [done|]. by apply Htk, H3.
    + intros pd i Hpd Hi. destruct (decide (pd = a)) as [->|Hne]; [left; by apply Ha|]. destruct (Hsub pd Hpd) as [|HpdD]; [done|].
      unfold has_table. rewrite Hw by (try apply H3; done). destruct (H4 pd i HpdD Hi) as [|(pt & Ht & T1 & T2 & T3)]; [by left|]. right.
      pose proof (Hpt pd i pt HpdD Hi Ht) as Hne'. exists pt. rewrite Hinit. split; [done|]. split_and!; [by apply Htk|intros [|]%Hsub; done|done].
    + intros pd pd' i i' pt D1 D2 I1 I2 T1 T2. apply Htab in T1 as (_ & ? & T1), T2 as (_ & ? & T2); [|done..]. by eapply H5.
    + intros pd i j pt x Hpd Hi Hj Ht Hx. apply Htab in Ht as (_ & ? & Ht); [|done..]. 
      destruct (table_taken D m pd i pt) as [? _]; [done..|]. rewrite Hw in Hx by (done || by eapply Hpt). by eapply H6.
  - intros pd va Hpd Hva. destruct (user_index va Hva) as [Hi Hj]. unfold translate. case_bool_decide as Hc.
    + subst pd. rewrite pte_of_None; [done|]. by apply Ha.
    + destruct (Hsub pd Hpd) as [|HpdD]; [done|]. destruct (H4 pd (pd_no va) HpdD Hi) as [H0|(pt & Ht & T1 & T2 & T3)].
      * rewrite !pte_of_None; [done|done|rewrite Hw by (try apply H3; done); done].
      * rewrite (pte_of_table m pd va pt) by done. rewrite (pte_of_table m' pd va pt) by (unfold has_table; by rewrite Hw by (try apply H3; done)).
        rewrite Hw by (done || by eapply Hpt). done.
Qed.

(** The invariant and the translations depend on the pages of the kernel pool
    alone. *)
Lemma dir_inv_ext D m m' :
  dir_inv D m -> kernel_pool m' = kernel_pool m -> init_page_dir m' = init_page_dir m ->
  (forall a, kernel_page m a -> pages m' !! a = pages m !! a) ->
  dir_inv D m' /\ forall pd va, pd ∈ D -> 0 <= va < PHYS_BASE -> translate m' pd va = translate m pd va.
Proof.
  intros HD Hkp Hinit Hpg. assert (H0 : forall b, taken m b -> b <> 0).
  { intros b Hb. destruct (taken_ok m b (di_pool D m HD) Hb) as [[H _] _]. unfold PHYS_BASE in H. lia. }
  assert (Htk : forall b, taken m b -> taken m' b) by (intros b; unfold taken; by rewrite Hkp).
  destruct (dir_inv_change D D m m' 0) as [HD' Htr]; try done.
  - by right.
  - rewrite Hkp. pose proof (di_pool D m HD) as [P1 P2 P3 P4]. split; try done. intros k Hk. unfold full_page. rewrite Hpg by (by exists k). by apply P4.
  - apply H0, (di_init D m HD).
  - intros b _ Hb. by apply Hpg, taken_kernel.
  - intros b _. apply Htk.
  - intros pd i pt Hpd Hi Ht. by eapply H0, (table_taken D).
  - intros Hd. by destruct (H0 0); [apply (di_dir D m HD)|].
  - split; [done|]. intros pd va Hpd Hva. rewrite Htr by done. rewrite bool_decide_false; [done|]. by apply H0, (di_dir D m HD).
Qed.

(** A new directory maps nothing. *)
Lemma pagedir_create_spec D m :
  dir_inv D m ->
  pagedir_create m = Ok (0, m) /\ kernel_full m \/
  exists pd m', pagedir_create m = Ok (pd, m') /\ kpage_ok pd /\ (pd ∉ D) /\ dir_inv ({[pd]} ∪ D) m' /\ kframe m m' /\ grows m m' /\
    forall pd' va, pd' ∈ {[pd]} ∪ D -> 0 <= va < PHYS_BASE ->
      translate m' pd' va = if bool_decide (pd' = pd) then None else translate m pd' va.
Proof.
  intros HD. unfold pagedir_create. pose proof (di_init D m HD) as (G1 & G2 & G3).
  destruct (palloc_get_page_spec m 0 (di_pool D m HD) eq_refl) as [[E Hall]|(a & m1 & E & Ha & _ & Haok & Htk & Hp & Hk & Hpg & _)].
  { left. split; [|done]. by erewrite stbind_step by exact E. }
  right. assert (Hne : forall b, taken m b -> b <> a) by (intros b Hb ->; done).
  destruct (taken_ok m _ (di_pool D m HD) G1) as [_ (w & Hw & Hl)].
  destruct (taken_ok m1 a Hp) as [_ (wa & Hwa & _)]; [apply Htk; by right|]. set (m' := upd_pages (<[a := w]>) m1).
  assert (Hpg' : forall b, b <> a -> pages m' !! b = pages m !! b) by (intros b Hb; cbn; rewrite lookup_insert_ne by done; by apply Hpg).
  assert (Hp' : pool_ok m' (kernel_pool m')).
  { destruct Hp as [P1 P2 P3 P4]. split; try done. intros k Hk'. destruct (P4 k Hk') as (w' & Hw' & Hl'). unfold full_page. cbn.
    destruct (decide (a = base (kernel_pool m1) + PGSIZE * k)) as [->|Hne']; [rewrite lookup_insert_eq|rewrite lookup_insert_ne by done]; eauto. }
  assert (HaD : a ∉ D) by (intros Had; by apply Ha, (di_dir D m HD)).
  destruct (dir_inv_change D ({[a]} ∪ D) m m' a) as [HD' Htr]; try done.
  - intros pd. rewrite elem_of_union, elem_of_singleton. done.
  - apply Hk.
  - by apply Hne.
  - intros b Hb _. by apply Hpg'.
  - intros b Hb Ht. apply Htk. by left.
  - intros pd i pt Hpd Hi Ht. apply Hne. by eapply (table_taken D).
  - intros _. split; [apply Htk; by right|]. intros i Hi. specialize (G3 i Hi). unfold word in *. cbn. rewrite lookup_insert_eq. by rewrite Hw in G3.
  - exists a, m'. split; [|split; [done|split; [done|split; [done|split; [|split; [exists a; intros b Hb; by apply Htk|done]]]]]].
    + erewrite stbind_step by exact E. rewrite (proj2 (Z.eqb_neq a 0)) by (destruct Haok; unfold PHYS_BASE in *; lia). cbn [negb].
      erewrite stbind_step by done. rewrite (kf_init _ _ Hk), Hpg, Hw, Hwa by (by apply Hne). done.
    + eapply kframe_trans; [exact Hk|]. split; try done. intros b Hb. cbn. apply lookup_insert_ne. intros <-. apply Hb, taken_kernel, Htk. by right.
Qed.

(** Destroying a directory frees its page; the other directories are as
    before.  The page tables of the directory stay in use. *)
Lemma pagedir_destroy_spec D m pd :
  dir_inv D m -> pd ∈ D ->
  exists m', pagedir_destroy pd m = Ok (tt, m') /\ dir_inv (D ∖ {[pd]}) m' /\ kframe m m' /\
    (forall b, taken m' b <-> taken m b /\ b <> pd) /\
    forall pd' va, pd' ∈ D -> pd' <> pd -> 0 <= va < PHYS_BASE -> translate m' pd' va = translate m pd' va.
Proof.
  intros HD Hpd. destruct (dir_page D m pd HD Hpd) as [Hok _]. pose proof (di_init D m HD) as (G1 & G2 & G3).
  assert (Hi : init_page_dir m <> pd) by (intros <-; done).
  destruct (palloc_free_page_spec m pd (di_pool D m HD) (di_dir D m HD pd Hpd)) as (m' & E & Htk & Hp & Hk & Hpg).
  destruct (dir_inv_change D (D ∖ {[pd]}) m m' pd) as [HD' Htr]; try done.
  - set_solver.
  - apply Hk.
  - intros b Hb _. by apply Hpg.
  - intros b Hb Ht. by apply Htk.
  - intros pd' i pt Hpd' Hi' Ht ->. by destruct (table_taken D m pd' i pd HD Hpd' Hi' Ht) as (_ & ? & _).
  - set_solver.
  - exists m'. split; [|split; [done|split; [done|split; [done|]]]].
    + unfold pagedir_destroy. rewrite (proj2 (Z.eqb_neq pd 0)) by (destruct Hok; unfold PHYS_BASE in *; lia).
      erewrite stbind_step by done. rewrite (proj2 (Z.eqb_neq pd _)) by done. by erewrite stbind_step by done.
    + intros pd' va Hpd' Hne Hva. rewrite Htr by (set_solver || done). by rewrite bool_decide_false.
Qed.
