(* ===== verification/VmSpec.v ===== *)
(** The frame table: which user pages a process sees.

    [vm_inv] is the invariant of the whole memory system: the pools are well
    formed and disjoint, every page that a process can reach is a frame that
    is in use, and no frame is mapped twice.  It holds after start-up and every
    operation on the memory of a process preserves it. *)

From stdpp Require Import base list numbers gmap.
From Stdlib Require Import ZArith Lia.
From S2P Require Import Prelude Bitmap Vm PageDir.

#[local] Abbreviation V := (stM vm).

(** ** The steps of a process on its memory *)

(** The part of load (userprog/process.c) that gives the process a page
    directory. *)
Definition load_pagedir : V bool :=
  pd ← pagedir_create;
  m ← get;
  modify (set_current (cur_tid m) pd);;
  if pd =? 0 then mret false else pagedir_activate pd;; mret true.

(** The end of process_exit. *)
Definition exit_pagedir : V unit :=
  m ← get;
  let pd := cur_pagedir m in
  if negb (pd =? 0) then
    modify (set_current (cur_tid m) 0);;
    pagedir_activate 0;;
    pagedir_destroy pd
  else mret tt.

(** A switch to thread [t], whose directory is [pd], and process_activate. *)
Definition switch_pagedir (t pd : Z) : V unit :=
  modify (set_current t pd);;
  m ← get;
  pagedir_activate (cur_pagedir m).

(** The address of a page below the kernel. *)
Definition user_page (upage : Z) : Prop := 0 <= upage < PHYS_BASE /\ upage mod 4096 = 0.

Inductive vm_step : gset Z * vm -> gset Z * vm -> Prop :=
  | VLoad D m ok m' : cur_pagedir m = 0 -> load_pagedir m = Ok (ok, m') ->
      vm_step (D, m) (if ok : bool then {[cur_pagedir m']} ∪ D else D, m')
  | VSwitch D m t pd m' : pd = 0 \/ pd ∈ D -> switch_pagedir t pd m = Ok (tt, m') -> vm_step (D, m) (D, m')
  | VAlloc D m flags upage w a m' : cur_pagedir m <> 0 -> user_page upage ->
      palloc_page flags upage w m = Ok (a, m') -> vm_step (D, m) (D, m')
  | VClear D m upage m' : cur_pagedir m <> 0 -> user_page upage ->
      pagedir_clear_page (cur_pagedir m) upage m = Ok (tt, m') -> vm_step (D, m) (D, m')
  | VExit D m m' : exit_pagedir m = Ok (tt, m') -> vm_step (D, m) (D ∖ {[cur_pagedir m]}, m').

(** ** The invariant *)

(** Frame [k] of the frame table. *)
Definition frame_page (m : vm) (k : Z) : Z := base (frame_pool m) + PGSIZE * k.

Record vm_inv (D : gset Z) (m : vm) : Prop := {
  vi_dir : dir_inv D m;
  vi_pool : pool_ok m (frame_pool m);
  vi_sep : forall k, 0 <= k < bit_cnt (used_map (frame_pool m)) -> ~ kernel_page m (frame_page m k);
  vi_frames : forall k, 0 <= k < bit_cnt (used_map (frame_pool m)) ->
    exists f, frames m !! Z.to_nat k = Some f /\ kpage f = frame_page m k;
  vi_len : Z.of_nat (length (frames m)) < 2 ^ 31;
  vi_ram : forall k, 0 <= k < bit_cnt (used_map (frame_pool m)) -> Z.shiftr (frame_page m k - PHYS_BASE) PTSHIFT < init_ram_pages m;
  vi_mapped : forall pd va a w, pd ∈ D -> 0 <= va < PHYS_BASE -> translate m pd va = Some (a, w) ->
    exists k, in_use (frame_pool m) k /\ a = frame_page m k;
  vi_once : forall pd va pd' va' a w w', pd ∈ D -> pd' ∈ D -> 0 <= va < PHYS_BASE -> 0 <= va' < PHYS_BASE ->
    translate m pd va = Some (a, w) -> translate m pd' va' = Some (a, w') -> pd = pd' /\ va / 4096 = va' / 4096;
  vi_cur : cur_pagedir m = 0 \/ cur_pagedir m ∈ D;
  vi_cr3 : cr3 m + PHYS_BASE = (if cur_pagedir m =? 0 then init_page_dir m else cur_pagedir m)
}.

(** ** Preservation *)

(** No mapping is added: the frame table may stay as it is. *)
Lemma vm_inv_less D D' m m' :
  vm_inv D m -> dir_inv D' m' ->
  frame_pool m' = frame_pool m -> frames m' = frames m -> init_ram_pages m' = init_ram_pages m ->
  base (kernel_pool m') = base (kernel_pool m) ->
  bit_cnt (used_map (kernel_pool m')) = bit_cnt (used_map (kernel_pool m)) ->
  (forall k, 0 <= k < bit_cnt (used_map (frame_pool m)) -> pages m' !! frame_page m k = pages m !! frame_page m k) ->
  (forall pd va a w, pd ∈ D' -> 0 <= va < PHYS_BASE -> translate m' pd va = Some (a, w) -> pd ∈ D /\ translate m pd va = Some (a, w)) ->
  cur_pagedir m' = 0 \/ cur_pagedir m' ∈ D' ->
  cr3 m' + PHYS_BASE = (if cur_pagedir m' =? 0 then init_page_dir m' else cur_pagedir m') ->
  vm_inv D' m'.
Proof.
  intros [H1 H2 H3 H4 H5 H6 H7 H8 _ _] HD Hfp Hfr Hram Hb Hs Hpg Htr Hcur Hcr.
  split; try done; unfold frame_page, kernel_page in *; rewrite ?Hfp, ?Hfr, ?Hram, ?Hb, ?Hs; try done.
  - destruct H2 as [P1 P2 P3 P4]. split; try done. intros k Hk. unfold full_page. rewrite Hpg by done. by apply P4.
  - intros pd va a w Hpd Hva Ht. destruct (Htr pd va a w Hpd Hva Ht). by eapply H7.
  - intros pd va pd' va' a w w' Hpd Hpd' Hva Hva' Ht Ht'.
    destruct (Htr pd va a w Hpd Hva Ht), (Htr pd' va' a w' Hpd' Hva' Ht'). by eapply H8.
Qed.

Lemma vm_inv_kframe D D' m m' :
  vm_inv D m -> dir_inv D' m' -> kframe m m' ->
  (forall pd va a w, pd ∈ D' -> 0 <= va < PHYS_BASE -> translate m' pd va = Some (a, w) -> pd ∈ D /\ translate m pd va = Some (a, w)) ->
  cur_pagedir m = 0 \/ cur_pagedir m ∈ D' -> vm_inv D' m'.
Proof.
  intros HI HD Hk Htr Hcur. pose proof HI as [_ _ Hsep _ _ _ _ _ _ Hcr]. 
  apply (vm_inv_less D D' m m'); try done; try apply Hk.
  - intros k Hr. by apply Hk, Hsep.
  - by rewrite (kf_pd _ _ Hk).
  - by rewrite (kf_cr3 _ _ Hk), (kf_pd _ _ Hk), (kf_init _ _ Hk).
Qed.

(** CR3 and the current thread change. *)
Lemma vm_inv_switch D m t pd p :
  vm_inv D m -> pd = 0 \/ pd ∈ D -> p + PHYS_BASE = (if pd =? 0 then init_page_dir m else pd) ->
  vm_inv D (set_cr3 p (set_current t pd m)).
Proof.
  intros HI Hpd Hp. destruct (dir_inv_ext D m (set_cr3 p (set_current t pd m))) as [HD Htr]; try done; [apply HI|].
  by apply (vm_inv_less D D m).
Qed.

Lemma dir_kpage D m pd : vm_inv D m -> pd ∈ D -> kpage_ok pd.
Proof. intros HI Hpd. by eapply (dir_page D m pd (vi_dir D m HI)). Qed.

Lemma init_kpage D m : vm_inv D m -> kpage_ok (init_page_dir m).
Proof. intros HI. pose proof (vi_dir D m HI) as HD. eapply taken_ok; [apply HD|]. apply (di_init D m HD). Qed.

Lemma activate_Ok m pd :
  kpage_ok (if pd =? 0 then init_page_dir m else pd) ->
  pagedir_activate pd m = Ok (tt, set_cr3 ((if pd =? 0 then init_page_dir m else pd) - PHYS_BASE) m).
Proof.
  intros Hok. unfold pagedir_activate. erewrite stbind_step by done. erewrite stbind_step; [done|]. unfold lift. by rewrite vtop_Ok.
Qed.

(** *** Reserving a frame *)

(** The frame table after frame [k], whose entry is [f], is given to the
    current thread for user page [upage]. *)
Definition reserve (b : bitmap) (k upage : Z) (f : frame_entry) (m : vm) : vm :=
  set_frames (<[Z.to_nat k := MkFrame (cur_tid m) (pg_no upage) true false true (kpage f)]> (frames m))
    (set_frame_pool (MkPool b (base (frame_pool m))) m).

Lemma reserve_inv D m b k upage f :
  vm_inv D m -> 0 <= k < bit_cnt (used_map (frame_pool m)) -> bitmap_wf b -> bit_cnt b = bit_cnt (used_map (frame_pool m)) ->
  (forall j q, in_use (MkPool b q) j <-> in_use (frame_pool m) j \/ j = k) -> frames m !! Z.to_nat k = Some f ->
  vm_inv D (reserve b k upage f m) /\
  forall pd va, pd ∈ D -> 0 <= va < PHYS_BASE -> translate (reserve b k upage f m) pd va = translate m pd va.
Proof.
  intros HI Hk Hwf Hc Huse Hf. pose proof HI as [H1 H2 H3 H4 H5 H6 H7 H8 H9 H10].
  destruct (dir_inv_ext D m (reserve b k upage f m)) as [HD Htr]; try done. split; [|done]. split; try done.
  - destruct H2 as [P1 P2 P3 P4]. split; cbn; [done|done|by rewrite Hc|]. rewrite Hc. intros j Hj. by apply P4.
  - cbn. rewrite Hc. done.
  - cbn. rewrite Hc. intros j Hj. destruct (H4 j Hj) as (g & Hg & Hkg). destruct (decide (j = k)) as [->|Hne].
    + eexists. split; [apply list_lookup_insert_eq; by eapply lookup_lt_Some|]. cbn. rewrite Hf in Hg. injection Hg as ->. done.
    + exists g. split; [|done]. rewrite list_lookup_insert_ne by lia. done.
  - cbn. by rewrite length_insert.
  - cbn. rewrite Hc. done.
  - intros pd va a w Hpd Hva. rewrite Htr by done. intros Ht. destruct (H7 pd va a w Hpd Hva Ht) as (j & Hj & ->).
    exists j. split; [|done]. apply Huse. by left.
Qed.

(** *** Mapping a frame *)

(** Page [upage] of directory [pd] is mapped to frame [k], which nothing maps. *)
Lemma map_inv D m m' pd upage k (w : bool) :
  vm_inv D m -> dir_inv D m' -> kframe m m' -> pd ∈ D -> in_use (frame_pool m) k ->
  (forall pd' va w', pd' ∈ D -> 0 <= va < PHYS_BASE -> translate m pd' va <> Some (frame_page m k, w')) ->
  (forall pd' va, pd' ∈ D -> 0 <= va < PHYS_BASE ->
    translate m' pd' va = if bool_decide (pd' = pd /\ va / 4096 = upage / 4096) then Some (frame_page m k, w) else translate m pd' va) ->
  vm_inv D m'.
Proof.
  intros HI HD Hk Hpd Hu Hfresh Htr. pose proof HI as [H1 H2 H3 H4 H5 H6 H7 H8 H9 H10].
  assert (Hfp : forall j, frame_page m' j = frame_page m j) by (intros j; unfold frame_page; by rewrite (kf_frame _ _ Hk)).
  split; rewrite ?(kf_frame _ _ Hk), ?(kf_frames _ _ Hk), ?(kf_ram _ _ Hk), ?(kf_pd _ _ Hk), ?(kf_cr3 _ _ Hk), ?(kf_init _ _ Hk); try done.
  - destruct H2 as [P1 P2 P3 P4]. split; try done. intros j Hj. unfold full_page. rewrite (kf_pages _ _ Hk) by (by apply H3). by apply P4.
  - intros j Hj. rewrite Hfp. unfold kernel_page. rewrite (kf_base _ _ Hk), (kf_size _ _ Hk). by apply H3.
  - intros j Hj. rewrite Hfp. by apply H4.
  - intros j Hj. rewrite Hfp. by apply H6.
  - intros pd' va a w' Hpd' Hva. rewrite Htr by done. case_bool_decide.
    + intros [= <- <-]. exists k. by rewrite Hfp.
    + intros Ht. destruct (H7 pd' va a w' Hpd' Hva Ht) as (j & Hj & ->). exists j. by rewrite Hfp.
  - intros pd1 va1 pd2 va2 a w1 w2 D1 D2 V1 V2. rewrite !Htr by done. do 2 case_bool_decide.
    + naive_solver congruence.
    + intros [= <- <-] Ht. by destruct (Hfresh pd2 va2 w2).
    + intros Ht [= <- <-]. by destruct (Hfresh pd1 va1 w1).
    + by apply H8.
Qed.

(** A frame is filled. *)
Definition fill_frame (m : vm) (k : Z) : vm := upd_pages (<[frame_page m k := replicate 1024 0]>) m.

Lemma fill_frame_inv D m k :
  vm_inv D m -> 0 <= k < bit_cnt (used_map (frame_pool m)) ->
  vm_inv D (fill_frame m k) /\
  forall pd va, pd ∈ D -> 0 <= va < PHYS_BASE -> translate (fill_frame m k) pd va = translate m pd va.
Proof.
  intros HI Hk. pose proof HI as [H1 H2 H3 H4 H5 H6 H7 H8 H9 H10].
  destruct (dir_inv_ext D m (fill_frame m k)) as [HD Htr]; try done.
  { intros a Ha. cbn. apply lookup_insert_ne. intros <-. by apply (H3 k). }
  split; [|done]. split; try done.
  - destruct H2 as [P1 P2 P3 P4]. split; try done. intros j Hj. destruct (P4 j Hj) as (w & Hw & Hl). unfold full_page, fill_frame, upd_pages.
    cbn [pages]. destruct (decide (frame_page m k = base (frame_pool m) + PGSIZE * j)) as [->|Hne].
    + rewrite lookup_insert_eq. eexists. split; [done|]. by rewrite length_replicate.
    + rewrite lookup_insert_ne by done. eauto.
  - intros pd va a w Hpd Hva. rewrite Htr by done. by apply H7.
  - intros pd va pd' va' a w w' Hpd Hpd' Hva Hva'. rewrite !Htr by done. by apply H8.
Qed.

(** *** The page allocator of user pages *)

Lemma frame_kpage D m k : vm_inv D m -> 0 <= k < bit_cnt (used_map (frame_pool m)) -> kpage_ok (frame_page m k) /\ full_page m (frame_page m k).
Proof. intros HI Hk. pose proof (vi_pool D m HI) as Hp. split; [by eapply pool_page|]. by apply Hp. Qed.

Lemma active_Ok D m : vm_inv D m -> cur_pagedir m <> 0 -> active_pd m = Ok (cur_pagedir m, m).
Proof.
  intros HI Hne. pose proof (vi_cr3 D m HI) as Hcr. rewrite (proj2 (Z.eqb_neq _ 0)) in Hcr by done.
  destruct (vi_cur D m HI) as [|Hin]; [done|]. pose proof (dir_kpage D m _ HI Hin) as Hok. pose proof (kpage_sub _ Hok) as [Hr _].
  unfold active_pd. erewrite stbind_step by done. unfold lift, ptov. rewrite (proj2 (Z.ltb_lt _ _)) by (unfold PHYS_BASE in *; lia).
  cbn [ASSERT mbind res_bind]. unfold mret, res_ret. rewrite Hcr, u32_small; [done|]. destruct Hok. unfold is_u32, PHYS_BASE in *. lia.
Qed.

Lemma zero_user_page_Ok D m upage k (w : bool) :
  vm_inv D m -> cur_pagedir m ∈ D -> 0 <= upage < PHYS_BASE -> 0 <= k < bit_cnt (used_map (frame_pool m)) ->
  translate m (cur_pagedir m) upage = Some (frame_page m k, w) ->
  zero_user_page upage m = if w then Ok (tt, fill_frame m k) else Err EFault.
Proof.
  intros HI Hpd Hva Hk Ht. pose proof (vi_dir D m HI) as HD. destruct (user_index upage Hva) as [Hi Hj].
  pose proof (dir_kpage D m _ HI Hpd) as [Hpok _]. unfold zero_user_page.
  erewrite stbind_step by (apply (active_Ok D m HI); unfold PHYS_BASE in *; lia).
  destruct (di_pde D m HD _ (pd_no upage) Hpd Hi) as [H0|(pt & Htab & Htk & _)].
  { unfold translate in Ht. by rewrite pte_of_None in Ht. }
  erewrite stbind_step by (by apply (lookup_page_table D m _ upage pt)).
  destruct (taken_ok m pt (di_pool D m HD) Htk) as [Hpt Hf]. destruct (full_word m pt (pt_no upage) Hf Hj) as [x Hx].
  rewrite (proj2 (Z.eqb_neq _ 0)) by (destruct Hpt; unfold PHYS_BASE in *; lia). erewrite stbind_step by (by apply load_entry).
  rewrite (translate_pte m _ upage x) in Ht by (by rewrite (pte_of_table _ _ _ _ Htab)). destruct (has x PTE_P) eqn:EP; [|done].
  injection Ht as Ha <-. destruct (has x PTE_W); [|done]. cbn [andb].
  destruct (di_pte D m HD _ _ _ pt x Hpd Hi Hj Htab Hx) as [|(a & f & Haok & Hf' & ->)]; [congruence|].
  rewrite entry_page, Z.sub_add in Ha by done. subst a.
  erewrite stbind_step by (unfold lift; by rewrite entry_ptov). apply fill_one. by eapply frame_kpage.
Qed.

Lemma install_page_spec D m upage k (w : bool) :
  vm_inv D m -> cur_pagedir m ∈ D -> 0 <= upage < PHYS_BASE -> upage mod 4096 = 0 -> in_use (frame_pool m) k ->
  (forall pd va w', pd ∈ D -> 0 <= va < PHYS_BASE -> translate m pd va <> Some (frame_page m k, w')) ->
  install_page upage (frame_page m k) w m = Ok (false, m) /\ (is_Some (translate m (cur_pagedir m) upage) \/ kernel_full m) \/
  exists m', install_page upage (frame_page m k) w m = Ok (true, m') /\ vm_inv D m' /\ kframe m m' /\ grows m m' /\
    translate m (cur_pagedir m) upage = None /\
    forall pd va, pd ∈ D -> 0 <= va < PHYS_BASE ->
      translate m' pd va = if bool_decide (pd = cur_pagedir m /\ va / 4096 = upage / 4096) then Some (frame_page m k, w) else translate m pd va.
Proof.
  intros HI Hpd Hva Hal Hu Hfresh. pose proof (in_use_range _ _ Hu) as Hk. pose proof (vi_dir D m HI) as HD.
  unfold install_page. erewrite stbind_step by done. erewrite stbind_step by (by apply (get_page_translate D)).
  destruct (translate m (cur_pagedir m) upage) as [[a w']|] eqn:Et.
  - left. split; [|left; eauto]. destruct (vi_mapped D m HI _ _ _ _ Hpd Hva Et) as (j & Hj & ->).
    destruct (frame_kpage D m j HI (in_use_range _ _ Hj)) as [[Hok _] _]. rewrite Hal.
    rewrite (proj2 (Z.eqb_neq _ 0)) by (unfold PHYS_BASE in *; lia). done.
  - destruct (frame_kpage D m k HI Hk) as [Hok _]. cbn [Z.eqb].
    destruct (set_page_translate D m (cur_pagedir m) upage (frame_page m k) w HD Hpd Hva Hal Hok (vi_ram D m HI k Hk) Et)
      as [[E Hfull]|(m' & E & HD' & Hkf & Hgr & Htr)].
    + left. split; [done|by right].
    + right. exists m'. split; [done|]. split; [by eapply map_inv|]. done.
Qed.

(** The rest of palloc_page once a frame is reserved. *)
Lemma palloc_page_reserve m flags upage w r b f :
  has flags PAL_USER = true -> bitmap_scan_and_flip (used_map (frame_pool m)) 0 1 false = Ok (r, b) ->
  frames m !! Z.to_nat r = Some f ->
  palloc_page flags upage w m =
    (success ← install_page upage (kpage f) w;
     if negb success then if has flags PAL_ASSERT then raise EPanic else mret 0
     else (if has flags PAL_ZERO then zero_user_page upage else mret tt);; mret (kpage f)) (reserve b r upage f m).
Proof.
  intros Hu E Hf. unfold palloc_page. rewrite Hu. cbn [negb]. erewrite stbind_step by done.
  erewrite stbind_step by (unfold lift; by rewrite E). cbn beta iota. erewrite stbind_step by done.
  erewrite stbind_step by (unfold lift, of_option; by rewrite Hf). by erewrite stbind_step by done.
Qed.

(** What an allocation of frame [k] leaves alone. *)
Record pframe (k : Z) (m m' : vm) : Prop := {
  pf_tid : cur_tid m' = cur_tid m;
  pf_cur : cur_pagedir m' = cur_pagedir m;
  pf_base : base (frame_pool m') = base (frame_pool m);
  pf_size : bit_cnt (used_map (frame_pool m')) = bit_cnt (used_map (frame_pool m));
  pf_kbase : base (kernel_pool m') = base (kernel_pool m);
  pf_ksize : bit_cnt (used_map (kernel_pool m')) = bit_cnt (used_map (kernel_pool m));
  pf_pages : forall j, 0 <= j < bit_cnt (used_map (frame_pool m)) -> j <> k -> pages m' !! frame_page m j = pages m !! frame_page m j;
  pf_grows : grows m m'
}.

(** What an allocation does, given a frame that is free: [m1] is the state with
    that frame reserved. *)
Lemma palloc_page_cases D m flags upage (w : bool) :
  vm_inv D m -> cur_pagedir m ∈ D -> 0 <= upage < PHYS_BASE -> upage mod 4096 = 0 -> has flags PAL_USER = true ->
  (forall k, 0 <= k < bit_cnt (used_map (frame_pool m)) -> in_use (frame_pool m) k) /\ palloc_page flags upage w m = Err EFault \/
  exists k m1, 0 <= k < bit_cnt (used_map (frame_pool m)) /\ ~ in_use (frame_pool m) k /\ vm_inv D m1 /\ pframe k m m1 /\
    (forall j, in_use (frame_pool m1) j <-> in_use (frame_pool m) j \/ j = k) /\
    (forall j, frame_page m1 j = frame_page m j) /\ frames m1 !! Z.to_nat k = Some (MkFrame (cur_tid m) (pg_no upage) true false true (frame_page m k)) /\
    ((palloc_page flags upage w m = (if has flags PAL_ASSERT then Err EPanic else Ok (0, m1)) /\
      (forall pd va, pd ∈ D -> 0 <= va < PHYS_BASE -> translate m1 pd va = translate m pd va) /\
      (is_Some (translate m (cur_pagedir m) upage) \/ kernel_full m)) \/
     (palloc_page flags upage w m = (if has flags PAL_ZERO && negb w then Err EFault else Ok (frame_page m k, m1)) /\
      translate m (cur_pagedir m) upage = None /\
      (has flags PAL_ZERO && w = true -> pages m1 !! frame_page m k = Some (replicate 1024 0)) /\
      (forall pd va, pd ∈ D -> 0 <= va < PHYS_BASE ->
        translate m1 pd va = if bool_decide (pd = cur_pagedir m /\ va / 4096 = upage / 4096) then Some (frame_page m k, w) else translate m pd va))).
Proof.
  intros HI Hpd Hva Hal Hu.
  destruct (pool_alloc (frame_pool m) (po_map _ _ (vi_pool D m HI))) as (r & b & E & [(-> & -> & Hall)|(Hr & Hnu & _ & Hwf & Hc & Huse)]).
  { left. split; [done|]. unfold palloc_page. rewrite Hu. cbn [negb]. erewrite stbind_step by done.
    erewrite stbind_step by (unfold lift; by rewrite E). cbn beta iota. erewrite stbind_step by done.
    apply stbind_err. unfold lift, of_option. rewrite lookup_ge_None_2; [done|].
    pose proof (vi_len D m HI). unfold BITMAP_ERROR. lia. }
  right. destruct (vi_frames D m HI r Hr) as (f & Hf & Hkf).
  destruct (reserve_inv D m b r upage f HI Hr Hwf Hc Huse Hf) as [HI1 Htr1]. rewrite (palloc_page_reserve m flags upage w r b f) by done.
  set (m1 := reserve b r upage f m) in *. rewrite Hkf.
  assert (Hu1 : in_use (frame_pool m1) r) by (apply Huse; by right).
  assert (Hf1 : frames m1 !! Z.to_nat r = Some (MkFrame (cur_tid m) (pg_no upage) true false true (frame_page m r))).
  { cbn. rewrite <- Hkf. apply list_lookup_insert_eq. by eapply lookup_lt_Some. }
  assert (Hfresh : forall pd va w', pd ∈ D -> 0 <= va < PHYS_BASE -> translate m1 pd va <> Some (frame_page m r, w')).
  { intros pd va w' Hpd' Hva' Ht. rewrite Htr1 in Ht by done. destruct (vi_mapped D m HI _ _ _ _ Hpd' Hva' Ht) as (j & Hj & Heq).
    apply Hnu. unfold frame_page in Heq. change PGSIZE with 4096 in Heq. assert (r = j) as -> by lia. done. }
  assert (Huse1 : forall j, in_use (frame_pool m1) j <-> in_use (frame_pool m) j \/ j = r) by (intros j; apply Huse).
  destruct (install_page_spec D m1 upage r w HI1 Hpd Hva Hal Hu1 Hfresh) as [[Ei Hwhy]|(m2 & Ei & HI2 & Hk2 & Hgr2 & Hn2 & Htr2)];
    change (frame_page m1 r) with (frame_page m r) in *.
  - exists r, m1. do 3 (split; [done|]). split; [split; try done; exact (grows_refl m)|]. do 3 (split; [done|]). left. erewrite stbind_step by exact Ei. split; [by destruct (has flags PAL_ASSERT)|].
    split; [done|]. by rewrite <- Htr1.
  - rewrite Htr1 in Hn2 by done.
    assert (Htr2' : forall pd va, pd ∈ D -> 0 <= va < PHYS_BASE ->
      translate m2 pd va = if bool_decide (pd = cur_pagedir m /\ va / 4096 = upage / 4096) then Some (frame_page m r, w) else translate m pd va)
      by (intros pd va Hpd' Hva'; rewrite Htr2, Htr1 by done; done).
    assert (Hfp2 : frame_pool m2 = frame_pool m1) by apply Hk2.
    assert (Hpage : forall j, frame_page m2 j = frame_page m j) by (intros j; unfold frame_page; by rewrite Hfp2).
    assert (Hfr2 : frames m2 = frames m1) by apply Hk2.
    assert (Hr2 : 0 <= r < bit_cnt (used_map (frame_pool m2))) by (rewrite Hfp2; by apply in_use_range).
    destruct (fill_frame_inv D m2 r HI2 Hr2) as [HI3 Htr3].
    assert (Ez : zero_user_page upage m2 = if w then Ok (tt, fill_frame m2 r) else Err EFault).
    { apply (zero_user_page_Ok D m2 upage r w); rewrite ?(kf_pd _ _ Hk2); try done. rewrite Htr2' by done. rewrite Hpage.
      by rewrite bool_decide_true. }
    exists r, (if has flags PAL_ZERO && w then fill_frame m2 r else m2). split; [done|]. split; [done|].
    split; [by destruct (has flags PAL_ZERO && w)|].
    split.
    { assert (Hpf : pframe r m m2).
      { split; rewrite ?(kf_tid _ _ Hk2), ?(kf_pd _ _ Hk2), ?Hfp2, ?(kf_base _ _ Hk2), ?(kf_size _ _ Hk2); try done.
        intros j Hj Hne. apply Hk2. by apply (vi_sep D m HI). }
      destruct (has flags PAL_ZERO && w); [|done]. destruct Hpf. split; try done. intros j Hj Hne. cbn. rewrite Hpage.
      rewrite lookup_insert_ne; [by apply pf_pages0|]. unfold frame_page. change PGSIZE with 4096. lia. }
    split; [destruct (has flags PAL_ZERO && w); cbn; by rewrite Hfp2|].
    split; [by destruct (has flags PAL_ZERO && w)|]. split; [destruct (has flags PAL_ZERO && w); cbn; by rewrite Hfr2|].
    right. split; [|split; [done|split]].
    + erewrite stbind_step by exact Ei. cbn [negb]. destruct (has flags PAL_ZERO); [|done]. unfold mbind, stM_bind. rewrite Ez. by destruct w.
    + intros ->. cbn. rewrite Hpage. apply lookup_insert_eq.
    + intros pd va Hpd' Hva'. rewrite <- Htr2' by done. destruct (has flags PAL_ZERO && w); [by apply Htr3|done].
Qed.

Lemma load_inv D m ok m' :
  vm_inv D m -> cur_pagedir m = 0 -> load_pagedir m = Ok (ok, m') -> vm_inv (if ok : bool then {[cur_pagedir m']} ∪ D else D) m'.
Proof.
  intros HI H0. unfold load_pagedir.
  destruct (pagedir_create_spec D m (vi_dir D m HI)) as [[E _]|(pd & m1 & E & Hok & Hpd & HD & Hk & _ & Htr)]; erewrite stbind_step by exact E.
  - erewrite stbind_step by done. intros [= <- <-]. pose proof (vi_cr3 D m HI) as Hcr. rewrite H0 in Hcr.
    pose proof (vm_inv_switch D m (cur_tid m) 0 (cr3 m) HI (or_introl eq_refl) Hcr) as Hs. by destruct m.
  - do 2 (erewrite stbind_step by done). assert (Hne : (pd =? 0) = false) by (apply Z.eqb_neq; destruct Hok; unfold PHYS_BASE in *; lia).
    rewrite Hne. erewrite stbind_step by (apply activate_Ok; by rewrite Hne). rewrite Hne. intros [= <- <-]. cbn.
    apply vm_inv_switch; [|right; set_solver|rewrite Hne; lia]. apply (vm_inv_kframe D _ m); [done..| |by left].
    intros pd' va a w Hpd' Hva Ht. rewrite Htr in Ht by done. case_bool_decide; [done|]. split; [set_solver|done].
Qed.

Lemma exit_inv D m m' : vm_inv D m -> exit_pagedir m = Ok (tt, m') -> vm_inv (D ∖ {[cur_pagedir m]}) m'.
Proof.
  intros HI. unfold exit_pagedir. erewrite stbind_step by done. destruct (Z.eqb_spec (cur_pagedir m) 0) as [H0|Hne]; cbn [negb].
  - intros [= <-]. assert (Hn : 0 ∉ D) by (intros Hin; destruct (dir_kpage D m 0 HI Hin); unfold PHYS_BASE in *; lia).
    rewrite H0. by replace (D ∖ {[0]}) with D by set_solver.
  - destruct (vi_cur D m HI) as [|Hin]; [done|]. erewrite stbind_step by done.
    erewrite stbind_step by (apply activate_Ok; by apply (init_kpage D m)). cbn [Z.eqb]. set (m1 := set_cr3 _ _).
    assert (HI1 : vm_inv D m1) by (apply vm_inv_switch; [done|by left|cbn; lia]).
    destruct (pagedir_destroy_spec D m1 (cur_pagedir m) (vi_dir D m1 HI1) Hin) as (m2 & E & HD & Hk & _ & Htr).
    rewrite E. intros [= <-]. apply (vm_inv_kframe D _ m1); [done..| |by left].
    intros pd va a w Hpd Hva Ht. rewrite Htr in Ht by (done || set_solver). split; [set_solver|done].
Qed.

Lemma alloc_inv D m flags upage w a m' :
  vm_inv D m -> cur_pagedir m <> 0 -> user_page upage -> palloc_page flags upage w m = Ok (a, m') -> vm_inv D m'.
Proof.
  intros HI Hne [Hva Hal] E. destruct (vi_cur D m HI) as [|Hin]; [done|].
  destruct (has flags PAL_USER) eqn:Hu; [|unfold palloc_page in E; by rewrite Hu in E].
  destruct (palloc_page_cases D m flags upage w HI Hin Hva Hal Hu) as [[_ E']|(k & m1 & _ & _ & HI1 & _ & _ & _ & _ & [[E' _]|[E' _]])];
    rewrite E' in E; [done|destruct (has flags PAL_ASSERT)|destruct (has flags PAL_ZERO && negb w)]; by simplify_eq.
Qed.

Lemma clear_inv D m upage m' :
  vm_inv D m -> cur_pagedir m <> 0 -> user_page upage -> pagedir_clear_page (cur_pagedir m) upage m = Ok (tt, m') -> vm_inv D m'.
Proof.
  intros HI Hne [Hva Hal] E. destruct (vi_cur D m HI) as [|Hin]; [done|].
  destruct (clear_page_translate D m (cur_pagedir m) upage) as (m1 & E1 & HD & Hk & Htr); try done; [apply HI| |].
  - rewrite (vi_cr3 D m HI), (proj2 (Z.eqb_neq _ 0)) by done. by eapply dir_kpage.
  - rewrite E1 in E. injection E as <-. apply (vm_inv_kframe D _ m); [done..| |by right].
    intros pd va a w Hpd Hva' Ht. rewrite Htr in Ht by done. by case_bool_decide.
Qed.

Lemma vm_step_inv s s' : vm_step s s' -> vm_inv s.1 s.2 -> vm_inv s'.1 s'.2.
Proof.
  intros [D m ok m' H0 E|D m t pd m' Hpd E|D m flags upage w a m' Hne Hu E|D m upage m' Hne Hu E|D m m' E] HI; cbn in *.
  - by eapply load_inv.
  - unfold switch_pagedir in E. do 2 (erewrite stbind_step in E by done). cbn in E.
    rewrite activate_Ok in E.
    + injection E as <-. apply vm_inv_switch; [done..|]. cbn. lia.
    + cbn. destruct (Z.eqb_spec pd 0); [by eapply init_kpage|]. destruct Hpd; [done|]. by eapply dir_kpage.
  - by eapply alloc_inv.
  - by eapply clear_inv.
  - by apply exit_inv.
Qed.

Lemma vm_step_inv_pair D m D' m' : vm_step (D, m) (D', m') -> vm_inv D m -> vm_inv D' m'.
Proof. apply vm_step_inv. Qed.

Lemma vm_steps_inv D m D' m' : rtc vm_step (D, m) (D', m') -> vm_inv D m -> vm_inv D' m'.
Proof.
  intros H. remember (D, m) as s eqn:Es. remember (D', m') as s' eqn:Es'. revert D m Es.
  induction H as [s|s1 [D1 m1] s2 Hs _ IH]; intros D m ->; [by simplify_eq|]. intros HI. eapply IH; [done|done|]. by eapply vm_step_inv_pair.
Qed.

(** The order of the supplemental page table holds of any two page entries, of
    an entry and itself too. *)
Theorem less_holds tid p_num pa pb : pa <> 0 -> pb <> 0 -> less tid p_num pa pb = true.
Proof.
  intros Ha Hb. unfold less. destruct (tid pa =? tid pb), (p_num pa <? p_num pb), (tid pa <? tid pb); by apply negb_true_iff, Z.eqb_neq.
Qed.
