(* ===== verification/VmBoot.v ===== *)
(** Start-up of the memory system: palloc_init (threads/palloc.c) splits
    memory into the kernel pool and the user pool and builds the frame table
    (vm/frame.c); paging_init (threads/init.c) maps all of memory for the
    kernel.  After both, the invariant [vm_inv] holds with no process. *)

From stdpp Require Import base list numbers gmap.
From Stdlib Require Import ZArith Lia.
From S2P Require Import Prelude Bitmap Vm PageDir VmSpec.

#[local] Abbreviation V := (stM vm).

(** ** Pools *)

(** The pages a pool of [n] pages gives to its bitmap. *)
Definition bm_pages (n : Z) : Z := div_round_up (bitmap_buf_size n) PGSIZE.

Lemma buf_size_eq n : 0 <= n <= 2 ^ 20 -> bitmap_buf_size n = 8 + 4 * ((n + 31) / 32).
Proof.
  intros Hn. unfold bitmap_buf_size, byte_cnt. rewrite elem_cnt_eq by (unfold ELEM_BITS; lia).
  assert (0 <= (n + 31) / 32 <= 2 ^ 20) by (Z.to_euclidean_division_equations; lia).
  rewrite (u32_small (4 * _)) by (unfold is_u32; lia). unfold sizeof_bitmap. apply u32_small. unfold is_u32. lia.
Qed.

Lemma bm_pages_eq n : 0 <= n <= 2 ^ 20 -> bm_pages n = (8 + 4 * ((n + 31) / 32) + 4095) / 4096.
Proof. intros Hn. unfold bm_pages, div_round_up. rewrite buf_size_eq by done. change PGSIZE with 4096. f_equal. lia. Qed.

Lemma bm_pages_bound n : 0 <= n <= 2 ^ 18 -> 1 <= bm_pages n <= 9.
Proof. intros Hn. rewrite bm_pages_eq by lia. Z.to_euclidean_division_equations. lia. Qed.

(** A pool starts with every page free. *)
Lemma init_pool_spec base n block :
  0 <= n <= 2 ^ 20 -> bm_pages n <= n -> length block = (1024 * Z.to_nat n)%nat -> Forall is_u32 block ->
  exists b, init_pool base n block = Ok (MkPool b (base + bm_pages n * PGSIZE)) /\ bitmap_wf b /\ bit_cnt b = n - bm_pages n /\
    babs b = replicate (Z.to_nat (n - bm_pages n)) false.
Proof.
  intros Hn Hbm Hlen Hb. pose proof (bm_pages_eq n Hn) as Heq. unfold init_pool. fold (bm_pages n).
  rewrite (proj2 (Z.ltb_ge _ _)) by done. unfold bitmap_create_in_buf.
  assert (H0 : 0 <= bm_pages n) by (rewrite Heq; Z.to_euclidean_division_equations; lia).
  rewrite buf_size_eq by lia. rewrite (proj2 (Z.leb_le _ _)).
  2: { change PGSIZE with 4096. Z.to_euclidean_division_equations. lia. }
  cbn [ASSERT mbind res_bind].
  destruct (bitmap_set_all_spec (mk_bitmap (n - bm_pages n) (drop 2 block)) false) as (b & E & Hwf & Hc & Ha).
  - split; [cbn; unfold ELEM_BITS; lia|]. split; [|cbn; by apply Forall_drop]. cbn [bit_cnt bits]. rewrite elem_cnt_eq by (unfold ELEM_BITS; lia).
    rewrite length_drop, Hlen. Z.to_euclidean_division_equations. lia.
  - rewrite E. cbn [mbind res_bind]. exists b. done.
Qed.

Lemma free_pool b q k n : babs b = replicate n false -> ~ in_use (MkPool b q) k.
Proof. intros H [_ Hk]. cbn in Hk. rewrite H in Hk. by apply lookup_replicate in Hk as [? _]. Qed.

(** ** Memory at start-up *)

(** Pages [i] up to [j] of physical memory hold 1024 words each. *)
Definition ram (m : vm) (i j : Z) : Prop :=
  forall p, i <= p < j -> exists w, pages m !! (PHYS_BASE + PGSIZE * p) = Some w /\ length w = 1024%nat /\ Forall is_u32 w.

Lemma ram_words m n : forall p, ram m p (p + Z.of_nat n) ->
  length (page_words n (PHYS_BASE + PGSIZE * p) m) = (1024 * n)%nat /\ Forall is_u32 (page_words n (PHYS_BASE + PGSIZE * p) m).
Proof.
  induction n as [|n IH]; intros p Hr; [done|]. cbn [page_words]. destruct (Hr p ltac:(lia)) as (w & Hw & Hl & Hu). rewrite Hw. cbn [default].
  replace (PHYS_BASE + PGSIZE * p + PGSIZE) with (PHYS_BASE + PGSIZE * (p + 1)) by lia.
  destruct (IH (p + 1)) as [IH1 IH2]; [intros q Hq; apply Hr; lia|]. rewrite length_app, IH1, Forall_app. unfold id. split; [lia|done].
Qed.

Lemma ram_insert m i j a : ram m i j -> ram (upd_pages (<[a := replicate 1024 0]>) m) i j.
Proof.
  intros Hr p Hp. cbn [pages upd_pages]. destruct (decide (a = PHYS_BASE + PGSIZE * p)) as [->|Hne].
  - rewrite lookup_insert_eq. eexists. split; [done|]. rewrite length_replicate. split; [done|]. by apply Forall_replicate.
  - rewrite lookup_insert_ne by done. by apply Hr.
Qed.

(** Zeroing pages keeps memory in this form and changes nothing else. *)
Lemma fill_pages_ram n : forall p m, ram m p (p + Z.of_nat n) ->
  exists m', fill_pages n (PHYS_BASE + PGSIZE * p) 0 m = Ok (tt, m') /\ m' = upd_pages (fun _ => pages m') m /\
    forall i j, ram m i j -> ram m' i j.
Proof.
  induction n as [|n IH]; intros p m Hr; [exists m; split; [done|]; by destruct m|]. cbn [fill_pages].
  erewrite stbind_step by done. destruct (Hr p ltac:(lia)) as (w & Hw & _). rewrite Hw. erewrite stbind_step by done.
  set (m1 := upd_pages _ m). assert (Hr1 : forall i j, ram m i j -> ram m1 i j) by (intros i j; apply ram_insert).
  replace (PHYS_BASE + PGSIZE * p + PGSIZE) with (PHYS_BASE + PGSIZE * (p + 1)) by lia.
  destruct (IH (p + 1) m1) as (m' & E & Hm & Hram); [apply Hr1; intros q Hq; apply Hr; lia|].
  exists m'. split; [done|]. split; [by rewrite Hm|]. intros i j H. by apply Hram, Hr1.
Qed.

(** ** threads/palloc.c, palloc_init *)

Lemma ptov_Ok p : 0 <= p < 2 ^ 18 -> ptov (p * PGSIZE) = Ok (PHYS_BASE + PGSIZE * p).
Proof.
  intros Hp. change PGSIZE with 4096. unfold ptov. rewrite (proj2 (Z.ltb_lt _ _)) by (unfold PHYS_BASE; lia). cbn [ASSERT mbind res_bind].
  unfold mret, res_ret. rewrite u32_small by (unfold is_u32, PHYS_BASE; lia). f_equal. lia.
Qed.

(** The sizes of the user pool and of the kernel pool, with their bitmaps. *)
Definition user_pages (N limit : Z) : Z := Z.min ((N - 256) / 2) limit.
Definition kernel_pages (N limit : Z) : Z := N - 256 - user_pages N limit.

Lemma old_palloc_init_spec m N limit :
  init_ram_pages m = N -> 512 <= N < 2 ^ 18 -> 16 <= limit -> ram m 256 N ->
  exists kb ub, let kn := kernel_pages N limit in let un := user_pages N limit in
    old_palloc_init limit m = Ok (un, set_user_pool (MkPool ub (PHYS_BASE + PGSIZE * (256 + kn + bm_pages un)))
      (set_kernel_pool (MkPool kb (PHYS_BASE + PGSIZE * (256 + bm_pages kn))) m)) /\
    bitmap_wf kb /\ bit_cnt kb = kn - bm_pages kn /\ babs kb = replicate (Z.to_nat (kn - bm_pages kn)) false /\
    bitmap_wf ub /\ bit_cnt ub = un - bm_pages un /\ babs ub = replicate (Z.to_nat (un - bm_pages un)) false.
Proof.
  intros HN Hr Hl Hram. cbn zeta. set (un := user_pages N limit). set (kn := kernel_pages N limit).
  assert (Hun : 16 <= un <= (N - 256) / 2) by (unfold un, user_pages; Z.to_euclidean_division_equations; lia).
  assert (Hkn : kn = N - 256 - un) by done. assert (Hdiv : (N - 256) / 2 <= N - 256) by (Z.to_euclidean_division_equations; lia).
  assert (Hh : 128 <= (N - 256) / 2 /\ (N - 256) / 2 * 2 <= N - 256) by (Z.to_euclidean_division_equations; lia).
  destruct (ram_words m (Z.to_nat kn) 256) as [K1 K2]; [intros p Hp; apply Hram; lia|].
  destruct (ram_words m (Z.to_nat un) (256 + kn)) as [U1 U2]; [intros p Hp; apply Hram; lia|].
  pose proof (bm_pages_bound kn ltac:(lia)). pose proof (bm_pages_bound un ltac:(lia)).
  destruct (init_pool_spec (PHYS_BASE + PGSIZE * 256) kn _ ltac:(lia) ltac:(lia) K1 K2) as (kb & EK & HK).
  destruct (init_pool_spec (PHYS_BASE + PGSIZE * (256 + kn)) un _ ltac:(lia) ltac:(lia) U1 U2) as (ub & EU & HU).
  exists kb, ub. split; [|tauto]. unfold old_palloc_init. erewrite stbind_step by done. rewrite HN.
  change (1024 * 1024) with (256 * PGSIZE). erewrite stbind_step by (unfold lift; by rewrite ptov_Ok by lia).
  erewrite stbind_step by (unfold lift; by rewrite ptov_Ok by lia).
  assert (Hfree : (PHYS_BASE + PGSIZE * N - (PHYS_BASE + PGSIZE * 256)) / PGSIZE = N - 256).
  { replace (PHYS_BASE + PGSIZE * N - (PHYS_BASE + PGSIZE * 256)) with ((N - 256) * PGSIZE) by lia. by apply Z.div_mul. }
  rewrite Hfree. assert (Hmin : (if limit <? (N - 256) / 2 then limit else (N - 256) / 2) = un).
  { unfold un, user_pages. destruct (Z.ltb_spec limit ((N - 256) / 2)); lia. }
  cbn zeta. rewrite Hmin. fold (kernel_pages N limit). fold kn. change (N - 256 - un) with kn.
  erewrite stbind_step by (unfold lift; by rewrite EK).
  replace (PHYS_BASE + PGSIZE * 256 + kn * PGSIZE) with (PHYS_BASE + PGSIZE * (256 + kn)) by lia.
  erewrite stbind_step by (unfold lift; by rewrite EU). do 2 (erewrite stbind_step by done).
  unfold mret, stM_ret. do 3 f_equal; [f_equal; lia|]. f_equal. f_equal. lia.
Qed.

(** What palloc_init leaves, with the first [F] pages of the kernel pool taken for the array of frames. *)
Record palloc_ready (N F : Z) (m m' : vm) : Prop := {
  pr_ram : ram m' 256 N;
  pr_pages : init_ram_pages m' = N;
  pr_cur : cur_pagedir m' = cur_pagedir m;
  pr_kernel : exists p0, base (kernel_pool m') = PHYS_BASE + PGSIZE * p0 /\ 256 <= p0 /\ F + N / 1024 + 2 <= bit_cnt (used_map (kernel_pool m')) /\
    exists f0, base (frame_pool m') = PHYS_BASE + PGSIZE * f0 /\ p0 + bit_cnt (used_map (kernel_pool m')) <= f0 /\
      f0 + bit_cnt (used_map (frame_pool m')) <= N;
  pr_kwf : bitmap_wf (used_map (kernel_pool m'));
  pr_kused : forall k, in_use (kernel_pool m') k <-> 0 <= k < F;
  pr_fwf : bitmap_wf (used_map (frame_pool m'));
  pr_ffree : forall k, ~ in_use (frame_pool m') k;
  pr_some : 0 < bit_cnt (used_map (frame_pool m'));
  pr_frames : forall k, 0 <= k < bit_cnt (used_map (frame_pool m')) ->
    exists f, frames m' !! Z.to_nat k = Some f /\ kpage f = frame_page m' k;
  pr_len : Z.of_nat (length (frames m')) < 2 ^ 31
}.

(** Taking all the pages of a pool that is free. *)
Lemma scan_all b n :
  bitmap_wf b -> 0 < bit_cnt b -> n = bit_cnt b -> babs b = replicate (Z.to_nat n) false ->
  exists b', bitmap_scan_and_flip b 0 n false = Ok (0, b').
Proof.
  intros Hwf H0 -> Hb. pose proof (length_babs b) as Hlen. pose proof (proj1 Hwf) as Hsize.
  destruct (bitmap_scan_and_flip_spec b 0 (Z.to_nat (bit_cnt b)) false Hwf ltac:(lia)) as (r & b' & E & _ & _ & Hfirst & _).
  rewrite Z2Nat.id in E by lia. exists b'. destruct Hfirst as [(i & -> & _ & Hi & _)|[_ Hno]].
  - assert (i = 0%nat) as -> by lia. done.
  - exfalso. apply (Hno 0%nat); [lia|lia|]. unfold run_of. rewrite drop_0, Hb. rewrite take_ge; [done|]. by rewrite length_replicate.
Qed.

(** Taking the first pages of a pool that is free. *)
Lemma scan_first b n q :
  bitmap_wf b -> 0 < n <= bit_cnt b -> babs b = replicate (Z.to_nat (bit_cnt b)) false ->
  exists b', bitmap_scan_and_flip b 0 n false = Ok (0, b') /\ bitmap_wf b' /\ bit_cnt b' = bit_cnt b /\ forall k, in_use (MkPool b' q) k <-> 0 <= k < n.
Proof.
  intros Hwf Hn Hb. pose proof (length_babs b) as Hlen. pose proof (proj1 Hwf) as Hsize.
  destruct (bitmap_scan_and_flip_spec b 0 (Z.to_nat n) false Hwf ltac:(lia)) as (r & b' & E & W & C & Hfirst & Hr). rewrite Z2Nat.id in E by lia. exists b'.
  assert (Hrun : run_of (babs b) 0 (Z.to_nat n) false) by (unfold run_of; rewrite drop_0, Hb, take_replicate; f_equal; lia).
  destruct Hr as [[-> _]|(i & -> & _ & Hi & Ha)].
  { destruct Hfirst as [(i & Hbad & _ & Hi & _)|[_ Hno]]; [unfold BITMAP_ERROR, ELEM_BITS in *; lia|]. by destruct (Hno 0%nat); [lia|lia|]. }
  assert (i = 0%nat) as ->.
  { destruct Hfirst as [(i' & Hi' & _ & _ & _ & Hmin)|[Hbad _]]; [|unfold BITMAP_ERROR, ELEM_BITS in *; lia]. apply Nat2Z.inj in Hi'. subst i'.
    destruct (decide (i = 0%nat)); [done|]. by destruct (Hmin 0%nat); [lia|]. }
  split; [done|]. split; [done|]. split; [done|]. intros k. unfold in_use. cbn [used_map]. rewrite Ha, take_0, app_nil_l. cbn [negb Nat.add]. split.
  - intros [Hk Hl]. split; [done|]. destruct (decide (Z.to_nat k < Z.to_nat n)%nat); [lia|]. rewrite lookup_app_r in Hl by (rewrite length_replicate; lia). rewrite lookup_drop, Hb in Hl. by apply lookup_replicate in Hl as [? _].
  - intros Hk. split; [lia|]. rewrite lookup_app_l by (rewrite length_replicate; lia). apply lookup_replicate_2. lia.
Qed.

Lemma ram_put m i j a n x : ram m i j -> is_u32 x -> ram (put_word m a n x) i j.
Proof.
  intros Hr Hx p Hp. destruct (Hr p Hp) as (w & Hw & Hl & Hu). unfold put_word. cbn [pages upd_pages]. destruct (decide (a = PHYS_BASE + PGSIZE * p)) as [->|Hne].
  - rewrite lookup_alter_eq, Hw. eexists. split; [done|]. rewrite length_insert. split; [done|]. by apply Forall_insert.
  - rewrite lookup_alter_ne by done. by exists w.
Qed.

(** malloc without descriptors, on a kernel pool that is free. *)
Lemma early_malloc_spec m N p0 size :
  ram m 256 N -> N < 2 ^ 18 -> bitmap_wf (used_map (kernel_pool m)) -> base (kernel_pool m) = PHYS_BASE + PGSIZE * p0 -> 256 <= p0 -> p0 + bit_cnt (used_map (kernel_pool m)) <= N ->
  babs (used_map (kernel_pool m)) = replicate (Z.to_nat (bit_cnt (used_map (kernel_pool m)))) false ->
  let F := (size + 12 + 4095) / 4096 in 0 < size < 2 ^ 31 -> F <= bit_cnt (used_map (kernel_pool m)) ->
  exists b m', early_malloc size m = Ok (base (kernel_pool m) + 12, m') /\ bitmap_wf b /\ bit_cnt b = bit_cnt (used_map (kernel_pool m)) /\
    (forall k, in_use (MkPool b (base (kernel_pool m))) k <-> 0 <= k < F) /\ ram m' 256 N /\
    m' = set_kernel_pool (MkPool b (base (kernel_pool m))) (upd_pages (fun _ => pages m') m).
Proof.
  intros Hram HN Hwf Hb Hp0 Hend Hfree F Hs HF. assert (HF0 : 0 < F) by (unfold F; Z.to_euclidean_division_equations; lia).
  assert (EF : div_round_up (u32 (size + 12)) PGSIZE = F) by (unfold div_round_up, F; rewrite u32_small by (unfold is_u32; lia); change PGSIZE with 4096; f_equal; lia).
  destruct (scan_first (used_map (kernel_pool m)) F (base (kernel_pool m)) Hwf ltac:(lia) Hfree) as (b & E & W & C & U).
  set (a := base (kernel_pool m)) in *. set (m1 := set_kernel_pool (MkPool b a) m).
  assert (Ha : kpage_ok a) by (rewrite Hb; change PGSIZE with 4096; unfold kpage_ok, PHYS_BASE; split; [lia|]; Z.to_euclidean_division_equations; lia).
  assert (Ha0 : a <> 0) by (destruct Ha; unfold PHYS_BASE in *; lia). destruct (Hram p0) as (w & Hw & Hl & _); [lia|]. rewrite <- Hb in Hw. fold a in Hw.
  assert (Hf : full_page m1 a) by (by exists w).
  assert (HFu : is_u32 F) by (unfold is_u32, F; Z.to_euclidean_division_equations; lia).
  exists b, (put_word (put_word (put_word m1 a 0 0x9a548eed) a 1 0) a 2 F). split.
  - unfold early_malloc. rewrite (proj2 (Z.eqb_neq size 0)) by lia. cbn zeta. rewrite EF.
    assert (Eg : palloc_get_multiple 0 F m = Ok (a, m1)).
    { unfold palloc_get_multiple, old_palloc_get_multiple. erewrite stbind_step by done. rewrite (proj2 (Z.eqb_neq F 0)) by lia. erewrite stbind_step by done.
      change (has 0 PAL_USER) with false. change (has 0 PAL_ZERO) with false. cbn iota zeta. erewrite stbind_step by (unfold lift; by rewrite E). cbn beta iota. erewrite stbind_step by done.
      change (negb (0 =? BITMAP_ERROR)) with true. cbn iota. rewrite Z.mul_0_r, Z.add_0_r. fold a. rewrite (proj2 (Z.eqb_neq a 0)) by done. done. }
    erewrite stbind_step by exact Eg. rewrite (proj2 (Z.eqb_neq a 0)) by done.
    pose proof (store_entry m1 a 0 0x9a548eed Ha ltac:(lia) Hf) as Es. rewrite Z.mul_0_r, Z.add_0_r in Es. erewrite stbind_step by exact Es.
    erewrite stbind_step by (apply (store_entry _ a 1); [done|lia|by apply put_word_full]).
    erewrite stbind_step by (apply (store_entry _ a 2); [done|lia|by do 2 apply put_word_full]). done.
  - do 3 (split; [done|]). split; [|done]. by do 3 (apply ram_put; [|done || (unfold is_u32; lia)]).
Qed.

Lemma palloc_init_spec m N limit :
  init_ram_pages m = N -> 512 <= N < 2 ^ 18 -> 16 <= limit -> ram m 256 N ->
  exists F m', palloc_init limit m = Ok (tt, m') /\ 0 <= F /\ palloc_ready N F m m'.
Proof.
  intros HN Hr Hl Hram. destruct (old_palloc_init_spec m N limit HN Hr Hl Hram) as (kb & ub & E & K1 & K2 & K3 & U1 & U2 & U3).
  set (un := user_pages N limit) in *. set (kn := kernel_pages N limit) in *.
  assert (Hun : 16 <= un <= (N - 256) / 2) by (unfold un, user_pages; Z.to_euclidean_division_equations; lia).
  assert (Hkn : kn = N - 256 - un) by done.
  assert (Hh : 128 <= (N - 256) / 2 /\ (N - 256) / 2 * 2 <= N - 256) by (Z.to_euclidean_division_equations; lia).
  pose proof (bm_pages_bound kn ltac:(lia)). pose proof (bm_pages_bound un ltac:(lia)).
  set (nf := un - bm_pages un) in *. assert (Hnf : 7 <= nf) by lia. assert (Hbf : bm_pages nf <= nf - 1).
  { rewrite bm_pages_eq by lia. Z.to_euclidean_division_equations. lia. }
  pose proof (bm_pages_bound nf ltac:(lia)).
  set (m1 := set_user_pool _ _) in E. unfold palloc_init. erewrite stbind_step by exact E. fold (bm_pages un). fold nf.
  unfold frame_table_init. destruct (scan_all ub nf) as (ub' & Eu); [done|lia|done|done|].
  set (f0 := 256 + kn + bm_pages un) in *. set (m2 := set_user_pool (MkPool ub' (PHYS_BASE + PGSIZE * f0)) m1).
  destruct (fill_pages_ram (Z.to_nat nf) f0 m2) as (m3 & E3 & Hm3 & Hram3); [intros p Hp; apply Hram; lia|].
  assert (E2 : old_palloc_get_multiple (Z.lor (Z.lor PAL_USER PAL_ZERO) PAL_ASSERT) nf m1 = Ok (PHYS_BASE + PGSIZE * f0, m3)).
  { unfold old_palloc_get_multiple. rewrite (proj2 (Z.eqb_neq nf 0)) by lia. erewrite stbind_step by done.
    change (has _ PAL_USER) with true. change (has _ PAL_ZERO) with true. cbn iota. change (used_map (user_pool m1)) with ub.
    erewrite stbind_step by (unfold lift; by rewrite Eu). cbn beta iota. erewrite stbind_step by done.
    change (negb (0 =? BITMAP_ERROR)) with true. cbn iota.
    replace (base (user_pool m1) + PGSIZE * 0) with (PHYS_BASE + PGSIZE * f0) by (cbn; lia).
    rewrite (proj2 (Z.eqb_neq (PHYS_BASE + _) 0)) by (change PGSIZE with 4096; unfold PHYS_BASE; lia). cbn [negb].
    erewrite stbind_step; [done|]. exact E3. }
  erewrite stbind_step by exact E2. erewrite stbind_step by done.
  destruct (ram_words m3 (Z.to_nat nf) f0) as [F1 F2]; [apply Hram3; intros p Hp; apply Hram; lia|].
  destruct (init_pool_spec (PHYS_BASE + PGSIZE * f0) nf _ ltac:(lia) ltac:(lia) F1 F2) as (fb & EF & W1 & W2 & W3).
  erewrite stbind_step by (unfold lift; by rewrite EF). erewrite stbind_step by done.
  set (m4 := set_frame_pool _ m3). assert (Hk4 : kernel_pool m4 = MkPool kb (PHYS_BASE + PGSIZE * (256 + bm_pages kn))) by (cbn; by rewrite Hm3).
  assert (Hsz : u32 (sizeof_frame_entry * nf) = 16 * nf) by (unfold sizeof_frame_entry; apply u32_small; unfold is_u32; lia).
  assert (HFk : (16 * nf + 12 + 4095) / 4096 + N / 1024 + 2 <= kn - bm_pages kn).
  { rewrite bm_pages_eq by lia. clear - Hr Hun Hkn Hh Hnf H0. unfold nf. Z.to_euclidean_division_equations. lia. }
  assert (HN10 : 0 <= N / 1024) by (apply Z.div_pos; lia).
  destruct (early_malloc_spec m4 N (256 + bm_pages kn) (16 * nf)) as (kb' & m5 & E5 & B1 & B2 & B3 & B4 & B5); rewrite ?Hk4; cbn [used_map base]; try done; try lia.
  { intros p Hp. by apply (Hram3 256 N Hram). }
  { by rewrite K2. }
  rewrite Hk4 in E5, B2, B3, B5. cbn [used_map base] in *. rewrite Hsz. erewrite stbind_step by exact E5.
  rewrite (proj2 (Z.eqb_neq (PHYS_BASE + _ + 12) 0)) by (change PGSIZE with 4096; unfold PHYS_BASE; lia). cbn [andb].
  exists ((16 * nf + 12 + 4095) / 4096). eexists. split; [done|]. split; [apply Z.div_pos; lia|]. rewrite B5. unfold m4. rewrite Hm3.
  split; cbn [init_ram_pages cur_pagedir kernel_pool frame_pool frames base used_map
    set_frames set_frame_pool upd_pages m2 m1 set_user_pool set_kernel_pool]; try done.
  - exists (256 + bm_pages kn). split; [done|]. split; [lia|]. rewrite B2, K2. split; [lia|].
    exists (f0 + bm_pages nf). rewrite W2. split; [lia|]. unfold f0. lia.
  - intros k. by eapply free_pool.
  - rewrite W2. lia.
  - rewrite W2. intros k Hk. eexists. split.
    + rewrite list_lookup_fmap, lookup_seqZ_lt by lia. done.
    + cbn. unfold frame_page. cbn. rewrite Z2Nat.id by lia. lia.
  - rewrite length_fmap, length_seqZ. lia.
Qed.

(** ** threads/init.c, paging_init *)

(** The number of page tables needed for the first [p] pages. *)
Definition tables (p : Z) : Z := (p + 1023) / 1024.

(** The state of paging_init's loop at page [p], when [F] pages were taken before. *)
Record paging (F pd p pt : Z) (m0 m : vm) : Prop := {
  pg_pool : pool_ok m (kernel_pool m);
  pg_used : forall k, in_use (kernel_pool m) k <-> 0 <= k < F + 1 + tables p;
  pg_dir : pd = base (kernel_pool m) + PGSIZE * F;
  pg_zero : forall i, 0 <= i < 768 \/ 768 + tables p <= i < 1024 -> word m pd i = Some 0;
  pg_set : forall i, 768 <= i < 768 + tables p -> exists x, word m pd i = Some x /\ x <> 0;
  pg_pt : 0 < tables p -> taken m pt /\ pt <> pd;
  pg_frame : kframe m0 m
}.

Lemma tables_step p : 0 <= p ->
  if p mod 1024 =? 0 then tables p = p / 1024 /\ tables (p + 1) = tables p + 1 else tables p = p / 1024 + 1 /\ tables (p + 1) = tables p.
Proof. intros Hp. unfold tables. destruct (Z.eqb_spec (p mod 1024) 0); Z.to_euclidean_division_equations; lia. Qed.

Lemma tables_nonneg p : 0 <= p -> 0 <= tables p.
Proof. intros Hp. unfold tables. Z.to_euclidean_division_equations. lia. Qed.

Lemma pte_kernel_Ok a (w : bool) : kpage_ok a -> exists e, pte_create_kernel a w = Ok e.
Proof. intros H. unfold pte_create_kernel. rewrite pg_ofs_eq, (proj2 H). cbn [Z.eqb ASSERT mbind res_bind]. rewrite vtop_Ok by done. by eexists. Qed.

Lemma word_other m a i x b j : full_page m a -> 0 <= i < 1024 -> 0 <= j -> a <> b -> word (put_word m a i x) b j = word m b j.
Proof. intros. rewrite word_put by done. by rewrite bool_decide_false by naive_solver. Qed.

Lemma taken_in_use m k : in_use (kernel_pool m) k <-> taken m (base (kernel_pool m) + PGSIZE * k).
Proof.
  split; [intros H; by exists k|]. intros (j & Hj & Heq). change PGSIZE with 4096 in Heq. by assert (j = k) as <- by lia.
Qed.

(** Writing to a page table does not disturb the loop. *)
Lemma paging_put F pd p pt m0 m a i x :
  paging F pd p pt m0 m -> 0 <= p -> taken m a -> a <> pd -> 0 <= i < 1024 -> paging F pd p pt m0 (put_word m a i x).
Proof.
  intros [H1 H2 H3 H4 H5 H6 H7] Hp Ha Hne Hi. pose proof (tables_nonneg p Hp). destruct (taken_ok m a H1 Ha) as [_ Hf].
  split; try done.
  - destruct H1 as [P1 P2 P3 P4]. split; try done. intros k Hk. apply put_word_full. by apply P4.
  - intros j Hj. rewrite word_other by (done || lia). by apply H4.
  - intros j Hj. rewrite word_other by (done || lia). by apply H5.
  - eapply kframe_trans; [done|]. by apply kframe_put.
Qed.

(** The page table for page [p], which is new when [p] is the first page it
    maps. *)
Lemma paging_table F pd p pt m0 m :
  0 <= F -> paging F pd p pt m0 m -> 0 <= p < 2 ^ 18 -> F + 1 + tables (p + 1) <= bit_cnt (used_map (kernel_pool m)) ->
  exists x pt' m', load_word (pd + 4 * (768 + p / 1024)) m = Ok (x, m) /\
    (if x =? 0 then
       pt ← palloc_get_page (Z.lor PAL_ASSERT PAL_ZERO);
       e ← lift (pde_create pt);
       store_word (pd + 4 * (768 + p / 1024)) e;;
       mret pt
     else mret pt) m = Ok (pt', m') /\ paging F pd (p + 1) pt' m0 m'.
Proof.
  intros HF0 HP Hp Hn. pose proof HP as [H1 H2 H3 H4 H5 H6 H7]. pose proof (tables_step p ltac:(lia)) as Ht.
  assert (Hq : 0 <= p / 1024 < 256) by (Z.to_euclidean_division_equations; lia).
  pose proof (tables_nonneg p ltac:(lia)) as Htp.
  assert (Hpd : taken m pd) by (exists F; split; [apply H2; lia|done]).
  destruct (taken_ok m pd H1 Hpd) as [Hok Hfull]. destruct (Z.eqb_spec (p mod 1024) 0) as [Hz|Hz]; destruct Ht as [T1 T2].
  - exists 0. destruct (palloc_get_page_spec m (Z.lor PAL_ASSERT PAL_ZERO) H1 eq_refl)
      as [[_ Hall]|(a & m1 & E & Ha & Hlow & Haok & Htk & Hpo & Hk & Hpg & Hzero)].
    { exfalso. assert (Hin : in_use (kernel_pool m) (F + 1 + tables p)) by (apply Hall; lia). apply H2 in Hin. lia. }
    assert (Hne : a <> pd) by (intros ->; done).
    assert (Hf1 : full_page m1 pd) by (unfold full_page; rewrite Hpg by done; done).
    exists a, (put_word m1 pd (768 + p / 1024) (entry a 7)). split; [apply load_entry; [done|lia|apply H4; lia]|]. split.
    { cbn [Z.eqb]. erewrite stbind_step by exact E. erewrite stbind_step by (unfold lift; by rewrite pde_create_Ok).
      erewrite stbind_step by (apply store_entry; [done|lia|done]). done. }
    assert (Hw : forall j, word m1 pd j = word m pd j) by (intros j; unfold word; by rewrite Hpg).
    split; rewrite ?T2.
    + destruct Hpo as [P1 P2 P3 P4]. split; try done. intros k Hk'. apply put_word_full. by apply P4.
    + assert (Hr : a = base (kernel_pool m) + PGSIZE * (F + 1 + tables p)).
      { destruct (proj2 (Htk a) (or_intror eq_refl)) as (r & Hr & Har). rewrite (kf_base _ _ Hk) in Har. rewrite Har. do 2 f_equal.
        destruct Hr as [Hr _]. destruct (Z.lt_trichotomy r (F + 1 + tables p)) as [Hlt|[->|Hgt]]; [|done|].
        - destruct Ha. exists r. split; [by apply H2|done].
        - assert (Hin : in_use (kernel_pool m) (F + 1 + tables p)); [apply Hlow; [lia|]; change PGSIZE with 4096 in *; lia|]. apply H2 in Hin. lia. }
      intros k. change (kernel_pool (put_word m1 pd (768 + p / 1024) (entry a 7))) with (kernel_pool m1).
      rewrite (taken_in_use m1 k), (kf_base _ _ Hk), Htk, <- taken_in_use, H2, Hr. change PGSIZE with 4096. lia.
    + cbn. by rewrite (kf_base _ _ Hk).
    + intros j Hj. rewrite word_put by (done || lia). rewrite bool_decide_false by lia. rewrite Hw. apply H4. lia.
    + intros j Hj. rewrite word_put by (done || lia). case_bool_decide as Hc.
      * exists (entry a 7). split; [done|]. pose proof (entry_nonzero a 7 Haok ltac:(lia)). by zbool.
      * rewrite Hw. apply H5. destruct (decide (j = 768 + p / 1024)); [subst; naive_solver|lia].
    + intros _. split; [apply Htk; by right|done].
    + eapply kframe_trans; [done|]. eapply kframe_trans; [exact Hk|]. apply kframe_put. apply Htk. by left.
  - destruct (H5 (768 + p / 1024)) as (x & Hx & Hx0); [lia|]. exists x, pt, m. split; [apply load_entry; [done|lia|done]|].
    split; [by rewrite (proj2 (Z.eqb_neq x 0))|]. split; rewrite ?T2; done.
Qed.

Lemma paging_loop F k : 0 <= F -> forall p pt pd m0 m t0 t1,
  paging F pd p pt m0 m -> 0 <= p -> p + Z.of_nat k < 2 ^ 18 -> F + 1 + tables (p + Z.of_nat k) <= bit_cnt (used_map (kernel_pool m)) ->
  exists pt' m', paging_init_loop k p pd pt t0 t1 m = Ok (tt, m') /\ paging F pd (p + Z.of_nat k) pt' m0 m'.
Proof.
  intros HF0. induction k as [|k IH]; intros p pt pd m0 m t0 t1 HP Hp Hlt Hn.
  { exists pt, m. rewrite Z.add_0_r. done. }
  cbn [paging_init_loop]. cbn zeta. rewrite u32_small by (change PGSIZE with 4096; unfold is_u32; lia).
  erewrite stbind_step by (unfold lift; by rewrite ptov_Ok by lia). set (va := PHYS_BASE + PGSIZE * p).
  assert (Hpd : pd_no va = 768 + p / 1024 /\ pt_no va = p mod 1024).
  { rewrite pd_no_eq, pt_no_eq. unfold va, PHYS_BASE. change PGSIZE with 4096. Z.to_euclidean_division_equations. lia. }
  destruct Hpd as [-> Hpt]. assert (Hva : kpage_ok va).
  { unfold va, kpage_ok, PHYS_BASE. change PGSIZE with 4096. split; [lia|]. Z.to_euclidean_division_equations. lia. }
  assert (Hmono : tables (p + 1) <= tables (p + Z.of_nat (S k))) by (unfold tables; Z.to_euclidean_division_equations; lia).
  destruct (paging_table F pd p pt m0 m HF0 HP) as (x & pt' & m1 & El & Et & HP1); [lia|lia|].
  erewrite stbind_step by exact El. erewrite stbind_step by exact Et.
  destruct (pte_kernel_Ok va (negb ((t0 <=? va) && (va <? t1))) Hva) as [e Ee]. erewrite stbind_step by (unfold lift; by rewrite Ee).
  assert (Hpos : 0 < tables (p + 1)) by (unfold tables; Z.to_euclidean_division_equations; lia).
  destruct (pg_pt _ _ _ _ _ _ HP1 Hpos) as [Htk Hne]. destruct (taken_ok m1 pt' (pg_pool _ _ _ _ _ _ HP1) Htk) as [Hok Hf].
  assert (Hi : 0 <= pt_no va < 1024) by (rewrite Hpt; apply Z.mod_pos_bound; lia).
  erewrite stbind_step by (by apply store_entry). pose proof (kf_size _ _ (pg_frame _ _ _ _ _ _ HP)) as S1. pose proof (kf_size _ _ (pg_frame _ _ _ _ _ _ HP1)) as S2.
  replace (p + Z.of_nat (S k)) with (p + 1 + Z.of_nat k) in * by lia.
  apply IH; [|lia|lia|cbn; congruence || (cbn; lia)]. by apply paging_put; [|lia|..].
Qed.

Lemma pool_ok_ram m p p0 N :
  ram m 256 N -> N < 2 ^ 18 -> bitmap_wf (used_map p) -> base p = PHYS_BASE + PGSIZE * p0 -> 256 <= p0 -> p0 + bit_cnt (used_map p) <= N -> pool_ok m p.
Proof.
  intros Hram HN Hwf Hb H0 Hend. pose proof (proj1 Hwf). split; [done|..]; rewrite Hb; change PGSIZE with 4096.
  - unfold kpage_ok, PHYS_BASE. split; [lia|]. Z.to_euclidean_division_equations. lia.
  - unfold PHYS_BASE. lia.
  - intros k Hk. destruct (Hram (p0 + k)) as (w & Hw & Hlen & _); [lia|]. exists w. split; [|done].
    rewrite <- Hw. f_equal. change PGSIZE with 4096. lia.
Qed.

(** The first page that is free in the kernel pool becomes the base page directory. *)
Lemma first_page m F : 0 <= F ->
  pool_ok m (kernel_pool m) -> (forall k, in_use (kernel_pool m) k <-> 0 <= k < F) -> F < bit_cnt (used_map (kernel_pool m)) ->
  let pd := base (kernel_pool m) + PGSIZE * F in
  exists m', palloc_get_page (Z.lor PAL_ASSERT PAL_ZERO) m = Ok (pd, m') /\ kframe m m' /\
    forall m0, m0 = set_init_page_dir pd m' -> paging F pd 0 0 m0 m0.
Proof.
  intros HF0 Hp Hused Hpos pd. destruct (palloc_get_page_spec m (Z.lor PAL_ASSERT PAL_ZERO) Hp eq_refl)
    as [[_ Hall]|(a & m1 & E & Ha & Hlow & Haok & Htk & Hpo & Hk & Hpg & Hzero)].
  { specialize (Hall F ltac:(lia)). apply Hused in Hall. lia. }
  assert (Hr : a = pd).
  { destruct (proj2 (Htk a) (or_intror eq_refl)) as (r & [Hr _] & Har). rewrite (kf_base _ _ Hk) in Har. rewrite Har. unfold pd. do 2 f_equal. destruct (Z.lt_trichotomy r F) as [Hlt|[->|Hgt]]; [|done|].
    - destruct Ha. exists r. split; [by apply Hused|done].
    - assert (Hin : in_use (kernel_pool m) F) by (apply Hlow; [lia|]; change PGSIZE with 4096 in *; lia). apply Hused in Hin. lia. }
  subst a. exists m1. split; [done|]. split; [done|]. intros m0 ->. split; try done.
  - destruct Hpo as [P1 P2 P3 P4]. by split.
  - intros k. change (tables 0) with 0. change (kernel_pool (set_init_page_dir _ m1)) with (kernel_pool m1).
    rewrite (taken_in_use m1 k), (kf_base _ _ Hk), Htk, <- taken_in_use, Hused. unfold pd. change PGSIZE with 4096. lia.
  - unfold pd. by rewrite <- (kf_base _ _ Hk).
  - intros i Hi. apply Hzero; [done|]. change (tables 0) with 0 in Hi. lia.
  - change (tables 0) with 0. lia.
Qed.

(** After start-up no process exists and the invariant holds. *)
Lemma boot_spec m N limit t0 t1 :
  init_ram_pages m = N -> 512 <= N < 2 ^ 18 -> 16 <= limit -> ram m 256 N -> cur_pagedir m = 0 ->
  exists m', (palloc_init limit;; paging_init t0 t1) m = Ok (tt, m') /\ vm_inv ∅ m' /\
    0 < bit_cnt (used_map (frame_pool m')) /\ forall k, ~ in_use (frame_pool m') k.
Proof.
  intros HN Hr Hl Hram Hcur. destruct (palloc_init_spec m N limit HN Hr Hl Hram) as (F & m1 & E1 & HF0 & HR). erewrite stbind_step by exact E1.
  destruct HR as [R1 R2 R3 (p0 & B1 & B2 & B3 & f0 & F1 & F2 & F3) R5 R6 R7 R8 R9 R10 R11]. rewrite Hcur in R3.
  assert (HN2 : 0 <= N / 1024) by (apply Z.div_pos; lia).
  pose proof (pool_ok_ram m1 (kernel_pool m1) p0 N R1 ltac:(lia) R5 B1 B2 ltac:(lia)) as PK.
  pose proof (pool_ok_ram m1 (frame_pool m1) f0 N R1 ltac:(lia) R7 F1 ltac:(lia) F3) as PF.
  destruct (first_page m1 F HF0 PK R6 ltac:(lia)) as (m2 & E2 & K2 & HP). set (pd := base (kernel_pool m1) + PGSIZE * F) in *. specialize (HP _ eq_refl).
  set (m3 := set_init_page_dir pd m2) in *. unfold paging_init. erewrite stbind_step by exact E2. do 2 (erewrite stbind_step by done). fold m3.
  change (init_ram_pages m3) with (init_ram_pages m2). rewrite (kf_ram _ _ K2), R2.
  destruct (paging_loop F (Z.to_nat N) HF0 0 0 pd m3 m3 t0 t1 HP) as (pt & m4 & E4 & HP4); [lia|lia| |].
  { cbn. rewrite (kf_size _ _ K2). rewrite Z2Nat.id by lia. unfold tables. Z.to_euclidean_division_equations. lia. }
  erewrite stbind_step by exact E4. pose proof (pool_page m1 _ F PK ltac:(lia)) as Hpd. erewrite stbind_step by (unfold lift; by rewrite vtop_Ok).
  eexists. split; [done|]. set (m5 := set_cr3 _ m4). destruct HP4 as [P1 P2 P3 P4 P5 P6 K4].
  assert (Hfr : frame_pool m5 = frame_pool m1) by (cbn; rewrite (kf_frame _ _ K4); apply K2).
  assert (Hfs : frames m5 = frames m1) by (cbn; rewrite (kf_frames _ _ K4); apply K2).
  assert (Hram5 : init_ram_pages m5 = N) by (cbn; rewrite (kf_ram _ _ K4), <- R2; apply K2).
  assert (Hcur5 : cur_pagedir m5 = 0) by (cbn; rewrite (kf_pd _ _ K4), <- R3; apply K2).
  assert (Hin5 : init_page_dir m5 = pd) by apply K4.
  assert (Hcr : cr3 m5 + PHYS_BASE = pd) by (cbn; lia).
  assert (Hbase : base (kernel_pool m5) = base (kernel_pool m1)) by (cbn; rewrite (kf_base _ _ K4); apply K2).
  assert (Hsz : bit_cnt (used_map (kernel_pool m5)) = bit_cnt (used_map (kernel_pool m1))) by (cbn; rewrite (kf_size _ _ K4); apply K2).
  assert (Hsep : forall k, 0 <= k < bit_cnt (used_map (frame_pool m1)) -> ~ kernel_page m1 (base (frame_pool m1) + PGSIZE * k)).
  { intros k Hk (j & Hj & Heq). rewrite B1, F1 in Heq. change PGSIZE with 4096 in Heq. lia. }
  assert (Hpg : forall k, 0 <= k < bit_cnt (used_map (frame_pool m1)) -> pages m5 !! (base (frame_pool m1) + PGSIZE * k) = pages m1 !! (base (frame_pool m1) + PGSIZE * k)).
  { intros k Hk. cbn. rewrite (kf_pages _ _ K4); [apply K2; by apply Hsep|]. unfold kernel_page. cbn.
    rewrite (kf_base _ _ K2), (kf_size _ _ K2). by apply Hsep. }
  assert (HD : dir_inv ∅ m5).
  { split; [by destruct P1; split| |by intros pd' []%not_elem_of_empty|by intros pd' i []%not_elem_of_empty| |].
    - rewrite Hin5. split; [|split; [apply not_elem_of_empty|]].
      + exists F. split; [|by rewrite Hbase]. apply P2. unfold tables. Z.to_euclidean_division_equations. lia.
      + intros i Hi. apply P4. by left.
    - by intros pd1 pd2 i1 i2 pt' []%not_elem_of_empty.
    - by intros pd1 i j pt' x []%not_elem_of_empty. }
  split; [|rewrite Hfr; done]. clearbody m5. split; unfold frame_page; rewrite ?Hfr, ?Hfs, ?Hram5, ?Hcur5; [done|..].
  - destruct PF as [Q1 Q2 Q3 Q4]. split; try done. intros k Hk. unfold full_page. rewrite Hpg by done. by apply Q4.
  - intros k Hk. unfold kernel_page. rewrite Hbase, Hsz. by apply Hsep.
  - apply R10.
  - exact R11.
  - intros k Hk. rewrite F1. change PTSHIFT with 12. rewrite Z.shiftr_div_pow2 by lia. change PGSIZE with 4096. change (2 ^ 12) with 4096.
    Z.to_euclidean_division_equations. lia.
  - by intros pd' va a w []%not_elem_of_empty.
  - by intros pd1 va1 pd2 va2 a w1 w2 []%not_elem_of_empty.
  - by left.
  - rewrite Hin5. cbn [Z.eqb]. exact Hcr.
Qed.

(** ** A machine with 2 MB of memory *)

Definition raw (N : Z) : vm :=
  MkVm (list_to_map ((fun p => (PHYS_BASE + PGSIZE * p, replicate 1024 0)) <$> seqZ 256 (N - 256)))
    (MkPool (mk_bitmap 0 []) 0) (MkPool (mk_bitmap 0 []) 0) (MkPool (mk_bitmap 0 []) 0) [] 0 N 0 1 0.

Lemma ram_raw N : ram (raw N) 256 N.
Proof.
  intros p Hp. exists (replicate 1024 0). split; [|split; [by rewrite length_replicate|by apply Forall_replicate]].
  apply elem_of_list_to_map_1.
  - rewrite <- list_fmap_compose. apply NoDup_fmap_2_strong; [|apply NoDup_seqZ].
    intros x y _ _ Hxy. cbn in Hxy. change PGSIZE with 4096 in Hxy. lia.
  - apply list_elem_of_fmap. exists p. split; [done|]. apply elem_of_seqZ. lia.
Qed.

Definition run {A} (c : V A) (m : vm) : vm := match c m with Ok (_, m') => m' | Err _ => m end.

Lemma run_Ok {A} (c : V A) m : is_Ok (c m) = true -> exists x, c m = Ok (x, run c m).
Proof. unfold run. destruct (c m) as [[x m']|]; [by exists x|done]. Qed.

Lemma Ok_state {A} (x y : A) (m m' : vm) r : r = Ok (x, m) -> r = Ok (y, m') -> x = y /\ m = m'.
Proof. intros -> [=]. done. Qed.

Definition demo_boot : V unit := palloc_init 16;; paging_init 0xc0020000 0xc0030000.
Definition demo0 : vm := run demo_boot (raw 512).
Definition demo1 : vm := run load_pagedir demo0.
Definition demo2 : vm := run (palloc_page (Z.lor PAL_USER PAL_ZERO) 0x8048000 true) demo1.

Lemma demo0_Ok : demo_boot (raw 512) = Ok (tt, demo0).
Proof. destruct (run_Ok demo_boot (raw 512)) as [[] E]; [vm_compute; reflexivity|exact E]. Defined.

Lemma demo0_inv : vm_inv ∅ demo0.
Proof.
  destruct (boot_spec (raw 512) 512 16 0xc0020000 0xc0030000) as (m & E & HI & _);
    [reflexivity|lia|lia|apply ram_raw|reflexivity|].
  destruct (Ok_state _ _ _ _ _ demo0_Ok E) as [_ Heq]. rewrite Heq. exact HI.
Qed.

Lemma demo1_step : vm_step (∅, demo0) ({[cur_pagedir demo1]} ∪ ∅, demo1).
Proof.
  destruct (run_Ok load_pagedir demo0) as [ok E]; [vm_compute; reflexivity|].
  assert (H : match load_pagedir demo0 with Ok (b, _) => b | Err _ => false end = true) by (vm_compute; reflexivity).
  rewrite E in H. rewrite H in E. apply (VLoad ∅ demo0 true demo1); [vm_compute; reflexivity|exact E].
Qed.

Lemma demo1_inv : vm_inv ({[cur_pagedir demo1]} ∪ ∅) demo1.
Proof. exact (vm_step_inv_pair _ _ _ _ demo1_step demo0_inv). Qed.

Lemma demo_page : user_page 0x8048000.
Proof. split; [unfold PHYS_BASE; lia|done]. Qed.

Lemma demo2_step : vm_step ({[cur_pagedir demo1]} ∪ ∅, demo1) ({[cur_pagedir demo1]} ∪ ∅, demo2).
Proof.
  destruct (run_Ok (palloc_page (Z.lor PAL_USER PAL_ZERO) 0x8048000 true) demo1) as [a E]; [vm_compute; reflexivity|].
  eapply VAlloc; [vm_compute; discriminate|apply demo_page|exact E].
Qed.

(** The process of [demo1] allocates [n] pages. *)
Fixpoint demo_fill (n : nat) (m : vm) : option vm :=
  match n with
  | O => Some m
  | S n =>
      m' ← demo_fill n m;
      if cur_pagedir m' =? 0 then None
      else match palloc_page PAL_USER (0x8048000 + Z.of_nat n * PGSIZE) true m' with Ok (_, m'') => Some m'' | Err _ => None end
  end.

Lemma demo_fill_inv D n : forall m m', (n <= 1000)%nat -> vm_inv D m -> demo_fill n m = Some m' -> vm_inv D m'.
Proof.
  induction n as [|n IH]; intros m m' Hn HI E; cbn [demo_fill] in E; [by simplify_eq|].
  apply bind_Some in E as (m1 & E1 & E). specialize (IH m m1 ltac:(lia) HI E1). destruct (Z.eqb_spec (cur_pagedir m1) 0); [done|].
  destruct (palloc_page _ _ _ m1) as [[a m2]|] eqn:Ea; [|done]. injection E as <-. eapply alloc_inv; [exact IH|done| |exact Ea].
  split; [unfold PHYS_BASE; change PGSIZE with 4096; lia|]. change PGSIZE with 4096. Z.to_euclidean_division_equations. lia.
Qed.

Definition demo_full : vm := default demo1 (demo_fill 14 demo1).

Lemma demo_full_inv : vm_inv ({[cur_pagedir demo1]} ∪ ∅) demo_full.
Proof.
  assert (H : is_Some (demo_fill 14 demo1)).
  { assert (H : match demo_fill 14 demo1 with Some _ => true | None => false end = true) by (vm_compute; reflexivity).
    destruct (demo_fill 14 demo1); [eauto|discriminate]. }
  unfold demo_full. destruct H as [m E]. rewrite E. eapply (demo_fill_inv _ 14 demo1 m); [lia|exact demo1_inv|exact E].
Qed.

#[local] Opaque demo0 demo1 demo2 demo_full.

(** ** Properties *)

(** C36. Starting the memory system succeeds on any machine whose memory, between
    2 MB and 1 GB, is there from 1 MB on, with a limit of at least 16 user
    pages: palloc_init, with the malloc of the array of frames before
    malloc_init, and paging_init return, and they leave a state that satisfies
    the memory invariant, with no process and at least one frame, all of them
    free. *)
Theorem memory_boots m N limit t0 t1 :
  init_ram_pages m = N -> 512 <= N < 2 ^ 18 -> 16 <= limit -> ram m 256 N -> cur_pagedir m = 0 ->
  exists m', (palloc_init limit;; paging_init t0 t1) m = Ok (tt, m') /\ vm_inv ∅ m' /\
    0 < bit_cnt (used_map (frame_pool m')) /\ forall k, ~ in_use (frame_pool m') k.
Proof. apply boot_spec. Qed.

Lemma memory_boots_witness :
  exists m', (palloc_init 16;; paging_init 0xc0020000 0xc0030000) (raw 512) = Ok (tt, m') /\ vm_inv ∅ m'.
Proof.
  destruct (memory_boots (raw 512) 512 16 0xc0020000 0xc0030000) as (m & E & HI & _);
    [reflexivity|lia|lia|apply ram_raw|reflexivity|]. exists m. split; assumption.
Defined.

(** C13. pagedir_set_page implements the insertion of a mapping: for a user page
    of a process that is not mapped and a page of memory it returns true, and
    afterwards that user page translates to the given page with the given
    permission, while the translation of every other user page of every
    process is what it was; it returns false, changing nothing, only when the
    kernel pool has no page left for a page table. *)
Theorem pagedir_set_page_refines D m pd upage kp (w : bool) :
  dir_inv D m -> pd ∈ D -> user_page upage -> kpage_ok kp ->
  Z.shiftr (kp - PHYS_BASE) PTSHIFT < init_ram_pages m -> translate m pd upage = None ->
  pagedir_set_page pd upage kp w m = Ok (false, m) /\ kernel_full m \/
  exists m', pagedir_set_page pd upage kp w m = Ok (true, m') /\ dir_inv D m' /\
    (forall pd' va, pd' ∈ D -> 0 <= va < PHYS_BASE ->
      translate m' pd' va = if bool_decide (pd' = pd /\ va / 4096 = upage / 4096) then Some (kp, w) else translate m pd' va) /\
    forall va, 0 <= va < PHYS_BASE -> va / 4096 = upage / 4096 -> pagedir_get_page pd va m' = Ok (kp + va mod 4096, m').
Proof.
  intros HD Hpd [Hva Hal] Hkp Hram Hn.
  destruct (set_page_translate D m pd upage kp w HD Hpd Hva Hal Hkp Hram Hn) as [|(m' & E & HD' & _ & _ & Htr)]; [by left|].
  right. exists m'. split; [done|]. split; [done|]. split; [done|]. intros va Hva' Heq.
  rewrite (get_page_translate D) by done. rewrite Htr by done. by rewrite bool_decide_true.
Qed.

Lemma pagedir_set_page_refines_witness :
  exists m', pagedir_set_page (cur_pagedir demo1) 0x8048000 (frame_page demo1 0) true demo1 = Ok (true, m') /\
    pagedir_get_page (cur_pagedir demo1) 0x8048123 m' = Ok (frame_page demo1 0 + 0x123, m').
Proof.
  assert (H1 : exists m', pagedir_set_page (cur_pagedir demo1) 0x8048000 (frame_page demo1 0) true demo1 = Ok (true, m')).
  { assert (H : match pagedir_set_page (cur_pagedir demo1) 0x8048000 (frame_page demo1 0) true demo1 with Ok (b, _) => b = true | Err _ => False end)
      by (vm_compute; reflexivity).
    destruct (pagedir_set_page _ _ _ _ demo1) as [[b m']|]; [subst b; exists m'; reflexivity|contradiction]. }
  destruct H1 as [m' E].
  destruct (pagedir_set_page_refines ({[cur_pagedir demo1]} ∪ ∅) demo1 (cur_pagedir demo1) 0x8048000 (frame_page demo1 0) true)
    as [[E' _]|(m1 & E' & _ & _ & H)];
    [apply demo1_inv|set_solver|apply demo_page|split; [vm_compute; split; [discriminate|reflexivity]|vm_compute; reflexivity]|vm_compute; reflexivity|vm_compute; reflexivity|congruence|].
  exists m1. split; [exact E'|]. apply (H 0x8048123); [unfold PHYS_BASE; lia|reflexivity].
Defined.

(** palloc_page gives the process a fresh frame: with a free frame, an
    unmapped user page and a kernel page for the page table, it returns a
    frame that was free, marks it as used by the current thread, maps exactly
    the requested page of the current process to it, leaves every other
    mapping of every process alone, zeroes it on PAL_ZERO and preserves the
    memory invariant. *)
Theorem palloc_page_fresh_frame D m flags upage (w : bool) k0 :
  vm_inv D m -> cur_pagedir m ∈ D -> user_page upage -> has flags PAL_USER = true -> has flags PAL_ZERO && negb w = false ->
  0 <= k0 < bit_cnt (used_map (frame_pool m)) -> ~ in_use (frame_pool m) k0 ->
  translate m (cur_pagedir m) upage = None -> ~ kernel_full m ->
  exists k m', palloc_page flags upage w m = Ok (frame_page m k, m') /\ vm_inv D m' /\
    ~ in_use (frame_pool m) k /\ (forall j, in_use (frame_pool m') j <-> in_use (frame_pool m) j \/ j = k) /\
    frames m' !! Z.to_nat k = Some (MkFrame (cur_tid m) (pg_no upage) true false true (frame_page m k)) /\
    (has flags PAL_ZERO = true -> pages m' !! frame_page m k = Some (replicate 1024 0)) /\
    forall pd va, pd ∈ D -> 0 <= va < PHYS_BASE ->
      translate m' pd va = if bool_decide (pd = cur_pagedir m /\ va / 4096 = upage / 4096) then Some (frame_page m k, w) else translate m pd va.
Proof.
  intros HI Hin [Hva Hal] Hu Hzw Hk0 Hfree Hn Hnf.
  destruct (palloc_page_cases D m flags upage w HI Hin Hva Hal Hu)
    as [[Hall _]|(k & m1 & Hk & Hnu & HI1 & _ & Huse & _ & Hf & [(_ & _ & [[? ?]|])|(E & _ & Hz & Htr)])]; [|congruence|done|].
  - destruct Hfree. by apply Hall.
  - exists k, m1. rewrite E, Hzw. do 5 (split; [done|]). split; [|done]. intros HZ. apply Hz. rewrite HZ in *. by destruct w.
Qed.

Lemma palloc_page_fresh_frame_witness :
  exists k m', palloc_page (Z.lor PAL_USER PAL_ZERO) 0x8048000 true demo1 = Ok (frame_page demo1 k, m') /\
    pages m' !! frame_page demo1 k = Some (replicate 1024 0).
Proof.
  destruct (palloc_page_fresh_frame ({[cur_pagedir demo1]} ∪ ∅) demo1 (Z.lor PAL_USER PAL_ZERO) 0x8048000 true 0)
    as (k & m' & E & _ & _ & _ & _ & HZ & _).
  - exact demo1_inv.
  - set_solver.
  - exact demo_page.
  - reflexivity.
  - reflexivity.
  - vm_compute. split; [discriminate|reflexivity].
  - intros [_ H]. vm_compute in H. discriminate.
  - vm_compute. reflexivity.
  - intros H. destruct (H 100) as [_ H']; [vm_compute; split; [discriminate|reflexivity]|]. vm_compute in H'. discriminate.
  - exists k, m'. split; [exact E|]. apply HZ. reflexivity.
Defined.

(** palloc_page does not test the result of its scan: when no frame is free,
    the index it uses is BITMAP_ERROR, and the first access to the frame table
    is out of its bounds, for every user page and every flag; the documented
    null pointer (or the panic of PAL_ASSERT) is never produced. *)
Theorem palloc_page_exhausted D m flags upage (w : bool) :
  vm_inv D m -> cur_pagedir m ∈ D -> user_page upage -> has flags PAL_USER = true ->
  (forall k, 0 <= k < bit_cnt (used_map (frame_pool m)) -> in_use (frame_pool m) k) ->
  palloc_page flags upage w m = Err EFault.
Proof.
  intros HI Hin [Hva Hal] Hu Hall.
  destruct (palloc_page_cases D m flags upage w HI Hin Hva Hal Hu) as [[_ E]|(k & m1 & Hk & Hnu & _)]; [done|]. by destruct Hnu; apply Hall.
Qed.

Lemma palloc_page_exhausted_witness : palloc_page (Z.lor PAL_USER PAL_ASSERT) 0x9000000 true demo_full = Err EFault.
Proof.
  apply (palloc_page_exhausted ({[cur_pagedir demo1]} ∪ ∅) demo_full).
  - exact demo_full_inv.
  - assert (H : cur_pagedir demo_full = cur_pagedir demo1) by (vm_compute; reflexivity). rewrite H. set_solver.
  - split; [unfold PHYS_BASE; lia|reflexivity].
  - reflexivity.
  - assert (Hb : babs (used_map (frame_pool demo_full)) = replicate 14 true) by (vm_compute; reflexivity).
    intros k Hk. assert (Hc : bit_cnt (used_map (frame_pool demo_full)) = 14) by (vm_compute; reflexivity).
    split; [lia|]. rewrite Hb. apply lookup_replicate_2. lia.
Defined.
