(* ===== verification/ByteMem.v ===== *)
(** Bytes of memory, at kernel addresses and at the addresses of the running
    process.

    The pages of Vm hold 32-bit words, little-endian.  The kernel reaches its
    own addresses through the mapping that paging_init set up, one to one, and
    user addresses through the page directory that CR3 holds. *)

From stdpp Require Import base list numbers gmap.
From Stdlib Require Import ZArith Lia.
From S2P Require Import Prelude Bitmap Vm PageDir VmSpec.

#[local] Abbreviation V := (stM vm).

(** ** Accesses *)

(** Byte [k] of a word. *)
Definition word_byte (w k : Z) : Z := Z.land (Z.shiftr w (8 * k)) 255.
Definition word_set_byte (w k b : Z) : Z := Z.lor (Z.ldiff w (Z.shiftl 255 (8 * k))) (Z.shiftl b (8 * k)).

(** A byte at a kernel virtual address. *)
Definition load_kbyte (a : Z) : V Z := x ← load_word a; mret (word_byte x (a mod 4)).
Definition store_kbyte (a b : Z) : V unit := x ← load_word a; store_word a (word_set_byte x (a mod 4) b).

(** The translation of an address by the processor, in kernel mode.  Entries
    without the present bit fault; a write through an entry without the
    writable bit faults too, since CR0.WP is set. *)
Definition mmu (va : Z) (write : bool) : V Z :=
  if is_user_vaddr va then
    pd ← active_pd;
    pte ← lookup_page pd va false;
    if pte =? 0 then raise EFault
    else
      x ← load_word pte;
      if has x PTE_P && (negb write || has x PTE_W) then p ← lift (pte_get_page x); mret (p + pg_ofs va)
      else raise EFault
  else mret va.

Definition load_byte (va : Z) : V Z := a ← mmu va false; load_kbyte a.
Definition store_byte (va b : Z) : V unit := a ← mmu va true; store_kbyte a b.

(** [n] bytes from address [va] on; addresses wrap at 32 bits. *)
Fixpoint load_bytes (n : nat) (va : Z) : V (list Z) :=
  match n with
  | O => mret []
  | S n => b ← load_byte va; bs ← load_bytes n (u32 (va + 1)); mret (b :: bs)
  end.
Fixpoint store_bytes (va : Z) (bs : list Z) : V unit :=
  match bs with
  | [] => mret tt
  | b :: bs => store_byte va b;; store_bytes (u32 (va + 1)) bs
  end.

(** A string: the bytes before the first zero.  [scan_string d] looks at up to
    2 ^ [d] bytes and says whether it found the end; 2 ^ 32 bytes are all
    there are. *)
Fixpoint scan_string (d : nat) (va : Z) : V (list Z * bool) :=
  match d with
  | O => b ← load_byte va; mret (if b =? 0 then ([], true) else ([b], false))
  | S d =>
      r ← scan_string d va;
      let '(l, found) := r in
      if found : bool then mret (l, true)
      else r ← scan_string d (u32 (va + 2 ^ Z.of_nat d)); let '(l', found) := r in mret (l ++ l', found)
  end.
Definition load_string (va : Z) : V (list Z) :=
  r ← scan_string 32 va; let '(l, found) := r in if found : bool then mret l else raise EFuel.

(** ** Words *)

Lemma word_byte_set w k k' b :
  0 <= k < 4 -> 0 <= k' < 4 -> is_u8 b -> word_byte (word_set_byte w k b) k' = if k =? k' then b else word_byte w k'.
Proof.
  intros Hk Hk' Hb. unfold word_byte, word_set_byte. change 255 with (Z.ones 8). apply Z.bits_inj'. intros n Hn.
  rewrite Z.land_spec, Z.shiftr_spec, Z.lor_spec, Z.ldiff_spec, !Z.shiftl_spec by lia.
  destruct (Z.lt_ge_cases n 8) as [Hlt|Hge].
  - rewrite (Z.ones_spec_low 8 n), andb_true_r by lia. destruct (Z.eqb_spec k k') as [->|Hne].
    + replace (n + 8 * k' - 8 * k') with n by lia. rewrite Z.ones_spec_low by lia. cbn. by rewrite andb_false_r.
    + rewrite Z.land_spec, Z.shiftr_spec, (Z.ones_spec_low 8 n), andb_true_r by lia. destruct (Z.lt_ge_cases k' k).
      * rewrite !(Z.testbit_neg_r _ (n + 8 * k' - 8 * k)) by lia. cbn. by rewrite andb_true_r, orb_false_r.
      * rewrite Z.ones_spec_high by lia. cbn. rewrite andb_true_r. rewrite <- (u8_small b Hb) at 1. unfold u8.
        rewrite Z.mod_pow2_bits_high by lia. by rewrite orb_false_r.
  - rewrite (Z.ones_spec_high 8 n), andb_false_r by lia. symmetry. destruct (k =? k').
    + rewrite <- (u8_small b Hb). unfold u8. by rewrite Z.mod_pow2_bits_high by lia.
    + by rewrite Z.land_spec, Z.ones_spec_high, andb_false_r by lia.
Qed.

(** ** Bytes of pages *)

(** Byte [i] of page [p]. *)
Definition pbyte (m : vm) (p i : Z) : option Z := (fun x => word_byte x (i mod 4)) <$> word m p (i / 4).

Lemma byte_address p i : kpage_ok p -> 0 <= i < 4096 ->
  pg_round_down (p + i) = p /\ pg_ofs (p + i) / 4 = i / 4 /\ (p + i) mod 4 = i mod 4 /\ 0 <= i / 4 < 1024.
Proof.
  intros [H1 H2] Hi. assert ((p + i) mod 4096 = i) as Hm by (Z.to_euclidean_division_equations; lia).
  assert (p + i < 2 ^ 32) by (change (2 ^ 32) with (1048576 * 4096) in *; Z.to_euclidean_division_equations; lia).
  rewrite pg_round_down_eq by (unfold is_u32, PHYS_BASE in *; lia). rewrite pg_ofs_eq, Hm.
  split; [lia|]. split; [done|]. split; [|Z.to_euclidean_division_equations; lia]. Z.to_euclidean_division_equations. lia.
Qed.

Lemma load_kbyte_Ok m p i b : kpage_ok p -> 0 <= i < 4096 -> pbyte m p i = Some b -> load_kbyte (p + i) m = Ok (b, m).
Proof.
  intros Hp Hi Hb. destruct (byte_address p i Hp Hi) as (E1 & E2 & E3 & _). unfold pbyte, word in Hb. unfold load_kbyte, load_word.
  destruct (pages m !! p) as [w|] eqn:Ew; [|done]. cbn in Hb. destruct (w !! Z.to_nat (i / 4)) as [x|] eqn:Ex; [|done]. injection Hb as <-.
  erewrite stbind_step by (by rewrite E1, E2, Ew, Ex). by rewrite E3.
Qed.

(** The state after byte [i] of page [p] is set. *)
Definition put_byte (m : vm) (p i b : Z) : vm :=
  put_word m p (i / 4) (word_set_byte (default 0 (word m p (i / 4))) (i mod 4) b).

Lemma store_kbyte_Ok m p i b : kpage_ok p -> 0 <= i < 4096 -> full_page m p -> store_kbyte (p + i) b m = Ok (tt, put_byte m p i b).
Proof.
  intros Hp Hi Hf. destruct (byte_address p i Hp Hi) as (E1 & E2 & E3 & Hr). destruct (full_word m p (i / 4) Hf Hr) as [x Hx].
  unfold store_kbyte, put_byte. rewrite Hx. destruct Hf as (w & Hw & Hl). unfold word in Hx. rewrite Hw in Hx. cbn in Hx.
  erewrite stbind_step by (unfold load_word; by rewrite E1, E2, Hw, Hx). unfold store_word. rewrite E1, E2, E3, Hw.
  do 2 f_equal. unfold put_word, upd_pages. f_equal. symmetry. by apply alter_alt_Some.
Qed.

Lemma pbyte_put m p i b q j :
  full_page m p -> 0 <= i < 4096 -> 0 <= j < 4096 -> is_u8 b ->
  pbyte (put_byte m p i b) q j = if bool_decide (p = q /\ i = j) then Some b else pbyte m q j.
Proof.
  intros Hf Hi Hj Hb. assert (Hr : 0 <= i / 4 < 1024 /\ 0 <= j / 4 < 1024) by (Z.to_euclidean_division_equations; lia).
  destruct (full_word m p (i / 4) Hf) as [x Hx]; [lia|]. unfold pbyte, put_byte. rewrite Hx. cbn [default]. unfold id.
  rewrite word_put by (done || lia). case_bool_decide as Hc.
  - destruct Hc as [<- Hij]. cbn. rewrite word_byte_set by (try done; apply Z.mod_pos_bound; lia).
    destruct (Z.eqb_spec (i mod 4) (j mod 4)) as [Hm|Hm].
    + rewrite bool_decide_true; [done|]. split; [done|]. pose proof (Z.div_mod i 4). pose proof (Z.div_mod j 4). lia.
    + rewrite bool_decide_false by naive_solver. by rewrite <- Hij, Hx.
  - rewrite bool_decide_false; [done|]. naive_solver.
Qed.

(** ** Bytes of processes *)

(** The byte that process [pd] sees at [va]. *)
Definition ubyte (m : vm) (pd va : Z) : option Z :=
  match translate m pd va with Some (p, _) => pbyte m p (va mod 4096) | None => None end.

Section UserMemory.
Context (D : gset Z).

Lemma mmu_Ok m va (write : bool) :
  vm_inv D m -> cur_pagedir m ∈ D -> 0 <= va < PHYS_BASE ->
  mmu va write m = match translate m (cur_pagedir m) va with
                   | Some (p, w) => if write && negb w then Err EFault else Ok (p + va mod 4096, m)
                   | None => Err EFault
                   end.
Proof.
  intros HI Hpd Hva. pose proof (vi_dir D m HI) as HD. destruct (user_index va Hva) as [Hi Hj].
  pose proof (dir_kpage D m _ HI Hpd) as [Hpok _]. unfold mmu, is_user_vaddr. rewrite (proj2 (Z.ltb_lt _ _)) by lia.
  erewrite stbind_step by (apply (active_Ok D m HI); unfold PHYS_BASE in *; lia).
  destruct (di_pde D m HD _ (pd_no va) Hpd Hi) as [H0|(pt & Htab & Htk & _)].
  { erewrite stbind_step by (by apply (lookup_page_none D)). unfold translate. by rewrite pte_of_None. }
  erewrite stbind_step by (by apply (lookup_page_table D m _ va pt)).
  destruct (taken_ok m pt (di_pool D m HD) Htk) as [Hpt Hf]. destruct (full_word m pt (pt_no va) Hf Hj) as [x Hx].
  rewrite (proj2 (Z.eqb_neq _ 0)) by (destruct Hpt; unfold PHYS_BASE in *; lia). erewrite stbind_step by (by apply load_entry).
  rewrite (translate_pte m _ va x) by (by rewrite (pte_of_table _ _ _ _ Htab)).
  destruct (di_pte D m HD _ _ _ pt x Hpd Hi Hj Htab Hx) as [->|(a & f & Haok & Hf' & ->)]; [done|].
  destruct (has _ PTE_P); [|done]. rewrite entry_page, Z.sub_add by done. cbn [andb].
  destruct write, (has _ PTE_W); cbn [negb orb andb]; try done; erewrite stbind_step by (unfold lift; by rewrite entry_ptov); by rewrite pg_ofs_eq.
Qed.

(** A page that a process sees is a frame. *)
Lemma user_frame m pd va p w :
  vm_inv D m -> pd ∈ D -> 0 <= va < PHYS_BASE -> translate m pd va = Some (p, w) ->
  exists k, in_use (frame_pool m) k /\ p = frame_page m k /\ kpage_ok p /\ full_page m p.
Proof.
  intros HI Hpd Hva Ht. destruct (vi_mapped D m HI pd va p w Hpd Hva Ht) as (k & Hk & ->). exists k. split; [done|]. split; [done|].
  eapply frame_kpage; [done|]. by apply in_use_range.
Qed.

Lemma load_byte_Ok m va b :
  vm_inv D m -> cur_pagedir m ∈ D -> 0 <= va < PHYS_BASE -> ubyte m (cur_pagedir m) va = Some b -> load_byte va m = Ok (b, m).
Proof.
  intros HI Hpd Hva Hb. unfold ubyte in Hb. destruct (translate m (cur_pagedir m) va) as [[p w]|] eqn:Et; [|done].
  unfold load_byte. erewrite stbind_step by (rewrite mmu_Ok by done; by rewrite Et).
  destruct (user_frame m _ va p w HI Hpd Hva Et) as (k & _ & _ & Hp & _). apply load_kbyte_Ok; [done|apply Z.mod_pos_bound; lia|done].
Qed.

(** Setting a byte of a frame. *)
Lemma put_byte_inv m k i b :
  vm_inv D m -> 0 <= k < bit_cnt (used_map (frame_pool m)) -> 0 <= i < 4096 ->
  vm_inv D (put_byte m (frame_page m k) i b) /\
  forall pd va, pd ∈ D -> 0 <= va < PHYS_BASE -> translate (put_byte m (frame_page m k) i b) pd va = translate m pd va.
Proof.
  intros HI Hk Hi. pose proof (vi_dir D m HI) as HD. set (m' := put_byte m (frame_page m k) i b).
  assert (Hpg : forall a, a <> frame_page m k -> pages m' !! a = pages m !! a) by (intros a Ha; cbn; by apply lookup_alter_ne).
  destruct (dir_inv_ext D m m' HD) as [HD' Htr]; [done|done| |].
  { intros a Ha. apply Hpg. intros ->. by eapply (vi_sep D m HI k). }
  split; [|done]. pose proof HI as [H1 H2 H3 H4 H5 H6 H7 H8 H9 H10]. split; try done.
  - destruct H2 as [P1 P2 P3 P4]. split; try done. intros j Hj. unfold m', put_byte. apply put_word_full. by apply P4.
  - intros pd va a w Hpd Hva. rewrite Htr by done. by apply H7.
  - intros pd va pd' va' a w w' Hpd Hpd' Hva Hva'. rewrite !Htr by done. by apply H8.
Qed.

(** What a write to user memory leaves alone. *)
Record uframe (m m' : vm) : Prop := {
  uf_same : m' = upd_pages (fun _ => pages m') m;
  uf_trans : forall pd va, pd ∈ D -> 0 <= va < PHYS_BASE -> translate m' pd va = translate m pd va
}.

Lemma uframe_refl m : uframe m m.
Proof. split; [by destruct m|done]. Qed.

Lemma uframe_trans m1 m2 m3 : uframe m1 m2 -> uframe m2 m3 -> uframe m1 m3.
Proof.
  intros [A1 A2] [B1 B2]. split; [by rewrite B1, A1|]. intros pd va Hpd Hva. by rewrite B2, A2.
Qed.

Lemma uframe_cur m m' : uframe m m' -> cur_pagedir m' = cur_pagedir m.
Proof. intros H. by rewrite (uf_same _ _ H). Qed.

(** A write changes the byte at its address, for the running process, and no
    other byte of any process. *)
Lemma store_byte_Ok m va b p :
  vm_inv D m -> cur_pagedir m ∈ D -> 0 <= va < PHYS_BASE -> is_u8 b -> translate m (cur_pagedir m) va = Some (p, true) ->
  exists m', store_byte va b m = Ok (tt, m') /\ vm_inv D m' /\ uframe m m' /\
    forall pd va', pd ∈ D -> 0 <= va' < PHYS_BASE ->
      ubyte m' pd va' = if bool_decide (pd = cur_pagedir m /\ va' = va) then Some b else ubyte m pd va'.
Proof.
  intros HI Hpd Hva Hb Et. destruct (user_frame m _ va p true HI Hpd Hva Et) as (k & Hk & -> & Hp & Hf). apply in_use_range in Hk.
  assert (Hi : 0 <= va mod 4096 < 4096) by (apply Z.mod_pos_bound; lia).
  destruct (put_byte_inv m k (va mod 4096) b HI Hk Hi) as [HI' Htr]. set (m' := put_byte m (frame_page m k) (va mod 4096) b) in *.
  exists m'. split.
  { unfold store_byte. erewrite stbind_step by (rewrite mmu_Ok by done; by rewrite Et). by apply store_kbyte_Ok. }
  split; [done|]. split; [by split|]. intros pd va' Hpd' Hva'. unfold ubyte. rewrite Htr by done.
  destruct (translate m pd va') as [[q w]|] eqn:Eq.
  - unfold m'. rewrite pbyte_put by (done || apply Z.mod_pos_bound; lia). do 2 case_bool_decide; try done.
    + destruct H as [<- Hi']. destruct H0. destruct (vi_once D m HI pd va' _ va _ _ _ Hpd' Hpd Hva' Hva Eq Et) as [-> Hq].
      split; [done|]. pose proof (Z.div_mod va 4096). pose proof (Z.div_mod va' 4096). lia.
    + destruct H0 as [-> ->]. destruct H. rewrite Et in Eq. by injection Eq as ->.
  - rewrite bool_decide_false; [done|]. intros [-> ->]. congruence.
Qed.

(** Writing a range of addresses that the running process may write to. *)
Lemma store_bytes_Ok bs : forall m va,
  vm_inv D m -> cur_pagedir m ∈ D -> 0 <= va -> va + Z.of_nat (length bs) <= PHYS_BASE -> Forall is_u8 bs ->
  (forall i, 0 <= i < Z.of_nat (length bs) -> exists p, translate m (cur_pagedir m) (va + i) = Some (p, true)) ->
  exists m', store_bytes va bs m = Ok (tt, m') /\ vm_inv D m' /\ uframe m m' /\
    forall pd va', pd ∈ D -> 0 <= va' < PHYS_BASE ->
      ubyte m' pd va' = if bool_decide (pd = cur_pagedir m /\ va <= va' < va + Z.of_nat (length bs)) then bs !! Z.to_nat (va' - va) else ubyte m pd va'.
Proof.
  induction bs as [|b bs IH]; intros m va HI Hpd Hva Hend Hu Hw; cbn [length] in *.
  { exists m. split; [done|]. split; [done|]. split; [apply uframe_refl|]. intros pd va' _ _. rewrite bool_decide_false by lia. done. }
  inversion_clear Hu as [|?? Hb Hbs]. destruct (Hw 0) as [p Hp]; [lia|]. rewrite Z.add_0_r in Hp.
  destruct (store_byte_Ok m va b p) as (m1 & E1 & HI1 & Hf1 & Hb1); [done|done|lia|done|done|].
  cbn [store_bytes]. erewrite stbind_step by exact E1. pose proof (uframe_cur _ _ Hf1) as Hc1. destruct (decide (bs = [])) as [->|Hne].
  { exists m1. split; [done|]. split; [done|]. split; [done|]. intros pd va' Hpd' Hva'. rewrite Hb1 by done. cbn [length].
    repeat case_bool_decide; try done; try lia. destruct H as [_ ->]. by rewrite Z.sub_diag. }
  assert (0 < length bs)%nat by (destruct bs; [done|cbn; lia]). rewrite u32_small by (unfold is_u32, PHYS_BASE in *; lia).
  destruct (IH m1 (va + 1)) as (m2 & E2 & HI2 & Hf2 & Hb2); [done|by rewrite Hc1|lia|lia|done| |].
  { intros i Hi. rewrite Hc1, (uf_trans _ _ Hf1) by (done || lia). replace (va + 1 + i) with (va + (i + 1)) by lia. apply Hw. lia. }
  exists m2. split; [done|]. split; [done|]. split; [by eapply uframe_trans|]. intros pd va' Hpd' Hva'. rewrite Hb2, Hb1, Hc1 by done.
  repeat case_bool_decide; try done; try lia.
  - replace (Z.to_nat (va' - va)) with (S (Z.to_nat (va' - (va + 1)))) by lia. done.
  - destruct H1 as [_ ->]. by rewrite Z.sub_diag.
Qed.

Lemma load_bytes_Ok n : forall m va,
  vm_inv D m -> cur_pagedir m ∈ D -> 0 <= va -> va + Z.of_nat n <= PHYS_BASE ->
  (forall i, 0 <= i < Z.of_nat n -> is_Some (ubyte m (cur_pagedir m) (va + i))) ->
  exists bs, load_bytes n va m = Ok (bs, m) /\ length bs = n /\
    forall i, 0 <= i < Z.of_nat n -> bs !! Z.to_nat i = ubyte m (cur_pagedir m) (va + i).
Proof.
  induction n as [|n IH]; intros m va HI Hpd Hva Hend Hb.
  { exists []. split; [done|]. split; [done|]. lia. }
  destruct (Hb 0) as [b Hb0]; [lia|]. rewrite Z.add_0_r in Hb0. cbn [load_bytes].
  erewrite stbind_step by (apply load_byte_Ok; [done|done|lia|done]). destruct (decide (n = 0%nat)) as [->|Hne].
  { exists [b]. split; [done|]. split; [done|]. intros i Hi. assert (i = 0) as -> by lia. by rewrite Z.add_0_r. }
  rewrite u32_small by (unfold is_u32, PHYS_BASE in *; lia).
  destruct (IH m (va + 1)) as (bs & E & Hl & Hbs); [done|done|lia|lia| |].
  { intros i Hi. replace (va + 1 + i) with (va + (i + 1)) by lia. apply Hb. lia. }
  erewrite stbind_step by exact E. exists (b :: bs). split; [done|]. split; [cbn; lia|]. intros i Hi.
  destruct (decide (i = 0)) as [->|Hi0]; [by rewrite Z.add_0_r|].
  replace (Z.to_nat i) with (S (Z.to_nat (i - 1))) by lia. cbn. rewrite Hbs by lia. f_equal. lia.
Qed.

(** A terminated string of the running process is read as it is. *)
Lemma scan_string_Ok d : forall m va l,
  vm_inv D m -> cur_pagedir m ∈ D -> 0 <= va -> va + Z.of_nat (length l) < PHYS_BASE ->
  (forall i, 0 <= i <= Z.of_nat (length l) -> ubyte m (cur_pagedir m) (va + i) = (l ++ [0]) !! Z.to_nat i) -> Forall (fun b => b <> 0) l ->
  scan_string d va m = Ok ((take (2 ^ d) l, bool_decide (length l < 2 ^ d)%nat), m).
Proof.
  induction d as [|d IH]; intros m va l HI Hpd Hva Hend Hb Hnz; cbn [scan_string].
  - pose proof (Hb 0 ltac:(lia)) as H0. rewrite Z.add_0_r in H0. destruct l as [|x l].
    + erewrite stbind_step by (apply load_byte_Ok; [done|done|cbn in *; lia|exact H0]). done.
    + erewrite stbind_step by (apply load_byte_Ok; [done|done|cbn in *; lia|exact H0]). inversion_clear Hnz.
      rewrite (proj2 (Z.eqb_neq x 0)) by done. rewrite bool_decide_false by (cbn; lia). done.
  - erewrite stbind_step by (by apply IH). cbn beta iota. assert (Hp : (2 ^ S d = 2 ^ d + 2 ^ d)%nat) by (cbn; lia).
    destruct (decide (length l < 2 ^ d)%nat) as [Hlt|Hge].
    { rewrite (bool_decide_true (length l < 2 ^ d)%nat) by done. rewrite bool_decide_true by lia. by rewrite !take_ge by lia. }
    rewrite (bool_decide_false (length l < 2 ^ d)%nat) by done. assert (Hz : 2 ^ Z.of_nat d = Z.of_nat (2 ^ d)) by (by rewrite Nat2Z.inj_pow).
    rewrite Hz. rewrite u32_small by (unfold is_u32, PHYS_BASE in *; lia).
    erewrite stbind_step; cycle 1.
    { apply (IH m (va + Z.of_nat (2 ^ d)) (drop (2 ^ d) l)); [done|done|lia|rewrite length_drop; lia| |by apply Forall_drop].
      intros i Hi. rewrite length_drop in Hi. rewrite <- Z.add_assoc, Hb by lia. rewrite <- (drop_app_le l [0] (2 ^ d)) by lia.
      rewrite lookup_drop. f_equal. lia. }
    cbn beta iota. rewrite Hp, length_drop. unfold mret, stM_ret. do 3 f_equal.
    + rewrite <- (take_drop (2 ^ d) l) at 3. rewrite take_app_ge by (rewrite length_take; lia). rewrite length_take. do 2 f_equal. lia.
    + apply bool_decide_ext. lia.
Qed.

Lemma load_string_Ok m va l :
  vm_inv D m -> cur_pagedir m ∈ D -> 0 <= va -> va + Z.of_nat (length l) < PHYS_BASE ->
  (forall i, 0 <= i <= Z.of_nat (length l) -> ubyte m (cur_pagedir m) (va + i) = (l ++ [0]) !! Z.to_nat i) -> Forall (fun b => b <> 0) l ->
  load_string va m = Ok (l, m).
Proof.
  intros HI Hpd Hva Hend Hb Hnz. unfold load_string. erewrite stbind_step by (by apply scan_string_Ok). cbn beta iota.
  assert (Hlt : (length l < 2 ^ 32)%nat).
  { apply Nat2Z.inj_lt. rewrite Nat2Z.inj_pow. change (Z.of_nat 2 ^ Z.of_nat 32) with (2 ^ 32). unfold PHYS_BASE in *. lia. }
  rewrite bool_decide_true by done. by rewrite take_ge by lia.
Qed.

(** *** The kernel's view of a frame *)

Lemma kernel_store m p i b : kpage_ok p -> 0 <= i < 4096 -> store_byte (p + i) b m = store_kbyte (p + i) b m.
Proof.
  intros [Hp _] Hi. unfold store_byte, mmu, is_user_vaddr. rewrite (proj2 (Z.ltb_ge _ _)) by lia. by erewrite stbind_step by done.
Qed.

(** Writing a part of a frame through its kernel address. *)
Lemma store_frame_Ok bs : forall m k i,
  vm_inv D m -> 0 <= k < bit_cnt (used_map (frame_pool m)) -> 0 <= i -> i + Z.of_nat (length bs) <= 4096 -> Forall is_u8 bs ->
  exists m', store_bytes (frame_page m k + i) bs m = Ok (tt, m') /\ vm_inv D m' /\ uframe m m' /\
    forall q j, 0 <= j < 4096 ->
      pbyte m' q j = if bool_decide (q = frame_page m k /\ i <= j < i + Z.of_nat (length bs)) then bs !! Z.to_nat (j - i) else pbyte m q j.
Proof.
  induction bs as [|b bs IH]; intros m k i HI Hk Hi Hend Hu; cbn [length] in *.
  { exists m. split; [done|]. split; [done|]. split; [apply uframe_refl|]. intros q j _. rewrite bool_decide_false by lia. done. }
  inversion_clear Hu as [|?? Hb Hbs]. destruct (frame_kpage D m k HI Hk) as [Hp Hf]. cbn [store_bytes].
  erewrite stbind_step by (rewrite kernel_store by (done || lia); apply store_kbyte_Ok; [done|lia|done]).
  destruct (put_byte_inv m k i b HI Hk ltac:(lia)) as [HI1 Htr1]. set (m1 := put_byte m (frame_page m k) i b) in *.
  assert (Hf1 : uframe m m1) by (by split).
  assert (Hpb : forall q j, 0 <= j < 4096 -> pbyte m1 q j = if bool_decide (frame_page m k = q /\ i = j) then Some b else pbyte m q j)
    by (intros q j Hj; apply pbyte_put; [done|lia|done|done]).
  destruct (decide (bs = [])) as [->|Hne].
  { exists m1. split; [done|]. split; [done|]. split; [done|]. intros q j Hj. rewrite Hpb by done. cbn [length].
    repeat case_bool_decide; try done; try lia.
    destruct H as [_ ->]. by rewrite Z.sub_diag. }
  assert (0 < length bs)%nat by (destruct bs; [done|cbn; lia]).
  assert (Hlt : frame_page m k + i + 1 < 2 ^ 32).
  { destruct Hp as [? ?]. change (2 ^ 32) with (1048576 * 4096) in *. Z.to_euclidean_division_equations. lia. }
  rewrite u32_small by (destruct Hp; unfold is_u32, PHYS_BASE in *; lia). rewrite <- Z.add_assoc.
  destruct (IH m1 k (i + 1)) as (m2 & E2 & HI2 & Hf2 & Hb2); [done|done|lia|lia|done|]. change (frame_page m1 k) with (frame_page m k) in *.
  exists m2. split; [done|]. split; [done|]. split; [by eapply uframe_trans|]. intros q j Hj. rewrite Hb2, Hpb by done.
  repeat case_bool_decide; try done; try lia.
  - replace (Z.to_nat (j - i)) with (S (Z.to_nat (j - (i + 1)))) by lia. done.
  - destruct H1 as [_ ->]. by rewrite Z.sub_diag.
Qed.

End UserMemory.
