(* ===== verification/Isolation.v ===== *)
(** Processes cannot reach the memory of each other, or of the kernel, in any
    state of the memory system. *)

From stdpp Require Import base list numbers gmap.
From Stdlib Require Import ZArith Lia.
From S2P Require Import Prelude Bitmap Vm PageDir VmSpec VmBoot ByteMem.

(** ** Steps *)

(** The pages that hold the page directories of the kernel and of the processes [D], and the page tables of [D]. *)
Definition in_dirs (D : gset Z) (m : vm) (a : Z) : Prop := a = init_page_dir m \/ a ∈ D \/ exists pd i, pd ∈ D /\ 0 <= i < 768 /\ has_table m pd i a.

(** The running process stores a byte, or the kernel does so for it; the kernel
    frees a page of the process with palloc_free_upage; and the rest of the
    kernel takes, writes and frees pages of its pool that are not page
    directories or page tables. *)
Inductive mem_step : gset Z * vm -> gset Z * vm -> Prop :=
  | MProcess s s' : vm_step s s' -> mem_step s s'
  | MStore D m va b m' : cur_pagedir m <> 0 -> 0 <= va < PHYS_BASE -> is_u8 b -> store_byte va b m = Ok (tt, m') -> mem_step (D, m) (D, m')
  | MFree D m upage m' : cur_pagedir m <> 0 -> user_page upage -> pt_no upage <> 0 \/ word m (cur_pagedir m) (pd_no upage) = Some 0 ->
      palloc_free_upage upage m = Ok (tt, m') -> mem_step (D, m) (D, m')
  | MKernel D m m' : kframe m m' -> pool_ok m' (kernel_pool m') -> (forall a, in_dirs D m a -> taken m' a /\ pages m' !! a = pages m !! a) -> mem_step (D, m) (D, m').

(** ** Preservation *)

(** palloc_free_upage looks at the address of the page table entry: it fails the
    assertion that this is the address of a page, or, when there is no page
    table, frees nothing. *)
Lemma free_upage_cases D m upage :
  vm_inv D m -> cur_pagedir m ∈ D -> user_page upage -> pt_no upage <> 0 \/ word m (cur_pagedir m) (pd_no upage) = Some 0 ->
  palloc_free_upage upage m = Err EAssert \/ palloc_free_upage upage m = Ok (tt, m).
Proof.
  intros HI Hcur [Hva Hal] Hc. pose proof (vi_dir D m HI) as HD. destruct (user_index upage Hva) as [Hi Hj]. unfold palloc_free_upage, palloc_free_umultiple.
  change (Z.to_nat 1) with 1%nat. cbn [palloc_free_umultiple_loop]. erewrite stbind_step by done. rewrite Z.mul_0_l, Z.add_0_r.
  destruct (di_pde D m HD _ (pd_no upage) Hcur Hi) as [H0|(pt & Htab & Htk & _)]; [right; by erewrite stbind_step by (by apply (lookup_page_none D))|].
  destruct Hc as [Hpt|H0].
  - left. destruct (taken_ok m pt (di_pool D m HD) Htk) as [[Hpt1 Hpt2] _]. erewrite stbind_step by (by apply (lookup_page_table D m _ upage pt)). apply stbind_err. unfold palloc_free_page, old_palloc_free_multiple.
    apply stbind_err. rewrite pg_ofs_eq. unfold assertM, lift. rewrite (proj2 (Z.eqb_neq _ 0)); [done|]. Z.to_euclidean_division_equations. lia.
  - destruct Htab as [Hok Hw]. rewrite Hw in H0. injection H0 as H0. pose proof (entry_nonzero pt 7 Hok ltac:(lia)) as Hz. by rewrite H0 in Hz.
Qed.

(** For the first page that a page table maps the entry's address is the page
    table's, which is freed while the directory still has it. *)
Lemma free_upage_frees_table D m upage pt :
  vm_inv D m -> cur_pagedir m ∈ D -> user_page upage -> pt_no upage = 0 -> has_table m (cur_pagedir m) (pd_no upage) pt ->
  exists m', palloc_free_upage upage m = Ok (tt, m') /\ cur_pagedir m' = cur_pagedir m /\ ~ taken m' pt /\ has_table m' (cur_pagedir m) (pd_no upage) pt /\ ~ dir_inv D m'.
Proof.
  intros HI Hcur [Hva Hal] Hpt Htab. pose proof (vi_dir D m HI) as HD. destruct (user_index upage Hva) as [Hi Hj].
  destruct (di_pde D m HD _ (pd_no upage) Hcur Hi) as [H0|(pt' & Htab' & Htk & HnD & _)]; [destruct Htab as [Hok Hw]; rewrite Hw in H0; injection H0 as H0; pose proof (entry_nonzero pt 7 Hok ltac:(lia)) as Hz; by rewrite H0 in Hz|].
  rewrite (has_table_fun _ _ _ _ _ Htab' Htab) in *. destruct (palloc_free_page_spec m pt (di_pool D m HD) Htk) as (m' & E & Htk' & _ & Hk & Hpg).
  assert (Hno : ~ taken m' pt) by (rewrite Htk'; tauto). assert (Hne : cur_pagedir m <> pt) by (intros <-; done).
  assert (Htab2 : has_table m' (cur_pagedir m) (pd_no upage) pt) by (destruct Htab as [Hok Hw]; split; [done|]; unfold word in *; by rewrite Hpg).
  exists m'. split.
  { unfold palloc_free_upage, palloc_free_umultiple. change (Z.to_nat 1) with 1%nat. cbn [palloc_free_umultiple_loop]. erewrite stbind_step by done. rewrite Z.mul_0_l, Z.add_0_r.
    erewrite stbind_step by (by apply (lookup_page_table D m _ upage pt)). rewrite Hpt, Z.mul_0_r, Z.add_0_r. by erewrite stbind_step by exact E. }
  split; [apply Hk|]. split; [done|]. split; [done|]. intros HD'. destruct (di_pde D m' HD' _ (pd_no upage) Hcur Hi) as [H0|(pt2 & Htab3 & Htk3 & _)].
  - destruct Htab2 as [Hok Hw]. rewrite Hw in H0. injection H0 as H0. pose proof (entry_nonzero pt 7 Hok ltac:(lia)) as Hz. by rewrite H0 in Hz.
  - rewrite (has_table_fun _ _ _ _ _ Htab3 Htab2) in Htk3. done.
Qed.

Lemma kernel_inv D m m' : kframe m m' -> pool_ok m' (kernel_pool m') -> (forall a, in_dirs D m a -> taken m' a /\ pages m' !! a = pages m !! a) -> vm_inv D m -> vm_inv D m'.
Proof.
  intros Hk Hpo Hdirs HI. pose proof (vi_dir D m HI) as HD.
  assert (Hw : forall a i, in_dirs D m a -> word m' a i = word m a i) by (intros a i Ha; unfold word; by rewrite (proj2 (Hdirs a Ha))).
  assert (Hwd : forall pd i, pd ∈ D -> word m' pd i = word m pd i) by (intros pd i Hpd; apply Hw; by right; left).
  assert (Htab : forall pd i pt, pd ∈ D -> has_table m' pd i pt <-> has_table m pd i pt) by (intros pd i pt Hpd; unfold has_table; by rewrite Hwd).
  assert (Hwt : forall pd i pt j, pd ∈ D -> 0 <= i < 768 -> has_table m pd i pt -> word m' pt j = word m pt j) by (intros pd i pt j Hpd Hi Ht; apply Hw; right; right; eauto).
  pose proof (kf_init _ _ Hk) as Hinit. assert (HD' : dir_inv D m').
  { destruct HD as [D1 (D2 & D3 & D4) D5 D6 D7 D8]. split; [done| | | | |].
    - rewrite Hinit. split; [apply Hdirs; by left|]. split; [done|]. intros i Hi. rewrite Hw by (by left). by apply D4.
    - intros pd Hpd. apply Hdirs. by right; left.
    - intros pd i Hpd Hi. rewrite Hwd, Hinit by done. destruct (D6 pd i Hpd Hi) as [|(pt & T1 & T2 & T3)]; [by left|]. right. exists pt. split; [by apply Htab|]. split; [apply Hdirs; right; right; eauto|done].
    - intros pd pd' i i' pt Hpd Hpd' Hi Hi'. rewrite !Htab by done. by apply D7.
    - intros pd i j pt x Hpd Hi Hj Ht. rewrite Htab in Ht by done. erewrite Hwt by done. by eapply D8. }
  eapply vm_inv_kframe; [done|done|done| |apply HI]. intros pd va a w Hpd Hva Ht. split; [done|]. destruct (user_index va Hva) as [Hi Hj]. pose proof HD as [_ _ _ D6 _ _].
  unfold translate in *. destruct (D6 pd (pd_no va) Hpd Hi) as [H0|(pt & T1 & T2 & T3)]; [rewrite pte_of_None in Ht by (by rewrite Hwd); done|].
  rewrite (pte_of_table m' pd va pt) in Ht by (by apply Htab). rewrite (pte_of_table m pd va pt) by done. by erewrite Hwt in Ht by done.
Qed.

Lemma store_inv D m va b m' : vm_inv D m -> cur_pagedir m <> 0 -> 0 <= va < PHYS_BASE -> is_u8 b -> store_byte va b m = Ok (tt, m') ->
  vm_inv D m' /\ forall pd va', pd ∈ D -> 0 <= va' < PHYS_BASE -> ubyte m' pd va' = if bool_decide (pd = cur_pagedir m /\ va' = va) then Some b else ubyte m pd va'.
Proof.
  intros HI Hne Hva Hb E. destruct (vi_cur D m HI) as [|Hin]; [done|]. destruct (translate m (cur_pagedir m) va) as [[p w]|] eqn:Et.
  2: { unfold store_byte in E. erewrite stbind_err in E by (rewrite (mmu_Ok D) by done; by rewrite Et). done. }
  destruct w; [|unfold store_byte in E; erewrite stbind_err in E by (rewrite (mmu_Ok D) by done; by rewrite Et); done].
  destruct (store_byte_Ok D m va b p HI Hin Hva Hb Et) as (m1 & E1 & HI1 & _ & Hu). rewrite E in E1. by injection E1 as <-.
Qed.

Lemma mem_step_inv s s' : mem_step s s' -> vm_inv s.1 s.2 -> vm_inv s'.1 s'.2.
Proof.
  intros [s1 s2 H|D m va b m' Hne Hva Hb E|D m upage m' Hne Hu Hc E|D m m' Hk Hpo Hd] HI; cbn [fst snd] in *.
  - by eapply vm_step_inv.
  - by eapply store_inv.
  - destruct (vi_cur D m HI) as [|Hin]; [done|]. destruct (free_upage_cases D m upage HI Hin Hu Hc) as [E'|E']; rewrite E' in E; by simplify_eq.
  - by eapply kernel_inv.
Qed.

Lemma mem_steps_inv s s' : rtc mem_step s s' -> vm_inv s.1 s.2 -> vm_inv s'.1 s'.2.
Proof. induction 1 as [|s1 s2 s3 H _ IH]; [done|]. intros HI. by apply IH, (mem_step_inv s1). Qed.

(** ** Claim *)


#[local] Opaque demo0 demo1 demo2.

Definition demo3 : vm := run (store_byte 0x8048123 65) demo2.

Lemma demo3_step : mem_step ({[cur_pagedir demo1]} ∪ ∅, demo2) ({[cur_pagedir demo1]} ∪ ∅, demo3).
Proof.
  destruct (run_Ok (store_byte 0x8048123 65) demo2) as [[] E]; [vm_compute; reflexivity|].
  apply (MStore _ demo2 0x8048123 65); [vm_compute; discriminate|unfold PHYS_BASE; lia|unfold is_u8; lia|exact E].
Qed.

#[local] Opaque demo3.

