(* ===== verification/Process.v ===== *)
(** Loading a program (userprog/process.c): the ELF headers, the segments and
    the initial stack.

    A process is seen from the kernel that runs on its behalf: the memory
    system (Vm), the file system (Inode, FreeMap, Directory), the fields of
    struct thread that belong to the process, and the console.  Strings are
    lists of characters without the terminator. *)

From stdpp Require Import base list numbers gmap.
From Stdlib Require Import ZArith Lia String Ascii.
From S2P Require Import Prelude Bitmap Inode FreeMap Directory Vm PageDir VmSpec ByteMem.
Open Scope list_scope.
Open Scope Z_scope.

(** ** State *)

(** struct fd_elem of threads/thread.h; the list of a thread is kept in order. *)
Record fd_elem := MkFd { fd : Z; file_size : Z; filename : list Z; the_file : Z }.

Record sys := MkSys {
  s_vm : vm;
  s_fs : fs;
  thread_name : list Z;
  next_fd : Z;
  executable : Z;
  fd_list : list fd_elem;
  tid_node_exists : bool;
  exit_status : Z;         (* of tid_node *)
  console : list Z;
  keys : list Z            (* characters typed and not yet read *)
}.

Definition with_vm (s : sys) (m : vm) : sys :=
  MkSys m (s_fs s) (thread_name s) (next_fd s) (executable s) (fd_list s) (tid_node_exists s) (exit_status s) (console s) (keys s).
Definition with_fs (s : sys) (f : fs) : sys :=
  MkSys (s_vm s) f (thread_name s) (next_fd s) (executable s) (fd_list s) (tid_node_exists s) (exit_status s) (console s) (keys s).
Definition with_fds (s : sys) (n : Z) (l : list fd_elem) : sys :=
  MkSys (s_vm s) (s_fs s) (thread_name s) n (executable s) l (tid_node_exists s) (exit_status s) (console s) (keys s).
Definition with_executable (s : sys) (e : Z) : sys :=
  MkSys (s_vm s) (s_fs s) (thread_name s) (next_fd s) e (fd_list s) (tid_node_exists s) (exit_status s) (console s) (keys s).
Definition with_status (s : sys) (x : Z) : sys :=
  MkSys (s_vm s) (s_fs s) (thread_name s) (next_fd s) (executable s) (fd_list s) (tid_node_exists s) x (console s) (keys s).
Definition with_console (s : sys) (c : list Z) : sys :=
  MkSys (s_vm s) (s_fs s) (thread_name s) (next_fd s) (executable s) (fd_list s) (tid_node_exists s) (exit_status s) c (keys s).
Definition with_keys (s : sys) (k : list Z) : sys :=
  MkSys (s_vm s) (s_fs s) (thread_name s) (next_fd s) (executable s) (fd_list s) (tid_node_exists s) (exit_status s) (console s) k.

#[local] Abbreviation M := (stM sys).

Definition on_vm {A} (c : stM vm A) : M A := fun s =>
  match c (s_vm s) with Ok (a, m) => Ok (a, with_vm s m) | Err e => Err e end.
Definition on_fs {A} (c : stM fs A) : M A := fun s =>
  match c (s_fs s) with Ok (a, f) => Ok (a, with_fs s f) | Err e => Err e end.

Definition print (l : list Z) : M unit := modify (fun s => with_console s (console s ++ l)).

(** ** ELF headers *)

Record Elf32_Ehdr := MkEhdr {
  e_ident : list Z; e_type : Z; e_machine : Z; e_version : Z; e_entry : Z; e_phoff : Z; e_shoff : Z; e_flags : Z;
  e_ehsize : Z; e_phentsize : Z; e_phnum : Z; e_shentsize : Z; e_shnum : Z; e_shstrndx : Z
}.
Record Elf32_Phdr := MkPhdr {
  p_type : Z; p_offset : Z; p_vaddr : Z; p_paddr : Z; p_filesz : Z; p_memsz : Z; p_flags : Z; p_align : Z
}.

(** The [n]-byte little-endian field at offset [ofs]. *)
Definition field (b : list Z) (ofs n : nat) : Z := le_word (take n (drop ofs b)).

Definition ehdr_of (b : list Z) : Elf32_Ehdr :=
  MkEhdr (take 16 b) (field b 16 2) (field b 18 2) (field b 20 4) (field b 24 4) (field b 28 4) (field b 32 4) (field b 36 4)
    (field b 40 2) (field b 42 2) (field b 44 2) (field b 46 2) (field b 48 2) (field b 50 2).
Definition phdr_of (b : list Z) : Elf32_Phdr :=
  MkPhdr (field b 0 4) (field b 4 4) (field b 8 4) (field b 12 4) (field b 16 4) (field b 20 4) (field b 24 4) (field b 28 4).

Definition sizeof_Ehdr : Z := 52.
Definition sizeof_Phdr : Z := 32.
Definition PT_LOAD : Z := 1.
Definition PT_DYNAMIC : Z := 2.
Definition PT_INTERP : Z := 3.
Definition PT_SHLIB : Z := 5.
Definition PF_W : Z := 2.

Definition ROUND_UP (x step : Z) : Z := u32 (x + step - 1) / step * step.
Definition ROUND_DOWN (x step : Z) : Z := x / step * step.

(** ** Segments *)

(** [len] is file_length. *)
Definition validate_segment (phdr : Elf32_Phdr) (len : Z) : bool :=
  if negb (Z.land (p_offset phdr) PGMASK =? Z.land (p_vaddr phdr) PGMASK) then false
  else if u32 len <? p_offset phdr then false
  else if p_memsz phdr <? p_filesz phdr then false
  else if p_memsz phdr =? 0 then false
  else if negb (is_user_vaddr (p_vaddr phdr)) then false
  else if negb (is_user_vaddr (u32 (p_vaddr phdr + p_memsz phdr))) then false
  else if u32 (p_vaddr phdr + p_memsz phdr) <? p_vaddr phdr then false
  else if p_vaddr phdr <? PGSIZE then false
  else true.

(** The loop of load_segment.  Each turn takes a page off the bytes that
    remain, so their number bounds the turns. *)
Fixpoint load_segment_loop (fuel : nat) (file upage read_bytes zero_bytes : Z) (writable : bool) : M bool :=
  match fuel with
  | O => raise EFuel
  | S fuel =>
      if (0 <? read_bytes) || (0 <? zero_bytes) then
        let page_read_bytes := if read_bytes <? PGSIZE then read_bytes else PGSIZE in
        let page_zero_bytes := PGSIZE - page_read_bytes in
        kpage ← on_vm (palloc_page PAL_USER upage writable);
        if kpage =? 0 then mret false
        else
          bs ← on_fs (file_read file page_read_bytes);
          on_vm (store_bytes kpage bs);;
          if negb (Z.of_nat (List.length bs) =? page_read_bytes) then
            on_vm (palloc_free_upage upage);;
            mret false
          else
            on_vm (store_bytes (kpage + page_read_bytes) (replicate (Z.to_nat page_zero_bytes) 0));;
            load_segment_loop fuel file (u32 (upage + PGSIZE)) (u32 (read_bytes - page_read_bytes)) (u32 (zero_bytes - page_zero_bytes)) writable
      else mret true
  end.

Definition load_segment (file ofs upage read_bytes zero_bytes : Z) (writable : bool) : M bool :=
  assertM (u32 (read_bytes + zero_bytes) mod PGSIZE =? 0);;
  assertM (pg_ofs upage =? 0);;
  assertM (Z.rem ofs PGSIZE =? 0);;
  on_fs (file_seek file ofs);;
  load_segment_loop (S (Z.to_nat (read_bytes + zero_bytes))) file upage read_bytes zero_bytes writable.

(** One program header: what the switch of load does. *)
Definition load_phdr (file : Z) (phdr : Elf32_Phdr) : M bool :=
  if (p_type phdr =? PT_DYNAMIC) || (p_type phdr =? PT_INTERP) || (p_type phdr =? PT_SHLIB) then mret false
  else if p_type phdr =? PT_LOAD then
    len ← on_fs (file_length file);
    if validate_segment phdr len then
      let writable := negb (Z.land (p_flags phdr) PF_W =? 0) in
      let file_page := pg_round_down (p_offset phdr) in
      let mem_page := pg_round_down (p_vaddr phdr) in
      let page_offset := Z.land (p_vaddr phdr) PGMASK in
      let '(read_bytes, zero_bytes) :=
        if 0 <? p_filesz phdr then
          let read_bytes := u32 (page_offset + p_filesz phdr) in
          (read_bytes, u32 (ROUND_UP (u32 (page_offset + p_memsz phdr)) PGSIZE - read_bytes))
        else (0, ROUND_UP (u32 (page_offset + p_memsz phdr)) PGSIZE) in
      load_segment file (s32 file_page) mem_page read_bytes zero_bytes writable
    else mret false
  else mret true.

(** The loop over the program headers; [k] of them remain. *)
Fixpoint load_phdrs (k : nat) (file file_ofs : Z) : M bool :=
  match k with
  | O => mret true
  | S k =>
      len ← on_fs (file_length file);
      if (file_ofs <? 0) || (len <? file_ofs) then mret false
      else
        on_fs (file_seek file file_ofs);;
        b ← on_fs (file_read file sizeof_Phdr);
        if negb (Z.of_nat (List.length b) =? sizeof_Phdr) then mret false
        else
          ok ← load_phdr file (phdr_of b);
          if ok : bool then load_phdrs k file (s32 (file_ofs + sizeof_Phdr)) else mret false
  end.

(** ** The stack *)

Definition size_of_char_arg (arg : list Z) : Z := Z.of_nat (List.length arg) + 1.
Definition word_align (add size : Z) : Z := ROUND_DOWN add size.

Definition grow_stack (prev : Z) : M Z :=
  let cur := u32 (prev - PGSIZE) in
  k ← on_vm (palloc_page (Z.lor PAL_USER PAL_ZERO) cur true);
  if negb (k =? 0) then mret cur else mret 0.

(** The argument strings, the last one first; [i] is the index of the first of
    [args] and [arg_pointers] the addresses of the ones before it in this
    order.  The array in the code has 50 entries. *)
Fixpoint push_strings (args : list (list Z)) (i esp : Z) (arg_pointers : list Z) : M (Z * list Z) :=
  match args with
  | [] => mret (esp, arg_pointers)
  | arg :: args =>
      let esp := u32 (esp - size_of_char_arg arg) in
      on_vm (store_bytes esp (arg ++ [0]));;
      (if i <? 50 then mret tt else raise EFault);;
      push_strings args (i - 1) esp (esp :: arg_pointers)
  end.

(** The pointers to them, the last one first, while the stack has room. *)
Fixpoint push_pointers (ptrs : list Z) (esp esp_limit : Z) : M (bool * Z) :=
  match ptrs with
  | [] => mret (true, esp)
  | p :: ptrs =>
      if esp_limit <=? esp then
        let esp := u32 (esp - 4) in
        on_vm (store_bytes esp (le_bytes p));;
        push_pointers ptrs esp esp_limit
      else mret (false, esp)
  end.

(** Returns success and esp. *)
Definition setup_stack (argv : list (list Z)) : M (bool * Z) :=
  let argc := Z.of_nat (List.length argv) in
  let upage := PHYS_BASE - PGSIZE in
  k ← on_vm (palloc_page (Z.lor PAL_USER PAL_ZERO) upage true);
  if negb (k =? 0) then
    r ← push_strings (reverse argv) (argc - 1) PHYS_BASE [];
    let '(esp, arg_pointers) := r in
    let esp := word_align esp 4 in
    let esp := u32 (esp - 4) in
    on_vm (store_bytes esp (replicate 4 0));;
    let esp_limit := PHYS_BASE - PGSIZE + 12 in
    r ← push_pointers (reverse arg_pointers) esp esp_limit;
    let '(success, esp) := r in
    (if negb success then on_vm (palloc_free_upage upage) else mret tt);;
    let esp_prev := esp in
    let esp := u32 (esp - 4) in
    on_vm (store_bytes esp (le_bytes esp_prev));;
    let esp := u32 (esp - 4) in
    on_vm (store_bytes esp (le_bytes argc));;
    let esp := u32 (esp - 4) in
    on_vm (store_bytes esp (replicate 4 0));;
    mret (success, esp)
  else
    on_vm (palloc_free_upage upage);;
    mret (false, 0).

(** ** load *)

Definition elf_magic : list Z := [127; 69; 76; 70; 1; 1; 1].

Definition ehdr_bad (e : Elf32_Ehdr) : bool :=
  negb (bool_decide (take 7 (e_ident e) = elf_magic)) || negb (e_type e =? 2) || negb (e_machine e =? 3) || negb (e_version e =? 1)
  || negb (e_phentsize e =? sizeof_Phdr) || (1024 <? e_phnum e).

(** Returns the entry point and the stack pointer on success. *)
Definition load (file_name : list Z) (argv : list (list Z)) : M (option (Z * Z)) :=
  ok ← on_vm load_pagedir;
  if negb ok then mret None
  else
    file ← on_fs (filesys_open file_name);
    modify (fun s => with_executable s file);;
    if file =? 0 then
      print (chars "load: " ++ file_name ++ chars ": open failed" ++ [10]);;
      mret None
    else
      on_fs (file_deny_write file);;
      b ← on_fs (file_read file sizeof_Ehdr);
      if negb (Z.of_nat (List.length b) =? sizeof_Ehdr) || ehdr_bad (ehdr_of b) then
        print (chars "load: " ++ file_name ++ chars ": error loading executable" ++ [10]);;
        mret None
      else
        let ehdr := ehdr_of b in
        ok ← load_phdrs (Z.to_nat (e_phnum ehdr)) file (s32 (e_phoff ehdr));
        if negb ok then mret None
        else
          r ← setup_stack argv;
          let '(ok, esp) := r in
          if negb ok then mret None
          else mret (Some (e_entry ehdr, esp)).
