(* ===== verification/LoadSpec.v ===== *)
(** Correctness of the loader: which segments are accepted, what the memory
    of the process holds after a segment is loaded, and the layout of the
    initial stack. *)

From stdpp Require Import base list numbers gmap.
From Stdlib Require Import ZArith Lia.
From S2P Require Import Prelude Bitmap Inode FreeMap Directory Vm PageDir VmSpec ByteMem Process.

(** ** Room in the pools *)

(** At least [n] frames are free. *)
Definition free_frames (m : vm) (n : nat) : Prop :=
  exists X : gset Z, (n <= size X)%nat /\ forall k, k ∈ X -> 0 <= k < bit_cnt (used_map (frame_pool m)) /\ ~ in_use (frame_pool m) k.

(** At least [n] pages of the kernel pool are free. *)
Definition free_kernel (m : vm) (n : nat) : Prop :=
  exists X : gset Z, (n <= size X)%nat /\ forall a, a ∈ X -> kernel_page m a /\ ~ taken m a.

Lemma size_delete (X : gset Z) k n : (S n <= size X)%nat -> (n <= size (X ∖ {[k]}))%nat.
Proof.
  intros Hn. destruct (decide (k ∈ X)) as [Hk|Hk].
  - rewrite size_difference by set_solver. rewrite size_singleton. lia.
  - replace (X ∖ {[k]}) with X by set_solver. lia.
Qed.

Lemma free_frames_one m n : free_frames m (S n) -> exists k, 0 <= k < bit_cnt (used_map (frame_pool m)) /\ ~ in_use (frame_pool m) k.
Proof.
  intros (X & Hn & HX). destruct (size_pos_elem_of X) as [k Hk]; [lia|]. exists k. by apply HX.
Qed.

Lemma free_kernel_one m n : free_kernel m (S n) -> ~ kernel_full m.
Proof.
  intros (X & Hn & HX) Hfull. destruct (size_pos_elem_of X) as [a Ha]; [lia|]. destruct (HX a Ha) as [(k & Hk & ->) Hnt].
  apply Hnt. exists k. split; [by apply Hfull|done].
Qed.

Lemma free_frames_step m m' k n :
  free_frames m (S n) -> bit_cnt (used_map (frame_pool m')) = bit_cnt (used_map (frame_pool m)) ->
  (forall j, in_use (frame_pool m') j <-> in_use (frame_pool m) j \/ j = k) -> free_frames m' n.
Proof.
  intros (X & Hn & HX) Hs Hu. exists (X ∖ {[k]}). split; [by apply size_delete|]. intros j Hj. rewrite Hs, Hu.
  destruct (HX j); [set_solver|]. split; [done|]. intros [|]; [done|set_solver].
Qed.

Lemma free_kernel_step m m' n :
  free_kernel m (S n) -> base (kernel_pool m') = base (kernel_pool m) ->
  bit_cnt (used_map (kernel_pool m')) = bit_cnt (used_map (kernel_pool m)) -> grows m m' -> free_kernel m' n.
Proof.
  intros (X & Hn & HX) Hb Hs [a Ha]. exists (X ∖ {[a]}). split; [by apply size_delete|]. intros b Hb'. unfold kernel_page. rewrite Hb, Hs.
  destruct (HX b) as [H1 H2]; [set_solver|]. split; [done|]. intros [|]%Ha; [done|set_solver].
Qed.

(** ** One page of a segment *)

Section Load.
Context (D : gset Z).

(** What loading pages for the running process leaves alone. *)
Record lframe (m m' : vm) : Prop := {
  lf_cur : cur_pagedir m' = cur_pagedir m;
  lf_tid : cur_tid m' = cur_tid m
}.

Lemma uframe_pool m m' : uframe D m m' -> frame_pool m' = frame_pool m /\ kernel_pool m' = kernel_pool m.
Proof. intros H. by rewrite (uf_same _ _ _ H). Qed.

(** A page is taken, filled from [bs] and padded with zeros. *)
Lemma load_page m upage (w : bool) bs n :
  vm_inv D m -> cur_pagedir m ∈ D -> user_page upage -> translate m (cur_pagedir m) upage = None ->
  free_frames m (S n) -> free_kernel m (S n) -> Z.of_nat (length bs) <= 4096 -> Forall is_u8 bs ->
  exists kp m1 m2 m3, palloc_page PAL_USER upage w m = Ok (kp, m1) /\ kp <> 0 /\ store_bytes kp bs m1 = Ok (tt, m2) /\
    store_bytes (kp + Z.of_nat (length bs)) (replicate (Z.to_nat (4096 - Z.of_nat (length bs))) 0) m2 = Ok (tt, m3) /\ vm_inv D m2 /\ uframe D m2 m3 /\
    vm_inv D m3 /\ lframe m m3 /\ free_frames m3 n /\ free_kernel m3 n /\
    (forall pd va, pd ∈ D -> 0 <= va < PHYS_BASE ->
      translate m3 pd va = if bool_decide (pd = cur_pagedir m /\ va / 4096 = upage / 4096) then Some (kp, w) else translate m pd va) /\
    (forall pd va, pd ∈ D -> 0 <= va < PHYS_BASE ->
      ubyte m3 pd va = if bool_decide (pd = cur_pagedir m /\ va / 4096 = upage / 4096)
        then Some (default 0 (bs !! Z.to_nat (va mod 4096))) else ubyte m pd va).
Proof.
  intros HI Hpd [Hva Hal] Hn Hff Hfk Hl Hu8. destruct (free_frames_one m n Hff) as (k0 & Hk0 & Hf0).
  destruct (palloc_page_cases D m PAL_USER upage w HI Hpd Hva Hal eq_refl)
    as [[Hall _]|(k & m1 & Hk & Hnu & HI1 & HP & Huse & Hpage & _ & [(_ & _ & [[? ?]|])|(E & _ & _ & Htr)])].
  { by destruct Hf0; apply Hall. } { congruence. } { by destruct (free_kernel_one m n Hfk). }
  change (has PAL_USER PAL_ZERO) with false in E. cbn [andb] in E.
  assert (Hk1 : 0 <= k < bit_cnt (used_map (frame_pool m1))) by (by rewrite (pf_size _ _ _ HP)).
  destruct (frame_kpage D m k HI Hk) as [Hok _].
  destruct (store_frame_Ok D bs m1 k 0 HI1 Hk1) as (m2 & E2 & HI2 & Hf2 & Hb2); [lia|lia|done|].
  assert (Hp2 : frame_page m2 k = frame_page m k) by (unfold frame_page; rewrite (proj1 (uframe_pool _ _ Hf2)), (pf_base _ _ _ HP); done).
  assert (Hk2 : 0 <= k < bit_cnt (used_map (frame_pool m2))) by (by rewrite (proj1 (uframe_pool _ _ Hf2))).
  set (z := replicate (Z.to_nat (4096 - Z.of_nat (length bs))) 0).
  assert (Hz : Z.of_nat (length z) = 4096 - Z.of_nat (length bs)) by (unfold z; rewrite length_replicate; lia).
  destruct (store_frame_Ok D z m2 k (Z.of_nat (length bs)) HI2 Hk2) as (m3 & E3 & HI3 & Hf3 & Hb3); [lia|lia|by apply Forall_replicate|].
  rewrite Hp2 in *. rewrite Hpage, Z.add_0_r in *. pose proof (uframe_trans D _ _ _ Hf2 Hf3) as Hf13.
  assert (Htr3 : forall pd va, pd ∈ D -> 0 <= va < PHYS_BASE ->
      translate m3 pd va = if bool_decide (pd = cur_pagedir m /\ va / 4096 = upage / 4096) then Some (frame_page m k, w) else translate m pd va).
  { intros pd va Hpd' Hva'. rewrite (uf_trans _ _ _ Hf13) by done. by apply Htr. }
  exists (frame_page m k), m1, m2, m3. destruct (uframe_pool _ _ Hf13) as [Hfp Hkp].
  split; [done|]. split; [destruct Hok; unfold PHYS_BASE in *; lia|]. split; [done|]. split; [done|]. split; [done|]. split; [done|]. split; [done|].
  split; [split; rewrite (uf_same _ _ _ Hf13); apply HP|].
  split; [eapply (free_frames_step m m3 k); [done|rewrite Hfp; apply HP|rewrite Hfp; done]|].
  split. { eapply (free_kernel_step m m3); [done|rewrite Hkp; apply HP|rewrite Hkp; apply HP|].
    destruct (pf_grows _ _ _ HP) as [a Ha]. exists a. intros b. unfold taken. rewrite Hkp. apply Ha. }
  split; [done|]. intros pd va Hpd' Hva'. unfold ubyte. rewrite Htr3 by done.
  assert (Hr : 0 <= va mod 4096 < 4096) by (apply Z.mod_pos_bound; lia). case_bool_decide as Hc.
  - rewrite Hb3, Hb2 by done. repeat case_bool_decide; try lia.
    + unfold z. rewrite lookup_replicate_2 by lia. rewrite lookup_ge_None_2 by lia. done.
    + rewrite Z.sub_0_r. destruct (lookup_lt_is_Some_2 bs (Z.to_nat (va mod 4096))) as [x Hx]; [lia|]. by rewrite Hx.
  - destruct (translate m pd va) as [[q w']|] eqn:Et; [|done]. destruct (vi_mapped D m HI pd va q w' Hpd' Hva' Et) as (j & Hj & ->).
    assert (Hne : j <> k) by (intros ->; done). assert (Hneq : frame_page m j <> frame_page m k) by (unfold frame_page; change PGSIZE with 4096; lia).
    rewrite Hb3, Hb2 by done. rewrite !bool_decide_false by naive_solver. unfold pbyte, word. rewrite (pf_pages _ _ _ HP); [done| |done]. by apply in_use_range.
Qed.

(** ** The file *)

(** File [fp] is at position [pos] of an inode with contents [c]. *)
Definition reading (s : fs) (fp : Z) (c : list Z) (pos : Z) : Prop :=
  exists ip dw i, files s !! fp = Some (MkFile ip pos dw) /\ inodes s !! ip = Some i /\ inode_ok s i /\ contents s i = c /\ mallocs_ok s.

Lemma file_read_Ok s fp c pos n :
  reading s fp c pos -> 0 <= pos < 2 ^ 31 -> 0 <= n ->
  exists s', let bs := take (Z.to_nat n) (drop (Z.to_nat pos) c) in
    file_read fp n s = Ok (bs, s') /\ reading s' fp c (pos + Z.of_nat (length bs)).
Proof.
  intros (ip & dw & i & Hf & Hi & Hok & Hc & Hm) Hpos Hn. pose proof (length_contents s i Hok) as Hl. rewrite Hc in Hl.
  assert (Hmax : length_ (data i) < 2 ^ 31) by (destruct Hok as (_ & _ & [_ ?] & _); lia).
  destruct (inode_read_at_spec s ip i n pos Hi Hok) as (k & mm & E & Hk & Hmm); [lia|unfold is_s32; lia|].
  destruct (Hmm Hm) as [-> Hmo]. rewrite Hc in E. cbn zeta. set (bs := take (Z.to_nat n) (drop (Z.to_nat pos) c)) in *.
  assert (Ha : take (avail i n pos) (drop (Z.to_nat pos) c) = bs).
  { unfold bs, avail. destruct (decide (n <= length_ (data i) - pos)).
    - by rewrite Z.min_l by lia.
    - rewrite !take_ge; [done|rewrite length_drop; lia..]. }
  rewrite Ha in E. assert (Hbs : pos + Z.of_nat (length bs) < 2 ^ 31) by (unfold bs; rewrite length_take, length_drop; lia).
  eexists. split.
  - unfold file_read. erewrite stbind_step by (by apply get_file_Ok). erewrite stbind_step by exact E.
    unfold set_file. erewrite stbind_step by done. done.
  - exists ip, dw, i. cbn. rewrite lookup_insert_eq, s32_small by (unfold is_s32; lia). split; [done|]. split; [done|].
    split; [done|]. split; [done|]. done.
Qed.

Lemma file_seek_Ok s fp c pos pos' :
  fp <> 0 -> reading s fp c pos -> 0 <= pos' -> exists s', file_seek fp pos' s = Ok (tt, s') /\ reading s' fp c pos'.
Proof.
  intros Hfp (ip & dw & i & Hf & Hi & Hok & Hc & Hm) Hpos. eexists. split.
  - unfold file_seek. rewrite (proj2 (Z.eqb_neq fp 0)), (proj2 (Z.leb_le 0 pos')) by done. do 2 (erewrite stbind_step by done).
    erewrite stbind_step by (by apply get_file_Ok). done.
  - exists ip, dw, i. cbn. by rewrite lookup_insert_eq.
Qed.

Lemma on_vm_Ok {A} (c : stM vm A) s x m : c (s_vm s) = Ok (x, m) -> on_vm c s = Ok (x, with_vm s m).
Proof. intros H. unfold on_vm. by rewrite H. Qed.

Lemma on_fs_Ok {A} (c : stM fs A) s x f : c (s_fs s) = Ok (x, f) -> on_fs c s = Ok (x, with_fs s f).
Proof. intros H. unfold on_fs. by rewrite H. Qed.

(** ** The loop of load_segment *)

(** The byte at offset [i] of a segment: [r] bytes of [c] from [ofs] on, then
    zeros. *)
Definition seg_byte (c : list Z) (ofs r i : Z) : Z := if i <? r then default 0 (c !! Z.to_nat (ofs + i)) else 0.

Lemma seg_page c ofs r i :
  0 <= ofs -> 0 <= i < 4096 ->
  default 0 (take (Z.to_nat (Z.min r 4096)) (drop (Z.to_nat ofs) c) !! Z.to_nat i) = seg_byte c ofs r i.
Proof.
  intros Ho Hi. unfold seg_byte. rewrite lookup_take. case_decide as Hc.
  - rewrite (proj2 (Z.ltb_lt _ _)) by lia. rewrite lookup_drop. do 2 f_equal. lia.
  - by rewrite (proj2 (Z.ltb_ge _ _)) by lia.
Qed.

Lemma load_segment_loop_Ok e n : forall fuel s fp c ofs upage r z (w : bool),
  vm_inv D (s_vm s) -> cur_pagedir (s_vm s) ∈ D -> reading (s_fs s) fp c ofs -> Forall is_u8 c ->
  0 <= ofs -> Z.of_nat (length c) < 2 ^ 31 -> 0 <= r -> 0 <= z -> r + z = 4096 * Z.of_nat n -> ofs + r <= Z.of_nat (length c) ->
  0 <= upage -> upage mod 4096 = 0 -> upage + (r + z) <= PHYS_BASE -> (n < fuel)%nat ->
  (forall j, 0 <= j < Z.of_nat n -> translate (s_vm s) (cur_pagedir (s_vm s)) (upage + 4096 * j) = None) ->
  free_frames (s_vm s) (n + e) -> free_kernel (s_vm s) (n + e) ->
  exists s', load_segment_loop fuel fp upage r z w s = Ok (true, s') /\ vm_inv D (s_vm s') /\ lframe (s_vm s) (s_vm s') /\
    reading (s_fs s') fp c (ofs + r) /\ free_frames (s_vm s') e /\ free_kernel (s_vm s') e /\
    (forall pd va, pd ∈ D -> 0 <= va < PHYS_BASE ->
      (if bool_decide (pd = cur_pagedir (s_vm s) /\ upage <= va < upage + (r + z))
       then (exists p, translate (s_vm s') pd va = Some (p, w)) /\ ubyte (s_vm s') pd va = Some (seg_byte c ofs r (va - upage))
       else translate (s_vm s') pd va = translate (s_vm s) pd va /\ ubyte (s_vm s') pd va = ubyte (s_vm s) pd va)).
Proof.
  induction n as [|n IH]; intros fuel s fp c ofs upage r z w HI Hpd Hrd Hu8 Ho Hlc Hr Hz Htot Hlen Hup Hal Hend Hfuel Hmap Hff Hfk;
    destruct fuel as [|fuel]; try lia; cbn [load_segment_loop].
  - assert (r = 0) as -> by lia. assert (z = 0) as -> by lia. exists s. split; [done|]. split; [done|]. split; [done|].
    split; [by rewrite Z.add_0_r|]. split; [done|]. split; [done|]. intros pd va _ _. by rewrite bool_decide_false by lia.
  - assert ((0 <? r) || (0 <? z) = true) as ->.
    { apply orb_true_iff. rewrite !Z.ltb_lt. lia. }
    set (pr := Z.min r 4096). assert (Epr : (if r <? PGSIZE then r else PGSIZE) = pr).
    { change PGSIZE with 4096. unfold pr. destruct (Z.ltb_spec r 4096); lia. }
    rewrite !Epr. cbn zeta. change PGSIZE with 4096 at 1.
    destruct (file_read_Ok (s_fs s) fp c ofs pr Hrd ltac:(lia) ltac:(lia)) as (f1 & Ef & Hrd1). cbn zeta in *.
    set (bs := take (Z.to_nat pr) (drop (Z.to_nat ofs) c)) in *.
    assert (Hbs : Z.of_nat (length bs) = pr) by (unfold bs; rewrite length_take, length_drop; lia). rewrite Hbs in Hrd1.
    assert (Hu : user_page upage) by (split; [lia|done]).
    destruct (load_page (s_vm s) upage w bs (n + e) HI Hpd Hu) as (kp & m1 & m2 & m3 & E1 & Hkp & E2 & E3 & _ & _ & HI3 & HL & Hff3 & Hfk3 & Htr & Hub);
      [specialize (Hmap 0 ltac:(lia)); by rewrite Z.add_0_r in Hmap|done|done|lia|by apply Forall_take, Forall_drop|].
    rewrite Hbs in E3.
    erewrite stbind_step by (by apply on_vm_Ok). rewrite (proj2 (Z.eqb_neq kp 0)) by done.
    erewrite stbind_step by (by apply on_fs_Ok). erewrite stbind_step by (by apply on_vm_Ok).
    rewrite Hbs, Z.eqb_refl. cbn [negb]. change PGSIZE with 4096. erewrite stbind_step by (by apply on_vm_Ok).
    set (s3 := with_vm _ m3).
    rewrite (u32_small (r - pr)), (u32_small (z - (4096 - pr))) by (unfold is_u32, PHYS_BASE in *; lia).
    rewrite (u32_small (upage + 4096)) by (unfold is_u32, PHYS_BASE in *; lia).
    destruct HL as [Hcur Htid].
    destruct (IH fuel s3 fp c (ofs + pr) (upage + 4096) (r - pr) (z - (4096 - pr)) w) as (s' & E' & HI' & HL' & Hrd' & Hff' & Hfk' & Hfin); try done; try lia.
    { cbn. by rewrite Hcur. } { Z.to_euclidean_division_equations; lia. }
    { intros j Hj. cbn. rewrite Hcur, Htr by (done || (unfold PHYS_BASE in *; lia)). rewrite bool_decide_false.
      - replace (upage + 4096 + 4096 * j) with (upage + 4096 * (j + 1)) by lia. apply Hmap. lia.
      - intros [_ Hq]. Z.to_euclidean_division_equations. lia. }
    exists s'. split; [done|]. split; [done|]. split; [destruct HL'; split; cbn in *; congruence|].
    split; [by replace (ofs + r) with (ofs + pr + (r - pr)) by lia|]. split; [done|]. split; [done|]. intros pd va Hpd' Hva. specialize (Hfin pd va Hpd' Hva). cbn in Hfin.
    rewrite Hcur in Hfin. rewrite (Htr pd va Hpd' Hva), (Hub pd va Hpd' Hva) in Hfin.
    assert (Hpg : va / 4096 = upage / 4096 <-> upage <= va < upage + 4096) by (Z.to_euclidean_division_equations; lia).
    destruct (decide (pd = cur_pagedir (s_vm s))) as [->|Hne]; [|rewrite !bool_decide_false in * by naive_solver; done].
    destruct (decide (upage <= va < upage + 4096)) as [Hin|Hout].
    + rewrite (bool_decide_false (_ /\ upage + 4096 <= va < _)) in Hfin by lia.
      rewrite (bool_decide_true (_ /\ va / 4096 = upage / 4096)) in Hfin by naive_solver. rewrite bool_decide_true by lia.
      destruct Hfin as [F1 F2]. split; [by eexists|]. rewrite F2. f_equal. rewrite <- seg_page by lia. unfold bs, pr. do 3 f_equal.
      Z.to_euclidean_division_equations. lia.
    + rewrite (bool_decide_false (_ /\ va / 4096 = upage / 4096)) in Hfin by naive_solver.
      case_bool_decide as Hc1; [rewrite bool_decide_true by lia|rewrite bool_decide_false by lia; done].
      destruct Hfin as [F1 F2]. split; [done|]. rewrite F2. f_equal. unfold seg_byte.
      destruct (Z.ltb_spec (va - (upage + 4096)) (r - pr)), (Z.ltb_spec (va - upage) r); try lia; [do 2 f_equal; lia].
Qed.

(** ** A program header *)

Definition phdr_wf (p : Elf32_Phdr) : Prop :=
  is_u32 (p_offset p) /\ is_u32 (p_vaddr p) /\ is_u32 (p_filesz p) /\ is_u32 (p_memsz p).

Lemma validate_iff p len :
  phdr_wf p -> 0 <= len < 2 ^ 31 ->
  validate_segment p len = true <->
  p_offset p mod 4096 = p_vaddr p mod 4096 /\ p_offset p <= len /\ p_filesz p <= p_memsz p /\ 0 < p_memsz p /\
  4096 <= p_vaddr p /\ p_vaddr p + p_memsz p < PHYS_BASE.
Proof.
  intros (H1 & H2 & H3 & H4) Hlen. unfold is_u32 in *. unfold validate_segment, is_user_vaddr.
  change (Z.land ?x PGMASK) with (pg_ofs x). rewrite !pg_ofs_eq, (u32_small len) by (unfold is_u32; lia). change PGSIZE with 4096.
  set (o := p_offset p) in *. set (v := p_vaddr p) in *. set (fz := p_filesz p) in *. set (mz := p_memsz p) in *.
  assert (Hw : u32 (v + mz) = v + mz \/ u32 (v + mz) = v + mz - 2 ^ 32).
  { unfold u32. destruct (Z.lt_ge_cases (v + mz) (2 ^ 32)); [left; apply Z.mod_small; lia|right].
    rewrite <- (Z.mod_add _ (-1)) by lia. apply Z.mod_small. lia. }
  assert (Hs : v < PHYS_BASE -> u32 (v + mz) = v + mz - 2 ^ 32 -> u32 (v + mz) < v) by (unfold PHYS_BASE; lia).
  assert (Hr : 0 <= u32 (v + mz) < 2 ^ 32) by apply u32_range.
  destruct (Z.eqb_spec (o mod 4096) (v mod 4096)); cbn [negb]; [|split; [done|lia]].
  repeat match goal with
  | |- context [?a <? ?b] => destruct (Z.ltb_spec a b); cbn [negb]
  | |- context [?a =? ?b] => destruct (Z.eqb_spec a b); cbn [negb]
  end; try (split; [done|]); unfold PHYS_BASE in *; intros; try lia; try done; split_and!; lia.
Qed.

(** The pages of a segment: the first page and their number. *)
Definition seg_start (p : Elf32_Phdr) : Z := p_vaddr p - p_vaddr p mod 4096.
Definition seg_pages (p : Elf32_Phdr) : Z := (p_vaddr p mod 4096 + p_memsz p + 4095) / 4096.

Lemma file_length_Ok s fp c pos :
  fp <> 0 -> reading s fp c pos -> file_length fp s = Ok (Z.of_nat (length c), s) /\ Z.of_nat (length c) < 2 ^ 31.
Proof.
  intros Hfp (ip & dw & i & Hf & Hi & Hok & Hc & Hm). pose proof (length_contents s i Hok) as Hl. rewrite Hc in Hl.
  destruct Hok as (_ & _ & [? ?] & ? & _). split; [|lia]. unfold file_length. rewrite (proj2 (Z.eqb_neq fp 0)) by done.
  erewrite stbind_step by done. erewrite stbind_step by (by apply get_file_Ok). erewrite stbind_step by (by apply get_inode_Ok).
  unfold mret, stM_ret, inode_length. do 2 f_equal. lia.
Qed.

Lemma load_phdr_spec e s fp c pos p :
  vm_inv D (s_vm s) -> cur_pagedir (s_vm s) ∈ D -> fp <> 0 -> reading (s_fs s) fp c pos -> Forall is_u8 c -> phdr_wf p ->
  p_type p = PT_LOAD -> validate_segment p (Z.of_nat (length c)) = true -> p_offset p + p_filesz p <= Z.of_nat (length c) ->
  (forall j, 0 <= j < seg_pages p -> translate (s_vm s) (cur_pagedir (s_vm s)) (seg_start p + 4096 * j) = None) ->
  free_frames (s_vm s) (Z.to_nat (seg_pages p) + e) -> free_kernel (s_vm s) (Z.to_nat (seg_pages p) + e) ->
  exists s', load_phdr fp p s = Ok (true, s') /\ vm_inv D (s_vm s') /\ lframe (s_vm s) (s_vm s') /\
    (exists pos', reading (s_fs s') fp c pos') /\ free_frames (s_vm s') e /\ free_kernel (s_vm s') e /\
    (forall pd va, pd ∈ D -> 0 <= va < PHYS_BASE ->
      if bool_decide (pd = cur_pagedir (s_vm s) /\ seg_start p <= va < seg_start p + 4096 * seg_pages p)
      then (exists q, translate (s_vm s') pd va = Some (q, has (p_flags p) PF_W)) /\
        (p_vaddr p <= va < p_vaddr p + p_memsz p ->
         ubyte (s_vm s') pd va = Some (if va <? p_vaddr p + p_filesz p then default 0 (c !! Z.to_nat (p_offset p + (va - p_vaddr p))) else 0))
      else translate (s_vm s') pd va = translate (s_vm s) pd va /\ ubyte (s_vm s') pd va = ubyte (s_vm s) pd va).
Proof.
  intros HI Hpd Hfp Hrd Hu8 Hwf Hty Hval Hfile Hmap Hff Hfk. destruct (file_length_Ok _ fp c pos Hfp Hrd) as [El Hl].
  pose proof (proj1 (validate_iff p (Z.of_nat (length c)) Hwf ltac:(lia)) Hval) as (V1 & V2 & V3 & V4 & V5 & V6).
  destruct Hwf as (U1 & U2 & U3 & U4). unfold is_u32, PHYS_BASE in *.
  assert (Hpo : 0 <= p_vaddr p mod 4096 < 4096) by (apply Z.mod_pos_bound; lia).
  assert (Hsp : 4096 * seg_pages p = (p_vaddr p mod 4096 + p_memsz p + 4095) / 4096 * 4096) by (unfold seg_pages; lia).
  assert (Hsb : p_vaddr p mod 4096 + p_memsz p <= 4096 * seg_pages p < p_vaddr p mod 4096 + p_memsz p + 4096)
    by (unfold seg_pages; Z.to_euclidean_division_equations; lia).
  assert (Hal : seg_start p mod 4096 = 0) by (unfold seg_start; Z.to_euclidean_division_equations; lia).
  unfold load_phdr. rewrite Hty. change (PT_LOAD =? PT_LOAD) with true. change ((PT_LOAD =? PT_DYNAMIC) || (PT_LOAD =? PT_INTERP) || (PT_LOAD =? PT_SHLIB)) with false. cbn iota.
  erewrite stbind_step by (by apply on_fs_Ok). rewrite Hval. change (Z.land (p_vaddr p) PGMASK) with (pg_ofs (p_vaddr p)).
  rewrite pg_ofs_eq, !pg_round_down_eq by (unfold is_u32; lia). fold (seg_start p).
  set (r := if 0 <? p_filesz p then p_vaddr p mod 4096 + p_filesz p else 0).
  assert (Hend : 4096 * seg_pages p <= 2 ^ 32 - 4096 - 4096).
  { unfold seg_start in *. Z.to_euclidean_division_equations. lia. }
  assert (HRU : ROUND_UP (u32 (p_vaddr p mod 4096 + p_memsz p)) PGSIZE = 4096 * seg_pages p).
  { unfold ROUND_UP. change PGSIZE with 4096. rewrite u32_small by (unfold is_u32; rewrite u32_small by (unfold is_u32; lia); lia).
    rewrite u32_small by (unfold is_u32; lia). rewrite Hsp. f_equal. f_equal. lia. }
  assert (Hr : 0 <= r <= 4096 * seg_pages p) by (unfold r; destruct (Z.ltb_spec 0 (p_filesz p)); lia).
  assert (Ers : (if 0 <? p_filesz p then (u32 (p_vaddr p mod 4096 + p_filesz p), u32 (ROUND_UP (u32 (p_vaddr p mod 4096 + p_memsz p)) PGSIZE - u32 (p_vaddr p mod 4096 + p_filesz p)))
                 else (0, ROUND_UP (u32 (p_vaddr p mod 4096 + p_memsz p)) PGSIZE)) = (r, 4096 * seg_pages p - r)).
  { rewrite HRU. unfold r. destruct (Z.ltb_spec 0 (p_filesz p)); [|by rewrite Z.sub_0_r].
    rewrite (u32_small (_ + p_filesz p)) by (unfold is_u32; lia). by rewrite u32_small by (unfold is_u32; lia). }
  rewrite Ers. set (ofs := p_offset p - p_offset p mod 4096).
  assert (Hofs : 0 <= ofs /\ ofs mod 4096 = 0) by (unfold ofs; Z.to_euclidean_division_equations; lia).
  unfold load_segment. rewrite (s32_small ofs) by (unfold is_s32; lia).
  rewrite (u32_small (r + _)) by (unfold is_u32; lia). change PGSIZE with 4096.
  replace (r + (4096 * seg_pages p - r)) with (seg_pages p * 4096) by lia. rewrite Z.mod_mul, pg_ofs_eq, Hal by lia.
  rewrite Z.rem_mod_nonneg, (proj2 Hofs) by lia. do 3 (erewrite stbind_step by done).
  destruct (file_seek_Ok (s_fs s) fp c pos ofs Hfp Hrd (proj1 Hofs)) as (f1 & Es & Hrd1). erewrite stbind_step by (by apply on_fs_Ok).
  destruct (load_segment_loop_Ok e (Z.to_nat (seg_pages p)) (S (Z.to_nat (seg_pages p * 4096))) (with_fs s f1) fp c ofs (seg_start p) r
    (4096 * seg_pages p - r) (has (p_flags p) PF_W)) as (s' & E & HI' & HL & Hrd' & Hff' & Hfk' & Hfin); try done; try lia.
  { unfold ofs, r. destruct (0 <? p_filesz p); lia. } { unfold seg_start; lia. }
  { unfold seg_start in *. unfold PHYS_BASE. Z.to_euclidean_division_equations. lia. }
  { intros j Hj. apply Hmap. lia. }
  exists s'. split; [done|]. split; [done|]. split; [done|]. split; [by eexists|]. split; [done|]. split; [done|]. intros pd va Hpd' Hva. specialize (Hfin pd va Hpd' Hva). cbn in Hfin.
  replace (r + (4096 * seg_pages p - r)) with (4096 * seg_pages p) in Hfin by lia. case_bool_decide as Hc; [|done].
  destruct Hfin as [F1 F2]. split; [done|]. intros Hin. rewrite F2. f_equal. unfold seg_byte, r, ofs, seg_start.
  destruct (Z.ltb_spec 0 (p_filesz p)), (Z.ltb_spec va (p_vaddr p + p_filesz p)); repeat match goal with |- context [?a <? ?b] => destruct (Z.ltb_spec a b) end; try lia; try done.
  do 2 f_equal. lia.
Qed.

(** ** Freeing a user page *)

(** palloc_free_upage hands the address of the page table entry to
    palloc_free_page, which wants the address of a page. *)
Lemma free_upage_asserts m upage q w :
  vm_inv D m -> cur_pagedir m ∈ D -> 0 <= upage < PHYS_BASE -> translate m (cur_pagedir m) upage = Some (q, w) -> pt_no upage <> 0 ->
  palloc_free_upage upage m = Err EAssert.
Proof.
  intros HI Hcur Hva Ht Hpt. pose proof (vi_dir D m HI) as HD. destruct (user_index upage Hva) as [Hi Hj].
  destruct (di_pde D m HD _ (pd_no upage) Hcur Hi) as [H0|(pt & Htab & Htk & _)].
  { unfold translate in Ht. by rewrite pte_of_None in Ht. }
  destruct (taken_ok m pt (di_pool D m HD) Htk) as [[Hpt1 Hpt2] _]. unfold palloc_free_upage, palloc_free_umultiple.
  change (Z.to_nat 1) with 1%nat. cbn [palloc_free_umultiple_loop]. erewrite stbind_step by done. rewrite Z.mul_0_l, Z.add_0_r.
  erewrite stbind_step by (by apply (lookup_page_table D m _ upage pt)). apply stbind_err. unfold palloc_free_page, old_palloc_free_multiple.
  apply stbind_err. rewrite pg_ofs_eq. unfold assertM, lift. rewrite (proj2 (Z.eqb_neq _ 0)); [done|]. Z.to_euclidean_division_equations. lia.
Qed.

Lemma load_segment_short s fp c ofs upage r z (w : bool) fuel :
  vm_inv D (s_vm s) -> cur_pagedir (s_vm s) ∈ D -> reading (s_fs s) fp c ofs -> Forall is_u8 c ->
  0 <= ofs < 2 ^ 31 -> 0 < r -> Z.of_nat (length c) < ofs + Z.min r 4096 ->
  user_page upage -> translate (s_vm s) (cur_pagedir (s_vm s)) upage = None -> pt_no upage <> 0 ->
  free_frames (s_vm s) 1 -> free_kernel (s_vm s) 1 ->
  load_segment_loop (S fuel) fp upage r z w s = Err EAssert.
Proof.
  intros HI Hpd Hrd Hu8 Ho Hr Hshort Hu Hn Hpt Hff Hfk. cbn [load_segment_loop]. rewrite (proj2 (Z.ltb_lt 0 r)) by done. cbn [orb].
  set (pr := Z.min r 4096) in *. assert (Epr : (if r <? PGSIZE then r else PGSIZE) = pr).
  { change PGSIZE with 4096. unfold pr. destruct (Z.ltb_spec r 4096); lia. }
  rewrite !Epr. cbn zeta.
  destruct (file_read_Ok (s_fs s) fp c ofs pr Hrd Ho ltac:(lia)) as (f1 & Ef & _). set (bs := take (Z.to_nat pr) (drop (Z.to_nat ofs) c)) in *.
  assert (Hbs : Z.of_nat (length bs) < pr) by (unfold bs; rewrite length_take, length_drop; lia).
  destruct (load_page (s_vm s) upage w bs 0 HI Hpd Hu Hn Hff Hfk) as (kp & m1 & m2 & m3 & E1 & Hkp & E2 & _ & HI2 & Hf & _ & [Hc _] & _ & _ & Htr & _);
    [lia|by apply Forall_take, Forall_drop|].
  erewrite stbind_step by (by apply on_vm_Ok). rewrite (proj2 (Z.eqb_neq kp 0)) by done.
  erewrite stbind_step by (by apply on_fs_Ok). erewrite stbind_step by (by apply on_vm_Ok).
  rewrite (proj2 (Z.eqb_neq _ pr)) by lia. cbn [negb]. apply stbind_err. unfold on_vm. cbn [s_vm with_vm with_fs].
  rewrite (uframe_cur D _ _ Hf) in Hc. erewrite free_upage_asserts; [done|done|by rewrite Hc|apply Hu| |done].
  rewrite <- (uf_trans _ _ _ Hf), Hc by (rewrite ?Hc; done || apply Hu). rewrite Htr by (done || apply Hu). by rewrite bool_decide_true.
Qed.

End Load.
