(* ===== verification/StackSpec.v ===== *)
(** The initial stack of a process: setup_stack (userprog/process.c) builds
    the arguments of main.  At the end, the properties of the loader with
    concrete instances. *)

From stdpp Require Import base list numbers gmap.
From Stdlib Require Import ZArith Lia.
From S2P Require Import Prelude Bitmap Inode Vm PageDir VmSpec VmBoot ByteMem Process LoadSpec.

Section Stack.
Context (D : gset Z).

(** Process [pd] sees the bytes [bs] from [va] on. *)
Definition mem_at (m : vm) (pd va : Z) (bs : list Z) : Prop :=
  forall i, 0 <= i < Z.of_nat (length bs) -> ubyte m pd (va + i) = bs !! Z.to_nat i.

Definition STACK : Z := PHYS_BASE - 4096.

(** The stack page is writable, holds [S] from [esp] up to its end and zeros
    below. *)
Record stack_inv (m : vm) (esp : Z) (S : list Z) : Prop := {
  si_inv : vm_inv D m;
  si_cur : cur_pagedir m ∈ D;
  si_top : esp + Z.of_nat (length S) = PHYS_BASE;
  si_low : STACK <= esp;
  si_mem : mem_at m (cur_pagedir m) esp S;
  si_zero : forall va, STACK <= va < esp -> ubyte m (cur_pagedir m) va = Some 0;
  si_map : exists p, forall va, STACK <= va < PHYS_BASE -> translate m (cur_pagedir m) va = Some (p, true)
}.

(** Nothing but the stack of the running process changes. *)
Record sframe (m m' : vm) : Prop := {
  sf_lframe : lframe m m';
  sf_trans : forall pd va, pd ∈ D -> 0 <= va < PHYS_BASE -> ~ (pd = cur_pagedir m /\ STACK <= va) -> translate m' pd va = translate m pd va;
  sf_mem : forall pd va, pd ∈ D -> 0 <= va < PHYS_BASE -> ~ (pd = cur_pagedir m /\ STACK <= va) -> ubyte m' pd va = ubyte m pd va
}.

Lemma sframe_refl m : sframe m m.
Proof. by split. Qed.

Lemma sframe_trans m1 m2 m3 : sframe m1 m2 -> sframe m2 m3 -> sframe m1 m3.
Proof.
  intros [[A1 A2] A3 A4] [[B1 B2] B3 B4]. rewrite A1 in *. split; [split; congruence|..].
  - intros pd va Hpd Hva Hn. by rewrite B3, A3.
  - intros pd va Hpd Hva Hn. by rewrite B4, A4.
Qed.

Lemma push_Ok m esp S bs :
  stack_inv m esp S -> STACK <= esp - Z.of_nat (length bs) -> Forall is_u8 bs ->
  exists m', store_bytes (esp - Z.of_nat (length bs)) bs m = Ok (tt, m') /\ stack_inv m' (esp - Z.of_nat (length bs)) (bs ++ S) /\ sframe m m'.
Proof.
  intros [HI Hcur Htop Hlow Hmem Hzero [p Hmap]] Hroom Hu. unfold STACK, PHYS_BASE in *.
  destruct (store_bytes_Ok D bs m (esp - Z.of_nat (length bs)) HI Hcur) as (m' & E & HI' & Hf & Hb); unfold PHYS_BASE; [lia|lia|done| |].
  { intros i Hi. exists p. apply Hmap. lia. }
  pose proof (uframe_cur D _ _ Hf) as Hc. exists m'. split; [done|]. split; [split; unfold STACK, PHYS_BASE|].
  - done.
  - by rewrite Hc.
  - rewrite length_app. lia.
  - lia.
  - intros i Hi. rewrite length_app in Hi. rewrite Hc, Hb by (done || unfold PHYS_BASE; lia). case_bool_decide as Hin.
    + rewrite lookup_app_l by lia. f_equal. lia.
    + rewrite lookup_app_r by lia. replace (Z.to_nat i - length bs)%nat with (Z.to_nat (i - Z.of_nat (length bs))) by lia.
      rewrite <- Hmem by lia. f_equal. lia.
  - intros va Hva. rewrite Hc, Hb by (done || unfold PHYS_BASE; lia). rewrite bool_decide_false by lia. apply Hzero. lia.
  - exists p. intros va Hva. rewrite Hc, (uf_trans _ _ _ Hf) by (done || unfold PHYS_BASE; lia). apply Hmap. lia.
  - split; [split; [done|by rewrite (uf_same _ _ _ Hf)]|..].
    + intros pd va Hpd Hva _. by apply Hf.
    + intros pd va Hpd Hva Hn. rewrite Hb by done. rewrite bool_decide_false; [done|]. intros [-> ?]. apply Hn. split; [done|]. unfold STACK, PHYS_BASE. lia.
Qed.

(** Moving the stack pointer down over zeros. *)
Lemma pad_Ok m esp S k :
  stack_inv m esp S -> STACK <= esp - Z.of_nat k -> stack_inv m (esp - Z.of_nat k) (replicate k 0 ++ S).
Proof.
  intros [HI Hcur Htop Hlow Hmem Hzero Hmap] Hroom. split; try done.
  - rewrite length_app, length_replicate. lia.
  - intros i Hi. rewrite length_app, length_replicate in Hi. destruct (decide (i < Z.of_nat k)).
    + rewrite lookup_app_l by (rewrite length_replicate; lia). rewrite lookup_replicate_2 by lia. apply Hzero. lia.
    + rewrite lookup_app_r; rewrite length_replicate; [|lia]. replace (Z.to_nat i - k)%nat with (Z.to_nat (i - Z.of_nat k)) by lia.
      rewrite <- Hmem by lia. f_equal. lia.
  - intros va Hva. apply Hzero. lia.
Qed.

(** The page is mapped, empty. *)
Lemma stack_page m :
  vm_inv D m -> cur_pagedir m ∈ D -> translate m (cur_pagedir m) STACK = None -> free_frames m 1 -> free_kernel m 1 ->
  exists k m', palloc_page (Z.lor PAL_USER PAL_ZERO) (PHYS_BASE - PGSIZE) true m = Ok (k, m') /\ k <> 0 /\ stack_inv m' PHYS_BASE [] /\ sframe m m'.
Proof.
  intros HI Hcur Hn Hff Hfk. destruct (free_frames_one m 0 Hff) as (k0 & Hk0 & Hf0).
  assert (Hst : PHYS_BASE - PGSIZE = STACK) by done. rewrite Hst.
  destruct (palloc_page_cases D m (Z.lor PAL_USER PAL_ZERO) STACK true HI Hcur ltac:(unfold STACK, PHYS_BASE; lia) eq_refl eq_refl)
    as [[Hall _]|(k & m1 & Hk & Hnu & HI1 & HP & Huse & Hpage & _ & [(_ & _ & [[? ?]|])|(E & _ & Hz & Htr)])].
  { by destruct Hf0; apply Hall. } { congruence. } { by destruct (free_kernel_one m 0 Hfk). }
  specialize (Hz eq_refl). change (has (Z.lor PAL_USER PAL_ZERO) PAL_ZERO && negb true) with false in E. cbn iota in E.
  destruct (frame_kpage D m k HI Hk) as [Hok _]. exists (frame_page m k), m1. split; [done|]. split; [destruct Hok; unfold PHYS_BASE in *; lia|].
  assert (Hmap : forall va, STACK <= va < PHYS_BASE -> translate m1 (cur_pagedir m1) va = Some (frame_page m k, true)).
  { intros va Hva. rewrite (pf_cur _ _ _ HP), Htr by (done || unfold STACK, PHYS_BASE in *; lia). rewrite bool_decide_true; [done|].
    split; [done|]. unfold STACK, PHYS_BASE in *. Z.to_euclidean_division_equations. lia. }
  split; [split|].
  - done.
  - by rewrite (pf_cur _ _ _ HP).
  - cbn. lia.
  - unfold STACK, PHYS_BASE. lia.
  - intros i Hi. cbn in Hi. lia.
  - intros va Hva. unfold ubyte. rewrite Hmap by done. unfold pbyte, word. rewrite Hz.
    change (?o ≫= ?f) with (option_bind _ _ f o). cbn [option_bind]. rewrite lookup_replicate_2; [cbn; unfold word_byte; by rewrite Z.shiftr_0_l|]. Z.to_euclidean_division_equations. lia.
  - eauto.
  - split; [split; apply HP|..]; intros pd va Hpd Hva Hne.
    + rewrite Htr by done. rewrite bool_decide_false; [done|]. intros [-> Hq]. apply Hne. split; [done|]. unfold STACK, PHYS_BASE in *. Z.to_euclidean_division_equations. lia.
    + unfold ubyte. rewrite Htr by done. rewrite bool_decide_false.
      * destruct (translate m pd va) as [[q w']|] eqn:Et; [|done]. destruct (vi_mapped D m HI pd va q w' Hpd Hva Et) as (j & Hj & ->).
        unfold pbyte, word. rewrite (pf_pages _ _ _ HP); [done|by apply in_use_range|]. by intros ->.
      * intros [-> Hq]. apply Hne. split; [done|]. unfold STACK, PHYS_BASE in *. Z.to_euclidean_division_equations. lia.
Qed.

(** ** The arguments *)

(** The strings, each with its terminator, and their addresses. *)
Definition strs (args : list (list Z)) : list Z := mjoin ((fun a => a ++ [0]) <$> args).
Fixpoint addrs (a : Z) (args : list (list Z)) : list Z :=
  match args with [] => [] | x :: args => a :: addrs (a + Z.of_nat (length x) + 1) args end.
Definition words (l : list Z) : list Z := mjoin (le_bytes <$> l).

Lemma strs_app l k : strs (l ++ k) = strs l ++ strs k.
Proof. unfold strs. by rewrite fmap_app, join_app. Qed.

Lemma strs_one x : strs [x] = x ++ [0].
Proof. unfold strs. cbn. by rewrite app_nil_r. Qed.

Lemma addrs_app a l x : addrs a (l ++ [x]) = addrs a l ++ [a + Z.of_nat (length (strs l))].
Proof.
  revert a. induction l as [|y l IH]; intros a; cbn; [by rewrite Z.add_0_r|]. rewrite IH. do 3 f_equal.
  change (mjoin ((λ a0 : list Z, a0 ++ [0]) <$> l)) with (strs l). rewrite !length_app. cbn. lia.
Qed.

Lemma words_app l k : words (l ++ k) = words l ++ words k.
Proof. unfold words. by rewrite fmap_app, join_app. Qed.

Lemma length_words l : length (words l) = (4 * length l)%nat.
Proof. induction l as [|x l IH]; [done|]. change (words (x :: l)) with (le_bytes x ++ words l). rewrite length_app, IH. cbn. lia. Qed.

Lemma le_bytes_u8 x : Forall is_u8 (le_bytes x).
Proof.
  unfold le_bytes. cbn [map]. repeat constructor; change 255 with (Z.ones 8); rewrite Z.land_ones by lia; apply Z.mod_pos_bound; lia.
Qed.

Lemma push_strings_Ok l : forall i s esp S ptrs,
  stack_inv (s_vm s) esp S -> STACK <= esp - Z.of_nat (length (strs (reverse l))) -> Z.of_nat (length l) <= i + 1 <= 50 ->
  Forall (Forall is_u8) l ->
  exists m', let esp' := esp - Z.of_nat (length (strs (reverse l))) in
    push_strings l i esp ptrs s = Ok ((esp', addrs esp' (reverse l) ++ ptrs), with_vm s m') /\
    stack_inv m' esp' (strs (reverse l) ++ S) /\ sframe (s_vm s) m'.
Proof.
  induction l as [|arg l IH]; intros i s esp S ptrs HS Hroom Hi Hu; cbn zeta.
  { exists (s_vm s). cbn. rewrite Z.sub_0_r. split; [by destruct s|]. split; [done|apply sframe_refl]. }
  inversion_clear Hu as [|?? Harg Hl]. rewrite reverse_cons, strs_app, strs_one in *. rewrite !length_app in *. cbn [length] in *.
  set (esp1 := esp - Z.of_nat (length (arg ++ [0]))). assert (He1 : esp - size_of_char_arg arg = esp1).
  { unfold esp1, size_of_char_arg. rewrite length_app. cbn. lia. }
  pose proof (si_low _ _ _ HS) as Hlow. pose proof (si_top _ _ _ HS) as Htop.
  assert (Hr1 : STACK <= esp1) by (unfold esp1; rewrite length_app; cbn; lia).
  destruct (push_Ok (s_vm s) esp S (arg ++ [0]) HS Hr1) as (m1 & E1 & HS1 & Hf1).
  { apply Forall_app. split; [done|]. by repeat constructor. }
  fold esp1 in E1, HS1. cbn [push_strings]. rewrite He1, u32_small by (unfold is_u32, STACK, PHYS_BASE in *; lia).
  erewrite stbind_step by (by apply on_vm_Ok). rewrite (proj2 (Z.ltb_lt i 50)) by lia. erewrite stbind_step by done.
  destruct (IH (i - 1) (with_vm s m1) esp1 ((arg ++ [0]) ++ S) (esp1 :: ptrs) HS1) as (m2 & E2 & HS2 & Hf2); [|lia|done|].
  { unfold esp1. rewrite length_app. cbn. lia. }
  exists m2. replace (esp - Z.of_nat (length (strs (reverse l)) + (length arg + 1))) with (esp1 - Z.of_nat (length (strs (reverse l))))
    by (unfold esp1; rewrite length_app; cbn; lia).
  rewrite E2, addrs_app, <- !app_assoc. rewrite <- app_assoc in HS2. split; [|split; [done|by eapply sframe_trans]].
  replace (esp1 - Z.of_nat (length (strs (reverse l))) + Z.of_nat (length (strs (reverse l)))) with esp1 by lia. done.
Qed.

Lemma push_pointers_Ok l : forall s esp S,
  stack_inv (s_vm s) esp S -> (l = [] \/ STACK + 12 <= esp - 4 * (Z.of_nat (length l) - 1)) ->
  exists m', push_pointers l esp (STACK + 12) s = Ok ((true, esp - 4 * Z.of_nat (length l)), with_vm s m') /\
    stack_inv m' (esp - 4 * Z.of_nat (length l)) (words (reverse l) ++ S) /\ sframe (s_vm s) m'.
Proof.
  induction l as [|x l IH]; intros s esp S HS Hroom.
  { exists (s_vm s). cbn. rewrite Z.sub_0_r. split; [by destruct s|]. split; [done|apply sframe_refl]. }
  destruct Hroom as [|Hroom]; [done|]. cbn [length] in Hroom. cbn [push_pointers]. rewrite (proj2 (Z.leb_le _ _)) by lia.
  pose proof (si_top _ _ _ HS) as Htop.
  destruct (push_Ok (s_vm s) esp S (le_bytes x) HS) as (m1 & E1 & HS1 & Hf1); [cbn; lia|apply le_bytes_u8|].
  change (Z.of_nat (length (le_bytes x))) with 4 in *. rewrite u32_small by (unfold is_u32, STACK, PHYS_BASE in *; lia).
  erewrite stbind_step by (by apply on_vm_Ok).
  destruct (IH (with_vm s m1) (esp - 4) (le_bytes x ++ S) HS1) as (m2 & E2 & HS2 & Hf2); [destruct l; [by left|right; cbn [length] in *; lia]|].
  exists m2. rewrite reverse_cons, words_app. change (words [x]) with (le_bytes x ++ []). rewrite app_nil_r, <- app_assoc. cbn [length].
  replace (esp - 4 * Z.of_nat (Datatypes.S (length l))) with (esp - 4 - 4 * Z.of_nat (length l)) by lia.
  split; [done|]. split; [done|by eapply sframe_trans].
Qed.

Lemma mem_at_app m pd va l k : mem_at m pd va (l ++ k) -> mem_at m pd va l /\ mem_at m pd (va + Z.of_nat (length l)) k.
Proof.
  intros H. split; intros i Hi.
  - rewrite H by (rewrite length_app; lia). apply lookup_app_l. lia.
  - specialize (H (Z.of_nat (length l) + i)). rewrite Z.add_assoc in H. rewrite H by (rewrite length_app; lia).
    rewrite lookup_app_r by lia. f_equal. lia.
Qed.

(** Each address is that of its string. *)
Lemma mem_strs m pd args : forall a i arg, mem_at m pd a (strs args) -> args !! i = Some arg ->
  exists p, addrs a args !! i = Some p /\ mem_at m pd p (arg ++ [0]).
Proof.
  induction args as [|x args IH]; intros a i arg Hm Hi; [done|]. change (strs (x :: args)) with ((x ++ [0]) ++ strs args) in Hm.
  apply mem_at_app in Hm as [H1 H2]. destruct i as [|i]; [injection Hi as ->; by exists a|]. cbn [addrs lookup list_lookup].
  apply (IH _ i arg); [|done]. rewrite length_app in H2. cbn in H2. by replace (a + Z.of_nat (length x) + 1) with (a + Z.of_nat (length x + 1)) by lia.
Qed.

Lemma length_addrs a args : length (addrs a args) = length args.
Proof. revert a. induction args as [|x args IH]; intros a; cbn; [done|]. by rewrite IH. Qed.

(** Where the stack pointer ends: below the strings, aligned, a null pointer,
    the pointers, argv, argc and the return address. *)
Definition final_esp (argv : list (list Z)) : Z :=
  (PHYS_BASE - Z.of_nat (length (strs argv))) / 4 * 4 - 4 - 4 * Z.of_nat (length argv) - 12.

(** Everything up to the return address, which goes below argc. *)
Lemma setup_stack_args s argv :
  vm_inv D (s_vm s) -> cur_pagedir (s_vm s) ∈ D -> translate (s_vm s) (cur_pagedir (s_vm s)) STACK = None ->
  free_frames (s_vm s) 1 -> free_kernel (s_vm s) 1 ->
  Z.of_nat (length argv) <= 50 -> Forall (Forall is_u8) argv -> STACK <= final_esp argv + 4 ->
  exists m' ptrs pad,
    setup_stack argv s = (on_vm (store_bytes (final_esp argv) (replicate 4 0));; mret (true, final_esp argv)) (with_vm s m') /\
    stack_inv m' (final_esp argv + 4)
      (le_bytes (Z.of_nat (length argv)) ++ le_bytes (final_esp argv + 12) ++ words ptrs ++ le_bytes 0 ++ pad ++ strs argv) /\
    ptrs = addrs (PHYS_BASE - Z.of_nat (length (strs argv))) argv /\ sframe (s_vm s) m'.
Proof.
  intros HI Hcur Hn Hff Hfk Hargc Hu Hroom. unfold final_esp in *. unfold setup_stack.
  destruct (stack_page (s_vm s) HI Hcur Hn Hff Hfk) as (k & m1 & E1 & Hk & HS1 & Hf1). erewrite stbind_step by (by apply on_vm_Ok).
  rewrite (proj2 (Z.eqb_neq k 0)) by done. cbn [negb]. set (L := Z.of_nat (length (strs argv))) in *.
  set (e0 := PHYS_BASE - L) in *. set (a := e0 / 4 * 4) in *. set (n := Z.of_nat (length argv)) in *.
  assert (Ha : a <= e0 < a + 4) by (unfold a; Z.to_euclidean_division_equations; lia).
  destruct (push_strings_Ok (reverse argv) (n - 1) (with_vm s m1) PHYS_BASE [] [] HS1) as (m2 & E2 & HS2 & Hf2);
    rewrite ?reverse_involutive in *; try (rewrite length_reverse); fold L; fold e0; [lia|lia|by apply Forall_reverse|].
  fold L in E2, HS2. fold e0 in E2, HS2. erewrite stbind_step by exact E2. cbn beta iota. rewrite !app_nil_r in *.
  unfold word_align, ROUND_DOWN. fold a. set (ptrs := addrs e0 argv) in *.
  pose proof (pad_Ok m2 e0 (strs argv) (Z.to_nat (e0 - a)) HS2 ltac:(lia)) as HS3. replace (e0 - Z.of_nat (Z.to_nat (e0 - a))) with a in HS3 by lia.
  set (pad := replicate (Z.to_nat (e0 - a)) 0) in *. set (s2 := with_vm (with_vm s m1) m2).
  assert (Hlt : forall x, STACK <= x <= PHYS_BASE -> u32 x = x) by (intros x Hx; apply u32_small; unfold is_u32, STACK, PHYS_BASE in *; lia).
  assert (HL : 0 <= L) by lia. assert (Ha4 : a <= PHYS_BASE) by lia.
  rewrite (Hlt (a - 4)) by lia. destruct (push_Ok m2 a _ (replicate 4 0) HS3) as (m4 & E4 & HS4 & Hf4); [cbn; lia|by repeat constructor|].
  change (Z.of_nat (length (replicate 4 0))) with 4 in *. erewrite stbind_step by (by apply on_vm_Ok).
  change (PHYS_BASE - PGSIZE + 12) with (STACK + 12).
  destruct (push_pointers_Ok (reverse ptrs) (with_vm s2 m4) (a - 4) _ HS4) as (m5 & E5 & HS5 & Hf5).
  { rewrite length_reverse. unfold ptrs. rewrite length_addrs. fold n. destruct argv; [by left|right; lia]. }
  rewrite length_reverse, reverse_involutive in *. assert (Hlp : Z.of_nat (length ptrs) = n) by (unfold ptrs; by rewrite length_addrs).
  rewrite Hlp in *. erewrite stbind_step by exact E5. cbn beta iota zeta. cbn [negb]. erewrite stbind_step by done.
  set (E := a - 4 - 4 * n) in *. rewrite (Hlt (E - 4)) by lia.
  destruct (push_Ok m5 E _ (le_bytes E) HS5) as (m6 & E6 & HS6 & Hf6); [cbn; lia|apply le_bytes_u8|]. change (Z.of_nat (length (le_bytes E))) with 4 in *.
  erewrite stbind_step by (by apply on_vm_Ok). rewrite (Hlt (E - 4 - 4)) by lia.
  destruct (push_Ok m6 (E - 4) _ (le_bytes n) HS6) as (m7 & E7 & HS7 & Hf7); [cbn; lia|apply le_bytes_u8|]. change (Z.of_nat (length (le_bytes n))) with 4 in *.
  erewrite stbind_step by (by apply on_vm_Ok). rewrite (u32_small (E - 4 - 4 - 4)) by (unfold is_u32, STACK, PHYS_BASE in *; lia).
  exists m7, ptrs, pad. replace (E - 4 - 4 - 4) with (E - 12) by lia. replace (E - 12 + 12) with E by lia. replace (E - 12 + 4) with (E - 4 - 4) by lia.
  split; [done|]. split; [exact HS7|]. split; [done|]. repeat (eapply sframe_trans; [eassumption|]). apply sframe_refl.
Qed.

Lemma setup_stack_spec s argv :
  vm_inv D (s_vm s) -> cur_pagedir (s_vm s) ∈ D -> translate (s_vm s) (cur_pagedir (s_vm s)) STACK = None ->
  free_frames (s_vm s) 1 -> free_kernel (s_vm s) 1 ->
  Z.of_nat (length argv) <= 50 -> Forall (Forall is_u8) argv -> STACK <= final_esp argv ->
  exists m' esp ptrs pad, setup_stack argv s = Ok ((true, esp), with_vm s m') /\ esp = final_esp argv /\
    stack_inv m' esp (le_bytes 0 ++ le_bytes (Z.of_nat (length argv)) ++ le_bytes (esp + 12) ++ words ptrs ++ le_bytes 0 ++ pad ++ strs argv) /\
    length ptrs = length argv /\
    (forall i arg, argv !! i = Some arg -> exists p, ptrs !! i = Some p /\ mem_at m' (cur_pagedir m') p (arg ++ [0])) /\ sframe (s_vm s) m'.
Proof.
  intros HI Hcur Hn Hff Hfk Hargc Hu Hroom.
  destruct (setup_stack_args s argv HI Hcur Hn Hff Hfk Hargc Hu ltac:(lia)) as (m7 & ptrs & pad & E7 & HS7 & Hptrs & Hf7). set (E := final_esp argv) in *.
  destruct (push_Ok m7 (E + 4) _ (replicate 4 0) HS7) as (m8 & E8 & HS8 & Hf8); [cbn; lia|by repeat constructor|].
  change (Z.of_nat (length (replicate 4 0))) with 4 in *. rewrite Z.add_simpl_r in *.
  exists m8, E, ptrs, pad. rewrite E7. split; [by erewrite stbind_step by (by apply on_vm_Ok)|]. split; [done|]. split; [exact HS8|].
  split; [rewrite Hptrs; apply length_addrs|]. split; [|by eapply sframe_trans].
  intros i arg Hi. rewrite Hptrs. apply (mem_strs m8 _ argv _ i arg); [|done]. pose proof (si_mem _ _ _ HS8) as Hm. pose proof (si_top _ _ _ HS8) as Htop.
  do 6 (apply mem_at_app in Hm as [_ Hm]). rewrite !length_app in Htop.
  match type of Hm with mem_at _ _ ?x _ => replace x with (PHYS_BASE - Z.of_nat (length (strs argv))) in Hm; [done|] end. lia.
Qed.

(** The test that is meant to stop the stack from overflowing leaves room for
    two of the three words that follow. *)
Lemma setup_stack_boundary s argv :
  vm_inv D (s_vm s) -> cur_pagedir (s_vm s) ∈ D -> translate (s_vm s) (cur_pagedir (s_vm s)) STACK = None ->
  translate (s_vm s) (cur_pagedir (s_vm s)) (STACK - 4) = None ->
  free_frames (s_vm s) 1 -> free_kernel (s_vm s) 1 ->
  Z.of_nat (length argv) <= 50 -> Forall (Forall is_u8) argv -> final_esp argv = STACK - 4 -> setup_stack argv s = Err EFault.
Proof.
  intros HI Hcur Hn Hn' Hff Hfk Hargc Hu Hroom.
  destruct (setup_stack_args s argv HI Hcur Hn Hff Hfk Hargc Hu ltac:(lia)) as (m7 & ptrs & pad & E7 & HS7 & _ & Hf7).
  rewrite E7. apply stbind_err. unfold on_vm. rewrite Hroom. cbn [store_bytes replicate s_vm with_vm].
  erewrite stbind_err; [done|]. unfold store_byte. apply stbind_err.
  destruct Hf7 as [[Hc _] Htr _]. rewrite (mmu_Ok D) by (try apply HS7; unfold STACK, PHYS_BASE; lia).
  rewrite Hc, Htr; [by rewrite Hn'|done|unfold STACK, PHYS_BASE; lia|]. intros [_ ?]. unfold STACK in *. lia.
Qed.

End Stack.

(** ** Properties of the loader *)

(** validate_segment accepts exactly the segments that are congruent to
    their file offset modulo the page size, start within the file, are not
    empty and not smaller in memory than in the file, and lie between page 1
    and the kernel, with no wrap-around of the 32-bit address sums. *)
Theorem validate_segment_correct p len :
  phdr_wf p -> 0 <= len < 2 ^ 31 ->
  validate_segment p len = true <->
  p_offset p mod 4096 = p_vaddr p mod 4096 /\ p_offset p <= len /\ p_filesz p <= p_memsz p /\ 0 < p_memsz p /\
  4096 <= p_vaddr p /\ p_vaddr p + p_memsz p < PHYS_BASE.
Proof. apply validate_iff. Qed.

#[local] Opaque demo0 demo1 demo2 demo_full.

Definition demo_phdr : Elf32_Phdr := MkPhdr 1 0 0x8048000 0 600 5000 6 4096.

Lemma demo_phdr_wf : phdr_wf demo_phdr.
Proof. split; [|split; [|split]]; split; done. Qed.

Lemma validate_segment_correct_witness :
  validate_segment demo_phdr 600 = true /\ validate_segment (MkPhdr 1 0 0x8048000 0 600 0xfffff000 6 4096) 600 = false.
Proof.
  split.
  - apply (proj2 (validate_segment_correct demo_phdr 600 demo_phdr_wf ltac:(lia))). repeat split; vm_compute; congruence.
  - apply not_true_is_false. intros H.
    apply (proj1 (validate_segment_correct (MkPhdr 1 0 0x8048000 0 600 0xfffff000 6 4096) 600 ltac:(split; [|split; [|split]]; split; done) ltac:(lia))) in H.
    destruct H as (_ & _ & _ & _ & _ & H). cbn in H. unfold PHYS_BASE in H. lia.
Defined.

(** Loading a segment puts the file into memory: for a valid loadable header
    whose bytes are in the file, with its pages unmapped and enough frames and
    kernel pages, load's switch succeeds; afterwards the process sees, from
    p_vaddr on, p_filesz bytes of the file from p_offset on and then zeros up
    to p_memsz, with the permission of p_flags; no other byte or mapping of
    any process has changed, and the memory invariant holds. *)
Theorem load_phdr_correct D s fp c pos p :
  vm_inv D (s_vm s) -> cur_pagedir (s_vm s) ∈ D -> fp <> 0 -> reading (s_fs s) fp c pos -> Forall is_u8 c -> phdr_wf p ->
  p_type p = PT_LOAD -> validate_segment p (Z.of_nat (length c)) = true -> p_offset p + p_filesz p <= Z.of_nat (length c) ->
  (forall j, 0 <= j < seg_pages p -> translate (s_vm s) (cur_pagedir (s_vm s)) (seg_start p + 4096 * j) = None) ->
  free_frames (s_vm s) (Z.to_nat (seg_pages p)) -> free_kernel (s_vm s) (Z.to_nat (seg_pages p)) ->
  exists s', load_phdr fp p s = Ok (true, s') /\ vm_inv D (s_vm s') /\
    (forall va, p_vaddr p <= va < p_vaddr p + p_memsz p ->
      (exists q, translate (s_vm s') (cur_pagedir (s_vm s)) va = Some (q, has (p_flags p) PF_W)) /\
      ubyte (s_vm s') (cur_pagedir (s_vm s)) va =
        Some (if va <? p_vaddr p + p_filesz p then default 0 (c !! Z.to_nat (p_offset p + (va - p_vaddr p))) else 0)) /\
    (forall pd va, pd ∈ D -> 0 <= va < PHYS_BASE -> ~ (pd = cur_pagedir (s_vm s) /\ seg_start p <= va < seg_start p + 4096 * seg_pages p) ->
      translate (s_vm s') pd va = translate (s_vm s) pd va /\ ubyte (s_vm s') pd va = ubyte (s_vm s) pd va).
Proof.
  intros HI Hpd Hfp Hrd Hu8 Hwf Hty Hval Hfile Hmap Hff Hfk.
  destruct (load_phdr_spec D 0 s fp c pos p HI Hpd Hfp Hrd Hu8 Hwf Hty Hval Hfile Hmap) as (s' & E & HI' & _ & _ & _ & _ & Hfin); [by rewrite Nat.add_0_r..|].
  exists s'. split; [done|]. split; [done|]. destruct (file_length_Ok _ fp c pos Hfp Hrd) as [_ Hl].
  apply validate_iff in Hval as (V1 & V2 & V3 & V4 & V5 & V6); [|done|lia]. split.
  - intros va Hva. specialize (Hfin (cur_pagedir (s_vm s)) va Hpd). rewrite bool_decide_true in Hfin.
    + destruct Hfin as [F1 F2]; [lia|]. split; [done|]. by apply F2.
    + split; [done|]. unfold seg_start, seg_pages. Z.to_euclidean_division_equations. lia.
  - intros pd va Hpd' Hva Hne. specialize (Hfin pd va Hpd' Hva). by rewrite bool_decide_false in Hfin.
Qed.

(** A file of 600 bytes, open at its start. *)
Definition demo_fs : fs :=
  MkFs [replicate 512 0; replicate 512 0; replicate 512 7; replicate 512 9] {[ 1 := sample_inode ]} [1] {[ 2 := MkFile 1 0 false ]} 3
    (mk_bitmap 4 [15]) 0 [].
Definition demo_contents : list Z := contents demo_fs sample_inode.

Lemma demo_reading : reading demo_fs 2 demo_contents 0.
Proof.
  exists 1, false, sample_inode. split; [reflexivity|]. split; [reflexivity|]. split; [|split; [reflexivity|by constructor]].
  split; [split; [by repeat constructor|done]|]. cbn. unfold is_s32. lia.
Qed.

Lemma demo_u8 : Forall is_u8 demo_contents.
Proof.
  assert (H : forallb (fun x => (0 <=? x) && (x <? 256)) demo_contents = true) by (vm_compute; reflexivity).
  apply Forall_forall. intros x Hx. rewrite forallb_forall in H. specialize (H x). rewrite <- list_elem_of_In in H. specialize (H Hx).
  zbool. split; lia.
Qed.

Definition demo_sys : sys := MkSys demo1 demo_fs [112; 114; 111; 103] 2 0 [] true (-2) [] [].
Definition demo_dirs : gset Z := {[cur_pagedir demo1]} ∪ ∅.

Lemma demo_frames : free_frames demo1 2.
Proof.
  exists {[ 0; 1 ]}. split; [vm_compute; lia|]. intros k Hk.
  assert (Hk01 : k = 0 \/ k = 1) by (apply elem_of_union in Hk as [Hk|Hk]; apply elem_of_singleton in Hk; [by left|by right]).
  assert (Hb : babs (used_map (frame_pool demo1)) = replicate 14 false) by (vm_compute; reflexivity).
  assert (Hc : bit_cnt (used_map (frame_pool demo1)) = 14) by (vm_compute; reflexivity). rewrite Hc.
  split; [lia|]. intros [_ Hu]. rewrite Hb in Hu. by apply lookup_replicate in Hu as [? _].
Qed.

Lemma demo_kernel : free_kernel demo1 2.
Proof.
  set (b := base (kernel_pool demo1)). exists {[ b + PGSIZE * 100; b + PGSIZE * 101 ]}.
  assert (Hc : bit_cnt (used_map (kernel_pool demo1)) = 239) by (vm_compute; reflexivity).
  assert (Hu : babs (used_map (kernel_pool demo1)) !! Z.to_nat 100 = Some false /\ babs (used_map (kernel_pool demo1)) !! Z.to_nat 101 = Some false)
    by (vm_compute; split; reflexivity).
  assert (Hf : forall k, k = 100 \/ k = 101 -> kernel_page demo1 (b + PGSIZE * k) /\ ~ taken demo1 (b + PGSIZE * k)).
  { intros k Hk. split; [exists k; split; [lia|reflexivity]|]. intros (j & [Hj Hju] & Heq). fold b in Heq. change PGSIZE with 4096 in Heq.
    assert (j = k) as -> by lia. destruct Hk as [-> | ->]; [rewrite (proj1 Hu) in Hju|rewrite (proj2 Hu) in Hju]; discriminate Hju. }
  split.
  - rewrite size_union, !size_singleton; [lia|]. apply disjoint_singleton_l. rewrite elem_of_singleton. change PGSIZE with 4096. lia.
  - intros a Ha. apply elem_of_union in Ha as [Ha|Ha]; apply elem_of_singleton in Ha; subst a; apply Hf; [by left|by right].
Qed.

Lemma load_phdr_correct_witness :
  exists s', load_phdr 2 demo_phdr demo_sys = Ok (true, s') /\
    ubyte (s_vm s') (cur_pagedir demo1) (0x8048000 + 599) = Some 9 /\ ubyte (s_vm s') (cur_pagedir demo1) (0x8048000 + 600) = Some 0.
Proof.
  assert (Hlen : length demo_contents = 600%nat) by (vm_compute; reflexivity).
  destruct (load_phdr_correct demo_dirs demo_sys 2 demo_contents 0 demo_phdr) as (s' & E & _ & H & _).
  - exact demo1_inv.
  - apply elem_of_union_l, elem_of_singleton_2. reflexivity.
  - discriminate.
  - exact demo_reading.
  - exact demo_u8.
  - exact demo_phdr_wf.
  - reflexivity.
  - rewrite Hlen. vm_compute. reflexivity.
  - rewrite Hlen. vm_compute. discriminate.
  - intros j Hj. assert (j = 0 \/ j = 1) as [-> | ->] by (change (seg_pages demo_phdr) with 2 in Hj; lia); vm_compute; reflexivity.
  - exact demo_frames.
  - exact demo_kernel.
  - exists s'. split; [exact E|]. split.
    + destruct (H (0x8048000 + 599)) as [_ Hb]; [cbn; lia|]. cbn [s_vm demo_sys] in Hb. rewrite Hb. vm_compute. reflexivity.
    + destruct (H (0x8048000 + 600)) as [_ Hb]; [cbn; lia|]. cbn [s_vm demo_sys] in Hb. rewrite Hb. vm_compute. reflexivity.
Defined.

(** setup_stack passes the arguments to main: for up to 50 arguments that
    fit on one page it succeeds, with a stack pointer that is a multiple of 4
    and below which nothing was written; from it on the process finds a null
    return address, argc, argv (the address of the array, right after it), the
    argc pointers and a null pointer, and each pointer is the address of its
    argument, terminated; nothing outside the stack page changes. *)
Theorem setup_stack_correct D s argv :
  vm_inv D (s_vm s) -> cur_pagedir (s_vm s) ∈ D -> translate (s_vm s) (cur_pagedir (s_vm s)) STACK = None ->
  free_frames (s_vm s) 1 -> free_kernel (s_vm s) 1 ->
  Z.of_nat (length argv) <= 50 -> Forall (Forall is_u8) argv -> STACK <= final_esp argv ->
  exists m' esp ptrs, setup_stack argv s = Ok ((true, esp), with_vm s m') /\ vm_inv D m' /\ esp mod 4 = 0 /\ STACK <= esp /\
    mem_at m' (cur_pagedir m') esp (le_bytes 0 ++ le_bytes (Z.of_nat (length argv)) ++ le_bytes (esp + 12) ++ words ptrs ++ le_bytes 0) /\
    length ptrs = length argv /\
    (forall i arg, argv !! i = Some arg -> exists p, ptrs !! i = Some p /\ mem_at m' (cur_pagedir m') p (arg ++ [0])) /\
    (forall pd va, pd ∈ D -> 0 <= va < PHYS_BASE -> ~ (pd = cur_pagedir (s_vm s) /\ STACK <= va) -> ubyte m' pd va = ubyte (s_vm s) pd va).
Proof.
  intros HI Hcur Hn Hff Hfk Hargc Hu Hroom.
  destruct (setup_stack_spec D s argv HI Hcur Hn Hff Hfk Hargc Hu Hroom) as (m' & esp & ptrs & pad & E & He & HS & Hl & Hp & Hf).
  exists m', esp, ptrs. split; [done|]. split; [apply HS|]. split; [rewrite He; unfold final_esp; Z.to_euclidean_division_equations; lia|].
  split; [lia|]. split; [|split; [done|split; [done|apply Hf]]].
  pose proof (si_mem _ _ _ _ HS) as Hm. rewrite !app_assoc in Hm. apply mem_at_app in Hm as [Hm _]. apply mem_at_app in Hm as [Hm _].
  by rewrite !app_assoc.
Qed.

(** prog and an argument. *)
Definition demo_argv : list (list Z) := [[112; 114; 111; 103]; [45; 120]].

Lemma demo_stack_room (P : Prop) : (free_frames demo1 1 -> free_kernel demo1 1 -> P) -> P.
Proof.
  intros H. apply H.
  - destruct demo_frames as (X & Hn & HX). exists X. split; [lia|exact HX].
  - destruct demo_kernel as (X & Hn & HX). exists X. split; [lia|exact HX].
Qed.

Lemma setup_stack_correct_witness :
  exists m' esp ptrs, setup_stack demo_argv demo_sys = Ok ((true, esp), with_vm demo_sys m') /\ length ptrs = 2%nat /\
    mem_at m' (cur_pagedir m') esp (le_bytes 0 ++ le_bytes 2 ++ le_bytes (esp + 12) ++ words ptrs ++ le_bytes 0).
Proof.
  destruct (setup_stack_correct demo_dirs demo_sys demo_argv) as (m' & esp & ptrs & E & _ & _ & _ & Hm & Hl & _).
  - exact demo1_inv.
  - apply elem_of_union_l, elem_of_singleton_2. reflexivity.
  - vm_compute. reflexivity.
  - apply demo_stack_room. intros H _. exact H.
  - apply demo_stack_room. intros _ H. exact H.
  - vm_compute. discriminate.
  - repeat constructor; vm_compute; congruence.
  - vm_compute. discriminate.
  - exists m', esp, ptrs. split; [exact E|]. split; [exact Hl|exact Hm].
Defined.

(** The test that is meant to keep the arguments from overflowing the stack
    page leaves room for two of the three words that are pushed after it: when
    the arguments end at that boundary, the write of the return address goes
    to the page below, which is not mapped, and the kernel faults. *)
Theorem setup_stack_overflow D s argv :
  vm_inv D (s_vm s) -> cur_pagedir (s_vm s) ∈ D -> translate (s_vm s) (cur_pagedir (s_vm s)) STACK = None ->
  translate (s_vm s) (cur_pagedir (s_vm s)) (STACK - 4) = None ->
  free_frames (s_vm s) 1 -> free_kernel (s_vm s) 1 ->
  Z.of_nat (length argv) <= 50 -> Forall (Forall is_u8) argv -> final_esp argv = STACK - 4 -> setup_stack argv s = Err EFault.
Proof. apply setup_stack_boundary. Qed.

Lemma setup_stack_overflow_witness : setup_stack [replicate 4079 97] demo_sys = Err EFault.
Proof.
  apply (setup_stack_overflow demo_dirs).
  - exact demo1_inv.
  - apply elem_of_union_l, elem_of_singleton_2. reflexivity.
  - vm_compute. reflexivity.
  - vm_compute. reflexivity.
  - apply demo_stack_room. intros H _. exact H.
  - apply demo_stack_room. intros _ H. exact H.
  - vm_compute. discriminate.
  - apply Forall_singleton, Forall_replicate. split; [discriminate|reflexivity].
  - vm_compute. reflexivity.
Defined.

(** An executable that is shorter than its headers say makes the kernel
    panic: when a segment page (one that is not the first of its page table)
    cannot be read in full, load_segment calls palloc_free_upage, which fails
    an assertion, instead of returning false. *)
Theorem truncated_file_panics D s fp c ofs upage r z (w : bool) fuel :
  vm_inv D (s_vm s) -> cur_pagedir (s_vm s) ∈ D -> reading (s_fs s) fp c ofs -> Forall is_u8 c ->
  0 <= ofs < 2 ^ 31 -> 0 < r -> Z.of_nat (length c) < ofs + Z.min r 4096 ->
  user_page upage -> translate (s_vm s) (cur_pagedir (s_vm s)) upage = None -> pt_no upage <> 0 ->
  free_frames (s_vm s) 1 -> free_kernel (s_vm s) 1 ->
  load_segment_loop (S fuel) fp upage r z w s = Err EAssert.
Proof. apply load_segment_short. Qed.

Lemma truncated_file_panics_witness : load_segment_loop 2 2 0x8048000 700 3396 true demo_sys = Err EAssert.
Proof.
  apply (truncated_file_panics demo_dirs demo_sys 2 demo_contents 0).
  - exact demo1_inv.
  - apply elem_of_union_l, elem_of_singleton_2. reflexivity.
  - exact demo_reading.
  - exact demo_u8.
  - lia.
  - lia.
  - vm_compute. reflexivity.
  - exact demo_page.
  - vm_compute. reflexivity.
  - vm_compute. discriminate.
  - apply demo_stack_room. intros H _. exact H.
  - apply demo_stack_room. intros _ H. exact H.
Defined.
