(* ===== verification/Syscall.v ===== *)
(** System calls (userprog/syscall.c): the handler, the calls on files and the
    part of process_exit that closes files.

    file_lock is not represented: the calls run one at a time.  A call that
    creates a process or waits for one goes on in other threads, and a result
    says so; what happens then is in the file Wait.  Results are 32-bit register
    values. *)

From stdpp Require Import base list numbers gmap.
From Stdlib Require Import ZArith Lia String.
From S2P Require Import Prelude Bitmap Inode FreeMap Directory Vm ByteMem VmSpec Process.
Open Scope list_scope.
Open Scope Z_scope.

#[local] Abbreviation M := (stM sys).

(** How a call ends: with a value for eax, with the death of the thread, with
    the machine switched off, waiting for a key, or with a call of
    process_execute or process_wait. *)
Inductive outcome :=
  | Ret (r : Z)
  | Exited
  | PowerOff
  | Blocked
  | Execute (cmd_line : list Z)
  | Wait (child_tid : Z).

Definition NEG1 : Z := 2 ^ 32 - 1.

(** ** Leaving *)

(** A number as printf's %d shows it. *)
Fixpoint digits (fuel : nat) (n : Z) : list Z :=
  match fuel with
  | O => []
  | S fuel => if n <? 10 then [48 + n] else digits fuel (n / 10) ++ [48 + n mod 10]
  end.
Definition decimal (n : Z) : list Z := if n <? 0 then 45 :: digits 11 (- n) else digits 11 n.

Definition print_exit (status : Z) : M unit :=
  s ← get; print (thread_name s ++ chars ": exit(" ++ decimal status ++ chars ")" ++ [10]).

Fixpoint close_all (l : list fd_elem) : M unit :=
  match l with
  | [] => mret tt
  | f :: l =>
      on_fs (file_close (the_file f));;
      modify (fun s => with_fds s (next_fd s) (tail (fd_list s)));;
      close_all l
  end.

(** process_exit, without the list of children and the semaphore of the
    parent. *)
Definition process_exit : M unit :=
  s ← get;
  (if negb (executable s =? 0) then on_fs (file_close (executable s)) else mret tt);;
  s ← get;
  (if exit_status s <? 0 then modify (fun s => with_status s (-1));; print_exit (-1) else mret tt);;
  s ← get;
  close_all (fd_list s);;
  on_vm exit_pagedir.

Definition thread_exit : M outcome := process_exit;; mret Exited.

(** ** Pointers *)

Definition valid_ptr (ptr : Z) : M bool :=
  if is_user_vaddr ptr then
    s ← get;
    p ← on_vm (pagedir_get_page (cur_pagedir (s_vm s)) ptr);
    mret (negb (p =? 0))
  else mret false.

(** A 32-bit word of memory. *)
Definition load_u32 (va : Z) : M Z := b ← on_vm (load_bytes 4 va); mret (le_word b).

(** ** The calls *)

Definition halt_w : M outcome := mret PowerOff.

Definition exit_w (arg1 : Z) : M outcome :=
  let status := s32 arg1 in
  s ← get;
  (if tid_node_exists s then modify (fun s => with_status s status) else mret tt);;
  (if 0 <=? status then print_exit status else mret tt);;
  thread_exit.

Definition exec_w (arg1 : Z) : M outcome :=
  ok ← valid_ptr arg1;
  if negb ok then thread_exit
  else
    cmd_line ← on_vm (load_string arg1);
    mret (Execute cmd_line).

Definition wait_w (arg1 : Z) : M outcome := mret (Wait (s32 arg1)).

Definition of_bool (b : bool) : Z := if b then 1 else 0.

(** [junk] is what an uninitialised local of the directory code holds. *)
Definition create_w (junk : list Z) (arg1 arg2 : Z) : M outcome :=
  ok ← valid_ptr arg1;
  if negb ok then thread_exit
  else
    file_name ← on_vm (load_string arg1);
    if bool_decide (file_name = []) then thread_exit
    else
      r ← on_fs (filesys_create junk file_name (s32 arg2));
      mret (Ret (of_bool r)).

Definition remove_w (arg1 : Z) : M outcome :=
  ok ← valid_ptr arg1;
  if negb ok then thread_exit
  else
    file_name ← on_vm (load_string arg1);
    if bool_decide (file_name = []) then mret (Ret NEG1)
    else
      r ← on_fs (filesys_remove file_name);
      mret (Ret (of_bool r)).

Definition open_w (arg1 : Z) : M outcome :=
  ok ← valid_ptr arg1;
  if negb ok then thread_exit
  else
    file_name ← on_vm (load_string arg1);
    if bool_decide (file_name = []) then mret (Ret NEG1)
    else
      the_file ← on_fs (filesys_open file_name);
      if the_file =? 0 then mret (Ret NEG1)
      else
        file_size ← on_fs (file_length the_file);
        ok ← on_fs malloc;
        if negb ok then raise EFault            (* fd_cur is NULL *)
        else
          ok ← on_fs malloc;
          if negb ok then raise EAssert         (* strlcpy to NULL *)
          else
            s ← get;
            let fd_cur := MkFd (next_fd s) file_size (take 14 file_name) the_file in
            modify (fun s => with_fds s (s32 (next_fd s + 1)) (fd_list s ++ [fd_cur]));;
            mret (Ret (u32 (fd fd_cur))).

(** The searches through fd_list. *)
Definition find_fd (n : Z) (l : list fd_elem) : option fd_elem := head (filter (fun e => fd e = n) l).

(** The test on FD that the calls share, and the search. *)
Definition lookup_fd (n : Z) : M (option fd_elem) :=
  s ← get;
  mret (if (n <? 2) || (next_fd s <=? n) then None else find_fd n (fd_list s)).

Definition filesize_w (arg1 : Z) : M outcome :=
  e ← lookup_fd (s32 arg1);
  match e with Some e => mret (Ret (u32 (file_size e))) | None => mret (Ret NEG1) end.

Definition read_w (arg1 arg2 arg3 : Z) : M outcome :=
  ok ← valid_ptr arg2;
  if negb ok then thread_exit
  else if s32 arg1 =? 0 then
    s ← get;
    match keys s with
    | key :: ks => modify (fun s => with_keys s ks);; mret (Ret key)
    | [] => mret Blocked
    end
  else
    e ← lookup_fd (s32 arg1);
    match e with
    | Some e =>
        bs ← on_fs (file_read (the_file e) (s32 arg3));
        on_vm (store_bytes arg2 bs);;
        mret (Ret (u32 (Z.of_nat (List.length bs))))
    | None => mret (Ret NEG1)
    end.

(** The bytes that inode_write_at takes from its buffer: up to the end of the
    file, and none when writing is denied. *)
Definition write_avail (fp size : Z) : stM fs Z :=
  f ← get_file fp;
  i ← get_inode (f_inode f);
  mret (if negb (deny_write_cnt i =? 0) then 0 else Z.max 0 (Z.min size (inode_length i - f_pos f))).

Definition write_w (arg1 arg2 arg3 : Z) : M outcome :=
  ok ← valid_ptr arg2;
  if negb ok then thread_exit
  else if s32 arg1 =? 1 then
    str ← on_vm (load_string arg2);
    print str;;
    mret (Ret arg3)
  else
    e ← lookup_fd (s32 arg1);
    match e with
    | Some e =>
        n ← on_fs (write_avail (the_file e) (s32 arg3));
        buffer ← on_vm (load_bytes (Z.to_nat n) arg2);
        r ← on_fs (file_write (the_file e) buffer (s32 arg3));
        mret (Ret (u32 r))
    | None => mret (Ret NEG1)
    end.

Definition seek_w (arg1 arg2 : Z) : M outcome :=
  e ← lookup_fd (s32 arg1);
  match e with
  | Some e => on_fs (file_seek (the_file e) (s32 arg2));; mret (Ret NEG1)
  | None => mret (Ret NEG1)
  end.

Definition tell_w (arg1 : Z) : M outcome :=
  e ← lookup_fd (s32 arg1);
  match e with
  | Some e => r ← on_fs (file_tell (the_file e)); mret (Ret (u32 r))
  | None => mret (Ret NEG1)
  end.

(** Removing the node of the first match from the list. *)
Fixpoint remove_fd (n : Z) (l : list fd_elem) : list fd_elem :=
  match l with [] => [] | e :: l => if fd e =? n then l else e :: remove_fd n l end.

Definition close_w (arg1 : Z) : M outcome :=
  let n := s32 arg1 in
  e ← lookup_fd n;
  match e with
  | Some e =>
      on_fs (file_close (the_file e));;
      modify (fun s => with_fds s (next_fd s) (remove_fd n (fd_list s)));;
      mret (Ret 0)
  | None => mret (Ret NEG1)
  end.

(** ** The handler *)

Definition SYSCALL_UPPER : Z := 19.

(** handler_table: entries 13 to 19 are NULL. *)
Definition handler_table (junk : list Z) (call_num arg1 arg2 arg3 : Z) : M outcome :=
  if call_num =? 0 then halt_w
  else if call_num =? 1 then exit_w arg1
  else if call_num =? 2 then exec_w arg1
  else if call_num =? 3 then wait_w arg1
  else if call_num =? 4 then create_w junk arg1 arg2
  else if call_num =? 5 then remove_w arg1
  else if call_num =? 6 then open_w arg1
  else if call_num =? 7 then filesize_w arg1
  else if call_num =? 8 then read_w arg1 arg2 arg3
  else if call_num =? 9 then write_w arg1 arg2 arg3
  else if call_num =? 10 then seek_w arg1 arg2
  else if call_num =? 11 then tell_w arg1
  else if call_num =? 12 then close_w arg1
  else raise EFault.

(** [esp] is that of the interrupt frame; [Ret r] stands for eax. *)
Definition syscall_handler (junk : list Z) (esp : Z) : M outcome :=
  ok ← (if (esp =? 0) || is_kernel_vaddr esp then mret false else valid_ptr esp);
  if negb ok then thread_exit
  else
    call_num ← load_u32 esp;
    if SYSCALL_UPPER <? call_num then thread_exit
    else
      arg1 ← load_u32 (u32 (esp + 4));
      arg2 ← load_u32 (u32 (esp + 8));
      arg3 ← load_u32 (u32 (esp + 12));
      handler_table junk call_num arg1 arg2 arg3.
