(* ===== verification/SyscallSpec.v ===== *)
(** Correctness of the system calls on files: the invariant of the descriptor
    table, what read and write move between memory and file, descriptors that
    are closed for good, and the calls that crash the kernel. *)

From stdpp Require Import base list numbers gmap.
From Stdlib Require Import ZArith Lia.
From S2P Require Import Prelude Bitmap Inode FreeMap Directory Vm PageDir VmSpec ByteMem Process LoadSpec Syscall.

(** ** The table of open files across file system calls *)

(** A computation that opens and closes no file. *)
Class Keeps {A} (c : stM fs A) : Prop :=
  keeps s a s' : c s = Ok (a, s') -> dom (files s') = dom (files s) /\ next_addr s <= next_addr s' /\ free_map_file s' = free_map_file s.

#[export] Instance keeps_ret {A} (a : A) : Keeps (mret a).
Proof. intros s x s' [= <- <-]. done. Qed.
#[export] Instance keeps_raise {A} e : Keeps (raise e : stM fs A).
Proof. intros s x s'. done. Qed.
#[export] Instance keeps_lift {A} (r : res A) : Keeps (lift r).
Proof. intros s x s'. unfold lift. destruct r; [|done]. intros [= <- <-]. done. Qed.
#[export] Instance keeps_assert b : Keeps (assertM b).
Proof. apply keeps_lift. Qed.
#[export] Instance keeps_get : Keeps (@get fs).
Proof. intros s x s' [= <- <-]. done. Qed.
#[export] Instance keeps_bind {A B} (c : stM fs A) (f : A -> stM fs B) : Keeps c -> (forall a, Keeps (f a)) -> Keeps (c ≫= f).
Proof.
  intros Hc Hf s b s' E. apply stbind_Ok in E as (a & s1 & E1 & E2). destruct (Hc _ _ _ E1) as (? & ? & ?), (Hf _ _ _ _ E2) as (? & ? & ?). split; [congruence|]. split; [lia|congruence].
Qed.
#[export] Instance keeps_malloc : Keeps malloc.
Proof. intros s a s'. unfold malloc. destruct (mallocs s); intros [= <- <-]; done. Qed.
#[export] Instance keeps_fresh : Keeps fresh.
Proof. intros s a s' [= <- <-]. cbn. split; [done|lia]. Qed.
#[export] Instance keeps_get_inode i : Keeps (get_inode i).
Proof. intros s a s'. unfold get_inode. destruct (inodes s !! i); [|done]. intros [= <- <-]. done. Qed.
#[export] Instance keeps_get_file i : Keeps (get_file i).
Proof. intros s a s'. unfold get_file. destruct (files s !! i); [|done]. intros [= <- <-]. done. Qed.
#[export] Instance keeps_block_read sec : Keeps (block_read sec).
Proof. intros s a s'. unfold block_read. destruct (_ <=? _); [done|]. destruct (dev s !! _); [|done]. intros [= <- <-]. done. Qed.
#[export] Instance keeps_block_write sec b : Keeps (block_write sec b).
Proof. intros s a s'. unfold block_write. destruct (_ <=? _); [done|]. intros [= <- <-]. done. Qed.

Lemma keeps_modify f : (forall s, files (f s) = files s /\ next_addr (f s) = next_addr s /\ free_map_file (f s) = free_map_file s) -> Keeps (modify f).
Proof. intros H s a s' [= <- <-]. destruct (H s) as (-> & -> & ->). done. Qed.

(** Follows the structure of a computation. *)
Ltac keeps :=
  repeat match goal with
  | |- Keeps (modify _) => apply keeps_modify; intros; split_and!; reflexivity
  | |- Keeps (_ ≫= _) => apply keeps_bind; [|intros ?]
  | |- Keeps (match ?x with _ => _ end) => destruct x
  | |- Keeps (let '(_, _) := ?x in _) => destruct x
  | |- Keeps _ => solve [typeclasses eauto]
  | H : forall _, Keeps _ |- _ => apply H
  | H : forall _ _, Keeps _ |- _ => apply H
  | H : forall _ _ _, Keeps _ |- _ => apply H
  | H : forall _ _ _ _, Keeps _ |- _ => apply H
  | H : forall _ _ _ _ _, Keeps _ |- _ => apply H
  end.

#[export] Instance keeps_set_inode i x : Keeps (set_inode i x).
Proof. unfold set_inode. keeps. Qed.
#[export] Instance keeps_buffer_chunk b o n : Keeps (buffer_chunk b o n).
Proof. unfold buffer_chunk. keeps. Qed.
#[export] Instance keeps_read_loop k : forall i size ofs b acc, Keeps (inode_read_loop k i size ofs b acc).
Proof. induction k as [|k IH]; intros i size ofs b acc; cbn [inode_read_loop]; keeps. Qed.
#[export] Instance keeps_read ip size ofs : Keeps (inode_read_at ip size ofs).
Proof. unfold inode_read_at. keeps. Qed.
#[export] Instance keeps_write_loop k : forall i buf size ofs b n, Keeps (inode_write_loop k i buf size ofs b n).
Proof. induction k as [|k IH]; intros i buf size ofs b n; cbn [inode_write_loop]; keeps. Qed.
#[export] Instance keeps_write ip buf size ofs : Keeps (inode_write_at ip buf size ofs).
Proof. unfold inode_write_at. keeps. Qed.
#[export] Instance keeps_find_open l sec : Keeps (find_open l sec).
Proof. induction l as [|ip l IH]; cbn [find_open]; keeps. Qed.
#[export] Instance keeps_reopen ip : Keeps (inode_reopen ip).
Proof. unfold inode_reopen. keeps. Qed.
#[export] Instance keeps_open sec : Keeps (inode_open sec).
Proof. unfold inode_open. keeps. Qed.
#[export] Instance keeps_remove ip : Keeps (inode_remove ip).
Proof. unfold inode_remove. keeps. Qed.
#[export] Instance keeps_allow ip : Keeps (inode_allow_write ip).
Proof. unfold inode_allow_write. keeps. Qed.
#[export] Instance keeps_set_free_map b : Keeps (set_free_map b).
Proof. unfold set_free_map. keeps. Qed.
#[export] Instance keeps_bitmap_write b fp : Keeps (bitmap_write b fp).
Proof. unfold bitmap_write, file_write_at. keeps. Qed.
#[export] Instance keeps_allocate n : Keeps (free_map_allocate n).
Proof. unfold free_map_allocate. keeps. Qed.
#[export] Instance keeps_release sec n : Keeps (free_map_release sec n).
Proof. unfold free_map_release. keeps. Qed.
#[export] Instance keeps_zeros k : forall sec, Keeps (write_zeros k sec).
Proof. induction k as [|k IH]; intros sec; cbn [write_zeros]; keeps. Qed.
#[export] Instance keeps_create sec n : Keeps (inode_create sec n).
Proof. unfold inode_create. keeps. Qed.
#[export] Instance keeps_close ip : Keeps (inode_close ip).
Proof. unfold inode_close. keeps. Qed.
#[export] Instance keeps_dir_open_root : Keeps dir_open_root.
Proof. unfold dir_open_root, dir_open. keeps. Qed.
#[export] Instance keeps_dir_close d : Keeps (dir_close d).
Proof. unfold dir_close. keeps. Qed.
#[export] Instance keeps_lookup_loop k : forall d name ofs, Keeps (lookup_loop k d name ofs).
Proof. induction k as [|k IH]; intros d name ofs; cbn [lookup_loop]; keeps. Qed.
#[export] Instance keeps_lookup d name : Keeps (lookup d name).
Proof. unfold lookup, dir_fuel. keeps. Qed.
#[export] Instance keeps_dir_lookup d name : Keeps (dir_lookup d name).
Proof. unfold dir_lookup. keeps. Qed.
#[export] Instance keeps_free_slot k : forall d e ofs, Keeps (free_slot_loop k d e ofs).
Proof. induction k as [|k IH]; intros d e ofs; cbn [free_slot_loop]; keeps. Qed.
#[export] Instance keeps_dir_add junk d name sec : Keeps (dir_add junk d name sec).
Proof. unfold dir_add, dir_fuel. keeps. Qed.
#[export] Instance keeps_dir_remove d name : Keeps (dir_remove d name).
Proof. unfold dir_remove. keeps. Qed.
#[export] Instance keeps_filesys_create junk name n : Keeps (filesys_create junk name n).
Proof. unfold filesys_create. keeps. Qed.
#[export] Instance keeps_filesys_remove name : Keeps (filesys_remove name).
Proof. unfold filesys_remove. keeps. Qed.


(** The same for a computation that is given an open file. *)
Definition keeps_with {A} (fp : Z) (c : stM fs A) : Prop :=
  forall s a s', fp ∈ dom (files s) -> c s = Ok (a, s') ->
    dom (files s') = dom (files s) /\ next_addr s <= next_addr s' /\ free_map_file s' = free_map_file s.

Lemma keeps_with_keeps {A} fp (c : stM fs A) : Keeps c -> keeps_with fp c.
Proof. intros H s a s' _. apply H. Qed.
Lemma keeps_with_bind {A B} fp (c : stM fs A) (f : A -> stM fs B) :
  keeps_with fp c -> (forall a, keeps_with fp (f a)) -> keeps_with fp (c ≫= f).
Proof.
  intros Hc Hf s b s' Hfp E. apply stbind_Ok in E as (a & s1 & E1 & E2). destruct (Hc _ _ _ Hfp E1) as (Hd & ? & ?).
  destruct (Hf a s1 b s') as (? & ? & ?); [by rewrite Hd|done|]. split; [congruence|]. split; [lia|congruence].
Qed.
Lemma keeps_with_set fp f : keeps_with fp (set_file fp f).
Proof. intros s a s' Hfp [= <- <-]. cbn. split; [|done]. rewrite dom_insert_L. set_solver. Qed.
Lemma keeps_get_bind {B} fp (k : file -> stM fs B) : (forall f, keeps_with fp (k f)) -> Keeps (get_file fp ≫= k).
Proof.
  intros Hk s b s' E. apply stbind_Ok in E as (f & s1 & E1 & E2). unfold get_file in E1.
  destruct (files s !! fp) eqn:Ef; [|done]. injection E1 as <- <-. apply (Hk f0 s b s'); [by apply elem_of_dom|done].
Qed.

Ltac keeps_f :=
  repeat match goal with
  | |- Keeps (get_file _ ≫= _) => apply keeps_get_bind; intros ?
  | |- Keeps (_ ≫= _) => apply keeps_bind; [|intros ?]
  | |- Keeps _ => solve [keeps]
  | |- keeps_with _ (set_file _ _) => apply keeps_with_set
  | |- keeps_with _ (_ ≫= _) => apply keeps_with_bind; [|intros ?]
  | |- keeps_with _ (match ?x with _ => _ end) => destruct x
  | |- keeps_with _ _ => apply keeps_with_keeps; solve [keeps]
  end.

#[export] Instance keeps_deny ip : Keeps (inode_deny_write ip).
Proof. unfold inode_deny_write. keeps. Qed.
#[export] Instance keeps_file_read fp n : Keeps (file_read fp n).
Proof. unfold file_read. keeps_f. Qed.
#[export] Instance keeps_file_write fp b n : Keeps (file_write fp b n).
Proof. unfold file_write. keeps_f. Qed.
#[export] Instance keeps_file_seek fp n : Keeps (file_seek fp n).
Proof. unfold file_seek. keeps_f. Qed.
#[export] Instance keeps_file_tell fp : Keeps (file_tell fp).
Proof. unfold file_tell. keeps_f. Qed.
#[export] Instance keeps_file_length fp : Keeps (file_length fp).
Proof. unfold file_length. keeps_f. Qed.
#[export] Instance keeps_file_allow fp : Keeps (file_allow_write fp).
Proof. unfold file_allow_write. keeps_f. Qed.
#[export] Instance keeps_write_avail fp n : Keeps (write_avail fp n).
Proof. unfold write_avail. keeps. Qed.

(** ** Opening and closing *)

Lemma file_close_dom fp s u s' : file_close fp s = Ok (u, s') -> fp <> 0 ->
  dom (files s') = dom (files s) ∖ {[fp]} /\ next_addr s <= next_addr s' /\ free_map_file s' = free_map_file s.
Proof.
  intros E Hne. unfold file_close in E. rewrite (proj2 (Z.eqb_neq _ _) Hne) in E.
  apply stbind_Ok in E as (? & s1 & E1 & E). apply stbind_Ok in E as (f & s2 & E2 & E). apply stbind_Ok in E as (? & s3 & E3 & E).
  destruct (keeps_file_allow _ _ _ _ E1) as (Ha & ? & ?), (keeps_get_file _ _ _ _ E2) as (Hb & ? & ?), (keeps_close _ _ _ _ E3) as (Hc & ? & ?).
  injection E as _ <-. cbn. rewrite dom_delete_L, Hc, Hb, Ha. split; [done|]. split; [lia|congruence].
Qed.

Lemma file_open_dom ip s fp s' : file_open ip s = Ok (fp, s') ->
  free_map_file s' = free_map_file s /\ next_addr s <= next_addr s' /\
  (fp = 0 /\ dom (files s') = dom (files s) \/
   next_addr s <= fp < next_addr s' /\ dom (files s') = dom (files s) ∪ {[fp]}).
Proof.
  intros E. unfold file_open in E. apply stbind_Ok in E as (ok & s1 & E1 & E).
  destruct (keeps_malloc _ _ _ E1) as (Ha & ? & ?). destruct (negb (ip =? 0) && ok).
  - apply stbind_Ok in E as (x & s2 & [= <- <-] & E). apply stbind_Ok in E as (? & s3 & [= _ <-] & [= <- <-]). cbn.
    split; [congruence|]. split; [lia|]. right. split; [lia|]. rewrite dom_insert_L, Ha. set_solver.
  - apply stbind_Ok in E as (? & s2 & E2 & [= <- <-]). destruct (keeps_close _ _ _ _ E2) as (Hb & ? & ?).
    split; [congruence|]. split; [lia|]. left. split; [done|congruence].
Qed.

Lemma filesys_open_dom name s fp s' : filesys_open name s = Ok (fp, s') ->
  free_map_file s' = free_map_file s /\ next_addr s <= next_addr s' /\
  (fp = 0 /\ dom (files s') = dom (files s) \/
   next_addr s <= fp < next_addr s' /\ dom (files s') = dom (files s) ∪ {[fp]}).
Proof.
  intros E. unfold filesys_open in E. apply stbind_Ok in E as (od & s1 & E1 & E). apply stbind_Ok in E as (ip & s2 & E2 & E).
  apply stbind_Ok in E as (? & s3 & E3 & E).
  assert (K : Keeps (match od with Some d => r ← dir_lookup d name; mret (snd r) | None => mret 0 end : stM fs Z)) by (destruct od; keeps).
  destruct (keeps_dir_open_root _ _ _ E1) as (Ha & ? & ?), (K _ _ _ E2) as (Hb & ? & ?), (keeps_dir_close _ _ _ _ E3) as (Hc & ? & ?).
  destruct (file_open_dom _ _ _ _ E) as (? & ? & [[? Hd]|[? Hd]]); (split; [congruence|]); (split; [lia|]); rewrite Hd, Hc, Hb, Ha; [left|right]; (split; [lia|done]).
Qed.

(** ** The descriptors of a process *)

(** The file objects a process holds. *)
Definition held (s : sys) : list Z := (if executable s =? 0 then [] else [executable s]) ++ (the_file <$> fd_list s).

Record fds_ok (s : sys) : Prop := {
  fo_next : 2 <= next_fd s;
  fo_range : Forall (fun e => 2 <= fd e < next_fd s) (fd_list s);
  fo_fds : NoDup (fd <$> fd_list s);
  fo_held : NoDup (held s);
  fo_open : Forall (fun fp => fp ∈ dom (files (s_fs s)) /\ fp <> free_map_file (s_fs s)) (held s);
  fo_addr : 0 < next_addr (s_fs s) /\ free_map_file (s_fs s) < next_addr (s_fs s) /\ set_Forall (fun fp => 0 < fp < next_addr (s_fs s)) (dom (files (s_fs s)))
}.

(** States with the same descriptors. *)
Definition same_fds (s s' : sys) : Prop :=
  next_fd s' = next_fd s /\ executable s' = executable s /\ fd_list s' = fd_list s /\
  dom (files (s_fs s')) = dom (files (s_fs s)) /\ next_addr (s_fs s) <= next_addr (s_fs s') /\ free_map_file (s_fs s') = free_map_file (s_fs s).

Lemma same_fds_refl s : same_fds s s.
Proof. repeat split; lia. Qed.
Lemma same_fds_trans s1 s2 s3 : same_fds s1 s2 -> same_fds s2 s3 -> same_fds s1 s3.
Proof. unfold same_fds. intros (? & ? & ? & ? & ? & ?) (? & ? & ? & ? & ? & ?). split_and!; try congruence; lia. Qed.
Lemma same_fds_held s s' : same_fds s s' -> held s' = held s.
Proof. intros (_ & He & Hl & _). unfold held. by rewrite He, Hl. Qed.
Lemma same_fds_ok s s' : same_fds s s' -> fds_ok s -> fds_ok s'.
Proof.
  intros Hs [? ? ? ? ? (? & ? & HF)]. pose proof (same_fds_held _ _ Hs) as Hh. destruct Hs as (Hn & _ & Hl & Hd & ? & Hf).
  constructor; rewrite ?Hn, ?Hl, ?Hh, ?Hd, ?Hf; try done. split; [lia|]. split; [lia|]. intros fp [? ?]%HF. lia.
Qed.

Class Quiet {A} (c : stM sys A) : Prop := quiet s a s' : c s = Ok (a, s') -> same_fds s s'.

#[export] Instance quiet_ret {A} (a : A) : Quiet (mret a).
Proof. intros s x s' [= <- <-]. apply same_fds_refl. Qed.
#[export] Instance quiet_raise {A} e : Quiet (raise e : stM sys A).
Proof. intros s x s'. done. Qed.
#[export] Instance quiet_get : Quiet (@get sys).
Proof. intros s x s' [= <- <-]. apply same_fds_refl. Qed.
#[export] Instance quiet_bind {A B} (c : stM sys A) (f : A -> stM sys B) : Quiet c -> (forall a, Quiet (f a)) -> Quiet (c ≫= f).
Proof.
  intros Hc Hf s b s' E. apply stbind_Ok in E as (a & s1 & E1 & E2). eapply same_fds_trans; [by eapply Hc|by eapply Hf].
Qed.
#[export] Instance quiet_on_vm {A} (c : stM vm A) : Quiet (on_vm c).
Proof. intros s a s'. unfold on_vm. destruct (c (s_vm s)) as [[? ?]|]; [|done]. intros [= <- <-]. by repeat split. Qed.
#[export] Instance quiet_on_fs {A} (c : stM fs A) : Keeps c -> Quiet (on_fs c).
Proof.
  intros K s a s'. unfold on_fs. destruct (c (s_fs s)) as [[? ?]|] eqn:E; [|done]. intros [= <- <-].
  destruct (K _ _ _ E) as (? & ? & ?). by repeat split.
Qed.
#[export] Instance quiet_print l : Quiet (print l).
Proof. intros s a s' [= <- <-]. by repeat split. Qed.
#[export] Instance quiet_status x : Quiet (modify (fun s => with_status s x)).
Proof. intros s a s' [= <- <-]. by repeat split. Qed.
#[export] Instance quiet_keys x : Quiet (modify (fun s => with_keys s x)).
Proof. intros s a s' [= <- <-]. by repeat split. Qed.
#[export] Instance quiet_if {A} (b : bool) (c1 c2 : stM sys A) : Quiet c1 -> Quiet c2 -> Quiet (if b then c1 else c2).
Proof. by destruct b. Qed.

#[export] Instance quiet_print_exit x : Quiet (print_exit x).
Proof. unfold print_exit. apply _. Qed.
#[export] Instance quiet_valid_ptr p : Quiet (valid_ptr p).
Proof. unfold valid_ptr. apply _. Qed.
#[export] Instance quiet_load_u32 p : Quiet (load_u32 p).
Proof. unfold load_u32. apply _. Qed.
#[export] Instance quiet_lookup_fd n : Quiet (lookup_fd n).
Proof. unfold lookup_fd. apply _. Qed.

(** ** What each call does to the descriptors *)

(** The files a dead process held are closed. *)
Definition released (s s' : sys) : Prop :=
  fd_list s' = [] /\ dom (files (s_fs s')) = dom (files (s_fs s)) ∖ list_to_set (held s).

(** A live one keeps its invariant, and every number given out before names what
    it named, but for one at most, which names nothing any more. *)
Definition fds_step (s s' : sys) : Prop :=
  fds_ok s' /\ next_fd s <= next_fd s' <= next_fd s + 1 /\
  exists closed : option Z, forall n, n < next_fd s -> find_fd n (fd_list s') = if bool_decide (closed = Some n) then None else find_fd n (fd_list s).

Definition after (s : sys) (o : outcome) (s' : sys) : Prop :=
  match o with Exited => released s s' | _ => fds_step s s' end.

Lemma close_all_dom l : forall s u s', close_all l s = Ok (u, s') -> fd_list s = l -> Forall (fun e => the_file e <> 0) l ->
  fd_list s' = [] /\ dom (files (s_fs s')) = dom (files (s_fs s)) ∖ list_to_set (the_file <$> l).
Proof.
  induction l as [|e l IH]; intros s u s' E Hl Hne; cbn [close_all] in E.
  - injection E as _ <-. cbn. split; [done|set_solver].
  - apply Forall_cons_1 in Hne as [Hne Hl']. apply stbind_Ok in E as (? & s1 & E1 & E). apply stbind_Ok in E as (? & s2 & [= _ <-] & E).
    unfold on_fs in E1. destruct (file_close _ (s_fs s)) as [[? f]|] eqn:Ec; [|done]. injection E1 as _ <-.
    apply file_close_dom in Ec as (Hd & _); [|done]. apply IH in E as [? Hd']; [|cbn; by rewrite Hl|done]. split; [done|].
    rewrite Hd'. cbn. rewrite Hd. set_solver.
Qed.

Lemma held_nonzero s : fds_ok s -> Forall (fun fp => fp <> 0) (held s).
Proof.
  intros H. apply (Forall_impl _ _ _ (fo_open s H)). intros fp [Hd _]. pose proof (fo_addr s H) as (_ & _ & HF). destruct (HF fp Hd). lia.
Qed.

Lemma process_exit_dom s u s' : fds_ok s -> process_exit s = Ok (u, s') -> released s s'.
Proof.
  intros HI E. unfold process_exit in E. apply stbind_Ok in E as (? & s0 & [= <- <-] & E).
  apply stbind_Ok in E as (? & s1 & E1 & E). apply stbind_Ok in E as (? & s2 & [= <- <-] & E).
  apply stbind_Ok in E as (? & s3 & E2 & E). apply stbind_Ok in E as (? & s4 & [= <- <-] & E).
  apply stbind_Ok in E as (? & s5 & E3 & E4).
  assert (H1 : fd_list s1 = fd_list s /\ dom (files (s_fs s1)) = dom (files (s_fs s)) ∖ list_to_set (if executable s =? 0 then [] else [executable s])).
  { destruct (executable s =? 0) eqn:Ex; cbn [negb] in E1.
    - injection E1 as _ <-. split; [done|set_solver].
    - unfold on_fs in E1. destruct (file_close _ (s_fs s)) as [[? f]|] eqn:Ec; [|done]. injection E1 as _ <-.
      apply file_close_dom in Ec as (Hd & _); [|by apply Z.eqb_neq]. split; [done|]. cbn. rewrite Hd. set_solver. }
  destruct H1 as [Hl1 Hd1].
  assert (H2 : same_fds s1 s3). { exact (quiet _ _ _ E2). }
  destruct H2 as (_ & _ & Hl2 & Hd2 & _). pose proof (held_nonzero s HI) as Hnz. unfold held in Hnz. apply Forall_app in Hnz as [_ Hnz].
  apply close_all_dom in E3 as [Hl5 Hd5]; [|done|rewrite Hl2, Hl1; exact (proj1 (Forall_fmap the_file _ _) Hnz)].
  apply (quiet_on_vm _) in E4 as (_ & _ & Hl4 & Hd4 & _). split; [congruence|].
  rewrite Hd4, Hd5, Hd2, Hd1, Hl2, Hl1. unfold held. rewrite list_to_set_app_L. set_solver.
Qed.

Lemma same_released s s1 s2 : same_fds s s1 -> released s1 s2 -> released s s2.
Proof. intros Hs [H1 H2]. split; [done|]. rewrite (same_fds_held _ _ Hs) in H2. destruct Hs as (_ & _ & _ & Hd & _). by rewrite H2, Hd. Qed.

Lemma same_step s s' : same_fds s s' -> fds_ok s -> fds_step s s'.
Proof.
  intros Hs HI. pose proof (same_fds_ok _ _ Hs HI). destruct Hs as (Hn & _ & Hl & _). split; [done|]. rewrite Hn, Hl. split; [lia|]. exists None. intros n _. by rewrite bool_decide_false.
Qed.

(** A call that starts quietly. *)
Lemma after_quiet {A} (c : stM sys A) (k : A -> stM sys outcome) s o s' :
  Quiet c -> fds_ok s -> (c ≫= k) s = Ok (o, s') ->
  (forall a s1, same_fds s s1 -> fds_ok s1 -> k a s1 = Ok (o, s') -> after s1 o s') -> after s o s'.
Proof.
  intros Hc HI E Hk. apply stbind_Ok in E as (a & s1 & E1 & E2). pose proof (Hc _ _ _ E1) as Hs.
  specialize (Hk a s1 Hs (same_fds_ok _ _ Hs HI) E2). destruct o; try (by eapply same_released).
  all: destruct Hk as (Hok & Hn & Hf); destruct Hs as (Hn' & _ & Hl & _); rewrite Hn', ?Hl in *; by split.
Qed.

Lemma after_same s o s' : same_fds s s' -> fds_ok s -> o <> Exited -> after s o s'.
Proof. intros Hs HI Ho. destruct o; try done; by apply same_step. Qed.

Lemma after_exit s o s' : fds_ok s -> thread_exit s = Ok (o, s') -> after s o s'.
Proof. intros HI E. unfold thread_exit in E. apply stbind_Ok in E as (? & s1 & E & [= <- <-]). by eapply process_exit_dom. Qed.

(** Runs a call step by step, as long as its steps leave the descriptors
    alone. *)
Ltac calls HI E :=
  repeat match type of E with
  | (_ ≫= _) ?s = Ok _ => eapply (after_quiet _ _ _ _ _ _ HI E); clear HI E; intros ? ? _ HI E; cbn beta in E
  | thread_exit _ = Ok _ => exact (after_exit _ _ _ HI E)
  | mret _ _ = Ok _ => injection E as <- <-; apply after_same; [apply same_fds_refl|exact HI|done]
  | raise _ _ = Ok _ => discriminate E
  | (if ?b then _ else _) _ = Ok _ => destruct b
  | (match ?x with _ => _ end) _ = Ok _ => destruct x
  end.

Lemma find_fd_Some n l e : find_fd n l = Some e -> e ∈ l /\ fd e = n.
Proof.
  unfold find_fd. intros H. assert (Hin : e ∈ filter (fun e => fd e = n) l) by (destruct (filter _ l); [done|injection H as ->; left]).
  apply list_elem_of_filter in Hin. tauto.
Qed.
Lemma find_fd_None n l : find_fd n l = None <-> Forall (fun e => fd e <> n) l.
Proof.
  unfold find_fd. induction l as [|x l IH]; [done|]. rewrite filter_cons, Forall_cons. case_decide as Hx; cbn.
  - split; [done|]. intros [? _]. done.
  - rewrite IH. tauto.
Qed.

Lemma lookup_fd_Ok n s : lookup_fd n s = Ok (if (n <? 2) || (next_fd s <=? n) then None else find_fd n (fd_list s), s).
Proof. reflexivity. Qed.

Lemma remove_fd_sublist n l : remove_fd n l `sublist_of` l.
Proof. induction l as [|x l IH]; cbn; [done|]. case_match; [by apply sublist_cons|by apply sublist_skip]. Qed.

Lemma remove_fd_split n l e : find_fd n l = Some e -> exists l1 l2, l = l1 ++ e :: l2 /\ remove_fd n l = l1 ++ l2.
Proof.
  induction l as [|x l IH]; [done|]. unfold find_fd. rewrite filter_cons. cbn. case_decide as Hx; cbn.
  - intros [= ->]. exists [], l. rewrite (proj2 (Z.eqb_eq _ _) Hx). done.
  - intros H. destruct (IH H) as (l1 & l2 & -> & Hr). exists (x :: l1), l2. rewrite (proj2 (Z.eqb_neq _ _) Hx), Hr. done.
Qed.

Lemma NoDup_app_remove_mid {A} (l1 l2 : list A) x : NoDup (l1 ++ x :: l2) -> NoDup (l1 ++ l2) /\ (x ∉ l1 ++ l2).
Proof. rewrite NoDup_app, NoDup_cons, NoDup_app. intros (? & H & ? & ?). split; [split_and!; set_solver|set_solver]. Qed.

(** The descriptor that close_w removes. *)
Lemma close_step s f n e : fds_ok s -> find_fd n (fd_list s) = Some e ->
  dom (files f) = dom (files (s_fs s)) ∖ {[the_file e]} -> next_addr (s_fs s) <= next_addr f -> free_map_file f = free_map_file (s_fs s) ->
  fds_step s (with_fds (with_fs s f) (next_fd s) (remove_fd n (fd_list s))).
Proof.
  intros HI Hf Hd Hn Hm. destruct HI as [? Hr Hfd Hh Ho (? & ? & HF)]. destruct (remove_fd_split n _ e Hf) as (l1 & l2 & El & Er).
  split; [|split]; cbn; [|lia|].
  - constructor; cbn; rewrite ?Er.
    + done.
    + rewrite El in Hr. apply Forall_app in Hr as [? [_ ?]%Forall_cons_1]. by apply Forall_app.
    + rewrite El, fmap_app in Hfd. rewrite fmap_app. by apply NoDup_app_remove_mid in Hfd as [? _].
    + unfold held in *. cbn. rewrite El, fmap_app, app_assoc in Hh. rewrite ?Er, fmap_app, app_assoc. by apply NoDup_app_remove_mid in Hh as [? _].
    + unfold held in *. cbn. rewrite El, fmap_app, app_assoc in Hh. apply NoDup_app_remove_mid in Hh as [_ Hh].
      rewrite El, fmap_app, app_assoc, Forall_app in Ho. destruct Ho as [Ho1 [_ Ho2]%Forall_cons_1]. rewrite ?Er, fmap_app, app_assoc, Hd, Hm.
      pose proof (proj2 (Forall_app _ _ _) (conj Ho1 Ho2)) as Ho. rewrite Forall_forall in Ho |- *. intros fp Hin. destruct (Ho fp Hin). set_solver.
    + rewrite Hd, Hm. split; [lia|]. split; [lia|]. intros fp [Hfp _]%elem_of_difference. destruct (HF fp Hfp). lia.
  - exists (Some n). intros k _. apply find_fd_Some in Hf as [_ <-]. rewrite Er. rewrite El in Hfd |- *. case_bool_decide as Hk.
    + injection Hk as <-. apply find_fd_None. rewrite fmap_app in Hfd. apply NoDup_app_remove_mid in Hfd as [_ Hfd]. apply Forall_forall. intros e' He' Heq. apply Hfd. rewrite <- Heq. apply elem_of_app in He' as [He'|He']; apply elem_of_app; [left|right]; by apply list_elem_of_fmap_2.
    + unfold find_fd. rewrite !filter_app, filter_cons_False by congruence. done.
Qed.

(** The descriptor that open_w adds. *)
Lemma open_step s f fp size name : fds_ok s -> next_fd s < 2 ^ 31 - 1 ->
  next_addr (s_fs s) <= fp < next_addr f -> dom (files f) = dom (files (s_fs s)) ∪ {[fp]} -> free_map_file f = free_map_file (s_fs s) ->
  fds_step s (with_fds (with_fs s f) (s32 (next_fd s + 1)) (fd_list s ++ [MkFd (next_fd s) size name fp])).
Proof.
  intros HI Hlt Hfp Hd Hm. destruct HI as [? Hr Hfd Hh Ho (? & ? & HF)].
  assert (Hs : s32 (next_fd s + 1) = next_fd s + 1) by (apply s32_small; unfold is_s32; lia).
  assert (Hnew : fp ∉ held s). { rewrite Forall_forall in Ho. intros [[? ?]%HF _]%Ho. lia. }
  split; [|split]; cbn; rewrite ?Hs; [|lia|].
  - constructor; cbn; rewrite ?Hs.
    + lia.
    + apply Forall_app. split; [|apply Forall_singleton; cbn; lia]. apply (Forall_impl _ _ _ Hr). cbn. lia.
    + rewrite fmap_app, NoDup_app. split; [done|]. split; [|apply NoDup_singleton]. intros x (e & -> & He)%list_elem_of_fmap Hx%list_elem_of_singleton.
      rewrite Forall_forall in Hr. specialize (Hr e He). cbn in Hr, Hx. lia.
    + unfold held. cbn. rewrite fmap_app, app_assoc. apply NoDup_app. split; [exact Hh|]. split; [|apply NoDup_singleton]. intros x Hx ->%list_elem_of_singleton. exact (Hnew Hx).
    + unfold held. cbn. rewrite fmap_app, app_assoc, Hd, Hm. apply Forall_app. split; [|apply Forall_singleton; cbn; split; [set_solver|lia]].
      apply (Forall_impl _ _ _ Ho). cbn. intros x [? ?]. split; [set_solver|done].
    + rewrite Hd, Hm. split; [lia|]. split; [lia|]. intros x [Hx| ->%elem_of_singleton]%elem_of_union; [destruct (HF x Hx)|]; lia.
  - exists None. intros k Hk. rewrite bool_decide_false by done. unfold find_fd. rewrite filter_app, filter_cons_False by (cbn; lia). by rewrite filter_nil, app_nil_r.
Qed.

Lemma open_w_fds a s o s' : fds_ok s -> next_fd s < 2 ^ 31 - 1 -> open_w a s = Ok (o, s') -> after s o s'.
Proof.
  intros HI Hlt E. unfold open_w in E.
  apply (after_quiet _ _ _ _ _ _ HI E). intros ok s1 Hs1 HI1 E1. cbn beta in E1. destruct (negb ok); [by apply after_exit|].
  assert (Hlt1 : next_fd s1 < 2 ^ 31 - 1) by (destruct Hs1 as [-> _]; done). clear s HI E Hlt Hs1 ok.
  apply (after_quiet _ _ _ _ _ _ HI1 E1). intros name s2 Hs2 HI2 E2. cbn beta in E2. case_bool_decide; [calls HI2 E2|].
  assert (Hlt2 : next_fd s2 < 2 ^ 31 - 1) by (destruct Hs2 as [-> _]; done). clear s1 HI1 E1 Hlt1 Hs2.
  apply stbind_Ok in E2 as (fp & s3 & E3 & E). unfold on_fs in E3. destruct (filesys_open name (s_fs s2)) as [[fp' f]|] eqn:Eo; [|done].
  injection E3 as <- <-. apply filesys_open_dom in Eo as (Hm & Hn & Hc). destruct (fp' =? 0) eqn:E0.
  - injection E as <- <-. apply after_same; [|done|done]. destruct Hc as [[_ Hd]|[Hlo _]]; [by repeat split|].
    apply Z.eqb_eq in E0. destruct (fo_addr _ HI2). lia.
  - apply Z.eqb_neq in E0. destruct Hc as [[? _]|[Hfp Hd]]; [done|].
    apply stbind_Ok in E as (size & s4 & E4 & E). apply stbind_Ok in E as (ok & s5 & E5 & E). destruct ok; [|discriminate E]. cbn [negb] in E.
    apply stbind_Ok in E as (ok & s6 & E6 & E). destruct ok; [|discriminate E]. cbn [negb] in E.
    apply stbind_Ok in E as (sx & s7 & [= <- <-] & E). apply stbind_Ok in E as (? & s8 & [= _ <-] & [= <- <-]).
    pose proof (same_fds_trans _ _ _ (quiet _ _ _ E4) (same_fds_trans _ _ _ (quiet _ _ _ E5) (quiet _ _ _ E6))) as (Hnf & He & Hl & Hd' & Hn' & Hm').
    cbn in *. rewrite Hnf, Hl.
    destruct (open_step s2 (s_fs s6) fp' size (take 14 name) HI2 Hlt2) as (Hok & ? & ?); [lia|congruence|congruence|].
    split; [|by split]. eapply same_fds_ok; [|exact Hok]. by repeat split.
Qed.

Lemma close_w_fds a s o s' : fds_ok s -> close_w a s = Ok (o, s') -> after s o s'.
Proof.
  intros HI E. unfold close_w in E. apply stbind_Ok in E as (e & s1 & [= <- <-] & E).
  destruct (_ || _); [calls HI E|]. destruct (find_fd (s32 a) (fd_list s)) as [e|] eqn:Ef; [|calls HI E].
  apply stbind_Ok in E as (? & s1 & E1 & E). apply stbind_Ok in E as (? & s2 & [= _ <-] & [= <- <-]).
  unfold on_fs in E1. destruct (file_close (the_file e) (s_fs s)) as [[? f]|] eqn:Ec; [|done]. injection E1 as _ <-.
  assert (Hne : the_file e <> 0).
  { pose proof (held_nonzero s HI) as H. rewrite Forall_forall in H. apply H. unfold held. apply elem_of_app. right.
    apply find_fd_Some in Ef as [He _]. by apply list_elem_of_fmap_2. }
  apply file_close_dom in Ec as (Hd & Hn & Hm); [|done]. by apply (close_step s f (s32 a) e).
Qed.

Lemma handler_fds junk n a1 a2 a3 s o s' : fds_ok s -> next_fd s < 2 ^ 31 - 1 -> handler_table junk n a1 a2 a3 s = Ok (o, s') -> after s o s'.
Proof.
  intros HI Hlt E. unfold handler_table in E.
  repeat (destruct (n =? _) in E; [try (by eapply open_w_fds); try (by eapply close_w_fds)|]); [..|discriminate E].
  all: unfold halt_w, exit_w, exec_w, wait_w, create_w, remove_w, filesize_w, read_w, write_w, seek_w, tell_w in E.
  all: calls HI E.
Qed.
