(* ===== verification/SyscallRw.v ===== *)
(** System calls as a user program sees them: its arguments are words on its
    stack, its buffers are ranges of its address space. *)

From stdpp Require Import base list numbers gmap.
From Stdlib Require Import ZArith Lia.
From S2P Require Import Prelude Bitmap Inode FreeMap Directory Vm PageDir VmSpec VmBoot ByteMem Process LoadSpec StackSpec Syscall SyscallSpec.

#[local] Opaque demo0 demo1 demo2 demo_full.

Section Calls.
Context (D : gset Z).

Lemma with_vm_id s : with_vm s (s_vm s) = s.
Proof. by destruct s. Qed.

(** The kernel runs on behalf of a process of [D]. *)
Definition runs (s : sys) : Prop := vm_inv D (s_vm s) /\ cur_pagedir (s_vm s) ∈ D.

(** The byte the running process sees at an address. *)
Definition sees (s : sys) (va : Z) : option Z := ubyte (s_vm s) (cur_pagedir (s_vm s)) va.

Lemma valid_ptr_Ok s p b : runs s -> 0 <= p < PHYS_BASE -> sees s p = Some b -> valid_ptr p s = Ok (true, s).
Proof.
  intros [HI Hcur] Hp Hb. unfold valid_ptr, is_user_vaddr. rewrite (proj2 (Z.ltb_lt _ _)) by lia.
  erewrite stbind_step by done. erewrite stbind_step by (apply on_vm_Ok, (get_page_translate D); [apply HI|done|done]).
  unfold sees, ubyte in Hb. destruct (translate _ _ p) as [[q w]|] eqn:Et; [|done].
  destruct (user_frame D _ _ p q w HI Hcur Hp Et) as (k & _ & _ & [Hq _] & _). rewrite with_vm_id.
  rewrite (proj2 (Z.eqb_neq _ 0)); [done|]. pose proof (Z.mod_pos_bound p 4096). unfold PHYS_BASE in *. lia.
Qed.

Lemma load_mem s va bs : runs s -> 0 <= va -> va + Z.of_nat (length bs) <= PHYS_BASE -> mem_at (s_vm s) (cur_pagedir (s_vm s)) va bs ->
  on_vm (load_bytes (length bs) va) s = Ok (bs, s).
Proof.
  intros [HI Hcur] Hva Hend Hm. destruct (load_bytes_Ok D (length bs) (s_vm s) va HI Hcur Hva Hend) as (l & E & Hl & Hb).
  { intros i Hi. rewrite Hm by done. apply lookup_lt_is_Some_2. lia. }
  erewrite on_vm_Ok by exact E. rewrite with_vm_id. do 2 f_equal. apply list_eq. intros j. destruct (decide (j < length bs)%nat).
  - rewrite <- (Nat2Z.id j), Hb, Hm by lia. done.
  - rewrite !lookup_ge_None_2 by lia. done.
Qed.

Lemma load_u32_Ok s va w : runs s -> 0 <= va -> va + 4 <= PHYS_BASE -> is_u32 w ->
  mem_at (s_vm s) (cur_pagedir (s_vm s)) va (le_bytes w) -> load_u32 va s = Ok (w, s).
Proof.
  intros HR Hva Hend Hw Hm. unfold load_u32. erewrite stbind_step by (by apply (load_mem s va (le_bytes w))). by rewrite le_word_le_bytes.
Qed.

(** At [esp] the program has put a call number and three arguments. *)
Definition call_at (s : sys) (esp n a1 a2 a3 : Z) : Prop :=
  0 < esp /\ esp + 16 <= PHYS_BASE /\ Forall is_u32 [n; a1; a2; a3] /\
  mem_at (s_vm s) (cur_pagedir (s_vm s)) esp (le_bytes n ++ le_bytes a1 ++ le_bytes a2 ++ le_bytes a3).

Lemma syscall_dispatch junk s esp n a1 a2 a3 : runs s -> call_at s esp n a1 a2 a3 ->
  syscall_handler junk esp s = (if SYSCALL_UPPER <? n then thread_exit else handler_table junk n a1 a2 a3) s.
Proof.
  intros HR (Hesp & Hend & HF & Hm). apply Forall_cons_1 in HF as [Hn HF]. apply Forall_cons_1 in HF as [H1 HF].
  apply Forall_cons_1 in HF as [H2 HF]. apply Forall_cons_1 in HF as [H3 _].
  apply mem_at_app in Hm as [Hm0 Hm]. apply mem_at_app in Hm as [Hm1 Hm]. apply mem_at_app in Hm as [Hm2 Hm3].
  change (Z.of_nat (length (le_bytes _))) with 4 in *.
  assert (Hb : exists b, sees s esp = Some b). { specialize (Hm0 0 ltac:(cbn; lia)). rewrite Z.add_0_r in Hm0. unfold sees. rewrite Hm0. cbn. by eexists. }
  destruct Hb as [b Hb]. unfold syscall_handler, is_kernel_vaddr, is_user_vaddr.
  rewrite (proj2 (Z.eqb_neq esp 0)), (proj2 (Z.leb_gt PHYS_BASE esp)) by lia. cbn [orb].
  erewrite stbind_step by (apply (valid_ptr_Ok s esp b); [done|lia|done]). cbn [negb].
  erewrite stbind_step by (by apply (load_u32_Ok s esp n); [done|lia|lia|..]).
  destruct (SYSCALL_UPPER <? n); [done|]. rewrite !u32_small by (unfold is_u32, PHYS_BASE in *; lia).
  erewrite stbind_step by (apply (load_u32_Ok s _ a1); [done|lia|lia|done|done]).
  erewrite stbind_step by (apply (load_u32_Ok s _ a2); [done|lia|lia|done|]; by replace (esp + 8) with (esp + 4 + 4) by lia).
  erewrite stbind_step by (apply (load_u32_Ok s _ a3); [done|lia|lia|done|]; by replace (esp + 12) with (esp + 4 + 4 + 4) by lia).
  done.
Qed.

(** A descriptor that names an open file. *)
Definition names (s : sys) (n : Z) (e : fd_elem) : Prop := 2 <= n < next_fd s /\ next_fd s < 2 ^ 31 /\ find_fd n (fd_list s) = Some e.

Lemma lookup_fd_names s n e : names s n e -> lookup_fd (s32 n) s = Ok (Some e, s).
Proof.
  intros (Hn & Hmax & Hf). rewrite s32_small by (unfold is_s32; lia). rewrite lookup_fd_Ok.
  rewrite (proj2 (Z.ltb_ge n 2)), (proj2 (Z.leb_gt (next_fd s) n)) by lia. cbn [orb]. by rewrite Hf.
Qed.

(** File [fp] is open on inode [i], at position [pos]. *)
Definition at_inode (s : fs) (fp : Z) (i : inode) (pos : Z) : Prop :=
  exists ip dw, files s !! fp = Some (MkFile ip pos dw) /\ inodes s !! ip = Some i /\ inode_ok s i.

(** *** read *)

Lemma take_avail s i size pos : inode_ok s i -> 0 <= pos ->
  take (Z.to_nat size) (drop (Z.to_nat pos) (contents s i)) = take (avail i size pos) (drop (Z.to_nat pos) (contents s i)).
Proof.
  intros Hok Hpos. pose proof (length_contents s i Hok). unfold avail. destruct (decide (size <= length_ (data i) - pos)).
  - by rewrite Z.min_l by lia.
  - rewrite !take_ge; [done|rewrite length_drop; lia..].
Qed.

Lemma take_prefix_take {A} k n (l : list A) : (k <= n)%nat -> take k l `prefix_of` take n l.
Proof. intros H. exists (drop k (take n l)). rewrite <- (take_drop k (take n l)) at 1. f_equal. rewrite take_take. f_equal. lia. Qed.

Lemma file_read_at s fp i pos size : at_inode s fp i pos -> 0 <= pos < 2 ^ 31 ->
  exists k s', let bs := take k (drop (Z.to_nat pos) (contents s i)) in
    file_read fp size s = Ok (bs, s') /\ at_inode s' fp i (pos + Z.of_nat (length bs)) /\ dev s' = dev s /\ inodes s' = inodes s /\
    (k <= Z.to_nat size)%nat /\ (mallocs_ok s -> k = avail i size pos).
Proof.
  intros (ip & dw & Hf & Hi & Hok) Hpos.
  destruct (inode_read_at_spec s ip i size pos Hi Hok) as (k & m & E & Hk & Hm); [lia|unfold is_s32; lia|].
  pose proof (length_contents s i Hok) as Hl. destruct (Hok) as (_ & _ & [_ Hmax] & _).
  exists k. eexists. cbn zeta. split.
  { unfold file_read. erewrite stbind_step by (by apply get_file_Ok). erewrite stbind_step by exact E. erewrite stbind_step by apply set_file_Ok. done. }
  split; [|split_and!; [done|done|unfold avail in Hk; lia|intros Hmo; by apply Hm]].
  exists ip, dw. cbn. rewrite lookup_insert_eq. split; [|done]. do 2 f_equal. rewrite s32_small; [done|].
  unfold is_s32. rewrite length_take, length_drop. unfold avail in Hk. lia.
Qed.

Lemma read_w_Ok s n buf size e i pos :
  runs s -> names s n e -> at_inode (s_fs s) (the_file e) i pos -> Forall is_u8 (contents (s_fs s) i) -> 0 <= pos < 2 ^ 31 ->
  0 <= buf -> buf + Z.max 1 (s32 size) <= PHYS_BASE ->
  (forall k, 0 <= k < Z.max 1 (s32 size) -> exists p, translate (s_vm s) (cur_pagedir (s_vm s)) (buf + k) = Some (p, true)) ->
  exists k m' f', let bs := take k (drop (Z.to_nat pos) (contents (s_fs s) i)) in
    read_w n buf size s = Ok (Ret (Z.of_nat (length bs)), with_vm (with_fs s f') m') /\
    vm_inv D m' /\ uframe D (s_vm s) m' /\ at_inode f' (the_file e) i (pos + Z.of_nat (length bs)) /\ dev f' = dev (s_fs s) /\ inodes f' = inodes (s_fs s) /\
    (k <= Z.to_nat (s32 size))%nat /\ (mallocs_ok (s_fs s) -> k = avail i (s32 size) pos) /\
    forall pd va, pd ∈ D -> 0 <= va < PHYS_BASE ->
      ubyte m' pd va = if bool_decide (pd = cur_pagedir (s_vm s) /\ buf <= va < buf + Z.of_nat (length bs)) then bs !! Z.to_nat (va - buf)
                       else ubyte (s_vm s) pd va.
Proof.
  intros HR Hn Hrd Hu Hpos Hbuf Hend Hmap. destruct HR as [HI Hcur].
  assert (Hv : exists b, sees s buf = Some b).
  { destruct (Hmap 0 ltac:(lia)) as [p Hp]. rewrite Z.add_0_r in Hp.
    destruct (user_frame D _ _ buf p true HI Hcur ltac:(lia) Hp) as (k & _ & _ & _ & Hfull). unfold sees, ubyte. rewrite Hp.
    unfold pbyte. destruct (full_word _ _ (buf mod 4096 / 4) Hfull) as [x Hx]; [pose proof (Z.mod_pos_bound buf 4096); Z.to_euclidean_division_equations; lia|].
    rewrite Hx. by eexists. }
  destruct Hv as [b Hv]. destruct (file_read_at (s_fs s) (the_file e) i pos (s32 size) Hrd Hpos) as (k & f' & Ef & Hrd' & Hdev & Hino & Hk & Hm). cbn zeta in *.
  set (bs := take k (drop (Z.to_nat pos) (contents (s_fs s) i))) in *.
  assert (Hlen : Z.of_nat (length bs) <= Z.max 0 (s32 size)) by (unfold bs; rewrite length_take; lia).
  destruct (store_bytes_Ok D bs (s_vm s) buf HI Hcur Hbuf) as (m' & Em & HI' & Hf & Hb); [lia| | |].
  { unfold bs. by apply Forall_take, Forall_drop. }
  { intros j Hj. apply Hmap. lia. }
  exists k, m', f'. fold bs. split; [|done].
  unfold read_w. erewrite stbind_step by (apply (valid_ptr_Ok s buf b); [by split|lia|done]). cbn [negb].
  rewrite (proj2 (Z.eqb_neq (s32 n) 0)) by (rewrite s32_small by (unfold is_s32; destruct Hn; lia); destruct Hn; lia).
  erewrite stbind_step by (by apply lookup_fd_names). cbn beta iota.
  erewrite stbind_step by (by apply on_fs_Ok). erewrite stbind_step by (by apply on_vm_Ok).
  rewrite u32_small by (unfold is_u32, PHYS_BASE in *; lia). done.
Qed.

(** *** write *)

(** The bytes that a write takes from the buffer. *)
Definition takes (i : inode) (size pos : Z) : nat := if bool_decide (deny_write_cnt i = 0) then avail i size pos else 0%nat.

Lemma write_avail_Ok s fp i pos size : at_inode s fp i pos -> write_avail fp size s = Ok (Z.of_nat (takes i size pos), s).
Proof.
  intros (ip & dw & Hf & Hi & _). unfold write_avail. erewrite stbind_step by (by apply get_file_Ok). erewrite stbind_step by (by apply get_inode_Ok).
  unfold takes. case_bool_decide as Hd; [rewrite Hd; change (0 =? 0) with true|rewrite (proj2 (Z.eqb_neq _ 0) Hd)]; cbn [negb]; [|done].
  unfold avail, inode_length, mret, stM_ret. cbn [f_pos]. do 2 f_equal. lia.
Qed.

Lemma file_write_at s fp i pos size buffer : at_inode s fp i pos -> 0 <= pos < 2 ^ 31 -> length buffer = takes i size pos ->
  exists k s', file_write fp buffer size s = Ok (Z.of_nat k, s') /\ at_inode s' fp i (pos + Z.of_nat k) /\
    contents s' i = list_inserts (Z.to_nat pos) (take k buffer) (contents s i) /\ (k <= length buffer)%nat /\
    (if bool_decide (deny_write_cnt i = 0) then mallocs_ok s -> k = length buffer else s' = s) /\
    forall j, inode_ok s j -> disjoint_data i j -> contents s' j = contents s j.
Proof.
  intros (ip & dw & Hf & Hi & Hok) Hpos Hb. unfold takes in Hb. case_bool_decide as Hd.
  2: { exists 0%nat, s. split.
    { unfold file_write. erewrite stbind_step by (by apply get_file_Ok). cbn [f_inode f_pos f_deny_write].
      erewrite stbind_step by (by apply (inode_write_denied s ip i)). erewrite stbind_step by apply set_file_Ok.
      rewrite Z.add_0_r, s32_small, insert_id by (done || unfold is_s32; lia). by destruct s. }
    rewrite Z.add_0_r. split; [by exists ip, dw|]. split_and!; try done; lia. }
  destruct (inode_write_at_spec s ip i buffer size pos Hi Hok) as (k & s1 & E & HW & Hk & Hm); [lia|unfold is_s32; lia|lia|done|].
  assert (Hl : length (take k buffer) = k) by (rewrite length_take; lia).
  assert (Hav : (k <= avail i (Z.of_nat k) pos)%nat) by (unfold avail in *; lia).
  assert (Hmax : pos + Z.of_nat k < 2 ^ 31).
  { destruct Hok as (_ & _ & [_ ?] & _). unfold avail in Hk. lia. }
  exists k. eexists. split.
  { unfold file_write. erewrite stbind_step by (by apply get_file_Ok). erewrite stbind_step by exact E.
    erewrite stbind_step by apply set_file_Ok. done. }
  pose proof (inode_ok_written _ _ _ _ _ HW Hok) as Hok1. split; [|split_and!; [|lia|by rewrite Hb|]].
  - exists ip, dw. cbn. rewrite lookup_insert_eq, s32_small by (unfold is_s32; lia). destruct HW as (mm & Es & _).
    split; [done|]. split; [by rewrite Es|done].
  - change (contents (with_files s1 _) i) with (contents s1 i). by apply (contents_written s s1 i k); [done|lia|..].
  - intros j Hj Hdis. change (contents (with_files s1 _) j) with (contents s1 j). by apply (contents_other s s1 i j k pos (take k buffer)); [..|lia|done|done|done|done].
Qed.

Lemma write_w_Ok s n buf size e i pos data :
  runs s -> names s n e -> at_inode (s_fs s) (the_file e) i pos -> 0 <= pos < 2 ^ 31 ->
  Z.of_nat (length data) = Z.max 1 (s32 size) -> 0 <= buf -> buf + Z.of_nat (length data) <= PHYS_BASE -> mem_at (s_vm s) (cur_pagedir (s_vm s)) buf data ->
  exists k f', write_w n buf size s = Ok (Ret (Z.of_nat k), with_fs s f') /\ at_inode f' (the_file e) i (pos + Z.of_nat k) /\
    contents f' i = list_inserts (Z.to_nat pos) (take k data) (contents (s_fs s) i) /\ (k <= avail i (s32 size) pos)%nat /\
    (if bool_decide (deny_write_cnt i = 0) then mallocs_ok (s_fs s) -> k = avail i (s32 size) pos else k = 0%nat /\ f' = s_fs s) /\
    forall j, inode_ok (s_fs s) j -> disjoint_data i j -> contents f' j = contents (s_fs s) j.
Proof.
  intros HR Hn Hw Hpos Hlen Hbuf Hend Hm. set (t := takes i (s32 size) pos). set (bs := take t data).
  assert (Ht : (t <= avail i (s32 size) pos)%nat) by (unfold t, takes; case_bool_decide; lia).
  assert (Hbs : length bs = t) by (unfold bs; rewrite length_take; unfold avail in Ht; lia).
  assert (Hv : exists b, sees s buf = Some b).
  { specialize (Hm 0 ltac:(lia)). rewrite Z.add_0_r in Hm. unfold sees. rewrite Hm. apply lookup_lt_is_Some_2. lia. }
  assert (Hm' : mem_at (s_vm s) (cur_pagedir (s_vm s)) buf bs).
  { intros k Hk. rewrite Hm by (rewrite Hbs in Hk; unfold avail in Ht; lia). unfold bs. by rewrite lookup_take_lt by lia. }
  destruct (file_write_at (s_fs s) (the_file e) i pos (s32 size) bs Hw Hpos Hbs) as (k & f' & Ef & Hw' & Hc & Hk & Hd & Ho).
  exists k, f'. unfold bs in Hc. rewrite take_take, Nat.min_l in Hc by lia. split; [|split_and!; [done|done|lia| |done]].
  2: { unfold t, takes in *. case_bool_decide; [rewrite <- Hbs; done|]. split; [lia|done]. }
  destruct Hv as [b Hv]. unfold write_w. erewrite stbind_step by (apply (valid_ptr_Ok s buf b); [done|lia|done]). cbn [negb].
  rewrite (proj2 (Z.eqb_neq (s32 n) 1)) by (rewrite s32_small by (unfold is_s32; destruct Hn; lia); destruct Hn; lia).
  erewrite stbind_step by (by apply lookup_fd_names). cbn beta iota.
  erewrite stbind_step by (apply on_fs_Ok; by apply write_avail_Ok). fold t. rewrite Nat2Z.id, <- Hbs.
  assert (Hid : with_fs s (s_fs s) = s) by (by destruct s). rewrite Hid.
  erewrite stbind_step by (apply load_mem; [done|done|rewrite Hbs; unfold avail in Ht; lia|done]).
  assert (Hfit : Z.of_nat t <= Z.max 0 (s32 size)) by (unfold avail in Ht; lia).
  erewrite stbind_step by (by apply on_fs_Ok). rewrite u32_small; [done|unfold is_u32, PHYS_BASE in *; lia].
Qed.

End Calls.

(** ** A process that makes a call *)

Definition demo_stack : vm := match setup_stack demo_argv demo_sys with Ok (_, s) => s_vm s | Err _ => demo1 end.
Definition demo_esp : Z := final_esp demo_argv - 16.

(** The process has the file of 600 bytes open as descriptor 2 and the words of
    a call on its stack. *)
Definition demo_call (n a1 a2 a3 : Z) : sys :=
  let m := match store_bytes demo_esp (le_bytes n ++ le_bytes a1 ++ le_bytes a2 ++ le_bytes a3) demo_stack with Ok (_, m) => m | Err _ => demo1 end in
  MkSys m demo_fs [112; 114; 111; 103] 3 0 [MkFd 2 600 [102] 2] true (-2) [] [].

Lemma demo_stack_inv : exists S, stack_inv demo_dirs demo_stack (final_esp demo_argv) S.
Proof.
  destruct (setup_stack_spec demo_dirs demo_sys demo_argv) as (m' & esp & ptrs & pad & E & He & HS & _).
  - exact demo1_inv.
  - apply elem_of_union_l, elem_of_singleton_2. reflexivity.
  - vm_compute. reflexivity.
  - apply demo_stack_room. intros H _. exact H.
  - apply demo_stack_room. intros _ H. exact H.
  - vm_compute. discriminate.
  - repeat constructor; vm_compute; congruence.
  - vm_compute. discriminate.
  - assert (Hm : demo_stack = m') by (unfold demo_stack; rewrite E; reflexivity). rewrite Hm. subst esp. eexists. exact HS.
Qed.

Lemma demo_call_Ok n a1 a2 a3 : Forall is_u32 [n; a1; a2; a3] ->
  runs demo_dirs (demo_call n a1 a2 a3) /\ call_at (demo_call n a1 a2 a3) demo_esp n a1 a2 a3 /\
  exists p, forall va, STACK <= va < PHYS_BASE -> translate (s_vm (demo_call n a1 a2 a3)) (cur_pagedir (s_vm (demo_call n a1 a2 a3))) va = Some (p, true).
Proof.
  intros HF. destruct demo_stack_inv as [S HS].
  set (bs := le_bytes n ++ le_bytes a1 ++ le_bytes a2 ++ le_bytes a3).
  assert (Hu : Forall is_u8 bs) by (unfold bs; rewrite !Forall_app; split_and!; apply le_bytes_u8).
  destruct (push_Ok demo_dirs demo_stack (final_esp demo_argv) S bs HS) as (m & E & HS' & _); [vm_compute; discriminate|exact Hu|].
  change (final_esp demo_argv - Z.of_nat (length bs)) with demo_esp in E, HS'.
  assert (Hm : s_vm (demo_call n a1 a2 a3) = m) by (unfold demo_call; fold bs; rewrite E; reflexivity).
  unfold runs, call_at. rewrite Hm. split; [split; apply HS'|]. split; [|apply HS'].
  split; [vm_compute; reflexivity|]. split; [vm_compute; discriminate|]. split; [exact HF|].
  pose proof (si_mem _ _ _ _ HS') as Hmem. apply mem_at_app in Hmem as [Hmem _]. exact Hmem.
Qed.
#[local] Opaque demo_stack demo_call.

Lemma demo_fds n a1 a2 a3 : fds_ok (demo_call n a1 a2 a3).
Proof.
  Transparent demo_call. constructor; unfold held; cbn -[demo_fs].
  - lia.
  - repeat constructor; cbn; lia.
  - apply NoDup_singleton.
  - apply NoDup_singleton.
  - apply Forall_singleton. split; [apply elem_of_dom; by eexists|done].
  - split; [done|]. split; [done|]. cbn. rewrite dom_singleton_L. intros x ->%elem_of_singleton. lia.
  Opaque demo_call.
Qed.

Lemma demo_names n a1 a2 a3 : names (demo_call n a1 a2 a3) 2 (MkFd 2 600 [102] 2).
Proof. Transparent demo_call. split; [cbn; lia|]. split; [cbn; lia|]. reflexivity. Opaque demo_call. Qed.

Lemma demo_on n a1 a2 a3 : s_fs (demo_call n a1 a2 a3) = demo_fs.
Proof. Transparent demo_call. reflexivity. Opaque demo_call. Qed.

Lemma demo_at n a1 a2 a3 : at_inode (s_fs (demo_call n a1 a2 a3)) 2 sample_inode 0.
Proof.
  rewrite demo_on. exists 1, false. split; [reflexivity|]. split; [reflexivity|].
  split; [split; [by repeat constructor|done]|]. cbn. unfold is_s32. lia.
Qed.

Lemma demo_mallocs n a1 a2 a3 : mallocs_ok (s_fs (demo_call n a1 a2 a3)).
Proof. rewrite demo_on. constructor. Qed.

(** ** Properties of the system calls *)

(** C8. The table of open files survives every system call.  Descriptors are
    distinct numbers from 2 on that name distinct open files, none of them the
    free map's or the running executable's; a call that returns keeps this (as
    long as fewer than 2^31 - 3 descriptors have been given out), gives out a new
    number at most, and every number given out before names the same open file
    as before, or none if it named none, but for one number at most, that of
    the file that was closed, which names none any more; a call that ends the
    process closes exactly the files it held. *)
Theorem syscall_descriptors junk esp s o s' :
  fds_ok s -> next_fd s < 2 ^ 31 - 1 -> syscall_handler junk esp s = Ok (o, s') ->
  match o with
  | Exited => fd_list s' = [] /\ dom (files (s_fs s')) = dom (files (s_fs s)) ∖ list_to_set (held s)
  | _ => fds_ok s' /\ next_fd s <= next_fd s' <= next_fd s + 1 /\
         exists closed : option Z, forall n, n < next_fd s -> find_fd n (fd_list s') = if bool_decide (closed = Some n) then None else find_fd n (fd_list s)
  end.
Proof.
  intros HI Hlt E. change (after s o s'). unfold syscall_handler in E.
  assert (Q : Quiet (if (esp =? 0) || is_kernel_vaddr esp then mret false else valid_ptr esp : stM sys bool)) by apply _.
  apply (after_quiet _ _ _ _ _ _ HI E). clear E. intros ok s1 [Hn1 _] HI1 E. cbn beta in E. destruct (negb ok); [by apply after_exit|].
  apply (after_quiet _ _ _ _ _ _ HI1 E). clear E. intros n s2 [Hn2 _] HI2 E. cbn beta in E. destruct (_ <? n); [by apply after_exit|].
  apply (after_quiet _ _ _ _ _ _ HI2 E). clear E. intros a1 s3 [Hn3 _] HI3 E. cbn beta in E.
  apply (after_quiet _ _ _ _ _ _ HI3 E). clear E. intros a2 s4 [Hn4 _] HI4 E. cbn beta in E.
  apply (after_quiet _ _ _ _ _ _ HI4 E). clear E. intros a3 s5 [Hn5 _] HI5 E. cbn beta in E.
  apply (handler_fds junk n a1 a2 a3 s5 o s' HI5); [lia|done].
Qed.

(** close(2). *)
Lemma syscall_descriptors_witness :
  exists s', syscall_handler [] demo_esp (demo_call 12 2 0 0) = Ok (Ret 0, s') /\ fds_ok s' /\ find_fd 2 (fd_list s') = None.
Proof.
  destruct (demo_call_Ok 12 2 0 0) as (HR & Hc & _); [repeat constructor; vm_compute; congruence|].
  assert (E : exists s', syscall_handler [] demo_esp (demo_call 12 2 0 0) = Ok (Ret 0, s') /\ fd_list s' = []).
  { rewrite (syscall_dispatch demo_dirs [] _ _ _ _ _ _ HR Hc). cbn -[close_w]. unfold close_w.
    erewrite stbind_step by (exact (lookup_fd_names _ 2 _ (demo_names 12 2 0 0))). cbn beta iota.
    Transparent demo_call. eexists. split; reflexivity. Opaque demo_call. }
  destruct E as (s' & E & Hl). exists s'. split; [exact E|].
  destruct (syscall_descriptors [] demo_esp (demo_call 12 2 0 0) (Ret 0) s' (demo_fds 12 2 0 0) eq_refl E) as (Hok & _). split; [exact Hok|].
  rewrite Hl. reflexivity.
Defined.

(** C19. The read system call: a program that calls read with an open
    descriptor, not beyond position 2^31, and a buffer it may write to, finds
    there a prefix of the bytes of the file from the current position on: as
    many as asked for and as exist when the allocation of the bounce buffer
    does not fail, and fewer otherwise.  A size of 2^31 or more is taken for a
    negative one, and nothing is read.  The number of bytes is the result, the
    position advances by it, and neither the files nor any other byte of any
    process changes. *)
Theorem syscall_read_correct D junk s esp n buf size e i pos :
  runs D s -> call_at s esp 8 n buf size -> names s n e -> at_inode (s_fs s) (the_file e) i pos -> Forall is_u8 (contents (s_fs s) i) ->
  0 <= pos < 2 ^ 31 -> buf + Z.max 1 (s32 size) <= PHYS_BASE ->
  (forall k, 0 <= k < Z.max 1 (s32 size) -> exists p, translate (s_vm s) (cur_pagedir (s_vm s)) (buf + k) = Some (p, true)) ->
  exists bs s', syscall_handler junk esp s = Ok (Ret (Z.of_nat (length bs)), s') /\ runs D s' /\
    bs `prefix_of` take (Z.to_nat (s32 size)) (drop (Z.to_nat pos) (contents (s_fs s) i)) /\
    (mallocs_ok (s_fs s) -> bs = take (Z.to_nat (s32 size)) (drop (Z.to_nat pos) (contents (s_fs s) i))) /\
    at_inode (s_fs s') (the_file e) i (pos + Z.of_nat (length bs)) /\ mem_at (s_vm s') (cur_pagedir (s_vm s)) buf bs /\
    dev (s_fs s') = dev (s_fs s) /\ inodes (s_fs s') = inodes (s_fs s) /\
    (forall pd va, pd ∈ D -> 0 <= va < PHYS_BASE -> ~ (pd = cur_pagedir (s_vm s) /\ buf <= va < buf + Z.of_nat (length bs)) ->
      ubyte (s_vm s') pd va = ubyte (s_vm s) pd va).
Proof.
  intros HR Hc Hn Hrd Hu Hpos Hend Hmap. rewrite (syscall_dispatch D junk s esp _ _ _ _ HR Hc). pose proof Hc as (_ & _ & HF & _).
  assert (Hb0 : is_u32 buf) by (rewrite !Forall_cons in HF; tauto). destruct Hb0 as [Hb0 _].
  destruct (read_w_Ok D s n buf size e i pos HR Hn Hrd Hu Hpos Hb0 Hend Hmap) as (k & m' & f' & E & HI' & Hf & Hrd' & Hdev & Hino & Hk & Hm & Hby). cbn zeta in *.
  set (bs := take k (drop (Z.to_nat pos) (contents (s_fs s) i))) in *.
  assert (Hlen : Z.of_nat (length bs) <= Z.max 0 (s32 size)) by (unfold bs; rewrite length_take; lia).
  exists bs, (with_vm (with_fs s f') m'). split; [exact E|]. split; [split; [done|cbn; rewrite (uframe_cur D _ _ Hf); apply HR]|].
  split; [by apply take_prefix_take|]. split; [intros Hmo; rewrite (take_avail (s_fs s) i) by (lia || by destruct Hrd as (? & ? & _ & _ & ?)); unfold bs; by rewrite Hm|].
  split; [done|]. split.
  - intros j Hj. cbn. rewrite Hby, bool_decide_true by (apply HR || lia). f_equal. lia.
  - split; [done|]. split; [done|]. intros pd va Hpd Hva Hne. cbn. by rewrite Hby, bool_decide_false.
Qed.

(** read(2, STACK, 700) gets the 600 bytes of the file. *)
Lemma syscall_read_correct_witness :
  exists s', syscall_handler [] demo_esp (demo_call 8 2 STACK 700) = Ok (Ret 600, s') /\
    mem_at (s_vm s') (cur_pagedir (s_vm (demo_call 8 2 STACK 700))) STACK demo_contents.
Proof.
  destruct (demo_call_Ok 8 2 STACK 700) as (HR & Hc & [p Hmap]); [repeat constructor; vm_compute; congruence|].
  assert (Hb : take (Z.to_nat (s32 700)) (drop (Z.to_nat 0) (contents demo_fs sample_inode)) = demo_contents) by (vm_compute; reflexivity).
  assert (Hl : Z.of_nat (length demo_contents) = 600) by (vm_compute; reflexivity).
  destruct (syscall_read_correct demo_dirs [] (demo_call 8 2 STACK 700) demo_esp 2 STACK 700 (MkFd 2 600 [102] 2) sample_inode 0) as (bs & s' & E & _ & _ & Hbs & _ & Hm & _).
  - exact HR.
  - exact Hc.
  - apply demo_names.
  - exact (demo_at 8 2 STACK 700).
  - exact demo_u8.
  - lia.
  - vm_compute. discriminate.
  - intros k Hk. change (s32 700) with 700 in Hk. exists p. apply Hmap. unfold STACK in *. lia.
  - specialize (Hbs (demo_mallocs 8 2 STACK 700)). exists s'. rewrite (demo_on 8 2 STACK 700), Hb in Hbs. rewrite Hbs in E, Hm. rewrite Hl in E. split; [exact E|exact Hm].
Defined.

(** C20. The write system call: a program calls write with an open
    descriptor, not beyond position 2^31, and a buffer it may read.  If writes
    to the file are denied, because it is a running program, the result is 0
    and nothing changes.  Otherwise a prefix of the bytes of the buffer is in
    the file from the current position on: up to the end of the file, which
    does not grow, when the allocation of the bounce buffer does not fail, and
    fewer otherwise.  A size of 2^31 or more is taken for a negative one, and
    nothing is written.  The number of bytes written is the result, the position
    advances by it, no byte of memory changes and neither does any file whose
    data is elsewhere. *)
Theorem syscall_write_correct D junk s esp n buf size e i pos data :
  runs D s -> call_at s esp 9 n buf size -> names s n e -> at_inode (s_fs s) (the_file e) i pos ->
  0 <= pos < 2 ^ 31 -> Z.of_nat (length data) = Z.max 1 (s32 size) -> buf + Z.of_nat (length data) <= PHYS_BASE ->
  mem_at (s_vm s) (cur_pagedir (s_vm s)) buf data ->
  exists k f', syscall_handler junk esp s = Ok (Ret (Z.of_nat k), with_fs s f') /\
    at_inode f' (the_file e) i (pos + Z.of_nat k) /\
    contents f' i = list_inserts (Z.to_nat pos) (take k data) (contents (s_fs s) i) /\ (k <= avail i (s32 size) pos)%nat /\
    (if bool_decide (deny_write_cnt i = 0) then mallocs_ok (s_fs s) -> k = avail i (s32 size) pos else k = 0%nat /\ f' = s_fs s) /\
    (forall j, inode_ok (s_fs s) j -> disjoint_data i j -> contents f' j = contents (s_fs s) j).
Proof.
  intros HR Hc Hn Hw Hpos Hlen Hend Hm. rewrite (syscall_dispatch D junk s esp _ _ _ _ HR Hc). pose proof Hc as (_ & _ & HF & _).
  assert (Hb0 : is_u32 buf) by (rewrite !Forall_cons in HF; tauto). destruct Hb0 as [Hb0 _].
  exact (write_w_Ok D s n buf size e i pos data HR Hn Hw Hpos Hlen Hb0 Hend Hm).
Qed.

(** write(2, esp, 16) copies the words of the call itself to the file. *)
Lemma syscall_write_correct_witness :
  exists f', syscall_handler [] demo_esp (demo_call 9 2 demo_esp 16) = Ok (Ret 16, with_fs (demo_call 9 2 demo_esp 16) f') /\
    contents f' sample_inode = le_bytes 9 ++ le_bytes 2 ++ le_bytes demo_esp ++ le_bytes 16 ++ drop 16 demo_contents.
Proof.
  destruct (demo_call_Ok 9 2 demo_esp 16) as (HR & Hc & _); [repeat constructor; vm_compute; congruence|].
  set (bs := le_bytes 9 ++ le_bytes 2 ++ le_bytes demo_esp ++ le_bytes 16).
  destruct (syscall_write_correct demo_dirs [] (demo_call 9 2 demo_esp 16) demo_esp 2 demo_esp 16 (MkFd 2 600 [102] 2) sample_inode 0 bs) as (k & f' & E & _ & Hcon & _ & Hk & _).
  - exact HR.
  - exact Hc.
  - apply demo_names.
  - exact (demo_at 9 2 demo_esp 16).
  - lia.
  - vm_compute. reflexivity.
  - vm_compute. discriminate.
  - apply Hc.
  - specialize (Hk (demo_mallocs 9 2 demo_esp 16)). change (avail sample_inode (s32 16) 0) with 16%nat in Hk. rewrite Hk in E, Hcon. rewrite (demo_on 9 2 demo_esp 16) in Hcon.
    exists f'. split; [exact E|]. rewrite Hcon. vm_compute. reflexivity.
Defined.

(** A program can crash the kernel with one call: the handler table holds
    a null pointer for the call numbers 13 to 19, which the handler calls, and
    a seek to a position of 2^31 or more fails an assertion of file_seek. *)
Theorem syscall_crashes D junk s esp n a1 a2 a3 :
  runs D s -> call_at s esp n a1 a2 a3 ->
  (13 <= n <= 19 -> syscall_handler junk esp s = Err EFault) /\
  (forall e, n = 10 -> names s a1 e -> the_file e <> 0 -> 2 ^ 31 <= a2 -> syscall_handler junk esp s = Err EAssert).
Proof.
  intros HR Hc. rewrite (syscall_dispatch D junk s esp n a1 a2 a3 HR Hc). split.
  - intros Hn. unfold SYSCALL_UPPER, handler_table. rewrite (proj2 (Z.ltb_ge 19 n)) by lia.
    repeat (rewrite (proj2 (Z.eqb_neq n _)) by lia). done.
  - intros e -> Hn Hf Ha2. destruct Hc as (_ & _ & HF & _). rewrite !Forall_cons in HF. destruct HF as (_ & _ & [_ Hmax] & _).
    change (seek_w a1 a2 s = Err EAssert). unfold seek_w. erewrite stbind_step by (by apply lookup_fd_names). cbn beta iota.
    apply stbind_err. unfold on_fs, file_seek. rewrite (proj2 (Z.eqb_neq _ 0) Hf). erewrite stbind_step by done.
    erewrite stbind_err; [done|]. unfold assertM. rewrite (proj2 (Z.leb_gt 0 (s32 a2))); [done|].
    unfold s32. replace (a2 + 2 ^ 31) with (a2 - 2 ^ 31 + 1 * 2 ^ 32) by lia. rewrite Z.mod_add, Z.mod_small by lia. lia.
Qed.

(** mmap and seek(2, -1). *)
Lemma syscall_crashes_witness :
  syscall_handler [] demo_esp (demo_call 13 0 0 0) = Err EFault /\
  syscall_handler [] demo_esp (demo_call 10 2 (2 ^ 32 - 1) 0) = Err EAssert.
Proof.
  split.
  - destruct (demo_call_Ok 13 0 0 0) as (HR & Hc & _); [repeat constructor; vm_compute; congruence|].
    apply (syscall_crashes demo_dirs [] _ demo_esp 13 0 0 0 HR Hc). lia.
  - destruct (demo_call_Ok 10 2 (2 ^ 32 - 1) 0) as (HR & Hc & _); [repeat constructor; vm_compute; congruence|].
    apply (proj2 (syscall_crashes demo_dirs [] _ demo_esp 10 2 (2 ^ 32 - 1) 0 HR Hc) (MkFd 2 600 [102] 2) eq_refl); [apply demo_names|discriminate|lia].
Defined.
