(* ===== verification/Malloc.v ===== *)
(** The block allocator (threads/malloc.c).

    The allocator sees the page allocator through an interface, the class
    [PageAlloc]; PallocLaws shows that palloc.c implements it.  Arena headers
    are kept by the address of their page.  A free list is the list of the
    addresses of its blocks; its links are inside the free blocks, whose first
    two words are therefore unknown.  A byte that [bytes] does not give is
    unknown.  The locks of the descriptors are not represented. *)

From stdpp Require Import base list numbers gmap.
From Stdlib Require Import ZArith Lia.
From S2P Require Import Prelude Bitmap Vm.
Open Scope Z_scope.

(** ** Interface to the page allocator *)

Class PageAlloc (P : Type) := {
  get_multiple : Z -> stM P Z;             (* palloc_get_multiple (0, PAGE_CNT) *)
  free_multiple : Z -> Z -> stM P unit     (* palloc_free_multiple (PAGES, PAGE_CNT) *)
}.

(** ** Data *)

Record desc := MkDesc { block_size : Z; blocks_per_arena : Z; free_list : list Z }.

Definition ARENA_MAGIC : Z := 0x9a548eed.
Definition sizeof_arena : Z := 12.
Definition sizeof_list_elem : Z := 8.

(** [a_desc] is the index of the descriptor; [None] is the null pointer. *)
Record arena := MkArena { magic : Z; a_desc : option nat; free_cnt : Z }.

Record heap (P : Type) := MkHeap {
  page_state : P;
  descs : list desc;
  arenas : gmap Z arena;
  bytes : gmap Z Z
}.
Arguments MkHeap {P}.
Arguments page_state {P}.
Arguments descs {P}.
Arguments arenas {P}.
Arguments bytes {P}.

Definition DIV_ROUND_UP (x step : Z) : Z := u32 (x + step - 1) / step.

Section Malloc.
Context {P : Type} `{PageAlloc P}.
#[local] Abbreviation M := (stM (heap P)).

Definition on_pages {A} (c : stM P A) : M A := fun s =>
  match c (page_state s) with
  | Ok (a, p) => Ok (a, MkHeap p (descs s) (arenas s) (bytes s))
  | Err e => Err e
  end.
Definition set_desc (k : nat) (d : desc) : M unit :=
  modify (fun s => MkHeap (page_state s) (<[k := d]> (descs s)) (arenas s) (bytes s)).
Definition set_arenas (f : gmap Z arena -> gmap Z arena) : M unit :=
  modify (fun s => MkHeap (page_state s) (descs s) (f (arenas s)) (bytes s)).
Definition set_bytes (f : gmap Z Z -> gmap Z Z) : M unit :=
  modify (fun s => MkHeap (page_state s) (descs s) (arenas s) (f (bytes s))).

Definition get_desc (k : nat) : M desc := fun s =>
  match descs s !! k with Some d => Ok (d, s) | None => Err EFault end.
Definition get_arena (a : Z) : M arena := fun s =>
  match arenas s !! a with Some x => Ok (x, s) | None => Err EFault end.

(** Ranges of bytes: set to a value, unknown, copied. *)
Fixpoint fill (n : nat) (p v : Z) (m : gmap Z Z) : gmap Z Z :=
  match n with O => m | S n => <[p + Z.of_nat n := v]> (fill n p v m) end.
Fixpoint forget (n : nat) (p : Z) (m : gmap Z Z) : gmap Z Z :=
  match n with O => m | S n => delete (p + Z.of_nat n) (forget n p m) end.
Fixpoint copy (n : nat) (dst src : Z) (m : gmap Z Z) : gmap Z Z :=
  match n with
  | O => m
  | S n => partial_alter (fun _ => m !! (src + Z.of_nat n)) (dst + Z.of_nat n) (copy n dst src m)
  end.

(** ** Initialisation *)

(** The loop: a block size doubles until it is half a page; at most 32
    doublings are possible. *)
Fixpoint malloc_init_loop (fuel : nat) (bs : Z) (l : list desc) : res (list desc) :=
  match fuel with
  | O => Err EFuel
  | S fuel =>
      if bs <? PGSIZE / 2 then
        if Z.of_nat (length l) + 1 <=? 10
        then malloc_init_loop fuel (bs * 2) (l ++ [MkDesc bs ((PGSIZE - sizeof_arena) / bs) []])
        else Err EAssert
      else Ok l
  end.
Definition malloc_init : res (list desc) := malloc_init_loop 33 16 [].

(** ** Arenas and blocks *)

Definition block_to_arena (b : Z) : M Z :=
  let a := pg_round_down b in
  assertM (negb (a =? 0));;
  x ← get_arena a;
  assertM (magic x =? ARENA_MAGIC);;
  match a_desc x with
  | Some k => d ← get_desc k; assertM (u32 (pg_ofs b - sizeof_arena) mod block_size d =? 0)
  | None => assertM (pg_ofs b =? sizeof_arena)
  end;;
  mret a.

Definition arena_to_block (a idx : Z) : M Z :=
  assertM (negb (a =? 0));;
  x ← get_arena a;
  assertM (magic x =? ARENA_MAGIC);;
  match a_desc x with
  | Some k => d ← get_desc k; assertM (idx <? blocks_per_arena d);; mret (a + sizeof_arena + idx * block_size d)
  | None => raise EFault
  end.

(** list_push_back and list_push_front on a free list: the links overwrite the
    start of the block. *)
Definition push_back (k : nat) (b : Z) : M unit :=
  d ← get_desc k;
  set_desc k (MkDesc (block_size d) (blocks_per_arena d) (free_list d ++ [b]));;
  set_bytes (forget (Z.to_nat sizeof_list_elem) b).
Definition push_front (k : nat) (b : Z) : M unit :=
  d ← get_desc k;
  set_desc k (MkDesc (block_size d) (blocks_per_arena d) (b :: free_list d));;
  set_bytes (forget (Z.to_nat sizeof_list_elem) b).
Definition pop_front (k : nat) : M Z :=
  d ← get_desc k;
  match free_list d with
  | [] => raise EAssert
  | b :: l => set_desc k (MkDesc (block_size d) (blocks_per_arena d) l);; mret b
  end.
(** list_remove, for a block that is in the list. *)
Definition remove (k : nat) (b : Z) : M unit :=
  d ← get_desc k;
  if bool_decide (b ∈ free_list d)
  then set_desc k (MkDesc (block_size d) (blocks_per_arena d) (filter (fun x => x <> b) (free_list d)))
  else raise EFault.

(** ** malloc *)

(** The index of the smallest descriptor that is large enough. *)
Fixpoint find_desc (size : Z) (l : list desc) : option nat :=
  match l with
  | [] => None
  | d :: l => if size <=? block_size d then Some O else S <$> find_desc size l
  end.

(** Adds the blocks from index [i] on of arena [a] to free list [k]; [n] of
    them remain. *)
Fixpoint add_blocks (n : nat) (k : nat) (a i : Z) : M unit :=
  match n with
  | O => mret tt
  | S n => b ← arena_to_block a i; push_back k b;; add_blocks n k a (i + 1)
  end.

(** The new arena of an empty free list; [false] if there is no memory. *)
Definition new_arena (k : nat) : M bool :=
  a ← on_pages (get_multiple 1);
  if a =? 0 then mret false
  else
    d ← get_desc k;
    set_bytes (forget (Z.to_nat PGSIZE) a);;
    set_arenas (<[a := MkArena ARENA_MAGIC (Some k) (blocks_per_arena d)]>);;
    add_blocks (Z.to_nat (blocks_per_arena d)) k a 0;;
    mret true.

Definition malloc (size : Z) : M Z :=
  if size =? 0 then mret 0
  else
    s ← get;
    match find_desc size (descs s) with
    | None =>
        let page_cnt := DIV_ROUND_UP (u32 (size + sizeof_arena)) PGSIZE in
        a ← on_pages (get_multiple page_cnt);
        if a =? 0 then mret 0
        else
          set_bytes (forget (Z.to_nat (PGSIZE * page_cnt)) a);;
          set_arenas (<[a := MkArena ARENA_MAGIC None page_cnt]>);;
          mret (a + sizeof_arena)
    | Some k =>
        d ← get_desc k;
        ok ← (if bool_decide (free_list d = []) then new_arena k else mret true);
        if negb ok then mret 0
        else
          b ← pop_front k;
          a ← block_to_arena b;
          x ← get_arena a;
          set_arenas (<[a := MkArena (magic x) (a_desc x) (u32 (free_cnt x - 1))]>);;
          mret b
    end.

Definition calloc (a b : Z) : M Z :=
  let size := u32 (a * b) in
  if (size <? a) || (size <? b) then mret 0
  else
    p ← malloc size;
    (if negb (p =? 0) then set_bytes (fill (Z.to_nat size) p 0) else mret tt);;
    mret p.

(** ** free *)

Fixpoint remove_blocks (n : nat) (k : nat) (a i : Z) : M unit :=
  match n with
  | O => mret tt
  | S n => b ← arena_to_block a i; remove k b;; remove_blocks n k a (i + 1)
  end.

(** The page allocator fills freed pages, arena header included. *)
Definition free_arena (a n : Z) : M unit :=
  set_bytes (fill (Z.to_nat (PGSIZE * n)) a 0xcc);;
  set_arenas (delete a);;
  on_pages (free_multiple a n).

Definition free (p : Z) : M unit :=
  if p =? 0 then mret tt
  else
    a ← block_to_arena p;
    x ← get_arena a;
    match a_desc x with
    | Some k =>
        d ← get_desc k;
        set_bytes (fill (Z.to_nat (block_size d)) p 0xcc);;
        push_front k p;;
        let free_cnt' := u32 (free_cnt x + 1) in
        set_arenas (<[a := MkArena (magic x) (a_desc x) free_cnt']>);;
        if blocks_per_arena d <=? free_cnt' then
          assertM (free_cnt' =? blocks_per_arena d);;
          remove_blocks (Z.to_nat (blocks_per_arena d)) k a 0;;
          free_arena a 1
        else mret tt
    | None => free_arena a (free_cnt x)
    end.

(** ** realloc *)

Definition size_of_block (b : Z) : M Z :=
  a ← block_to_arena b;
  x ← get_arena a;
  match a_desc x with
  | Some k => d ← get_desc k; mret (block_size d)
  | None => mret (u32 (PGSIZE * free_cnt x - pg_ofs b))
  end.

Definition realloc (old_block new_size : Z) : M Z :=
  if new_size =? 0 then free old_block;; mret 0
  else
    new_block ← malloc new_size;
    (if negb (old_block =? 0) && negb (new_block =? 0) then
       old_size ← size_of_block old_block;
       let min_size := if new_size <? old_size then new_size else old_size in
       set_bytes (copy (Z.to_nat min_size) new_block old_block);;
       free old_block
     else mret tt);;
    mret new_block.

End Malloc.
