(* ===== verification/MallocSpec.v ===== *)
(** Correctness of the block allocator: blocks in use do not overlap, and
    allocating and freeing one leaves the others and their contents alone. *)

From stdpp Require Import base list numbers gmap.
From Stdlib Require Import ZArith Lia.
From S2P Require Import Prelude Bitmap Vm Malloc.
Open Scope Z_scope.

(** ** What the page allocator promises *)

(** [b] is one of the [n] pages from [a] on. *)
Definition in_pages (a n b : Z) : Prop := exists i, 0 <= i < n /\ b = a + 4096 * i.
Definition page_range (a n : Z) : Prop := 0 < a /\ a mod 4096 = 0 /\ a + 4096 * n <= 2 ^ 32.

Class PageAllocLaws (P : Type) `{PageAlloc P} := {
  pa_ok : P -> Prop;
  owned : P -> Z -> Prop;
  get_law p n : pa_ok p -> 0 <= n < 2 ^ 20 ->
    exists a p', get_multiple n p = Ok (a, p') /\ pa_ok p' /\
      (a = 0 /\ (forall b, owned p' b <-> owned p b) \/
       0 < n /\ page_range a n /\ (forall b, in_pages a n b -> ~ owned p b) /\ (forall b, owned p' b <-> owned p b \/ in_pages a n b));
  free_law p a n : pa_ok p -> 0 < n < 2 ^ 20 -> page_range a n -> (forall b, in_pages a n b -> owned p b) ->
    exists p', free_multiple a n p = Ok (tt, p') /\ pa_ok p' /\ (forall b, owned p' b <-> owned p b /\ ~ in_pages a n b)
}.

(** ** Addresses *)

(** The page of an address. *)
Definition pg (p : Z) : Z := p - p mod 4096.

Lemma pg_between a p : a mod 4096 = 0 -> a <= p < a + 4096 -> pg p = a.
Proof. intros Ha Hp. unfold pg. Z.to_euclidean_division_equations. lia. Qed.
Lemma pg_range p : pg p <= p < pg p + 4096 /\ pg p mod 4096 = 0.
Proof. unfold pg. Z.to_euclidean_division_equations. lia. Qed.
Lemma pg_ofs_pg p : p mod 4096 = p - pg p.
Proof. unfold pg. lia. Qed.
Lemma pg_round_pg p : is_u32 p -> pg_round_down p = pg p.
Proof. intros Hp. by rewrite pg_round_down_eq. Qed.

Lemma in_pages_of a n p : a mod 4096 = 0 -> a <= p < a + 4096 * n -> in_pages a n (pg p).
Proof.
  intros Ha Hp. pose proof (pg_range p) as [H1 H2]. exists ((pg p - a) / 4096). Z.to_euclidean_division_equations. lia.
Qed.
Lemma in_pages_one a b : in_pages a 1 b <-> b = a.
Proof. split; [intros (i & Hi & ->); lia|]. intros ->. exists 0. lia. Qed.

(** ** Ranges of bytes *)

Lemma lookup_fill n p v m q : fill n p v m !! q = if bool_decide (p <= q < p + Z.of_nat n) then Some v else m !! q.
Proof.
  induction n as [|n IH]; cbn [fill].
  - rewrite bool_decide_false by lia. done.
  - destruct (decide (q = p + Z.of_nat n)) as [->|Hne].
    + rewrite lookup_insert_eq, bool_decide_true by lia. done.
    + rewrite lookup_insert_ne, IH by done. erewrite bool_decide_ext; [done|]. lia.
Qed.

Lemma lookup_forget n p m q : forget n p m !! q = if bool_decide (p <= q < p + Z.of_nat n) then None else m !! q.
Proof.
  induction n as [|n IH]; cbn [forget].
  - rewrite bool_decide_false by lia. done.
  - destruct (decide (q = p + Z.of_nat n)) as [->|Hne].
    + rewrite lookup_delete_eq, bool_decide_true by lia. done.
    + rewrite lookup_delete_ne, IH by done. erewrite bool_decide_ext; [done|]. lia.
Qed.

Lemma lookup_copy n dst src m q :
  copy n dst src m !! q = if bool_decide (dst <= q < dst + Z.of_nat n) then m !! (src + (q - dst)) else m !! q.
Proof.
  induction n as [|n IH]; cbn [copy].
  - rewrite bool_decide_false by lia. done.
  - destruct (decide (q = dst + Z.of_nat n)) as [->|Hne].
    + rewrite lookup_partial_alter_eq, bool_decide_true by lia. f_equal. lia.
    + rewrite lookup_partial_alter_ne, IH by done. erewrite bool_decide_ext; [done|]. lia.
Qed.

(** ** The invariant *)

Section Spec.
Context {P : Type} `{PageAllocLaws P}.
#[local] Abbreviation heap := (heap P).

Definition blk (a bs i : Z) : Z := a + sizeof_arena + i * bs.

Definition npages (x : arena) : Z := match a_desc x with Some _ => 1 | None => free_cnt x end.

(** The number of blocks of arena [a] in a free list. *)
Definition count (a : Z) (l : list Z) : Z := Z.of_nat (length (filter (fun b => pg b = a) l)).

Definition desc_ok (k : nat) (d : desc) : Prop :=
  block_size d = 16 * 2 ^ Z.of_nat k /\ blocks_per_arena d = (4096 - 12) / block_size d.

(** [b] is a block of an arena of descriptor [k]. *)
Definition is_block (s : heap) (k : nat) (d : desc) (b : Z) : Prop :=
  exists a x i, arenas s !! a = Some x /\ a_desc x = Some k /\ 0 <= i < blocks_per_arena d /\ b = blk a (block_size d) i.

Record heap_wf (s : heap) : Prop := {
  hw_pages : pa_ok (page_state s);
  hw_len : length (descs s) = 7%nat;
  hw_desc : forall k d, descs s !! k = Some d -> desc_ok k d;
  hw_free : forall k d b, descs s !! k = Some d -> b ∈ free_list d -> is_block s k d b;
  hw_nodup : forall k d, descs s !! k = Some d -> NoDup (free_list d);
  hw_arena : forall a x, arenas s !! a = Some x ->
    magic x = ARENA_MAGIC /\ 0 < npages x < 2 ^ 20 /\ page_range a (npages x) /\ (forall b, in_pages a (npages x) b -> owned (page_state s) b);
  hw_sep : forall a a' x x' b, arenas s !! a = Some x -> arenas s !! a' = Some x' -> in_pages a (npages x) b -> in_pages a' (npages x') b -> a = a';
  hw_count : forall a x k, arenas s !! a = Some x -> a_desc x = Some k ->
    exists d, descs s !! k = Some d /\ free_cnt x = count a (free_list d) /\ free_cnt x <= blocks_per_arena d
}.

(** Every arena except [e] has a block in use. *)
Definition busy_but (e : Z) (s : heap) : Prop :=
  forall a x k d, a <> e -> arenas s !! a = Some x -> a_desc x = Some k -> descs s !! k = Some d -> free_cnt x < blocks_per_arena d.
Definition heap_inv (s : heap) : Prop := heap_wf s /\ busy_but 0 s.

(** ** Blocks in use *)

(** The size of the block at [p], if it is in use. *)
Definition live (s : heap) (p : Z) : option Z :=
  x ← arenas s !! pg p;
  match a_desc x with
  | None => if bool_decide (p = pg p + 12) then Some (4096 * free_cnt x - 12) else None
  | Some k =>
      d ← descs s !! k;
      if bool_decide (12 <= p - pg p /\ (p - pg p - 12) mod block_size d = 0 /\ (p - pg p - 12) / block_size d < blocks_per_arena d /\ (p ∉ free_list d))
      then Some (block_size d) else None
  end.

Lemma desc_bounds k d : desc_ok k d -> 16 <= block_size d /\ 12 + blocks_per_arena d * block_size d <= 4096.
Proof.
  intros [-> ->]. assert (H1 : 1 <= 2 ^ Z.of_nat k) by (apply (Z.pow_le_mono_r 2 0); lia). split; [lia|].
  assert (H2 : (4096 - 12) / (16 * 2 ^ Z.of_nat k) * (16 * 2 ^ Z.of_nat k) <= 4084) by (rewrite Z.mul_comm; apply Z.mul_div_le; lia). lia.
Qed.

Lemma desc_bounds_lt s k d : heap_wf s -> descs s !! k = Some d -> block_size d <= 1024 /\ 3 <= blocks_per_arena d.
Proof.
  intros HW Hk. pose proof (hw_desc s HW k d Hk) as [-> ->]. apply lookup_lt_Some in Hk. rewrite (hw_len s HW) in Hk.
  do 7 (destruct k as [|k]; [split; vm_compute; discriminate|]). lia.
Qed.

Lemma blk_in a k d i : desc_ok k d -> a mod 4096 = 0 -> 0 <= i < blocks_per_arena d ->
  a + 12 <= blk a (block_size d) i /\ blk a (block_size d) i + block_size d <= a + 4096 /\ pg (blk a (block_size d) i) = a /\
  (blk a (block_size d) i - a - 12) / block_size d = i /\ (blk a (block_size d) i - a - 12) mod block_size d = 0.
Proof.
  intros Hd Ha Hi. destruct (desc_bounds k d Hd) as [H1 H2]. unfold blk, sizeof_arena.
  assert (H3 : i * block_size d + block_size d <= blocks_per_arena d * block_size d) by nia.
  split; [lia|]. split; [lia|]. split; [apply pg_between; [done|nia]|].
  replace (a + 12 + i * block_size d - a - 12) with (i * block_size d) by lia. rewrite Z.div_mul, Z.mod_mul by lia. done.
Qed.

(** The two kinds of block. *)
Lemma live_cases s p n : heap_wf s -> live s p = Some n ->
  (exists x, arenas s !! pg p = Some x /\ a_desc x = None /\ p = pg p + 12 /\ n = 4096 * free_cnt x - 12) \/
  (exists x k d i, arenas s !! pg p = Some x /\ a_desc x = Some k /\ descs s !! k = Some d /\ 0 <= i < blocks_per_arena d /\
    p = blk (pg p) (block_size d) i /\ (p ∉ free_list d) /\ n = block_size d).
Proof.
  intros HW Hl. unfold live in Hl. destruct (arenas s !! pg p) as [x|] eqn:Ex; [|done]. cbn in Hl. destruct (a_desc x) as [k|] eqn:Ek.
  - right. destruct (descs s !! k) as [d|] eqn:Ed; [|done]. cbn in Hl. case_bool_decide as Hc; [|done]. injection Hl as <-.
    destruct Hc as (H1 & H2 & H3 & H4). destruct (desc_bounds k d (hw_desc s HW k d Ed)) as [Hb _].
    exists x, k, d, ((p - pg p - 12) / block_size d). split_and!; try done; [apply Z.div_pos; lia|].
    unfold blk, sizeof_arena. pose proof (Z.div_mod (p - pg p - 12) (block_size d)). nia.
  - left. case_bool_decide as Hc; [|done]. injection Hl as <-. by exists x.
Qed.

Lemma live_blk s a x k d i : heap_wf s -> arenas s !! a = Some x -> a_desc x = Some k -> descs s !! k = Some d -> 0 <= i < blocks_per_arena d ->
  live s (blk a (block_size d) i) = if bool_decide (blk a (block_size d) i ∈ free_list d) then None else Some (block_size d).
Proof.
  intros HW Ha Hk Hd Hi. destruct (hw_arena s HW a x Ha) as (_ & _ & (_ & Hal & _) & _).
  destruct (blk_in a k d i (hw_desc s HW k d Hd) Hal Hi) as (H1 & H2 & H3 & H4 & H5). unfold live. rewrite H3, Ha. cbn. rewrite Hk, Hd. cbn.
  rewrite H4, H5. repeat case_bool_decide; try done; naive_solver lia.
Qed.

(** A block lies in the pages of its arena, after the header. *)
Lemma live_range s p n : heap_wf s -> live s p = Some n ->
  exists x, arenas s !! pg p = Some x /\ 0 < n /\ pg p + 12 <= p /\ p + n <= pg p + 4096 * npages x /\ 0 < p /\ p + n <= 2 ^ 32.
Proof.
  intros HW Hl. destruct (live_cases s p n HW Hl) as [(x & Hx & Hd & Hp & ->)|(x & k & d & i & Hx & Hd & Hk & Hi & Hp & _ & ->)];
    exists x; destruct (hw_arena s HW _ x Hx) as (_ & Hn & (H1 & H2 & H3) & _); unfold npages in *; rewrite Hd in *.
  - split; [done|]. lia.
  - destruct (desc_bounds k d (hw_desc s HW k d Hk)). destruct (blk_in (pg p) k d i (hw_desc s HW k d Hk) H2 Hi) as (? & ? & _). rewrite <- Hp in *.
    split; [done|]. lia.
Qed.

Lemma live_disjoint s p q n m : heap_wf s -> live s p = Some n -> live s q = Some m -> p <> q -> p + n <= q \/ q + m <= p.
Proof.
  intros HW Hp Hq Hne. destruct (decide (pg p = pg q)) as [Heq|Hpg].
  - destruct (live_cases s p n HW Hp) as [(x & Hx & Hd & Hpp & ->)|(x & k & d & i & Hx & Hd & Hk & Hi & Hpp & _ & ->)];
    destruct (live_cases s q m HW Hq) as [(x' & Hx' & Hd' & Hqq & ->)|(x' & k' & d' & j & Hx' & Hd' & Hk' & Hj & Hqq & _ & ->)];
    rewrite Heq, Hx' in Hx; injection Hx as ->; try congruence.
    rewrite Hd' in Hd. injection Hd as ->. rewrite Hk' in Hk. injection Hk as ->. rewrite Heq in Hpp. unfold blk in *.
    destruct (desc_bounds k d (hw_desc s HW k d Hk')). assert (i <> j) by (intros ->; congruence). nia.
  - destruct (live_range s p n HW Hp) as (x & Hx & ? & ? & Hpe & _). destruct (live_range s q m HW Hq) as (y & Hy & ? & ? & Hqe & _).
    destruct (Z.le_gt_cases (p + n) q); [by left|]. destruct (Z.le_gt_cases (q + m) p); [by right|]. exfalso. apply Hpg.
    destruct (hw_arena s HW _ x Hx) as (_ & _ & (_ & Ha & _) & _). destruct (hw_arena s HW _ y Hy) as (_ & _ & (_ & Hb & _) & _).
    destruct (Z.le_gt_cases p q).
    + apply (hw_sep s HW _ _ x y (pg q) Hx Hy); [apply in_pages_of; [done|lia]|apply in_pages_of; [done|lia]].
    + apply (hw_sep s HW _ _ x y (pg p) Hx Hy); [apply in_pages_of; [done|lia]|apply in_pages_of; [done|lia]].
Qed.

(** ** Changing one free list *)

Definition with_list (d : desc) (l : list Z) : desc := MkDesc (block_size d) (blocks_per_arena d) l.
Definition with_cnt (x : arena) (n : Z) : arena := MkArena (magic x) (a_desc x) n.

(** Free list [k] becomes [l] and the counter of arena [a] becomes [n]. *)
Definition relist (s : heap) (k : nat) (d : desc) (l : list Z) (a : Z) (x : arena) (n : Z) (by' : gmap Z Z) : heap :=
  MkHeap (page_state s) (<[k := with_list d l]> (descs s)) (<[a := with_cnt x n]> (arenas s)) by'.

Lemma relist_desc s k d l a x n by' j d' : descs s !! k = Some d -> descs (relist s k d l a x n by') !! j = Some d' ->
  exists e, descs s !! j = Some e /\ d' = with_list e (if decide (j = k) then l else free_list e).
Proof.
  intros Hk Hj. apply lookup_lt_Some in Hk as Hlt. cbn in Hj. destruct (decide (j = k)) as [->|Hne].
  - rewrite list_lookup_insert_eq in Hj by done. injection Hj as <-. by exists d.
  - rewrite list_lookup_insert_ne in Hj by done. exists d'. split; [done|by destruct d'].
Qed.

Lemma relist_arena s k d l a x n by' a' x' : arenas s !! a = Some x -> arenas (relist s k d l a x n by') !! a' = Some x' ->
  exists y, arenas s !! a' = Some y /\ x' = with_cnt y (if decide (a' = a) then n else free_cnt y).
Proof.
  intros Ha Hj. cbn in Hj. destruct (decide (a' = a)) as [->|Hne].
  - rewrite lookup_insert_eq in Hj. injection Hj as <-. by exists x.
  - rewrite lookup_insert_ne in Hj by done. exists x'. split; [done|by destruct x'].
Qed.

Lemma relist_wf s k d l a x n by' :
  heap_wf s -> descs s !! k = Some d -> arenas s !! a = Some x -> a_desc x = Some k ->
  NoDup l -> (forall b, b ∈ l -> is_block s k d b) -> n = count a l -> n <= blocks_per_arena d ->
  (forall a', a' <> a -> count a' l = count a' (free_list d)) -> heap_wf (relist s k d l a x n by').
Proof.
  intros HW Hk Ha Hx Hnd Hl Hn Hle Hc. set (s' := relist s k d l a x n by'). pose proof (lookup_lt_Some _ _ _ Hk) as Hlt.
  assert (Hnp : forall a' y, arenas s !! a' = Some y -> npages (with_cnt y (if decide (a' = a) then n else free_cnt y)) = npages y).
  { intros a' y Hy. unfold npages. cbn. destruct (decide (a' = a)) as [->|]; [|done]. rewrite Ha in Hy. injection Hy as <-. by rewrite Hx. }
  split; cbn.
  - apply HW.
  - rewrite length_insert. apply HW.
  - intros j d' Hj. apply (relist_desc s k d l a x n by') in Hj as (e & He & ->); [|done]. apply (hw_desc s HW j e He).
  - intros j d' b Hj Hb. apply (relist_desc s k d l a x n by') in Hj as (e & He & ->); [|done]. cbn in Hb.
    assert (Hb' : is_block s j e b) by (destruct (decide (j = k)) as [->|]; [rewrite Hk in He; injection He as <-; by apply Hl|by apply (hw_free s HW j e b)]).
    destruct Hb' as (a' & y & i & Hy & Hyk & Hi & Hbi). unfold is_block. cbn. destruct (decide (a' = a)) as [->|Hne].
    + rewrite Ha in Hy. injection Hy as <-. exists a, (with_cnt x n), i. rewrite lookup_insert_eq. done.
    + exists a', y, i. rewrite lookup_insert_ne by done. done.
  - intros j d' Hj. apply (relist_desc s k d l a x n by') in Hj as (e & He & ->); [|done]. cbn. destruct (decide (j = k)); [done|]. by apply (hw_nodup s HW j e).
  - intros a' x' Hx'. apply (relist_arena s k d l a x n by') in Hx' as (y & Hy & ->); [|done]. rewrite Hnp by done. exact (hw_arena s HW a' y Hy).
  - intros a1 a2 x1 x2 b H1 H2. apply (relist_arena s k d l a x n by') in H1 as (y1 & Hy1 & ->), H2 as (y2 & Hy2 & ->); [|done..].
    rewrite !Hnp by done. by apply (hw_sep s HW a1 a2).
  - intros a' x' j Hx' Hj. apply (relist_arena s k d l a x n by') in Hx' as (y & Hy & ->); [|done]. cbn in Hj.
    destruct (hw_count s HW a' y j Hy Hj) as (e & He & Hcnt & Hmax). destruct (decide (j = k)) as [->|Hne].
    + rewrite Hk in He. injection He as <-. exists (with_list d l). rewrite list_lookup_insert_eq by done. cbn.
      destruct (decide (a' = a)) as [->|Hna]; [done|]. rewrite Hc by done. done.
    + exists e. rewrite list_lookup_insert_ne by done. destruct (decide (a' = a)) as [->|Hna]; [congruence|done].
Qed.

(** Only blocks that enter or leave the list change. *)
Lemma relist_live s k d l a x n by' q :
  descs s !! k = Some d -> arenas s !! a = Some x -> a_desc x = Some k -> (q ∈ l <-> q ∈ free_list d) ->
  live (relist s k d l a x n by') q = live s q.
Proof.
  intros Hk Ha Hx Hq. pose proof (lookup_lt_Some _ _ _ Hk) as Hlt. unfold live. cbn. destruct (decide (pg q = a)) as [->|Hne].
  - rewrite lookup_insert_eq, Ha. cbn. rewrite Hx. rewrite list_lookup_insert_eq, Hk by done. cbn. erewrite bool_decide_ext; [done|]. by rewrite Hq.
  - rewrite lookup_insert_ne by done. destruct (arenas s !! pg q) as [y|]; [|done]. cbn. destruct (a_desc y) as [j|]; [|done].
    destruct (decide (j = k)) as [->|Hnj]; [|by rewrite list_lookup_insert_ne]. rewrite list_lookup_insert_eq, Hk by done. cbn.
    erewrite bool_decide_ext; [done|]. by rewrite Hq.
Qed.

Lemma relist_busy s k d l a x n by' e :
  busy_but e s -> e = 0 \/ e = a -> heap_wf s -> descs s !! k = Some d -> arenas s !! a = Some x -> busy_but a (relist s k d l a x n by').
Proof.
  intros Hb He HW Hk Ha a' x' j d' Hne Hx' Hj Hd'. apply (relist_desc s k d l a x n by') in Hd' as (d0 & Hd0 & ->); [|done].
  apply (relist_arena s k d l a x n by') in Hx' as (y & Hy & ->); [|done]. cbn in *. destruct (decide (a' = a)); [done|].
  apply (Hb a' y j d0); [|done..]. destruct He as [->| ->]; [|done]. destruct (hw_arena s HW a' y Hy) as (_ & _ & [? _] & _). lia.
Qed.

Lemma count_cons a b l : count a (b :: l) = (if decide (pg b = a) then 1 else 0) + count a l.
Proof. unfold count. rewrite filter_cons. case_decide; cbn [length]; lia. Qed.
Lemma count_pos a l : 0 <= count a l.
Proof. unfold count. lia. Qed.

(** ** Steps *)

Lemma get_desc_Ok (s : heap) k d : descs s !! k = Some d -> get_desc k s = Ok (d, s).
Proof. intros E. unfold get_desc. by rewrite E. Qed.
Lemma get_arena_Ok (s : heap) a x : arenas s !! a = Some x -> get_arena a s = Ok (x, s).
Proof. intros E. unfold get_arena. by rewrite E. Qed.

Lemma block_to_arena_Ok (s : heap) p x : is_u32 p -> 0 < pg p -> arenas s !! pg p = Some x -> magic x = ARENA_MAGIC ->
  match a_desc x with
  | Some k => exists d, descs s !! k = Some d /\ 12 <= p - pg p /\ (p - pg p - 12) mod block_size d = 0
  | None => p = pg p + 12
  end -> block_to_arena p s = Ok (pg p, s).
Proof.
  intros Hp Hpg Hx Hm Hk. unfold block_to_arena. rewrite pg_round_pg, (proj2 (Z.eqb_neq (pg p) 0)) by (done || lia).
  erewrite stbind_step by done. erewrite stbind_step by (by apply get_arena_Ok). rewrite Hm. erewrite stbind_step by done.
  rewrite pg_ofs_eq, pg_ofs_pg. pose proof (pg_range p) as [? _]. destruct (a_desc x) as [k|].
  - destruct Hk as (d & Hd & H12 & Hmod). erewrite stbind_step; [done|]. erewrite stbind_step by (by apply get_desc_Ok).
    unfold sizeof_arena. rewrite u32_small by (unfold is_u32; lia). by rewrite Hmod.
  - erewrite stbind_step; [done|]. rewrite (proj2 (Z.eqb_eq (p - pg p) sizeof_arena)); [done|]. unfold sizeof_arena. lia.
Qed.

Lemma arena_to_block_Ok (s : heap) a x k d i : 0 < a -> arenas s !! a = Some x -> magic x = ARENA_MAGIC -> a_desc x = Some k -> descs s !! k = Some d ->
  i < blocks_per_arena d -> arena_to_block a i s = Ok (blk a (block_size d) i, s).
Proof.
  intros Ha Hx Hm Hk Hd Hi. unfold arena_to_block. rewrite (proj2 (Z.eqb_neq a 0)) by lia. erewrite stbind_step by done.
  erewrite stbind_step by (by apply get_arena_Ok). rewrite Hm. erewrite stbind_step by done. rewrite Hk.
  erewrite stbind_step by (by apply get_desc_Ok). rewrite (proj2 (Z.ltb_lt _ _)) by lia. by erewrite stbind_step by done.
Qed.

(** The bytes of the blocks in use stay. *)
Definition same_bytes (s s' : heap) : Prop :=
  forall p n i, live s p = Some n -> 0 <= i < n -> bytes s' !! (p + i) = bytes s !! (p + i).

(** Taking the first block of a free list, the end of malloc. *)
Definition take_first (k : nat) : stM heap Z :=
  b ← pop_front k;
  a ← block_to_arena b;
  x ← get_arena a;
  set_arenas (<[a := MkArena (magic x) (a_desc x) (u32 (free_cnt x - 1))]>);;
  mret b.

Lemma take_first_Ok s k d b l : heap_wf s -> descs s !! k = Some d -> free_list d = b :: l -> busy_but (pg b) s ->
  exists s', take_first k s = Ok (b, s') /\ heap_inv s' /\ live s b = None /\ live s' b = Some (block_size d) /\
    (forall q, q <> b -> live s' q = live s q) /\ bytes s' = bytes s.
Proof.
  intros HW Hk Hl Hbusy. pose proof (lookup_lt_Some _ _ _ Hk) as Hlt.
  destruct (hw_free s HW k d b Hk) as (a & x & i & Ha & Hx & Hi & Hb); [rewrite Hl; left|].
  destruct (hw_arena s HW a x Ha) as (Hm & _ & (Ha0 & Hal & Hamax) & _). destruct (blk_in a k d i (hw_desc s HW k d Hk) Hal Hi) as (B1 & B2 & B3 & B4 & B5).
  rewrite <- Hb in B1, B2, B3, B4, B5. destruct (hw_count s HW a x k Ha Hx) as (d' & Hd' & Hcnt & Hmax). rewrite Hk in Hd'. injection Hd' as <-.
  pose proof (hw_nodup s HW k d Hk) as Hnd. rewrite Hl in Hcnt, Hnd. apply NoDup_cons in Hnd as [Hbl Hnd].
  destruct (desc_bounds k d (hw_desc s HW k d Hk)) as [Hbs Hfit].
  assert (Hc : count a (b :: l) = 1 + count a l) by (rewrite count_cons, decide_True by done; done). pose proof (count_pos a l) as Hpos.
  assert (Hu : u32 (free_cnt x - 1) = free_cnt x - 1) by (apply u32_small; unfold is_u32; nia).
  unfold npages in Hamax. rewrite Hx in Hamax.
  assert (HW' : heap_wf (relist s k d l a x (free_cnt x - 1) (bytes s))).
  { apply relist_wf; try done; [|lia|lia|].
    - intros q Hq. apply (hw_free s HW k d q Hk). rewrite Hl. by right.
    - intros a' Hne. rewrite Hl, count_cons, decide_False by congruence. lia. }
  exists (relist s k d l a x (free_cnt x - 1) (bytes s)). split; [|split; [split; [done|]|split; [|split; [|split; [|done]]]]].
  - unfold take_first. erewrite stbind_step. 2:{ unfold pop_front. erewrite stbind_step by (by apply get_desc_Ok). rewrite Hl. by erewrite stbind_step by done. }
    erewrite stbind_step. 2:{ eapply (block_to_arena_Ok _ b x); cbn; rewrite ?B3; [unfold is_u32; lia|lia|done|done|]. rewrite Hx.
      eexists. rewrite list_lookup_insert_eq by done. split; [done|]. cbn. split; [lia|]. done. }
    rewrite B3. erewrite stbind_step by (by apply get_arena_Ok). erewrite stbind_step by done. by rewrite Hu.
  - intros a' y j e Hne Hy Hj He. destruct (decide (a' = a)) as [->|Hna].
    + apply (relist_arena s k d l a x (free_cnt x - 1) (bytes s)) in Hy as (y0 & Hy0 & ->); [|done]. rewrite Ha in Hy0. injection Hy0 as <-.
      cbn in Hj. rewrite Hx in Hj. injection Hj as <-. apply (relist_desc s k d l a x (free_cnt x - 1) (bytes s)) in He as (d0 & Hd0 & ->); [|done].
      rewrite Hk in Hd0. injection Hd0 as <-. cbn. rewrite decide_True by done. lia.
    + rewrite B3 in Hbusy. pose proof (relist_busy s k d l a x (free_cnt x - 1) (bytes s) a Hbusy (or_intror eq_refl) HW Hk Ha) as Hb'. by apply (Hb' a' y j e).
  - rewrite Hb, (live_blk s a x k d i) by done. rewrite <- Hb, bool_decide_true; [done|]. rewrite Hl. left.
  - assert (Hd2 : descs (relist s k d l a x (free_cnt x - 1) (bytes s)) !! k = Some (with_list d l)) by (cbn; by rewrite list_lookup_insert_eq).
    assert (Ha2 : arenas (relist s k d l a x (free_cnt x - 1) (bytes s)) !! a = Some (with_cnt x (free_cnt x - 1))) by (cbn; by rewrite lookup_insert_eq).
    rewrite Hb. pose proof (live_blk _ a _ k _ i HW' Ha2 Hx Hd2 Hi) as E. cbn in E. rewrite E. by rewrite <- Hb, bool_decide_false.
  - intros q Hq. apply relist_live; [done..|]. rewrite Hl, elem_of_cons. naive_solver.
Qed.

(** ** New arenas *)

Lemma add_blocks_Ok n : forall (s : heap) k d a x i,
  0 < a -> arenas s !! a = Some x -> magic x = ARENA_MAGIC -> a_desc x = Some k -> descs s !! k = Some d -> desc_ok k d -> a mod 4096 = 0 ->
  0 <= i -> i + Z.of_nat n <= blocks_per_arena d ->
  exists by', add_blocks n k a i s =
      Ok (tt, MkHeap (page_state s) (<[k := with_list d (free_list d ++ (blk a (block_size d) <$> seqZ i (Z.of_nat n)))]> (descs s)) (arenas s) by') /\
    forall q, ~ (a <= q < a + 4096) -> by' !! q = bytes s !! q.
Proof.
  induction n as [|n IH]; intros s k d a x i Ha Hx Hm Hk Hd Hok Hal Hi Hle; cbn [add_blocks].
  - exists (bytes s). split; [|done]. cbn. rewrite app_nil_r. replace (with_list d (free_list d)) with d by (by destruct d). rewrite list_insert_id by done. by destruct s.
  - pose proof (lookup_lt_Some _ _ _ Hd) as Hlt. destruct (blk_in a k d i Hok Hal ltac:(lia)) as (B1 & B2 & _). destruct (desc_bounds k d Hok) as [Hbs _].
    erewrite stbind_step by (apply (arena_to_block_Ok s a x k d i); [lia|done|done|done|done|lia]). set (b := blk a (block_size d) i) in *.
    set (s1 := MkHeap (page_state s) (<[k := with_list d (free_list d ++ [b])]> (descs s)) (arenas s) (forget (Z.to_nat sizeof_list_elem) b (bytes s))).
    erewrite stbind_step. 2:{ unfold push_back. erewrite stbind_step by (by apply get_desc_Ok). by erewrite stbind_step by done. }
    destruct (IH s1 k (with_list d (free_list d ++ [b])) a x (i + 1)) as (by' & E & Hby); [lia|done|done|done| |done|done|lia|cbn; lia|].
    { cbn. by rewrite list_lookup_insert_eq. }
    exists by'. split.
    + etrans; [exact E|]. unfold with_list. cbn. rewrite list_insert_insert_eq, <- app_assoc. do 5 f_equal. replace (Z.of_nat (S n)) with (Z.succ (Z.of_nat n)) by lia.
      rewrite (seqZ_cons i) by lia. cbn. rewrite Z.pred_succ. replace (Z.succ i) with (i + 1) by lia. done.
    + intros q Hq. rewrite Hby by done. cbn [s1 bytes]. rewrite lookup_forget, bool_decide_false; [done|]. unfold sizeof_list_elem. lia.
Qed.

(** Arenas occupy owned pages, so a page that is not owned is none. *)
Lemma arena_owned s a x : heap_wf s -> arenas s !! a = Some x -> owned (page_state s) a.
Proof. intros HW Ha. destruct (hw_arena s HW a x Ha) as (_ & Hn & _ & Ho). apply Ho. exists 0. lia. Qed.

(** The conditions on pages, when an arena is added. *)
Lemma add_arena_pages s p' a x : heap_wf s -> magic x = ARENA_MAGIC -> 0 < npages x < 2 ^ 20 -> page_range a (npages x) ->
  (forall b, in_pages a (npages x) b -> ~ owned (page_state s) b) -> (forall b, owned p' b <-> owned (page_state s) b \/ in_pages a (npages x) b) ->
  arenas s !! a = None /\
  (forall c y, <[a := x]> (arenas s) !! c = Some y ->
    magic y = ARENA_MAGIC /\ 0 < npages y < 2 ^ 20 /\ page_range c (npages y) /\ (forall b, in_pages c (npages y) b -> owned p' b)) /\
  (forall c c' y y' b, <[a := x]> (arenas s) !! c = Some y -> <[a := x]> (arenas s) !! c' = Some y' ->
    in_pages c (npages y) b -> in_pages c' (npages y') b -> c = c').
Proof.
  intros HW Hm Hn Hr Hno Ho.
  assert (Hnone : arenas s !! a = None).
  { destruct (arenas s !! a) as [y|] eqn:Hy; [|done]. destruct (Hno a); [exists 0; lia|]. by apply (arena_owned s a y). }
  split; [done|]. split.
  - intros c y Hc. destruct (decide (c = a)) as [->|Hne].
    + rewrite lookup_insert_eq in Hc. injection Hc as <-. split_and!; try done; try lia. intros b Hb. apply Ho. by right.
    + rewrite lookup_insert_ne in Hc by done. destruct (hw_arena s HW c y Hc) as (? & ? & ? & Hb). split; [done|]. split; [done|]. split; [done|].
      intros b ?. apply Ho. left. by apply Hb.
  - intros c c' y y' b Hc Hc' Hb Hb'. destruct (decide (c = a)) as [->|Hne], (decide (c' = a)) as [->|Hne']; [done|..].
    + rewrite lookup_insert_eq in Hc. injection Hc as <-. rewrite lookup_insert_ne in Hc' by done. destruct (Hno b Hb). by apply (hw_arena s HW c' y' Hc').
    + rewrite lookup_insert_eq in Hc'. injection Hc' as <-. rewrite lookup_insert_ne in Hc by done. destruct (Hno b Hb'). by apply (hw_arena s HW c y Hc).
    + rewrite lookup_insert_ne in Hc, Hc' by done. by apply (hw_sep s HW c c' y y' b).
Qed.

(** Bytes of blocks in use are in owned pages. *)
Lemma live_owned s p n i : heap_wf s -> live s p = Some n -> 0 <= i < n -> owned (page_state s) (pg (p + i)).
Proof.
  intros HW Hl Hi. destruct (live_range s p n HW Hl) as (x & Hx & _ & Hlo & Hhi & _). destruct (hw_arena s HW _ x Hx) as (_ & _ & (_ & Hal & _) & Ho).
  apply Ho, in_pages_of; [done|lia].
Qed.

Lemma count_blks a bs n : forall i, a mod 4096 = 0 -> (forall j, i <= j < i + Z.of_nat n -> pg (blk a bs j) = a) ->
  count a (blk a bs <$> seqZ i (Z.of_nat n)) = Z.of_nat n.
Proof.
  induction n as [|n IH]; intros i Ha Hpg; [done|]. replace (Z.of_nat (S n)) with (Z.succ (Z.of_nat n)) by lia. rewrite seqZ_cons by lia. cbn.
  rewrite count_cons, decide_True by (apply Hpg; lia). rewrite Z.pred_succ, IH; [lia|done|]. intros j Hj. apply Hpg. lia.
Qed.

Lemma count_none a l : (forall b, b ∈ l -> pg b <> a) -> count a l = 0.
Proof.
  intros Hl. unfold count. induction l as [|b l IH]; [done|]. rewrite filter_cons, decide_False by (apply Hl; left). apply IH. intros c Hc. apply Hl. by right.
Qed.

(** Another state of the page allocator that owns the same pages. *)
Lemma wf_same_pages s p' : heap_wf s -> pa_ok p' -> (forall b, owned p' b <-> owned (page_state s) b) ->
  heap_wf (MkHeap p' (descs s) (arenas s) (bytes s)).
Proof.
  intros [H1 H2 H3 H4 H5 H6 H7 H8] Hp Ho. split; try done. intros a x Hx. destruct (H6 a x Hx) as (? & ? & ? & Hb). split_and!; try done; try lia.
  intros b Hb'. apply Ho. by apply Hb.
Qed.

Lemma new_arena_Ok s k d : heap_inv s -> descs s !! k = Some d -> free_list d = [] ->
  exists ok s', new_arena k s = Ok (ok, s') /\ (forall q, live s' q = live s q) /\ same_bytes s s' /\
    (ok = false /\ heap_inv s' \/
     ok = true /\ exists b l, heap_wf s' /\ busy_but (pg b) s' /\ descs s' !! k = Some (with_list d (b :: l))).
Proof.
  intros [HW Hbusy] Hk Hnil. pose proof (hw_desc s HW k d Hk) as Hok. pose proof (lookup_lt_Some _ _ _ Hk) as Hlt.
  destruct (desc_bounds_lt s k d HW Hk) as [Hbs1 Hbpa]. destruct (desc_bounds k d Hok) as [Hbs Hfit].
  destruct (get_law (page_state s) 1 (hw_pages s HW)) as (a & p' & Eg & Hp' & [[-> Ho]|(_ & Hr & Hno & Ho)]); [lia|..].
  - exists false, (MkHeap p' (descs s) (arenas s) (bytes s)). split; [unfold new_arena; by erewrite stbind_step by (unfold on_pages; by rewrite Eg)|].
    split; [done|]. split; [done|]. left. split; [done|]. split; [by apply wf_same_pages|]. exact Hbusy.
  - set (x := MkArena ARENA_MAGIC (Some k) (blocks_per_arena d)). destruct Hr as (Ha0 & Hal & Hamax).
    destruct (add_arena_pages s p' a x) as (Hnone & Harena & Hsep); [done|done|cbn; lia|done|done|done|].
    set (s1 := MkHeap p' (descs s) (<[a := x]> (arenas s)) (forget (Z.to_nat PGSIZE) a (bytes s))).
    destruct (add_blocks_Ok (Z.to_nat (blocks_per_arena d)) s1 k d a x 0) as (by' & E & Hby); try done; [cbn; by rewrite lookup_insert_eq|lia|].
    rewrite Z2Nat.id in E by lia. rewrite Hnil in E. cbn [app] in E. set (l := blk a (block_size d) <$> seqZ 0 (blocks_per_arena d)) in E.
    set (s' := MkHeap p' (<[k := with_list d l]> (descs s)) (<[a := x]> (arenas s)) by').
    assert (Hpg : forall i, 0 <= i < blocks_per_arena d -> pg (blk a (block_size d) i) = a) by (intros i Hi; by apply (blk_in a k d i)).
    assert (Hin : forall b, b ∈ l <-> exists i, 0 <= i < blocks_per_arena d /\ b = blk a (block_size d) i).
    { intros b. unfold l. rewrite list_elem_of_fmap. split.
      - intros (i & -> & Hi%elem_of_seqZ). exists i. split; [lia|done].
      - intros (i & Hi & ->). exists i. split; [done|]. apply elem_of_seqZ. lia. }
    assert (Hpgl : forall b, b ∈ l -> pg b = a) by (intros b (i & Hi & ->)%Hin; by apply Hpg).
    assert (Hld : forall j e, <[k := with_list d l]> (descs s) !! j = Some e -> exists e0, descs s !! j = Some e0 /\ e = with_list e0 (if decide (j = k) then l else free_list e0)).
    { intros j e He. destruct (decide (j = k)) as [->|Hne].
      - rewrite list_lookup_insert_eq in He by done. injection He as <-. by exists d.
      - rewrite list_lookup_insert_ne in He by done. exists e. split; [done|by destruct e]. }
    assert (Hcnt : count a l = blocks_per_arena d).
    { unfold l. rewrite <- (Z2Nat.id (blocks_per_arena d)) at 1 by lia. rewrite count_blks; [lia|done|]. intros j Hj. apply Hpg. lia. }
    assert (HW' : heap_wf s').
    { split; cbn; [done|rewrite length_insert; apply HW|..].
      - intros j e (e0 & He0 & ->)%Hld. apply (hw_desc s HW j e0 He0).
      - intros j e b (e0 & He0 & ->)%Hld Hb. cbn in Hb. destruct (decide (j = k)) as [->|Hne].
        + rewrite Hk in He0. injection He0 as <-. apply Hin in Hb as (i & Hi & ->). exists a, x, i. cbn. by rewrite lookup_insert_eq.
        + destruct (hw_free s HW j e0 b He0 Hb) as (c & y & i & Hc & Hy). exists c, y, i. cbn. by rewrite lookup_insert_ne by congruence.
      - intros j e (e0 & He0 & ->)%Hld. cbn. destruct (decide (j = k)); [|by apply (hw_nodup s HW j)]. apply NoDup_fmap_2_strong; [|apply NoDup_seqZ].
        intros i1 i2 _ _. unfold blk. nia.
      - exact Harena.
      - exact Hsep.
      - intros c y j Hc Hj. destruct (decide (c = a)) as [->|Hne].
        + rewrite lookup_insert_eq in Hc. injection Hc as <-. cbn in Hj. injection Hj as <-. exists (with_list d l). rewrite list_lookup_insert_eq by done. split; [done|]. cbn [free_list with_list free_cnt blocks_per_arena x]. lia.
        + rewrite lookup_insert_ne in Hc by done. destruct (hw_count s HW c y j Hc Hj) as (e & He & Hce & Hmax). destruct (decide (j = k)) as [->|Hnj].
          * exists (with_list d l). rewrite list_lookup_insert_eq by done. rewrite Hk in He. injection He as <-. cbn. rewrite Hnil in Hce. change (count c []) with 0 in Hce.
            rewrite (count_none c l); [done|]. intros b Hb. apply Hpgl in Hb. congruence.
          * exists e. by rewrite list_lookup_insert_ne. }
    exists true, s'. split; [|split; [|split; [|right; split; [done|]]]].
    + unfold new_arena. erewrite stbind_step by (unfold on_pages; by rewrite Eg). rewrite (proj2 (Z.eqb_neq a 0)) by lia.
      erewrite stbind_step by (by apply get_desc_Ok). do 2 (erewrite stbind_step by done). erewrite stbind_step by exact E. done.
    + intros q. unfold live at 1. cbn. destruct (decide (pg q = a)) as [Hq|Hq].
      * rewrite Hq, lookup_insert_eq. cbn. rewrite list_lookup_insert_eq by done. cbn. unfold live. rewrite Hq, Hnone. cbn. rewrite bool_decide_false; [done|].
        intros (Q1 & Q2 & Q3 & Q4). apply Q4, Hin. exists ((q - a - 12) / block_size d). split; [split; [apply Z.div_pos; lia|done]|].
        unfold blk, sizeof_arena. pose proof (Z.div_mod (q - a - 12) (block_size d)). nia.
      * rewrite lookup_insert_ne by done. unfold live. destruct (arenas s !! pg q) as [y|]; [|done]. cbn. destruct (a_desc y) as [j|]; [|done].
        destruct (decide (j = k)) as [->|Hnj]; [|by rewrite list_lookup_insert_ne]. rewrite list_lookup_insert_eq, Hk by done. cbn.
        erewrite bool_decide_ext; [done|]. assert (q ∉ l) by (intros Hql%Hpgl; done). assert (q ∉ free_list d) by (rewrite Hnil; apply not_elem_of_nil). tauto.
    + intros p n i Hl Hi. pose proof (live_owned s p n i HW Hl Hi) as How. assert (Hout : ~ (a <= p + i < a + 4096)).
      { intros Hc. apply (Hno (pg (p + i))); [|done]. apply in_pages_of; [done|lia]. }
      cbn. rewrite Hby by done. cbn. rewrite lookup_forget, bool_decide_false; [done|]. change PGSIZE with 4096. lia.
    + destruct l as [|b l0] eqn:El; [change (count a []) with 0 in Hcnt; lia|]. exists b, l0. split; [done|]. split; [|cbn; by rewrite list_lookup_insert_eq].
      assert (Hb : pg b = a) by (apply Hpgl; left). rewrite Hb. intros c y j e Hne Hc Hj He. cbn in Hc, He. rewrite lookup_insert_ne in Hc by done.
      apply Hld in He as (e0 & He0 & ->). cbn. apply (Hbusy c y j e0); [|done..]. pose proof (proj1 (proj1 (proj2 (proj2 (hw_arena s HW c y Hc))))). lia.
Qed.

Lemma big_arena_wf s p' a n by' : heap_inv s -> pa_ok p' -> 0 < n < 2 ^ 20 -> page_range a n ->
  (forall b, in_pages a n b -> ~ owned (page_state s) b) -> (forall b, owned p' b <-> owned (page_state s) b \/ in_pages a n b) ->
  let s' := MkHeap p' (descs s) (<[a := MkArena ARENA_MAGIC None n]> (arenas s)) by' in
  heap_inv s' /\ live s (a + 12) = None /\ live s' (a + 12) = Some (4096 * n - 12) /\ forall q, q <> a + 12 -> live s' q = live s q.
Proof.
  intros [HW Hbusy] Hp' Hn Hr Hno Ho s'. set (x := MkArena ARENA_MAGIC None n).
  destruct (add_arena_pages s p' a x) as (Hnone & Harena & Hsep); [done..|]. pose proof Hr as (Ha0 & Hal & _).
  assert (Hpg : pg (a + 12) = a) by (apply pg_between; [done|lia]). split; [split|split; [|split]].
  - split; cbn; try done; try apply HW.
    + intros k d b Hk Hb. destruct (hw_free s HW k d b Hk Hb) as (c & y & i & Hc & Hy). exists c, y, i. cbn. by rewrite lookup_insert_ne by congruence.
    + intros c y k Hc Hy. destruct (decide (c = a)) as [->|Hne].
      * rewrite lookup_insert_eq in Hc. by injection Hc as <-.
      * rewrite lookup_insert_ne in Hc by done. by apply (hw_count s HW c y k).
  - intros c y k d Hne Hc Hy Hk. cbn in Hc. destruct (decide (c = a)) as [->|Hna].
    + rewrite lookup_insert_eq in Hc. by injection Hc as <-.
    + rewrite lookup_insert_ne in Hc by done. by apply (Hbusy c y k d).
  - unfold live. by rewrite Hpg, Hnone.
  - unfold live. cbn. rewrite Hpg, lookup_insert_eq. cbn. by rewrite bool_decide_true.
  - intros q Hq. unfold live at 1. cbn. destruct (decide (pg q = a)) as [Hqa|Hqa].
    + rewrite Hqa, lookup_insert_eq. cbn. rewrite bool_decide_false by done. unfold live. by rewrite Hqa, Hnone.
    + by rewrite lookup_insert_ne.
Qed.

Lemma find_desc_spec size l :
  match find_desc size l with
  | Some k => exists d, l !! k = Some d /\ size <= block_size d
  | None => Forall (fun d => block_size d < size) l
  end.
Proof.
  induction l as [|d l IH]; cbn; [constructor|]. destruct (size <=? block_size d) eqn:E; zbool; [by exists d|].
  destruct (find_desc size l) as [k|]; cbn; [done|by constructor].
Qed.

(** ** malloc *)

(** Block [p] of [n] bytes is added. *)
Definition allocated (s : heap) (p n : Z) (s' : heap) : Prop :=
  p <> 0 /\ live s p = None /\ live s' p = Some n /\ (forall q, q <> p -> live s' q = live s q).

Lemma same_bytes_trans s1 s2 s3 : same_bytes s1 s2 -> same_bytes s2 s3 -> (forall q n, live s1 q = Some n -> live s2 q = Some n) -> same_bytes s1 s3.
Proof. intros H1 H2 Hl p n i Hp Hi. rewrite (H2 p n i) by eauto. by apply (H1 p n i). Qed.

Lemma malloc_spec s size : heap_inv s -> 0 < size < 2 ^ 32 - 11 ->
  exists p s', malloc size s = Ok (p, s') /\ heap_inv s' /\ same_bytes s s' /\
    (p = 0 /\ (forall q, live s' q = live s q) \/ exists n, size <= n /\ allocated s p n s').
Proof.
  intros HI Hsize. pose proof HI as [HW Hbusy]. unfold malloc. rewrite (proj2 (Z.eqb_neq size 0)) by lia. erewrite stbind_step by done.
  pose proof (find_desc_spec size (descs s)) as Hf. destruct (find_desc size (descs s)) as [k|].
  - destruct Hf as (d & Hk & Hle). erewrite stbind_step by (by apply get_desc_Ok). case_bool_decide as Hnil.
    + destruct (new_arena_Ok s k d HI Hk Hnil) as (ok & s1 & E1 & Hl1 & Hb1 & [[-> HI1]|(-> & b & l & HW1 & Hbusy1 & Hk1)]).
      * erewrite stbind_step by exact E1. exists 0, s1. split; [done|]. split; [done|]. split; [done|]. by left.
      * erewrite stbind_step by exact E1. destruct (take_first_Ok s1 k _ b l HW1 Hk1 eq_refl Hbusy1) as (s2 & E2 & HI2 & Hn2 & Hp2 & Hq2 & Hb2).
        exists b, s2. split; [exact E2|]. split; [done|]. split.
        { apply (same_bytes_trans s s1); [done| |]; [intros p n i _ _; by rewrite Hb2|]. intros q n Hq. by rewrite Hl1. }
        right. exists (block_size d). split; [done|]. split; [|split; [by rewrite <- Hl1|split; [done|]]].
        { intros ->. destruct (live_range s2 0 _ (proj1 HI2) Hp2) as (? & _ & _ & _ & _ & ? & _). lia. }
        intros q Hq. rewrite Hq2 by done. apply Hl1.
    + erewrite stbind_step by done. cbn [negb]. destruct (free_list d) as [|b l] eqn:El; [done|].
      destruct (take_first_Ok s k d b l HW Hk El) as (s2 & E2 & HI2 & Hn2 & Hp2 & Hq2 & Hb2).
      { intros a x j e _ Hx. apply (Hbusy a x j e); [|done]. destruct (hw_arena s HW a x Hx) as (_ & _ & [? _] & _). lia. }
      exists b, s2. split; [exact E2|]. split; [done|]. split; [intros p n i _ _; by rewrite Hb2|].
      right. exists (block_size d). split; [done|]. split; [|done]. intros ->. destruct (live_range s2 0 _ (proj1 HI2) Hp2) as (? & _ & _ & _ & _ & ? & _). lia.
  - set (n := DIV_ROUND_UP (u32 (size + sizeof_arena)) PGSIZE).
    assert (Hn : 0 <= n < 2 ^ 20 /\ (0 < n -> size <= 4096 * n - 12)).
    { unfold n, DIV_ROUND_UP, sizeof_arena. change PGSIZE with 4096. destruct (decide (size = 2 ^ 32 - 12)) as [->|Hne]; [vm_compute; split; [split; congruence|done]|].
      rewrite (u32_small (size + 12)) by (unfold is_u32; lia). destruct (decide (size + 12 + 4096 - 1 < 2 ^ 32)).
      - rewrite u32_small by (unfold is_u32; lia). Z.to_euclidean_division_equations. lia.
      - unfold u32. replace (size + 12 + 4096 - 1) with (size + 4107 - 2 ^ 32 + 1 * 2 ^ 32) by lia. rewrite Z.mod_add, Z.mod_small by lia.
        rewrite Z.div_small by lia. lia. }
    destruct (get_law (page_state s) n (hw_pages s HW)) as (a & p' & Eg & Hp' & [[-> Ho]|(Hn0 & Hr & Hno & Ho)]); [lia|..].
    + erewrite stbind_step by (unfold on_pages; by rewrite Eg). exists 0, (MkHeap p' (descs s) (arenas s) (bytes s)). split; [done|].
      split; [split; [by apply wf_same_pages|exact Hbusy]|]. split; [done|]. by left.
    + erewrite stbind_step by (unfold on_pages; by rewrite Eg). pose proof Hr as (Ha0 & Hal & _). rewrite (proj2 (Z.eqb_neq a 0)) by lia.
      do 2 (erewrite stbind_step by done). cbn beta.
      destruct (big_arena_wf s p' a n (forget (Z.to_nat (PGSIZE * n)) a (bytes s)) HI Hp') as (HI' & H1 & H2 & H3); [lia|done|done|done|].
      exists (a + 12), (MkHeap p' (descs s) (<[a := MkArena ARENA_MAGIC None n]> (arenas s)) (forget (Z.to_nat (PGSIZE * n)) a (bytes s))).
      split; [done|]. split; [done|]. split.
      * intros p m i Hl Hi. pose proof (live_owned s p m i HW Hl Hi) as How. cbn. rewrite lookup_forget, bool_decide_false; [done|].
        change PGSIZE with 4096. intros Hc. apply (Hno (pg (p + i))); [|done]. apply in_pages_of; [done|lia].
      * right. exists (4096 * n - 12). split; [by apply Hn|]. split; [lia|done].
Qed.

(** ** free *)

(** Without the blocks of arena [a]. *)
Definition purge (a : Z) (d : desc) : desc := with_list d (filter (fun b => pg b <> a) (free_list d)).

Lemma count_filter a c l : c <> a -> count c (filter (fun b => pg b <> a) l) = count c l.
Proof.
  intros Hne. unfold count. rewrite list_filter_filter. do 2 f_equal. apply list_filter_iff. intros b. naive_solver.
Qed.

(** Blocks of other arenas lie elsewhere. *)
Lemma live_outside s a x q n i : heap_wf s -> arenas s !! a = Some x -> live s q = Some n -> pg q <> a -> 0 <= i < n ->
  ~ (a <= q + i < a + 4096 * npages x).
Proof.
  intros HW Ha Hl Hne Hi Hc. apply Hne. destruct (live_range s q n HW Hl) as (y & Hy & _ & Hlo & Hhi & _).
  destruct (hw_arena s HW _ y Hy) as (_ & _ & (_ & Hal & _) & _). destruct (hw_arena s HW _ x Ha) as (_ & _ & (_ & Hal' & _) & _).
  apply (hw_sep s HW _ _ y x (pg (q + i)) Hy Ha); apply in_pages_of; (done || lia).
Qed.

Lemma drop_arena s a x p' by' : heap_wf s -> busy_but a s -> arenas s !! a = Some x -> pa_ok p' ->
  (forall b, owned p' b <-> owned (page_state s) b /\ ~ in_pages a (npages x) b) ->
  let s' := MkHeap p' (purge a <$> descs s) (delete a (arenas s)) by' in
  heap_inv s' /\ (forall q, live s' q = if decide (pg q = a) then None else live s q).
Proof.
  intros HW Hbusy Ha Hp' Ho s'.
  assert (Hld : forall j e, (purge a <$> descs s) !! j = Some e -> exists d, descs s !! j = Some d /\ e = purge a d).
  { intros j e He. rewrite list_lookup_fmap in He. destruct (descs s !! j) as [d|]; [|done]. injection He as <-. by exists d. }
  split; [split|].
  - split; cbn; [done|rewrite length_fmap; apply HW|..].
    + intros j e (d & Hd & ->)%Hld. apply (hw_desc s HW j d Hd).
    + intros j e b (d & Hd & ->)%Hld Hb. cbn in Hb. apply list_elem_of_filter in Hb as [Hne Hb].
      destruct (hw_free s HW j d b Hd Hb) as (c & y & i & Hc & Hy & Hi & Hbi). exists c, y, i. cbn. rewrite lookup_delete_ne; [done|]. intros <-. apply Hne. rewrite Hbi.
      destruct (hw_arena s HW a y Hc) as (_ & _ & (_ & Hal & _) & _). by apply (blk_in a j d i (hw_desc s HW j d Hd)).
    + intros j e (d & Hd & ->)%Hld. apply NoDup_filter. by apply (hw_nodup s HW j d).
    + intros c y Hc. apply lookup_delete_Some in Hc as [Hne Hc]. destruct (hw_arena s HW c y Hc) as (? & ? & ? & Hb). split_and!; try done; try lia.
      intros b Hin. apply Ho. split; [by apply Hb|]. intros Hin'. apply Hne. by apply (hw_sep s HW a c x y b).
    + intros c c' y y' b Hc Hc'. apply lookup_delete_Some in Hc as [_ Hc], Hc' as [_ Hc']. by apply (hw_sep s HW c c').
    + intros c y k Hc Hy. apply lookup_delete_Some in Hc as [Hne Hc]. destruct (hw_count s HW c y k Hc Hy) as (d & Hd & Hcnt & Hmax).
      exists (purge a d). rewrite list_lookup_fmap, Hd. cbn. rewrite count_filter by congruence. done.
  - intros c y k e _ Hc Hy He. cbn in Hc, He. apply lookup_delete_Some in Hc as [Hne Hc]. apply Hld in He as (d & Hd & ->). cbn. by apply (Hbusy c y k d).
  - intros q. unfold live at 1. cbn. case_decide as Hq; [by rewrite Hq, lookup_delete_eq|]. rewrite lookup_delete_ne by congruence. unfold live.
    destruct (arenas s !! pg q) as [y|]; [|done]. cbn. destruct (a_desc y) as [k|]; [|done]. rewrite list_lookup_fmap. destruct (descs s !! k) as [d|]; [|done]. cbn.
    erewrite bool_decide_ext; [done|]. rewrite list_elem_of_filter. tauto.
Qed.

Lemma filter_id {A} (Q : A -> Prop) `{!forall x, Decision (Q x)} (l : list A) : Forall Q l -> filter Q l = l.
Proof. induction 1 as [|x l Hx _ IH]; [done|]. by rewrite filter_cons_True, IH. Qed.

(** Only the free list of the arena's own descriptor holds its blocks. *)
Lemma purge_other s a x k d : heap_wf s -> arenas s !! a = Some x -> descs s !! k = Some d -> a_desc x <> Some k -> purge a d = d.
Proof.
  intros HW Ha Hd Hx. unfold purge, with_list. destruct d as [bs bpa l]. cbn. f_equal.
  apply filter_id, Forall_forall. intros b Hb. destruct (hw_free s HW k _ b Hd Hb) as (c & y & i & Hc & Hy & Hi & Hbi). intros <-.
  destruct (hw_arena s HW c y Hc) as (_ & _ & (_ & Hal & _) & _). cbn in *.
  assert (Hcc : pg b = c) by (rewrite Hbi; by apply (blk_in c k (MkDesc bs bpa l) i (hw_desc s HW k _ Hd))). rewrite Hcc in Ha. congruence.
Qed.

Lemma filter_ext_in {A} (Q R : A -> Prop) `{!forall x, Decision (Q x), !forall x, Decision (R x)} (l : list A) :
  (forall x, x ∈ l -> Q x <-> R x) -> filter Q l = filter R l.
Proof.
  induction l as [|x l IH]; intros Hl; [done|]. rewrite !filter_cons, IH by (intros y Hy; apply Hl; by right).
  specialize (Hl x (list_elem_of_here x l)). repeat case_decide; tauto || done.
Qed.

Lemma remove_blocks_Ok n : forall (s : heap) k d a x i,
  0 < a -> arenas s !! a = Some x -> magic x = ARENA_MAGIC -> a_desc x = Some k -> descs s !! k = Some d -> 0 < block_size d ->
  0 <= i -> i + Z.of_nat n <= blocks_per_arena d -> (forall j, i <= j < i + Z.of_nat n -> blk a (block_size d) j ∈ free_list d) ->
  remove_blocks n k a i s =
    Ok (tt, MkHeap (page_state s) (<[k := with_list d (filter (fun b => b ∉ blk a (block_size d) <$> seqZ i (Z.of_nat n)) (free_list d))]> (descs s)) (arenas s) (bytes s)).
Proof.
  induction n as [|n IH]; intros s k d a x i Ha Hx Hm Hk Hd Hbs Hi Hle Hin; cbn [remove_blocks].
  - rewrite filter_id by (apply Forall_forall; intros b _; apply not_elem_of_nil). replace (with_list d (free_list d)) with d by (by destruct d).
    rewrite list_insert_id by done. by destruct s.
  - pose proof (lookup_lt_Some _ _ _ Hd) as Hlt. erewrite stbind_step by (apply (arena_to_block_Ok s a x k d i); [lia|done|done|done|done|lia]).
    set (b := blk a (block_size d) i) in *.
    set (s1 := MkHeap (page_state s) (<[k := with_list d (filter (fun c => c <> b) (free_list d))]> (descs s)) (arenas s) (bytes s)).
    erewrite stbind_step. 2:{ unfold remove. erewrite stbind_step by (by apply get_desc_Ok). rewrite bool_decide_true by (apply Hin; lia). done. }
    etrans; [apply (IH s1 k (with_list d (filter (fun c => c <> b) (free_list d))) a x (i + 1)); try done; [cbn; by rewrite list_lookup_insert_eq|lia|cbn; lia|]|].
    { intros j Hj. cbn. apply list_elem_of_filter. split; [unfold b, blk; nia|apply Hin; lia]. }
    unfold with_list. cbn. rewrite list_insert_insert_eq. do 5 f_equal. rewrite list_filter_filter. apply list_filter_iff. intros c.
    replace (Z.of_nat (S n)) with (Z.succ (Z.of_nat n)) by lia. rewrite (seqZ_cons i) by lia. cbn. rewrite Z.pred_succ, not_elem_of_cons.
    replace (Z.succ i) with (i + 1) by lia. tauto.
Qed.

(** When the counter of an arena says that all its blocks are free, they are
    in the list. *)
Lemma all_free s a x k d : heap_wf s -> arenas s !! a = Some x -> a_desc x = Some k -> descs s !! k = Some d -> free_cnt x = blocks_per_arena d ->
  forall b, b ∈ free_list d /\ pg b = a <-> exists i, 0 <= i < blocks_per_arena d /\ b = blk a (block_size d) i.
Proof.
  intros HW Ha Hx Hd Hfull. pose proof (hw_desc s HW k d Hd) as Hok. destruct (hw_arena s HW a x Ha) as (_ & _ & (_ & Hal & _) & _).
  destruct (hw_count s HW a x k Ha Hx) as (d' & Hd' & Hcnt & _). rewrite Hd in Hd'. injection Hd' as <-. rewrite Hfull in Hcnt. unfold count in Hcnt.
  destruct (desc_bounds k d Hok) as [Hbs _].
  assert (Hsub : forall b, b ∈ free_list d /\ pg b = a -> exists i, 0 <= i < blocks_per_arena d /\ b = blk a (block_size d) i).
  { intros b [Hb Hpg]. destruct (hw_free s HW k d b Hd Hb) as (c & y & i & Hc & _ & Hi & Hbi). destruct (hw_arena s HW c y Hc) as (_ & _ & (_ & Hcl & _) & _).
    exists i. split; [done|]. rewrite Hbi. f_equal. rewrite <- Hpg, Hbi. symmetry. by apply (blk_in c k d i). }
  set (l1 := filter (fun b => pg b = a) (free_list d)) in *. set (l2 := blk a (block_size d) <$> seqZ 0 (blocks_per_arena d)).
  assert (Hp : l1 ≡ₚ l2).
  { apply submseteq_length_Permutation.
    - apply NoDup_submseteq; [apply NoDup_filter; by apply (hw_nodup s HW k d)|]. intros b Hb. apply list_elem_of_filter in Hb as [Hpg Hb].
      destruct (Hsub b (conj Hb Hpg)) as (i & Hi & ->). apply list_elem_of_fmap. exists i. split; [done|]. apply elem_of_seqZ. lia.
    - unfold l2. rewrite length_fmap, length_seqZ. lia. }
  intros b. split; [apply Hsub|]. intros (i & Hi & ->). assert (Hin : blk a (block_size d) i ∈ l1).
  { rewrite Hp. apply list_elem_of_fmap. exists i. split; [done|]. apply elem_of_seqZ. lia. }
  apply list_elem_of_filter in Hin. tauto.
Qed.

(** Giving the pages of an arena back. *)
Lemma free_arena_Ok s a x ds : heap_wf s -> arenas s !! a = Some x ->
  exists p', let s' := MkHeap p' ds (delete a (arenas s)) (fill (Z.to_nat (PGSIZE * npages x)) a 0xcc (bytes s)) in
    free_arena a (npages x) (MkHeap (page_state s) ds (arenas s) (bytes s)) = Ok (tt, s') /\ pa_ok p' /\ (forall b, owned p' b <-> owned (page_state s) b /\ ~ in_pages a (npages x) b).
Proof.
  intros HW Ha. destruct (hw_arena s HW a x Ha) as (_ & Hn & Hr & Ho).
  destruct (free_law (page_state s) a (npages x) (hw_pages s HW) Hn Hr Ho) as (p' & E & Hp' & Ho'). exists p'. split; [|done].
  unfold free_arena. do 2 (erewrite stbind_step by done). unfold on_pages. cbn. by rewrite E.
Qed.

Definition freed (s : heap) (p : Z) (s' : heap) : Prop :=
  live s' p = None /\ (forall q, q <> p -> live s' q = live s q) /\
  (forall q m i, q <> p -> live s q = Some m -> 0 <= i < m -> bytes s' !! (q + i) = bytes s !! (q + i)).

Lemma free_big s p x : heap_inv s -> arenas s !! pg p = Some x -> a_desc x = None -> p = pg p + 12 ->
  exists s', free p s = Ok (tt, s') /\ heap_inv s' /\ freed s p s'.
Proof.
  intros [HW Hbusy] Hx Hd Hp. destruct (hw_arena s HW _ x Hx) as (Hm & Hn & (H1 & H2 & H3) & _).
  assert (Hbusy' : busy_but (pg p) s). { intros a y k d _ Hy. apply (Hbusy a y k d); [|done]. destruct (hw_arena s HW a y Hy) as (_ & _ & [? _] & _). lia. }
  destruct (free_arena_Ok s (pg p) x (descs s) HW Hx) as (p' & E & Hp' & Ho).
  assert (Hs : MkHeap (page_state s) (descs s) (arenas s) (bytes s) = s) by (by destruct s). cbn zeta in E. rewrite Hs in E.
  destruct (drop_arena s (pg p) x p' (fill (Z.to_nat (PGSIZE * npages x)) (pg p) 0xcc (bytes s)) HW Hbusy' Hx Hp' Ho) as [HI' Hl].
  assert (Hpurge : purge (pg p) <$> descs s = descs s).
  { apply list_eq. intros j. rewrite list_lookup_fmap. destruct (descs s !! j) as [d|] eqn:Ed; [|done]. cbn. f_equal. apply (purge_other s _ x j); [done..|]. by rewrite Hd. }
  rewrite Hpurge in HI', Hl. eexists. split; [|split; [exact HI'|split; [|split]]].
  - unfold free. rewrite (proj2 (Z.eqb_neq p 0)) by lia.
    erewrite stbind_step by (apply (block_to_arena_Ok s p x); [unfold is_u32; lia|lia|done|done|by rewrite Hd]).
    erewrite stbind_step by (by apply get_arena_Ok). rewrite Hd. unfold npages in E. rewrite Hd in E. unfold npages. rewrite Hd. exact E.
  - rewrite Hl. by rewrite decide_True.
  - intros q Hq. rewrite Hl. case_decide as Hqp; [|done]. unfold live. rewrite Hqp, Hx. cbn. rewrite Hd, bool_decide_false; [done|]. congruence.
  - intros q m i Hq Hlq Hi. assert (Hne : pg q <> pg p). { intros Hqp. unfold live in Hlq. rewrite Hqp, Hx in Hlq. cbn in Hlq. rewrite Hd in Hlq. case_bool_decide; [congruence|done]. }
    cbn. rewrite lookup_fill, bool_decide_false; [done|]. pose proof (live_outside s (pg p) x q m i HW Hx Hlq Hne Hi). change PGSIZE with 4096. lia.
Qed.

(** The part of free on a normal block before the test of the counter. *)
Lemma free_small s x k d p i : heap_inv s -> arenas s !! pg p = Some x -> a_desc x = Some k -> descs s !! k = Some d ->
  0 <= i < blocks_per_arena d -> p = blk (pg p) (block_size d) i -> p ∉ free_list d ->
  exists by', let s1 := relist s k d (p :: free_list d) (pg p) x (free_cnt x + 1) by' in
    heap_wf s1 /\ busy_but (pg p) s1 /\ freed s p s1 /\ 0 <= free_cnt x < blocks_per_arena d /\
    free p s = (if blocks_per_arena d <=? free_cnt x + 1 then
                  assertM (free_cnt x + 1 =? blocks_per_arena d);;
                  remove_blocks (Z.to_nat (blocks_per_arena d)) k (pg p) 0;;
                  free_arena (pg p) 1
                else mret tt) s1.
Proof.
  intros [HW Hbusy] Ha Hx Hk Hi Hp Hnin. pose proof (lookup_lt_Some _ _ _ Hk) as Hlt. set (a := pg p) in *.
  destruct (hw_arena s HW a x Ha) as (Hm & _ & (Ha0 & Hal & Hamax) & _). pose proof (hw_desc s HW k d Hk) as Hok.
  destruct (blk_in a k d i Hok Hal Hi) as (B1 & B2 & _ & B4 & B5). rewrite <- Hp in B1, B2, B4, B5. destruct (desc_bounds k d Hok) as [Hbs Hfit].
  destruct (hw_count s HW a x k Ha Hx) as (d' & Hd' & Hcnt & _). rewrite Hk in Hd'. injection Hd' as <-.
  assert (Hlt' : free_cnt x < blocks_per_arena d) by (apply (Hbusy a x k d); [lia|done..]). pose proof (count_pos a (free_list d)).
  assert (Hu : u32 (free_cnt x + 1) = free_cnt x + 1) by (apply u32_small; unfold is_u32; nia).
  unfold npages in Hamax. rewrite Hx in Hamax.
  exists (forget (Z.to_nat sizeof_list_elem) p (fill (Z.to_nat (block_size d)) p 0xcc (bytes s))). cbn zeta. set (s1 := relist _ _ _ _ _ _ _ _).
  assert (Hl0 : live s p = Some (block_size d)). { rewrite Hp, (live_blk s a x k d i) by done. by rewrite <- Hp, bool_decide_false. }
  assert (HW1 : heap_wf s1).
  { apply relist_wf; try done; [by apply NoDup_cons; split; [|apply (hw_nodup s HW k d)]| |rewrite count_cons, decide_True by done; lia|lia|].
    - intros b Hb. apply elem_of_cons in Hb as [->|Hb]; [by exists a, x, i|]. by apply (hw_free s HW k d).
    - intros c Hc. rewrite count_cons, decide_False by (unfold a in Hc; congruence). lia. }
  split; [done|]. split; [by apply (relist_busy s k d _ a x _ _ 0); [done|left|..]|]. split; [split; [|split]|].
  - assert (Hd2 : descs s1 !! k = Some (with_list d (p :: free_list d))) by (cbn; by rewrite list_lookup_insert_eq).
    assert (Ha2 : arenas s1 !! a = Some (with_cnt x (free_cnt x + 1))) by (cbn; by rewrite lookup_insert_eq).
    rewrite Hp. pose proof (live_blk s1 a _ k _ i HW1 Ha2 Hx Hd2 Hi) as E. cbn in E. rewrite E. rewrite <- Hp, bool_decide_true; [done|left].
  - intros q Hq. apply relist_live; [done..|]. rewrite elem_of_cons. naive_solver.
  - intros q m j Hq Hlq Hj. cbn. unfold sizeof_list_elem. destruct (live_disjoint s p q _ m HW Hl0 Hlq) as [?|?]; [congruence|..].
    + rewrite lookup_forget, bool_decide_false, lookup_fill, bool_decide_false by lia. done.
    + rewrite lookup_forget, bool_decide_false, lookup_fill, bool_decide_false by lia. done.
  - split; [lia|]. unfold free. rewrite (proj2 (Z.eqb_neq p 0)) by lia.
    erewrite stbind_step. 2:{ apply (block_to_arena_Ok s p x); [unfold is_u32; lia|fold a; lia|done|done|]. rewrite Hx. exists d. split; [done|]. fold a. split; [lia|done]. }
    fold a. erewrite stbind_step by (by apply get_arena_Ok). rewrite Hx. erewrite stbind_step by (by apply get_desc_Ok). erewrite stbind_step by done.
    erewrite stbind_step. 2:{ unfold push_front. erewrite stbind_step by (apply (get_desc_Ok _ k d); done). by erewrite stbind_step by done. }
    rewrite Hu. unfold s1, relist, with_cnt. rewrite Hx. by erewrite stbind_step by done.
Qed.

Lemma free_Ok s p n : heap_inv s -> live s p = Some n -> exists s', free p s = Ok (tt, s') /\ heap_inv s' /\ freed s p s'.
Proof.
  intros HI Hl. destruct (live_cases s p n (proj1 HI) Hl) as [(x & Hx & Hd & Hp & _)|(x & k & d & i & Hx & Hd & Hk & Hi & Hp & Hnin & ->)].
  { by apply (free_big s p x). }
  destruct (free_small s x k d p i HI Hx Hd Hk Hi Hp Hnin) as (by' & HW1 & Hbusy1 & Hf & Hcnt & E). set (a := pg p) in *.
  set (s1 := relist s k d (p :: free_list d) a x (free_cnt x + 1) by') in *. pose proof (lookup_lt_Some _ _ _ Hk) as Hlt.
  assert (Hd1 : descs s1 !! k = Some (with_list d (p :: free_list d))) by (cbn; by rewrite list_lookup_insert_eq).
  assert (Ha1 : arenas s1 !! a = Some (with_cnt x (free_cnt x + 1))) by (cbn; by rewrite lookup_insert_eq).
  rewrite E. destruct (blocks_per_arena d <=? free_cnt x + 1) eqn:Ec; zbool.
  2:{ exists s1. split; [done|]. split; [|done]. split; [done|]. intros c y j e _ Hc Hj He. destruct (decide (c = a)) as [->|Hne]; [|by apply (Hbusy1 c y j e)].
      rewrite Ha1 in Hc. injection Hc as <-. cbn in Hj. rewrite Hd in Hj. injection Hj as <-. rewrite Hd1 in He. injection He as <-. cbn. lia. }
  assert (Hfull : free_cnt x + 1 = blocks_per_arena d) by lia. rewrite (proj2 (Z.eqb_eq _ _) Hfull). erewrite stbind_step by done.
  pose proof (all_free s1 a _ k _ HW1 Ha1 Hd Hd1 Hfull) as Hall. cbn [free_list with_list blocks_per_arena block_size] in Hall.
  destruct (hw_arena s1 HW1 a _ Ha1) as (Hm1 & _ & (Ha0 & Hal & _) & _). pose proof (hw_desc s1 HW1 k _ Hd1) as Hok. destruct (desc_bounds k _ Hok) as [Hbs _].
  set (l1 := filter (fun b => pg b <> a) (p :: free_list d)).
  erewrite stbind_step.
  2:{ apply (remove_blocks_Ok _ s1 k _ a _ 0 Ha0 Ha1 Hm1 Hd Hd1); [cbn in *; lia|lia|cbn; lia|]. intros j Hj. cbn in *. apply Hall. exists j. split; [lia|done]. }
  rewrite Z2Nat.id by (cbn; lia). cbn [with_list free_list block_size blocks_per_arena].
  match goal with |- context [with_list _ (filter ?Q ?l)] => replace (filter Q l) with l1 end.
  2:{ apply filter_ext_in. intros b Hb. rewrite list_elem_of_fmap. split.
      - intros Hne (j & -> & Hj%elem_of_seqZ). apply Hne. apply (Hall _). exists j. split; [lia|done].
      - intros Hne Hpg. apply Hne. destruct (proj1 (Hall b) (conj Hb Hpg)) as (j & Hj & ->). exists j. split; [done|]. apply elem_of_seqZ. lia. }
  set (ds := <[k := with_list (with_list d (p :: free_list d)) l1]> (descs s1)).
  assert (Hds : ds = purge a <$> descs s1).
  { apply list_eq. intros j. rewrite list_lookup_fmap. unfold ds. destruct (decide (j = k)) as [->|Hne].
    - rewrite list_lookup_insert_eq by (cbn; by rewrite length_insert). by rewrite Hd1.
    - rewrite list_lookup_insert_ne by done. destruct (descs s1 !! j) as [e|] eqn:He; [|done]. cbn. f_equal. symmetry. apply (purge_other s1 a _ j e HW1 Ha1 He).
      cbn. rewrite Hd. congruence. }
  assert (Hnp : npages (with_cnt x (free_cnt x + 1)) = 1) by (unfold npages; cbn; by rewrite Hd).
  destruct (free_arena_Ok s1 a _ ds HW1 Ha1) as (p' & Efree & Hp' & Ho). cbn zeta in Efree. rewrite Hnp in Efree, Ho.
  destruct (drop_arena s1 a _ p' (fill (Z.to_nat (PGSIZE * 1)) a 0xcc (bytes s1)) HW1 Hbusy1 Ha1 Hp') as [HI' Hlive]; [by rewrite Hnp|].
  rewrite <- Hds in HI', Hlive. eexists. split; [exact Efree|]. split; [exact HI'|]. destruct Hf as (F1 & F2 & F3).
  assert (Hnl : forall q, pg q = a -> live s1 q = None).
  { intros q Hq. destruct (live s1 q) as [m|] eqn:Hm; [|done]. destruct (live_cases s1 q m HW1 Hm) as [(y & Hy & Hyd & _)|(y & j & e & i' & Hy & Hyd & He & Hi' & Hqi & Hnq & _)];
      rewrite Hq, Ha1 in Hy; injection Hy as <-; cbn in Hyd; rewrite Hd in Hyd; [done|]. injection Hyd as <-. rewrite Hd1 in He. injection He as <-. cbn in *.
    destruct Hnq. apply (Hall q). exists i'. rewrite Hq in Hqi. done. }
  split; [rewrite Hlive; by rewrite decide_True|]. split.
  - intros q Hq. rewrite Hlive, <- F2 by done. case_decide; [by rewrite Hnl|done].
  - intros q m j Hq Hlq Hj. rewrite <- (F3 q m j) by done. assert (Hl1 : live s1 q = Some m) by (by rewrite F2).
    assert (Hne : pg q <> a) by (intros Hqa; by rewrite Hnl in Hl1). pose proof (live_outside s1 a _ q m j HW1 Ha1 Hl1 Hne Hj) as Hout. rewrite Hnp in Hout.
    cbn [bytes]. rewrite lookup_fill, bool_decide_false; [done|]. change (PGSIZE * 1) with 4096. lia.
Qed.

End Spec.
