(* ===== verification/PallocLaws.v ===== *)
(** The page allocator keeps the promises that the block allocator relies on:
    the instance of the interface of Malloc for palloc.c. *)

From stdpp Require Import base list numbers gmap.
From Stdlib Require Import ZArith Lia.
From S2P Require Import Prelude Bitmap Vm PageDir Malloc MallocSpec.
Open Scope Z_scope.

#[export] Instance palloc : PageAlloc vm := {
  get_multiple := palloc_get_multiple 0;
  free_multiple := palloc_free_multiple
}.

(** ** Runs of pages in a pool *)

Lemma lookup_splice {A} (l : list A) i n v j : (i + n <= length l)%nat ->
  (take i l ++ replicate n v ++ drop (i + n) l) !! j = if bool_decide (i <= j < i + n)%nat then Some v else l !! j.
Proof.
  intros Hl. case_bool_decide as Hj.
  - rewrite lookup_app_r by (rewrite length_take; lia). rewrite length_take, lookup_app_l by (rewrite length_replicate; lia). apply lookup_replicate_2. lia.
  - destruct (decide (j < i)%nat).
    + rewrite lookup_app_l by (rewrite length_take; lia). by rewrite lookup_take_lt by lia.
    + rewrite !lookup_app_r by (rewrite ?length_replicate, length_take; lia). rewrite length_take, length_replicate, lookup_drop. f_equal. lia.
Qed.

Lemma pool_alloc_n p n : bitmap_wf (used_map p) ->
  exists r b, bitmap_scan_and_flip (used_map p) 0 (Z.of_nat n) false = Ok (r, b) /\ bitmap_wf b /\ bit_cnt b = bit_cnt (used_map p) /\
    (r = BITMAP_ERROR /\ b = used_map p \/
     0 <= r /\ r + Z.of_nat n <= bit_cnt (used_map p) /\ (forall k, r <= k < r + Z.of_nat n -> ~ in_use p k) /\
       forall j q, in_use (MkPool b q) j <-> in_use p j \/ r <= j < r + Z.of_nat n).
Proof.
  intros Hwf. destruct (bitmap_scan_and_flip_spec (used_map p) 0 n false Hwf ltac:(lia)) as (r & b & E & Hwf' & Hc & Hfirst & Hr).
  pose proof (length_babs (used_map p)) as Hlen. pose proof (proj1 Hwf) as Hsize. exists r, b. split; [exact E|]. split; [done|]. split; [done|].
  destruct Hr as [[-> ->]|(i & -> & _ & Hi & Hb)]; [by left|]. right. split; [lia|]. split; [lia|].
  assert (Hrun : run_of (babs (used_map p)) i n false).
  { destruct Hfirst as [(i' & Hi' & _ & _ & Hrun & _)|[Hbad _]]; [by apply Nat2Z.inj in Hi' as ->|unfold BITMAP_ERROR, ELEM_BITS in *; lia]. }
  split.
  - intros k Hk [_ Hu]. unfold run_of in Hrun. assert (Hx : take n (drop i (babs (used_map p))) !! (Z.to_nat k - i)%nat = Some true).
    { rewrite lookup_take_lt, lookup_drop by lia. by replace (i + (Z.to_nat k - i))%nat with (Z.to_nat k) by lia. }
    rewrite Hrun in Hx. by apply lookup_replicate in Hx as [? _].
  - intros j q. unfold in_use. cbn. rewrite Hb. rewrite lookup_splice by lia. case_bool_decide; cbn [negb]; [|].
    + split; [intros [? _]; right; lia|]. intros [[? _]|?]; (split; [lia|done]).
    + split; [intros [? ?]; by left|]. intros [?|?]; [done|lia].
Qed.

Lemma pool_free_n p k n : bitmap_wf (used_map p) -> 0 <= k -> (forall j, k <= j < k + Z.of_nat n -> in_use p j) -> (0 < n)%nat ->
  bitmap_all (used_map p) k (Z.of_nat n) = Ok true /\
  exists b, bitmap_set_multiple (used_map p) k (Z.of_nat n) false = Ok b /\ bitmap_wf b /\ bit_cnt b = bit_cnt (used_map p) /\
    forall j q, in_use (MkPool b q) j <-> in_use p j /\ ~ (k <= j < k + Z.of_nat n).
Proof.
  intros Hwf Hk Hu Hn. pose proof (length_babs (used_map p)) as Hlen. pose proof (in_use_range p (k + Z.of_nat n - 1) (Hu (k + Z.of_nat n - 1) ltac:(lia))) as Hr.
  destruct (Z_of_nat_complete k Hk) as [i ->]. split.
  - unfold bitmap_all. rewrite (bitmap_contains_spec _ i n) by (done || lia). cbn [fmap res_fmap]. rewrite bool_decide_false; [done|].
    intros (j & Hj)%list_elem_of_lookup_1. apply lookup_take_Some in Hj as [Hj Hlt]. rewrite lookup_drop in Hj.
    destruct (Hu (Z.of_nat (i + j))) as [_ Hx]; [lia|]. rewrite Nat2Z.id in Hx. congruence.
  - destruct (bitmap_set_multiple_spec (used_map p) i n false Hwf ltac:(lia)) as (b & E & Hwf' & Hc & Hb).
    exists b. split; [done|]. split; [done|]. split; [done|]. intros j q. unfold in_use. cbn. rewrite Hb, lookup_splice by lia. case_bool_decide.
    + split; [by intros [_ ?]|]. intros [[? _] ?]. lia.
    + split; [intros [? ?]; split; [done|lia]|by intros [? _]].
Qed.

Lemma fill_pages_Ok n : forall m a x, (forall i, 0 <= i < Z.of_nat n -> full_page m (a + PGSIZE * i)) ->
  exists m', fill_pages n a x m = Ok (tt, m') /\ m' = upd_pages (fun _ => pages m') m /\ forall b, full_page m b -> full_page m' b.
Proof.
  induction n as [|n IH]; intros m a x Hf; cbn [fill_pages].
  - exists m. split; [done|]. split; [by destruct m|done].
  - destruct (Hf 0 ltac:(lia)) as (w & Hw & _). rewrite Z.mul_0_r, Z.add_0_r in Hw. erewrite stbind_step by done. rewrite Hw. erewrite stbind_step by done.
    set (m1 := upd_pages (<[a := replicate 1024 x]>) m).
    assert (Hf1 : forall b, full_page m b -> full_page m1 b).
    { intros b (v & Hv & Hl). unfold full_page, m1. cbn. destruct (decide (b = a)) as [->|Hne].
      - rewrite lookup_insert_eq. eexists. split; [done|]. done.
      - rewrite lookup_insert_ne by done. eauto. }
    destruct (IH m1 (a + PGSIZE) x) as (m2 & E & Hm & H2).
    { intros i Hi. apply Hf1. replace (a + PGSIZE + PGSIZE * i) with (a + PGSIZE * (i + 1)) by lia. apply Hf. lia. }
    exists m2. split; [exact E|]. split; [rewrite Hm at 1; done|]. auto.
Qed.

(** ** The laws *)

Lemma palloc_get_law m n : pool_ok m (kernel_pool m) -> 0 <= n < 2 ^ 20 ->
  exists a m', palloc_get_multiple 0 n m = Ok (a, m') /\ pool_ok m' (kernel_pool m') /\
    (a = 0 /\ (forall b, taken m' b <-> taken m b) \/
     0 < n /\ page_range a n /\ (forall b, in_pages a n b -> ~ taken m b) /\ (forall b, taken m' b <-> taken m b \/ in_pages a n b)).
Proof.
  intros Hp Hn. unfold palloc_get_multiple, old_palloc_get_multiple. erewrite stbind_step by done. destruct (decide (n = 0)) as [->|Hne].
  { exists 0, m. split; [done|]. split; [done|]. by left. }
  rewrite (proj2 (Z.eqb_neq n 0)) by lia. erewrite stbind_step by done.
  destruct (pool_alloc_n (kernel_pool m) (Z.to_nat n) (po_map _ _ Hp)) as (r & b & E & Hwf & Hc & Hr). rewrite Z2Nat.id in * by lia.
  erewrite stbind_step by (unfold lift; change (has 0 PAL_USER) with false; cbn beta iota; by rewrite E). cbn beta iota. erewrite stbind_step by done.
  change (has 0 PAL_USER) with false. cbn beta iota. set (m' := set_kernel_pool (MkPool b (base (kernel_pool m))) m).
  assert (Hok : pool_ok m' (kernel_pool m')).
  { destruct Hp as [P1 P2 P3 P4]. split; cbn; [done|done|by rewrite Hc|]. rewrite Hc. exact P4. }
  destruct Hr as [[-> ->]|(Hr0 & Hrn & Hfree & Huse)].
  - rewrite Z.eqb_refl. cbn [negb Z.eqb]. exists 0, m'. split; [done|]. split; [done|]. left. split; [done|]. intros c. unfold taken. cbn. by destruct (kernel_pool m).
  - pose proof (po_base _ _ Hp) as [Hb1 Hb2]. pose proof (po_end _ _ Hp) as Hend. change PGSIZE with 4096 in *. pose proof (proj1 (po_map _ _ Hp)) as Hsz.
    rewrite (proj2 (Z.eqb_neq r BITMAP_ERROR)) by (unfold BITMAP_ERROR, ELEM_BITS in *; lia). cbn [negb]. unfold PHYS_BASE in *.
    rewrite (proj2 (Z.eqb_neq (base (kernel_pool m) + 4096 * r) 0)) by lia. cbn [negb]. change (has 0 PAL_ZERO) with false. cbn beta iota. erewrite stbind_step by done.
    exists (base (kernel_pool m) + 4096 * r), m'. split; [done|]. split; [done|]. right. split; [lia|].
    split; [split; [lia|]; split; [Z.to_euclidean_division_equations; lia|lia]|]. split.
    + intros c (i & Hi & ->) (k & Hk & Heq). change PGSIZE with 4096 in Heq. apply (Hfree k); [lia|done].
    + intros c. unfold taken. cbn. change PGSIZE with 4096. split.
      * intros (j & [Hj|Hj]%Huse & ->); [left; by exists j|]. right. exists (j - r). lia.
      * intros [(j & Hj & ->)|(i & Hi & ->)]; [exists j; split; [|done]; apply Huse; by left|]. exists (r + i). split; [apply Huse; right; lia|lia].
Qed.

Lemma palloc_free_law m a n : pool_ok m (kernel_pool m) -> 0 < n < 2 ^ 20 -> page_range a n -> (forall b, in_pages a n b -> taken m b) ->
  exists m', palloc_free_multiple a n m = Ok (tt, m') /\ pool_ok m' (kernel_pool m') /\ (forall b, taken m' b <-> taken m b /\ ~ in_pages a n b).
Proof.
  intros Hp Hn (Ha0 & Hal & Hmax) Hown. pose proof (po_base _ _ Hp) as [Hb1 Hb2].
  destruct (Hown a) as (k & Hk & Hak); [exists 0; lia|]. change PGSIZE with 4096 in Hak. pose proof (in_use_range _ _ Hk) as Hkr.
  assert (Huse : forall j, k <= j < k + n -> in_use (kernel_pool m) j).
  { intros j Hj. destruct (Hown (a + 4096 * (j - k))) as (j' & Hj' & Heq); [exists (j - k); lia|]. change PGSIZE with 4096 in Heq. by replace j with j' by lia. }
  destruct (pool_free_n (kernel_pool m) k (Z.to_nat n) (po_map _ _ Hp)) as (Hall & b & E & Hwf & Hc & Hu); [lia|intros j Hj; apply Huse; lia|lia|].
  rewrite Z2Nat.id in * by lia.
  assert (Hidx : pg_no a - pg_no (base (kernel_pool m)) = k) by (rewrite !pg_no_eq, Hak; Z.to_euclidean_division_equations; lia).
  assert (Hfrom : page_from_pool (kernel_pool m) a = true) by (unfold page_from_pool, bitmap_size; apply andb_true_iff; rewrite Z.leb_le, Z.ltb_lt; lia).
  destruct (fill_pages_Ok (Z.to_nat n) m a 0xcccccccc) as (m1 & Ef & Hm1 & Hfull).
  { intros i Hi. rewrite Hak. change PGSIZE with 4096. replace (base (kernel_pool m) + 4096 * k + 4096 * i) with (base (kernel_pool m) + 4096 * (k + i)) by lia.
    apply (po_pages _ _ Hp). pose proof (in_use_range _ _ (Huse (k + i) ltac:(lia))). lia. }
  assert (Hk1 : kernel_pool m1 = kernel_pool m) by (by rewrite Hm1).
  exists (set_kernel_pool (MkPool b (base (kernel_pool m))) m1). split; [|split].
  - unfold palloc_free_multiple, old_palloc_free_multiple. rewrite pg_ofs_eq, Hal. erewrite stbind_step by done.
    rewrite (proj2 (Z.eqb_neq a 0)), (proj2 (Z.eqb_neq n 0)) by lia. cbn [orb]. erewrite stbind_step by done. rewrite Hfrom. erewrite stbind_step by done. cbn beta iota.
    erewrite stbind_step by exact Ef. rewrite Hidx. erewrite stbind_step by (unfold lift; by rewrite Hall). erewrite stbind_step by done.
    by erewrite stbind_step by (unfold lift; by rewrite E).
  - destruct Hp as [P1 P2 P3 P4]. split; cbn; [done|done|by rewrite Hc|]. rewrite Hc. intros j Hj. apply (Hfull _ (P4 j Hj)).
  - intros c. unfold taken. cbn. change PGSIZE with 4096. split.
    + intros (j & [Hj Hnj]%Hu & ->). split; [by exists j|]. intros (i & Hi & Heq). apply Hnj. lia.
    + intros [(j & Hj & ->) Hnin]. exists j. split; [|done]. apply Hu. split; [done|]. intros Hr. apply Hnin. exists (j - k). lia.
Qed.

#[export] Instance palloc_laws : PageAllocLaws vm := {
  pa_ok m := pool_ok m (kernel_pool m);
  owned := taken;
  get_law := palloc_get_law;
  free_law := palloc_free_law
}.
