(* ===== verification/MallocProps.v ===== *)
(** The promises of malloc, calloc, realloc and free to the rest of the
    kernel, and what happens with sizes near 2^32. *)

From stdpp Require Import base list numbers gmap.
From Stdlib Require Import ZArith Lia.
From S2P Require Import Prelude Bitmap Vm PageDir VmSpec VmBoot Malloc MallocSpec PallocLaws.
Open Scope Z_scope.

#[local] Opaque demo0 demo1 demo2 demo_full.

Section Props.
Context {P : Type} `{PageAllocLaws P}.
#[local] Abbreviation heap := (heap P).

(** ** Contents *)

(** The invariant says nothing about bytes. *)
Definition with_bytes (s : heap) (b : gmap Z Z) : heap := MkHeap (page_state s) (descs s) (arenas s) b.

Lemma inv_bytes s b : heap_inv s -> heap_inv (with_bytes s b).
Proof. intros [[] Hb]. by split. Qed.

Lemma size_of_block_Ok s p n : heap_inv s -> live s p = Some n -> size_of_block p s = Ok (n, s).
Proof.
  intros [HW _] Hl. destruct (live_range s p n HW Hl) as (x0 & Hx0 & _ & _ & _ & Hp0 & Hpmax).
  destruct (live_cases s p n HW Hl) as [(x & Hx & Hd & Hp & Hn)|(x & k & d & i & Hx & Hd & Hk & Hi & Hp & _ & Hn)];
    destruct (hw_arena s HW _ x Hx) as (Hm & Hnp & (H1 & H2 & H3) & _); unfold size_of_block.
  - erewrite stbind_step by (apply (block_to_arena_Ok s p x); [unfold is_u32; lia|lia|done|done|by rewrite Hd]).
    erewrite stbind_step by (by apply get_arena_Ok). rewrite Hd, pg_ofs_eq, pg_ofs_pg. unfold npages in *. rewrite Hd in *.
    replace (p - pg p) with 12 by lia. change PGSIZE with 4096. rewrite u32_small by (unfold is_u32; lia). by rewrite Hn.
  - destruct (blk_in (pg p) k d i (hw_desc s HW k d Hk) H2 Hi) as (B1 & B2 & _ & _ & B5). rewrite <- Hp in *.
    destruct (desc_bounds k d (hw_desc s HW k d Hk)).
    erewrite stbind_step by (apply (block_to_arena_Ok s p x); [unfold is_u32; lia|lia|done|done|rewrite Hd; exists d; split; [done|split; [lia|done]]]).
    erewrite stbind_step by (by apply get_arena_Ok). rewrite Hd. erewrite stbind_step by (by apply get_desc_Ok). by rewrite Hn.
Qed.

Lemma realloc_Ok s p n size : heap_inv s -> live s p = Some n -> 0 < size < 2 ^ 32 - 11 ->
  exists q s', realloc p size s = Ok (q, s') /\ heap_inv s' /\
    (q = 0 /\ (forall r, live s' r = live s r) /\ same_bytes s s' \/
     q <> p /\ live s q = None /\ live s' p = None /\ (exists m, size <= m /\ live s' q = Some m) /\ (forall r, r <> p -> r <> q -> live s' r = live s r) /\
     (forall i, 0 <= i < Z.min size n -> bytes s' !! (q + i) = bytes s !! (p + i)) /\
     (forall r m i, r <> p -> live s r = Some m -> 0 <= i < m -> bytes s' !! (r + i) = bytes s !! (r + i))).
Proof.
  intros HI Hl Hsize. unfold realloc. rewrite (proj2 (Z.eqb_neq size 0)) by lia.
  destruct (malloc_spec s size HI Hsize) as (q & s1 & E1 & HI1 & Hb1 & [[-> Hl1]|(m & Hm & Hq0 & Hqn & Hqm & Hl1)]).
  { erewrite stbind_step by exact E1. rewrite andb_false_r. exists 0, s1. split; [done|]. split; [done|]. by left. }
  assert (Hne : q <> p) by congruence. assert (Hp1 : live s1 p = Some n) by (by rewrite Hl1).
  destruct (live_range s p n (proj1 HI) Hl) as (? & _ & Hn & _ & _ & Hp0 & _).
  erewrite stbind_step by exact E1. rewrite (proj2 (Z.eqb_neq p 0)), (proj2 (Z.eqb_neq q 0)) by lia. cbn [negb andb].
  set (k := if size <? n then size else n). assert (Hk : k = Z.min size n) by (unfold k; destruct (Z.ltb_spec size n); lia).
  set (s2 := with_bytes s1 (copy (Z.to_nat k) q p (bytes s1))).
  assert (HI2 : heap_inv s2) by (by apply inv_bytes). assert (Hl2 : forall r, live s2 r = live s1 r) by done.
  destruct (free_Ok s2 p n HI2) as (s3 & E3 & HI3 & Hf1 & Hf2 & Hf3); [by rewrite Hl2|].
  exists q, s3. split; [|split; [done|]].
  { erewrite stbind_step. 2:{ erewrite stbind_step by (by apply size_of_block_Ok). fold k. erewrite stbind_step by done. exact E3. } done. }
  right. split; [done|]. split; [done|]. split; [done|]. split; [exists m; by rewrite Hf2|]. split; [intros r Hr Hrq; by rewrite Hf2, Hl2, Hl1|].
  assert (Hb : forall r j i, live s1 r = Some j -> r <> p -> 0 <= i < j -> bytes s3 !! (r + i) = bytes s2 !! (r + i)) by (intros r j i Hr Hrp Hi; by apply (Hf3 r j)).
  split.
  - intros i Hi. rewrite (Hb q m i) by (done || lia). cbn. rewrite lookup_copy, bool_decide_true by lia. replace (p + (q + i - q)) with (p + i) by lia.
    apply (Hb1 p n); [done|lia].
  - intros r j i Hr Hlr Hi. assert (Hrq : r <> q) by congruence. rewrite (Hb r j i) by (rewrite ?Hl1; done). cbn.
    rewrite lookup_copy, bool_decide_false; [by apply (Hb1 r j)|]. assert (Hr1 : live s1 r = Some j) by (by rewrite Hl1).
    destruct (live_disjoint s1 q r m j (proj1 HI1) Hqm Hr1) as [?|?]; [done|lia|lia].
Qed.

Lemma calloc_Ok s a b : heap_inv s -> 0 < a -> 0 < b -> a * b < 2 ^ 32 - 11 ->
  exists p s', calloc a b s = Ok (p, s') /\ heap_inv s' /\ same_bytes s s' /\
    (p = 0 /\ (forall q, live s' q = live s q) \/
     exists n, a * b <= n /\ allocated s p n s' /\ (forall i, 0 <= i < a * b -> bytes s' !! (p + i) = Some 0)).
Proof.
  intros HI Ha Hb Hab. unfold calloc. rewrite (u32_small (a * b)) by (unfold is_u32; nia).
  rewrite (proj2 (Z.ltb_ge (a * b) a)), (proj2 (Z.ltb_ge (a * b) b)) by nia. cbn [orb].
  destruct (malloc_spec s (a * b) HI ltac:(nia)) as (p & s1 & E1 & HI1 & Hb1 & [[-> Hl1]|(m & Hm & Hq0 & Hqn & Hqm & Hl1)]); erewrite stbind_step by exact E1.
  - exists 0, s1. split; [done|]. split; [done|]. split; [done|]. by left.
  - rewrite (proj2 (Z.eqb_neq p 0)) by done. erewrite stbind_step by done. set (s2 := with_bytes s1 (fill (Z.to_nat (a * b)) p 0 (bytes s1))).
    exists p, s2. split; [done|]. split; [by apply inv_bytes|]. split.
    + intros q j i Hq Hi. assert (Hne : q <> p) by congruence. assert (Hq1 : live s1 q = Some j) by (by rewrite Hl1).
      cbn. rewrite lookup_fill, bool_decide_false; [by apply (Hb1 q j)|]. destruct (live_disjoint s1 p q m j (proj1 HI1) Hqm Hq1); [done|lia|lia].
    + right. exists m. split; [done|]. split; [done|]. intros i Hi. cbn. rewrite lookup_fill, bool_decide_true by lia. done.
Qed.

(** A request of the last eleven sizes of 32 bits is taken for one of a few
    bytes. *)
Lemma malloc_wraps s size : heap_inv s -> 2 ^ 32 - 11 <= size < 2 ^ 32 ->
  exists p s', malloc size s = Ok (p, s') /\ heap_inv s' /\ (p = 0 \/ allocated s p 4084 s').
Proof.
  intros HI Hsize. pose proof HI as [HW Hbusy]. unfold malloc. rewrite (proj2 (Z.eqb_neq size 0)) by lia. erewrite stbind_step by done.
  pose proof (find_desc_spec size (descs s)) as Hf. destruct (find_desc size (descs s)) as [k|].
  { destruct Hf as (d & Hk & Hle). destruct (desc_bounds_lt s k d HW Hk). lia. }
  assert (Hn : DIV_ROUND_UP (u32 (size + sizeof_arena)) PGSIZE = 1).
  { unfold DIV_ROUND_UP, sizeof_arena. change PGSIZE with 4096. assert (Hu : u32 (size + 12) = size + 12 - 2 ^ 32).
    { unfold u32. replace (size + 12) with (size + 12 - 2 ^ 32 + 1 * 2 ^ 32) at 1 by lia. by rewrite Z.mod_add, Z.mod_small by lia. }
    rewrite Hu, u32_small by (unfold is_u32; lia). Z.to_euclidean_division_equations. lia. }
  rewrite Hn. destruct (get_law (page_state s) 1 (hw_pages s HW)) as (a & p' & Eg & Hp' & [[-> Ho]|(Hn0 & Hr & Hno & Ho)]); [lia|..].
  - erewrite stbind_step by (unfold on_pages; by rewrite Eg). exists 0, (MkHeap p' (descs s) (arenas s) (bytes s)). split; [done|].
    split; [split; [by apply wf_same_pages|exact Hbusy]|]. by left.
  - erewrite stbind_step by (unfold on_pages; by rewrite Eg). pose proof Hr as (Ha0 & Hal & _). rewrite (proj2 (Z.eqb_neq a 0)) by lia.
    do 2 (erewrite stbind_step by done). cbn beta.
    destruct (big_arena_wf s p' a 1 (forget (Z.to_nat (PGSIZE * 1)) a (bytes s)) HI Hp') as (HI' & H1 & H2 & H3); [lia|done|done|done|].
    eexists _, _. split; [done|]. split; [done|]. right. split; [unfold sizeof_arena; lia|done].
Qed.

(** ** The start *)

Lemma malloc_init_inv p : pa_ok p -> exists ds, malloc_init = Ok ds /\ heap_inv (MkHeap p ds ∅ ∅) /\ forall q, live (MkHeap p ds ∅ ∅) q = None.
Proof.
  intros Hp. eexists. split; [vm_compute; reflexivity|]. split; [|done]. split.
  - split; cbn; [done|done| |..].
    + intros k d Hk. do 7 (destruct k as [|k]; [injection Hk as <-; done|]). done.
    + intros k d b Hk Hb. do 7 (destruct k as [|k]; [injection Hk as <-; by apply not_elem_of_nil in Hb|]). done.
    + intros k d Hk. do 7 (destruct k as [|k]; [injection Hk as <-; constructor|]). done.
    + intros a x Ha. done.
    + intros a a' x x' b Ha. done.
    + intros a x k Ha. done.
  - intros a x k d _ Ha. done.
Qed.

End Props.

(** ** Properties of the block allocator *)

(** C12. malloc, on any page allocator that keeps its promises: a request of
    less than 2^32 - 11 bytes returns either a null pointer (always, for 0
    bytes), and then nothing changed, or a new block of at least the requested
    size that overlaps no block in use; the blocks in use and their contents
    stay as they are.  For the sizes above, the sum of the size and the arena
    header wraps around, and the block is smaller than the request. *)
Theorem malloc_correct `{PageAllocLaws P} (s : heap P) size :
  heap_inv s -> 0 <= size < 2 ^ 32 - 11 ->
  exists p s', malloc size s = Ok (p, s') /\ heap_inv s' /\ same_bytes s s' /\ (size = 0 -> p = 0) /\
    (p = 0 /\ (forall q, live s' q = live s q) \/
     exists n, size <= n /\ p <> 0 /\ live s p = None /\ live s' p = Some n /\ (forall q, q <> p -> live s' q = live s q) /\
       (forall q m, live s q = Some m -> p + n <= q \/ q + m <= p)).
Proof.
  intros HI Hsize. destruct (decide (size = 0)) as [->|Hz]; [exists 0, s; split_and!; try done; by left|].
  destruct (malloc_spec s size HI) as (p & s' & E & HI' & Hb & Hc); [lia|]. exists p, s'. split; [done|]. split; [done|]. split; [done|]. split; [done|].
  destruct Hc as [?|(n & Hn & H1 & H2 & H3 & H4)]; [by left|]. right. exists n. split_and!; try done. intros q m Hq.
  assert (Hne : q <> p) by congruence. apply (live_disjoint s' p q n m (proj1 HI')); [done|by rewrite H4|done].
Qed.

(** The allocator after malloc_init, on the memory of a booted kernel. *)
Definition demo_heap : heap vm := MkHeap demo1 (match malloc_init with Ok ds => ds | Err _ => [] end) ∅ ∅.

Lemma demo_heap_inv : heap_inv demo_heap.
Proof.
  destruct (malloc_init_inv demo1) as (ds & E & HI & _).
  - exact (di_pool _ demo1 (vi_dir _ demo1 demo1_inv)).
  - unfold demo_heap. rewrite E. exact HI.
Qed.

Lemma malloc_correct_witness :
  exists p s', malloc 100 demo_heap = Ok (p, s') /\ heap_inv s' /\ (p = 0 \/ exists n, 100 <= n /\ live s' p = Some n).
Proof.
  destruct (malloc_correct demo_heap 100) as (p & s' & E & HI & _ & _ & Hc); [exact demo_heap_inv|lia|].
  exists p, s'. split; [exact E|]. split; [exact HI|]. destruct Hc as [[Hp _]|(n & Hn & _ & _ & Hl & _)]; [left; exact Hp|right; exists n; split; [exact Hn|exact Hl]].
Defined.

(** C24. free releases exactly the block it is given: it fails none of the
    allocator's assertions, the block is no longer in use, and every other
    block stays in use with its size and its contents, also when the whole
    arena goes back to the page allocator. *)
Theorem free_correct `{PageAllocLaws P} (s : heap P) p n :
  heap_inv s -> live s p = Some n ->
  exists s', free p s = Ok (tt, s') /\ heap_inv s' /\ live s' p = None /\ (forall q, q <> p -> live s' q = live s q) /\
    (forall q m i, q <> p -> live s q = Some m -> 0 <= i < m -> bytes s' !! (q + i) = bytes s !! (q + i)).
Proof. intros HI Hl. exact (free_Ok s p n HI Hl). Qed.

(** A heap with one block of 128 bytes, and its address. *)
Definition demo_used : Z * heap vm := match malloc 100 demo_heap with Ok r => r | Err _ => (0, demo_heap) end.

Lemma demo_used_inv : heap_inv (snd demo_used) /\ live (snd demo_used) (fst demo_used) = Some 128.
Proof.
  destruct (malloc_spec demo_heap 100 demo_heap_inv) as (p & s' & E & HI & _); [lia|]. split; [|vm_compute; reflexivity].
  unfold demo_used. rewrite E. exact HI.
Qed.

Lemma free_correct_witness : exists s', free (fst demo_used) (snd demo_used) = Ok (tt, s') /\ live s' (fst demo_used) = None.
Proof.
  destruct (free_correct (snd demo_used) (fst demo_used) 128 (proj1 demo_used_inv) (proj2 demo_used_inv)) as (s' & E & _ & Hl & _).
  exists s'. split; [exact E|exact Hl].
Defined.

(** realloc either fails and changes nothing, or moves the block: the new
    block has at least the requested size, its first bytes are those of the
    old one, up to the smaller of the two sizes, the old block is free, and
    all other blocks and their contents stay. *)
Theorem realloc_correct `{PageAllocLaws P} (s : heap P) p n size :
  heap_inv s -> live s p = Some n -> 0 < size < 2 ^ 32 - 11 ->
  exists q s', realloc p size s = Ok (q, s') /\ heap_inv s' /\
    (q = 0 /\ (forall r, live s' r = live s r) /\ same_bytes s s' \/
     q <> p /\ live s q = None /\ live s' p = None /\ (exists m, size <= m /\ live s' q = Some m) /\ (forall r, r <> p -> r <> q -> live s' r = live s r) /\
     (forall i, 0 <= i < Z.min size n -> bytes s' !! (q + i) = bytes s !! (p + i)) /\
     (forall r m i, r <> p -> live s r = Some m -> 0 <= i < m -> bytes s' !! (r + i) = bytes s !! (r + i))).
Proof. intros HI Hl Hsize. exact (realloc_Ok s p n size HI Hl Hsize). Qed.

Lemma realloc_correct_witness :
  exists q s', realloc (fst demo_used) 2000 (snd demo_used) = Ok (q, s') /\ heap_inv s' /\ (q = 0 \/ live s' (fst demo_used) = None).
Proof.
  destruct (realloc_correct (snd demo_used) (fst demo_used) 128 2000 (proj1 demo_used_inv) (proj2 demo_used_inv)) as (q & s' & E & HI & Hc); [lia|].
  exists q, s'. split; [exact E|]. split; [exact HI|]. destruct Hc as [[Hq _]|(_ & _ & Hl & _)]; [left; exact Hq|right; exact Hl].
Defined.

(** malloc rounds sizes up in 32 bits without a check: a request for one of
    the last eleven sizes, about 4 GB, gets a block of 4,084 bytes unless
    memory is out. *)
Theorem malloc_size_wraps `{PageAllocLaws P} (s : heap P) size :
  heap_inv s -> 2 ^ 32 - 11 <= size < 2 ^ 32 ->
  exists p s', malloc size s = Ok (p, s') /\ heap_inv s' /\ (p = 0 \/ p <> 0 /\ live s' p = Some 4084).
Proof.
  intros HI Hsize. destruct (malloc_wraps s size HI Hsize) as (p & s' & E & HI' & Hc). exists p, s'. split; [done|]. split; [done|].
  destruct Hc as [?|(? & _ & ? & _)]; [by left|by right].
Qed.

Lemma malloc_size_wraps_witness : exists p s', malloc (2 ^ 32 - 1) demo_heap = Ok (p, s') /\ live s' p = Some 4084.
Proof.
  destruct (malloc_size_wraps demo_heap (2 ^ 32 - 1)) as (p & s' & E & _ & Hc); [exact demo_heap_inv|lia|].
  exists p, s'. split; [exact E|]. destruct Hc as [Hp|[_ Hl]]; [|exact Hl]. exfalso.
  assert (Hnz : match malloc (2 ^ 32 - 1) demo_heap with Ok (q, _) => q =? 0 | Err _ => true end = false) by (vm_compute; reflexivity).
  rewrite E, Hp in Hnz. discriminate Hnz.
Defined.
