(* ===== verification/Stdio.v ===== *)
(** Formatted output (lib/stdio.c): printf and its relatives.

    The code hands each character to a function OUTPUT with its data AUX; here
    [output] maps the character and the data to the new data.  A format is the
    list of its characters, without the terminator; reading at the end of the
    list yields the terminator.  A va_list is the list of the 32-bit words of
    the arguments on the stack; a 64-bit argument takes two, low word first.
    %s reads from a byte memory, that of CString. *)

From stdpp Require Import base list numbers gmap.
From Stdlib Require Import ZArith Lia String.
From S2P Require Import Prelude CStdlib CString.
Open Scope list_scope.
Open Scope Z_scope.

(** ** Conversions *)

Definition MINUS : Z := 1.
Definition PLUS : Z := 2.
Definition SPACE : Z := 4.
Definition POUND : Z := 8.
Definition ZERO : Z := 16.
Definition GROUP : Z := 32.

Inductive arg_type := CHAR | SHORT | INT | INTMAX | LONG | LONGLONG | PTRDIFFT | SIZET.

Record printf_conversion := MkConv { flags : Z; width : Z; precision : Z; type : arg_type }.

Record integer_base := MkBase { base : Z; digits : list Z; x_char : Z; group : Z }.
Definition base_d : integer_base := MkBase 10 (chars "0123456789") 0 3.
Definition base_o : integer_base := MkBase 8 (chars "01234567") 0 3.
Definition base_x : integer_base := MkBase 16 (chars "0123456789abcdef") 120 4.
Definition base_X : integer_base := MkBase 16 (chars "0123456789ABCDEF") 88 4.

(** Is flag [f] set? *)
Definition flag (fl f : Z) : bool := negb (Z.land fl f =? 0).

(** ** Variable arguments *)

Definition va_word (args : list Z) : res (Z * list Z) :=
  match args with w :: args => Ok (w, args) | [] => Err EFault end.
Definition va_int (args : list Z) : res (Z * list Z) := '(w, args) ← va_word args; Ok (s32 w, args).
Definition va_unsigned (args : list Z) : res (Z * list Z) := '(w, args) ← va_word args; Ok (u32 w, args).
Definition va_u64 (args : list Z) : res (Z * list Z) :=
  '(lo, args) ← va_word args; '(hi, args) ← va_word args; Ok (u32 lo + 2 ^ 32 * u32 hi, args).

(** The value of a signed and of an unsigned conversion. *)
Definition signed_arg (t : arg_type) (args : list Z) : res (Z * list Z) :=
  match t with
  | CHAR => '(v, args) ← va_int args; Ok ((v + 2 ^ 7) mod 2 ^ 8 - 2 ^ 7, args)
  | SHORT => '(v, args) ← va_int args; Ok ((v + 2 ^ 15) mod 2 ^ 16 - 2 ^ 15, args)
  | INT | LONG | PTRDIFFT => va_int args
  | INTMAX | LONGLONG => '(v, args) ← va_u64 args; Ok (s64 v, args)
  | SIZET => '(v, args) ← va_unsigned args; Ok (if (2 ^ 32 - 1) / 2 <? v then v - (2 ^ 32 - 1) - 1 else v, args)
  end.
Definition unsigned_arg (t : arg_type) (args : list Z) : res (Z * list Z) :=
  match t with
  | CHAR => '(v, args) ← va_unsigned args; Ok (v mod 2 ^ 8, args)
  | SHORT => '(v, args) ← va_unsigned args; Ok (v mod 2 ^ 16, args)
  | INT | LONG | SIZET => va_unsigned args
  | INTMAX | LONGLONG => va_u64 args
  | PTRDIFFT => '(v, args) ← va_int args; Ok (Z.land (u64 v) (Z.lor (Z.shiftl (2 ^ 31 - 1) 1) 1), args)
  end.

(** ** Parsing *)

(** *format *)
Definition peek (format : list Z) : Z := match format with c :: _ => c | [] => 0 end.

Fixpoint parse_flags (format : list Z) (fl : Z) : list Z * Z :=
  match format with
  | c :: rest =>
      if c =? 45 then parse_flags rest (Z.lor fl MINUS)
      else if c =? 43 then parse_flags rest (Z.lor fl PLUS)
      else if c =? 32 then parse_flags rest (Z.lor fl SPACE)
      else if c =? 35 then parse_flags rest (Z.lor fl POUND)
      else if c =? 48 then parse_flags rest (Z.lor fl ZERO)
      else if c =? 39 then parse_flags rest (Z.lor fl GROUP)
      else (format, fl)
  | [] => ([], fl)
  end.

Fixpoint parse_number (format : list Z) (n : Z) : list Z * Z :=
  match format with
  | c :: rest => if isdigit c then parse_number rest (s32 (n * 10 + c - 48)) else (format, n)
  | [] => ([], n)
  end.

Definition parse_type (format : list Z) : list Z * arg_type :=
  match format with
  | c :: rest =>
      if c =? 104 then if peek rest =? 104 then (tl rest, CHAR) else (rest, SHORT)
      else if c =? 106 then (rest, INTMAX)
      else if c =? 108 then if peek rest =? 108 then (tl rest, LONGLONG) else (rest, LONG)
      else if c =? 116 then (rest, PTRDIFFT)
      else if c =? 122 then (rest, SIZET)
      else (format, INT)
  | [] => ([], INT)
  end.

Definition parse_conversion (format args : list Z) : res (printf_conversion * list Z * list Z) :=
  let '(format, fl) := parse_flags format 0 in
  let fl := if flag fl MINUS then Z.ldiff fl ZERO else fl in
  let fl := if flag fl PLUS then Z.ldiff fl SPACE else fl in
  '(format, args, w) ← (if peek format =? 42 then '(w, args) ← va_int args; Ok (tl format, args, w)
                        else let '(format, w) := parse_number format 0 in Ok (format, args, w));
  let '(w, fl) := if w <? 0 then (s32 (- w), Z.lor fl MINUS) else (w, fl) in
  '(format, args, p) ← (if peek format =? 46 then
                          let format := tl format in
                          '(format, args, p) ← (if peek format =? 42 then '(p, args) ← va_int args; Ok (tl format, args, p)
                                                else let '(format, p) := parse_number format 0 in Ok (format, args, p));
                          Ok (format, args, if p <? 0 then -1 else p)
                        else Ok (format, args, -1));
  let fl := if 0 <=? p then Z.ldiff fl ZERO else fl in
  let '(format, t) := parse_type format in
  Ok (MkConv fl w p t, format, args).

(** ** Digits *)

(** *cp++ = ch, with room for 64 characters; the last one comes first. *)
Definition put (ch : Z) (buf : list Z) : res (list Z) :=
  if Z.of_nat (List.length buf) <? 64 then Ok (ch :: buf) else Err EFault.

(** A 64-bit number has at most 22 digits in base 8 or more. *)
Fixpoint digit_loop (fuel : nat) (value digit_cnt : Z) (b : integer_base) (grouping : bool) (buf : list Z) : res (list Z) :=
  match fuel with
  | O => Err EFuel
  | S fuel =>
      if 0 <? value then
        buf ← (if grouping && (0 <? digit_cnt) && (digit_cnt mod group b =? 0) then put 44 buf else Ok buf);
        d ← of_option EFault (digits b !! Z.to_nat (value mod base b));
        buf ← put d buf;
        digit_loop fuel (value / base b) (digit_cnt + 1) b grouping buf
      else Ok buf
  end.

(** Zeros up to the precision, as far as the buffer goes. *)
Fixpoint zero_loop (fuel : nat) (prec : Z) (buf : list Z) : res (list Z) :=
  match fuel with
  | O => Err EFuel
  | S fuel =>
      if (Z.of_nat (List.length buf) <? prec) && (Z.of_nat (List.length buf) <? 63)
      then buf ← put 48 buf; zero_loop fuel prec buf else Ok buf
  end.

(** ** Output *)

Section Output.
Context {A : Type} (output : Z -> A -> A).

Fixpoint output_dup (ch : Z) (cnt : nat) (aux : A) : A :=
  match cnt with O => aux | S cnt => output_dup ch cnt (output ch aux) end.

Fixpoint output_all (l : list Z) (aux : A) : A :=
  match l with [] => aux | c :: l => output_all l (output c aux) end.

Definition format_integer (value : Z) (is_signed negative : bool) (b : integer_base) (c : printf_conversion) (aux : A) : res A :=
  let sign :=
    if is_signed then
      if flag (flags c) PLUS then (if negative then 45 else 43)
      else if flag (flags c) SPACE then (if negative then 45 else 32)
      else if negative then 45 else 0
    else 0 in
  let x := if flag (flags c) POUND && negb (value =? 0) then x_char b else 0 in
  buf ← digit_loop 65 value 0 b (flag (flags c) GROUP) [];
  let prec := if precision c <? 0 then 1 else precision c in
  buf ← zero_loop 65 prec buf;
  buf ← (if flag (flags c) POUND && (base b =? 8) && negb (peek buf =? 48) then put 48 buf else Ok buf);
  let pad_cnt := s32 (width c - Z.of_nat (List.length buf) - (if negb (x =? 0) then 2 else 0) - (if negb (sign =? 0) then 1 else 0)) in
  let pad_cnt := if pad_cnt <? 0 then 0 else pad_cnt in
  let aux := if Z.land (flags c) (Z.lor MINUS ZERO) =? 0 then output_dup 32 (Z.to_nat pad_cnt) aux else aux in
  let aux := if negb (sign =? 0) then output sign aux else aux in
  let aux := if negb (x =? 0) then output x (output 48 aux) else aux in
  let aux := if flag (flags c) ZERO then output_dup 48 (Z.to_nat pad_cnt) aux else aux in
  let aux := output_all buf aux in
  Ok (if flag (flags c) MINUS then output_dup 32 (Z.to_nat pad_cnt) aux else aux).

Definition format_string (string : list Z) (c : printf_conversion) (aux : A) : A :=
  let len := Z.of_nat (List.length string) in
  let aux := if (len <? width c) && negb (flag (flags c) MINUS) then output_dup 32 (Z.to_nat (width c - len)) aux else aux in
  let aux := output_all string aux in
  if (len <? width c) && flag (flags c) MINUS then output_dup 32 (Z.to_nat (width c - len)) aux else aux.

(** The characters of a string argument. *)
Fixpoint load_chars (n : nat) (p : Z) : stM mem (list Z) :=
  match n with O => mret [] | S n => c ← load p; l ← load_chars n (p + 1); mret (c :: l) end.

Definition string_arg (m : mem) (s prec : Z) : res (list Z) :=
  if s =? 0 then Ok (take (Z.to_nat (Z.min 6 (u32 prec))) (chars "(null)"))
  else '(l, _) ← (n ← strnlen s (u32 prec); load_chars (Z.to_nat n) s) m; Ok l.

Context (m : mem).

(** __vprintf.  Every turn of the loop reads a character; the message about an
    unsupported conversion is a format of 23 characters. *)
Fixpoint vprintf_loop (fuel : nat) (format args : list Z) (aux : A) : res A :=
  match fuel with
  | O => Err EFuel
  | S fuel =>
      match format with
      | [] => Ok aux
      | ch :: format =>
          if negb (ch =? 37) then vprintf_loop fuel format args (output ch aux)
          else if peek format =? 37 then vprintf_loop fuel (tl format) args (output 37 aux)
          else
            '(c, format, args) ← parse_conversion format args;
            let ch := peek format in
            '(aux, args) ←
              (if (ch =? 100) || (ch =? 105) then
                 '(value, args) ← signed_arg (type c) args;
                 aux ← format_integer (u64 (if value <? 0 then s64 (- value) else value)) true (value <? 0) base_d c aux;
                 Ok (aux, args)
               else if (ch =? 111) || (ch =? 117) || (ch =? 120) || (ch =? 88) then
                 '(value, args) ← unsigned_arg (type c) args;
                 let b := if ch =? 111 then base_o else if ch =? 117 then base_d else if ch =? 120 then base_x else base_X in
                 aux ← format_integer value false false b c aux;
                 Ok (aux, args)
               else if ch =? 99 then
                 '(value, args) ← va_int args;
                 Ok (format_string [u8 value] c aux, args)
               else if ch =? 115 then
                 '(s, args) ← va_unsigned args;
                 l ← string_arg m s (precision c);
                 Ok (format_string l c aux, args)
               else if ch =? 112 then
                 '(p, args) ← va_unsigned args;
                 aux ← format_integer p false false base_x (MkConv POUND (width c) (precision c) (type c)) aux;
                 Ok (aux, args)
               else if (ch =? 102) || (ch =? 101) || (ch =? 69) || (ch =? 103) || (ch =? 71) || (ch =? 110) then
                 aux ← vprintf_loop fuel (chars "<<no %%%c in kernel>>") [ch] aux; Ok (aux, args)
               else
                 aux ← vprintf_loop fuel (chars "<<no %%%c conversion>>") [ch] aux; Ok (aux, args));
            match format with
            | [] => Err EFault                 (* format++ steps over the terminator *)
            | _ :: format => vprintf_loop fuel format args aux
            end
      end
  end.

Definition __vprintf (format args : list Z) (aux : A) : res A := vprintf_loop (List.length format + 32) format args aux.

End Output.

(** ** Output into a buffer *)

(** [stored] is what has been written from the start of the buffer on. *)
Record vsnprintf_aux := MkAux { stored : list Z; a_length : Z; max_length : Z }.

Definition vsnprintf_helper (ch : Z) (aux : vsnprintf_aux) : vsnprintf_aux :=
  MkAux (if a_length aux <? max_length aux then stored aux ++ [ch] else stored aux) (s32 (a_length aux + 1)) (max_length aux).

(** Returns the bytes written to the buffer and the result of the function. *)
Definition vsnprintf (m : mem) (buf_size : Z) (format args : list Z) : res (list Z * Z) :=
  aux ← __vprintf vsnprintf_helper m format args (MkAux [] 0 (s32 (if 0 <? buf_size then buf_size - 1 else 0)));
  Ok (if 0 <? buf_size then stored aux ++ [0] else stored aux, a_length aux).

(** ** Output to the console, as the text that appears *)

Definition putc (ch : Z) (text : list Z) : list Z := text ++ [ch].
Definition printf (m : mem) (format args text : list Z) : res (list Z) := __vprintf putc m format args text.

(** [n] times the same text. *)
Fixpoint repeat_text (n : nat) (t text : list Z) : list Z :=
  match n with O => text | S n => repeat_text n t (text ++ t) end.
Definition isprint (c : Z) : bool := (32 <=? c) && (c <? 127).

(** The bytes of one line of hex_dump: [i] is the column. *)
Fixpoint dump_bytes (bytes : list Z) (i : Z) (text : list Z) : res (list Z) :=
  match bytes with
  | [] => Ok text
  | b :: bytes => text ← printf ∅ (chars "%02hhx%c") [b; if i =? 7 then 45 else 32] text; dump_bytes bytes (i + 1) text
  end.
Fixpoint dump_ascii (bytes : list Z) (text : list Z) : res (list Z) :=
  match bytes with
  | [] => Ok text
  | b :: bytes => text ← printf ∅ (chars "%c") [if isprint b then b else 46] text; dump_ascii bytes text
  end.

(** One line; each consumes a byte at least. *)
Fixpoint hex_dump_loop (fuel : nat) (ofs : Z) (buf : list Z) (ascii : bool) (text : list Z) : res (list Z) :=
  match fuel with
  | O => Err EFuel
  | S fuel =>
      match buf with
      | [] => Ok text
      | _ =>
          let start := ofs mod 16 in
          let end_ := if Z.of_nat (List.length buf) <? 16 - start then start + Z.of_nat (List.length buf) else 16 in
          let n := end_ - start in
          let line := take (Z.to_nat n) buf in
          text ← printf ∅ (chars "%08jx  ") [ofs / 16 * 16; 0] text;
          let text := repeat_text (Z.to_nat start) (chars "   ") text in
          text ← dump_bytes line start text;
          text ← (if ascii then
                    let text := repeat_text (Z.to_nat (16 - end_)) (chars "   ") text in
                    let text := text ++ chars "|" in
                    let text := repeat_text (Z.to_nat start) (chars " ") text in
                    text ← dump_ascii line text;
                    let text := repeat_text (Z.to_nat (16 - end_)) (chars " ") text in
                    Ok (text ++ chars "|")
                  else Ok text);
          hex_dump_loop fuel (u32 (ofs + n)) (drop (Z.to_nat n) buf) ascii (text ++ [10])
      end
  end.
Definition hex_dump (ofs : Z) (buf : list Z) (ascii : bool) (text : list Z) : res (list Z) :=
  hex_dump_loop (S (List.length buf)) ofs buf ascii text.

(** A memory with a string at address 1. *)
Definition literal (l : list Z) : mem := list_to_map (zip (seqZ 1 (Z.of_nat (List.length l) + 1)) (l ++ [0])).

(** The loop over the units; four divisions at most. *)
Fixpoint human_loop (size : Z) (unit : list Z) (larger : list (list Z)) : Z * list Z :=
  match larger with
  | u :: larger => if 1024 <=? size then human_loop (size / 1024) u larger else (size, unit)
  | [] => (size, unit)
  end.
Definition print_human_readable_size (size : Z) (text : list Z) : res (list Z) :=
  if size =? 1 then printf ∅ (chars "1 byte") [] text
  else
    let '(size, unit) := human_loop size (chars "bytes") [chars "kB"; chars "MB"; chars "GB"; chars "TB"] in
    printf (literal unit) (chars "%llu %s") [u32 size; size / 2 ^ 32; 1] text.
