(* ===== verification/StdioSpec.v ===== *)
(** Correctness of formatted output: what the conversions print, that the
    buffers are large enough and that every format is processed. *)

From stdpp Require Import base list numbers gmap strings.
From Stdlib Require Import ZArith Lia.
From S2P Require Import Prelude CStdlib CString Stdio.
Open Scope Z_scope.

(** ** Independence of the output function *)

(** A map that commutes with output commutes with printf. *)
Section Naturality.
Context {A B : Type} (oA : Z -> A -> A) (oB : Z -> B -> B) (h : A -> B).
Context (Hh : forall c a, h (oA c a) = oB c (h a)).

Lemma output_dup_hom ch n : forall a, output_dup oB ch n (h a) = h (output_dup oA ch n a).
Proof. induction n as [|n IH]; intros a; cbn; [done|]. by rewrite <- Hh, IH. Qed.
Lemma output_all_hom l : forall a, output_all oB l (h a) = h (output_all oA l a).
Proof. induction l as [|c l IH]; intros a; cbn; [done|]. by rewrite <- Hh, IH. Qed.

Lemma if_hom (b : bool) (x y : A) : (if b then h x else h y) = h (if b then x else y).
Proof. by destruct b. Qed.

Lemma format_string_hom s c a : format_string oB s c (h a) = h (format_string oA s c a).
Proof. unfold format_string. by rewrite output_dup_hom, if_hom, output_all_hom, output_dup_hom, if_hom. Qed.

Lemma format_integer_hom value sg neg b c a : format_integer oB value sg neg b c (h a) = h <$> format_integer oA value sg neg b c a.
Proof.
  unfold format_integer. destruct (digit_loop _ _ _ _ _ _) as [buf|]; [|done]. cbn [mbind res_bind].
  destruct (zero_loop _ _ buf) as [buf1|]; [|done]. cbn [mbind res_bind]. destruct (if _ && _ && _ then _ else _) as [buf2|]; [|done]. cbn [mbind res_bind fmap res_fmap].
  f_equal. rewrite output_dup_hom, if_hom, <- !Hh, !if_hom, <- !Hh, !if_hom, output_dup_hom, if_hom, output_all_hom, output_dup_hom, if_hom. done.
Qed.

Lemma vprintf_loop_hom m fuel : forall format args a, vprintf_loop oB m fuel format args (h a) = h <$> vprintf_loop oA m fuel format args a.
Proof.
  induction fuel as [|fuel IH]; intros format args a; [done|]. cbn [vprintf_loop]. destruct format as [|ch format]; [done|].
  destruct (negb (ch =? 37)); [by rewrite <- Hh|]. destruct (peek format =? 37); [by rewrite <- Hh|].
  destruct (parse_conversion format args) as [[[c format'] args']|]; [|done]. cbn [mbind res_bind].
  (* each conversion produces the new data and the remaining arguments *)
  match goal with |- ?L = _ => match goal with |- _ = h <$> ?R =>
    match L with ?x ≫= _ => match R with ?y ≫= _ => assert (E : x = (fun r => (h r.1, r.2)) <$> y) end end end end.
  { repeat match goal with
    | |- (if ?b then _ else _) = _ => destruct b
    end.
    - destruct (signed_arg _ _) as [[v ar]|]; [|done]. cbn [mbind res_bind]. rewrite format_integer_hom. by destruct (format_integer _ _ _ _ _ _ _).
    - destruct (unsigned_arg _ _) as [[v ar]|]; [|done]. cbn [mbind res_bind]. rewrite format_integer_hom. by destruct (format_integer _ _ _ _ _ _ _).
    - destruct (va_int _) as [[v ar]|]; [|done]. cbn [mbind res_bind]. by rewrite format_string_hom.
    - destruct (va_unsigned _) as [[v ar]|]; [|done]. cbn [mbind res_bind]. destruct (string_arg _ _ _); [|done]. cbn [mbind res_bind]. by rewrite format_string_hom.
    - destruct (va_unsigned _) as [[v ar]|]; [|done]. cbn [mbind res_bind]. rewrite format_integer_hom. by destruct (format_integer _ _ _ _ _ _ _).
    - rewrite IH. by destruct (vprintf_loop _ _ _ _ _ _).
    - rewrite IH. by destruct (vprintf_loop _ _ _ _ _ _). }
  rewrite E. match goal with |- (_ <$> ?y) ≫= _ = _ => destruct y as [[a' args'']|]; [|done] end. cbn [fmap res_fmap mbind res_bind fst snd].
  destruct format' as [|ch' format']; [done|]. apply IH.
Qed.

End Naturality.

(** printf hands over the characters of a text, one after the other, that
    depends on the format and the arguments only. *)
Lemma vprintf_text {A} (output : Z -> A -> A) m format args aux :
  __vprintf output m format args aux = (fun t => fold_left (fun a c => output c a) t aux) <$> printf m format args [].
Proof.
  unfold printf, __vprintf. rewrite <- (vprintf_loop_hom putc output (fun t => fold_left (fun a c => output c a) t aux)); [done|].
  intros c t. unfold putc. by rewrite fold_left_app.
Qed.

(** ** Output into a buffer *)

Lemma helper_fold t : forall st len mx,
  0 <= mx -> 0 <= len -> len + Z.of_nat (length t) < 2 ^ 31 -> Z.of_nat (length st) = Z.min len mx ->
  fold_left (fun a c => vsnprintf_helper c a) t (MkAux st len mx) = MkAux (st ++ take (Z.to_nat (mx - len)) t) (len + Z.of_nat (length t)) mx.
Proof.
  induction t as [|c t IH]; intros st len mx Hmx Hlen Hmax Hst; cbn [fold_left length].
  - rewrite take_nil, app_nil_r. f_equal. cbn. lia.
  - cbn [length] in Hmax. unfold vsnprintf_helper at 2. cbn. rewrite s32_small by (unfold is_s32; lia). destruct (Z.ltb_spec len mx).
    + rewrite IH by (rewrite ?length_app; cbn; lia). replace (Z.to_nat (mx - len)) with (S (Z.to_nat (mx - (len + 1)))) by lia. cbn [firstn].
      rewrite <- app_assoc. cbn. f_equal. lia.
    + rewrite IH by lia. replace (Z.to_nat (mx - (len + 1))) with 0%nat by lia. replace (Z.to_nat (mx - len)) with 0%nat by lia. rewrite !take_0. f_equal. lia.
Qed.

Lemma vsnprintf_text m buf_size format args t : printf m format args [] = Ok t -> Z.of_nat (length t) < 2 ^ 31 -> 0 <= buf_size <= 2 ^ 31 ->
  vsnprintf m buf_size format args =
    Ok (if 0 <? buf_size then take (Z.to_nat (buf_size - 1)) t ++ [0] else [], Z.of_nat (length t)).
Proof.
  intros Ht Hlen Hsize. unfold vsnprintf. rewrite vprintf_text, Ht. cbn [fmap res_fmap mbind res_bind].
  rewrite s32_small by (unfold is_s32; destruct (Z.ltb_spec 0 buf_size); lia). rewrite helper_fold by (cbn; destruct (Z.ltb_spec 0 buf_size); lia). cbn.
  destruct (Z.ltb_spec 0 buf_size); [|done]. by rewrite Z.sub_0_r.
Qed.

(** ** Digits *)

Definition num_val (b : Z) (ds : list Z) : Z := fold_left (fun v d => v * b + d) ds 0.

(** The digits of [n] in base [b], the most significant one first, without
    leading zeros. *)
Definition numeral (b n : Z) (ds : list Z) : Prop := Forall (fun d => 0 <= d < b) ds /\ num_val b ds = n /\ head ds <> Some 0.

Definition base_ok (b : integer_base) : Prop := 8 <= base b <= 16 /\ Z.of_nat (length (digits b)) = base b /\ 0 < group b.
Definition digit_char (b : integer_base) (d : Z) : Z := default 0 (digits b !! Z.to_nat d).

Lemma numeral_snoc b n d ds : 0 < n -> 1 < b -> numeral b (n / b) ds -> d = n mod b -> numeral b n (ds ++ [d]).
Proof.
  intros Hn Hb (HF & Hv & Hh) ->. pose proof (Z.mod_pos_bound n b ltac:(lia)) as Hm. pose proof (Z.div_mod n b ltac:(lia)) as Hdm. split; [|split].
  - apply Forall_app. split; [done|]. by apply Forall_singleton.
  - unfold num_val in *. rewrite fold_left_app, Hv. cbn. lia.
  - destruct ds as [|x ds]; [|done]. cbn in *. intros [= Hz]. lia.
Qed.

(** The digit characters of the table. *)
Lemma digit_lookup b v : base_ok b -> of_option EFault (digits b !! Z.to_nat (v mod base b)) = Ok (digit_char b (v mod base b)).
Proof.
  intros (Hb & Hl & _). pose proof (Z.mod_pos_bound v (base b) ltac:(lia)). unfold digit_char.
  destruct (lookup_lt_is_Some_2 (digits b) (Z.to_nat (v mod base b))) as [x ->]; [lia|]. done.
Qed.

Lemma div_pow v b k : 0 < b -> 0 <= v < b ^ Z.of_nat (S k) -> 0 <= v / b < b ^ Z.of_nat k.
Proof.
  intros Hb [Hv0 Hv]. split; [by apply Z.div_pos|]. apply Z.div_lt_upper_bound; [done|]. by rewrite Nat2Z.inj_succ, Z.pow_succ_r in Hv by lia.
Qed.

Lemma digit_loop_num k : forall fuel value cnt b buf,
  base_ok b -> (k < fuel)%nat -> 0 <= value < base b ^ Z.of_nat k -> (length buf + k <= 64)%nat ->
  exists ds, numeral (base b) value ds /\ (length ds <= k)%nat /\ digit_loop fuel value cnt b false buf = Ok ((digit_char b <$> ds) ++ buf).
Proof.
  induction k as [|k IH]; intros fuel value cnt b buf Hb Hf Hv Hbuf; (destruct fuel as [|fuel]; [lia|]); cbn [digit_loop].
  - change (base b ^ Z.of_nat 0) with 1 in Hv. assert (value = 0) as -> by lia. exists []. split; [by repeat constructor|]. split; [done|]. done.
  - destruct (Z.ltb_spec 0 value) as [Hpos|].
    2:{ assert (value = 0) as -> by lia. exists []. split; [by repeat constructor|]. split; [cbn; lia|]. done. }
    cbn [andb mbind res_bind]. rewrite digit_lookup by done. cbn [mbind res_bind]. unfold put. rewrite (proj2 (Z.ltb_lt _ _)) by lia. cbn [mbind res_bind].
    destruct (IH fuel (value / base b) (cnt + 1) b (digit_char b (value mod base b) :: buf)) as (ds & Hn & Hl & E); [done|lia| |cbn; lia|].
    { apply div_pow; [destruct Hb; lia|done]. }
    exists (ds ++ [value mod base b]). split; [apply numeral_snoc; [done|destruct Hb; lia|done|done]|]. split; [rewrite length_app; cbn; lia|].
    rewrite E, fmap_app, <- app_assoc. done.
Qed.

(** With or without grouping the digits fit. *)
Lemma digit_loop_Ok k : forall fuel value cnt b g buf,
  base_ok b -> (k < fuel)%nat -> 0 <= value < base b ^ Z.of_nat k -> (length buf + 2 * k <= 64)%nat ->
  exists buf', digit_loop fuel value cnt b g buf = Ok buf' /\ (length buf' <= length buf + 2 * k)%nat.
Proof.
  induction k as [|k IH]; intros fuel value cnt b g buf Hb Hf Hv Hbuf; (destruct fuel as [|fuel]; [lia|]); cbn [digit_loop].
  - change (base b ^ Z.of_nat 0) with 1 in Hv. assert (value = 0) as -> by lia. exists buf. split; [done|lia].
  - destruct (Z.ltb_spec 0 value) as [Hpos|]; [|exists buf; split; [done|lia]].
    assert (Hp : exists buf1, (if g && (0 <? cnt) && (cnt mod group b =? 0) then put 44 buf else Ok buf) = Ok buf1 /\ (length buf1 <= S (length buf))%nat).
    { destruct (g && _ && _); [|exists buf; split; [done|lia]]. unfold put. rewrite (proj2 (Z.ltb_lt _ _)) by lia. by eexists. }
    destruct Hp as (buf1 & -> & Hl1). cbn [mbind res_bind]. rewrite digit_lookup by done. cbn [mbind res_bind]. unfold put. rewrite (proj2 (Z.ltb_lt _ _)) by lia. cbn [mbind res_bind].
    destruct (IH fuel (value / base b) (cnt + 1) b g (digit_char b (value mod base b) :: buf1)) as (buf' & E & Hl); [done|lia| |cbn; lia|].
    { apply div_pow; [destruct Hb; lia|done]. }
    exists buf'. split; [done|]. cbn in Hl. lia.
Qed.

Lemma zero_loop_Ok fuel : forall prec buf, (length buf <= 63)%nat -> (64 <= fuel + length buf)%nat ->
  zero_loop fuel prec buf = Ok (replicate (Z.to_nat (Z.min 63 prec) - length buf) 48 ++ buf).
Proof.
  induction fuel as [|fuel IH]; intros prec buf Hl Hf; [lia|]. cbn [zero_loop]. destruct (Z.ltb_spec (Z.of_nat (length buf)) prec); cbn [andb].
  2:{ replace (Z.to_nat (Z.min 63 prec) - length buf)%nat with 0%nat by lia. done. }
  destruct (Z.ltb_spec (Z.of_nat (length buf)) 63).
  2:{ replace (Z.to_nat (Z.min 63 prec) - length buf)%nat with 0%nat by lia. done. }
  unfold put. rewrite (proj2 (Z.ltb_lt _ _)) by lia. cbn [mbind res_bind]. rewrite IH by (cbn; lia). cbn [length].
  replace (Z.to_nat (Z.min 63 prec) - length buf)%nat with (S (Z.to_nat (Z.min 63 prec) - S (length buf))) by lia.
  rewrite replicate_S_end, <- app_assoc. done.
Qed.

Lemma pow_bound b value : base_ok b -> 0 <= value < 2 ^ 64 -> 0 <= value < base b ^ Z.of_nat 22.
Proof.
  intros [Hb _] Hv. split; [lia|]. apply (Z.lt_le_trans _ (8 ^ 22)); [lia|]. apply Z.pow_le_mono_l. lia.
Qed.

(** ** Fields *)

Lemma output_dup_putc ch n : forall t, output_dup putc ch n t = t ++ replicate n ch.
Proof. induction n as [|n IH]; intros t; cbn; [by rewrite app_nil_r|]. rewrite IH. unfold putc. by rewrite <- app_assoc. Qed.
Lemma output_all_putc l : forall t, output_all putc l t = t ++ l.
Proof. induction l as [|c l IH]; intros t; cbn; [by rewrite app_nil_r|]. rewrite IH. unfold putc. by rewrite <- app_assoc. Qed.

(** The parts of a number: sign, prefix, digits with leading zeros. *)
Definition sign_part (is_signed negative : bool) (fl : Z) : list Z :=
  if is_signed then if negative then [45] else if flag fl PLUS then [43] else if flag fl SPACE then [32] else [] else [].
Definition prefix_part (b : integer_base) (value fl : Z) : list Z :=
  if flag fl POUND && negb (value =? 0) && negb (x_char b =? 0) then [48; x_char b] else [].
Definition digits_part (b : integer_base) (c : printf_conversion) (ds : list Z) : list Z :=
  let prec := if precision c <? 0 then 1 else precision c in
  let l := replicate (Z.to_nat (Z.min 63 prec) - length ds) 48 ++ (digit_char b <$> ds) in
  if flag (flags c) POUND && (base b =? 8) && negb (peek l =? 48) then 48 :: l else l.

(** The field: at least as wide as asked for, with blanks on the right if MINUS
    is set, zeros after the prefix if ZERO is, blanks on the left otherwise. *)
Definition integer_field (b : integer_base) (value : Z) (is_signed negative : bool) (c : printf_conversion) (ds : list Z) : list Z :=
  let s := sign_part is_signed negative (flags c) in
  let p := prefix_part b value (flags c) in
  let d := digits_part b c ds in
  let pad := (Z.to_nat (width c) - length (s ++ p ++ d))%nat in
  if flag (flags c) MINUS then s ++ p ++ d ++ replicate pad 32
  else if flag (flags c) ZERO then s ++ p ++ replicate pad 48 ++ d
  else replicate pad 32 ++ s ++ p ++ d.

Lemma integer_field_width b value sg neg c ds : width c <= Z.of_nat (length (integer_field b value sg neg c ds)).
Proof.
  unfold integer_field. cbv zeta. repeat case_match; rewrite !length_app, !length_replicate; lia.
Qed.

Lemma length_digits_part b c ds : (length ds <= 63)%nat -> (length (digits_part b c ds) <= 64)%nat.
Proof. intros Hl. unfold digits_part. case_match; cbn; rewrite length_app, length_replicate, length_fmap; lia. Qed.

Lemma flag_lor fl a b : (Z.land fl (Z.lor a b) =? 0) = negb (flag fl a || flag fl b).
Proof.
  unfold flag. rewrite Z.land_lor_distr_r. destruct (Z.eqb_spec (Z.land fl a) 0) as [->|Ha], (Z.eqb_spec (Z.land fl b) 0) as [->|Hb]; cbn; try done;
    apply Z.eqb_neq; rewrite Z.lor_eq_0_iff; tauto.
Qed.

Lemma format_integer_putc value sg neg b c t :
  base_ok b -> 0 <= value < 2 ^ 64 -> flag (flags c) GROUP = false -> flag (flags c) MINUS && flag (flags c) ZERO = false -> 0 <= width c < 2 ^ 31 ->
  exists ds, numeral (base b) value ds /\ (length ds <= 22)%nat /\ format_integer putc value sg neg b c t = Ok (t ++ integer_field b value sg neg c ds).
Proof.
  intros Hb Hv Hg Hmz Hw. destruct (digit_loop_num 22 65 value 0 b [] Hb ltac:(lia) (pow_bound b value Hb Hv) ltac:(cbn; lia)) as (ds & Hn & Hl & E).
  exists ds. split; [done|]. split; [done|]. unfold format_integer. rewrite Hg, E. cbn [mbind res_bind]. rewrite app_nil_r.
  rewrite zero_loop_Ok by (rewrite length_fmap; lia). cbn [mbind res_bind]. rewrite length_fmap.
  match goal with |- context [if ?x && ?y && ?z then put 48 ?w else _] =>
    replace (if x && y && z then put 48 w else Ok w) with (Ok (A := list Z) (digits_part b c ds)) end.
  2:{ unfold digits_part. set (l := replicate _ _ ++ _). assert (Hl63 : (length l <= 63)%nat) by (unfold l; rewrite length_app, length_replicate, length_fmap; lia).
      unfold put. rewrite (proj2 (Z.ltb_lt _ _)) by lia. by destruct (_ && _ && _). }
  cbn [mbind res_bind]. pose proof (length_digits_part b c ds ltac:(lia)) as H64. set (d := digits_part b c ds) in *.
  set (sign := if sg then _ else _). set (x := if _ && _ then x_char b else 0).
  assert (Hs : (if negb (sign =? 0) then [sign] else []) = sign_part sg neg (flags c)).
  { unfold sign, sign_part. destruct sg; [|done]. destruct (flag (flags c) PLUS); [by destruct neg|]. destruct (flag (flags c) SPACE); by destruct neg. }
  assert (Hp : (if negb (x =? 0) then [48; x] else []) = prefix_part b value (flags c)).
  { unfold x, prefix_part. destruct (flag (flags c) POUND && negb (value =? 0)); [|done]. done. }
  assert (Hpad : let p := s32 (width c - Z.of_nat (length d) - (if negb (x =? 0) then 2 else 0) - (if negb (sign =? 0) then 1 else 0)) in
    Z.to_nat (if p <? 0 then 0 else p) = (Z.to_nat (width c) - length (sign_part sg neg (flags c) ++ prefix_part b value (flags c) ++ d))%nat).
  { cbv zeta. rewrite <- Hs, <- Hp, !length_app. rewrite s32_small by (unfold is_s32; repeat case_match; lia).
    destruct (Z.ltb_spec (width c - Z.of_nat (length d) - (if negb (x =? 0) then 2 else 0) - (if negb (sign =? 0) then 1 else 0)) 0); repeat case_match; cbn [length] in *; lia. }
  cbv zeta in Hpad. rewrite Hpad. set (pad := (Z.to_nat (width c) - _)%nat). f_equal. unfold integer_field. fold d. fold pad. rewrite <- Hs, <- Hp.
  rewrite flag_lor, !output_dup_putc, output_all_putc. unfold putc.
  destruct (flag (flags c) MINUS), (flag (flags c) ZERO), (negb (sign =? 0)), (negb (x =? 0)); try discriminate Hmz; cbn [negb orb andb app]; by rewrite <- ?app_assoc.
Qed.

(** The buffer of 64 characters is enough for every number and conversion. *)
Lemma format_integer_Ok {A} (output : Z -> A -> A) value sg neg b c aux : base_ok b -> 0 <= value < 2 ^ 64 ->
  exists aux', format_integer output value sg neg b c aux = Ok aux'.
Proof.
  intros Hb Hv. unfold format_integer. destruct (digit_loop_Ok 22 65 value 0 b (flag (flags c) GROUP) [] Hb ltac:(lia) (pow_bound b value Hb Hv) ltac:(cbn; lia)) as (buf & -> & Hl).
  cbn [mbind res_bind]. cbn in Hl. rewrite zero_loop_Ok by lia. cbn [mbind res_bind]. set (l := replicate _ _ ++ buf).
  assert (Hl63 : (length l <= 63)%nat) by (unfold l; rewrite length_app, length_replicate; lia).
  unfold put. rewrite (proj2 (Z.ltb_lt _ _)) by lia. destruct (_ && _ && _); cbn [mbind res_bind]; by eexists.
Qed.

Lemma bases_ok : base_ok base_d /\ base_ok base_o /\ base_ok base_x /\ base_ok base_X.
Proof. repeat split; vm_compute; congruence. Qed.

(** ** Every format is processed to its end *)

(** Not out of fuel. *)
Definition ends {A} (r : res A) : Prop := r <> Err EFuel.

Lemma ends_bind {A B} (r : res A) (f : A -> res B) : ends r -> (forall a, r = Ok a -> ends (f a)) -> ends (r ≫= f).
Proof. intros Hr Hf. destruct r as [a|e]; [by apply Hf|]. intros [= ->]. by apply Hr. Qed.
Lemma ends_Ok {A} (a : A) : ends (Ok a).
Proof. done. Qed.

Lemma va_word_ends args : ends (va_word args).
Proof. by destruct args. Qed.
Lemma va_int_ends args : ends (va_int args).
Proof. apply ends_bind; [apply va_word_ends|]. intros [] _. apply ends_Ok. Qed.
Lemma va_unsigned_ends args : ends (va_unsigned args).
Proof. apply ends_bind; [apply va_word_ends|]. intros [] _. apply ends_Ok. Qed.
Lemma va_u64_spec args : ends (va_u64 args) /\ forall v args', va_u64 args = Ok (v, args') -> 0 <= v < 2 ^ 64.
Proof.
  unfold va_u64. destruct args as [|lo [|hi args]]; [done|done|]. split; [done|]. intros v args' [= <- _].
  pose proof (u32_range lo) as [? ?]. pose proof (u32_range hi) as [? ?]. lia.
Qed.

Lemma signed_arg_ends t args : ends (signed_arg t args).
Proof. destruct t; cbn [signed_arg]; try apply va_int_ends; (apply ends_bind; [apply va_int_ends || apply va_u64_spec || apply va_unsigned_ends|intros [] _; apply ends_Ok]). Qed.

Lemma unsigned_arg_spec t args : ends (unsigned_arg t args) /\ forall v args', unsigned_arg t args = Ok (v, args') -> 0 <= v < 2 ^ 64.
Proof.
  assert (Hu : forall v args', va_unsigned args = Ok (v, args') -> 0 <= v < 2 ^ 32).
  { intros v args' E. unfold va_unsigned in E. apply bind_Ok in E as ([w a] & _ & [= <- _]). apply u32_range. }
  split.
  - destruct t; cbn [unsigned_arg]; try apply va_unsigned_ends; try apply va_u64_spec; (apply ends_bind; [apply va_int_ends || apply va_unsigned_ends|intros [] _; apply ends_Ok]).
  - destruct t; cbn [unsigned_arg]; intros v args' E; try (apply Hu in E; lia); try (by apply va_u64_spec in E);
      apply bind_Ok in E as ([w a] & _ & [= <- _]).
    + pose proof (Z.mod_pos_bound w (2 ^ 8)). lia.
    + pose proof (Z.mod_pos_bound w (2 ^ 16)). lia.
    + change (Z.lor _ _) with (Z.ones 32). rewrite Z.land_ones by lia. pose proof (Z.mod_pos_bound (u64 w) (2 ^ 32)). lia.
Qed.

Lemma strnlen_loop_ends k : forall m s len maxlen, 0 <= len -> (Z.to_nat len + k = S (size m))%nat -> mapped m s (Z.to_nat len) -> 0 <= s ->
  ends (strnlen_loop k s len maxlen m).
Proof.
  induction k as [|k IH]; intros m s len maxlen Hlen Hk Hm Hs; cbn [strnlen_loop].
  - exfalso. assert (Hsz : (Z.to_nat len <= size m)%nat); [|lia]. set (X := list_to_set (C := gset Z) (seqZ s len)).
    assert (HX : size X = Z.to_nat len) by (unfold X; rewrite size_list_to_set by apply NoDup_seqZ; rewrite length_seqZ; done).
    rewrite <- HX, <- size_dom. apply subseteq_size. intros a. unfold X. rewrite elem_of_list_to_set, elem_of_seqZ. intros Ha. apply elem_of_dom.
    destruct Hm as [_ Hm]. specialize (Hm (Z.to_nat (a - s)) ltac:(lia)). by replace (s + Z.of_nat (Z.to_nat (a - s))) with a in Hm by lia.
  - unfold mbind, stM_bind, load. destruct (s + len =? 0) eqn:E0; [done|]. destruct (m !! (s + len)) as [x|] eqn:Ex; [|done].
    destruct (negb (x =? 0) && _); [|done]. apply IH; [lia|lia| |done]. destruct Hm as [Hp Hm]. split; [done|]. intros i Hi.
    destruct (decide (i < Z.to_nat len)%nat); [by apply Hm|]. replace (s + Z.of_nat i) with (s + len) by lia. by eexists.
Qed.

Lemma load_chars_ends n : forall m p, ends (load_chars n p m).
Proof.
  induction n as [|n IH]; intros m p; cbn [load_chars]; [done|]. unfold mbind, stM_bind, load.
  destruct (p =? 0); [done|]. destruct (m !! p); [|done]. specialize (IH m (p + 1)). destruct (load_chars n (p + 1) m) as [[l m']|e]; [done|].
  intros [= ->]. by apply IH.
Qed.

Lemma string_arg_ends m s prec : 0 <= s -> ends (string_arg m s prec).
Proof.
  intros Hs. unfold string_arg. destruct (s =? 0) eqn:E; [done|]. zbool. apply ends_bind; [|intros [] _; apply ends_Ok].
  assert (H1 : ends (strnlen s (u32 prec) m)).
  { unfold strnlen. change (ends (strnlen_loop (S (size m)) s 0 (u32 prec) m)). apply strnlen_loop_ends; [lia|done| |done]. split; [lia|]. intros i Hi. cbn in Hi. lia. }
  unfold mbind, stM_bind. destruct (strnlen s (u32 prec) m) as [[n m']|e]; [apply load_chars_ends|]. intros [= ->]. by apply H1.
Qed.

Lemma parse_flags_length format : forall fl, (length (parse_flags format fl).1 <= length format)%nat.
Proof.
  induction format as [|c format IH]; intros fl; cbn [parse_flags]; [done|].
  repeat case_match; cbn [fst length]; try (etrans; [apply IH|lia]); lia.
Qed.
Lemma parse_number_length format : forall n, (length (parse_number format n).1 <= length format)%nat.
Proof. induction format as [|c format IH]; intros n; cbn [parse_number]; [done|]. case_match; cbn [fst length]; [etrans; [apply IH|lia]|lia]. Qed.
Lemma length_tl {A} (l : list A) : (length (tl l) <= length l)%nat.
Proof. destruct l; cbn; lia. Qed.
Lemma parse_type_length format : (length (parse_type format).1 <= length format)%nat.
Proof.
  destruct format as [|c rest]; cbn [parse_type]; [done|]. pose proof (length_tl rest). repeat case_match; cbn [fst length]; lia.
Qed.

Lemma parse_conversion_spec format args :
  ends (parse_conversion format args) /\
  forall c format' args', parse_conversion format args = Ok (c, format', args') -> (length format' <= length format)%nat.
Proof.
  unfold parse_conversion. pose proof (parse_flags_length format 0) as H0. destruct (parse_flags format 0) as [f0 fl0]. cbn [fst] in H0.
  set (A1 := if peek f0 =? 42 then _ else _).
  assert (H1 : ends A1 /\ forall f a w, A1 = Ok (f, a, w) -> (length f <= length f0)%nat).
  { unfold A1. destruct (peek f0 =? 42).
    - split; [apply ends_bind; [apply va_int_ends|intros [] _; apply ends_Ok]|]. intros f a w E. apply bind_Ok in E as ([? ?] & _ & [= <- _ _]). apply length_tl.
    - pose proof (parse_number_length f0 0) as H. destruct (parse_number f0 0). split; [done|]. by intros f a w [= <- _ _]. }
  destruct H1 as [E1 L1]. destruct A1 as [[[f1 a1] w]|e]; [|split; [intros [= ->]; by apply E1|done]]. specialize (L1 _ _ _ eq_refl). cbn [mbind res_bind].
  destruct (if w <? 0 then _ else _) as [w1 fl1]. set (A2 := if peek f1 =? 46 then _ else _).
  assert (H2 : ends A2 /\ forall f a p, A2 = Ok (f, a, p) -> (length f <= length f1)%nat).
  { unfold A2. destruct (peek f1 =? 46); [|split; [done|by intros f a p [= <- _ _]]]. pose proof (length_tl f1) as Ht. destruct (peek (tl f1) =? 42).
    - split.
      + apply ends_bind; [apply ends_bind; [apply va_int_ends|intros [] _; apply ends_Ok]|intros [[] ] _; apply ends_Ok].
      + intros f a p E. apply bind_Ok in E as ([[f' a'] p'] & E & [= <- _ _]). apply bind_Ok in E as ([? ?] & _ & [= <- _ _]). pose proof (length_tl (tl f1)). lia.
    - pose proof (parse_number_length (tl f1) 0) as H. destruct (parse_number (tl f1) 0) as [f' p']. cbn [fst] in H. split; [done|]. intros f a p [= <- _ _]. lia. }
  destruct H2 as [E2 L2]. destruct A2 as [[[f2 a2] p]|e]; [|split; [intros [= ->]; by apply E2|done]]. specialize (L2 _ _ _ eq_refl). cbn [mbind res_bind].
  pose proof (parse_type_length f2) as H3. destruct (parse_type f2) as [f3 t]. cbn [fst] in H3. split; [done|]. intros c format' args' [= _ <- _]. lia.
Qed.

Section Ends.
Context {A : Type} (output : Z -> A -> A) (m : mem).

(** The messages about unsupported conversions. *)
Lemma message_Ok k ch aux : exists aux1 aux2,
  vprintf_loop output m (31 + k) (chars "<<no %%%c in kernel>>") [ch] aux = Ok aux1 /\
  vprintf_loop output m (31 + k) (chars "<<no %%%c conversion>>") [ch] aux = Ok aux2.
Proof. eexists _, _. split; reflexivity. Qed.

Lemma vprintf_loop_ends fuel : forall format args aux, (length format + 32 <= fuel)%nat -> ends (vprintf_loop output m fuel format args aux).
Proof.
  induction fuel as [|fuel IH]; intros format args aux Hf; [lia|]. cbn [vprintf_loop]. destruct format as [|ch format]; [done|]. cbn [length] in Hf.
  destruct (negb (ch =? 37)); [apply IH; lia|]. destruct (peek format =? 37); [apply IH; pose proof (length_tl format); lia|].
  destruct (parse_conversion_spec format args) as [Hp Hl]. apply ends_bind; [done|]. intros [[c format'] args'] E. specialize (Hl _ _ _ E).
  destruct bases_ok as (Bd & Bo & Bx & BX).
  assert (Hint : forall v sg neg b c' (a : A), base_ok b -> 0 <= v < 2 ^ 64 -> ends (format_integer output v sg neg b c' a)).
  { intros v sg neg b c' a Hb Hv. by destruct (format_integer_Ok output v sg neg b c' a Hb Hv) as [aux' ->]. }
  destruct (message_Ok (fuel - 31) (peek format') aux) as (aux1 & aux2 & M1 & M2). replace (31 + (fuel - 31))%nat with fuel in M1, M2 by lia.
  apply ends_bind; [|intros [aux' args''] _; destruct format' as [|? format']; [done|cbn in Hl; apply IH; lia]].
  repeat match goal with |- ends (if ?b then _ else _) => destruct b end.
  - apply ends_bind; [apply signed_arg_ends|]. intros [v a] _. apply ends_bind; [|intros; apply ends_Ok]. apply Hint; [done|apply u64_range].
  - apply ends_bind; [apply unsigned_arg_spec|]. intros [v a] Ev. apply ends_bind; [|intros; apply ends_Ok].
    apply Hint; [repeat case_match; done|by apply unsigned_arg_spec in Ev].
  - apply ends_bind; [apply va_int_ends|]. intros [v a] _. apply ends_Ok.
  - apply ends_bind; [apply va_unsigned_ends|]. intros [v a] Ev. apply ends_bind; [|intros; apply ends_Ok]. apply string_arg_ends.
    unfold va_unsigned in Ev. apply bind_Ok in Ev as ([w ?] & _ & [= <- _]). apply u32_range.
  - apply ends_bind; [apply va_unsigned_ends|]. intros [v a] Ev. apply ends_bind; [|intros; apply ends_Ok]. apply Hint; [done|].
    unfold va_unsigned in Ev. apply bind_Ok in Ev as ([w ?] & _ & [= <- _]). pose proof (u32_range w) as [? ?]. lia.
  - rewrite M1. apply ends_Ok.
  - rewrite M2. apply ends_Ok.
Qed.

End Ends.

(** ** Integers *)

Lemma dec_value_numeral n ds : numeral 10 n ds -> Forall (fun c => isdigit c = true) (digit_char base_d <$> ds) /\ dec_value (digit_char base_d <$> ds) = n.
Proof.
  intros (HF & Hv & _).
  assert (Hd : forall d, 0 <= d < 10 -> digit_char base_d d = 48 + d).
  { intros d Hd. assert (H : d = 0 \/ d = 1 \/ d = 2 \/ d = 3 \/ d = 4 \/ d = 5 \/ d = 6 \/ d = 7 \/ d = 8 \/ d = 9) by lia.
    by repeat destruct H as [->|H]; [..|subst d]. }
  split.
  - apply Forall_fmap. apply (Forall_impl _ _ _ HF). intros d Hd'. cbn. rewrite Hd by done. unfold isdigit. apply andb_true_iff. rewrite !Z.leb_le. lia.
  - rewrite <- Hv. clear Hv. unfold dec_value, num_val. generalize 0. induction HF as [|d ds Hd' HF IH]; intros v; cbn; [done|]. rewrite IH. f_equal. rewrite Hd by done. lia.
Qed.

(** What %d prints, at the end of a format. *)
Lemma vprintf_d m v fuel t : is_s32 v -> exists ds, numeral 10 (Z.abs v) ds /\ (length ds <= 22)%nat /\
  vprintf_loop putc m (S (S fuel)) (chars "%d") [u32 v] t = Ok (t ++ (if v <? 0 then [45] else []) ++ (if v =? 0 then [48] else digit_char base_d <$> ds)).
Proof.
  intros Hv. destruct bases_ok as (Bd & _). set (c := MkConv 0 0 (-1) INT).
  assert (Hs : s32 (u32 v) = v). { unfold u32. rewrite Z.mod_eq by lia. replace (v - 2 ^ 32 * (v / 2 ^ 32)) with (v + (- (v / 2 ^ 32)) * 2 ^ 32) by lia. by rewrite s32_shift, s32_small. }
  assert (Hu : u64 (if v <? 0 then s64 (- v) else v) = Z.abs v).
  { unfold is_s32 in Hv. destruct (Z.ltb_spec v 0); [rewrite s64_small by (unfold is_s64; lia)|]; rewrite u64_small by (unfold is_u64; lia); lia. }
  destruct (format_integer_putc (Z.abs v) true (v <? 0) base_d c t Bd) as (ds & Hn & Hl & E); [unfold is_s32 in Hv; lia|done|done|done|].
  exists ds. split; [done|]. split; [done|].
  change (vprintf_loop putc m (S (S fuel)) (chars "%d") [u32 v] t)
    with ('(aux, args) ← ('(value, args) ← signed_arg INT [u32 v];
            aux ← format_integer putc (u64 (if value <? 0 then s64 (- value) else value)) true (value <? 0) base_d c t;
            Ok (aux, args)); vprintf_loop putc m (S fuel) [] args aux).
  cbn [signed_arg va_int va_word mbind res_bind]. rewrite Hs, Hu, E. cbn [mbind res_bind vprintf_loop app]. f_equal.
  unfold integer_field, digits_part, sign_part, prefix_part, c. cbn [flags width precision]. change (flag 0 MINUS) with false. change (flag 0 ZERO) with false.
  change (flag 0 PLUS) with false. change (flag 0 SPACE) with false. change (flag 0 POUND) with false. change (-1 <? 0) with true. cbn [andb].
  change (Z.to_nat (Z.min 63 1)) with 1%nat. cbn [Nat.sub Z.to_nat replicate app].
  assert (Hz : replicate (1 - length ds) 48 ++ (digit_char base_d <$> ds) = if v =? 0 then [48] else digit_char base_d <$> ds).
  { destruct (Z.eqb_spec v 0) as [->|Hne].
    - destruct Hn as (HF & Hval & Hh). destruct ds as [|d ds]; [done|]. exfalso. cbn in Hh. apply Forall_cons_1 in HF as [Hd HF]. unfold num_val in Hval. cbn [fold_left] in Hval.
      assert (Hge : forall l v0, Forall (fun d => 0 <= d < 10) l -> 0 < v0 -> 0 < fold_left (fun v d => v * 10 + d) l v0).
      { induction l as [|e l IHl]; intros v0 HFl Hv0; [done|]. cbn. apply Forall_cons_1 in HFl as [? ?]. apply IHl; [done|lia]. }
      assert (d <> 0) by congruence. specialize (Hge ds (0 * 10 + d) HF ltac:(lia)). change (base base_d) with 10 in Hval. lia.
    - destruct ds as [|d ds]; [|done]. destruct Hn as (_ & Hval & _). cbn in Hval. lia. }
  rewrite Hz. destruct (v <? 0); cbn; by rewrite ?app_nil_r.
Qed.

Lemma printf_d m v : is_s32 v -> exists ds, numeral 10 (Z.abs v) ds /\ (length ds <= 22)%nat /\
  printf m (chars "%d") [u32 v] [] = Ok ((if v <? 0 then [45] else []) ++ (if v =? 0 then [48] else digit_char base_d <$> ds)).
Proof. apply (vprintf_d m v 32 []). Qed.

(** What %s reads. *)
Lemma strnlen_loop_str s2 : forall s1 m p fuel maxlen, is_str m p (s1 ++ s2) -> (length s2 < fuel)%nat -> Z.of_nat (length (s1 ++ s2)) <= maxlen ->
  strnlen_loop fuel p (Z.of_nat (length s1)) maxlen m = Ok (Z.of_nat (length (s1 ++ s2)), m).
Proof.
  induction s2 as [|c s2 IH]; intros s1 m p [|fuel] maxlen Hs Hf Hm; cbn [length] in Hf; try lia; cbn [strnlen_loop]; pose proof Hs as (Hb & Hp & Ha).
  - rewrite app_nil_r in *. erewrite stbind_step by (apply load_Ok; [lia|apply Ha; by rewrite lookup_app_r, Nat.sub_diag by lia]). done.
  - erewrite stbind_step by (apply load_Ok; [lia|apply Ha; rewrite <- app_assoc, lookup_app_r, Nat.sub_diag by lia; done]).
    apply Forall_app in Hb as [_ Hb]. apply Forall_cons_1 in Hb as [Hc _]. rewrite length_app in Hm. cbn [length] in Hm.
    rewrite (proj2 (Z.eqb_neq c 0)), (proj2 (Z.ltb_lt _ _)) by lia. cbn [negb andb].
    specialize (IH (s1 ++ [c]) m p fuel maxlen). rewrite <- app_assoc in IH. cbn [app] in IH. rewrite <- IH; [|done|lia|rewrite length_app; cbn; lia].
    f_equal. rewrite length_app. cbn. lia.
Qed.

Lemma load_chars_str s : forall m p, mem_array m p s -> load_chars (length s) p m = Ok (s, m).
Proof.
  induction s as [|c s IH]; intros m p (Hp & Ha); [done|]. cbn [length load_chars].
  erewrite stbind_step by (apply load_Ok; [done|specialize (Ha 0%nat c eq_refl); by replace (p + Z.of_nat 0) with p in Ha by lia]).
  erewrite stbind_step; [reflexivity|]. apply IH. split; [lia|]. intros i x Hx. specialize (Ha (S i) x Hx). by replace (p + 1 + Z.of_nat i) with (p + Z.of_nat (S i)) by lia.
Qed.

Lemma string_arg_str m p s : is_str m p s -> Z.of_nat (length s) < 2 ^ 32 - 1 -> string_arg m p (-1) = Ok s.
Proof.
  intros Hs Hl. pose proof Hs as (Hb & Hp & Ha). unfold string_arg. rewrite (proj2 (Z.eqb_neq p 0)) by lia.
  assert (Hn : strnlen p (u32 (-1)) m = Ok (Z.of_nat (length s), m)).
  { unfold strnlen. apply (strnlen_loop_str s [] m p (S (size m)) (u32 (-1)) Hs); [by eapply is_str_fuel|]. change (u32 (-1)) with (2 ^ 32 - 1). cbn. lia. }
  erewrite stbind_step by exact Hn. rewrite Nat2Z.id, load_chars_str; [done|]. split; [done|]. intros i x Hx. apply Ha. by apply lookup_app_l_Some.
Qed.

Lemma literal_str s : Forall (fun b => 0 < b < 256) s -> is_str (literal s) 1 s.
Proof.
  intros Hs. split; [done|]. split; [lia|]. intros i x Hx. unfold literal. apply elem_of_list_to_map_1.
  - rewrite fst_zip; [apply NoDup_seqZ|]. rewrite length_seqZ, length_app. cbn. lia.
  - apply list_elem_of_lookup. exists i. apply lookup_zip_Some. split; [|done]. apply lookup_lt_Some in Hx. rewrite length_app in Hx. cbn in Hx.
    apply lookup_seqZ. lia.
Qed.

(** ** Properties of formatted output *)

(** C31. Numbers survive printing and reading: snprintf writes an int with %d
    into a buffer of 24 bytes or more as a string that atoi turns back into the
    same int, for every value of 32 bits. *)
Theorem snprintf_atoi m buf_size v : is_s32 v -> 24 <= buf_size < 2 ^ 31 ->
  exists s n, vsnprintf m buf_size (chars "%d") [u32 v] = Ok (s, n) /\ atoi s = v.
Proof.
  intros Hv Hb. destruct (printf_d m v Hv) as (ds & Hn & Hl & E). set (t := _ ++ _) in E.
  assert (Ht : (length t <= 23)%nat). { unfold t. rewrite length_app. repeat case_match; cbn [length]; rewrite ?length_fmap; lia. }
  pose proof (vsnprintf_text m buf_size _ _ t E ltac:(lia) ltac:(lia)) as Ev. rewrite (proj2 (Z.ltb_lt 0 buf_size)) in Ev by lia. rewrite take_ge in Ev by lia.
  eexists _, _. split; [exact Ev|]. destruct (dec_value_numeral _ ds Hn) as [Hd Hval].
  set (num := if v =? 0 then [48] else digit_char base_d <$> ds).
  assert (Hnum : Forall (fun c => isdigit c = true) num /\ dec_value num = Z.abs v /\ num <> []).
  { unfold num. destruct (Z.eqb_spec v 0) as [->|Hne]; [by repeat constructor|]. split; [done|]. split; [done|]. destruct ds; [|done].
    destruct Hn as (_ & Hval' & _). cbn in Hval'. lia. }
  destruct Hnum as (N1 & N2 & N3). pose proof (atoi_correct [] (if v <? 0 then [45] else []) num [0] ltac:(constructor)) as Ha.
  cbn [app] in Ha. unfold t. fold num. rewrite <- app_assoc. assert (Hsgn : (if decide ((if v <? 0 then [45] else []) = [45]) then - dec_value num else dec_value num) = v).
  { destruct (Z.ltb_spec v 0); [rewrite decide_True by done|rewrite decide_False by done]; lia. }
  rewrite Hsgn in Ha. apply Ha; [destruct (v <? 0); rewrite !elem_of_cons; tauto|done|done|done|done].
Qed.

Lemma snprintf_atoi_witness : exists s n, vsnprintf ∅ 24 (chars "%d") [u32 (- 2 ^ 31)] = Ok (s, n) /\ atoi s = - 2 ^ 31.
Proof. apply (snprintf_atoi ∅ 24 (- 2 ^ 31)); [unfold is_s32; lia|lia]. Defined.

(** C32. vsnprintf does not write more than BUF_SIZE characters, for a BUF_SIZE of
    at most 2^31 and texts of less than 2^31 characters (lengths are ints in the
    code, and would wrap around): if the format and the arguments produce the
    text t, it stores the first BUF_SIZE - 1
    characters of t and a terminator, or nothing if BUF_SIZE is 0, and returns
    the length of the whole text. *)
Theorem vsnprintf_correct m buf_size format args t :
  printf m format args [] = Ok t -> Z.of_nat (length t) < 2 ^ 31 -> 0 <= buf_size <= 2 ^ 31 ->
  exists s, vsnprintf m buf_size format args = Ok (s, Z.of_nat (length t)) /\ Z.of_nat (length s) <= buf_size /\
    (0 < buf_size -> s = take (Z.to_nat (buf_size - 1)) t ++ [0]).
Proof.
  intros Ht Hl Hb. rewrite (vsnprintf_text m buf_size format args t Ht Hl Hb). destruct (Z.ltb_spec 0 buf_size).
  - eexists. split; [done|]. split; [|done]. rewrite length_app, length_take. cbn. lia.
  - exists []. split; [done|]. split; [cbn; lia|lia].
Qed.

Lemma vsnprintf_correct_witness : exists s, vsnprintf ∅ 4 (chars "%5x|%c") [48879; 65] = Ok (s, 7) /\ s = chars " be" ++ [0].
Proof.
  destruct (vsnprintf_correct ∅ 4 (chars "%5x|%c") [48879; 65] (chars " beef|A")) as (s & E & _ & Hs); [vm_compute; reflexivity|vm_compute; reflexivity|lia|].
  exists s. split; [exact E|]. rewrite Hs by lia. reflexivity.
Defined.

(** C30. Integer conversions print the right number: for every 64-bit value,
    base and combination of flags (but ', and not - together with 0), the
    output is the field made of sign, prefix and the digits of the value, the
    most significant one first and with no leading zeros other than those the
    precision asks for, padded to the width on the side and with the character
    the flags say; the 64-byte buffer is never exceeded. *)
Theorem format_integer_correct value sg neg b c t :
  base_ok b -> 0 <= value < 2 ^ 64 -> flag (flags c) GROUP = false -> flag (flags c) MINUS && flag (flags c) ZERO = false -> 0 <= width c < 2 ^ 31 ->
  exists ds, Forall (fun d => 0 <= d < base b) ds /\ num_val (base b) ds = value /\ head ds <> Some 0 /\
    format_integer putc value sg neg b c t = Ok (t ++ integer_field b value sg neg c ds) /\
    width c <= Z.of_nat (length (integer_field b value sg neg c ds)).
Proof.
  intros Hb Hv Hg Hmz Hw. destruct (format_integer_putc value sg neg b c t Hb Hv Hg Hmz Hw) as (ds & (H1 & H2 & H3) & _ & E).
  exists ds. split_and!; try done. apply integer_field_width.
Qed.

Lemma format_integer_correct_witness :
  exists ds, num_val 16 ds = 48879 /\ format_integer putc 48879 false false base_x (MkConv (Z.lor POUND ZERO) 10 (-1) INT) [] =
    Ok ([] ++ integer_field base_x 48879 false false (MkConv (Z.lor POUND ZERO) 10 (-1) INT) ds).
Proof.
  destruct (format_integer_correct 48879 false false base_x (MkConv (Z.lor POUND ZERO) 10 (-1) INT) []) as (ds & _ & Hv & _ & E & _);
    [apply bases_ok|lia|reflexivity|reflexivity|cbn; lia|]. exists ds. split; [exact Hv|exact E].
Defined.

(** printf terminates: whatever the format, the arguments and the memory,
    __vprintf comes to the end of the format, or stops at an access to an
    argument or a character that is not there. *)
Theorem vprintf_terminates {A} (output : Z -> A -> A) m format args aux : __vprintf output m format args aux <> Err EFuel.
Proof. apply vprintf_loop_ends. lia. Qed.

(** A percent sign at the end of a format makes the code read behind it. *)
Theorem trailing_percent m l : Forall (fun c => c <> 37) l -> forall args t, printf m (l ++ [37]) args t = Err EFault.
Proof.
  intros HF. unfold printf, __vprintf. rewrite length_app. cbn [length]. intros args t.
  replace (length l + 1 + 32)%nat with (length l + 33)%nat by lia. revert args t. induction HF as [|c l Hc HF IH]; intros args t.
  - cbn [length app]. destruct (message_Ok putc m 1 0 t) as (_ & aux & _ & E). change (31 + 1)%nat with 32%nat in E.
    change (vprintf_loop putc m (0 + 33) [37] args t) with
      ('(aux, _) ← (aux ← vprintf_loop putc m 32 (chars "<<no %%%c conversion>>") [0] t; Ok (aux, args)); (Err EFault : res (list Z))).
    by rewrite E.
  - cbn [length app Nat.add vprintf_loop]. rewrite (proj2 (Z.eqb_neq c 37) Hc). apply IH.
Qed.
