(* ===== verification/Wait.v ===== *)
(** The life of processes: process_execute, start_process, process_wait and
    process_exit (userprog/process.c), with the parts of thread_create and
    exit_w that they rely on.

    The functions run in different threads, so they are cut into steps between
    which other threads may run: before and after each semaphore operation and
    each access to data of another thread.  A semaphore is its value; sema_down
    on 0 cannot proceed.  A struct thread is named by its tid and is in [procs]
    while it exists; a struct tid_status is in [nodes] while it is allocated,
    and an access to one that is not is [EFault].  The address that malloc
    returns is any that is free, so it may be one that was freed before. *)

From stdpp Require Import base list numbers gmap.
From Stdlib Require Import ZArith Lia.
From S2P Require Import Prelude.
Open Scope Z_scope.

(** ** State *)

(** [n_child] says whether the pointer to the thread is not null; [n_sema] is
    the value of the semaphore. *)
Record tid_status := MkNode { n_tid : Z; n_child : bool; exit_status : Z; loaded : bool; waiting : bool; n_sema : Z }.

(** Where a thread is. *)
Inductive pc :=
  | Start                              (* in start_process, before load *)
  | LoadDone (success : bool)          (* load has returned, load_sema is not yet up *)
  | User                               (* in the user program *)
  | ExecFind (tid : Z)                 (* process_execute, after thread_create *)
  | ExecDown (tid node : Z)            (* before sema_down (&child->load_sema) *)
  | ExecTest (tid node : Z)            (* after it *)
  | WaitDown (node : Z)                (* process_wait, before sema_down *)
  | WaitRead (node : Z)                (* after it *)
  | WaitMark (node result : Z)         (* after free (child_tid_node) *)
  | ExitStatus                         (* in process_exit *)
  | ExitNodes                          (* the loop over child_nodes *)
  | ExitChild                          (* before tid_node->child = NULL *)
  | ExitUp                             (* before sema_up (&tid_node->sema) *)
  | ExitDone.                          (* after it *)

Record proc := MkProc { tid_node : Z; tid_node_exists : bool; child_nodes : list Z; load_sema : Z; at_ : pc }.

(** What can be observed: messages on the console and results of calls. *)
Inductive event :=
  | EvExit (tid status : Z)            (* "name: exit(status)" *)
  | EvExec (tid result : Z)
  | EvWait (tid child_tid result : Z)  (* wait, after the child has ended *)
  | EvWaitNone (tid child_tid : Z).    (* wait, -1 at once *)

Record world := MkWorld { procs : gmap Z proc; nodes : gmap Z tid_status; next_tid : Z; log : list event }.

Definition TID_ERROR : Z := -1.

(** ** Steps *)

(** What the thread does next, where it has a choice. *)
Inductive action :=
  | CallExec (addr : Z)                (* exec; malloc returns addr *)
  | CallExecFails                      (* exec, and thread_create fails *)
  | CallWait (child_tid : Z)
  | CallExit (status : Z)
  | Killed                             (* by an exception or a bad pointer *)
  | Load (success : bool)              (* what load returns *)
  | Continue.

Definition set_pc (p : proc) (x : pc) : proc := MkProc (tid_node p) (tid_node_exists p) (child_nodes p) (load_sema p) x.
Definition put_proc (w : world) (t : Z) (p : proc) : world := MkWorld (<[t := p]> (procs w)) (nodes w) (next_tid w) (log w).
Definition put_node (w : world) (a : Z) (n : tid_status) : world := MkWorld (procs w) (<[a := n]> (nodes w)) (next_tid w) (log w).
Definition emit (w : world) (e : event) : world := MkWorld (procs w) (nodes w) (next_tid w) (log w ++ [e]).
Definition node (w : world) (a : Z) : res tid_status := of_option EFault (nodes w !! a).

(** thread_create: the thread and its node. *)
Definition thread_create (w : world) (addr : Z) : world :=
  let tid := next_tid w in
  MkWorld (<[tid := MkProc addr true [] 0 Start]> (procs w)) (<[addr := MkNode tid true (-2) false false 0]> (nodes w)) (tid + 1) (log w).

(** The search through child_nodes. *)
Fixpoint find_child (w : world) (child_tid : Z) (l : list Z) : res (option Z) :=
  match l with
  | [] => Ok None
  | a :: l => n ← node w a; if n_tid n =? child_tid then Ok (Some a) else find_child w child_tid l
  end.

(** Fields of the current thread's node and of its list change. *)
Definition with_loaded (n : tid_status) (b : bool) : tid_status := MkNode (n_tid n) (n_child n) (exit_status n) b (waiting n) (n_sema n).
Definition with_exit (n : tid_status) (x : Z) : tid_status := MkNode (n_tid n) (n_child n) x (loaded n) (waiting n) (n_sema n).
Definition with_child (n : tid_status) (b : bool) : tid_status := MkNode (n_tid n) b (exit_status n) (loaded n) (waiting n) (n_sema n).
Definition with_waiting (n : tid_status) (b : bool) : tid_status := MkNode (n_tid n) (n_child n) (exit_status n) (loaded n) b (n_sema n).
Definition with_sema (n : tid_status) (v : Z) : tid_status := MkNode (n_tid n) (n_child n) (exit_status n) (loaded n) (waiting n) v.
Definition with_children (p : proc) (l : list Z) : proc := MkProc (tid_node p) (tid_node_exists p) l (load_sema p) (at_ p).
Definition with_exists (p : proc) (b : bool) : proc := MkProc (tid_node p) b (child_nodes p) (load_sema p) (at_ p).
Definition with_load (p : proc) (v : Z) : proc := MkProc (tid_node p) (tid_node_exists p) (child_nodes p) v (at_ p).

(** exit_w up to thread_exit. *)
Definition exit_w (w : world) (t : Z) (p : proc) (status : Z) : res world :=
  w ← (if tid_node_exists p then n ← node w (tid_node p); Ok (put_node w (tid_node p) (with_exit n status)) else Ok w);
  let w := if 0 <=? status then emit w (EvExit t status) else w in
  Ok (put_proc w t (set_pc p ExitStatus)).

(** process_wait up to sema_down. *)
Definition wait_begin (w : world) (t : Z) (p : proc) (child_tid : Z) : res world :=
  r ← find_child w child_tid (child_nodes p);
  match r with
  | None => Ok (emit w (EvWaitNone t child_tid))
  | Some a =>
      n ← node w a;
      if waiting n then Ok (emit w (EvWaitNone t child_tid)) else Ok (put_proc w t (set_pc p (WaitDown a)))
  end.

(** One turn of the loop of process_exit over child_nodes.  The flag that is
    cleared is that of the thread of the current thread's own node. *)
Definition exit_node (w : world) (t : Z) (p : proc) : res world :=
  match child_nodes p with
  | [] => Ok (put_proc w t (set_pc p ExitChild))
  | a :: l =>
      n ← node w a;
      w ← (if n_child n then
             own ← node w (tid_node p);
             if n_child own then
               q ← of_option EFault (procs w !! n_tid own);
               Ok (put_proc w (n_tid own) (with_exists q false))
             else Err EFault
           else Ok w);
      p ← of_option EFault (procs w !! t);
      Ok (put_proc (MkWorld (procs w) (delete a (nodes w)) (next_tid w) (log w)) t (with_children p l))
  end.

(** exec: thread_create, in a thread that goes on in process_execute. *)
Definition execute_create (w : world) (t : Z) (p : proc) (addr : Z) : res (option world) :=
  if (addr =? 0) || bool_decide (is_Some (nodes w !! addr)) then Ok None
  else Ok (Some (put_proc (thread_create w addr) t (set_pc p (ExecFind (next_tid w))))).

(** process_execute: get_thread_by_tid, sema_down, and the test of loaded. *)
Definition execute_find (w : world) (t : Z) (p : proc) (tid : Z) : res (option world) :=
  match procs w !! tid with
  | None => Ok (Some (put_proc (emit w (EvExec t TID_ERROR)) t (set_pc p User)))
  | Some child => Ok (Some (put_proc w t (set_pc p (ExecDown tid (tid_node child)))))
  end.

Definition execute_down (w : world) (t : Z) (p : proc) (tid nd : Z) : res (option world) :=
  child ← of_option EFault (procs w !! tid);
  if load_sema child =? 0 then Ok None
  else Ok (Some (put_proc (put_proc w tid (with_load child (load_sema child - 1))) t (set_pc p (ExecTest tid nd)))).

Definition execute_test (w : world) (t : Z) (p : proc) (tid nd : Z) : res (option world) :=
  n ← node w nd;
  if loaded n then Ok (Some (put_proc (emit w (EvExec t tid)) t (set_pc (with_children p (child_nodes p ++ [nd])) User)))
  else Ok (Some (put_proc (emit w (EvExec t TID_ERROR)) t (set_pc p User))).

(** start_process: load and what follows it. *)
Definition start_load (w : world) (t : Z) (p : proc) (success : bool) : res (option world) :=
  w ← (if success then n ← node w (tid_node p); Ok (put_node w (tid_node p) (with_loaded n true)) else Ok w);
  Ok (Some (put_proc w t (set_pc p (LoadDone success)))).

Definition start_signal (w : world) (t : Z) (p : proc) (success : bool) : res (option world) :=
  Ok (Some (put_proc w t (set_pc (with_load p (load_sema p + 1)) (if success then User else ExitStatus)))).

(** process_wait: sema_down; the result, list_remove and free; and the write
    to the freed node, which hits what is there now. *)
Definition wait_down (w : world) (t : Z) (p : proc) (nd : Z) : res (option world) :=
  n ← node w nd;
  if n_sema n =? 0 then Ok None
  else Ok (Some (put_proc (put_node w nd (with_sema n (n_sema n - 1))) t (set_pc p (WaitRead nd)))).

Definition wait_read (w : world) (t : Z) (p : proc) (nd : Z) : res (option world) :=
  n ← node w nd;
  let p := with_children p (filter (fun b => b <> nd) (child_nodes p)) in
  let w := MkWorld (procs w) (delete nd (nodes w)) (next_tid w) (log w ++ [EvWait t (n_tid n) (exit_status n)]) in
  Ok (Some (put_proc w t (set_pc p (WaitMark nd (exit_status n))))).

(** process.c:186-189: the flag is written after the node has been freed, so the
    write goes to whatever is at that address now: another process's node if
    malloc has given the memory out again, and nothing that is read otherwise. *)
Definition wait_mark (w : world) (t : Z) (p : proc) (nd : Z) : res (option world) :=
  let w := match nodes w !! nd with Some n => put_node w nd (with_waiting n true) | None => w end in
  Ok (Some (put_proc w t (set_pc p User))).

(** process_exit: the status, the flag of the node, sema_up. *)
Definition exit_set_status (w : world) (t : Z) (p : proc) : res (option world) :=
  n ← node w (tid_node p);
  let w := if exit_status n <? 0 then emit (put_node w (tid_node p) (with_exit n (-1))) (EvExit t (-1)) else w in
  Ok (Some (put_proc w t (set_pc p ExitNodes))).

Definition exit_child (w : world) (t : Z) (p : proc) : res (option world) :=
  w ← (if tid_node_exists p then n ← node w (tid_node p); Ok (put_node w (tid_node p) (with_child n false)) else Ok w);
  Ok (Some (put_proc w t (set_pc p ExitUp))).

Definition exit_up (w : world) (t : Z) (p : proc) : res (option world) :=
  n ← node w (tid_node p);
  Ok (Some (put_proc (put_node w (tid_node p) (with_sema n (n_sema n + 1))) t (set_pc p ExitDone))).

(** One step of thread [t]: [Ok None] if it cannot take it now. *)
Definition step (t : Z) (a : action) (w : world) : res (option world) :=
  match procs w !! t with
  | None => Ok None
  | Some p =>
      match at_ p, a with
      | User, CallExec addr => execute_create w t p addr
      | User, CallExecFails => Ok (Some (emit w (EvExec t TID_ERROR)))
      | User, CallWait c => Some <$> wait_begin w t p c
      | User, CallExit status => Some <$> exit_w w t p status
      | User, Killed => Ok (Some (put_proc w t (set_pc p ExitStatus)))
      | Start, Load success => start_load w t p success
      | LoadDone success, Continue => start_signal w t p success
      | ExecFind tid, Continue => execute_find w t p tid
      | ExecDown tid nd, Continue => execute_down w t p tid nd
      | ExecTest tid nd, Continue => execute_test w t p tid nd
      | WaitDown nd, Continue => wait_down w t p nd
      | WaitRead nd, Continue => wait_read w t p nd
      | WaitMark nd _, Continue => wait_mark w t p nd
      | ExitStatus, Continue => exit_set_status w t p
      | ExitNodes, Continue => Some <$> exit_node w t p
      | ExitChild, Continue => exit_child w t p
      | ExitUp, Continue => exit_up w t p
      | ExitDone, Continue => Ok (Some (MkWorld (delete t (procs w)) (nodes w) (next_tid w) (log w)))
      | _, _ => Ok None
      end
  end.

(** Unfolds a step of whatever kind. *)
Ltac unfold_step :=
  unfold step, execute_create, execute_find, execute_down, execute_test, start_load, start_signal, wait_down, wait_read, wait_mark,
    exit_set_status, exit_child, exit_up.

(** The kernel's first thread, which has no node, runs process_wait
    (process_execute (task)). *)
Definition boot : world := MkWorld {[ 1 := MkProc 0 false [] 0 User ]} ∅ 2 [].

(** A run: who moves and how. *)
Fixpoint run (l : list (Z * action)) (w : world) : res (option world) :=
  match l with
  | [] => Ok (Some w)
  | (t, a) :: l => r ← step t a w; match r with Some w => run l w | None => Ok None end
  end.
