(* ===== verification/WaitSpec.v ===== *)
(** What waiting for a process yields (Wait.v).

    Processes run in any interleaving, under one discipline: a process that
    ends has waited for all its children.  Then a wait returns the status that
    the child printed, at most once for each child, and never hangs on a child
    that has ended.  Without the discipline, and where process_execute meets a
    child that has already ended, the code uses freed memory: the runs at the
    end of the file show it. *)

From stdpp Require Import base list numbers gmap.
From Stdlib Require Import ZArith Lia.
From S2P Require Import Prelude Wait.
Open Scope Z_scope.

(** ** Observations *)

Definition exits (c : Z) (l : list event) : list Z :=
  omap (fun e => match e with EvExit t s => if t =? c then Some s else None | _ => None end) l.

Definition waits (c : Z) (l : list event) : list (Z * Z) :=
  omap (fun e => match e with EvWait t d r => if d =? c then Some (t, r) else None | _ => None end) l.

Definition execs (c : Z) (l : list event) : list Z :=
  omap (fun e => match e with EvExec t d => if d =? c then Some t else None | _ => None end) l.

Lemma exits_app c l k : exits c (l ++ k) = exits c l ++ exits c k.
Proof. apply omap_app. Qed.

Lemma waits_app c l k : waits c (l ++ k) = waits c l ++ waits c k.
Proof. apply omap_app. Qed.

Lemma execs_app c l k : execs c (l ++ k) = execs c l ++ execs c k.
Proof. apply omap_app. Qed.

#[local] Arguments exits : simpl never.
#[local] Arguments waits : simpl never.
#[local] Arguments execs : simpl never.

(** Events that say nothing about any process. *)
Definition mute (l : list event) : Prop := forall c, 2 <= c -> exits c l = [] /\ waits c l = [] /\ execs c l = [].

Lemma mute_nil : mute [].
Proof. done. Qed.

Lemma mute_none t c : mute [EvWaitNone t c].
Proof. done. Qed.

Lemma mute_error t : mute [EvExec t TID_ERROR].
Proof.
  intros c Hc. split_and!; [done..|]. unfold execs, TID_ERROR. cbn -[Z.eqb]. by rewrite (proj2 (Z.eqb_neq (-1) c)) by lia.
Qed.

#[local] Hint Resolve mute_nil mute_none mute_error : core.

(** ** The invariant *)

Inductive stages := Early | Leaving | Printed | Done.

Definition phase (x : pc) : stages :=
  match x with ExitStatus => Leaving | ExitNodes | ExitChild | ExitUp => Printed | ExitDone => Done | _ => Early end.

Definition stage_of (w : world) (c : Z) : stages := from_option (fun q => phase (at_ q)) Done (procs w !! c).

(** Where a process has no children. *)
Definition childless (x : pc) : bool :=
  match x with Start | LoadDone _ | ExitStatus | ExitNodes | ExitChild | ExitUp | ExitDone => true | _ => false end.

(** A node says how far its process is. *)
Definition stage (ph : stages) (w : world) (a : Z) (n : tid_status) : Prop :=
  let printed := exits (n_tid n) (log w) in
  match ph with
  | Early => exit_status n < 0 /\ printed = [] /\ n_sema n = 0
  | Leaving => printed = (if 0 <=? exit_status n then [exit_status n] else []) /\ n_sema n = 0
  | Printed => printed = [exit_status n] /\ n_sema n = 0
  | Done => printed = [exit_status n] /\ (n_sema n = 1 \/ n_sema n = 0 /\ exists t p, procs w !! t = Some p /\ at_ p = WaitRead a)
  end.

(** The child that process_execute is creating. *)
Definition creating (p : proc) : option Z :=
  match at_ p with ExecFind c | ExecDown c _ | ExecTest c _ => Some c | _ => None end.

Definition at_ok (w : world) (p : proc) : Prop :=
  match at_ p with
  | ExecFind c => execs c (log w) = [] /\ exists a n, nodes w !! a = Some n /\ n_tid n = c
  | ExecDown c a | ExecTest c a => execs c (log w) = [] /\ exists n, nodes w !! a = Some n /\ n_tid n = c
  | WaitDown a => a ∈ child_nodes p
  | WaitRead a => a ∈ child_nodes p /\ exists n, nodes w !! a = Some n /\ stage_of w (n_tid n) = Done
  | _ => True
  end.

Record tidy (w : world) (t : Z) (p : proc) : Prop := {
  tidy_nodup : NoDup (child_nodes p);
  tidy_kids : forall a, a ∈ child_nodes p -> exists n, nodes w !! a = Some n /\ execs (n_tid n) (log w) = [t];
  tidy_at : at_ok w p;
  tidy_childless : childless (at_ p) = true -> child_nodes p = []
}.

Record inv (w : world) : Prop := {
  i_node : forall a n, nodes w !! a = Some n ->
    a <> 0 /\ 2 <= n_tid n < next_tid w /\ waits (n_tid n) (log w) = [] /\ stage (stage_of w (n_tid n)) w a n;
  i_inj : forall a b n m, nodes w !! a = Some n -> nodes w !! b = Some m -> n_tid n = n_tid m -> a = b;
  i_link : forall a n q, nodes w !! a = Some n -> procs w !! n_tid n = Some q -> tid_node q = a;
  i_proc : forall t p, procs w !! t = Some p ->
    1 <= t < next_tid w /\ tid_node_exists p = negb (t =? 1) /\ (t = 1 -> tid_node p = 0) /\
    (t <> 1 -> phase (at_ p) <> Done -> exists n, nodes w !! tid_node p = Some n /\ n_tid n = t);
  i_tidy : forall t p, procs w !! t = Some p -> tidy w t p;
  i_uniq : forall t p t' p' c, procs w !! t = Some p -> procs w !! t' = Some p' ->
    creating p = Some c -> creating p' = Some c -> t = t';
  i_wait : forall c, 2 <= c -> waits c (log w) = [] \/
    exists t r, waits c (log w) = [(t, r)] /\ exits c (log w) = [r] /\ execs c (log w) = [t] /\ stage_of w c = Done;
  i_all : forall c, 2 <= c < next_tid w -> (exists a n, nodes w !! a = Some n /\ n_tid n = c) \/ waits c (log w) <> [];
  i_fresh : forall c, 2 <= c -> next_tid w <= c -> exits c (log w) = [] /\ waits c (log w) = [] /\ execs c (log w) = [];
  i_next : 2 <= next_tid w
}.

(** ** Processes a change does not concern *)

(** The children that [p] has or is creating. *)
Definition concerns (w : world) (p : proc) (c : Z) : Prop :=
  creating p = Some c \/ exists a n, a ∈ child_nodes p /\ nodes w !! a = Some n /\ n_tid n = c.

Lemma tidy_mono w w' t p :
  (forall a n, nodes w !! a = Some n -> concerns w p (n_tid n) -> exists n', nodes w' !! a = Some n' /\ n_tid n' = n_tid n) ->
  (forall c, concerns w p c -> execs c (log w') = execs c (log w)) ->
  (forall c, concerns w p c -> stage_of w c = Done -> stage_of w' c = Done) ->
  tidy w t p -> tidy w' t p.
Proof.
  intros Hn He Hs [H1 H2 H3 H4].
  assert (Hkid : forall a n, a ∈ child_nodes p -> nodes w !! a = Some n -> concerns w p (n_tid n)) by (intros; right; eauto 6).
  constructor; [done| |..|done].
  - intros a Ha. destruct (H2 a Ha) as (n & En & Ee). destruct (Hn a n En (Hkid a n Ha En)) as (n' & En' & Et).
    exists n'. rewrite Et, He by eauto. done.
  - unfold at_ok in *. destruct (at_ p) eqn:Ep; try done.
    + destruct H3 as (E & a & n & En & <-). assert (C : concerns w p (n_tid n)) by (left; unfold creating; by rewrite Ep).
      rewrite He by done. split; [done|]. destruct (Hn a n En C) as (n' & ? & ?). eauto.
    + destruct H3 as (E & n & En & <-). assert (C : concerns w p (n_tid n)) by (left; unfold creating; by rewrite Ep).
      rewrite He by done. split; [done|]. destruct (Hn _ n En C) as (n' & ? & ?). eauto.
    + destruct H3 as (E & n & En & <-). assert (C : concerns w p (n_tid n)) by (left; unfold creating; by rewrite Ep).
      rewrite He by done. split; [done|]. destruct (Hn _ n En C) as (n' & ? & ?). eauto.
    + destruct H3 as (Ha & n & En & Es). split; [done|]. destruct (Hn _ n En (Hkid _ n Ha En)) as (n' & En' & Et).
      exists n'. split; [done|]. rewrite Et. eauto.
Qed.

Lemma stage_frame w w' ph a n n' :
  n_tid n' = n_tid n -> exit_status n' = exit_status n -> n_sema n' = n_sema n ->
  exits (n_tid n) (log w') = exits (n_tid n) (log w) ->
  (forall t p, procs w !! t = Some p -> at_ p = WaitRead a -> exists t' p', procs w' !! t' = Some p' /\ at_ p' = WaitRead a) ->
  stage ph w a n -> stage ph w' a n'.
Proof.
  unfold stage. intros -> -> -> -> Hr. destruct ph; try done.
  intros (E & [H|(H & t & p & Hp & Hat)]); split; eauto 8.
Qed.

Lemma stage_sema ph w a n : stage ph w a n -> n_sema n <> 0 -> ph = Done /\ n_sema n = 1.
Proof. unfold stage. destruct ph; naive_solver. Qed.

Lemma stage_of_put w t p p' ns nx l c :
  procs w !! t = Some p ->
  stage_of (MkWorld (<[t := p']> (procs w)) ns nx l) c = if c =? t then phase (at_ p') else stage_of w c.
Proof.
  intros Hp. unfold stage_of. cbn. destruct (Z.eqb_spec c t) as [->|]; [by rewrite lookup_insert_eq|by rewrite lookup_insert_ne by done].
Qed.

Lemma creating_facts w t p c :
  inv w -> procs w !! t = Some p -> creating p = Some c ->
  2 <= c < next_tid w /\ execs c (log w) = [] /\ exists a n, nodes w !! a = Some n /\ n_tid n = c.
Proof.
  intros I Hp. pose proof (tidy_at _ _ _ (i_tidy w I t p Hp)) as Ha. unfold creating, at_ok in *.
  destruct (at_ p); intros [= ->]; [destruct Ha as (? & a & n & En & <-)|destruct Ha as (? & n & En & <-)..];
    (split; [by eapply i_node|eauto]).
Qed.

(** A kid of one process is not a kid of another, nor is another creating it. *)
Lemma kid_alone w t p s q a n :
  inv w -> procs w !! t = Some p -> a ∈ child_nodes p -> nodes w !! a = Some n ->
  procs w !! s = Some q -> concerns w q (n_tid n) -> s = t.
Proof.
  intros I Hp Ha En Hq C. destruct (tidy_kids _ _ _ (i_tidy w I t p Hp) a Ha) as (? & E & Ek). simplify_eq.
  destruct C as [C|(b & m & Hb & Em & Et)].
  - destruct (creating_facts w s q _ I Hq C) as (_ & E & _). congruence.
  - destruct (tidy_kids _ _ _ (i_tidy w I s q Hq) b Hb) as (? & E & Ek'). simplify_eq. congruence.
Qed.

(** A step of one process that neither creates nor removes a thread or node. *)
Lemma inv_update w t p p' ns l :
  let w' := MkWorld (<[t := p']> (procs w)) ns (next_tid w) (log w ++ l) in
  inv w -> procs w !! t = Some p ->
  tid_node p' = tid_node p -> tid_node_exists p' = tid_node_exists p ->
  (forall c, creating p' = Some c -> creating p = Some c) ->
  (phase (at_ p) = Done -> phase (at_ p') = Done) ->
  (forall a, n_tid <$> ns !! a = n_tid <$> nodes w !! a) ->
  (forall c, 2 <= c -> waits c l = []) ->
  (forall c, 2 <= c -> execs c l <> [] -> creating p = Some c) ->
  (forall c, 2 <= c -> exits c l <> [] -> c = t /\ phase (at_ p) <> Done) ->
  (forall a n, ns !! a = Some n -> stage (stage_of w' (n_tid n)) w' a n) ->
  tidy w' t p' ->
  inv w'.
Proof.
  intros w' I Hp Htn Hex Hcr Hdone Hns Hw He Hx Hst Htidy.
  assert (Hback : forall a n, ns !! a = Some n -> exists m, nodes w !! a = Some m /\ n_tid m = n_tid n).
  { intros a n E. specialize (Hns a). rewrite E in Hns. destruct (nodes w !! a) as [m|] eqn:Em; [|done]. cbn in Hns. exists m. by simplify_eq. }
  assert (Hforth : forall a n, nodes w !! a = Some n -> exists m, ns !! a = Some m /\ n_tid m = n_tid n).
  { intros a n E. specialize (Hns a). rewrite E in Hns. destruct (ns !! a) as [m|] eqn:Em; [|done]. cbn in Hns. exists m. by simplify_eq. }
  assert (Hso : forall c, stage_of w c = Done -> stage_of w' c = Done).
  { intros c. unfold w'. rewrite (stage_of_put w t p) by done. destruct (Z.eqb_spec c t) as [->|]; [|done].
    unfold stage_of. rewrite Hp. cbn. done. }
  constructor.
  - intros a n E. destruct (Hback a n E) as (m & Em & Et). destruct (i_node w I a m Em) as (? & ? & Hwm & ?). 
    split; [done|]. split; [cbn; lia|]. split; [|auto]. cbn. rewrite waits_app, <- Et, Hwm, Hw by lia. done.
  - cbn. intros a b n m Ea Eb. destruct (Hback _ _ Ea) as (? & ? & <-). destruct (Hback _ _ Eb) as (? & ? & <-). by eapply i_inj.
  - cbn. intros a n q Ea. destruct (Hback _ _ Ea) as (m & Em & <-). destruct (Z.eq_dec (n_tid m) t) as [Et|].
    + rewrite Et, lookup_insert_eq. intros [= <-]. rewrite Htn. eapply i_link; eauto. by rewrite Et.
    + rewrite lookup_insert_ne by done. by eapply i_link.
  - cbn. intros s q [(<- & <-)|(? & Hq)]%lookup_insert_Some.
    + destruct (i_proc w I t p Hp) as (? & ? & ? & Hn). rewrite Htn, Hex. split; [done|]. split; [done|]. split; [done|].
      intros Ht Hph. destruct Hn as (n & En & Et); [done|naive_solver|]. destruct (Hforth _ _ En) as (m & ? & ?). exists m. by split; [|congruence].
    + destruct (i_proc w I s q Hq) as (? & ? & ? & Hn). split; [done|]. split; [done|]. split; [done|].
      intros Ht Hph. destruct (Hn Ht Hph) as (n & En & Et). destruct (Hforth _ _ En) as (m & ? & ?). exists m. by split; [|congruence].
  - cbn. intros s q [(<- & <-)|(Hne & Hq)]%lookup_insert_Some; [done|]. pose proof (i_tidy w I s q Hq) as Hs.
    eapply tidy_mono; [..|exact Hs]; [intros a n En _; by apply Hforth| |by intros c _; apply Hso].
    intros c Hc. cbn. rewrite execs_app. destruct (decide (execs c l = [])) as [->|Hne']; [by rewrite app_nil_r|]. exfalso.
    assert (Hc' : creating p = Some c).
    { apply He; [|done]. destruct Hc as [Hc|(a & n & _ & En & <-)]; [by eapply creating_facts|by eapply i_node]. }
    destruct Hc as [Hc|(a & n & Hin & En & <-)]; [apply Hne; by apply (i_uniq w I t p s q c)|].
    apply Hne. apply (kid_alone w s q t p a n I); auto. by left.
  - cbn. intros s q s' q' c [(<- & <-)|(? & Hq)]%lookup_insert_Some [(<- & <-)|(? & Hq')]%lookup_insert_Some C C'; auto;
      eapply (i_uniq w I); eauto.
  - cbn. intros c Hc. rewrite waits_app, (Hw c Hc), app_nil_r. destruct (i_wait w I c Hc) as [?|(s & r & Ew & Ex & Ee & Ed)]; [by left|right].
    exists s, r. rewrite exits_app, execs_app. split_and!; [done| | |auto].
    + destruct (decide (exits c l = [])) as [->|Hne]; [by rewrite app_nil_r|]. destruct (Hx c Hc Hne) as (-> & Hd). unfold stage_of in Ed. by rewrite Hp in Ed.
    + destruct (decide (execs c l = [])) as [->|Hne]; [by rewrite app_nil_r|].
      destruct (creating_facts w t p c I Hp (He c Hc Hne)) as (_ & E & _). congruence.
  - cbn. intros c Hc. destruct (i_all w I c Hc) as [(a & n & En & <-)|Hn].
    + destruct (Hforth a n En) as (m & ? & ?). eauto.
    + right. rewrite waits_app. by destruct (waits c (log w)).
  - cbn. intros c Hc Hn. destruct (i_fresh w I c Hc Hn) as (E1 & E2 & E3). rewrite exits_app, waits_app, execs_app, E1, E2, E3, Hw by done.
    split_and!; [|done|]; cbn.
    + destruct (decide (exits c l = [])) as [|Hne]; [done|]. destruct (Hx c Hc Hne) as (-> & _). destruct (i_proc w I t p Hp). lia.
    + destruct (decide (execs c l = [])) as [|Hne]; [done|]. destruct (creating_facts w t p c I Hp (He c Hc Hne)). lia.
  - by apply (i_next w I).
Qed.

(** The process keeps its children. *)
Lemma tidy_same_kids w w' t p p' :
  inv w -> procs w !! t = Some p -> child_nodes p' = child_nodes p ->
  (forall a n, nodes w !! a = Some n -> exists n', nodes w' !! a = Some n' /\ n_tid n' = n_tid n) ->
  (forall c, 2 <= c -> execs c (log w') = execs c (log w)) ->
  at_ok w' p' -> (childless (at_ p') = true -> child_nodes p = []) -> tidy w' t p'.
Proof.
  intros I Hp Hk Hn He Ha Hl. destruct (i_tidy w I t p Hp) as [H1 H2 _ _].
  constructor; rewrite ?Hk; [done| |done|done].
  intros a Hin. destruct (H2 a Hin) as (n & En & Ee). destruct (Hn a n En) as (n' & En' & Et). exists n'. split; [done|].
  rewrite Et, He; [done|]. apply (i_node w I a n En).
Qed.

(** It goes on, and no node changes. *)
Lemma inv_move w t p p' l :
  let w' := MkWorld (<[t := p']> (procs w)) (nodes w) (next_tid w) (log w ++ l) in
  inv w -> procs w !! t = Some p ->
  tid_node p' = tid_node p -> tid_node_exists p' = tid_node_exists p -> child_nodes p' = child_nodes p ->
  phase (at_ p') = phase (at_ p) -> (forall a, at_ p = WaitRead a -> at_ p' = WaitRead a) ->
  (forall c, creating p' = Some c -> creating p = Some c) -> (childless (at_ p') = true -> childless (at_ p) = true) ->
  mute l -> at_ok w' p' -> inv w'.
Proof.
  intros w' I Hp Htn Hex Hk Hph Hr Hcr Hcl Hl Ha.
  assert (Hso : forall c, stage_of w' c = stage_of w c).
  { intros c. unfold w'. rewrite (stage_of_put w t p) by done. destruct (Z.eqb_spec c t) as [->|]; [|done]. unfold stage_of. by rewrite Hp, Hph. }
  apply (inv_update w t p); try done; try (intros c Hc; destruct (Hl c Hc) as (? & ? & ?); congruence).
  - by rewrite Hph.
  - intros a n En. destruct (i_node w I a n En) as (_ & Hc & _ & Hs). rewrite Hso.
    eapply stage_frame; [..|exact Hs]; try done.
    + cbn. rewrite exits_app. destruct (Hl (n_tid n)) as (-> & _); [lia|]. apply app_nil_r.
    + intros s q Hq Hat. cbn. destruct (decide (s = t)) as [->|]; [|exists s, q; by rewrite lookup_insert_ne by done].
      exists t, p'. rewrite lookup_insert_eq. simplify_eq. auto.
  - apply (tidy_same_kids w _ t p); try done; [eauto| |].
    + intros c Hc. cbn. rewrite execs_app. destruct (Hl c Hc) as (_ & _ & ->). apply app_nil_r.
    + intros C. apply (tidy_childless _ _ _ (i_tidy w I t p Hp)). auto.
Qed.

(** It goes on, and updates its own node. *)
Lemma inv_own w t p n p' n' l :
  let w' := MkWorld (<[t := p']> (procs w)) (<[tid_node p := n']> (nodes w)) (next_tid w) (log w ++ l) in
  inv w -> procs w !! t = Some p -> t <> 1 -> nodes w !! tid_node p = Some n -> n_tid n' = n_tid n ->
  tid_node p' = tid_node p -> tid_node_exists p' = tid_node_exists p -> child_nodes p' = child_nodes p ->
  phase (at_ p) <> Done -> (forall a, at_ p <> WaitRead a) -> creating p' = None ->
  (forall c, 2 <= c -> waits c l = [] /\ execs c l = [] /\ (c <> t -> exits c l = [])) ->
  at_ok w' p' -> (childless (at_ p') = true -> child_nodes p = []) ->
  stage (phase (at_ p')) w' (tid_node p) n' -> inv w'.
Proof.
  intros w' I Hp H1 En Hn Htn Hex Hk Hnd Hr Hcr Hl Ha Hlv Hst.
  assert (Ht : n_tid n = t).
  { destruct (i_proc w I t p Hp) as (_ & _ & _ & Hx). destruct (Hx H1 Hnd) as (m & Em & Et). congruence. }
  apply (inv_update w t p); try done; try (intros c Hc; destruct (Hl c Hc) as (? & ? & ?); congruence).
  - congruence.
  - intros a. destruct (decide (a = tid_node p)) as [->|]; [by rewrite lookup_insert_eq, En; cbn; rewrite Hn|by rewrite lookup_insert_ne by done].
  - intros c Hc Hx. destruct (Hl c Hc) as (_ & _ & Hx'). destruct (decide (c = t)); [done|]. by destruct Hx; auto.
  - intros a m [(<- & <-)|(Hne & Em)]%lookup_insert_Some.
    + rewrite (stage_of_put w t p) by done. by rewrite Hn, Ht, Z.eqb_refl.
    + destruct (i_node w I a m Em) as (_ & Hc & _ & Hs). assert (n_tid m <> t).
      { intros E. apply Hne. by apply (i_inj w I _ _ n m); [..|congruence]. }
      rewrite (stage_of_put w t p) by done. rewrite (proj2 (Z.eqb_neq _ _)) by done.
      eapply stage_frame; [..|exact Hs]; try done.
      * cbn. rewrite exits_app. destruct (Hl (n_tid m)) as (_ & _ & Hx); [lia|]. rewrite Hx by done. apply app_nil_r.
      * intros s q Hq Hat. exists s, q. cbn. rewrite lookup_insert_ne; [done|]. intros <-. simplify_eq. by eapply Hr.
  - apply (tidy_same_kids w _ t p); try done.
    + intros a m Em. cbn. destruct (decide (a = tid_node p)) as [->|]; [|exists m; by rewrite lookup_insert_ne by done].
      exists n'. rewrite lookup_insert_eq. by simplify_eq.
    + intros c Hc. cbn. rewrite execs_app. destruct (Hl c Hc) as (_ & -> & _). apply app_nil_r.
Qed.

(** A node changes that no process reads the change of. *)
Lemma inv_node w a n n' :
  inv w -> nodes w !! a = Some n -> n_tid n' = n_tid n -> exit_status n' = exit_status n -> n_sema n' = n_sema n ->
  inv (put_node w a n').
Proof.
  intros I En H1 H2 H3.
  assert (Hback : forall b m, nodes (put_node w a n') !! b = Some m ->
    exists m0, nodes w !! b = Some m0 /\ n_tid m = n_tid m0 /\ exit_status m = exit_status m0 /\ n_sema m = n_sema m0).
  { cbn. intros b m [(<- & <-)|(? & Em)]%lookup_insert_Some; eauto 6. }
  assert (Hforth : forall b m, nodes w !! b = Some m -> exists m', nodes (put_node w a n') !! b = Some m' /\ n_tid m' = n_tid m).
  { intros b m Em. cbn. destruct (decide (a = b)) as [->|]; [exists n'; rewrite lookup_insert_eq; by simplify_eq|].
    exists m. by rewrite lookup_insert_ne. }
  destruct I as [J1 J2 J3 J4 J5 J6 J7 J8 J9 J10]. constructor; try done.
  - intros b m Em. destruct (Hback b m Em) as (m0 & Em0 & E1 & E2 & E3). rewrite E1. destruct (J1 b m0 Em0) as (? & ? & ? & Hs).
    split; [done|]. split; [done|]. split; [done|]. eapply stage_frame; [..|exact Hs]; try done. eauto.
  - intros b c m1 m2 Hb Hc. destruct (Hback _ _ Hb) as (? & ? & -> & _). destruct (Hback _ _ Hc) as (? & ? & -> & _). by apply J2.
  - intros b m q Hb. destruct (Hback _ _ Hb) as (? & ? & -> & _). by apply J3.
  - intros s q Hq. destruct (J4 s q Hq) as (? & ? & ? & Hx). split; [done|]. split; [done|]. split; [done|].
    intros Ha Hb. destruct (Hx Ha Hb) as (m & Em & Et). destruct (Hforth _ _ Em) as (m' & ? & ?). exists m'. by split; [|congruence].
  - intros s q Hq. eapply tidy_mono; [..|exact (J5 s q Hq)]; eauto.
  - intros c Hc. destruct (J8 c Hc) as [(b & m & Em & <-)|]; [left|by right]. destruct (Hforth _ _ Em) as (m' & ? & ?). eauto.
Qed.

(** ** Threads and nodes come and go *)

Lemma inv_create w t p addr :
  inv w -> procs w !! t = Some p -> at_ p = User -> addr <> 0 -> nodes w !! addr = None ->
  inv (put_proc (thread_create w addr) t (set_pc p (ExecFind (next_tid w)))).
Proof.
  intros I Hp Hat Ha0 Ha. set (w' := put_proc _ _ _). pose proof (i_next w I) as Hnx.
  destruct (i_proc w I t p Hp) as (Ht & Hpt).
  destruct (i_fresh w I (next_tid w)) as (F1 & F2 & F3); [lia..|].
  assert (Hold : forall c, c <> next_tid w -> stage_of w' c = stage_of w c).
  { intros c Hc. unfold stage_of, w'. cbn. destruct (decide (c = t)) as [->|]; [rewrite lookup_insert_eq, Hp; cbn; by rewrite Hat|by rewrite !lookup_insert_ne by done]. }
  assert (Hnew : stage_of w' (next_tid w) = Early) by (unfold stage_of, w'; cbn; rewrite lookup_insert_ne, lookup_insert_eq by lia; done).
  assert (Hps : forall s q, procs w' !! s = Some q ->
     s = t /\ q = set_pc p (ExecFind (next_tid w)) \/ s = next_tid w /\ q = MkProc addr true [] 0 Start \/ s <> t /\ procs w !! s = Some q).
  { cbn. intros s q [(<- & <-)|(? & [(<- & <-)|(? & ?)]%lookup_insert_Some)]%lookup_insert_Some; auto. }
  assert (Hns : forall b m, nodes w' !! b = Some m -> b = addr /\ m = MkNode (next_tid w) true (-2) false false 0 \/ b <> addr /\ nodes w !! b = Some m).
  { cbn. intros b m [(<- & <-)|(? & ?)]%lookup_insert_Some; auto. }
  assert (Hkeep : forall b m, nodes w !! b = Some m -> nodes w' !! b = Some m).
  { cbn. intros b m E. rewrite lookup_insert_ne; [done|]. intros ->. congruence. }
  constructor.
  - intros b m [(-> & ->)|(? & Em)]%Hns; cbn.
    + split; [done|]. split; [lia|]. split; [done|]. by rewrite Hnew.
    + destruct (i_node w I b m Em) as (? & ? & ? & Hs). split; [done|]. split; [lia|]. split; [done|]. rewrite Hold by lia.
      eapply stage_frame; [..|exact Hs]; try done. intros s q Hq Hr. exists s, q. split; [|done]. cbn.
      apply (i_proc w I) in Hq as Hlt. rewrite !lookup_insert_ne; [done|lia|]. intros ->. congruence.
  - intros b c m1 m2 [(-> & ->)|(? & E1)]%Hns [(-> & ->)|(? & E2)]%Hns; cbn; auto.
    + apply (i_node w I) in E2. lia.
    + apply (i_node w I) in E1. lia.
    + by apply (i_inj w I).
  - intros b m q [(-> & ->)|(? & Em)]%Hns [(Es & ->)|[(Es & ->)|(? & Hq)]]%Hps; cbn in *; try done; try lia.
    + apply (i_proc w I) in Hq. lia.
    + apply (i_link w I b m p); [done|]. by rewrite Es.
    + apply (i_node w I) in Em. lia.
    + by apply (i_link w I b m q).
  - intros s q [(-> & ->)|[(-> & ->)|(? & Hq)]]%Hps; cbn.
    + destruct Hpt as (? & ? & Hx). split; [lia|]. split; [done|]. split; [done|]. intros H1 _. destruct (Hx H1) as (m & Em & Et); [by rewrite Hat|]. eauto.
    + split; [lia|]. split; [by rewrite (proj2 (Z.eqb_neq _ _)) by lia|]. split; [lia|]. intros _ _.
      eexists. by rewrite lookup_insert_eq.
    + destruct (i_proc w I s q Hq) as (? & ? & ? & Hx). split; [lia|]. split; [done|]. split; [done|].
      intros Ne Nd. destruct (Hx Ne Nd) as (m & Em & Et). eauto.
  - intros s q [(-> & ->)|[(-> & ->)|(? & Hq)]]%Hps.
    + apply (tidy_same_kids w _ t p); try done; [eauto|].
      split; [done|]. exists addr, (MkNode (next_tid w) true (-2) false false 0). cbn. by rewrite lookup_insert_eq.
    + constructor; cbn; [constructor|by intros ? ?%elem_of_nil|done|done].
    + eapply tidy_mono; [..|exact (i_tidy w I s q Hq)]; [eauto|done|]. intros c C Hd.
      destruct (decide (c = next_tid w)) as [->|]; [|by rewrite Hold].
      destruct C as [C|(b & m & _ & Em & Et)]; [apply (creating_facts w s q) in C; auto; lia|apply (i_node w I) in Em; lia].
  - intros s q s' q' c [(-> & ->)|[(-> & ->)|(? & Hq)]]%Hps [(-> & ->)|[(-> & ->)|(? & Hq')]]%Hps C C'; try done.
    + apply (creating_facts w s' q') in C'; auto. injection C as <-. lia.
    + apply (creating_facts w s q) in C; auto. injection C' as <-. lia.
    + by apply (i_uniq w I s q s' q' c).
  - cbn. intros c Hc. destruct (i_wait w I c Hc) as [?|(s & r & ? & ? & ? & Hd)]; [by left|right]. exists s, r. split_and!; try done.
    destruct (decide (c = next_tid w)) as [->|]; [congruence|by rewrite Hold].
  - cbn. intros c Hc. destruct (decide (c = next_tid w)) as [->|].
    + left. exists addr. eexists. by rewrite lookup_insert_eq.
    + destruct (i_all w I c) as [(b & m & Em & <-)|]; [lia| |by right]. left. eauto.
  - cbn. intros c Hc Hn. apply (i_fresh w I); lia.
  - cbn. lia.
Qed.

Lemma inv_gone w t p :
  inv w -> procs w !! t = Some p -> at_ p = ExitDone -> inv (MkWorld (delete t (procs w)) (nodes w) (next_tid w) (log w)).
Proof.
  intros I Hp Hat. set (w' := MkWorld _ _ _ _).
  assert (Hso : forall c, stage_of w' c = stage_of w c).
  { intros c. unfold stage_of, w'. cbn. destruct (decide (c = t)) as [->|]; [by rewrite lookup_delete_eq, Hp; cbn; rewrite Hat|by rewrite lookup_delete_ne by done]. }
  assert (Hps : forall s q, procs w' !! s = Some q -> procs w !! s = Some q) by (cbn; intros s q [? ?]%lookup_delete_Some; done).
  constructor; try apply I.
  - intros a n En. destruct (i_node w I a n En) as (? & ? & ? & Hs). rewrite Hso. split; [done|]. split; [done|]. split; [done|].
    eapply stage_frame; [..|exact Hs]; try done. intros s q Hq Hr. exists s, q. split; [|done]. cbn. rewrite lookup_delete_ne; [done|]. intros ->. congruence.
  - intros a n q En Hq%Hps. by eapply i_link.
  - intros s q Hq%Hps. by apply (i_proc w I).
  - intros s q Hq%Hps. eapply tidy_mono; [..|exact (i_tidy w I s q Hq)]; [eauto|done|]. intros c _. by rewrite Hso.
  - intros s q s' q' c Hq%Hps Hq'%Hps. by apply (i_uniq w I).
  - intros c Hc. rewrite Hso. by apply (i_wait w I).
Qed.

Lemma inv_reap w t p a n :
  let p' := set_pc (with_children p (filter (fun b => b <> a) (child_nodes p))) (WaitMark a (exit_status n)) in
  inv w -> procs w !! t = Some p -> at_ p = WaitRead a -> nodes w !! a = Some n ->
  inv (MkWorld (<[t := p']> (procs w)) (delete a (nodes w)) (next_tid w) (log w ++ [EvWait t (n_tid n) (exit_status n)])).
Proof.
  intros p' I Hp Hat En. set (w' := MkWorld _ _ _ _).
  pose proof (i_tidy w I t p Hp) as Ty. pose proof (tidy_at _ _ _ Ty) as Ha. unfold at_ok in Ha. rewrite Hat in Ha.
  destruct Ha as (Hin & ? & ? & Hd). simplify_eq.
  destruct (i_node w I a n En) as (_ & Hn2 & Hw0 & Hs). rewrite Hd in Hs. destruct Hs as (Hx & _).
  destruct (tidy_kids _ _ _ Ty a Hin) as (? & ? & Hk). simplify_eq.
  assert (Hso : forall c, stage_of w' c = stage_of w c).
  { intros c. unfold w'. rewrite (stage_of_put w t p) by done. destruct (Z.eqb_spec c t) as [->|]; [|done]. unfold stage_of. by rewrite Hp; cbn; rewrite Hat. }
  assert (Hns : forall b m, nodes w' !! b = Some m <-> b <> a /\ nodes w !! b = Some m).
  { cbn. intros b m. rewrite lookup_delete_Some. naive_solver. }
  assert (Hps : forall s q, procs w' !! s = Some q -> s = t /\ q = p' \/ s <> t /\ procs w !! s = Some q).
  { cbn. intros s q [(<- & <-)|(? & ?)]%lookup_insert_Some; auto. }
  assert (Hlog : forall c, exits c (log w') = exits c (log w) /\ execs c (log w') = execs c (log w)).
  { intros c. cbn. by rewrite exits_app, execs_app, !app_nil_r. }
  assert (Hwt : forall c, c <> n_tid n -> waits c (log w') = waits c (log w)).
  { intros c Hc. cbn. rewrite waits_app. unfold waits at 2. cbn -[Z.eqb]. rewrite (proj2 (Z.eqb_neq _ _)) by done. apply app_nil_r. }
  assert (Hwn : waits (n_tid n) (log w') = [(t, exit_status n)]).
  { cbn. rewrite waits_app, Hw0. unfold waits. cbn -[Z.eqb]. by rewrite Z.eqb_refl. }
  assert (Hne : forall b m, b <> a -> nodes w !! b = Some m -> n_tid m <> n_tid n) by (intros b m Hb Em E; apply Hb; by apply (i_inj w I b a m n)).
  constructor.
  - intros b m (Hb & Em)%Hns. destruct (i_node w I b m Em) as (? & ? & ? & Hs). split; [done|]. split; [done|]. split; [by rewrite Hwt by eauto|].
    rewrite Hso. eapply stage_frame; [..|exact Hs]; try done; [apply Hlog|]. intros s q Hq Hr. exists s, q. split; [|done]. cbn.
    rewrite lookup_insert_ne; [done|]. intros <-. simplify_eq. congruence.
  - intros b c m1 m2 (? & E1)%Hns (? & E2)%Hns. by apply (i_inj w I).
  - intros b m q (? & Em)%Hns [(Es & ->)|(? & Hq)]%Hps; [|by apply (i_link w I b m q)]. apply (i_link w I b m p); [done|by rewrite Es].
  - intros s q [(-> & ->)|(Hst & Hq)]%Hps.
    + destruct (i_proc w I t p Hp) as (? & ? & ? & Hm). split; [done|]. split; [done|]. split; [done|]. intros Ne _. cbn.
      destruct (Hm Ne) as (m & Em & Et); [by rewrite Hat|]. exists m. rewrite lookup_delete_ne; [done|]. intros E. rewrite <- E in Em. simplify_eq.
      unfold stage_of in Hd. rewrite Hp in Hd. cbn in Hd. by rewrite Hat in Hd.
    + destruct (i_proc w I s q Hq) as (? & ? & ? & Hm). split; [done|]. split; [done|]. split; [done|]. intros Ne Nd.
      destruct (Hm Ne Nd) as (m & Em & Et). exists m. split; [|done]. apply Hns. split; [|done]. intros E. rewrite E in Em. simplify_eq.
      unfold stage_of in Hd. rewrite Hq in Hd. done.
  - intros s q [(-> & ->)|(Hst & Hq)]%Hps.
    + constructor; cbn; [apply NoDup_filter, Ty| |done|done]. intros b (Hb & Hin')%list_elem_of_filter.
      destruct (tidy_kids _ _ _ Ty b Hin') as (m & Em & Ek). exists m. rewrite lookup_delete_ne by done. split; [done|].
      destruct (Hlog (n_tid m)) as (_ & E). cbn in E. by rewrite E.
    + eapply tidy_mono; [..|exact (i_tidy w I s q Hq)]; [|intros c _; apply Hlog|by intros c _; rewrite Hso].
      intros b m Em C. exists m. split; [|done]. apply Hns. split; [|done]. intros ->. simplify_eq. apply Hst. by eapply (kid_alone w t p s q).
  - intros s q s' q' c [(-> & ->)|(? & Hq)]%Hps [(-> & ->)|(? & Hq')]%Hps C C'; try done. by apply (i_uniq w I s q s' q' c).
  - intros c Hc. rewrite Hso. destruct (Hlog c) as (-> & ->). destruct (decide (c = n_tid n)) as [->|Hcn].
    + right. exists t, (exit_status n). by rewrite Hwn.
    + rewrite Hwt by done. by apply (i_wait w I).
  - intros c Hc. destruct (decide (c = n_tid n)) as [->|]; [right; by rewrite Hwn|]. rewrite Hwt by done.
    destruct (i_all w I c Hc) as [(b & m & Em & <-)|]; [|by right]. left. exists b, m. split; [|done]. apply Hns. split; [|done]. intros ->. by simplify_eq.
  - intros c Hc Hn. destruct (Hlog c) as (-> & ->). rewrite Hwt; [by apply (i_fresh w I)|]. cbn in Hn. lia.
  - apply (i_next w I).
Qed.

(** ** Every step *)

Lemma inv_move_quiet w t p p' :
  inv w -> procs w !! t = Some p ->
  tid_node p' = tid_node p -> tid_node_exists p' = tid_node_exists p -> child_nodes p' = child_nodes p ->
  phase (at_ p') = phase (at_ p) -> (forall a, at_ p = WaitRead a -> at_ p' = WaitRead a) ->
  (forall c, creating p' = Some c -> creating p = Some c) -> (childless (at_ p') = true -> childless (at_ p) = true) ->
  at_ok (put_proc w t p') p' -> inv (put_proc w t p').
Proof.
  intros I Hp. pose proof (inv_move w t p p' [] I Hp) as H. cbn zeta in H. rewrite app_nil_r in H. eauto.
Qed.

(** What a process has while it is not done. *)
Lemma own_node w t p :
  inv w -> procs w !! t = Some p -> t <> 1 -> phase (at_ p) <> Done ->
  exists n, nodes w !! tid_node p = Some n /\ n_tid n = t /\ stage (phase (at_ p)) w (tid_node p) n.
Proof.
  intros I Hp Ht Hd. destruct (i_proc w I t p Hp) as (_ & _ & _ & Hx). destruct (Hx Ht Hd) as (n & En & Et).
  exists n. split; [done|]. split; [done|]. destruct (i_node w I _ _ En) as (_ & _ & _ & Hs). unfold stage_of in Hs. by rewrite Et, Hp in Hs.
Qed.

(** The first thread has no node to find. *)
Lemma node_found w t p n :
  inv w -> procs w !! t = Some p -> phase (at_ p) <> Done -> node w (tid_node p) = Ok n ->
  t <> 1 /\ nodes w !! tid_node p = Some n /\ n_tid n = t /\ stage (phase (at_ p)) w (tid_node p) n.
Proof.
  intros I Hp Hd En. unfold node in En. destruct (nodes w !! tid_node p) as [m|] eqn:Em; [|done]. injection En as ->.
  assert (Ht : t <> 1).
  { intros ->. destruct (i_proc w I 1 p Hp) as (_ & _ & H0 & _). rewrite H0 in Em by done. apply (i_node w I) in Em. by destruct Em. }
  split; [done|]. destruct (own_node w t p I Hp Ht Hd) as (? & E & ? & ?). by simplify_eq.
Qed.

(** A step that updates the process's own node, at the end of its life. *)
Lemma inv_leave w t p n x n' l :
  inv w -> procs w !! t = Some p -> phase (at_ p) <> Done -> (forall a, at_ p <> WaitRead a) -> child_nodes p = [] ->
  node w (tid_node p) = Ok n -> n_tid n' = n_tid n ->
  (x = ExitStatus \/ x = ExitNodes \/ x = ExitUp \/ x = ExitDone) ->
  (l = [] \/ exists s, l = [EvExit t s]) ->
  (exits t (log w ++ l) = match phase x with Leaving => if 0 <=? exit_status n' then [exit_status n'] else [] | _ => [exit_status n'] end) ->
  n_sema n' = (match x with ExitDone => 1 | _ => 0 end) ->
  inv (MkWorld (<[t := set_pc p x]> (procs w)) (<[tid_node p := n']> (nodes w)) (next_tid w) (log w ++ l)).
Proof.
  intros I Hp Hd Hr Hk En Ht Hx Hl Hex Hs. destruct (node_found w t p n I Hp Hd En) as (Ht1 & En' & Et & _).
  apply (inv_own w t p n); try done.
  - destruct Hx as [-> |[-> |[-> | ->]]]; done.
  - intros c _. destruct Hl as [-> |(s & ->)]; [done|]. split_and!; [done..|]. intros Hc. unfold exits. cbn -[Z.eqb].
    by rewrite (proj2 (Z.eqb_neq _ _)) by congruence.
  - destruct Hx as [-> |[-> |[-> | ->]]]; done.
  - cbn. rewrite <- Et, <- Ht in Hex. destruct Hx as [-> |[-> |[-> | ->]]]; cbn in *; auto.
Qed.

Lemma find_child_in w c l a : find_child w c l = Ok (Some a) -> a ∈ l.
Proof.
  induction l as [|b l IH]; cbn; [done|]. destruct (node w b) as [n|] eqn:En; cbn; [|done].
  case_match; [intros [= <-]; by left|intros; right; auto].
Qed.

(** The first thread ends: it has no node, so nothing says how far it is. *)
Lemma inv_first w p l :
  inv w -> procs w !! 1 = Some p -> phase (at_ p) = Early -> (forall a, at_ p <> WaitRead a) -> child_nodes p = [] -> mute l ->
  inv (MkWorld (<[1 := set_pc p ExitStatus]> (procs w)) (nodes w) (next_tid w) (log w ++ l)).
Proof.
  intros I Hp Hat Hwr Hk Hl. apply (inv_update w 1 p); try done; try (intros c Hc; destruct (Hl c Hc) as (? & ? & ?); congruence).
  - by rewrite Hat.
  - intros a n En. destruct (i_node w I a n En) as (_ & Hc & _ & Hs).
    rewrite (stage_of_put w 1 p) by done. rewrite (proj2 (Z.eqb_neq _ _)) by lia. eapply stage_frame; [..|exact Hs]; try done.
    + cbn. rewrite exits_app. destruct (Hl (n_tid n)) as (-> & _); [lia|]. apply app_nil_r.
    + intros s q Hq Hr. exists s, q. cbn. rewrite lookup_insert_ne; [done|]. intros <-. simplify_eq. by eapply Hwr.
  - constructor; cbn; rewrite ?Hk; [constructor|by intros ? ?%elem_of_nil|done|done].
Qed.

Lemma inv_exit_w w t p s w' :
  inv w -> procs w !! t = Some p -> at_ p = User -> child_nodes p = [] -> exit_w w t p s = Ok w' -> inv w'.
Proof.
  intros I Hp Hat Hk. unfold exit_w. destruct (i_proc w I t p Hp) as (_ & Hex & _). rewrite Hex.
  set (l := if 0 <=? s then [EvExit t s] else []).
  destruct (Z.eqb_spec t 1) as [->|Ht]; cbn [negb].
  - intros [= <-]. pose proof (inv_first w p l I Hp) as L. unfold l in L. clear l. rewrite Hat in L.
    destruct (0 <=? s); [apply L|rewrite app_nil_r in L; apply L]; try done.
    intros c Hc. unfold exits. cbn -[Z.eqb]. by rewrite (proj2 (Z.eqb_neq 1 c)) by lia.
  - destruct (node w (tid_node p)) as [n|] eqn:En; [|done]. cbn -[Z.leb]. intros [= <-].
    assert (Hd : phase (at_ p) <> Done) by (by rewrite Hat).
    destruct (node_found w t p n I Hp Hd En) as (_ & _ & Et & Hs). rewrite Hat in Hs. destruct Hs as (_ & Hx & Hsm). rewrite Et in Hx.
    pose proof (inv_leave w t p n ExitStatus (with_exit n s) l I Hp Hd) as L. unfold l in L. clear l. rewrite exits_app, Hx in L. cbn in L.
    destruct (0 <=? s); [|rewrite app_nil_r in L]; apply L; try done; eauto; try (intros a; congruence).
    unfold exits. cbn -[Z.eqb]. by rewrite Z.eqb_refl.
Qed.

Lemma inv_killed w t p :
  inv w -> procs w !! t = Some p -> phase (at_ p) = Early -> (forall a, at_ p <> WaitRead a) -> child_nodes p = [] ->
  inv (put_proc w t (set_pc p ExitStatus)).
Proof.
  intros I Hp Hat Hwr Hk. destruct (decide (t = 1)) as [->|Ht].
  - pose proof (inv_first w p [] I Hp Hat Hwr Hk mute_nil) as L. by rewrite app_nil_r in L.
  - assert (Hd : phase (at_ p) <> Done) by (by rewrite Hat). destruct (own_node w t p I Hp Ht Hd) as (n & En & Et & Hs).
    rewrite Hat in Hs. destruct Hs as (H0 & Hx & Hsm). rewrite Et in Hx.
    pose proof (inv_leave w t p n ExitStatus n [] I Hp Hd) as L. rewrite app_nil_r, (insert_id (nodes w)) in L by done.
    apply L; try done; eauto; try (intros a; congruence); [unfold node; by rewrite En|].
    cbn -[Z.leb]. by rewrite (proj2 (Z.leb_gt _ _)) by lia.
Qed.

Lemma inv_wait_begin w t p c w' :
  inv w -> procs w !! t = Some p -> at_ p = User -> wait_begin w t p c = Ok w' -> inv w'.
Proof.
  intros I Hp Hat. unfold wait_begin. pose proof (inv_move w t p p [EvWaitNone t c] I Hp) as L.
  rewrite (insert_id (procs w)) in L by done.
  assert (Hnone : inv (emit w (EvWaitNone t c))) by (apply L; try done; unfold at_ok; by rewrite Hat). clear L.
  destruct (find_child w c (child_nodes p)) as [[a|]|] eqn:Ef; cbn; [|by intros [= <-]|done].
  destruct (node w a) as [n|]; [|done]. cbn. destruct (waiting n); intros [= <-]; [done|].
  apply (inv_move_quiet w t p); try done; [by rewrite Hat|by rewrite Hat|]. by apply find_child_in in Ef.
Qed.

Lemma inv_exit_node w t p w' :
  inv w -> procs w !! t = Some p -> at_ p = ExitNodes -> exit_node w t p = Ok w' -> inv w'.
Proof.
  intros I Hp Hat. unfold exit_node. rewrite (tidy_childless _ _ _ (i_tidy w I t p Hp)) by (by rewrite Hat). intros [= <-].
  apply (inv_move_quiet w t p); try done; by rewrite Hat.
Qed.

Lemma put_proc_twice w t p q : put_proc (put_proc w t p) t q = put_proc w t q.
Proof. unfold put_proc. cbn. by rewrite insert_insert_eq. Qed.

(** load_sema matters to nobody else. *)
Lemma inv_load_sema w t p v : inv w -> procs w !! t = Some p -> inv (put_proc w t (with_load p v)).
Proof.
  intros I Hp. pose proof (tidy_at _ _ _ (i_tidy w I t p Hp)) as Ha. apply (inv_move_quiet w t p); try done.
  unfold at_ok in *. cbn. destruct (at_ p); try done. destruct Ha as (? & n & En & Hd). split; [done|]. exists n. split; [done|].
  unfold put_proc. rewrite (stage_of_put w t p) by done. destruct (Z.eqb_spec (n_tid n) t) as [E|]; [|done].
  unfold stage_of in Hd. rewrite E, Hp in Hd. done.
Qed.

Lemma inv_load w t p success w' :
  inv w -> procs w !! t = Some p -> at_ p = Start -> step t (Load success) w = Ok (Some w') -> inv w'.
Proof.
  intros I Hp Hat. unfold_step. rewrite Hp, Hat. destruct success; cbn.
  - unfold node. destruct (nodes w !! tid_node p) as [n|] eqn:En; cbn; [|done]. intros [= <-].
    apply (inv_move_quiet (put_node w (tid_node p) (with_loaded n true)) t p); try done; [by apply (inv_node w _ n)|by rewrite Hat..].
  - intros [= <-]. apply (inv_move_quiet w t p); try done; by rewrite Hat.
Qed.

Lemma inv_load_done w t p success w' :
  inv w -> procs w !! t = Some p -> at_ p = LoadDone success -> step t Continue w = Ok (Some w') -> inv w'.
Proof.
  intros I Hp Hat. unfold_step. rewrite Hp, Hat. cbn. intros [= <-].
  pose proof (inv_load_sema w t p (load_sema p + 1) I Hp) as I'. rewrite <- (put_proc_twice w t (with_load p (load_sema p + 1))).
  set (w1 := put_proc _ _ _) in *. assert (Hp1 : procs w1 !! t = Some (with_load p (load_sema p + 1))) by (unfold w1; cbn; by rewrite lookup_insert_eq).
  assert (Hk : child_nodes p = []) by (apply (tidy_childless _ _ _ (i_tidy w I t p Hp)); by rewrite Hat).
  destruct success.
  - apply (inv_move_quiet w1 t (with_load p (load_sema p + 1))); try done; cbn; by rewrite Hat.
  - apply (inv_killed w1 t (with_load p (load_sema p + 1))); try done; cbn; [by rewrite Hat|intros a; by rewrite Hat].
Qed.

(** process_execute. *)
Lemma inv_exec_find w t p c w' :
  inv w -> procs w !! t = Some p -> at_ p = ExecFind c -> step t Continue w = Ok (Some w') -> inv w'.
Proof.
  intros I Hp Hat. unfold_step. rewrite Hp, Hat. pose proof (tidy_at _ _ _ (i_tidy w I t p Hp)) as Ha. unfold at_ok in Ha. rewrite Hat in Ha.
  destruct Ha as (He & a & n & En & Et). destruct (procs w !! c) as [q|] eqn:Hq; intros [= <-].
  - apply (inv_move_quiet w t p); try done; [by rewrite Hat..| |].
    + unfold creating. by rewrite Hat.
    + split; [done|]. exists n. rewrite <- (i_link w I a n q) in En; [done|done|by rewrite Et].
  - apply (inv_move w t p _ [EvExec t TID_ERROR]); try done; by rewrite Hat.
Qed.

Lemma inv_exec_down w t p c a w' :
  inv w -> procs w !! t = Some p -> at_ p = ExecDown c a -> step t Continue w = Ok (Some w') -> inv w'.
Proof.
  intros I Hp Hat. unfold_step. rewrite Hp, Hat. destruct (procs w !! c) as [q|] eqn:Hq; cbn; [|done].
  case_match; [done|]. intros [= <-]. pose proof (inv_load_sema w c q (load_sema q - 1) I Hq) as I'.
  set (w1 := put_proc w c _) in *.
  assert (exists p1, procs w1 !! t = Some p1 /\ at_ p1 = at_ p /\
    child_nodes p1 = child_nodes p /\ tid_node p1 = tid_node p /\ tid_node_exists p1 = tid_node_exists p) as (p1 & Hp1 & E1 & E2 & E3 & E4).
  { unfold w1. cbn. destruct (decide (c = t)) as [->|]; [rewrite lookup_insert_eq; simplify_eq; by eexists|rewrite lookup_insert_ne by done; eauto 10]. }
  pose proof (tidy_at _ _ _ (i_tidy w1 I' t p1 Hp1)) as Ha. unfold at_ok in Ha. rewrite E1, Hat in Ha.
  apply (inv_move_quiet w1 t p1); try done; cbn; rewrite ?E1, ?Hat; try done. unfold creating. by rewrite E1, Hat.
Qed.

Lemma inv_exec_test w t p c a w' :
  inv w -> procs w !! t = Some p -> at_ p = ExecTest c a -> step t Continue w = Ok (Some w') -> inv w'.
Proof.
  intros I Hp Hat. unfold_step; unfold Wait.node. rewrite Hp, Hat. pose proof (i_tidy w I t p Hp) as Ty. pose proof (tidy_at _ _ _ Ty) as Ha.
  unfold at_ok in Ha. rewrite Hat in Ha. destruct Ha as (He & n & En & Et). rewrite En. cbn -[Z.eqb].
  destruct (loaded n); intros [= <-]; [|apply (inv_move w t p _ [EvExec t TID_ERROR]); try done; by rewrite Hat].
  assert (Hexec : forall d, execs d [EvExec t c] = if c =? d then [t] else []) by (intros d; unfold execs; cbn -[Z.eqb]; by destruct (c =? d)).
  assert (Hnew : forall b m, b ∈ child_nodes p -> nodes w !! b = Some m -> n_tid m <> c).
  { intros b m Hb Em E. destruct (tidy_kids _ _ _ Ty b Hb) as (? & ? & ?). simplify_eq. congruence. }
  apply (inv_update w t p); try done.
  - by rewrite Hat.
  - cbn -[Z.eqb]. intros d Hd2 Hd. rewrite Hexec in Hd. destruct (Z.eqb_spec c d) as [<-|]; [|done]. unfold creating. by rewrite Hat.
  - intros b m Em. destruct (i_node w I b m Em) as (_ & Hc & _ & Hs). rewrite (stage_of_put w t p) by done.
    replace (if n_tid m =? t then _ else _) with (stage_of w (n_tid m))
      by (destruct (Z.eqb_spec (n_tid m) t) as [->|]; [unfold stage_of; by rewrite Hp; cbn; rewrite Hat|done]).
    eapply stage_frame; [..|exact Hs]; try done; [cbn; rewrite exits_app; apply app_nil_r|].
    intros s q Hq Hr. exists s, q. cbn. rewrite lookup_insert_ne; [done|]. intros <-. simplify_eq. congruence.
  - constructor; cbn; [|intros b [Hb|Hb%list_elem_of_singleton]%elem_of_app|done|done].
    + apply NoDup_app. split; [apply Ty|]. split; [|apply NoDup_singleton]. intros b Hb ->%list_elem_of_singleton. by eapply Hnew.
    + destruct (tidy_kids _ _ _ Ty b Hb) as (m & Em & Ek). exists m. split; [done|].
      rewrite execs_app, Hexec, Ek, (proj2 (Z.eqb_neq _ _)); [done|]. intros ->. by eapply Hnew.
    + subst b. exists n. split; [done|]. by rewrite Et, execs_app, Hexec, He, Z.eqb_refl.
Qed.

(** process_wait. *)
Lemma inv_wait_down w t p a w' :
  inv w -> procs w !! t = Some p -> at_ p = WaitDown a -> step t Continue w = Ok (Some w') -> inv w'.
Proof.
  intros I Hp Hat. unfold_step; unfold Wait.node. rewrite Hp, Hat. pose proof (i_tidy w I t p Hp) as Ty. pose proof (tidy_at _ _ _ Ty) as Ha.
  unfold at_ok in Ha. rewrite Hat in Ha. destruct (nodes w !! a) as [n|] eqn:En; cbn -[Z.eqb]; [|done].
  destruct (Z.eqb_spec (n_sema n) 0) as [|Hs0]; [done|]. intros [= <-].
  destruct (i_node w I a n En) as (_ & _ & _ & Hs). destruct (stage_sema _ _ _ _ Hs Hs0) as (Hd & H1). rewrite Hd in Hs. destruct Hs as (Hx & _).
  pose proof (inv_update w t p (set_pc p (WaitRead a)) (<[a := with_sema n (n_sema n - 1)]> (nodes w)) []) as L.
  cbn zeta in L. rewrite app_nil_r in L. set (w' := put_proc _ _ _). fold w' in L.
  assert (Hso : forall c, stage_of w' c = stage_of w c).
  { intros c. unfold w', put_proc. cbn. rewrite (stage_of_put w t p) by done. destruct (Z.eqb_spec c t) as [->|]; [|done].
    unfold stage_of. by rewrite Hp; cbn; rewrite Hat. }
  apply L; try done.
  - by rewrite Hat.
  - intros b. destruct (decide (b = a)) as [->|]; [by rewrite lookup_insert_eq, En|by rewrite lookup_insert_ne by done].
  - intros b m [(<- & <-)|(Hne & Em)]%lookup_insert_Some.
    + cbn. rewrite Hso, Hd. split; [done|]. right. split; [cbn; lia|]. exists t, (set_pc p (WaitRead a)). cbn. by rewrite lookup_insert_eq.
    + destruct (i_node w I b m Em) as (_ & _ & _ & Hs). rewrite Hso. eapply stage_frame; [..|exact Hs]; try done.
      intros s q Hq Hr. exists s, q. cbn. rewrite lookup_insert_ne; [done|]. intros <-. simplify_eq. congruence.
  - apply (tidy_same_kids w _ t p); try done.
    + intros b m Em. cbn. destruct (decide (b = a)) as [->|]; [|exists m; by rewrite lookup_insert_ne by done].
      eexists. rewrite lookup_insert_eq. by simplify_eq.
    + split; [done|]. exists (with_sema n (n_sema n - 1)). cbn. rewrite lookup_insert_eq. by rewrite Hso.
Qed.

Lemma inv_wait_mark w t p a r w' :
  inv w -> procs w !! t = Some p -> at_ p = WaitMark a r -> step t Continue w = Ok (Some w') -> inv w'.
Proof.
  intros I Hp Hat. unfold_step. rewrite Hp, Hat. cbn. intros [= <-]. set (w1 := match nodes w !! a with Some _ => _ | None => _ end).
  assert (inv w1 /\ procs w1 = procs w) as (I1 & E1).
  { unfold w1. destruct (nodes w !! a) as [n|] eqn:En; [|done]. split; [by apply (inv_node w a n)|done]. }
  apply (inv_move_quiet w1 t p); try done; [by rewrite E1|by rewrite Hat..].
Qed.

(** process_exit. *)
Lemma inv_exit_status w t p w' :
  inv w -> procs w !! t = Some p -> at_ p = ExitStatus -> step t Continue w = Ok (Some w') -> inv w'.
Proof.
  intros I Hp Hat. unfold_step. rewrite Hp, Hat. destruct (node w (tid_node p)) as [n|] eqn:En; cbn -[Z.ltb]; [|done]. intros [= <-].
  assert (Hd : phase (at_ p) <> Done) by (by rewrite Hat). destruct (node_found w t p n I Hp Hd En) as (_ & En' & Et & Hs).
  rewrite Hat in Hs. destruct Hs as (Hx & Hsm). rewrite Et in Hx. assert (Hk : child_nodes p = []) by (apply (tidy_childless _ _ _ (i_tidy w I t p Hp)); by rewrite Hat).
  destruct (Z.ltb_spec (exit_status n) 0) as [Hneg|Hpos].
  - apply (inv_leave w t p n ExitNodes (with_exit n (-1)) [EvExit t (-1)]); try done; eauto; [intros a; congruence|].
    rewrite exits_app, Hx, (proj2 (Z.leb_gt _ _)) by lia. unfold exits. cbn -[Z.eqb]. by rewrite Z.eqb_refl.
  - pose proof (inv_leave w t p n ExitNodes n [] I Hp Hd) as L. rewrite app_nil_r, (insert_id (nodes w)) in L by done.
    apply L; try done; eauto; [intros a; congruence|]. by rewrite Hx, (proj2 (Z.leb_le _ _)) by lia.
Qed.

Lemma inv_exit_child w t p w' :
  inv w -> procs w !! t = Some p -> at_ p = ExitChild -> step t Continue w = Ok (Some w') -> inv w'.
Proof.
  intros I Hp Hat. unfold_step; unfold Wait.node. rewrite Hp, Hat. destruct (tid_node_exists p); cbn.
  - destruct (nodes w !! tid_node p) as [n|] eqn:En; cbn; [|done]. intros [= <-].
    apply (inv_move_quiet (put_node w (tid_node p) (with_child n false)) t p); try done; [by apply (inv_node w _ n)|by rewrite Hat..].
  - intros [= <-]. apply (inv_move_quiet w t p); try done; by rewrite Hat.
Qed.

Lemma inv_exit_up w t p w' :
  inv w -> procs w !! t = Some p -> at_ p = ExitUp -> step t Continue w = Ok (Some w') -> inv w'.
Proof.
  intros I Hp Hat. unfold_step. rewrite Hp, Hat. destruct (node w (tid_node p)) as [n|] eqn:En; cbn; [|done]. intros [= <-].
  assert (Hd : phase (at_ p) <> Done) by (by rewrite Hat). destruct (node_found w t p n I Hp Hd En) as (_ & En' & Et & Hs).
  rewrite Hat in Hs. destruct Hs as (Hx & Hsm). rewrite Et in Hx.
  pose proof (inv_leave w t p n ExitDone (with_sema n (n_sema n + 1)) [] I Hp Hd) as L. rewrite app_nil_r in L.
  apply L; try done; eauto; [intros a; congruence| |cbn; lia]. apply (tidy_childless _ _ _ (i_tidy w I t p Hp)); by rewrite Hat.
Qed.

(** ** Runs in which a process that ends has waited for its children *)

Definition orderly (w : world) (t : Z) (a : action) : bool :=
  match a with
  | CallExit _ | Killed => match procs w !! t with Some p => bool_decide (child_nodes p = []) | None => true end
  | _ => true
  end.

Inductive reach : world -> Prop :=
  | reach_boot : reach boot
  | reach_step w t a w' : reach w -> orderly w t a = true -> step t a w = Ok (Some w') -> reach w'.

Lemma inv_boot : inv boot.
Proof.
  assert (Hp : forall t p, procs boot !! t = Some p -> t = 1 /\ p = MkProc 0 false [] 0 User).
  { cbn. intros t p [<- <-]%lookup_singleton_Some. done. }
  constructor; cbn; try done; try (by intros ? ? ?%lookup_empty_Some); try (by intros ? ? ? ? ?%lookup_empty_Some); try (by intros ? ? ? ?%lookup_empty_Some).
  - intros t p (-> & ->)%Hp. cbn. split; [lia|]. done.
  - intros t p (-> & ->)%Hp. constructor; cbn; [constructor|by intros ? ?%elem_of_nil|done|done].
  - intros t p t' p' c (-> & ->)%Hp (-> & ->)%Hp. done.
  - intros c _. by left.
  - lia.
Qed.

Lemma some_Ok {A} (m : res A) (x : A) : Some <$> m = Ok (Some x) -> m = Ok x.
Proof. destruct m; [by intros [= ->]|done]. Qed.

Lemma inv_step w t a w' : inv w -> orderly w t a = true -> step t a w = Ok (Some w') -> inv w'.
Proof.
  intros I Ho Hs. pose proof Hs as Hs'. revert Hs; unfold_step; intros Hs. unfold orderly in Ho.
  destruct (procs w !! t) as [p|] eqn:Hp; [|done].
  destruct (at_ p) eqn:Hat; destruct a; try done.
  - by eapply inv_load.
  - by eapply inv_load_done.
  - case_match eqn:Hb; [done|]. injection Hs as <-. apply orb_false_iff in Hb as (Hb1 & Hb2).
    apply inv_create; try done; [by apply Z.eqb_neq in Hb1|]. apply bool_decide_eq_false in Hb2. by apply eq_None_not_Some.
  - injection Hs as <-. pose proof (inv_move w t p p [EvExec t TID_ERROR] I Hp) as L. rewrite (insert_id (procs w)) in L by done.
    apply L; try done. unfold at_ok. by rewrite Hat.
  - apply some_Ok in Hs. by eapply inv_wait_begin.
  - apply some_Ok in Hs. apply bool_decide_eq_true in Ho. by eapply inv_exit_w.
  - injection Hs as <-. apply bool_decide_eq_true in Ho. apply inv_killed; try done; [by rewrite Hat|intros ?; congruence].
  - by eapply inv_exec_find.
  - by eapply inv_exec_down.
  - by eapply inv_exec_test.
  - by eapply inv_wait_down.
  - unfold Wait.node in Hs. destruct (nodes w !! node) as [n|] eqn:En; [|done]. injection Hs as <-. exact (inv_reap w t p node n I Hp Hat En).
  - by eapply inv_wait_mark.
  - by eapply inv_exit_status.
  - apply some_Ok in Hs. by eapply inv_exit_node.
  - by eapply inv_exit_child.
  - by eapply inv_exit_up.
  - injection Hs as <-. by eapply inv_gone.
Qed.

Lemma reach_inv w : reach w -> inv w.
Proof. induction 1; [apply inv_boot|by eapply inv_step]. Qed.

(** ** Properties *)

(** C11. Processes created, ended and waited for in any interleaving, each ending after it has waited for its children: every
    process prints at most one exit status, and it is waited for successfully at most once, by the process that created it,
    with the status it printed. *)
Theorem wait_collects w c :
  reach w -> 2 <= c ->
  (length (exits c (log w)) <= 1)%nat /\
  (waits c (log w) = [] \/ exists t r, waits c (log w) = [(t, r)] /\ exits c (log w) = [r] /\ execs c (log w) = [t]).
Proof.
  intros I%reach_inv Hc. pose proof (i_wait w I c Hc) as Hw. split.
  - destruct (decide (next_tid w <= c)) as [Hn|Hn]; [destruct (i_fresh w I c Hc Hn) as (-> & _); cbn; lia|].
    destruct (i_all w I c) as [(a & n & En & <-)|Hne]; [lia| |destruct Hw as [?|(t & r & _ & -> & _)]; [done|done]].
    destruct (i_node w I a n En) as (_ & _ & _ & Hs). unfold stage in Hs.
    destruct (stage_of w (n_tid n)); destruct_and? Hs; repeat match goal with H : exits _ _ = _ |- _ => rewrite H end; try case_match; cbn; lia.
  - destruct Hw as [?|(t & r & ? & ? & ? & _)]; [by left|right; eauto].
Qed.

(** C22. In those runs a wait does not hang: the node it waits on is allocated, and either the child has not ended, or the wait
    can go on and returns the status that the child printed. *)
Theorem wait_not_stuck w t p a :
  reach w -> procs w !! t = Some p -> at_ p = WaitDown a ->
  exists n, nodes w !! a = Some n /\
    ((exists q, procs w !! n_tid n = Some q /\ phase (at_ q) <> Done) \/
     exits (n_tid n) (log w) = [exit_status n] /\
     exists w1 w2, step t Continue w = Ok (Some w1) /\ step t Continue w1 = Ok (Some w2) /\
       log w2 = log w ++ [EvWait t (n_tid n) (exit_status n)]).
Proof.
  intros I%reach_inv Hp Hat. pose proof (i_tidy w I t p Hp) as Ty. pose proof (tidy_at _ _ _ Ty) as Ha. unfold at_ok in Ha. rewrite Hat in Ha.
  destruct (tidy_kids _ _ _ Ty a Ha) as (n & En & Ek). exists n. split; [done|].
  destruct (i_node w I a n En) as (_ & _ & _ & Hs). destruct (stage_of w (n_tid n)) eqn:Ed.
  1-3: left; unfold stage_of in Ed; destruct (procs w !! n_tid n) as [q|]; [exists q; split; [done|by cbn in Ed; rewrite Ed]|done].
  right. destruct Hs as (Hx & Hsm). split; [done|]. destruct Hsm as [Hsm|(_ & s & q & Hq & Hr)].
  - eexists _, _. split.
    + unfold_step; unfold Wait.node. rewrite Hp, Hat, En. cbn -[Z.eqb]. rewrite Hsm. cbn. reflexivity.
    + split; [unfold_step; unfold Wait.node; cbn; do 2 (rewrite lookup_insert_eq; cbn); reflexivity|reflexivity].
  - exfalso. pose proof (i_tidy w I s q Hq) as Tq. pose proof (tidy_at _ _ _ Tq) as Hb. unfold at_ok in Hb. rewrite Hr in Hb.
    assert (s = t) as -> by (eapply (kid_alone w t p s q a n); eauto; right; naive_solver). congruence.
Qed.

Lemma find_child_total w c l : (forall a, a ∈ l -> exists n, nodes w !! a = Some n) -> exists r, find_child w c l = Ok r.
Proof.
  induction l as [|a l IH]; cbn; intros H; [eauto|]. destruct (H a) as (n & En); [by left|]. unfold node. rewrite En. cbn.
  case_match; [eauto|]. apply IH. intros b Hb. apply H. by right.
Qed.

(** C23. In orderly runs, in which processes end after they have waited for their children, no step faults by using a thread or node that has been freed, except a process_execute whose child has
    already ended when it reaches sema_down, and the first thread when it leaves.  One use of a freed node is not counted here,
    since it hits whatever is in that memory and does not fault: every process_wait that finds its child writes the flag waiting
    to the node it has just freed ([wait_mark]); the invariant behind this theorem allows for that write. *)
Theorem orderly_safe w t a e :
  reach w -> orderly w t a = true -> step t a w = Err e ->
  exists p, procs w !! t = Some p /\
    ((exists c nd, at_ p = ExecDown c nd /\ procs w !! c = None) \/ t = 1 /\ childless (at_ p) = true).
Proof.
  intros I%reach_inv Ho Hs. revert Hs; unfold_step; intros Hs; unfold orderly in Ho. destruct (procs w !! t) as [p|] eqn:Hp; [|done]. exists p. split; [done|].
  pose proof (i_tidy w I t p Hp) as Ty. pose proof (tidy_at _ _ _ Ty) as Ha. unfold at_ok in Ha.
  assert (Hnode : t <> 1 -> phase (at_ p) <> Done -> exists n, Wait.node w (tid_node p) = Ok n).
  { intros H1 Hd. destruct (own_node w t p I Hp H1 Hd) as (n & En & _). unfold Wait.node. rewrite En. eauto. }
  destruct (decide (t = 1 /\ childless (at_ p) = true)) as [|Hno]; [by right|].
  destruct (at_ p) eqn:Hat; destruct a; try done.
  - destruct success; [|done]. destruct Hnode as (n & En); [naive_solver|done|]. by rewrite En in Hs.
  - by case_match.
  - exfalso. unfold wait_begin in Hs. destruct (find_child_total w child_tid (child_nodes p)) as (r & Er).
    { intros b Hb. destruct (tidy_kids _ _ _ Ty b Hb) as (n & En & _). eauto. }
    rewrite Er in Hs. destruct r as [b|]; [|done]. apply find_child_in in Er. destruct (tidy_kids _ _ _ Ty b Er) as (n & En & _).
    cbn in Hs. unfold Wait.node in Hs. rewrite En in Hs. cbn in Hs. by destruct (waiting n).
  - exfalso. unfold exit_w in Hs. destruct (i_proc w I t p Hp) as (_ & Hex & _). rewrite Hex in Hs. destruct (Z.eqb_spec t 1); [done|].
    destruct Hnode as (n0 & En); [done|done|]. by rewrite En in Hs.
  - by case_match.
  - left. destruct (procs w !! tid) as [q|] eqn:Hq; [|eauto]. cbn in Hs. by case_match.
  - destruct Ha as (_ & n & En & _). unfold Wait.node in Hs. rewrite En in Hs. cbn in Hs. by destruct (loaded n).
  - destruct (tidy_kids _ _ _ Ty node Ha) as (n & En & _). unfold Wait.node in Hs. rewrite En in Hs. cbn -[Z.eqb] in Hs. by case_match.
  - destruct Ha as (_ & n & En & _). unfold Wait.node in Hs. by rewrite En in Hs.
  - destruct Hnode as (n & En); [naive_solver|done|]. by rewrite En in Hs.
  - unfold exit_node in Hs. by rewrite (tidy_childless _ _ _ Ty) in Hs by (by rewrite Hat).
  - destruct (tid_node_exists p); [|done]. destruct Hnode as (n & En); [naive_solver|done|]. by rewrite En in Hs.
  - destruct Hnode as (n & En); [naive_solver|done|]. by rewrite En in Hs.
Qed.

(** ** Runs *)

(** [parent] executes a program that starts well, as process [child]. *)
Definition spawn (parent child addr : Z) : list (Z * action) :=
  [(parent, CallExec addr); (child, Load true); (child, Continue); (parent, Continue); (parent, Continue); (parent, Continue)].

(** [t] exits, up to sema_up and its last breath. *)
Definition exiting (t s : Z) : list (Z * action) :=
  [(t, CallExit s); (t, Continue); (t, Continue); (t, Continue); (t, Continue); (t, Continue)].

Definition log_of (r : res (option world)) : res (option (list event)) :=
  match r with Ok o => Ok (option_map log o) | Err e => Err e end.

(** What goes wrong outside those runs, with any exit status s.  A process whose parent has ended before it uses its freed
    node when it exits, since process_exit clears the flag of the wrong thread.  An exec whose child ends first returns
    TID_ERROR although the child was loaded and ran, or uses the freed thread.  The write to a node after it has been freed
    by a wait can hit the node of another process, for which a first wait then fails.  The first thread has no node to use
    when it leaves. *)
Theorem process_life_faults s :
  run (spawn 1 2 100 ++ spawn 2 3 200 ++ exiting 2 0 ++ [(3, CallExit s)]) boot = Err EFault /\
  log_of (run ([(1, CallExec 100); (2, Load true); (2, Continue)] ++ exiting 2 7 ++ [(1, Continue)]) boot)
    = Ok (Some [EvExit 2 7; EvExec 1 TID_ERROR]) /\
  run ([(1, CallExec 100); (2, Load true); (2, Continue); (1, Continue)] ++ exiting 2 7 ++ [(1, Continue)]) boot = Err EFault /\
  log_of (run (spawn 1 2 100 ++ spawn 1 3 200 ++ exiting 2 7 ++ [(1, CallWait 2); (1, Continue); (1, Continue)]
             ++ spawn 3 4 100 ++ [(1, Continue); (3, CallWait 4)]) boot)
    = Ok (Some [EvExec 1 2; EvExec 1 3; EvExit 2 7; EvWait 1 2 7; EvExec 3 4; EvWaitNone 3 4]) /\
  run [(1, Killed); (1, Continue)] boot = Err EFault.
Proof. repeat split; vm_compute; reflexivity. Qed.

(** ** Witnesses *)

(** The first thread creates a process, which exits with 7, and waits for it. *)
Definition demo_run : list (Z * action) := spawn 1 2 100 ++ exiting 2 7 ++ [(1, CallWait 2)].

Definition demo_done : list (Z * action) := demo_run ++ [(1, Continue); (1, Continue)].

(** [run], if every step is orderly. *)
Fixpoint run_orderly (l : list (Z * action)) (w : world) : option world :=
  match l with
  | [] => Some w
  | (t, a) :: l => if orderly w t a then match step t a w with Ok (Some w) => run_orderly l w | _ => None end else None
  end.

Lemma run_orderly_reach l w w' : reach w -> run_orderly l w = Some w' -> reach w'.
Proof.
  revert w. induction l as [|[t a] l IH]; cbn; intros w Hw; [by intros [= <-]|].
  destruct (orderly w t a) eqn:Ho; [|done]. destruct (step t a w) as [[w1|]|] eqn:Hs; try done. apply IH. by eapply reach_step.
Qed.

Definition demo_world (l : list (Z * action)) : world := from_option id boot (run_orderly l boot).

Lemma demo_reach l : reach (demo_world l).
Proof. unfold demo_world. destruct (run_orderly l boot) as [w|] eqn:E; [exact (run_orderly_reach l boot w reach_boot E)|exact reach_boot]. Qed.

Lemma wait_collects_witness :
  waits 2 (log (demo_world demo_done)) = [(1, 7)] /\ (length (exits 2 (log (demo_world demo_done))) <= 1)%nat.
Proof. split; [vm_compute; reflexivity|]. apply (wait_collects _ 2 (demo_reach _)); lia. Defined.

Lemma wait_not_stuck_witness :
  exists n, nodes (demo_world demo_run) !! 100 = Some n.
Proof.
  destruct (wait_not_stuck (demo_world demo_run) 1 (MkProc 0 false [100] 0 (WaitDown 100)) 100 (demo_reach _)) as (n & Hn & _);
    [vm_compute; reflexivity|reflexivity|]. exists n. exact Hn.
Defined.

Lemma orderly_safe_witness :
  exists p, procs (demo_world ([(1, CallExec 100); (2, Load true); (2, Continue); (1, Continue)] ++ exiting 2 7)) !! 1 = Some p.
Proof.
  destruct (orderly_safe (demo_world ([(1, CallExec 100); (2, Load true); (2, Continue); (1, Continue)] ++ exiting 2 7)) 1 Continue EFault (demo_reach _)) as (p & Hp & _);
    [vm_compute; reflexivity|vm_compute; reflexivity|]. exists p. exact Hp.
Defined.
