(* ===== verification/Ustar.v ===== *)
(** Tar archive headers, lib/ustar.c.

    A header is the record of its fields, each the list of its bytes; [header_bytes]
    and [header_of] are its layout in 512 bytes.  A file name is the list of its
    characters without the terminator. *)

From stdpp Require Import base list numbers gmap strings.
From Stdlib Require Import ZArith Lia.
From Stdlib Require String.
From S2P Require Import Prelude Stdio StdioSpec.
Import String.StringSyntax.
Open Scope Z_scope.

(** ** Model *)

Definition USTAR_REGULAR : Z := 48.
Definition USTAR_DIRECTORY : Z := 53.
Definition USTAR_EOF : Z := -1.
Definition USTAR_HEADER_SIZE : Z := 512.

Record ustar_header := MkHeader {
  h_name : list Z; h_mode : list Z; h_uid : list Z; h_gid : list Z; h_size : list Z; h_mtime : list Z; h_chksum : list Z;
  h_typeflag : list Z; h_linkname : list Z; h_magic : list Z; h_version : list Z; h_uname : list Z; h_gname : list Z;
  h_devmajor : list Z; h_devminor : list Z; h_prefix : list Z; h_padding : list Z
}.

(** The sizes of the fields, and the fields in their order. *)
Definition field_sizes : list nat := [100; 8; 8; 8; 12; 12; 8; 1; 100; 6; 2; 32; 32; 8; 8; 155; 12]%nat.

Definition fields (h : ustar_header) : list (list Z) :=
  [h_name h; h_mode h; h_uid h; h_gid h; h_size h; h_mtime h; h_chksum h; h_typeflag h; h_linkname h; h_magic h; h_version h;
   h_uname h; h_gname h; h_devmajor h; h_devminor h; h_prefix h; h_padding h].

Definition header_bytes (h : ustar_header) : list Z := concat (fields h).

Fixpoint cut (sizes : list nat) (bytes : list Z) : list (list Z) :=
  match sizes with [] => [] | n :: sizes => take n bytes :: cut sizes (drop n bytes) end.

Definition header_of (bytes : list Z) : ustar_header :=
  match cut field_sizes bytes with
  | [a; b; c; d; e; f; g; h; i; j; k; l; m; n; o; p; q] => MkHeader a b c d e f g h i j k l m n o p q
  | _ => MkHeader [] [] [] [] [] [] [] [] [] [] [] [] [] [] [] [] []
  end.

(** The chksum field is at offset 148. *)
Fixpoint chksum_loop (i : Z) (header : list Z) (chksum : Z) : Z :=
  match header with
  | [] => chksum
  | b :: header => chksum_loop (i + 1) header (u32 (chksum + (if (148 <=? i) && (i <? 148 + 8) then 32 else b)))
  end.

Definition calculate_chksum (header : list Z) : Z := chksum_loop 0 header 0.

(** strchr (file_name, '/') + 1. *)
Fixpoint after_slash (file_name : list Z) : list Z :=
  match file_name with [] => [] | c :: rest => if c =? 47 then rest else after_slash rest end.

Definition starts_with (p l : list Z) : bool := bool_decide (take (length p) l = p).

Fixpoint strip_loop (fuel : nat) (file_name : list Z) : res (list Z) :=
  match fuel with
  | O => Err EFuel
  | S fuel =>
      if starts_with (chars "/") file_name || starts_with (chars "./") file_name || starts_with (chars "../") file_name
      then strip_loop fuel (after_slash file_name)
      else Ok file_name
  end.

Definition strip_antisocial_prefixes (file_name : list Z) : res (list Z) :=
  file_name ← strip_loop (S (length file_name)) file_name;
  Ok (if bool_decide (file_name = []) || bool_decide (file_name = chars "..") then chars "." else file_name).

(** strlcpy and snprintf into a field, and the size of the field. *)
Definition put_str (field s : list Z) : list Z :=
  let s := take (length field - 1) s ++ [0] in s ++ drop (length s) field.

Definition put_num (field format : list Z) (value : Z) : res (list Z) :=
  '(s, _) ← vsnprintf ∅ (Z.of_nat (length field)) format [u32 value];
  Ok (s ++ drop (length s) field).

Definition zero_header : ustar_header := header_of (replicate 512 0).

(** The header if the function returns true; [None] if it returns false. *)
Definition ustar_make_header (file_name : list Z) (type size : Z) : res (option (list Z)) :=
  _ ← ASSERT ((type =? USTAR_REGULAR) || (type =? USTAR_DIRECTORY));
  file_name ← strip_antisocial_prefixes file_name;
  if 99 <? Z.of_nat (length file_name) then Ok None
  else
    let z := zero_header in
    mode ← put_num (h_mode z) (chars "%07o") (if type =? USTAR_REGULAR then 420 else 493);
    size ← put_num (h_size z) (chars "%011o") size;
    mtime ← put_num (h_mtime z) (chars "%011o") 1136102400;
    let with_chksum c :=
      MkHeader (put_str (h_name z) file_name) mode (put_str (h_uid z) (chars "0000000")) (put_str (h_gid z) (chars "0000000"))
        size mtime c [type] (h_linkname z) (put_str (h_magic z) (chars "ustar")) (chars "00")
        (put_str (h_uname z) (chars "root")) (put_str (h_gname z) (chars "root")) (h_devmajor z) (h_devminor z) (h_prefix z) (h_padding z) in
    chksum ← put_num (h_chksum z) (chars "%07o") (calculate_chksum (header_bytes (with_chksum (h_chksum z))));
    Ok (Some (header_bytes (with_chksum chksum))).

Definition ULONG_MAX : Z := 2 ^ 32 - 1.
Definition INT_MAX : Z := 2 ^ 31 - 1.

Fixpoint octal_loop (ofs : Z) (s : list Z) (value : Z) : option Z :=
  match s with
  | [] => None
  | c :: s =>
      if (48 <=? c) && (c <=? 55) then
        if ULONG_MAX / 8 <? value then None else octal_loop (ofs + 1) s (u32 (c - 48 + value * 8))
      else if (c =? 32) || (c =? 0) then if 0 <? ofs then Some value else None
      else None
  end.

Definition parse_octal_field (s : list Z) : option Z := octal_loop 0 s 0.

Definition is_all_zeros (block : list Z) : bool := forallb (fun b => b =? 0) block.

(** The string that starts at a field. *)
Fixpoint c_string (l : list Z) : list Z :=
  match l with [] => [] | c :: l => if c =? 0 then [] else c :: c_string l end.

(** An error message, or the name, type and size. *)
Inductive parsed := Bad (message : list Z) | Entry (file_name : option (list Z)) (type size : Z).

Definition ustar_parse_header (header : list Z) : res parsed :=
  if is_all_zeros header then Ok (Entry None USTAR_EOF 0)
  else
    let h := header_of header in
    if negb (bool_decide (h_magic h = chars "ustar" ++ [0])) then Ok (Bad (chars "not a ustar archive"))
    else if negb (bool_decide (h_version h = chars "00")) then Ok (Bad (chars "invalid ustar version"))
    else match parse_octal_field (h_chksum h) with
    | None => Ok (Bad (chars "corrupt chksum field"))
    | Some chksum =>
        if negb (chksum =? calculate_chksum header) then Ok (Bad (chars "checksum mismatch"))
        else if negb (bool_decide (last (h_name h) = Some 0)) || negb (bool_decide (head (h_prefix h) = Some 0)) then Ok (Bad (chars "file name too long"))
        else if negb (bool_decide (h_typeflag h = [USTAR_REGULAR])) && negb (bool_decide (h_typeflag h = [USTAR_DIRECTORY])) then Ok (Bad (chars "unimplemented file type"))
        else
          let entry size := (file_name ← strip_antisocial_prefixes (c_string (h_name h)); Ok (Entry (Some file_name) (default 0 (head (h_typeflag h))) (s32 size))) in
          if bool_decide (h_typeflag h = [USTAR_REGULAR]) then
            match parse_octal_field (h_size h) with
            | None => Ok (Bad (chars "corrupt file size field"))
            | Some size => if INT_MAX <? size then Ok (Bad (chars "file too large")) else entry size
            end
          else entry 0
    end.

Example parse_made : (h ← ustar_make_header (chars "../a/b") USTAR_REGULAR 1234; ustar_parse_header (default [] h)) = Ok (Entry (Some (chars "a/b")) USTAR_REGULAR 1234).
Proof. vm_compute. reflexivity. Qed.

(** ** Names *)

(** A name that an extractor may use: relative, and not leading upwards at its start. *)
Definition safe_name (l : list Z) : Prop :=
  l <> [] /\ l <> chars ".." /\ starts_with (chars "/") l = false /\ starts_with (chars "./") l = false /\ starts_with (chars "../") l = false.

Lemma starts_with_true p l : starts_with p l = true <-> exists r, l = p ++ r.
Proof.
  unfold starts_with. rewrite bool_decide_eq_true. split.
  - intros H. exists (drop (length p) l). rewrite <- H at 1. by rewrite take_drop.
  - intros (r & ->). by rewrite take_app_length.
Qed.

Lemma after_slash_short l : 47 ∈ l -> (length (after_slash l) < length l)%nat.
Proof.
  induction l as [|c l IH]; [by intros ?%elem_of_nil|]. cbn. destruct (Z.eqb_spec c 47); [lia|].
  intros [?|?]%elem_of_cons; [congruence|]. specialize (IH ltac:(done)). lia.
Qed.

Lemma after_slash_suffix l : after_slash l `suffix_of` l.
Proof.
  induction l as [|c l IH]; cbn; [done|]. destruct (c =? 47); [by exists [c]|]. destruct IH as (k & E). exists (c :: k). cbn. by f_equal.
Qed.

Lemma strip_loop_Ok fuel : forall l, (length l < fuel)%nat -> exists r, strip_loop fuel l = Ok r /\ r `suffix_of` l /\
  starts_with (chars "/") r = false /\ starts_with (chars "./") r = false /\ starts_with (chars "../") r = false.
Proof.
  induction fuel as [|fuel IH]; intros l Hl; [lia|]. cbn [strip_loop]. destruct (_ || _ || _) eqn:E.
  - assert (H47 : 47 ∈ l).
    { rewrite !orb_true_iff, !starts_with_true in E. destruct E as [[(r & ->)|(r & ->)]|(r & ->)]; apply elem_of_app; left; apply list_elem_of_In; vm_compute; tauto. }
    destruct (IH (after_slash l)) as (r & Er & Hr & ?); [pose proof (after_slash_short l H47); lia|].
    exists r. split; [done|]. split; [|done]. etrans; [exact Hr|apply after_slash_suffix].
  - exists l. rewrite !orb_false_iff in E. destruct E as ((? & ?) & ?). by split_and!.
Qed.

Lemma strip_Ok l : exists r, strip_antisocial_prefixes l = Ok r /\ safe_name r /\ (r `suffix_of` l \/ r = chars ".").
Proof.
  destruct (strip_loop_Ok (S (length l)) l) as (r & Er & Hs & H1 & H2 & H3); [lia|]. unfold strip_antisocial_prefixes. rewrite Er. cbn [mbind res_bind].
  destruct (bool_decide_reflect (r = [])) as [->|Hn]; [by exists (chars "."); split_and!; [..|right]|].
  destruct (bool_decide_reflect (r = chars "..")) as [->|Hn2]; [by exists (chars "."); split_and!; [..|right]|].
  exists r. cbn [orb]. by split_and!; [..|left].
Qed.

Lemma strip_safe r : safe_name r -> strip_antisocial_prefixes r = Ok r.
Proof.
  intros (H1 & H2 & E1 & E2 & E3). unfold strip_antisocial_prefixes. cbn [strip_loop]. rewrite E1, E2, E3. cbn [orb mbind res_bind].
  by rewrite !bool_decide_eq_false_2.
Qed.

(** ** Octal fields *)

Definition octal (l : list Z) : Prop := Forall (fun c => 48 <= c <= 55) l.
Definition octal_val (v : Z) (l : list Z) : Z := fold_left (fun v c => v * 8 + (c - 48)) l v.

Lemma octal_val_ge l : forall v, 0 <= v -> octal l -> v <= octal_val v l.
Proof.
  induction l as [|c l IH]; intros v Hv H; cbn; [done|]. apply Forall_cons_1 in H as [Hc Hl]. etrans; [|apply IH]; [lia|lia|done].
Qed.

Lemma octal_val_bound l : forall v, 0 <= v -> octal l -> octal_val v l < (v + 1) * 8 ^ Z.of_nat (length l).
Proof.
  induction l as [|c l IH]; intros v Hv H; [cbn; lia|]. apply Forall_cons_1 in H as [Hc Hl]. unfold octal_val in *. cbn [fold_left length].
  specialize (IH (v * 8 + (c - 48)) ltac:(lia) Hl). rewrite Nat2Z.inj_succ, Z.pow_succ_r by lia. nia.
Qed.

Lemma octal_loop_digits l rest : forall ofs v, octal l -> 0 <= v -> octal_val v l < 2 ^ 32 -> 0 < ofs + Z.of_nat (length l) -> 0 <= ofs ->
  octal_loop ofs (l ++ 0 :: rest) v = Some (octal_val v l).
Proof.
  induction l as [|c l IH]; intros ofs v Hl Hv Hb Ho H0.
  - cbn -[Z.ltb]. cbn in Ho. by rewrite (proj2 (Z.ltb_lt _ _)) by lia.
  - apply Forall_cons_1 in Hl as [Hc Hl]. cbn [app octal_loop]. rewrite (proj2 (Z.leb_le 48 c)), (proj2 (Z.leb_le c 55)) by lia. cbn [andb].
    cbn [octal_val fold_left] in Hb |- *. pose proof (octal_val_ge l (v * 8 + (c - 48)) ltac:(lia) Hl) as Hge. unfold octal_val in Hge.
    unfold ULONG_MAX. rewrite (proj2 (Z.ltb_ge _ _)).
    2:{ enough (v <= (2 ^ 32 - 1) / 8) by lia. apply Z.div_le_lower_bound; lia. }
    rewrite u32_small by (unfold is_u32; lia). replace (c - 48 + v * 8) with (v * 8 + (c - 48)) by lia. apply IH; try done; lia.
Qed.

Lemma octal_digits ds : Forall (fun d => 0 <= d < 8) ds -> octal (digit_char base_o <$> ds) /\ forall v, octal_val v (digit_char base_o <$> ds) = fold_left (fun v d => v * 8 + d) ds v.
Proof.
  assert (Hd : forall d, 0 <= d < 8 -> digit_char base_o d = 48 + d).
  { intros d Hd. assert (H : d = 0 \/ d = 1 \/ d = 2 \/ d = 3 \/ d = 4 \/ d = 5 \/ d = 6 \/ d = 7) by lia.
    by repeat destruct H as [->|H]; [..|subst d]. }
  induction 1 as [|d ds H Hds (IH1 & IH2)]; [by split; [constructor|]|]. rewrite fmap_cons, Hd by done. split; [constructor; [lia|done]|].
  intros v. unfold octal_val in *. cbn [fold_left]. rewrite IH2. f_equal. lia.
Qed.

Lemma octal_zeros n : octal (replicate n 48) /\ octal_val 0 (replicate n 48) = 0.
Proof. induction n as [|n [IH1 IH2]]; [by split; [constructor|]|]. cbn. split; [constructor; [lia|done]|done]. Qed.

Lemma parse_octal_range s n : parse_octal_field s = Some n -> 0 <= n.
Proof.
  unfold parse_octal_field. assert (H0 : 0 <= 0) by lia. revert H0. generalize 0 at 2 4. generalize 0 at 2. intros v ofs. revert v ofs.
  induction s as [|c s IH]; intros ofs v Hv; cbn [octal_loop]; [done|]. repeat case_match; try done; [|by intros [= <-]].
  apply IH. apply u32_range.
Qed.

(** A numeral of at most k digits below 8^k. *)
Lemma numeral_short n ds k : numeral 8 n ds -> n < 8 ^ Z.of_nat k -> (length ds <= k)%nat.
Proof.
  intros (HF & Hv & Hh) Hn. destruct ds as [|d ds]; [cbn; lia|]. apply Forall_cons_1 in HF as [Hd HF]. cbn in Hh. unfold num_val in Hv. cbn [fold_left] in Hv.
  assert (Hge : forall l v0, Forall (fun d => 0 <= d < 8) l -> 0 <= v0 -> v0 * 8 ^ Z.of_nat (length l) <= fold_left (fun v d => v * 8 + d) l v0).
  { induction l as [|e l IHl]; intros v0 HFl Hv0; [cbn; lia|]. cbn [fold_left length]. apply Forall_cons_1 in HFl as [? ?]. etrans; [|apply IHl; [done|lia]].
    rewrite Nat2Z.inj_succ, Z.pow_succ_r by lia. nia. }
  specialize (Hge ds (0 * 8 + d) HF ltac:(lia)). assert (d <> 0) by congruence.
  assert (8 ^ Z.of_nat (length ds) < 8 ^ Z.of_nat k) by nia. apply Z.pow_lt_mono_r_iff in H0; cbn; lia.
Qed.

(** What %0<width>o prints. *)
Lemma octal_field_text v (w : nat) ds : numeral 8 v ds -> 0 <= v < 8 ^ Z.of_nat w -> (0 < w)%nat ->
  let t := integer_field base_o v false false (MkConv ZERO (Z.of_nat w) (-1) INT) ds in
  octal t /\ octal_val 0 t = v /\ length t = w.
Proof.
  intros Hn Hv Hw. pose proof (numeral_short v ds w Hn ltac:(lia)) as Hl. destruct Hn as (HF & Hval & _). destruct (octal_digits ds HF) as (Ho & Hov).
  cbv zeta. unfold integer_field, digits_part. cbn [sign_part prefix_part flags width precision]. change (flag ZERO MINUS) with false. change (flag ZERO ZERO) with true.
  change (flag ZERO POUND) with false. change (-1 <? 0) with true. cbn [andb app]. change (Z.to_nat (Z.min 63 1)) with 1%nat.
  unfold prefix_part. change (flag ZERO POUND) with false. cbn [andb app]. rewrite app_assoc, <- replicate_add.
  set (z := (_ + _)%nat). destruct (octal_zeros z) as (Hz1 & Hz2). split_and!.
  - by apply Forall_app.
  - unfold octal_val in *. by rewrite fold_left_app, Hz2, Hov.
  - rewrite length_app, length_replicate, length_fmap. unfold z. rewrite length_app, length_replicate, length_fmap. lia.
Qed.

Lemma printf_octal m (w : nat) l v :
  parse_conversion l [u32 v] = Ok (MkConv ZERO (Z.of_nat w) (-1) INT, [111], [u32 v]) -> peek l <> 37 ->
  0 <= v < 8 ^ Z.of_nat w -> is_u32 v -> (0 < w < 100)%nat ->
  exists t, printf m (37 :: l) [u32 v] [] = Ok t /\ octal t /\ octal_val 0 t = v /\ length t = w.
Proof.
  intros Hc Hp Hv Hu Hw. destruct bases_ok as (_ & Bo & _). set (c := MkConv ZERO (Z.of_nat w) (-1) INT) in *.
  destruct (format_integer_putc v false false base_o c [] Bo) as (ds & Hn & Hl & E); [unfold is_u32 in Hu; lia|done|done|cbn; lia|].
  exists (integer_field base_o v false false c ds). split; [|apply octal_field_text; [done|done|lia]].
  unfold printf, __vprintf. cbn [List.length Nat.add vprintf_loop Z.eqb negb]. change (negb (37 =? 37)) with false. cbv match.
  rewrite (proj2 (Z.eqb_neq _ _)) by done. rewrite Hc. cbn [mbind res_bind peek]. change ((111 =? 100) || (111 =? 105)) with false.
  change ((111 =? 111) || (111 =? 117) || (111 =? 120) || (111 =? 88)) with true. cbv match. cbn [type c unsigned_arg va_unsigned va_word mbind res_bind].
  change (111 =? 111) with true. cbv match.
  rewrite (u32_small (u32 v)) by apply u32_range. rewrite (u32_small v) by done. rewrite E. cbn [mbind res_bind app].
  rewrite Nat.add_comm. reflexivity.
Qed.

Lemma put_octal (w : nat) l v :
  parse_conversion l [u32 v] = Ok (MkConv ZERO (Z.of_nat w) (-1) INT, [111], [u32 v]) -> peek l <> 37 ->
  0 <= v < 8 ^ Z.of_nat w -> is_u32 v -> (0 < w < 100)%nat ->
  exists t, put_num (replicate (S w) 0) (37 :: l) v = Ok (t ++ [0]) /\ octal t /\ octal_val 0 t = v /\ length t = w.
Proof.
  intros Hc Hp Hv Hu Hw. destruct (printf_octal ∅ w l v Hc Hp Hv Hu Hw) as (t & E & Ho & Ht & Hl). exists t. split; [|done].
  unfold put_num. rewrite length_replicate. rewrite (vsnprintf_text ∅ _ _ _ t E) by lia. rewrite (proj2 (Z.ltb_lt _ _)) by lia.
  rewrite take_ge by lia. cbn [mbind res_bind]. rewrite drop_ge; [by rewrite app_nil_r|]. rewrite length_replicate, length_app. cbn. lia.
Qed.

Lemma parse_put (w : nat) t : octal t -> length t = w -> (0 < w)%nat -> octal_val 0 t < 2 ^ 32 -> parse_octal_field (t ++ [0]) = Some (octal_val 0 t).
Proof. intros Ho Hl Hw Hv. apply octal_loop_digits; try done; lia. Qed.

(** ** Layout and checksum *)

Definition well_sized (h : ustar_header) : Prop := length <$> fields h = field_sizes.

Lemma cut_concat l sizes : length <$> l = sizes -> cut sizes (concat l) = l.
Proof.
  revert sizes. induction l as [|x l IH]; intros sizes <-; [done|]. cbn. rewrite take_app_length, drop_app_length. by f_equal; apply IH.
Qed.

Lemma header_roundtrip h : well_sized h -> header_of (header_bytes h) = h.
Proof. intros H. unfold header_of, header_bytes. rewrite (cut_concat _ _ H). by destruct h. Qed.

Lemma length_header_bytes h : well_sized h -> length (header_bytes h) = 512%nat.
Proof. intros H. unfold header_bytes. rewrite length_concat. change (map length (fields h)) with (length <$> fields h). by rewrite H. Qed.

Lemma chksum_loop_app l1 l2 : forall i s, chksum_loop i (l1 ++ l2) s = chksum_loop (i + Z.of_nat (length l1)) l2 (chksum_loop i l1 s).
Proof.
  induction l1 as [|b l1 IH]; intros i s; cbn [app chksum_loop length]; [f_equal; lia|]. rewrite IH. f_equal. lia.
Qed.

Lemma chksum_loop_field l1 l2 : forall i s, length l1 = length l2 -> 148 <= i -> i + Z.of_nat (length l1) <= 156 -> chksum_loop i l1 s = chksum_loop i l2 s.
Proof.
  revert l2. induction l1 as [|b l1 IH]; intros [|c l2] i s Hl H1 H2; try done. cbn [chksum_loop length] in *.
  rewrite (proj2 (Z.leb_le _ _)), (proj2 (Z.ltb_lt _ _)) by lia. apply IH; lia.
Qed.

Lemma chksum_bound l : forall i s, Forall is_u8 l -> 0 <= s -> s + 255 * Z.of_nat (length l) < 2 ^ 32 -> 0 <= chksum_loop i l s <= s + 255 * Z.of_nat (length l).
Proof.
  induction l as [|b l IH]; intros i s Hl Hs Hb; cbn [chksum_loop length] in *; [lia|]. apply Forall_cons_1 in Hl as [Hb8 Hl]. unfold is_u8 in Hb8.
  set (x := if _ && _ then 32 else b). assert (0 <= x <= 255) by (unfold x; case_match; lia).
  rewrite u32_small by (unfold is_u32; lia). specialize (IH (i + 1) (s + x) Hl ltac:(lia) ltac:(lia)). lia.
Qed.

(** ** Making and parsing *)

(** The name is padded with zeros. *)
Lemma put_str_zeros n s : (length s < n)%nat -> put_str (replicate n 0) s = s ++ replicate (n - length s) 0.
Proof.
  intros H. unfold put_str. rewrite length_replicate, take_ge by lia. rewrite length_app, <- app_assoc. f_equal.
  rewrite drop_replicate. cbn [length]. replace (n - length s)%nat with (S (n - (length s + 1)))%nat by lia. done.
Qed.

Lemma c_string_pad s n : Forall (fun c => c <> 0) s -> c_string (s ++ replicate (S n) 0) = s.
Proof.
  induction 1 as [|c s Hc Hs IH]; [done|]. cbn [app c_string]. rewrite (proj2 (Z.eqb_neq _ _)) by done. by f_equal.
Qed.

Lemma last_pad s n : last (s ++ replicate (S n) 0) = Some 0.
Proof. rewrite replicate_S_end, app_assoc. apply last_snoc. Qed.

Lemma not_all_zeros l b : b ∈ l -> b <> 0 -> is_all_zeros l = false.
Proof.
  intros Hb H0. unfold is_all_zeros. apply not_true_iff_false. intros H. rewrite forallb_forall in H.
  apply H0, Z.eqb_eq, H. by apply list_elem_of_In.
Qed.

(** The header that is made, with any bytes in the checksum field. *)
Definition made (name mode sz mt : list Z) (type : Z) (ck : list Z) : ustar_header :=
  MkHeader (name ++ replicate (100 - length name) 0) mode (chars "0000000" ++ [0]) (chars "0000000" ++ [0]) sz mt ck [type] (replicate 100 0)
    (chars "ustar" ++ [0]) (chars "00") (chars "root" ++ replicate 28 0) (chars "root" ++ replicate 28 0) (replicate 8 0) (replicate 8 0) (replicate 155 0) (replicate 12 0).

Lemma made_sized name mode sz mt type ck :
  (length name <= 99)%nat -> length mode = 8%nat -> length sz = 12%nat -> length mt = 12%nat -> length ck = 8%nat -> well_sized (made name mode sz mt type ck).
Proof.
  intros H1 H2 H3 H4 H5. unfold well_sized, fields, made. cbn [h_name h_mode h_uid h_gid h_size h_mtime h_chksum h_typeflag h_linkname h_magic h_version h_uname h_gname h_devmajor h_devminor h_prefix h_padding fmap list_fmap].
  rewrite H2, H3, H4, H5, length_app, length_replicate. replace (length name + (100 - length name))%nat with 100%nat by lia. reflexivity.
Qed.

Lemma header_split h : header_bytes h = concat (take 6 (fields h)) ++ h_chksum h ++ concat (drop 7 (fields h)).
Proof.
  change (header_bytes h) with (concat (take 6 (fields h) ++ [h_chksum h] ++ drop 7 (fields h))). rewrite !concat_app. cbn [concat].
  by rewrite app_nil_r.
Qed.

Lemma length_front h : well_sized h -> length (concat (take 6 (fields h))) = 148%nat.
Proof.
  intros H. rewrite length_concat. change (map length (take 6 (fields h))) with (length <$> take 6 (fields h)).
  unfold well_sized in H. by rewrite fmap_take, H.
Qed.

(** The checksum does not depend on the checksum field. *)
Lemma made_chksum name mode sz mt type ck ck' :
  (length name <= 99)%nat -> length mode = 8%nat -> length sz = 12%nat -> length mt = 12%nat -> length ck = 8%nat -> length ck' = 8%nat ->
  calculate_chksum (header_bytes (made name mode sz mt type ck)) = calculate_chksum (header_bytes (made name mode sz mt type ck')).
Proof.
  intros H1 H2 H3 H4 H5 H6. unfold calculate_chksum. rewrite !header_split, !chksum_loop_app, !length_front by (by apply made_sized).
  change (h_chksum (made name mode sz mt type ck)) with ck. change (h_chksum (made name mode sz mt type ck')) with ck'. rewrite H5, H6.
  f_equal. apply chksum_loop_field; lia.
Qed.

Lemma Forall_chars l : Forall is_u8 (chars l).
Proof.
  unfold chars. apply Forall_forall. intros x (c & <- & _)%list_elem_of_In%in_map_iff. unfold is_u8. pose proof (Ascii.N_ascii_bounded c). lia.
Qed.

Lemma octal_u8 t : octal t -> Forall is_u8 t.
Proof. intros H. apply (Forall_impl _ _ _ H). unfold is_u8. lia. Qed.

Lemma zeros_u8 n : Forall is_u8 (replicate n 0).
Proof. apply Forall_replicate. unfold is_u8. lia. Qed.

Lemma made_u8 name mode sz mt type ck :
  Forall is_u8 name -> Forall is_u8 mode -> Forall is_u8 sz -> Forall is_u8 mt -> is_u8 type -> Forall is_u8 ck ->
  Forall is_u8 (header_bytes (made name mode sz mt type ck)).
Proof.
  intros. unfold header_bytes, fields, made. cbn [h_name h_mode h_uid h_gid h_size h_mtime h_chksum h_typeflag h_linkname h_magic h_version h_uname h_gname h_devmajor h_devminor h_prefix h_padding concat].
  repeat apply Forall_app_2; auto using Forall_chars, zeros_u8; by repeat constructor.
Qed.

Lemma u8_octal_end t : octal t -> Forall is_u8 (t ++ [0]).
Proof. intros H. apply Forall_app_2; [by apply octal_u8|]. by repeat constructor. Qed.

Lemma parse_07o args : parse_conversion (tl (chars "%07o")) args = Ok (MkConv ZERO (Z.of_nat 7) (-1) INT, [111], args).
Proof. reflexivity. Qed.

Lemma parse_011o args : parse_conversion (tl (chars "%011o")) args = Ok (MkConv ZERO (Z.of_nat 11) (-1) INT, [111], args).
Proof. reflexivity. Qed.

(** What ustar_make_header makes. *)
Lemma make_header_Ok file_name name type size :
  (type = USTAR_REGULAR \/ type = USTAR_DIRECTORY) -> strip_antisocial_prefixes file_name = Ok name -> (length name <= 99)%nat -> Forall is_u8 name ->
  exists mode sz mt ck, let h := made name mode (sz ++ [0]) mt type (ck ++ [0]) in
    ustar_make_header file_name type size = Ok (Some (header_bytes h)) /\ well_sized h /\
    octal sz /\ length sz = 11%nat /\ octal_val 0 sz = u32 size /\
    octal ck /\ length ck = 7%nat /\ octal_val 0 ck = calculate_chksum (header_bytes h).
Proof.
  intros Ht Hs Hl Hu. assert (Htu : is_u8 type) by (unfold is_u8; destruct Ht as [-> | ->]; vm_compute; intuition congruence).
  set (md := if type =? USTAR_REGULAR then 420 else 493).
  destruct (put_octal 7 (tl (chars "%07o")) md) as (mode & Em & Om & _ & Lm); [apply parse_07o|done|unfold md; case_match; lia|unfold is_u32, md; case_match; lia|lia|].
  pose proof (u32_range size) as Hus. unfold is_u32 in Hus.
  destruct (put_octal 11 (tl (chars "%011o")) (u32 size)) as (sz & Es & Os & Vs & Ls); [apply parse_011o|done|lia|done|lia|].
  destruct (put_octal 11 (tl (chars "%011o")) 1136102400) as (mt & Et & Ot & _ & Lt); [apply parse_011o|done|lia|unfold is_u32; lia|lia|].
  set (h0 := made name (mode ++ [0]) (sz ++ [0]) (mt ++ [0]) type (replicate 8 0)).
  assert (W0 : well_sized h0) by (apply made_sized; rewrite ?length_app; cbn; lia).
  assert (B : Forall is_u8 (header_bytes h0)) by (apply made_u8; auto using u8_octal_end, zeros_u8).
  pose proof (chksum_bound (header_bytes h0) 0 0 B ltac:(lia)) as Hck. rewrite (length_header_bytes h0 W0) in Hck. specialize (Hck ltac:(lia)).
  fold (calculate_chksum (header_bytes h0)) in Hck.
  destruct (put_octal 7 (tl (chars "%07o")) (calculate_chksum (header_bytes h0))) as (ck & Ec & Oc & Vc & Lc); [apply parse_07o|done|lia|unfold is_u32; lia|lia|].
  change (37 :: tl (chars "%07o")) with (chars "%07o") in Em, Ec. change (37 :: tl (chars "%011o")) with (chars "%011o") in Es, Et.
  assert (Es' : put_num (replicate 12 0) (chars "%011o") size = Ok (sz ++ [0])).
  { rewrite <- Es. unfold put_num. by rewrite (u32_small (u32 size)) by done. }
  assert (W : well_sized (made name (mode ++ [0]) (sz ++ [0]) (mt ++ [0]) type (ck ++ [0]))) by (apply made_sized; rewrite ?length_app; cbn; lia).
  exists (mode ++ [0]), sz, (mt ++ [0]), ck. cbv zeta. split; [|split_and!; try done].
  - unfold ustar_make_header. replace (_ || _) with true by (destruct Ht as [-> | ->]; reflexivity). rewrite Hs.
    cbn [ASSERT mbind res_bind]. rewrite (proj2 (Z.ltb_ge _ _)) by lia. fold md.
    change (h_mode zero_header) with (replicate 8 0). change (h_size zero_header) with (replicate 12 0). change (h_mtime zero_header) with (replicate 12 0).
    change (h_chksum zero_header) with (replicate 8 0). rewrite Em, Es', Et. cbn [mbind res_bind].
    change (h_name zero_header) with (replicate 100 0). rewrite (put_str_zeros 100 name) by lia.
    match goal with |- context [put_num (replicate 8 0) (chars "%07o") (calculate_chksum ?x)] => change x with (header_bytes h0) end.
    rewrite Ec. reflexivity.
  - rewrite Vc. unfold h0. apply made_chksum; rewrite ?length_app; cbn; lia.
Qed.

(** Parsing a well-formed header with its checksum in place. *)
Lemma parse_header_Ok name mode sz mt type ck :
  let h := made name mode (sz ++ [0]) mt type (ck ++ [0]) in
  (type = USTAR_REGULAR \/ type = USTAR_DIRECTORY) -> safe_name name -> Forall (fun c => c <> 0) name -> (length name <= 99)%nat -> well_sized h ->
  octal sz -> length sz = 11%nat -> octal_val 0 sz < 2 ^ 32 -> octal ck -> length ck = 7%nat -> octal_val 0 ck = calculate_chksum (header_bytes h) -> octal_val 0 ck < 2 ^ 32 ->
  ustar_parse_header (header_bytes h) =
    Ok (if (type =? USTAR_REGULAR) && (INT_MAX <? octal_val 0 sz) then Bad (chars "file too large")
        else Entry (Some name) type (if type =? USTAR_REGULAR then s32 (octal_val 0 sz) else 0)).
Proof.
  intros h Ht Hs Hnz Hl W Os Ls Vs Oc Lc Vc Bc. unfold ustar_parse_header. rewrite (not_all_zeros _ type).
  2:{ apply list_elem_of_In, in_concat. exists [type]. split; [|by left]. unfold fields. cbn. tauto. }
  2:{ destruct Ht as [-> | ->]; done. }
  rewrite (header_roundtrip h W). cbv zeta. change (h_magic h) with (chars "ustar" ++ [0]). change (h_version h) with (chars "00").
  change (h_chksum h) with (ck ++ [0]). change (h_name h) with (name ++ replicate (100 - length name) 0). change (h_prefix h) with (replicate 155 0).
  change (h_typeflag h) with [type]. change (h_size h) with (sz ++ [0]). replace (100 - length name)%nat with (S (99 - length name)) by lia.
  rewrite last_pad, c_string_pad, strip_safe by done. rewrite !(bool_decide_eq_true_2 (_ = _)) by reflexivity. cbn [negb orb].
  rewrite (parse_put 7) by (done || lia). rewrite Vc, Z.eqb_refl. cbn [negb]. rewrite (parse_put 11) by (done || lia).
  destruct Ht as [-> | ->].
  - rewrite (bool_decide_eq_true_2 ([USTAR_REGULAR] = [USTAR_REGULAR])) by done. cbn [negb andb]. change (USTAR_REGULAR =? USTAR_REGULAR) with true. cbn [andb].
    by destruct (INT_MAX <? octal_val 0 sz).
  - reflexivity.
Qed.

(** A header that is made is parsed back. *)
Lemma make_parse file_name name type size :
  (type = USTAR_REGULAR \/ type = USTAR_DIRECTORY) -> is_s32 size -> strip_antisocial_prefixes file_name = Ok name -> safe_name name ->
  Forall (fun c => 1 <= c < 256) name -> (length name <= 99)%nat ->
  exists header, ustar_make_header file_name type size = Ok (Some header) /\ length header = 512%nat /\
    ustar_parse_header header =
      Ok (if (type =? USTAR_REGULAR) && (size <? 0) then Bad (chars "file too large")
          else Entry (Some name) type (if type =? USTAR_REGULAR then size else 0)).
Proof.
  intros Ht Hsz Es Hs Hn Hshort.
  destruct (make_header_Ok file_name name type size Ht Es) as (mode & sz & mt & ck & E & W & Os & Ls & Vs & Oc & Lc & Vc);
    [lia|apply (Forall_impl _ _ _ Hn); unfold is_u8; lia|].
  eexists. split; [exact E|]. split; [by apply length_header_bytes|]. pose proof (u32_range size) as Hu. unfold is_u32 in Hu.
  assert (Hck : octal_val 0 ck < 2 ^ 32).
  { pose proof (octal_val_bound ck 0 ltac:(lia) Oc). rewrite Lc in *. lia. }
  rewrite parse_header_Ok; try done; [|apply (Forall_impl _ _ _ Hn); lia|lia]. do 2 f_equal. rewrite Vs. unfold is_s32, u32, INT_MAX in *.
  destruct (Z.ltb_spec size 0).
  + replace (size mod 2 ^ 32) with (size + 2 ^ 32) by (apply (Z.mod_unique _ _ (-1)); lia). rewrite (proj2 (Z.ltb_lt _ _)) by lia. by destruct (type =? USTAR_REGULAR).
  + rewrite Z.mod_small, (proj2 (Z.ltb_ge _ _)), s32_small by (unfold is_s32; lia). done.
Qed.

(** ** Properties *)

(** Headers survive the archive: for every file name, type and size of 32 bits, ustar_make_header drops the dangerous
    prefixes of the name, refuses what is then longer than 99 characters, and otherwise makes 512 bytes from which
    ustar_parse_header recovers the stripped name, the type, and the size of a regular file (0 for a directory); a negative
    size is refused when it is read back. *)
Theorem ustar_roundtrip file_name type size :
  Forall (fun c => 1 <= c < 256) file_name -> (type = USTAR_REGULAR \/ type = USTAR_DIRECTORY) -> is_s32 size ->
  exists name, strip_antisocial_prefixes file_name = Ok name /\ safe_name name /\
    if 99 <? Z.of_nat (length name) then ustar_make_header file_name type size = Ok None
    else exists header, ustar_make_header file_name type size = Ok (Some header) /\ length header = 512%nat /\
      ustar_parse_header header =
        Ok (if (type =? USTAR_REGULAR) && (size <? 0) then Bad (chars "file too large")
            else Entry (Some name) type (if type =? USTAR_REGULAR then size else 0)).
Proof.
  intros Hf Ht Hsz. destruct (strip_Ok file_name) as (name & Es & Hs & Hsuf). exists name. split; [done|]. split; [done|].
  assert (Hn : Forall (fun c => 1 <= c < 256) name).
  { destruct Hsuf as [(k & ->)| ->]; [by apply Forall_app in Hf as [_ ?]|by repeat constructor]. }
  destruct (Z.ltb_spec 99 (Z.of_nat (length name))) as [Hlong|Hshort].
  - unfold ustar_make_header. replace (_ || _) with true by (destruct Ht as [-> | ->]; reflexivity). rewrite Es. cbn [ASSERT mbind res_bind].
    by rewrite (proj2 (Z.ltb_lt _ _)) by lia.
  - apply make_parse; (done || lia).
Qed.

Lemma ustar_roundtrip_witness :
  exists name, strip_antisocial_prefixes (chars "../../etc/passwd") = Ok name /\ safe_name name.
Proof.
  destruct (ustar_roundtrip (chars "../../etc/passwd") USTAR_REGULAR 1000) as (name & E & Hs & _);
    [vm_compute; repeat constructor; discriminate|left; reflexivity|unfold is_s32; lia|]. exists name. split; [exact E|exact Hs].
Defined.

(** Whatever the 512 bytes are, ustar_parse_header returns: an error, the end of the archive for zeros, or a safe name with
    the type of a file or directory and a size that an int holds. *)
Theorem ustar_parse_safe header :
  exists p, ustar_parse_header header = Ok p /\
    match p with
    | Bad _ => True
    | Entry None type size => type = USTAR_EOF /\ size = 0 /\ is_all_zeros header = true
    | Entry (Some name) type size => safe_name name /\ (type = USTAR_REGULAR \/ type = USTAR_DIRECTORY) /\ 0 <= size <= INT_MAX
    end.
Proof.
  unfold ustar_parse_header. destruct (is_all_zeros header) eqn:Ez; [by eexists|]. cbv zeta. set (h := header_of header).
  destruct (strip_Ok (c_string (h_name h))) as (name & -> & Hs & _). cbn [mbind res_bind].
  destruct (negb (bool_decide (h_magic h = _))); [by eexists|]. destruct (negb (bool_decide (h_version h = _))); [by eexists|].
  destruct (parse_octal_field (h_chksum h)) as [ck|]; [|by eexists]. destruct (negb (ck =? _)); [by eexists|].
  destruct (negb (bool_decide (last _ = _)) || _); [by eexists|].
  destruct (bool_decide_reflect (h_typeflag h = [USTAR_REGULAR])) as [->|_]; cbn [negb andb].
  - destruct (parse_octal_field (h_size h)) as [n|] eqn:En; [|by eexists]. destruct (Z.ltb_spec INT_MAX n); [by eexists|].
    eexists. split; [done|]. split; [done|]. split; [by left|]. apply parse_octal_range in En. unfold INT_MAX in *. rewrite s32_small by (unfold is_s32; lia). lia.
  - destruct (bool_decide_reflect (h_typeflag h = [USTAR_DIRECTORY])) as [->|_]; cbn [negb]; [|by eexists].
    eexists. split; [done|]. split; [done|]. split; [by right|]. done.
Qed.
