(* ===== verification/Block.v ===== *)
(** Block devices and partitions: devices/block.c, devices/partition.c, and the
    assignment of devices to roles in threads/init.c.

    A pointer to a struct block is the position of the device in all_blocks, to
    which devices are only ever added, at the end.  A driver is a disk, of which
    the sectors are known, or a partition of another device.  The outcomes of
    malloc are given; the messages are not represented. *)

From stdpp Require Import base list numbers gmap strings.
From Stdlib Require Import ZArith Lia.
From Stdlib Require String.
From S2P Require Import Prelude CString Stdio.
Import String.StringSyntax.
Open Scope Z_scope.

(** ** State *)

Definition BLOCK_KERNEL : Z := 0.
Definition BLOCK_FILESYS : Z := 1.
Definition BLOCK_SCRATCH : Z := 2.
Definition BLOCK_SWAP : Z := 3.
Definition BLOCK_ROLE_CNT : Z := 4.
Definition BLOCK_RAW : Z := 4.
Definition BLOCK_FOREIGN : Z := 5.
Definition BLOCK_CNT : Z := 6.
Definition SECTOR_SIZE : Z := 512.

Record partition := MkPartition { p_block : nat; p_start : Z }.

(** struct block_operations with its aux. *)
Inductive driver := Disk (d : nat) | Part (p : partition).

Record block := MkBlock { b_name : list Z; b_type : Z; b_size : Z; b_ops : driver; read_cnt : Z; write_cnt : Z }.

Record blocks := MkBlocks {
  all_blocks : list block;
  block_by_role : list (option nat);
  disks : list (list (list Z));
  outcomes : list bool          (* of malloc *)
}.

#[local] Abbreviation B := (stM blocks).

Definition with_all (s : blocks) (l : list block) : blocks := MkBlocks l (block_by_role s) (disks s) (outcomes s).
Definition with_roles (s : blocks) (l : list (option nat)) : blocks := MkBlocks (all_blocks s) l (disks s) (outcomes s).
Definition with_disks (s : blocks) (l : list (list (list Z))) : blocks := MkBlocks (all_blocks s) (block_by_role s) l (outcomes s).

Definition malloc_block : B bool := fun s =>
  match outcomes s with
  | [] => Ok (true, s)
  | b :: l => Ok (b, MkBlocks (all_blocks s) (block_by_role s) (disks s) l)
  end.

(** Dereferences a pointer to a struct block. *)
Definition get_block (b : nat) : B block := fun s => match all_blocks s !! b with Some x => Ok (x, s) | None => Err EFault end.

(** ** devices/block.c *)

Definition block_type_names : list (list Z) := map chars ["kernel"; "filesys"; "scratch"; "swap"; "raw"; "foreign"]%string.

Definition block_type_name (type : Z) : res (list Z) :=
  _ ← ASSERT (type <? BLOCK_CNT);
  of_option EFault (block_type_names !! Z.to_nat type).

Definition block_get_role (role : Z) : B (option nat) := fun s =>
  if role <? BLOCK_ROLE_CNT then match block_by_role s !! Z.to_nat role with Some o => Ok (o, s) | None => Err EFault end
  else Err EAssert.

Definition block_set_role (role : Z) (b : option nat) : B unit :=
  assertM (role <? BLOCK_ROLE_CNT);;
  modify (fun s => with_roles s (<[Z.to_nat role := b]> (block_by_role s))).

(** list_elem_to_block: null at the end of the list. *)
Definition list_elem_to_block (b : nat) : B (option nat) := fun s => Ok (if bool_decide (b < length (all_blocks s))%nat then Some b else None, s).

Definition block_first : B (option nat) := list_elem_to_block 0.
Definition block_next (b : nat) : B (option nat) := list_elem_to_block (S b).

Fixpoint find_name (name : list Z) (i : nat) (l : list block) : option nat :=
  match l with [] => None | b :: l => if bool_decide (name = b_name b) then Some i else find_name name (S i) l end.

Definition block_get_by_name (name : list Z) : B (option nat) := fun s => Ok (find_name name 0 (all_blocks s), s).

Definition block_size (b : nat) : B Z := x ← get_block b; mret (b_size x).
Definition block_name (b : nat) : B (list Z) := x ← get_block b; mret (b_name x).
Definition block_type (b : nat) : B Z := x ← get_block b; mret (b_type x).

Definition check_sector (b : nat) (sector : Z) : B unit :=
  x ← get_block b;
  if b_size x <=? sector then raise EPanic else mret tt.

(** Counts an access. *)
Definition count_read (b : nat) : B unit := modify (fun s => with_all s
  (alter (fun x => MkBlock (b_name x) (b_type x) (b_size x) (b_ops x) (u64 (read_cnt x + 1)) (write_cnt x)) b (all_blocks s))).
Definition count_write (b : nat) : B unit := modify (fun s => with_all s
  (alter (fun x => MkBlock (b_name x) (b_type x) (b_size x) (b_ops x) (read_cnt x) (u64 (write_cnt x + 1))) b (all_blocks s))).

Definition disk_read (d : nat) (sector : Z) : B (list Z) := fun s =>
  match disks s !! d ≫= (.!! Z.to_nat sector) with Some x => Ok (x, s) | None => Err EFault end.

Definition disk_write (d : nat) (sector : Z) (buffer : list Z) : B unit := fun s =>
  match disks s !! d ≫= (.!! Z.to_nat sector) with
  | Some _ => Ok (tt, with_disks s (alter (fun x => <[Z.to_nat sector := buffer]> x) d (disks s)))
  | None => Err EFault
  end.

(** block_read and partition_read; a partition is registered after its device,
    so the recursion goes down in all_blocks. *)
Fixpoint block_read_loop (fuel : nat) (b : nat) (sector : Z) : B (list Z) :=
  match fuel with
  | O => raise EFuel
  | S fuel =>
      check_sector b sector;;
      x ← get_block b;
      r ← match b_ops x with
          | Disk d => disk_read d sector
          | Part p => block_read_loop fuel (p_block p) (u32 (p_start p + sector))
          end;
      count_read b;;
      mret r
  end.

Definition block_read (b : nat) (sector : Z) : B (list Z) := block_read_loop (S b) b sector.

Fixpoint block_write_loop (fuel : nat) (b : nat) (sector : Z) (buffer : list Z) : B unit :=
  match fuel with
  | O => raise EFuel
  | S fuel =>
      check_sector b sector;;
      x ← get_block b;
      assertM (negb (b_type x =? BLOCK_FOREIGN));;
      match b_ops x with
      | Disk d => disk_write d sector buffer
      | Part p => block_write_loop fuel (p_block p) (u32 (p_start p + sector)) buffer
      end;;
      count_write b
  end.

Definition block_write (b : nat) (sector : Z) (buffer : list Z) : B unit := block_write_loop (S b) b sector buffer.

Definition block_register (name : list Z) (type size : Z) (ops : driver) : B nat :=
  ok ← malloc_block;
  if negb ok then raise EPanic
  else fun s => Ok (length (all_blocks s), with_all s (all_blocks s ++ [MkBlock (take 15 name) type size ops 0 0])).

(** The loop of block_print_stats: which devices it prints. *)
Fixpoint stats_loop (n : nat) (i : Z) : B (list nat) :=
  match n with
  | O => mret []
  | S n =>
      o ← (fun s => match block_by_role s !! Z.to_nat i with Some o => Ok (o, s) | None => Err EFault end);
      match o with
      | Some b => x ← get_block b; lift (block_type_name (b_type x));; l ← stats_loop n (i + 1); mret (b :: l)
      | None => stats_loop n (i + 1)
      end
  end.

Definition block_print_stats : B (list nat) := stats_loop (Z.to_nat BLOCK_CNT) 0.

(** ** devices/partition.c *)

Record partition_table_entry := MkEntry { e_type : Z; e_offset : Z; e_size : Z }.

Definition le_word (b : list Z) : Z := foldr (fun x acc => x + 256 * acc) 0 b.
Definition bytes_at (sector : list Z) (ofs len : nat) : list Z := take len (drop ofs sector).

Definition table_entry (pt : list Z) (i : nat) : partition_table_entry :=
  let e := bytes_at pt (446 + 16 * i) 16 in
  MkEntry (le_word (bytes_at e 4 1)) (le_word (bytes_at e 8 4)) (le_word (bytes_at e 12 4)).

Definition signature (pt : list Z) : Z := le_word (bytes_at pt 510 2).

Definition found_partition (b : nat) (part_type start size part_nr : Z) : B unit :=
  n ← block_size b;
  if n <=? start then mret tt
  else if (u32 (start + size) <? start) || (n <? u32 (start + size)) then mret tt
  else
    let type := if part_type =? 0x20 then BLOCK_KERNEL else if part_type =? 0x21 then BLOCK_FILESYS
                else if part_type =? 0x22 then BLOCK_SCRATCH else if part_type =? 0x23 then BLOCK_SWAP else BLOCK_FOREIGN in
    ok ← malloc_block;
    if negb ok then raise EPanic
    else
      bn ← block_name b;
      '(name, _) ← lift (vsnprintf (literal bn) 16 (chars "%s%d") [1; u32 part_nr]);
      block_register (removelast name) type size (Part (MkPartition b start));;
      mret tt.

(** The names of partition types that the array holds. *)
Definition type_names : list (Z * list Z) :=
  [(0x00, chars "Empty"); (0x01, chars "FAT12"); (0x02, chars "XENIX root"); (0x03, chars "XENIX usr"); (0x04, chars "FAT16 <32M");
   (0x05, chars "Extended"); (0x06, chars "FAT16"); (0x07, chars "HPFS/NTFS"); (0x08, chars "AIX"); (0x09, chars "AIX bootable");
   (0x0a, chars "OS/2 Boot Manager"); (0x0b, chars "W95 FAT32"); (0x0c, chars "W95 FAT32 (LBA)"); (0x0e, chars "W95 FAT16 (LBA)");
   (0x0f, chars "W95 Ext'd (LBA)"); (0x10, chars "OPUS"); (0x11, chars "Hidden FAT12"); (0x12, chars "Compaq diagnostics");
   (0x14, chars "Hidden FAT16 <32M"); (0x16, chars "Hidden FAT16"); (0x17, chars "Hidden HPFS/NTFS"); (0x18, chars "AST SmartSleep");
   (0x1b, chars "Hidden W95 FAT32"); (0x1c, chars "Hidden W95 FAT32 (LBA)"); (0x1e, chars "Hidden W95 FAT16 (LBA)");
   (0x20, chars "Pintos OS kernel"); (0x21, chars "Pintos file system"); (0x22, chars "Pintos scratch"); (0x23, chars "Pintos swap");
   (0x24, chars "NEC DOS"); (0x39, chars "Plan 9"); (0x3c, chars "PartitionMagic recovery"); (0x40, chars "Venix 80286");
   (0x41, chars "PPC PReP Boot"); (0x42, chars "SFS"); (0x4d, chars "QNX4.x"); (0x4e, chars "QNX4.x 2nd part");
   (0x4f, chars "QNX4.x 3rd part"); (0x50, chars "OnTrack DM"); (0x51, chars "OnTrack DM6 Aux1"); (0x52, chars "CP/M");
   (0x53, chars "OnTrack DM6 Aux3"); (0x54, chars "OnTrackDM6"); (0x55, chars "EZ-Drive"); (0x56, chars "Golden Bow");
   (0x5c, chars "Priam Edisk"); (0x61, chars "SpeedStor"); (0x63, chars "GNU HURD or SysV"); (0x64, chars "Novell Netware 286");
   (0x65, chars "Novell Netware 386"); (0x70, chars "DiskSecure Multi-Boot"); (0x75, chars "PC/IX"); (0x80, chars "Old Minix");
   (0x81, chars "Minix / old Linux"); (0x82, chars "Linux swap / Solaris"); (0x83, chars "Linux"); (0x84, chars "OS/2 hidden C: drive");
   (0x85, chars "Linux extended"); (0x86, chars "NTFS volume set"); (0x87, chars "NTFS volume set"); (0x88, chars "Linux plaintext");
   (0x8e, chars "Linux LVM"); (0x93, chars "Amoeba"); (0x94, chars "Amoeba BBT"); (0x9f, chars "BSD/OS");
   (0xa0, chars "IBM Thinkpad hibernation"); (0xa5, chars "FreeBSD"); (0xa6, chars "OpenBSD"); (0xa7, chars "NeXTSTEP");
   (0xa8, chars "Darwin UFS"); (0xa9, chars "NetBSD"); (0xab, chars "Darwin boot"); (0xb7, chars "BSDI fs"); (0xb8, chars "BSDI swap");
   (0xbb, chars "Boot Wizard hidden"); (0xbe, chars "Solaris boot"); (0xbf, chars "Solaris"); (0xc1, chars "DRDOS/sec (FAT-12)");
   (0xc4, chars "DRDOS/sec (FAT-16 < 32M)"); (0xc6, chars "DRDOS/sec (FAT-16)"); (0xc7, chars "Syrinx"); (0xda, chars "Non-FS data");
   (0xdb, chars "CP/M / CTOS / ..."); (0xde, chars "Dell Utility"); (0xdf, chars "BootIt"); (0xe1, chars "DOS access");
   (0xe3, chars "DOS R/O"); (0xe4, chars "SpeedStor"); (0xeb, chars "BeOS fs"); (0xee, chars "EFI GPT"); (0xef, chars "EFI (FAT-12/16/32)");
   (0xf0, chars "Linux/PA-RISC boot"); (0xf1, chars "SpeedStor"); (0xf4, chars "SpeedStor"); (0xf2, chars "DOS secondary");
   (0xfd, chars "Linux raid autodetect"); (0xfe, chars "LANstep"); (0xff, chars "BBT")].

Definition partition_type_name (type : Z) : list Z :=
  match list_find (fun p => p.1 = type) type_names with Some (_, (_, name)) => name | None => chars "Unknown" end.

Definition is_extended (type : Z) : bool := (type =? 0x05) || (type =? 0x0f) || (type =? 0x85) || (type =? 0xc5).

(** The loop over the entries of a table, and the reading of a table; returns
    the new value of part_nr. *)
Section Tables.
Variable recurse : Z -> Z -> Z -> B Z.       (* read_partition_table of the same device *)

Fixpoint entries_loop (n i : nat) (b : nat) (pt : list Z) (sector primary_extended_sector part_nr : Z) : B Z :=
  match n with
  | O => mret part_nr
  | S n =>
      let e := table_entry pt i in
      part_nr ← (if (e_size e =? 0) || (e_type e =? 0) then mret part_nr
                 else if is_extended (e_type e) then
                   if sector =? 0 then recurse (e_offset e) (e_offset e) part_nr
                   else recurse (u32 (e_offset e + primary_extended_sector)) primary_extended_sector part_nr
                 else
                   let part_nr := s32 (part_nr + 1) in
                   found_partition b (e_type e) (u32 (e_offset e + sector)) (e_size e) part_nr;;
                   mret part_nr);
      entries_loop n (S i) b pt sector primary_extended_sector part_nr
  end.
End Tables.

Fixpoint read_partition_table (fuel : nat) (b : nat) (sector primary_extended_sector part_nr : Z) : B Z :=
  match fuel with
  | O => raise EFuel
  | S fuel =>
      n ← block_size b;
      if n <=? sector then mret part_nr
      else
        ok ← malloc_block;
        if negb ok then raise EPanic
        else
          pt ← block_read b 0;
          if negb (signature pt =? 0xaa55) then mret part_nr
          else entries_loop (read_partition_table fuel b) 4 0 b pt sector primary_extended_sector part_nr
  end.

Definition partition_scan (fuel : nat) (b : nat) : B Z := read_partition_table fuel b 0 0 0.

(** ** threads/init.c *)

(** The first device of the type, from device [b] on. *)
Fixpoint locate_loop (n : nat) (role : Z) (b : option nat) : B (option nat) :=
  match n, b with
  | _, None => mret None
  | O, Some _ => raise EFuel
  | S n, Some i => t ← block_type i; if t =? role then mret (Some i) else b ← block_next i; locate_loop n role b
  end.

Definition locate_block_device (role : Z) (name : option (list Z)) : B unit :=
  b ← match name with
      | Some name => b ← block_get_by_name name; match b with Some i => mret (Some i) | None => raise EPanic end
      | None => n ← (fun s => Ok (length (all_blocks s), s)); b ← block_first; locate_loop (S n) role b
      end;
  match b with
  | Some i => lift (block_type_name role);; block_set_role role (Some i)
  | None => mret tt
  end.
