(* ===== verification/BlockSpec.v ===== *)
(** Block devices and partitions (Block.v): a partition is a window on its
    device, and what a scan of a partition table finds. *)

From stdpp Require Import base list numbers gmap strings.
From Stdlib Require Import ZArith Lia.
From Stdlib Require String.
From S2P Require Import Prelude CString Stdio StdioSpec Block.
Import String.StringSyntax.
Open Scope Z_scope.

(** ** The registry *)

(** What does not change once a device is registered. *)
Definition same_device (x y : block) : Prop :=
  b_name x = b_name y /\ b_type x = b_type y /\ b_size x = b_size y /\ b_ops x = b_ops y.

#[export] Instance same_device_equiv : Equivalence same_device.
Proof.
  split; [by intros x; repeat split|intros x y (? & ? & ? & ?); by repeat split|].
  intros x y z (? & ? & ? & ?) (? & ? & ? & ?). repeat split; congruence.
Qed.

(** States that differ in the statistics only. *)
Definition same_devices (s s' : blocks) : Prop := Forall2 same_device (all_blocks s) (all_blocks s') /\ block_by_role s = block_by_role s' /\ outcomes s = outcomes s'.

#[export] Instance same_devices_equiv : Equivalence same_devices.
Proof.
  split.
  - intros s. by split.
  - intros s t (H & ? & ?). by split; [symmetry|].
  - intros s t u (H & ? & ?) (H' & ? & ?). split; [by etrans|split; congruence].
Qed.

Definition device_ok (s : blocks) (i : nat) (x : block) : Prop :=
  0 <= b_size x < 2 ^ 32 /\ Forall (fun c => 0 < c < 256) (b_name x) /\
  match b_ops x with
  | Disk d => exists l, disks s !! d = Some l /\ Z.of_nat (length l) = b_size x
  | Part p => (p_block p < i)%nat /\ 0 <= p_start p /\ exists y, all_blocks s !! p_block p = Some y /\ p_start p + b_size x <= b_size y
  end.

Definition blocks_wf (s : blocks) : Prop :=
  length (block_by_role s) = 4%nat /\ forall i x, all_blocks s !! i = Some x -> device_ok s i x.

(** Where a sector of a device is: on which disk, and where on it. *)
Fixpoint resolve (fuel : nat) (s : blocks) (b : nat) (sector : Z) : option (nat * Z) :=
  match fuel with
  | O => None
  | S fuel =>
      match all_blocks s !! b with
      | Some x => match b_ops x with Disk d => Some (d, sector) | Part p => resolve fuel s (p_block p) (p_start p + sector) end
      | None => None
      end
  end.

Definition place (s : blocks) (b : nat) (sector : Z) : option (nat * Z) := resolve (S b) s b sector.

(** What the disks hold there. *)
Definition contents (s : blocks) (at_ : nat * Z) : option (list Z) := disks s !! at_.1 ≫= (.!! Z.to_nat at_.2).

Definition holds (s : blocks) (b : nat) (sector : Z) : Prop := exists x, all_blocks s !! b = Some x /\ 0 <= sector < b_size x.

(** No device on the way is foreign. *)
Fixpoint writable (fuel : nat) (s : blocks) (b : nat) : bool :=
  match fuel with
  | O => false
  | S fuel =>
      match all_blocks s !! b with
      | Some x => negb (b_type x =? BLOCK_FOREIGN) && match b_ops x with Disk _ => true | Part p => writable fuel s (p_block p) end
      | None => false
      end
  end.

Lemma same_lookup s s' b x : same_devices s s' -> all_blocks s !! b = Some x -> exists x', all_blocks s' !! b = Some x' /\ same_device x x'.
Proof. intros (H & _) Hx. by eapply Forall2_lookup_l. Qed.

Lemma same_device_ok s s' i x x' : same_devices s s' -> (forall d, length <$> disks s' !! d = length <$> disks s !! d) -> same_device x x' -> device_ok s i x -> device_ok s' i x'.
Proof.
  intros Hs Hd (En & Et & Ez & Eo) (Hz & Hn & H). split; [by rewrite <- Ez|]. split; [by rewrite <- En|]. rewrite <- Eo. destruct (b_ops x) as [d|p].
  - destruct H as (l & Hl & Hlen). specialize (Hd d). rewrite Hl in Hd. destruct (disks s' !! d) as [l'|]; [|done]. exists l'. split; [done|].
    injection Hd as Hd. lia.
  - destruct H as (? & ? & y & Hy & Hle). split; [done|]. split; [done|]. destruct (same_lookup s s' _ y Hs Hy) as (y' & Hy' & _ & _ & Ey & _).
    exists y'. split; [done|]. lia.
Qed.

Lemma same_wf s s' : same_devices s s' -> (forall d, length <$> disks s' !! d = length <$> disks s !! d) -> blocks_wf s -> blocks_wf s'.
Proof.
  intros Hs Hd (H4 & H). split; [destruct Hs as (_ & <- & _); done|]. intros i x' Hx'.
  destruct (same_lookup s' s i x' (symmetry Hs) Hx') as (x & Hx & Hxx). eapply same_device_ok; [exact Hs|exact Hd| |by apply H]. by symmetry.
Qed.

Lemma same_resolve s s' : same_devices s s' -> forall fuel b sec, resolve fuel s' b sec = resolve fuel s b sec.
Proof.
  intros Hs. induction fuel as [|fuel IH]; intros b sec; [done|]. cbn. destruct (all_blocks s !! b) as [x|] eqn:Hx.
  - destruct (same_lookup s s' b x Hs Hx) as (x' & -> & _ & _ & _ & <-). by destruct (b_ops x).
  - destruct (all_blocks s' !! b) as [x'|] eqn:Hx'; [|done]. destruct (same_lookup s' s b x' (symmetry Hs) Hx') as (? & ? & _). congruence.
Qed.

(** ** Reading and writing *)

Lemma same_alter s f b : (forall x, same_device x (f x)) -> same_devices s (with_all s (alter f b (all_blocks s))).
Proof.
  intros Hf. split; [|done]. cbn. apply Forall2_same_length_lookup_2; [by rewrite length_alter|]. intros i x y Hx Hy.
  rewrite list_lookup_alter in Hy. case_decide; subst; rewrite Hx in Hy; cbn in Hy; simplify_eq; [apply Hf|done].
Qed.

Lemma block_read_loop_Ok fuel : forall s b sec x, blocks_wf s -> (b < fuel)%nat -> all_blocks s !! b = Some x -> 0 <= sec < b_size x ->
  exists at_ data s', resolve fuel s b sec = Some at_ /\ contents s at_ = Some data /\ 0 <= at_.2 /\
    block_read_loop fuel b sec s = Ok (data, s') /\ same_devices s s' /\ disks s' = disks s.
Proof.
  induction fuel as [|fuel IH]; intros s b sec x W Hb Hx Hsec; [lia|]. destruct (proj2 W b x Hx) as (Hz & _ & Hops).
  cbn [block_read_loop resolve]. rewrite Hx.
  assert (Hck : check_sector b sec s = Ok (tt, s)).
  { unfold check_sector. erewrite stbind_step by (unfold get_block; by rewrite Hx). by rewrite (proj2 (Z.leb_gt _ _)) by lia. }
  erewrite stbind_step by exact Hck. erewrite stbind_step by (unfold get_block; by rewrite Hx).
  destruct (b_ops x) as [d|p].
  - destruct Hops as (l & Hl & Hlen). destruct (lookup_lt_is_Some_2 l (Z.to_nat sec)) as (data & Hdata); [lia|].
    exists (d, sec), data. eexists. split; [done|]. split; [unfold contents; cbn; by rewrite Hl|]. split; [cbn; lia|].
    erewrite stbind_step by (unfold disk_read; by rewrite Hl; cbn; rewrite Hdata).
    split; [reflexivity|]. split; [|done]. apply same_alter. done.
  - destruct Hops as (Hlt & Hst & y & Hy & Hle). destruct (proj2 W _ y Hy) as (Hyz & _).
    destruct (IH s (p_block p) (p_start p + sec) y W) as (at_ & data & s' & E1 & E2 & E3 & E4 & E5 & E6); [lia|done|lia|].
    exists at_, data. eexists. split; [done|]. split; [done|]. split; [done|].
    rewrite (u32_small (p_start p + sec)) by (unfold is_u32; lia). erewrite stbind_step by exact E4. split; [reflexivity|].
    split; [|done]. etrans; [exact E5|]. by apply same_alter.
Qed.

Definition store_at (s : blocks) (at_ : nat * Z) (buffer : list Z) : list (list (list Z)) :=
  alter (fun l => <[Z.to_nat at_.2 := buffer]> l) at_.1 (disks s).

Lemma block_write_loop_Ok fuel : forall s b sec x buffer, blocks_wf s -> (b < fuel)%nat -> all_blocks s !! b = Some x -> 0 <= sec < b_size x ->
  exists at_, resolve fuel s b sec = Some at_ /\
    if writable fuel s b then exists s', block_write_loop fuel b sec buffer s = Ok (tt, s') /\ same_devices s s' /\ disks s' = store_at s at_ buffer
    else block_write_loop fuel b sec buffer s = Err EAssert.
Proof.
  induction fuel as [|fuel IH]; intros s b sec x buffer W Hb Hx Hsec; [lia|]. destruct (proj2 W b x Hx) as (Hz & _ & Hops).
  cbn [block_write_loop resolve writable]. rewrite Hx.
  assert (Hck : check_sector b sec s = Ok (tt, s)).
  { unfold check_sector. erewrite stbind_step by (unfold get_block; by rewrite Hx). by rewrite (proj2 (Z.leb_gt _ _)) by lia. }
  erewrite stbind_step by exact Hck. erewrite stbind_step by (unfold get_block; by rewrite Hx).
  destruct (b_ops x) as [d|p].
  - destruct Hops as (l & Hl & Hlen). destruct (lookup_lt_is_Some_2 l (Z.to_nat sec)) as (data & Hdata); [lia|].
    exists (d, sec). split; [done|]. destruct (negb (b_type x =? BLOCK_FOREIGN)); cbn [andb]; [|by apply stbind_err].
    eexists. erewrite stbind_step by (by apply assertM_true).
    erewrite stbind_step by (unfold disk_write; by rewrite Hl; cbn; rewrite Hdata). split; [reflexivity|]. split; [|done].
    etrans; [|by apply same_alter]. by split.
  - destruct Hops as (Hlt & Hst & y & Hy & Hle). destruct (proj2 W _ y Hy) as (Hyz & _).
    destruct (IH s (p_block p) (p_start p + sec) y buffer W) as (at_ & E1 & E2); [lia|done|lia|].
    exists at_. split; [done|]. destruct (negb (b_type x =? BLOCK_FOREIGN)); cbn [andb]; [|by apply stbind_err].
    erewrite stbind_step by (by apply assertM_true). rewrite (u32_small (p_start p + sec)) by (unfold is_u32; lia).
    destruct (writable fuel s (p_block p)).
    + destruct E2 as (s' & E2 & E3 & E4). eexists. erewrite stbind_step by exact E2. split; [reflexivity|]. split; [|done].
      etrans; [exact E3|]. by apply same_alter.
    + by apply stbind_err.
Qed.

Lemma store_lengths s at_ buffer d : length <$> store_at s at_ buffer !! d = length <$> disks s !! d.
Proof.
  unfold store_at. rewrite list_lookup_alter. case_decide as Hd; [|done]. subst d. destruct (disks s !! at_.1); cbn; [by rewrite length_insert|done].
Qed.

Lemma contents_store s s' at_ at' buffer data : contents s at_ = Some data -> 0 <= at_.2 -> 0 <= at'.2 -> disks s' = store_at s at_ buffer ->
  contents s' at' = if decide (at' = at_) then Some buffer else contents s at'.
Proof.
  intros Hc H0 H0' Hd. unfold contents in *. rewrite Hd. unfold store_at. rewrite list_lookup_alter. destruct at_ as [d k], at' as [d' k']. cbn in *.
  destruct (decide (d = d')) as [<-|Hne]; [|rewrite decide_False by congruence; done].
  destruct (disks s !! d) as [l|]; [|done]. cbn in *. destruct (decide (k = k')) as [<-|Hk].
  - rewrite decide_True by done. apply list_lookup_insert_eq. by apply lookup_lt_Some in Hc.
  - rewrite decide_False by congruence. apply list_lookup_insert_ne. intros E. apply Hk. lia.
Qed.

Lemma read_Ok s b sec : blocks_wf s -> holds s b sec ->
  exists at_ data s', place s b sec = Some at_ /\ contents s at_ = Some data /\ 0 <= at_.2 /\ block_read b sec s = Ok (data, s') /\ same_devices s s' /\ disks s' = disks s.
Proof. intros W (x & Hx & Hsec). by apply (block_read_loop_Ok (S b) s b sec x); auto. Qed.

Lemma write_Ok s b sec buffer : blocks_wf s -> holds s b sec -> writable (S b) s b = true ->
  exists s', block_write b sec buffer s = Ok (tt, s') /\ blocks_wf s' /\ same_devices s s' /\
    forall at_, place s b sec = Some at_ -> disks s' = store_at s at_ buffer.
Proof.
  intros W (x & Hx & Hsec) Hw. destruct (block_write_loop_Ok (S b) s b sec x buffer W ltac:(lia) Hx Hsec) as (at_ & E1 & E2). rewrite Hw in E2.
  destruct E2 as (s' & E2 & E3 & E4). exists s'. split; [done|]. split; [|split; [done|]].
  - eapply same_wf; [exact E3| |done]. intros d. rewrite E4. apply store_lengths.
  - intros at' E. unfold place in E. by rewrite E1 in E; injection E as <-.
Qed.

Lemma holds_same s s' b sec : same_devices s s' -> holds s b sec -> holds s' b sec.
Proof. intros Hs (x & Hx & Hsec). destruct (same_lookup s s' b x Hs Hx) as (x' & Hx' & _ & _ & Ez & _). exists x'. split; [done|]. by rewrite <- Ez. Qed.

(** A read after a write. *)
Lemma write_read s b sec buffer b' sec' :
  blocks_wf s -> holds s b sec -> writable (S b) s b = true -> holds s b' sec' ->
  exists s' s'' data, block_write b sec buffer s = Ok (tt, s') /\ block_read b' sec' s' = Ok (data, s'') /\
    ((place s b' sec' = place s b sec /\ data = buffer) \/
     (place s b' sec' <> place s b sec /\ exists t, block_read b' sec' s = Ok (data, t))).
Proof.
  intros W Hh Hw Hh'. destruct (write_Ok s b sec buffer W Hh Hw) as (s' & E & W' & Hs & Hd).
  destruct (read_Ok s b sec W Hh) as (at_ & old & _t & Ea & Eo & H0 & _). destruct (read_Ok s b' sec' W Hh') as (at' & old' & t & Ea' & Eo' & H0' & Et & _).
  destruct (read_Ok s' b' sec' W' (holds_same _ _ _ _ Hs Hh')) as (at2 & data & s'' & Ea2 & Ed & _ & Er & _).
  unfold place in Ea2. rewrite (same_resolve s s' Hs) in Ea2. unfold place in Ea'. simplify_eq.
  rewrite (contents_store s s' at_ at' buffer old Eo H0 H0' (Hd at_ Ea)) in Ed. exists s', s'', data. split; [done|]. split; [done|].
  unfold place in *. rewrite Ea, Ea'. destruct (decide (at' = at_)) as [->|Hne]; [left; by simplify_eq|right]. split; [congruence|].
  simplify_eq. by eexists.
Qed.

(** ** Partition tables *)

(** What %d prints. *)
Definition decimal (v : Z) : list Z := match printf ∅ (chars "%d") [u32 v] [] with Ok t => t | Err _ => [] end.

Lemma vprintf_decimal m fuel t v : is_s32 v -> vprintf_loop putc m (S (S fuel)) (chars "%d") [u32 v] t = Ok (t ++ decimal v).
Proof.
  intros Hv. set (c := MkConv 0 0 (-1) INT).
  set (x := format_integer putc (u64 (if s32 (u32 v) <? 0 then s64 (- s32 (u32 v)) else s32 (u32 v))) true (s32 (u32 v) <? 0) base_d c []).
  assert (R : forall m1 f1, vprintf_loop putc m1 (S (S f1)) (chars "%d") [u32 v] [] = x).
  { intros m1 f1. change (vprintf_loop putc m1 (S (S f1)) (chars "%d") [u32 v] []) with ('(aux, args) ← (aux ← x; Ok (aux, [])); vprintf_loop putc m1 (S f1) [] args aux).
    by destruct x. }
  rewrite <- (app_nil_r t) at 1. rewrite (vprintf_loop_hom putc putc (fun y => t ++ y)) by (intros; unfold putc; by rewrite app_assoc).
  destruct (printf_d ∅ v Hv) as (ds & _ & _ & E). unfold decimal. rewrite E. unfold printf, __vprintf in E.
  change (length (chars "%d") + 32)%nat with (S (S 32)) in E. rewrite R in E |- *. by rewrite E.
Qed.

Lemma part_name m p bn nr : is_str m p bn -> Z.of_nat (length bn) < 2 ^ 30 -> is_s32 nr -> is_u32 p ->
  exists n, vsnprintf m 16 (chars "%s%d") [p; u32 nr] = Ok (take 15 (bn ++ decimal nr) ++ [0], n).
Proof.
  intros Hs Hl Hn Hp. assert (E : printf m (chars "%s%d") [p; u32 nr] [] = Ok (bn ++ decimal nr)).
  { unfold printf, __vprintf.
    change (vprintf_loop putc m (length (chars "%s%d") + 32) (chars "%s%d") [p; u32 nr] [])
      with ('(aux, args) ← (l ← string_arg m (u32 p) (-1); Ok (format_string putc l (MkConv 0 0 (-1) INT) [], [u32 nr])); vprintf_loop putc m (S (S 33)) (chars "%d") args aux).
    rewrite (u32_small p) by done. rewrite (string_arg_str m p bn) by (done || lia). cbn [mbind res_bind]. rewrite vprintf_decimal by done.
    do 2 f_equal. unfold format_string. cbn [width flags]. rewrite (proj2 (Z.ltb_ge _ 0)) by lia. cbn [andb]. apply output_all_putc. }
  destruct (printf_d ∅ nr Hn) as (ds & _ & Hds & E'). assert (Hd : (length (decimal nr) <= 30)%nat).
  { unfold decimal. rewrite E', length_app. repeat case_match; cbn [length]; rewrite ?length_fmap; lia. }
  pose proof (vsnprintf_text m 16 _ _ _ E) as Ev. rewrite length_app in Ev. specialize (Ev ltac:(lia) ltac:(lia)). eexists. exact Ev.
Qed.

(** The device for a partition that was found. *)
Definition part_block (b : nat) (bn : list Z) (e : partition_table_entry) (start nr : Z) : block :=
  MkBlock (take 15 (bn ++ decimal nr))
    (if e_type e =? 0x20 then BLOCK_KERNEL else if e_type e =? 0x21 then BLOCK_FILESYS else if e_type e =? 0x22 then BLOCK_SCRATCH
     else if e_type e =? 0x23 then BLOCK_SWAP else BLOCK_FOREIGN)
    (e_size e) (Part (MkPartition b start)) 0 0.

Lemma decimal_chars v : is_s32 v -> Forall (fun c => 0 < c < 256) (decimal v).
Proof.
  intros Hv. destruct (printf_d ∅ v Hv) as (ds & Hn & _ & E). unfold decimal. rewrite E. apply Forall_app_2; [destruct (v <? 0); repeat constructor; lia|].
  destruct (v =? 0); [repeat constructor; lia|]. destruct (dec_value_numeral _ ds Hn) as [Hd _]. apply (Forall_impl _ _ _ Hd).
  intros c Hc. cbn in Hc. unfold CStdlib.isdigit in Hc. apply andb_true_iff in Hc. rewrite !Z.leb_le in Hc. lia.
Qed.

Lemma found_partition_Ok s b x e start nr :
  blocks_wf s -> outcomes s = [] -> all_blocks s !! b = Some x -> is_u32 start -> is_u32 (e_size e) -> is_s32 nr -> (length (b_name x) <= 15)%nat ->
  found_partition b (e_type e) start (e_size e) nr s =
    Ok (tt, if (start <? b_size x) && (start + e_size e <=? b_size x) then with_all s (all_blocks s ++ [part_block b (b_name x) e start nr]) else s).
Proof.
  intros W Hm Hx Hst Hsz Hnr Hl15. destruct (proj2 W b x Hx) as (Hz & Hname & _). unfold is_u32 in *. unfold found_partition.
  erewrite stbind_step by (unfold block_size; by erewrite stbind_step by (unfold get_block; by rewrite Hx)).
  destruct (Z.ltb_spec start (b_size x)) as [Hlt|Hge]; cbn [andb]; [|by rewrite (proj2 (Z.leb_le _ _)) by lia].
  rewrite (proj2 (Z.leb_gt _ _)) by lia.
  destruct (Z.leb_spec (start + e_size e) (b_size x)) as [Hle|Hgt].
  - rewrite u32_small by (unfold is_u32; lia). rewrite (proj2 (Z.ltb_ge _ _)), (proj2 (Z.ltb_ge _ _)) by lia. cbn [orb].
    erewrite stbind_step by (unfold malloc_block; by rewrite Hm). cbn [negb].
    erewrite stbind_step by (unfold block_name; by erewrite stbind_step by (unfold get_block; by rewrite Hx)).
    destruct (part_name (literal (b_name x)) 1 (b_name x) nr) as (k & E); [by apply literal_str|lia|done|unfold is_u32; lia|].
    erewrite stbind_step by (unfold lift; by rewrite E). cbv beta iota.
    erewrite stbind_step; [reflexivity|]. unfold block_register. erewrite stbind_step by (unfold malloc_block; by rewrite Hm). cbn [negb].
    rewrite removelast_last, take_take. reflexivity.
  - replace ((u32 (start + e_size e) <? start) || (b_size x <? u32 (start + e_size e))) with true; [done|]. symmetry. apply orb_true_iff.
    rewrite !Z.ltb_lt. unfold u32. destruct (Z.ltb_spec (start + e_size e) (2 ^ 32)); [right; rewrite Z.mod_small; lia|left].
    replace ((start + e_size e) mod 2 ^ 32) with (start + e_size e - 2 ^ 32) by (apply (Z.mod_unique _ _ 1); lia). lia.
Qed.

Lemma wf_add s b x e start nr :
  blocks_wf s -> all_blocks s !! b = Some x -> 0 <= start -> is_u32 (e_size e) -> is_s32 nr -> start + e_size e <= b_size x ->
  blocks_wf (with_all s (all_blocks s ++ [part_block b (b_name x) e start nr])).
Proof.
  intros (H4 & W) Hx Hst Hsz Hnr Hle. pose proof (lookup_lt_Some _ _ _ Hx) as Hlt.
  assert (Hold : forall i y, all_blocks s !! i = Some y -> (all_blocks s ++ [part_block b (b_name x) e start nr]) !! i = Some y).
  { intros i y Hy. by apply lookup_app_l_Some. }
  split; [done|]. cbn. intros i y [Hy|(Hge & Hy)]%lookup_app_Some.
  - destruct (W i y Hy) as (? & ? & H). split; [done|]. split; [done|]. destruct (b_ops y) as [d|p]; [done|].
    destruct H as (? & ? & z & Hz & ?). split; [done|]. split; [done|]. exists z. split; [by apply Hold|done].
  - apply list_lookup_singleton_Some in Hy as [Hi <-]. split; [done|]. split.
    + cbn. apply Forall_take, Forall_app_2; [by destruct (W b x Hx) as (_ & ? & _)|by apply decimal_chars].
    + cbn. split; [lia|]. split; [done|]. exists x. split; [by apply Hold|done].
Qed.

(** What the loop over a table without extended partitions registers. *)
Definition entry_empty (e : partition_table_entry) : bool := (e_size e =? 0) || (e_type e =? 0).

Fixpoint found_blocks (b : nat) (x : block) (nr : Z) (es : list partition_table_entry) : Z * list block :=
  match es with
  | [] => (nr, [])
  | e :: es =>
      if entry_empty e then found_blocks b x nr es
      else
        let '(k, l) := found_blocks b x (nr + 1) es in
        (k, if (e_offset e <? b_size x) && (e_offset e + e_size e <=? b_size x) then part_block b (b_name x) e (e_offset e) (nr + 1) :: l else l)
  end.

Definition entry_ok (e : partition_table_entry) : Prop := is_u32 (e_offset e) /\ is_u32 (e_size e) /\ is_extended (e_type e) = false.

Lemma entries_loop_Ok rec b x pt n : forall i s nr,
  let r := found_blocks b x nr (table_entry pt <$> seq i n) in
  blocks_wf s -> outcomes s = [] -> all_blocks s !! b = Some x -> (length (b_name x) <= 15)%nat -> 0 <= nr < 2 ^ 30 ->
  (n <= 4)%nat -> (forall j, (i <= j < i + n)%nat -> entry_ok (table_entry pt j)) -> nr + Z.of_nat n < 2 ^ 30 ->
  entries_loop rec n i b pt 0 0 nr s = Ok (r.1, with_all s (all_blocks s ++ r.2)) /\ blocks_wf (with_all s (all_blocks s ++ r.2)).
Proof.
  induction n as [|n IH]; intros i s nr r W Hm Hx Hl Hnr Hn He Hb; unfold r; cbn [seq fmap list_fmap found_blocks entries_loop].
  - cbn. rewrite app_nil_r. destruct s; done.
  - destruct (He i ltac:(lia)) as (Ho & Hz & Hext). set (e := table_entry pt i) in *. fold (entry_empty e).
    destruct (entry_empty e) eqn:Hee.
    + erewrite stbind_step by reflexivity. apply IH; auto; [lia|intros j Hj; apply He; lia|lia].
    + rewrite Hext. rewrite Z.add_0_r. rewrite (u32_small (e_offset e)) by done. rewrite s32_small by (unfold is_s32; lia). unfold is_u32 in Ho.
      erewrite stbind_step by (erewrite stbind_step by (apply (found_partition_Ok s b x e); auto; unfold is_s32; lia); reflexivity).
      set (fits := (e_offset e <? b_size x) && (e_offset e + e_size e <=? b_size x)).
      set (s1 := if fits then with_all s (all_blocks s ++ [part_block b (b_name x) e (e_offset e) (nr + 1)]) else s).
      assert (W1 : blocks_wf s1).
      { unfold s1. destruct fits eqn:Ef; [|done]. apply andb_true_iff in Ef as [_ Ef]. apply Z.leb_le in Ef. apply wf_add; auto; [lia|unfold is_s32; lia]. }
      destruct (IH (S i) s1 (nr + 1)) as (E & W2); auto; try lia.
      { unfold s1. by destruct fits. }
      { unfold s1. destruct fits; [|done]. cbn. by apply lookup_app_l_Some. }
      { intros j Hj. apply He. lia. }
      rewrite E. destruct (found_blocks b x (nr + 1) _) as [k l]. cbn in *. unfold s1 in *. destruct fits; cbn in *; [rewrite <- app_assoc in *|]; done.
Qed.

(** The first entry that is not empty, among [n] from entry [i] on. *)
Fixpoint first_entry (pt : list Z) (i n : nat) : option partition_table_entry :=
  match n with O => None | S n => if entry_empty (table_entry pt i) then first_entry pt (S i) n else Some (table_entry pt i) end.

Lemma entries_loop_extended rec b pt sector primary nr e n : forall i s,
  first_entry pt i n = Some e -> is_extended (e_type e) = true ->
  (if sector =? 0 then rec (e_offset e) (e_offset e) nr else rec (u32 (e_offset e + primary)) primary nr) s = Err EFuel ->
  entries_loop rec n i b pt sector primary nr s = Err EFuel.
Proof.
  induction n as [|n IH]; intros i s Hf Hext Hrec; [done|]. cbn [first_entry entries_loop] in *. unfold entry_empty in Hf.
  destruct (_ || _) eqn:He; [erewrite stbind_step by reflexivity; by apply IH|]. injection Hf as ->. rewrite Hext. by apply stbind_err.
Qed.

Lemma read_table_diverges s b x pt e sector primary nr fuel :
  blocks_wf s -> outcomes s = [] -> all_blocks s !! b = Some x -> 0 <= sector < b_size x -> (forall s', same_devices s s' -> disks s' = disks s ->
    (if sector =? 0 then read_partition_table fuel b (e_offset e) (e_offset e) nr else read_partition_table fuel b (u32 (e_offset e + primary)) primary nr) s' = Err EFuel) ->
  (exists t, block_read b 0 s = Ok (pt, t)) -> signature pt = 0xaa55 -> first_entry pt 0 4 = Some e -> is_extended (e_type e) = true ->
  read_partition_table (S fuel) b sector primary nr s = Err EFuel.
Proof.
  intros W Hm Hx Hs Hrec (t & Et) Hsig Hf Hext. cbn [read_partition_table].
  erewrite stbind_step by (unfold block_size; by erewrite stbind_step by (unfold get_block; by rewrite Hx)).
  rewrite (proj2 (Z.leb_gt _ _)) by lia. erewrite stbind_step by (unfold malloc_block; by rewrite Hm). cbn [negb]. erewrite stbind_step by exact Et.
  rewrite Hsig. cbn [Z.eqb Pos.eqb negb]. apply (entries_loop_extended _ _ _ _ _ _ e); auto.
  destruct (read_Ok s b 0 W) as (at_ & data & t' & _ & _ & _ & Et' & Hsame & Hd); [exists x; split; [done|lia]|]. rewrite Et in Et'. injection Et' as <- <-. auto.
Qed.

(** ** Properties *)

(** Devices are memory: a sector of a device or partition reads as what the disk under it holds there; a write, if no device
    on the way is foreign, changes what every device reads at that place of the disk and nothing else, and otherwise fails an
    assertion.  No access within a device's size goes past the end of the device below it. *)
Theorem block_access_correct s b sec buffer b' sec' :
  blocks_wf s -> holds s b sec -> holds s b' sec' ->
  (exists at_ data s', place s b sec = Some at_ /\ contents s at_ = Some data /\ block_read b sec s = Ok (data, s') /\ blocks_wf s' /\ disks s' = disks s) /\
  if writable (S b) s b then
    exists s' s'' data, block_write b sec buffer s = Ok (tt, s') /\ blocks_wf s' /\ block_read b' sec' s' = Ok (data, s'') /\
      ((place s b' sec' = place s b sec /\ data = buffer) \/
       (place s b' sec' <> place s b sec /\ exists t, block_read b' sec' s = Ok (data, t)))
  else block_write b sec buffer s = Err EAssert.
Proof.
  intros W Hh Hh'. split.
  - destruct (read_Ok s b sec W Hh) as (at_ & data & s' & ? & ? & _ & ? & Hs & Hd). exists at_, data, s'. do 3 (split; [done|]). split; [|done].
    eapply same_wf; [exact Hs| |done]. intros d. by rewrite Hd.
  - destruct (writable (S b) s b) eqn:Hw.
    + destruct (write_read s b sec buffer b' sec' W Hh Hw Hh') as (s' & s'' & data & E & Er & H).
      destruct (write_Ok s b sec buffer W Hh Hw) as (s2 & E2 & W2 & _). rewrite E in E2. injection E2 as <-. exists s', s'', data. by do 3 (split; [done|]).
    + destruct Hh as (x & Hx & Hsec). destruct (block_write_loop_Ok (S b) s b sec x buffer W ltac:(lia) Hx Hsec) as (at_ & _ & E). by rewrite Hw in E.
Qed.

(** A state with one disk of eight sectors and two partitions on it. *)
Definition demo_table : list Z :=
  replicate 446 0 ++ ([0; 0; 0; 0; 0x20; 0; 0; 0] ++ [1; 0; 0; 0] ++ [2; 0; 0; 0]) ++ ([0; 0; 0; 0; 0x21; 0; 0; 0] ++ [3; 0; 0; 0] ++ [4; 0; 0; 0]) ++
  replicate 32 0 ++ [0x55; 0xaa].

Definition demo_disk : blocks :=
  MkBlocks [MkBlock (chars "hda") BLOCK_RAW 8 (Disk 0) 0 0] [None; None; None; None] [demo_table :: replicate 7 (replicate 512 7)] [].

Definition demo_parts : blocks := match partition_scan 1 0 demo_disk with Ok (_, s) => s | Err _ => demo_disk end.

Lemma demo_disk_wf : blocks_wf demo_disk.
Proof.
  split; [done|]. intros [|i] x Hx; [|done]. injection Hx as <-. split; [cbn; lia|]. split; [repeat constructor; lia|]. eexists. split; reflexivity.
Qed.

Lemma demo_parts_wf : blocks_wf demo_parts.
Proof.
  assert (E : all_blocks demo_parts = [MkBlock (chars "hda") BLOCK_RAW 8 (Disk 0) 1 0; MkBlock (chars "hda1") BLOCK_KERNEL 2 (Part (MkPartition 0 1)) 0 0;
    MkBlock (chars "hda2") BLOCK_FILESYS 4 (Part (MkPartition 0 3)) 0 0]) by (vm_compute; reflexivity).
  split; [vm_compute; reflexivity|]. unfold device_ok. rewrite E.
  intros [|[|[|i]]] x Hx; try done; injection Hx as <-; cbn [b_size b_name b_ops]; (split; [lia|]; split; [vm_compute; repeat constructor; done|]).
  - exists (demo_table :: replicate 7 (replicate 512 7)). split; vm_compute; reflexivity.
  - cbn. split; [lia|]. split; [lia|]. eexists. split; [reflexivity|]. cbn. lia.
  - cbn. split; [lia|]. split; [lia|]. eexists. split; [reflexivity|]. cbn. lia.
Qed.

Lemma block_access_correct_witness :
  exists at_ data s', place demo_parts 1 1 = Some at_ /\ contents demo_parts at_ = Some data /\ block_read 1 1 demo_parts = Ok (data, s') /\ disks s' = disks demo_parts.
Proof.
  destruct (block_access_correct demo_parts 1 1 [] 2 0 demo_parts_wf) as ((at_ & data & s' & E1 & E2 & E3 & _ & E4) & _).
  - eexists. split; [vm_compute; reflexivity|]. vm_compute. split; congruence.
  - eexists. split; [vm_compute; reflexivity|]. vm_compute. split; congruence.
  - exists at_, data, s'. split; [exact E1|]. split; [exact E2|]. split; [exact E3|exact E4].
Defined.

Lemma le_word_range l : Forall is_u8 l -> 0 <= le_word l < 256 ^ Z.of_nat (length l).
Proof.
  induction 1 as [|x l Hx Hl IH]; [cbn; lia|]. unfold le_word in *. cbn [foldr length]. rewrite Nat2Z.inj_succ, Z.pow_succ_r by lia. unfold is_u8 in Hx. lia.
Qed.

Lemma field_range pt i ofs : Forall is_u8 pt -> is_u32 (le_word (bytes_at (bytes_at pt i 16) ofs 4)).
Proof.
  intros H. unfold bytes_at. set (l := take 4 _). assert (Hl : Forall is_u8 l) by (unfold l; auto using Forall_take, Forall_drop).
  pose proof (le_word_range l Hl) as Hr. assert (length l <= 4)%nat by (unfold l; rewrite length_take; lia). unfold is_u32.
  assert (256 ^ Z.of_nat (length l) <= 256 ^ 4) by (apply Z.pow_le_mono_r; lia). lia.
Qed.

(** C26. A scan of a table of primary partitions: for a device with a name of at most 15 characters and of at least one sector, of
    which the first carries the signature and no extended entry, if all allocations succeed (the code panics if one does not),
    partition_scan registers after the devices known so far exactly the entries that are not empty and lie
    within the device, in their order and with the numbers of their positions among those that are not empty; the devices known
    before are unchanged, and the registry stays well formed. *)
Theorem partition_scan_correct s b x pt t fuel :
  blocks_wf s -> outcomes s = [] -> all_blocks s !! b = Some x -> (length (b_name x) <= 15)%nat -> 0 < b_size x ->
  block_read b 0 s = Ok (pt, t) -> Forall is_u8 pt -> signature pt = 0xaa55 ->
  (forall i, (i < 4)%nat -> is_extended (e_type (table_entry pt i)) = false) ->
  let r := found_blocks b x 0 (table_entry pt <$> [0; 1; 2; 3]%nat) in
  exists s', partition_scan (S fuel) b s = Ok (r.1, s') /\ blocks_wf s' /\ disks s' = disks s /\ Forall2 same_device (all_blocks s ++ r.2) (all_blocks s').
Proof.
  intros W Hm Hx Hl Hpos Et Hu Hsig Hne r.
  destruct (read_Ok s b 0 W) as (at_ & data & t' & _ & _ & _ & Et' & Hs & Hd); [exists x; split; [done|lia]|]. rewrite Et in Et'. injection Et' as <- <-.
  destruct (same_lookup s t b x Hs Hx) as (x' & Hx' & Hxx). assert (Wt : blocks_wf t) by (eapply same_wf; [exact Hs| |done]; intros d; by rewrite Hd).
  assert (Er : found_blocks b x' 0 (table_entry pt <$> seq 0 4) = r).
  { unfold r. destruct Hxx as (En & _ & Ez & _). cbn [seq fmap list_fmap]. cbn [found_blocks]. by rewrite <- En, <- Ez. }
  assert (He : forall j, (0 <= j < 0 + 4)%nat -> entry_ok (table_entry pt j)).
  { intros j Hj. split; [by apply field_range|]. split; [by apply field_range|]. apply Hne. lia. }
  destruct (entries_loop_Ok (read_partition_table fuel b) b x' pt 4 0 t 0 Wt) as (E & W'); auto; try lia.
  { destruct Hs as (_ & _ & <-). done. }
  { by destruct Hxx as (<- & _). }
  rewrite Er in E, W'. exists (with_all t (all_blocks t ++ r.2)). split; [|split; [done|split; [done|]]].
  - unfold partition_scan. cbn [read_partition_table]. erewrite stbind_step by (unfold block_size; by erewrite stbind_step by (unfold get_block; by rewrite Hx)).
    rewrite (proj2 (Z.leb_gt _ _)) by lia. erewrite stbind_step by (unfold malloc_block; by rewrite Hm). cbn [negb]. erewrite stbind_step by exact Et.
    rewrite Hsig. exact E.
  - cbn. apply Forall2_app; [apply Hs|done].
Qed.

(** The table of an extended partition is never read: read_partition_table reads sector 0 again whatever sector it is given,
    so that with an extended partition in the first half of the device the recursion does not end (the stack overflows). *)
Theorem extended_partition_diverges s b x pt t e fuel :
  blocks_wf s -> outcomes s = [] -> all_blocks s !! b = Some x -> block_read b 0 s = Ok (pt, t) -> signature pt = 0xaa55 ->
  first_entry pt 0 4 = Some e -> is_extended (e_type e) = true -> 0 < e_offset e -> 2 * e_offset e < b_size x ->
  partition_scan fuel b s = Err EFuel.
Proof.
  intros W Hm Hx Et Hsig Hf Hext Hpos Hhalf. pose proof (proj2 W b x Hx) as (Hz & _).
  assert (Hread : forall s', same_devices s s' -> disks s' = disks s -> blocks_wf s' /\ outcomes s' = [] /\ (exists t, block_read b 0 s' = Ok (pt, t)) /\
    exists x', all_blocks s' !! b = Some x' /\ b_size x' = b_size x).
  { intros s' Hs Hd. assert (W' : blocks_wf s') by (eapply same_wf; [exact Hs| |done]; intros d; by rewrite Hd).
    split; [done|]. split; [by destruct Hs as (_ & _ & <-)|]. destruct (same_lookup s s' b x Hs Hx) as (x' & Hx' & _ & _ & Ez & _). split; [|exists x'; by split].
    destruct (read_Ok s b 0 W) as (at_ & data & ? & Ea & Ec & _ & Er & _); [exists x; split; [done|lia]|]. rewrite Et in Er. injection Er as <- <-.
    destruct (read_Ok s' b 0 W') as (at' & data' & t' & Ea' & Ec' & _ & Er' & _); [exists x'; split; [done|lia]|].
    unfold place in *. rewrite (same_resolve s s' Hs) in Ea'. unfold contents in *. rewrite Hd in Ec'. simplify_eq. eauto. }
  assert (Hgo : forall f s' sector, same_devices s s' -> disks s' = disks s -> 0 < sector -> sector < b_size x ->
    read_partition_table f b sector (e_offset e) 0 s' = Err EFuel).
  { induction f as [|f IH]; intros s' sector Hs Hd Hp Hlt; [done|]. destruct (Hread s' Hs Hd) as (W' & Hm' & Ht' & x' & Hx' & Ez).
    apply (read_table_diverges s' b x' pt e); auto; [lia|]. intros s2 Hs2 Hd2. rewrite (proj2 (Z.eqb_neq sector 0)) by lia.
    rewrite u32_small by (unfold is_u32; lia). apply IH; [by etrans|congruence|lia|lia]. }
  unfold partition_scan. destruct fuel as [|f]; [done|]. apply (read_table_diverges s b x pt e); auto; [lia| |eauto].
  intros s2 Hs2 Hd2. cbn [Z.eqb]. apply Hgo; auto; lia.
Qed.

(** block_print_stats reads past the end of block_by_role, whatever is registered. *)
Theorem print_stats_out_of_bounds s l s' : length (block_by_role s) = 4%nat -> block_print_stats s <> Ok (l, s').
Proof.
  intros H4. unfold block_print_stats. destruct (block_by_role s) as [|r0 [|r1 [|r2 [|r3 [|]]]]] eqn:Er; try done.
  assert (Hlast : forall n s0, block_by_role s0 = [r0; r1; r2; r3] -> forall l s', stats_loop (S n) 4 s0 <> Ok (l, s')).
  { intros n s0 E l0 s0'. cbn [stats_loop]. unfold mbind, stM_bind. by rewrite E. }
  assert (Hstep : forall n i s0, block_by_role s0 = [r0; r1; r2; r3] -> (forall l s', stats_loop n (i + 1) s0 <> Ok (l, s')) -> forall l s', stats_loop (S n) i s0 <> Ok (l, s')).
  { intros n i s0 E Hn l0 s0'. cbn [stats_loop]. intros (o & s1 & E1 & E2)%stbind_Ok. assert (s1 = s0) as -> by (destruct (block_by_role s0 !! Z.to_nat i); by simplify_eq).
    destruct o as [q|]; [|by eapply Hn]. apply stbind_Ok in E2 as (x & s2 & E2 & E3). unfold get_block in E2. destruct (all_blocks s0 !! q); [|done]. injection E2 as _ <-.
    apply stbind_Ok in E3 as (? & s3 & E3 & E4). unfold lift in E3. destruct (block_type_name _); [|done]. injection E3 as _ <-. apply stbind_Ok in E4 as (? & ? & E4 & _). by eapply Hn. }
  intros E. revert E. change (Z.to_nat BLOCK_CNT) with 6%nat.
  apply Hstep; [done|]. apply Hstep; [done|]. apply Hstep; [done|]. apply Hstep; [done|]. by apply Hlast.
Qed.

Lemma resolve_fuel s : blocks_wf s -> forall f f' b sec, (b < f)%nat -> (b < f')%nat -> resolve f s b sec = resolve f' s b sec.
Proof.
  intros (_ & W). induction f as [|f IH]; intros [|f'] b sec Hf Hf'; try lia. cbn. destruct (all_blocks s !! b) as [x|] eqn:Hx; [|done].
  destruct (W b x Hx) as (_ & _ & H). destruct (b_ops x) as [d|p]; [done|]. apply IH; lia.
Qed.

Lemma resolve_inj s : forall f b sec sec' a, resolve f s b sec = Some a -> resolve f s b sec' = Some a -> sec = sec'.
Proof.
  induction f as [|f IH]; intros b sec sec' a H H'; [done|]. cbn in *. destruct (all_blocks s !! b) as [x|]; [|done].
  destruct (b_ops x) as [d|p]; [congruence|]. specialize (IH _ _ _ _ H H'). lia.
Qed.

(** C25. Partitions of one device whose ranges do not overlap are isolated: a write to a sector of one of them leaves what every
    sector of the other reads as it was. *)
Theorem partitions_isolated s b x p sec buffer b' x' p' sec' :
  blocks_wf s -> all_blocks s !! b = Some x -> b_ops x = Part p -> all_blocks s !! b' = Some x' -> b_ops x' = Part p' -> p_block p = p_block p' ->
  p_start p + b_size x <= p_start p' \/ p_start p' + b_size x' <= p_start p ->
  writable (S b) s b = true -> 0 <= sec < b_size x -> 0 <= sec' < b_size x' ->
  exists s' s'' data t, block_write b sec buffer s = Ok (tt, s') /\ block_read b' sec' s' = Ok (data, s'') /\ block_read b' sec' s = Ok (data, t).
Proof.
  intros W Hx Hp Hx' Hp' Epp Hdis Hw Hs Hs'.
  destruct (write_read s b sec buffer b' sec' W) as (s' & s'' & data & E & Er & H); [by exists x|done|by exists x'|].
  exists s', s'', data. destruct H as [(Epl & _)|(_ & t & Et)]; [|by exists t]. exfalso.
  destruct (read_Ok s b sec W) as (at_ & _d & _t & Ea & _); [by exists x|]. rewrite Ea in Epl.
  destruct (proj2 W b x Hx) as (_ & _ & Hops). destruct (proj2 W b' x' Hx') as (_ & _ & Hops'). rewrite Hp in Hops. rewrite Hp' in Hops'.
  unfold place in *. cbn [resolve] in *. rewrite Hx, Hp in Ea. rewrite Hx', Hp', <- Epp in Epl. rewrite (resolve_fuel s W b' b) in Epl by lia.
  pose proof (resolve_inj s b _ _ _ _ Ea Epl). lia.
Qed.

Lemma partitions_isolated_witness :
  exists s' s'' data t, block_write 1 0 [1] demo_parts = Ok (tt, s') /\ block_read 2 3 s' = Ok (data, s'') /\ block_read 2 3 demo_parts = Ok (data, t).
Proof.
  apply (partitions_isolated demo_parts 1 (MkBlock (chars "hda1") BLOCK_KERNEL 2 (Part (MkPartition 0 1)) 0 0) (MkPartition 0 1) 0 [1]
    2 (MkBlock (chars "hda2") BLOCK_FILESYS 4 (Part (MkPartition 0 3)) 0 0) (MkPartition 0 3) 3 demo_parts_wf);
    solve [vm_compute; reflexivity|cbn; lia].
Defined.

Lemma partition_scan_correct_witness :
  exists s', partition_scan 1 0 demo_disk = Ok (2, s') /\ blocks_wf s'.
Proof.
  destruct (partition_scan_correct demo_disk 0 (MkBlock (chars "hda") BLOCK_RAW 8 (Disk 0) 0 0) demo_table
    (match block_read 0 0 demo_disk with Ok (_, t) => t | Err _ => demo_disk end) 0 demo_disk_wf) as (s' & E & W & _);
    [reflexivity|reflexivity|vm_compute; repeat constructor|reflexivity|vm_compute; reflexivity| |vm_compute; reflexivity| |exists s'; split; [exact E|exact W]].
  - vm_compute. repeat constructor; discriminate.
  - intros [|[|[|[|i]]]] Hi; [reflexivity..|lia].
Defined.

(** The same disk with an extended partition at sector 2. *)
Definition demo_extended : blocks :=
  MkBlocks [MkBlock (chars "hda") BLOCK_RAW 8 (Disk 0) 0 0] [None; None; None; None]
    [(replicate 446 0 ++ ([0; 0; 0; 0; 0x05; 0; 0; 0] ++ [2; 0; 0; 0] ++ [6; 0; 0; 0]) ++ replicate 48 0 ++ [0x55; 0xaa]) :: replicate 7 (replicate 512 7)] [].

Lemma extended_partition_diverges_witness : partition_scan 100 0 demo_extended = Err EFuel.
Proof.
  apply (extended_partition_diverges demo_extended 0 (MkBlock (chars "hda") BLOCK_RAW 8 (Disk 0) 0 0)
    (default [] (disks demo_extended !! 0%nat ≫= (.!! 0%nat))) (match block_read 0 0 demo_extended with Ok (_, t) => t | Err _ => demo_extended end) (MkEntry 5 2 6) 100);
    [|vm_compute; reflexivity..].
  split; [done|]. intros [|i] x Hx; [|done]. injection Hx as <-. split; [cbn; lia|]. split; [repeat constructor; lia|]. eexists. split; reflexivity.
Defined.
