(* ===== verification/FsDevice.v ===== *)
(** The device of the file system: the sectors that Inode.v reads and writes are
    those of a device of the block layer (Block.v), a disk or a partition. *)

From stdpp Require Import base list numbers gmap.
From Stdlib Require Import ZArith Lia.
From S2P Require Import Prelude Inode Block BlockSpec.
Open Scope Z_scope.

(** Device [b] holds the sectors [L], and neither it nor a device that it is a
    partition of is foreign. *)
Record backs (t : blocks) (b : nat) (L : list (list Z)) : Prop := {
  k_wf : blocks_wf t;
  k_writable : writable (S b) t b = true;
  k_size : exists x, all_blocks t !! b = Some x /\ b_size x = Z.of_nat (length L);
  k_sector k sec : L !! k = Some sec -> exists at_, place t b (Z.of_nat k) = Some at_ /\ BlockSpec.contents t at_ = Some sec
}.

Lemma backs_holds t b L sec : backs t b L -> 0 <= sec < Z.of_nat (length L) -> BlockSpec.holds t b sec.
Proof. intros [_ _ (x & Hx & Hs) _] Hr. exists x. split; [done|lia]. Qed.

Lemma same_writable s s' : same_devices s s' -> forall fuel b, writable fuel s' b = writable fuel s b.
Proof.
  intros Hs. induction fuel as [|fuel IH]; intros b; [done|]. cbn. destruct (all_blocks s !! b) as [x|] eqn:Hx.
  - destruct (same_lookup s s' b x Hs Hx) as (x' & -> & _ & <- & _ & <-). destruct (b_ops x); [done|]. by rewrite IH.
  - destruct (all_blocks s' !! b) as [x'|] eqn:Hx'; [|done]. destruct (same_lookup s' s b x' (symmetry Hs) Hx') as (? & ? & _). congruence.
Qed.

(** The statistics do not matter. *)
Lemma backs_same t t' b L L' : same_devices t t' -> blocks_wf t' -> length L' = length L ->
  (forall k sec, L' !! k = Some sec -> exists at_, place t b (Z.of_nat k) = Some at_ /\ BlockSpec.contents t' at_ = Some sec) -> backs t b L -> backs t' b L'.
Proof.
  intros Hs Hw Hl Hk [K1 K2 (x & Hx & Hz) K4]. constructor; [done|by rewrite (same_writable t t' Hs)| |].
  - destruct (same_lookup t t' b x Hs Hx) as (x' & Hx' & _ & _ & Ez & _). exists x'. split; [done|]. congruence.
  - intros k sec Hsec. unfold place. rewrite (same_resolve t t' Hs). by apply Hk.
Qed.

Lemma beyond t b L sec : backs t b L -> Z.of_nat (length L) <= sec -> check_sector b sec t = Err EPanic.
Proof. intros [_ _ (x & Hx & Hs) _] Hr. unfold check_sector. erewrite stbind_step by (unfold get_block; by rewrite Hx). by rewrite (proj2 (Z.leb_le _ _)) by lia. Qed.

(** block_read on the sectors is block_read of the block layer. *)
Theorem device_read t b s sec : backs t b (dev s) -> 0 <= sec ->
  match Inode.block_read sec s with
  | Ok (bs, s') => s' = s /\ exists t', Block.block_read b sec t = Ok (bs, t') /\ backs t' b (dev s)
  | Err e => Block.block_read b sec t = Err e
  end.
Proof.
  intros HB H0. unfold Inode.block_read, Inode.block_size. destruct (Z.leb_spec (Z.of_nat (length (dev s))) sec) as [Hge|Hlt].
  { unfold Block.block_read. cbn [block_read_loop]. apply stbind_err. by eapply beyond. }
  destruct (lookup_lt_is_Some_2 (dev s) (Z.to_nat sec) ltac:(lia)) as [bs Hbs]. rewrite Hbs. split; [done|]. pose proof (k_wf _ _ _ HB) as W.
  destruct (read_Ok t b sec W (backs_holds _ _ _ sec HB ltac:(lia))) as (at_ & data & t' & Ea & Ed & _ & Er & Hs & Hd). destruct (k_sector _ _ _ HB _ _ Hbs) as (at' & Ea' & Ed').
  rewrite Z2Nat.id in Ea' by done. rewrite Ea in Ea'. injection Ea' as <-. rewrite Ed in Ed'. injection Ed' as ->. exists t'. split; [done|].
  apply (backs_same t t' b (dev s)); [done|eapply same_wf; [exact Hs|by intros d; rewrite Hd|done]|done| |done]. intros k x Hx. unfold BlockSpec.contents. rewrite Hd. by apply HB.
Qed.

(** So is block_write. *)
Theorem device_write t b s sec buffer : backs t b (dev s) -> 0 <= sec ->
  match Inode.block_write sec buffer s with
  | Ok (_, s') => exists t', Block.block_write b sec buffer t = Ok (tt, t') /\ backs t' b (dev s')
  | Err e => Block.block_write b sec buffer t = Err e
  end.
Proof.
  intros HB H0. unfold Inode.block_write, Inode.block_size. destruct (Z.leb_spec (Z.of_nat (length (dev s))) sec) as [Hge|Hlt].
  { unfold Block.block_write. cbn [block_write_loop]. apply stbind_err. by eapply beyond. }
  destruct (lookup_lt_is_Some_2 (dev s) (Z.to_nat sec) ltac:(lia)) as [bs Hbs]. pose proof (k_wf _ _ _ HB) as W. pose proof (backs_holds _ _ _ sec HB ltac:(lia)) as Hh.
  destruct (write_Ok t b sec buffer W Hh (k_writable _ _ _ HB)) as (t' & E & W' & Hs & Hd). exists t'. split; [done|]. cbn [dev with_dev].
  destruct (read_Ok t b sec W Hh) as (at_ & old & _t & Ea & Eo & Hz & _). apply (backs_same t t' b (dev s)); [done|done|by rewrite length_insert| |done]. intros k x Hx.
  pose proof (lookup_lt_Some _ _ _ Hx) as Hk. rewrite length_insert in Hk. destruct (read_Ok t b (Z.of_nat k) W (backs_holds _ _ _ (Z.of_nat k) HB ltac:(lia))) as (ak & dk & _u & Eak & Edk & Hzk & _).
  exists ak. split; [done|]. rewrite (contents_store t t' at_ ak buffer old Eo Hz Hzk (Hd at_ Ea)). destruct (decide (k = Z.to_nat sec)) as [->|Hne].
  - rewrite list_lookup_insert_eq in Hx by lia. rewrite Z2Nat.id in Eak by done. rewrite Ea in Eak. injection Eak as <-. by rewrite decide_True.
  - rewrite list_lookup_insert_ne in Hx by done. destruct (k_sector _ _ _ HB _ _ Hx) as (a2 & Ea2 & Ed2). rewrite Eak in Ea2. injection Ea2 as <-. rewrite decide_False; [done|].
    intros ->. apply Hne. unfold place in *. pose proof (resolve_inj t _ _ _ _ _ Ea Eak). lia.
Qed.

(** A foreign device is never written. *)
Theorem foreign_not_written t b sec buffer : blocks_wf t -> BlockSpec.holds t b sec -> writable (S b) t b = false -> Block.block_write b sec buffer t = Err EAssert.
Proof. intros W (x & Hx & Hr) Hw. destruct (block_write_loop_Ok (S b) t b sec x buffer W ltac:(lia) Hx Hr) as (at_ & _ & E2). by rewrite Hw in E2. Qed.

(** A partition of type filesys on a disk, from sector 2 on. *)
Example demo_backs : backs (MkBlocks [MkBlock [104; 100; 97] BLOCK_RAW 6 (Disk 0) 0 0; MkBlock [104; 100; 97; 49] BLOCK_FILESYS 3 (Part (MkPartition 0 2)) 0 0] [None; Some 1%nat; None; None]
  [[[0]; [1]; [2]; [3]; [4]; [5]]] []) 1 [[2]; [3]; [4]].
Proof.
  constructor.
  - split; [done|]. intros i x Hx. destruct i as [|[|i]]; [injection Hx as <-|injection Hx as <-|done]; (split; [cbn; lia|]); (split; [repeat constructor; lia|]); cbn; [by eexists|].
    split; [lia|]. split; [lia|]. eexists. split; [done|]. cbn. lia.
  - done.
  - by eexists.
  - intros k sec Hk. destruct k as [|[|[|k]]]; [injection Hk as <-; eexists; split; [reflexivity|reflexivity]..|done].
Qed.
