(* ===== verification/Intq.v ===== *)
(** Interrupt queues, devices/intq.c: circular buffers shared by kernel threads
    and interrupt handlers.

    The functions run with interrupts off, so what a thread does between the
    points where it blocks is atomic.  A thread that calls intq_getc or
    intq_putc is a process with a program counter; it can block in lock_acquire
    and in wait.  Interrupt handlers call the functions too, and do not block. *)

From stdpp Require Import base list numbers gmap.
From Stdlib Require Import ZArith Lia.
From S2P Require Import Prelude.
Open Scope Z_scope.

(** ** The queue *)

Definition INTQ_BUFSIZE : Z := 64.

(** [lock] is the holder of the lock, [not_full] and [not_empty] the waiting
    threads; [None] is NULL. *)
Record intq := MkIntq { lock : option Z; not_full : option Z; not_empty : option Z; buf : list Z; head : Z; tail : Z }.

(** The buffer is not initialised. *)
Definition intq_init (garbage : list Z) : intq := MkIntq None None None garbage 0 0.

Definition next (pos : Z) : Z := (pos + 1) mod INTQ_BUFSIZE.

Definition intq_empty (q : intq) : bool := head q =? tail q.
Definition intq_full (q : intq) : bool := next (head q) =? tail q.

Definition with_lock (q : intq) (o : option Z) : intq := MkIntq o (not_full q) (not_empty q) (buf q) (head q) (tail q).

(** The member of the queue that [waiter] points to. *)
Inductive waiter := NotFull | NotEmpty.

Definition waiting (q : intq) (w : waiter) : option Z := match w with NotFull => not_full q | NotEmpty => not_empty q end.
Definition set_waiting (q : intq) (w : waiter) (o : option Z) : intq :=
  match w with
  | NotFull => MkIntq (lock q) o (not_empty q) (buf q) (head q) (tail q)
  | NotEmpty => MkIntq (lock q) (not_full q) o (buf q) (head q) (tail q)
  end.

(** wait, up to thread_block. *)
Definition wait (q : intq) (w : waiter) (t : Z) : res intq :=
  _ ← ASSERT (match w with NotEmpty => intq_empty q | NotFull => intq_full q end);
  Ok (set_waiting q w (Some t)).

(** signal: the new queue and the thread that is unblocked, if any. *)
Definition signal (q : intq) (w : waiter) : res (intq * option Z) :=
  _ ← ASSERT (match w with NotEmpty => negb (intq_empty q) | NotFull => negb (intq_full q) end);
  Ok (set_waiting q w None, waiting q w).

(** intq_getc and intq_putc after their loops. *)
Definition take_byte (q : intq) : res (Z * intq * option Z) :=
  byte ← of_option EFault (buf q !! Z.to_nat (tail q));
  '(q, woken) ← signal (MkIntq (lock q) (not_full q) (not_empty q) (buf q) (head q) (next (tail q))) NotFull;
  Ok (byte, q, woken).

Definition add_byte (q : intq) (byte : Z) : res (intq * option Z) :=
  _ ← of_option EFault (buf q !! Z.to_nat (head q));
  signal (MkIntq (lock q) (not_full q) (not_empty q) (<[Z.to_nat (head q) := byte]> (buf q)) (next (head q)) (tail q)) NotEmpty.

(** ** Threads and interrupts *)

Inductive call := Get | Put (byte : Z).

Definition needs (c : call) : waiter := match c with Get => NotEmpty | Put _ => NotFull end.
Definition must_wait (q : intq) (c : call) : bool := match c with Get => intq_empty q | Put _ => intq_full q end.

(** Where a thread is in its call. *)
Inductive pc :=
  | Test (c : call)        (* at the head of the loop *)
  | Locking (c : call)     (* blocked in lock_acquire *)
  | Waiting (c : call)     (* blocked in wait *)
  | Woken (c : call).      (* back from wait, before lock_release *)

Record world := MkWorld { queue : intq; threads : gmap Z pc; sent : list Z; received : list Z }.

(** The thread that signal unblocks goes on after wait. *)
Definition wake (o : option Z) (ts : gmap Z pc) : gmap Z pc :=
  match o with
  | Some t => alter (fun x => match x with Waiting c => Woken c | x => x end) t ts
  | None => ts
  end.

Definition finish (w : world) (q : intq) (c : call) (ts : gmap Z pc) : res world :=
  match c with
  | Get => '(byte, q, o) ← take_byte q; Ok (MkWorld q (wake o ts) (sent w) (received w ++ [byte]))
  | Put byte => '(q, o) ← add_byte q byte; Ok (MkWorld q (wake o ts) (sent w ++ [byte]) (received w))
  end.

(** What can happen: a thread calls a function, a thread runs on, an interrupt
    handler calls a function. *)
Inductive event := Call (t : Z) (c : call) | Run (t : Z) | Interrupt (c : call).

(** A thread at the head of its loop: it finishes, or blocks. *)
Definition attempt (w : world) (t : Z) (c : call) : res (option world) :=
  let q := queue w in
  if must_wait q c then
    match lock q with
    | Some _ => Ok (Some (MkWorld q (<[t := Locking c]> (threads w)) (sent w) (received w)))
    | None => q ← wait (with_lock q (Some t)) (needs c) t; Ok (Some (MkWorld q (<[t := Waiting c]> (threads w)) (sent w) (received w)))
    end
  else Some <$> finish w q c (delete t (threads w)).

(** lock_release. *)
Definition release (w : world) (t : Z) (c : call) : world :=
  MkWorld (with_lock (queue w) None) (<[t := Test c]> (threads w)) (sent w) (received w).

(** [Ok None] if it cannot happen now. *)
Definition step (e : event) (w : world) : res (option world) :=
  let q := queue w in
  match e with
  | Call t c => Ok (match threads w !! t with Some _ => None | None => Some (MkWorld q (<[t := Test c]> (threads w)) (sent w) (received w)) end)
  | Interrupt c =>
      (* "When called from an interrupt handler, Q must not be empty (full)." *)
      if must_wait q c then Ok None else Some <$> finish w q c (threads w)
  | Run t =>
      match threads w !! t with
      | None => Ok None
      | Some (Test c) => attempt w t c
      | Some (Locking c) =>
          match lock q with
          | Some _ => Ok None
          | None => q ← wait (with_lock q (Some t)) (needs c) t; Ok (Some (MkWorld q (<[t := Waiting c]> (threads w)) (sent w) (received w)))
          end
      | Some (Waiting _) => Ok None
      | Some (Woken c) => attempt (release w t c) t c
      end
  end.

Fixpoint run (l : list event) (w : world) : res (option world) :=
  match l with [] => Ok (Some w) | e :: l => r ← step e w; match r with Some w => run l w | None => Ok None end end.

Definition boot (garbage : list Z) : world := MkWorld (intq_init garbage) ∅ [] [].
