(* ===== verification/IntqSpec.v ===== *)
(** Interrupt queues (Intq.v): a bounded first-in first-out queue, for any
    number of threads and interrupts in any order, no lost wake-ups, and exactly
    when the assertion of wait fails. *)

From stdpp Require Import base list numbers gmap.
From Stdlib Require Import ZArith Lia.
From S2P Require Import Prelude Intq.
Open Scope Z_scope.

(** ** The bytes in a queue *)

Record intq_wf (q : intq) : Prop := {
  wf_buf : length (buf q) = 64%nat;
  wf_head : 0 <= head q < 64;
  wf_tail : 0 <= tail q < 64
}.

Definition count (q : intq) : Z := (head q - tail q) mod 64.
Definition byte_at (q : intq) (k : nat) : Z := default 0 (buf q !! Z.to_nat ((tail q + Z.of_nat k) mod 64)).
Definition bytes (q : intq) : list Z := byte_at q <$> seq 0 (Z.to_nat (count q)).

(** Arithmetic of positions on the circle. *)
Ltac circle := unfold next, INTQ_BUFSIZE, count in *; Z.to_euclidean_division_equations; lia.

Lemma count_range q : 0 <= count q < 64.
Proof. apply Z.mod_pos_bound. lia. Qed.

Lemma empty_count q : intq_wf q -> intq_empty q = bool_decide (count q = 0).
Proof.
  intros [_ Hh Ht]. unfold intq_empty. destruct (Z.eqb_spec (head q) (tail q)); symmetry;
    [apply bool_decide_eq_true|apply bool_decide_eq_false]; circle.
Qed.

Lemma full_count q : intq_wf q -> intq_full q = bool_decide (count q = 63).
Proof.
  intros [_ Hh Ht]. unfold intq_full. destruct (Z.eqb_spec (next (head q)) (tail q)); symmetry;
    [apply bool_decide_eq_true|apply bool_decide_eq_false]; circle.
Qed.

Lemma empty_bytes q : intq_wf q -> intq_empty q = bool_decide (bytes q = []).
Proof.
  intros W. rewrite empty_count by done. apply bool_decide_ext. unfold bytes. pose proof (count_range q).
  rewrite <- length_zero_iff_nil, length_fmap, length_seq. lia.
Qed.

Lemma full_bytes q : intq_wf q -> intq_full q = bool_decide (length (bytes q) = 63%nat).
Proof.
  intros W. rewrite full_count by done. apply bool_decide_ext. unfold bytes. pose proof (count_range q).
  rewrite length_fmap, length_seq. lia.
Qed.

Lemma next_range p : 0 <= next p < 64.
Proof. apply Z.mod_pos_bound. done. Qed.

(** ** Adding and taking a byte *)

Lemma take_byte_Ok q : intq_wf q -> intq_empty q = false ->
  exists b q', take_byte q = Ok (b, set_waiting q' NotFull None, not_full q) /\ intq_wf q' /\ bytes q = b :: bytes q' /\ intq_full q' = false /\
    lock q' = lock q /\ not_full q' = not_full q /\ not_empty q' = not_empty q.
Proof.
  intros W He. pose proof W as [Wb Wh Wt]. rewrite empty_count in He by done. apply bool_decide_eq_false in He. pose proof (count_range q) as Hc.
  destruct (lookup_lt_is_Some_2 (buf q) (Z.to_nat (tail q))) as (b & Hb); [lia|].
  set (q' := MkIntq (lock q) (not_full q) (not_empty q) (buf q) (head q) (next (tail q))).
  assert (W' : intq_wf q') by (split; cbn; [done|done|apply next_range]).
  assert (Hc' : count q' = count q - 1).
  { unfold count in *. cbn. clear W' Hb. circle. }
  assert (Hf : intq_full q' = false) by (rewrite full_count by done; apply bool_decide_eq_false; lia).
  exists b, q'. split; [|split; [done|split; [|done]]].
  - unfold take_byte. rewrite Hb. cbn [of_option mbind res_bind]. fold q'. unfold signal. rewrite Hf. reflexivity.
  - unfold bytes. rewrite Hc'. destruct (Z.to_nat (count q)) as [|n] eqn:En; [lia|]. replace (Z.to_nat (count q - 1)) with n by lia.
    cbn [seq fmap list_fmap]. f_equal.
    + unfold byte_at. rewrite Z.add_0_r, Z.mod_small by lia. by rewrite Hb.
    + rewrite <- fmap_S_seq, <- list_fmap_compose. apply list_fmap_ext. intros i k Hk. cbn. unfold byte_at. cbn. do 3 f_equal.
      apply lookup_seq in Hk. circle.
Qed.

Lemma add_byte_Ok q b : intq_wf q -> intq_full q = false ->
  exists q', add_byte q b = Ok (set_waiting q' NotEmpty None, not_empty q) /\ intq_wf q' /\ bytes q' = bytes q ++ [b] /\ intq_empty q' = false /\
    lock q' = lock q /\ not_full q' = not_full q /\ not_empty q' = not_empty q.
Proof.
  intros W Hf. pose proof W as [Wb Wh Wt]. rewrite full_count in Hf by done. apply bool_decide_eq_false in Hf. pose proof (count_range q) as Hc.
  destruct (lookup_lt_is_Some_2 (buf q) (Z.to_nat (head q))) as (b0 & Hb); [lia|].
  set (q' := MkIntq (lock q) (not_full q) (not_empty q) (<[Z.to_nat (head q) := b]> (buf q)) (next (head q)) (tail q)).
  assert (W' : intq_wf q') by (split; cbn; [by rewrite length_insert|apply next_range|done]).
  assert (Hc' : count q' = count q + 1).
  { unfold count in *. cbn. clear W' Hb. circle. }
  assert (He : intq_empty q' = false) by (rewrite empty_count by done; apply bool_decide_eq_false; lia).
  exists q'. split; [|split; [done|split; [|done]]].
  - unfold add_byte. rewrite Hb. cbn [of_option mbind res_bind]. fold q'. unfold signal. rewrite He. reflexivity.
  - unfold bytes. rewrite Hc'. replace (Z.to_nat (count q + 1)) with (Z.to_nat (count q) + 1)%nat by lia. rewrite seq_app, fmap_app. f_equal.
    + apply list_fmap_ext. intros i k Hk. apply lookup_seq in Hk. unfold byte_at. cbn. rewrite list_lookup_insert_ne; [done|].
      intros E. unfold count in *. assert (E' : head q = (tail q + Z.of_nat k) mod 64) by (pose proof (Z.mod_pos_bound (tail q + Z.of_nat k) 64); lia). clear E. circle.
    + cbn. f_equal. unfold byte_at. cbn. replace (Z.to_nat ((tail q + Z.of_nat (Z.to_nat (count q))) mod 64)) with (Z.to_nat (head q)).
      * by rewrite list_lookup_insert_eq by lia.
      * f_equal. unfold count in *. circle.
Qed.

(** ** The invariant of threads, interrupts and the queue *)

Record inv (w : world) : Prop := {
  v_wf : intq_wf (queue w);
  v_fifo : sent w = received w ++ bytes (queue w);
  v_wait : forall t c, threads w !! t = Some (Waiting c) ->
    waiting (queue w) (needs c) = Some t /\ lock (queue w) = Some t /\ must_wait (queue w) c = true;
  v_reg : forall k t, waiting (queue w) k = Some t -> exists c, threads w !! t = Some (Waiting c) /\ needs c = k;
  v_lock : forall t, lock (queue w) = Some t -> exists c, threads w !! t = Some (Waiting c) \/ threads w !! t = Some (Woken c);
  v_woken : forall t c, threads w !! t = Some (Woken c) -> lock (queue w) = Some t
}.

(** The condition that a call makes true. *)
Definition provides (c : call) : waiter := match c with Get => NotFull | Put _ => NotEmpty end.

Lemma must_wait_needs q c c' : needs c = needs c' -> must_wait q c = must_wait q c'.
Proof. by destruct c, c'. Qed.

(** A call that need not wait: no one is registered afterwards. *)
Lemma finish_Ok w c ts : inv w -> must_wait (queue w) c = false ->
  exists q' s r, finish w (queue w) c ts = Ok (MkWorld q' (wake (waiting (queue w) (provides c)) ts) s r) /\
    intq_wf q' /\ s = r ++ bytes q' /\ lock q' = lock (queue w) /\ forall k, waiting q' k = None.
Proof.
  intros I Hm. pose proof (v_wf w I) as W.
  assert (Hnone : waiting (queue w) (needs c) = None).
  { destruct (waiting (queue w) (needs c)) as [t|] eqn:E; [|done]. destruct (v_reg w I _ _ E) as (c' & Ht & Hn).
    destruct (v_wait w I t c' Ht) as (_ & _ & Hw). rewrite (must_wait_needs _ _ _ Hn) in Hw. congruence. }
  destruct c as [|b]; cbn in *.
  - destruct (take_byte_Ok (queue w) W Hm) as (b & q' & E & W' & Hb & Hf & Hl & Hnf & Hne). eexists _, _, _. rewrite E. cbn [mbind res_bind]. split; [reflexivity|].
    split; [by destruct W'|]. split; [rewrite (v_fifo w I), Hb, <- app_assoc; done|]. split; [done|]. intros []; cbn; [done|congruence].
  - destruct (add_byte_Ok (queue w) b W Hm) as (q' & E & W' & Hb & He & Hl & Hnf & Hne). eexists _, _, _. rewrite E. cbn [mbind res_bind]. split; [reflexivity|].
    split; [by destruct W'|]. split; [rewrite (v_fifo w I), <- app_assoc; f_equal; by rewrite <- Hb|]. split; [done|]. intros []; cbn; [congruence|done].
Qed.

Lemma wake_lookup o ts t x : wake o ts !! t = Some x ->
  exists y, ts !! t = Some y /\ (x = y \/ exists c, y = Waiting c /\ x = Woken c /\ o = Some t).
Proof.
  destruct o as [u|]; cbn; [|eauto]. destruct (decide (u = t)) as [->|].
  - rewrite lookup_alter_eq. destruct (ts !! t) as [y|]; [|done]. cbn. intros [= <-]. exists y. split; [done|]. destruct y; eauto 6.
  - rewrite lookup_alter_ne by done. eauto.
Qed.

Lemma wake_other o ts t x : ts !! t = Some x -> (forall c, x <> Waiting c) -> wake o ts !! t = Some x.
Proof.
  intros Ht Hx. destruct o as [u|]; cbn; [|done]. destruct (decide (u = t)) as [->|]; [|by rewrite lookup_alter_ne by done].
  rewrite lookup_alter_eq, Ht. destruct x; naive_solver.
Qed.

Lemma wake_waiting t ts c : ts !! t = Some (Waiting c) -> wake (Some t) ts !! t = Some (Woken c).
Proof. intros Ht. cbn. by rewrite lookup_alter_eq, Ht. Qed.

(** Nobody can wait for what the call needs, and who waits for what it provides is woken. *)
Lemma inv_finish w c ts w' : inv w -> must_wait (queue w) c = false ->
  (forall t x, ts !! t = Some x -> threads w !! t = Some x) -> (forall t x, threads w !! t = Some x -> (exists d, x = Waiting d \/ x = Woken d) -> ts !! t = Some x) ->
  finish w (queue w) c ts = Ok w' -> inv w'.
Proof.
  intros I Hm Hsub Hkeep E. destruct (finish_Ok w c ts I Hm) as (q' & s & r & E' & W' & Hf & Hl & Hn). rewrite E in E'. injection E' as ->.
  assert (Hwait : forall t d, threads w !! t = Some (Waiting d) -> waiting (queue w) (provides c) = Some t).
  { intros t d Ht. destruct (v_wait w I t d Ht) as (Hr & _ & Hw). destruct c, d; cbn in *; congruence. }
  constructor; cbn; [done|done| | | |].
  - intros t d H. destruct (wake_lookup _ _ _ _ H) as (y & Hy & [<-|(? & ? & ? & _)]); [|done]. pose proof (Hwait t d (Hsub _ _ Hy)) as Ho.
    rewrite Ho, (wake_waiting t ts d Hy) in H. done.
  - intros k t. by rewrite Hn.
  - intros t Ht. rewrite Hl in Ht. destruct (v_lock w I t Ht) as (d & [Hd|Hd]).
    + exists d. right. rewrite (Hwait t d Hd). apply wake_waiting, Hkeep; eauto.
    + exists d. right. apply wake_other; [apply Hkeep; eauto|done].
  - intros t d (y & Hy & [<-|(? & -> & [= <-] & _)])%wake_lookup; apply Hsub in Hy; rewrite Hl; [by eapply v_woken|by eapply v_wait].
Qed.

Lemma queue_inv_boot garbage : length garbage = 64%nat -> inv (boot garbage).
Proof.
  intros H. constructor; [constructor; cbn; [done|lia|lia]|done| |by intros []|done|]; intros t c Ht; cbn in Ht; by rewrite lookup_empty in Ht.
Qed.

(** A thread that waits: it has the lock and is registered. *)
Lemma inv_wait w t c q : inv w -> lock (queue w) = None -> (exists d, threads w !! t = Some d /\ (d = Test c \/ d = Locking c)) ->
  wait (with_lock (queue w) (Some t)) (needs c) t = Ok q -> inv (MkWorld q (<[t := Waiting c]> (threads w)) (sent w) (received w)).
Proof.
  intros I Hl (d & Hd & Hdc) E. pose proof (v_wf w I) as [W1 W2 W3].
  assert (Hm : must_wait (queue w) c = true).
  { unfold wait in E. destruct c; cbn in E |- *; unfold intq_empty, intq_full in *; cbn in E; by destruct (_ =? _). }
  assert (q = set_waiting (with_lock (queue w) (Some t)) (needs c) (Some t)) as ->.
  { unfold wait in E. destruct (ASSERT _) as [u|]; [|done]. cbn in E. congruence. }
  clear E. assert (Hno : forall k, waiting (queue w) k = None).
  { intros k. destruct (waiting (queue w) k) as [u|] eqn:Eu; [|done]. destruct (v_reg w I k u Eu) as (c' & Hu & _). destruct (v_wait w I u c' Hu) as (_ & ? & _). congruence. }
  constructor; cbn.
  - destruct c; by split.
  - rewrite (v_fifo w I). by destruct c.
  - intros u e [(<- & [= <-])|(Hne & Hu)]%lookup_insert_Some; [destruct c; done|]. destruct (v_wait w I u e Hu) as (_ & ? & _). congruence.
  - intros k u Hu. assert (u = t /\ k = needs c) as (-> & ->).
    { specialize (Hno k). destruct c, k; cbn in *; try congruence; by simplify_eq. }
    exists c. by rewrite lookup_insert_eq.
  - intros u Hu. assert (u = t) as -> by (destruct c; cbn in Hu; congruence). exists c. left. by rewrite lookup_insert_eq.
  - intros u e [(_ & [=])|(Hne & Hu)]%lookup_insert_Some. apply (v_woken w I) in Hu. congruence.
Qed.

(** A thread moves on without touching the queue. *)
Lemma inv_thread w t x : inv w -> (forall c, x <> Waiting c /\ x <> Woken c) -> (forall y, threads w !! t = Some y -> forall c, y <> Waiting c /\ y <> Woken c) ->
  inv (MkWorld (queue w) (<[t := x]> (threads w)) (sent w) (received w)).
Proof.
  intros I Hx Hy. constructor; cbn; try apply I.
  - intros u c [(_ & ->)|(_ & Hu)]%lookup_insert_Some; [by destruct (Hx c)|by apply (v_wait w I)].
  - intros k u Hu. destruct (v_reg w I k u Hu) as (c & Hc & Hk). exists c. rewrite lookup_insert_ne; [done|]. intros <-. by destruct (Hy _ Hc c).
  - intros u Hu. destruct (v_lock w I u Hu) as (c & Hc). exists c. rewrite lookup_insert_ne; [done|]. intros <-. destruct Hc as [Hc|Hc]; by destruct (Hy _ Hc c).
  - intros u c [(_ & ->)|(_ & Hu)]%lookup_insert_Some; [by destruct (Hx c)|by apply (v_woken w I) in Hu].
Qed.

Lemma inv_release w t c : inv w -> threads w !! t = Some (Woken c) -> inv (release w t c).
Proof.
  intros I Ht. pose proof (v_woken w I t c Ht) as Hl. pose proof (v_wf w I) as [W1 W2 W3]. constructor; cbn; [by split|apply (v_fifo w I)| | |done|].
  - intros u d [(_ & [=])|(Hne & Hu)]%lookup_insert_Some. destruct (v_wait w I u d Hu) as (_ & ? & _). congruence.
  - intros k u Hu. destruct (v_reg w I k u) as (d & Hd & _); [by destruct k|]. destruct (v_wait w I u d Hd) as (_ & ? & _). congruence.
  - intros u d [(_ & [=])|(Hne & Hu)]%lookup_insert_Some. apply (v_woken w I) in Hu. congruence.
Qed.

Lemma fmap_Some_Ok {A} (m : res A) x : Some <$> m = Ok (Some x) -> m = Ok x.
Proof. destruct m; [by intros [= ->]|done]. Qed.

Lemma inv_attempt w t c w' : inv w -> threads w !! t = Some (Test c) -> attempt w t c = Ok (Some w') -> inv w'.
Proof.
  intros I Ht. unfold attempt. destruct (must_wait (queue w) c) eqn:Hm.
  - destruct (lock (queue w)) as [u|] eqn:Hl; [intros [= <-]; apply inv_thread; [done|done|]; intros y Hy; by simplify_eq|].
    destruct (wait _ _ t) as [q|] eqn:Hw; [|done]. intros [= <-]. apply inv_wait; eauto.
  - intros E%fmap_Some_Ok. apply (inv_finish w c (delete t (threads w)) w'); auto; [by intros u x [_ ?]%lookup_delete_Some|].
    intros u x Hu (d & Hd). rewrite lookup_delete_ne; [done|]. intros <-. destruct Hd as [-> | ->]; congruence.
Qed.

Lemma release_lookup w t c : threads (release w t c) !! t = Some (Test c).
Proof. cbn. by rewrite lookup_insert_eq. Qed.

Lemma queue_inv_step e w w' : inv w -> step e w = Ok (Some w') -> inv w'.
Proof.
  intros I. destruct e as [t c|t|c]; cbn [step].
  - destruct (threads w !! t) as [x|] eqn:Ht; [done|]. intros [= <-]. apply inv_thread; [done|done|]. intros y Hy. congruence.
  - destruct (threads w !! t) as [[c|c|c|c]|] eqn:Ht; [| | | |done].
    + by apply inv_attempt.
    + destruct (lock (queue w)) as [u|] eqn:Hl; [done|]. destruct (wait _ _ t) as [q|] eqn:Hw; [|done]. intros [= <-]. apply inv_wait; eauto.
    + done.
    + apply inv_attempt; [by apply inv_release|apply release_lookup].
  - destruct (must_wait (queue w) c) eqn:Hm; [done|]. intros E%fmap_Some_Ok. by apply (inv_finish w c (threads w) w').
Qed.

Inductive reach (garbage : list Z) : world -> Prop :=
  | reach_boot : reach garbage (boot garbage)
  | reach_step e w w' : reach garbage w -> step e w = Ok (Some w') -> reach garbage w'.

Lemma queue_reach_inv garbage w : length garbage = 64%nat -> reach garbage w -> inv w.
Proof. intros H. induction 1; [by apply queue_inv_boot|by eapply queue_inv_step]. Qed.

(** ** Properties *)

(** C14. For any number of threads and interrupts in any order the queue is first in, first out and holds at most 63 bytes: the
    bytes put are the bytes got followed by those in the buffer.  A thread that sleeps for a byte, or for room, sleeps while
    there is none. *)
Theorem intq_fifo garbage w :
  length garbage = 64%nat -> reach garbage w ->
  sent w = received w ++ bytes (queue w) /\ (length (bytes (queue w)) <= 63)%nat /\
  intq_empty (queue w) = bool_decide (bytes (queue w) = []) /\ intq_full (queue w) = bool_decide (length (bytes (queue w)) = 63%nat) /\
  forall t c, threads w !! t = Some (Waiting c) -> must_wait (queue w) c = true.
Proof.
  intros H I%(queue_reach_inv garbage); [|done]. pose proof (v_wf w I) as W. split; [apply (v_fifo w I)|]. split.
  { unfold bytes. rewrite length_fmap, length_seq. pose proof (count_range (queue w)). lia. }
  split; [by apply empty_bytes|]. split; [by apply full_bytes|]. intros t c Ht. by destruct (v_wait w I t c Ht) as (_ & _ & ?).
Qed.

Lemma attempt_moves w t c : attempt w t c <> Ok None.
Proof.
  unfold attempt. destruct (must_wait _ c); [destruct (lock _); [done|]; by destruct (wait _ _ _)|]. by destruct (finish _ _ _ _).
Qed.

(** What a thread that cannot run waits for. *)
Lemma blocked_why garbage w t x :
  length garbage = 64%nat -> reach garbage w -> threads w !! t = Some x -> step (Run t) w = Ok None ->
  (exists c, x = Waiting c /\ must_wait (queue w) c = true) \/
  exists c u d, x = Locking c /\ lock (queue w) = Some u /\ (threads w !! u = Some (Woken d) \/ threads w !! u = Some (Waiting d) /\ must_wait (queue w) d = true).
Proof.
  intros H I%(queue_reach_inv garbage) Ht Hs; [|done]. cbn in Hs. rewrite Ht in Hs. destruct x as [c|c|c|c].
  - by apply attempt_moves in Hs.
  - right. destruct (lock (queue w)) as [u|] eqn:Hl; [|by destruct (wait _ _ _)]. destruct (v_lock w I u Hl) as (d & [Hd|Hd]); exists c, u, d; eauto.
    split; [done|]. split; [done|]. right. split; [done|]. by destruct (v_wait w I u d Hd) as (_ & _ & ?).
  - left. exists c. split; [done|]. by destruct (v_wait w I t c Ht) as (_ & _ & ?).
  - by apply attempt_moves in Hs.
Qed.

Lemma finish_runs w c ts y : inv w -> must_wait (queue w) c = false -> Some <$> finish w (queue w) c ts <> Err y.
Proof. intros I Hm. destruct (finish_Ok w c ts I Hm) as (q' & s & r & -> & _). done. Qed.

Lemma wait_Ok w t c : must_wait (queue w) c = true -> exists q, wait (with_lock (queue w) (Some t)) (needs c) t = Ok q.
Proof. intros Hm. unfold wait. destruct c; cbn in *; unfold intq_empty, intq_full in *; cbn; rewrite Hm; cbn; eauto. Qed.

Lemma attempt_Ok w t c y : inv w -> attempt w t c <> Err y.
Proof.
  intros I. unfold attempt. destruct (must_wait (queue w) c) eqn:Hm; [|by apply finish_runs]. destruct (lock (queue w)); [done|].
  by destruct (wait_Ok w t c Hm) as (q & ->).
Qed.

(** The only thing that fails. *)
Lemma step_fails garbage w e x :
  length garbage = 64%nat -> reach garbage w -> step e w = Err x ->
  x = EAssert /\ exists t c, e = Run t /\ threads w !! t = Some (Locking c) /\ lock (queue w) = None /\ must_wait (queue w) c = false.
Proof.
  intros H I%(queue_reach_inv garbage) Hs; [|done]. destruct e as [t c|t|c]; cbn [step] in Hs.
  - by destruct (threads w !! t).
  - destruct (threads w !! t) as [[c|c|c|c]|] eqn:Ht; try done.
    + by apply (attempt_Ok w t c x I) in Hs.
    + destruct (lock (queue w)) eqn:Hl; [done|]. destruct (must_wait (queue w) c) eqn:Hm; [destruct (wait_Ok w t c Hm) as (q & E); by rewrite E in Hs|].
      split; [|eauto 8]. unfold wait in Hs. destruct c; cbn in *; unfold intq_empty, intq_full in *; cbn in Hs; rewrite Hm in Hs; cbn in Hs; congruence.
    + by apply (attempt_Ok (release w t c) t c x (inv_release w t c I Ht)) in Hs.
  - destruct (must_wait (queue w) c) eqn:Hm; [done|]. by apply (finish_runs w c (threads w) x I Hm) in Hs.
Qed.

(** The functions fail in one case only, an assertion of wait: a thread gets the lock, for which it had to wait, when there
    is a byte (or room) again.  In that case, and in no other, they fail; a thread that is blocked waits for a condition that
    is false, or for a thread that holds the lock and is about to release it or waits for such a condition. *)
Theorem intq_fails_iff garbage w e :
  length garbage = 64%nat -> reach garbage w ->
  ((exists x, step e w = Err x) <->
   exists t c, e = Run t /\ threads w !! t = Some (Locking c) /\ lock (queue w) = None /\ must_wait (queue w) c = false) /\
  forall t x, threads w !! t = Some x -> step (Run t) w = Ok None ->
    (exists c, x = Waiting c /\ must_wait (queue w) c = true) \/
    exists c u d, x = Locking c /\ lock (queue w) = Some u /\ (threads w !! u = Some (Woken d) \/ threads w !! u = Some (Waiting d) /\ must_wait (queue w) d = true).
Proof.
  intros H R. split; [split|intros t x; by apply (blocked_why garbage)].
  - intros (x & Hx). by destruct (step_fails garbage w e x H R Hx).
  - intros (t & c & -> & Ht & Hl & Hm). cbn. rewrite Ht, Hl. unfold wait. exists EAssert.
    destruct c; cbn in *; unfold intq_empty, intq_full in *; cbn; by rewrite Hm.
Qed.

(** One thread uses the queue at a time. *)
Inductive reach_alone (garbage : list Z) : world -> Prop :=
  | alone_boot : reach_alone garbage (boot garbage)
  | alone_step e w w' : reach_alone garbage w -> (forall t c, e = Call t c -> threads w = ∅) -> step e w = Ok (Some w') -> reach_alone garbage w'.

Lemma alone_reach garbage w : reach_alone garbage w -> reach garbage w.
Proof. induction 1; [constructor|by eapply reach_step]. Qed.

Definition alone (ts : gmap Z pc) : Prop := forall t x, ts !! t = Some x -> (forall c, x <> Locking c) /\ forall u y, ts !! u = Some y -> u = t.

Lemma alone_wake o ts : alone ts -> alone (wake o ts).
Proof.
  intros H t x (y & Hy & Hx)%wake_lookup. destruct (H t y Hy) as (H1 & H2). split; [destruct Hx as [->|(c & -> & -> & _)]; done|].
  intros u z (z' & Hz & _)%wake_lookup. by eapply H2.
Qed.

Lemma alone_insert ts t x y : alone ts -> ts !! t = Some x -> (forall c, y <> Locking c) -> alone (<[t := y]> ts).
Proof.
  intros H Ht Hy u z [(<- & <-)|(Hne & Hu)]%lookup_insert_Some; [split; [done|]|].
  - intros v z [(<- & _)|(_ & Hv)]%lookup_insert_Some; [done|]. by apply (proj2 (H t x Ht) v z).
  - destruct (H u z Hu) as (_ & H2). specialize (H2 t x Ht). congruence.
Qed.

Lemma finish_threads w q c ts w' : finish w q c ts = Ok w' -> exists o, threads w' = wake o ts.
Proof.
  unfold finish. destruct c; [destruct (take_byte q) as [[[? ?] ?]|]|destruct (add_byte q byte) as [[? ?]|]]; cbn; intros; simplify_eq; eauto.
Qed.

Lemma alone_attempt w t c w' : inv w -> alone (threads w) -> threads w !! t = Some (Test c) -> attempt w t c = Ok (Some w') -> alone (threads w').
Proof.
  intros I IH Ht Hs. unfold attempt in Hs. destruct (must_wait (queue w) c).
  - destruct (lock (queue w)) as [u|] eqn:Hl.
    { exfalso. destruct (v_lock w I u Hl) as (d & Hd). destruct (IH t _ Ht) as (_ & H2). destruct Hd as [Hd|Hd]; pose proof (H2 u _ Hd); simplify_eq. }
    destruct (wait _ _ t); [|done]. injection Hs as <-. cbn. by eapply alone_insert.
  - apply fmap_Some_Ok, finish_threads in Hs as (o & ->). apply alone_wake. intros u x [Hne Hu]%lookup_delete_Some. destruct (IH u x Hu) as (H1 & H2).
    by pose proof (H2 t _ Ht).
Qed.

Lemma alone_inv garbage w : length garbage = 64%nat -> reach_alone garbage w -> alone (threads w).
Proof.
  intros Hg. induction 1 as [|e w w' R IH Hcall Hs]; [intros t x Ht; cbn in Ht; by rewrite lookup_empty in Ht|].
  pose proof (queue_reach_inv garbage w Hg (alone_reach _ _ R)) as I.
  destruct e as [t c|t|c]; cbn [step] in Hs.
  - rewrite (Hcall t c eq_refl), lookup_empty in Hs. injection Hs as <-. cbn. intros u x [(<- & <-)|(_ & Hu)]%lookup_insert_Some; [|by rewrite lookup_empty in Hu].
    split; [done|]. intros v y [(<- & _)|(_ & Hv)]%lookup_insert_Some; [done|by rewrite lookup_empty in Hv].
  - destruct (threads w !! t) as [[c|c|c|c]|] eqn:Ht; try done.
    + by eapply alone_attempt.
    + by destruct (IH t _ Ht) as (H1 & _); destruct (H1 c).
    + eapply (alone_attempt (release w t c) t c); [by apply inv_release|by eapply alone_insert|apply release_lookup|done].
  - destruct (must_wait (queue w) c); [done|]. apply fmap_Some_Ok, finish_threads in Hs as (o & ->). by apply alone_wake.
Qed.

(** With one thread in the functions at a time, as for the keyboard buffer with one reader, no assertion fails and nothing
    else does, whatever the interrupts do. *)
Theorem intq_safe_alone garbage w e x :
  length garbage = 64%nat -> reach_alone garbage w -> step e w <> Err x.
Proof.
  intros H R Hs. destruct (step_fails garbage w e x H (alone_reach _ _ R) Hs) as (_ & t & c & _ & Ht & _).
  by destruct (alone_inv garbage w H R t _ Ht) as (H1 & _); destruct (H1 c).
Qed.

(** With two readers the kernel can panic: both sleep, one of them for the lock, and two keys arrive before the first
    runs again. *)
Theorem intq_two_readers_panic garbage b1 b2 :
  length garbage = 64%nat ->
  run [Call 1 Get; Run 1; Call 2 Get; Run 2; Interrupt (Put b1); Interrupt (Put b2); Run 1; Run 2] (boot garbage) = Err EAssert.
Proof.
  intros H. do 64 (destruct garbage as [|? garbage]; [done|]). destruct garbage; [|done]. vm_compute. reflexivity.
Qed.

(** ** Witnesses *)

Definition demo_garbage : list Z := replicate 64 0.

Definition demo_events : list event := [Call 1 Get; Run 1; Call 2 Get; Run 2; Interrupt (Put 65); Interrupt (Put 66)].

Definition demo_world (l : list event) : world := match run l (boot demo_garbage) with Ok (Some w) => w | _ => boot demo_garbage end.

Lemma run_reach l w w' : reach demo_garbage w -> run l w = Ok (Some w') -> reach demo_garbage w'.
Proof.
  revert w. induction l as [|e l IH]; intros w R; cbn; [by intros [= <-]|]. destruct (step e w) as [[w1|]|] eqn:Es; cbn; try done.
  apply IH. by eapply reach_step.
Qed.

Lemma queue_demo_reach l : reach demo_garbage (demo_world l).
Proof.
  unfold demo_world. destruct (run l (boot demo_garbage)) as [[w|]|] eqn:E; [|constructor..]. exact (run_reach l _ w (reach_boot _) E).
Qed.

Lemma intq_fifo_witness : sent (demo_world demo_events) = received (demo_world demo_events) ++ bytes (queue (demo_world demo_events)).
Proof. apply (intq_fifo demo_garbage (demo_world demo_events) eq_refl (queue_demo_reach _)). Defined.

Lemma intq_fails_iff_witness : exists x, step (Run 2) (demo_world (demo_events ++ [Run 1])) = Err x.
Proof.
  apply (intq_fails_iff demo_garbage (demo_world (demo_events ++ [Run 1])) (Run 2) eq_refl (queue_demo_reach _)).
  exists 2, Get. split; [reflexivity|]. split; [vm_compute; reflexivity|]. split; vm_compute; reflexivity.
Defined.

Lemma intq_safe_alone_witness : step (Interrupt (Put 65)) (boot demo_garbage) <> Err EAssert.
Proof. apply (intq_safe_alone demo_garbage); [reflexivity|constructor]. Defined.

Lemma intq_two_readers_panic_witness :
  run [Call 1 Get; Run 1; Call 2 Get; Run 2; Interrupt (Put 65); Interrupt (Put 66); Run 1; Run 2] (boot demo_garbage) = Err EAssert.
Proof. apply (intq_two_readers_panic demo_garbage 65 66). reflexivity. Defined.
