(* ===== verification/Input.v ===== *)
(** The keyboard, the input buffer and the serial port: devices/kbd.c,
    devices/input.c, devices/serial.c.

    [ins] is what the ports answer, one value for each inb; [outs] is what has
    been written to ports.  The two interrupt queues are those of Intq.v: the
    code here calls them in interrupt handlers or with interrupts off; where a
    thread would sleep in them the result is [None]. *)

From stdpp Require Import base list numbers gmap strings.
From Stdlib Require Import ZArith Lia.
From Stdlib Require String.
From S2P Require Import Prelude Intq.
Import String.StringSyntax.
Open Scope Z_scope.

(** ** State *)

Record shifts := MkShifts { left_shift : bool; right_shift : bool; left_alt : bool; right_alt : bool; left_ctrl : bool; right_ctrl : bool }.

Inductive serial_mode := UNINIT | POLL | QUEUE.

Record dev := MkDev {
  keys : shifts;
  caps_lock : bool;
  key_cnt : Z;
  buffer : intq;
  mode : serial_mode;
  txq : intq;
  ins : list Z;
  outs : list (Z * Z)
}.

#[local] Abbreviation D := (stM dev).

Definition with_keys (d : dev) (k : shifts) : dev := MkDev k (caps_lock d) (key_cnt d) (buffer d) (mode d) (txq d) (ins d) (outs d).
Definition with_caps (d : dev) (b : bool) : dev := MkDev (keys d) b (key_cnt d) (buffer d) (mode d) (txq d) (ins d) (outs d).
Definition with_count (d : dev) (n : Z) : dev := MkDev (keys d) (caps_lock d) n (buffer d) (mode d) (txq d) (ins d) (outs d).
Definition with_buffer (d : dev) (q : intq) : dev := MkDev (keys d) (caps_lock d) (key_cnt d) q (mode d) (txq d) (ins d) (outs d).
Definition with_mode (d : dev) (x : serial_mode) : dev := MkDev (keys d) (caps_lock d) (key_cnt d) (buffer d) x (txq d) (ins d) (outs d).
Definition with_txq (d : dev) (q : intq) : dev := MkDev (keys d) (caps_lock d) (key_cnt d) (buffer d) (mode d) q (ins d) (outs d).

Definition state : D dev := get.

(** Reads a port; past the answers that are given the run cannot go on. *)
Definition inb (port : Z) : D Z := fun d =>
  match ins d with
  | [] => Err EFault
  | x :: l => Ok (x, MkDev (keys d) (caps_lock d) (key_cnt d) (buffer d) (mode d) (txq d) l (outs d))
  end.

Definition outb (port data : Z) : D unit := fun d =>
  Ok (tt, MkDev (keys d) (caps_lock d) (key_cnt d) (buffer d) (mode d) (txq d) (ins d) (outs d ++ [(port, u8 data)])).

(** ** The serial port *)

Definition IO_BASE : Z := 0x3f8.
Definition RBR_REG : Z := IO_BASE + 0.
Definition THR_REG : Z := IO_BASE + 0.
Definition IER_REG : Z := IO_BASE + 1.
Definition LS_REG : Z := IO_BASE + 0.
Definition MS_REG : Z := IO_BASE + 1.
Definition IIR_REG : Z := IO_BASE + 2.
Definition FCR_REG : Z := IO_BASE + 2.
Definition LCR_REG : Z := IO_BASE + 3.
Definition MCR_REG : Z := IO_BASE + 4.
Definition LSR_REG : Z := IO_BASE + 5.
Definition IER_RECV : Z := 0x01.
Definition IER_XMIT : Z := 0x02.
Definition LCR_N81 : Z := 0x03.
Definition LCR_DLAB : Z := 0x80.
Definition MCR_OUT2 : Z := 0x08.
Definition LSR_DR : Z := 0x01.
Definition LSR_THRE : Z := 0x20.

Definition input_full : D bool := d ← state; mret (intq_full (buffer d)).

Definition write_ier : D unit :=
  d ← state;
  let ier := if intq_empty (txq d) then 0 else IER_XMIT in
  full ← input_full;
  let ier := if full : bool then ier else Z.lor ier IER_RECV in
  outb IER_REG ier.

Definition set_serial (bps : Z) : D unit :=
  let base_rate := 1843200 / 16 in
  let divisor := base_rate / bps in
  assertM ((300 <=? bps) && (bps <=? 115200));;
  outb LCR_REG (Z.lor LCR_N81 LCR_DLAB);;
  outb LS_REG (Z.land divisor 0xff);;
  outb MS_REG (Z.shiftr divisor 8);;
  outb LCR_REG LCR_N81.

Fixpoint poll_loop (fuel : nat) : D unit :=
  match fuel with
  | O => raise EFuel
  | S fuel => x ← inb LSR_REG; if Z.land x LSR_THRE =? 0 then poll_loop fuel else mret tt
  end.

Definition putc_poll (byte : Z) : D unit :=
  d ← state;
  poll_loop (S (length (ins d)));;
  outb THR_REG byte.

Definition init_poll (garbage : list Z) : D unit :=
  d ← state;
  assertM (match mode d with UNINIT => true | _ => false end);;
  outb IER_REG 0;;
  outb FCR_REG 0;;
  set_serial 9600;;
  outb MCR_REG MCR_OUT2;;
  modify (fun d : dev => with_mode (with_txq d (intq_init garbage)) POLL).

(** intq_getc and intq_putc on the transmit queue, where they need not wait. *)
Definition txq_getc : D Z := fun d =>
  if intq_empty (txq d) then Err EAssert else '(b, q, _) ← take_byte (txq d); Ok (b, with_txq d q).

Definition txq_putc (byte : Z) : D unit := fun d =>
  if intq_full (txq d) then Err EAssert else '(q, _) ← add_byte (txq d) byte; Ok (tt, with_txq d q).

Definition serial_init_queue (garbage : list Z) : D unit :=
  d ← state;
  match mode d with UNINIT => init_poll garbage | _ => mret tt end;;
  d ← state;
  assertM (match mode d with POLL => true | _ => false end);;
  modify (fun d : dev => with_mode d QUEUE);;
  write_ier.

(** [intr_on] is the level when it is called.  [None]: the queue is full and the
    thread sleeps in intq_putc. *)
Definition serial_putc (garbage : list Z) (intr_on : bool) (byte : Z) : D (option unit) :=
  d ← state;
  match mode d with
  | QUEUE =>
      (if negb intr_on && intq_full (txq d) then c ← txq_getc; putc_poll c else mret tt);;
      d ← state;
      if intq_full (txq d) then mret None
      else txq_putc byte;; write_ier;; mret (Some tt)
  | m =>
      match m with UNINIT => init_poll garbage | _ => mret tt end;;
      putc_poll byte;;
      mret (Some tt)
  end.

Fixpoint flush_loop (fuel : nat) : D unit :=
  match fuel with
  | O => raise EFuel
  | S fuel => d ← state; if intq_empty (txq d) then mret tt else c ← txq_getc; putc_poll c;; flush_loop fuel
  end.

Definition serial_flush : D unit := flush_loop 64.

Definition serial_notify : D unit :=
  d ← state;
  match mode d with QUEUE => write_ier | _ => mret tt end.

(** ** The input buffer *)

Definition input_init (garbage : list Z) : D unit := modify (fun d : dev => with_buffer d (intq_init garbage)).

Definition input_putc (key : Z) : D unit :=
  d ← state;
  assertM (negb (intq_full (buffer d)));;
  (fun d => '(q, _) ← add_byte (buffer d) key; Ok (tt, with_buffer d q));;
  serial_notify.

(** [None]: the buffer is empty and the thread sleeps. *)
Definition input_getc : D (option Z) :=
  d ← state;
  if intq_empty (buffer d) then mret None
  else
    key ← (fun d => '(b, q, _) ← take_byte (buffer d); Ok (b, with_buffer d q));
    serial_notify;;
    mret (Some key).

(** ** The serial interrupt *)

Fixpoint receive_loop (fuel : nat) : D unit :=
  match fuel with
  | O => raise EFuel
  | S fuel =>
      full ← input_full;
      if full : bool then mret tt
      else
        x ← inb LSR_REG;
        if Z.land x LSR_DR =? 0 then mret tt
        else c ← inb RBR_REG; input_putc c;; receive_loop fuel
  end.

Fixpoint transmit_loop (fuel : nat) : D unit :=
  match fuel with
  | O => raise EFuel
  | S fuel =>
      d ← state;
      if intq_empty (txq d) then mret tt
      else
        x ← inb LSR_REG;
        if Z.land x LSR_THRE =? 0 then mret tt
        else c ← txq_getc; outb THR_REG c;; transmit_loop fuel
  end.

Definition serial_interrupt : D unit :=
  inb IIR_REG;;
  receive_loop 64;;
  transmit_loop 64;;
  write_ier.

(** ** The keyboard *)

Definition DATA_REG : Z := 0x60.

Definition keymap : Type := list (Z * list Z).

Definition invariant_keymap : keymap :=
  [(0x01, [27]); (0x0e, [8]); (0x0f, 9 :: chars "QWERTYUIOP"); (0x1c, [13]); (0x1e, chars "ASDFGHJKL"); (0x2c, chars "ZXCVBNM");
   (0x37, chars "*"); (0x39, chars " "); (0x53, [127])].

Definition unshifted_keymap : keymap :=
  [(0x02, chars "1234567890-="); (0x1a, chars "[]"); (0x27, chars ";'`"); (0x2b, chars "\"); (0x33, chars ",./")].

Definition shifted_keymap : keymap :=
  [(0x02, chars "!@#$%^&*()_+"); (0x1a, chars "{}"); (0x27, 58 :: 34 :: [126]); (0x2b, chars "|"); (0x33, chars "<>?")].

Fixpoint map_key (k : keymap) (scancode : Z) : option Z :=
  match k with
  | [] => None
  | (first, cs) :: k =>
      if (first <=? scancode) && (scancode <? first + Z.of_nat (length cs)) then cs !! Z.to_nat (scancode - first) else map_key k scancode
  end.

Definition tolower (c : Z) : Z := if (65 <=? c) && (c <=? 90) then c + 32 else c.

(** The table of shift keys. *)
Definition set_shift (k : shifts) (code : Z) (down : bool) : shifts :=
  if code =? 0x2a then MkShifts down (right_shift k) (left_alt k) (right_alt k) (left_ctrl k) (right_ctrl k)
  else if code =? 0x36 then MkShifts (left_shift k) down (left_alt k) (right_alt k) (left_ctrl k) (right_ctrl k)
  else if code =? 0x38 then MkShifts (left_shift k) (right_shift k) down (right_alt k) (left_ctrl k) (right_ctrl k)
  else if code =? 0xe038 then MkShifts (left_shift k) (right_shift k) (left_alt k) down (left_ctrl k) (right_ctrl k)
  else if code =? 0x1d then MkShifts (left_shift k) (right_shift k) (left_alt k) (right_alt k) down (right_ctrl k)
  else if code =? 0xe01d then MkShifts (left_shift k) (right_shift k) (left_alt k) (right_alt k) (left_ctrl k) down
  else k.

(** Reads a scancode, with its second byte if it has a prefix. *)
Definition read_scancode : D Z :=
  code ← inb DATA_REG;
  if code =? 0xe0 then second ← inb DATA_REG; mret (Z.lor (Z.shiftl code 8) second) else mret code.

(** An ordinary character: Ctrl, Shift and Caps Lock, Alt. *)
Definition modify_char (shift alt ctrl caps : bool) (c : Z) : Z :=
  let c := if ctrl && (0x40 <=? c) && (c <? 0x60) then c - 0x40 else if Bool.eqb shift caps then tolower c else c in
  if alt then u8 (c + 0x80) else c.

(** [true] if the machine reboots. *)
Definition keyboard_interrupt : D bool :=
  d ← state;
  let shift := left_shift (keys d) || right_shift (keys d) in
  let alt := left_alt (keys d) || right_alt (keys d) in
  let ctrl := left_ctrl (keys d) || right_ctrl (keys d) in
  code ← read_scancode;
  let release := negb (Z.land code 0x80 =? 0) in
  let code := Z.ldiff code 0x80 in
  if code =? 0x3a then (if release then mret tt else modify (fun d : dev => with_caps d (negb (caps_lock d))));; mret false
  else
    match (match map_key invariant_keymap code with Some c => Some c | None => if shift then map_key shifted_keymap code else map_key unshifted_keymap code end) with
    | Some c =>
        if release then mret false
        else if (c =? 127) && ctrl && alt then mret true
        else
          let c := modify_char shift alt ctrl (caps_lock d) c in
          full ← input_full;
          (if full : bool then mret tt else modify (fun d : dev => with_count d (s64 (key_cnt d + 1)));; input_putc c);;
          mret false
    | None => modify (fun d : dev => with_keys d (set_shift (keys d) code (negb release)));; mret false
    end.
