(* ===== verification/InputSpec.v ===== *)
(** The keyboard and the serial port (Input.v): what is sent over the line and
    when interrupts are enabled, and what keys mean. *)

From stdpp Require Import base list numbers gmap strings.
From Stdlib Require Import ZArith Lia.
From Stdlib Require String.
From S2P Require Import Prelude Intq IntqSpec Input.
Import String.StringSyntax.
Open Scope Z_scope.

(** ** Specifications of stateful code *)

(** Code that fails in no other way than by waiting for a device forever. *)
Definition runs {A} (P : dev -> Prop) (f : stM dev A) (Q : A -> dev -> Prop) : Prop :=
  forall d, P d -> match f d with Ok (a, d') => Q a d' | Err e => e = EFault end.

Lemma runs_bind {A B} P (f : stM dev A) (g : A -> stM dev B) R Q :
  runs P f R -> (forall a, runs (R a) (g a) Q) -> runs P (f ≫= g) Q.
Proof.
  intros Hf Hg d Hd. unfold mbind, stM_bind. specialize (Hf d Hd). destruct (f d) as [[a d']|e]; [|done]. by apply Hg.
Qed.

Lemma runs_ret {A} (P : dev -> Prop) (a : A) (Q : A -> dev -> Prop) : (forall d, P d -> Q a d) -> runs P (mret a) Q.
Proof. intros H d Hd. by apply H. Qed.

Lemma runs_state P (Q : dev -> dev -> Prop) : (forall d, P d -> Q d d) -> runs P state Q.
Proof. intros H d Hd. by apply H. Qed.

Lemma runs_modify P (h : dev -> dev) (Q : unit -> dev -> Prop) : (forall d, P d -> Q tt (h d)) -> runs P (modify h) Q.
Proof. intros H d Hd. by apply H. Qed.

Lemma runs_weaken {A} P P' (f : stM dev A) Q Q' :
  (forall d, P' d -> P d) -> (forall a d, Q a d -> Q' a d) -> runs P f Q -> runs P' f Q'.
Proof. intros HP HQ H d Hd. specialize (H d (HP d Hd)). destruct (f d) as [[a d']|e]; auto. Qed.

Lemma runs_pre {A} P P' (f : stM dev A) Q : runs P f Q -> (forall d, P' d -> P d) -> runs P' f Q.
Proof. intros H HP. by eapply runs_weaken; [| |exact H]. Qed.

Lemma runs_pure {A} (X : Prop) P (f : stM dev A) Q : (X -> runs P f Q) -> runs (fun d => X /\ P d) f Q.
Proof. intros H d (Hx & Hd). by apply H. Qed.

Lemma runs_assoc {A B C} P (m : stM dev A) (f : A -> stM dev B) (g : B -> stM dev C) Q :
  runs P ((m ≫= f) ≫= g) Q -> runs P (m ≫= fun a => f a ≫= g) Q.
Proof. intros H d Hd. specialize (H d Hd). unfold mbind, stM_bind in *. by destruct (m d) as [[a d']|e]. Qed.

(** ** What the serial port sees *)

(** The registers as the device sees them: bytes sent, and the interrupt enable
    register; a write with DLAB set goes to the divisor instead. *)
Record uart := MkUart { dlab : bool; line : list Z; ier : Z }.

Definition uart_write (u : uart) (o : Z * Z) : uart :=
  if o.1 =? LCR_REG then MkUart (negb (Z.land o.2 LCR_DLAB =? 0)) (line u) (ier u)
  else if o.1 =? THR_REG then if dlab u then u else MkUart (dlab u) (line u ++ [o.2]) (ier u)
  else if o.1 =? IER_REG then if dlab u then u else MkUart (dlab u) (line u) o.2
  else u.

Definition uart_of (l : list (Z * Z)) : uart := fold_left uart_write l (MkUart false [] 0).

Lemma uart_snoc l o : uart_of (l ++ [o]) = uart_write (uart_of l) o.
Proof. unfold uart_of. by rewrite fold_left_app. Qed.

(** ** The invariant *)

(** [acc] is what serial_putc has accepted. *)
Record inv (acc : list Z) (d : dev) : Prop := {
  i_buffer : intq_wf (buffer d);
  i_txq : intq_wf (txq d) /\ Forall is_u8 (bytes (txq d));
  i_line : acc = line (uart_of (outs d)) ++ bytes (txq d);
  i_dlab : dlab (uart_of (outs d)) = false;
  i_poll : mode d <> QUEUE -> bytes (txq d) = [];
  i_recv : mode d = QUEUE -> Z.testbit (ier (uart_of (outs d))) 0 = negb (intq_full (buffer d));
  i_xmit : mode d = QUEUE -> bytes (txq d) <> [] -> Z.testbit (ier (uart_of (outs d))) 1 = true
}.

(** The same without the interrupt enable register: inside the functions. *)
Record core (acc : list Z) (d : dev) : Prop := {
  c_buffer : intq_wf (buffer d);
  c_txq : intq_wf (txq d) /\ Forall is_u8 (bytes (txq d));
  c_line : acc = line (uart_of (outs d)) ++ bytes (txq d);
  c_dlab : dlab (uart_of (outs d)) = false;
  c_poll : mode d <> QUEUE -> bytes (txq d) = []
}.

Lemma inv_core acc d : inv acc d -> core acc d.
Proof. intros I. constructor; apply I. Qed.

(** What the keyboard driver and its readers see. *)
Definition kbd (d : dev) : shifts * bool * list Z := (keys d, caps_lock d, bytes (buffer d)).

Lemma runs_write_ier acc k : runs (fun d => core acc d /\ kbd d = k) write_ier (fun _ d => inv acc d /\ kbd d = k).
Proof.
  intros d ([H1 (H2 & Hu) H3 H4 H5] & Hk). unfold write_ier, input_full, state, outb. cbn -[intq_empty intq_full]. unfold mbind, stM_bind, get. cbn -[intq_empty intq_full Z.lor].
  set (v := u8 _). assert (Eu : uart_of (outs d ++ [(IER_REG, v)]) = MkUart false (line (uart_of (outs d))) v).
  { rewrite uart_snoc. unfold uart_write. cbn. by rewrite H4. }
  split; [|done]. constructor; cbn -[uart_of]; rewrite ?Eu; try done.
  - unfold v. by destruct (intq_empty (txq d)), (intq_full (buffer d)).
  - intros _ Hne. pose proof (empty_bytes (txq d) H2) as Ee. rewrite bool_decide_eq_false_2 in Ee by done. unfold v. rewrite Ee. by destruct (intq_full (buffer d)).
Qed.

Lemma runs_write_ier_any acc : runs (core acc) write_ier (fun _ d => inv acc d).
Proof.
  intros d C. pose proof (runs_write_ier acc (kbd d) d (conj C eq_refl)) as H. destruct (write_ier d) as [[u d']|e]; [|done]. by destruct H.
Qed.

(** ** Sending *)

(** What polling leaves alone: everything but the answers of the ports. *)
Definition same_but_ins (d d' : dev) : Prop := exists l, d' = MkDev (keys d) (caps_lock d) (key_cnt d) (buffer d) (mode d) (txq d) l (outs d).

Lemma poll_loop_spec d0 fuel : runs (fun d => same_but_ins d0 d /\ (length (ins d) < fuel)%nat) (poll_loop fuel) (fun _ => same_but_ins d0).
Proof.
  induction fuel as [|fuel IH]; intros d ((l & ->) & Hl); cbn [poll_loop]; [cbn in Hl; lia|].
  unfold mbind, stM_bind, inb. cbn -[Z.land Z.eqb]. destruct l as [|x l]; [done|]. cbn in Hl. destruct (Z.land x LSR_THRE =? 0).
  - refine (IH _ _). split; [by eexists|cbn; lia].
  - by eexists.
Qed.

Lemma putc_poll_spec d0 c : is_u8 c -> dlab (uart_of (outs d0)) = false ->
  runs (same_but_ins d0) (putc_poll c) (fun _ d => exists l, d = MkDev (keys d0) (caps_lock d0) (key_cnt d0) (buffer d0) (mode d0) (txq d0) l (outs d0 ++ [(THR_REG, c)])).
Proof.
  intros Hc Hd d Hs. unfold putc_poll, state. unfold mbind, stM_bind, get. pose proof (poll_loop_spec d0 (S (length (ins d))) d) as H.
  specialize (H ltac:(split; [done|lia])). destruct (poll_loop _ d) as [[u d1]|e]; [|done]. destruct H as (l & ->). exists l. cbn. by rewrite u8_small.
Qed.

Lemma line_send l c : dlab (uart_of l) = false ->
  uart_of (l ++ [(THR_REG, c)]) = MkUart false (line (uart_of l) ++ [c]) (ier (uart_of l)).
Proof. intros Hd. rewrite uart_snoc. unfold uart_write. cbn -[uart_of]. by rewrite Hd. Qed.

(** The first byte of the queue goes out. *)
Lemma inv_send acc d c q' l : inv acc d -> mode d = QUEUE -> intq_wf q' -> bytes (txq d) = c :: bytes q' ->
  inv acc (MkDev (keys d) (caps_lock d) (key_cnt d) (buffer d) (mode d) q' l (outs d ++ [(THR_REG, c)])).
Proof.
  intros [H1 (H2 & Hu) H3 H4 H5 H6 H7] Hm W Hb. rewrite Hb in H3, Hu. apply Forall_cons_1 in Hu as [_ Hu].
  constructor; cbn -[uart_of]; rewrite ?line_send by done; cbn -[uart_of]; try done; try congruence.
  - by rewrite <- app_assoc.
  - intros _ _. apply H7; [done|by rewrite Hb].
Qed.

Lemma txq_getc_spec acc d : inv acc d -> intq_empty (txq d) = false ->
  exists c q', txq_getc d = Ok (c, with_txq d q') /\ is_u8 c /\ intq_wf q' /\ bytes (txq d) = c :: bytes q' /\ intq_full q' = false /\ mode d = QUEUE.
Proof.
  intros [H1 (H2 & Hu) H3 H4 H5 H6 H7] He. destruct (take_byte_Ok (txq d) H2 He) as (b & q' & E & W' & Hb & Hf & _).
  exists b, (set_waiting q' NotFull None). unfold txq_getc. rewrite He, E. split; [done|]. rewrite Hb in Hu. apply Forall_cons_1 in Hu as [? _].
  split; [done|]. split; [by destruct W'|]. split; [done|]. split; [done|]. destruct (mode d) eqn:Hm; [| |done]; by rewrite H5 in Hb.
Qed.

(** txq_getc followed by putc_poll, and by outb. *)
Lemma runs_send acc n : runs (fun d => inv acc d /\ intq_empty (txq d) = false /\ (length (bytes (txq d)) <= S n)%nat) (c ← txq_getc; putc_poll c)
  (fun _ d => inv acc d /\ mode d = QUEUE /\ intq_full (txq d) = false /\ (length (bytes (txq d)) <= n)%nat).
Proof.
  intros d (I & He & Hn). destruct (txq_getc_spec acc d I He) as (c & q' & E & Hc & W' & Hb & Hf & Hm). erewrite stbind_step by exact E.
  pose proof (putc_poll_spec (with_txq d q') c Hc (i_dlab acc d I) (with_txq d q') ltac:(by eexists)) as H.
  destruct (putc_poll c _) as [[u d']|e]; [|done]. destruct H as (l & ->). split; [exact (inv_send acc d c q' l I Hm W' Hb)|].
  split; [done|]. split; [done|]. rewrite Hb in Hn. cbn in Hn |- *. lia.
Qed.

Lemma runs_send_out acc n : runs (fun d => inv acc d /\ intq_empty (txq d) = false /\ (length (bytes (txq d)) <= S n)%nat) (c ← txq_getc; outb THR_REG c)
  (fun _ d => inv acc d /\ (length (bytes (txq d)) <= n)%nat).
Proof.
  intros d (I & He & Hn). destruct (txq_getc_spec acc d I He) as (c & q' & E & Hc & W' & Hb & Hf & Hm). erewrite stbind_step by exact E.
  unfold outb. rewrite u8_small by done. split; [exact (inv_send acc d c q' (ins d) I Hm W' Hb)|]. rewrite Hb in Hn. cbn in Hn |- *. lia.
Qed.

Lemma runs_txq_putc acc b : is_u8 b -> runs (fun d => core acc d /\ mode d = QUEUE /\ intq_full (txq d) = false) (txq_putc b) (fun _ => core (acc ++ [b])).
Proof.
  intros Hb d ([H1 (H2 & Hu) H3 H4 _] & Hm & Hf). destruct (add_byte_Ok (txq d) b H2 Hf) as (q' & E & W' & Hby & _).
  unfold txq_putc. rewrite Hf, E. cbn [mbind res_bind]. constructor; cbn -[uart_of]; try done.
  - split; [by destruct W'|]. refine (eq_ind_r (Forall is_u8) _ Hby). apply Forall_app_2; [done|by apply Forall_singleton].
  - refine (eq_ind_r (fun l => acc ++ [b] = line (uart_of (outs d)) ++ l) _ Hby). by rewrite H3, app_assoc.
Qed.

(** ** The functions of serial.c *)

Lemma uart_init l x y : dlab (uart_of l) = false ->
  uart_of (((((((l ++ [(IER_REG, 0)]) ++ [(FCR_REG, 0)]) ++ [(LCR_REG, 131)]) ++ [(LS_REG, x)]) ++ [(MS_REG, y)]) ++ [(LCR_REG, 3)]) ++ [(MCR_REG, 8)]) =
  MkUart false (line (uart_of l)) 0.
Proof. intros H. rewrite !uart_snoc. destruct (uart_of l) as [dl ln ie]. cbn in H. subst dl. reflexivity. Qed.

Lemma runs_init_poll acc g : length g = 64%nat -> runs (fun d => inv acc d /\ mode d = UNINIT) (init_poll g) (fun _ d => inv acc d /\ mode d = POLL).
Proof.
  intros Hg d (I & Hm). destruct I as [H1 H2 H3 H4 H5 H6 H7]. rewrite H5, app_nil_r in H3 by (by rewrite Hm).
  assert (E : init_poll g d = Ok (tt, MkDev (keys d) (caps_lock d) (key_cnt d) (buffer d) POLL (intq_init g) (ins d)
    (((((((outs d ++ [(IER_REG, 0)]) ++ [(FCR_REG, 0)]) ++ [(LCR_REG, 131)]) ++ [(LS_REG, 12)]) ++ [(MS_REG, 0)]) ++ [(LCR_REG, 3)]) ++ [(MCR_REG, 8)]))).
  { unfold init_poll. erewrite stbind_step by reflexivity. by rewrite Hm. }
  rewrite E. clear E. split; [|done]. pose proof (uart_init (outs d) 12 0 H4) as Eo.
  constructor; cbn -[uart_of]; rewrite ?Eo; try done. by rewrite app_nil_r.
Qed.

Lemma runs_putc_poll acc b : is_u8 b -> runs (fun d => inv acc d /\ mode d = POLL) (putc_poll b) (fun _ => inv (acc ++ [b])).
Proof.
  intros Hb d (I & Hm). pose proof (putc_poll_spec d b Hb (i_dlab acc d I) d) as H. specialize (H ltac:(by exists (ins d); destruct d)).
  destruct (putc_poll b d) as [[u d']|e]; [|done]. destruct H as (l & ->). destruct I as [H1 H2 H3 H4 H5 H6 H7]. rewrite H5, app_nil_r in H3 by (by rewrite Hm).
  constructor; cbn -[uart_of]; rewrite ?line_send by done; cbn -[uart_of]; try done; try congruence. rewrite H5, app_nil_r, H3 by (by rewrite Hm). done.
Qed.

Lemma runs_serial_putc acc g on b : length g = 64%nat -> is_u8 b ->
  runs (inv acc) (serial_putc g on b) (fun r d => inv (match r with Some _ => acc ++ [b] | None => acc end) d).
Proof.
  intros Hg Hb. unfold serial_putc. eapply runs_bind; [apply (runs_state _ (fun d0 d => d = d0 /\ inv acc d)); done|]. intros d0.
  destruct (mode d0) eqn:Hm.
  - eapply runs_bind; [apply (runs_pre _ _ _ _ (runs_init_poll acc g Hg)); intros d (Ed & I); subst d; by split|]. intros ?.
    eapply runs_bind; [apply (runs_putc_poll acc b Hb)|]. intros ?. by apply runs_ret.
  - eapply runs_bind; [apply (runs_ret _ tt (fun _ d => inv acc d /\ mode d = POLL)); intros d (Ed & I); subst d; done|]. intros ?.
    eapply runs_bind; [apply (runs_putc_poll acc b Hb)|]. intros ?. by apply runs_ret.
  - eapply runs_bind with (R := fun _ d => inv acc d /\ mode d = QUEUE).
    { destruct (negb on && intq_full (txq d0)) eqn:Ef.
      - eapply runs_weaken; [..|apply (runs_send acc 62)]; cbn.
        + intros d (Ed & I). subst d. split; [done|]. apply andb_true_iff in Ef as [_ Ef]. destruct (i_txq acc d0 I) as [W _].
          rewrite full_bytes in Ef by done. rewrite empty_bytes by done. apply bool_decide_eq_true in Ef. rewrite Ef. split; [|lia]. apply bool_decide_eq_false. intros H. by rewrite H in Ef.
        + by intros _ d (I & Hq & _).
      - apply runs_ret. intros d (Ed & I). by subst d. }
    intros ?. eapply runs_bind; [apply (runs_state _ (fun d1 d => d = d1 /\ inv acc d /\ mode d = QUEUE)); done|]. intros d1.
    destruct (intq_full (txq d1)) eqn:Hf.
    + apply runs_ret. by intros d (Ed & I & _).
    + eapply runs_bind; [apply (runs_pre _ _ _ _ (runs_txq_putc acc b Hb))|].
      { intros d (Ed & I & Hm'). subst d. split; [by apply inv_core|by split]. }
      intros ?. eapply runs_bind; [apply runs_write_ier_any|]. intros ?. by apply runs_ret.
Qed.

Lemma runs_init_queue acc g : length g = 64%nat -> runs (fun d => inv acc d /\ mode d <> QUEUE) (serial_init_queue g) (fun _ => inv acc).
Proof.
  intros Hg. unfold serial_init_queue. eapply runs_bind; [apply (runs_state _ (fun d0 d => d = d0 /\ inv acc d /\ mode d <> QUEUE)); done|]. intros d0.
  eapply runs_bind with (R := fun _ d => inv acc d /\ mode d = POLL).
  { destruct (mode d0) eqn:Hm.
    - apply (runs_pre _ _ _ _ (runs_init_poll acc g Hg)). intros d (Ed & I & _). by subst d.
    - apply runs_ret. intros d (Ed & I & _). by subst d.
    - apply runs_ret. intros d (Ed & _ & H). by subst d. }
  intros ?. eapply runs_bind; [apply (runs_state _ (fun d1 d => d = d1 /\ inv acc d /\ mode d = POLL)); done|]. intros d1.
  intros d (Ed & [H1 (H2 & Hu) H3 H4 H5 H6 H7] & Hm). subst d1. rewrite Hm. erewrite stbind_step by reflexivity. erewrite stbind_step by reflexivity.
  apply (runs_write_ier_any acc). constructor; cbn; done.
Qed.

Lemma runs_flush_loop acc n : runs (fun d => inv acc d /\ (length (bytes (txq d)) <= n)%nat) (flush_loop (S n)) (fun _ d => inv acc d /\ bytes (txq d) = []).
Proof.
  induction n as [|n IH].
  - intros d (I & Hn). destruct (bytes (txq d)) eqn:Hb; [|cbn in Hn; lia]. cbn [flush_loop]. erewrite stbind_step by reflexivity.
    rewrite empty_bytes by apply I. by rewrite Hb.
  - cbn [flush_loop]. eapply runs_bind; [apply (runs_state _ (fun d0 d => d = d0 /\ inv acc d /\ (length (bytes (txq d)) <= S n)%nat)); done|]. intros d0.
    destruct (intq_empty (txq d0)) eqn:He.
    + apply runs_ret. intros d (Ed & I & _). subst d0. split; [done|]. rewrite empty_bytes in He by apply I. by apply bool_decide_eq_true in He.
    + apply (runs_assoc _ txq_getc putc_poll (fun _ => flush_loop (S n))). eapply runs_bind; [apply (runs_pre _ _ _ _ (runs_send acc n))|].
      { intros d (Ed & I & Hn). by subst d. }
      intros ?. apply (runs_pre _ _ _ _ IH). by intros d (I & _ & _ & Hn).
Qed.

Lemma bytes_length q : (length (bytes q) <= 63)%nat.
Proof. unfold bytes. rewrite length_fmap, length_seq. pose proof (count_range q). lia. Qed.

Lemma runs_flush acc : runs (inv acc) serial_flush (fun _ d => inv acc d /\ bytes (txq d) = []).
Proof. apply (runs_pre _ _ _ _ (runs_flush_loop acc 63)). intros d I. split; [done|apply bytes_length]. Qed.

(** ** The input buffer *)

Lemma runs_notify acc k : runs (fun d => (core acc d /\ (mode d = QUEUE \/ inv acc d)) /\ kbd d = k) serial_notify (fun _ d => inv acc d /\ kbd d = k).
Proof.
  intros d ((C & H) & Hk). unfold serial_notify. erewrite stbind_step by reflexivity. destruct (mode d) eqn:Hm; [destruct H; [done|by split]..|].
  exact (runs_write_ier acc k d (conj C Hk)).
Qed.

Lemma core_buffer acc d q : inv acc d -> intq_wf q -> core acc (with_buffer d q) /\ (mode (with_buffer d q) = QUEUE \/ inv acc (with_buffer d q)).
Proof.
  intros [H1 H2 H3 H4 H5 H6 H7] W. split; [by constructor|]. destruct (mode d) eqn:Hm; cbn; [right..|by left].
  all: constructor; cbn -[uart_of]; rewrite ?Hm in *; done.
Qed.

Lemma runs_input_putc acc ks cl l c :
  runs (fun d => inv acc d /\ intq_full (buffer d) = false /\ kbd d = (ks, cl, l)) (input_putc c) (fun _ d => inv acc d /\ kbd d = (ks, cl, l ++ [c])).
Proof.
  intros d (I & Hf & Hk). destruct (add_byte_Ok (buffer d) c (i_buffer acc d I) Hf) as (q' & E & W' & Hb & _).
  unfold input_putc. erewrite stbind_step by reflexivity. rewrite Hf. erewrite stbind_step by reflexivity.
  erewrite stbind_step by (rewrite E; reflexivity). apply (runs_notify acc). split; [apply core_buffer; [done|by destruct W']|].
  unfold kbd in *. cbn -[bytes]. injection Hk as <- <- <-. by rewrite <- Hb.
Qed.

Lemma runs_input_getc acc ks cl l :
  runs (fun d => inv acc d /\ kbd d = (ks, cl, l)) input_getc (fun r d => inv acc d /\ kbd d = (ks, cl, drop 1 l) /\ r = l !! 0%nat).
Proof.
  intros d (I & Hk). pose proof Hk as Hk'. unfold kbd in Hk'. injection Hk' as Hks Hcl Hl. unfold input_getc. erewrite stbind_step by reflexivity.
  destruct (intq_empty (buffer d)) eqn:He.
  - rewrite empty_bytes in He by apply I. apply bool_decide_eq_true in He. rewrite He in Hl. by subst l.
  - destruct (take_byte_Ok (buffer d) (i_buffer acc d I) He) as (b & q' & E & W' & Hb & _).
    erewrite stbind_step by (rewrite E; reflexivity). eapply runs_bind; [apply (runs_notify acc (ks, cl, drop 1 l))| |].
    + intros ?. apply runs_ret. intros d' (I' & Hk'). by rewrite Hb in Hl; subst l.
    + split; [apply core_buffer; [done|by destruct W']|]. unfold kbd. cbn -[bytes]. rewrite Hb in Hl. by subst.
Qed.

(** ** The serial interrupt *)

Definition with_ins (d : dev) (l : list Z) : dev := MkDev (keys d) (caps_lock d) (key_cnt d) (buffer d) (mode d) (txq d) l (outs d).

Lemma runs_inb port (P : dev -> Prop) : (forall d l, P d -> P (with_ins d l)) -> runs P (inb port) (fun _ => P).
Proof. intros H d Hd. unfold inb. destruct (ins d) as [|x l]; [done|]. by apply (H d l). Qed.

Lemma inv_ins acc d l : inv acc d -> inv acc (with_ins d l).
Proof. by intros []; constructor. Qed.

Lemma runs_receive_loop acc n : runs (fun d => inv acc d /\ (63 <= length (bytes (buffer d)) + n)%nat) (receive_loop (S n)) (fun _ => inv acc).
Proof.
  induction n as [|n IH]; intros d (I & Hn); cbn [receive_loop]; erewrite stbind_step by reflexivity; destruct (intq_full (buffer d)) eqn:Hf; try done.
  { rewrite full_bytes in Hf by apply I. apply bool_decide_eq_false in Hf. pose proof (bytes_length (buffer d)). lia. }
  set (P := fun d' => inv acc d' /\ intq_full (buffer d') = false /\ kbd d' = (keys d, caps_lock d, bytes (buffer d))).
  assert (HP : forall d' l, P d' -> P (with_ins d' l)) by (intros d' l (I' & ?); split; [by apply inv_ins|done]).
  eapply (runs_bind P); [exact (runs_inb LSR_REG P HP)| |done]. intros x. cbv beta. destruct (Z.land x LSR_DR =? 0); [by apply runs_ret; intros ? []|].
  eapply runs_bind; [exact (runs_inb RBR_REG P HP)|]. intros c. eapply runs_bind; [apply runs_input_putc|].
  intros ?. apply (runs_pre _ _ _ _ IH). intros d3 (I3 & Hk). split; [done|]. injection Hk as _ _ ->. rewrite length_app. cbn -[bytes]. lia.
Qed.

Lemma runs_transmit_loop acc n : runs (fun d => inv acc d /\ (length (bytes (txq d)) <= n)%nat) (transmit_loop (S n)) (fun _ => inv acc).
Proof.
  induction n as [|n IH]; intros d (I & Hn); cbn [transmit_loop]; erewrite stbind_step by reflexivity; destruct (intq_empty (txq d)) eqn:He; try done.
  { rewrite empty_bytes in He by apply I. apply bool_decide_eq_false in He. destruct (bytes (txq d)); [done|cbn in Hn; lia]. }
  set (P := fun d' => inv acc d' /\ intq_empty (txq d') = false /\ (length (bytes (txq d')) <= S n)%nat).
  assert (HP : forall d' l, P d' -> P (with_ins d' l)) by (intros d' l (I' & ?); split; [by apply inv_ins|done]).
  eapply (runs_bind P); [exact (runs_inb LSR_REG P HP)| |done]. intros x. cbv beta. destruct (Z.land x LSR_THRE =? 0); [by apply runs_ret; intros ? []|].
  apply (runs_assoc P txq_getc (outb THR_REG) (fun _ => transmit_loop (S n))).
  eapply runs_bind; [exact (runs_send_out acc n)|]. intros ?. exact IH.
Qed.

Lemma runs_serial_interrupt acc : runs (inv acc) serial_interrupt (fun _ => inv acc).
Proof.
  unfold serial_interrupt. eapply runs_bind; [apply (runs_inb IIR_REG (inv acc)), inv_ins|]. intros ?.
  eapply runs_bind; [apply (runs_pre _ _ _ _ (runs_receive_loop acc 63)); intros d I; split; [done|lia]|]. intros ?.
  eapply runs_bind; [apply (runs_pre _ _ _ _ (runs_transmit_loop acc 63)); intros d I; split; [done|apply bytes_length]|]. intros ?.
  apply (runs_pre _ _ _ _ (runs_write_ier_any acc)), inv_core.
Qed.

(** ** The keyboard *)

(** The United States layout, row by row: scancode, character, character with Shift. *)
Definition row (code : Z) (plain shifted : list Z) : list (Z * Z * Z) :=
  imap (fun i p => (code + Z.of_nat i, p.1, p.2)) (zip plain shifted).

Definition layout : list (Z * Z * Z) :=
  row 0x01 [27] [27] ++ row 0x02 (chars "1234567890-=" ++ [8; 9]) (chars "!@#$%^&*()_+" ++ [8; 9]) ++
  row 0x10 (chars "qwertyuiop[]" ++ [13]) (chars "QWERTYUIOP{}" ++ [13]) ++
  row 0x1e (chars "asdfghjkl;'`") (chars "ASDFGHJKL:" ++ [34; 126]) ++
  row 0x2b (chars "\zxcvbnm,./") (chars "|ZXCVBNM<>?") ++
  row 0x37 (chars "*") (chars "*") ++ row 0x39 (chars " ") (chars " ") ++ row 0x53 [127] [127].

Definition is_letter (c : Z) : bool := (97 <=? c) && (c <=? 122).
Definition upper (c : Z) : Z := if is_letter c then c - 32 else c.

(** What a key means: Caps Lock inverts Shift for letters only, Ctrl makes
    control characters, Alt adds 128. *)
Definition meaning (shift alt ctrl caps : bool) (key : Z * Z * Z) : Z :=
  let '(_, plain, shifted) := key in
  let c := if xorb shift (caps && is_letter plain) then shifted else plain in
  let c := if ctrl && (64 <=? upper c) && (upper c <=? 95) then upper c - 64 else c in
  if alt then c + 128 else c.

Definition modifiers : list (Z * (shifts -> bool)) :=
  [(0x2a, left_shift); (0x36, right_shift); (0x38, left_alt); (0xe038, right_alt); (0x1d, left_ctrl); (0xe01d, right_ctrl)].

(** What the keyboard sends when a key goes down or up. *)
Definition scancode (code : Z) (up : bool) : list Z :=
  let byte := Z.land code 0xff + (if up then 0x80 else 0) in
  if code <? 0x100 then [byte] else [0xe0; byte].

Definition is_key (code : Z) : Prop := 0 <= code < 0x60 \/ 0xe000 <= code < 0xe060.

Definition find_key (code : Z) : option (Z * Z * Z) := snd <$> list_find (fun k : Z * Z * Z => k.1.1 = code) layout.

Definition looked_up (shift : bool) (code : Z) : option Z :=
  match map_key invariant_keymap code with Some c => Some c | None => if shift then map_key shifted_keymap code else map_key unshifted_keymap code end.

Definition agrees (code : Z) (s a c k : bool) : bool :=
  match looked_up s code, find_key code with
  | Some ch, Some key => (modify_char s a c k ch =? meaning s a c k key) && eqb (ch =? 127) (code =? 0x53)
  | None, None => true
  | _, _ => false
  end.

Definition keys_list : list Z := (Z.of_nat <$> seq 0 96) ++ ((fun i => 0xe000 + Z.of_nat i) <$> seq 0 96).

Lemma is_key_list code : is_key code -> code ∈ keys_list.
Proof.
  intros H. unfold keys_list. rewrite elem_of_app, !list_elem_of_fmap. destruct H; [left|right].
  - exists (Z.to_nat code). rewrite elem_of_seq. lia.
  - exists (Z.to_nat (code - 0xe000)). rewrite elem_of_seq. lia.
Qed.

Lemma all_agree : forallb (fun code => forallb (fun s => forallb (fun a => forallb (fun c => forallb (fun k => agrees code s a c k)
  [true; false]) [true; false]) [true; false]) [true; false]) keys_list = true.
Proof. vm_compute. reflexivity. Qed.

Lemma key_agrees code s a c k : is_key code -> agrees code s a c k = true.
Proof.
  intros H%is_key_list. pose proof all_agree as A. rewrite forallb_forall in A. apply list_elem_of_In in H. specialize (A code H). cbn in A.
  rewrite !andb_true_iff in A. destruct s, a, c, k; tauto.
Qed.

(** Reading a scancode, and telling a press from a release. *)
Definition decodes (x code : Z) (up : bool) : bool := eqb (negb (Z.land x 0x80 =? 0)) up && (Z.ldiff x 0x80 =? code).

Definition scan_ok (code : Z) (up : bool) : bool :=
  match scancode code up with
  | [x] => negb (x =? 0xe0) && decodes x code up
  | [p; x] => (p =? 0xe0) && decodes (Z.lor (Z.shiftl p 8) x) code up
  | _ => false
  end.

Lemma all_scan : forallb (fun code => scan_ok code true && scan_ok code false) keys_list = true.
Proof. vm_compute. reflexivity. Qed.

Lemma read_scancode_ok d code up rest : is_key code -> ins d = scancode code up ++ rest ->
  exists x, read_scancode d = Ok (x, with_ins d rest) /\ decodes x code up = true.
Proof.
  intros H%is_key_list Hi. pose proof all_scan as A. rewrite forallb_forall in A. apply list_elem_of_In in H. specialize (A code H). cbv beta in A.
  apply andb_true_iff in A. assert (S : scan_ok code up = true) by (destruct up; tauto). clear A H. unfold scan_ok in S.
  destruct (scancode code up) as [|x [|y [|]]]; try done; apply andb_true_iff in S as [E S]; cbn in Hi; unfold read_scancode.
  - exists x. split; [|done]. erewrite stbind_step by (unfold inb; rewrite Hi; reflexivity). apply negb_true_iff in E. by rewrite E.
  - eexists. split; [|exact S]. erewrite stbind_step by (unfold inb; rewrite Hi; reflexivity). rewrite E. by erewrite stbind_step by reflexivity.
Qed.

(** The six keys of [modifiers] and no others change the state they are named for. *)
Lemma set_shift_spec ks code down code' f : (code', f) ∈ modifiers -> f (set_shift ks code down) = if code' =? code then down else f ks.
Proof.
  intros H. unfold modifiers in H. rewrite !elem_of_cons, elem_of_nil in H. unfold set_shift.
  repeat match goal with |- context [if code =? ?n then _ else _] => destruct (Z.eqb_spec code n) as [->|] end;
    destruct H as [H|[H|[H|[H|[H|[H|[]]]]]]]; injection H as -> ->; try done; match goal with |- context [?a =? ?b] => destruct (Z.eqb_spec a b) end; congruence.
Qed.

Lemma modifier_no_char code f : (code, f) ∈ modifiers -> find_key code = None /\ (code =? 0x3a) = false.
Proof.
  unfold modifiers. rewrite !elem_of_cons, elem_of_nil. intros H. destruct H as [H|[H|[H|[H|[H|[H|[]]]]]]]; injection H as -> _; split; vm_compute; reflexivity.
Qed.

Lemma modifier_other code code' f : (code', f) ∈ modifiers -> find_key code <> None \/ (code =? 0x3a) = true -> (code' =? code) = false.
Proof. intros H Hc. destruct (modifier_no_char code' f H) as [E1 E2]. destruct (Z.eqb_spec code' code) as [->|]; [|done]. destruct Hc; congruence. Qed.

Definition held (l r : shifts -> bool) (d : dev) : bool := l (keys d) || r (keys d).

Lemma notify_total d : exists d', serial_notify d = Ok (tt, d').
Proof. unfold serial_notify. erewrite stbind_step by reflexivity. destruct (mode d); [by eexists..|]. unfold write_ier, outb, input_full, state, get, mbind, stM_bind. cbn. by eexists. Qed.

Lemma key_typed acc d c : inv acc d -> intq_full (buffer d) = false ->
  exists d', (modify (fun d : dev => with_count d (s64 (key_cnt d + 1)));; input_putc c) d = Ok (tt, d') /\ inv acc d' /\
    keys d' = keys d /\ caps_lock d' = caps_lock d /\ bytes (buffer d') = bytes (buffer d) ++ [c].
Proof.
  intros I Hf. erewrite stbind_step by reflexivity. set (d1 := with_count d _). assert (I1 : inv acc d1) by (by destruct I; constructor).
  pose proof (runs_input_putc acc (keys d) (caps_lock d) (bytes (buffer d)) c d1 (conj I1 (conj Hf eq_refl))) as R.
  destruct (input_putc c d1) as [[[] d']|e] eqn:E.
  - destruct R as (I' & Hk). exists d'. injection Hk as -> -> ->. done.
  - exfalso. destruct (add_byte_Ok (buffer d1) c (i_buffer acc d1 I1) Hf) as (q' & Ea & _). unfold input_putc in E. erewrite stbind_step in E by reflexivity.
    change (buffer d1) with (buffer d) in *. rewrite Hf in E. erewrite stbind_step in E by reflexivity. erewrite stbind_step in E by (change (buffer d1) with (buffer d); rewrite Ea; reflexivity).
    destruct (notify_total (with_buffer d1 (set_waiting q' NotEmpty None))) as (d' & En). by rewrite En in E.
Qed.

(** The interrupt did nothing but read the scancode. *)
Local Ltac ignored d rest Hmod :=
  exists (with_ins d rest); split; [reflexivity|]; split; [done|]; split; [by rewrite app_nil_r|]; split; [done|]; exact Hmod.

(** The keyboard: when a key goes down, the character that the United States
    layout gives it, under the modifiers that are held, is appended to the
    input, if there is room; the six modifier keys set and clear their own
    state and no other; Caps Lock toggles; Ctrl+Alt+Del reboots, and nothing
    else does; releasing a key changes nothing but modifiers. *)
Theorem kbd_layout acc d code up rest :
  inv acc d -> is_key code -> ins d = scancode code up ++ rest ->
  let shift := held left_shift right_shift d in
  let alt := held left_alt right_alt d in
  let ctrl := held left_ctrl right_ctrl d in
  let reboot := negb up && (code =? 0x53) && ctrl && alt in
  exists d', keyboard_interrupt d = Ok (reboot, d') /\ inv acc d' /\
    bytes (buffer d') = bytes (buffer d) ++
      match find_key code with Some key => if up || reboot || intq_full (buffer d) then [] else [meaning shift alt ctrl (caps_lock d) key] | None => [] end /\
    caps_lock d' = (if (code =? 0x3a) && negb up then negb (caps_lock d) else caps_lock d) /\
    forall code' f, (code', f) ∈ modifiers -> f (keys d') = if code' =? code then negb up else f (keys d).
Proof.
  intros I Hk Hi shift alt ctrl reboot. destruct (read_scancode_ok d code up rest Hk Hi) as (x & E & Hx).
  unfold decodes in Hx. apply andb_true_iff in Hx as [Hup%eqb_prop Hc%Z.eqb_eq].
  unfold keyboard_interrupt. erewrite stbind_step by reflexivity. erewrite stbind_step by exact E. rewrite Hup, Hc. clear Hup Hc. fold (held left_shift right_shift d) (held left_alt right_alt d) (held left_ctrl right_ctrl d). fold shift alt ctrl.
  pose proof (key_agrees code shift alt ctrl (caps_lock d) Hk) as A. unfold agrees in A. fold (looked_up shift code).
  assert (I' : inv acc (with_ins d rest)) by (by apply inv_ins).
  destruct (code =? 0x3a) eqn:E3a.
  - assert (code = 0x3a) by (by apply Z.eqb_eq). subst code. replace reboot with false by (unfold reboot; destruct up; reflexivity).
    destruct up; erewrite stbind_step by reflexivity; (eexists; split; [reflexivity|]; split; [by destruct I'; constructor|];
      split; [by rewrite app_nil_r|]; split; [done|]; intros code' f Hf; by rewrite (modifier_other 0x3a code' f Hf) by (by right)).
  - destruct (looked_up shift code) as [c|] eqn:El, (find_key code) as [key|] eqn:Ef; try done.
    + apply andb_true_iff in A as [Am%Z.eqb_eq A7%eqb_prop].
      assert (Hmod : forall code' f, (code', f) ∈ modifiers -> f (keys d) = if code' =? code then negb up else f (keys d)).
      { intros code' f Hf. rewrite (modifier_other code code' f Hf); [done|]. left. by rewrite Ef. }
      unfold reboot. destruct up; cbn [negb andb orb] in *; [ignored d rest Hmod|]. rewrite A7. destruct ((code =? 0x53) && ctrl && alt); [ignored d rest Hmod|].
      erewrite stbind_step by reflexivity. cbn [buffer with_ins orb]. destruct (intq_full (buffer d)) eqn:Efull; [ignored d rest Hmod|].
      rewrite Am. destruct (key_typed acc (with_ins d rest) (meaning shift alt ctrl (caps_lock d) key) I' Efull) as (d' & E' & Id' & Hks & Hcl & Hby).
      erewrite stbind_step by exact E'. exists d'. by rewrite Hks, Hcl.
    + replace reboot with false by (unfold reboot; destruct (Z.eqb_spec code 0x53) as [->|]; [by vm_compute in Ef|destruct up; reflexivity]).
      eexists. split; [reflexivity|]. split; [by destruct I'; constructor|]. split; [by rewrite app_nil_r|]. split; [done|].
      intros code' f Hf. by apply set_shift_spec.
Qed.

Lemma kbd_layout_witness :
  let d := MkDev (MkShifts true false false false false false) true 0 (intq_init (replicate 64 0)) UNINIT (intq_init (replicate 64 0)) [0x1e] [] in
  inv [] d /\ exists d', keyboard_interrupt d = Ok (false, d') /\ bytes (buffer d') = chars "a".
Proof.
  set (d := MkDev _ _ _ _ _ _ _ _). cbv zeta.
  assert (I : inv [] d) by (constructor; done).
  split; [exact I|]. destruct (kbd_layout [] d 0x1e false [] I ltac:(left; lia) eq_refl) as (d' & E & _ & Hb & _). exists d'. split; [exact E|]. rewrite Hb. reflexivity.
Defined.

(** ** The whole system *)

Inductive call := SerialPutc (intr_on : bool) (byte : Z) | SerialFlush | SerialInterrupt | SerialInitQueue | KeyboardInterrupt | InputGetc.

(** What a call does, and the byte that it accepts for transmission. *)
Definition perform (g : list Z) (c : call) : stM dev (list Z) :=
  match c with
  | SerialPutc on b => r ← serial_putc g on b; mret (match r with Some _ => [b] | None => [] end)
  | SerialFlush => serial_flush;; mret []
  | SerialInterrupt => serial_interrupt;; mret []
  | SerialInitQueue => serial_init_queue g;; mret []
  | KeyboardInterrupt => keyboard_interrupt;; mret []
  | InputGetc => input_getc;; mret []
  end.

(** Bytes are bytes, and serial_init_queue is called once. *)
Definition allowed (d : dev) (c : call) : Prop :=
  match c with SerialPutc _ b => is_u8 b | SerialInitQueue => mode d <> QUEUE | _ => True end.

Definition booted (g : list Z) (ks : shifts) (input : list Z) : dev :=
  MkDev ks false 0 (intq_init g) UNINIT (intq_init (replicate 64 0)) input [].

Inductive reaches (g : list Z) : list Z -> dev -> Prop :=
  | reaches_boot ks input : reaches g [] (booted g ks input)
  | reaches_call acc d c l d' : reaches g acc d -> allowed d c -> perform g c d = Ok (l, d') -> reaches g (acc ++ l) d'
  | reaches_input acc d l : reaches g acc d -> reaches g acc (with_ins d l).

Lemma runs_keyboard acc : runs (inv acc) keyboard_interrupt (fun _ => inv acc).
Proof.
  unfold keyboard_interrupt. eapply runs_bind; [apply (runs_state _ (fun _ => inv acc)); done|]. intros d0.
  assert (HP : forall d l, inv acc d -> inv acc (with_ins d l)) by apply inv_ins.
  eapply runs_bind with (R := fun _ => inv acc).
  { unfold read_scancode. eapply runs_bind; [by apply runs_inb|]. intros x. destruct (x =? 0xe0); [|by apply runs_ret].
    eapply runs_bind; [by apply runs_inb|]. intros y. by apply runs_ret. }
  intros x. cbv beta zeta. destruct (Z.ldiff x 128 =? 0x3a).
  { eapply runs_bind with (R := fun _ => inv acc); [|intros ?; by apply runs_ret]. destruct (negb _); [by apply runs_ret|].
    apply runs_modify. by intros d []; constructor. }
  destruct (match map_key invariant_keymap _ with Some c => _ | None => _ end) as [c|].
  - destruct (negb _); [by apply runs_ret|]. destruct (_ && _); [by apply runs_ret|]. intros d I. erewrite stbind_step by reflexivity.
    destruct (intq_full (buffer d)) eqn:Hf; [done|].
    destruct (key_typed acc d (modify_char (left_shift (keys d0) || right_shift (keys d0)) (left_alt (keys d0) || right_alt (keys d0)) (left_ctrl (keys d0) || right_ctrl (keys d0)) (caps_lock d0) c) I Hf) as (d' & E & I' & _).
    by erewrite stbind_step by exact E.
  - eapply runs_bind with (R := fun _ => inv acc); [|intros ?; by apply runs_ret]. apply runs_modify. by intros d []; constructor.
Qed.

Lemma runs_perform acc g c : length g = 64%nat -> runs (fun d => inv acc d /\ allowed d c) (perform g c) (fun l => inv (acc ++ l)).
Proof.
  intros Hg. destruct c as [on b| | | | |]; cbn [perform allowed].
  - intros d (I & Hb). eapply runs_bind; [apply (runs_serial_putc acc g on b Hg Hb)| |exact I]. intros r. apply runs_ret. intros d' I'. destruct r; [done|by rewrite app_nil_r].
  - eapply runs_bind; [apply (runs_pre _ _ _ _ (runs_flush acc)); by intros ? []|]. intros ?. apply runs_ret. intros ? []. by rewrite app_nil_r.
  - eapply runs_bind; [apply (runs_pre _ _ _ _ (runs_serial_interrupt acc)); by intros ? []|]. intros ?. apply runs_ret. intros. by rewrite app_nil_r.
  - eapply runs_bind; [apply (runs_init_queue acc g Hg)|]. intros ?. apply runs_ret. intros. by rewrite app_nil_r.
  - eapply runs_bind; [apply (runs_pre _ _ _ _ (runs_keyboard acc)); by intros ? []|]. intros ?. apply runs_ret. intros. by rewrite app_nil_r.
  - intros d (I & _). eapply runs_bind; [apply (runs_input_getc acc (keys d) (caps_lock d) (bytes (buffer d)))| |done].
    intros ?. apply runs_ret. intros ? []. by rewrite app_nil_r.
Qed.

Lemma reaches_inv g acc d : length g = 64%nat -> reaches g acc d -> inv acc d.
Proof.
  intros Hg. induction 1 as [ks input|acc d c l d' _ IH Ha E|acc d l _ IH].
  - constructor; done.
  - pose proof (runs_perform acc g c Hg d (conj IH Ha)) as R. by rewrite E in R.
  - by apply inv_ins.
Qed.

(** The serial port, whatever order of calls and interrupts: the bytes that
    have gone out are, in order, those that serial_putc has accepted, less what
    is still queued, and serial_flush sends these; in queued mode the receive
    interrupt is enabled exactly when the input buffer has room, and the
    transmit interrupt is enabled while bytes are queued; and no call fails, it
    can only wait for the device. *)
Theorem serial_in_order g acc d :
  length g = 64%nat -> reaches g acc d ->
  acc = line (uart_of (outs d)) ++ bytes (txq d) /\
  (mode d = QUEUE -> Z.testbit (ier (uart_of (outs d))) 0 = negb (intq_full (buffer d)) /\
    (bytes (txq d) <> [] -> Z.testbit (ier (uart_of (outs d))) 1 = true)) /\
  (forall d', serial_flush d = Ok (tt, d') -> line (uart_of (outs d')) = acc) /\
  (forall c e, allowed d c -> perform g c d = Err e -> e = EFault).
Proof.
  intros Hg Hr. pose proof (reaches_inv g acc d Hg Hr) as I. split; [apply I|]. split; [|split].
  - intros Hm. split; [by apply I|]. by apply (i_xmit acc d I).
  - intros d' E. pose proof (runs_flush acc d I) as R. rewrite E in R. destruct R as (I' & Hb). pose proof (i_line acc d' I') as Hl. by rewrite Hb, app_nil_r in Hl.
  - intros c e Ha E. pose proof (runs_perform acc g c Hg d (conj I Ha)) as R. by rewrite E in R.
Qed.

Lemma serial_in_order_witness :
  exists d, reaches (replicate 64 0) (chars "a") d /\ mode d = QUEUE /\ chars "a" = line (uart_of (outs d)) ++ bytes (txq d) /\ bytes (txq d) = chars "a".
Proof.
  set (g := replicate 64 0). set (ks := MkShifts false false false false false false).
  destruct (perform g SerialInitQueue (booted g ks [])) as [[l1 d1]|e] eqn:E1; [|by vm_compute in E1].
  destruct (perform g (SerialPutc true 97) d1) as [[l2 d2]|e] eqn:E2; [|by vm_compute in E1; injection E1 as <- <-; vm_compute in E2].
  assert (R : reaches g (([] ++ l1) ++ l2) d2).
  { eapply reaches_call; [eapply reaches_call; [apply (reaches_boot g ks [])| |exact E1]; by cbn| |exact E2]. by vm_compute. }
  vm_compute in E1. injection E1 as <- <-. vm_compute in E2. injection E2 as <- <-.
  eexists. split; [exact R|]. split; [reflexivity|]. split; [exact (proj1 (serial_in_order g (chars "a") _ ltac:(reflexivity) R))|reflexivity].
Defined.
