(* ===== verification/Segments.v ===== *)
(** Segment and interrupt descriptors: userprog/gdt.c, userprog/tss.c, and the
    gates of threads/interrupt.c.

    A descriptor is a 64-bit value that the processor takes apart.  [field] is
    how: the decoders below are those of the manual that the sources cite,
    [IA32-v3a] 3.4.5 and 5.11. *)

From stdpp Require Import base list numbers.
From Stdlib Require Import ZArith Lia.
From S2P Require Import Prelude.
Open Scope Z_scope.

(** ** Descriptors *)

Definition SEL_NULL : Z := 0x00.
Definition SEL_KCSEG : Z := 0x08.
Definition SEL_KDSEG : Z := 0x10.
Definition SEL_UCSEG : Z := 0x1B.
Definition SEL_UDSEG : Z := 0x23.
Definition SEL_TSS : Z := 0x28.
Definition SEL_CNT : Z := 6.

Inductive seg_class := CLS_SYSTEM | CLS_CODE_DATA.
Inductive seg_granularity := GRAN_BYTE | GRAN_PAGE.

Definition class_code (c : seg_class) : Z := match c with CLS_SYSTEM => 0 | CLS_CODE_DATA => 1 end.
Definition gran_code (g : seg_granularity) : Z := match g with GRAN_BYTE => 0 | GRAN_PAGE => 1 end.

Definition make_seg_desc (base limit : Z) (class : seg_class) (type dpl : Z) (granularity : seg_granularity) : res Z :=
  _ ← ASSERT (limit <=? 0xfffff);
  _ ← ASSERT ((0 <=? type) && (type <=? 15));
  _ ← ASSERT ((0 <=? dpl) && (dpl <=? 3));
  let e0 := Z.lor (Z.land limit 0xffff) (u32 (Z.shiftl base 16)) in
  let e1 := Z.lor (Z.lor (Z.lor (Z.lor (Z.lor (Z.lor (Z.lor (Z.lor
              (Z.land (Z.shiftr base 16) 0xff)
              (Z.shiftl type 8))
              (Z.shiftl (class_code class) 12))
              (Z.shiftl dpl 13))
              (Z.shiftl 1 15))
              (Z.land limit 0xf0000))
              (Z.shiftl 1 22))
              (Z.shiftl (gran_code granularity) 23))
              (Z.land base 0xff000000) in
  Ok (Z.lor e0 (Z.shiftl e1 32)).

Definition make_code_desc (dpl : Z) : res Z := make_seg_desc 0 0xfffff CLS_CODE_DATA 10 dpl GRAN_PAGE.
Definition make_data_desc (dpl : Z) : res Z := make_seg_desc 0 0xfffff CLS_CODE_DATA 2 dpl GRAN_PAGE.
Definition make_tss_desc (laddr : Z) : res Z := make_seg_desc laddr 0x67 CLS_SYSTEM 9 0 GRAN_BYTE.

(** make_gdtr_operand and make_idtr_operand: limit and base. *)
Definition make_dtr_operand (limit base : Z) : Z := Z.lor limit (Z.shiftl base 16).

(** [function] is the address of the stub. *)
Definition make_gate (function dpl type : Z) : res Z :=
  _ ← ASSERT (negb (function =? 0));
  _ ← ASSERT ((0 <=? dpl) && (dpl <=? 3));
  _ ← ASSERT ((0 <=? type) && (type <=? 15));
  let e0 := Z.lor (Z.land function 0xffff) (Z.shiftl SEL_KCSEG 16) in
  let e1 := Z.lor (Z.lor (Z.lor (Z.lor
              (Z.land function 0xffff0000)
              (Z.shiftl 1 15))
              (Z.shiftl dpl 13))
              (Z.shiftl 0 12))
              (Z.shiftl type 8) in
  Ok (Z.lor e0 (Z.shiftl e1 32)).

Definition make_intr_gate (function dpl : Z) : res Z := make_gate function dpl 14.
Definition make_trap_gate (function dpl : Z) : res Z := make_gate function dpl 15.

(** ** The task-state segment *)

Record tss := MkTss {
  back_link : Z; esp0 : Z; ss0 : Z; esp1 : Z; ss1 : Z; esp2 : Z; ss2 : Z; cr3 : Z; tss_eip : Z; tss_eflags : Z;
  tss_eax : Z; tss_ecx : Z; tss_edx : Z; tss_ebx : Z; tss_esp : Z; tss_ebp : Z; tss_esi : Z; tss_edi : Z;
  tss_es : Z; tss_cs : Z; tss_ss : Z; tss_ds : Z; tss_fs : Z; tss_gs : Z; ldt : Z; trace : Z; bitmap : Z
}.

Definition PGSIZE : Z := 4096.

(** The page that palloc_get_page returns, filled with zeros. *)
Definition zero_tss : tss := MkTss 0 0 0 0 0 0 0 0 0 0 0 0 0 0 0 0 0 0 0 0 0 0 0 0 0 0 0.

(** [tss] is the pointer with what it points to, [None] is NULL;
    [current] is the address of the running thread's page. *)
Definition tss_update (t : option (Z * tss)) (current : Z) : res (option (Z * tss)) :=
  match t with
  | None => Err EAssert
  | Some (a, t) =>
      Ok (Some (a, MkTss (back_link t) (u32 (current + PGSIZE)) (ss0 t) (esp1 t) (ss1 t) (esp2 t) (ss2 t) (cr3 t) (tss_eip t) (tss_eflags t)
        (tss_eax t) (tss_ecx t) (tss_edx t) (tss_ebx t) (tss_esp t) (tss_ebp t) (tss_esi t) (tss_edi t)
        (tss_es t) (tss_cs t) (tss_ss t) (tss_ds t) (tss_fs t) (tss_gs t) (ldt t) (trace t) (bitmap t)))
  end.

(** [page] is what palloc_get_page returns; it panics instead of returning NULL. *)
Definition tss_init (page : option Z) (current : Z) : res (option (Z * tss)) :=
  page ← of_option EPanic page;
  tss_update (Some (page, MkTss 0 0 SEL_KDSEG 0 0 0 0 0 0 0 0 0 0 0 0 0 0 0 0 0 0 0 0 0 0 0 0xdfff)) current.

Definition tss_get (t : option (Z * tss)) : res Z :=
  match t with None => Err EAssert | Some (a, _) => Ok a end.

(** ** The descriptor table *)

(** The table, the operand of lgdt and the operand of ltr. *)
Definition gdt_init (gdt_addr : Z) (t : option (Z * tss)) : res (list Z * Z * Z) :=
  kc ← make_code_desc 0;
  kd ← make_data_desc 0;
  uc ← make_code_desc 3;
  ud ← make_data_desc 3;
  a ← tss_get t;
  ts ← make_tss_desc a;
  let gdt := <[Z.to_nat (SEL_TSS / 8) := ts]> (<[Z.to_nat (SEL_UDSEG / 8) := ud]> (<[Z.to_nat (SEL_UCSEG / 8) := uc]>
    (<[Z.to_nat (SEL_KDSEG / 8) := kd]> (<[Z.to_nat (SEL_KCSEG / 8) := kc]> (<[Z.to_nat (SEL_NULL / 8) := 0]> (replicate (Z.to_nat SEL_CNT) 0)))))) in
  Ok (gdt, make_dtr_operand (SEL_CNT * 8 - 1) gdt_addr, SEL_TSS).

(** ** How the processor reads them *)

Definition field (k w d : Z) : Z := Z.land (Z.shiftr d k) (Z.ones w).

Definition desc_base (d : Z) : Z := Z.lor (field 16 24 d) (Z.shiftl (field 56 8 d) 24).
Definition desc_limit (d : Z) : Z := Z.lor (field 0 16 d) (Z.shiftl (field 48 4 d) 16).
Definition desc_type (d : Z) : Z := field 40 4 d.
Definition desc_class (d : Z) : Z := field 44 1 d.
Definition desc_dpl (d : Z) : Z := field 45 2 d.
Definition desc_present (d : Z) : Z := field 47 1 d.
Definition desc_32bit (d : Z) : Z := field 54 1 d.
Definition desc_gran (d : Z) : Z := field 55 1 d.

(** The last byte of a segment. *)
Definition desc_last (d : Z) : Z := if desc_gran d =? 0 then desc_limit d else desc_limit d * 4096 + 4095.

Definition gate_offset (d : Z) : Z := Z.lor (field 0 16 d) (Z.shiftl (field 48 16 d) 16).
Definition gate_selector (d : Z) : Z := field 16 16 d.
Definition gate_type (d : Z) : Z := field 40 4 d.
Definition gate_system (d : Z) : Z := field 44 1 d.
Definition gate_dpl (d : Z) : Z := field 45 2 d.
Definition gate_present (d : Z) : Z := field 47 1 d.

(** ** Bits *)

Lemma high_bit x n i : 0 <= x < 2 ^ n -> n <= i -> Z.testbit x i = false.
Proof.
  intros Hx Hi. destruct (Z.eq_dec x 0) as [->|Hne]; [apply Z.testbit_0_l|]. apply Z.bits_above_log2; [lia|].
  apply Z.log2_lt_pow2; [lia|]. eapply Z.lt_le_trans; [apply Hx|]. apply Z.pow_le_mono_r; lia.
Qed.

Lemma testbit_u32 x i : 0 <= i -> Z.testbit (u32 x) i = (i <? 32) && Z.testbit x i.
Proof.
  intros Hi. unfold u32. destruct (Z.ltb_spec i 32).
  - by rewrite Z.mod_pow2_bits_low by lia.
  - by rewrite Z.mod_pow2_bits_high by lia.
Qed.

Lemma testbit_shiftl a n i : 0 <= i -> Z.testbit (Z.shiftl a n) i = (n <=? i) && Z.testbit a (i - n).
Proof.
  intros Hi. rewrite Z.shiftl_spec by done. destruct (Z.leb_spec n i); [done|]. by rewrite Z.testbit_neg_r by lia.
Qed.

Lemma testbit_field k w d i : 0 <= k -> 0 <= w -> 0 <= i -> Z.testbit (field k w d) i = (i <? w) && Z.testbit d (i + k).
Proof.
  intros Hk Hw Hi. unfold field. rewrite Z.land_spec, Z.shiftr_spec, Z.testbit_ones_nonneg by done. destruct (i <? w); [by rewrite andb_true_r|by rewrite andb_false_r].
Qed.

Lemma field_eq k w d x : 0 <= k -> 0 <= w -> 0 <= x < 2 ^ w -> (forall i, 0 <= i < w -> Z.testbit d (i + k) = Z.testbit x i) -> field k w d = x.
Proof.
  intros Hk Hw Hx H. apply Z.bits_inj'. intros i Hi. rewrite testbit_field by done. destruct (Z.ltb_spec i w); [by apply H|]. by rewrite (high_bit x w i) by lia.
Qed.

(** A value put together from two fields. *)
Lemma fields_eq k w k' w' d x : 0 <= k -> 0 <= w -> 0 <= k' -> 0 <= w' -> 0 <= x < 2 ^ (w + w') ->
  (forall i, 0 <= i < w -> Z.testbit d (i + k) = Z.testbit x i) -> (forall i, 0 <= i < w' -> Z.testbit d (i + k') = Z.testbit x (i + w)) ->
  Z.lor (field k w d) (Z.shiftl (field k' w' d) w) = x.
Proof.
  intros Hk Hw Hk' Hw' Hx H H'. apply Z.bits_inj'. intros i Hi. rewrite Z.lor_spec, testbit_field by done. rewrite testbit_shiftl by done.
  destruct (Z.ltb_spec i w), (Z.leb_spec w i); try lia; cbn [andb].
  - by rewrite orb_false_r, H.
  - rewrite testbit_field by lia. cbn [orb]. destruct (Z.ltb_spec (i - w) w'); cbn [andb].
    + rewrite H' by lia. f_equal. lia.
    + by rewrite (high_bit x (w + w') i) by lia.
Qed.

Lemma testbit_mask x k w i : 0 <= k -> 0 <= w -> 0 <= i -> Z.testbit (Z.land x (Z.shiftl (Z.ones w) k)) i = (k <=? i) && (i <? k + w) && Z.testbit x i.
Proof.
  intros Hk Hw Hi. rewrite Z.land_spec, testbit_shiftl by done. destruct (Z.leb_spec k i); cbn [andb]; [|by rewrite andb_false_r].
  rewrite Z.testbit_ones_nonneg by lia. replace (i - k <? w) with (i <? k + w) by (destruct (Z.ltb_spec i (k + w)), (Z.ltb_spec (i - k) w); lia || done).
  by rewrite andb_comm.
Qed.

Lemma testbit_one i : 0 <= i -> Z.testbit 1 i = (i =? 0).
Proof. intros Hi. change 1 with (2 ^ 0). by rewrite Z.pow2_bits_eqb, Z.eqb_sym. Qed.

Lemma u64_bits d : (forall i, 64 <= i -> Z.testbit d i = false) -> is_u64 d.
Proof.
  intros H. assert (E : u64 d = d); [|rewrite <- E; apply u64_range]. apply Z.bits_inj'. intros i Hi. unfold u64. destruct (Z.lt_ge_cases i 64).
  - by rewrite Z.mod_pow2_bits_low.
  - by rewrite Z.mod_pow2_bits_high, H by lia.
Qed.

(** Decides an equation between bits by comparing positions. *)
Ltac bits :=
  repeat first
  [ progress (rewrite ?Z.lor_spec, ?testbit_shiftl, ?testbit_mask, ?testbit_u32, ?Z.shiftr_spec, ?testbit_one, ?Z.testbit_0_l by lia)
  | match goal with
    | |- context [?a <=? ?b] => destruct (Z.leb_spec a b); try lia; cbn [andb orb]
    | |- context [?a <? ?b] => destruct (Z.ltb_spec a b); try lia; cbn [andb orb]
    | |- context [?a =? ?b] => destruct (Z.eqb_spec a b); try lia; cbn [andb orb]
    end ];
  repeat match goal with
  | H : 0 <= ?x < 2 ^ ?n |- context [Z.testbit ?x ?i] => rewrite (high_bit x n i H) by lia
  end;
  rewrite ?andb_false_r, ?orb_false_r; cbn [andb orb]; try (done || (f_equal; lia)).

Ltac masks :=
  change 0xffff with (Z.shiftl (Z.ones 16) 0); change 0xffff0000 with (Z.shiftl (Z.ones 16) 16); change 0xff with (Z.shiftl (Z.ones 8) 0);
  change 0xf0000 with (Z.shiftl (Z.ones 4) 16); change 0xff000000 with (Z.shiftl (Z.ones 8) 24); change (Z.shiftl SEL_KCSEG 16) with (Z.shiftl 1 19).

Lemma make_gate_decodes function dpl type d :
  is_u32 function -> make_gate function dpl type = Ok d ->
  gate_offset d = function /\ gate_selector d = SEL_KCSEG /\ gate_type d = type /\ gate_system d = 0 /\ gate_dpl d = dpl /\ gate_present d = 1.
Proof.
  intros Hf E. unfold make_gate in E. inv_res. zbool. unfold gate_offset, gate_selector, gate_type, gate_system, gate_dpl, gate_present. masks.
  assert (0 <= type < 2 ^ 4) by lia. assert (0 <= dpl < 2 ^ 2) by lia. unfold is_u32 in Hf.
  split; [apply fields_eq; [done..| |]; intros i Hi; bits|].
  repeat split; (apply field_eq; [done..|]); intros i Hi; try change SEL_KCSEG with (Z.shiftl 1 3); bits.
Qed.

Lemma make_gate_ok function dpl type : function <> 0 -> 0 <= dpl <= 3 -> 0 <= type <= 15 -> exists d, make_gate function dpl type = Ok d.
Proof.
  intros Hf Hd Ht. unfold make_gate. rewrite (proj2 (Z.eqb_neq function 0) Hf), !(proj2 (Z.leb_le _ _)) by lia. by eexists.
Qed.

Lemma seg_desc_fields base limit class type dpl gran :
  is_u32 base -> 0 <= limit < 2 ^ 20 -> 0 <= type < 2 ^ 4 -> 0 <= dpl < 2 ^ 2 ->
  exists d, make_seg_desc base limit class type dpl gran = Ok d /\ is_u64 d /\
    desc_base d = base /\ desc_limit d = limit /\ desc_class d = class_code class /\ desc_type d = type /\ desc_dpl d = dpl /\
    desc_gran d = gran_code gran /\ desc_present d = 1 /\ desc_32bit d = 1.
Proof.
  intros Hb Hl Ht Hd. unfold make_seg_desc. rewrite !(proj2 (Z.leb_le _ _)) by lia. cbn [ASSERT andb mbind res_bind]. eexists. split; [reflexivity|].
  unfold is_u32 in Hb. assert (Hc : 0 <= class_code class < 2 ^ 1) by (by destruct class). assert (Hg : 0 <= gran_code gran < 2 ^ 1) by (by destruct gran).
  unfold desc_base, desc_limit, desc_class, desc_type, desc_dpl, desc_gran, desc_present, desc_32bit. masks.
  split; [apply u64_bits; intros i Hi; bits|]. split; [apply fields_eq; [done..| |]; intros i Hi; bits|].
  split; [apply (fields_eq 0 16 48 4); [done..| |]; intros i Hi; bits|]. repeat split; (apply field_eq; [done..|]); intros i Hi; bits.
Qed.

(** A segment descriptor has exactly the base, limit, class, type, privilege
    level and granularity that make_seg_desc was given, as the processor
    decodes them, and describes a present 32-bit segment; and the function
    accepts every argument in range and no other. *)
Theorem seg_desc_roundtrip base limit class type dpl gran :
  is_u32 base -> is_u32 limit -> is_s32 type -> is_s32 dpl ->
  if decide (limit < 2 ^ 20 /\ 0 <= type < 16 /\ 0 <= dpl < 4)
  then exists d, make_seg_desc base limit class type dpl gran = Ok d /\ is_u64 d /\
    desc_base d = base /\ desc_limit d = limit /\ desc_class d = class_code class /\ desc_type d = type /\ desc_dpl d = dpl /\
    desc_gran d = gran_code gran /\ desc_present d = 1 /\ desc_32bit d = 1
  else make_seg_desc base limit class type dpl gran = Err EAssert.
Proof.
  intros Hb Hl Ht Hd. case_decide as H.
  - destruct H as (Hl' & Ht' & Hd'). apply seg_desc_fields; [done| |done|done]. unfold is_u32 in Hl. lia.
  - unfold make_seg_desc, is_u32 in *. destruct (Z.leb_spec limit 0xfffff); [|done]. destruct (Z.leb_spec 0 type), (Z.leb_spec type 15); try done.
    destruct (Z.leb_spec 0 dpl), (Z.leb_spec dpl 3); try done. exfalso. apply H. lia.
Qed.

Lemma seg_desc_roundtrip_witness :
  exists d, make_seg_desc 0xc0123456 0x67 CLS_SYSTEM 9 0 GRAN_BYTE = Ok d /\ desc_base d = 0xc0123456 /\ desc_limit d = 0x67.
Proof.
  pose proof (seg_desc_roundtrip 0xc0123456 0x67 CLS_SYSTEM 9 0 GRAN_BYTE ltac:(done) ltac:(done) ltac:(done) ltac:(done)) as H.
  rewrite decide_True in H by lia. destruct H as (d & E & _ & Hb & Hl & _). by exists d.
Defined.

(** ** The table as a whole *)

(** A flat segment of 4 GB. *)
Definition flat (type dpl d : Z) : Prop :=
  desc_base d = 0 /\ desc_last d = 2 ^ 32 - 1 /\ desc_class d = 1 /\ desc_type d = type /\ desc_dpl d = dpl /\ desc_present d = 1 /\ desc_32bit d = 1.

Lemma flat_desc type dpl : 0 <= type < 16 -> 0 <= dpl < 4 -> exists d, make_seg_desc 0 0xfffff CLS_CODE_DATA type dpl GRAN_PAGE = Ok d /\ flat type dpl d.
Proof.
  intros Ht Hd. pose proof (seg_desc_fields 0 0xfffff CLS_CODE_DATA type dpl GRAN_PAGE) as H.
  destruct H as (d & E & _ & Hb & Hl & Hc & Hty & Hdpl & Hg & Hp & H32); [done..|]. exists d. split; [exact E|]. unfold flat, desc_last.
  by rewrite Hg, Hl.
Qed.

Lemma dtr_decodes limit base : 0 <= limit < 2 ^ 16 -> is_u32 base -> field 0 16 (make_dtr_operand limit base) = limit /\ field 16 32 (make_dtr_operand limit base) = base.
Proof. unfold is_u32, make_dtr_operand. intros Hl Hb. split; (apply field_eq; [done..|]); intros i Hi; bits. Qed.

(** The segment a selector names, with the privilege that it requests. *)
Definition segment (gdt : list Z) (sel : Z) : option (Z * Z) := (fun d => (d, field 0 2 sel)) <$> gdt !! Z.to_nat (field 3 13 sel).

(** The descriptor table: after tss_init and gdt_init the kernel's selectors
    name flat 4 GB segments of privilege 0 and the user's the same of
    privilege 3, the requested privilege of each selector being that of its
    segment; the task register names a task-state segment that covers exactly
    the structure at its address, whose ring 0 stack is the end of the running
    thread's page in the kernel's data segment. *)
Theorem gdt_init_correct page current gdt_addr :
  is_u32 page -> is_u32 current -> current + PGSIZE < 2 ^ 32 -> is_u32 gdt_addr ->
  exists t gdt gdtr kc kd uc ud ts,
    tss_init (Some page) current = Ok (Some (page, t)) /\ esp0 t = current + PGSIZE /\ ss0 t = SEL_KDSEG /\
    gdt_init gdt_addr (Some (page, t)) = Ok (gdt, gdtr, SEL_TSS) /\
    field 0 16 gdtr = Z.of_nat (length gdt) * 8 - 1 /\ field 16 32 gdtr = gdt_addr /\
    segment gdt SEL_NULL = Some (0, 0) /\
    segment gdt SEL_KCSEG = Some (kc, 0) /\ flat 10 0 kc /\
    segment gdt SEL_KDSEG = Some (kd, 0) /\ flat 2 0 kd /\
    segment gdt SEL_UCSEG = Some (uc, 3) /\ flat 10 3 uc /\
    segment gdt SEL_UDSEG = Some (ud, 3) /\ flat 2 3 ud /\
    segment gdt SEL_TSS = Some (ts, 0) /\ desc_base ts = page /\ desc_last ts = 103 /\ desc_class ts = 0 /\ desc_type ts = 9 /\ desc_dpl ts = 0 /\ desc_present ts = 1.
Proof.
  intros Hp Hc Hc' Hg. unfold tss_init. cbn [of_option mbind res_bind tss_update]. rewrite u32_small by (unfold is_u32, PGSIZE in *; lia).
  destruct (flat_desc 10 0) as (kc & Ekc & Fkc); [lia..|]. destruct (flat_desc 2 0) as (kd & Ekd & Fkd); [lia..|].
  destruct (flat_desc 10 3) as (uc & Euc & Fuc); [lia..|]. destruct (flat_desc 2 3) as (ud & Eud & Fud); [lia..|].
  destruct (seg_desc_fields page 0x67 CLS_SYSTEM 9 0 GRAN_BYTE) as (ts & Ets & _ & Hb & Hl & Hcl & Hty & Hdpl & Hgr & Hpr & _); [done..|].
  destruct (dtr_decodes (SEL_CNT * 8 - 1) gdt_addr) as [Hd1 Hd2]; [done..|].
  eexists _, _, _, kc, kd, uc, ud, ts. split; [reflexivity|]. split; [reflexivity|]. split; [reflexivity|]. split.
  { unfold gdt_init, make_code_desc, make_data_desc, make_tss_desc. rewrite Ekc, Ekd, Euc, Eud. cbn [mbind res_bind tss_get]. rewrite Ets. reflexivity. }
  split; [exact Hd1|]. split; [exact Hd2|]. do 5 (split; [reflexivity|]; try (split; [assumption|])). unfold desc_last. rewrite Hgr, Hl. repeat split; done.
Qed.

Lemma gdt_init_correct_witness :
  exists t gdt gdtr uc, tss_init (Some 0xc0107000) 0xc000e000 = Ok (Some (0xc0107000, t)) /\ gdt_init 0xc002a000 (Some (0xc0107000, t)) = Ok (gdt, gdtr, SEL_TSS) /\
    segment gdt SEL_UCSEG = Some (uc, 3) /\ flat 10 3 uc.
Proof.
  destruct (gdt_init_correct 0xc0107000 0xc000e000 0xc002a000 ltac:(done) ltac:(done) ltac:(done) ltac:(done))
    as (t & gdt & gdtr & kc & kd & uc & ud & ts & H1 & _ & _ & H2 & _ & _ & _ & _ & _ & _ & _ & H3 & H4 & _). by exists t, gdt, gdtr, uc.
Defined.
