(* ===== verification/Interrupt.v ===== *)
(** Interrupts: threads/interrupt.c and userprog/exception.c, with the
    registrations of the drivers and of syscall_init.

    The stubs of intr-stubs.S are a parameter, their addresses.  So is what the
    handlers of drivers and system calls do to this state; kill and page_fault
    are modelled.  What is printed is kept as the calls to printf, format and
    arguments. *)

From stdpp Require Import base list numbers.
From Stdlib Require Import ZArith Lia.
From Stdlib Require String.
From S2P Require Import Prelude Segments.
Import String.StringSyntax.
Open Scope Z_scope.

(** ** State *)

Definition INTR_CNT : Z := 256.

Inductive handler := kill_h | page_fault_h | syscall_handler_h | timer_interrupt_h | keyboard_interrupt_h | serial_interrupt_h | ide_interrupt_h.

#[export] Instance handler_eq_dec : EqDecision handler.
Proof. solve_decision. Defined.

Record intr_frame := MkFrame {
  edi : Z; esi : Z; ebp : Z; esp_dummy : Z; ebx : Z; edx : Z; ecx : Z; eax : Z; gs : Z; fs : Z; es : Z; ds : Z;
  vec_no : Z; error_code : Z; frame_pointer : Z; eip : Z; cs : Z; eflags : Z; esp : Z; ss : Z
}.

Inductive arg := Num (z : Z) | Str (s : list Z).

(** [intr_on] is the interrupt flag, [ports] what was written to ports, [yields]
    counts calls of thread_yield, [cr2] is the register. *)
Record machine := MkMachine {
  intr_on : bool;
  idt : list Z;
  idtr : Z;
  intr_handlers : list (option handler);
  intr_names : list (list Z);
  unexpected_cnt : list Z;
  in_external_intr : bool;
  yield_on_return : bool;
  page_fault_cnt : Z;
  ports : list (Z * Z);
  printed : list (list Z * list arg);
  yields : Z;
  cr2 : Z
}.

#[local] Abbreviation M := (stM machine).

Definition with_intr (m : machine) (b : bool) : machine :=
  MkMachine b (idt m) (idtr m) (intr_handlers m) (intr_names m) (unexpected_cnt m) (in_external_intr m) (yield_on_return m) (page_fault_cnt m) (ports m) (printed m) (yields m) (cr2 m).
Definition with_tables (m : machine) (t : list Z) (h : list (option handler)) (n : list (list Z)) : machine :=
  MkMachine (intr_on m) t (idtr m) h n (unexpected_cnt m) (in_external_intr m) (yield_on_return m) (page_fault_cnt m) (ports m) (printed m) (yields m) (cr2 m).
Definition with_idtr (m : machine) (x : Z) : machine :=
  MkMachine (intr_on m) (idt m) x (intr_handlers m) (intr_names m) (unexpected_cnt m) (in_external_intr m) (yield_on_return m) (page_fault_cnt m) (ports m) (printed m) (yields m) (cr2 m).
Definition with_unexpected (m : machine) (l : list Z) : machine :=
  MkMachine (intr_on m) (idt m) (idtr m) (intr_handlers m) (intr_names m) l (in_external_intr m) (yield_on_return m) (page_fault_cnt m) (ports m) (printed m) (yields m) (cr2 m).
Definition with_flags (m : machine) (ext yield : bool) : machine :=
  MkMachine (intr_on m) (idt m) (idtr m) (intr_handlers m) (intr_names m) (unexpected_cnt m) ext yield (page_fault_cnt m) (ports m) (printed m) (yields m) (cr2 m).
Definition with_faults (m : machine) (n : Z) : machine :=
  MkMachine (intr_on m) (idt m) (idtr m) (intr_handlers m) (intr_names m) (unexpected_cnt m) (in_external_intr m) (yield_on_return m) n (ports m) (printed m) (yields m) (cr2 m).

Definition with_ports (m : machine) (l : list (Z * Z)) : machine :=
  MkMachine (intr_on m) (idt m) (idtr m) (intr_handlers m) (intr_names m) (unexpected_cnt m) (in_external_intr m) (yield_on_return m) (page_fault_cnt m) l (printed m) (yields m) (cr2 m).
Definition with_printed (m : machine) (l : list (list Z * list arg)) : machine :=
  MkMachine (intr_on m) (idt m) (idtr m) (intr_handlers m) (intr_names m) (unexpected_cnt m) (in_external_intr m) (yield_on_return m) (page_fault_cnt m) (ports m) l (yields m) (cr2 m).

Definition outb (port data : Z) : M unit := modify (fun m : machine => with_ports m (ports m ++ [(port, data)])).
Definition printf (format : list Z) (args : list arg) : M unit := modify (fun m : machine => with_printed m (printed m ++ [(format, args)])).
Definition thread_yield : M unit := modify (fun m : machine =>
  MkMachine (intr_on m) (idt m) (idtr m) (intr_handlers m) (intr_names m) (unexpected_cnt m) (in_external_intr m) (yield_on_return m) (page_fault_cnt m)
    (ports m) (printed m) (yields m + 1) (cr2 m)).

Definition nl (s : String.string) : list Z := chars s ++ [10].
Arguments nl s%_string_scope.

(** Indexing an array; outside it the behaviour is undefined. *)
Definition index {A} (l : list A) (i : Z) : M A := lift (of_option EFault (if i <? 0 then None else l !! Z.to_nat i)).

(** ** The interrupt flag *)

Inductive intr_level := INTR_OFF | INTR_ON.

Definition level_of (b : bool) : intr_level := if b then INTR_ON else INTR_OFF.

Definition intr_context : M bool := m ← get; mret (in_external_intr m).
Definition intr_get_level : M intr_level := m ← get; mret (level_of (intr_on m)).

Definition intr_enable : M intr_level :=
  old_level ← intr_get_level;
  ctx ← intr_context;
  assertM (negb ctx);;
  modify (fun m : machine => with_intr m true);;
  mret old_level.

Definition intr_disable : M intr_level :=
  old_level ← intr_get_level;
  modify (fun m : machine => with_intr m false);;
  mret old_level.

Definition intr_set_level (level : intr_level) : M intr_level :=
  match level with INTR_ON => intr_enable | INTR_OFF => intr_disable end.

Definition intr_yield_on_return : M unit :=
  ctx ← intr_context;
  assertM ctx;;
  modify (fun m : machine => with_flags m (in_external_intr m) true).

(** ** The interrupt controllers *)

Definition PIC0_CTRL : Z := 0x20.
Definition PIC0_DATA : Z := 0x21.
Definition PIC1_CTRL : Z := 0xa0.
Definition PIC1_DATA : Z := 0xa1.

Definition pic_init : M unit :=
  outb PIC0_DATA 0xff;; outb PIC1_DATA 0xff;;
  outb PIC0_CTRL 0x11;; outb PIC0_DATA 0x20;; outb PIC0_DATA 0x04;; outb PIC0_DATA 0x01;;
  outb PIC1_CTRL 0x11;; outb PIC1_DATA 0x28;; outb PIC1_DATA 0x02;; outb PIC1_DATA 0x01;;
  outb PIC0_DATA 0x00;; outb PIC1_DATA 0x00.

Definition pic_end_of_interrupt (irq : Z) : M unit :=
  assertM ((0x20 <=? irq) && (irq <? 0x30));;
  outb 0x20 0x20;;
  if 0x28 <=? irq then outb 0xa0 0x20 else mret tt.

Section Interrupts.
Context (intr_stubs : Z -> Z) (idt_addr : Z).

(** ** The tables *)

Fixpoint idt_loop (n : nat) (i : Z) : M unit :=
  match n with
  | O => mret tt
  | S n =>
      g ← lift (make_intr_gate (intr_stubs i) 0);
      modify (fun m : machine => with_tables m (<[Z.to_nat i := g]> (idt m)) (intr_handlers m) (intr_names m));;
      idt_loop n (i + 1)
  end.

Definition exception_names : list (list Z) :=
  [chars "#DE Divide Error"; chars "#DB Debug Exception"; chars "NMI Interrupt"; chars "#BP Breakpoint Exception"; chars "#OF Overflow Exception";
   chars "#BR BOUND Range Exceeded Exception"; chars "#UD Invalid Opcode Exception"; chars "#NM Device Not Available Exception";
   chars "#DF Double Fault Exception"; chars "Coprocessor Segment Overrun"; chars "#TS Invalid TSS Exception"; chars "#NP Segment Not Present";
   chars "#SS Stack Fault Exception"; chars "#GP General Protection Exception"; chars "#PF Page-Fault Exception"; chars "unknown";
   chars "#MF x87 FPU Floating-Point Error"; chars "#AC Alignment Check Exception"; chars "#MC Machine-Check Exception"; chars "#XF SIMD Floating-Point Exception"].

Definition intr_init : M unit :=
  pic_init;;
  idt_loop 256 0;;
  modify (fun m : machine => with_idtr m (make_dtr_operand (INTR_CNT * 8 - 1) idt_addr));;
  modify (fun m : machine => with_tables m (idt m) (intr_handlers m) (exception_names ++ replicate 236 (chars "unknown"))).

Definition register_handler (vec dpl : Z) (level : intr_level) (h : handler) (name : list Z) : M unit :=
  m ← get;
  old ← index (intr_handlers m) vec;
  assertM (match old with None => true | Some _ => false end);;
  g ← lift (match level with INTR_ON => make_trap_gate (intr_stubs vec) dpl | INTR_OFF => make_intr_gate (intr_stubs vec) dpl end);
  modify (fun m : machine => with_tables m (<[Z.to_nat vec := g]> (idt m)) (<[Z.to_nat vec := Some h]> (intr_handlers m)) (<[Z.to_nat vec := name]> (intr_names m))).

Definition intr_register_ext (vec : Z) (h : handler) (name : list Z) : M unit :=
  assertM ((0x20 <=? vec) && (vec <=? 0x2f));;
  register_handler vec 0 INTR_OFF h name.

Definition intr_register_int (vec dpl : Z) (level : intr_level) (h : handler) (name : list Z) : M unit :=
  assertM ((vec <? 0x20) || (0x2f <? vec));;
  register_handler vec dpl level h name.

Definition intr_name (vec : Z) : M (list Z) := m ← get; index (intr_names m) vec.

Definition exception_init : M unit :=
  intr_register_int 3 3 INTR_ON kill_h (chars "#BP Breakpoint Exception");;
  intr_register_int 4 3 INTR_ON kill_h (chars "#OF Overflow Exception");;
  intr_register_int 5 3 INTR_ON kill_h (chars "#BR BOUND Range Exceeded Exception");;
  intr_register_int 0 0 INTR_ON kill_h (chars "#DE Divide Error");;
  intr_register_int 1 0 INTR_ON kill_h (chars "#DB Debug Exception");;
  intr_register_int 6 0 INTR_ON kill_h (chars "#UD Invalid Opcode Exception");;
  intr_register_int 7 0 INTR_ON kill_h (chars "#NM Device Not Available Exception");;
  intr_register_int 11 0 INTR_ON kill_h (chars "#NP Segment Not Present");;
  intr_register_int 12 0 INTR_ON kill_h (chars "#SS Stack Fault Exception");;
  intr_register_int 13 0 INTR_ON kill_h (chars "#GP General Protection Exception");;
  intr_register_int 16 0 INTR_ON kill_h (chars "#MF x87 FPU Floating-Point Error");;
  intr_register_int 19 0 INTR_ON kill_h (chars "#XF SIMD Floating-Point Exception");;
  intr_register_int 14 0 INTR_OFF page_fault_h (chars "#PF Page-Fault Exception").

(** The registrations of main, in order: timer_init, kbd_init, exception_init,
    syscall_init, serial_init_queue, and ide_init for its two channels. *)
Definition register_all : M unit :=
  intr_init;;
  intr_register_ext 0x20 timer_interrupt_h (chars "8254 Timer");;
  intr_register_ext 0x21 keyboard_interrupt_h (chars "8042 Keyboard");;
  exception_init;;
  intr_register_int 0x30 3 INTR_ON syscall_handler_h (chars "syscall");;
  intr_register_ext (0x20 + 4) serial_interrupt_h (chars "serial");;
  intr_register_ext (14 + 0x20) ide_interrupt_h (chars "ide0");;
  intr_register_ext (15 + 0x20) ide_interrupt_h (chars "ide1").

(** ** Handlers *)

(** A handler returns, or the thread exits. *)
Inductive outcome := Returns | ThreadExits.

Definition intr_dump_frame (f : intr_frame) : M unit :=
  name ← intr_name (vec_no f);
  m ← get;
  printf (nl "Interrupt %#04x (%s) at eip=%p") [Num (vec_no f); Str name; Num (eip f)];;
  printf (nl " cr2=%08x error=%08x") [Num (cr2 m); Num (error_code f)];;
  printf (nl " eax=%08x ebx=%08x ecx=%08x edx=%08x") [Num (eax f); Num (ebx f); Num (ecx f); Num (edx f)];;
  printf (nl " esi=%08x edi=%08x esp=%08x ebp=%08x") [Num (esi f); Num (edi f); Num (esp f); Num (ebp f)];;
  printf (nl " cs=%04hx ds=%04hx es=%04hx ss=%04hx") [Num (cs f); Num (ds f); Num (es f); Num (ss f)].

Definition kill (thread_name : list Z) (f : intr_frame) : M outcome :=
  if cs f =? SEL_UCSEG then
    name ← intr_name (vec_no f);
    printf (nl "%s: dying due to interrupt %#04x (%s).") [Str thread_name; Num (vec_no f); Str name];;
    intr_dump_frame f;;
    mret ThreadExits
  else if cs f =? SEL_KCSEG then
    intr_dump_frame f;;
    raise EPanic
  else
    name ← intr_name (vec_no f);
    printf (nl "Interrupt %#04x (%s) in unknown segment %04x") [Num (vec_no f); Str name; Num (cs f)];;
    mret ThreadExits.

Definition PF_P : Z := 1.
Definition PF_W : Z := 2.
Definition PF_U : Z := 4.

Definition page_fault (thread_name : list Z) (f : intr_frame) : M outcome :=
  m ← get;
  let fault_addr := cr2 m in
  intr_enable;;
  modify (fun m : machine => with_faults m (s64 (page_fault_cnt m + 1)));;
  let not_present := Z.land (error_code f) PF_P =? 0 in
  let write := negb (Z.land (error_code f) PF_W =? 0) in
  let user := negb (Z.land (error_code f) PF_U =? 0) in
  printf (nl "Page fault at %p: %s error %s page in %s context.")
    [Num fault_addr; Str (if not_present then chars "not present" else chars "rights violation");
     Str (if write then chars "writing" else chars "reading"); Str (if user then chars "user" else chars "kernel")];;
  kill thread_name f.

Definition unexpected_interrupt (f : intr_frame) : M unit :=
  m ← get;
  old ← index (unexpected_cnt m) (vec_no f);
  let n := u32 (old + 1) in
  modify (fun m : machine => with_unexpected m (<[Z.to_nat (vec_no f) := n]> (unexpected_cnt m)));;
  if Z.land n (u32 (n - 1)) =? 0 then
    name ← intr_name (vec_no f);
    printf (nl "Unexpected interrupt %#04x (%s)") [Num (vec_no f); Str name]
  else mret tt.

Context (thread_name : list Z) (device : handler -> intr_frame -> M outcome).

Definition invoke (h : handler) (f : intr_frame) : M outcome :=
  match h with
  | kill_h => kill thread_name f
  | page_fault_h => page_fault thread_name f
  | h => device h f
  end.

Definition intr_handler (f : intr_frame) : M outcome :=
  let external := (0x20 <=? vec_no f) && (vec_no f <? 0x30) in
  (if external then
     level ← intr_get_level;
     assertM (match level with INTR_OFF => true | INTR_ON => false end);;
     ctx ← intr_context;
     assertM (negb ctx);;
     modify (fun m : machine => with_flags m true false)
   else mret tt);;
  m ← get;
  h ← index (intr_handlers m) (vec_no f);
  o ← match h with
      | Some h => invoke h f
      | None => if (vec_no f =? 0x27) || (vec_no f =? 0x2f) then mret Returns else unexpected_interrupt f;; mret Returns
      end;
  match o with
  | ThreadExits => mret ThreadExits
  | Returns =>
      (if external then
         level ← intr_get_level;
         assertM (match level with INTR_OFF => true | INTR_ON => false end);;
         ctx ← intr_context;
         assertM ctx;;
         modify (fun m : machine => with_flags m false (yield_on_return m));;
         pic_end_of_interrupt (vec_no f);;
         m ← get;
         if yield_on_return m then thread_yield else mret tt
       else mret tt);;
      mret Returns
  end.

(** The processor delivers an interrupt: an interrupt gate clears the flag. *)
Definition deliver (f : intr_frame) : M outcome :=
  m ← get;
  g ← index (idt m) (vec_no f);
  (if gate_type g =? 14 then modify (fun m : machine => with_intr m false) else mret tt);;
  intr_handler f.

End Interrupts.

(** The state before intr_init: the BSS is zero and interrupts are off. *)
Definition reset : machine :=
  MkMachine false (replicate 256 0) 0 (replicate 256 None) (replicate 256 []) (replicate 256 0) false false 0 [] [] 0 0.
