(* ===== verification/InterruptSpec.v ===== *)
(** Interrupts (Interrupt.v): what the descriptor table holds after start-up, the
    protocol of external interrupts, and what exceptions do. *)

From stdpp Require Import base list numbers.
From Stdlib Require Import ZArith Lia.
From Stdlib Require String.
From S2P Require Import Prelude Segments Interrupt.
Import String.StringSyntax.
Open Scope Z_scope.

(** ** The tables *)

(** What is registered for a vector: privilege level, gate type, handler. *)
#[local] Abbreviation entry := (Z * Z * option handler)%type.

Section Tables.
Context (intr_stubs : Z -> Z) (idt_addr : Z).
Hypothesis stubs_ok : forall v, 0 <= v < 256 -> intr_stubs v <> 0 /\ is_u32 (intr_stubs v).

Definition gate_ok (v : Z) (g dpl type : Z) : Prop :=
  gate_offset g = intr_stubs v /\ gate_selector g = SEL_KCSEG /\ gate_type g = type /\ gate_system g = 0 /\ gate_dpl g = dpl /\ gate_present g = 1.

(** The tables of a machine are described by a list of entries. *)
Record describes (m : machine) (t : list entry) : Prop := {
  d_len : length t = 256%nat;
  d_idt : length (idt m) = 256%nat;
  d_gates : forall v dpl type h, t !! v = Some (dpl, type, h) -> exists g, idt m !! v = Some g /\ gate_ok (Z.of_nat v) g dpl type;
  d_handlers : intr_handlers m = (fun e : entry => e.2) <$> t;
  d_names : length (intr_names m) = 256%nat;
  d_counts : length (unexpected_cnt m) = 256%nat
}.

Lemma gate_made v dpl type : 0 <= v < 256 -> 0 <= dpl <= 3 -> 0 <= type <= 15 -> exists g, make_gate (intr_stubs v) dpl type = Ok g /\ gate_ok v g dpl type.
Proof.
  intros Hv Hd Ht. destruct (stubs_ok v Hv) as [Hne Hu]. destruct (make_gate_ok (intr_stubs v) dpl type Hne Hd Ht) as (g & E).
  exists g. split; [exact E|]. by apply make_gate_decodes.
Qed.

Definition gate_kind (l : intr_level) : Z := match l with INTR_ON => 15 | INTR_OFF => 14 end.

Lemma index_ok {A} (l : list A) i x (m : machine) : 0 <= i -> l !! Z.to_nat i = Some x -> index l i m = Ok (x, m).
Proof. intros Hi Hx. unfold index. rewrite (proj2 (Z.ltb_ge i 0)) by lia. by rewrite Hx. Qed.

Lemma register_ok m t v dpl level h name old :
  describes m t -> 0 <= v -> 0 <= dpl <= 3 -> t !! Z.to_nat v = Some (old, None) ->
  exists m', register_handler intr_stubs v dpl level h name m = Ok (tt, m') /\ describes m' (<[Z.to_nat v := (dpl, gate_kind level, Some h)]> t) /\
    in_external_intr m' = in_external_intr m /\ intr_on m' = intr_on m.
Proof.
  intros D Hv Hd Ht. pose proof (lookup_lt_Some _ _ _ Ht) as Hlt. rewrite (d_len m t D) in Hlt.
  destruct (gate_made v dpl (gate_kind level)) as (g & Eg & Hg); [lia|lia|by destruct level|].
  unfold register_handler. erewrite stbind_step by reflexivity. erewrite stbind_step by (apply index_ok; [done|]; rewrite (d_handlers m t D), list_lookup_fmap, Ht; reflexivity).
  cbn [snd]. erewrite stbind_step by reflexivity. unfold make_trap_gate, make_intr_gate.
  erewrite stbind_step by (destruct level; cbn [gate_kind] in Eg; rewrite Eg; reflexivity). eexists. split; [reflexivity|]. split; [|done].
  destruct D as [H1 H2 H3 H4 H5 H6]. constructor; cbn; rewrite ?length_insert; try done.
  - intros w dpl' ty' h'. rewrite list_lookup_insert. intros Hw. case_decide as Hc.
    + destruct Hc as [<- _]. injection Hw as <- <- <-. exists g. rewrite list_lookup_insert_eq by lia. split; [done|]. by rewrite Z2Nat.id.
    + destruct (H3 w dpl' ty' h' Hw) as (g' & E' & Hg'). exists g'. split; [|done]. rewrite list_lookup_insert_ne; [done|]. intros Ew. apply Hc. split; [done|lia].
  - by rewrite H4, list_fmap_insert.
Qed.

Lemma idt_loop_ok n : forall i m, 0 <= i -> i + Z.of_nat n <= 256 -> length (idt m) = 256%nat ->
  exists m', idt_loop intr_stubs n i m = Ok (tt, m') /\ length (idt m') = 256%nat /\ intr_handlers m' = intr_handlers m /\ intr_names m' = intr_names m /\
    unexpected_cnt m' = unexpected_cnt m /\ in_external_intr m' = in_external_intr m /\ intr_on m' = intr_on m /\ 
    forall v, if decide (i <= Z.of_nat v < i + Z.of_nat n) then exists g, idt m' !! v = Some g /\ gate_ok (Z.of_nat v) g 0 14 else idt m' !! v = idt m !! v.
Proof.
  induction n as [|n IH]; intros i m Hi Hn Hl; cbn [idt_loop].
  - exists m. repeat split; try done. intros v. rewrite decide_False by lia. done.
  - destruct (gate_made i 0 14) as (g & Eg & Hg); [lia..|]. erewrite stbind_step by (unfold make_intr_gate; rewrite Eg; reflexivity).
    erewrite stbind_step by reflexivity. edestruct (IH (i + 1)) as (m' & E & H1 & H2 & H3 & H4 & H5 & H6 & H7); [| | |exists m'; split; [exact E|]].
    { lia. } { lia. } { cbn. by rewrite length_insert. }
    repeat split; try done. intros v. specialize (H7 v). cbn [idt with_tables] in H7. case_decide as Hv.
    + by rewrite decide_True by lia.
    + destruct (decide (Z.of_nat v = i)) as [<-|Hne].
      * rewrite decide_True by lia. rewrite H7, Nat2Z.id, list_lookup_insert_eq by lia. by exists g.
      * rewrite decide_False by lia. by rewrite H7, list_lookup_insert_ne by lia.
Qed.

Definition empty_table : list entry := replicate 256 (0, 14, None).

Lemma outb_ports p x m l : outb p x (with_ports m l) = Ok (tt, with_ports m (l ++ [(p, x)])).
Proof. reflexivity. Qed.

Lemma pic_init_ok m : exists l, pic_init m = Ok (tt, with_ports m l).
Proof.
  unfold pic_init. replace m with (with_ports m (ports m)) at 1 by (by destruct m). eexists. do 11 (erewrite stbind_step by apply outb_ports). apply outb_ports.
Qed.

Lemma intr_init_ok : exists m, intr_init intr_stubs idt_addr reset = Ok (tt, m) /\ describes m empty_table /\ in_external_intr m = false /\ intr_on m = false.
Proof.
  destruct (pic_init_ok reset) as (l & Ep). unfold intr_init. erewrite stbind_step by exact Ep.
  destruct (idt_loop_ok 256 0 (with_ports reset l)) as (m & E & H1 & H2 & H3 & H4 & H5 & H6 & H7); [lia|lia|apply length_replicate|]. erewrite stbind_step by exact E.
  erewrite stbind_step by reflexivity. eexists. split; [reflexivity|]. split; [|by cbn; rewrite H5, H6].
  constructor; cbn [idt intr_handlers intr_names unexpected_cnt with_idtr with_tables]; rewrite ?H2, ?H4; try done.
  intros v dpl ty h Hv. pose proof (lookup_lt_Some _ _ _ Hv) as Hlt. apply lookup_replicate in Hv as [Hv _]. injection Hv as -> -> ->.
  unfold empty_table in Hlt. rewrite length_replicate in Hlt. specialize (H7 v). by rewrite decide_True in H7 by lia.
Qed.

Definition quiet (m : machine) : Prop := in_external_intr m = false /\ intr_on m = false.

(** Code of start-up that turns one table into another. *)
Definition boots (f : stM machine unit) (t t' : list entry) : Prop :=
  forall m, describes m t -> quiet m -> exists m', f m = Ok (tt, m') /\ describes m' t' /\ quiet m'.

Lemma boots_seq f g t t1 t2 : boots f t t1 -> boots g t1 t2 -> boots (f;; g) t t2.
Proof. intros Hf Hg m D Q. destruct (Hf m D Q) as (m1 & E & D1 & Q1). erewrite stbind_step by exact E. exact (Hg m1 D1 Q1). Qed.

Lemma boots_int v dpl level h name t old : (v <? 0x20) || (0x2f <? v) = true -> 0 <= v -> 0 <= dpl <= 3 -> t !! Z.to_nat v = Some (old, None) ->
  boots (intr_register_int intr_stubs v dpl level h name) t (<[Z.to_nat v := (dpl, gate_kind level, Some h)]> t).
Proof.
  intros Hv Hv0 Hd Ht m D [Q1 Q2]. destruct (register_ok m t v dpl level h name old) as (m' & E & D' & Q1' & Q2'); [done..|].
  exists m'. unfold intr_register_int. rewrite stbind_step with (a := tt) (s' := m) by (by apply assertM_true). unfold quiet. by rewrite Q1', Q2'.
Qed.

Lemma boots_ext v h name t old : (0x20 <=? v) && (v <=? 0x2f) = true -> 0 <= v -> t !! Z.to_nat v = Some (old, None) ->
  boots (intr_register_ext intr_stubs v h name) t (<[Z.to_nat v := (0, 14, Some h)]> t).
Proof.
  intros Hv Hv0 Ht m D [Q1 Q2]. destruct (register_ok m t v 0 INTR_OFF h name old) as (m' & E & D' & Q1' & Q2'); [done..|].
  exists m'. unfold intr_register_ext. rewrite stbind_step with (a := tt) (s' := m) by (by apply assertM_true). unfold quiet. by rewrite Q1', Q2'.
Qed.

(** What start-up registers. *)
Definition boot_entry (v : Z) : entry :=
  if bool_decide (v ∈ [0; 1; 6; 7; 11; 12; 13; 16; 19]) then (0, 15, Some kill_h)
  else if bool_decide (v ∈ [3; 4; 5]) then (3, 15, Some kill_h)
  else if v =? 14 then (0, 14, Some page_fault_h)
  else if v =? 0x20 then (0, 14, Some timer_interrupt_h)
  else if v =? 0x21 then (0, 14, Some keyboard_interrupt_h)
  else if v =? 0x24 then (0, 14, Some serial_interrupt_h)
  else if bool_decide (v ∈ [0x2e; 0x2f]) then (0, 14, Some ide_interrupt_h)
  else if v =? 0x30 then (3, 15, Some syscall_handler_h)
  else (0, 14, None).

Definition boot_table : list entry := boot_entry ∘ Z.of_nat <$> seq 0 256.

Lemma register_all_ok : exists m, register_all intr_stubs idt_addr reset = Ok (tt, m) /\ describes m boot_table /\ quiet m.
Proof.
  destruct intr_init_ok as (m & E & D & Q). unfold register_all. erewrite stbind_step by exact E. clear E. revert m D Q.
  match goal with |- forall m, describes m _ -> _ -> exists m', ?f m = _ /\ _ => change (boots f empty_table boot_table) end.
  unfold exception_init. assert (Et : forall t t' f, boots f t t' -> t' = boot_table -> boots f t boot_table) by (by intros ? ? ? ? ->).
  eapply Et. {
  repeat first [eapply boots_int; [reflexivity|lia|lia|reflexivity] | eapply boots_ext; [reflexivity|lia|reflexivity] | eapply boots_seq]. }
  vm_compute. reflexivity.
Qed.

Lemma boot_lookup v : 0 <= v < 256 -> boot_table !! Z.to_nat v = Some (boot_entry v).
Proof. intros Hv. unfold boot_table. rewrite list_lookup_fmap, lookup_seq_lt by lia. cbn. by rewrite Z2Nat.id by lia. Qed.

(** A property of every vector, checked by evaluation. *)
Lemma all_vectors (P : Z -> bool) v : forallb P (Z.of_nat <$> seq 0 256) = true -> 0 <= v < 256 -> P v = true.
Proof.
  intros H Hv. rewrite forallb_forall in H. apply H, list_elem_of_In, list_elem_of_fmap. exists (Z.to_nat v). rewrite elem_of_seq. lia.
Qed.

Definition external (v : Z) : bool := (0x20 <=? v) && (v <? 0x30).

Lemma external_true v : 0x20 <= v < 0x30 -> external v = true.
Proof. intros Hv. unfold external. by rewrite (proj2 (Z.leb_le 0x20 v)), (proj2 (Z.ltb_lt v 0x30)) by lia. Qed.

Definition dpl_check (v : Z) : bool :=
  ((boot_entry v).1.1 =? (if bool_decide (v ∈ [3; 4; 5; 0x30]) then 3 else 0)) && (negb (external v) || ((boot_entry v).1.2 =? 14)).

Lemma boot_dpl v : 0 <= v < 256 -> (boot_entry v).1.1 = (if bool_decide (v ∈ [3; 4; 5; 0x30]) then 3 else 0) /\ (0x20 <= v < 0x30 -> (boot_entry v).1.2 = 14).
Proof.
  intros Hv. pose proof (all_vectors dpl_check v ltac:(vm_compute; reflexivity) Hv) as H. unfold dpl_check in H.
  apply andb_true_iff in H as [H1%Z.eqb_eq H2]. split; [done|]. intros Hx. rewrite (external_true v Hx) in H2. by apply Z.eqb_eq.
Qed.

Definition own (h : handler) : bool := match h with kill_h | page_fault_h => true | _ => false end.

Definition own_check (v : Z) : bool := match (boot_entry v).2 with Some h => eqb (own h) (v <? 0x20) | None => true end.

(** Devices have handlers of their own, and exceptions have kill and page_fault. *)
Lemma boot_handler v h : 0 <= v < 256 -> (boot_entry v).2 = Some h -> own h = (v <? 0x20).
Proof. intros Hv E. pose proof (all_vectors own_check v ltac:(vm_compute; reflexivity) Hv) as H. unfold own_check in H. rewrite E in H. by apply eqb_prop. Qed.
End Tables.

(** C27. The descriptor table after start-up: no registration fails, every vector
    leads to its stub in the kernel's code segment, the handlers are those
    registered, user programs can raise exactly vectors 3, 4, 5 and 0x30, and
    the vectors of devices are entered with interrupts off. *)
Theorem user_vectors intr_stubs idt_addr :
  (forall v, 0 <= v < 256 -> intr_stubs v <> 0 /\ is_u32 (intr_stubs v)) ->
  exists m, register_all intr_stubs idt_addr reset = Ok (tt, m) /\ in_external_intr m = false /\ intr_on m = false /\
    forall v, 0 <= v < 256 -> exists g,
      idt m !! Z.to_nat v = Some g /\ gate_offset g = intr_stubs v /\ gate_selector g = SEL_KCSEG /\ gate_present g = 1 /\
      gate_dpl g = (if bool_decide (v ∈ [3; 4; 5; 0x30]) then 3 else 0) /\
      (0x20 <= v < 0x30 -> gate_type g = 14) /\
      intr_handlers m !! Z.to_nat v = Some (boot_entry v).2.
Proof.
  intros Hs. destruct (register_all_ok intr_stubs idt_addr Hs) as (m & E & D & Q1 & Q2). exists m. split; [exact E|]. split; [done|]. split; [done|].
  intros v Hv. pose proof (boot_lookup v Hv) as Hb. destruct (boot_dpl v Hv) as [H1 H2]. destruct (boot_entry v) as [[dpl ty] h].
  destruct (d_gates _ _ _ D _ _ _ _ Hb) as (g & Eg & Hg). rewrite Z2Nat.id in Hg by lia. destruct Hg as (G1 & G2 & G3 & G4 & G5 & G6).
  exists g. rewrite G1, G2, G3, G5, G6, (d_handlers _ _ _ D), list_lookup_fmap, Hb. cbn in *. done.
Qed.

Lemma user_vectors_witness :
  exists m g, register_all (fun v => 0xc0030000 + v) 0xc0040000 reset = Ok (tt, m) /\ idt m !! 0x30%nat = Some g /\ gate_dpl g = 3 /\ gate_offset g = 0xc0030030.
Proof.
  destruct (user_vectors (fun v => 0xc0030000 + v) 0xc0040000) as (m & E & _ & _ & H); [unfold is_u32; lia|].
  destruct (H 0x30 ltac:(lia)) as (g & H1 & H2 & _ & _ & H3 & _). exists m, g. done.
Defined.

(** ** External interrupts *)

Section Handlers.
Context (intr_stubs : Z -> Z) (thread_name : list Z) (device : handler -> intr_frame -> stM machine outcome).

#[local] Abbreviation deliver := (deliver thread_name device).
#[local] Abbreviation booted m := (describes intr_stubs m boot_table).

(** The acknowledgements that the controllers need. *)
Definition eoi (v : Z) : list (Z * Z) := (PIC0_CTRL, 0x20) :: if decide (0x28 <= v) then [(PIC1_CTRL, 0x20)] else [].

Lemma pic_eoi v m : 0x20 <= v < 0x30 -> pic_end_of_interrupt v m = Ok (tt, with_ports m (ports m ++ eoi v)).
Proof.
  intros Hv. unfold pic_end_of_interrupt. rewrite stbind_step with (a := tt) (s' := m).
  2: { apply assertM_true. destruct (Z.leb_spec 0x20 v), (Z.ltb_spec v 0x30); try done; lia. }
  erewrite stbind_step by reflexivity. unfold eoi. destruct (Z.leb_spec 0x28 v), (decide (0x28 <= v)); try lia; [|done].
  unfold outb, modify. cbn [ports with_ports]. by rewrite <- app_assoc.
Qed.

(** The state in which a handler of an external interrupt runs. *)
Definition in_handler (m : machine) : machine := with_flags (with_intr m false) true false.

Lemma deliver_gate m f : booted m -> 0 <= vec_no f < 256 ->
  deliver f m = intr_handler thread_name device f (if (boot_entry (vec_no f)).1.2 =? 14 then with_intr m false else m).
Proof.
  intros D Hv. pose proof (boot_lookup _ Hv) as Hb. destruct (boot_entry (vec_no f)) as [[dpl ty] h]. destruct (d_gates _ _ _ D _ _ _ _ Hb) as (g & Eg & Hg).
  unfold Interrupt.deliver. erewrite stbind_step by reflexivity. erewrite stbind_step by (apply index_ok; [lia|exact Eg]).
  destruct Hg as (_ & _ & -> & _). cbn [fst snd]. destruct (ty =? 14); by erewrite stbind_step by reflexivity.
Qed.

Lemma handlers_lookup m v : booted m -> 0 <= v < 256 -> intr_handlers m !! Z.to_nat v = Some (boot_entry v).2.
Proof. intros D Hv. by rewrite (d_handlers _ _ _ D), list_lookup_fmap, boot_lookup. Qed.

(** What happens for a vector, handler or none. *)
Definition respond (f : intr_frame) : stM machine outcome :=
  match (boot_entry (vec_no f)).2 with
  | Some h => invoke thread_name device h f
  | None => if (vec_no f =? 0x27) || (vec_no f =? 0x2f) then mret Returns else unexpected_interrupt f;; mret Returns
  end.

Lemma external_ok m f m2 : booted m -> in_external_intr m = false -> 0x20 <= vec_no f < 0x30 ->
  respond f (in_handler m) = Ok (Returns, m2) -> in_external_intr m2 = true -> intr_on m2 = false ->
  exists m3, deliver f m = Ok (Returns, m3) /\ in_external_intr m3 = false /\ intr_on m3 = false /\ ports m3 = ports m2 ++ eoi (vec_no f) /\
    yields m3 = yields m2 + (if yield_on_return m2 then 1 else 0) /\ unexpected_cnt m3 = unexpected_cnt m2 /\ printed m3 = printed m2.
Proof.
  intros D Hm Hv Hr Hx Hi. rewrite (deliver_gate m f D) by lia. rewrite (proj2 (boot_dpl (vec_no f) ltac:(lia))) by lia. cbn [Z.eqb Pos.eqb].
  unfold intr_handler. rewrite (proj2 (Z.leb_le 0x20 (vec_no f))), (proj2 (Z.ltb_lt (vec_no f) 0x30)) by lia. cbn [andb].
  rewrite stbind_step with (a := tt) (s' := in_handler m).
  2: { erewrite stbind_step by reflexivity. cbn [intr_on with_intr level_of]. erewrite stbind_step by reflexivity. erewrite stbind_step by reflexivity.
       cbn [in_external_intr with_intr]. rewrite Hm. by erewrite stbind_step by reflexivity. }
  erewrite stbind_step by reflexivity. erewrite stbind_step by (apply index_ok; [lia|]; apply (handlers_lookup m _ D); lia).
  erewrite stbind_step by exact Hr. cbv iota.
  erewrite stbind_step with (a := tt); [eexists; split; [reflexivity|]|].
  2: { erewrite stbind_step by reflexivity. rewrite Hi. cbn [level_of]. erewrite stbind_step by reflexivity. erewrite stbind_step by reflexivity.
       rewrite Hx. erewrite stbind_step by reflexivity. erewrite stbind_step by reflexivity. erewrite stbind_step by (by apply pic_eoi).
       erewrite stbind_step by reflexivity. cbn [yield_on_return with_flags with_ports].
       instantiate (1 := if yield_on_return m2 then _ else _). destruct (yield_on_return m2); reflexivity. }
  destruct (yield_on_return m2); cbn; rewrite ?Z.add_0_r; done.
Qed.

Lemma intr_name_ok m v : length (intr_names m) = 256%nat -> 0 <= v < 256 -> exists name, intr_name v m = Ok (name, m).
Proof.
  intros Hl Hv. destruct (lookup_lt_is_Some_2 (intr_names m) (Z.to_nat v)) as (name & E); [lia|]. exists name. unfold intr_name. erewrite stbind_step by reflexivity.
  by apply index_ok; [lia|].
Qed.

(** One more unexpected interrupt. *)
Definition counted (m : machine) (v n : Z) : machine := with_unexpected m (<[Z.to_nat v := n]> (unexpected_cnt m)).
Definition message (name : list Z) (v : Z) : list Z * list arg := (nl "Unexpected interrupt %#04x (%s)", [Num v; Str name]).

Lemma unexpected_ok m f old : length (intr_names m) = 256%nat -> 0 <= vec_no f < 256 -> unexpected_cnt m !! Z.to_nat (vec_no f) = Some old ->
  let n := u32 (old + 1) in
  exists name, unexpected_interrupt f m = Ok (tt, with_printed (counted m (vec_no f) n) (printed m ++ if Z.land n (u32 (n - 1)) =? 0 then [message name (vec_no f)] else [])).
Proof.
  intros Hl Hv Ho n. destruct (intr_name_ok (counted m (vec_no f) n) (vec_no f) Hl Hv) as (name & En). exists name. unfold unexpected_interrupt.
  erewrite stbind_step by reflexivity. erewrite stbind_step by (apply index_ok; [lia|exact Ho]). fold n. cbv zeta. erewrite stbind_step by reflexivity.
  fold (counted m (vec_no f) n). destruct (Z.land n (u32 (n - 1)) =? 0).
  - by erewrite stbind_step by exact En.
  - rewrite app_nil_r. by destruct m.
Qed.
End Handlers.

(** C28. External interrupts: the handler runs with interrupts off and in
    interrupt context, and cannot turn interrupts on; afterwards the interrupt
    is acknowledged, on the second controller too exactly if it came from
    there, and the processor is yielded exactly if the handler asked for it.
    Without a handler the interrupt is acknowledged all the same, and counted
    unless it is the spurious 0x27. *)
Theorem external_interrupt intr_stubs thread_name device m f :
  describes intr_stubs m boot_table -> in_external_intr m = false -> 0x20 <= vec_no f < 0x30 ->
  in_external_intr (in_handler m) = true /\ intr_on (in_handler m) = false /\ intr_enable (in_handler m) = Err EAssert /\
  match (boot_entry (vec_no f)).2 with
  | Some h =>
      forall m2, device h f (in_handler m) = Ok (Returns, m2) -> in_external_intr m2 = true -> intr_on m2 = false ->
      exists m3, deliver thread_name device f m = Ok (Returns, m3) /\ in_external_intr m3 = false /\ intr_on m3 = false /\
        ports m3 = ports m2 ++ eoi (vec_no f) /\ yields m3 = yields m2 + (if yield_on_return m2 then 1 else 0)
  | None =>
      exists m3, deliver thread_name device f m = Ok (Returns, m3) /\ in_external_intr m3 = false /\ intr_on m3 = false /\
        ports m3 = ports m ++ eoi (vec_no f) /\ yields m3 = yields m /\
        unexpected_cnt m3 = if vec_no f =? 0x27 then unexpected_cnt m else alter (fun c => u32 (c + 1)) (Z.to_nat (vec_no f)) (unexpected_cnt m)
  end.
Proof.
  intros D Hm Hv. split; [done|]. split; [done|]. split; [done|]. destruct (boot_entry (vec_no f)).2 as [h|] eqn:Eh.
  - intros m2 Hd Hx Hi. edestruct (external_ok intr_stubs thread_name device m f m2) as (m3 & H1 & H2 & H3 & H4 & H5 & _); [done..| |done|done|by exists m3].
    unfold respond. rewrite Eh. pose proof (boot_handler (vec_no f) h ltac:(lia) Eh) as Ho. rewrite (proj2 (Z.ltb_ge _ _)) in Ho by lia. by destruct h.
  - assert (H2f : (vec_no f =? 0x2f) = false) by (apply Z.eqb_neq; intros E; rewrite E in Eh; by vm_compute in Eh).
    destruct (lookup_lt_is_Some_2 (unexpected_cnt m) (Z.to_nat (vec_no f))) as (old & Ho); [rewrite (d_counts _ _ _ D); lia|].
    destruct (unexpected_ok (in_handler m) f old (d_names _ _ _ D) ltac:(lia) Ho) as (name & Eu).
    destruct (vec_no f =? 0x27) eqn:E27.
    + edestruct (external_ok intr_stubs thread_name device m f (in_handler m)) as (m3 & H1 & H2 & H3 & H4 & H5 & H6 & _); [done..| |done|done|].
      { unfold respond. by rewrite Eh, E27. }
      exists m3. rewrite H4, H5, H6. cbn. by rewrite Z.add_0_r.
    + edestruct (external_ok intr_stubs thread_name device m f) as (m3 & H1 & H2 & H3 & H4 & H5 & H6 & _); [done..| | | |].
      { unfold respond. rewrite Eh, E27, H2f. cbn [orb]. erewrite stbind_step by exact Eu. reflexivity. } { done. } { done. }
      exists m3. rewrite H4, H5, H6. cbn. rewrite Z.add_0_r. split; [done|]. do 4 (split; [done|]). rewrite list_insert_alter. apply list_alter_ext; [|done]. intros x Hx. by simplify_eq.
Qed.

(** A frame with a vector and a code segment. *)
Definition frame (v seg : Z) : intr_frame := MkFrame 0 0 0 0 0 0 0 0 0 0 0 0 v 0 0 0 seg 0 0 0.

Definition no_device (h : handler) (f : intr_frame) : stM machine outcome := mret Returns.

Lemma external_interrupt_witness :
  let stubs v := 0xc0030000 + v in
  exists m m3, register_all stubs 0xc0040000 reset = Ok (tt, m) /\ deliver [] no_device (frame 0x2a SEL_UCSEG) m = Ok (Returns, m3) /\
    ports m3 = ports m ++ [(0x20, 0x20); (0xa0, 0x20)].
Proof.
  intros stubs. destruct (register_all_ok stubs 0xc0040000) as (m & E & D & Q & _); [unfold stubs, is_u32; lia|].
  destruct (external_interrupt stubs [] no_device m (frame 0x2a SEL_UCSEG) D Q ltac:(cbn; lia)) as (_ & _ & _ & m3 & H1 & _ & _ & H2 & _).
  exists m, m3. done.
Defined.

(** ** Unexpected interrupts *)

Lemma pow2_test n : 0 < n -> Z.land n (n - 1) = 0 <-> n = 2 ^ Z.log2 n.
Proof.
  intros Hn. pose proof (Z.log2_spec n Hn) as [Hl Hu]. pose proof (Z.log2_nonneg n) as Hk. split.
  - intros H. destruct (Z.eq_dec n (2 ^ Z.log2 n)) as [E|E]; [done|exfalso].
    assert (Hb : Z.testbit (Z.land n (n - 1)) (Z.log2 n) = true); [|by rewrite H, Z.testbit_0_l in Hb].
    rewrite Z.land_spec, Z.bit_log2 by done. cbn [andb]. rewrite <- (Z.log2_unique (n - 1) (Z.log2 n)) by lia. apply Z.bit_log2.
    pose proof (Z.pow_pos_nonneg 2 (Z.log2 n)). lia.
  - intros ->. set (k := Z.log2 n) in *. replace (2 ^ k - 1) with (Z.ones k) by (rewrite Z.ones_equiv; lia). rewrite Z.land_ones by done. apply Z_mod_same_full.
Qed.

(** The number of messages that [n] unexpected interrupts print. *)
Definition messages (n : Z) : Z := if n =? 0 then 0 else Z.log2 n + 1.

Lemma messages_succ n : 0 <= n < 2 ^ 32 - 1 -> messages (n + 1) = messages n + if Z.land (u32 (n + 1)) (u32 (u32 (n + 1) - 1)) =? 0 then 1 else 0.
Proof.
  intros Hn. rewrite (u32_small (n + 1)) by (unfold is_u32; lia). rewrite u32_small by (unfold is_u32; lia). unfold messages. rewrite (proj2 (Z.eqb_neq (n + 1) 0)) by lia.
  destruct (Z.eqb_spec (Z.land (n + 1) (n + 1 - 1)) 0) as [H|H].
  - apply pow2_test in H; [|lia]. destruct (Z.eqb_spec n 0) as [->|Hz]; [done|]. set (k := Z.log2 (n + 1)) in *.
    assert (Hk : 0 < k) by (apply Z.log2_pos; lia). rewrite (Z.log2_unique n (k - 1)); [lia|lia|].
    replace (Z.succ (k - 1)) with k by lia. assert (2 ^ k = 2 * 2 ^ (k - 1)) by (rewrite <- Z.pow_succ_r by lia; f_equal; lia). lia.
  - destruct (Z.eqb_spec n 0) as [->|Hz]; [done|]. rewrite pow2_test in H by lia. pose proof (Z.log2_spec (n + 1) ltac:(lia)) as Hs.
    rewrite (Z.log2_unique n (Z.log2 (n + 1))); [lia|apply Z.log2_nonneg|lia].
Qed.

(** [n] unexpected interrupts with the same vector. *)
Fixpoint unexpected_times (n : nat) (f : intr_frame) : stM machine unit :=
  match n with O => mret tt | S n => unexpected_times n f;; unexpected_interrupt f end.

(** Unexpected interrupts are counted, and of [n] of them with the same
    vector as many are reported as [n] has binary digits. *)
Theorem unexpected_rate n f m :
  length (intr_names m) = 256%nat -> length (unexpected_cnt m) = 256%nat -> 0 <= vec_no f < 256 ->
  unexpected_cnt m !! Z.to_nat (vec_no f) = Some 0 -> Z.of_nat n < 2 ^ 32 ->
  exists m' l, unexpected_times n f m = Ok (tt, m') /\ printed m' = printed m ++ l /\ Z.of_nat (length l) = messages (Z.of_nat n) /\
    unexpected_cnt m' = <[Z.to_nat (vec_no f) := Z.of_nat n]> (unexpected_cnt m) /\ intr_names m' = intr_names m.
Proof.
  intros Hl Hc Hv H0. induction n as [|n IH]; intros Hn.
  - exists m, []. rewrite app_nil_r, list_insert_id by done. done.
  - destruct IH as (m1 & l & E & Hp & Hlen & Hcnt & Hnames); [lia|]. cbn [unexpected_times]. erewrite stbind_step by exact E.
    destruct (unexpected_ok m1 f (Z.of_nat n)) as (name & Eu); [by rewrite Hnames|done|by rewrite Hcnt, list_lookup_insert_eq by lia|].
    rewrite Eu. pose proof (messages_succ (Z.of_nat n) ltac:(lia)) as Hm. replace (Z.of_nat n + 1) with (Z.of_nat (S n)) in * by lia.
    eexists _, (l ++ _). split; [reflexivity|]. cbn [printed with_printed unexpected_cnt counted with_unexpected intr_names]. rewrite Hp, <- app_assoc.
    split; [reflexivity|]. rewrite length_app, Nat2Z.inj_add, Hlen, Hm. split; [by destruct (_ =? 0)|]. rewrite Hcnt, list_insert_insert_eq, u32_small by (unfold is_u32; lia). done.
Qed.

Lemma unexpected_rate_witness :
  exists m' l, unexpected_times 1000 (frame 0x22 SEL_UCSEG) reset = Ok (tt, m') /\ printed m' = [] ++ l /\ Z.of_nat (length l) = 10.
Proof.
  destruct (unexpected_rate 1000 (frame 0x22 SEL_UCSEG) reset) as (m' & l & H1 & H2 & H3 & _); [reflexivity|reflexivity|cbn; lia|reflexivity|lia|].
  exists m', l. split; [exact H1|]. split; [exact H2|exact H3].
Defined.

(** ** Exceptions *)

Definition exception_check (v : Z) : bool :=
  match (boot_entry v).2 with
  | Some h => bool_decide (h = if v =? 14 then page_fault_h else kill_h) && ((boot_entry v).1.2 =? (if v =? 14 then 14 else 15))
  | None => true
  end || (0x20 <=? v).

Lemma exception_entry v h : 0 <= v < 0x20 -> (boot_entry v).2 = Some h ->
  h = (if v =? 14 then page_fault_h else kill_h) /\ (boot_entry v).1.2 = if v =? 14 then 14 else 15.
Proof.
  intros Hv E. pose proof (all_vectors exception_check v ltac:(vm_compute; reflexivity) ltac:(lia)) as H. unfold exception_check in H.
  rewrite E, (proj2 (Z.leb_gt 0x20 v)), orb_false_r in H by lia. apply andb_true_iff in H as [H1%bool_decide_eq_true H2%Z.eqb_eq]. done.
Qed.

Lemma printf_ok fmt args m l : printf fmt args (with_printed m l) = Ok (tt, with_printed m (l ++ [(fmt, args)])).
Proof. reflexivity. Qed.

Lemma dump_ok f m l : length (intr_names m) = 256%nat -> 0 <= vec_no f < 256 -> exists l', intr_dump_frame f (with_printed m l) = Ok (tt, with_printed m l').
Proof.
  intros Hl Hv. destruct (intr_name_ok (with_printed m l) (vec_no f) Hl Hv) as (name & En). unfold intr_dump_frame.
  eexists. erewrite stbind_step by exact En. erewrite stbind_step by reflexivity. do 4 (erewrite stbind_step by apply printf_ok). apply printf_ok.
Qed.

Lemma kill_ok thread_name f m : length (intr_names m) = 256%nat -> 0 <= vec_no f < 256 ->
  if cs f =? SEL_KCSEG then kill thread_name f m = Err EPanic else exists l, kill thread_name f m = Ok (ThreadExits, with_printed m l).
Proof.
  intros Hl Hv. replace m with (with_printed m (printed m)) by (by destruct m). destruct (intr_name_ok (with_printed m (printed m)) (vec_no f) Hl Hv) as (name & En).
  unfold kill. destruct (Z.eqb_spec (cs f) SEL_UCSEG) as [E|E].
  - rewrite (proj2 (Z.eqb_neq _ _)) by (by rewrite E). erewrite stbind_step by exact En. erewrite stbind_step by apply printf_ok.
    edestruct (dump_ok f m) as (l' & Ed); [done|done|]. erewrite stbind_step by exact Ed. by eexists.
  - destruct (cs f =? SEL_KCSEG).
    + edestruct (dump_ok f m) as (l' & Ed); [done|done|]. by erewrite stbind_step by exact Ed.
    + erewrite stbind_step by exact En. erewrite stbind_step by apply printf_ok. by eexists.
Qed.

Lemma page_fault_ok thread_name f m : length (intr_names m) = 256%nat -> 0 <= vec_no f < 256 -> in_external_intr m = false -> 0 <= page_fault_cnt m < 2 ^ 63 - 1 ->
  if cs f =? SEL_KCSEG then page_fault thread_name f m = Err EPanic
  else exists l, page_fault thread_name f m = Ok (ThreadExits, with_printed (with_faults (with_intr m true) (page_fault_cnt m + 1)) l).
Proof.
  intros Hl Hv Hx Hc. unfold page_fault. set (m1 := with_intr m true). set (m2 := with_faults m1 (page_fault_cnt m + 1)).
  assert (E1 : exists lv, intr_enable m = Ok (lv, m1)).
  { unfold intr_enable. erewrite stbind_step by reflexivity. erewrite stbind_step by reflexivity. rewrite Hx. erewrite stbind_step by reflexivity. by eexists. }
  destruct E1 as (lv & E1).
  assert (E2 : modify (fun m : machine => with_faults m (s64 (page_fault_cnt m + 1))) m1 = Ok (tt, m2)).
  { unfold modify, m2. cbn [page_fault_cnt m1 with_intr]. by rewrite s64_small by (unfold is_s64; lia). }
  assert (E3 : forall fmt args, printf fmt args m2 = Ok (tt, with_printed m2 (printed m2 ++ [(fmt, args)]))) by done.
  pose proof (fun l => kill_ok thread_name f (with_printed m2 l) Hl Hv) as Hk.
  destruct (cs f =? SEL_KCSEG); [|edestruct Hk as (l & Ek); exists l]; (erewrite stbind_step by reflexivity); cbv zeta;
    (erewrite stbind_step by exact E1); (erewrite stbind_step by exact E2); (erewrite stbind_step by apply E3); [apply Hk|exact Ek].
Qed.

(** Exceptions: one that is handled ends the process when it comes from user
    code, panics the kernel when it comes from kernel code, and ends the thread
    when it comes from neither; a page fault is counted and leaves interrupts
    on; one that nothing handles is counted and the program goes on. *)
Theorem exceptions_end intr_stubs thread_name device m f :
  describes intr_stubs m boot_table -> in_external_intr m = false -> 0 <= vec_no f < 0x20 -> page_fault_cnt m < 2 ^ 63 - 1 -> 0 <= page_fault_cnt m ->
  match (boot_entry (vec_no f)).2 with
  | Some _ =>
      if cs f =? SEL_KCSEG then deliver thread_name device f m = Err EPanic
      else exists m', deliver thread_name device f m = Ok (ThreadExits, m') /\ intr_on m' = (if vec_no f =? 14 then true else intr_on m) /\
        page_fault_cnt m' = page_fault_cnt m + (if vec_no f =? 14 then 1 else 0) /\ ports m' = ports m
  | None =>
      exists m', deliver thread_name device f m = Ok (Returns, m') /\ unexpected_cnt m' = alter (fun c => u32 (c + 1)) (Z.to_nat (vec_no f)) (unexpected_cnt m)
  end.
Proof.
  intros D Hm Hv Hc Hc0. pose proof (d_names _ _ _ D) as Hn. rewrite (deliver_gate intr_stubs thread_name device m f D) by lia.
  pose proof (handlers_lookup intr_stubs m (vec_no f) D ltac:(lia)) as Hh.
  set (m1 := if (boot_entry (vec_no f)).1.2 =? 14 then with_intr m false else m). assert (Hm1 : exists b, m1 = with_intr m b).
  { unfold m1. destruct (_ =? 14); [by exists false|]. exists (intr_on m). by destruct m. }
  unfold intr_handler. rewrite (proj2 (Z.leb_gt 0x20 (vec_no f))) by lia. cbn [andb]. erewrite stbind_step by reflexivity. erewrite stbind_step by reflexivity.
  rewrite stbind_step with (a := (boot_entry (vec_no f)).2) (s' := m1) by (apply index_ok; [lia|]; by destruct Hm1 as (b & ->)).
  destruct (boot_entry (vec_no f)).2 as [h|] eqn:Eh.
  - pose proof (exception_entry (vec_no f) h Hv Eh) as [-> Hty]. unfold m1. rewrite Hty. clear m1 Hm1. destruct (Z.eqb_spec (vec_no f) 14) as [E14|E14]; cbn [invoke Z.eqb Pos.eqb].
    + pose proof (page_fault_ok thread_name f (with_intr m false) Hn ltac:(lia) Hm ltac:(cbn; lia)) as Hk.
      destruct (cs f =? SEL_KCSEG); [by erewrite stbind_err by exact Hk|]. destruct Hk as (l & Hk). erewrite stbind_step by exact Hk. eexists. split; [reflexivity|done].
    + pose proof (kill_ok thread_name f m Hn ltac:(lia)) as Hk. destruct (cs f =? SEL_KCSEG); [by erewrite stbind_err by exact Hk|].
      destruct Hk as (l & Hk). erewrite stbind_step by exact Hk. eexists. split; [reflexivity|]. cbn. by rewrite Z.add_0_r.
  - rewrite !(proj2 (Z.eqb_neq _ _)) by lia. cbn [orb]. destruct Hm1 as (b & ->).
    destruct (lookup_lt_is_Some_2 (unexpected_cnt m) (Z.to_nat (vec_no f))) as (old & Ho); [rewrite (d_counts _ _ _ D); lia|].
    destruct (unexpected_ok (with_intr m b) f old Hn ltac:(lia) Ho) as (name & Eu). erewrite stbind_step; [|by erewrite stbind_step by exact Eu].
    eexists. split; [reflexivity|]. cbn. rewrite list_insert_alter. apply list_alter_ext; [|done]. intros x Hx. by simplify_eq.
Qed.

Lemma exceptions_end_witness :
  let stubs v := 0xc0030000 + v in
  exists m m', register_all stubs 0xc0040000 reset = Ok (tt, m) /\ deliver [] no_device (frame 14 SEL_UCSEG) (with_faults m 0) = Ok (ThreadExits, m') /\ page_fault_cnt m' = 1.
Proof.
  intros stubs. destruct (register_all_ok stubs 0xc0040000) as (m & E & D & Q & _); [unfold stubs, is_u32; lia|].
  assert (D0 : describes stubs (with_faults m 0) boot_table) by (by destruct D; constructor).
  destruct (exceptions_end stubs [] no_device (with_faults m 0) (frame 14 SEL_UCSEG) D0 Q ltac:(cbn; lia) ltac:(cbn; lia) ltac:(cbn; lia)) as (m' & H1 & _ & H2 & _).
  exists m, m'. done.
Defined.
