(* ===== verification/Cmdline.v ===== *)
(** The kernel's command line: read_command_line, parse_options and run_actions
    of threads/init.c, and shutdown_configure of devices/shutdown.c.

    The words are strings in the loader's memory, which strtok_r writes to.
    [eq_str] and [empty_str] are the addresses of the literals that it is
    given; comparisons with other literals are made on the characters.  All
    of USERPROG, FILESYS and VM are defined, as for the kernel in vm/. *)

From stdpp Require Import base list numbers gmap strings.
From Stdlib Require Import ZArith Lia.
From Stdlib Require String.
From S2P Require Import Prelude CString CStdlib Random.
Import String.StringSyntax.
Open Scope Z_scope.

(** ** State *)

Inductive shutdown_type := SHUTDOWN_NONE | SHUTDOWN_POWER_OFF | SHUTDOWN_REBOOT.

(** The variables that options set; names of devices are pointers. *)
Record options := MkOptions {
  how : shutdown_type;
  format_filesys : bool;
  filesys_bdev_name : Z;
  scratch_bdev_name : Z;
  swap_bdev_name : Z;
  user_page_limit : Z;
  thread_mlfqs : bool;
  rng : prng
}.

Record init := MkInit { memory : mem; opts : options; output : list Z }.

#[local] Abbreviation I := (stM init).

Definition on_memory {A} (f : stM mem A) : I A := fun s =>
  match f (memory s) with Ok (a, m) => Ok (a, MkInit m (opts s) (output s)) | Err e => Err e end.

Definition print (l : list Z) : I unit := modify (fun s : init => MkInit (memory s) (opts s) (output s ++ l)).

Definition set_opts (f : options -> options) : I unit := modify (fun s : init => MkInit (memory s) (f (opts s)) (output s)).

(** The string at an address. *)
Fixpoint c_str_loop (fuel : nat) (p : Z) : stM mem (list Z) :=
  match fuel with
  | O => raise EFuel
  | S fuel => x ← load p; if x =? 0 then mret [] else l ← c_str_loop fuel (p + 1); mret (x :: l)
  end.

Definition c_str (p : Z) : stM mem (list Z) := fuel ← str_fuel; c_str_loop fuel p.

(** ** read_command_line *)

Definition LOADER_ARGS_LEN : Z := 128.
Definition LOADER_PARTS : Z := 0x7e00 - 2 - 64.
Definition LOADER_ARGS : Z := LOADER_PARTS - LOADER_ARGS_LEN.
Definition ptov (p : Z) : Z := p + 0xc0000000.

(** argv has LOADER_ARGS_LEN / 2 + 1 elements. *)
Definition argv_size : nat := 65.

Fixpoint read_loop (fuel : nat) (argc p finish : Z) (argv : list Z) : I (list Z) :=
  match fuel with
  | O => raise EFuel
  | S fuel =>
      if Z.of_nat (length argv) <? argc then
        if finish <=? p then raise EPanic
        else if (argv_size <=? length argv)%nat then raise EFault
        else
          n ← on_memory (strnlen p (finish - p));
          read_loop fuel argc (p + n + 1) finish (argv ++ [p])
      else mret argv
  end.

Fixpoint print_loop (argv : list Z) : I unit :=
  match argv with
  | [] => mret tt
  | p :: argv =>
      r ← on_memory (strchr p 32);
      s ← on_memory (c_str p);
      print (if r =? 0 then [32] ++ s else [32; 39] ++ s ++ [39]);;
      print_loop argv
  end.

(** [argc] is the word at LOADER_ARG_CNT; the result is argv up to its NULL. *)
Definition read_command_line (argc : Z) : I (list Z) :=
  let argc := s32 argc in
  argv ← read_loop 130 argc (ptov LOADER_ARGS) (ptov LOADER_ARGS + LOADER_ARGS_LEN) [];
  if (argc <? 0) || (Z.of_nat argv_size <=? argc) then raise EFault
  else
    print (chars "Kernel command line:");;
    print_loop argv;;
    print [10];;
    mret argv.

(** ** parse_options *)

Section Options.
Context (eq_str empty_str : Z).

(** -h powers the machine off. *)
Inductive parsed := Rest (argv : list Z) | Help.

Definition shutdown_configure (type : shutdown_type) : I unit :=
  set_opts (fun o => MkOptions type (format_filesys o) (filesys_bdev_name o) (scratch_bdev_name o) (swap_bdev_name o) (user_page_limit o) (thread_mlfqs o) (rng o)).

(** atoi of a pointer: it asserts that it is not null. *)
Definition atoi_at (p : Z) : I Z :=
  assertM (negb (p =? 0));;
  s ← on_memory (c_str p);
  mret (atoi (s ++ [0])).

Definition seed_random (seed : Z) : I unit :=
  s ← get;
  r ← lift (random_init (u32 seed) (rng (opts s)));
  set_opts (fun o => MkOptions (how o) (format_filesys o) (filesys_bdev_name o) (scratch_bdev_name o) (swap_bdev_name o) (user_page_limit o) (thread_mlfqs o) r).

Definition named (name : list Z) (s : String.string) : bool := bool_decide (name = chars s).

(** One option; [true] for -h. *)
Definition parse_option (word : Z) : I bool :=
  '(name, save_ptr) ← on_memory (strtok_r word eq_str 0);
  '(value, _) ← on_memory (strtok_r 0 empty_str save_ptr);
  name ← on_memory (c_str name);
  if named name "-h" then mret true
  else
    (if named name "-q" then shutdown_configure SHUTDOWN_POWER_OFF
     else if named name "-r" then shutdown_configure SHUTDOWN_REBOOT
     else if named name "-f" then
       set_opts (fun o => MkOptions (how o) true (filesys_bdev_name o) (scratch_bdev_name o) (swap_bdev_name o) (user_page_limit o) (thread_mlfqs o) (rng o))
     else if named name "-filesys" then
       set_opts (fun o => MkOptions (how o) (format_filesys o) value (scratch_bdev_name o) (swap_bdev_name o) (user_page_limit o) (thread_mlfqs o) (rng o))
     else if named name "-scratch" then
       set_opts (fun o => MkOptions (how o) (format_filesys o) (filesys_bdev_name o) value (swap_bdev_name o) (user_page_limit o) (thread_mlfqs o) (rng o))
     else if named name "-swap" then
       set_opts (fun o => MkOptions (how o) (format_filesys o) (filesys_bdev_name o) (scratch_bdev_name o) value (user_page_limit o) (thread_mlfqs o) (rng o))
     else if named name "-rs" then n ← atoi_at value; seed_random n
     else if named name "-mlfqs" then
       set_opts (fun o => MkOptions (how o) (format_filesys o) (filesys_bdev_name o) (scratch_bdev_name o) (swap_bdev_name o) (user_page_limit o) true (rng o))
     else if named name "-ul" then
       n ← atoi_at value;
       set_opts (fun o => MkOptions (how o) (format_filesys o) (filesys_bdev_name o) (scratch_bdev_name o) (swap_bdev_name o) (u32 n) (thread_mlfqs o) (rng o))
     else raise EPanic);;
    mret false.

Fixpoint options_loop (argv : list Z) : I parsed :=
  match argv with
  | [] => mret (Rest [])
  | word :: rest =>
      c ← on_memory (load word);
      if c =? 45 then h ← parse_option word; if h : bool then mret Help else options_loop rest
      else mret (Rest argv)
  end.

(** [now] is what rtc_get_time returns. *)
Definition parse_options (now : Z) (argv : list Z) : I parsed :=
  r ← options_loop argv;
  match r with
  | Help => mret Help
  | Rest argv => seed_random now;; mret (Rest argv)
  end.

End Options.

(** ** run_actions *)

Inductive action := run_task | fsutil_ls | fsutil_cat | fsutil_rm | fsutil_extract | fsutil_append.

Definition actions : list (list Z * nat * action) :=
  [(chars "run", 2%nat, run_task); (chars "ls", 1%nat, fsutil_ls); (chars "cat", 2%nat, fsutil_cat); (chars "rm", 2%nat, fsutil_rm);
   (chars "extract", 1%nat, fsutil_extract); (chars "append", 2%nat, fsutil_append)].

Fixpoint find_action (l : list (list Z * nat * action)) (name : list Z) : option (nat * action) :=
  match l with
  | [] => None
  | (n, argc, a) :: l => if bool_decide (name = n) then Some (argc, a) else find_action l name
  end.

(** The calls of action functions with their arguments, in order, and the panic
    that ended them, if any. *)
Fixpoint actions_loop (fuel : nat) (m : mem) (argv : list Z) : list (action * list Z) * option error :=
  match fuel, argv with
  | _, [] => ([], None)
  | O, _ => ([], Some EFuel)
  | S fuel, name :: _ =>
      match c_str name m with
      | Err e => ([], Some e)
      | Ok (s, _) =>
          match find_action actions s with
          | None => ([], Some EPanic)
          | Some (argc, a) =>
              if (length argv <? argc)%nat then ([], Some EPanic)
              else let '(l, e) := actions_loop fuel m (drop argc argv) in ((a, take argc argv) :: l, e)
          end
      end
  end.

Definition run_actions (m : mem) (argv : list Z) : list (action * list Z) * option error := actions_loop (S (length argv)) m argv.
