(* ===== verification/CmdlineSpec.v ===== *)
(** The kernel's command line (Cmdline.v): from the bytes that the loader left to
    the options and the actions. *)

From stdpp Require Import base list numbers gmap strings.
From Stdlib Require Import ZArith Lia.
From Stdlib Require String.
From S2P Require Import Prelude CString CStdlib Random StdioSpec Cmdline.
Import String.StringSyntax.
Open Scope Z_scope.

(** ** Words in memory *)

(** The words lie one after the other, each with its terminator. *)
Fixpoint words_at (m : mem) (p : Z) (ws : list (list Z)) : Prop :=
  match ws with [] => True | w :: ws => is_str m p w /\ words_at m (p + Z.of_nat (length w) + 1) ws end.

Fixpoint pointers (p : Z) (ws : list (list Z)) : list Z :=
  match ws with [] => [] | w :: ws => p :: pointers (p + Z.of_nat (length w) + 1) ws end.

(** The bytes that the words take. *)
Fixpoint room (ws : list (list Z)) : Z := match ws with [] => 0 | w :: ws => Z.of_nat (length w) + 1 + room ws end.

Lemma room_nonneg ws : 0 <= room ws.
Proof. induction ws as [|w ws IH]; cbn; lia. Qed.

Lemma words_at_same m m' lo hi ws : forall p, same_outside m m' lo hi -> hi <= p -> words_at m p ws -> words_at m' p ws.
Proof.
  induction ws as [|w ws IH]; intros p Hs Hp H; [done|]. destruct H as [Hw H]. split.
  - eapply is_str_same; [exact Hs|by right|done].
  - eapply IH; [done|lia|done].
Qed.

Lemma c_str_loop_ok s : forall fuel m p, is_str m p s -> (length s < fuel)%nat -> c_str_loop fuel p m = Ok (s, m).
Proof.
  induction s as [|c s IH]; intros [|fuel] m p Hs Hf; cbn [length] in Hf; try lia; cbn [c_str_loop].
  - apply is_str_nil in Hs as [Hp H0]. by run (load_Ok m p 0 Hp H0).
  - apply is_str_cons in Hs as (Hp & Hb & Hr & Hs). run (load_Ok m p c Hp Hb). rewrite nz by lia.
    run (IH fuel m (p + 1) Hs ltac:(lia)). done.
Qed.

Lemma c_str_ok m p s : is_str m p s -> c_str p m = Ok (s, m).
Proof. intros Hs. unfold c_str. run (eq_refl : str_fuel m = Ok (S (size m), m)). apply c_str_loop_ok; [done|]. by eapply is_str_fuel. Qed.

Lemma strnlen_ok m p s n : is_str m p s -> Z.of_nat (length s) <= n -> strnlen p n m = Ok (Z.of_nat (length s), m).
Proof.
  intros Hs Hn. unfold strnlen. run (eq_refl : str_fuel m = Ok (S (size m), m)). apply (strnlen_loop_str s [] m p); [done| |done]. by eapply is_str_fuel.
Qed.

Lemma on_memory_ok {A} (f : stM mem A) m o t a m' : f m = Ok (a, m') -> on_memory f (MkInit m o t) = Ok (a, MkInit m' o t).
Proof. intros E. unfold on_memory. cbn [memory]. by rewrite E. Qed.

(** ** Reading the command line *)

Lemma read_loop_ok ws : forall fuel argc p finish argv m o t,
  words_at m p ws -> Z.of_nat (length argv) + Z.of_nat (length ws) = argc -> p + room ws <= finish -> argc <= 64 -> (length ws < fuel)%nat ->
  read_loop fuel argc p finish argv (MkInit m o t) = Ok (argv ++ pointers p ws, MkInit m o t).
Proof.
  induction ws as [|w ws IH]; intros [|fuel] argc p finish argv m o t Hw Ha Hr Hn Hf; cbn [length] in *; try lia; cbn [read_loop].
  - rewrite (proj2 (Z.ltb_ge _ _)) by lia. by rewrite app_nil_r.
  - destruct Hw as [Hw Hws]. cbn [room] in Hr. pose proof (room_nonneg ws). rewrite (proj2 (Z.ltb_lt _ _)) by lia. rewrite (proj2 (Z.leb_gt _ _)) by lia.
    destruct (Nat.leb_spec argv_size (length argv)) as [H1|_]; [unfold argv_size in H1; lia|].
    run (on_memory_ok _ m o t _ _ (strnlen_ok m p w (finish - p) Hw ltac:(lia))).
    rewrite IH; [cbn [pointers]; by rewrite <- app_assoc|done|rewrite length_app; cbn; lia|lia|done|lia].
Qed.

(** How a word is printed. *)
Definition quoted (w : list Z) : list Z := if bool_decide (32 ∈ w) then [32; 39] ++ w ++ [39] else [32] ++ w.

Lemma print_loop_ok ws : forall p m o t, words_at m p ws -> print_loop (pointers p ws) (MkInit m o t) = Ok (tt, MkInit m o (t ++ (ws ≫= quoted))).
Proof.
  induction ws as [|w ws IH]; intros p m o t H; cbn [print_loop pointers mbind list_bind]; [by rewrite app_nil_r|]. destruct H as [Hw Hws].
  run (on_memory_ok _ m o t _ _ (strchr_spec m p w 32 Hw ltac:(done))). run (on_memory_ok _ m o t _ _ (c_str_ok m p w Hw)).
  rewrite chr_eqb by (by eapply is_str_pos). erewrite stbind_step by reflexivity. cbn [memory opts output]. rewrite IH by done. do 3 f_equal. rewrite <- app_assoc. f_equal. f_equal.
  unfold quoted. destruct (decide (32 ∈ w)).
  - rewrite bool_decide_eq_false_2 by (by intros [_ ?]). by rewrite bool_decide_eq_true_2.
  - rewrite bool_decide_eq_true_2 by (split; [lia|done]). by rewrite bool_decide_eq_false_2.
Qed.

Lemma words_count ws : Forall (fun w => w <> []) ws -> 2 * Z.of_nat (length ws) <= room ws.
Proof. induction 1 as [|w ws Hw _ IH]; cbn [room length]; [lia|]. destruct w; [done|]. cbn [length]. lia. Qed.

Definition args_at : Z := ptov LOADER_ARGS.

Lemma read_command_line_ok m o ws : words_at m args_at ws -> Forall (fun w => w <> []) ws -> room ws <= 128 ->
  read_command_line (Z.of_nat (length ws)) (MkInit m o []) = Ok (pointers args_at ws, MkInit m o (chars "Kernel command line:" ++ (ws ≫= quoted) ++ [10])).
Proof.
  intros Hw Hne Hr. pose proof (words_count ws Hne). unfold read_command_line. rewrite s32_small by (unfold is_s32; lia). cbv zeta.
  erewrite stbind_step by (apply (read_loop_ok ws 130 _ _ _ []); [exact Hw|done|unfold LOADER_ARGS_LEN, args_at in *; lia|lia|lia]).
  rewrite (proj2 (Z.ltb_ge _ _)) by lia. unfold argv_size. rewrite (proj2 (Z.leb_gt _ _)) by lia. cbn [orb app].
  erewrite stbind_step by reflexivity. cbn [memory opts output]. erewrite stbind_step by (apply print_loop_ok; exact Hw). erewrite stbind_step by reflexivity.
  cbn [memory opts output app]. by rewrite <- app_assoc.
Qed.

(** ** Options *)

(** What options say, with names as strings. *)
Record settings := MkSettings {
  s_how : shutdown_type; s_format : bool; s_filesys : option (list Z); s_scratch : option (list Z); s_swap : option (list Z); s_limit : Z; s_mlfqs : bool
}.

Definition number (v : option (list Z)) : res Z := match v with Some v => Ok (atoi (v ++ [0])) | None => Err EAssert end.

(** The effect of one option: [None] for -h, EPanic for an unknown option, and
    EAssert for a number that is missing. *)
Definition spec_option (name : list Z) (v : option (list Z)) (st : settings) : res (option settings) :=
  if named name "-h" then Ok None
  else if named name "-q" then Ok (Some (MkSettings SHUTDOWN_POWER_OFF (s_format st) (s_filesys st) (s_scratch st) (s_swap st) (s_limit st) (s_mlfqs st)))
  else if named name "-r" then Ok (Some (MkSettings SHUTDOWN_REBOOT (s_format st) (s_filesys st) (s_scratch st) (s_swap st) (s_limit st) (s_mlfqs st)))
  else if named name "-f" then Ok (Some (MkSettings (s_how st) true (s_filesys st) (s_scratch st) (s_swap st) (s_limit st) (s_mlfqs st)))
  else if named name "-filesys" then Ok (Some (MkSettings (s_how st) (s_format st) v (s_scratch st) (s_swap st) (s_limit st) (s_mlfqs st)))
  else if named name "-scratch" then Ok (Some (MkSettings (s_how st) (s_format st) (s_filesys st) v (s_swap st) (s_limit st) (s_mlfqs st)))
  else if named name "-swap" then Ok (Some (MkSettings (s_how st) (s_format st) (s_filesys st) (s_scratch st) v (s_limit st) (s_mlfqs st)))
  else if named name "-rs" then (fun _ => Some st) <$> number v
  else if named name "-mlfqs" then Ok (Some (MkSettings (s_how st) (s_format st) (s_filesys st) (s_scratch st) (s_swap st) (s_limit st) true))
  else if named name "-ul" then (fun n => Some (MkSettings (s_how st) (s_format st) (s_filesys st) (s_scratch st) (s_swap st) (u32 n) (s_mlfqs st))) <$> number v
  else Err EPanic.

(** A word is a name, and after an equals sign a value, if it is not empty. *)
Definition name_of (w : list Z) : list Z := (span (negb ∘ delim [61]) w).1.
Definition value_of (w : list Z) : option (list Z) :=
  match drop 1 (span (negb ∘ delim [61]) w).2 with [] => None | v => Some v end.

Fixpoint spec_options (ows : list (list Z)) (st : settings) : res (option settings) :=
  match ows with
  | [] => Ok (Some st)
  | w :: ows => r ← spec_option (name_of w) (value_of w) st; match r with Some st => spec_options ows st | None => Ok None end
  end.

(** A pointer to a string below [hi], or NULL. *)
Definition ptr_ok (m : mem) (hi p : Z) (v : option (list Z)) : Prop :=
  match v with None => p = 0 | Some v => is_str m p v /\ p + Z.of_nat (length v) < hi end.

Record represents (m : mem) (hi : Z) (o : options) (st : settings) : Prop := {
  r_how : how o = s_how st;
  r_format : format_filesys o = s_format st;
  r_filesys : ptr_ok m hi (filesys_bdev_name o) (s_filesys st);
  r_scratch : ptr_ok m hi (scratch_bdev_name o) (s_scratch st);
  r_swap : ptr_ok m hi (swap_bdev_name o) (s_swap st);
  r_limit : user_page_limit o = s_limit st;
  r_mlfqs : thread_mlfqs o = s_mlfqs st;
  r_rng : length (s (rng o)) = 256%nat
}.

Lemma ptr_same m m' lo hi p hi' v : same_outside m m' lo hi -> ptr_ok m lo p v -> lo <= hi' -> ptr_ok m' hi' p v.
Proof. intros Hs H Hh. destruct v as [v|]; [|done]. destruct H as [H Hl]. split; [|lia]. eapply is_str_same; [exact Hs|by left|done]. Qed.

Lemma represents_same m m' lo hi hi' o st : same_outside m m' lo hi -> represents m lo o st -> lo <= hi' -> represents m' hi' o st.
Proof. intros Hs [H1 H2 H3 H4 H5 H6 H7 H8] Hh. constructor; try done; by eapply ptr_same. Qed.

Section Parse.
Context (eq_str empty_str : Z).

(** The literals, outside the arguments. *)
Definition literals (m : mem) (lo hi : Z) : Prop :=
  is_str m eq_str [61] /\ is_str m empty_str [] /\ (eq_str + 1 < lo \/ hi <= eq_str) /\ (empty_str < lo \/ hi <= empty_str).

Lemma literals_same m m' lo hi lo' hi' : literals m lo hi -> same_outside m m' lo' hi' -> lo <= lo' -> hi' <= hi -> literals m' lo hi.
Proof.
  intros (H1 & H2 & H3 & H4) Hs Hl Hh. split; [|split; [|done]].
  - eapply is_str_same; [exact Hs| |done]. cbn. lia.
  - eapply is_str_same; [exact Hs| |done]. cbn. lia.
Qed.

Lemma span_nil (l : list Z) : span (delim []) l = ([], l).
Proof. destruct l as [|c l]; [done|]. cbn. unfold delim. by rewrite bool_decide_eq_false_2 by set_solver. Qed.

Lemma span_all (l : list Z) : span (negb ∘ delim []) l = (l, []).
Proof.
  induction l as [|c l IH]; [done|]. cbn [span]. assert (E : (negb ∘ delim []) c = true) by (cbn; unfold delim; by rewrite bool_decide_eq_false_2 by set_solver).
  by rewrite E, IH.
Qed.

(** The two calls of strtok_r. *)
Lemma split_word_ok m p w : is_str m p w -> head w = Some 45 -> literals m p (p + Z.of_nat (length w) + 1) ->
  exists m1 m2 save save' v, strtok_r p eq_str 0 m = Ok ((p, save), m1) /\ strtok_r 0 empty_str save m1 = Ok ((v, save'), m2) /\
    is_str m2 p (name_of w) /\ ptr_ok m2 (p + Z.of_nat (length w) + 1) v (value_of w) /\ same_outside m m2 p (p + Z.of_nat (length w)).
Proof.
  intros Hw Hh (H1 & H2 & H3 & H4). pose proof (is_str_pos _ _ _ Hw) as Hp.
  pose proof (strtok_r_some m w p 0 eq_str [61]) as T. cbv zeta in T. rewrite nz in T by done. specialize (T Hw H1).
  destruct w as [|c w]; [done|]. cbn in Hh. injection Hh as ->.
  unfold strtok_split in T. unfold name_of, value_of. destruct (span (delim [61]) (45 :: w)) as [pre r] eqn:E. cbn in E. injection E as <- <-.
  destruct (span (negb ∘ delim [61]) (45 :: w)) as [name rest] eqn:E. pose proof (span_app (negb ∘ delim [61]) (45 :: w)) as Ha. rewrite E in Ha. cbn [fst snd].
  assert (Hn : name <> []). { intros ->. cbn in E. unfold compose in E. cbn in E. by destruct (span _ w). }
  destruct (T Hn) as (save & m1 & E1 & S1 & S2 & S3 & S4 & S5). rewrite Z.add_0_r in *. cbn [length] in *.
  assert (Hlen : Z.of_nat (S (length w)) = Z.of_nat (length name) + Z.of_nat (length rest)) by (change (S (length w)) with (length (45 :: w)); rewrite Ha, length_app; lia).
  assert (L2 : is_str m1 empty_str []). { eapply is_str_same; [exact S5| |exact H2]. cbn. lia. }
  pose proof (is_str_pos _ _ _ S2) as Hsv. replace (tail rest) with (drop 1 rest) in * by (by destruct rest).
  destruct (drop 1 rest) as [|c v] eqn:Ev.
  - pose proof (strtok_r_none m1 [] 0 save empty_str []) as T2. cbn [Z.eqb] in T2. specialize (T2 S2 L2 eq_refl).
    eexists m1, m1, save, _, 0. split; [exact E1|]. split; [exact T2|]. done.
  - pose proof (strtok_r_some m1 (c :: v) 0 save empty_str []) as T2. cbn [Z.eqb] in T2. specialize (T2 S2 L2). cbv zeta in T2.
    unfold strtok_split in T2. rewrite span_nil, span_all in T2. destruct (T2 ltac:(done)) as (save2 & m2 & E2 & R1 & R2 & R3 & R4 & R5).
    cbn [length] in R1, E2, R5. rewrite Z.add_0_r in *.
    assert (Hnext : save = p + Z.of_nat (length name) + 1). { assert (length rest = S (length (c :: v))) by (rewrite <- Ev, length_drop; destruct rest; cbn in *; [done|lia]). cbn [length] in *. lia. }
    exists m1, m2, save, save2, save. split; [exact E1|]. split; [exact E2|]. split; [eapply is_str_same; [exact R5|left; lia|done]|].
    split; [split; [exact R1|cbn [length] in *; lia]|]. intros a Haa. rewrite R5 by (cbn [length] in *; lia). apply S5. lia.
Qed.

(** ** Parsing *)

Lemma atoi_at_ok m hi p v o t : ptr_ok m hi p v -> atoi_at p (MkInit m o t) = (fun n => (n, MkInit m o t)) <$> number v.
Proof.
  intros H. unfold atoi_at. destruct v as [v|]; cbn in H; [|by subst p]. destruct H as [H _]. pose proof (is_str_pos _ _ _ H) as Hp. rewrite nz by done.
  erewrite stbind_step by reflexivity. by run (on_memory_ok _ m o t _ _ (c_str_ok m p v H)).
Qed.

(** The generator after seeding does not depend on what was before. *)
Definition seeded (seed : Z) : prng := match random_init (u32 seed) prng_boot with Ok r => r | Err _ => prng_boot end.

Lemma seed_random_ok seed m o t : length (s (rng o)) = 256%nat ->
  seed_random seed (MkInit m o t) = Ok (tt, MkInit m (MkOptions (how o) (format_filesys o) (filesys_bdev_name o) (scratch_bdev_name o) (swap_bdev_name o) (user_page_limit o) (thread_mlfqs o) (seeded seed)) t) /\
  length (s (seeded seed)) = 256%nat.
Proof.
  intros Hl. unfold seed_random, seeded. assert (E : random_init (u32 seed) (rng o) = random_init (u32 seed) prng_boot).
  { unfold random_init. by rewrite !fill_all by (done || apply length_replicate). }
  destruct (random_init_spec (u32 seed) prng_boot (length_replicate 256 0)) as (r & Er & Hw & _). rewrite Er. split; [|apply Hw].
  erewrite stbind_step by reflexivity. cbn [opts]. rewrite E, Er. by erewrite stbind_step by reflexivity.
Qed.

Lemma parse_option_ok m o t p w st : is_str m p w -> head w = Some 45 -> literals m p (p + Z.of_nat (length w) + 1) -> represents m p o st ->
  match spec_option (name_of w) (value_of w) st with
  | Err e => parse_option eq_str empty_str p (MkInit m o t) = Err e
  | Ok None => exists m', parse_option eq_str empty_str p (MkInit m o t) = Ok (true, MkInit m' o t)
  | Ok (Some st') => exists m' o', parse_option eq_str empty_str p (MkInit m o t) = Ok (false, MkInit m' o' t) /\
      represents m' (p + Z.of_nat (length w) + 1) o' st' /\ same_outside m m' p (p + Z.of_nat (length w))
  end.
Proof.
  intros Hw Hh Hl R. destruct (split_word_ok m p w Hw Hh Hl) as (m1 & m2 & save & save' & v & E1 & E2 & Hn & Hv & Hs).
  pose proof (represents_same _ _ _ _ (p + Z.of_nat (length w) + 1) _ _ Hs R ltac:(lia)) as R2.
  unfold parse_option. run (on_memory_ok _ m o t _ _ E1). cbv iota beta. run (on_memory_ok _ m1 o t _ _ E2). cbv iota beta.
  run (on_memory_ok _ m2 o t _ _ (c_str_ok m2 p _ Hn)). unfold spec_option.
  destruct (named (name_of w) "-h"); [by eexists|].
  repeat match goal with
  | |- context [if named ?n ?s then _ else _] => destruct (named n s);
      [try (eexists m2, _; split; [by erewrite stbind_step by reflexivity|]; split; [|done]; destruct R2; constructor; done)|]
  end; [| |done].
  - pose proof (atoi_at_ok m2 _ v (value_of w) o t Hv) as Ea. destruct (number (value_of w)) as [n|e]; cbn [fmap res_fmap] in *.
    + eexists m2, _. split; [erewrite stbind_step; [reflexivity|]; run Ea; apply seed_random_ok; apply R2|]. split; [|done].
      destruct R2; constructor; try done. by apply (seed_random_ok n m2 o t).
    + erewrite stbind_err; [done|]. by erewrite stbind_err by exact Ea.
  - pose proof (atoi_at_ok m2 _ v (value_of w) o t Hv) as Ea. destruct (number (value_of w)) as [n|e]; cbn [fmap res_fmap] in *.
    + eexists m2, _. split; [erewrite stbind_step; [reflexivity|]; run Ea; reflexivity|]. split; [|done]. destruct R2; constructor; done.
    + erewrite stbind_err; [done|]. by erewrite stbind_err by exact Ea.
Qed.

Definition is_option (w : list Z) : Prop := head w = Some 45.

Lemma literals_weaken m lo hi lo' hi' : literals m lo hi -> lo <= lo' -> hi' <= hi -> literals m lo' hi'.
Proof. intros (H1 & H2 & H3 & H4) Hl Hh. split; [done|]. split; [done|]. lia. Qed.

Lemma room_app ws ws' : room (ws ++ ws') = room ws + room ws'.
Proof. induction ws as [|w ws IH]; cbn [app room]; [done|]. lia. Qed.

Lemma options_loop_ok ows : forall rest p m o t st, Forall is_option ows -> Forall (fun w => w <> []) rest -> match rest with w :: _ => ~ is_option w | [] => True end ->
  words_at m p (ows ++ rest) -> literals m p (p + room (ows ++ rest)) -> represents m p o st ->
  match spec_options ows st with
  | Err e => options_loop eq_str empty_str (pointers p (ows ++ rest)) (MkInit m o t) = Err e
  | Ok None => exists s', options_loop eq_str empty_str (pointers p (ows ++ rest)) (MkInit m o t) = Ok (Help, s')
  | Ok (Some st') => exists m' o' q, options_loop eq_str empty_str (pointers p (ows ++ rest)) (MkInit m o t) = Ok (Rest (pointers q rest), MkInit m' o' t) /\
      represents m' q o' st' /\ words_at m' q rest
  end.
Proof.
  induction ows as [|w ows IH]; intros rest p m o t st Ho Hr Hf Hw Hl R; cbn [app pointers options_loop spec_options].
  - exists m, o, p. split; [|done]. destruct rest as [|w rest]; [done|]. cbn [pointers options_loop]. destruct Hw as [Hw _].
    destruct w as [|c w]; [by inversion Hr|]. apply is_str_cons in Hw as (Hp & Hb & _). run (on_memory_ok _ m o t _ _ (load_Ok m p c Hp Hb)).
    unfold is_option in Hf. cbn in Hf. destruct (Z.eqb_spec c 45); [by subst|done].
  - apply Forall_cons_1 in Ho as [Hh Ho]. destruct Hw as [Hw Hws]. cbn [app room] in Hl. pose proof (room_nonneg (ows ++ rest)).
    pose proof (parse_option_ok m o t p w st Hw Hh (literals_weaken _ _ _ p (p + Z.of_nat (length w) + 1) Hl ltac:(lia) ltac:(lia)) R) as P.
    assert (Hload : load p m = Ok (45, m)).
    { destruct w as [|c w]; [done|]. injection Hh as ->. apply is_str_cons in Hw as (Hp & Hb & _). by apply load_Ok. }
    run (on_memory_ok _ m o t _ _ Hload). cbn [Z.eqb Pos.eqb]. destruct (spec_option _ _ st) as [[st'|]|e]; cbn [mbind res_bind].
    + destruct P as (m' & o' & E & R' & Hs). run E. apply IH; [done|done|done| | |done].
      * eapply words_at_same; [exact Hs|lia|done].
      * eapply literals_weaken; [eapply (literals_same m m'); [exact Hl|exact Hs|lia|lia]|lia|lia].
    + destruct P as (m' & E). run E. by eexists.
    + by erewrite stbind_err by exact P.
Qed.

End Parse.

(** ** Actions *)

(** A command of the command line: an action with its arguments. *)
Definition command : Type := action * list (list Z).

Definition action_name (a : action) : list Z :=
  chars match a with run_task => "run" | fsutil_ls => "ls" | fsutil_cat => "cat" | fsutil_rm => "rm" | fsutil_extract => "extract" | fsutil_append => "append" end.
Definition arity (a : action) : nat := match a with fsutil_ls | fsutil_extract => 0 | _ => 1 end.

Definition command_words (c : command) : list (list Z) := action_name c.1 :: c.2.
Definition valid (c : command) : Prop := length c.2 = arity c.1.

Lemma find_action_name a : find_action actions (action_name a) = Some (S (arity a), a).
Proof. by destruct a. Qed.

Lemma pointers_length ws : forall p, length (pointers p ws) = length ws.
Proof. induction ws as [|w ws IH]; intros p; cbn; [done|]. by rewrite IH. Qed.

Lemma pointers_app ws : forall p ws', pointers p (ws ++ ws') = pointers p ws ++ pointers (p + room ws) ws'.
Proof. induction ws as [|w ws IH]; intros p ws'; cbn [app pointers room]; [by rewrite Z.add_0_r|]. rewrite IH. do 2 f_equal. f_equal. lia. Qed.

Lemma words_at_app m ws : forall p ws', words_at m p (ws ++ ws') -> words_at m p ws /\ words_at m (p + room ws) ws'.
Proof.
  induction ws as [|w ws IH]; intros p ws' H; cbn [app words_at room] in *; [by rewrite Z.add_0_r|]. destruct H as [Hw H]. apply IH in H as [H1 H2].
  split; [done|]. by replace (p + (Z.of_nat (length w) + 1 + room ws)) with (p + Z.of_nat (length w) + 1 + room ws) by lia.
Qed.

Lemma pointers_strs m ws : forall p, words_at m p ws -> Forall2 (is_str m) (pointers p ws) ws.
Proof. induction ws as [|w ws IH]; intros p H; cbn; [constructor|]. destruct H as [Hw H]. constructor; [done|]. by apply IH. Qed.

(** A call has the action of the command, and pointers to its words. *)
Definition calls (m : mem) (call : action * list Z) (c : command) : Prop := call.1 = c.1 /\ Forall2 (is_str m) call.2 (command_words c).

Lemma actions_loop_ok m cmds : forall fuel q, Forall valid cmds -> words_at m q (cmds ≫= command_words) -> (length cmds < fuel)%nat ->
  exists l, actions_loop fuel m (pointers q (cmds ≫= command_words)) = (l, None) /\ Forall2 (calls m) l cmds.
Proof.
  induction cmds as [|[a args] cmds IH]; intros [|fuel] q Hv Hw Hf; cbn [length] in Hf; try lia; [exists []; by split; [|constructor]|].
  apply Forall_cons_1 in Hv as [Hv Hvs]. rewrite bind_cons in Hw |- *. apply words_at_app in Hw as [Hw Hws]. rewrite pointers_app.
  set (ps := pointers q (command_words (a, args))). assert (Hlen : length ps = S (arity a)) by (unfold ps; rewrite pointers_length; cbn; by rewrite Hv).
  destruct (IH fuel _ Hvs Hws ltac:(lia)) as (l & El & Hl). pose proof (pointers_strs m _ q Hw) as Hstr. fold ps in Hstr.
  exists ((a, ps) :: l). split; [|constructor; [done|done]]. destruct ps as [|p0 ps]; [done|]. cbn [app actions_loop].
  assert (E0 : c_str p0 m = Ok (action_name a, m)) by (apply c_str_ok; by inversion Hstr). rewrite E0, find_action_name.
  cbn [length]. rewrite length_app. destruct (Nat.ltb_spec (S (length ps + length (pointers (q + room (command_words (a, args))) (cmds ≫= command_words)))) (S (arity a))) as [Hlt|_]; [cbn in Hlen; lia|].
  cbn in Hlen. injection Hlen as Hlen. cbn [drop take]. rewrite drop_app_length', take_app_length' by done. by rewrite El.
Qed.

(** ** The whole command line *)

Definition defaults : options := MkOptions SHUTDOWN_NONE false 0 0 0 (2 ^ 32 - 1) false prng_boot.
Definition no_options : settings := MkSettings SHUTDOWN_NONE false None None None (2 ^ 32 - 1) false.

Lemma command_first cmds : match cmds ≫= command_words with w :: _ => ~ is_option w | [] => True end.
Proof. destruct cmds as [|[a args] cmds]; [done|]. cbn. by destruct a. Qed.

Lemma command_nonempty cmds : Forall (fun c : command => Forall (fun w => w <> []) c.2) cmds -> Forall (fun w => w <> []) (cmds ≫= command_words).
Proof.
  induction 1 as [|[a args] cmds H _ IH]; [constructor|]. rewrite bind_cons. apply Forall_app. split; [|done]. constructor; [by destruct a|done].
Qed.

(** The whole of the command line, with the state of the random numbers. *)
Lemma command_line_ok eq_str empty_str m now ows cmds :
  let words := ows ++ (cmds ≫= command_words) in
  words_at m args_at words -> room words <= LOADER_ARGS_LEN -> literals eq_str empty_str m args_at (args_at + LOADER_ARGS_LEN) ->
  Forall is_option ows -> Forall valid cmds -> Forall (fun c : command => Forall (fun w => w <> []) c.2) cmds ->
  exists argv text, read_command_line (Z.of_nat (length words)) (MkInit m defaults []) = Ok (argv, MkInit m defaults text) /\
    text = chars "Kernel command line:" ++ (words ≫= quoted) ++ [10] /\ Forall2 (is_str m) argv words /\
    match spec_options ows no_options with
    | Err e => parse_options eq_str empty_str now argv (MkInit m defaults text) = Err e
    | Ok None => exists s', parse_options eq_str empty_str now argv (MkInit m defaults text) = Ok (Help, s')
    | Ok (Some st) =>
        exists argv' s' hi l, parse_options eq_str empty_str now argv (MkInit m defaults text) = Ok (Rest argv', s') /\
          represents (memory s') hi (opts s') st /\ rng (opts s') = seeded now /\
          run_actions (memory s') argv' = (l, None) /\ Forall2 (calls (memory s')) l cmds
    end.
Proof.
  intros words Hw Hroom Hl Ho Hv Hne. assert (Hwords : Forall (fun w => w <> []) words).
  { apply Forall_app. split; [|by apply command_nonempty]. eapply Forall_impl; [exact Ho|]. by intros []. }
  exists (pointers args_at words). eexists. split; [apply read_command_line_ok; [done|done|exact Hroom]|]. split; [reflexivity|].
  split; [by apply pointers_strs|]. set (text := chars _ ++ _).
  pose proof (options_loop_ok eq_str empty_str ows (cmds ≫= command_words) args_at m defaults text no_options Ho (command_nonempty cmds Hne) (command_first cmds) Hw) as P.
  assert (Hl2 : literals eq_str empty_str m args_at (args_at + room words)) by (eapply literals_weaken; [exact Hl|lia|lia]).
  specialize (P Hl2 ltac:(constructor; done)). unfold parse_options.
  destruct (spec_options ows no_options) as [[st|]|e].
  - destruct P as (m' & o' & q & E & R & Hws). run E. cbn [memory opts]. destruct (seed_random_ok now m' o' text (r_rng _ _ _ _ R)) as [Es Hs]. run Es.
    destruct (actions_loop_ok m' cmds (S (length (pointers q (cmds ≫= command_words)))) q Hv Hws) as (l & El & Hl').
    { rewrite pointers_length. clear. induction cmds as [|c cmds IH]; [cbn; lia|]. rewrite bind_cons, length_app. cbn [length command_words]. cbn in IH. lia. }
    eexists _, _, q, l. split; [reflexivity|]. cbn [memory opts rng]. split; [destruct R; constructor; assumption|]. split; [reflexivity|]. split; [exact El|exact Hl'].
  - destruct P as (s' & E). run E. by eexists.
  - by erewrite stbind_err by exact P.
Qed.

(** C29. The kernel's command line: if the loader left the words of some options
    and then of some actions, none of them empty and all in the loader's 128
    bytes, then read_command_line finds and prints exactly these words,
    parse_options sets what the options other than -rs say, or fails as
    [spec_option] says (an option that is not known, or a value missing), and
    run_actions then calls exactly the actions, in order, with their arguments.
    Of -rs only the form is checked here: [seed_option_lost] says what becomes
    of the seed. *)
Theorem command_line_correct eq_str empty_str m now ows cmds :
  let words := ows ++ (cmds ≫= command_words) in
  words_at m args_at words -> room words <= LOADER_ARGS_LEN -> literals eq_str empty_str m args_at (args_at + LOADER_ARGS_LEN) ->
  Forall is_option ows -> Forall valid cmds -> Forall (fun c : command => Forall (fun w => w <> []) c.2) cmds ->
  exists argv text, read_command_line (Z.of_nat (length words)) (MkInit m defaults []) = Ok (argv, MkInit m defaults text) /\
    text = chars "Kernel command line:" ++ (words ≫= quoted) ++ [10] /\ Forall2 (is_str m) argv words /\
    match spec_options ows no_options with
    | Err e => parse_options eq_str empty_str now argv (MkInit m defaults text) = Err e
    | Ok None => exists s', parse_options eq_str empty_str now argv (MkInit m defaults text) = Ok (Help, s')
    | Ok (Some st) =>
        exists argv' s' hi l, parse_options eq_str empty_str now argv (MkInit m defaults text) = Ok (Rest argv', s') /\
          represents (memory s') hi (opts s') st /\ run_actions (memory s') argv' = (l, None) /\ Forall2 (calls (memory s')) l cmds
    end.
Proof.
  intros words Hw Hroom Hl Ho Hv Hne. destruct (command_line_ok eq_str empty_str m now ows cmds Hw Hroom Hl Ho Hv Hne) as (argv & text & H1 & H2 & H3 & H4).
  exists argv, text. split_and!; try done. destruct (spec_options ows no_options) as [[st|]|e]; [|done|done].
  destruct H4 as (argv' & s' & hi & l & E & R & _ & HA & HC). by exists argv', s', hi, l.
Qed.

(** The seed of an option -rs is lost: parse_options seeds the random numbers with
    the time after the options, against its comment and the text of usage. *)
Theorem seed_option_lost eq_str empty_str m now ows cmds st :
  let words := ows ++ (cmds ≫= command_words) in
  words_at m args_at words -> room words <= LOADER_ARGS_LEN -> literals eq_str empty_str m args_at (args_at + LOADER_ARGS_LEN) ->
  Forall is_option ows -> Forall valid cmds -> Forall (fun c : command => Forall (fun w => w <> []) c.2) cmds -> spec_options ows no_options = Ok (Some st) ->
  exists argv text argv' s', read_command_line (Z.of_nat (length words)) (MkInit m defaults []) = Ok (argv, MkInit m defaults text) /\
    parse_options eq_str empty_str now argv (MkInit m defaults text) = Ok (Rest argv', s') /\ rng (opts s') = seeded now.
Proof.
  intros words Hw Hroom Hl Ho Hv Hne Hst. destruct (command_line_ok eq_str empty_str m now ows cmds Hw Hroom Hl Ho Hv Hne) as (argv & text & H1 & _ & _ & H4).
  rewrite Hst in H4. destruct H4 as (argv' & s' & hi & l & E & _ & Hr & _). by exists argv, text, argv', s'.
Qed.

(** A memory with a command line. *)
Definition sample_words : list (list Z) := [chars "-f"; chars "-rs=7"; chars "-filesys=hda1"].
Definition sample_commands : list command := [(run_task, [chars "echo x"]); (fsutil_ls, [])].
Definition sample_line : mem :=
  write (write (write ∅ args_at ((sample_words ++ (sample_commands ≫= command_words)) ≫= (fun w => w ++ [0]))) 100 [61; 0]) 200 [0].

Fixpoint words_atb (m : mem) (p : Z) (ws : list (list Z)) : bool :=
  match ws with [] => true | w :: ws => is_strb m p w && words_atb m (p + Z.of_nat (length w) + 1) ws end.

Lemma words_atb_ok m ws : forall p, words_atb m p ws = true -> words_at m p ws.
Proof. induction ws as [|w ws IH]; intros p H; [done|]. cbn in H. apply andb_true_iff in H as [H1 H2]. split; [by apply is_strb_ok|by apply IH]. Qed.

Lemma command_line_correct_witness :
  exists argv text argv' s' l hi,
    read_command_line 6 (MkInit sample_line defaults []) = Ok (argv, MkInit sample_line defaults text) /\
    parse_options 100 200 12345 argv (MkInit sample_line defaults text) = Ok (Rest argv', s') /\
    represents (memory s') hi (opts s') (MkSettings SHUTDOWN_NONE true (Some (chars "hda1")) None None (2 ^ 32 - 1) false) /\
    run_actions (memory s') argv' = (l, None) /\ Forall2 (calls (memory s')) l sample_commands.
Proof.
  destruct (command_line_correct 100 200 sample_line 12345 sample_words sample_commands) as (argv & text & H1 & _ & _ & H2).
  - apply words_atb_ok. vm_compute. reflexivity.
  - vm_compute. discriminate.
  - split; [apply is_strb_ok; vm_compute; reflexivity|]. split; [apply is_strb_ok; vm_compute; reflexivity|]. split; left; vm_compute; reflexivity.
  - repeat constructor.
  - repeat constructor.
  - repeat constructor; done.
  - destruct H2 as (argv' & s' & hi & l & H3 & H4 & H5 & H6). exists argv, text, argv', s', l, hi. split; [exact H1|]. split; [exact H3|]. split; [exact H4|]. split; [exact H5|exact H6].
Defined.

Lemma read_zeros m o t n j : (forall i, 0 <= i < LOADER_ARGS_LEN -> m !! (args_at + i) = Some 0) -> 65 <= n <= 128 ->
  forall fuel argv, (length argv + j = 65)%nat -> (j < fuel)%nat ->
  match read_loop fuel n (args_at + Z.of_nat (length argv)) (args_at + LOADER_ARGS_LEN) argv (MkInit m o t) with
  | Ok (argv', _) => n = 65
  | Err e => e = EFault
  end.
Proof.
  intros Hm Hn. induction j as [|j IH]; intros [|fuel] argv Hj Hf; try lia; cbn [read_loop]; unfold LOADER_ARGS_LEN in *.
  - destruct (Z.ltb_spec (Z.of_nat (length argv)) n) as [H|H]; [|cbn; lia]. rewrite (proj2 (Z.leb_gt _ _)) by lia.
    destruct (Nat.leb_spec argv_size (length argv)) as [_|H1]; [done|unfold argv_size in H1; lia].
  - rewrite (proj2 (Z.ltb_lt _ _)) by lia. rewrite (proj2 (Z.leb_gt _ _)) by lia.
    destruct (Nat.leb_spec argv_size (length argv)) as [H1|_]; [unfold argv_size in H1; lia|].
    assert (Hs : is_str m (args_at + Z.of_nat (length argv)) []) by (apply is_str_nil; split; [unfold args_at, ptov, LOADER_ARGS, LOADER_PARTS, LOADER_ARGS_LEN; lia|apply Hm; lia]).
    run (on_memory_ok _ m o t _ _ (strnlen_ok m _ [] (args_at + 128 - (args_at + Z.of_nat (length argv))) Hs ltac:(cbn; lia))).
    specialize (IH fuel (argv ++ [args_at + Z.of_nat (length argv)])). rewrite length_app in IH. cbn [length] in *.
    replace (args_at + Z.of_nat (length argv) + Z.of_nat 0 + 1) with (args_at + Z.of_nat (length argv + 1)) by lia. apply IH; lia.
Qed.

(** Empty words are not allowed for: the array of words has room for the 64
    that fit when each has a character, but the loader's 128 bytes can hold
    twice as many; read_command_line then writes behind the array. *)
Theorem command_line_overflow m n :
  (forall i, 0 <= i < LOADER_ARGS_LEN -> m !! (args_at + i) = Some 0) -> 65 <= n <= 128 ->
  read_command_line n (MkInit m defaults []) = Err EFault.
Proof.
  intros Hm Hn. unfold read_command_line. rewrite s32_small by (unfold is_s32; lia). cbv zeta.
  pose proof (read_zeros m defaults [] n 65 Hm Hn 130 [] eq_refl ltac:(lia)) as R. cbn [length Z.of_nat] in R. rewrite Z.add_0_r in R. unfold args_at in R.
  destruct (read_loop _ _ _ _ _ _) as [[argv s']|e] eqn:E.
  - subst n. by run E.
  - subst e. by erewrite stbind_err by exact E.
Qed.

Lemma command_line_overflow_witness : exists m, (forall i, 0 <= i < LOADER_ARGS_LEN -> m !! (args_at + i) = Some 0) /\ read_command_line 100 (MkInit m defaults []) = Err EFault.
Proof.
  exists (write ∅ args_at (replicate 128 0)).
  assert (H : forall i, 0 <= i < LOADER_ARGS_LEN -> write ∅ args_at (replicate 128 0) !! (args_at + i) = Some 0).
  { intros i Hi. unfold LOADER_ARGS_LEN in Hi. pose proof (mem_array_write ∅ args_at (replicate 128 0) ltac:(vm_compute; reflexivity)) as [_ Ha].
    replace i with (Z.of_nat (Z.to_nat i)) by lia. apply Ha. apply lookup_replicate. split; [done|lia]. }
  split; [exact H|]. apply (command_line_overflow _ 100 H). lia.
Defined.
