(* ===== verification/Clock.v ===== *)
(** Clocks: devices/rtc.c, devices/pit.c, devices/timer.c, devices/speaker.c.

    [ins] is what the ports answer and [outs] what was written to them.  Time
    passes for the timer in two ways: [passes] holds the ticks that go by in
    successive calls of thread_yield, and how long a loop of busy_wait takes is
    the argument [too_many] of timer_calibrate; [spun] counts the iterations of
    busy_wait. *)

From stdpp Require Import base list numbers.
From Stdlib Require Import ZArith Lia.
From S2P Require Import Prelude.
Open Scope Z_scope.

Record clock := MkClock {
  ticks : Z;
  loops_per_tick : Z;
  intr_on : bool;
  ins : list Z;
  outs : list (Z * Z);
  passes : list Z;
  spun : Z
}.

#[local] Abbreviation C := (stM clock).

Definition inb (port : Z) : C Z := fun c =>
  match ins c with
  | [] => Err EFault
  | x :: l => Ok (x, MkClock (ticks c) (loops_per_tick c) (intr_on c) l (outs c) (passes c) (spun c))
  end.

Definition outb (port data : Z) : C unit := fun c =>
  Ok (tt, MkClock (ticks c) (loops_per_tick c) (intr_on c) (ins c) (outs c ++ [(port, u8 data)]) (passes c) (spun c)).

Definition with_intr (c : clock) (b : bool) : clock := MkClock (ticks c) (loops_per_tick c) b (ins c) (outs c) (passes c) (spun c).
Definition with_loops (c : clock) (n : Z) : clock := MkClock (ticks c) n (intr_on c) (ins c) (outs c) (passes c) (spun c).

(** intr_disable and intr_set_level. *)
Definition intr_disable : C bool := fun c => Ok (intr_on c, with_intr c false).
Definition intr_set_level (old_level : bool) : C unit := modify (fun c : clock => with_intr c old_level).

(** Division of C truncates towards zero. *)
Definition cdiv (a b : Z) : Z := Z.quot a b.

(** ** The real-time clock *)

Definition CMOS_REG_SET : Z := 0x70.
Definition CMOS_REG_IO : Z := 0x71.
Definition RTC_REG_SEC : Z := 0.
Definition RTC_REG_MIN : Z := 2.
Definition RTC_REG_HOUR : Z := 4.
Definition RTC_REG_MDAY : Z := 7.
Definition RTC_REG_MON : Z := 8.
Definition RTC_REG_YEAR : Z := 9.

Definition bcd_to_bin (x : Z) : Z := Z.land x 0x0f + Z.shiftr x 4 * 10.

Definition cmos_read (index : Z) : C Z := outb CMOS_REG_SET index;; inb CMOS_REG_IO.

Definition days_per_month : list Z := [31; 28; 31; 30; 31; 30; 31; 31; 30; 31; 30; 31].

(** The loop over the months, from [i] on; [time] is unsigned. *)
Fixpoint months_loop (n : nat) (i mon time : Z) : res Z :=
  match n with
  | O => Err EFuel
  | S n =>
      if i <=? mon then
        d ← of_option EFault (days_per_month !! Z.to_nat (i - 1));
        months_loop n (i + 1) mon (u32 (time + d * 24 * 60 * 60))
      else Ok time
  end.

(** The arithmetic of rtc_get_time, after the components have been read. *)
Definition rtc_seconds (sec min hour mday mon year : Z) : res Z :=
  let year := if year <? 70 then year + 100 else year in
  let year := year - 70 in
  let time := u32 (s32 (s32 (s32 (s32 (year * 365 + cdiv (year - 1) 4) * 24) * 60) * 60)) in
  time ← months_loop 20 1 mon time;
  let time := if (2 <? mon) && (Z.rem year 4 =? 0) then u32 (time + 24 * 60 * 60) else time in
  let time := u32 (time + (mday - 1) * 24 * 60 * 60) in
  let time := u32 (time + hour * 60 * 60) in
  let time := u32 (time + min * 60) in
  Ok (u32 (time + sec)).

Fixpoint rtc_read_loop (fuel : nat) : C (Z * Z * Z * Z * Z * Z) :=
  match fuel with
  | O => raise EFuel
  | S fuel =>
      sec ← cmos_read RTC_REG_SEC;
      min ← cmos_read RTC_REG_MIN;
      hour ← cmos_read RTC_REG_HOUR;
      mday ← cmos_read RTC_REG_MDAY;
      mon ← cmos_read RTC_REG_MON;
      year ← cmos_read RTC_REG_YEAR;
      sec' ← cmos_read RTC_REG_SEC;
      if bcd_to_bin sec =? bcd_to_bin sec'
      then mret (bcd_to_bin sec, bcd_to_bin min, bcd_to_bin hour, bcd_to_bin mday, bcd_to_bin mon, bcd_to_bin year)
      else rtc_read_loop fuel
  end.

Definition rtc_get_time : C Z := fun c =>
  match rtc_read_loop (S (length (ins c))) c with
  | Ok (sec, min, hour, mday, mon, year, c) => match rtc_seconds sec min hour mday mon year with Ok t => Ok (t, c) | Err e => Err e end
  | Err e => Err e
  end.

(** ** The interval timer *)

Definition PIT_PORT_CONTROL : Z := 0x43.
Definition PIT_PORT_COUNTER (channel : Z) : Z := 0x40 + channel.
Definition PIT_HZ : Z := 1193180.

Definition pit_count (frequency : Z) : Z :=
  if frequency <? 19 then 0
  else if PIT_HZ <? frequency then 2
  else cdiv (PIT_HZ + cdiv frequency 2) frequency mod 2 ^ 16.

Definition pit_configure_channel (channel mode frequency : Z) : C unit :=
  assertM ((channel =? 0) || (channel =? 2));;
  assertM ((mode =? 2) || (mode =? 3));;
  let count := pit_count frequency in
  old_level ← intr_disable;
  outb PIT_PORT_CONTROL (Z.lor (Z.lor (Z.shiftl channel 6) 0x30) (Z.shiftl mode 1));;
  outb (PIT_PORT_COUNTER channel) count;;
  outb (PIT_PORT_COUNTER channel) (Z.shiftr count 8);;
  intr_set_level old_level.

(** ** The timer *)

Definition TIMER_FREQ : Z := 100.

Definition timer_init : C unit := pit_configure_channel 0 2 TIMER_FREQ.

Definition timer_ticks : C Z :=
  old_level ← intr_disable;
  c ← get;
  let t := ticks c in
  intr_set_level old_level;;
  mret t.

Definition timer_elapsed (since : Z) : C Z := t ← timer_ticks; mret (s64 (t - since)).

Definition timer_interrupt : C unit := modify (fun c : clock => MkClock (s64 (ticks c + 1)) (loops_per_tick c) (intr_on c) (ins c) (outs c) (passes c) (spun c)).

(** Other threads run; when nobody ever runs again the thread does not come back. *)
Definition thread_yield : C unit := fun c =>
  match passes c with
  | [] => Err EFault
  | n :: l => Ok (tt, MkClock (ticks c + n) (loops_per_tick c) (intr_on c) (ins c) (outs c) l (spun c))
  end.

Fixpoint sleep_loop (fuel : nat) (start t : Z) : C unit :=
  match fuel with
  | O => raise EFuel
  | S fuel => e ← timer_elapsed start; if e <? t then thread_yield;; sleep_loop fuel start t else mret tt
  end.

Definition timer_sleep (t : Z) : C unit :=
  start ← timer_ticks;
  c ← get;
  assertM (intr_on c);;
  sleep_loop (S (length (passes c))) start t.

Definition busy_wait (loops : Z) : C unit := modify (fun c : clock =>
  MkClock (ticks c) (loops_per_tick c) (intr_on c) (ins c) (outs c) (passes c) (spun c + Z.max 0 loops)).

Definition real_time_delay (num denom : Z) : C unit :=
  assertM (Z.rem denom 1000 =? 0);;
  c ← get;
  busy_wait (cdiv (s64 (cdiv (s64 (loops_per_tick c * num)) 1000 * TIMER_FREQ)) (cdiv denom 1000)).

Definition real_time_sleep (num denom : Z) : C unit :=
  let t := cdiv (s64 (num * TIMER_FREQ)) denom in
  c ← get;
  assertM (intr_on c);;
  if 0 <? t then timer_sleep t else real_time_delay num denom.

Definition timer_msleep (ms : Z) : C unit := real_time_sleep ms 1000.
Definition timer_usleep (us : Z) : C unit := real_time_sleep us (1000 * 1000).
Definition timer_nsleep (ns : Z) : C unit := real_time_sleep ns (1000 * 1000 * 1000).
Definition timer_mdelay (ms : Z) : C unit := real_time_delay ms 1000.
Definition timer_udelay (us : Z) : C unit := real_time_delay us (1000 * 1000).
Definition timer_ndelay (ns : Z) : C unit := real_time_delay ns (1000 * 1000 * 1000).

(** [too_many n]: [n] iterations of busy_wait take more than one tick. *)
Section Calibrate.
Context (too_many : Z -> bool).

Fixpoint power_loop (fuel : nat) (loops : Z) : res Z :=
  match fuel with
  | O => Err EFuel
  | S fuel =>
      if negb (too_many (u32 (Z.shiftl loops 1))) then
        let loops := u32 (Z.shiftl loops 1) in
        _ ← ASSERT (negb (loops =? 0));
        power_loop fuel loops
      else Ok loops
  end.

Fixpoint refine_loop (fuel : nat) (high_bit test_bit loops : Z) : res Z :=
  match fuel with
  | O => Err EFuel
  | S fuel =>
      if test_bit =? Z.shiftr high_bit 10 then Ok loops
      else
        let loops := if negb (too_many (Z.lor high_bit test_bit)) then Z.lor loops test_bit else loops in
        refine_loop fuel high_bit (Z.shiftr test_bit 1) loops
  end.

Definition timer_calibrate : C unit :=
  c ← get;
  assertM (intr_on c);;
  loops ← lift (power_loop 33 (Z.shiftl 1 10));
  let high_bit := loops in
  loops ← lift (refine_loop 33 high_bit (Z.shiftr high_bit 1) loops);
  modify (fun c : clock => with_loops c loops).
End Calibrate.

(** ** The speaker *)

Definition SPEAKER_PORT_GATE : Z := 0x61.
Definition SPEAKER_GATE_ENABLE : Z := 0x03.

Definition speaker_off : C unit :=
  old_level ← intr_disable;
  x ← inb SPEAKER_PORT_GATE;
  outb SPEAKER_PORT_GATE (Z.ldiff x SPEAKER_GATE_ENABLE);;
  intr_set_level old_level.

Definition speaker_on (frequency : Z) : C unit :=
  if (20 <=? frequency) && (frequency <=? 20000) then
    old_level ← intr_disable;
    pit_configure_channel 2 3 frequency;;
    x ← inb SPEAKER_PORT_GATE;
    outb SPEAKER_PORT_GATE (Z.lor x SPEAKER_GATE_ENABLE);;
    intr_set_level old_level
  else speaker_off.

Definition speaker_beep : C unit :=
  c ← get;
  if intr_on c then speaker_on 440;; timer_msleep 250;; speaker_off else mret tt.
