(* ===== verification/ClockSpec.v ===== *)
(** Clocks (Clock.v): what the real-time clock reports, how the interval timer is
    programmed, and what the calibration of delays finds. *)

From stdpp Require Import base list numbers.
From Stdlib Require Import ZArith Lia.
From S2P Require Import Prelude Clock.
Open Scope Z_scope.

(** ** Dates *)

(** The Gregorian calendar. *)
Definition leap (y : Z) : bool := (y mod 4 =? 0) && (negb (y mod 100 =? 0) || (y mod 400 =? 0)).
Definition year_days (y : Z) : Z := if leap y then 366 else 365.
Definition month_days (y mon : Z) : Z :=
  if mon =? 2 then if leap y then 29 else 28 else if bool_decide (mon ∈ [4; 6; 9; 11]) then 30 else 31.

Definition sum (l : list Z) : Z := foldr Z.add 0 l.

(** Days from 1 January 1970. *)
Definition unix_days (y mon mday : Z) : Z :=
  sum (year_days <$> seqZ 1970 (y - 1970)) + sum (month_days y <$> seqZ 1 (mon - 1)) + (mday - 1).

Definition unix_time (sec min hour mday mon y : Z) : Z := ((unix_days y mon mday * 24 + hour) * 60 + min) * 60 + sec.

Record date (sec min hour mday mon y : Z) : Prop := {
  d_sec : 0 <= sec < 60; d_min : 0 <= min < 60; d_hour : 0 <= hour < 24;
  d_year : 1970 <= y <= 2037; d_mon : 1 <= mon <= 12; d_mday : 1 <= mday <= month_days y mon
}.

(** Two decimal digits in a byte. *)
Definition bcd (x : Z) : Z := x / 10 * 16 + x mod 10.

Lemma bcd_bin x : 0 <= x < 100 -> bcd_to_bin (bcd x) = x.
Proof.
  intros Hx. assert (H : forallb (fun x => bcd_to_bin (bcd x) =? x) (seqZ 0 100) = true) by (vm_compute; reflexivity).
  rewrite forallb_forall in H. apply Z.eqb_eq, H, list_elem_of_In, elem_of_seqZ. lia.
Qed.

(** ** rtc_get_time *)

Lemma u32_add a b : u32 (u32 a + b) = u32 (a + b).
Proof. unfold u32. by rewrite Zplus_mod_idemp_l. Qed.

(** The days that rtc_get_time counts. *)
Definition rtc_days (year mon : Z) : Z :=
  year * 365 + Z.quot (year - 1) 4 + sum (take (Z.to_nat mon) days_per_month) + if (2 <? mon) && (Z.rem year 4 =? 0) then 1 else 0.

Lemma months_step n i mon time : months_loop (S n) i mon time =
  if i <=? mon then d ← of_option EFault (days_per_month !! Z.to_nat (i - 1)); months_loop n (i + 1) mon (u32 (time + d * 24 * 60 * 60)) else Ok time.
Proof. reflexivity. Qed.

Lemma months_loop_ok n : forall i mon time, 1 <= i -> i <= mon + 1 -> mon <= 12 -> Z.of_nat n = mon + 1 - i ->
  months_loop (S n) i mon (u32 time) = Ok (u32 (time + 86400 * sum (take n (drop (Z.to_nat (i - 1)) days_per_month)))).
Proof.
  induction n as [|n IH]; intros i mon time Hi Hm H12 Hn; rewrite months_step.
  - rewrite (proj2 (Z.leb_gt _ _)) by lia. cbn [take sum foldr]. by rewrite Z.mul_0_r, Z.add_0_r.
  - rewrite (proj2 (Z.leb_le _ _)) by lia. destruct (lookup_lt_is_Some_2 days_per_month (Z.to_nat (i - 1))) as (d & Hd); [cbn; lia|].
    rewrite Hd. cbn [of_option mbind res_bind]. rewrite u32_add. rewrite IH by lia.
    rewrite (drop_S _ d (Z.to_nat (i - 1))) by done. replace (S (Z.to_nat (i - 1))) with (Z.to_nat (i + 1 - 1)) by lia.
    cbn [take]. unfold sum. cbn [foldr]. do 2 f_equal. lia.
Qed.

Lemma months_more k : forall n i mon t r, months_loop n i mon t = Ok r -> months_loop (n + k) i mon t = Ok r.
Proof.
  induction n as [|n IH]; intros i mon t r H; [done|]. cbn [months_loop Nat.add] in *. destruct (i <=? mon); [|done].
  destruct (days_per_month !! _); [|done]. cbn [of_option mbind res_bind] in *. by apply IH.
Qed.

Lemma quot_small year : 0 <= year <= 67 -> Z.quot (year - 1) 4 = if year =? 0 then 0 else (year - 1) / 4.
Proof. intros Hy. destruct (Z.eqb_spec year 0) as [->|]; [done|]. apply Z.quot_div_nonneg; lia. Qed.

Lemma sum_dpm mon : 1 <= mon <= 12 -> 28 <= sum (take (Z.to_nat mon) days_per_month) <= 365.
Proof.
  intros Hm. assert (H : forallb (fun mon => (28 <=? sum (take (Z.to_nat mon) days_per_month)) && (sum (take (Z.to_nat mon) days_per_month) <=? 365)) (seqZ 1 12) = true) by (vm_compute; reflexivity).
  rewrite forallb_forall in H. specialize (H mon ltac:(apply list_elem_of_In, elem_of_seqZ; lia)). cbv beta in H. lia.
Qed.

Lemma rtc_seconds_ok sec min hour mday mon y : date sec min hour mday mon y ->
  rtc_seconds sec min hour mday mon (y mod 100) = Ok ((((rtc_days (y - 1970) mon + (mday - 1)) * 24 + hour) * 60 + min) * 60 + sec).
Proof.
  intros [Hs Hm Hh Hy Hmo Hd]. unfold rtc_seconds. assert (Ey : (if y mod 100 <? 70 then y mod 100 + 100 else y mod 100) - 70 = y - 1970).
  { destruct (Z.ltb_spec (y mod 100) 70); Z.to_euclidean_division_equations; lia. }
  rewrite Ey. set (year := y - 1970). assert (Hyear : 0 <= year <= 67) by (unfold year; lia). cbv zeta. unfold cdiv.
  assert (Hq : 0 <= Z.quot (year - 1) 4 <= 17) by (rewrite quot_small by done; destruct (Z.eqb_spec year 0); Z.to_euclidean_division_equations; lia).
  set (n := year * 365 + Z.quot (year - 1) 4) in *. assert (Hn : 0 <= n <= 24472) by (unfold n; lia).
  rewrite (s32_small n), (s32_small (n * 24)), (s32_small (n * 24 * 60)), (s32_small (n * 24 * 60 * 60)) by (unfold is_s32; lia).
  assert (El : months_loop 20 1 mon (u32 (n * 24 * 60 * 60)) =
    Ok (u32 (n * 24 * 60 * 60 + 86400 * sum (take (Z.to_nat mon) days_per_month)))).
  { replace 20%nat with (S (Z.to_nat mon) + (19 - Z.to_nat mon))%nat by lia. apply months_more. apply (months_loop_ok (Z.to_nat mon)); lia. }
  rewrite El. cbn [mbind res_bind]. pose proof (sum_dpm mon Hmo) as Hsum. assert (Hmd : mday <= 31).
  { unfold month_days in Hd. destruct (mon =? 2); [destruct (leap y); lia|]. case_bool_decide; lia. }
  unfold rtc_days. fold year. fold n. destruct ((2 <? mon) && (Z.rem year 4 =? 0)); repeat (rewrite <- ?Z.add_assoc; rewrite u32_add); rewrite u32_small by (unfold is_u32; lia); f_equal; lia.
Qed.

(** How far the days counted are from the days that have passed. *)
Definition off (y mon : Z) : Z := rtc_days (y - 1970) mon - unix_days y mon 1.

Lemma off_bounds y mon : 1970 <= y <= 2037 -> 1 <= mon <= 12 -> 27 <= off y mon <= 32.
Proof.
  intros Hy Hm. assert (H : forallb (fun y => forallb (fun mon => (27 <=? off y mon) && (off y mon <=? 32)) (seqZ 1 12)) (seqZ 1970 68) = true) by (vm_compute; reflexivity).
  rewrite forallb_forall in H. specialize (H y ltac:(apply list_elem_of_In, elem_of_seqZ; lia)). rewrite forallb_forall in H.
  specialize (H mon ltac:(apply list_elem_of_In, elem_of_seqZ; lia)). cbv beta in H. lia.
Qed.

Lemma cmos_read_ok i c x l : ins c = x :: l -> exists c', cmos_read i c = Ok (x, c') /\ ins c' = l.
Proof. intros H. unfold cmos_read. erewrite stbind_step by reflexivity. unfold inb. cbn [ins]. rewrite H. by eexists. Qed.

(** The bytes that the clock answers, in the order of the reads. *)
Definition cmos (sec min hour mday mon y : Z) : list Z := bcd <$> [sec; min; hour; mday; mon; y mod 100; sec].

(** The real-time clock: rtc_get_time reads the components of the date and
    computes a number of seconds that is never the Unix time: it is 27 to 32
    days ahead of it, on every date to the end of 2037.  The current month is
    counted as if it had passed, and leap years are two years off. *)
Theorem rtc_get_time_ahead c rest sec min hour mday mon y :
  date sec min hour mday mon y -> ins c = cmos sec min hour mday mon y ++ rest ->
  exists t c', rtc_get_time c = Ok (t, c') /\ ins c' = rest /\
    27 * 86400 <= t - unix_time sec min hour mday mon y <= 32 * 86400.
Proof.
  intros D Hi. assert (Hr : exists c', rtc_read_loop (S (length (ins c))) c = Ok ((sec, min, hour, mday, mon, y mod 100), c') /\ ins c' = rest).
  { destruct D as [H1 H2 H3 H4 H5 H6]. assert (mday <= 31) by (unfold month_days in H6; destruct (mon =? 2); [destruct (leap y); lia|]; case_bool_decide; lia).
    unfold cmos in Hi. cbn [fmap list_fmap app] in Hi. cbn [rtc_read_loop].
    do 7 (match goal with H : ins ?c = _ :: _ |- context [cmos_read ?i] => let E := fresh "E" in
      destruct (cmos_read_ok i c _ _ H) as (? & E & ?); erewrite stbind_step by exact E; clear H E end).
    rewrite Z.eqb_refl, !bcd_bin by (lia || (Z.to_euclidean_division_equations; lia)). eexists. split; [reflexivity|done]. }
  destruct Hr as (c' & Er & Hins). pose proof (rtc_seconds_ok _ _ _ _ _ _ D) as Es. unfold rtc_get_time. rewrite Er, Es. eexists _, c'. split; [reflexivity|]. split; [done|].
  pose proof (off_bounds y mon (d_year _ _ _ _ _ _ D) (d_mon _ _ _ _ _ _ D)) as Ho. unfold off, unix_time, unix_days in *. lia.
Qed.

Lemma rtc_get_time_ahead_witness :
  let c := MkClock 0 0 false (cmos 56 34 12 25 12 2013) [] [] 0 in
  exists t c', rtc_get_time c = Ok (t, c') /\ 27 * 86400 <= t - unix_time 56 34 12 25 12 2013 <= 32 * 86400.
Proof.
  intros c. assert (D : date 56 34 12 25 12 2013) by (constructor; vm_compute; split; (discriminate || reflexivity)).
  destruct (rtc_get_time_ahead c [] 56 34 12 25 12 2013 D eq_refl) as (t & c' & H1 & _ & H2). exists t, c'. split; [exact H1|exact H2].
Defined.

(** ** The interval timer *)

(** The interval timer: every frequency from 19 Hz to that of the timer's own
    clock gets the count that comes closest to it, written as two bytes to the
    right port, with interrupts off meanwhile and as before afterwards.  But
    from 795,454 Hz on the count is 1, which the comment calls illegal in
    mode 2. *)
Theorem pit_divisor c channel mode frequency :
  channel = 0 \/ channel = 2 -> mode = 2 \/ mode = 3 -> 19 <= frequency <= PIT_HZ ->
  exists n lo hi, pit_configure_channel channel mode frequency c =
      Ok (tt, MkClock (ticks c) (loops_per_tick c) (intr_on c) (ins c)
        (outs c ++ [(PIT_PORT_CONTROL, channel * 64 + 0x30 + mode * 2); (PIT_PORT_COUNTER channel, lo); (PIT_PORT_COUNTER channel, hi)]) (passes c) (spun c)) /\
    n = lo + 256 * hi /\ 1 <= n < 2 ^ 16 /\ 2 * Z.abs (n * frequency - PIT_HZ) <= frequency /\ (n = 1 <-> 795454 <= frequency).
Proof.
  intros Hc Hm Hf. unfold PIT_HZ in *. set (n := (1193180 + frequency / 2) / frequency).
  assert (Hn : 1 <= n < 2 ^ 16 /\ 2 * Z.abs (n * frequency - 1193180) <= frequency /\ (n = 1 <-> 795454 <= frequency)).
  { unfold n. pose proof (Z.div_mod (1193180 + frequency / 2) frequency ltac:(lia)) as E. pose proof (Z.mod_pos_bound (1193180 + frequency / 2) frequency ltac:(lia)) as B.
    pose proof (Z.div_mod frequency 2 ltac:(lia)) as E2. pose proof (Z.mod_pos_bound frequency 2 ltac:(lia)) as B2.
    set (q := (1193180 + frequency / 2) / frequency) in *. set (h := frequency / 2) in *. assert (1 <= q) by nia. assert (q < 2 ^ 16) by nia. split; [lia|]. split; [lia|]. nia. }
  assert (Ep : pit_count frequency = n).
  { unfold pit_count, PIT_HZ, cdiv. rewrite (proj2 (Z.ltb_ge _ _)), (proj2 (Z.ltb_ge _ _)) by lia. rewrite (Z.quot_div_nonneg frequency 2), Z.quot_div_nonneg by (lia || (Z.to_euclidean_division_equations; lia)).
    fold n. apply Z.mod_small. lia. }
  exists n, (u8 n), (u8 (Z.shiftr n 8)). destruct Hn as (Hn & Hn2 & Hn3). split; [|split; [|done]].
  - unfold pit_configure_channel. rewrite Ep. destruct Hc as [-> | ->], Hm as [-> | ->]; do 6 (erewrite stbind_step by reflexivity);
      unfold intr_set_level, modify, with_intr; cbn [ticks loops_per_tick intr_on ins outs passes spun]; by rewrite <- !app_assoc.
  - rewrite Z.shiftr_div_pow2 by lia. unfold u8. change (2 ^ 8) with 256. Z.to_euclidean_division_equations; lia.
Qed.

Lemma pit_divisor_witness :
  let c := MkClock 0 0 true [] [] [] 0 in
  exists n lo hi, pit_configure_channel 0 2 TIMER_FREQ c = Ok (tt, MkClock 0 0 true [] [(0x43, 0x34); (0x40, lo); (0x40, hi)] [] 0) /\ n = lo + 256 * hi /\ 2 * Z.abs (n * 100 - PIT_HZ) <= 100.
Proof.
  intros c. destruct (pit_divisor c 0 2 TIMER_FREQ ltac:(by left) ltac:(by left) ltac:(unfold TIMER_FREQ, PIT_HZ; lia)) as (n & lo & hi & H1 & H2 & _ & H3 & _).
  by exists n, lo, hi.
Defined.

(** ** Calibration *)

Lemma shiftl_pow i : 0 <= i -> Z.shiftl (2 ^ i) 1 = 2 ^ (i + 1).
Proof. intros Hi. rewrite Z.shiftl_mul_pow2 by lia. rewrite Z.pow_add_r by lia. lia. Qed.

Lemma shiftr_pow i n : 0 <= n <= i -> Z.shiftr (2 ^ i) n = 2 ^ (i - n).
Proof. intros Hi. rewrite Z.shiftr_div_pow2 by lia. replace (2 ^ i) with (2 ^ (i - n) * 2 ^ n) by (rewrite <- Z.pow_add_r by lia; f_equal; lia). apply Z.div_mul. lia. Qed.

Lemma lor_pow2 x i : 0 <= i -> x mod 2 ^ (i + 1) = 0 -> Z.lor x (2 ^ i) = x + 2 ^ i.
Proof.
  intros Hi Hx. assert (Hl : Z.land x (2 ^ i) = 0).
  { apply Z.bits_inj'. intros n Hn. rewrite Z.land_spec, Z.pow2_bits_eqb, Z.testbit_0_l by lia. destruct (Z.eqb_spec i n) as [<-|]; [|by rewrite andb_false_r].
    rewrite <- (Z.mod_pow2_bits_low x (i + 1) i), Hx by lia. by rewrite Z.testbit_0_l. }
  rewrite Z.add_nocarry_lxor by done. by rewrite Z.lxor_lor.
Qed.

Section Calibration.
Context (T k : Z).
Hypothesis (Hk : 10 <= k < 31) (HT : 2 ^ k <= T < 2 ^ (k + 1)).

#[local] Abbreviation too_many := (fun n => T <? n).

Lemma power_loop_ok n : forall fuel i, 10 <= i -> i + Z.of_nat n = k -> (n < fuel)%nat -> power_loop too_many fuel (2 ^ i) = Ok (2 ^ k).
Proof.
  induction n as [|n IH]; intros [|fuel] i Hi Hn Hf; try lia; cbn [power_loop]; rewrite shiftl_pow by lia;
    (rewrite u32_small by (split; [lia|]; apply Z.pow_lt_mono_r; lia)).
  - replace i with k by lia. by rewrite (proj2 (Z.ltb_lt _ _)) by lia.
  - assert (2 ^ (i + 1) <= 2 ^ k) by (apply Z.pow_le_mono_r; lia). rewrite (proj2 (Z.ltb_ge _ _)) by lia. cbn [negb].
    rewrite (proj2 (Z.eqb_neq _ _)) by lia. cbn [negb ASSERT mbind res_bind]. apply IH; lia.
Qed.

(** Bits that are too large are left out. *)
Lemma refine_skip n : forall fuel i loops, k - 10 <= i < k -> (forall b, k - 10 <= b <= i -> T - 2 ^ k < 2 ^ b \/ b = k - 10) -> i - (k - 10) = Z.of_nat n -> (n < fuel)%nat ->
  refine_loop too_many fuel (2 ^ k) (2 ^ i) loops = Ok loops.
Proof.
  induction n as [|n IH]; intros [|fuel] i loops Hi Hb Hn Hf; try lia; cbn [refine_loop]; rewrite (shiftr_pow k 10) by lia.
  - replace i with (k - 10) by lia. by rewrite Z.eqb_refl.
  - rewrite (proj2 (Z.eqb_neq _ _)) by (intros E; apply Z.pow_inj_r in E; lia). rewrite (lor_pow2 (2 ^ k) i).
    2: { lia. } 2: { replace (2 ^ k) with (2 ^ (k - (i + 1)) * 2 ^ (i + 1)) by (rewrite <- Z.pow_add_r by lia; f_equal; lia). apply Z_mod_mult. }
    destruct (Hb i ltac:(lia)) as [H|H]; [|lia]. rewrite (proj2 (Z.ltb_lt _ _)) by lia. cbn [negb]. rewrite shiftr_pow by lia. apply IH; [lia| |lia|lia].
    intros b Hbb. apply Hb. lia.
Qed.

(** From the first bit that fits on, all bits are set. *)
Lemma refine_fill n j : forall fuel i, k - 10 <= i <= j -> j < k -> 2 ^ j <= T - 2 ^ k -> i - (k - 10) = Z.of_nat n -> (n < fuel)%nat ->
  refine_loop too_many fuel (2 ^ k) (2 ^ i) (2 ^ k + 2 ^ (j + 1) - 2 ^ (i + 1)) = Ok (2 ^ k + 2 ^ (j + 1) - 2 ^ (k - 9)).
Proof.
  induction n as [|n IH]; intros [|fuel] i Hi Hj Hr Hn Hf; try lia; cbn [refine_loop]; rewrite (shiftr_pow k 10) by lia.
  - replace i with (k - 10) by lia. rewrite Z.eqb_refl. do 3 f_equal. lia.
  - rewrite (proj2 (Z.eqb_neq _ _)) by (intros E; apply Z.pow_inj_r in E; lia).
    assert (Hm : forall e, i < e -> 2 ^ e mod 2 ^ (i + 1) = 0).
    { intros e He. replace (2 ^ e) with (2 ^ (e - (i + 1)) * 2 ^ (i + 1)) by (rewrite <- Z.pow_add_r by lia; f_equal; lia). apply Z_mod_mult. }
    rewrite (lor_pow2 (2 ^ k) i) by (lia || apply Hm; lia). assert (2 ^ i <= 2 ^ j) by (apply Z.pow_le_mono_r; lia).
    rewrite (proj2 (Z.ltb_ge _ _)) by lia. cbn [negb]. rewrite lor_pow2 by (lia || (rewrite Zminus_mod, Zplus_mod, !Hm by lia; done)).
    rewrite (shiftr_pow i 1) by lia. rewrite <- (IH fuel (i - 1)) by lia. f_equal. replace (i - 1 + 1) with i by lia. rewrite (Z.pow_add_r 2 i 1) by lia. lia.
Qed.

Lemma refine_from n j : forall fuel i, k - 9 <= j <= i -> i < k -> 2 ^ j <= T - 2 ^ k < 2 ^ (j + 1) -> i - j = Z.of_nat n -> (n + 12 < fuel)%nat ->
  refine_loop too_many fuel (2 ^ k) (2 ^ i) (2 ^ k) = Ok (2 ^ k + 2 ^ (j + 1) - 2 ^ (k - 9)).
Proof.
  induction n as [|n IH]; intros fuel i Hj Hi Hr Hn Hf.
  - replace i with j by lia. replace (2 ^ k) with (2 ^ k + 2 ^ (j + 1) - 2 ^ (j + 1)) at 2 by lia. apply (refine_fill (Z.to_nat (j - (k - 10)))); lia.
  - destruct fuel as [|fuel]; [lia|]. cbn [refine_loop]. rewrite (shiftr_pow k 10) by lia. rewrite (proj2 (Z.eqb_neq _ _)) by (intros E; apply Z.pow_inj_r in E; lia).
    rewrite (lor_pow2 (2 ^ k) i).
    2: { lia. } 2: { replace (2 ^ k) with (2 ^ (k - (i + 1)) * 2 ^ (i + 1)) by (rewrite <- Z.pow_add_r by lia; f_equal; lia). apply Z_mod_mult. }
    assert (2 ^ (j + 1) <= 2 ^ i) by (apply Z.pow_le_mono_r; lia). rewrite (proj2 (Z.ltb_lt _ _)) by lia. cbn [negb]. rewrite shiftr_pow by lia. apply IH; lia.
Qed.
End Calibration.

(** Calibration: when a tick has time for [T] iterations, timer_calibrate
    finds the highest bit of [T], and then sets, of the next nine bits, every
    one from the first that fits on.  The result is below [T] by less than
    the last of these bits, but it exceeds [T] unless all the bits after the
    first one happen to be set: by up to a third, as each bit is tried with
    the highest one only. *)
Theorem timer_calibrate_result c T k :
  intr_on c = true -> 10 <= k < 31 -> 2 ^ k <= T < 2 ^ (k + 1) ->
  exists L, timer_calibrate (fun n => T <? n) c = Ok (tt, with_loops c L) /\ T - 2 ^ (k - 9) < L /\
    (T < 2 ^ k + 2 ^ (k - 9) -> L = 2 ^ k) /\
    (forall j, k - 9 <= j < k -> 2 ^ j <= T - 2 ^ k < 2 ^ (j + 1) ->
       L = 2 ^ k + 2 ^ (j + 1) - 2 ^ (k - 9) /\ (T < 2 ^ k + 2 ^ (j + 1) - 2 ^ (k - 9) -> T < L)).
Proof.
  intros Hi Hk HT. assert (E1 : power_loop (fun n => T <? n) 33 (Z.shiftl 1 10) = Ok (2 ^ k)).
  { change (Z.shiftl 1 10) with (2 ^ 10). apply (power_loop_ok T k Hk HT (Z.to_nat (k - 10))); lia. }
  assert (Hp : 0 < 2 ^ (k - 9)) by (apply Z.pow_pos_nonneg; lia).
  assert (E2 : forall L, refine_loop (fun n => T <? n) 33 (2 ^ k) (2 ^ (k - 1)) (2 ^ k) = Ok L -> timer_calibrate (fun n => T <? n) c = Ok (tt, with_loops c L)).
  { intros L E. unfold timer_calibrate. erewrite stbind_step by reflexivity. rewrite Hi. erewrite stbind_step by reflexivity. erewrite stbind_step by (rewrite E1; reflexivity).
    cbv zeta. rewrite shiftr_pow by lia. by erewrite stbind_step by (rewrite E; reflexivity). }
  set (r := T - 2 ^ k). destruct (Z.lt_ge_cases r (2 ^ (k - 9))) as [Hr|Hr].
  - exists (2 ^ k). split; [apply E2; apply (refine_skip T k Hk (Z.to_nat 9)); [lia| |lia|lia]|].
    { intros b Hb. destruct (Z.eq_dec b (k - 10)); [by right|left]. assert (2 ^ (k - 9) <= 2 ^ b) by (apply Z.pow_le_mono_r; lia). lia. }
    split; [lia|]. split; [done|]. intros j Hj Hr2. assert (2 ^ (k - 9) <= 2 ^ j) by (apply Z.pow_le_mono_r; lia). lia.
  - set (j := Z.log2 r). assert (Hr0 : 0 < r) by lia. pose proof (Z.log2_spec r Hr0) as Hj. fold j in Hj. unfold Z.succ in Hj.
    assert (Hjk : k - 9 <= j < k). { split; [apply Z.log2_le_pow2; lia|]. apply Z.log2_lt_pow2; [done|]. unfold r. rewrite Z.pow_add_r in HT by lia. lia. }
    exists (2 ^ k + 2 ^ (j + 1) - 2 ^ (k - 9)). split; [apply E2; apply (refine_from T k Hk (Z.to_nat (k - 1 - j))); lia|]. split; [lia|]. split; [lia|].
    intros j' Hj' Hr'. assert (j' = j) as ->; [|lia]. symmetry. apply Z.log2_unique; lia.
Qed.

(** With a tick of 1,536 iterations the result is 2,046. *)
Lemma timer_calibrate_result_witness :
  exists L, timer_calibrate (fun n => 1536 <? n) (MkClock 0 0 true [] [] [] 0) = Ok (tt, MkClock 0 L true [] [] [] 0) /\ L = 2046.
Proof.
  destruct (timer_calibrate_result (MkClock 0 0 true [] [] [] 0) 1536 10 eq_refl ltac:(lia) ltac:(lia)) as (L & H1 & _ & _ & H2).
  exists L. split; [exact H1|]. destruct (H2 9 ltac:(lia) ltac:(lia)) as [-> _]. reflexivity.
Defined.

(** ** Sleeping *)

Lemma timer_ticks_ok c : timer_ticks c = Ok (ticks c, c).
Proof. by destruct c. Qed.

(** After these ticks, and not before, [t] have passed; [e] had passed already. *)
Fixpoint just_enough (e t : Z) (l : list Z) : Prop :=
  match l with [] => t <= e | n :: l => e < t /\ 0 <= n /\ just_enough (e + n) t l end.

Lemma just_enough_sum l : forall e t, just_enough e t l -> 0 <= sum l.
Proof. induction l as [|n l IH]; intros e t H; cbn in *; [lia|]. destruct H as (_ & Hn & H). apply IH in H. unfold sum in *. lia. Qed.

Lemma sleep_loop_ok t start before : forall fuel c after, start <= ticks c -> 0 <= start -> ticks c + sum before < 2 ^ 62 -> just_enough (ticks c - start) t before ->
  passes c = before ++ after -> (length before < fuel)%nat ->
  sleep_loop fuel start t c = Ok (tt, MkClock (ticks c + sum before) (loops_per_tick c) (intr_on c) (ins c) (outs c) after (spun c)).
Proof.
  induction before as [|n l IH]; intros [|fuel] c after Hc H0 Hs Hj Hp Hf; cbn [length] in Hf; try lia; cbn [sleep_loop]; unfold sum in Hs; cbn [foldr] in Hs.
  - erewrite stbind_step by (unfold timer_elapsed; erewrite stbind_step by apply timer_ticks_ok; reflexivity). rewrite s64_small by (unfold is_s64; lia).
    cbn in Hj. rewrite (proj2 (Z.ltb_ge _ _)) by lia. cbn in Hp. cbn [sum foldr]. rewrite Z.add_0_r, <- Hp. by destruct c.
  - destruct Hj as (Hlt & Hn & Hj). pose proof (just_enough_sum _ _ _ Hj) as Hsl. unfold sum in Hsl.
    erewrite stbind_step by (unfold timer_elapsed; erewrite stbind_step by apply timer_ticks_ok; reflexivity). rewrite s64_small by (unfold is_s64; lia).
    rewrite (proj2 (Z.ltb_lt _ _)) by lia. erewrite stbind_step by (unfold thread_yield; rewrite Hp; reflexivity).
    erewrite IH; [|cbn; lia|done|cbn; unfold sum; lia|cbn; by replace (ticks c + n - start) with (ticks c - start + n) by lia|done|lia]. cbn. do 3 f_equal. unfold sum. cbn. lia.
Qed.

(** timer_sleep returns exactly at the first moment, among those when the
    thread is run again, at which the given number of ticks has passed; without
    interrupts it refuses to sleep. *)
Theorem timer_sleep_until c t before after :
  0 <= ticks c -> ticks c + sum before < 2 ^ 62 -> just_enough 0 t before -> passes c = before ++ after ->
  timer_sleep t c =
    if intr_on c then Ok (tt, MkClock (ticks c + sum before) (loops_per_tick c) true (ins c) (outs c) after (spun c)) else Err EAssert.
Proof.
  intros H0 Hs Hj Hp. unfold timer_sleep. erewrite stbind_step by apply timer_ticks_ok. erewrite stbind_step by reflexivity.
  destruct (intr_on c) eqn:Ei; [|done]. erewrite stbind_step by reflexivity. erewrite sleep_loop_ok; [by rewrite Ei|lia|done|exact Hs|by rewrite Z.sub_diag|exact Hp|].
  rewrite Hp, length_app. lia.
Qed.

Lemma timer_sleep_until_witness :
  timer_sleep 5 (MkClock 1000 0 true [] [] [2; 0; 4; 7] 0) = Ok (tt, MkClock 1006 0 true [] [] [7] 0).
Proof. exact (timer_sleep_until (MkClock 1000 0 true [] [] [2; 0; 4; 7] 0) 5 [2; 0; 4] [7] ltac:(cbn; lia) ltac:(cbn; lia) ltac:(cbn; lia) eq_refl). Defined.

(** Short delays: for a time that is shorter than a tick real_time_sleep spins,
    for a number of iterations that is not more than the time takes, and less
    by no more than what rounding down twice can lose. *)
Theorem short_sleep_spins c num denom :
  intr_on c = true -> denom ∈ [1000; 1000 * 1000; 1000 * 1000 * 1000] -> 0 <= num -> num * TIMER_FREQ < denom -> 0 <= loops_per_tick c < 2 ^ 32 ->
  exists n, real_time_sleep num denom c = Ok (tt, MkClock (ticks c) (loops_per_tick c) true (ins c) (outs c) (passes c) (spun c + n)) /\
    n * denom <= loops_per_tick c * TIMER_FREQ * num < n * denom + denom + 1000 * TIMER_FREQ.
Proof.
  intros Hi Hd Hn Hlt Hl. unfold TIMER_FREQ in *. set (L := loops_per_tick c) in *. assert (Hden : exists m, denom = 1000 * m /\ 0 < m <= 1000000).
  { rewrite !elem_of_cons, elem_of_nil in Hd. destruct Hd as [->|[->|[->|[]]]]; [exists 1|exists 1000|exists 1000000]; lia. }
  destruct Hden as (m & -> & Hm). assert (HLn : 0 <= L * num) by nia. assert (Hnum : num < 10 * m) by lia. assert (HLn2 : L * num < 2 ^ 32 * 10000000) by nia.
  set (a := L * num / 1000). assert (Ha : 1000 * a <= L * num < 1000 * a + 1000) by (unfold a; Z.to_euclidean_division_equations; lia).
  set (n := a * 100 / m). assert (Hna : m * n <= a * 100 < m * n + m). { unfold n. pose proof (Z.div_mod (a * 100) m ltac:(lia)). pose proof (Z.mod_pos_bound (a * 100) m ltac:(lia)). lia. }
  exists n. split; [|nia]. unfold real_time_sleep, TIMER_FREQ, cdiv. rewrite s64_small by (unfold is_s64; lia). rewrite Z.quot_small by lia.
  erewrite stbind_step by reflexivity. rewrite Hi. erewrite stbind_step by reflexivity. cbn [Z.ltb Z.compare]. unfold real_time_delay, cdiv, TIMER_FREQ.
  rewrite (Z.mul_comm 1000 m), Z.rem_mul by lia. erewrite stbind_step by reflexivity. erewrite stbind_step by reflexivity. fold L.
  rewrite (s64_small (L * num)) by (unfold is_s64; lia). rewrite (Z.quot_div_nonneg (L * num)) by lia. fold a. rewrite s64_small by (unfold is_s64; lia).
  rewrite Z.quot_mul by lia. rewrite Z.quot_div_nonneg by lia. fold n. unfold busy_wait, modify. rewrite Hi, Z.max_r by (apply Z.div_pos; lia). done.
Qed.

Lemma short_sleep_spins_witness :
  let c := MkClock 0 1000000 true [] [] [] 0 in
  exists n, real_time_sleep 10 (1000 * 1000) c = Ok (tt, MkClock 0 1000000 true [] [] [] (0 + n)) /\ n * 1000000 <= 1000000 * 100 * 10 < n * 1000000 + 1000000 + 100000.
Proof.
  intros c. destruct (short_sleep_spins c 10 (1000 * 1000) eq_refl ltac:(apply list_elem_of_In; cbn; auto) ltac:(lia) ltac:(unfold TIMER_FREQ; lia) ltac:(cbn; lia)) as (n & H1 & H2).
  exists n. split; [exact H1|exact H2].
Defined.
