(* ===== verification/Vga.v ===== *)
(** The text screen: devices/vga.c.

    The frame buffer is the 4,000 bytes at 0xb8000, a character and an attribute
    for each of 25 rows of 80 columns.  [position] is the hardware's cursor,
    as the two words written to port 0x3d4 set it; [beeps] counts calls of
    speaker_beep (Clock.v). *)

From stdpp Require Import base list numbers.
From Stdlib Require Import ZArith Lia.
From S2P Require Import Prelude.
Open Scope Z_scope.

Definition COL_CNT : Z := 80.
Definition ROW_CNT : Z := 25.
Definition GRAY_ON_BLACK : Z := 0x07.

Record vga := MkVga { cx : Z; cy : Z; fb : list Z; inited : bool; position : Z; beeps : Z }.

#[local] Abbreviation V := (stM vga).

Definition with_cursor (v : vga) (x y : Z) : vga := MkVga x y (fb v) (inited v) (position v) (beeps v).
Definition with_fb (v : vga) (l : list Z) : vga := MkVga (cx v) (cy v) l (inited v) (position v) (beeps v).

(** fb[y][x][k] = c *)
Definition set_fb (y x k c : Z) : V unit := fun v =>
  let i := (y * COL_CNT + x) * 2 + k in
  if (0 <=? i) && (i <? Z.of_nat (length (fb v))) then Ok (tt, with_fb v (<[Z.to_nat i := u8 c]> (fb v))) else Err EFault.

(** Writing word [data] to port 0x3d4 writes its high byte to the register that
    its low byte selects; 0x0e and 0x0f are the bytes of the cursor's position. *)
Definition outw (data : Z) : V unit := modify (fun v : vga =>
  let reg := Z.land data 0xff in
  let byte := Z.land (Z.shiftr data 8) 0xff in
  let p := position v in
  MkVga (cx v) (cy v) (fb v) (inited v)
    (if reg =? 0x0e then byte * 256 + p mod 256 else if reg =? 0x0f then p / 256 * 256 + byte else p) (beeps v)).

Definition ROUND_UP (x step : Z) : Z := (x + step - 1) / step * step.

Definition move_cursor : V unit :=
  v ← get;
  let cp := (cx v + COL_CNT * cy v) mod 2 ^ 16 in
  outw (Z.lor 0x0e (Z.land cp 0xff00));;
  outw (Z.lor 0x0f (Z.land (Z.shiftl cp 8) 0xffff)).

(** The position is read from the hardware. *)
Definition find_cursor : V (Z * Z) :=
  v ← get;
  let cp := position v in
  mret (cp mod COL_CNT, cp / COL_CNT).

Definition init : V unit :=
  v ← get;
  if inited v then mret tt
  else
    '(x, y) ← find_cursor;
    modify (fun v : vga => MkVga x y (fb v) true (position v) (beeps v)).

Fixpoint clear_loop (n : nat) (y x : Z) : V unit :=
  match n with
  | O => mret tt
  | S n => set_fb y x 0 32;; set_fb y x 1 GRAY_ON_BLACK;; clear_loop n y (x + 1)
  end.

Definition clear_row (y : Z) : V unit := clear_loop (Z.to_nat COL_CNT) y 0.

Fixpoint cls_loop (n : nat) (y : Z) : V unit :=
  match n with
  | O => mret tt
  | S n => clear_row y;; cls_loop n (y + 1)
  end.

Definition cls : V unit :=
  cls_loop (Z.to_nat ROW_CNT) 0;;
  modify (fun v : vga => with_cursor v 0 0);;
  move_cursor.

(** memmove (&fb[0], &fb[1], sizeof fb[0] * (ROW_CNT - 1)) *)
Definition scroll : V unit := fun v =>
  let n := Z.to_nat (COL_CNT * 2 * (ROW_CNT - 1)) in
  let src := take n (drop (Z.to_nat (COL_CNT * 2)) (fb v)) in
  if (length src =? n)%nat then Ok (tt, with_fb v (src ++ drop n (fb v))) else Err EFault.

Definition newline : V unit :=
  modify (fun v : vga => with_cursor v 0 (cy v + 1));;
  v ← get;
  if ROW_CNT <=? cy v then
    modify (fun v : vga => with_cursor v (cx v) (ROW_CNT - 1));;
    scroll;;
    clear_row (ROW_CNT - 1)
  else mret tt.

Definition vga_putc (c : Z) : V unit :=
  init;;
  v ← get;
  (if c =? 10 then newline
   else if c =? 12 then cls
   else if c =? 8 then if 0 <? cx v then modify (fun v : vga => with_cursor v (cx v - 1) (cy v)) else mret tt
   else if c =? 13 then modify (fun v : vga => with_cursor v 0 (cy v))
   else if c =? 9 then
     modify (fun v : vga => with_cursor v (ROUND_UP (cx v + 1) 8) (cy v));;
     v ← get;
     if COL_CNT <=? cx v then newline else mret tt
   else if c =? 7 then modify (fun v : vga => MkVga (cx v) (cy v) (fb v) (inited v) (position v) (beeps v + 1))
   else
     set_fb (cy v) (cx v) 0 c;;
     set_fb (cy v) (cx v) 1 GRAY_ON_BLACK;;
     modify (fun v : vga => with_cursor v (cx v + 1) (cy v));;
     v ← get;
     if COL_CNT <=? cx v then newline else mret tt);;
  move_cursor.

Fixpoint put_all (l : list Z) : V unit :=
  match l with [] => mret tt | c :: l => vga_putc c;; put_all l end.
