(* ===== verification/VgaSpec.v ===== *)
(** The text screen (Vga.v) shows the end of an endless roll of paper. *)

From stdpp Require Import base list numbers.
From Stdlib Require Import ZArith Lia.
From Stdlib Require String.
From S2P Require Import Prelude Vga.
Import String.StringSyntax.
Open Scope Z_scope.

(** ** Paper *)

(** A row of the screen: 80 characters with their attributes. *)
#[local] Abbreviation row := (list Z).

Definition blank : row := mjoin (replicate 80 [32; GRAY_ON_BLACK]).
Definition put_cell (r : row) (x c : Z) : row := <[S (Z.to_nat (2 * x)) := GRAY_ON_BLACK]> (<[Z.to_nat (2 * x) := u8 c]> r).

(** What has been written: rows above the current one, the current one, the
    column in it, and rows below it that are on the screen. *)
Record paper := MkPaper { above : list row; cur : row; col : Z; below : list row }.

Definition feed (p : paper) : paper :=
  match below p with
  | r :: bs => MkPaper (above p ++ [cur p]) r 0 bs
  | [] => MkPaper (above p ++ [cur p]) blank 0 []
  end.

(** The effect of a character: the screen and its scrolling do not appear here. *)
Definition type_char (p : paper) (c : Z) : paper :=
  if c =? 10 then feed p
  else if c =? 12 then MkPaper [] blank 0 (replicate 24 blank)
  else if c =? 8 then MkPaper (above p) (cur p) (Z.max 0 (col p - 1)) (below p)
  else if c =? 13 then MkPaper (above p) (cur p) 0 (below p)
  else if c =? 9 then
    if 72 <=? col p then feed p else MkPaper (above p) (cur p) (8 * (col p / 8 + 1)) (below p)
  else if c =? 7 then p
  else
    let p := MkPaper (above p) (put_cell (cur p) (col p) c) (col p + 1) (below p) in
    if col p =? 80 then feed p else p.

Definition typed (p : paper) (l : list Z) : paper := fold_left type_char l p.

Record wf (p : paper) : Prop := {
  w_above : Forall (fun r => length r = 160%nat) (above p);
  w_cur : length (cur p) = 160%nat;
  w_below : Forall (fun r => length r = 160%nat) (below p);
  w_col : 0 <= col p < 80;
  w_rows : (24 <= length (above p) + length (below p))%nat;
  w_full : below p <> [] -> (length (above p) + length (below p) = 24)%nat
}.

(** The last 25 rows. *)
Definition window (p : paper) : list row := drop (length (above p) + length (below p) - 24) (above p) ++ cur p :: below p.

Record shows (v : vga) (p : paper) : Prop := {
  s_wf : wf p;
  s_fb : fb v = mjoin (window p);
  s_cx : cx v = col p;
  s_cy : cy v = 24 - Z.of_nat (length (below p));
  s_inited : inited v = true
}.

Lemma window_rows p : wf p -> Forall (fun r => length r = 160%nat) (window p).
Proof. intros []. apply Forall_app. split; [by apply Forall_drop|by constructor]. Qed.

Lemma window_length p : wf p -> length (window p) = 25%nat.
Proof.
  intros [H1 H2 H3 H4 H5 H6]. unfold window. rewrite length_app, length_drop. cbn [length]. destruct (below p); cbn [length] in *; [lia|]. specialize (H6 ltac:(done)). lia.
Qed.

Lemma window_cur p : wf p -> window p !! (24 - length (below p))%nat = Some (cur p).
Proof.
  intros [H1 H2 H3 H4 H5 H6]. unfold window. assert (Hb : (length (below p) <= 24)%nat) by (destruct (below p); cbn [length] in *; [lia|specialize (H6 ltac:(done)); lia]).
  rewrite lookup_app_r; rewrite length_drop; [|lia]. replace (24 - length (below p) - (length (above p) - (length (above p) + length (below p) - 24)))%nat with 0%nat by lia. done.
Qed.

(** ** Bytes of a row *)

Lemma screen_insert n (els : list row) k e j x : Forall (fun e => length e = n) els -> els !! k = Some e -> (j < n)%nat ->
  <[(k * n + j)%nat := x]> (mjoin els) = mjoin (<[k := <[j := x]> e]> els).
Proof.
  intros HF Hk Hj. revert k Hk. induction els as [|a els IH]; intros k Hk; [done|]. apply Forall_cons_1 in HF as [Ha HF].
  change (mjoin (a :: els)) with (a ++ mjoin els). destruct k as [|k].
  - injection Hk as ->. cbn [Nat.mul Nat.add]. rewrite insert_app_l by lia. done.
  - cbn in Hk. replace (S k * n + j)%nat with (length a + (k * n + j))%nat by lia. rewrite insert_app_r.
    change (<[S k := <[j := x]> e]> (a :: els)) with (a :: <[k := <[j := x]> e]> els). change (mjoin (a :: ?l)) with (a ++ mjoin l). f_equal. by apply IH.
Qed.

Lemma set_fb_ok v rows y x k c r : fb v = mjoin rows -> Forall (fun r => length r = 160%nat) rows -> rows !! Z.to_nat y = Some r -> 0 <= y -> 0 <= x < 80 -> 0 <= k < 2 ->
  set_fb y x k c v = Ok (tt, with_fb v (mjoin (<[Z.to_nat y := <[Z.to_nat (2 * x + k) := u8 c]> r]> rows))).
Proof.
  intros Hf HF Hr Hy Hx Hk. unfold set_fb, COL_CNT. pose proof (lookup_lt_Some _ _ _ Hr) as Hlt.
  assert (Hl : length (fb v) = (length rows * 160)%nat) by (rewrite Hf; by apply flat_length).
  rewrite (proj2 (Z.leb_le _ _)), (proj2 (Z.ltb_lt _ _)) by lia. cbn [andb]. do 3 f_equal. rewrite Hf.
  replace (Z.to_nat ((y * 80 + x) * 2 + k)) with (Z.to_nat y * 160 + Z.to_nat (2 * x + k))%nat by lia. apply screen_insert; [done|done|lia].
Qed.

Lemma put_cell_ok v rows y x c r : fb v = mjoin rows -> Forall (fun r => length r = 160%nat) rows -> rows !! Z.to_nat y = Some r -> 0 <= y -> 0 <= x < 80 ->
  (set_fb y x 0 c;; set_fb y x 1 GRAY_ON_BLACK) v = Ok (tt, with_fb v (mjoin (<[Z.to_nat y := put_cell r x c]> rows))).
Proof.
  intros Hf HF Hr Hy Hx. erewrite stbind_step by (by apply (set_fb_ok v rows y x 0 c r)). pose proof (lookup_lt_Some _ _ _ Hr) as Hlt. pose proof HF as HF'. rewrite Forall_lookup in HF'.
  erewrite (set_fb_ok _ (<[Z.to_nat y := <[Z.to_nat (2 * x + 0) := u8 c]> r]> rows)); [|done| |by rewrite list_lookup_insert_eq|done|done|lia].
  - rewrite list_insert_insert_eq. unfold put_cell. do 5 f_equal. replace (Z.to_nat (2 * x + 1)) with (S (Z.to_nat (2 * x))) by lia. by rewrite Z.add_0_r.
  - apply Forall_insert; [done|]. rewrite length_insert. by apply (HF' (Z.to_nat y)).
Qed.

Lemma cell_assoc y x c (k : stM vga unit) v : (set_fb y x 0 c;; set_fb y x 1 GRAY_ON_BLACK;; k) v = ((set_fb y x 0 c;; set_fb y x 1 GRAY_ON_BLACK);; k) v.
Proof. unfold mbind, stM_bind. destruct (set_fb y x 0 c v) as [[[] ?]|]; [|done]. by destruct (set_fb y x 1 GRAY_ON_BLACK _) as [[[] ?]|]. Qed.

Lemma put_cell_length r x c : length (put_cell r x c) = length r.
Proof. unfold put_cell. by rewrite !length_insert. Qed.

(** ** Clearing *)

Fixpoint clear_cells (n : nat) (x : Z) (r : row) : row :=
  match n with O => r | S n => clear_cells n (x + 1) (put_cell r x 32) end.

Lemma clear_cells_app n : forall x pre rest, 0 <= x -> length pre = Z.to_nat (2 * x) -> length rest = (2 * n)%nat ->
  clear_cells n x (pre ++ rest) = pre ++ mjoin (replicate n [32; GRAY_ON_BLACK]).
Proof.
  induction n as [|n IH]; intros x pre rest Hx Hp Hr; cbn [clear_cells].
  - destruct rest; [done|cbn in Hr; lia].
  - destruct rest as [|a [|b rest]]; cbn [length] in Hr; try lia. unfold put_cell. rewrite <- Hp.
    rewrite <- (Nat.add_0_r (length pre)) at 2. rewrite insert_app_r. rewrite <- Nat.add_1_r, insert_app_r. cbn [insert list_insert].
    change (u8 32) with 32. change (pre ++ _) with (pre ++ [32; GRAY_ON_BLACK] ++ rest) at 1. rewrite app_assoc.
    rewrite (IH (x + 1)); [by rewrite <- app_assoc|lia|rewrite length_app; cbn [length]; lia|lia].
Qed.

Lemma clear_cells_blank r : length r = 160%nat -> clear_cells 80 0 r = blank.
Proof. intros Hr. by apply (clear_cells_app 80 0 [] r). Qed.

Lemma clear_loop_ok n : forall v rows y x r, fb v = mjoin rows -> Forall (fun r => length r = 160%nat) rows -> rows !! Z.to_nat y = Some r -> 0 <= y -> 0 <= x -> x + Z.of_nat n <= 80 ->
  clear_loop n y x v = Ok (tt, with_fb v (mjoin (<[Z.to_nat y := clear_cells n x r]> rows))).
Proof.
  induction n as [|n IH]; intros v rows y x r Hf HF Hr Hy Hx Hn; cbn [clear_loop clear_cells].
  - rewrite list_insert_id by done. rewrite <- Hf. by destruct v.
  - pose proof (put_cell_ok v rows y x 32 r Hf HF Hr Hy ltac:(lia)) as E. pose proof (lookup_lt_Some _ _ _ Hr) as Hlt. pose proof HF as HF'. rewrite Forall_lookup in HF'.
    rewrite cell_assoc. erewrite stbind_step by exact E.
    rewrite (IH _ (<[Z.to_nat y := put_cell r x 32]> rows) y (x + 1) (put_cell r x 32)); [by rewrite list_insert_insert_eq|done| |by rewrite list_lookup_insert_eq|done|lia|lia].
    apply Forall_insert; [done|]. rewrite put_cell_length. by apply (HF' (Z.to_nat y)).
Qed.

Lemma clear_row_ok v rows y r : fb v = mjoin rows -> Forall (fun r => length r = 160%nat) rows -> rows !! Z.to_nat y = Some r -> 0 <= y ->
  clear_row y v = Ok (tt, with_fb v (mjoin (<[Z.to_nat y := blank]> rows))).
Proof.
  intros Hf HF Hr Hy. unfold clear_row. change (Z.to_nat COL_CNT) with 80%nat. erewrite (clear_loop_ok 80 v rows y 0 r Hf HF Hr Hy) by lia. rewrite clear_cells_blank; [done|]. rewrite Forall_lookup in HF. by eapply HF.
Qed.

Lemma blank_length : length blank = 160%nat.
Proof. reflexivity. Qed.

Lemma cls_loop_ok n : forall v done_rows rest, fb v = mjoin (done_rows ++ rest) -> Forall (fun r => length r = 160%nat) (done_rows ++ rest) -> length rest = n ->
  cls_loop n (Z.of_nat (length done_rows)) v = Ok (tt, with_fb v (mjoin (done_rows ++ replicate n blank))).
Proof.
  induction n as [|n IH]; intros v ds rest Hf HF Hn; cbn [cls_loop].
  - destruct rest; [|done]. cbn. rewrite app_nil_r in *. rewrite <- Hf. by destruct v.
  - destruct rest as [|r rest]; [done|]. cbn in Hn. erewrite stbind_step by (apply (clear_row_ok v (ds ++ r :: rest) _ r Hf HF); [by rewrite Nat2Z.id, lookup_app_r, Nat.sub_diag by lia|lia]).
    rewrite Nat2Z.id. assert (Ei : <[length ds := blank]> (ds ++ r :: rest) = (ds ++ [blank]) ++ rest).
    { rewrite <- (Nat.add_0_r (length ds)), insert_app_r. by rewrite <- app_assoc. }
    rewrite Ei. replace (Z.of_nat (length ds) + 1) with (Z.of_nat (length (ds ++ [blank]))) by (rewrite length_app; cbn; lia).
    rewrite (IH _ (ds ++ [blank]) rest); [by rewrite <- !app_assoc|done| |lia].
    apply Forall_app in HF as [HF1 HF2]. apply Forall_cons_1 in HF2 as [_ HF2]. rewrite !Forall_app. split; [split; [done|by constructor]|done].
Qed.

(** ** The hardware's cursor *)

Definition cursor_of (v : vga) : Z := cx v + 80 * cy v.

Definition cursor_bytes (q : Z) : bool :=
  let hi := Z.lor 0x0e (Z.land q 0xff00) in
  let lo := Z.lor 0x0f (Z.land (Z.shiftl q 8) 0xffff) in
  (Z.land hi 0xff =? 0x0e) && (Z.land (Z.shiftr hi 8) 0xff =? q / 256) && (Z.land lo 0xff =? 0x0f) && (Z.land (Z.shiftr lo 8) 0xff =? q mod 256).

Lemma cursor_bytes_all q : 0 <= q < 2000 ->
  Z.land (Z.lor 0x0e (Z.land q 0xff00)) 0xff = 0x0e /\ Z.land (Z.shiftr (Z.lor 0x0e (Z.land q 0xff00)) 8) 0xff = q / 256 /\
  Z.land (Z.lor 0x0f (Z.land (Z.shiftl q 8) 0xffff)) 0xff = 0x0f /\ Z.land (Z.shiftr (Z.lor 0x0f (Z.land (Z.shiftl q 8) 0xffff)) 8) 0xff = q mod 256.
Proof.
  intros Hq. assert (H : forallb cursor_bytes (seqZ 0 2000) = true) by (vm_compute; reflexivity).
  rewrite forallb_forall in H. specialize (H q ltac:(apply list_elem_of_In, elem_of_seqZ; lia)). unfold cursor_bytes in H. cbv zeta in H.
  rewrite !andb_true_iff, !Z.eqb_eq in H. tauto.
Qed.

Lemma move_cursor_ok v : 0 <= cx v < 80 -> 0 <= cy v < 25 -> move_cursor v = Ok (tt, MkVga (cx v) (cy v) (fb v) (inited v) (cursor_of v) (beeps v)).
Proof.
  intros Hx Hy. unfold move_cursor. erewrite stbind_step by reflexivity. cbv zeta. unfold COL_CNT. fold (cursor_of v).
  assert (Hp : 0 <= cursor_of v < 2000) by (unfold cursor_of; lia). rewrite Z.mod_small by lia. set (p := cursor_of v) in *. erewrite stbind_step by reflexivity.
  pose proof (cursor_bytes_all p Hp) as H.
  destruct H as (H1 & H2 & H3 & H4). unfold outw, modify. cbn [position cx cy fb inited beeps]. rewrite H1, H2, H3, H4. cbn [Z.eqb Pos.eqb]. do 3 f_equal.
  pose proof (Z.mod_pos_bound (position v) 256 ltac:(lia)). rewrite Z.div_add_l, (Z.div_small (position v mod 256)) by lia. pose proof (Z.div_mod p 256 ltac:(lia)). lia.
Qed.

(** ** Lines *)

Lemma feed_wf p : wf p -> wf (feed p).
Proof.
  intros [H1 H2 H3 H4 H5 H6]. unfold feed. destruct (below p) as [|r bs] eqn:Eb.
  - constructor; cbn [above cur col below]; [apply Forall_app; split; [done|by constructor]|apply blank_length|constructor|lia| |done].
    rewrite length_app. cbn in *. lia.
  - apply Forall_cons_1 in H3 as [H3 H3']. specialize (H6 ltac:(done)). cbn [length] in H6.
    constructor; cbn [above cur col below]; [apply Forall_app; split; [done|by constructor]|done|done|lia| |]; rewrite length_app; cbn [length]; lia.
Qed.

(** Below the last row the paper is new and the screen moves; above it the rows are on the screen already. *)
Lemma window_feed p : wf p ->
  window (feed p) = match below p with [] => drop 1 (window p) ++ [blank] | _ => window p end.
Proof.
  intros [H1 H2 H3 H4 H5 H6]. unfold window, feed. destruct (below p) as [|r bs] eqn:Eb; cbn [above cur below].
  - rewrite length_app. cbn [length] in *. rewrite (drop_app_le _ _ (length (above p) + 1 + 0 - 24)) by lia.
    assert (E : drop 1 (drop (length (above p) + 0 - 24) (above p) ++ [cur p]) = drop (length (above p) + 1 + 0 - 24) (above p) ++ [cur p]).
    { rewrite drop_app_le by (rewrite length_drop; lia). rewrite drop_drop. do 2 f_equal. lia. }
    rewrite E. by rewrite <- !app_assoc.
  - specialize (H6 ltac:(done)). rewrite length_app. cbn [length] in *. replace (length (above p) + 1 + length bs - 24)%nat with 0%nat by lia. replace (length (above p) + S (length bs) - 24)%nat with 0%nat by lia.
    rewrite !drop_0, <- app_assoc. done.
Qed.

Lemma scroll_ok v r0 rest l : fb v = mjoin (r0 :: rest ++ [l]) -> Forall (fun r => length r = 160%nat) (r0 :: rest ++ [l]) -> length rest = 23%nat ->
  scroll v = Ok (tt, with_fb v (mjoin ((rest ++ [l]) ++ [l]))).
Proof.
  intros Hf HF Hl. apply Forall_cons_1 in HF as [H0 HF]. pose proof (flat_length 160 (rest ++ [l]) HF) as HL. rewrite length_app in HL. cbn [length] in HL.
  apply Forall_app in HF as [HF HFl]. apply Forall_cons_1 in HFl as [HFl _].
  unfold scroll, COL_CNT, ROW_CNT. change (Z.to_nat (80 * 2 * (25 - 1))) with 3840%nat. change (Z.to_nat (80 * 2)) with 160%nat.
  assert (Es : drop 160 (fb v) = mjoin (rest ++ [l])) by (rewrite Hf; change (mjoin (r0 :: ?x)) with (r0 ++ mjoin x); by rewrite drop_app_length').
  assert (Ed : drop 3840 (fb v) = mjoin [l]).
  { rewrite Hf. change (r0 :: rest ++ [l]) with ((r0 :: rest) ++ [l]). rewrite join_app. apply drop_app_length'.
    rewrite (flat_length 160) by (by constructor). cbn [length]. lia. }
  rewrite Es, Ed, take_ge by lia. rewrite (proj2 (Nat.eqb_eq _ _)) by lia. by rewrite <- join_app.
Qed.

Lemma last_split (rows : list row) n : length rows = S n -> exists rest l, rows = rest ++ [l] /\ length rest = n.
Proof. intros H. destruct (exists_last (l := rows)) as (rest & l & ->); [by intros ->|]. exists rest, l. split; [done|]. rewrite length_app in H. cbn in H. lia. Qed.

Lemma newline_ok v p b : wf p -> fb v = mjoin (window p) -> cy v = 24 - Z.of_nat (length (below p)) -> inited v = true -> beeps v = b ->
  exists v', newline v = Ok (tt, v') /\ shows v' (feed p) /\ beeps v' = b.
Proof.
  intros Hw Hf Hy Hi Hb. pose proof (feed_wf p Hw) as Hw'. pose proof (window_feed p Hw) as Hwin. pose proof (window_rows p Hw) as HF. pose proof (window_length p Hw) as HL.
  unfold newline. erewrite stbind_step by reflexivity. erewrite stbind_step by reflexivity. cbn [cy with_cursor]. unfold ROW_CNT. rewrite Hy.
  destruct (below p) as [|r bs] eqn:Eb.
  - rewrite (proj2 (Z.leb_le _ _)) by (cbn; lia). erewrite stbind_step by reflexivity.
    destruct (window p) as [|r0 rows] eqn:Ew; [done|]. destruct (last_split rows 23) as (rest & l & -> & Hr); [cbn in HL; lia|].
    erewrite stbind_step by (by apply (scroll_ok _ r0 rest l)). apply Forall_cons_1 in HF as [_ HF].
    eexists. split.
    + apply (clear_row_ok _ ((rest ++ [l]) ++ [l]) _ l); [done| | |done]; [|change (Z.to_nat (25 - 1)) with 24%nat; rewrite lookup_app_r; rewrite length_app, Hr; done].
      apply Forall_app. split; [done|]. apply Forall_app in HF as [_ HF]. done.
    + split; [|done]. constructor; cbn [fb cx cy inited with_fb with_cursor]; [done| |by unfold feed; rewrite Eb|unfold feed; by rewrite Eb|done].
      rewrite Hwin. f_equal. change (Z.to_nat (25 - 1)) with 24%nat. change (drop 1 (r0 :: ?x)) with x.
      replace 24%nat with (length (rest ++ [l]) + 0)%nat by (rewrite length_app, Hr; done). by rewrite insert_app_r.
  - assert (length bs < 24)%nat by (destruct Hw as [_ _ _ _ _ H6]; rewrite Eb in H6; specialize (H6 ltac:(done)); cbn [length] in H6; lia).
    rewrite (proj2 (Z.leb_gt _ _)) by (cbn [length]; lia). eexists. split; [reflexivity|]. split; [|done].
    constructor; cbn [fb cx cy inited with_cursor]; [done|by rewrite Hwin|by unfold feed; rewrite Eb|unfold feed; rewrite Eb; cbn [below length]; lia|done].
Qed.

(** ** A character *)

Lemma shows_cursor v p : shows v p -> 0 <= cx v < 80 /\ 0 <= cy v < 25.
Proof. intros [[H1 H2 H3 H4 H5 H6] Hf Hx Hy Hi]. rewrite Hx, Hy. split; [done|]. destruct (below p); cbn [length] in *; [lia|]. specialize (H6 ltac:(done)). lia. Qed.

(** Every branch of vga_putc ends by moving the hardware's cursor. *)
Lemma finish_ok (m : stM vga unit) v v1 p b : m v = Ok (tt, v1) -> shows v1 p -> beeps v1 = b ->
  exists v', (m;; move_cursor) v = Ok (tt, v') /\ shows v' p /\ position v' = cursor_of v' /\ beeps v' = b.
Proof.
  intros E Hs Hb. destruct (shows_cursor v1 p Hs) as [Hx Hy]. eexists. split; [erewrite stbind_step by exact E; by apply move_cursor_ok|].
  split; [by destruct Hs as [? ? ? ? ?]|]. done.
Qed.

Definition beep (c : Z) : Z := if c =? 7 then 1 else 0.

Lemma window_put p x c : wf p -> 0 <= x ->
  window (MkPaper (above p) (put_cell (cur p) (col p) c) x (below p)) = <[(24 - length (below p))%nat := put_cell (cur p) (col p) c]> (window p).
Proof.
  intros Hw Hx. pose proof (window_length p Hw) as HL. unfold window in *. cbn [above cur below]. rewrite length_app in HL. cbn [length] in HL.
  replace (24 - length (below p))%nat with (length (drop (length (above p) + length (below p) - 24) (above p)) + 0)%nat by lia.
  by rewrite insert_app_r.
Qed.

Lemma tab_ok v p : shows v p ->
  exists v1, (modify (fun v : vga => with_cursor v (ROUND_UP (cx v + 1) 8) (cy v));;
     v ← get;
     if COL_CNT <=? cx v then newline else mret tt) v = Ok (tt, v1) /\
  shows v1 (if 72 <=? col p then feed p else MkPaper (above p) (cur p) (8 * (col p / 8 + 1)) (below p)) /\ beeps v1 = beeps v.
Proof.
  intros Hs. destruct Hs as [Hw Hf Hcx Hcy Hi]. pose proof Hw as [W1 W2 W3 W4 W5 W6].
  assert (E : ROUND_UP (col p + 1) 8 = 8 * (col p / 8 + 1)) by (unfold ROUND_UP; Z.to_euclidean_division_equations; lia).
  erewrite stbind_step by reflexivity. erewrite stbind_step by reflexivity. cbn [cx with_cursor]. unfold COL_CNT. rewrite Hcx, E.
  destruct (Z.leb_spec 72 (col p)) as [H|H].
  - rewrite (proj2 (Z.leb_le _ _)) by (Z.to_euclidean_division_equations; lia). by apply (newline_ok _ p).
  - rewrite (proj2 (Z.leb_gt _ _)) by (Z.to_euclidean_division_equations; lia). eexists. split; [reflexivity|]. split; [|done].
    constructor; cbn [fb cx cy inited with_cursor col below]; [constructor; cbn [above cur col below]; try done; Z.to_euclidean_division_equations; lia|done|done|done|done].
Qed.

Lemma cls_ok v p : shows v p -> exists v1, cls v = Ok (tt, v1) /\ shows v1 (MkPaper [] blank 0 (replicate 24 blank)) /\ beeps v1 = beeps v.
Proof.
  intros Hs. destruct Hs as [Hw Hf Hcx Hcy Hi]. unfold cls. change (Z.to_nat ROW_CNT) with 25%nat.
  erewrite stbind_step by (apply (cls_loop_ok 25 v [] (window p)); [done|by apply window_rows|by apply window_length]). erewrite stbind_step by reflexivity.
  eexists. split; [apply move_cursor_ok; cbn; lia|]. split; [|done]. constructor; cbn [fb cx cy inited with_cursor with_fb col below]; [|done|done|done|done].
  constructor; cbn [above cur col below]; [done|done|by apply Forall_replicate|lia|done|done].
Qed.

Lemma plain_ok v p c : shows v p ->
  exists v1, (set_fb (cy v) (cx v) 0 c;; set_fb (cy v) (cx v) 1 GRAY_ON_BLACK;;
     modify (fun v : vga => with_cursor v (cx v + 1) (cy v));;
     v ← get;
     if COL_CNT <=? cx v then newline else mret tt) v = Ok (tt, v1) /\
  shows v1 (let q := MkPaper (above p) (put_cell (cur p) (col p) c) (col p + 1) (below p) in if col q =? 80 then feed q else q) /\ beeps v1 = beeps v.
Proof.
  intros Hs. destruct (shows_cursor v p Hs) as [Hx Hy]. destruct Hs as [Hw Hf Hcx Hcy Hi]. pose proof (window_rows p Hw) as HF. pose proof (window_cur p Hw) as Hc.
  assert (Ey : Z.to_nat (cy v) = (24 - length (below p))%nat) by lia. rewrite <- Ey in Hc.
  pose proof (put_cell_ok v (window p) (cy v) (cx v) c (cur p) Hf HF Hc ltac:(lia) Hx) as E.
  set (q := MkPaper (above p) (put_cell (cur p) (col p) c) (col p) (below p)).
  assert (Hq : wf q) by (destruct Hw; constructor; cbn [above cur col below q]; try done; by rewrite put_cell_length).
  assert (Ef : mjoin (<[Z.to_nat (cy v) := put_cell (cur p) (cx v) c]> (window p)) = mjoin (window q)) by (rewrite Ey, Hcx; unfold q; rewrite (window_put p (col p) c Hw) by lia; done).
  rewrite Ef in E. rewrite cell_assoc. erewrite stbind_step by exact E. erewrite stbind_step by reflexivity. erewrite stbind_step by reflexivity.
  cbn [cx with_cursor with_fb]. unfold COL_CNT. cbv zeta. cbn [col]. rewrite Hcx. destruct (Z.eqb_spec (col p + 1) 80) as [E80|E80].
  - rewrite (proj2 (Z.leb_le _ _)) by lia. by apply (newline_ok _ q).
  - rewrite (proj2 (Z.leb_gt _ _)) by lia. eexists. split; [reflexivity|]. split; [|done]. constructor; cbn [fb cx cy inited with_cursor with_fb col below]; [|done|lia|done|done].
    destruct Hq; constructor; cbn [above cur col below q] in *; try done; lia.
Qed.

Lemma vga_putc_ok v p c : shows v p ->
  exists v', vga_putc c v = Ok (tt, v') /\ shows v' (type_char p c) /\ position v' = cursor_of v' /\ beeps v' = beeps v + beep c.
Proof.
  intros Hs. pose proof (shows_cursor v p Hs) as [Hx Hy]. pose proof Hs as [Hw Hf Hcx Hcy Hi]. pose proof Hw as [W1 W2 W3 W4 W5 W6].
  unfold vga_putc. erewrite stbind_step by (unfold init; erewrite stbind_step by reflexivity; by rewrite Hi). erewrite stbind_step by reflexivity. unfold type_char, beep.
  destruct (Z.eqb_spec c 10) as [->|]; [|destruct (Z.eqb_spec c 12) as [->|]; [|destruct (Z.eqb_spec c 8) as [->|]; [|destruct (Z.eqb_spec c 13) as [->|]; [|destruct (Z.eqb_spec c 9) as [->|]; [|destruct (Z.eqb_spec c 7) as [->|]]]]]]; cbn [Z.eqb Pos.eqb]; rewrite ?Z.add_0_r.
  - destruct (newline_ok v p _ Hw Hf Hcy Hi eq_refl) as (v1 & E & H1 & H2). by eapply finish_ok.
  - destruct (cls_ok v p Hs) as (v1 & E & H1 & H2). by eapply finish_ok.
  - rewrite Hcx. destruct (Z.ltb_spec 0 (col p)); eapply finish_ok; [reflexivity| |done|reflexivity| |done].
    + constructor; cbn [fb cx cy inited with_cursor col below]; [constructor; cbn [above cur col below]; try done; lia|done|lia|done|done].
    + replace (Z.max 0 (col p - 1)) with (col p) by lia. by destruct p.
  - eapply finish_ok; [reflexivity| |done]. constructor; cbn [fb cx cy inited with_cursor col below]; [constructor; cbn [above cur col below]; try done; lia|done|lia|done|done].
  - destruct (tab_ok v p Hs) as (v1 & E & H1 & H2). by eapply finish_ok.
  - eapply finish_ok; [reflexivity| |done]. by constructor.
  - destruct (plain_ok v p c Hs) as (v1 & E & H1 & H2). by eapply finish_ok.
Qed.

Lemma put_all_ok l : forall v p, shows v p -> position v = cursor_of v ->
  exists v', put_all l v = Ok (tt, v') /\ shows v' (typed p l) /\ position v' = cursor_of v' /\ beeps v' = beeps v + foldr Z.add 0 (beep <$> l).
Proof.
  induction l as [|c l IH]; intros v p Hs Hp.
  - exists v. split; [done|]. split; [done|]. split; [done|]. cbn. lia.
  - destruct (vga_putc_ok v p c Hs) as (v1 & E & H1 & H2 & H3). destruct (IH v1 (type_char p c) H1 H2) as (v2 & E2 & H4 & H5 & H6).
    exists v2. split; [cbn [put_all]; by erewrite stbind_step by exact E|]. split; [done|]. split; [done|]. rewrite fmap_cons. cbn [foldr]. lia.
Qed.

(** The screen as the first call finds it: init reads the cursor's place from the hardware. *)
Definition on_screen (v : vga) (p : paper) : Prop := exists v0, init v = Ok (tt, v0) /\ shows v0 p.

Lemma init_frame v v0 : init v = Ok (tt, v0) -> inited v0 = true /\ beeps v0 = beeps v.
Proof. unfold init. erewrite stbind_step by reflexivity. destruct (inited v) eqn:E; intros H; injection H as <-; done. Qed.

Lemma vga_putc_init c v v0 : init v = Ok (tt, v0) -> vga_putc c v = vga_putc c v0.
Proof.
  intros E. unfold vga_putc. erewrite stbind_step by exact E. symmetry. erewrite stbind_step; [done|].
  unfold init. erewrite stbind_step by reflexivity. by rewrite (proj1 (init_frame v v0 E)).
Qed.

(** Any contents of the screen, with the cursor anywhere on it, are the end of some paper. *)
Lemma any_screen v : length (fb v) = 4000%nat -> inited v = false -> 0 <= position v < 2000 -> exists p, on_screen v p.
Proof.
  intros Hl Hi Hp.
  assert (Hrows : exists rows, mjoin rows = fb v /\ length rows = 25%nat /\ Forall (fun r => length r = 160%nat) rows).
  { assert (H : forall n (l : list Z), length l = (n * 160)%nat -> exists rows, mjoin rows = l /\ length rows = n /\ Forall (fun r => length r = 160%nat) rows).
    { induction n as [|n IH]; intros l Hn; [exists []; by destruct l|]. destruct (IH (drop 160 l)) as (rows & E & H1 & H2); [rewrite length_drop; lia|].
      exists (take 160 l :: rows). split; [change (take 160 l ++ mjoin rows = l); rewrite E; apply take_drop|]. split; [cbn; lia|]. constructor; [rewrite length_take; lia|done]. }
    by apply H. }
  destruct Hrows as (rows & E & Hn & HF). set (y := Z.to_nat (position v / 80)). assert (Hy : (y < 25)%nat) by (unfold y; Z.to_euclidean_division_equations; lia).
  destruct (lookup_lt_is_Some_2 rows y) as [r Hr]; [lia|]. pose proof (take_drop_middle rows y r Hr) as Em.
  exists (MkPaper (take y rows) r (position v mod 80) (drop (S y) rows)). eexists. split; [unfold init; erewrite stbind_step by reflexivity; rewrite Hi; reflexivity|].
  pose proof (Z.mod_pos_bound (position v) 80 ltac:(lia)). rewrite Forall_lookup in HF.
  assert (Ea : length (take y rows) = y) by (rewrite length_take; lia). assert (Eb : length (drop (S y) rows) = (24 - y)%nat) by (rewrite length_drop; lia).
  constructor; cbn [fb cx cy inited above cur col below]; [constructor; cbn [above cur col below]|unfold window; cbn [above cur below]|done| |done].
  - rewrite Forall_lookup. intros i x Hx. apply lookup_take_Some in Hx as [Hx _]. by eapply HF.
  - by eapply HF.
  - rewrite Forall_lookup. intros i x Hx. rewrite lookup_drop in Hx. by eapply HF.
  - done.
  - lia.
  - lia.
  - rewrite Ea, Eb. replace (y + (24 - y) - 24)%nat with 0%nat by lia. by rewrite drop_0, Em.
  - unfold find_cursor, COL_CNT. unfold y in *. cbn [below]. rewrite Eb. Z.to_euclidean_division_equations; lia.
Qed.

(** ** Claim *)

(** C15. vga_putc implements typing on an endless roll of paper of which the screen shows the last 25 rows: whatever is written, control characters included, never touches a byte outside the frame buffer, and ends with the screen showing the paper that the same characters give, the hardware's cursor at the column typed to and one beep for every BEL. *)
Theorem vga_refines v p c l : on_screen v p ->
  exists v', put_all (c :: l) v = Ok (tt, v') /\ shows v' (typed p (c :: l)) /\ position v' = cursor_of v' /\ beeps v' = beeps v + foldr Z.add 0 (beep <$> c :: l).
Proof.
  intros (v0 & E0 & Hs). destruct (vga_putc_ok v0 p c Hs) as (v1 & E1 & H1 & H2 & H3). destruct (put_all_ok l v1 (type_char p c) H1 H2) as (v2 & E2 & H4 & H5 & H6).
  exists v2. split; [cbn [put_all]; rewrite <- (vga_putc_init c v v0 E0) in E1; by erewrite stbind_step by exact E1|]. split; [done|]. split; [done|].
  rewrite fmap_cons. cbn [foldr]. rewrite (proj2 (init_frame v v0 E0)) in H3. lia.
Qed.

(** A full screen with the cursor in the middle of its last row: 41 characters pass the edge and scroll it. *)
Definition full_screen : vga := MkVga 0 0 (mjoin (replicate 2000 [64; 7])) false 1960 0.

Lemma vga_refines_witness : exists p v', on_screen full_screen p /\ put_all (replicate 41 65) full_screen = Ok (tt, v') /\ shows v' (typed p (replicate 41 65)).
Proof.
  destruct (any_screen full_screen) as [p Hp]; [reflexivity|reflexivity|cbn; lia|].
  destruct (vga_refines full_screen p 65 (replicate 40 65) Hp) as (v' & E & Hs & _). exists p, v'. split; [exact Hp|]. split; [exact E|exact Hs].
Defined.
