(* ===== verification/Ide.v ===== *)
(** ATA disks: devices/ide.c.

    The controllers are hardware: a class of operations on ports, the passing
    of time and the interrupt line, of which IdeSpec.v states what the ATA
    standard says.  A port of a channel is its offset from reg_base; interrupts
    are taken after every access to a port and every sleep.  A pointer to a
    struct ata_disk is the numbers of its channel and of the device.  One thread
    uses the driver: a lock is a boolean.  Registering a disk with block.c and
    scanning its partitions (Block.v) is recorded in [registered]. *)

From stdpp Require Import base list numbers.
From Stdlib Require Import ZArith Lia.
From Stdlib Require String.
From S2P Require Import Prelude CStdlib Stdio.
Import String.StringSyntax.
Open Scope Z_scope.

(** ** Hardware *)

Class Ata (H : Type) := {
  in8 : Z -> H -> Z * H;        (* an offset from reg_base *)
  out8 : Z -> Z -> H -> H;
  in16 : H -> Z * H;            (* the data register *)
  out16 : Z -> H -> H;
  pass : Z -> H -> H;           (* so many nanoseconds *)
  line : H -> bool;             (* is the interrupt line raised? *)
  idle : H -> H                 (* time passes until the line is raised *)
}.

Definition reg_data : Z := 0.
Definition reg_error : Z := 1.
Definition reg_nsect : Z := 2.
Definition reg_lbal : Z := 3.
Definition reg_lbam : Z := 4.
Definition reg_lbah : Z := 5.
Definition reg_device : Z := 6.
Definition reg_status : Z := 7.
Definition reg_command : Z := reg_status.
Definition reg_ctl : Z := 0x206.
Definition reg_alt_status : Z := reg_ctl.

Definition STA_BSY : Z := 0x80.
Definition STA_DRDY : Z := 0x40.
Definition STA_DRQ : Z := 0x08.
Definition CTL_SRST : Z := 0x04.
Definition DEV_MBS : Z := 0xa0.
Definition DEV_LBA : Z := 0x40.
Definition DEV_DEV : Z := 0x10.
Definition CMD_IDENTIFY_DEVICE : Z := 0xec.
Definition CMD_READ_SECTOR_RETRY : Z := 0x20.
Definition CMD_WRITE_SECTOR_RETRY : Z := 0x30.
Definition CHANNEL_CNT : nat := 2.
Definition BLOCK_SECTOR_SIZE : Z := 512.

(** ** State *)

Record ata_disk := MkDisk { d_name : list Z; dev_no : Z; is_ata : bool }.

Record channel := MkChannel {
  c_name : list Z; reg_base : Z; irq : Z; locked : bool; expecting_interrupt : bool; completion_wait : Z; devices : list ata_disk
}.

Record registration := MkReg { g_name : list Z; g_extra : list Z; g_size : Z; g_disk : nat * nat }.

(** The words of the 512 bytes of a sector. *)
Fixpoint words (l : list Z) : list Z :=
  match l with a :: b :: l => a + 256 * b :: words l | _ => [] end.

Definition bytes (ws : list Z) : list Z := ws ≫= fun w => [w mod 256; w / 256].

(** Swaps all pairs of bytes; an odd byte at the end stays. *)
Fixpoint swap_loop (string : list Z) : list Z :=
  match string with a :: b :: l => b :: a :: swap_loop l | l => l end.

(** The second loop, and the size with which it ends. *)
Fixpoint last_loop (size : nat) (string : list Z) : nat :=
  match size with
  | O => O
  | S n => let c := nth n string 0 in if negb (c =? 0) && negb (isspace c) then S n else last_loop n string
  end.

Definition descramble_ata_string (string : list Z) (size : nat) : list Z :=
  let string := swap_loop (take size string) ++ drop size string in
  <[last_loop (size - 1) string := 0]> string.

(** What printf prints of a string. *)
Fixpoint c_string (l : list Z) : list Z :=
  match l with [] => [] | c :: l => if c =? 0 then [] else c :: c_string l end.

Section Driver.
Context {H : Type} `{Ata H}.

Record ide := MkIde { channels : list channel; hw : list H; intr_on : bool; registered : list registration; messages : list Z }.

#[local] Abbreviation I := (stM ide).

Definition with_channels (s : ide) (l : list channel) : ide := MkIde l (hw s) (intr_on s) (registered s) (messages s).
Definition with_hw (s : ide) (l : list H) : ide := MkIde (channels s) l (intr_on s) (registered s) (messages s).

Definition get_channel (c : nat) : I channel := fun s => match channels s !! c with Some x => Ok (x, s) | None => Err EFault end.
Definition set_channel (c : nat) (x : channel) : I unit := modify (fun s => with_channels s (<[c := x]> (channels s))).
Definition print (l : list Z) : I unit := modify (fun s => MkIde (channels s) (hw s) (intr_on s) (registered s) (messages s ++ l)).

Definition get_disk (d : nat * nat) : I ata_disk :=
  c ← get_channel d.1;
  match devices c !! d.2 with Some x => mret x | None => raise EFault end.

Definition set_is_ata (d : nat * nat) (b : bool) : I unit :=
  c ← get_channel d.1;
  x ← get_disk d;
  set_channel d.1 (MkChannel (c_name c) (reg_base c) (irq c) (locked c) (expecting_interrupt c) (completion_wait c)
    (<[d.2 := MkDisk (d_name x) (dev_no x) b]> (devices c))).

Definition with_expecting (c : channel) (b : bool) : channel :=
  MkChannel (c_name c) (reg_base c) (irq c) (locked c) b (completion_wait c) (devices c).
Definition with_wait (c : channel) (n : Z) : channel :=
  MkChannel (c_name c) (reg_base c) (irq c) (locked c) (expecting_interrupt c) n (devices c).
Definition with_lock (c : channel) (b : bool) : channel :=
  MkChannel (c_name c) (reg_base c) (irq c) b (expecting_interrupt c) (completion_wait c) (devices c).

(** An access to the hardware of a channel. *)
Definition access {A} (c : nat) (f : H -> A * H) : I A := fun s =>
  match hw s !! c with
  | Some h => let '(a, h) := f h in Ok (a, with_hw s (<[c := h]> (hw s)))
  | None => Err EFault
  end.

(** ** Interrupts *)

(** The channels are those at [i] and after. *)
Fixpoint handler_loop (vec_no : Z) (i : nat) (l : list channel) : I unit :=
  match l with
  | [] => raise EPanic
  | c :: l =>
      if vec_no =? irq c then
        if expecting_interrupt c then
          access i (in8 reg_status);;
          set_channel i (with_wait c (completion_wait c + 1))
        else print (c_name c ++ chars ": unexpected interrupt" ++ [10])
      else handler_loop vec_no (S i) l
  end.

Definition interrupt_handler (vec_no : Z) : I unit := s ← get; handler_loop vec_no 0 (channels s).

(** The interrupt lines of the two channels are connected to IRQ 14 and 15. *)
Definition line_vec (c : nat) : Z := 14 + Z.of_nat c + 0x20.

Fixpoint deliver_loop (c : nat) (l : list H) : I unit :=
  match l with
  | [] => mret tt
  | h :: l => (if line h then interrupt_handler (line_vec c) else mret tt);; deliver_loop (S c) l
  end.

Definition deliver : I unit := s ← get; if intr_on s then deliver_loop 0 (hw s) else mret tt.

Definition inb (c : nat) (reg : Z) : I Z := x ← access c (in8 reg); deliver;; mret x.
Definition outb (c : nat) (reg data : Z) : I unit := access c (fun h => (tt, out8 reg (u8 data) h));; deliver.
Definition sleep (ns : Z) : I unit := modify (fun s => with_hw s (pass ns <$> hw s));; deliver.

(** timer_usleep, timer_msleep and timer_nsleep. *)
Definition timer_usleep (us : Z) : I unit := sleep (us * 1000).
Definition timer_msleep (ms : Z) : I unit := sleep (ms * 1000000).
Definition timer_nsleep (ns : Z) : I unit := sleep ns.

(** The thread sleeps until the handler has incremented the semaphore; the
    processor idles until a line is raised.  [EFuel]: it waits for ever. *)
Definition sema_down (c : nat) : I unit :=
  x ← get_channel c;
  (if completion_wait x =? 0 then access c (fun h => (tt, idle h));; deliver else mret tt);;
  x ← get_channel c;
  if 0 <? completion_wait x then set_channel c (with_wait x (completion_wait x - 1)) else raise EFuel.

Definition lock_acquire (c : nat) : I unit := x ← get_channel c; assertM (negb (locked x));; set_channel c (with_lock x true).
Definition lock_release (c : nat) : I unit := x ← get_channel c; assertM (locked x);; set_channel c (with_lock x false).

(** ** Low-level ATA primitives *)

Fixpoint idle_loop (n : nat) (d : nat * nat) : I unit :=
  match n with
  | O => x ← get_disk d; print (d_name x ++ chars ": idle timeout" ++ [10])
  | S n =>
      status ← inb d.1 reg_status;
      if Z.land status (Z.lor STA_BSY STA_DRQ) =? 0 then mret tt
      else timer_usleep 10;; idle_loop n d
  end.

Definition wait_until_idle (d : nat * nat) : I unit := idle_loop 1000 d.

Fixpoint busy_loop (n : nat) (i : Z) (d : nat * nat) : I bool :=
  match n with
  | O => print (chars "failed" ++ [10]);; mret false
  | S n =>
      (if i =? 700 then x ← get_disk d; print (d_name x ++ chars ": busy, waiting...") else mret tt);;
      status ← inb d.1 reg_alt_status;
      if Z.land status STA_BSY =? 0 then
        (if 700 <=? i then print (chars "ok" ++ [10]) else mret tt);;
        status ← inb d.1 reg_alt_status;
        mret (negb (Z.land status STA_DRQ =? 0))
      else timer_msleep 10;; busy_loop n (i + 1) d
  end.

Definition wait_while_busy (d : nat * nat) : I bool := busy_loop 3000 0 d.

Definition select_device (d : nat * nat) : I unit :=
  x ← get_disk d;
  outb d.1 reg_device (if dev_no x =? 1 then Z.lor DEV_MBS DEV_DEV else DEV_MBS);;
  inb d.1 reg_alt_status;;
  timer_nsleep 400.

Definition select_device_wait (d : nat * nat) : I unit :=
  wait_until_idle d;;
  select_device d;;
  wait_until_idle d.

Definition select_sector (d : nat * nat) (sec_no : Z) : I unit :=
  assertM (sec_no <? 2 ^ 28);;
  select_device_wait d;;
  x ← get_disk d;
  outb d.1 reg_nsect 1;;
  outb d.1 reg_lbal sec_no;;
  outb d.1 reg_lbam (Z.shiftr sec_no 8);;
  outb d.1 reg_lbah (Z.shiftr sec_no 16);;
  outb d.1 reg_device (Z.lor (Z.lor (Z.lor DEV_MBS DEV_LBA) (if dev_no x =? 1 then DEV_DEV else 0)) (Z.shiftr sec_no 24)).

Definition issue_pio_command (c : nat) (command : Z) : I unit :=
  s ← get;
  assertM (intr_on s);;
  x ← get_channel c;
  set_channel c (with_expecting x true);;
  outb c reg_command command.

(** insw and outsw on the data register. *)
Fixpoint insw (n : nat) (h : H) : list Z * H :=
  match n with
  | O => ([], h)
  | S n => let '(w, h) := in16 h in let '(ws, h) := insw n h in (w :: ws, h)
  end.

Definition outsw (ws : list Z) (h : H) : H := fold_left (fun h w => out16 w h) ws h.

Definition input_sector (c : nat) : I (list Z) := ws ← access c (insw (Z.to_nat (BLOCK_SECTOR_SIZE / 2))); deliver;; mret (bytes ws).
Definition output_sector (c : nat) (sector : list Z) : I unit := access c (fun h => (tt, outsw (words sector) h));; deliver.

(** ** Reading and writing *)

Definition ide_read (d : nat * nat) (sec_no : Z) : I (list Z) :=
  lock_acquire d.1;;
  select_sector d sec_no;;
  issue_pio_command d.1 CMD_READ_SECTOR_RETRY;;
  sema_down d.1;;
  ok ← wait_while_busy d;
  if negb ok then raise EPanic
  else
    buffer ← input_sector d.1;
    lock_release d.1;;
    mret buffer.

Definition ide_write (d : nat * nat) (sec_no : Z) (buffer : list Z) : I unit :=
  lock_acquire d.1;;
  select_sector d sec_no;;
  issue_pio_command d.1 CMD_WRITE_SECTOR_RETRY;;
  ok ← wait_while_busy d;
  if negb ok then raise EPanic
  else
    output_sector d.1 buffer;;
    sema_down d.1;;
    lock_release d.1.

(** ** Detection *)

(** Writes patterns to two registers; the device is present if it has kept them. *)
Definition detect (c : nat) (dev : nat) : I bool :=
  select_device (c, dev);;
  outb c reg_nsect 0x55;;
  outb c reg_lbal 0xaa;;
  outb c reg_nsect 0xaa;;
  outb c reg_lbal 0x55;;
  outb c reg_nsect 0x55;;
  outb c reg_lbal 0xaa;;
  n ← inb c reg_nsect;
  if n =? 0x55 then l ← inb c reg_lbal; mret (l =? 0xaa) else mret false.

(** Waits for the signature of device 1. *)
Fixpoint signature_loop (n : nat) (c : nat) : I unit :=
  match n with
  | O => mret tt
  | S n =>
      a ← inb c reg_nsect;
      found ← (if a =? 1 then b ← inb c reg_lbal; mret (b =? 1) else mret false);
      if found : bool then mret tt else timer_msleep 10;; signature_loop n c
  end.

Definition reset_channel (c : nat) : I unit :=
  present0 ← detect c 0;
  present1 ← detect c 1;
  outb c reg_ctl 0;;
  timer_usleep 10;;
  outb c reg_ctl CTL_SRST;;
  timer_usleep 10;;
  outb c reg_ctl 0;;
  timer_msleep 150;;
  (if present0 : bool then select_device (c, 0%nat);; wait_while_busy (c, 0%nat);; mret tt else mret tt);;
  (if present1 : bool then
     select_device (c, 1%nat);;
     signature_loop 3000 c;;
     wait_while_busy (c, 1%nat);;
     mret tt
   else mret tt).

Definition check_device_type (d : nat * nat) : I bool :=
  select_device d;;
  error ← inb d.1 reg_error;
  lbam ← inb d.1 reg_lbam;
  lbah ← inb d.1 reg_lbah;
  status ← inb d.1 reg_status;
  x ← get_disk d;
  if (negb (error =? 1) && (negb (error =? 0x81) || (dev_no x =? 1))) || (Z.land status STA_DRDY =? 0) || negb (Z.land status STA_BSY =? 0) then
    set_is_ata d false;;
    mret (negb (error =? 0x81))
  else
    set_is_ata d (((lbam =? 0) && (lbah =? 0)) || ((lbam =? 0x3c) && (lbah =? 0xc3)));;
    mret true.

(** The words and strings of the answer to IDENTIFY DEVICE. *)
Definition capacity_of (id : list Z) : Z := nth 120 id 0 + 256 * nth 121 id 0 + 65536 * nth 122 id 0 + 16777216 * nth 123 id 0.

Definition extra_info (model serial : list Z) : list Z :=
  take 127 (chars "model " ++ [34] ++ c_string model ++ [34] ++ chars ", serial " ++ [34] ++ c_string serial ++ [34]).

Definition identify_ata_device (d : nat * nat) : I unit :=
  x ← get_disk d;
  assertM (is_ata x);;
  select_device_wait d;;
  issue_pio_command d.1 CMD_IDENTIFY_DEVICE;;
  sema_down d.1;;
  ok ← wait_while_busy d;
  if negb ok then set_is_ata d false
  else
    id ← input_sector d.1;
    let capacity := capacity_of id in
    let model := descramble_ata_string (drop 20 id) 20 in
    let serial := descramble_ata_string (drop 54 id) 40 in
    if 1024 * 1024 * 1024 / BLOCK_SECTOR_SIZE <=? capacity then
      print (d_name x ++ chars ": ignoring ");;
      size ← lift (print_human_readable_size (u32 (capacity * 512)) []);
      print size;;
      print (chars "disk for safety" ++ [10]);;
      set_is_ata d false
    else modify (fun s => MkIde (channels s) (hw s) (intr_on s)
      (registered s ++ [MkReg (d_name x) (extra_info model serial) capacity d]) (messages s)).

(** ** Start-up *)

Definition new_channel (chan_no : nat) : channel :=
  MkChannel (chars "ide" ++ [48 + Z.of_nat chan_no]) (if (chan_no =? 0)%nat then 0x1f0 else 0x170) (if (chan_no =? 0)%nat then 14 + 0x20 else 15 + 0x20)
    false false 0
    [MkDisk (chars "hd" ++ [97 + Z.of_nat chan_no * 2]) 0 false; MkDisk (chars "hd" ++ [97 + Z.of_nat chan_no * 2 + 1]) 1 false].

Definition identify_if_ata (d : nat * nat) : I unit := x ← get_disk d; if is_ata x then identify_ata_device d else mret tt.

Fixpoint init_loop (n : nat) (chan_no : nat) : I unit :=
  match n with
  | O => mret tt
  | S n =>
      set_channel chan_no (new_channel chan_no);;
      reset_channel chan_no;;
      slave ← check_device_type (chan_no, 0%nat);
      (if slave : bool then check_device_type (chan_no, 1%nat);; mret tt else mret tt);;
      identify_if_ata (chan_no, 0%nat);;
      identify_if_ata (chan_no, 1%nat);;
      init_loop n (S chan_no)
  end.

Definition ide_init : I unit := init_loop CHANNEL_CNT 0.

End Driver.
Arguments ide H : clear implicits.
