(* ===== verification/IdeSpec.v ===== *)
(** What the ATA standard says of a controller, and that the driver (Ide.v)
    makes of one a disk of sectors. *)

From stdpp Require Import base list numbers.
From Stdlib Require Import ZArith Lia.
From Stdlib Require String.
From S2P Require Import Prelude CStdlib Ide.
Import String.StringSyntax.
Open Scope Z_scope.

(** ** Controllers *)

(** A drive: its answer to IDENTIFY DEVICE and its sectors. *)
Record drive := MkDrive { identity : list Z; sectors : list (list Z) }.

(** What the selected drive is doing: nothing; preparing words for the host;
    offering words; preparing to take words; taking words; storing them, or
    ending a command with an error. *)
Inductive phase :=
| Idle
| BusyIn (ws : list Z)
| DataIn (ws : list Z)
| BusyReady (sec : Z)
| DataOut (sec : Z) (ws : list Z)
| BusyOut.

Record view := MkView { v_nsect : Z; v_lbal : Z; v_lbam : Z; v_lbah : Z; v_device : Z; v_phase : phase; v_drives : list (option drive) }.

Definition with_phase (v : view) (p : phase) : view := MkView (v_nsect v) (v_lbal v) (v_lbam v) (v_lbah v) (v_device v) p (v_drives v).
Definition with_drives (v : view) (l : list (option drive)) : view := MkView (v_nsect v) (v_lbal v) (v_lbam v) (v_lbah v) (v_device v) (v_phase v) l.

(** The drive and the sector that the registers select, in LBA mode. *)
Definition selected (v : view) : nat := if Z.testbit (v_device v) 4 then 1 else 0.
Definition lba (v : view) : Z := v_lbal v + 256 * v_lbam v + 65536 * v_lbah v + 16777216 * (v_device v mod 16).
Definition lba_mode (v : view) : Prop := Z.testbit (v_device v) 6 = true.

(** BSY and DRQ of the status. *)
Definition status_ok (p : phase) (status : Z) : Prop :=
  match p with
  | Idle => Z.land status STA_BSY = 0 /\ Z.land status STA_DRQ = 0
  | DataIn _ | DataOut _ _ => Z.land status STA_BSY = 0 /\ Z.land status STA_DRQ <> 0
  | _ => Z.land status STA_BSY <> 0
  end.

Definition busy (p : phase) : Prop := match p with BusyIn _ | BusyReady _ | BusyOut => True | _ => False end.

(** What can happen at any time, with the interrupt line: an operation completes. *)
Inductive evolves : view * bool -> view * bool -> Prop :=
| ev_refl o : evolves o o
| ev_in v b ws : v_phase v = BusyIn ws -> evolves (v, b) (with_phase v (DataIn ws), true)
| ev_ready v b sec : v_phase v = BusyReady sec -> evolves (v, b) (with_phase v (DataOut sec []), b)
| ev_out v b : v_phase v = BusyOut -> evolves (v, b) (with_phase v Idle, true).

(** The words of a sector are stored. *)
Definition store (v : view) (sec : Z) (ws : list Z) : view :=
  with_drives v (alter (fun o => (fun d => MkDrive (identity d) (<[Z.to_nat sec := bytes ws]> (sectors d))) <$> o) (selected v) (v_drives v)).

(** What a controller promises.  A command on a sector that exists either goes
    the way the standard describes or, unless the controller is [reliable], ends
    with an error: the drive stays busy for a while and raises the line without
    asking for data or offering it.  A drive that has taken the 256 words of a
    sector stores them. *)
Class AtaLaws (H : Type) `{Ata H} := {
  look : H -> view;
  reliable : H -> Prop;         (* no command will end with an error *)
  keep_in8 reg h : reliable h -> reliable (in8 reg h).2;
  keep_out8 reg x h : reliable h -> reliable (out8 reg x h);
  keep_in16 h : reliable h -> reliable (in16 h).2;
  keep_out16 w h : reliable h -> reliable (out16 w h);
  keep_pass n h : reliable h -> reliable (pass n h);
  keep_idle h : reliable h -> reliable (idle h);
  patience : H -> nat;          (* how many 10 ms a drive that is busy may stay so *)
  patience_bound h : (patience h < 2999)%nat;
  law_alt h x h' : in8 reg_alt_status h = (x, h') ->
    evolves (look h, line h) (look h', line h') /\ status_ok (v_phase (look h')) x /\ (patience h' <= patience h)%nat;
  law_status h x h' : in8 reg_status h = (x, h') ->
    exists b, evolves (look h, line h) (look h', b) /\ line h' = false /\ status_ok (v_phase (look h')) x /\ (patience h' <= patience h)%nat;
  law_pass n h : evolves (look h, line h) (look (pass n h), line (pass n h));
  law_patience h : busy (v_phase (look h)) -> busy (v_phase (look (pass (10 * 1000000) h))) -> (patience (pass (10 * 1000000) h) < patience h)%nat;
  law_idle h : line h = false -> match v_phase (look h) with BusyIn _ | BusyOut => True | _ => False end ->
    evolves (look h, false) (look (idle h), true) /\ line (idle h) = true;
  law_nsect h x : v_phase (look h) = Idle -> line h = false -> line (out8 reg_nsect x h) = false /\
    look (out8 reg_nsect x h) = let v := look h in MkView x (v_lbal v) (v_lbam v) (v_lbah v) (v_device v) Idle (v_drives v);
  law_lbal h x : v_phase (look h) = Idle -> line h = false -> line (out8 reg_lbal x h) = false /\
    look (out8 reg_lbal x h) = let v := look h in MkView (v_nsect v) x (v_lbam v) (v_lbah v) (v_device v) Idle (v_drives v);
  law_lbam h x : v_phase (look h) = Idle -> line h = false -> line (out8 reg_lbam x h) = false /\
    look (out8 reg_lbam x h) = let v := look h in MkView (v_nsect v) (v_lbal v) x (v_lbah v) (v_device v) Idle (v_drives v);
  law_lbah h x : v_phase (look h) = Idle -> line h = false -> line (out8 reg_lbah x h) = false /\
    look (out8 reg_lbah x h) = let v := look h in MkView (v_nsect v) (v_lbal v) (v_lbam v) x (v_device v) Idle (v_drives v);
  law_device h x : v_phase (look h) = Idle -> line h = false -> line (out8 reg_device x h) = false /\
    look (out8 reg_device x h) = let v := look h in MkView (v_nsect v) (v_lbal v) (v_lbam v) (v_lbah v) x Idle (v_drives v);
  law_read h d sec : let v := look h in v_phase v = Idle -> line h = false -> lba_mode v -> v_nsect v = 1 ->
    v_drives v !! selected v = Some (Some d) -> sectors d !! Z.to_nat (lba v) = Some sec ->
    let h' := out8 reg_command CMD_READ_SECTOR_RETRY h in evolves (with_phase v (BusyIn (words sec)), false) (look h', line h') \/ ~ reliable h /\ evolves (with_phase v BusyOut, false) (look h', line h');
  law_write h d sec : let v := look h in v_phase v = Idle -> line h = false -> lba_mode v -> v_nsect v = 1 ->
    v_drives v !! selected v = Some (Some d) -> sectors d !! Z.to_nat (lba v) = Some sec ->
    let h' := out8 reg_command CMD_WRITE_SECTOR_RETRY h in evolves (with_phase v (BusyReady (lba v)), false) (look h', line h') \/ ~ reliable h /\ evolves (with_phase v BusyOut, false) (look h', line h');
  law_identify h d : let v := look h in v_phase v = Idle -> line h = false ->
    v_drives v !! selected v = Some (Some d) ->
    let h' := out8 reg_command CMD_IDENTIFY_DEVICE h in evolves (with_phase v (BusyIn (words (identity d))), false) (look h', line h') \/ ~ reliable h /\ evolves (with_phase v BusyOut, false) (look h', line h');
  law_in16 h w ws : v_phase (look h) = DataIn (w :: ws) -> exists h', in16 h = (w, h') /\ line h' = line h /\
    look h' = with_phase (look h) (match ws with [] => Idle | _ => DataIn ws end);
  law_out16 h sec ws w : v_phase (look h) = DataOut sec ws ->
    if (length ws <? 255)%nat then look (out16 w h) = with_phase (look h) (DataOut sec (ws ++ [w])) /\ line (out16 w h) = line h
    else evolves (with_phase (store (look h) sec (ws ++ [w])) BusyOut, line h) (look (out16 w h), line (out16 w h))
}.

(** ** Words, bytes and addresses *)

Lemma pairs_ind (P : list Z -> Prop) : P [] -> (forall a b l, P l -> P (a :: b :: l)) -> forall n l, length l = (2 * n)%nat -> P l.
Proof.
  intros H0 H2. induction n as [|n IH]; intros l Hl; [by destruct l|]. destruct l as [|a [|b l]]; cbn in Hl; try lia. apply H2, IH. lia.
Qed.

Lemma length_sector_words l n : length l = (2 * n)%nat -> length (words l) = n.
Proof. revert l. induction n as [|n IH]; intros l Hl; [by destruct l|]. destruct l as [|a [|b l]]; cbn in Hl; try lia. cbn. f_equal. apply IH. lia. Qed.

Lemma bytes_words n l : length l = (2 * n)%nat -> Forall is_u8 l -> bytes (words l) = l.
Proof.
  intros Hl. revert l Hl. apply (pairs_ind (fun l => Forall is_u8 l -> bytes (words l) = l)); [done|]. intros a b l IH HF. apply Forall_cons_1 in HF as [Ha HF]. apply Forall_cons_1 in HF as [Hb HF].
  cbn [words]. unfold bytes in *. rewrite bind_cons, IH by done. unfold is_u8 in *. cbn [app]. do 2 f_equal; [Z.to_euclidean_division_equations; lia|f_equal; Z.to_euclidean_division_equations; lia].
Qed.

Definition device_byte (dev k : Z) : Z := u8 (Z.lor (Z.lor (Z.lor DEV_MBS DEV_LBA) (if dev =? 1 then DEV_DEV else 0)) k).

Definition addressed (v : view) (dev : nat) (sec_no : Z) : view :=
  MkView (u8 1) (u8 sec_no) (u8 (Z.shiftr sec_no 8)) (u8 (Z.shiftr sec_no 16))
    (device_byte (Z.of_nat dev) (Z.shiftr sec_no 24)) Idle (v_drives v).

Definition device_byte_ok (k : Z) : bool :=
  Z.testbit (device_byte 0 k) 6 && negb (Z.testbit (device_byte 0 k) 4) && (device_byte 0 k mod 16 =? k) &&
  Z.testbit (device_byte 1 k) 6 && Z.testbit (device_byte 1 k) 4 && (device_byte 1 k mod 16 =? k).

(** The registers hold the sector's number and the drive's. *)
Lemma addressed_ok v dev k : 0 <= k < 2 ^ 28 -> (dev < 2)%nat ->
  lba_mode (addressed v dev k) /\ v_nsect (addressed v dev k) = 1 /\ selected (addressed v dev k) = dev /\ lba (addressed v dev k) = k.
Proof.
  intros Hk Hd. assert (Hq : 0 <= Z.shiftr k 24 < 16) by (rewrite Z.shiftr_div_pow2 by lia; change (2 ^ 24) with 16777216; change (2 ^ 28) with 268435456 in Hk; Z.to_euclidean_division_equations; lia).
  assert (HA : forallb device_byte_ok (seqZ 0 16) = true) by (vm_compute; reflexivity). rewrite forallb_forall in HA. specialize (HA (Z.shiftr k 24) ltac:(apply list_elem_of_In, elem_of_seqZ; lia)).
  unfold device_byte_ok in HA. rewrite !andb_true_iff, !Z.eqb_eq, negb_true_iff in HA. destruct HA as (((((D1 & D2) & D3) & D4) & D5) & D6).
  assert (Hsum : u8 k + 256 * u8 (Z.shiftr k 8) + 65536 * u8 (Z.shiftr k 16) + 16777216 * Z.shiftr k 24 = k).
  { unfold u8. rewrite !Z.shiftr_div_pow2 by lia. change (2 ^ 8) with 256. change (2 ^ 16) with 65536. change (2 ^ 24) with 16777216. clear -Hk. Z.to_euclidean_division_equations. lia. }
  unfold lba_mode, selected, lba, addressed. cbn [v_nsect v_lbal v_lbam v_lbah v_device].
  assert (dev = 0%nat \/ dev = 1%nat) as [-> | ->] by lia; [change (Z.of_nat 0) with 0; rewrite D1, D2, D3|change (Z.of_nat 1) with 1; rewrite D4, D5, D6]; done.
Qed.

(** ** The state of the driver *)

Section Driver.
Context {H : Type} `{AtaLaws H} (c : nat).

#[local] Abbreviation ide := (ide H).

(** The other channels are idle. *)
Definition calm (s : ide) : Prop := forall i h, i <> c -> hw s !! i = Some h -> v_phase (look h) = Idle /\ line h = false.

Definition wired (s : ide) : Prop := forall i x, channels s !! i = Some x -> irq x = line_vec i.

Definition all_reliable (s : ide) : Prop := forall i h, hw s !! i = Some h -> reliable h.

(** Nothing but channel [c] has changed. *)
Record frame (s s' : ide) : Prop := {
  f_reliable : all_reliable s -> all_reliable s';
  f_intr : intr_on s' = intr_on s;
  f_reg : registered s' = registered s;
  f_channels i : i <> c -> channels s' !! i = channels s !! i;
  f_hw i : i <> c -> look <$> hw s' !! i = look <$> hw s !! i
}.

(** The channel is [x] and its controller [v], with no interrupt to come; a busy drive stays so for at most [n] times 10 ms. *)
Record at_state (s0 : ide) (x : channel) (v : view) (n : nat) (s : ide) : Prop := {
  a_channel : channels s !! c = Some x;
  a_hw : exists h, hw s !! c = Some h /\ look h = v /\ line h = false /\ patience h = n;
  a_intr : intr_on s = true;
  a_calm : calm s;
  a_wired : wired s;
  a_frame : frame s0 s
}.

Lemma frame_refl s : frame s s.
Proof. by constructor. Qed.

Lemma frame_trans s1 s2 s3 : frame s1 s2 -> frame s2 s3 -> frame s1 s3.
Proof. intros [] []. constructor; [auto|congruence|congruence|intros i Hi; rewrite f_channels1, f_channels0 by done; done|intros i Hi; rewrite f_hw1, f_hw0 by done; done]. Qed.

(** ** Interrupts *)

Lemma handler_loop_ok l : forall i s x, (forall j y, l !! j = Some y -> irq y = line_vec (i + j)) -> (i <= c)%nat -> l !! (c - i)%nat = Some x -> expecting_interrupt x = true ->
  handler_loop (line_vec c) i l s = (access c (in8 reg_status);; set_channel c (with_wait x (completion_wait x + 1))) s.
Proof.
  induction l as [|y l IH]; intros i s x Hl Hi Hx He; [done|]. cbn [handler_loop].
  pose proof (Hl 0%nat y eq_refl) as Hy. rewrite Nat.add_0_r in Hy. destruct (Z.eqb_spec (line_vec c) (irq y)) as [E|E].
  - assert (i = c) as -> by (unfold line_vec in *; lia). rewrite Nat.sub_diag in Hx. injection Hx as ->. by rewrite He.
  - assert (i <> c) by (intros ->; congruence). destruct (c - i)%nat as [|k] eqn:Ek; [lia|]. apply IH; [|lia|by replace (c - S i)%nat with k by lia|done].
    intros j z Hz. replace (S i + j)%nat with (i + S j)%nat by lia. by apply Hl.
Qed.

Lemma deliver_loop_quiet l : forall k (s : ide), (forall h, h ∈ l -> line h = false) -> deliver_loop k l s = Ok (tt, s).
Proof.
  induction l as [|h l IH]; intros k s Hl; [done|]. cbn [deliver_loop]. rewrite (Hl h) by constructor. erewrite stbind_step by reflexivity. apply IH. intros h' Hh. apply Hl. by constructor.
Qed.

Lemma deliver_loop_app l1 l2 : forall k (s : ide), deliver_loop k (l1 ++ l2) s = (deliver_loop k l1;; deliver_loop (k + length l1) l2) s.
Proof.
  induction l1 as [|h l1 IH]; intros k s; cbn [deliver_loop app length].
  - rewrite Nat.add_0_r. done.
  - replace (k + S (length l1))%nat with (S k + length l1)%nat by lia. unfold mbind, stM_bind. destruct ((if line h then interrupt_handler (line_vec k) else mret tt) s) as [[[] s']|e] eqn:E; [|done].
    exact (IH (S k) s').
Qed.

Lemma deliver_low s h : calm s -> hw s !! c = Some h -> line h = false -> deliver s = Ok (tt, s).
Proof.
  intros Hc Hh Hl. unfold deliver. erewrite stbind_step by reflexivity. destruct (intr_on s); [|done]. apply deliver_loop_quiet.
  intros h' [i Hi]%list_elem_of_lookup. destruct (decide (i = c)) as [->|Hn]; [congruence|]. by apply (Hc i h' Hn Hi).
Qed.

(** The state after the interrupt of channel [c] has been taken. *)
Definition taken (s : ide) (x : channel) (h : H) : ide :=
  MkIde (<[c := with_wait x (completion_wait x + 1)]> (channels s)) (<[c := (in8 reg_status h).2]> (hw s)) (intr_on s) (registered s) (messages s).

Lemma deliver_high s x h : calm s -> wired s -> intr_on s = true -> channels s !! c = Some x -> expecting_interrupt x = true -> hw s !! c = Some h -> line h = true ->
  deliver s = Ok (tt, taken s x h).
Proof.
  intros Hc Hw Hi Hx He Hh Hl. unfold deliver. erewrite stbind_step by reflexivity. rewrite Hi. rewrite <- (take_drop_middle (hw s) c h Hh) at 1.
  rewrite deliver_loop_app. pose proof (lookup_lt_Some _ _ _ Hh) as Hlt. erewrite stbind_step.
  2: { apply deliver_loop_quiet. intros h' [i Hi']%list_elem_of_lookup. pose proof (lookup_lt_Some _ _ _ Hi') as Hlt'. rewrite length_take in Hlt'. apply lookup_take_Some in Hi' as [Hi' _]. by apply (Hc i h'); [lia|]. }
  rewrite length_take, Nat.min_l by lia. cbn [deliver_loop]. rewrite Hl. rewrite (stbind_step _ _ _ tt (taken s x h)).
  2: { unfold interrupt_handler. erewrite stbind_step by reflexivity. replace (0 + c)%nat with c by lia.
       rewrite (handler_loop_ok _ 0 s x); [|exact Hw|lia|by rewrite Nat.sub_0_r|done]. unfold access, mbind, stM_bind. rewrite Hh. unfold taken. destruct (in8 reg_status h) as [y h2]. reflexivity. }
  rewrite deliver_loop_quiet; [done|].
  intros h' [i Hi']%list_elem_of_lookup. rewrite lookup_drop in Hi'. by apply (Hc (S c + i)%nat h'); [lia|].
Qed.

(** After an access of channel [c] with the result [h'] the interrupts are taken: the channel counts one if the line was raised. *)
Definition counted (x : channel) (b : bool) : channel := if b then with_wait x (completion_wait x + 1) else x.

Lemma reliable_insert s h' ch i r m : all_reliable s -> reliable h' -> all_reliable (MkIde ch (<[c := h']> (hw s)) i r m).
Proof.
  intros Hr Hh j k Hj. cbn in Hj. destruct (decide (j = c)) as [->|Hjc]; [|rewrite list_lookup_insert_ne in Hj by done; by apply (Hr j)].
  destruct (decide (c < length (hw s))%nat); [rewrite list_lookup_insert_eq in Hj by done; by injection Hj as <-|]. rewrite list_insert_ge in Hj by lia. by apply (Hr c).
Qed.

Lemma settle s0 s x h : channels s !! c = Some x -> hw s !! c = Some h -> intr_on s = true -> calm s -> wired s -> frame s0 s ->
  (line h = true -> expecting_interrupt x = true /\ ~ busy (v_phase (look h))) ->
  exists s' n', deliver s = Ok (tt, s') /\ at_state s0 (counted x (line h)) (look h) n' s' /\ (n' <= patience h)%nat.
Proof.
  intros Hx Hh Hi Hc Hw Hf Hline. pose proof (lookup_lt_Some _ _ _ Hh) as Hlt. pose proof (lookup_lt_Some _ _ _ Hx) as Hltx.
  destruct (line h) eqn:El; cbn [counted].
  - destruct (Hline eq_refl) as [He Hb]. exists (taken s x h). destruct (in8 reg_status h) as [y h2] eqn:E2. exists (patience h2). split; [by apply deliver_high|].
    destruct (law_status h y h2 E2) as (b & Hev & Hl2 & _ & Hp). rewrite El in Hev.
    assert (Hlook : look h2 = look h) by (inversion Hev as [o Eo|v0 b0 ws Hp0|v0 b0 sec Hp0|v0 b0 Hp0]; subst; rewrite ?Hp0 in Hb; cbn in Hb; try tauto; done).
    split; [|done]. unfold taken. rewrite E2. constructor; cbn [channels hw intr_on snd].
    + by rewrite list_lookup_insert_eq.
    + exists h2. split; [by rewrite list_lookup_insert_eq|]. done.
    + done.
    + intros i k Hik Hk. cbn in Hk. rewrite list_lookup_insert_ne in Hk by done. by apply (Hc i k).
    + intros i k Hk. cbn in Hk. destruct (decide (i = c)) as [->|Hik]; [rewrite list_lookup_insert_eq in Hk by done; injection Hk as <-; by apply (Hw c x)|]. rewrite list_lookup_insert_ne in Hk by done. by apply (Hw i k).
    + eapply frame_trans; [exact Hf|]. constructor; cbn; [|done|done| |]; [|intros i Hik; by rewrite list_lookup_insert_ne..].
      intros Hr. pose proof (keep_in8 reg_status h (Hr c h Hh)) as Hk. rewrite E2 in Hk. by apply (reliable_insert s).
  - exists s, (patience h). split; [by apply (deliver_low s h)|]. split; [|done]. constructor; [done|by exists h|done|done|done|done].
Qed.

Lemma settle_access s0 s x v n h h' : at_state s0 x v n s -> hw s !! c = Some h ->
  (reliable h -> reliable h') -> (line h' = true -> expecting_interrupt x = true /\ ~ busy (v_phase (look h'))) ->
  exists s' n', deliver (with_hw s (<[c := h']> (hw s))) = Ok (tt, s') /\ at_state s0 (counted x (line h')) (look h') n' s' /\ (n' <= patience h')%nat.
Proof.
  intros [Hx (h0 & Hh0 & Hv & Hl & Hn) Hi Hc Hw Hf] Hh Hrel Hline. pose proof (lookup_lt_Some _ _ _ Hh) as Hlt. apply settle; cbn [channels hw intr_on with_hw].
  - done.
  - by rewrite list_lookup_insert_eq.
  - done.
  - intros i k Hik Hk. cbn in Hk. rewrite list_lookup_insert_ne in Hk by done. by apply (Hc i k).
  - done.
  - eapply frame_trans; [exact Hf|]; constructor; [|done|done|done|intros i Hik; cbn; by rewrite list_lookup_insert_ne]. intros Hr. apply reliable_insert; [done|]. by apply Hrel, (Hr c).
  - done.
Qed.

(** What can happen to the channel and its controller when nothing is written. *)
Inductive goes : channel * view -> channel * view -> Prop :=
| go_refl o : goes o o
| go_in x v ws : v_phase v = BusyIn ws -> goes (x, v) (counted x true, with_phase v (DataIn ws))
| go_ready x v sec : v_phase v = BusyReady sec -> goes (x, v) (x, with_phase v (DataOut sec []))
| go_out x v : v_phase v = BusyOut -> goes (x, v) (counted x true, with_phase v Idle).

Lemma evolves_goes v x v' b : evolves (v, false) (v', b) -> goes (x, v) (counted x b, v') /\ (b = true -> busy (v_phase v) /\ ~ busy (v_phase v')).
Proof.
  intros Hev. inversion Hev as [o Eo|v0 b0 ws Hp0|v0 b0 sec Hp0|v0 b0 Hp0]; subst; rewrite ?Hp0; cbn [counted].
  - split; [constructor|done].
  - split; [by constructor|]. cbn. tauto.
  - split; [by constructor|done].
  - split; [by constructor|]. cbn. tauto.
Qed.

(** A drive that is busy has been given a command. *)
Definition told (x : channel) (v : view) : Prop := busy (v_phase v) -> expecting_interrupt x = true.

Lemma line_told v h x : evolves (v, false) (look h, line h) -> told x v -> line h = true -> expecting_interrupt x = true /\ ~ busy (v_phase (look h)).
Proof. intros Hev Ht Hl. destruct (evolves_goes v x _ _ Hev) as [_ Hb]. destruct (Hb Hl) as [B1 B2]. by split; [apply Ht|]. Qed.

Lemma sleep_ok s0 s x v n ns : at_state s0 x v n s -> told x v ->
  exists s' x' v' n', sleep ns s = Ok (tt, s') /\ goes (x, v) (x', v') /\ at_state s0 x' v' n' s' /\ (ns = 10 * 1000000 -> busy (v_phase v) -> busy (v_phase v') -> (n' < n)%nat).
Proof.
  intros [Hx (h & Hh & Hv & Hl & Hn) Hi Hc Hw Hf] Ht. pose proof (law_pass ns h) as Hp. rewrite Hv, Hl in Hp. destruct (evolves_goes v x _ _ Hp) as [Hg Hb].
  destruct (settle s0 (with_hw s (pass ns <$> hw s)) x (pass ns h)) as (s' & n' & E & Hat & Hn'); cbn [channels hw intr_on with_hw].
  - done.
  - by rewrite list_lookup_fmap, Hh.
  - done.
  - intros i k Hik Hk. cbn in Hk. rewrite list_lookup_fmap in Hk. destruct (hw s !! i) as [k0|] eqn:Ek; [|done]. injection Hk as <-. destruct (Hc i k0 Hik Ek) as [H3 H4].
    pose proof (law_pass ns k0) as Hq. rewrite H4 in Hq. inversion Hq as [o Eo|v0 b0 ws Hp0|v0 b0 sec Hp0|v0 b0 Hp0]; subst; try congruence. split; congruence.
  - done.
  - eapply frame_trans; [exact Hf|]; constructor; [intros Hr i k Hk; cbn in Hk; rewrite list_lookup_fmap in Hk; destruct (hw s !! i) eqn:Ek; [|done]; injection Hk as <-; by eapply keep_pass, Hr|done|done|done|]. intros i Hik. cbn. rewrite list_lookup_fmap. destruct (hw s !! i) as [k0|] eqn:Ek; [|done]. cbn. destruct (Hc i k0 Hik Ek) as [H3 H4].
    pose proof (law_pass ns k0) as Hq. rewrite H4 in Hq. inversion Hq as [o Eo|v0 b0 ws Hp0|v0 b0 sec Hp0|v0 b0 Hp0]; subst; try congruence.
  - by apply (line_told v).
  - exists s', (counted x (line (pass ns h))), (look (pass ns h)), n'. split; [unfold sleep; erewrite stbind_step by reflexivity; exact E|]. split; [done|]. split; [done|].
    intros -> B1 B2. rewrite <- Hv in B1. pose proof (law_patience h B1 B2). lia.
Qed.

Lemma alt_ok s0 s x v n : at_state s0 x v n s -> told x v ->
  exists y s' x' v' n', inb c reg_alt_status s = Ok (y, s') /\ goes (x, v) (x', v') /\ status_ok (v_phase v') y /\ at_state s0 x' v' n' s' /\ (n' <= n)%nat.
Proof.
  intros Hat Ht. pose proof Hat as [Hx (h & Hh & Hv & Hl & Hn) Hi Hc Hw Hf]. destruct (in8 reg_alt_status h) as [y h'] eqn:E. destruct (law_alt h y h' E) as (Hev & Hs & Hp).
  rewrite Hv, Hl in Hev. destruct (evolves_goes v x _ _ Hev) as [Hg Hb]. destruct (settle_access s0 s x v n h h' Hat Hh) as (s' & n' & E2 & Hat' & Hn'); [intros Hr; apply (keep_in8 reg_alt_status) in Hr; by rewrite E in Hr|by apply (line_told v)|].
  exists y, s', (counted x (line h')), (look h'), n'. split; [|split; [done|split; [done|split; [done|lia]]]].
  unfold inb. erewrite stbind_step by (unfold access; rewrite Hh, E; reflexivity). by erewrite stbind_step by exact E2.
Qed.

Lemma status_idle s0 s x v n : at_state s0 x v n s -> v_phase v = Idle ->
  exists y s' n', inb c reg_status s = Ok (y, s') /\ status_ok Idle y /\ at_state s0 x v n' s'.
Proof.
  intros Hat Hp. pose proof Hat as [Hx (h & Hh & Hv & Hl & Hn) Hi Hc Hw Hf]. destruct (in8 reg_status h) as [y h'] eqn:E. destruct (law_status h y h' E) as (b & Hev & Hl' & Hs & _).
  rewrite Hv, Hl in Hev. assert (Hlook : look h' = v) by (inversion Hev as [o Eo|v0 b0 ws Hp0|v0 b0 sec Hp0|v0 b0 Hp0]; subst; congruence).
  destruct (settle_access s0 s x v n h h' Hat Hh) as (s' & n' & E2 & Hat' & Hn'); [intros Hr; apply (keep_in8 reg_status) in Hr; by rewrite E in Hr|congruence|]. rewrite Hl', Hlook in Hat'. rewrite Hlook, Hp in Hs.
  exists y, s', n'. split; [|done]. unfold inb. erewrite stbind_step by (unfold access; rewrite Hh, E; reflexivity). by erewrite stbind_step by exact E2.
Qed.

(** ** Selecting *)

Ltac out_reg law := let h := fresh in let Hv := fresh in let Hl := fresh in let L1 := fresh in let L2 := fresh in
  intros h Hv Hl; match goal with |- line (out8 _ ?d _) = _ /\ _ => destruct (law h d ltac:(rewrite Hv; reflexivity) Hl) as [L1 L2] end; rewrite Hv in L2; split; [exact L1|exact L2].

Lemma out_ok s0 s x v n reg data v' : at_state s0 x v n s ->
  (forall h, look h = v -> line h = false -> line (out8 reg (u8 data) h) = false /\ look (out8 reg (u8 data) h) = v') ->
  exists s' n', outb c reg data s = Ok (tt, s') /\ at_state s0 x v' n' s'.
Proof.
  intros Hat Hr. pose proof Hat as [Hx (h & Hh & Hv & Hl & Hn) Hi Hc Hw Hf]. destruct (Hr h Hv Hl) as [Hl' Hv'].
  destruct (settle_access s0 s x v n h (out8 reg (u8 data) h) Hat Hh) as (s' & n' & E2 & Hat' & Hn'); [apply keep_out8|by rewrite Hl'|]. rewrite Hl', Hv' in Hat'. exists s', n'. split; [|done].
  unfold outb. erewrite stbind_step by (unfold access; rewrite Hh; reflexivity). exact E2.
Qed.

Lemma goes_idle x v x' v' : goes (x, v) (x', v') -> v_phase v = Idle -> x' = x /\ v' = v.
Proof. intros Hg Hp. inversion Hg; subst; try congruence. done. Qed.

Lemma idle_told x v : v_phase v = Idle -> told x v.
Proof. intros Hp Hb. by rewrite Hp in Hb. Qed.

Lemma wait_until_idle_ok s0 s x v n dev : at_state s0 x v n s -> v_phase v = Idle ->
  exists s' n', wait_until_idle (c, dev) s = Ok (tt, s') /\ at_state s0 x v n' s'.
Proof.
  intros Hat Hp. destruct (status_idle s0 s x v n Hat Hp) as (y & s' & n' & E & [S1 S2] & Hat'). exists s', n'. split; [|done].
  unfold wait_until_idle. change 1000%nat with (S 999). cbn [idle_loop]. cbn [fst]. erewrite stbind_step by exact E. rewrite (proj2 (Z.eqb_eq _ _)); [done|].
  rewrite Z.land_lor_distr_r, S1, S2. done.
Qed.

Definition set_device (v : view) (y : Z) : view := MkView (v_nsect v) (v_lbal v) (v_lbam v) (v_lbah v) y Idle (v_drives v).

Definition select_byte (dev : nat) : Z := u8 (if Z.of_nat dev =? 1 then Z.lor DEV_MBS DEV_DEV else DEV_MBS).

Lemma select_byte_ok v dev : (dev < 2)%nat -> selected (set_device v (select_byte dev)) = dev.
Proof. intros Hd. by assert (dev = 0%nat \/ dev = 1%nat) as [-> | ->] by lia. Qed.

Lemma select_device_ok s0 s x v n dev dk : at_state s0 x v n s -> v_phase v = Idle -> devices x !! dev = Some dk -> dev_no dk = Z.of_nat dev ->
  exists s' n', select_device (c, dev) s = Ok (tt, s') /\ at_state s0 x (set_device v (select_byte dev)) n' s'.
Proof.
  intros Hat Hp Hd Hno. unfold select_device. erewrite stbind_step.
  2: { unfold get_disk. erewrite stbind_step by (unfold get_channel; cbn [fst]; rewrite (a_channel _ _ _ _ _ Hat); reflexivity). cbn [snd]. rewrite Hd. reflexivity. }
  cbn [fst]. rewrite Hno. set (data := if Z.of_nat dev =? 1 then _ else _).
  destruct (out_ok s0 s x v n reg_device data (set_device v (u8 data)) Hat) as (s1 & n1 & E1 & H1'); [intros h Hv Hl; rewrite <- Hv in *; by apply law_device|].
  erewrite stbind_step by exact E1. destruct (alt_ok s0 s1 _ _ _ H1' ltac:(by apply idle_told)) as (y & s2 & x2 & v2 & n2 & E2 & Hg & _ & H2 & _). destruct (goes_idle _ _ _ _ Hg eq_refl) as [-> ->].
  erewrite stbind_step by exact E2. destruct (sleep_ok s0 s2 _ _ _ 400 H2 ltac:(by apply idle_told)) as (s3 & x3 & v3 & n3 & E3 & Hg3 & H3 & _). destruct (goes_idle _ _ _ _ Hg3 eq_refl) as [-> ->].
  exists s3, n3. done.
Qed.

Lemma select_device_wait_ok s0 s x v n dev dk : at_state s0 x v n s -> v_phase v = Idle -> devices x !! dev = Some dk -> dev_no dk = Z.of_nat dev ->
  exists s' n', select_device_wait (c, dev) s = Ok (tt, s') /\ at_state s0 x (set_device v (select_byte dev)) n' s'.
Proof.
  intros Hat Hp Hd Hno. unfold select_device_wait. destruct (wait_until_idle_ok s0 s x v n dev Hat Hp) as (s1 & n1 & E1 & A1). erewrite stbind_step by exact E1.
  destruct (select_device_ok s0 s1 x v n1 dev dk A1 Hp Hd Hno) as (s2 & n2 & E2 & A2). erewrite stbind_step by exact E2.
  destruct (wait_until_idle_ok s0 s2 x _ n2 dev A2 eq_refl) as (s3 & n3 & E3 & A3). by exists s3, n3.
Qed.

Lemma select_sector_ok s0 s x v n dev dk sec_no : at_state s0 x v n s -> v_phase v = Idle -> devices x !! dev = Some dk -> dev_no dk = Z.of_nat dev -> sec_no < 2 ^ 28 ->
  exists s' n', select_sector (c, dev) sec_no s = Ok (tt, s') /\ at_state s0 x (addressed v dev sec_no) n' s'.
Proof.
  intros Hat Hp Hd Hno Hsec. unfold select_sector. erewrite stbind_step by (apply assertM_true; by apply Z.ltb_lt).
  destruct (select_device_wait_ok s0 s x v n dev dk Hat Hp Hd Hno) as (s1 & n1 & E1 & A1). set (y := select_byte dev) in A1. erewrite stbind_step by exact E1. clear E1.
  erewrite stbind_step.
  2: { unfold get_disk. erewrite stbind_step by (unfold get_channel; cbn [fst]; rewrite (a_channel _ _ _ _ _ A1); reflexivity). cbn [snd]. rewrite Hd. reflexivity. }
  cbn [fst]. rewrite Hno.
  destruct (out_ok s0 s1 x _ n1 reg_nsect 1 (MkView (u8 1) (v_lbal v) (v_lbam v) (v_lbah v) y Idle (v_drives v)) A1) as (s2 & n2 & E2 & A2); [out_reg law_nsect|]. erewrite stbind_step by exact E2. clear E2 A1.
  destruct (out_ok s0 s2 x _ n2 reg_lbal sec_no (MkView (u8 1) (u8 sec_no) (v_lbam v) (v_lbah v) y Idle (v_drives v)) A2) as (s3 & n3 & E3 & A3); [out_reg law_lbal|]. erewrite stbind_step by exact E3. clear E3 A2.
  destruct (out_ok s0 s3 x _ n3 reg_lbam (Z.shiftr sec_no 8) (MkView (u8 1) (u8 sec_no) (u8 (Z.shiftr sec_no 8)) (v_lbah v) y Idle (v_drives v)) A3) as (s4 & n4 & E4 & A4); [out_reg law_lbam|]. erewrite stbind_step by exact E4. clear E4 A3.
  destruct (out_ok s0 s4 x _ n4 reg_lbah (Z.shiftr sec_no 16) (MkView (u8 1) (u8 sec_no) (u8 (Z.shiftr sec_no 8)) (u8 (Z.shiftr sec_no 16)) y Idle (v_drives v)) A4) as (s5 & n5 & E5 & A5); [out_reg law_lbah|]. erewrite stbind_step by exact E5. clear E5 A4.
  destruct (out_ok s0 s5 x _ n5 reg_device (Z.lor (Z.lor (Z.lor DEV_MBS DEV_LBA) (if Z.of_nat dev =? 1 then DEV_DEV else 0)) (Z.shiftr sec_no 24)) (addressed v dev sec_no) A5) as (s6 & n6 & E6 & A6); [out_reg law_device|].
  exists s6, n6. split; [exact E6|exact A6].
Qed.

(** ** Commands *)

Lemma set_channel_at s0 s x v n x' : at_state s0 x v n s -> irq x' = irq x -> exists s', set_channel c x' s = Ok (tt, s') /\ at_state s0 x' v n s'.
Proof.
  intros [Hx Hh Hi Hc Hw Hf] Hq. pose proof (lookup_lt_Some _ _ _ Hx) as Hlt. eexists. split; [reflexivity|]. constructor; cbn [channels hw intr_on with_channels]; [by rewrite list_lookup_insert_eq|done|done|done| |].
  - intros i k Hk. cbn in Hk. destruct (decide (i = c)) as [->|Hik]; [rewrite list_lookup_insert_eq in Hk by done; injection Hk as <-; rewrite Hq; by apply (Hw c x)|]. rewrite list_lookup_insert_ne in Hk by done. by apply (Hw i k).
  - eapply frame_trans; [exact Hf|]; constructor; [done|done|done| |done]. intros i Hik. cbn. by rewrite list_lookup_insert_ne.
Qed.

Lemma print_at s0 s x v n l : at_state s0 x v n s -> exists s', print l s = Ok (tt, s') /\ at_state s0 x v n s'.
Proof.
  intros [Hx Hh Hi Hc Hw Hf]. eexists. split; [reflexivity|]. constructor; cbn [channels hw intr_on]; try done. eapply frame_trans; [exact Hf|]. by constructor.
Qed.

Lemma get_channel_at s0 s x v n : at_state s0 x v n s -> get_channel c s = Ok (x, s).
Proof. intros []. unfold get_channel. by rewrite a_channel0. Qed.

Lemma command_ok s0 s x v n cmd v1 h : at_state s0 x v n s -> u8 cmd = cmd -> hw s !! c = Some h ->
  evolves (v1, false) (look (out8 reg_command cmd h), line (out8 reg_command cmd h)) ->
  exists s' x' v' n', issue_pio_command c cmd s = Ok (tt, s') /\ goes (with_expecting x true, v1) (x', v') /\ at_state s0 x' v' n' s'.
Proof.
  intros Hat Hu Hh Hev. unfold issue_pio_command. erewrite stbind_step by reflexivity. erewrite stbind_step by (apply assertM_true; apply Hat).
  erewrite stbind_step by (eapply get_channel_at; exact Hat). destruct (set_channel_at s0 s x v n (with_expecting x true) Hat eq_refl) as (s1 & E1 & A1). erewrite stbind_step by exact E1.
  assert (Hh1 : hw s1 !! c = Some h) by (unfold set_channel, modify in E1; by injection E1 as <-). destruct (evolves_goes v1 (with_expecting x true) _ _ Hev) as [Hg Hb].
  destruct (settle_access s0 s1 _ v n h (out8 reg_command cmd h) A1 Hh1) as (s' & n' & E2 & A2 & Hn'); [apply keep_out8|intros Hlh; split; [done|by apply Hb]|].
  do 4 eexists. split; [|split; [exact Hg|exact A2]]. unfold outb. erewrite stbind_step by (unfold access; rewrite Hh1; reflexivity). rewrite Hu. exact E2.
Qed.

(** The drive's answer. *)
Definition completed (v : view) : view :=
  match v_phase v with BusyIn ws => with_phase v (DataIn ws) | BusyOut => with_phase v Idle | _ => v end.

Lemma wait_back x : completion_wait x = 0 -> with_wait (counted x true) (completion_wait (counted x true) - 1) = x.
Proof. intros E. destruct x. cbn in *. by subst. Qed.

Lemma sema_down_ok s0 s x1 v1 x v n : goes (x1, v1) (x, v) -> completion_wait x1 = 0 -> expecting_interrupt x1 = true -> match v_phase v1 with BusyIn _ | BusyOut => True | _ => False end ->
  at_state s0 x v n s -> exists s' n', sema_down c s = Ok (tt, s') /\ at_state s0 x1 (completed v1) n' s'.
Proof.
  intros Hg Hw1 He Hph Hat.
  assert (Hdone : forall s2 n2, at_state s0 (counted x1 true) (completed v1) n2 s2 -> exists s' n', (x ← get_channel c; if 0 <? completion_wait x then set_channel c (with_wait x (completion_wait x - 1)) else raise EFuel) s2 = Ok (tt, s') /\ at_state s0 x1 (completed v1) n' s').
  { intros s2 n2 A2. erewrite stbind_step by (eapply get_channel_at; exact A2). rewrite (proj2 (Z.ltb_lt _ _)) by (cbn; lia). rewrite wait_back by done. destruct (set_channel_at s0 s2 _ _ n2 x1 A2 eq_refl) as (s3 & E3 & A3). eauto. }
  unfold sema_down. erewrite stbind_step by (eapply get_channel_at; exact Hat).
  inversion Hg as [o Eo|x0 v0 ws Hp0|x0 v0 sec Hp0|x0 v0 Hp0]; subst.
  - rewrite Hw1. change (0 =? 0) with true. cbv iota. pose proof Hat as [Hx (h & Hh & Hv & Hl & Hn) Hi Hc Hw Hf].
    destruct (law_idle h Hl) as [Hev Hli]; [by rewrite Hv|]. rewrite Hv in Hev.
    assert (Hlook : look (idle h) = completed v) by (unfold completed; inversion Hev as [o Eo|v0 b0 ws Hp0|v0 b0 sec Hp0|v0 b0 Hp0]; subst; rewrite ?Hp0 in *; try done).
    destruct (settle_access s0 s x v _ h (idle h) Hat Hh) as (s' & n' & E2 & A2 & Hn'); [apply keep_idle|..].
    { intros _. split; [done|]. rewrite Hlook. unfold completed. destruct (v_phase v); cbn; tauto. }
    rewrite Hli, Hlook in A2. erewrite stbind_step by (erewrite stbind_step by (unfold access; rewrite Hh; reflexivity); exact E2). by apply (Hdone s' n').
  - erewrite stbind_step by (cbn [counted completion_wait with_wait]; rewrite Hw1; reflexivity). apply (Hdone s n). unfold completed. by rewrite Hp0.
  - by rewrite Hp0 in Hph.
  - erewrite stbind_step by (cbn [counted completion_wait with_wait]; rewrite Hw1; reflexivity). apply (Hdone s n). unfold completed. by rewrite Hp0.
Qed.

(** ** Transferring words *)

(** The drive asks for data, at once or soon. *)
Definition asking (v : view) : view := match v_phase v with BusyReady sec => with_phase v (DataOut sec []) | _ => v end.

Definition asks (v : view) : Prop := match v_phase v with BusyReady _ | DataOut _ _ | DataIn _ => True | _ => False end.

Lemma asking_ready v sec : v_phase v = BusyReady sec -> asking v = with_phase v (DataOut sec []).
Proof. intros E. unfold asking. by rewrite E. Qed.

Lemma goes_asks x v x' v' : goes (x, v) (x', v') -> asks v -> x' = x /\ asks v' /\ asking v' = asking v /\ (busy (v_phase v') -> v' = v).
Proof.
  intros Hg Ha. unfold asks, asking in *. inversion Hg as [o Eo|x0 v0 ws Hp0|x0 v0 sec Hp0|x0 v0 Hp0]; subst; try (rewrite Hp0 in Ha; done).
  - done.
  - rewrite Hp0. cbn. done.
Qed.

Lemma asks_status v y : asks v -> status_ok (v_phase v) y -> (busy (v_phase v) /\ Z.land y STA_BSY <> 0) \/ (~ busy (v_phase v) /\ Z.land y STA_BSY = 0 /\ Z.land y STA_DRQ <> 0 /\ asking v = v).
Proof. unfold asks, asking. destruct (v_phase v); cbn; tauto. Qed.

Lemma when_at s0 s x v n dev dk (b : bool) f : at_state s0 x v n s -> devices x !! dev = Some dk ->
  exists s', (if b then y ← get_disk (c, dev); print (f y) else mret tt) s = Ok (tt, s') /\ at_state s0 x v n s'.
Proof.
  intros Hat Hd. destruct b; [|by exists s]. destruct (print_at s0 s x v n (f dk) Hat) as (s' & E & A'). exists s'. split; [|done]. erewrite stbind_step; [exact E|].
  unfold get_disk. erewrite stbind_step by (eapply get_channel_at; exact Hat). cbn [snd]. by rewrite Hd.
Qed.

Lemma ready_at s0 s x v n (b : bool) (dev : nat) : at_state s0 x v n s -> asks v -> ~ busy (v_phase v) ->
  exists s' n', ((if b then print (chars "ok" ++ [10]) else mret tt);; status ← inb (c, dev).1 reg_alt_status; mret (negb (Z.land status STA_DRQ =? 0))) s = Ok (true, s') /\ at_state s0 x v n' s'.
Proof.
  intros Hat Ha Hb. assert (E : exists s1, (if b then print (chars "ok" ++ [10]) else mret tt) s = Ok (tt, s1) /\ at_state s0 x v n s1) by (destruct b; [by apply print_at|by exists s]).
  destruct E as (s1 & E1 & A1). erewrite stbind_step by exact E1. destruct (alt_ok s0 s1 x v n A1) as (y & s2 & x2 & v2 & n2 & E2 & Hg & Hs & A2 & _); [by intros ?|].
  assert (x2 = x /\ v2 = v) as [-> ->] by (inversion Hg as [o Eo|x0 v0 ws Hp0|x0 v0 sec Hp0|x0 v0 Hp0]; subst; [done|rewrite Hp0 in Hb; cbn in Hb; tauto..]).
  exists s2, n2. split; [|done]. cbn [fst]. erewrite stbind_step by exact E2. destruct (asks_status v y Ha Hs) as [[? _]|(_ & _ & Hd & _)]; [tauto|]. by rewrite (proj2 (Z.eqb_neq _ _) Hd).
Qed.

Lemma busy_loop_ok s0 x dev dk : devices x !! dev = Some dk -> expecting_interrupt x = true ->
  forall k i s v n, at_state s0 x v n s -> asks v -> (0 < k)%nat -> (busy (v_phase v) -> S n < k)%nat ->
  exists s' n', busy_loop k i (c, dev) s = Ok (true, s') /\ at_state s0 x (asking v) n' s'.
Proof.
  intros Hd He. induction k as [|k IH]; intros i s v n Hat Ha Hk Hn; [lia|]. cbn [busy_loop].
  destruct (when_at s0 s x v n dev dk (i =? 700) (fun y => d_name y ++ chars ": busy, waiting...") Hat Hd) as (s1 & E1 & A1). erewrite stbind_step by exact E1. clear E1.
  destruct (alt_ok s0 s1 x v n A1) as (y & s2 & x2 & v2 & n2 & E2 & Hg & Hs & A2 & Hn2); [by intros ?|]. destruct (goes_asks _ _ _ _ Hg Ha) as (-> & Ha2 & Ek & Hbv).
  cbn [fst]. erewrite stbind_step by exact E2. clear E2. destruct (asks_status v2 y Ha2 Hs) as [[Hb Hy]|(Hb & Hy & _ & Ev)].
  - rewrite (proj2 (Z.eqb_neq _ _) Hy). specialize (Hbv Hb) as ->. destruct (sleep_ok s0 s2 x v n2 (10 * 1000000) A2) as (s3 & x3 & v3 & n3 & E3 & Hg3 & A3 & Hp3); [by intros ?|].
    destruct (goes_asks _ _ _ _ Hg3 Ha) as (-> & Ha3 & Ek3 & Hbv3). erewrite stbind_step by exact E3. rewrite <- Ek3. apply (IH (i + 1) s3 v3 n3 A3 Ha3); [specialize (Hn Hb); lia|].
    intros Hb3. specialize (Hp3 eq_refl Hb Hb3). specialize (Hn Hb). lia.
  - rewrite (proj2 (Z.eqb_eq _ _) Hy). rewrite <- Ek, Ev. by apply (ready_at s0 s2 x v2 n2 (700 <=? i) dev).
Qed.

Lemma wait_while_busy_ok s0 s x v n dev dk : at_state s0 x v n s -> devices x !! dev = Some dk -> expecting_interrupt x = true -> asks v ->
  exists s' n', wait_while_busy (c, dev) s = Ok (true, s') /\ at_state s0 x (asking v) n' s'.
Proof.
  intros Hat Hd He Ha. apply (busy_loop_ok s0 x dev dk Hd He 3000 0 s v n Hat Ha); [lia|]. intros _. destruct Hat as [_ (h & _ & _ & _ & <-) _ _ _ _]. pose proof (patience_bound h). lia.
Qed.

(** The drive does not ask for data: it has ended with an error, or soon will. *)
Lemma busy_loop_none s0 dev : forall k i s x dk v n, devices x !! dev = Some dk -> expecting_interrupt x = true -> at_state s0 x v n s ->
  v_phase v = Idle \/ v_phase v = BusyOut -> (0 < k)%nat -> (busy (v_phase v) -> S n < k)%nat -> exists s', busy_loop k i (c, dev) s = Ok (false, s').
Proof.
  induction k as [|k IH]; intros i s x dk v n Hd He Hat Hp Hk Hn; [lia|]. cbn [busy_loop].
  assert (Hgo : forall x' v', goes (x, v) (x', v') -> devices x' !! dev = Some dk /\ expecting_interrupt x' = true /\ (v' = v \/ v_phase v' = Idle)).
  { intros x' v' Hg. inversion Hg as [o Eo|x0 v0 ws Hp0|x0 v0 sec Hp0|x0 v0 Hp0]; subst; [auto|destruct Hp; congruence..|]. cbn. auto. }
  destruct (when_at s0 s x v n dev dk (i =? 700) (fun y => d_name y ++ chars ": busy, waiting...") Hat Hd) as (s1 & E1 & A1). erewrite stbind_step by exact E1. clear E1.
  destruct (alt_ok s0 s1 x v n A1) as (y & s2 & x2 & v2 & n2 & E2 & Hg & Hs & A2 & Hn2); [by intros ?|]. destruct (Hgo _ _ Hg) as (Hd2 & He2 & Hv2).
  cbn [fst]. erewrite stbind_step by exact E2. clear E2. assert (Hp2 : v_phase v2 = Idle \/ v_phase v2 = BusyOut /\ v2 = v) by (destruct Hv2 as [->|]; [destruct Hp; auto|auto]). destruct Hp2 as [Hp2|[Hp2 ->]]; rewrite Hp2 in Hs; cbn in Hs.
  - destruct Hs as [Hs1 Hs2]. rewrite Hs1. cbn [Z.eqb]. assert (E : exists s3, (if 700 <=? i then print (chars "ok" ++ [10]) else mret tt) s2 = Ok (tt, s3) /\ at_state s0 x2 v2 n2 s3) by (destruct (700 <=? i); [by apply print_at|by exists s2]).
    destruct E as (s3 & E3 & A3). erewrite stbind_step by exact E3. destruct (alt_ok s0 s3 x2 v2 n2 A3) as (y4 & s4 & x4 & v4 & n4 & E4 & Hg4 & Hs4 & _ & _); [by intros ?|]. destruct (goes_idle _ _ _ _ Hg4 Hp2) as [_ ->].
    rewrite Hp2 in Hs4. destruct Hs4 as [_ Hs4]. erewrite stbind_step by exact E4. rewrite Hs4. by eexists.
  - rewrite (proj2 (Z.eqb_neq _ _) Hs). destruct (sleep_ok s0 s2 x2 v n2 (10 * 1000000) A2) as (s3 & x3 & v3 & n3 & E3 & Hg3 & A3 & Hp3); [by intros ?|].
    assert (Hg3' : devices x3 !! dev = Some dk /\ expecting_interrupt x3 = true /\ (v3 = v \/ v_phase v3 = Idle)) by (inversion Hg3 as [o Eo|x0 v0 ws Hp0|x0 v0 sec Hp0|x0 v0 Hp0]; subst; [auto|congruence..|]; cbn; auto). destruct Hg3' as (Hd3 & He3 & Hv3).
    erewrite stbind_step by exact E3. assert (Hb : busy (v_phase v)) by (by rewrite Hp2). specialize (Hn Hb). apply (IH (i + 1) s3 x3 dk v3 n3 Hd3 He3 A3); [destruct Hv3 as [->|]; auto|lia|]. intros Hb3. specialize (Hp3 eq_refl Hb Hb3). lia.
Qed.

Lemma wait_while_busy_none s0 s x v n dev dk : at_state s0 x v n s -> devices x !! dev = Some dk -> expecting_interrupt x = true -> v_phase v = Idle \/ v_phase v = BusyOut ->
  exists s', wait_while_busy (c, dev) s = Ok (false, s').
Proof.
  intros Hat Hd He Hp. apply (busy_loop_none s0 dev 3000 0 s x dk v n Hd He Hat Hp); [lia|]. intros _. destruct Hat as [_ (h & _ & _ & _ & <-) _ _ _ _]. pose proof (patience_bound h). lia.
Qed.

Lemma insw_ok ws : forall h, ws <> [] -> v_phase (look h) = DataIn ws -> exists h', insw (length ws) h = (ws, h') /\ look h' = with_phase (look h) Idle /\ line h' = line h /\ (reliable h -> reliable h').
Proof.
  induction ws as [|w ws IH]; intros h Hne Hp; [done|]. destruct (law_in16 h w ws Hp) as (h1 & E1 & Hl & Hv). assert (Hr : reliable h -> reliable h1) by (intros Hr; apply keep_in16 in Hr; by rewrite E1 in Hr). cbn [insw length]. rewrite E1. destruct ws as [|w2 ws].
  - exists h1. done.
  - destruct (IH h1) as (h2 & E2 & Hv2 & Hl2 & Hr2); [done|by rewrite Hv|]. rewrite E2. exists h2. split; [done|]. split; [rewrite Hv2, Hv; done|]. split; [congruence|auto].
Qed.

Lemma outsw_ok l : forall h sec acc, l <> [] -> v_phase (look h) = DataOut sec acc -> (length acc + length l = 256)%nat ->
  evolves (with_phase (store (look h) sec (acc ++ l)) BusyOut, line h) (look (outsw l h), line (outsw l h)).
Proof.
  induction l as [|w l IH]; intros h sec acc Hne Hp Hl; [done|]. pose proof (law_out16 h sec acc w Hp) as Hlaw. unfold outsw. cbn [fold_left]. fold (outsw l (out16 w h)). cbn [length] in Hl. destruct l as [|w2 l].
  - rewrite (proj2 (Nat.ltb_ge _ _)) in Hlaw by (cbn in Hl; lia). exact Hlaw.
  - rewrite (proj2 (Nat.ltb_lt _ _)) in Hlaw by (cbn in Hl; lia). destruct Hlaw as [Hv Hln]. specialize (IH (out16 w h) sec (acc ++ [w])). rewrite Hv, Hln, <- app_assoc in IH. cbn [app] in IH.
    apply IH; [done|done|rewrite length_app; cbn [length] in *; lia].
Qed.

Lemma outsw_reliable l : forall h, reliable h -> reliable (outsw l h).
Proof. induction l as [|w l IH]; intros h Hr; [done|]. apply IH. by apply keep_out16. Qed.

(** ** Reading and writing *)

Lemma input_sector_ok s0 s x v n ws : at_state s0 x v n s -> v_phase v = DataIn ws -> length ws = 256%nat ->
  exists s' n', input_sector c s = Ok (bytes ws, s') /\ at_state s0 x (with_phase v Idle) n' s'.
Proof.
  intros Hat Hp Hws. pose proof Hat as [Hx (h & Hh & Hv & Hl & Hn) Hi Hc Hw Hf]. destruct (insw_ok ws h) as (h' & E & Hv' & Hl' & Hr'); [by intros ->|by rewrite Hv|]. rewrite Hl in Hl'. rewrite Hv in Hv'.
  destruct (settle_access s0 s x v n h h' Hat Hh) as (s' & n' & E2 & A2 & _); [done|by rewrite Hl'|]. rewrite Hl', Hv' in A2. exists s', n'. split; [|done].
  unfold input_sector. change (Z.to_nat (BLOCK_SECTOR_SIZE / 2)) with 256%nat. rewrite <- Hws. erewrite stbind_step by (unfold access; rewrite Hh, E; reflexivity). by erewrite stbind_step by exact E2.
Qed.

Lemma output_sector_ok s0 s x v n sec buffer : at_state s0 x v n s -> v_phase v = DataOut sec [] -> length (words buffer) = 256%nat -> expecting_interrupt x = true ->
  exists s' x' v' n', output_sector c buffer s = Ok (tt, s') /\ goes (x, with_phase (store v sec (words buffer)) BusyOut) (x', v') /\ at_state s0 x' v' n' s'.
Proof.
  intros Hat Hp Hws He. pose proof Hat as [Hx (h & Hh & Hv & Hl & Hn) Hi Hc Hw Hf].
  pose proof (outsw_ok (words buffer) h sec []) as Hev. rewrite Hv, Hl in Hev. cbn [app length] in Hev. specialize (Hev ltac:(by intros Heq; rewrite Heq in Hws) Hp Hws).
  destruct (evolves_goes _ x _ _ Hev) as [Hg Hb]. destruct (settle_access s0 s x v n h (outsw (words buffer) h) Hat Hh) as (s' & n' & E2 & A2 & _); [apply outsw_reliable|intros Hlh; split; [done|by apply Hb]|].
  do 4 eexists. split; [|split; [exact Hg|exact A2]]. unfold output_sector. erewrite stbind_step by (unfold access; rewrite Hh; reflexivity). exact E2.
Qed.

(** The channel between two operations, and the disk at [dev] on it. *)
Record ready (x : channel) (v : view) (dev : nat) (d : drive) : Prop := {
  r_locked : locked x = false;
  r_wait : completion_wait x = 0;
  r_device : exists dk, devices x !! dev = Some dk /\ dev_no dk = Z.of_nat dev;
  r_phase : v_phase v = Idle;
  r_drive : v_drives v !! dev = Some (Some d);
  r_sectors : Forall (fun sec => length sec = 512%nat /\ Forall is_u8 sec) (sectors d);
  r_no : (dev < 2)%nat
}.

Lemma lock_acquire_ok s0 s x v n : at_state s0 x v n s -> locked x = false -> exists s', lock_acquire c s = Ok (tt, s') /\ at_state s0 (with_lock x true) v n s'.
Proof.
  intros Hat Hl. unfold lock_acquire. destruct (set_channel_at s0 s x v n (with_lock x true) Hat eq_refl) as (s1 & E1 & A1). exists s1. split; [|done].
  erewrite stbind_step by (eapply get_channel_at; exact Hat). erewrite stbind_step by (apply assertM_true; by rewrite Hl). exact E1.
Qed.

Lemma lock_release_ok s0 s x v n : at_state s0 (with_expecting (with_lock x true) true) v n s -> locked x = false -> exists s', lock_release c s = Ok (tt, s') /\ at_state s0 (with_expecting x true) v n s'.
Proof.
  intros Hat Hl. unfold lock_release. destruct (set_channel_at s0 s _ v n (with_expecting x true) Hat eq_refl) as (s1 & E1 & A1). exists s1. split; [|done].
  erewrite stbind_step by (eapply get_channel_at; exact Hat). erewrite stbind_step by (by apply assertM_true). rewrite <- E1. f_equal. destruct x. cbn in *. by subst.
Qed.

Lemma ide_read_ok s0 s x v n dev d k sec : at_state s0 x v n s -> ready x v dev d -> 0 <= k < 2 ^ 28 -> sectors d !! Z.to_nat k = Some sec ->
  (exists s' v' n', ide_read (c, dev) k s = Ok (sec, s') /\ at_state s0 (with_expecting x true) v' n' s' /\ v_phase v' = Idle /\ v_drives v' = v_drives v) \/
  ide_read (c, dev) k s = Err EPanic /\ ~ all_reliable s0.
Proof.
  intros Hat [Rl Rw (dk & Rd & Rn) Rp Rv Rs Rlt] Hk Hsec. unfold ide_read. rewrite Forall_lookup in Rs. destruct (Rs _ _ Hsec) as [Hlen Hby]. cbn [fst].
  destruct (lock_acquire_ok s0 s x v n Hat Rl) as (s1 & E1 & A1). erewrite stbind_step by exact E1. clear E1.
  destruct (select_sector_ok s0 s1 (with_lock x true) v n dev dk k A1 Rp Rd Rn ltac:(lia)) as (s2 & n2 & E2 & A2). erewrite stbind_step by exact E2. clear E2.
  destruct (addressed_ok v dev k Hk Rlt) as (P1 & P2 & P3 & P4).
  pose proof A2 as [_ (h & Hh & Hv & Hl & _) _ _ _ Hf]. assert (Hlaw := law_read h d sec). cbn zeta in Hlaw. rewrite Hv in Hlaw. specialize (Hlaw eq_refl Hl P1 P2 ltac:(by rewrite P3) ltac:(by rewrite P4)). destruct Hlaw as [Hev|[Hbad Hev]].
  2: { right. split; [|intros Hr; apply Hbad; by apply (f_reliable _ _ Hf Hr c)]. destruct (command_ok s0 s2 _ _ n2 CMD_READ_SECTOR_RETRY _ h A2 eq_refl Hh Hev) as (s3 & x3 & v3 & n3 & E3 & G3 & A3). erewrite stbind_step by exact E3.
       destruct (sema_down_ok s0 s3 _ _ x3 v3 n3 G3 Rw eq_refl I A3) as (s4 & n4 & E4 & A4). erewrite stbind_step by exact E4. destruct (wait_while_busy_none s0 s4 _ _ n4 dev dk A4 Rd eq_refl (or_introl eq_refl)) as (s5 & E5). by erewrite stbind_step by exact E5. }
  left. destruct (command_ok s0 s2 _ _ n2 CMD_READ_SECTOR_RETRY (with_phase (addressed v dev k) (BusyIn (words sec))) h A2 eq_refl Hh Hev) as (s3 & x3 & v3 & n3 & E3 & G3 & A3).
  erewrite stbind_step by exact E3. clear E3. destruct (sema_down_ok s0 s3 _ _ x3 v3 n3 G3 Rw eq_refl I A3) as (s4 & n4 & E4 & A4). erewrite stbind_step by exact E4. clear E4.
  destruct (wait_while_busy_ok s0 s4 _ _ n4 dev dk A4 Rd eq_refl I) as (s5 & n5 & E5 & A5). erewrite stbind_step by exact E5. clear E5. cbn [negb].
  destruct (input_sector_ok s0 s5 _ _ n5 (words sec) A5 eq_refl (length_sector_words sec 256 Hlen)) as (s6 & n6 & E6 & A6). erewrite stbind_step by exact E6. clear E6.
  destruct (lock_release_ok s0 s6 x _ n6 A6 Rl) as (s7 & E7 & A7). erewrite stbind_step by exact E7. rewrite (bytes_words 256) by done.
  do 3 eexists. split; [reflexivity|]. split; [exact A7|]. done.
Qed.

Lemma ide_write_ok s0 s x v n dev d k sec buffer : at_state s0 x v n s -> ready x v dev d -> 0 <= k < 2 ^ 28 -> sectors d !! Z.to_nat k = Some sec ->
  length buffer = 512%nat -> Forall is_u8 buffer ->
  (exists s' v' n', ide_write (c, dev) k buffer s = Ok (tt, s') /\ at_state s0 (with_expecting x true) v' n' s' /\ v_phase v' = Idle /\
    v_drives v' = <[dev := Some (MkDrive (identity d) (<[Z.to_nat k := buffer]> (sectors d)))]> (v_drives v)) \/
  ide_write (c, dev) k buffer s = Err EPanic /\ ~ all_reliable s0.
Proof.
  intros Hat [Rl Rw (dk & Rd & Rn) Rp Rv Rs Rlt] Hk Hsec Hlen Hby. unfold ide_write. cbn [fst].
  destruct (lock_acquire_ok s0 s x v n Hat Rl) as (s1 & E1 & A1). erewrite stbind_step by exact E1. clear E1.
  destruct (select_sector_ok s0 s1 (with_lock x true) v n dev dk k A1 Rp Rd Rn ltac:(lia)) as (s2 & n2 & E2 & A2). erewrite stbind_step by exact E2. clear E2.
  destruct (addressed_ok v dev k Hk Rlt) as (P1 & P2 & P3 & P4).
  pose proof A2 as [_ (h & Hh & Hv & Hl & _) _ _ _ Hf]. assert (Hlaw := law_write h d sec). cbn zeta in Hlaw. rewrite Hv, P4 in Hlaw. specialize (Hlaw eq_refl Hl P1 P2 ltac:(by rewrite P3) Hsec). destruct Hlaw as [Hev|[Hbad Hev]].
  2: { right. split; [|intros Hr; apply Hbad; by apply (f_reliable _ _ Hf Hr c)]. destruct (command_ok s0 s2 _ _ n2 CMD_WRITE_SECTOR_RETRY _ h A2 eq_refl Hh Hev) as (s3 & x3 & v3 & n3 & E3 & G3 & A3). erewrite stbind_step by exact E3.
       assert (Hx3 : devices x3 !! dev = Some dk /\ expecting_interrupt x3 = true /\ (v_phase v3 = Idle \/ v_phase v3 = BusyOut)) by (inversion G3 as [o Eo|x0 v0 ws Hp0|x0 v0 sec0 Hp0|x0 v0 Hp0]; subst; cbn in *; auto; done).
       destruct Hx3 as (Hd3 & He3 & Hp3). destruct (wait_while_busy_none s0 s3 x3 v3 n3 dev dk A3 Hd3 He3 Hp3) as (s5 & E5). by erewrite stbind_step by exact E5. }
  left. destruct (command_ok s0 s2 _ _ n2 CMD_WRITE_SECTOR_RETRY (with_phase (addressed v dev k) (BusyReady k)) h A2 eq_refl Hh Hev) as (s3 & x3 & v3 & n3 & E3 & G3 & A3).
  erewrite stbind_step by exact E3. clear E3. destruct (goes_asks _ _ _ _ G3 I) as (-> & Ha & Ek & _).
  destruct (wait_while_busy_ok s0 s3 _ _ n3 dev dk A3 Rd eq_refl Ha) as (s4 & n4 & E4 & A4). erewrite stbind_step by exact E4. clear E4. cbn [negb]. rewrite Ek in A4. cbn [asking] in A4.
  destruct (output_sector_ok s0 s4 _ _ n4 k buffer A4 eq_refl (length_sector_words buffer 256 Hlen) eq_refl) as (s5 & x5 & v5 & n5 & E5 & G5 & A5). erewrite stbind_step by exact E5. clear E5.
  destruct (sema_down_ok s0 s5 _ _ x5 v5 n5 G5 Rw eq_refl I A5) as (s6 & n6 & E6 & A6). erewrite stbind_step by exact E6. clear E6.
  destruct (lock_release_ok s0 s6 x _ n6 A6 Rl) as (s7 & E7 & A7).
  do 3 eexists. split; [exact E7|]. split; [exact A7|]. split; [done|]. unfold completed, store. cbn [v_drives with_phase with_drives v_phase].
  change (selected (asking _)) with (selected (addressed v dev k)). rewrite P3. cbn [v_drives addressed]. change (v_drives (asking _)) with (v_drives v).
  rewrite (bytes_words 256) by done. apply list_eq. intros i. destruct (decide (i = dev)) as [->|Hi]; [rewrite list_lookup_alter_eq, Rv, list_lookup_insert_eq; [done|by eapply lookup_lt_Some]|by rewrite list_lookup_alter_ne, list_lookup_insert_ne].
Qed.

End Driver.

(** ** Several disks *)

Section System.
Context {H : Type} `{AtaLaws H}.

#[local] Abbreviation ide := (ide H).

(** An operation of the block layer on the disk with the numbers of its channel and device. *)
Inductive io := Read (d : nat * nat) (sec_no : Z) | Write (d : nat * nat) (sec_no : Z) (buffer : list Z).

(** The drives of all channels. *)
#[local] Abbreviation drives := (list (list (option drive))).

Definition find_drive (D : drives) (d : nat * nat) : option drive := l ← D !! d.1; o ← l !! d.2; o.

Definition set_drive (D : drives) (d : nat * nat) (x : drive) : drives := alter (fun l => <[d.2 := Some x]> l) d.1 D.

(** What the operations mean for the contents of the disks: nothing but sectors. *)
Definition spec_io (D : drives) (op : io) : option (list Z * drives) :=
  match op with
  | Read d k => x ← find_drive D d; sec ← sectors x !! Z.to_nat k; Some (sec, D)
  | Write d k buffer => x ← find_drive D d; sec ← sectors x !! Z.to_nat k;
      Some ([], set_drive D d (MkDrive (identity x) (<[Z.to_nat k := buffer]> (sectors x))))
  end.

Fixpoint spec_all (D : drives) (ops : list io) : option (list (list Z) * drives) :=
  match ops with
  | [] => Some ([], D)
  | op :: ops => '(r, D) ← spec_io D op; '(rs, D) ← spec_all D ops; Some (r :: rs, D)
  end.

Definition ok_io (op : io) : Prop :=
  match op with
  | Read _ k => 0 <= k < 2 ^ 28
  | Write _ k buffer => 0 <= k < 2 ^ 28 /\ length buffer = 512%nat /\ Forall is_u8 buffer
  end.

Definition run_io (op : io) : stM ide (list Z) :=
  match op with
  | Read d k => ide_read d k
  | Write d k buffer => ide_write d k buffer;; mret []
  end.

Fixpoint run_all (ops : list io) : stM ide (list (list Z)) :=
  match ops with [] => mret [] | op :: ops => r ← run_io op; rs ← run_all ops; mret (r :: rs) end.

(** The driver between two operations, with the drives [D]. *)
Record system (s : ide) (D : drives) : Prop := {
  y_intr : intr_on s = true;
  y_wired : wired s;
  y_length : length (channels s) = length (hw s);
  y_channel i x : channels s !! i = Some x -> locked x = false /\ completion_wait x = 0 /\ forall dev, (dev < 2)%nat -> exists dk, devices x !! dev = Some dk /\ dev_no dk = Z.of_nat dev;
  y_hw i h : hw s !! i = Some h -> v_phase (look h) = Idle /\ line h = false;
  y_drives : D = (fun h => v_drives (look h)) <$> hw s;
  y_sectors l : l ∈ D -> (length l <= 2)%nat /\ forall x, Some x ∈ l -> Forall (fun sec => length sec = 512%nat /\ Forall is_u8 sec) (sectors x)
}.

Lemma system_at s D d x : system s D -> find_drive D d = Some x ->
  exists ch h, channels s !! d.1 = Some ch /\ hw s !! d.1 = Some h /\ at_state d.1 s ch (look h) (patience h) s /\ ready ch (look h) d.2 x.
Proof.
  intros [Y1 Y2 Y3 Y4 Y5 Y6 Y7] Hd. unfold find_drive in Hd. destruct (D !! d.1) as [l|] eqn:El; [|done]. cbn in Hd. destruct (l !! d.2) as [o|] eqn:Eo; [|done]. cbn in Hd. subst o.
  pose proof El as El'. rewrite Y6, list_lookup_fmap in El'. destruct (hw s !! d.1) as [h|] eqn:Eh; [|done]. injection El' as <-.
  destruct (lookup_lt_is_Some_2 (channels s) d.1) as [ch Ec]; [rewrite Y3; by eapply lookup_lt_Some|]. exists ch, h. destruct (Y5 _ _ Eh) as [Hp Hl]. destruct (Y4 _ _ Ec) as (Hlk & Hw & Hdev).
  destruct (Y7 _ (list_elem_of_lookup_2 _ _ _ El)) as [Hle HF]. pose proof (lookup_lt_Some _ _ _ Eo). split; [done|]. split; [done|]. split.
  - constructor; [done|by exists h|done| |done|apply frame_refl]. intros i h' _ Hi. by apply (Y5 i h').
  - constructor; [done|done|by apply Hdev; lia|done|done|by eapply HF, list_elem_of_lookup_2|lia].
Qed.

Lemma same_length {A B} (l1 : list A) (l2 : list B) : (forall i, is_Some (l1 !! i) <-> is_Some (l2 !! i)) -> length l1 = length l2.
Proof.
  intros Hi. destruct (Nat.lt_trichotomy (length l1) (length l2)) as [Hlt|[E|Hlt]]; [|done|].
  - apply lookup_lt_is_Some, Hi, lookup_lt_is_Some in Hlt. lia.
  - apply lookup_lt_is_Some, Hi, lookup_lt_is_Some in Hlt. lia.
Qed.

(** After an operation on channel [c] the system is as before but for its drives. *)
Lemma at_system s D c ch h v' n' s' l : system s D -> channels s !! c = Some ch -> hw s !! c = Some h ->
  at_state c s (with_expecting ch true) v' n' s' -> v_phase v' = Idle -> v_drives v' = l ->
  (length l <= 2)%nat -> (forall x, Some x ∈ l -> Forall (fun sec => length sec = 512%nat /\ Forall is_u8 sec) (sectors x)) -> system s' (<[c := l]> D).
Proof.
  intros [Y1 Y2 Y3 Y4 Y5 Y6 Y7] Hc Hh [A1 (h' & A2 & A3 & A4 & A5) A6 A7 A8 A9] Hp Hl Hle HF. pose proof A9 as [_ F1 F2 F3 F4]. constructor.
  - done.
  - done.
  - transitivity (length (channels s)); [|rewrite Y3; symmetry]; apply same_length; intros i; (destruct (decide (i = c)) as [->|Hi]; [rewrite ?A1, ?A2, ?Hc, ?Hh; by split; intros _; eexists|]).
    + by rewrite F3.
    + specialize (F4 i Hi). destruct (hw s !! i), (hw s' !! i); cbn in *; try done; split; intros []; by eexists.
  - intros i x Hx. destruct (decide (i = c)) as [->|Hi]; [|rewrite F3 in Hx by done; by apply (Y4 i)]. rewrite A1 in Hx. injection Hx as <-. apply (Y4 c ch Hc).
  - intros i k Hk. destruct (decide (i = c)) as [->|Hi]; [|by apply (A7 i)]. rewrite A2 in Hk. injection Hk as <-. by rewrite A3.
  - apply list_eq. intros i. rewrite list_lookup_fmap. destruct (decide (i = c)) as [->|Hi].
    + rewrite list_lookup_insert_eq by (rewrite Y6, length_fmap; by eapply lookup_lt_Some). rewrite A2. cbn. by rewrite A3, Hl.
    + rewrite list_lookup_insert_ne by done. rewrite Y6, list_lookup_fmap. specialize (F4 i Hi). destruct (hw s !! i), (hw s' !! i); cbn in *; congruence.
  - intros l' [i Hi]%list_elem_of_lookup. destruct (decide (i = c)) as [->|Hne]; [|rewrite list_lookup_insert_ne in Hi by done; by apply Y7; eapply list_elem_of_lookup_2].
    rewrite list_lookup_insert_eq in Hi by (rewrite Y6, length_fmap; by eapply lookup_lt_Some). injection Hi as <-. done.
Qed.

Lemma run_io_ok s D op r D' : system s D -> ok_io op -> spec_io D op = Some (r, D') ->
  (exists s', run_io op s = Ok (r, s') /\ system s' D' /\ (all_reliable s -> all_reliable s')) \/ run_io op s = Err EPanic /\ ~ all_reliable s.
Proof.
  intros Hy Hok Hs. destruct op as [d k|d k buffer]; cbn [spec_io ok_io run_io] in *; destruct (find_drive D d) as [x|] eqn:Ed; try done; cbn in Hs; destruct (sectors x !! Z.to_nat k) as [sec|] eqn:Esec; try done; cbn in Hs; injection Hs as <- <-.
  - destruct (system_at s D d x Hy Ed) as (ch & h & Ec & Eh & Hat & Hr). destruct d as [c dev]. cbn [fst snd] in *.
    destruct (ide_read_ok c s s ch _ _ dev x k sec Hat Hr Hok Esec) as [(s' & v' & n' & E & A' & Hp & Hv)|[E Hbad]]; [|by right]. left. exists s'. split; [done|]. split; [|apply (f_reliable _ _ _ (a_frame _ _ _ _ _ _ A'))].
    pose proof Hy as [_ _ _ _ _ Y6 Y7]. assert (El : D !! c = Some (v_drives (look h))) by (rewrite Y6, list_lookup_fmap, Eh; done). destruct (Y7 _ (list_elem_of_lookup_2 _ _ _ El)) as [Hle HF].
    rewrite <- (list_insert_id D c _ El). by eapply at_system.
  - destruct Hok as (Hk & Hlen & Hby). destruct (system_at s D d x Hy Ed) as (ch & h & Ec & Eh & Hat & Hr). destruct d as [c dev]. cbn [fst snd] in *.
    destruct (ide_write_ok c s s ch _ _ dev x k sec buffer Hat Hr Hk Esec Hlen Hby) as [(s' & v' & n' & E & A' & Hp & Hv)|[E Hbad]]; [|right; split; [by apply stbind_err|done]]. left. exists s'. split; [by erewrite stbind_step by exact E|]. split; [|apply (f_reliable _ _ _ (a_frame _ _ _ _ _ _ A'))].
    pose proof Hy as [_ _ _ _ _ Y6 Y7]. assert (El : D !! c = Some (v_drives (look h))) by (rewrite Y6, list_lookup_fmap, Eh; done). destruct (Y7 _ (list_elem_of_lookup_2 _ _ _ El)) as [Hle HF].
    assert (ES : set_drive D (c, dev) (MkDrive (identity x) (<[Z.to_nat k := buffer]> (sectors x))) = <[c := v_drives v']> D).
    { unfold set_drive. cbn [fst snd]. rewrite Hv. apply list_eq. intros i. destruct (decide (i = c)) as [->|Hi]; [|by rewrite list_lookup_alter_ne, list_lookup_insert_ne].
      rewrite list_lookup_alter_eq, El, list_lookup_insert_eq by (by eapply lookup_lt_Some). done. }
    rewrite ES. eapply at_system; try done; rewrite Hv; [by rewrite length_insert|]. intros y Hy2. apply list_elem_of_lookup in Hy2 as [j Hj].
    destruct (decide (j = dev)) as [->|Hj']; [|rewrite list_lookup_insert_ne in Hj by done; by eapply HF, list_elem_of_lookup_2].
    rewrite list_lookup_insert_eq in Hj by (eapply lookup_lt_Some; apply Hr). injection Hj as <-. cbn [sectors]. apply Forall_insert; [apply Hr|done].
Qed.

(** ** Identification *)

Definition blank (c : Z) : bool := (c =? 0) || isspace c.

(** Without the blanks at the end. *)
Fixpoint strip (l : list Z) : list Z :=
  match l with [] => [] | c :: l => match strip l with [] => if blank c then [] else [c] | l => c :: l end end.

Lemma strip_snoc l c : strip (l ++ [c]) = if blank c then strip l else l ++ [c].
Proof.
  induction l as [|a l IH]; cbn [app strip]; [by destruct (blank c)|]. rewrite IH. destruct (blank c); [done|]. by destruct l.
Qed.

Lemma last_loop_strip string : forall n, (n <= length string)%nat -> take (last_loop n string) string = strip (take n string) /\ (last_loop n string <= n)%nat.
Proof.
  induction n as [|n IH]; intros Hn; [done|]. cbn [last_loop]. destruct (IH ltac:(lia)) as [E Hle]. destruct (lookup_lt_is_Some_2 string n) as [a Ha]; [lia|].
  rewrite (nth_lookup_Some _ _ _ _ Ha). rewrite (take_S_r _ _ _ Ha), strip_snoc. unfold blank. rewrite <- negb_orb. destruct ((a =? 0) || isspace a); cbn [negb]; [split; [exact E|lia]|]. split; [by apply take_S_r|lia].
Qed.

Lemma swap_loop_length string : length (swap_loop string) = length string.
Proof. assert (Hs : forall n string, (length string <= n)%nat -> length (swap_loop string) = length string); [|by apply (Hs (length string))]. induction n as [|n IH]; intros [|a [|b l]] Hl; cbn in *; try lia. do 2 f_equal. apply IH. lia. Qed.

Lemma swap_loop_Forall (P : Z -> Prop) n : forall string, (length string <= n)%nat -> Forall P string -> Forall P (swap_loop string).
Proof.
  induction n as [|n IH]; intros [|a [|b l]] Hl HF; cbn in *; try lia; try done. apply Forall_cons_1 in HF as [Ha HF]. apply Forall_cons_1 in HF as [Hb HF]. constructor; [done|]. constructor; [done|]. apply IH; [lia|done].
Qed.

Lemma c_string_insert l k : (k < length l)%nat -> Forall (fun c => c <> 0) (take k l) -> c_string (<[k := 0]> l) = take k l.
Proof.
  revert l. induction k as [|k IH]; intros [|a l] Hk HF; cbn in *; try lia; [done|]. apply Forall_cons_1 in HF as [Ha HF]. rewrite (proj2 (Z.eqb_neq _ _) Ha). f_equal. apply IH; [lia|done].
Qed.

(** The text of a field: its last character is always lost. *)
Lemma descramble_ok string n : (0 < n <= length string)%nat -> Forall (fun c => c <> 0) (take n string) ->
  c_string (descramble_ata_string string n) = strip (take (n - 1) (swap_loop (take n string))).
Proof.
  intros Hn HF. unfold descramble_ata_string. set (w := swap_loop (take n string)). assert (Hw : length w = n) by (unfold w; rewrite swap_loop_length, length_take; lia).
  destruct (last_loop_strip (w ++ drop n string) (n - 1)) as [E Hle]; [rewrite length_app; lia|]. rewrite (take_app_le w _ (n - 1)) in E by lia. rewrite c_string_insert; [exact E|rewrite length_app; lia|].
  rewrite take_app_le by lia. apply Forall_take. unfold w. by apply (swap_loop_Forall _ n); [rewrite length_take; lia|].
Qed.

Lemma identify_ok c s0 s x v n dev dk d : at_state c s0 x v n s -> ready x v dev d -> devices x !! dev = Some dk -> is_ata dk = true ->
  length (identity d) = 512%nat -> Forall is_u8 (identity d) -> capacity_of (identity d) < 2097152 -> all_reliable s0 ->
  exists s1 v' n', at_state c s0 (with_expecting x true) v' n' s1 /\ v_phase v' = Idle /\ v_drives v' = v_drives v /\
    identify_ata_device (c, dev) s = Ok (tt, MkIde (channels s1) (hw s1) (intr_on s1) (registered s1 ++ [MkReg (d_name dk)
      (extra_info (descramble_ata_string (drop 20 (identity d)) 20) (descramble_ata_string (drop 54 (identity d)) 40)) (capacity_of (identity d)) (c, dev)]) (messages s1)).
Proof.
  intros Hat [Rl Rw (dk' & Rd & Rn) Rp Rv Rs Rlt] Hdk Hata Hlen Hby Hcap Hrel. assert (dk' = dk) as -> by congruence. unfold identify_ata_device.
  erewrite stbind_step by (unfold get_disk; erewrite stbind_step by (eapply get_channel_at; exact Hat); cbn [snd]; rewrite Rd; reflexivity). erewrite stbind_step by (by apply assertM_true).
  destruct (select_device_wait_ok c s0 s x v n dev dk Hat Rp Rd Rn) as (s1 & n1 & E1 & A1). erewrite stbind_step by exact E1. clear E1. cbn [fst].
  pose proof A1 as [_ (h & Hh & Hv & Hl & _) _ _ _ Hf]. assert (Hlaw := law_identify h d). cbn zeta in Hlaw. rewrite Hv in Hlaw. specialize (Hlaw eq_refl Hl ltac:(by rewrite (select_byte_ok v dev Rlt))).
  destruct Hlaw as [Hev|[Hbad _]]; [|destruct Hbad; by apply (f_reliable _ _ _ Hf Hrel c)].
  destruct (command_ok c s0 s1 _ _ n1 CMD_IDENTIFY_DEVICE (with_phase (set_device v (select_byte dev)) (BusyIn (words (identity d)))) h A1 eq_refl Hh Hev) as (s3 & x3 & v3 & n3 & E3 & G3 & A3).
  erewrite stbind_step by exact E3. clear E3. destruct (sema_down_ok c s0 s3 _ _ x3 v3 n3 G3 Rw eq_refl I A3) as (s4 & n4 & E4 & A4). erewrite stbind_step by exact E4. clear E4.
  destruct (wait_while_busy_ok c s0 s4 _ _ n4 dev dk A4 Rd eq_refl I) as (s5 & n5 & E5 & A5). erewrite stbind_step by exact E5. clear E5. cbn [negb].
  destruct (input_sector_ok c s0 s5 _ _ n5 (words (identity d)) A5 eq_refl (length_sector_words _ 256 Hlen)) as (s6 & n6 & E6 & A6). erewrite stbind_step by exact E6. clear E6.
  rewrite (bytes_words 256) by done. do 3 eexists. split; [exact A6|]. split; [done|]. split; [done|]. change (1024 * 1024 * 1024 / BLOCK_SECTOR_SIZE) with 2097152. by rewrite (proj2 (Z.leb_gt _ _)) by lia.
Qed.

(** ** Claims *)

(** C7. On any controllers that follow the ATA standard, and whose drives store a sector once they have taken its words, the driver makes disks of sectors: whatever sequence of sector reads and writes is done on the disks of both channels, each returns, reading gives the bytes last written to that sector of that disk, nothing else on any disk changes, and the channel is free again after every operation; unless a drive ends a command with an error, where the driver panics.  With reliable controllers, which report no errors, it never does.  An error after the words of a sector have been written is not looked for by the driver, and is excluded. *)
Theorem ide_refines s D ops rs D' : system s D -> Forall ok_io ops -> spec_all D ops = Some (rs, D') ->
  (exists s', run_all ops s = Ok (rs, s') /\ system s' D') \/ run_all ops s = Err EPanic /\ ~ all_reliable s.
Proof.
  intros Hy HF. revert s D rs D' Hy. induction HF as [|op ops Hok HF IH]; intros s D rs D' Hy Hs; cbn [spec_all run_all] in *.
  - injection Hs as <- <-. left. by exists s.
  - destruct (spec_io D op) as [[r D1]|] eqn:E1; [|done]. cbn in Hs. destruct (spec_all D1 ops) as [[rs1 D2]|] eqn:E2; [|done]. cbn in Hs. injection Hs as <- <-.
    destruct (run_io_ok s D op r D1 Hy Hok E1) as [(s1 & R1 & Hy1 & Hr1)|[E Hbad]]; [|right; split; [by apply stbind_err|done]]. erewrite stbind_step by exact R1.
    destruct (IH s1 D1 rs1 D2 Hy1 E2) as [(s2 & R2 & Hy2)|[E Hbad]]; [left; exists s2; by erewrite stbind_step by exact R2|]. right. split; [by apply stbind_err|auto].
Qed.

(** Identifying a disk below 1 GB, without errors, registers it with the name of its place, with the number of sectors that words 60 and 61 of its answer give, and with the text of the two fields; in both the last character of the field is lost, blank or not. *)
Theorem identify_correct s D c dev x ch dk : system s D -> find_drive D (c, dev) = Some x -> channels s !! c = Some ch -> devices ch !! dev = Some dk -> is_ata dk = true ->
  length (identity x) = 512%nat -> Forall is_u8 (identity x) -> capacity_of (identity x) < 2097152 -> all_reliable s ->
  exists s' model serial, identify_ata_device (c, dev) s = Ok (tt, s') /\ system s' D /\
    registered s' = registered s ++ [MkReg (d_name dk) (extra_info model serial) (capacity_of (identity x)) (c, dev)] /\
    (Forall (fun b => b <> 0) (take 20 (drop 20 (identity x))) -> Forall (fun b => b <> 0) (take 40 (drop 54 (identity x))) ->
      c_string model = strip (take 19 (swap_loop (take 20 (drop 20 (identity x))))) /\
      c_string serial = strip (take 39 (swap_loop (take 40 (drop 54 (identity x)))))).
Proof.
  intros Hy Ed Hch Hdk Hata Hlen Hby Hcap Hrel. destruct (system_at s D (c, dev) x Hy Ed) as (ch' & h & Ec & Eh & Hat & Hr). cbn [fst snd] in *. assert (ch' = ch) as -> by congruence.
  destruct (identify_ok c s s ch _ _ dev dk x Hat Hr Hdk Hata Hlen Hby Hcap Hrel) as (s1 & v' & n' & A1 & Hp & Hv & E). do 3 eexists. split; [exact E|].
  pose proof Hy as [_ _ _ _ _ Y6 Y7]. assert (El : D !! c = Some (v_drives (look h))) by (rewrite Y6, list_lookup_fmap, Eh; done). destruct (Y7 _ (list_elem_of_lookup_2 _ _ _ El)) as [Hle HF].
  split; [|split].
  - assert (Hy1 : system s1 D) by (rewrite <- (list_insert_id D c _ El); by eapply at_system). destruct Hy1. by constructor.
  - cbn [registered]. by rewrite (f_reg c _ _ (a_frame _ _ _ _ _ _ A1)).
  - intros Z1 Z2. split; (apply descramble_ok; [rewrite length_drop; lia|done]).
Qed.

End System.

(** ** A controller *)

(** A controller that completes an operation when time passes, and, when it is bad, ends every command with an error. *)
Module Sim.

Record sim := MkSim { m_view : view; m_line : bool; m_bad : bool }.

Definition complete (h : sim) : sim :=
  let v := m_view h in
  match v_phase v with
  | BusyIn ws => MkSim (with_phase v (DataIn ws)) true (m_bad h)
  | BusyReady sec => MkSim (with_phase v (DataOut sec [])) (m_line h) (m_bad h)
  | BusyOut => MkSim (with_phase v Idle) true (m_bad h)
  | _ => h
  end.

Definition present (v : view) : option drive := v_drives v !! selected v ≫= id.

Definition status (v : view) : Z :=
  match v_phase v with
  | Idle => match present v with Some _ => STA_DRDY | None => 0 end
  | DataIn _ | DataOut _ _ => Z.lor STA_DRDY STA_DRQ
  | _ => STA_BSY
  end.

Definition in_reg (reg : Z) (h : sim) : Z * sim :=
  let v := m_view h in
  if reg =? reg_alt_status then (status v, h)
  else if reg =? reg_status then (status v, MkSim v false (m_bad h))
  else (match present v with
        | None => 0xff
        | Some _ => if reg =? reg_error then 1 else if reg =? reg_nsect then v_nsect v else if reg =? reg_lbal then v_lbal v
                    else if reg =? reg_lbam then v_lbam v else v_lbah v
        end, h).

Definition command (bad : bool) (x : Z) (v : view) : view :=
  match present v with
  | None => v
  | Some d =>
      if bad then with_phase v BusyOut else if x =? CMD_IDENTIFY_DEVICE then with_phase v (BusyIn (words (identity d)))
      else match sectors d !! Z.to_nat (lba v) with
           | None => v
           | Some sec => if x =? CMD_READ_SECTOR_RETRY then with_phase v (BusyIn (words sec))
                         else if x =? CMD_WRITE_SECTOR_RETRY then with_phase v (BusyReady (lba v)) else v
           end
  end.

Definition out_reg (reg x : Z) (h : sim) : sim :=
  let v := m_view h in
  MkSim (match v_phase v with
         | Idle =>
             if reg =? reg_nsect then MkView x (v_lbal v) (v_lbam v) (v_lbah v) (v_device v) Idle (v_drives v)
             else if reg =? reg_lbal then MkView (v_nsect v) x (v_lbam v) (v_lbah v) (v_device v) Idle (v_drives v)
             else if reg =? reg_lbam then MkView (v_nsect v) (v_lbal v) x (v_lbah v) (v_device v) Idle (v_drives v)
             else if reg =? reg_lbah then MkView (v_nsect v) (v_lbal v) (v_lbam v) x (v_device v) Idle (v_drives v)
             else if reg =? reg_device then MkView (v_nsect v) (v_lbal v) (v_lbam v) (v_lbah v) x Idle (v_drives v)
             else if reg =? reg_command then command (m_bad h) x v
             else if (reg =? reg_ctl) && (x =? CTL_SRST) then MkView 1 1 0 0 0 Idle (v_drives v)
             else v
         | _ => v
         end) (m_line h) (m_bad h).

Definition in_data (h : sim) : Z * sim :=
  match v_phase (m_view h) with
  | DataIn (w :: ws) => (w, MkSim (with_phase (m_view h) (match ws with [] => Idle | _ => DataIn ws end)) (m_line h) (m_bad h))
  | _ => (0, h)
  end.

Definition out_data (w : Z) (h : sim) : sim :=
  match v_phase (m_view h) with
  | DataOut sec ws =>
      if (length ws <? 255)%nat then MkSim (with_phase (m_view h) (DataOut sec (ws ++ [w]))) (m_line h) (m_bad h)
      else MkSim (with_phase (store (m_view h) sec (ws ++ [w])) BusyOut) (m_line h) (m_bad h)
  | _ => h
  end.

#[global] Instance sim_ata : Ata sim := {
  in8 := in_reg; out8 := out_reg; in16 := in_data; out16 := out_data; pass _ := complete; line := m_line; idle := complete
}.

Lemma complete_evolves h : evolves (m_view h, m_line h) (m_view (complete h), m_line (complete h)).
Proof. destruct h as [v b q]. unfold complete. cbn [m_view m_line]. destruct (v_phase v) eqn:E; cbn [m_view m_line]; by constructor. Qed.

Lemma status_status v : status_ok (v_phase v) (status v).
Proof. unfold status. destruct (v_phase v); cbn; try done. by destruct (present v). Qed.

Definition good (h : sim) : Prop := m_bad h = false.

Lemma complete_bad h : m_bad (complete h) = m_bad h.
Proof. unfold complete. by destruct (v_phase (m_view h)). Qed.

#[global] Program Instance sim_laws : AtaLaws sim := {| look := m_view; reliable := good; patience _ := 0%nat |}.
Next Obligation. intros reg h Hg. cbn. unfold in_reg. by repeat (case_match; try done). Qed.
Next Obligation. done. Qed.
Next Obligation. intros h Hg. cbn. unfold in_data. by repeat (case_match; try done). Qed.
Next Obligation. intros w h Hg. cbn. unfold out_data. by repeat (case_match; try done). Qed.
Next Obligation. intros n h Hg. cbn. unfold good in *. by rewrite complete_bad. Qed.
Next Obligation. intros h Hg. cbn. unfold good in *. by rewrite complete_bad. Qed.
Next Obligation. intros; cbn; lia. Qed.
Next Obligation. intros h x h' E. injection E as <- <-. split; [constructor|]. split; [apply status_status|done]. Qed.
Next Obligation. intros h x h' E. injection E as <- <-. exists (line h). split; [constructor|]. split; [done|]. split; [apply status_status|done]. Qed.
Next Obligation. intros n h. apply complete_evolves. Qed.
Next Obligation. intros [v b q] Hb Hb2. cbn in *. unfold complete in Hb2. cbn in Hb2. destruct (v_phase v); cbn in *; done. Qed.
Next Obligation.
  intros [v b q] Hl Hp. cbn in *. subst b. pose proof (complete_evolves (MkSim v false q)) as He. cbn in He. unfold complete in *. cbn in *. destruct (v_phase v); cbn in *; done.
Qed.
Next Obligation. intros h x Hp Hl. cbn in *. rewrite Hp. done. Qed.
Next Obligation. intros h x Hp Hl. cbn in *. rewrite Hp. done. Qed.
Next Obligation. intros h x Hp Hl. cbn in *. rewrite Hp. done. Qed.
Next Obligation. intros h x Hp Hl. cbn in *. rewrite Hp. done. Qed.
Next Obligation. intros h x Hp Hl. cbn in *. rewrite Hp. done. Qed.
Next Obligation. intros h d sec v Hp Hl Hm Hn Hd Hs h'. subst h'. cbn. unfold command, present, good. cbn in *. fold v. rewrite Hp, Hd. cbn. destruct (m_bad h); [right; split; [done|]|left]; rewrite ?Hs, Hl; constructor. Qed.
Next Obligation. intros h d sec v Hp Hl Hm Hn Hd Hs h'. subst h'. cbn. unfold command, present, good. cbn in *. fold v. rewrite Hp, Hd. cbn. destruct (m_bad h); [right; split; [done|]|left]; rewrite ?Hs, Hl; constructor. Qed.
Next Obligation. intros h d v Hp Hl Hd h'. subst h'. cbn. unfold command, present, good. cbn in *. fold v. rewrite Hp, Hd. cbn. destruct (m_bad h); [right; split; [done|]|left]; rewrite Hl; constructor. Qed.
Next Obligation. intros h w ws Hp. cbn in *. unfold in_data. rewrite Hp. eexists. split; [reflexivity|]. done. Qed.
Next Obligation. intros h sec ws w Hp. change (out16 w h) with (out_data w h). unfold out_data. rewrite Hp. destruct (length ws <? 255)%nat; [by split|constructor]. Qed.

End Sim.

(** Two channels: two disks on the first, one on the second. *)
Definition small_identity : list Z := replicate 120 65 ++ [4; 0; 0; 0] ++ replicate 388 65.
Definition small_disk (b : Z) : drive := MkDrive small_identity (replicate 4 (replicate 512 b)).
Definition controller (l : list (option drive)) : Sim.sim := Sim.MkSim (MkView 1 1 0 0 0 Idle l) false false.
Definition found (c : channel) : channel := MkChannel (c_name c) (reg_base c) (irq c) false true 0 ((fun d => MkDisk (d_name d) (dev_no d) true) <$> devices c).
Definition two_channels : ide Sim.sim :=
  MkIde [found (new_channel 0); found (new_channel 1)] [controller [Some (small_disk 1); Some (small_disk 2)]; controller [Some (small_disk 3); None]] true [] [].
Definition two_drives : list (list (option drive)) := [[Some (small_disk 1); Some (small_disk 2)]; [Some (small_disk 3); None]].

Lemma small_disk_ok b : is_u8 b -> Forall (fun sec => length sec = 512%nat /\ Forall is_u8 sec) (sectors (small_disk b)).
Proof. intros Hb. apply Forall_replicate. split; [by rewrite length_replicate|by apply Forall_replicate]. Qed.

Lemma two_system : system two_channels two_drives.
Proof.
  constructor; [done| |done| | |done|].
  - intros i x Hx. do 2 (destruct i as [|i]; [injection Hx as <-; done|]). done.
  - intros i x Hx. do 2 (destruct i as [|i]; [injection Hx as <-; split; [done|split; [done|]]; intros dev Hd; do 2 (destruct dev as [|dev]; [eexists; done|]); lia|]). done.
  - intros i h Hh. do 2 (destruct i as [|i]; [injection Hh as <-; done|]). done.
  - unfold two_drives. intros l Hl. rewrite !elem_of_cons in Hl.
    destruct Hl as [->|[->|Hl]]; [| |by apply not_elem_of_nil in Hl]; (split; [done|]); intros x Hx; rewrite !elem_of_cons in Hx; destruct Hx as [E|[E|Hx]]; try (by apply not_elem_of_nil in Hx); try done; injection E as ->; by apply small_disk_ok.
Qed.

Lemma two_reliable : all_reliable two_channels.
Proof. intros i h Hh. do 2 (destruct i as [|i]; [injection Hh as <-; reflexivity|]). done. Qed.

Lemma ide_refines_witness : exists s', run_all [Write (0, 1)%nat 2 (replicate 512 9); Read (0, 1)%nat 2; Read (1, 0)%nat 2] two_channels = Ok ([[]; replicate 512 9; replicate 512 3], s').
Proof.
  destruct (ide_refines two_channels two_drives [Write (0, 1)%nat 2 (replicate 512 9); Read (0, 1)%nat 2; Read (1, 0)%nat 2]
    [[]; replicate 512 9; replicate 512 3] (set_drive two_drives (0, 1)%nat (MkDrive small_identity (<[2%nat := replicate 512 9]> (replicate 4 (replicate 512 2)))))) as [(s' & E & _)|[_ Hbad]].
  - exact two_system.
  - constructor; [|constructor; [|constructor; [|constructor]]]; cbn [ok_io]; [|lia|lia]. split; [lia|]. split; [reflexivity|]. apply Forall_replicate. unfold is_u8. lia.
  - reflexivity.
  - exists s'. exact E.
  - destruct (Hbad two_reliable).
Defined.

(** A drive that reports errors. *)
Example read_error_panics : ide_read (0, 0)%nat 1 (MkIde (channels two_channels) [Sim.MkSim (MkView 1 1 0 0 0 Idle [Some (small_disk 1); None]) false true; controller [None; None]] true [] []) = Err EPanic.
Proof. vm_compute. reflexivity. Qed.

(** The fields hold 20 and 40 letters. *)
Lemma identify_correct_witness : exists s' model serial, identify_ata_device (0, 1)%nat two_channels = Ok (tt, s') /\
  registered s' = [MkReg [104; 100; 98] (extra_info model serial) 4 (0, 1)%nat] /\ c_string model = replicate 19 65 /\ c_string serial = replicate 39 65.
Proof.
  destruct (identify_correct two_channels two_drives 0%nat 1%nat (small_disk 2) (found (new_channel 0)) (MkDisk [104; 100; 98] 1 true)) as (s' & model & serial & E & _ & R & T).
  - exact two_system.
  - reflexivity.
  - reflexivity.
  - reflexivity.
  - reflexivity.
  - reflexivity.
  - unfold small_disk, small_identity. cbn [identity]. apply Forall_app. split; [apply Forall_replicate; unfold is_u8; lia|]. apply Forall_app. split; [repeat constructor; unfold is_u8; lia|apply Forall_replicate; unfold is_u8; lia].
  - vm_compute. reflexivity.
  - exact two_reliable.
  - destruct T as [T1 T2]; [apply (Forall_replicate _ 20 65); lia|apply (Forall_replicate _ 40 65); lia|]. exists s', model, serial. split; [exact E|]. split; [exact R|]. split; [rewrite T1; vm_compute; reflexivity|rewrite T2; vm_compute; reflexivity].
Defined.

(** Start-up on these controllers, with a disk of 1 GB as the second one of the second channel. *)
Definition large_disk : drive := MkDrive (replicate 120 65 ++ [0; 0; 32; 0] ++ replicate 388 65) [].
Definition unset_channel : channel := MkChannel [] 0 0 false false 0 [].

Definition start_up : option (list (list Z * Z * (nat * nat)) * list bool * list Z) :=
  match ide_init (MkIde [unset_channel; unset_channel]
    [controller [Some (small_disk 1); None]; controller [Some (small_disk 3); Some large_disk]] true [] []) with
  | Ok (_, s) => Some (map (fun g => (g_name g, g_size g, g_disk g)) (registered s), concat (map (fun c => map is_ata (devices c)) (channels s)), messages s)
  | Err _ => None
  end.

Example start_up_finds : start_up =
  Some ([(chars "hda", 4, (0, 0)%nat); (chars "hdc", 4, (1, 0)%nat)], [true; false; true; false], chars "hdd: ignoring 1 GBdisk for safety" ++ [10]).
Proof. vm_compute. reflexivity. Qed.
