(* ===== verification/Console.v ===== *)
(** The console and panics: lib/kernel/console.c, debug_panic of
    lib/kernel/debug.c, and shutdown of devices/shutdown.c.

    A thread is a positive number; the console lock is its holder, 0 if it is
    free.  What goes to the serial port (Input.v) and to the screen (Vga.v) is
    the list of characters with the thread that wrote them.  An operation that
    has to wait for the lock gives [None]. *)

From stdpp Require Import base list numbers gmap.
From Stdlib Require Import ZArith Lia.
From Stdlib Require String.
From S2P Require Import Prelude CString Stdio Cmdline.
Import String.StringSyntax.
Open Scope Z_scope.

(** ** lib/kernel/console.c *)

Record console := MkConsole {
  console_lock : Z;
  use_console_lock : bool;
  console_lock_depth : Z;
  write_cnt : Z;
  written : list (Z * Z)
}.

Definition with_lock (s : console) (holder depth : Z) : console := MkConsole holder (use_console_lock s) depth (write_cnt s) (written s).

Definition console_init (s : console) : console := MkConsole 0 true (console_lock_depth s) (write_cnt s) (written s).
Definition console_panic (s : console) : console := MkConsole (console_lock s) false (console_lock_depth s) (write_cnt s) (written s).

(** [intr]: does an interrupt handler run?  [t] is the current thread. *)
Definition acquire_console (intr : bool) (t : Z) (s : console) : option console :=
  if negb intr && use_console_lock s then
    if console_lock s =? t then Some (with_lock s (console_lock s) (console_lock_depth s + 1))
    else if console_lock s =? 0 then Some (with_lock s t (console_lock_depth s))
    else None
  else Some s.

Definition release_console (intr : bool) (t : Z) (s : console) : res console :=
  if negb intr && use_console_lock s then
    if 0 <? console_lock_depth s then Ok (with_lock s (console_lock s) (console_lock_depth s - 1))
    else if console_lock s =? t then Ok (with_lock s 0 (console_lock_depth s)) else Err EAssert
  else Ok s.

Definition console_locked_by_current_thread (intr : bool) (t : Z) (s : console) : bool :=
  intr || negb (use_console_lock s) || (console_lock s =? t).

Definition putchar_have_lock (intr : bool) (t c : Z) (s : console) : res console :=
  if console_locked_by_current_thread intr t s
  then Ok (MkConsole (console_lock s) (use_console_lock s) (console_lock_depth s) (s64 (write_cnt s + 1)) (written s ++ [(t, u8 c)]))
  else Err EAssert.

Fixpoint put_loop (intr : bool) (t : Z) (l : list Z) (s : console) : res console :=
  match l with [] => Ok s | c :: l => s ← putchar_have_lock intr t c s; put_loop intr t l s end.

(** Characters between the acquisition and the release of the lock. *)
Definition put_locked (intr : bool) (t : Z) (l : list Z) (s : console) : option (res console) :=
  match acquire_console intr t s with
  | None => None
  | Some s => Some (s ← put_loop intr t l s; release_console intr t s)
  end.

(** The helper writes what __vprintf produces, and counts it. *)
Definition vprintf (intr : bool) (t : Z) (m : mem) (format args : list Z) (s : console) : option (res (Z * console)) :=
  match acquire_console intr t s with
  | None => None
  | Some s => Some (l ← printf m format args []; s ← put_loop intr t l s; s ← release_console intr t s; Ok (Z.of_nat (length l), s))
  end.

Definition puts (intr : bool) (t : Z) (string : list Z) (s : console) : option (res console) := put_locked intr t (string ++ [10]) s.
Definition putbuf (intr : bool) (t : Z) (buffer : list Z) (n : nat) (s : console) : option (res console) := put_locked intr t (take n buffer) s.
Definition putchar (intr : bool) (t c : Z) (s : console) : option (res console) := put_locked intr t [c] s.

(** ** Several threads *)

(** A call of one of these functions: it waits for the lock, or has it and goes
    on to write.  A call can be made while another one of the same thread is in
    progress: an interrupt that arrives then can switch threads. *)
Inductive frame := Enter (l : list Z) | Body (l : list Z).

Record system := MkSystem { con : console; calls : gmap Z (list frame) }.

Definition calls_of (y : system) (t : Z) : list frame := default [] (calls y !! t).
Definition with_calls (y : system) (s : console) (t : Z) (fs : list frame) : system := MkSystem s (<[t := fs]> (calls y)).

Inductive step : system -> system -> Prop :=
| step_call y t l : 0 < t -> match calls_of y t with Enter _ :: _ => False | _ => True end ->
    step y (with_calls y (con y) t (Enter l :: calls_of y t))
| step_enter y t l fs s : calls_of y t = Enter l :: fs -> acquire_console false t (con y) = Some s ->
    step y (with_calls y s t (Body l :: fs))
| step_put y t c l fs s : calls_of y t = Body (c :: l) :: fs -> putchar_have_lock false t c (con y) = Ok s ->
    step y (with_calls y s t (Body l :: fs))
| step_leave y t fs s : calls_of y t = Body [] :: fs -> release_console false t (con y) = Ok s ->
    step y (with_calls y s t fs).

(** ** lib/debug.c, lib/kernel/debug.c *)

(** A call of printf, and then the rest. *)
Definition say (t : Z) (m : mem) (format args : list Z) (k : console -> option (res (bool * console))) (s : console) : option (res (bool * console)) :=
  match vprintf false t m format args s with
  | Some (Ok (_, s)) => k s
  | Some (Err e) => Some (Err e)
  | None => None
  end.

(** The chain of frames from [frame] on; [load] reads a word of memory. *)
Fixpoint backtrace_loop (fuel : nat) (load : Z -> res Z) (t frame : Z) (k : console -> option (res (bool * console))) (s : console) : option (res (bool * console)) :=
  match fuel with
  | O => Some (Err EFuel)
  | S fuel =>
      if 0x1000 <=? frame then
        match load frame with
        | Err e => Some (Err e)
        | Ok next =>
            if next =? 0 then k s
            else match load (frame + 4) with
                 | Err e => Some (Err e)
                 | Ok retaddr => say t ∅ (chars " %p") [retaddr] (backtrace_loop fuel load t next k) s
                 end
        end
      else k s
  end.

Definition explanation : list Z :=
  chars "The `backtrace' program can make call stacks useful." ++ [10] ++
  chars "Read " ++ [34] ++ chars "Backtraces" ++ [34] ++ chars " in the " ++ [34] ++ chars "Debugging Tools" ++ [34] ++ chars " chapter" ++ [10] ++
  chars "of the Pintos documentation for more information." ++ [10].

(** [explained] is the static variable; its new value is returned.  [retaddr]
    and [frame] are the return address and the frame of the caller. *)
Definition debug_backtrace (fuel : nat) (load : Z -> res Z) (t retaddr frame : Z) (explained : bool) (s : console) : option (res (bool * console)) :=
  say t ∅ (chars "Call stack: %p") [retaddr] (fun s =>
  backtrace_loop fuel load t frame (fun s =>
  say t ∅ [46; 10] [] (fun s =>
  if explained then Some (Ok (true, s)) else say t ∅ explanation [] (fun s => Some (Ok (true, s))) s) s) s) s.

(** ** devices/shutdown.c *)

Inductive event := Say (l : list Z) | FilesysDone | PrintStats | SerialFlush | Outb (port data : Z) | Halt.

(** What happens in order; after it the processor stands still. *)
Definition shutdown_power_off : list event :=
  [FilesysDone; PrintStats; Say (chars "Powering off..." ++ [10]); SerialFlush] ++ map (Outb 0x8900) (chars "Shutdown") ++
  [Halt; Say (chars "still running..." ++ [10])].

(** The statistics, in order. *)
Inductive stats := TimerStats | ThreadStats | BlockStats | ConsoleStats | KbdStats | ExceptionStats.
Definition print_stats : list stats := [TimerStats; ThreadStats; BlockStats; ConsoleStats; KbdStats; ExceptionStats].

Definition CONTROL_REG : Z := 0x64.

(** A round of the endless loop of shutdown_reboot: the answers of the keyboard
    controller are given; the number of times it is asked, and what is written. *)
Fixpoint reboot_poll (n : nat) (answers : list Z) : nat :=
  match n, answers with
  | S n, a :: answers => if Z.land a 2 =? 0 then 1%nat else S (reboot_poll n answers)
  | _, _ => O
  end.
Definition reboot_round (answers : list Z) : nat * event := (reboot_poll (Z.to_nat 0x10000) answers, Outb CONTROL_REG 0xfe).

Inductive ending := Goes_on | Powers_off | Reboots.
Definition shutdown (how : shutdown_type) : ending :=
  match how with SHUTDOWN_POWER_OFF => Powers_off | SHUTDOWN_REBOOT => Reboots | SHUTDOWN_NONE => Goes_on end.

(** ** Panics *)

(** debug_panic of lib/kernel/debug.c, up to the endless loop at its end: the new
    values of its static variable and of that of debug_backtrace, the console, and
    what follows, serial_flush and shutdown.  Interrupts are off, so that no
    other thread runs meanwhile. *)
Definition debug_panic (fuel : nat) (m : mem) (load : Z -> res Z) (t level : Z) (explained : bool) (file line function : Z) (message args : list Z)
    (retaddr frame : Z) (how : shutdown_type) (s : console) : option (res (Z * bool * console * list event * ending)) :=
  let s := console_panic s in
  let level := s32 (level + 1) in
  let printed :=
    if level =? 1 then
      say t m (chars "Kernel PANIC at %s:%d in %s(): ") [file; line; function] (fun s =>
      say t m message args (fun s =>
      say t m [10] [] (fun s =>
      debug_backtrace fuel load t retaddr frame explained s) s) s) s
    else if level =? 2 then
      say t m (chars "Kernel PANIC recursion at %s:%d in %s()." ++ [10]) [file; line; function] (fun s => Some (Ok (explained, s))) s
    else Some (Ok (explained, s)) in
  match printed with
  | Some (Ok (explained, s)) => Some (Ok (level, explained, s, [SerialFlush], shutdown how))
  | Some (Err e) => Some (Err e)
  | None => None
  end.
