(* ===== verification/ConsoleSpec.v ===== *)
(** Calls that print do not mix (Console.v), and a panic is always printed. *)

From stdpp Require Import base list numbers gmap.
From Stdlib Require Import ZArith Lia.
From Stdlib Require String.
From S2P Require Import Prelude CString CStdlib Stdio StdioSpec Cmdline Console.
Import String.StringSyntax.
Open Scope Z_scope.

(** ** Invariant *)

Definition is_body (f : frame) : Prop := match f with Body _ => True | Enter _ => False end.

#[local] Instance is_body_dec f : Decision (is_body f).
Proof. destruct f; cbn; apply _. Defined.

(** How many calls of the thread have the lock, and is there one? *)
Definition bodies (fs : list frame) : nat := length (filter is_body fs).
Definition inside (y : system) (t : Z) : Prop := (0 < bodies (calls_of y t))%nat.

Record inv (y : system) : Prop := {
  i_use : use_console_lock (con y) = true;
  i_depth : 0 <= console_lock_depth (con y);
  i_holder : 0 <= console_lock (con y);
  i_shape t : Forall is_body (tail (calls_of y t));
  i_positive t : calls_of y t <> [] -> 0 < t;
  i_count t : Z.of_nat (bodies (calls_of y t)) = if decide (t = console_lock (con y) /\ t <> 0) then console_lock_depth (con y) + 1 else 0;
  i_free : console_lock (con y) = 0 -> console_lock_depth (con y) = 0
}.

Lemma calls_with y s t fs u : calls_of (with_calls y s t fs) u = if decide (u = t) then fs else calls_of y u.
Proof. unfold calls_of, with_calls. cbn [calls]. case_decide; [subst; by rewrite lookup_insert_eq|by rewrite lookup_insert_ne]. Qed.

Lemma bodies_enter l fs : bodies (Enter l :: fs) = bodies fs.
Proof. done. Qed.
Lemma bodies_body l fs : bodies (Body l :: fs) = S (bodies fs).
Proof. done. Qed.

Lemma bodies_all fs : Forall is_body fs -> bodies fs = length fs.
Proof. induction 1 as [|f fs Hf HF IH]; [done|]. destruct f; [done|]. rewrite bodies_body. cbn. lia. Qed.

(** A call that has the lock is one of the holder's. *)
Lemma body_holder y t l fs : inv y -> calls_of y t = Body l :: fs -> t = console_lock (con y) /\ t <> 0 /\ console_lock_depth (con y) = Z.of_nat (bodies fs).
Proof. intros Hi E. pose proof (i_count y Hi t) as Hc. rewrite E, bodies_body in Hc. case_decide as Hd; [|lia]. destruct Hd. split; [done|]. split; [done|lia]. Qed.

Lemma put_ok y t c l fs : inv y -> calls_of y t = Body (c :: l) :: fs ->
  putchar_have_lock false t c (con y) = Ok (MkConsole (console_lock (con y)) true (console_lock_depth (con y)) (s64 (write_cnt (con y) + 1)) (written (con y) ++ [(t, u8 c)])).
Proof.
  intros Hi E. destruct (body_holder y t _ _ Hi E) as (Ht & _ & _). unfold putchar_have_lock, console_locked_by_current_thread. rewrite (i_use y Hi), <- Ht, Z.eqb_refl. done.
Qed.

Lemma leave_ok y t fs : inv y -> calls_of y t = Body [] :: fs ->
  release_console false t (con y) = Ok (with_lock (con y) (if (bodies fs =? 0)%nat then 0 else console_lock (con y)) (Z.max 0 (console_lock_depth (con y) - 1))).
Proof.
  intros Hi E. destruct (body_holder y t _ _ Hi E) as (Ht & Hn & Hd). unfold release_console. rewrite (i_use y Hi). cbn [negb andb]. rewrite Hd, <- Ht, Z.eqb_refl.
  destruct (bodies fs) as [|n]; [done|]. rewrite (proj2 (Z.ltb_lt _ _)) by lia. cbn [Nat.eqb]. by replace (Z.max 0 (Z.of_nat (S n) - 1)) with (Z.of_nat (S n) - 1) by lia.
Qed.

(** ** Every step keeps it *)

Lemma inv_call y t l : inv y -> 0 < t -> match calls_of y t with Enter _ :: _ => False | _ => True end -> inv (with_calls y (con y) t (Enter l :: calls_of y t)).
Proof.
  intros Hi Ht Hh. constructor; try apply Hi; cbn [con with_calls].
  - intros u. rewrite calls_with. destruct (decide (u = t)) as [->|Hu]; [|apply Hi]. cbn [tail]. pose proof (i_shape y Hi t) as HF. destruct (calls_of y t) as [|[|] fs]; [done|done|]. by constructor.
  - intros u. rewrite calls_with. destruct (decide (u = t)) as [->|Hu]; [done|apply Hi].
  - intros u. rewrite calls_with. destruct (decide (u = t)) as [->|Hu]; [rewrite bodies_enter|]; apply Hi.
Qed.

Lemma inv_enter y t l fs s : inv y -> calls_of y t = Enter l :: fs -> acquire_console false t (con y) = Some s -> inv (with_calls y s t (Body l :: fs)).
Proof.
  intros Hi E Ha. unfold acquire_console in Ha. rewrite (i_use y Hi) in Ha. cbn [negb andb] in Ha. pose proof (i_positive y Hi t ltac:(by rewrite E)) as Ht. pose proof (i_depth y Hi). pose proof (i_holder y Hi).
  destruct (Z.eqb_spec (console_lock (con y)) t) as [El|El]; [|destruct (Z.eqb_spec (console_lock (con y)) 0) as [E0|E0]; [|done]]; injection Ha as <-;
    (constructor; cbn [con with_calls with_lock use_console_lock console_lock console_lock_depth]; [apply Hi|lia|lia| | | |]).
  - intros u. rewrite calls_with. destruct (decide (u = t)) as [->|Hu]; [|apply Hi]. pose proof (i_shape y Hi t) as HF. by rewrite E in HF.
  - intros u. rewrite calls_with. destruct (decide (u = t)) as [->|Hu]; [done|apply Hi].
  - intros u. rewrite calls_with. pose proof (i_count y Hi u) as Hc. destruct (decide (u = t)) as [->|Hu].
    + rewrite E, bodies_enter in Hc. rewrite bodies_body. rewrite decide_True in * by (split; [done|lia]). lia.
    + rewrite Hc. rewrite !decide_False; [done|intros [? _]; congruence..].
  - lia.
  - intros u. rewrite calls_with. destruct (decide (u = t)) as [->|Hu]; [|apply Hi]. pose proof (i_shape y Hi t) as HF. by rewrite E in HF.
  - intros u. rewrite calls_with. destruct (decide (u = t)) as [->|Hu]; [done|apply Hi].
  - intros u. rewrite calls_with. pose proof (i_count y Hi u) as Hc. destruct (decide (u = t)) as [->|Hu].
    + rewrite E, bodies_enter in Hc. rewrite bodies_body. rewrite decide_False in Hc by (intros [? ?]; congruence). rewrite decide_True by (split; [done|lia]). rewrite (i_free y Hi E0). lia.
    + rewrite Hc. rewrite !decide_False; [done|intros [? _]; congruence|intros [? ?]; congruence].
  - lia.
Qed.

Lemma inv_put y t c l fs s : inv y -> calls_of y t = Body (c :: l) :: fs -> putchar_have_lock false t c (con y) = Ok s -> inv (with_calls y s t (Body l :: fs)).
Proof.
  intros Hi E Hp. rewrite (put_ok y t c l fs Hi E) in Hp. injection Hp as <-. constructor; cbn [con with_calls use_console_lock console_lock console_lock_depth]; [done|apply Hi|apply Hi| | | |apply Hi].
  - intros u. rewrite calls_with. destruct (decide (u = t)) as [->|Hu]; [|apply Hi]. pose proof (i_shape y Hi t) as HF. by rewrite E in HF.
  - intros u. rewrite calls_with. destruct (decide (u = t)) as [->|Hu]; [intros _; apply (i_positive y Hi); by rewrite E|apply Hi].
  - intros u. rewrite calls_with. destruct (decide (u = t)) as [->|Hu]; [|apply Hi]. rewrite <- (i_count y Hi t), E. done.
Qed.

Lemma console_inv_leave y t fs s : inv y -> calls_of y t = Body [] :: fs -> release_console false t (con y) = Ok s -> inv (with_calls y s t fs).
Proof.
  intros Hi E Hp. rewrite (leave_ok y t fs Hi E) in Hp. injection Hp as <-. destruct (body_holder y t _ _ Hi E) as (Ht & Hn & Hd). pose proof (i_holder y Hi).
  constructor; cbn [con with_calls with_lock use_console_lock console_lock console_lock_depth]; [apply Hi|lia|destruct (bodies fs); cbn; lia| | | |].
  - intros u. rewrite calls_with. destruct (decide (u = t)) as [->|Hu]; [|apply Hi]. pose proof (i_shape y Hi t) as HF. rewrite E in HF. cbn in HF. destruct fs; [done|]. by apply Forall_cons_1 in HF as [_ HF].
  - intros u. rewrite calls_with. destruct (decide (u = t)) as [->|Hu]; [intros _; apply (i_positive y Hi); by rewrite E|apply Hi].
  - intros u. rewrite calls_with. pose proof (i_count y Hi u) as Hc. destruct (decide (u = t)) as [->|Hu].
    + rewrite Hd. destruct (bodies fs) as [|n] eqn:En; cbn [Nat.eqb]; [rewrite decide_False by (intros [? ?]; congruence); lia|]. rewrite decide_True by done. lia.
    + rewrite Hc. rewrite !decide_False; [done|destruct (bodies fs); cbn [Nat.eqb]; intros [? ?]; congruence|intros [? ?]; congruence].
  - rewrite Hd. destruct (bodies fs); cbn [Nat.eqb]; [intros _; lia|congruence].
Qed.

Lemma console_inv_step y y' : inv y -> step y y' -> inv y'.
Proof. intros Hi Hs. destruct Hs; [by apply inv_call|by eapply inv_enter|by eapply inv_put|by eapply console_inv_leave]. Qed.

Lemma inv_steps y y' : inv y -> rtc step y y' -> inv y'.
Proof. intros Hi Hs. induction Hs; [done|]. apply IHHs. by eapply console_inv_step. Qed.

(** After console_init, before anything is printed with the lock. *)
Definition started (n : Z) (w : list (Z * Z)) : system := MkSystem (MkConsole 0 true 0 n w) ∅.

Lemma inv_started n w : inv (started n w).
Proof. constructor; try done. intros t. cbn. by rewrite decide_False by (intros [? ?]; lia). Qed.

(** ** Text *)

Lemma inside_unique y t u : inv y -> inside y t -> inside y u -> t = u.
Proof.
  unfold inside. intros Hi Ht Hu. pose proof (i_count y Hi t). pose proof (i_count y Hi u). destruct (decide (t = console_lock (con y) /\ t <> 0)) as [[? _]|]; [|lia].
  destruct (decide (u = console_lock (con y) /\ u <> 0)) as [[? _]|]; [congruence|lia].
Qed.

(** While a call of [t] is in progress only [t] writes. *)
Definition during (t : Z) (y y' : system) : Prop := step y y' /\ inside y' t.

Lemma during_text t y y' : inv y -> inside y t -> during t y y' -> exists l, written (con y') = written (con y) ++ l /\ Forall (fun x => x.1 = t) l.
Proof.
  intros Hi Ht [Hs _]. destruct Hs as [y u l Hu Hh|y u l fs s E Ha|y u c l fs s E Hp|y u fs s E Hr]; cbn [con with_calls].
  - exists []. by rewrite app_nil_r.
  - exists []. rewrite app_nil_r. split; [|done]. unfold acquire_console in Ha. repeat case_match; by simplify_eq.
  - rewrite (put_ok y u c l fs Hi E) in Hp. injection Hp as <-. exists [(u, u8 c)]. split; [done|]. constructor; [|done]. cbn. apply (inside_unique y u t Hi); [|done]. unfold inside. rewrite E, bodies_body. lia.
  - exists []. rewrite app_nil_r. split; [|done]. unfold release_console in Hr. repeat case_match; by simplify_eq.
Qed.

Lemma during_all t y y' : inv y -> inside y t -> rtc (during t) y y' -> exists l, written (con y') = written (con y) ++ l /\ Forall (fun x => x.1 = t) l.
Proof.
  intros Hi Ht Hs. induction Hs as [y|y y1 y2 H1 H2 IH]; [exists []; by rewrite app_nil_r|].
  destruct (during_text t y y1 Hi Ht H1) as (l1 & E1 & F1). destruct H1 as [H1 Hin]. destruct (IH (console_inv_step y y1 Hi H1) Hin) as (l2 & E2 & F2).
  exists (l1 ++ l2). split; [by rewrite E2, E1, app_assoc|]. by apply Forall_app.
Qed.

(** A step that is not a new call. *)
Inductive goes_on : system -> Prop :=
| go_enter y t l fs s : calls_of y t = Enter l :: fs -> acquire_console false t (con y) = Some s -> goes_on y
| go_put y t c l fs s : calls_of y t = Body (c :: l) :: fs -> putchar_have_lock false t c (con y) = Ok s -> goes_on y
| go_leave y t fs s : calls_of y t = Body [] :: fs -> release_console false t (con y) = Ok s -> goes_on y.

Lemma body_goes_on y t l fs : inv y -> calls_of y t = Body l :: fs -> goes_on y.
Proof. intros Hi E. destruct l as [|c l]; [eapply go_leave; [exact E|by apply leave_ok]|eapply go_put; [exact E|by eapply put_ok]]. Qed.

Lemma progress y t : inv y -> calls_of y t <> [] -> goes_on y.
Proof.
  intros Hi Ht. pose proof (i_use y Hi) as Hu. destruct (Z.eq_dec (console_lock (con y)) 0) as [E0|E0].
  - destruct (calls_of y t) as [|[l|l] fs] eqn:E; [done| |by eapply body_goes_on]. pose proof (i_positive y Hi t ltac:(by rewrite E)).
    eapply go_enter; [exact E|]. unfold acquire_console. rewrite Hu, E0. cbn [negb andb]. rewrite (proj2 (Z.eqb_neq 0 t)) by lia. reflexivity.
  - pose proof (i_count y Hi (console_lock (con y))) as Hc. rewrite decide_True in Hc by done. pose proof (i_depth y Hi). destruct (calls_of y (console_lock (con y))) as [|[l|l] fs] eqn:E; [cbn in Hc; lia| |by eapply body_goes_on].
    eapply go_enter; [exact E|]. unfold acquire_console. rewrite Hu, Z.eqb_refl. reflexivity.
Qed.

(** ** Panics *)

Lemma put_loop_free t l : forall s, use_console_lock s = false -> exists s', put_loop false t l s = Ok s' /\ use_console_lock s' = false /\
  console_lock s' = console_lock s /\ written s' = written s ++ ((fun c => (t, u8 c)) <$> l).
Proof.
  induction l as [|c l IH]; intros s Hs; [exists s; by rewrite app_nil_r|]. cbn [put_loop]. unfold putchar_have_lock, console_locked_by_current_thread. rewrite Hs. cbn [orb negb mbind res_bind].
  destruct (IH (MkConsole (console_lock s) false (console_lock_depth s) (s64 (write_cnt s + 1)) (written s ++ [(t, u8 c)])) eq_refl) as (s' & E & H1 & H2 & H3). exists s'. split; [exact E|]. split; [done|]. split; [done|].
  rewrite H3. cbn [written]. by rewrite <- app_assoc.
Qed.

(** Formats: characters that stand for themselves, and the conversions that a
    panic uses. *)
Definition decimal (v : Z) (l : list Z) : Prop :=
  exists ds, numeral 10 (Z.abs v) ds /\ l = (if v <? 0 then [45] else []) ++ (if v =? 0 then [48] else digit_char base_d <$> ds).

Definition pointer (a : Z) (l : list Z) : Prop :=
  exists ds, numeral 16 a ds /\ l = if a =? 0 then [48] else [48; 120] ++ (digit_char base_x <$> ds).

Section Formats.
Context (m : mem).

Lemma loop_text l : Forall (fun c => c <> 37) l -> forall fuel format args t,
  vprintf_loop putc m (length l + fuel) (l ++ format) args t = vprintf_loop putc m fuel format args (t ++ l).
Proof.
  induction 1 as [|c l Hc _ IH]; intros fuel format args t; [by rewrite app_nil_r|]. cbn [length app Nat.add vprintf_loop].
  rewrite (proj2 (Z.eqb_neq c 37) Hc). cbn [negb]. rewrite IH. unfold putc. by rewrite <- app_assoc.
Qed.

Lemma loop_s fuel format p s args t : is_u32 p -> is_str m p s -> Z.of_nat (length s) < 2 ^ 32 - 1 ->
  vprintf_loop putc m (S fuel) (37 :: 115 :: format) (p :: args) t = vprintf_loop putc m fuel format args (t ++ s).
Proof.
  intros Hp Hs Hl. transitivity (('(aux, args) ← ('(s, args) ← va_unsigned (p :: args); l ← string_arg m s (-1); Ok (format_string putc l (MkConv 0 0 (-1) INT) t, args)); vprintf_loop putc m fuel format args aux)); [reflexivity|].
  cbn [va_unsigned va_word mbind res_bind]. rewrite (u32_small p Hp), (string_arg_str m p s Hs Hl). cbn [mbind res_bind]. unfold format_string. cbn [width].
  rewrite (proj2 (Z.ltb_ge _ 0)) by lia. cbn [andb]. by rewrite output_all_putc.
Qed.

Lemma loop_d fuel format v args t : is_s32 v ->
  exists l, decimal v l /\ vprintf_loop putc m (S fuel) (37 :: 100 :: format) (u32 v :: args) t = vprintf_loop putc m fuel format args (t ++ l).
Proof.
  intros Hv. destruct (vprintf_d m v fuel t Hv) as (ds & Hn & _ & E). eexists. split; [by exists ds|].
  set (step := fun args => '(value, args) ← signed_arg INT args; aux ← format_integer putc (u64 (if value <? 0 then s64 (- value) else value)) true (value <? 0) base_d (MkConv 0 0 (-1) INT) t; Ok (aux, args)).
  transitivity ('(aux, args) ← step (u32 v :: args); vprintf_loop putc m fuel format args aux); [reflexivity|].
  assert (E' : ('(aux, args) ← step [u32 v]; vprintf_loop putc m (S fuel) [] args aux) = Ok (t ++ (if v <? 0 then [45] else []) ++ (if v =? 0 then [48] else digit_char base_d <$> ds))) by (rewrite <- E; reflexivity).
  unfold step in *. cbn [signed_arg va_int va_word mbind res_bind] in *. destruct (format_integer _ _ _ _ _ _ _) as [aux|e]; cbn [mbind res_bind vprintf_loop] in *; [|done]. injection E' as ->. done.
Qed.

Lemma digits_x ds a : numeral 16 a ds -> 0 <= a -> (if a =? 0 then [48] else [48; 120] ++ (digit_char base_x <$> ds)) = integer_field base_x a false false (MkConv POUND 0 (-1) INT) ds.
Proof.
  intros (HF & Hv & Hh) Ha. unfold integer_field, digits_part, sign_part, prefix_part. cbn [flags width precision]. change (flag POUND MINUS) with false. change (flag POUND ZERO) with false. change (flag POUND POUND) with true.
  change (base base_x =? 8) with false. change (x_char base_x =? 0) with false. change (x_char base_x) with 120. change (-1 <? 0) with true. change (Z.to_nat (Z.min 63 1)) with 1%nat. cbn [andb negb Nat.sub Z.to_nat replicate app].
  destruct (Z.eqb_spec a 0) as [->|Hne]; cbn [andb negb app].
  - destruct ds as [|d ds]; [done|]. exfalso. cbn in Hh. apply Forall_cons_1 in HF as [Hd HF]. unfold num_val in Hv. cbn [fold_left] in Hv. assert (d <> 0) by congruence.
    assert (Hge : forall l v0, Forall (fun d => 0 <= d < 16) l -> 0 < v0 -> 0 < fold_left (fun v d => v * 16 + d) l v0).
    { induction l as [|e l IHl]; intros v0 HFl Hv0; [done|]. cbn. apply Forall_cons_1 in HFl as [? ?]. apply IHl; [done|lia]. }
    specialize (Hge ds (0 * 16 + d) HF ltac:(lia)). lia.
  - destruct ds as [|d ds]; [cbn in Hv; lia|]. done.
Qed.

Lemma loop_p fuel format a args t : is_u32 a ->
  exists l, pointer a l /\ vprintf_loop putc m (S fuel) (37 :: 112 :: format) (a :: args) t = vprintf_loop putc m fuel format args (t ++ l).
Proof.
  intros Ha. destruct bases_ok as (_ & _ & Bx & _). pose proof Ha as [Ha0 Ha1]. destruct (format_integer_putc a false false base_x (MkConv POUND 0 (-1) INT) t Bx) as (ds & Hn & _ & E); [lia|done|done|done|].
  exists (integer_field base_x a false false (MkConv POUND 0 (-1) INT) ds). split; [exists ds; split; [done|]; by rewrite (digits_x ds a)|].
  transitivity (('(aux, args) ← ('(p, args) ← va_unsigned (a :: args); aux ← format_integer putc p false false base_x (MkConv POUND 0 (-1) INT) t; Ok (aux, args)); vprintf_loop putc m fuel format args aux)); [reflexivity|].
  cbn [va_unsigned va_word mbind res_bind]. rewrite (u32_small a Ha), E. done.
Qed.

Lemma printf_text l args : Forall (fun c => c <> 37) l -> printf m l args [] = Ok l.
Proof. intros H. pose proof (loop_text l H 32 [] args []) as E. rewrite app_nil_r in E. exact E. Qed.

(** The place of a panic, between two texts. *)
Lemma printf_place (pre post : list Z) file F line function N : Forall (fun c => c <> 37) pre -> Forall (fun c => c <> 37) post ->
  is_u32 file -> is_str m file F -> Z.of_nat (length F) < 2 ^ 32 - 1 -> is_s32 line -> is_u32 function -> is_str m function N -> Z.of_nat (length N) < 2 ^ 32 - 1 ->
  exists l, decimal line l /\ printf m (pre ++ chars "%s:%d in %s" ++ post) [file; u32 line; function] [] = Ok (pre ++ F ++ [58] ++ l ++ chars " in " ++ N ++ post).
Proof.
  intros Hpre Hpost Hf HF HFl Hl Hn HN HNl. unfold printf, __vprintf. rewrite !length_app. change (length (chars "%s:%d in %s")) with 11%nat.
  replace (length pre + (11 + length post) + 32)%nat with (length pre + S (1 + S (4 + S (length post + 35))))%nat by lia. rewrite (loop_text pre Hpre).
  change (chars "%s:%d in %s" ++ post) with (37 :: 115 :: [58] ++ 37 :: 100 :: chars " in " ++ 37 :: 115 :: post). rewrite (loop_s _ _ file F) by done.
  change (1 + ?x)%nat with (length [58] + x)%nat. rewrite (loop_text [58]) by (repeat constructor; done).
  edestruct (loop_d (4 + S (length post + 35)) (chars " in " ++ 37 :: 115 :: post) line [function]) as (l & Hd & E); [done|]. rewrite E. clear E. exists l. split; [done|].
  change 4%nat with (length (chars " in ")). rewrite (loop_text (chars " in ")) by (repeat constructor; done). rewrite (loop_s _ _ function N) by done.
  pose proof (loop_text post Hpost 35 [] []) as E. rewrite app_nil_r in E. rewrite E. cbn [vprintf_loop Nat.add]. by rewrite <- !app_assoc.
Qed.

End Formats.

(** Output once a panic has turned the lock off. *)
Definition tagged (t : Z) (l : list Z) : list (Z * Z) := (fun c => (t, u8 c)) <$> l.

Lemma tagged_app t l l' : tagged t (l ++ l') = tagged t l ++ tagged t l'.
Proof. apply fmap_app. Qed.

(** [c] writes [l] and goes on with [k]. *)
Definition writes (t : Z) (l : list Z) (c k : console -> option (res (bool * console))) : Prop :=
  forall s, use_console_lock s = false -> exists s', c s = k s' /\ use_console_lock s' = false /\ written s' = written s ++ tagged t l.

Lemma say_writes t m format args l k : printf m format args [] = Ok l -> writes t l (say t m format args k) k.
Proof.
  intros E s Hs. unfold say, vprintf, acquire_console. rewrite Hs. cbn [negb andb]. rewrite E. cbn [mbind res_bind]. destruct (put_loop_free t l s Hs) as (s' & El & U & _ & W). rewrite El. cbn [mbind res_bind].
  unfold release_console. rewrite U. cbn. by exists s'.
Qed.

Lemma writes_trans t l l' c k k' : writes t l c k -> writes t l' k k' -> writes t (l ++ l') c k'.
Proof.
  intros H1 H2 s Hs. destruct (H1 s Hs) as (s1 & E1 & U1 & W1). destruct (H2 s1 U1) as (s2 & E2 & U2 & W2). exists s2. split; [congruence|]. split; [done|]. by rewrite W2, W1, tagged_app, app_assoc.
Qed.

(** The frames of a stack and the return addresses in them: the chain ends at a
    frame below 0x1000 or one whose link is null. *)
Inductive chain (load : Z -> res Z) : Z -> list Z -> Prop :=
| chain_low frame : frame < 0x1000 -> chain load frame []
| chain_null frame : 0x1000 <= frame -> load frame = Ok 0 -> chain load frame []
| chain_next frame next a l : 0x1000 <= frame -> load frame = Ok next -> next <> 0 -> load (frame + 4) = Ok a -> is_u32 a -> chain load next l -> chain load frame (a :: l).

Lemma backtrace_writes load t frame l : chain load frame l -> forall fuel k, (length l < fuel)%nat ->
  exists ls, Forall2 pointer l ls /\ writes t (ls ≫= (fun p => 32 :: p)) (backtrace_loop fuel load t frame k) k.
Proof.
  assert (Hnil : forall (c k : console -> option (res (bool * console))), (forall s, c s = k s) -> writes t [] c k) by (intros c k H s Hs; exists s; split; [done|]; split; [done|by rewrite app_nil_r]).
  induction 1 as [frame Hlo|frame Hhi H0|frame next a l Hhi Hn Hne Ha Hu _ IH]; intros [|fuel] k Hf; cbn [length] in Hf; try lia.
  - exists []. split; [constructor|]. apply Hnil. intros s. cbn [backtrace_loop]. by rewrite (proj2 (Z.leb_gt _ _)) by lia.
  - exists []. split; [constructor|]. apply Hnil. intros s. cbn [backtrace_loop]. by rewrite (proj2 (Z.leb_le _ _)), H0 by lia.
  - destruct (IH fuel k ltac:(lia)) as (ls & HF & Hw). destruct (loop_p ∅ 33 [] a [] [32] Hu) as (p & Hp & E). exists (p :: ls). split; [by constructor|].
    rewrite bind_cons. eapply (writes_trans t (32 :: p) _ _ (backtrace_loop fuel load t next k)); [|exact Hw].
    intros s Hs. cbn [backtrace_loop]. rewrite (proj2 (Z.leb_le _ _)), Hn, (proj2 (Z.eqb_neq next 0)), Ha by done. revert s Hs. apply say_writes. exact E.
Qed.

(** The text of a backtrace. *)
Definition call_stack (explained : bool) (p : list Z) (ls : list (list Z)) : list Z :=
  chars "Call stack: " ++ p ++ (ls ≫= (fun p => 32 :: p)) ++ [46; 10] ++ (if explained then [] else explanation).

Lemma debug_backtrace_ok fuel load t retaddr frame explained l : is_u32 retaddr -> chain load frame l -> (length l < fuel)%nat ->
  exists p ls, pointer retaddr p /\ Forall2 pointer l ls /\
    writes t (call_stack explained p ls) (debug_backtrace fuel load t retaddr frame explained) (fun s => Some (Ok (true, s))).
Proof.
  intros Hr Hc Hf. destruct (loop_p ∅ 33 [] retaddr [] (chars "Call stack: ") Hr) as (p & Hp & E).
  assert (Ep : printf ∅ (chars "Call stack: %p") [retaddr] [] = Ok (chars "Call stack: " ++ p)).
  { unfold printf, __vprintf. change (chars "Call stack: %p") with (chars "Call stack: " ++ [37; 112]). change (Nat.add (length (chars "Call stack: " ++ [37; 112])) 32%nat) with (length (chars "Call stack: ") + 34)%nat.
    rewrite (loop_text ∅ (chars "Call stack: ")) by (repeat constructor; done). exact E. }
  assert (Hex : writes t (if explained then [] else explanation) (fun s => if explained then Some (Ok (true, s)) else say t ∅ explanation [] (fun s => Some (Ok (true, s))) s) (fun s => Some (Ok (true, s)))).
  { destruct explained; [intros s Hs; exists s; split; [done|]; split; [done|by rewrite app_nil_r]|]. apply say_writes, printf_text. repeat constructor; done. }
  edestruct (backtrace_writes load t frame l Hc fuel) as (ls & HF & Hw); [done|]. exists p, ls. split; [done|]. split; [done|].
  unfold call_stack, debug_backtrace. rewrite app_assoc. eapply writes_trans; [apply say_writes, Ep|]. eapply writes_trans; [exact Hw|]. eapply writes_trans; [|exact Hex].
  apply say_writes, printf_text. repeat constructor; done.
Qed.

(** ** Claims *)

(** C18. Whatever threads print, through printf, puts, putbuf or putchar, and however their steps interleave, calls of one thread within its calls included: no assertion about the lock fails; at most one thread is between its outermost acquisition and release; until it leaves, all that is written is its own; and as long as a call is in progress some call can go on: there is no deadlock. Nothing is said about fairness: the lock is not handed over, and a thread that waits may find it taken again. *)
Theorem console_calls_whole n w y : rtc step (started n w) y ->
  (forall t u, inside y t -> inside y u -> t = u) /\
  (forall t c l fs, calls_of y t = Body (c :: l) :: fs -> is_Ok (putchar_have_lock false t c (con y)) = true) /\
  (forall t fs, calls_of y t = Body [] :: fs -> is_Ok (release_console false t (con y)) = true) /\
  (forall t y', inside y t -> rtc (during t) y y' -> exists l, written (con y') = written (con y) ++ l /\ Forall (fun x => x.1 = t) l) /\
  (forall t, calls_of y t <> [] -> goes_on y).
Proof.
  intros Hs. pose proof (inv_steps _ _ (inv_started n w) Hs) as Hi. split; [by intros; eapply inside_unique|]. split; [intros; by erewrite put_ok|]. split; [intros; by erewrite leave_ok|]. split; [by intros; apply during_all|by intros; eapply progress].
Qed.

Lemma console_calls_whole_witness : exists y, rtc step (started 0 []) y /\ inside y 1 /\ ~ inside y 2 /\ calls_of y 2 <> [] /\ goes_on y.
Proof.
  set (y1 := with_calls (started 0 []) (con (started 0 [])) 1 [Enter [65]]).
  set (y2 := with_calls y1 (MkConsole 1 true 0 0 []) 1 [Body [65]]).
  set (y3 := with_calls y2 (con y2) 2 [Enter [66]]).
  assert (Hr : rtc step (started 0 []) y3).
  { eapply (rtc_l _ _ y1); [apply (step_call (started 0 []) 1 [65]); [lia|exact I]|]. eapply (rtc_l _ _ y2); [by apply (step_enter y1 1 [65] [] _)|]. eapply rtc_l; [|apply rtc_refl]. apply (step_call y2 2 [66]); [lia|exact I]. }
  destruct (console_calls_whole 0 [] y3 Hr) as (H1 & _ & _ & _ & H5). assert (Hin : inside y3 1) by (change (0 < 1)%nat; lia).
  exists y3. split; [exact Hr|]. split; [exact Hin|]. split; [intros H2; specialize (H1 1 2 Hin H2); discriminate H1|]. split; [discriminate|]. apply (H5 2). discriminate.
Defined.

(** C34. A panic never waits for the console: whoever holds the lock, and though the panic may come from the lock itself, the first one writes in full where it happened (file, line in decimal, function), its message, which the format and arguments produce, a newline and the call stack (each address in hexadecimal, and the first time an explanation); the second one writes one line, and later ones nothing; then the serial port is flushed and the configured shutdown follows.  The file and function names are strings of less than 2^32 - 1 characters, and the frames of the stack form a chain that ends. *)
Theorem panic_printed fuel m load t level explained file line function message args retaddr frame how s F N text l :
  0 <= level < 2 ^ 31 - 1 -> is_u32 file -> is_str m file F -> Z.of_nat (length F) < 2 ^ 32 - 1 -> is_s32 line -> is_u32 function -> is_str m function N -> Z.of_nat (length N) < 2 ^ 32 - 1 ->
  printf m message args [] = Ok text -> is_u32 retaddr -> chain load frame l -> (length l < fuel)%nat ->
  exists s' d p ls explained', decimal line d /\ pointer retaddr p /\ Forall2 pointer l ls /\
    debug_panic fuel m load t level explained file (u32 line) function message args retaddr frame how s = Some (Ok (level + 1, explained', s', [SerialFlush], shutdown how)) /\
    written s' = written s ++ tagged t
      (if level =? 0 then chars "Kernel PANIC at " ++ F ++ [58] ++ d ++ chars " in " ++ N ++ chars "(): " ++ text ++ [10] ++ call_stack explained p ls
       else if level =? 1 then chars "Kernel PANIC recursion at " ++ F ++ [58] ++ d ++ chars " in " ++ N ++ chars "()." ++ [10] else []).
Proof.
  intros Hlev Hf HF HFl Hl Hn HN HNl Htext Hr Hc Hfuel. unfold debug_panic. rewrite s32_small by (unfold is_s32; lia). set (s1 := console_panic s).
  destruct (debug_backtrace_ok fuel load t retaddr frame explained l Hr Hc Hfuel) as (p & ls & Hp & HFs & Hbt).
  destruct (printf_place m (chars "Kernel PANIC at ") (chars "(): ") file F line function N) as (d & Hd & E1); [repeat constructor; done..|done|done|done|done|done|done|done|].
  destruct (Z.eqb_spec level 0) as [->|H0]; [|destruct (Z.eqb_spec level 1) as [->|H1]].
  - change (0 + 1 =? 1) with true. cbv iota.
    assert (Hw : writes t (chars "Kernel PANIC at " ++ F ++ [58] ++ d ++ chars " in " ++ N ++ chars "(): " ++ text ++ [10] ++ call_stack explained p ls)
      (say t m (chars "Kernel PANIC at %s:%d in %s(): ") [file; u32 line; function] (say t m message args (say t m [10] [] (debug_backtrace fuel load t retaddr frame explained)))) (fun s => Some (Ok (true, s)))).
    { rewrite !app_assoc. rewrite <- (app_assoc _ [10]), <- (app_assoc _ text). eapply writes_trans; [apply say_writes; rewrite <- !app_assoc; exact E1|]. eapply writes_trans; [apply say_writes, Htext|].
      eapply writes_trans; [|exact Hbt]. apply say_writes, printf_text. repeat constructor; done. }
    destruct (Hw s1 eq_refl) as (s' & E & _ & W). exists s', d, p, ls, true. split; [done|]. split; [done|]. split; [done|]. split; [|exact W].
    match goal with |- match ?x with _ => _ end = _ => replace x with (Some (Ok (true, s'))) end. done.
  - change (1 + 1 =? 1) with false. change (1 + 1 =? 2) with true. cbv iota.
    destruct (printf_place m (chars "Kernel PANIC recursion at ") (chars "()." ++ [10]) file F line function N) as (d2 & Hd2 & E2); [repeat constructor; done..|done|done|done|done|done|done|done|].
    destruct (say_writes t m _ _ _ (fun s => Some (Ok (explained, s))) E2 s1 eq_refl) as (s' & E & _ & W). exists s', d2, p, ls, explained. split; [done|]. split; [done|]. split; [done|]. split; [|exact W].
    match goal with |- match ?x with _ => _ end = _ => replace x with (Some (Ok (explained, s'))) end. done.
  - rewrite (proj2 (Z.eqb_neq (level + 1) 1)), (proj2 (Z.eqb_neq (level + 1) 2)) by lia. exists s1, d, p, ls, explained. split_and!; try done. by rewrite app_nil_r.
Qed.

(** The lock is held by another thread; "f", line -1, function "g", message "!", one
    frame above that of main. *)
Definition demo_strings : mem := <[10 := 102]> (<[11 := 0]> (<[20 := 103]> (<[21 := 0]> ∅))).
Definition demo_load (a : Z) : res Z := if a =? 0x2000 then Ok 0x3000 else if a =? 0x2004 then Ok 0xc0020abc else if a =? 0x3000 then Ok 0 else Err EFault.

Lemma panic_printed_witness : exists s' d p ls e, debug_panic 2 demo_strings demo_load 2 0 true 10 (u32 (- 1)) 20 [33] [] 0xc0020123 0x2000 SHUTDOWN_POWER_OFF (MkConsole 1 true 0 0 []) = Some (Ok (1, e, s', [SerialFlush], Powers_off)) /\
  decimal (- 1) d /\ written s' = tagged 2 (chars "Kernel PANIC at f:" ++ d ++ chars " in g(): !" ++ [10] ++ call_stack true p ls).
Proof.
  destruct (panic_printed 2 demo_strings demo_load 2 0 true 10 (- 1) 20 [33] [] 0xc0020123 0x2000 SHUTDOWN_POWER_OFF (MkConsole 1 true 0 0 []) [102] [103] [33] [0xc0020abc]) as (s' & d & p & ls & e & Hd & _ & _ & E & W).
  - lia.
  - split; [discriminate|reflexivity].
  - apply is_strb_ok. vm_compute. reflexivity.
  - reflexivity.
  - split; [discriminate|reflexivity].
  - split; [discriminate|reflexivity].
  - apply is_strb_ok. vm_compute. reflexivity.
  - reflexivity.
  - reflexivity.
  - split; [discriminate|reflexivity].
  - apply (chain_next demo_load 0x2000 0x3000); [discriminate|reflexivity|discriminate|reflexivity|split; [discriminate|reflexivity]|]. apply chain_null; [discriminate|reflexivity].
  - cbn. lia.
  - exists s', d, p, ls, e. split; [exact E|]. split; [exact Hd|]. rewrite W. reflexivity.
Defined.
