(* ===== verification/FsFrame.v ===== *)
(** Which sectors the operations of the file system change: lemmas on Inode.v,
    FreeMap.v and Directory.v with exact results for the case that memory
    suffices, on which FsSpec.v builds. *)

From stdpp Require Import base list numbers gmap.
From Stdlib Require Import ZArith Lia.
From S2P Require Import Prelude Bitmap Inode FreeMap Directory.
Open Scope Z_scope.

(** ** Extents *)

(** Sectors [e.1] up to [e.1 + e.2]. *)
Definition in_ext (e : nat * nat) (k : nat) : Prop := (e.1 <= k < e.1 + e.2)%nat.

Definition sectors_of (len : Z) : nat := Z.to_nat ((len + 511) / 512).

Lemma sectors_of_bytes len : 0 <= len -> len + 511 < 2 ^ 31 -> bytes_to_sectors len = Z.of_nat (sectors_of len).
Proof.
  intros H0 H1. unfold bytes_to_sectors, sectors_of, BLOCK_SECTOR_SIZE. rewrite s32_small by (unfold is_s32; lia). replace (len + 512 - 1) with (len + 511) by lia.
  rewrite Z.quot_div_nonneg by lia. rewrite u32_small; [rewrite Z2Nat.id; [done|apply Z.div_pos; lia]|]. unfold is_u32. pose proof (Z.div_pos (len + 511) 512). pose proof (Z.div_lt_upper_bound (len + 511) 512 (2 ^ 32)). lia.
Qed.

Lemma sectors_of_enough len : 0 <= len -> (Z.to_nat len <= sectors_of len * 512)%nat.
Proof. intros H. unfold sectors_of. pose proof (Z.div_pos (len + 511) 512). pose proof (Z.div_mod (len + 511) 512). pose proof (Z.mod_pos_bound (len + 511) 512). lia. Qed.

(** Only sectors in [P] have changed. *)
Definition frames (P : nat -> Prop) (s s' : fs) : Prop :=
  length (dev s') = length (dev s) /\ forall k, ~ P k -> dev s' !! k = dev s !! k.

Lemma frames_refl P s s' : dev s' = dev s -> frames P s s'.
Proof. intros E. unfold frames. by rewrite E. Qed.

Lemma frames_trans P s1 s2 s3 : frames P s1 s2 -> frames P s2 s3 -> frames P s1 s3.
Proof. intros [L1 F1] [L2 F2]. split; [congruence|]. intros k Hk. by rewrite F2, F1. Qed.

Lemma frames_weaken P Q s s' : (forall k, P k -> Q k) -> frames P s s' -> frames Q s s'.
Proof. intros Hpq [L F]. split; [done|]. intros k Hk. apply F. naive_solver. Qed.

Lemma dev_disk s k : dev_wf s -> (k < length (dev s))%nat -> dev s !! k = Some (take 512 (drop (k * 512) (disk s))).
Proof.
  intros Hwf Hk. destruct (lookup_lt_is_Some_2 (dev s) k Hk) as [b Hb]. rewrite Hb. f_equal. pose proof (sector_slice s k b 0 512 Hwf Hb ltac:(lia)) as E. rewrite drop_0, Nat.add_0_r in E. rewrite <- E.
  symmetry. apply take_ge. destruct Hwf as [HF _]. rewrite Forall_lookup in HF. rewrite (HF k b Hb). lia.
Qed.

Lemma written_frames s s' p l st n : dev_wf s -> written s s' p l -> (st * 512 <= p)%nat -> (p + length l <= (st + n) * 512)%nat -> frames (in_ext (st, n)) s s'.
Proof.
  intros Hwf (m & _ & Hwf' & Hl & HD & _) Hp Hle. split; [done|]. intros k Hk. unfold in_ext in Hk. cbn [fst snd] in Hk. destruct (decide (k < length (dev s))%nat) as [Hlt|Hge]; [|rewrite !lookup_ge_None_2 by lia; done].
  rewrite !dev_disk by (done || lia). f_equal. rewrite HD. apply list_eq. intros j. rewrite !lookup_take. case_decide; [|done]. rewrite !lookup_drop.
  destruct (decide (k < st)%nat); [apply list_lookup_inserts_lt; lia|]. destruct l as [|x l]; [done|]. apply list_lookup_inserts_ge. cbn [length] in *. lia.
Qed.

(** The contents of an inode depend on its sectors only. *)
Lemma flat_run (els : list (list Z)) st n : Forall (fun e => length e = 512%nat) els -> (st + n <= length els)%nat ->
  take (n * 512) (drop (st * 512) (mjoin els)) = mjoin (take n (drop st els)).
Proof.
  intros HF Hl. rewrite <- (take_drop st els) at 1. rewrite join_app. rewrite drop_app_length' by (rewrite (flat_length 512) by (by apply Forall_take); rewrite length_take; lia).
  rewrite <- (take_drop n (drop st els)) at 1. rewrite join_app. apply take_app_length'. rewrite (flat_length 512) by (by apply Forall_take, Forall_drop). rewrite length_take, length_drop. lia.
Qed.

Lemma contents_dev s i n : dev_wf s -> 0 <= start (data i) -> (Z.to_nat (length_ (data i)) <= n * 512)%nat -> (Z.to_nat (start (data i)) + n <= length (dev s))%nat ->
  contents s i = take (Z.to_nat (length_ (data i))) (mjoin (take n (drop (Z.to_nat (start (data i))) (dev s)))).
Proof.
  intros [HF _] Hs Hn Hl. unfold contents, base, disk. rewrite <- flat_run by done. by rewrite take_take, Nat.min_l by lia.
Qed.

Lemma contents_frames P s s' i : dev_wf s -> dev_wf s' -> frames P s s' -> 0 <= start (data i) -> 0 <= length_ (data i) ->
  (Z.to_nat (start (data i)) + sectors_of (length_ (data i)) <= length (dev s))%nat ->
  (forall k, in_ext (Z.to_nat (start (data i)), sectors_of (length_ (data i))) k -> ~ P k) -> contents s' i = contents s i.
Proof.
  intros Hwf Hwf' [L F] Hs Hl Hle Hd. pose proof (sectors_of_enough _ Hl). rewrite !(contents_dev _ i (sectors_of (length_ (data i)))) by (done || lia). do 2 f_equal.
  apply list_eq. intros k. rewrite !lookup_take. case_decide; [|done]. rewrite !lookup_drop. apply F, Hd. unfold in_ext. cbn [fst snd]. lia.
Qed.

(** ** The free map *)

(** The free map's file is open and holds [cnt] bits. *)
Definition map_open (s : fs) (k : inode) : Prop :=
  bitmap_exact (free_map s) /\ holds_bitmap s (free_map_file s) (bit_cnt (free_map s)) k /\ free_map_file s <> 0 /\ mallocs_ok s.

Definition map_ext (k : inode) : nat * nat := (Z.to_nat (start (data k)), sectors_of (length_ (data k))).

Lemma written_map s s' k l : inode_ok s k -> written s s' (base k) l -> (length l <= Z.to_nat (length_ (data k)))%nat -> frames (in_ext (map_ext k)) s s'.
Proof.
  intros (Hwf & Hs & _ & Hl & _) HW Hle. pose proof (sectors_of_enough _ Hl). apply (written_frames s s' (base k) l _ _ Hwf HW); unfold base; lia.
Qed.

Lemma bitmap_write_exact s b k : map_open s k -> bitmap_exact b -> bit_cnt b = bit_cnt (free_map s) ->
  exists s', bitmap_write b (free_map_file s) s = Ok (true, s') /\ s' = with_mallocs (with_dev s (dev s')) (mallocs s') /\ mallocs_ok s' /\ dev_wf s' /\ frames (in_ext (map_ext k)) s s'.
Proof.
  intros (Hex & Hold & _ & Hmo) Hexb Hc. rewrite <- Hc in Hold. destruct (bitmap_write_spec s b (free_map_file s) k Hexb Hold) as (ok & s' & E & (n & HW) & _ & Hok). rewrite (Hok Hmo) in E.
  pose proof Hold as (f & _ & _ & Hin & _ & Hlen). pose proof HW as (m & Es & Hwf & _ & _ & HM). exists s'. split; [done|]. split; [by rewrite Es at 1; rewrite Es|]. split; [by apply HM|]. split; [done|].
  eapply written_map; [done|exact HW|]. rewrite Hlen, (byte_cnt_exact b Hexb), length_take. lia.
Qed.

(** The rest of the state. *)
Definition same_rest (s s' : fs) : Prop :=
  inodes s' = inodes s /\ open_inodes s' = open_inodes s /\ files s' = files s /\ next_addr s' = next_addr s /\ free_map_file s' = free_map_file s.

Lemma free_map_allocate_exact s (cnt : nat) k : map_open s k ->
  exists r s', free_map_allocate (Z.of_nat cnt) s = Ok (r, s') /\ same_rest s s' /\ mallocs_ok s' /\ dev_wf s' /\ frames (in_ext (map_ext k)) s s' /\
    bitmap_exact (free_map s') /\ bit_cnt (free_map s') = bit_cnt (free_map s) /\
    match r with
    | Some sec => exists i, sec = Z.of_nat i /\ (i + cnt <= length (babs (free_map s)))%nat /\ run_of (babs (free_map s)) i cnt false /\
        babs (free_map s') = marked (babs (free_map s)) i cnt true /\ forall j, (j < i)%nat -> ~ run_of (babs (free_map s)) j cnt false
    | None => babs (free_map s') = babs (free_map s) /\ forall i, (i + cnt <= length (babs (free_map s)))%nat -> ~ run_of (babs (free_map s)) i cnt false
    end.
Proof.
  intros Ho. pose proof Ho as (Hex & Hold & Hf & Hmo). unfold free_map_allocate. erewrite stbind_step by reflexivity.
  destruct (bitmap_scan_and_flip_spec (free_map s) 0 cnt false (proj1 Hex) ltac:(lia)) as (r & b & E & Hwf & Hc & Hr & Hcase).
  change (Z.of_nat 0) with 0 in E. rewrite (stbind_step _ _ s (r, b) s) by (unfold lift; by rewrite E).
  pose proof (scan_and_flip_length _ _ _ _ _ _ E) as Hlen. assert (Hexb : bitmap_exact b) by (by eapply bitmap_exact_same).
  assert (Hdwf : dev_wf s) by (destruct Hold as (? & _ & _ & (? & _) & _); done).
  erewrite stbind_step by reflexivity. set (s1 := with_free_map s b). destruct Hcase as [[-> ->]|(i & -> & _ & Hi & Hb)].
  - rewrite Z.eqb_refl. cbn [negb andb]. erewrite stbind_step by reflexivity. rewrite Z.eqb_refl. exists None, s1. split; [done|]. split; [done|]. split; [done|]. split; [done|]. split; [by apply frames_refl|]. split; [done|]. split; [done|].
    split; [done|]. intros i Hi Hrun. destruct Hr as [(j & Ej & _ & Hj & _)|[_ Hno]].
    + rewrite length_babs in Hj. destruct Hex as (((? & ?) & _) & _). unfold BITMAP_ERROR, ELEM_BITS in *. lia.
    + by apply (Hno i); [lia|lia|].
  - assert (Hne : (Z.of_nat i =? BITMAP_ERROR) = false) by (apply Z.eqb_neq; rewrite length_babs in Hi; destruct Hex as (((? & ?) & _) & _); unfold BITMAP_ERROR, ELEM_BITS in *; lia).
    assert (Hrun : run_of (babs (free_map s)) i cnt false /\ forall j, (j < i)%nat -> ~ run_of (babs (free_map s)) j cnt false) by (destruct Hr as [(i' & Ei & _ & _ & Hrun & Hfirst)|[Hbad _]]; [assert (i = i') as -> by lia; split; [done|intros j Hj; apply Hfirst; lia]|rewrite Hbad, Z.eqb_refl in Hne; done]). destruct Hrun as [Hrun Hfirst].
    rewrite Hne. cbn [negb andb]. rewrite (proj2 (Z.eqb_neq _ _) Hf). cbn [negb]. assert (Ho1 : map_open s1 k) by (split; [done|split; [by change (holds_bitmap s (free_map_file s) (bit_cnt b) k); rewrite Hc|done]]).
    destruct (bitmap_write_exact s1 b k Ho1 Hexb eq_refl) as (s2 & E2 & Es2 & M2 & W2 & F2).
    rewrite (stbind_step _ _ s1 (Z.of_nat i) s2) by (by rewrite (stbind_step _ _ s1 _ _ E2)). rewrite Hne. cbn [negb]. exists (Some (Z.of_nat i)), s2. split; [done|].
    split; [by rewrite Es2|]. split; [done|]. split; [done|]. split; [exact F2|]. assert (free_map s2 = b) as -> by (by rewrite Es2). split; [done|]. split; [done|]. exists i. done.
Qed.

Lemma free_map_release_exact s (sec cnt : nat) k : map_open s k -> (sec + cnt <= length (babs (free_map s)))%nat -> run_of (babs (free_map s)) sec cnt true ->
  exists s', free_map_release (Z.of_nat sec) (Z.of_nat cnt) s = Ok (tt, s') /\ same_rest s s' /\ mallocs_ok s' /\ dev_wf s' /\ frames (in_ext (map_ext k)) s s' /\
    bitmap_exact (free_map s') /\ bit_cnt (free_map s') = bit_cnt (free_map s) /\ babs (free_map s') = marked (babs (free_map s)) sec cnt false.
Proof.
  intros Ho Hle Hrun. pose proof Ho as (Hex & Hold & Hf & Hmo). unfold free_map_release. erewrite stbind_step by reflexivity.
  assert (Eall : bitmap_all (free_map s) (Z.of_nat sec) (Z.of_nat cnt) = Ok true).
  { unfold bitmap_all. rewrite bitmap_contains_spec by (done || apply Hex). cbn [mbind res_bind]. rewrite bool_decide_false; [done|]. by apply (run_of_all _ _ _ true). }
  rewrite (stbind_step _ _ s true s) by (unfold lift; by rewrite Eall). erewrite stbind_step by reflexivity.
  destruct (bitmap_set_multiple_spec (free_map s) sec cnt false (proj1 Hex) Hle) as (b & E & Hwf & Hc & Hb).
  rewrite (stbind_step _ _ s b s) by (unfold lift; by rewrite E). pose proof (set_multiple_length _ _ _ _ _ E) as Hlen. assert (Hexb : bitmap_exact b) by (by eapply bitmap_exact_same).
  erewrite stbind_step by reflexivity. set (s1 := with_free_map s b). assert (Ho1 : map_open s1 k) by (split; [done|split; [by change (holds_bitmap s (free_map_file s) (bit_cnt b) k); rewrite Hc|done]]).
  destruct (bitmap_write_exact s1 b k Ho1 Hexb eq_refl) as (s2 & E2 & Es2 & M2 & W2 & F2). erewrite stbind_step by exact E2. exists s2. split; [done|]. split; [by rewrite Es2|]. split; [done|]. split; [done|]. split; [exact F2|].
  assert (free_map s2 = b) as -> by (by rewrite Es2). done.
Qed.

(** ** Opening and closing *)

(** The device and the free map are as before, and memory still suffices. *)
Definition same_disk (s s' : fs) : Prop :=
  dev s' = dev s /\ free_map s' = free_map s /\ free_map_file s' = free_map_file s /\ mallocs_ok s'.

Lemma same_disk_trans s1 s2 s3 : same_disk s1 s2 -> same_disk s2 s3 -> same_disk s1 s3.
Proof. intros (A1 & A2 & A3 & A4) (B1 & B2 & B3 & B4). split; [congruence|]. split; [congruence|]. split; [congruence|done]. Qed.

Lemma malloc_true s : mallocs_ok s -> exists m, malloc s = Ok (true, with_mallocs s m) /\ Forall (fun b => b = true) m.
Proof. intros Hmo. destruct (malloc_Ok s) as (ok & m & E & Hm). destruct (Hm Hmo) as [-> Hm']. by exists m. Qed.

Lemma inode_open_miss s sec b : table_ok s -> mallocs_ok s -> 0 <= sec < Z.of_nat (length (dev s)) -> dev s !! Z.to_nat sec = Some b ->
  (forall jp j, inodes s !! jp = Some j -> sector j <> sec) ->
  exists s', inode_open sec s = Ok (next_addr s, s') /\ table_ok s' /\ same_disk s s' /\ files s' = files s /\ next_addr s' = next_addr s + 1 /\
    inodes s !! next_addr s = None /\ inodes s' = <[next_addr s := MkInode sec 1 false 0 (inode_disk_of b)]> (inodes s).
Proof.
  intros Hok Hmo Hsec Hb Hno. destruct (inode_open_spec s sec Hok Hsec) as (ip & s' & E & Hok' & Hd & Hcase). revert E. unfold inode_open. erewrite stbind_step by reflexivity.
  pose proof Hok as (HN & Hdom & Hcnt & Hinj & Hna). destruct (find_open_spec s sec (open_inodes s)) as (o & Eo & Ho); [intros jp; by apply Hdom|]. rewrite (stbind_step _ _ s o s Eo).
  destruct o as [jp|]; [destruct Ho as (_ & j & Hj & Hs); by destruct (Hno jp j Hj)|]. destruct (malloc_true s Hmo) as (m & Em & Hm). rewrite (stbind_step _ _ s _ _ Em). cbn [negb]. erewrite stbind_step by reflexivity. erewrite stbind_step by reflexivity.
  match goal with |- (block_read sec ≫= _) ?s1 = _ -> _ => destruct (block_read_Ok s1 sec Hsec) as (b' & Eb & Hb') end. cbn in Hb'. assert (b' = b) as -> by congruence. rewrite (stbind_step _ _ _ b _ Eb). intros E. injection E as <- <-.
  eexists. split; [reflexivity|]. split; [exact Hok'|]. split; [done|]. split; [done|]. split; [done|]. split; [|done]. destruct (inodes s !! next_addr s) as [j|] eqn:Ej; [|done]. destruct (Hcnt _ j Ej). lia.
Qed.

Lemma inode_close_exact s ip i : table_ok s -> mallocs_ok s -> inodes s !! ip = Some i -> open_cnt i = 1 -> removed i = false ->
  exists s', inode_close ip s = Ok (tt, s') /\ table_ok s' /\ same_disk s s' /\ files s' = files s /\ next_addr s' = next_addr s /\ inodes s' = delete ip (inodes s).
Proof.
  intros Hok Hmo Hi Ho Hr. destruct (inode_close_last s ip i Hok Hi Ho Hr) as (s' & E & Hok' & Hin & _ & _). exists s'. split; [done|]. split; [done|].
  revert E. pose proof Hok as (_ & _ & Hcnt & _). destruct (Hcnt ip i Hi) as (? & ? & ?). unfold inode_close. rewrite (proj2 (Z.eqb_neq ip 0)) by lia. erewrite stbind_step by (by apply get_inode_Ok). erewrite stbind_step by reflexivity. rewrite Ho. change (1 - 1 =? 0) with true. cbv iota.
  erewrite stbind_step by reflexivity. rewrite Hr. erewrite stbind_step by reflexivity. intros E. injection E as <-. split; [done|]. split; [done|]. split; [done|]. exact Hin.
Qed.

(** An inode on the device, and what it reads as. *)
Lemma inode_disk_roundtrip d : is_u32 (start d) -> is_s32 (length_ d) -> 0 <= length_ d -> is_u32 (magic d) -> inode_disk_of (inode_disk_bytes d) = d.
Proof.
  intros H1 H2 H3 H4. destruct d as [st len mg]. cbn [start length_ magic] in *. unfold inode_disk_of, inode_disk_bytes. cbn [start length_ magic].
  assert (T : forall a x, take 4 (le_bytes a ++ x) = le_bytes a) by reflexivity. assert (D : forall a x, drop 4 (le_bytes a ++ x) = x) by reflexivity.
  assert (D8 : forall a b x, drop 8 (le_bytes a ++ le_bytes b ++ x) = x) by reflexivity. rewrite D, D8, !T.
  rewrite !le_word_le_bytes by (done || apply u32_range). rewrite u32_small by (unfold is_u32, is_s32 in *; lia). by rewrite s32_small.
Qed.

Lemma inode_disk_length d : length (inode_disk_bytes d) = 512%nat.
Proof. reflexivity. Qed.

(** ** Creating *)

Lemma write_zeros_exact n : forall s st, dev_wf s -> 0 <= st -> (Z.to_nat st + n <= length (dev s))%nat ->
  exists s', write_zeros n st s = Ok (tt, s') /\ s' = with_dev s (dev s') /\ dev_wf s' /\ frames (in_ext (Z.to_nat st, n)) s s' /\
    forall k, in_ext (Z.to_nat st, n) k -> dev s' !! k = Some (replicate 512 0).
Proof.
  induction n as [|n IH]; intros s st Hwf Hst Hle.
  - exists s. split; [done|]. split; [by destruct s|]. split; [done|]. split; [by apply frames_refl|]. unfold in_ext. cbn. lia.
  - cbn [write_zeros]. erewrite stbind_step by (apply block_write_Ok; lia). set (s1 := with_dev s (<[Z.to_nat st := replicate 512 0]> (dev s))).
    assert (Hwf1 : dev_wf s1) by (apply dev_wf_insert; [done|reflexivity]). destruct Hwf as [HF Hlim]. rewrite u32_small by (unfold is_u32; lia).
    destruct (IH s1 (st + 1) Hwf1 ltac:(lia)) as (s2 & E2 & Es2 & W2 & [L2 F2] & Z2); [cbn; rewrite length_insert; lia|]. exists s2. split; [exact E2|]. split; [by rewrite Es2 at 1|]. split; [done|].
    cbn in L2. rewrite length_insert in L2. split; [split; [done|]|]; unfold in_ext in *; cbn [fst snd] in *.
    + intros k Hk. rewrite F2 by lia. cbn. by rewrite list_lookup_insert_ne by lia.
    + intros k Hk. destruct (decide (k = Z.to_nat st)) as [->|Hne]; [|apply Z2; lia]. rewrite F2 by lia. cbn. by rewrite list_lookup_insert_eq by lia.
Qed.

Lemma inode_create_exact s (sec : nat) len k : map_open s k -> (sec < length (dev s))%nat -> 0 <= len -> len + 511 < 2 ^ 31 ->
  bit_cnt (free_map s) = Z.of_nat (length (dev s)) ->
  exists r s', inode_create (Z.of_nat sec) len s = Ok (r, s') /\ same_rest s s' /\ mallocs_ok s' /\ dev_wf s' /\ length (dev s') = length (dev s) /\
    bitmap_exact (free_map s') /\ bit_cnt (free_map s') = bit_cnt (free_map s) /\
    if r then exists st, (st + sectors_of len <= length (dev s))%nat /\ run_of (babs (free_map s)) st (sectors_of len) false /\
        babs (free_map s') = marked (babs (free_map s)) st (sectors_of len) true /\
        (forall x, ~ in_ext (map_ext k) x -> x <> sec -> ~ in_ext (st, sectors_of len) x -> dev s' !! x = dev s !! x) /\
        (~ in_ext (st, sectors_of len) sec -> dev s' !! sec = Some (inode_disk_bytes (MkInodeDisk (Z.of_nat st) len INODE_MAGIC))) /\
        (forall x, in_ext (st, sectors_of len) x -> dev s' !! x = Some (replicate 512 0))
    else babs (free_map s') = babs (free_map s) /\ frames (in_ext (map_ext k)) s s' /\
        forall i, (i + sectors_of len <= length (dev s))%nat -> ~ run_of (babs (free_map s)) i (sectors_of len) false.
Proof.
  intros Ho Hsec Hl Hl2 Hbc. unfold inode_create. erewrite stbind_step by (apply assertM_true; by apply Z.leb_le). pose proof Ho as (Hex & Hold & Hf & Hmo). destruct (malloc_true s Hmo) as (m & Em & Hm).
  erewrite stbind_step by exact Em. cbn [negb]. rewrite sectors_of_bytes by done. set (s1 := with_mallocs s m). assert (Ho1 : map_open s1 k) by done. assert (Hlb : length (babs (free_map s)) = length (dev s)) by (rewrite length_babs, Hbc; lia).
  destruct (free_map_allocate_exact s1 (sectors_of len) k Ho1) as (r & s2 & E2 & R2 & M2 & W2 & F2 & X2 & C2 & Hr). erewrite stbind_step by exact E2. change (babs (free_map s1)) with (babs (free_map s)) in Hr. rewrite Hlb in Hr.
  destruct R2 as (R2a & R2b & R2c & R2d & R2e). pose proof F2 as [L2 F2']. change (length (dev s1)) with (length (dev s)) in L2. destruct r as [st0|].
  - destruct Hr as (st & -> & Hle & Hrun & Hmk & _). assert (Hlt2 : (sec < length (dev s2))%nat) by lia. erewrite stbind_step by (apply block_write_Ok; lia). set (s3 := with_dev s2 _).
    assert (W3 : dev_wf s3) by (by apply dev_wf_insert). assert (L3 : length (dev s3) = length (dev s)) by (cbn; by rewrite length_insert).
    assert (Hz : exists s4, (if 0 <? Z.of_nat (sectors_of len) then write_zeros (Z.to_nat (Z.of_nat (sectors_of len))) (Z.of_nat st) else mret tt) s3 = Ok (tt, s4) /\ s4 = with_dev s3 (dev s4) /\ dev_wf s4 /\
      frames (in_ext (st, sectors_of len)) s3 s4 /\ forall x, in_ext (st, sectors_of len) x -> dev s4 !! x = Some (replicate 512 0)).
    { destruct (Z.ltb_spec 0 (Z.of_nat (sectors_of len))) as [Hp|Hp].
      - destruct (write_zeros_exact (sectors_of len) s3 (Z.of_nat st) W3 ltac:(lia)) as (s4 & E4 & A & B & C & D); [rewrite L3; lia|]. rewrite Nat2Z.id in *. exists s4. done.
      - exists s3. split; [done|]. split; [by destruct s3|]. split; [done|]. split; [by apply frames_refl|]. unfold in_ext. cbn. lia. }
    destruct Hz as (s4 & E4 & Es4 & W4 & [L4 F4] & Z4). erewrite stbind_step by exact E4. exists true, s4. split; [done|]. rewrite Es4. cbn [inodes open_inodes files next_addr free_map_file free_map dev with_dev mallocs].
    split; [by unfold same_rest; cbn; rewrite R2a, R2b, R2c, R2d, R2e|]. split; [done|]. split; [by rewrite <- Es4|]. split; [congruence|]. split; [done|]. split; [done|].
    exists st. split; [done|]. split; [done|]. split; [done|]. split; [|split; [|done]].
    + intros x H1 H2 H3. rewrite F4 by done. cbn. rewrite Nat2Z.id. rewrite list_lookup_insert_ne by done. by apply F2'.
    + intros Hn. rewrite F4 by done. cbn [dev s3 with_dev]. rewrite Nat2Z.id. by rewrite list_lookup_insert_eq by lia.
  - exists false, s2. split; [done|]. split; [done|]. split; [done|]. split; [done|]. split; [done|]. split; [done|]. split; [done|]. destruct Hr as [Hr1 Hr2]. split; [done|]. split; [done|]. exact Hr2.
Qed.

(** ** Writing *)

Definition ext_of (i : inode) : nat * nat := (Z.to_nat (start (data i)), sectors_of (length_ (data i))).

(** A write changes sectors of the inode only. *)
Lemma write_exact s ip i buffer size offset : inodes s !! ip = Some i -> inode_ok s i -> 0 <= offset -> is_s32 offset -> (avail i size offset <= length buffer)%nat -> deny_write_cnt i = 0 -> mallocs_ok s ->
  exists s', inode_write_at ip buffer size offset s = Ok (Z.of_nat (avail i size offset), s') /\ same_rest s s' /\ free_map s' = free_map s /\ mallocs_ok s' /\ dev_wf s' /\ frames (in_ext (ext_of i)) s s' /\
    contents s' i = list_inserts (Z.to_nat offset) (take (avail i size offset) buffer) (contents s i).
Proof.
  intros Hi Hok Ho Ho' Hb Hd Hmo. destruct (inode_write_at_spec s ip i buffer size offset Hi Hok Ho Ho' Hb Hd) as (n & s' & E & HW & Hn & Hnm). specialize (Hnm Hmo) as ->. exists s'. split; [done|].
  pose proof HW as (m & Es & Hwf & Hl & _ & HM). split; [by rewrite Es|]. split; [by rewrite Es|]. split; [by apply HM|]. split; [done|]. pose proof Hok as (Hdw & Hs & Hl32 & Hl0 & _). split.
  - pose proof (sectors_of_enough _ Hl0). pose proof (avail_bound i size offset Ho). destruct (decide (avail i size offset = 0%nat)) as [E0|E0].
    + rewrite E0, take_0 in HW. destruct HW as (_ & _ & _ & _ & HD & _). split; [done|]. intros k _. destruct (decide (k < length (dev s))%nat); [|rewrite !lookup_ge_None_2 by lia; done]. rewrite !dev_disk by (done || lia). by rewrite HD.
    + apply (written_frames s s' _ _ _ _ Hdw HW); unfold base; [lia|]. rewrite length_take. cbn [fst snd]. lia.
  - apply (contents_written s s' i (avail i size offset)); [done|done|rewrite length_take; lia| |done]. unfold avail in *. lia.
Qed.

(** Adding an entry changes the directory's sectors only. *)
Lemma dir_add_rest junk s d i name sec r s' : dir_ok s d i -> mallocs_ok s -> dir_wf (entries (contents s i)) -> valid_name name -> is_u32 sec -> length junk = 20%nat ->
  dir_add junk d name sec s = Ok (r, s') -> same_rest s s' /\ free_map s' = free_map s /\ dev_wf s' /\ frames (in_ext (ext_of i)) s s'.
Proof.
  intros Hd Hmo Hwf Hv Hs Hj E. pose proof Hd as (Hi & Hok & Hdn). pose proof Hok as (Hdw & _). assert (Htriv : forall m, same_rest s (with_mallocs s m) /\ free_map (with_mallocs s m) = free_map s /\ dev_wf (with_mallocs s m) /\ frames (in_ext (ext_of i)) s (with_mallocs s m)).
  { intros m. split; [done|]. split; [done|]. split; [done|]. by apply frames_refl. }
  revert E. unfold dir_add. destruct (bool_decide (name = []) || (NAME_MAX <? Z.of_nat (length name))) eqn:Ebad; [intros E; injection E as <- <-; split; [done|]; split; [done|]; split; [done|]; by apply frames_refl|].
  apply orb_false_iff in Ebad as [_ Hb2]. apply Z.ltb_ge in Hb2. unfold NAME_MAX in Hb2. destruct (lookup_spec s d i name Hd Hmo Hwf Hv) as (m & E1 & Hm). erewrite stbind_step by exact E1.
  destruct (list_find (matches name) (entries (contents s i))) as [[k0 e0]|]; cbn [find_result]; [intros E; injection E as <- <-; apply Htriv|].
  set (s1 := with_mallocs s m). assert (Hd1 : dir_ok s1 d i) by exact Hd. rewrite (stbind_step _ _ s1 _ _ (dir_fuel_Ok s1 d i Hd1)). pose proof (div20 (length (contents s1 i))) as H20.
  destruct (free_slot_loop_spec d i (S (length (contents s1 i))) s1 0 junk Hd1 Hm Hj) as (e & k & m2 & E2 & Hm2 & He & Hslot); [lia|lia|lia|]. rewrite (stbind_step _ _ s1 _ _ E2). change (contents s1 i) with (contents s i) in *.
  fold (new_entry e name sec). destruct (new_entry_spec e name sec He Hv ltac:(lia) Hs) as (Hne1 & _). set (s2 := with_mallocs s1 m2).
  assert (Hkle : (k <= length (contents s i) / 20)%nat). { destruct (entries (contents s i) !! k) eqn:Ek; [apply lookup_lt_Some in Ek; rewrite length_entries in Ek; lia|lia]. }
  pose proof (length_contents s i Hok) as Hlc. pose proof Hok as (_ & _ & Hl32 & Hl0 & _).
  destruct (write_exact s2 (d_inode d) i (new_entry e name sec) sizeof_dir_entry (Z.of_nat (k * 20)) Hi Hok) as (s3 & E3 & R3 & M3 & _ & W3 & F3 & _); [lia|unfold is_s32 in *; lia|unfold avail, sizeof_dir_entry; lia|done|done|].
  erewrite stbind_step by exact E3. intros E. injection E as <- <-. split; [exact R3|]. split; [exact M3|]. split; [exact W3|]. exact F3.
Qed.

(** Finding a name. *)
Lemma lookup_exact s d i name : dir_ok s d i -> mallocs_ok s -> dir_wf (entries (contents s i)) -> valid_name name ->
  exists m, Forall (fun b => b = true) m /\
    match dirmap (entries (contents s i)) !! name with
    | Some sec => exists k e, lookup d name s = Ok (Some (e, Z.of_nat (k * 20)), with_mallocs s m) /\ entries (contents s i) !! k = Some e /\ matches name e /\ e_inode_sector e = sec
    | None => lookup d name s = Ok (None, with_mallocs s m)
    end.
Proof.
  intros Hd Hmo Hwf Hv. destruct (lookup_spec s d i name Hd Hmo Hwf Hv) as (m & E & Hm). exists m. split; [done|]. pose proof (find_dirmap (entries (contents s i)) name Hwf) as Hfind.
  destruct (list_find (matches name) (entries (contents s i))) as [[k e]|]; cbn [find_result] in E.
  - destruct Hfind as (Hk & Hmt & ->). exists k, e. done.
  - by rewrite Hfind.
Qed.
