(* ===== verification/FsSpec.v ===== *)
(** The file system (Inode.v, FreeMap.v, Directory.v) implements a map from
    names to contents. *)

From stdpp Require Import base list numbers gmap.
From Stdlib Require Import ZArith Lia.
From S2P Require Import Prelude Bitmap Inode FreeMap Directory FsFrame.
Open Scope Z_scope.

(** ** Invariant *)

(** What a sector can belong to: the inodes of the free map, of the directory
    and of the files, and their data. *)
Inductive area := FmInode | FmData | DirInode | DirData | FInode (nm : list Z) | FData (nm : list Z).

#[export] Instance area_eq_dec : EqDecision area.
Proof. solve_decision. Defined.

#[local] Abbreviation layout := (area -> option (nat * nat)).

(** An inode that is open once. *)
Definition opened (sec : Z) (id : inode_disk) : inode := MkInode sec 1 false 0 id.
Definition root (rd : inode_disk) : inode := opened ROOT_DIR_SECTOR rd.

Definition good (id : inode_disk) : Prop := is_u32 (start id) /\ 0 <= length_ id /\ length_ id + 511 < 2 ^ 31 /\ is_u32 (magic id).

(** The file [nm] has its inode in sector [sec]. *)
Definition file_at (s : fs) (ext : layout) (nm : list Z) (sec : Z) (id : inode_disk) : Prop :=
  0 <= sec /\ ext (FInode nm) = Some (Z.to_nat sec, 1%nat) /\ dev s !! Z.to_nat sec = Some (inode_disk_bytes id) /\
  ext (FData nm) = Some (ext_of (opened sec id)) /\ good id.

Definition names (s : fs) (rd : inode_disk) : gmap (list Z) Z := dirmap (entries (contents s (root rd))).

(** The areas do not overlap and are marked in the free map; the directory and
    the files are where the inodes say, and the files hold [M]. *)
Record inv (k : inode) (rd : inode_disk) (ext : layout) (M : gmap (list Z) (list Z)) (s : fs) : Prop := {
  v_wf : dev_wf s;
  v_map : map_open s k;
  v_bits : bit_cnt (free_map s) = Z.of_nat (length (dev s));
  v_sector : sector k = FREE_MAP_SECTOR;
  v_rd : good rd;
  v_root : dev s !! 1%nat = Some (inode_disk_bytes rd);
  v_used a e : ext a = Some e -> (e.1 + e.2 <= length (dev s))%nat /\ run_of (babs (free_map s)) e.1 e.2 true;
  v_disj a b x ea eb : ext a = Some ea -> ext b = Some eb -> in_ext ea x -> in_ext eb x -> a = b;
  v_fmi : ext FmInode = Some (0, 1)%nat;
  v_fmd : ext FmData = Some (map_ext k);
  v_diri : ext DirInode = Some (1, 1)%nat;
  v_dird : ext DirData = Some (ext_of (root rd));
  v_dir : dir_wf (entries (contents s (root rd)));
  v_file nm sec : names s rd !! nm = Some sec -> exists id, file_at s ext nm sec id /\ M !! nm = Some (contents s (opened sec id));
  v_none nm : names s rd !! nm = None -> M !! nm = None
}.

(** No file is open but the free map's. *)
Record quiet (k : inode) (s : fs) : Prop := {
  q_table : table_ok s;
  q_open : exists fip f, inodes s = {[ fip := k ]} /\ files s = {[ free_map_file s := f ]} /\ f_inode f = fip;
  q_addr : free_map_file s < next_addr s
}.

(** ** Facts *)

Lemma run_of_lookup l i cnt v x : run_of l i cnt v -> (i <= x < i + cnt)%nat -> l !! x = Some v.
Proof.
  intros Hr Hx. unfold run_of in Hr. assert (E : take cnt (drop i l) !! (x - i)%nat = Some v) by (rewrite Hr; apply lookup_replicate_2; lia).
  apply lookup_take_Some in E as [E _]. rewrite lookup_drop in E. by replace (i + (x - i))%nat with x in E by lia.
Qed.

Lemma lookup_run_of l i cnt v : (forall x, (i <= x < i + cnt)%nat -> l !! x = Some v) -> run_of l i cnt v.
Proof.
  intros Hx. unfold run_of. apply list_eq. intros j. rewrite lookup_take. case_decide; [|symmetry; apply lookup_replicate_None; lia]. rewrite lookup_drop, lookup_replicate_2 by lia. apply Hx. lia.
Qed.

Lemma marked_lookup l i cnt v x : (i + cnt <= length l)%nat -> marked l i cnt v !! x = if decide (in_ext (i, cnt) x) then Some v else l !! x.
Proof.
  intros Hl. unfold marked, in_ext. cbn [fst snd]. case_decide as Hd.
  - rewrite lookup_app_r; rewrite length_take; [|lia]. rewrite lookup_app_l by (rewrite length_replicate; lia). apply lookup_replicate_2. lia.
  - destruct (decide (x < i)%nat); [rewrite lookup_app_l by (rewrite length_take; lia); by rewrite lookup_take, decide_True|].
    rewrite lookup_app_r; rewrite length_take; [|lia]. rewrite lookup_app_r; rewrite length_replicate; [|lia]. rewrite lookup_drop. f_equal. lia.
Qed.

Section Facts.
Context (k : inode) (rd : inode_disk) (ext : layout) (M : gmap (list Z) (list Z)) (s : fs) (Hv : inv k rd ext M s).

Lemma bits_length : length (babs (free_map s)) = length (dev s).
Proof. rewrite length_babs, (v_bits _ _ _ _ _ Hv). lia. Qed.

Lemma used_bit a e x : ext a = Some e -> in_ext e x -> babs (free_map s) !! x = Some true.
Proof. intros Ha Hx. destruct (v_used _ _ _ _ _ Hv a e Ha) as [_ Hr]. by apply (run_of_lookup _ _ _ _ _ Hr). Qed.

(** Free sectors belong to no area. *)
Lemma free_unused a e i n x : ext a = Some e -> run_of (babs (free_map s)) i n false -> in_ext e x -> ~ in_ext (i, n) x.
Proof. intros Ha Hr Hx Hi. pose proof (used_bit a e x Ha Hx) as H1. pose proof (run_of_lookup _ _ _ _ x Hr Hi). congruence. Qed.

Lemma good_ok sec id a : good id -> ext a = Some (ext_of (opened sec id)) -> inode_ok s (opened sec id).
Proof.
  intros (G1 & G2 & G3 & G4) Ha. destruct (v_used _ _ _ _ _ Hv a _ Ha) as [Hle _]. cbn [ext_of fst snd opened data] in Hle. pose proof (sectors_of_enough _ G2). unfold is_u32 in *.
  split; [apply Hv|]. cbn. unfold is_s32. split; [lia|]. split; [lia|]. split; [lia|]. lia.
Qed.

Lemma root_ok : inode_ok s (root rd).
Proof. eapply good_ok; [apply Hv|apply Hv]. Qed.

Lemma file_ok nm sec id : file_at s ext nm sec id -> inode_ok s (opened sec id).
Proof. intros (_ & _ & _ & Hd & Hg). by eapply good_ok. Qed.

Lemma file_disk nm sec id : file_at s ext nm sec id -> inode_disk_of (inode_disk_bytes id) = id.
Proof. intros (_ & _ & _ & _ & (G1 & G2 & G3 & G4)). apply inode_disk_roundtrip; [done|unfold is_s32; lia|done|done]. Qed.

Lemma file_unique nm sec id id' : file_at s ext nm sec id -> file_at s ext nm sec id' -> id = id'.
Proof.
  intros H1 H2. rewrite <- (file_disk nm sec id H1), <- (file_disk nm sec id' H2). destruct H1 as (_ & _ & H1 & _), H2 as (_ & _ & H2 & _). rewrite H1 in H2. f_equal. by apply (inj Some).
Qed.

Lemma root_disk : inode_disk_of (inode_disk_bytes rd) = rd.
Proof. destruct (v_rd _ _ _ _ _ Hv) as (G1 & G2 & G3 & G4). apply inode_disk_roundtrip; [done|unfold is_s32; lia|done|done]. Qed.

(** Contents that no changed sector belongs to. *)
Lemma contents_kept P s' sec id a : dev_wf s' -> frames P s s' -> good id -> ext a = Some (ext_of (opened sec id)) -> (forall x, in_ext (ext_of (opened sec id)) x -> ~ P x) ->
  contents s' (opened sec id) = contents s (opened sec id).
Proof.
  intros Hw Hf (G1 & G2 & G3 & G4) Ha Hd. destruct (v_used _ _ _ _ _ Hv a _ Ha) as [Hle _]. unfold is_u32 in G1. eapply contents_frames; [apply Hv|exact Hw|exact Hf|cbn; lia|done|done|done].
Qed.

Lemma root_kept P s' : dev_wf s' -> frames P s s' -> (forall a e x, ext a = Some e -> a <> FmData -> in_ext e x -> ~ P x) -> contents s' (root rd) = contents s (root rd).
Proof. intros Hw Hf Hp. eapply contents_kept; [done|exact Hf|apply Hv|apply Hv|]. intros x. eapply Hp; [apply Hv|done]. Qed.

(** A change outside the areas, other than the free map's data, keeps everything. *)
Lemma inv_frame P s' : dev_wf s' -> map_open s' k -> bit_cnt (free_map s') = bit_cnt (free_map s) -> frames P s s' ->
  (forall a e x, ext a = Some e -> a <> FmData -> in_ext e x -> ~ P x) ->
  (forall a e, ext a = Some e -> run_of (babs (free_map s')) e.1 e.2 true) -> inv k rd ext M s'.
Proof.
  intros Hw Hm Hb Hf Hp Hu. pose proof Hf as [Hl Hd]. pose proof (root_kept P s' Hw Hf Hp) as Hroot.
  constructor; try apply Hv; try done.
  - rewrite Hb, Hl. apply Hv.
  - rewrite Hd; [apply Hv|]. eapply (Hp DirInode); [apply Hv|done|]. unfold in_ext. cbn. lia.
  - intros a e Ha. split; [rewrite Hl; by apply (v_used _ _ _ _ _ Hv a)|by eapply Hu].
  - rewrite Hroot. apply Hv.
  - unfold names. rewrite Hroot. intros nm sec Hn. destruct (v_file _ _ _ _ _ Hv nm sec Hn) as (id & Hat & HM). pose proof Hat as (F1 & F2 & F3 & F4 & F5). exists id. split.
    + split; [done|]. split; [done|]. split; [|done]. rewrite Hd; [done|]. eapply (Hp (FInode nm)); [exact F2|done|]. unfold in_ext. cbn. lia.
    + rewrite HM. f_equal. symmetry. eapply contents_kept; [done|exact Hf|done|exact F4|]. intros x. by eapply (Hp (FData nm)).
  - unfold names. rewrite Hroot. apply Hv.
Qed.

End Facts.

(** The free map's file is still open. *)
Definition map_file (k : inode) (s : fs) : Prop := exists f, files s !! free_map_file s = Some f /\ inodes s !! f_inode f = Some k.

Lemma map_open_again s s' k : map_open s k -> map_file k s' -> free_map_file s' = free_map_file s -> bitmap_exact (free_map s') -> bit_cnt (free_map s') = bit_cnt (free_map s) ->
  dev_wf s' -> length (dev s') = length (dev s) -> mallocs_ok s' -> map_open s' k.
Proof.
  intros (H1 & (f & Hf & Hi & (_ & Hok) & Hd & Hl) & H3 & H4) (f' & Hf' & Hi') Hfm Hex Hb Hw Hlen Hm. split; [done|]. split; [|by rewrite Hfm]. exists f'. split; [done|]. split; [done|].
  split; [unfold inode_ok; rewrite Hlen; by split|]. split; [done|]. by rewrite Hb.
Qed.

Lemma inv_same k rd ext M s s' : inv k rd ext M s -> same_disk s s' -> map_file k s' -> inv k rd ext M s'.
Proof.
  intros Hv (S1 & S2 & S3 & S4) Hf. pose proof (v_wf _ _ _ _ _ Hv) as [W1 W2]. assert (Hw : dev_wf s') by (split; by rewrite S1).
  eapply (inv_frame k rd ext M s Hv (fun _ => False)); [done| |by rewrite S2|by apply frames_refl|tauto|].
  - eapply map_open_again; [apply Hv|done|done|rewrite S2; apply Hv|by rewrite S2|done|by rewrite S1|done].
  - intros a e Ha. rewrite S2. by apply (v_used _ _ _ _ _ Hv a e Ha).
Qed.

Lemma quiet_map_file k s : quiet k s -> map_file k s.
Proof. intros [_ (fip & f & Hi & Hf & <-) _]. exists f. rewrite Hi, Hf, !lookup_singleton_eq. done. Qed.

Lemma open_root k rd ext M s : inv k rd ext M s -> quiet k s ->
  exists s', dir_open_root s = Ok (Some (MkDir (next_addr s) 0), s') /\ table_ok s' /\ same_disk s s' /\ files s' = files s /\ next_addr s' = next_addr s + 1 /\
    inodes s !! next_addr s = None /\ inodes s' = <[next_addr s := root rd]> (inodes s).
Proof.
  intros Hv Hq. pose proof Hq as [Ht (fip & f & Hi & Hf & Hfi) Ha]. unfold dir_open_root. pose proof (v_root _ _ _ _ _ Hv) as Hr. pose proof (lookup_lt_Some _ _ _ Hr) as Hlt.
  destruct (inode_open_miss s ROOT_DIR_SECTOR _ Ht (proj2 (proj2 (proj2 (v_map _ _ _ _ _ Hv)))) ltac:(unfold ROOT_DIR_SECTOR; lia) Hr) as (s1 & E1 & T1 & D1 & F1 & N1 & Hn & I1).
  { intros jp j Hj. rewrite Hi in Hj. apply lookup_singleton_Some in Hj as [_ <-]. rewrite (v_sector _ _ _ _ _ Hv). done. }
  erewrite stbind_step by exact E1. rewrite (root_disk _ _ _ _ _ Hv) in I1. unfold dir_open. destruct (malloc_true s1 (proj2 (proj2 (proj2 D1)))) as (m & Em & Hm). erewrite stbind_step by exact Em.
  destruct Ht as (_ & _ & _ & _ & Hna). rewrite (proj2 (Z.eqb_neq (next_addr s) 0)) by lia. cbn [negb andb]. eexists. split; [reflexivity|]. split; [exact T1|]. split; [|done]. destruct D1 as (? & ? & ? & ?). done.
Qed.

(** With the root directory open at [ip]. *)
Record in_root (k : inode) (rd : inode_disk) (ext : layout) (M : gmap (list Z) (list Z)) (ip : Z) (s : fs) : Prop := {
  o_inv : inv k rd ext M s;
  o_table : table_ok s;
  o_root : inodes s !! ip = Some (root rd);
  o_addr : free_map_file s < next_addr s
}.

Lemma open_root_in k rd ext M s : inv k rd ext M s -> quiet k s ->
  exists s' ip, dir_open_root s = Ok (Some (MkDir ip 0), s') /\ in_root k rd ext M ip s' /\ files s' = files s /\ inodes s !! ip = None /\ inodes s' = <[ip := root rd]> (inodes s) /\ free_map_file s' = free_map_file s /\ same_disk s s'.
Proof.
  intros Hv Hq. destruct (open_root k rd ext M s Hv Hq) as (s' & E & T & D & F & N & Hn & I1). exists s', (next_addr s). split; [done|]. pose proof Hq as [Ht (fip & f & Hi & Hf & Hfi) Ha]. pose proof D as (_ & _ & D3 & _).
  split; [|done]. constructor; [|done|by rewrite I1, lookup_insert_eq|rewrite D3, N; lia]. eapply inv_same; [exact Hv|exact D|]. exists f. rewrite F, D3, I1, Hf, lookup_singleton_eq. split; [done|].
  assert (next_addr s <> fip) by (intros E0; by rewrite E0, Hi, lookup_singleton_eq in Hn). rewrite lookup_insert_ne by congruence. by rewrite Hi, Hfi, lookup_singleton_eq.
Qed.

Lemma in_root_dir k rd ext M ip s : in_root k rd ext M ip s -> dir_ok s (MkDir ip 0) (root rd) /\ mallocs_ok s.
Proof. intros [Hv Ht Hr _]. split; [split; [done|]; split; [by eapply root_ok|done]|apply Hv]. Qed.

(** Closing it. *)
Lemma close_root k rd ext M ip s : in_root k rd ext M ip s -> map_file k (with_inodes s (delete ip (inodes s))) ->
  exists s', dir_close (Some (MkDir ip 0)) s = Ok (tt, s') /\ inv k rd ext M s' /\ table_ok s' /\ files s' = files s /\ inodes s' = delete ip (inodes s) /\ free_map_file s' = free_map_file s /\ next_addr s' = next_addr s /\ same_disk s s'.
Proof.
  intros [Hv Ht Hr Ha] Hm. destruct (inode_close_exact s ip (root rd) Ht (proj2 (proj2 (proj2 (v_map _ _ _ _ _ Hv)))) Hr eq_refl eq_refl) as (s' & E & T & D & F & N & I1). exists s'. split; [exact E|]. pose proof D as (_ & _ & D3 & _).
  split; [|done]. eapply inv_same; [exact Hv|exact D|]. destruct Hm as (f & Hf & Hi). exists f. cbn in *. rewrite F, D3, I1. done.
Qed.

(** ** Allocating *)

Lemma in_root_rest k rd ext M ip s s' : in_root k rd ext M ip s -> same_rest s s' -> inv k rd ext M s' -> in_root k rd ext M ip s'.
Proof.
  intros [_ Ht Hr Ha] (R1 & R2 & R3 & R4 & R5) Hv'. constructor; [done|by apply (table_ok_ext s)|by rewrite R1|by rewrite R4, R5].
Qed.

Lemma map_file_rest k s s' : map_file k s -> same_rest s s' -> map_file k s'.
Proof. intros (f & Hf & Hi) (R1 & R2 & R3 & R4 & R5). exists f. by rewrite R1, R3, R5. Qed.

Lemma in_root_file k rd ext M ip s : in_root k rd ext M ip s -> map_file k s.
Proof. intros [Hv _ _ _]. destruct (v_map _ _ _ _ _ Hv) as (_ & (f & Hf & Hi & _) & _). by exists f. Qed.

Lemma marks_kept k rd ext M s i n : inv k rd ext M s -> (i + n <= length (dev s))%nat ->
  forall a e, ext a = Some e -> run_of (marked (babs (free_map s)) i n true) e.1 e.2 true.
Proof.
  intros Hv Hle a e Ha. apply lookup_run_of. intros x Hx. rewrite marked_lookup by (rewrite (bits_length _ _ _ _ _ Hv); done). case_decide; [done|]. by eapply used_bit.
Qed.

Lemma fm_only k rd ext M s a e x : inv k rd ext M s -> ext a = Some e -> a <> FmData -> in_ext e x -> ~ in_ext (map_ext k) x.
Proof. intros Hv Ha Hne Hx Hx'. apply Hne. eapply (v_disj _ _ _ _ _ Hv); [exact Ha|apply Hv|exact Hx|exact Hx']. Qed.

Lemma alloc_in k rd ext M ip s cnt : in_root k rd ext M ip s ->
  exists r s', free_map_allocate (Z.of_nat cnt) s = Ok (r, s') /\ in_root k rd ext M ip s' /\ same_rest s s' /\ contents s' (root rd) = contents s (root rd) /\ length (dev s') = length (dev s) /\
    match r with
    | Some sec => exists i, sec = Z.of_nat i /\ (i + cnt <= length (dev s))%nat /\ run_of (babs (free_map s)) i cnt false /\
        babs (free_map s') = marked (babs (free_map s)) i cnt true /\ forall j, (j < i)%nat -> ~ run_of (babs (free_map s)) j cnt false
    | None => babs (free_map s') = babs (free_map s) /\ forall i, (i + cnt <= length (dev s))%nat -> ~ run_of (babs (free_map s)) i cnt false
    end.
Proof.
  intros Ho. pose proof Ho as [Hv Ht Hr Ha]. destruct (free_map_allocate_exact s cnt k (v_map _ _ _ _ _ Hv)) as (r & s' & E & R & Mo & W & F & X & C & Hcase). rewrite (bits_length _ _ _ _ _ Hv) in Hcase.
  exists r, s'. split; [done|]. pose proof F as [L _]. split; [|split; [done|]; split; [|done]; eapply (root_kept k rd ext M s Hv); [done|exact F|intros a e x Hae Hne Hx; by eapply fm_only]].
  eapply in_root_rest; [exact Ho|done|]. eapply (inv_frame k rd ext M s Hv); [done| |done|exact F|intros a e x Hae Hne Hx; by eapply fm_only|].
  - eapply map_open_again; [apply Hv|eapply map_file_rest; [by eapply in_root_file|done]|apply R|done|done|done|done|done].
  - intros a e Hae. destruct r as [sec|].
    + destruct Hcase as (i & _ & Hle & _ & -> & _). by apply (marks_kept k rd ext M s i cnt Hv Hle a).
    + destruct Hcase as [-> _]. by apply (v_used _ _ _ _ _ Hv a e Hae).
Qed.

(** A sector that is marked and belongs to nothing yet. *)
Definition loose (ext : layout) (s : fs) (x : nat) : Prop := (x < length (dev s))%nat /\ babs (free_map s) !! x = Some true /\ forall a e, ext a = Some e -> ~ in_ext e x.

Lemma release_inv k rd ext M s x n : inv k rd ext M s -> (forall y, in_ext (x, n) y -> loose ext s y) -> (x + n <= length (dev s))%nat ->
  exists s', free_map_release (Z.of_nat x) (Z.of_nat n) s = Ok (tt, s') /\ inv k rd ext M s' /\ same_rest s s' /\ length (dev s') = length (dev s) /\ babs (free_map s') = marked (babs (free_map s)) x n false.
Proof.
  intros Hv Hl Hle. assert (Hmf : map_file k s) by (destruct (v_map _ _ _ _ _ Hv) as (_ & (f & Hf & Hi & _) & _); by exists f).
  destruct (free_map_release_exact s x n k (v_map _ _ _ _ _ Hv)) as (s' & E & R & Mo & W & F & X & C & Hmk); [by rewrite (bits_length _ _ _ _ _ Hv)|apply lookup_run_of; intros y Hy; by apply Hl|].
  exists s'. split; [done|]. pose proof F as [L _]. split; [|done]. eapply (inv_frame k rd ext M s Hv); [done| |done|exact F|intros a e y Hae Hne Hy; by eapply fm_only|].
  - eapply map_open_again; [apply Hv|by eapply map_file_rest|apply R|done|done|done|done|done].
  - intros a e Hae. rewrite Hmk. apply lookup_run_of. intros y Hy. rewrite marked_lookup by (by rewrite (bits_length _ _ _ _ _ Hv)). case_decide as Hd; [|by eapply used_bit]. destruct (Hl y Hd) as (_ & _ & Hf). by destruct (Hf a e Hae).
Qed.

Lemma release_in k rd ext M ip s x : in_root k rd ext M ip s -> loose ext s x ->
  exists s', free_map_release (Z.of_nat x) 1 s = Ok (tt, s') /\ in_root k rd ext M ip s' /\ same_rest s s'.
Proof.
  intros Ho Hx. pose proof Ho as [Hv _ _ _]. destruct (release_inv k rd ext M s x 1 Hv) as (s' & E & Hv' & R & _); [intros y Hy; unfold in_ext in Hy; cbn in Hy; by replace y with x by lia|destruct Hx; lia|].
  exists s'. split; [exact E|]. split; [by eapply in_root_rest|done].
Qed.

Lemma create_inode_in k rd ext M ip s x len : in_root k rd ext M ip s -> loose ext s x -> 0 <= len -> len + 511 < 2 ^ 31 ->
  exists r s', inode_create (Z.of_nat x) len s = Ok (r, s') /\ in_root k rd ext M ip s' /\ same_rest s s' /\ loose ext s' x /\ contents s' (root rd) = contents s (root rd) /\ length (dev s') = length (dev s) /\
    if r then exists st, (st + sectors_of len <= length (dev s))%nat /\ ~ in_ext (st, sectors_of len) x /\
        (forall y, in_ext (st, sectors_of len) y -> loose ext s' y /\ dev s' !! y = Some (replicate 512 0)) /\
        dev s' !! x = Some (inode_disk_bytes (MkInodeDisk (Z.of_nat st) len INODE_MAGIC))
    else forall i, (i + sectors_of len <= length (dev s))%nat -> ~ run_of (babs (free_map s)) i (sectors_of len) false.
Proof.
  intros Ho Hl Hlen Hlim. pose proof Hl as (Hx & Hb & Hfree). pose proof Ho as [Hv Ht Hr Ha]. pose proof (bits_length _ _ _ _ _ Hv) as Hbl.
  destruct (inode_create_exact s x len k (v_map _ _ _ _ _ Hv) Hx Hlen Hlim (v_bits _ _ _ _ _ Hv)) as (r & s' & E & R & Mo & W & L & X & C & Hcase). exists r, s'. split; [done|].
  assert (Hmo : map_open s' k) by (eapply map_open_again; [apply Hv|eapply map_file_rest; [by eapply in_root_file|done]|apply R|done|done|done|done|done]). destruct r.
  - destruct Hcase as (st & Hle & Hrun & Hmk & Hd1 & Hd2 & Hd3). assert (Hnx : ~ in_ext (st, sectors_of len) x) by (intros Hin; pose proof (run_of_lookup _ _ _ _ x Hrun Hin); congruence).
    assert (Hun : forall a e y, ext a = Some e -> in_ext e y -> ~ in_ext (st, sectors_of len) y) by (intros a e y Hae Hy; by eapply free_unused).
    set (P := fun y => in_ext (map_ext k) y \/ y = x \/ in_ext (st, sectors_of len) y). assert (FP : frames P s s') by (split; [done|unfold P; intros y Hy; apply Hd1; tauto]).
    assert (HP : forall a e y, ext a = Some e -> a <> FmData -> in_ext e y -> ~ P y) by (intros a e y Hae Hne Hy [H1|[->|H1]]; [by eapply fm_only|by apply (Hfree a e)|by eapply Hun]).
    assert (Hv' : inv k rd ext M s').
    { eapply (inv_frame k rd ext M s Hv P); [done|done|done|done|done|].
      - rewrite Hmk. intros a e Hae. by apply (marks_kept k rd ext M s _ _ Hv Hle a). }
    split; [by eapply in_root_rest|]. split; [done|]. split; [split; [lia|]; split; [rewrite Hmk, marked_lookup by lia; by rewrite decide_False|done]|]. split; [by eapply (root_kept k rd ext M s Hv P)|]. split; [done|].
    exists st. split; [done|]. split; [done|]. split; [|by apply Hd2]. intros y Hy. split; [|by apply Hd3]. split; [unfold in_ext in Hy; cbn in Hy; lia|]. split; [rewrite Hmk, marked_lookup by lia; by rewrite decide_True|]. intros a e Hae Hin. by eapply Hun.
  - destruct Hcase as (Hmk & F & Hno). assert (Hv' : inv k rd ext M s').
    { eapply (inv_frame k rd ext M s Hv); [done|done|done|exact F|intros a e y Hae Hne Hy; by eapply fm_only|]. rewrite Hmk. intros a e Hae. by apply (v_used _ _ _ _ _ Hv a e Hae). }
    split; [by eapply in_root_rest|]. split; [done|]. split; [split; [lia|]; split; [by rewrite Hmk|done]|]. split; [|done]. eapply (root_kept k rd ext M s Hv); [done|exact F|intros a e y Hae Hne Hy; by eapply fm_only].
Qed.

(** ** Names *)

Section Dir.
Context (k : inode) (rd : inode_disk) (ext : layout) (M : gmap (list Z) (list Z)) (s s' : fs) (Hv : inv k rd ext M s)
  (Hf : frames (in_ext (ext_of (root rd))) s s') (Hw : dev_wf s') (Hfm : free_map s' = free_map s) (Hmo : map_open s' k).

(** A change of the directory's data leaves the files. *)
Lemma file_kept nm sec id : file_at s ext nm sec id -> file_at s' ext nm sec id /\ contents s' (opened sec id) = contents s (opened sec id).
Proof.
  intros (F1 & F2 & F3 & F4 & F5). assert (Hd : forall a e x, ext a = Some e -> a <> DirData -> in_ext e x -> ~ in_ext (ext_of (root rd)) x).
  { intros a e x Ha Hne Hx Hx'. apply Hne. eapply (v_disj _ _ _ _ _ Hv); [exact Ha|apply Hv|exact Hx|exact Hx']. }
  split; [split; [done|]; split; [done|]; split; [|done]|].
  - destruct Hf as [_ H1]. rewrite H1; [done|]. eapply (Hd (FInode nm)); [exact F2|done|]. unfold in_ext. cbn. lia.
  - eapply (contents_kept k rd ext M s Hv); [done|exact Hf|done|exact F4|]. intros x. by eapply (Hd (FData nm)).
Qed.

Lemma inv_dir ext' M' :
  (forall a, match a with FInode _ | FData _ => True | _ => ext' a = ext a end) ->
  (forall a e, ext' a = Some e -> (e.1 + e.2 <= length (dev s))%nat /\ run_of (babs (free_map s)) e.1 e.2 true) ->
  (forall a b x ea eb, ext' a = Some ea -> ext' b = Some eb -> in_ext ea x -> in_ext eb x -> a = b) ->
  dir_wf (entries (contents s' (root rd))) ->
  (forall nm sec, names s' rd !! nm = Some sec -> exists id, file_at s' ext' nm sec id /\ M' !! nm = Some (contents s' (opened sec id))) ->
  (forall nm, names s' rd !! nm = None -> M' !! nm = None) -> inv k rd ext' M' s'.
Proof.
  intros H1 H2 H3 H4 H5 H6. pose proof Hf as [Hl Hd]. constructor; try done; try apply Hv.
  - rewrite Hfm, Hl. apply Hv.
  - rewrite Hd; [apply Hv|]. intros Hin. assert (DirInode = DirData) by (eapply (v_disj _ _ _ _ _ Hv); [apply Hv|apply Hv| |exact Hin]; unfold in_ext; cbn; lia). done.
  - rewrite Hl, Hfm. exact H2.
  - rewrite (H1 FmInode). apply Hv.
  - rewrite (H1 FmData). apply Hv.
  - rewrite (H1 DirInode). apply Hv.
  - rewrite (H1 DirData). apply Hv.
Qed.

(** The directory names the same files. *)
Lemma inv_dir_same : dir_wf (entries (contents s' (root rd))) -> names s' rd = names s rd -> inv k rd ext M s'.
Proof.
  intros H1 H2. apply inv_dir; [by intros []|apply Hv|apply Hv|done| |].
  - rewrite H2. intros nm sec Hn. destruct (v_file _ _ _ _ _ Hv nm sec Hn) as (id & Hat & HM). destruct (file_kept nm sec id Hat) as [A1 A2]. exists id. split; [done|]. by rewrite A2.
  - rewrite H2. apply Hv.
Qed.

End Dir.

Definition with_file (ext : layout) (nm : list Z) (x st n : nat) : layout :=
  fun a => if decide (a = FInode nm) then Some (x, 1%nat) else if decide (a = FData nm) then Some (st, n) else ext a.

Definition dir_full (s : fs) (rd : inode_disk) : Prop := forall e, e ∈ entries (contents s (root rd)) -> e_in_use e = true.

Lemma with_file_cases ext nm x st n a e : with_file ext nm x st n a = Some e ->
  (a = FInode nm /\ e = (x, 1%nat)) \/ (a = FData nm /\ e = (st, n)) \/ (a <> FInode nm /\ a <> FData nm /\ ext a = Some e).
Proof. unfold with_file. case_decide; [intros E; injection E as <-; by left|]. case_decide; [intros E; injection E as <-; right; by left|]. intros E. right. by right. Qed.

Lemma loose_same ext s s' x : free_map s' = free_map s -> length (dev s') = length (dev s) -> loose ext s x -> loose ext s' x.
Proof. intros H1 H2 (A & B & C). split; [by rewrite H2|]. split; [by rewrite H1|done]. Qed.

Lemma zeros_contents s sec id n : dev_wf s -> 0 <= start id -> 0 <= length_ id -> (Z.to_nat (start id) + sectors_of (length_ id) <= length (dev s))%nat ->
  (forall y, in_ext (ext_of (opened sec id)) y -> dev s !! y = Some (replicate 512 0)) -> n = Z.to_nat (length_ id) -> contents s (opened sec id) = replicate n 0.
Proof.
  intros Hw Hs Hl Hle Hz ->. pose proof (sectors_of_enough _ Hl). rewrite (contents_dev _ _ (sectors_of (length_ id))) by done. cbn [opened data].
  assert (E : take (sectors_of (length_ id)) (drop (Z.to_nat (start id)) (dev s)) = replicate (sectors_of (length_ id)) (replicate 512 0)).
  { apply list_eq. intros j. rewrite lookup_take. case_decide; [|symmetry; apply lookup_replicate_None; lia]. rewrite lookup_drop, lookup_replicate_2 by lia. apply Hz. unfold in_ext. cbn. lia. }
  rewrite E. assert (E2 : mjoin (replicate (sectors_of (length_ id)) (replicate 512 0)) = replicate (sectors_of (length_ id) * 512) 0).
  { generalize (sectors_of (length_ id)). intros m. induction m as [|m IH]; [done|]. change (replicate 512 0 ++ mjoin (replicate m (replicate 512 0)) = replicate (512 + m * 512) 0). by rewrite IH, replicate_add. }
  rewrite E2. rewrite take_replicate. f_equal. lia.
Qed.

Lemma add_in junk k rd ext M ip s nm x st len : in_root k rd ext M ip s -> valid_name nm -> length junk = 20%nat -> loose ext s x -> 0 <= len -> len + 511 < 2 ^ 31 ->
  (st + sectors_of len <= length (dev s))%nat -> ~ in_ext (st, sectors_of len) x ->
  (forall y, in_ext (st, sectors_of len) y -> loose ext s y /\ dev s !! y = Some (replicate 512 0)) ->
  dev s !! x = Some (inode_disk_bytes (MkInodeDisk (Z.of_nat st) len INODE_MAGIC)) ->
  exists r s', dir_add junk (MkDir ip 0) nm (Z.of_nat x) s = Ok (r, s') /\ same_rest s s' /\
    if r then in_root k rd (with_file ext nm x st (sectors_of len)) (<[nm := replicate (Z.to_nat len) 0]> M) ip s' /\ nm <> [] /\ (length nm <= 14)%nat /\ M !! nm = None
    else in_root k rd ext M ip s' /\ loose ext s' x /\ (nm = [] \/ (14 < length nm)%nat \/ is_Some (M !! nm) \/ dir_full s rd).
Proof.
  intros Ho Hnm Hj Hl Hlen Hlim Hst Hx Hz Hdx. pose proof Ho as [Hv Ht Hr Ha]. destruct (in_root_dir _ _ _ _ _ _ Ho) as [Hdir Hmo]. pose proof (v_wf _ _ _ _ _ Hv) as [_ Hdl]. destruct Hl as (Hxl & Hxb & Hxf).
  destruct (dir_add_spec junk s _ _ nm (Z.of_nat x) Hdir Hmo (v_dir _ _ _ _ _ Hv) Hnm ltac:(unfold is_u32; lia) Hj) as (r & s' & E & Hdir' & Hmo' & Hwf' & Hmap & Hiff).
  destruct (dir_add_rest junk s _ _ nm (Z.of_nat x) r s' Hdir Hmo (v_dir _ _ _ _ _ Hv) Hnm ltac:(unfold is_u32; lia) Hj E) as (R & Hfm & W & F). pose proof F as [L Fd].
  assert (Hmap' : map_open s' k) by (eapply map_open_again; [apply Hv|eapply map_file_rest; [by eapply in_root_file|done]|apply R|rewrite Hfm; apply Hv|by rewrite Hfm|done|done|done]).
  exists r, s'. split; [done|]. split; [done|]. destruct r.
  - destruct (proj1 Hiff eq_refl) as (Hne & H14 & Hnone & _). assert (HMn : M !! nm = None) by (by apply (v_none _ _ _ _ _ Hv)).
    assert (Hxd : forall y, (y = x \/ in_ext (st, sectors_of len) y) -> ~ in_ext (ext_of (root rd)) y).
    { intros y [->|Hy]; [apply (Hxf DirData); apply Hv|]. destruct (Hz y Hy) as [(_ & _ & Hy2) _]. apply (Hy2 DirData). apply Hv. }
    assert (Hdev' : forall y, (y = x \/ in_ext (st, sectors_of len) y) -> dev s' !! y = dev s !! y) by (intros y Hy; apply Fd; by apply Hxd).
    assert (Hv' : inv k rd (with_file ext nm x st (sectors_of len)) (<[nm := replicate (Z.to_nat len) 0]> M) s').
    { eapply (inv_dir k rd ext M s s' Hv F W Hfm Hmap').
      - intros []; done.
      - intros a e [[_ ->]|[[_ ->]|(_ & _ & He)]]%with_file_cases; [split; [cbn; lia|apply lookup_run_of; intros y Hy; cbn in Hy; by replace y with x by lia]| |by apply (v_used _ _ _ _ _ Hv a)].
        split; [done|]. apply lookup_run_of. intros y Hy. by apply Hz.
      - assert (Hown : forall a e y, ext a = Some e -> in_ext e y -> y <> x /\ ~ in_ext (st, sectors_of len) y).
        { intros a e y Hae Hy. split; [intros ->; by apply (Hxf a e)|]. intros Hy2. destruct (Hz y Hy2) as [(_ & _ & Hy3) _]. by apply (Hy3 a e). }
        intros a b y ea eb Hea Heb Hya Hyb. apply with_file_cases in Hea as [[-> ->]|[[-> ->]|(Na1 & Na2 & Hea)]]; apply with_file_cases in Heb as [[-> ->]|[[-> ->]|(Nb1 & Nb2 & Heb)]]; try done;
          try (assert (y = x) as -> by (unfold in_ext in *; cbn in *; lia)); try tauto; try (by destruct (Hown _ _ _ Hea Hya)); try (by destruct (Hown _ _ _ Heb Hyb)). by eapply (v_disj _ _ _ _ _ Hv).
      - done.
      - intros nm' sec Hn. unfold names in Hn. rewrite Hmap in Hn. apply lookup_insert_Some in Hn as [[<- <-]|[Hne' Hn]].
        + exists (MkInodeDisk (Z.of_nat st) len INODE_MAGIC). assert (Hg : good (MkInodeDisk (Z.of_nat st) len INODE_MAGIC)) by (split; [unfold is_u32; cbn; lia|]; done).
          split; [split; [lia|]; split; [unfold with_file; rewrite decide_True by done; by rewrite Nat2Z.id|]; split; [rewrite Nat2Z.id, Hdev' by (by left); done|]; split; [|done]|].
          * unfold with_file. rewrite decide_False by done. rewrite decide_True by done. unfold ext_of. cbn [opened data start length_]. by rewrite Nat2Z.id.
          * rewrite lookup_insert_eq. f_equal. symmetry. apply zeros_contents; cbn [start length_]; [done|lia|done|rewrite Nat2Z.id; lia| |done].
            intros y Hy. unfold ext_of in Hy. cbn [opened data start length_] in Hy. rewrite Nat2Z.id in Hy. rewrite Hdev' by (by right). by apply Hz.
        + destruct (v_file _ _ _ _ _ Hv nm' sec Hn) as (id & Hat & HM). destruct (file_kept k rd ext M s s' Hv F W nm' sec id Hat) as [(B1 & B2 & B3 & B4 & B5) Hc]. exists id. split.
          * split; [done|]. unfold with_file. rewrite !decide_False by congruence. done.
          * rewrite lookup_insert_ne by done. by rewrite Hc.
      - intros nm' Hn. unfold names in Hn. rewrite Hmap in Hn. apply lookup_insert_None in Hn as [Hn Hne']. rewrite lookup_insert_ne by done. by apply (v_none _ _ _ _ _ Hv). }
    split; [|done]. destruct R as (R1 & R2 & R3 & R4 & R5). constructor; [done|by apply (table_ok_ext s)|by rewrite R1|by rewrite R4, R5].
  - assert (Hv' : inv k rd ext M s') by (apply (inv_dir_same k rd ext M s s' Hv F W Hfm Hmap'); [done|exact Hmap]). split; [by eapply in_root_rest|]. split; [by apply (loose_same ext s s')|].
    destruct (decide (nm = [])) as [|Hne]; [by left|]. right. destruct (decide (14 < length nm)%nat) as [|H14]; [by left|]. right. destruct (M !! nm) as [c|] eqn:EM; [by left; eexists|]. right.
    intros e [j Hje]%list_elem_of_lookup. destruct (e_in_use e) eqn:Eu; [done|]. exfalso. assert (Hf : false = true); [|done]. apply Hiff. split; [done|]. split; [lia|]. split; [|by exists j, e].
    destruct (dirmap (entries (contents s (root rd))) !! nm) as [sec|] eqn:En; [|done]. destruct (v_file _ _ _ _ _ Hv nm sec En) as (id & _ & HM). congruence.
Qed.

(** ** Creating *)

(** A file system with nothing open, and the files it holds. *)
Definition holds (M : gmap (list Z) (list Z)) (s : fs) : Prop := exists k rd ext, inv k rd ext M s /\ quiet k s.

(** Closing the directory leaves nothing open. *)
Lemma end_root k rd ext M ip s0 s : quiet k s0 -> inodes s0 !! ip = None -> in_root k rd ext M ip s -> files s = files s0 -> inodes s = <[ip := root rd]> (inodes s0) -> free_map_file s = free_map_file s0 ->
  exists s', dir_close (Some (MkDir ip 0)) s = Ok (tt, s') /\ inv k rd ext M s' /\ quiet k s'.
Proof.
  intros [Ht (fip & f & Hi & Hf & Hfi) Ha] Hn Ho F I1 E5. assert (Hd : delete ip (inodes s) = inodes s0) by (rewrite I1; by apply delete_insert_id).
  destruct (close_root k rd ext M ip s Ho) as (s' & E & Hv & T & F' & I' & M' & N' & D'); [exists f; cbn; rewrite F, E5, Hd, Hf, Hi, Hfi, !lookup_singleton_eq; done|].
  exists s'. split; [done|]. split; [done|]. constructor; [done|exists fip, f; rewrite I', Hd, F', F, M', E5; done|rewrite M', N'; apply Ho].
Qed.

(** No free sector, or no run of free sectors after it. *)
Definition no_room (s : fs) (n : nat) : Prop := forall i, (i + S n <= length (dev s))%nat -> ~ run_of (babs (free_map s)) i (S n) false.

Lemma same_rest_trans s1 s2 s3 : same_rest s1 s2 -> same_rest s2 s3 -> same_rest s1 s3.
Proof. intros (A1 & A2 & A3 & A4 & A5) (B1 & B2 & B3 & B4 & B5). split; [congruence|]. split; [congruence|]. split; [congruence|]. split; congruence. Qed.

Lemma run_of_sub l i n v j m : run_of l i n v -> (i <= j)%nat -> (j + m <= i + n)%nat -> run_of l j m v.
Proof. intros Hr H1 H2. apply lookup_run_of. intros x Hx. apply (run_of_lookup _ _ _ _ _ Hr). lia. Qed.

Lemma create_ok junk k rd ext M s nm len : inv k rd ext M s -> quiet k s -> valid_name nm -> length junk = 20%nat -> 0 <= len -> len + 511 < 2 ^ 31 ->
  exists r s' ext', filesys_create junk nm len s = Ok (r, s') /\ quiet k s' /\ inv k rd ext' (if r then <[nm := replicate (Z.to_nat len) 0]> M else M) s' /\
    (if r then nm <> [] /\ (length nm <= 14)%nat /\ M !! nm = None
     else nm = [] \/ (14 < length nm)%nat \/ is_Some (M !! nm) \/ dir_full s rd \/ no_room s (sectors_of len)).
Proof.
  intros Hv Hq Hnm Hj Hlen Hlim. unfold filesys_create. destruct (open_root_in k rd ext M s Hv Hq) as (s1 & ip & E1 & O1 & F1 & N1 & I1 & M1 & D1). erewrite stbind_step by exact E1. clear E1.
  destruct D1 as (Hd1 & Hfm1 & _). assert (Hend : forall s2 ext2 M2, in_root k rd ext2 M2 ip s2 -> same_rest s1 s2 -> exists s', dir_close (Some (MkDir ip 0)) s2 = Ok (tt, s') /\ inv k rd ext2 M2 s' /\ quiet k s').
  { intros s2 ext2 M2 O2 (R1 & R2 & R3 & R4 & R5). apply (end_root k rd ext2 M2 ip s s2 Hq N1 O2); congruence. }
  destruct (alloc_in k rd ext M ip s1 1 O1) as (r & s2 & E2 & O2 & R2 & C2 & L2 & Hr). change (Z.of_nat 1) with 1 in E2. rewrite Hd1, Hfm1 in Hr.
  destruct r as [sec|].
  2: { destruct Hr as [_ Hno]. erewrite stbind_step by (erewrite stbind_step by exact E2; reflexivity). cbn [negb andb Z.eqb]. erewrite stbind_step by reflexivity. destruct (Hend s2 ext M O2 R2) as (s' & E & Hv' & Hq').
       erewrite stbind_step by exact E. exists false, s', ext. split; [done|]. split; [done|]. split; [done|]. do 4 right. intros i Hi Hrun. apply (Hno i); [lia|]. eapply run_of_sub; [exact Hrun|lia|lia]. }
  destruct Hr as (i & -> & Hi & Hrun & Hmk & Hfirst).
  assert (Hli : loose ext s2 i).
  { split; [rewrite L2, Hd1; lia|]. split; [rewrite Hmk, marked_lookup by (rewrite (bits_length _ _ _ _ _ Hv); lia); rewrite decide_True; [done|unfold in_ext; cbn; lia]|]. intros a e Hae Hin. eapply (free_unused k rd ext M s Hv a e i 1 i Hae Hrun Hin). unfold in_ext. cbn. lia. }
  assert (Hi0 : i <> 0%nat) by (intros ->; destruct Hli as (_ & _ & Hl); apply (Hl FmInode (0, 1)%nat); [apply Hv|unfold in_ext; cbn; lia]).
  destruct (create_inode_in k rd ext M ip s2 i len O2 Hli Hlen Hlim) as (r2 & s3 & E3 & O3 & R3 & L3 & C3 & Ln3 & Hr2).
  assert (Hrel : forall s4, in_root k rd ext M ip s4 -> same_rest s1 s4 -> loose ext s4 i -> exists s', ((if negb false && negb (Z.of_nat i =? 0) then free_map_release (Z.of_nat i) 1 else mret tt);; dir_close (Some (MkDir ip 0));; mret false) s4 = Ok (false, s') /\ inv k rd ext M s' /\ quiet k s').
  { intros s4 O4 R4 L4. rewrite (proj2 (Z.eqb_neq (Z.of_nat i) 0)) by lia. cbn [negb andb]. destruct (release_in k rd ext M ip s4 i O4 L4) as (s5 & E5 & O5 & R5). erewrite stbind_step by exact E5.
    destruct (Hend s5 ext M O5 (same_rest_trans _ _ _ R4 R5)) as (s' & E & Hv' & Hq'). exists s'. split; [by erewrite stbind_step by exact E|done]. }
  destruct r2.
  - destruct Hr2 as (st & Hst & Hx & Hz & Hdx). destruct (add_in junk k rd ext M ip s3 nm i st len O3 Hnm Hj L3 Hlen Hlim ltac:(lia) Hx Hz Hdx) as (r3 & s4 & E4 & R4 & Hr3).
    erewrite stbind_step by (erewrite stbind_step by exact E2; cbv beta iota; erewrite stbind_step by exact E3; cbv beta iota; erewrite stbind_step by exact E4; reflexivity). cbv beta iota. pose proof (same_rest_trans _ _ _ R2 (same_rest_trans _ _ _ R3 R4)) as R14. destruct r3.
    + destruct Hr3 as (O4 & H1 & H2 & H3). cbn [negb andb]. erewrite stbind_step by reflexivity. destruct (Hend s4 _ _ O4 R14) as (s' & E & Hv' & Hq'). erewrite stbind_step by exact E. exists true, s', (with_file ext nm i st (sectors_of len)). done.
    + destruct Hr3 as (O4 & L4 & Hwhy). destruct (Hrel s4 O4 R14 L4) as (s' & E & Hv' & Hq'). exists false, s', ext. split; [exact E|]. split; [done|]. split; [done|].
      destruct Hwhy as [?|[?|[?|Hfull]]]; [by left|by right; left|by do 2 right; left|]. do 3 right. left. intros e He. apply Hfull. rewrite C3, C2. unfold contents, disk in *. by rewrite Hd1.
  - erewrite stbind_step by (erewrite stbind_step by exact E2; cbv beta iota; erewrite stbind_step by exact E3; reflexivity). cbv beta iota. destruct (Hrel s3 O3 (same_rest_trans _ _ _ R2 R3) L3) as (s' & E & Hv' & Hq'). exists false, s', ext. split; [exact E|]. split; [done|]. split; [done|].
    do 4 right. intros j Hjl Hjr. assert (i <= j)%nat by (destruct (decide (j < i)%nat) as [Hlt|]; [|lia]; destruct (Hfirst j Hlt); eapply run_of_sub; [exact Hjr|lia|lia]).
    assert (Hsub : forall j', (i < j')%nat -> (j <= j')%nat -> (j' + sectors_of len <= j + S (sectors_of len))%nat -> run_of (babs (free_map s2)) j' (sectors_of len) false).
    { intros j' H1 H2 H3. apply lookup_run_of. intros x Hx. rewrite Hmk, marked_lookup by (rewrite (bits_length _ _ _ _ _ Hv); lia). rewrite decide_False by (unfold in_ext; cbn; lia). apply (run_of_lookup _ _ _ _ _ Hjr). lia. }
    destruct (decide (i = j)) as [->|Hne]; [apply (Hr2 (S j)); [rewrite L2, Hd1; lia|apply Hsub; lia]|apply (Hr2 j); [rewrite L2, Hd1; lia|apply Hsub; lia]].
Qed.

(** ** Open files *)

Section Data.
Context (k : inode) (rd : inode_disk) (ext : layout) (M : gmap (list Z) (list Z)) (s s' : fs) (Hv : inv k rd ext M s) (nm : list Z) (sec : Z) (id : inode_disk)
  (Hn : names s rd !! nm = Some sec) (Hat : file_at s ext nm sec id)
  (Hf : frames (in_ext (ext_of (opened sec id))) s s') (Hw : dev_wf s') (Hfm : free_map s' = free_map s) (Hmo : map_open s' k).

(** Writing to a file changes its contents only. *)
Lemma inv_data : inv k rd ext (<[nm := contents s' (opened sec id)]> M) s' /\ names s' rd = names s rd /\ file_at s' ext nm sec id.
Proof.
  pose proof Hf as [Hl Hd]. pose proof Hat as (F1 & F2 & F3 & F4 & F5).
  assert (Ho : forall a e x, ext a = Some e -> a <> FData nm -> in_ext e x -> ~ in_ext (ext_of (opened sec id)) x).
  { intros a e x Ha Hne Hx Hx'. apply Hne. by eapply (v_disj _ _ _ _ _ Hv). }
  assert (Hroot : contents s' (root rd) = contents s (root rd)) by (eapply (contents_kept k rd ext M s Hv); [done|exact Hf|apply Hv|apply Hv|]; intros x; eapply Ho; [apply Hv|done]).
  assert (Hfile : forall nm' sec' id', file_at s ext nm' sec' id' -> file_at s' ext nm' sec' id').
  { intros nm' sec' id' (B1 & B2 & B3 & B4 & B5). split; [done|]. split; [done|]. split; [|done]. rewrite Hd; [done|]. eapply (Ho (FInode nm')); [exact B2|done|]. unfold in_ext. cbn. lia. }
  split; [|split; [unfold names; by rewrite Hroot|by apply Hfile]]. constructor; try done; try apply Hv.
  - rewrite Hfm, Hl. apply Hv.
  - rewrite Hd; [apply Hv|]. eapply (Ho DirInode); [apply Hv|done|]. unfold in_ext. cbn. lia.
  - rewrite Hl, Hfm. apply Hv.
  - rewrite Hroot. apply Hv.
  - unfold names. rewrite Hroot. intros nm' sec' Hn'. destruct (v_file _ _ _ _ _ Hv nm' sec' Hn') as (id' & Hat' & HM). exists id'. split; [by apply Hfile|]. destruct (decide (nm = nm')) as [<-|Hne].
    + rewrite lookup_insert_eq. unfold names in Hn. rewrite Hn in Hn'. injection Hn' as <-. by rewrite (file_unique ext s nm sec id' id).
    + rewrite lookup_insert_ne by done. rewrite HM. f_equal. symmetry. pose proof Hat' as (_ & _ & _ & B4 & B5). eapply (contents_kept k rd ext M s Hv); [done|exact Hf|exact B5|exact B4|]. intros x. eapply (Ho (FData nm')); [exact B4|congruence].
  - unfold names. rewrite Hroot. intros nm' Hn'. destruct (decide (nm = nm')) as [<-|Hne]; [unfold names in Hn; congruence|]. rewrite lookup_insert_ne by done. by apply (v_none _ _ _ _ _ Hv).
Qed.

End Data.

(** A file is open, and nothing else but the free map. *)
Record in_file (k : inode) (rd : inode_disk) (ext : layout) (M : gmap (list Z) (list Z)) (nm : list Z) (sec : Z) (id : inode_disk) (fip : Z) (f : file) (ip fp pos : Z) (s : fs) : Prop := {
  l_inv : inv k rd ext M s;
  l_table : table_ok s;
  l_name : names s rd !! nm = Some sec;
  l_at : file_at s ext nm sec id;
  l_inodes : inodes s = <[ip := opened sec id]> {[ fip := k ]};
  l_files : files s = <[fp := MkFile ip pos false]> {[ free_map_file s := f ]};
  l_map : f_inode f = fip;
  l_ip : ip <> fip;
  l_fp : fp <> free_map_file s /\ fp <> 0;
  l_addr : free_map_file s < next_addr s
}.

Lemma lookup_in_root k rd ext M ip s nm : in_root k rd ext M ip s -> valid_name nm ->
  exists m, Forall (fun b => b = true) m /\
    match names s rd !! nm with
    | Some sec => exists j e, lookup (MkDir ip 0) nm s = Ok (Some (e, Z.of_nat (j * 20)), with_mallocs s m) /\ entries (contents s (root rd)) !! j = Some e /\ matches nm e /\ e_inode_sector e = sec
    | None => lookup (MkDir ip 0) nm s = Ok (None, with_mallocs s m)
    end.
Proof. intros Ho Hn. destruct (in_root_dir _ _ _ _ _ _ Ho) as [Hd Hm]. apply (lookup_exact s _ _ nm Hd Hm (v_dir _ _ _ _ _ (o_inv _ _ _ _ _ _ Ho)) Hn). Qed.

(** The inode of a file is neither the free map's nor the directory's. *)
Lemma file_sector k rd ext M s nm sec id : inv k rd ext M s -> file_at s ext nm sec id -> sec <> FREE_MAP_SECTOR /\ sec <> ROOT_DIR_SECTOR /\ (Z.to_nat sec < length (dev s))%nat.
Proof.
  intros Hv (F1 & F2 & F3 & _). split; [|split; [|by eapply lookup_lt_Some]]; intros ->.
  - assert (FInode nm = FmInode) by (eapply (v_disj _ _ _ _ _ Hv _ _ 0%nat); [exact F2|apply Hv|unfold in_ext, FREE_MAP_SECTOR, ROOT_DIR_SECTOR; cbn; lia..]). done.
  - assert (FInode nm = DirInode) by (eapply (v_disj _ _ _ _ _ Hv _ _ 1%nat); [exact F2|apply Hv|unfold in_ext, FREE_MAP_SECTOR, ROOT_DIR_SECTOR; cbn; lia..]). done.
Qed.

Lemma in_root_mallocs k rd ext M ip s m : in_root k rd ext M ip s -> Forall (fun b => b = true) m -> in_root k rd ext M ip (with_mallocs s m).
Proof.
  intros [Hv Ht Hr Ha] Hm. constructor; [|by apply (table_ok_ext s)|done|done]. eapply inv_same; [exact Hv|done|]. destruct (v_map _ _ _ _ _ Hv) as (_ & (f & Hf & Hi & _) & _). by exists f.
Qed.

(** Opening a file's inode while the directory is open. *)
Lemma open_inode_in k rd ext M ip s0 s nm sec id : in_root k rd ext M ip s -> quiet k s0 -> inodes s0 !! ip = None -> inodes s = <[ip := root rd]> (inodes s0) -> file_at s ext nm sec id ->
  exists s' ip', inode_open sec s = Ok (ip', s') /\ in_root k rd ext M ip s' /\ ip' <> 0 /\ ip' <> ip /\ inodes s0 !! ip' = None /\ inodes s' = <[ip' := opened sec id]> (inodes s) /\ same_disk s s' /\ files s' = files s.
Proof.
  intros Ho Hq Hip Hi Hat. pose proof Ho as [Hv Ht Hr Ha]. destruct (file_sector _ _ _ _ _ _ _ _ Hv Hat) as (N0 & N1 & Hlt). pose proof Hat as (F1 & F2 & F3 & _). pose proof Hq as [_ (fip & f & Hq1 & Hq2 & Hq3) _].
  destruct (inode_open_miss s sec _ Ht (proj2 (proj2 (proj2 (v_map _ _ _ _ _ Hv)))) ltac:(lia) F3) as (s' & E & T & D & F & N & Hn & I1).
  { intros jp j Hj. rewrite Hi in Hj. apply lookup_insert_Some in Hj as [[<- <-]|[_ Hj]]; [cbn; congruence|]. rewrite Hq1 in Hj. apply lookup_singleton_Some in Hj as [_ <-]. rewrite (v_sector _ _ _ _ _ Hv). congruence. }
  rewrite (file_disk _ _ nm sec id Hat) in I1. pose proof Hn as Hn'. rewrite Hi in Hn. apply lookup_insert_None in Hn as [Hn Hne]. exists s', (next_addr s). split; [done|]. pose proof D as (_ & _ & D3 & _). split; [|split; [destruct Ht as (_ & _ & _ & _ & ?); lia|done]].
  assert (Hmf : map_file k s') by (destruct (v_map _ _ _ _ _ Hv) as (_ & (g & Hg & Hgi & _) & _); exists g; rewrite F, D3, I1, lookup_insert_ne; [done|congruence]).
  constructor; [by eapply inv_same|done|rewrite I1, lookup_insert_ne by congruence; done|rewrite D3, N; lia].
Qed.

Lemma open_missing k rd ext M s nm : inv k rd ext M s -> quiet k s -> valid_name nm -> M !! nm = None ->
  exists s', filesys_open nm s = Ok (0, s') /\ inv k rd ext M s' /\ quiet k s'.
Proof.
  intros Hv Hq Hn HM. unfold filesys_open. destruct (open_root_in k rd ext M s Hv Hq) as (s1 & ip & E1 & O1 & F1 & N1 & I1 & M1 & D1). erewrite stbind_step by exact E1. clear E1.
  destruct (lookup_in_root k rd ext M ip s1 nm O1 Hn) as (m & Hm & Hl). destruct (names s1 rd !! nm) as [sec|] eqn:En.
  { destruct (v_file _ _ _ _ _ (o_inv _ _ _ _ _ _ O1) nm sec En) as (id & _ & HM'). congruence. }
  erewrite stbind_step by (erewrite stbind_step by (unfold dir_lookup; erewrite stbind_step by exact Hl; reflexivity); reflexivity). cbn [snd].
  destruct (end_root k rd ext M ip s (with_mallocs s1 m) Hq N1 (in_root_mallocs _ _ _ _ _ _ m O1 Hm) F1 I1 M1) as (s2 & E2 & Hv2 & Hq2). erewrite stbind_step by exact E2.
  unfold file_open. destruct (malloc_true s2 (proj2 (proj2 (proj2 (v_map _ _ _ _ _ Hv2))))) as (m2 & Em & Hm2). erewrite stbind_step by exact Em. cbn [Z.eqb negb andb]. eexists. split; [reflexivity|]. split.
  - eapply inv_same; [exact Hv2|done|]. by apply (quiet_map_file k s2).
  - destruct Hq2 as [T Q A]. constructor; [by apply (table_ok_ext s2)|done|done].
Qed.

Lemma open_found k rd ext M s nm c : inv k rd ext M s -> quiet k s -> valid_name nm -> M !! nm = Some c ->
  exists s' sec id fip f ip fp, filesys_open nm s = Ok (fp, s') /\ in_file k rd ext M nm sec id fip f ip fp 0 s' /\ contents s' (opened sec id) = c.
Proof.
  intros Hv Hq Hn HM. unfold filesys_open. destruct (open_root_in k rd ext M s Hv Hq) as (s1 & ip & E1 & O1 & F1 & N1 & I1 & M1 & D1). erewrite stbind_step by exact E1. clear E1.
  destruct (lookup_in_root k rd ext M ip s1 nm O1 Hn) as (m & Hm & Hl). destruct (names s1 rd !! nm) as [sec|] eqn:En; [|by rewrite (v_none _ _ _ _ _ (o_inv _ _ _ _ _ _ O1) nm En) in HM].
  destruct Hl as (j & e & El & Hj & Hme & Hse). destruct (v_file _ _ _ _ _ (o_inv _ _ _ _ _ _ O1) nm sec En) as (id & Hat & HM'). pose proof (in_root_mallocs _ _ _ _ _ _ m O1 Hm) as O2.
  destruct (open_inode_in k rd ext M ip s (with_mallocs s1 m) nm sec id O2 Hq N1 I1 Hat) as (s3 & ip' & E3 & O3 & Nz & Ni & Nn & I3 & D3 & F3).
  erewrite stbind_step by (erewrite stbind_step by (unfold dir_lookup; erewrite stbind_step by exact El; cbv beta iota; rewrite Hse; erewrite stbind_step by exact E3; reflexivity); reflexivity). cbn [snd].
  pose proof Hq as [Tq (fip & f & Hq1 & Hq2 & Hq3) Aq]. assert (Hip : ip <> fip) by (intros ->; by rewrite Hq1, lookup_singleton_eq in N1). assert (Hip' : ip' <> fip) by (intros ->; by rewrite Hq1, lookup_singleton_eq in Nn).
  pose proof D3 as (D3a & D3b & D3c & D3d). cbn in D3a, D3b, D3c, F3, I3. rewrite I1, Hq1 in I3.
  assert (Hdel : delete ip (inodes s3) = <[ip' := opened sec id]> {[ fip := k ]}).
  { rewrite I3, delete_insert_ne by congruence. rewrite delete_insert_id; [done|]. by rewrite lookup_singleton_ne. }
  destruct (close_root k rd ext M ip s3 O3) as (s4 & E4 & Hv4 & T4 & F4 & I4 & M4 & N4 & D4).
  { exists f. cbn. rewrite F3, F1, D3c, M1, Hq2, lookup_singleton_eq, Hdel, Hq3, lookup_insert_ne, lookup_singleton_eq by done. done. }
  erewrite stbind_step by exact E4. unfold file_open. destruct (malloc_true s4 (proj2 (proj2 (proj2 (v_map _ _ _ _ _ Hv4))))) as (m2 & Em & Hm2). erewrite stbind_step by exact Em. rewrite (proj2 (Z.eqb_neq ip' 0)) by done. cbn [negb andb].
  erewrite stbind_step by reflexivity. erewrite stbind_step by reflexivity. cbn [next_addr with_mallocs].
  assert (Hfm4 : free_map_file s4 = free_map_file s) by congruence. pose proof (o_addr _ _ _ _ _ _ O3) as A3. assert (0 < next_addr s4) by apply T4. assert (Hnf : next_addr s4 <> free_map_file s) by (rewrite <- Hfm4; pose proof A3; rewrite N4, M4; lia).
  match goal with |- exists _ _ _ _ _ _ _, mret _ ?st = _ /\ _ => set (s5 := st) end. exists s5, sec, id, fip, f, ip', (next_addr s4). split; [done|].
  assert (Hd5 : dev s5 = dev s1) by (cbn; destruct D4 as (Q & _); rewrite Q; exact D3a). assert (Hc : forall i, contents s5 i = contents s1 i) by (intros i; unfold contents, disk; by rewrite Hd5).
  split; [|rewrite Hc; congruence]. constructor.
  - eapply inv_same; [exact Hv4|by destruct D4 as (? & ? & ? & ?)|]. exists f. cbn. rewrite F4, F3, F1, Hfm4, Hq2, lookup_insert_ne by done. rewrite lookup_singleton_eq, I4, Hdel, Hq3, lookup_insert_ne, lookup_singleton_eq by done. done.
  - destruct T4 as (T41 & T42 & T43 & T44 & T45). split; [done|]. split; [done|]. split; [|split; [done|cbn; lia]]. cbn. intros jp j' Hj'. destruct (T43 jp j' Hj'). lia.
  - unfold names. rewrite Hc. exact En.
  - destruct Hat as (B1 & B2 & B3 & B4 & B5). split; [done|]. split; [done|]. split; [by rewrite Hd5|done].
  - cbn. by rewrite I4, Hdel.
  - cbn. rewrite F4, F3, F1, Hq2. cbn in Hfm4. by rewrite Hfm4.
  - done.
  - done.
  - cbn. split; [congruence|lia].
  - cbn. rewrite M4, N4. lia.
Qed.

Section Session.
Context (k : inode) (rd : inode_disk) (ext : layout) (nm : list Z) (sec : Z) (id : inode_disk) (fip : Z) (f : file) (ip fp : Z).

#[local] Abbreviation in_file M pos s := (in_file k rd ext M nm sec id fip f ip fp pos s).

Lemma get_open M pos s : in_file M pos s -> get_file fp s = Ok (MkFile ip pos false, s) /\ inodes s !! ip = Some (opened sec id).
Proof. intros [Hv T Hn Hat Hi Hf Hm Hip Hfp Ha]. split; [apply get_file_Ok; by rewrite Hf, lookup_insert_eq|by rewrite Hi, lookup_insert_eq]. Qed.

Lemma set_pos M pos pos' s : in_file M pos s -> in_file M pos' (with_files s (<[fp := MkFile ip pos' false]> (files s))).
Proof.
  intros [Hv T Hn Hat Hi Hf Hm Hip [Hfp1 Hfp2] Ha]. constructor; cbn; try done; [|by rewrite Hf, insert_insert_eq]. eapply inv_same; [exact Hv|split; [done|]; split; [done|]; split; [done|]; apply Hv|].
  exists f. cbn. rewrite Hf, insert_insert_eq, lookup_insert_ne, lookup_singleton_eq by done. rewrite Hi, Hm, lookup_insert_ne, lookup_singleton_eq by done. done.
Qed.

Lemma seek_ok M pos s pos' : in_file M pos s -> 0 <= pos' -> exists s', file_seek fp pos' s = Ok (tt, s') /\ in_file M pos' s' /\ contents s' (opened sec id) = contents s (opened sec id).
Proof.
  intros Ho Hp. destruct (get_open M pos s Ho) as [Hg _]. unfold file_seek. erewrite stbind_step by (apply assertM_true; rewrite (proj2 (Z.eqb_neq fp 0)); [done|apply Ho]). erewrite stbind_step by (apply assertM_true; by apply Z.leb_le).
  erewrite stbind_step by exact Hg. eexists. split; [reflexivity|]. split; [by eapply set_pos|done].
Qed.

Lemma in_file_mallocs M pos s m : in_file M pos s -> Forall (fun b => b = true) m -> in_file M pos (with_mallocs s m).
Proof.
  intros [Hv T Hn Hat Hi Hf Hm Hip Hfp Ha] Hmm. constructor; try done. eapply inv_same; [exact Hv|done|]. destruct (v_map _ _ _ _ _ Hv) as (_ & (g & Hg & Hgi & _) & _). by exists g.
Qed.

Lemma avail_take s pos size : inode_ok s (opened sec id) -> 0 <= pos -> 0 <= size -> take (avail (opened sec id) size pos) (drop (Z.to_nat pos) (contents s (opened sec id))) = take (Z.to_nat size) (drop (Z.to_nat pos) (contents s (opened sec id))).
Proof.
  intros Hok Hp Hs. pose proof (length_contents s _ Hok) as Hl. apply list_eq. intros j. rewrite !lookup_take. unfold avail. destruct (decide (j < Z.to_nat size)%nat); [|rewrite decide_False by lia; done].
  case_decide; [done|]. symmetry. apply lookup_ge_None_2. rewrite length_drop. lia.
Qed.

Lemma read_ok M pos s size : in_file M pos s -> 0 <= pos -> is_s32 pos -> 0 <= size ->
  let bs := take (Z.to_nat size) (drop (Z.to_nat pos) (contents s (opened sec id))) in
  exists s', file_read fp size s = Ok (bs, s') /\ in_file M (s32 (pos + Z.of_nat (length bs))) s' /\ contents s' (opened sec id) = contents s (opened sec id).
Proof.
  intros Ho Hp Hp2 Hs bs. destruct (get_open M pos s Ho) as [Hg Hi]. unfold file_read. erewrite stbind_step by exact Hg. pose proof (file_ok _ _ _ _ _ (l_inv _ _ _ _ _ _ _ _ _ _ _ _ _ Ho) _ _ _ (l_at _ _ _ _ _ _ _ _ _ _ _ _ _ Ho)) as Hok.
  destruct (inode_read_at_spec s ip (opened sec id) size pos Hi Hok Hp Hp2) as (n & m & E & _ & Hm). destruct Hm as [-> Hm]; [apply (l_inv _ _ _ _ _ _ _ _ _ _ _ _ _ Ho)|]. rewrite avail_take in E by done.
  cbn [f_inode f_pos]. erewrite stbind_step by exact E. erewrite stbind_step by reflexivity. eexists. split; [reflexivity|]. split; [|done]. eapply set_pos, in_file_mallocs; [exact Ho|exact Hm].
Qed.

Lemma write_ok M pos s buffer : in_file M pos s -> 0 <= pos -> is_s32 pos ->
  let n := avail (opened sec id) (Z.of_nat (length buffer)) pos in
  let c := list_inserts (Z.to_nat pos) (take n buffer) (contents s (opened sec id)) in
  exists s', file_write fp buffer (Z.of_nat (length buffer)) s = Ok (Z.of_nat n, s') /\
    in_file (<[nm := c]> M) (s32 (pos + Z.of_nat n)) s' /\ contents s' (opened sec id) = c.
Proof.
  intros Ho Hp Hp2 n c. destruct (get_open M pos s Ho) as [Hg Hi]. pose proof Ho as [Hv T Hn Hat Hin Hf Hm Hip Hfp Ha]. unfold file_write. erewrite stbind_step by exact Hg. pose proof (file_ok _ _ _ _ _ Hv _ _ _ Hat) as Hok. cbn [f_inode f_pos].
  destruct (write_exact s ip (opened sec id) buffer (Z.of_nat (length buffer)) pos Hi Hok Hp Hp2) as (s1 & E1 & R1 & M1 & Mo1 & W1 & F1 & C1); [unfold avail; lia|done|apply Hv|]. erewrite stbind_step by exact E1. erewrite stbind_step by reflexivity.
  pose proof R1 as (R1a & R1b & R1c & R1d & R1e). pose proof F1 as [L1 _]. assert (Hmf : map_file k s1).
  { exists f. rewrite R1c, R1e, Hf, lookup_insert_ne, lookup_singleton_eq by (by destruct Hfp). rewrite R1a, Hin, Hm, lookup_insert_ne, lookup_singleton_eq by done. done. }
  assert (Hmo : map_open s1 k) by (eapply map_open_again; [apply Hv|done|done|rewrite M1; apply Hv|by rewrite M1|done|done|done]).
  destruct (inv_data k rd ext M s s1 Hv nm sec id Hn Hat F1 W1 M1 Hmo) as (Hv1 & Hn1 & Hat1). rewrite C1 in Hv1. fold n in Hv1. eexists. split; [reflexivity|].
  split; [|exact C1]. eapply set_pos. constructor; [done|by apply (table_ok_ext s)|by rewrite Hn1|done|by rewrite R1a|by rewrite R1c, R1e|done|done|by rewrite R1e|by rewrite R1d, R1e].
Qed.

Lemma close_ok M pos s : in_file M pos s -> exists s', file_close fp s = Ok (tt, s') /\ inv k rd ext M s' /\ quiet k s'.
Proof.
  intros Ho. destruct (get_open M pos s Ho) as [Hg Hi]. pose proof Ho as [Hv T Hn Hat Hin Hf Hm Hip [Hfp1 Hfp2] Ha]. unfold file_close. rewrite (proj2 (Z.eqb_neq fp 0)) by done.
  erewrite stbind_step by (unfold file_allow_write; erewrite stbind_step by (apply assertM_true; by rewrite (proj2 (Z.eqb_neq fp 0))); erewrite stbind_step by exact Hg; reflexivity). erewrite stbind_step by exact Hg. cbn [f_inode].
  destruct (inode_close_exact s ip (opened sec id) T (proj2 (proj2 (proj2 (v_map _ _ _ _ _ Hv)))) Hi eq_refl eq_refl) as (s1 & E1 & T1 & D1 & F1 & N1 & I1). erewrite stbind_step by exact E1. pose proof D1 as (D1a & D1b & D1c & D1d).
  assert (Hdel : delete ip (inodes s) = {[ fip := k ]}) by (rewrite Hin; apply delete_insert_id; by rewrite lookup_singleton_ne). assert (Hdf : delete fp (files s) = {[ free_map_file s := f ]}) by (rewrite Hf; apply delete_insert_id; by rewrite lookup_singleton_ne).
  eexists. split; [reflexivity|]. cbn. assert (Hmf : map_file k (with_files s1 (delete fp (files s1)))) by (exists f; cbn; rewrite F1, Hdf, D1c, lookup_singleton_eq, I1, Hdel, Hm, lookup_singleton_eq; done). split.
  - eapply inv_same; [exact Hv|done|exact Hmf].
  - constructor; [by apply (table_ok_ext s1)|exists fip, f; cbn; rewrite I1, Hdel, F1, Hdf, D1c; done|cbn; by rewrite D1c, N1].
Qed.

End Session.

(** ** Removing *)

Definition without_file (ext : layout) (nm : list Z) : layout := fun a => if decide (a = FInode nm \/ a = FData nm) then None else ext a.

Lemma without_file_Some ext nm a e : without_file ext nm a = Some e -> ext a = Some e /\ a <> FInode nm /\ a <> FData nm.
Proof. unfold without_file. case_decide as Hd; [done|]. intros E. split; [done|]. naive_solver. Qed.

(** The sectors of the file are loose when its entry is gone. *)
Lemma gone_loose k rd ext M s nm sec id : inv k rd ext M s -> file_at s ext nm sec id ->
  loose (without_file ext nm) s (Z.to_nat sec) /\ (forall y, in_ext (ext_of (opened sec id)) y -> loose (without_file ext nm) s y) /\ ~ in_ext (ext_of (opened sec id)) (Z.to_nat sec).
Proof.
  intros Hv (F1 & F2 & F3 & F4 & F5). assert (Hl : forall b eb y, (b = FInode nm \/ b = FData nm) -> ext b = Some eb -> in_ext eb y -> loose (without_file ext nm) s y).
  { intros b eb y Hb Heb Hy. destruct (v_used _ _ _ _ _ Hv b eb Heb) as [Hle Hr]. split; [unfold in_ext in Hy; lia|]. split; [by apply (run_of_lookup _ _ _ _ _ Hr)|].
    intros a e Hae Hin. apply without_file_Some in Hae as (Hae & N1 & N2). assert (a = b) by (by eapply (v_disj _ _ _ _ _ Hv)). naive_solver. }
  assert (Hin : in_ext (Z.to_nat sec, 1%nat) (Z.to_nat sec)) by (unfold in_ext; cbn; lia). split; [by eapply (Hl (FInode nm)); [left|..]|]. split; [intros y; eapply (Hl (FData nm)); [by right|done]|].
  intros Hin2. assert (FInode nm = FData nm) by (eapply (v_disj _ _ _ _ _ Hv); [exact F2|exact F4|exact Hin|exact Hin2]). done.
Qed.

Lemma names_removed s s' rd j e nm sec : dir_wf (entries (contents s (root rd))) -> entries (contents s (root rd)) !! j = Some e -> matches nm e -> names s rd !! nm = Some sec ->
  entries (contents s' (root rd)) = <[j := set_in_use e false]> (entries (contents s (root rd))) -> dir_wf (entries (contents s' (root rd))) /\ names s' rd = delete nm (names s rd).
Proof.
  intros Hwf Hj [Hu Hn] Hs He. destruct (proj1 Hwf j e Hj) as [H20 _]. destruct (clear_entry_spec e H20) as [Hc Hcu]. destruct (dirmap_remove _ j e (set_in_use e false) Hwf Hj Hu Hc Hcu) as [Hwf' Hmap]. unfold names. rewrite He. split; [done|]. by rewrite Hmap, Hn.
Qed.

(** Clearing the entry of a file. *)
Lemma clear_in k rd ext M ip s nm sec id j e : in_root k rd ext M ip s -> names s rd !! nm = Some sec -> file_at s ext nm sec id -> entries (contents s (root rd)) !! j = Some e -> matches nm e ->
  exists s', inode_write_at ip (set_in_use e false) sizeof_dir_entry (Z.of_nat (j * 20)) s = Ok (sizeof_dir_entry, s') /\ same_rest s s' /\ length (dev s') = length (dev s) /\
    in_root k rd (without_file ext nm) (delete nm M) ip s' /\
    loose (without_file ext nm) s' (Z.to_nat sec) /\ (forall y, in_ext (ext_of (opened sec id)) y -> loose (without_file ext nm) s' y).
Proof.
  intros Ho Hn Hat Hj Hme. pose proof Ho as [Hv Ht Hr Ha]. destruct (in_root_dir _ _ _ _ _ _ Ho) as [Hdir Hmo]. pose proof (v_dir _ _ _ _ _ Hv) as Hdw. destruct (proj1 Hdw j e Hj) as [H20 _]. destruct (clear_entry_spec e H20) as [Hc Hcu].
  pose proof (root_ok _ _ _ _ _ Hv) as Hrok. pose proof (length_contents s _ Hrok) as Hlc. pose proof (div20 (length (contents s (root rd)))) as H20'. pose proof (lookup_lt_Some _ _ _ Hj) as Hjl. rewrite length_entries in Hjl.
  destruct (v_rd _ _ _ _ _ Hv) as (G1 & G2 & G3 & G4). cbn [root opened data] in Hlc.
  destruct (write_entry s (MkDir ip 0) (root rd) (set_in_use e false) j Hdir Hmo Hc ltac:(lia)) as (n & s' & E & Hd' & Hm' & _ & _ & _ & _ & _ & Hcase). rewrite Hj in Hcase. destruct Hcase as [-> Hes]. cbn [d_inode] in E.
  destruct (write_exact s ip (root rd) (set_in_use e false) sizeof_dir_entry (Z.of_nat (j * 20)) Hr Hrok) as (s'' & E' & R & Hfm & Mo & W & F & _); [lia|unfold is_s32; lia|unfold avail, sizeof_dir_entry; lia|done|done|].
  rewrite E in E'. injection E' as _ <-. exists s'. split; [done|]. split; [done|]. pose proof F as [L Fd]. split; [done|].
  assert (Hmap' : map_open s' k) by (eapply map_open_again; [apply Hv|eapply map_file_rest; [by eapply in_root_file|done]|apply R|rewrite Hfm; apply Hv|by rewrite Hfm|done|done|done]).
  destruct (names_removed s s' rd j e nm sec Hdw Hj Hme Hn Hes) as [Hdw' Hn']. destruct (gone_loose k rd ext M s nm sec id Hv Hat) as (L1 & L2 & _).
  split; [|split; [by apply (loose_same _ s)|intros y Hy; apply (loose_same _ s); [done|done|by apply L2]]].
  destruct R as (R1 & R2 & R3 & R4 & R5). constructor; [|by apply (table_ok_ext s)|by rewrite R1|by rewrite R4, R5].
  eapply (inv_dir k rd ext M s s' Hv F W Hfm Hmap').
  - intros []; done.
  - intros a ea Hea. apply without_file_Some in Hea as (Hea & _ & _). by apply (v_used _ _ _ _ _ Hv a).
  - intros a b x ea eb Hea Heb. apply without_file_Some in Hea as (Hea & _ & _), Heb as (Heb & _ & _). by eapply (v_disj _ _ _ _ _ Hv).
  - done.
  - intros nm' sec' Hn2. rewrite Hn' in Hn2. apply lookup_delete_Some in Hn2 as [Hne Hn2]. destruct (v_file _ _ _ _ _ Hv nm' sec' Hn2) as (id' & Hat' & HM). destruct (file_kept k rd ext M s s' Hv F W nm' sec' id' Hat') as [(B1 & B2 & B3 & B4 & B5) Hcc].
    exists id'. split; [split; [done|]; unfold without_file; rewrite !decide_False by (intros []; congruence); done|]. rewrite lookup_delete_ne by done. by rewrite Hcc.
  - intros nm' Hn2. rewrite Hn' in Hn2. apply lookup_delete_None in Hn2 as [<-|Hn2]; [apply lookup_delete_eq|]. apply lookup_delete_None. right. by apply (v_none _ _ _ _ _ Hv).
Qed.

(** Closing the inode of a removed file returns its sectors. *)
Lemma close_removed k rd ext M ip s ip' sec id : in_root k rd ext M ip s -> ip' <> ip -> inodes s !! ip' = Some (MkInode sec 1 true 0 id) -> 0 <= sec -> good id -> map_file k (with_inodes s (delete ip' (inodes s))) ->
  loose ext s (Z.to_nat sec) -> (forall y, in_ext (ext_of (opened sec id)) y -> loose ext s y) -> ~ in_ext (ext_of (opened sec id)) (Z.to_nat sec) ->
  (Z.to_nat (start id) + sectors_of (length_ id) <= length (dev s))%nat ->
  exists s', inode_close ip' s = Ok (tt, s') /\ in_root k rd ext M ip s' /\ inodes s' = delete ip' (inodes s) /\ files s' = files s /\ free_map_file s' = free_map_file s.
Proof.
  intros Ho Hne Hi Hs0 (G1 & G2 & G3 & G4) (f & Hf & Hfi) L1 L2 Hdis Hle. pose proof Ho as [Hv Ht Hr Ha]. pose proof Ht as (_ & _ & Hcnt & _). destruct (Hcnt ip' _ Hi) as (Hip & _ & _). cbn in Hf, Hfi. unfold is_u32 in G1.
  assert (Hfne : f_inode f <> ip') by (intros E; by rewrite E, lookup_delete_eq in Hfi). rewrite lookup_delete_ne in Hfi by done.
  unfold inode_close. rewrite (proj2 (Z.eqb_neq ip' 0)) by lia. erewrite stbind_step by (by apply get_inode_Ok). cbn [sector open_cnt removed deny_write_cnt data]. erewrite stbind_step by reflexivity. change (1 - 1 =? 0) with true. cbv iota. erewrite stbind_step by reflexivity.
  match goal with |- context[with_open ?a ?b] => set (s1 := with_open a b) end.
  assert (Hv1 : inv k rd ext M s1) by (eapply inv_same; [exact Hv|split; [done|]; split; [done|]; split; [done|]; apply Hv|]; exists f; cbn; rewrite lookup_insert_ne by done; done).
  destruct (release_inv k rd ext M s1 (Z.to_nat sec) 1 Hv1) as (s2 & E2 & Hv2 & R2 & L2' & Hb2); [intros y Hy; unfold in_ext in Hy; cbn in Hy; by replace y with (Z.to_nat sec) by lia|destruct L1; cbn; lia|]. rewrite Z2Nat.id in E2 by done. change (Z.of_nat 1) with 1 in E2.
  assert (Hlo2 : forall y, in_ext (Z.to_nat (start id), sectors_of (length_ id)) y -> loose ext s2 y).
  { intros y Hy. destruct (L2 y Hy) as (A1 & A2 & A3). split; [by rewrite L2'|]. split; [|done]. rewrite Hb2. change (free_map s1) with (free_map s). rewrite marked_lookup by (rewrite (bits_length _ _ _ _ _ Hv); destruct L1; lia).
    rewrite decide_False; [done|]. unfold in_ext. cbn. intros Hyy. apply Hdis. by replace (Z.to_nat sec) with y by lia. }
  destruct (release_inv k rd ext M s2 (Z.to_nat (start id)) (sectors_of (length_ id)) Hv2 Hlo2) as (s3 & E3 & Hv3 & R3 & L3 & _); [rewrite L2'; exact Hle|]. rewrite Z2Nat.id, <- sectors_of_bytes in E3 by lia.
  erewrite stbind_step by (erewrite stbind_step by exact E2; exact E3). pose proof (same_rest_trans _ _ _ R2 R3) as (Q1 & Q2 & Q3 & Q4 & Q5). eexists. split; [reflexivity|].
  assert (Hin : delete ip' (inodes s3) = delete ip' (inodes s)) by (rewrite Q1; cbn; apply delete_insert_eq). split; [|split; [exact Hin|]; split; [exact Q3|exact Q5]].
  constructor; cbn.
  - eapply inv_same; [exact Hv3|split; [done|]; split; [done|]; split; [done|]; apply Hv3|]. exists f. cbn. rewrite Q3, Q5, Hin. cbn. by rewrite lookup_delete_ne.
  - eapply table_ok_ext; [..|apply (table_ok_delete s ip' Ht)]; cbn; [by rewrite Q2|done|by rewrite Q4].
  - rewrite Hin, lookup_delete_ne by done. done.
  - rewrite Q5, Q4. exact Ha.
Qed.

Lemma remove_ok k rd ext M s nm : inv k rd ext M s -> quiet k s -> valid_name nm ->
  exists s' ext', filesys_remove nm s = Ok (bool_decide (is_Some (M !! nm)), s') /\ inv k rd ext' (delete nm M) s' /\ quiet k s'.
Proof.
  intros Hv Hq Hn. unfold filesys_remove. destruct (open_root_in k rd ext M s Hv Hq) as (s1 & ip & E1 & O1 & F1 & N1 & I1 & M1 & D1). erewrite stbind_step by exact E1. clear E1.
  destruct (lookup_in_root k rd ext M ip s1 nm O1 Hn) as (m & Hm & Hl). pose proof (in_root_mallocs _ _ _ _ _ _ m O1 Hm) as O2. destruct (names s1 rd !! nm) as [sec|] eqn:En.
  - destruct Hl as (j & e & El & Hj & Hme & Hse). destruct (v_file _ _ _ _ _ (o_inv _ _ _ _ _ _ O1) nm sec En) as (id & Hat & HM'). rewrite bool_decide_true by (by eexists).
    destruct (open_inode_in k rd ext M ip s (with_mallocs s1 m) nm sec id O2 Hq N1 I1 Hat) as (s3 & ip' & E3 & O3 & Nz & Ni & Nn & I3 & D3 & F3). pose proof D3 as (D3a & D3b & D3c & D3d). cbn in D3a, D3b, D3c, F3, I3.
    assert (Hc3 : forall i, contents s3 i = contents s1 i) by (intros i; unfold contents, disk; by rewrite D3a). assert (Hat3 : file_at s3 ext nm sec id) by (destruct Hat as (B1 & B2 & B3 & B4 & B5); split; [done|]; split; [done|]; split; [by rewrite D3a|done]).
    destruct (clear_in k rd ext M ip s3 nm sec id j e O3) as (s4 & E4 & R4 & Fm4 & O4 & L4 & L4'); [unfold names; by rewrite Hc3|done|by rewrite Hc3|done|]. destruct R4 as (R4a & R4b & R4c & R4d & R4e).
    pose proof (gone_loose k rd ext M s3 nm sec id (o_inv _ _ _ _ _ _ O3) Hat3) as (_ & _ & Hdis). pose proof Hat3 as (B1 & B2 & B3 & B4 & B5).
    destruct (v_used _ _ _ _ _ (o_inv _ _ _ _ _ _ O3) _ _ B4) as [Hle _]. cbn [ext_of opened data fst snd] in Hle.
    set (s5 := with_inodes s4 (<[ip' := MkInode sec 1 true 0 id]> (inodes s4))).
    assert (Hi4 : inodes s4 !! ip' = Some (opened sec id)) by (by rewrite R4a, I3, lookup_insert_eq).
    pose proof Hq as [Tq (fip & f & Hq1 & Hq2 & Hq3) Aq]. assert (Hip' : ip' <> fip) by (intros ->; by rewrite Hq1, lookup_singleton_eq in Nn).
    assert (Hd5 : delete ip' (inodes s5) = <[ip := root rd]> (inodes s)) by (cbn; rewrite delete_insert_eq, R4a, I3, delete_insert_eq, I1, delete_insert_ne by congruence; rewrite delete_id by (by rewrite Hq1, lookup_singleton_ne); done).
    assert (Hfk : files s5 !! free_map_file s5 = Some f) by (cbn; rewrite R4c, F3, F1, R4e, D3c, M1, Hq2; apply lookup_singleton_eq).
    assert (Hip : ip <> fip) by (intros ->; by rewrite Hq1, lookup_singleton_eq in N1).
    assert (Hk5 : delete ip' (inodes s5) !! f_inode f = Some k) by (rewrite Hd5, Hq3, lookup_insert_ne, Hq1, lookup_singleton_eq by done; done).
    assert (O5 : in_root k rd (without_file ext nm) (delete nm M) ip s5).
    { destruct O4 as [V4 T4 Rt4 A4]. constructor; [|apply (table_ok_update s4 ip' (opened sec id)); cbn; (done || lia)|cbn; rewrite lookup_insert_ne by done; exact Rt4|exact A4].
      eapply inv_same; [exact V4|split; [done|]; split; [done|]; split; [done|]; apply V4|]. exists f. split; [exact Hfk|]. rewrite lookup_delete_ne in Hk5 by congruence. exact Hk5. }
    destruct (close_removed k rd (without_file ext nm) (delete nm M) ip s5 ip' sec id O5 Ni) as (s6 & E6 & O6 & I6 & F6 & M6); [cbn; apply lookup_insert_eq|done|done|exists f; split; [exact Hfk|exact Hk5]|done|done|done|cbn; by rewrite Fm4|].
    erewrite stbind_step.
    2: { unfold dir_remove. erewrite stbind_step by exact El. cbv beta iota. rewrite Hse. erewrite stbind_step by exact E3. rewrite (proj2 (Z.eqb_neq ip' 0)) by done. cbn [d_inode]. erewrite stbind_step by exact E4. rewrite Z.eqb_refl. cbn [negb].
         erewrite stbind_step by (unfold inode_remove; rewrite (proj2 (Z.eqb_neq ip' 0)) by done; erewrite stbind_step by reflexivity; erewrite stbind_step by (apply get_inode_Ok; exact Hi4); reflexivity). erewrite stbind_step by exact E6. reflexivity. }
    destruct (end_root k rd (without_file ext nm) (delete nm M) ip s s6 Hq N1 O6) as (s7 & E7 & V7 & Q7); [rewrite F6; cbn; congruence|by rewrite I6|rewrite M6; cbn; congruence|]. erewrite stbind_step by exact E7. exists s7, (without_file ext nm). done.
  - assert (HM : M !! nm = None) by (by apply (v_none _ _ _ _ _ (o_inv _ _ _ _ _ _ O1))). rewrite bool_decide_false by (rewrite HM; by intros []). rewrite delete_id by done.
    erewrite stbind_step by (unfold dir_remove; erewrite stbind_step by exact Hl; reflexivity). destruct (end_root k rd ext M ip s (with_mallocs s1 m) Hq N1 O2 F1 I1 M1) as (s2 & E2 & Hv2 & Hq2). erewrite stbind_step by exact E2. by exists s2, ext.
Qed.

(** A negative size reaches the assertion of inode_create, with the root directory open, unless no sector is free. *)
Lemma create_negative junk M s nm len : holds M s -> len < 0 -> ~ no_room s 0 -> filesys_create junk nm len s = Err EAssert.
Proof.
  intros (k & rd & ext & Hv & Hq) Hlen Hroom. unfold filesys_create. destruct (open_root_in k rd ext M s Hv Hq) as (s1 & ip & E1 & O1 & _ & _ & _ & _ & (Hd1 & Hfm1 & _)). erewrite stbind_step by exact E1.
  destruct (alloc_in k rd ext M ip s1 1 O1) as (r & s2 & E2 & _ & _ & _ & _ & Hr). change (Z.of_nat 1) with 1 in E2. rewrite Hd1, Hfm1 in Hr. destruct r as [sec|]; [|by destruct Hroom, Hr].
  apply stbind_err. erewrite stbind_step by exact E2. cbv beta iota. apply stbind_err. unfold inode_create. apply stbind_err. unfold assertM. by rewrite (proj2 (Z.leb_gt 0 len)) by lia.
Qed.

(** ** Programs *)

(** What a program does with files: each operation opens and closes what it uses. *)
Inductive fs_op :=
| Create (nm : list Z) (size : Z)
| Remove (nm : list Z)
| ReadAt (nm : list Z) (ofs size : Z)
| WriteAt (nm : list Z) (ofs : Z) (buffer : list Z).

Inductive fs_res := Success (b : bool) | Data (o : option (list Z)) | Count (o : option Z).

(** [junk] is the uninitialised local of dir_add. *)
Definition run_op (junk : list Z) (op : fs_op) : stM fs fs_res :=
  match op with
  | Create nm size => ok ← filesys_create junk nm size; mret (Success ok)
  | Remove nm => ok ← filesys_remove nm; mret (Success ok)
  | ReadAt nm ofs size =>
      fp ← filesys_open nm;
      if fp =? 0 then mret (Data None)
      else file_seek fp ofs;; bs ← file_read fp size; file_close fp;; mret (Data (Some bs))
  | WriteAt nm ofs buffer =>
      fp ← filesys_open nm;
      if fp =? 0 then mret (Count None)
      else file_seek fp ofs;; n ← file_write fp buffer (Z.of_nat (length buffer)); file_close fp;; mret (Count (Some n))
  end.

Definition ok_op (op : fs_op) : Prop :=
  match op with
  | Create nm size => valid_name nm /\ 0 <= size /\ size + 511 < 2 ^ 31
  | Remove nm => valid_name nm
  | ReadAt nm ofs size => valid_name nm /\ 0 <= ofs < 2 ^ 31 /\ 0 <= size
  | WriteAt nm ofs buffer => valid_name nm /\ 0 <= ofs < 2 ^ 31
  end.

Definition full (s : fs) : Prop := exists b, dev s !! 1%nat = Some b /\ dir_full s (inode_disk_of b).

(** What the operation means for the files [M]. *)
Definition spec_op (s : fs) (M : gmap (list Z) (list Z)) (op : fs_op) (r : fs_res) (M' : gmap (list Z) (list Z)) : Prop :=
  match op with
  | Create nm size =>
      (r = Success true /\ nm <> [] /\ (length nm <= 14)%nat /\ M !! nm = None /\ M' = <[nm := replicate (Z.to_nat size) 0]> M) \/
      (r = Success false /\ (nm = [] \/ (14 < length nm)%nat \/ is_Some (M !! nm) \/ full s \/ no_room s (sectors_of size)) /\ M' = M)
  | Remove nm => r = Success (bool_decide (is_Some (M !! nm))) /\ M' = delete nm M
  | ReadAt nm ofs size => r = Data ((fun c => take (Z.to_nat size) (drop (Z.to_nat ofs) c)) <$> M !! nm) /\ M' = M
  | WriteAt nm ofs buffer =>
      match M !! nm with
      | Some c => let n := Z.to_nat (Z.min (Z.of_nat (length buffer)) (Z.of_nat (length c) - ofs)) in
          r = Count (Some (Z.of_nat n)) /\ M' = <[nm := list_inserts (Z.to_nat ofs) (take n buffer) c]> M
      | None => r = Count None /\ M' = M
      end
  end.

Inductive runs (junk : list Z) : fs -> gmap (list Z) (list Z) -> list fs_op -> list fs_res -> fs -> gmap (list Z) (list Z) -> Prop :=
| runs_nil s M : runs junk s M [] [] s M
| runs_cons s M op r s1 M1 ops rs s' M' : run_op junk op s = Ok (r, s1) -> spec_op s M op r M1 -> runs junk s1 M1 ops rs s' M' -> runs junk s M (op :: ops) (r :: rs) s' M'.

Lemma run_op_ok junk op M s : length junk = 20%nat -> ok_op op -> holds M s -> exists r s' M', run_op junk op s = Ok (r, s') /\ spec_op s M op r M' /\ holds M' s'.
Proof.
  intros Hj Hok (k & rd & ext & Hv & Hq). destruct op as [nm size|nm|nm ofs size|nm ofs buffer]; cbn [ok_op run_op spec_op] in *.
  - destruct Hok as (Hn & H0 & Hlim). destruct (create_ok junk k rd ext M s nm size Hv Hq Hn Hj H0 Hlim) as (r & s' & ext' & E & Hq' & Hv' & Hr). exists (Success r), s', (if r then <[nm := replicate (Z.to_nat size) 0]> M else M). split; [by erewrite stbind_step by exact E|]. split; [|by exists k, rd, ext'].
    destruct r; [left; naive_solver|]. right. split; [done|]. split; [|done]. destruct Hr as [?|[?|[?|[Hfull|?]]]]; try tauto. do 3 right. left. exists (inode_disk_bytes rd). split; [apply Hv|]. by rewrite (root_disk _ _ _ _ _ Hv).
  - destruct (remove_ok k rd ext M s nm Hv Hq Hok) as (s' & ext' & E & Hv' & Hq'). do 3 eexists. split; [by erewrite stbind_step by exact E|]. split; [split; reflexivity|]. by exists k, rd, ext'.
  - destruct Hok as (Hn & Ho & Hs). destruct (M !! nm) as [c|] eqn:EM.
    + destruct (open_found k rd ext M s nm c Hv Hq Hn EM) as (s1 & sec & id & fip & f & ip & fp & E1 & Hf & Hc). erewrite stbind_step by exact E1. rewrite (proj2 (Z.eqb_neq fp 0)) by apply Hf.
      destruct (seek_ok k rd ext nm sec id fip f ip fp M 0 s1 ofs Hf ltac:(lia)) as (s2 & E2 & Hf2 & C2). erewrite stbind_step by exact E2. destruct (read_ok k rd ext nm sec id fip f ip fp M ofs s2 size Hf2 ltac:(lia) ltac:(unfold is_s32; lia) Hs) as (s3 & E3 & Hf3 & _). erewrite stbind_step by exact E3.
      destruct (close_ok k rd ext nm sec id fip f ip fp M _ s3 Hf3) as (s4 & E4 & Hv4 & Hq4). erewrite stbind_step by exact E4. do 3 eexists. split; [reflexivity|]. split; [split; [|reflexivity]; by rewrite C2, Hc|by exists k, rd, ext].
    + destruct (open_missing k rd ext M s nm Hv Hq Hn EM) as (s1 & E1 & Hv1 & Hq1). erewrite stbind_step by exact E1. do 3 eexists. split; [reflexivity|]. split; [split; reflexivity|]. by exists k, rd, ext.
  - destruct Hok as (Hn & Ho). destruct (M !! nm) as [c|] eqn:EM.
    + destruct (open_found k rd ext M s nm c Hv Hq Hn EM) as (s1 & sec & id & fip & f & ip & fp & E1 & Hf & Hc). erewrite stbind_step by exact E1. rewrite (proj2 (Z.eqb_neq fp 0)) by apply Hf.
      destruct (seek_ok k rd ext nm sec id fip f ip fp M 0 s1 ofs Hf ltac:(lia)) as (s2 & E2 & Hf2 & C2). erewrite stbind_step by exact E2. destruct (write_ok k rd ext nm sec id fip f ip fp M ofs s2 buffer Hf2 ltac:(lia) ltac:(unfold is_s32; lia)) as (s3 & E3 & Hf3 & _). erewrite stbind_step by exact E3.
      destruct (close_ok k rd ext nm sec id fip f ip fp _ _ s3 Hf3) as (s4 & E4 & Hv4 & Hq4). erewrite stbind_step by exact E4. do 3 eexists. split; [reflexivity|]. rewrite C2, Hc in Hv4.
      pose proof (length_contents _ _ (file_ok _ _ _ _ _ (l_inv _ _ _ _ _ _ _ _ _ _ _ _ _ Hf) _ _ _ (l_at _ _ _ _ _ _ _ _ _ _ _ _ _ Hf))) as Hlc. rewrite Hc in Hlc. destruct (l_at _ _ _ _ _ _ _ _ _ _ _ _ _ Hf) as (_ & _ & _ & _ & (_ & G2 & _)). cbn [opened data] in Hlc.
      unfold avail in *. cbn [opened data] in *. rewrite Hlc, (Z2Nat.id (length_ id)) by done. split; [split; reflexivity|]. by exists k, rd, ext.
    + destruct (open_missing k rd ext M s nm Hv Hq Hn EM) as (s1 & E1 & Hv1 & Hq1). erewrite stbind_step by exact E1. do 3 eexists. split; [reflexivity|]. split; [split; reflexivity|]. by exists k, rd, ext.
Qed.

(** ** Claim *)

(** C1. The file system is a map from names to contents: from any state with no file open (but the free map's) that holds the files [M], and when every allocation of kernel memory succeeds, every program of creations, removals, reads and writes, each of which opens and closes the file it uses, runs without panic and without fault, and each operation gives the result and the new map that names and contents alone prescribe; inodes, sectors, the free map and the directory never show. The sizes of creations are from 0 to 2^31 - 512 and the offsets of reads and writes from 0 to 2^31 - 1; there, and with memory, a creation fails only for a bad or used name, a full directory, or when there is no run of free sectors for the inode and the data. A creation with a negative size, which the system call passes on as it is, panics the kernel in every such state that has a free sector. *)
Theorem fs_refines junk ops M s : length junk = 20%nat -> Forall ok_op ops -> holds M s ->
  exists rs s' M', runs junk s M ops rs s' M' /\ holds M' s' /\ forall nm size, size < 0 -> ~ no_room s' 0 -> run_op junk (Create nm size) s' = Err EAssert.
Proof.
  intros Hj HF Hh. assert (Hr : exists rs s' M', runs junk s M ops rs s' M' /\ holds M' s').
  { revert M s Hh. induction HF as [|op ops Hok HF IH]; intros M s Hh; [exists [], s, M; split; [constructor|done]|].
    destruct (run_op_ok junk op M s Hj Hok Hh) as (r & s1 & M1 & E & Hs & Hh1). destruct (IH M1 s1 Hh1) as (rs & s' & M' & Hr & Hh'). exists (r :: rs), s', M'. split; [by econstructor|done]. }
  destruct Hr as (rs & s' & M' & Hr & Hh'). exists rs, s', M'. split; [done|]. split; [done|]. intros nm size Hn Hroom. cbn [run_op]. apply stbind_err. by eapply create_negative.
Qed.

(** ** A formatted device *)

Definition formatted_map : inode := MkInode 0 1 false 0 (MkInodeDisk 2 8 INODE_MAGIC).
Definition formatted_dir : inode_disk := MkInodeDisk 3 320 INODE_MAGIC.

(** The inodes of the free map and of the directory, the free map with four bits set, and the empty directory. *)
Definition formatted : fs :=
  MkFs ([inode_disk_bytes (data formatted_map); inode_disk_bytes formatted_dir; 15 :: replicate 511 0] ++ replicate 37 (replicate 512 0))
    {[ 3 := formatted_map ]} [3] {[ 4 := MkFile 3 0 false ]} 5 (mk_bitmap 40 [15; 0]) 4 [].

Example format_result : filesys_init true [0; 0] true boot_fs = Ok (tt, formatted).
Proof. vm_compute. reflexivity. Qed.

Definition formatted_ext : layout := fun a => match a with FmInode => Some (0, 1)%nat | FmData => Some (2, 1)%nat | DirInode => Some (1, 1)%nat | DirData => Some (3, 1)%nat | _ => None end.

Lemma formatted_wf : dev_wf formatted.
Proof.
  split; [|vm_compute; reflexivity]. apply Forall_forall. assert (E : forallb (fun b => (length b =? 512)%nat) (dev formatted) = true) by (vm_compute; reflexivity).
  rewrite forallb_forall in E. intros b Hb. apply Nat.eqb_eq, E, list_elem_of_In, Hb.
Qed.

Lemma formatted_names : names formatted formatted_dir = ∅ /\ forallb (fun e => (length e =? 20)%nat && negb (e_in_use e)) (entries (contents formatted (root formatted_dir))) = true.
Proof. split; vm_compute; reflexivity. Qed.

Lemma formatted_runs a e : formatted_ext a = Some e -> (e.1 + e.2 <= length (dev formatted))%nat /\ run_of (babs (free_map formatted)) e.1 e.2 true.
Proof. change (length (dev formatted)) with 40%nat. destruct a; intros E; cbn in E; simplify_eq; cbn [fst snd]; (split; [lia|vm_compute; reflexivity]). Qed.

Lemma formatted_open : map_open formatted formatted_map.
Proof.
  split; [|split; [|split; [discriminate|constructor]]].
  - split; [|split; [reflexivity|reflexivity]]. split; [cbn; unfold ELEM_BITS; lia|]. split; [discriminate|]. repeat constructor; discriminate.
  - exists (MkFile 3 0 false). split; [reflexivity|]. split; [reflexivity|]. split; [|split; [reflexivity|reflexivity]]. split; [exact formatted_wf|]. cbn [data formatted_map start length_]. unfold is_s32. split; [lia|]. split; [lia|]. split; [lia|]. change (length (dev formatted)) with 40%nat. lia.
Qed.

Lemma formatted_dir_wf : dir_wf (entries (contents formatted (root formatted_dir))).
Proof.
  destruct formatted_names as [_ He]. rewrite forallb_forall in He. assert (He' : forall j e, entries (contents formatted (root formatted_dir)) !! j = Some e -> length e = 20%nat /\ e_in_use e = false).
  { intros j e Hj. apply list_elem_of_lookup_2, list_elem_of_In, He, andb_true_iff in Hj as [H1 H2]. apply Nat.eqb_eq in H1. apply negb_true_iff in H2. done. }
  split; [intros j e Hj; destruct (He' j e Hj) as [H1 H2]; split; [done|congruence]|]. intros j1 j2 e1 e2 Hj1 _ Hu. destruct (He' j1 e1 Hj1). congruence.
Qed.

Lemma formatted_inv : inv formatted_map formatted_dir formatted_ext ∅ formatted.
Proof.
  constructor.
  - exact formatted_wf.
  - exact formatted_open.
  - reflexivity.
  - reflexivity.
  - unfold good, is_u32, INODE_MAGIC, formatted_dir. cbn [start length_ magic]. unfold INODE_MAGIC. lia.
  - reflexivity.
  - exact formatted_runs.
  - intros a b x ea eb. unfold in_ext. destruct a, b; intros Ea Eb; cbn in Ea, Eb; simplify_eq; cbn; intros; (done || lia).
  - reflexivity.
  - reflexivity.
  - reflexivity.
  - reflexivity.
  - exact formatted_dir_wf.
  - rewrite (proj1 formatted_names). intros nm sec E. by rewrite lookup_empty in E.
  - intros nm _. apply lookup_empty.
Qed.

Lemma formatted_quiet : quiet formatted_map formatted.
Proof.
  constructor; [|exists 3, (MkFile 3 0 false); done|done]. split; [repeat constructor; set_solver|]. split; [|split; [|split; [|done]]].
  - intros ip. cbn. rewrite list_elem_of_singleton, lookup_singleton_is_Some. naive_solver.
  - intros ip i. cbn. rewrite lookup_singleton_Some. intros [<- <-]. cbn. lia.
  - intros ip jp i j. cbn. rewrite !lookup_singleton_Some. intros [<- _] [<- _] _. done.
Qed.

Lemma formatted_holds : holds ∅ formatted.
Proof. exists formatted_map, formatted_dir, formatted_ext. split; [exact formatted_inv|exact formatted_quiet]. Qed.

Lemma fs_refines_witness : exists rs s' M', runs (replicate 20 0) formatted ∅ [Create [97] 600; WriteAt [97] 598 [1; 2; 3]; ReadAt [97] 597 5; Remove [98]; Remove [97]] rs s' M' /\ holds M' s'.
Proof.
  destruct (fs_refines (replicate 20 0) [Create [97] 600; WriteAt [97] 598 [1; 2; 3]; ReadAt [97] 597 5; Remove [98]; Remove [97]] ∅ formatted) as (rs & s' & M' & H1 & H2 & _).
  - reflexivity.
  - assert (H : forall b, 0 < b < 256 -> valid_name [b]) by (intros b Hb; constructor; [exact Hb|constructor]).
    repeat constructor; cbn; try lia; try (by apply H).
  - exact formatted_holds.
  - exists rs, s', M'. split; [exact H1|exact H2].
Defined.
