(* ===== verification/OpenSpec.v ===== *)
(** Opening a file while other files are open.  FsSpec.v follows sequences of
    calls of which each closes what it opens; here the table of open inodes
    (filesys/inode.c) may hold any number of inodes, the one of the file that
    is opened, and the directory's, included. *)

From stdpp Require Import base list numbers gmap.
From Stdlib Require Import ZArith Lia.
From S2P Require Import Prelude Bitmap Inode FreeMap Directory FsFrame FsSpec.
Open Scope Z_scope.

(** The table of open inodes is in order: each, but for the free map's, has its
    data from its sector, and the directory's, if it is open, is neither removed
    nor denied writes. *)
Record in_use (s : fs) : Prop := {
  u_table : table_ok s;
  u_data ip i : inodes s !! ip = Some i -> sector i <> FREE_MAP_SECTOR -> exists b, dev s !! Z.to_nat (sector i) = Some b /\ data i = inode_disk_of b;
  u_root ip i : inodes s !! ip = Some i -> sector i = ROOT_DIR_SECTOR -> removed i = false /\ deny_write_cnt i = 0
}.

(** The volume holds the files [M]; any files may be open. *)
Definition volume (M : gmap (list Z) (list Z)) (s : fs) : Prop := exists k rd ext, inv k rd ext M s /\ in_use s.

(** Opening [nm] gives a file, at its start, with contents [c] and an inode
    that may be denied writes once more. *)
Definition opens (s : fs) (nm c : list Z) : Prop :=
  exists fp s' ip i, filesys_open nm s = Ok (fp, s') /\ fp <> 0 /\ files s' !! fp = Some (MkFile ip 0 false) /\
    inodes s' !! ip = Some i /\ inode_ok s' i /\ contents s' i = c /\ deny_write_cnt i < open_cnt i /\ 0 <= deny_write_cnt i /\ mallocs_ok s'.

(** The parts of the state that opening an inode does not change. *)
Definition kept (s s' : fs) : Prop := dev s' = dev s /\ files s' = files s /\ (mallocs_ok s -> mallocs_ok s').

(** The inode of a sector is opened, whether it is open already or not. *)
Lemma inode_open_any s sec b : in_use s -> mallocs_ok s -> 0 <= sec -> sec <> FREE_MAP_SECTOR -> dev s !! Z.to_nat sec = Some b ->
  exists ip i s', inode_open sec s = Ok (ip, s') /\ in_use s' /\ kept s s' /\ ip <> 0 /\ inodes s' !! ip = Some i /\ sector i = sec /\ data i = inode_disk_of b /\
    0 <= deny_write_cnt i < open_cnt i /\ (forall jp j, inodes s !! jp = Some j -> sector j <> sec -> jp <> ip /\ inodes s' !! jp = Some j).
Proof.
  intros [Ht Hdat Hroot] Hm Hsec Hsec0 Hb. pose proof Ht as (HN & Hdom & Hcnt & Hinj & Hna). pose proof (lookup_lt_Some _ _ _ Hb) as Hlt.
  destruct (find_open_spec s sec (open_inodes s)) as (o & Eo & Ho); [intros jp; by apply Hdom|]. destruct o as [ip|].
  - destruct Ho as (_ & i & Hi & Hs). destruct (Hcnt ip i Hi) as (Hip & Hoc & Hd). destruct (Hdat ip i Hi ltac:(congruence)) as (b' & Hb' & Hda). rewrite Hs, Hb in Hb'. injection Hb' as <-.
    exists ip, (bump i), (with_inodes s (<[ip := bump i]> (inodes s))). split.
    { unfold inode_open. erewrite stbind_step by reflexivity. erewrite stbind_step by exact Eo. unfold inode_reopen.
      rewrite (proj2 (Z.eqb_neq ip 0)) by lia. cbn [negb]. by erewrite stbind_step by (by apply get_inode_Ok). }
    assert (Hup : forall jp j, <[ip := bump i]> (inodes s) !! jp = Some j -> exists j', inodes s !! jp = Some j' /\ sector j = sector j' /\ data j = data j' /\ removed j = removed j' /\ deny_write_cnt j = deny_write_cnt j').
    { intros jp j [[<- <-]|[_ Hj]]%lookup_insert_Some; [by exists i|by exists j]. }
    split; [|split; [done|]; split; [lia|]; split; [apply lookup_insert_eq|]; cbn; split; [done|]; split; [done|]; split; [lia|]; intros jp j Hj Hsj; assert (jp <> ip) by congruence; split; [done|]; by rewrite lookup_insert_ne].
    constructor; cbn.
    + apply (table_ok_update s ip i); cbn; (done || lia).
    + intros jp j (j' & Hj' & -> & -> & _)%Hup. by eapply Hdat.
    + intros jp j (j' & Hj' & -> & _ & -> & ->)%Hup. by eapply Hroot.
  - destruct (inode_open_miss s sec b Ht Hm) as (s' & E & T & (D1 & _ & _ & D4) & F & _ & Hn & I); [lia|done|intros jp j Hj; apply (Ho jp); [apply Hdom; by eexists|done]|].
    exists (next_addr s). eexists. exists s'. split; [exact E|]. rewrite I, lookup_insert_eq.
    split; [|split; [done|]; split; [lia|]; split; [done|]; cbn; split; [done|]; split; [done|]; split; [lia|]; intros jp j Hj _; assert (jp <> next_addr s) by congruence; split; [done|]; by rewrite lookup_insert_ne].
    constructor; [done|..]; intros jp j; rewrite I; intros [[<- <-]|[_ Hj]]%lookup_insert_Some; cbn; try done.
    + exists b. by rewrite D1.
    + rewrite D1. by eapply Hdat.
    + by eapply Hroot.
Qed.

(** The directory is closed. *)
Lemma dir_close_any s ip i : in_use s -> mallocs_ok s -> inodes s !! ip = Some i -> sector i = ROOT_DIR_SECTOR -> deny_write_cnt i < open_cnt i ->
  exists s', inode_close ip s = Ok (tt, s') /\ kept s s' /\ 0 < next_addr s' /\ (forall jp, jp <> ip -> inodes s' !! jp = inodes s !! jp).
Proof.
  intros [Ht _ Hroot] Hm Hi Hs Hd. destruct (Hroot ip i Hi Hs) as [Hr _]. pose proof Ht as (_ & _ & Hcnt & _). destruct (Hcnt ip i Hi) as (_ & Hoc & _).
  destruct (decide (open_cnt i = 1)) as [H1|H1].
  - destruct (inode_close_exact s ip i Ht Hm Hi H1 Hr) as (s' & E & T & (D1 & _ & _ & D4) & F & _ & I). exists s'. split; [done|]. split; [done|]. split; [apply T|].
    intros jp Hne. rewrite I. by apply lookup_delete_ne.
  - destruct (inode_close_shared s ip i Ht Hi) as (s' & E & T & ->); [lia|done|]. eexists. split; [exact E|]. split; [done|]. split; [apply T|]. intros jp Hne. cbn. by apply lookup_insert_ne.
Qed.

Lemma kept_trans s1 s2 s3 : kept s1 s2 -> kept s2 s3 -> kept s1 s3.
Proof. intros (? & ? & ?) (? & ? & ?). split; [congruence|]. split; [congruence|]. auto. Qed.

Lemma in_use_mallocs s m : in_use s -> in_use (with_mallocs s m).
Proof. intros [T Hd Hr]. constructor; [by apply (table_ok_ext s)|done|done]. Qed.

Section Open.
Context (k : inode) (rd : inode_disk) (ext : area -> option (nat * nat)) (M : gmap (list Z) (list Z)) (s : fs).
Hypothesis (Hv : inv k rd ext M s) (Hu : in_use s).

Lemma volume_mallocs : mallocs_ok s.
Proof using Hv. apply Hv. Qed.

Lemma same_contents s' i i' : dev s' = dev s -> data i = data i' -> contents s' i = contents s i'.
Proof using. intros Hd Hi. unfold contents, disk, base. by rewrite Hd, Hi. Qed.

Lemma same_ok s' i i' : dev s' = dev s -> data i = data i' -> inode_ok s i' -> inode_ok s' i.
Proof using. intros Hd Hi. unfold inode_ok, dev_wf. by rewrite Hd, Hi. Qed.

(** The directory is opened and searched. *)
Lemma open_search nm : valid_name nm ->
  exists d i s1 m, dir_open_root s = Ok (Some (MkDir d 0), s1) /\ in_use (with_mallocs s1 m) /\ kept s (with_mallocs s1 m) /\ mallocs_ok (with_mallocs s1 m) /\
    inodes s1 !! d = Some i /\ sector i = ROOT_DIR_SECTOR /\ deny_write_cnt i < open_cnt i /\
    match names s rd !! nm with
    | Some sec => exists e ofs, lookup (MkDir d 0) nm s1 = Ok (Some (e, ofs), with_mallocs s1 m) /\ e_inode_sector e = sec
    | None => lookup (MkDir d 0) nm s1 = Ok (None, with_mallocs s1 m)
    end.
Proof using Hv Hu.
  intros Hn. destruct (inode_open_any s ROOT_DIR_SECTOR _ Hu volume_mallocs ltac:(done) ltac:(done) (v_root _ _ _ _ _ Hv)) as (d & i & s1 & E1 & U1 & K1 & Hd0 & Hi & Hs & Hda & Hden & _).
  rewrite (root_disk _ _ _ _ _ Hv) in Hda. pose proof K1 as (Kd & _ & Km). specialize (Km volume_mallocs). destruct (malloc_true s1 Km) as (m1 & Em & Hm1). set (s2 := with_mallocs s1 m1).
  assert (Hc : contents s2 i = contents s (root rd)) by (by apply same_contents).
  assert (Hdir : dir_ok s2 (MkDir d 0) i).
  { split; [exact Hi|]. split; [by apply (same_ok s2 i (root rd)); [..|eapply root_ok]|]. destruct (u_root _ U1 d i Hi Hs). done. }
  assert (Hwf : dir_wf (entries (contents s2 i))) by (rewrite Hc; apply Hv).
  destruct (lookup_exact s2 (MkDir d 0) i nm Hdir Hm1 Hwf Hn) as (m & Hm & Hl). rewrite Hc in Hl. fold (names s rd) in Hl.
  exists d, i, s2, m. split.
  { unfold dir_open_root. erewrite stbind_step by exact E1. unfold dir_open. erewrite stbind_step by exact Em. rewrite (proj2 (Z.eqb_neq d 0) Hd0). done. }
  split; [exact (in_use_mallocs s2 m (in_use_mallocs s1 m1 U1))|]. split; [exact (conj Kd (conj (proj1 (proj2 K1)) (fun _ => Hm)))|]. split; [done|]. split; [done|]. split; [done|]. split; [lia|].
  destruct (names s rd !! nm); [|done]. destruct Hl as (j & e & El & _ & _ & He). by exists e, (Z.of_nat (j * 20)).
Qed.

Lemma filesys_open_any nm : valid_name nm ->
  match M !! nm with Some c => opens s nm c | None => exists s', filesys_open nm s = Ok (0, s') end.
Proof using Hv Hu.
  intros Hn. destruct (open_search nm Hn) as (d & i & s1 & m & E1 & U1 & K1 & M1 & Hi & Hs & Hden & Hl). set (s2 := with_mallocs s1 m) in *.
  destruct (names s rd !! nm) as [sec|] eqn:En.
  - destruct Hl as (e & ofs & El & He). destruct (v_file _ _ _ _ _ Hv nm sec En) as (id & Hat & ->). pose proof Hat as (F1 & _ & F3 & _).
    destruct (file_sector _ _ _ _ _ _ _ _ Hv Hat) as (Hnf & Hnr & _). pose proof K1 as (Kd & _ & _).
    destruct (inode_open_any s2 sec _ U1 M1 F1 Hnf ltac:(rewrite Kd; exact F3)) as (ip & j & s3 & E3 & U3 & K3 & Hip & Hj & Hsj & Hdj & Hdenj & Hoth). rewrite (file_disk _ _ _ _ _ Hat) in Hdj.
    assert (M3 : mallocs_ok s3) by (by apply K3). destruct (Hoth d i Hi ltac:(congruence)) as [Hne Hi3].
    destruct (dir_close_any s3 d i U3 M3) as (s4 & E4 & K4 & N4 & Hoth4); [done|done|done|].
    assert (M4 : mallocs_ok s4) by (by apply K4). destruct (malloc_true s4 M4) as (m5 & Em & Hm5).
    unfold opens. exists (next_addr s4), (with_files (with_next (with_mallocs s4 m5) (next_addr s4 + 1)) (<[next_addr s4 := MkFile ip 0 false]> (files s4))), ip, j.
    assert (Hdev : dev s4 = dev s) by (destruct K4 as (-> & _), K3 as (-> & _); exact Kd).
    split.
    { unfold filesys_open. erewrite stbind_step by exact E1. erewrite stbind_step by (erewrite stbind_step by (unfold dir_lookup; erewrite stbind_step by exact El; cbv beta iota; rewrite He; erewrite stbind_step by exact E3; reflexivity); reflexivity).
      cbn [snd dir_close d_inode]. erewrite stbind_step by exact E4. unfold file_open. erewrite stbind_step by exact Em. rewrite (proj2 (Z.eqb_neq ip 0) Hip). reflexivity. }
    cbn [files inodes with_files with_next with_mallocs]. split; [lia|]. split; [apply lookup_insert_eq|]. split; [by rewrite Hoth4|].
    split; [by apply (same_ok _ j (opened sec id)); [..|eapply file_ok]|]. split; [by apply same_contents|]. split; [lia|]. split; [lia|exact Hm5].
  - rewrite (v_none _ _ _ _ _ Hv nm En). destruct (dir_close_any s2 d i U1 M1 Hi Hs Hden) as (s4 & E4 & K4 & _). assert (M4 : mallocs_ok s4) by (by apply K4). destruct (malloc_true s4 M4) as (m5 & Em & _).
    eexists. unfold filesys_open. erewrite stbind_step by exact E1. erewrite stbind_step by (erewrite stbind_step by (unfold dir_lookup; erewrite stbind_step by exact Hl; reflexivity); reflexivity).
    cbn [snd dir_close d_inode]. erewrite stbind_step by exact E4. unfold file_open. erewrite stbind_step by exact Em. reflexivity.
Qed.

End Open.

Lemma volume_open M s nm c : volume M s -> valid_name nm -> M !! nm = Some c -> opens s nm c.
Proof. intros (k & rd & ext & Hv & Hu) Hn HM. pose proof (filesys_open_any k rd ext M s Hv Hu nm Hn) as H. by rewrite HM in H. Qed.

Lemma volume_missing M s nm : volume M s -> valid_name nm -> M !! nm = None -> exists s', filesys_open nm s = Ok (0, s').
Proof. intros (k & rd & ext & Hv & Hu) Hn HM. pose proof (filesys_open_any k rd ext M s Hv Hu nm Hn) as H. by rewrite HM in H. Qed.

(** The states of FsSpec.v: no file is open, or one is. *)
Lemma holds_volume M s : holds M s -> volume M s.
Proof.
  intros (k & rd & ext & Hv & [Ht (fip & f & Hi & _) _]). exists k, rd, ext. split; [done|]. pose proof (v_sector _ _ _ _ _ Hv) as Hs.
  constructor; [done|..]; intros ip i; rewrite Hi; intros [_ <-]%lookup_singleton_Some; by rewrite Hs.
Qed.

Lemma in_file_volume k rd ext M nm sec id fip f ip fp pos s : in_file k rd ext M nm sec id fip f ip fp pos s -> volume M s.
Proof.
  intros [Hv Ht Hn Hat Hi _ _ _ _ _]. exists k, rd, ext. split; [done|]. pose proof (v_sector _ _ _ _ _ Hv) as Hs. destruct (file_sector _ _ _ _ _ _ _ _ Hv Hat) as (_ & Hnr & _).
  constructor; [done|..]; intros jp j; rewrite Hi; intros [[<- <-]|[_ [_ <-]%lookup_singleton_Some]]%lookup_insert_Some; rewrite ?Hs; cbn; try done.
  intros _. exists (inode_disk_bytes id). split; [apply Hat|]. symmetry. by eapply file_disk.
Qed.
