(* ===== verification/Fsutil.v ===== *)
(** The file system utilities: filesys/fsutil.c, on the file system of
    Directory.v and a scratch device.

    The state holds the file system, the sectors of the scratch device if there
    is one, the two static positions of fsutil_extract and fsutil_append, and
    what is printed.  [behind] is the byte that follows the buffer of
    fsutil_append in memory, which the function reads. *)

From stdpp Require Import base list numbers gmap.
From Stdlib Require Import ZArith Lia.
From Stdlib Require String.
From S2P Require Import Prelude Inode FreeMap Directory Ustar Stdio.
Import String.StringSyntax.
Open Scope Z_scope.

(** ** State *)

Record util := MkUtil {
  fsys : fs;
  scratch : option (list (list Z));
  extract_sector : Z;
  append_sector : Z;
  behind : Z;
  printed : list Z
}.

#[local] Abbreviation U := (stM util).

Definition with_fsys (u : util) (s : fs) : util := MkUtil s (scratch u) (extract_sector u) (append_sector u) (behind u) (printed u).
Definition with_scratch (u : util) (d : option (list (list Z))) : util := MkUtil (fsys u) d (extract_sector u) (append_sector u) (behind u) (printed u).
Definition with_extract (u : util) (n : Z) : util := MkUtil (fsys u) (scratch u) n (append_sector u) (behind u) (printed u).
Definition with_append (u : util) (n : Z) : util := MkUtil (fsys u) (scratch u) (extract_sector u) n (behind u) (printed u).
Definition with_printed (u : util) (l : list Z) : util := MkUtil (fsys u) (scratch u) (extract_sector u) (append_sector u) (behind u) l.

(** An operation of the file system. *)
Definition on_fs {A} (m : stM fs A) : U A := fun u =>
  match m (fsys u) with Ok (a, s) => Ok (a, with_fsys u s) | Err e => Err e end.

Definition print (l : list Z) : U unit := modify (fun u : util => with_printed u (printed u ++ l)).

Definition nl : list Z := [10].

(** block_get_role (BLOCK_SCRATCH). *)
Definition scratch_device : U (list (list Z)) :=
  u ← get; match scratch u with Some d => mret d | None => raise EPanic end.

(** block_read and block_write on the scratch device: a sector that does not
    exist is a panic. *)
Definition scratch_read (sec : Z) : U (list Z) :=
  d ← scratch_device;
  match d !! Z.to_nat sec with Some b => mret b | None => raise EPanic end.

Definition scratch_write (sec : Z) (buffer : list Z) : U unit :=
  d ← scratch_device;
  if Z.of_nat (length d) <=? sec then raise EPanic
  else modify (fun u : util => with_scratch u (Some (<[Z.to_nat sec := buffer]> d))).

(** ** fsutil_ls *)

Fixpoint ls_loop (fuel : nat) (d : dir) : U unit :=
  match fuel with
  | O => raise EFuel
  | S fuel =>
      '(r, d) ← on_fs (dir_readdir d);
      match r with
      | Some name => print (c_string name ++ nl);; ls_loop fuel d
      | None => mret tt
      end
  end.

Definition fsutil_ls : U unit :=
  print (chars "Files in the root directory:" ++ nl);;
  od ← on_fs dir_open_root;
  match od with
  | None => raise EPanic
  | Some d =>
      fuel ← on_fs (dir_fuel d);
      ls_loop fuel d;;
      print (chars "End of listing." ++ nl)
  end.

(** ** fsutil_cat *)

Definition PGSIZE : Z := 4096.

Fixpoint cat_loop (fuel : nat) (fp : Z) : U unit :=
  match fuel with
  | O => raise EFuel
  | S fuel =>
      pos ← on_fs (file_tell fp);
      bs ← on_fs (file_read fp PGSIZE);
      if Z.of_nat (length bs) =? 0 then mret tt
      else
        u ← get;
        text ← lift (hex_dump (u32 pos) bs true (printed u));
        modify (fun u : util => with_printed u text);;
        cat_loop fuel fp
  end.

(** [page] tells whether there is a free page for the buffer. *)
Definition fsutil_cat (page : bool) (file_name : list Z) : U unit :=
  print (chars "Printing '" ++ file_name ++ chars "' to the console..." ++ nl);;
  fp ← on_fs (filesys_open file_name);
  if fp =? 0 then raise EPanic
  else
    print (chars "This is the bastard one" ++ nl);;
    if negb page then raise EPanic
    else
      n ← on_fs (file_length fp);
      cat_loop (S (S (Z.to_nat n))) fp;;
      on_fs (file_close fp).

(** ** fsutil_rm *)

Definition fsutil_rm (file_name : list Z) : U unit :=
  print (chars "Deleting '" ++ file_name ++ chars "'..." ++ nl);;
  ok ← on_fs (filesys_remove file_name);
  if ok : bool then mret tt else raise EPanic.

(** ** fsutil_extract *)

Definition BLOCK_SECTOR_SIZE : Z := 512.

(** block_read (src, sector++, buffer). *)
Definition next_sector : U (list Z) :=
  u ← get;
  let sec := extract_sector u in
  modify (fun u : util => with_extract u (u32 (sec + 1)));;
  scratch_read sec.

Fixpoint copy_in (fuel : nat) (dst size : Z) : U unit :=
  match fuel with
  | O => raise EFuel
  | S fuel =>
      if 0 <? size then
        let chunk_size := if BLOCK_SECTOR_SIZE <? size then BLOCK_SECTOR_SIZE else size in
        data ← next_sector;
        n ← on_fs (file_write dst (take (Z.to_nat chunk_size) data) chunk_size);
        if negb (n =? chunk_size) then raise EPanic
        else copy_in fuel dst (size - chunk_size)
      else mret tt
  end.

(** [junk] is the uninitialised local of dir_add. *)
Definition extract_file (junk file_name : list Z) (size : Z) : U unit :=
  print (chars "Putting '" ++ file_name ++ chars "' into the file system..." ++ nl);;
  ok ← on_fs (filesys_create junk file_name size);
  if negb ok then raise EPanic
  else
    dst ← on_fs (filesys_open file_name);
    if dst =? 0 then raise EPanic
    else copy_in (S (Z.to_nat size)) dst size;; on_fs (file_close dst).

Fixpoint extract_loop (fuel : nat) (junk : list Z) : U unit :=
  match fuel with
  | O => raise EFuel
  | S fuel =>
      header ← next_sector;
      p ← lift (ustar_parse_header header);
      match p with
      | Bad _ => raise EPanic
      | Entry name type size =>
          if type =? USTAR_EOF then mret tt
          else
            (if type =? USTAR_DIRECTORY then print (chars "ignoring directory " ++ default [] name ++ nl)
             else if type =? USTAR_REGULAR then extract_file junk (default [] name) size
             else mret tt);;
            extract_loop fuel junk
      end
  end.

(** The loop reads a sector of the device in every round, from one that only
    wraps around after the end, where reading is a panic. *)
Definition fsutil_extract (junk : list Z) : U unit :=
  ok1 ← on_fs malloc;
  ok2 ← on_fs malloc;
  if negb ok1 || negb ok2 then raise EPanic
  else
    src ← scratch_device;
    print (chars "Extracting ustar archive from scratch device into file system..." ++ nl);;
    extract_loop (S (length src)) junk;;
    print (chars "Erasing ustar archive..." ++ nl);;
    scratch_write 0 (replicate 512 0);;
    scratch_write 1 (replicate 512 0).

(** ** fsutil_append *)

(** block_write (dst, sector++, buffer). *)
Definition put_sector (buffer : list Z) : U unit :=
  u ← get;
  let sec := append_sector u in
  modify (fun u : util => with_append u (u32 (sec + 1)));;
  scratch_write sec buffer.

Fixpoint copy_out (fuel : nat) (src size : Z) : U unit :=
  match fuel with
  | O => raise EFuel
  | S fuel =>
      if 0 <? size then
        let chunk_size := if BLOCK_SECTOR_SIZE <? size then BLOCK_SECTOR_SIZE else size in
        d ← scratch_device;
        u ← get;
        if Z.of_nat (length d) <=? append_sector u then raise EPanic
        else
          bs ← on_fs (file_read src chunk_size);
          if negb (Z.of_nat (length bs) =? chunk_size) then raise EPanic
          else
            put_sector (bs ++ replicate (Z.to_nat (BLOCK_SECTOR_SIZE - chunk_size)) 0);;
            copy_out fuel src (size - chunk_size)
      else mret tt
  end.

(** Both writes of the end marker go to the same sector, and the second starts
    one byte into the buffer. *)
Definition fsutil_append (file_name : list Z) : U unit :=
  print (chars "Appending '" ++ file_name ++ chars "' to ustar archive on scratch device..." ++ nl);;
  ok ← on_fs malloc;
  if negb ok then raise EPanic
  else
    src ← on_fs (filesys_open file_name);
    if src =? 0 then raise EPanic
    else
      size ← on_fs (file_length src);
      _ ← scratch_device;
      h ← lift (ustar_make_header file_name USTAR_REGULAR size);
      match h with
      | None => raise EPanic
      | Some header =>
          put_sector header;;
          copy_out (S (Z.to_nat size)) src size;;
          u ← get;
          scratch_write (append_sector u) (replicate 512 0);;
          scratch_write (append_sector u) (replicate 511 0 ++ [behind u]);;
          on_fs (file_close src)
      end.
