(* ===== verification/HexSpec.v ===== *)
(** hex_dump of lib/stdio.c (Stdio.v) prints every buffer to its end: none of
    its conversions fails, and what it prints comes after what was printed. *)

From stdpp Require Import base list numbers gmap.
From Stdlib Require Import ZArith Lia.
From Stdlib Require String.
From S2P Require Import Prelude CString Stdio StdioSpec.
Import String.StringSyntax.
Open Scope Z_scope.

Section Hex.
Context (m : mem).

Lemma vprintf_x fuel l args aux c rest args1 v args' t : parse_conversion l args = Ok (c, 120 :: rest, args1) -> peek l <> 37 ->
  unsigned_arg (type c) args1 = Ok (v, args') -> format_integer putc v false false base_x c aux = Ok t ->
  vprintf_loop putc m (S fuel) (37 :: l) args aux = vprintf_loop putc m fuel rest args' t.
Proof.
  intros Hc Hp Hv Ht. cbn [vprintf_loop]. change (negb (37 =? 37)) with false. cbv iota. rewrite (proj2 (Z.eqb_neq _ _)) by done. rewrite Hc. cbn [mbind res_bind peek].
  change ((120 =? 100) || (120 =? 105)) with false. change ((120 =? 111) || (120 =? 117) || (120 =? 120) || (120 =? 88)) with true. cbv iota.
  rewrite Hv. cbn [mbind res_bind]. change (120 =? 111) with false. change (120 =? 117) with false. change (120 =? 120) with true. cbv iota. rewrite Ht. done.
Qed.

Lemma vprintf_c fuel l args aux c rest w args' : parse_conversion l args = Ok (c, 99 :: rest, w :: args') -> peek l <> 37 ->
  vprintf_loop putc m (S fuel) (37 :: l) args aux = vprintf_loop putc m fuel rest args' (format_string putc [u8 (s32 w)] c aux).
Proof.
  intros Hc Hp. cbn [vprintf_loop]. change (negb (37 =? 37)) with false. cbv iota. rewrite (proj2 (Z.eqb_neq _ _)) by done. rewrite Hc. reflexivity.
Qed.

Lemma printf_byte b s : exists t, printf m (chars "%02hhx%c") [b; s] [] = Ok t.
Proof.
  destruct (format_integer_Ok putc (u32 b mod 2 ^ 8) false false base_x (MkConv ZERO 2 (-1) CHAR) []) as (t & E); [apply bases_ok|Z.to_euclidean_division_equations; lia|].
  unfold printf, __vprintf. change (List.length (chars "%02hhx%c") + 32)%nat with 40%nat. change (chars "%02hhx%c") with (37 :: chars "02hhx%c").
  erewrite vprintf_x; [|reflexivity|done|reflexivity|exact E]. eexists. apply (vprintf_c 38 (chars "c") [s] t (MkConv 0 0 (-1) INT) [] s []); [reflexivity|done].
Qed.

Lemma printf_char s : exists t, printf m (chars "%c") [s] [] = Ok t.
Proof. unfold printf, __vprintf. eexists. apply (vprintf_c 33 (chars "c") [s] [] (MkConv 0 0 (-1) INT) [] s []); [reflexivity|done]. Qed.

Lemma printf_offset v : exists t, printf m (chars "%08jx  ") [v; 0] [] = Ok t.
Proof.
  destruct (format_integer_Ok putc (u32 v + 2 ^ 32 * u32 0) false false base_x (MkConv ZERO 8 (-1) INTMAX) []) as (t & E); [apply bases_ok|pose proof (u32_range v) as H; unfold is_u32 in H; change (u32 0) with 0; lia|].
  unfold printf, __vprintf. change (List.length (chars "%08jx  ") + 32)%nat with 39%nat. change (chars "%08jx  ") with (37 :: chars "08jx  ").
  erewrite vprintf_x; [|reflexivity|done|reflexivity|exact E]. eexists. reflexivity.
Qed.

(** Printing after a text appends to it. *)
Lemma printf_after format args text t : printf m format args [] = Ok t -> printf m format args text = Ok (text ++ t).
Proof.
  intros E. unfold printf at 1. rewrite vprintf_text, E. cbn [fmap res_fmap]. f_equal. clear. revert text. induction t as [|c t IH]; intros text; cbn [fold_left]; [by rewrite app_nil_r|].
  rewrite IH. unfold putc. by rewrite <- app_assoc.
Qed.

End Hex.

Lemma repeat_text_app n t : forall text, exists r, repeat_text n t text = text ++ r.
Proof. induction n as [|n IH]; intros text; cbn; [exists []; by rewrite app_nil_r|]. destruct (IH (text ++ t)) as (r & ->). exists (t ++ r). by rewrite app_assoc. Qed.

Lemma dump_bytes_Ok bytes : forall i text, exists t, dump_bytes bytes i text = Ok (text ++ t).
Proof.
  induction bytes as [|b bytes IH]; intros i text; cbn [dump_bytes]; [exists []; by rewrite app_nil_r|]. destruct (printf_byte ∅ b (if i =? 7 then 45 else 32)) as (t & E).
  rewrite (printf_after _ _ _ _ _ E). cbn [mbind res_bind]. destruct (IH (i + 1) (text ++ t)) as (r & ->). exists (t ++ r). by rewrite app_assoc.
Qed.

Lemma dump_ascii_Ok bytes : forall text, exists t, dump_ascii bytes text = Ok (text ++ t).
Proof.
  induction bytes as [|b bytes IH]; intros text; cbn [dump_ascii]; [exists []; by rewrite app_nil_r|]. destruct (printf_char ∅ (if isprint b then b else 46)) as (t & E).
  rewrite (printf_after _ _ _ _ _ E). cbn [mbind res_bind]. destruct (IH (text ++ t)) as (r & ->). exists (t ++ r). by rewrite app_assoc.
Qed.

(** hex_dump prints something for every buffer, and ends. *)
Lemma hex_dump_loop_Ok fuel : forall ofs buf ascii text, 0 <= ofs -> (length buf < fuel)%nat -> exists t, hex_dump_loop fuel ofs buf ascii text = Ok (text ++ t).
Proof.
  induction fuel as [|fuel IH]; intros ofs buf ascii text Ho Hl; [lia|]. cbn [hex_dump_loop]. destruct buf as [|b buf]; [exists []; by rewrite app_nil_r|].
  set (start := ofs mod 16). match goal with |- context[if ?b then ?x else 16] => set (e := if b then x else 16) end. pose proof (Z.mod_pos_bound ofs 16 ltac:(lia)) as Hm. fold start in Hm.
  assert (He : start < e) by (unfold e; cbn [length]; case_match; lia). clearbody e.
  destruct (printf_offset ∅ (ofs / 16 * 16)) as (t1 & E1). rewrite (printf_after _ _ _ _ _ E1). cbn [mbind res_bind].
  destruct (repeat_text_app (Z.to_nat start) (chars "   ") (text ++ t1)) as (r1 & ->).
  destruct (dump_bytes_Ok (take (Z.to_nat (e - start)) (b :: buf)) start ((text ++ t1) ++ r1)) as (t2 & ->). cbn [mbind res_bind].
  match goal with |- context[if ascii then ?x else ?y] => set (tail := if ascii then x else y) end. assert (Ht : exists r, tail = Ok (text ++ r)).
  { unfold tail. destruct ascii; [|exists (t1 ++ r1 ++ t2); by rewrite !app_assoc].
    destruct (repeat_text_app (Z.to_nat (16 - e)) (chars "   ") (((text ++ t1) ++ r1) ++ t2)) as (r2 & ->).
    destruct (repeat_text_app (Z.to_nat start) (chars " ") (((((text ++ t1) ++ r1) ++ t2) ++ r2) ++ chars "|")) as (r3 & ->).
    match goal with |- context[dump_ascii ?x ?y] => destruct (dump_ascii_Ok x y) as (t3 & ->) end. cbn [mbind res_bind].
    match goal with |- context[repeat_text ?x ?y ?z] => destruct (repeat_text_app x y z) as (r4 & ->) end.
    eexists. f_equal. rewrite <- !app_assoc. reflexivity. }
  clearbody tail. destruct Ht as (r & ->). cbn [mbind res_bind].
  destruct (IH (u32 (ofs + (e - start))) (drop (Z.to_nat (e - start)) (b :: buf)) ascii ((text ++ r) ++ [10])) as (t' & ->).
  - apply u32_range.
  - rewrite length_drop. cbn [length] in *. lia.
  - eexists. rewrite <- !app_assoc. reflexivity.
Qed.

Lemma hex_dump_Ok ofs buf ascii text : 0 <= ofs -> exists t, hex_dump ofs buf ascii text = Ok (text ++ t).
Proof. intros H. apply hex_dump_loop_Ok; [done|lia]. Qed.
