(* ===== verification/FsutilSpec.v ===== *)
(** The file system utilities (Fsutil.v): appending files to an archive and
    extracting them gives the files back; cat and rm. *)

From stdpp Require Import base list numbers gmap.
From Stdlib Require Import ZArith Lia.
From Stdlib Require String.
From S2P Require Import Prelude Inode FreeMap Directory FsFrame FsSpec Ustar Stdio HexSpec Fsutil.
Import String.StringSyntax.
Open Scope Z_scope.

(** ** The archive *)

(** Sector [j] of the data of a file. *)
Definition data_sector (c : list Z) (j : nat) : list Z :=
  let b := take 512 (drop (512 * j) c) in b ++ replicate (512 - length b) 0.

Definition data_sectors (c : list Z) (j n : nat) : list (list Z) := data_sector c <$> seq j n.

Definition size_of (c : list Z) : nat := sectors_of (Z.of_nat (length c)).

Definition header_for (nm c : list Z) : list Z :=
  match ustar_make_header nm USTAR_REGULAR (Z.of_nat (length c)) with Ok (Some h) => h | _ => [] end.

Definition archived (f : list Z * list Z) : list (list Z) := header_for f.1 f.2 :: data_sectors f.2 0 (size_of f.2).

Definition archive (files : list (list Z * list Z)) : list (list Z) := concat (archived <$> files).

(** The end marker as the code writes it. *)
Definition marker (b : Z) : list Z := replicate 511 0 ++ [b].

(** Names that the directory and the archive both take as they are. *)
Definition plain_name (nm : list Z) : Prop := valid_name nm /\ safe_name nm /\ (length nm <= 14)%nat.

Definition fits (c : list Z) : Prop := Z.of_nat (length c) + 511 < 2 ^ 31.

(** The sectors [l] are on the device [d] from sector [k] on. *)
Definition stored (d : list (list Z)) (k : nat) (l : list (list Z)) : Prop := forall i b, l !! i = Some b -> d !! (k + i)%nat = Some b.

(** ** Facts *)

Lemma on_fs_step {A} (m : stM fs A) u a s : m (fsys u) = Ok (a, s) -> on_fs m u = Ok (a, with_fsys u s).
Proof. intros E. unfold on_fs. by rewrite E. Qed.

Lemma length_data_sectors c j n : length (data_sectors c j n) = n.
Proof. unfold data_sectors. by rewrite length_fmap, length_seq. Qed.

Lemma data_sectors_S c j n : data_sectors c j (S n) = data_sector c j :: data_sectors c (S j) n.
Proof. done. Qed.

(** The sectors that remain are those of the bytes that remain. *)
Lemma sectors_left len j : 0 <= len -> Z.of_nat (sectors_of len) = Z.of_nat j + Z.of_nat (sectors_of (len - Z.min (512 * Z.of_nat j) len)) \/ (sectors_of len < j)%nat.
Proof. intros H. unfold sectors_of. Z.to_euclidean_division_equations. lia. Qed.

Lemma sectors_step r n : sectors_of r = S n -> 0 < r /\ sectors_of (r - Z.min 512 r) = n.
Proof. unfold sectors_of. intros. Z.to_euclidean_division_equations. lia. Qed.

Lemma sectors_none r : 0 <= r -> sectors_of r = 0%nat -> r = 0.
Proof. unfold sectors_of. intros. Z.to_euclidean_division_equations. lia. Qed.

Lemma stored_cons d k b l : stored d k (b :: l) -> d !! k = Some b /\ stored d (S k) l.
Proof.
  intros H. split; [rewrite <- (Nat.add_0_r k); by apply (H 0%nat)|]. intros i x Hx. replace (S k + i)%nat with (k + S i)%nat by lia. by apply H.
Qed.

Lemma stored_app d k l1 l2 : stored d k (l1 ++ l2) -> stored d k l1 /\ stored d (k + length l1) l2.
Proof.
  intros H. split; intros i x Hx; [apply H; by apply lookup_app_l_Some|]. rewrite <- Nat.add_assoc. apply H. rewrite lookup_app_r by lia. by replace (length l1 + i - length l1)%nat with i by lia.
Qed.

Lemma header_for_Ok nm c : plain_name nm -> fits c ->
  ustar_make_header nm USTAR_REGULAR (Z.of_nat (length c)) = Ok (Some (header_for nm c)) /\ length (header_for nm c) = 512%nat /\
  ustar_parse_header (header_for nm c) = Ok (Entry (Some nm) USTAR_REGULAR (Z.of_nat (length c))).
Proof.
  intros (Hv & Hs & Hl) Hf. unfold fits in Hf.
  destruct (make_parse nm nm USTAR_REGULAR (Z.of_nat (length c))) as (h & E & L & P).
  - by left.
  - unfold is_s32. lia.
  - by apply strip_safe.
  - done.
  - apply (Forall_impl _ _ _ Hv). lia.
  - lia.
  - unfold header_for. rewrite E. split; [done|]. split; [done|]. rewrite P. rewrite (proj2 (Z.ltb_ge _ _)) by lia. done.
Qed.

Lemma marker_zero : ustar_parse_header (marker 0) = Ok (Entry None USTAR_EOF 0).
Proof. vm_compute. reflexivity. Qed.

Lemma marker_bad b : b <> 0 -> exists e, ustar_parse_header (marker b) = Ok (Bad e).
Proof.
  intros Hb. unfold ustar_parse_header. rewrite (not_all_zeros _ b); [|unfold marker; apply elem_of_app; right; by apply list_elem_of_singleton|done].
  eexists. reflexivity.
Qed.

(** ** Appending *)

(** What every step of fsutil_append leaves as it is. *)
Definition same_position (u u' : util) : Prop := extract_sector u' = extract_sector u /\ behind u' = behind u /\ printed u' = printed u.

Lemma put_sector_ok u d k b : scratch u = Some d -> append_sector u = Z.of_nat k -> (k < length d)%nat -> Z.of_nat (length d) < 2 ^ 32 ->
  put_sector b u = Ok (tt, MkUtil (fsys u) (Some (<[k := b]> d)) (extract_sector u) (Z.of_nat (S k)) (behind u) (printed u)).
Proof.
  intros Hd Hk Hlt Hs. unfold put_sector. erewrite stbind_step by reflexivity. cbv zeta. erewrite stbind_step by reflexivity.
  unfold scratch_write. erewrite stbind_step by (unfold scratch_device; erewrite stbind_step by reflexivity; cbn [scratch with_append]; rewrite Hd; reflexivity).
  rewrite Hk, (proj2 (Z.leb_gt _ _)), Nat2Z.id by lia. rewrite u32_small by (unfold is_u32; lia). unfold modify, with_scratch, with_append. cbn [fsys scratch extract_sector append_sector behind printed]. do 3 f_equal. lia.
Qed.

Lemma scratch_write_ok u d k b : scratch u = Some d -> (k < length d)%nat -> scratch_write (Z.of_nat k) b u = Ok (tt, with_scratch u (Some (<[k := b]> d))).
Proof.
  intros Hd Hlt. unfold scratch_write. erewrite stbind_step by (unfold scratch_device; erewrite stbind_step by reflexivity; rewrite Hd; reflexivity).
  rewrite (proj2 (Z.leb_gt _ _)), Nat2Z.id by lia. reflexivity.
Qed.

Lemma inserts_step {A} k (b : A) l d : list_inserts (S k) l (<[k := b]> d) = list_inserts k (b :: l) d.
Proof. cbn [list_inserts]. symmetry. apply list_insert_inserts_lt. lia. Qed.

Section Session.
Context (k : inode) (rd : inode_disk) (ext : area -> option (nat * nat)) (nm : list Z) (sec : Z) (id : inode_disk) (fip : Z) (f : file) (ip fp : Z).

#[local] Abbreviation in_file M pos s := (in_file k rd ext M nm sec id fip f ip fp pos s).

Lemma in_file_length M pos s : in_file M pos s -> file_length fp s = Ok (Z.of_nat (length (contents s (opened sec id))), s) /\ fits (contents s (opened sec id)).
Proof.
  intros Ho. destruct (get_open k rd ext nm sec id fip f ip fp M pos s Ho) as [Hg Hi].
  pose proof (file_ok _ _ _ _ _ (l_inv _ _ _ _ _ _ _ _ _ _ _ _ _ Ho) _ _ _ (l_at _ _ _ _ _ _ _ _ _ _ _ _ _ Ho)) as Hok. destruct (l_at _ _ _ _ _ _ _ _ _ _ _ _ _ Ho) as (_ & _ & _ & _ & _ & G2 & G3 & _).
  unfold fits. rewrite (length_contents s _ Hok). cbn [opened data]. rewrite Z2Nat.id by done. split; [|done].
  unfold file_length. erewrite stbind_step by (apply assertM_true; rewrite (proj2 (Z.eqb_neq fp 0)); [done|apply Ho]). erewrite stbind_step by exact Hg. cbn [f_inode]. erewrite stbind_step by (by apply get_inode_Ok). reflexivity.
Qed.

(** The loop of fsutil_append: [n] sectors from sector [j] of the file on. *)
Lemma copy_out_ok M c n : forall fuel j a d u, in_file M (Z.min (512 * Z.of_nat j) (Z.of_nat (length c))) (fsys u) -> contents (fsys u) (opened sec id) = c -> fits c ->
  sectors_of (Z.of_nat (length c) - Z.min (512 * Z.of_nat j) (Z.of_nat (length c))) = n -> (n < fuel)%nat ->
  scratch u = Some d -> append_sector u = Z.of_nat a -> (a + n <= length d)%nat -> Z.of_nat (length d) < 2 ^ 32 ->
  exists u' pos, copy_out fuel fp (Z.of_nat (length c) - Z.min (512 * Z.of_nat j) (Z.of_nat (length c))) u = Ok (tt, u') /\ in_file M pos (fsys u') /\
    scratch u' = Some (list_inserts a (data_sectors c j n) d) /\ append_sector u' = Z.of_nat (a + n) /\ same_position u u'.
Proof.
  induction n as [|n IH]; intros [|fuel] j a d u Ho Hc Hf Hn Hfu Hd Ha Hle Hs; try lia; cbn [copy_out].
  - apply sectors_none in Hn; [|lia]. rewrite (proj2 (Z.ltb_ge _ _)) by lia. eexists u, _. split; [reflexivity|]. split; [exact Ho|]. split; [done|]. rewrite Nat.add_0_r. done.
  - set (p := Z.min (512 * Z.of_nat j) (Z.of_nat (length c))) in *. set (r := Z.of_nat (length c) - p) in *. destruct (sectors_step r n Hn) as [Hr Hn']. rewrite (proj2 (Z.ltb_lt _ _)) by done.
    assert (Hp : p = 512 * Z.of_nat j) by lia. set (ch := if BLOCK_SECTOR_SIZE <? r then BLOCK_SECTOR_SIZE else r).
    assert (Hch : ch = Z.min 512 r) by (unfold ch, BLOCK_SECTOR_SIZE; case_match; lia).
    erewrite stbind_step by (unfold scratch_device; erewrite stbind_step by reflexivity; rewrite Hd; reflexivity). erewrite stbind_step by reflexivity. rewrite Ha, (proj2 (Z.leb_gt _ _)) by lia.
    unfold fits in Hf. destruct (read_ok k rd ext nm sec id fip f ip fp M p (fsys u) ch Ho) as (s1 & E1 & Ho1 & C1); [lia|unfold is_s32; lia|lia|]. rewrite Hc in *.
    erewrite stbind_step by (apply on_fs_step, E1). set (bs := take (Z.to_nat ch) (drop (Z.to_nat p) c)) in *.
    assert (Hb : length bs = Z.to_nat ch) by (unfold bs; rewrite length_take, length_drop; lia). rewrite Hb, Z2Nat.id, Z.eqb_refl by lia. cbn [negb].
    erewrite stbind_step by (apply (put_sector_ok _ d a); [exact Hd|exact Ha|lia|done]).
    assert (Hsec : bs ++ replicate (Z.to_nat (BLOCK_SECTOR_SIZE - ch)) 0 = data_sector c j).
    { unfold data_sector. replace (take 512 (drop (512 * j) c)) with bs; [f_equal; f_equal; rewrite Hb; unfold BLOCK_SECTOR_SIZE; lia|]. unfold bs. replace (Z.to_nat p) with (512 * j)%nat by lia.
      destruct (decide (512 <= r)); [f_equal; lia|]. rewrite !take_ge by (rewrite length_drop; lia). done. }
    assert (Hp' : p + ch = Z.min (512 * Z.of_nat (S j)) (Z.of_nat (length c))) by lia.
    rewrite Hsec. replace (r - ch) with (Z.of_nat (length c) - Z.min (512 * Z.of_nat (S j)) (Z.of_nat (length c))) by lia.
    rewrite Hb, Z2Nat.id, s32_small, Hp' in Ho1 by (unfold is_s32; lia).
    match goal with |- exists _ _, copy_out _ _ _ ?st = _ /\ _ => set (u1 := st) end.
    destruct (IH fuel (S j) (S a) (<[a := data_sector c j]> d) u1) as (u' & pos & E & Hfin & Hsc & Hap & Hsame); [exact Ho1|exact C1|done| |lia|reflexivity|reflexivity|rewrite length_insert; lia|by rewrite length_insert|].
    { rewrite <- Hn'. f_equal. lia. }
    exists u', pos. split; [exact E|]. split; [done|]. split; [|split; [rewrite Hap; lia|exact Hsame]]. rewrite Hsc, inserts_step. done.
Qed.

End Session.

Lemma holds_mallocs M s : holds M s -> mallocs_ok s.
Proof. intros (k & rd & ext & Hv & _). apply Hv. Qed.

Lemma holds_malloc M s : holds M s -> exists s', malloc s = Ok (true, s') /\ holds M s'.
Proof.
  intros Hh. destruct (malloc_true s (holds_mallocs M s Hh)) as (m & E & Hm). eexists. split; [exact E|]. destruct Hh as (k & rd & ext & Hv & Hq). exists k, rd, ext. split.
  - eapply inv_same; [exact Hv|done|]. by apply (quiet_map_file k s).
  - destruct Hq as [T Q A]. constructor; [by apply (table_ok_ext s)|done|done].
Qed.

(** What fsutil_append prints. *)
Definition append_text (nm : list Z) : list Z := chars "Appending '" ++ nm ++ chars "' to ustar archive on scratch device..." ++ nl.

(** Appending a file puts its header and its data at the position, and the marker behind them. *)
Lemma append_ok M nm c a d u : holds M (fsys u) -> plain_name nm -> M !! nm = Some c -> scratch u = Some d -> append_sector u = Z.of_nat a ->
  (a + length (archived (nm, c)) < length d)%nat -> Z.of_nat (length d) < 2 ^ 32 ->
  exists u', fsutil_append nm u = Ok (tt, u') /\ holds M (fsys u') /\ scratch u' = Some (list_inserts a (archived (nm, c) ++ [marker (behind u)]) d) /\
    append_sector u' = Z.of_nat (a + length (archived (nm, c))) /\ extract_sector u' = extract_sector u /\ behind u' = behind u /\ printed u' = printed u ++ append_text nm.
Proof.
  intros Hh Hn HM Hd Ha Hlt Hs. unfold archived in Hlt. cbn [fst snd length] in Hlt. rewrite length_data_sectors in Hlt.
  unfold fsutil_append. erewrite stbind_step by reflexivity. match goal with |- context[with_printed u ?x] => change x with (printed u ++ append_text nm) end. set (u0 := with_printed u (printed u ++ append_text nm)).
  destruct (holds_malloc M (fsys u0) Hh) as (s1 & E1 & Hh1). erewrite stbind_step by (apply on_fs_step, E1). cbn [negb]. destruct Hh1 as (k & rd & ext & Hv & Hq).
  destruct (open_found k rd ext M s1 nm c Hv Hq (proj1 Hn) HM) as (s2 & sec & id & fip & f & ip & fp & E2 & Ho2 & C2). erewrite stbind_step by (apply on_fs_step, E2). rewrite (proj2 (Z.eqb_neq fp 0)) by apply Ho2.
  destruct (in_file_length k rd ext nm sec id fip f ip fp M 0 s2 Ho2) as [E3 Hf]. rewrite C2 in E3, Hf. erewrite stbind_step by (apply on_fs_step, E3).
  erewrite stbind_step by (unfold scratch_device; erewrite stbind_step by reflexivity; cbn [scratch with_fsys with_printed u0]; rewrite Hd; reflexivity).
  destruct (header_for_Ok nm c Hn Hf) as (E4 & L4 & _). erewrite stbind_step by (unfold lift; rewrite E4; reflexivity). cbv beta iota.
  erewrite stbind_step by (apply (put_sector_ok _ d a); [exact Hd|exact Ha|lia|done]).
  match goal with |- exists u', _ ?st = _ /\ _ => set (u1 := st) end.
  destruct (copy_out_ok k rd ext nm sec id fip f ip fp M c (size_of c) (S (Z.to_nat (Z.of_nat (length c)))) 0 (S a) (<[a := header_for nm c]> d) u1) as (u2 & pos & E5 & Ho5 & S5 & A5 & P5).
  - cbn. replace (Z.min _ _) with 0 by lia. exact Ho2.
  - exact C2.
  - done.
  - unfold size_of. f_equal. lia.
  - unfold size_of, sectors_of. Z.to_euclidean_division_equations. lia.
  - reflexivity.
  - reflexivity.
  - rewrite length_insert. lia.
  - by rewrite length_insert.
  - replace (Z.of_nat (length c) - _) with (Z.of_nat (length c)) in E5 by lia. erewrite stbind_step by exact E5. erewrite stbind_step by reflexivity. rewrite A5.
    erewrite stbind_step by (apply (scratch_write_ok _ _ _ _ S5); rewrite length_inserts, length_insert; lia).
    erewrite stbind_step by (apply (scratch_write_ok (with_scratch _ _) _ _ _ eq_refl); rewrite length_insert, length_inserts, length_insert; lia).
    destruct (close_ok k rd ext nm sec id fip f ip fp M pos (fsys u2) Ho5) as (s6 & E6 & Hv6 & Hq6). eexists. split; [apply on_fs_step, E6|]. destruct P5 as (P1 & P2 & P3). split; [by exists k, rd, ext|].
    cbn [scratch append_sector extract_sector behind printed with_fsys with_scratch]. split; [|split; [rewrite A5; unfold archived; cbn [length fst snd]; rewrite length_data_sectors; lia|]; split; [exact P1|]; split; [exact P2|exact P3]].
    f_equal. rewrite list_insert_insert_eq, P2, inserts_step. change (behind u1) with (behind u). unfold archived. cbn [fst snd].
    rewrite list_inserts_app_l. f_equal. cbn [list_inserts length]. rewrite length_data_sectors. replace (S (size_of c) + a)%nat with (S a + size_of c)%nat by lia. done.
Qed.

(** The action "append" of the command line, for several files. *)
Fixpoint append_all (names : list (list Z)) : stM util unit :=
  match names with [] => mret tt | nm :: names => fsutil_append nm;; append_all names end.

Lemma archive_cons f files : archive (f :: files) = archived f ++ archive files.
Proof. done. Qed.

Lemma append_all_ok M files : forall a d u, holds M (fsys u) -> Forall (fun f => plain_name f.1 /\ M !! f.1 = Some f.2) files -> scratch u = Some d -> append_sector u = Z.of_nat a ->
  (a + length (archive files) < length d)%nat -> Z.of_nat (length d) < 2 ^ 32 -> stored d a (archive [] ++ [marker (behind u)]) \/ files <> [] ->
  exists u' d', append_all files.*1 u = Ok (tt, u') /\ holds M (fsys u') /\ scratch u' = Some d' /\ length d' = length d /\ stored d' a (archive files ++ [marker (behind u)]) /\
    (forall i, (i < a)%nat -> d' !! i = d !! i) /\ append_sector u' = Z.of_nat (a + length (archive files)) /\ extract_sector u' = extract_sector u /\ behind u' = behind u /\
    printed u' = printed u ++ concat (append_text <$> files.*1).
Proof.
  induction files as [|[nm c] files IH]; intros a d u Hh HF Hd Ha Hlt Hs Hm; cbn [fmap list_fmap fst append_all].
  - exists u, d. rewrite app_nil_r, Nat.add_0_r. destruct Hm as [Hm|Hm]; done.
  - apply Forall_cons in HF as [[Hn HM] HF]. rewrite archive_cons, length_app in Hlt. cbn [fst snd] in Hn, HM.
    destruct (append_ok M nm c a d u Hh Hn HM Hd Ha ltac:(lia) Hs) as (u1 & E1 & Hh1 & S1 & A1 & X1 & B1 & P1).
    erewrite stbind_step by exact E1. rewrite archive_cons, <- B1.
    assert (Hst : forall i b, (archived (nm, c) ++ [marker (behind u1)]) !! i = Some b -> list_inserts a (archived (nm, c) ++ [marker (behind u)]) d !! (a + i)%nat = Some b).
    { intros i b Hi. rewrite B1 in Hi. pose proof (lookup_lt_Some _ _ _ Hi) as Hil. rewrite length_app in Hil. cbn [length] in Hil. rewrite list_lookup_inserts by (rewrite ?length_app; cbn [length]; lia). by replace (a + i - a)%nat with i by lia. }
    destruct (IH (a + length (archived (nm, c)))%nat _ u1 Hh1 HF S1 A1) as (u2 & d2 & E2 & Hh2 & S2 & L2 & St2 & K2 & A2 & X2 & B2 & P2).
    + rewrite length_inserts. lia.
    + by rewrite length_inserts.
    + left. intros i b Hi. cbn in Hi. destruct i as [|i]; [|done]. rewrite <- Nat.add_assoc. apply Hst. rewrite Nat.add_0_r, lookup_app_r, Nat.sub_diag by lia. exact Hi.
    + exists u2, d2. rewrite length_inserts in L2. split; [exact E2|]. split; [done|]. split; [done|]. split; [done|]. split.
      { intros i b Hi. rewrite <- app_assoc in Hi. destruct (decide (i < length (archived (nm, c)))%nat) as [Hl|Hl].
        - rewrite lookup_app_l in Hi by done. rewrite K2 by lia. apply Hst. by rewrite lookup_app_l.
        - rewrite lookup_app_r in Hi by lia. apply St2 in Hi. by replace (a + length (archived (nm, c)) + (i - length (archived (nm, c))))%nat with (a + i)%nat in Hi by lia. }
      split; [intros i Hi; rewrite K2, list_lookup_inserts_lt by lia; done|]. split; [rewrite A2, length_app; lia|]. split; [congruence|]. split; [congruence|]. rewrite P2, P1, <- app_assoc. done.
Qed.

(** ** Extracting *)

Lemma next_sector_ok u d k b : scratch u = Some d -> extract_sector u = Z.of_nat k -> d !! k = Some b -> Z.of_nat (length d) < 2 ^ 32 ->
  next_sector u = Ok (b, with_extract u (Z.of_nat (S k))).
Proof.
  intros Hd Hk Hb Hs. pose proof (lookup_lt_Some _ _ _ Hb). unfold next_sector. erewrite stbind_step by reflexivity. cbv zeta. erewrite stbind_step by reflexivity.
  unfold scratch_read. erewrite stbind_step by (unfold scratch_device; erewrite stbind_step by reflexivity; cbn [scratch with_extract]; rewrite Hd; reflexivity).
  rewrite Hk, Nat2Z.id, Hb, u32_small by (unfold is_u32; lia). unfold mret, stM_ret. do 3 f_equal. lia.
Qed.

(** A file of which the first [p] bytes are copied. *)
Definition partial (c : list Z) (p : Z) : list Z := take (Z.to_nat p) c ++ replicate (length c - Z.to_nat p) 0.

Lemma partial_step c p ch : 0 <= p -> 0 <= ch -> p + ch <= Z.of_nat (length c) ->
  list_inserts (Z.to_nat p) (take (Z.to_nat ch) (drop (Z.to_nat p) c)) (partial c p) = partial c (p + ch).
Proof.
  intros H1 H2 H3. unfold partial. set (i := Z.to_nat p). set (n := Z.to_nat ch). replace (Z.to_nat (p + ch)) with (i + n)%nat by lia.
  assert (Hi : length (take i c) = i) by (rewrite length_take; lia). replace i with (length (take i c) + 0)%nat at 1 by lia. rewrite list_inserts_app_r, <- take_take_drop, <- app_assoc. f_equal.
  replace (length c - i)%nat with (n + (length c - (i + n)))%nat by lia. rewrite replicate_add. apply list_inserts_0_r. rewrite length_take, length_drop, length_replicate. lia.
Qed.

Lemma data_sector_take c j ch : (512 * j + ch <= length c)%nat -> (ch = 512 \/ 512 * j + ch = length c)%nat -> (ch <= 512)%nat -> take ch (data_sector c j) = take ch (drop (512 * j) c).
Proof.
  intros H1 H2 H3. unfold data_sector. set (b := take 512 (drop (512 * j) c)). assert (Hb : length b = ch) by (unfold b; rewrite length_take, length_drop; lia).
  rewrite take_app_le by lia. unfold b. by rewrite take_take, Nat.min_l by lia.
Qed.

Section Copy.
Context (k : inode) (rd : inode_disk) (ext : area -> option (nat * nat)) (nm : list Z) (sec : Z) (id : inode_disk) (fip : Z) (f : file) (ip fp : Z).

#[local] Abbreviation in_file M pos s := (in_file k rd ext M nm sec id fip f ip fp pos s).

(** What an extraction leaves as it is. *)
Definition same_scratch (u u' : util) : Prop := scratch u' = scratch u /\ append_sector u' = append_sector u /\ behind u' = behind u /\ printed u' = printed u.

(** The loop that fills a new file: [n] sectors from sector [j] of the file on. *)
Lemma copy_in_ok M c n : forall fuel j a d u p, p = Z.min (512 * Z.of_nat j) (Z.of_nat (length c)) -> in_file (<[nm := partial c p]> M) p (fsys u) -> contents (fsys u) (opened sec id) = partial c p -> fits c ->
  sectors_of (Z.of_nat (length c) - p) = n -> (n < fuel)%nat -> scratch u = Some d -> extract_sector u = Z.of_nat a -> stored d a (data_sectors c j n) -> Z.of_nat (length d) < 2 ^ 32 ->
  exists u' pos, copy_in fuel fp (Z.of_nat (length c) - p) u = Ok (tt, u') /\ in_file (<[nm := c]> M) pos (fsys u') /\ extract_sector u' = Z.of_nat (a + n) /\ same_scratch u u'.
Proof.
  induction n as [|n IH]; intros [|fuel] j a d u p Hp Ho Hc Hf Hn Hfu Hd Ha Hst Hs; try lia; cbn [copy_in].
  - apply sectors_none in Hn; [|lia]. rewrite (proj2 (Z.ltb_ge _ _)) by lia. eexists u, _. split; [reflexivity|]. rewrite Nat.add_0_r. split; [|done].
    unfold partial in Ho. rewrite take_ge in Ho by lia. replace (length c - Z.to_nat p)%nat with 0%nat in Ho by lia. cbn [replicate] in Ho. rewrite app_nil_r in Ho. exact Ho.
  - set (r := Z.of_nat (length c) - p) in *. destruct (sectors_step r n Hn) as [Hr Hn']. rewrite (proj2 (Z.ltb_lt _ _)) by done.
    assert (Hp2 : p = 512 * Z.of_nat j) by lia. set (ch := if BLOCK_SECTOR_SIZE <? r then BLOCK_SECTOR_SIZE else r).
    assert (Hch : ch = Z.min 512 r) by (unfold ch, BLOCK_SECTOR_SIZE; case_match; lia). clearbody ch.
    rewrite data_sectors_S in Hst. apply stored_cons in Hst as [Hb Hst]. erewrite stbind_step by (eapply next_sector_ok; [exact Hd|exact Ha|exact Hb|done]).
    rewrite (data_sector_take c j (Z.to_nat ch)) by lia. replace (512 * j)%nat with (Z.to_nat p) by lia. set (bs := take (Z.to_nat ch) (drop (Z.to_nat p) c)).
    assert (Hbs : Z.of_nat (length bs) = ch) by (unfold bs; rewrite length_take, length_drop; lia). unfold fits in Hf.
    destruct (write_ok k rd ext nm sec id fip f ip fp _ p (fsys u) bs Ho) as (s1 & E1 & Ho1 & C1); [lia|unfold is_s32; lia|]. rewrite Hbs in *.
    assert (Hlen : length_ id = Z.of_nat (length c)).
    { pose proof (file_ok _ _ _ _ _ (l_inv _ _ _ _ _ _ _ _ _ _ _ _ _ Ho) _ _ _ (l_at _ _ _ _ _ _ _ _ _ _ _ _ _ Ho)) as Hok. pose proof (length_contents _ _ Hok) as Hl. rewrite Hc in Hl. unfold partial in Hl. rewrite length_app, length_take, length_replicate in Hl.
      destruct (l_at _ _ _ _ _ _ _ _ _ _ _ _ _ Ho) as (_ & _ & _ & _ & _ & G2 & _). cbn [opened data] in Hl. lia. }
    assert (Hav : avail (opened sec id) ch p = Z.to_nat ch) by (unfold avail; cbn [opened data]; rewrite Hlen; lia). rewrite Hav, Z2Nat.id, Hc in * by lia.
    rewrite (take_ge bs) in Ho1, C1 by lia. unfold bs in Ho1, C1. rewrite partial_step in Ho1, C1 by lia. rewrite insert_insert_eq, s32_small in Ho1 by (unfold is_s32; lia).
    erewrite stbind_step by (apply on_fs_step, E1). rewrite Z.eqb_refl. cbn [negb].
    match goal with |- exists _ _, copy_in _ _ _ ?st = _ /\ _ => set (u1 := st) end. replace (r - ch) with (Z.of_nat (length c) - (p + ch)) by lia.
    destruct (IH fuel (S j) (S a) d u1 (p + ch)) as (u' & pos & E & Hfin & Hx & Hsame); [lia|exact Ho1|exact C1|done| |lia|exact Hd|reflexivity|exact Hst|done|].
    { rewrite <- Hn'. f_equal. lia. }
    exists u', pos. split; [exact E|]. split; [done|]. split; [rewrite Hx; lia|exact Hsame].
Qed.

End Copy.

Definition extract_text (nm : list Z) : list Z := chars "Putting '" ++ nm ++ chars "' into the file system..." ++ nl.

(** Extracting one file works, unless the directory or the device is full. *)
Lemma extract_file_ok junk M nm c a d u : length junk = 20%nat -> holds M (fsys u) -> plain_name nm -> M !! nm = None -> fits c ->
  scratch u = Some d -> extract_sector u = Z.of_nat a -> stored d a (data_sectors c 0 (size_of c)) -> Z.of_nat (length d) < 2 ^ 32 ->
  (exists u', extract_file junk nm (Z.of_nat (length c)) u = Ok (tt, u') /\ holds (<[nm := c]> M) (fsys u') /\ extract_sector u' = Z.of_nat (a + size_of c) /\ scratch u' = scratch u /\ printed u' = printed u ++ extract_text nm) \/
  (extract_file junk nm (Z.of_nat (length c)) u = Err EPanic /\ (full (fsys u) \/ no_room (fsys u) (size_of c))).
Proof.
  intros Hj (k & rd & ext & Hv & Hq) Hn HM Hf Hd Ha Hst Hs. unfold extract_file. erewrite stbind_step by reflexivity. match goal with |- context[with_printed u ?x] => change x with (printed u ++ extract_text nm) end. set (u0 := with_printed u (printed u ++ extract_text nm)).
  destruct (create_ok junk k rd ext M (fsys u0) nm (Z.of_nat (length c)) Hv Hq (proj1 Hn) Hj) as (r & s1 & ext1 & E1 & Hq1 & Hv1 & Hr); [lia|done|]. erewrite stbind_step by (apply on_fs_step, E1). destruct Hn as (Hn1 & Hn2 & Hn3). destruct r; cbn [negb].
  - left. destruct (open_found k rd ext1 _ s1 nm _ Hv1 Hq1 Hn1 (lookup_insert_eq _ _ _)) as (s2 & sec & id & fip & f & ip & fp & E2 & Ho2 & C2). erewrite stbind_step by (apply on_fs_step, E2). rewrite (proj2 (Z.eqb_neq fp 0)) by apply Ho2.
    assert (Hz : partial c 0 = replicate (Z.to_nat (Z.of_nat (length c))) 0) by (unfold partial; rewrite Nat2Z.id, Nat.sub_0_r; done).
    destruct (copy_in_ok k rd ext1 nm sec id fip f ip fp M c (size_of c) (S (Z.to_nat (Z.of_nat (length c)))) 0 a d (with_fsys (with_fsys u0 s1) s2) 0) as (u3 & pos & E3 & Ho3 & X3 & S3 & _ & _ & P3); [lia| | |done| | |done|done|done|done|].
    + rewrite Hz. exact Ho2.
    + rewrite Hz. exact C2.
    + unfold size_of. f_equal. lia.
    + unfold size_of, sectors_of. Z.to_euclidean_division_equations. lia.
    + rewrite Z.sub_0_r in E3. erewrite stbind_step by exact E3. destruct (close_ok k rd ext1 nm sec id fip f ip fp _ pos (fsys u3) Ho3) as (s4 & E4 & Hv4 & Hq4). eexists. split; [apply on_fs_step, E4|]. split; [by exists k, rd, ext1|]. split; [exact X3|]. split; [exact S3|exact P3].
  - right. split; [done|]. destruct Hr as [->|[Hr|[Hr|[Hr|Hr]]]]; [by destruct Hn2|lia|rewrite HM in Hr; by destruct Hr| |by right].
    left. exists (inode_disk_bytes rd). split; [apply Hv|]. by rewrite (root_disk _ _ _ _ _ Hv).
Qed.

(** The loop of fsutil_extract on the first files of an archive. *)
Fixpoint put_files (junk : list Z) (files : list (list Z * list Z)) : stM util unit :=
  match files with [] => mret tt | f :: files => next_sector;; extract_file junk f.1 (Z.of_nat (length f.2));; put_files junk files end.

(** The directory or the device is full after some of the files. *)
Definition stops (before : list (list Z * list Z) -> stM util unit) (u : util) (M : gmap (list Z) (list Z)) (files : list (list Z * list Z)) : Prop :=
  exists files1 f files2 u1, files = files1 ++ f :: files2 /\ before files1 u = Ok (tt, u1) /\ holds (list_to_map files1 ∪ M) (fsys u1) /\ (full (fsys u1) \/ no_room (fsys u1) (size_of f.2)).

Lemma union_insert_swap (nm c : list Z) (m M : gmap (list Z) (list Z)) : m !! nm = None -> m ∪ <[nm := c]> M = <[nm := c]> m ∪ M.
Proof. intros H. rewrite <- insert_union_l, <- insert_union_r by done. done. Qed.

Lemma not_in_map (nm : list Z) (files : list (list Z * list Z)) : nm ∉ files.*1 -> (list_to_map files : gmap (list Z) (list Z)) !! nm = None.
Proof. apply not_elem_of_list_to_map_1. Qed.

Lemma extract_loop_ok junk b files : length junk = 20%nat -> forall fuel M a d u, holds M (fsys u) -> Forall (fun f => plain_name f.1 /\ fits f.2 /\ M !! f.1 = None) files -> NoDup files.*1 ->
  scratch u = Some d -> extract_sector u = Z.of_nat a -> stored d a (archive files ++ [marker b]) -> Z.of_nat (length d) < 2 ^ 32 -> (length files < fuel)%nat ->
  (exists u', put_files junk files u = Ok (tt, u') /\ holds (list_to_map files ∪ M) (fsys u') /\ scratch u' = Some d /\ printed u' = printed u ++ concat (extract_text <$> files.*1) /\
     extract_loop fuel junk u = if b =? 0 then Ok (tt, with_extract u' (Z.of_nat (a + length (archive files) + 1))) else Err EPanic) \/
  (extract_loop fuel junk u = Err EPanic /\ stops (put_files junk) u M files).
Proof.
  intros Hj. induction files as [|[nm c] files IH]; intros [|fuel] M a d u Hh HF HN Hd Ha Hst Hs Hfu; cbn [length] in Hfu; try lia; cbn [extract_loop put_files].
  - left. apply stored_cons in Hst as [Hb _]. exists u. split; [done|]. split; [by rewrite list_to_map_nil, map_empty_union|]. split; [done|]. split; [by rewrite app_nil_r|].
    erewrite stbind_step by (eapply next_sector_ok; [exact Hd|exact Ha|exact Hb|done]). destruct (Z.eqb_spec b 0) as [->|Hnb].
    + erewrite stbind_step by (unfold lift; rewrite marker_zero; reflexivity). cbn [archive fmap list_fmap concat length]. replace (a + 0 + 1)%nat with (S a) by lia. reflexivity.
    + destruct (marker_bad b Hnb) as (e & Ee). erewrite stbind_step by (unfold lift; rewrite Ee; reflexivity). reflexivity.
  - apply Forall_cons in HF as [(Hn & Hf & HM) HF]. cbn [fst snd] in *. apply NoDup_cons in HN as [Hni HN].
    rewrite archive_cons, <- app_assoc in Hst. apply stored_app in Hst as [Hst1 Hst2]. unfold archived in Hst1. cbn [fst snd] in Hst1. apply stored_cons in Hst1 as [Hb Hst1].
    pose proof (next_sector_ok u d a _ Hd Ha Hb Hs) as En. destruct (header_for_Ok nm c Hn Hf) as (_ & _ & Ep). set (u0 := with_extract u (Z.of_nat (S a))) in *.
    destruct (extract_file_ok junk M nm c (S a) d u0 Hj Hh Hn HM Hf Hd eq_refl Hst1 Hs) as [(u1 & E1 & Hh1 & X1 & S1 & P1)|(E1 & Hfull)].
    + assert (Hla : (a + length (archived (nm, c)) = S a + size_of c)%nat) by (unfold archived; cbn [length fst snd]; rewrite length_data_sectors; lia). rewrite Hla in Hst2.
      assert (Hm : (list_to_map files : gmap _ _) ∪ <[nm := c]> M = list_to_map ((nm, c) :: files) ∪ M) by (rewrite list_to_map_cons; by apply union_insert_swap, not_in_map).
      assert (Hput : forall l, put_files junk ((nm, c) :: l) u = put_files junk l u1).
      { intros l. cbn [put_files fst snd]. erewrite stbind_step by exact En. erewrite stbind_step by exact E1. done. }
      assert (Hloop : extract_loop (S fuel) junk u = extract_loop fuel junk u1).
      { cbn [extract_loop]. erewrite stbind_step by exact En. erewrite stbind_step by (unfold lift; rewrite Ep; reflexivity). cbn [USTAR_REGULAR USTAR_EOF USTAR_DIRECTORY Z.eqb Pos.eqb default]. unfold id at 1. erewrite stbind_step by exact E1. done. }
      destruct (IH fuel (<[nm := c]> M) (S a + size_of c)%nat d u1) as [(u' & E' & Hh' & S' & P' & L')|(E' & files1 & g & files2 & u2 & Hfs & E2 & Hh2 & Hfull)]; [done| |done|by rewrite S1|exact X1|exact Hst2|done|lia| |].
      { apply Forall_forall. intros g Hg. rewrite Forall_forall in HF. destruct (HF g Hg) as (A1 & A2 & A3). split; [done|]. split; [done|]. rewrite lookup_insert_ne; [done|]. intros ->. apply Hni. exact (list_elem_of_fmap_2 fst files g Hg). }
      * left. exists u'. rewrite <- Hm. split; [by rewrite <- E', <- Hput|]. split; [done|]. split; [done|]. split; [rewrite P', P1, <- app_assoc; done|]. change (extract_loop (S fuel) junk u = if b =? 0 then Ok ((), with_extract u' (Z.of_nat (a + length (archive ((nm, c) :: files)) + 1))) else Err EPanic).
        rewrite Hloop, L'. destruct (b =? 0); [|done]. do 4 f_equal. rewrite archive_cons, length_app. lia.
      * right. split; [by rewrite <- E', <- Hloop|]. exists ((nm, c) :: files1), g, files2, u2. split; [by rewrite Hfs|]. split; [by rewrite Hput|]. split; [|done]. rewrite list_to_map_cons, <- union_insert_swap; [done|].
        apply not_in_map. intros Hin. apply list_elem_of_fmap in Hin as (x & Hx & Hin). apply Hni. rewrite Hx. apply (list_elem_of_fmap_2 fst files x). rewrite Hfs. apply elem_of_app. by left.
    + right. split.
      * erewrite stbind_step by exact En. erewrite stbind_step by (unfold lift; rewrite Ep; reflexivity). cbn [USTAR_REGULAR USTAR_EOF USTAR_DIRECTORY Z.eqb Pos.eqb default]. unfold id at 1. erewrite stbind_err by exact E1. done.
      * exists [], (nm, c), files, u. split; [done|]. split; [done|]. split; [by rewrite list_to_map_nil, map_empty_union|exact Hfull].
Qed.

(** fsutil_extract up to the end of the first files. *)
Definition extract_first (junk : list Z) (files : list (list Z * list Z)) : stM util unit :=
  on_fs malloc;; on_fs malloc;; print (chars "Extracting ustar archive from scratch device into file system..." ++ nl);; put_files junk files.

(** fsutil_extract on an archive that starts in sector 0. *)
Lemma extract_ok junk b files M d u : length junk = 20%nat -> holds M (fsys u) -> Forall (fun f => plain_name f.1 /\ fits f.2 /\ M !! f.1 = None) files -> NoDup files.*1 -> files <> [] ->
  scratch u = Some d -> extract_sector u = 0 -> stored d 0 (archive files ++ [marker b]) -> (length (archive files) < length d)%nat -> Z.of_nat (length d) < 2 ^ 32 ->
  (exists u', extract_first junk files u = Ok (tt, u') /\ holds (list_to_map files ∪ M) (fsys u') /\
     if b =? 0 then exists u'', fsutil_extract junk u = Ok (tt, u'') /\ fsys u'' = fsys u' /\ scratch u'' = Some (list_inserts 0 [replicate 512 0; replicate 512 0] d)
     else fsutil_extract junk u = Err EPanic) \/
  (fsutil_extract junk u = Err EPanic /\ stops (extract_first junk) u M files).
Proof.
  intros Hj Hh HF HN Hne Hd Ha Hst Hlt Hs. destruct (holds_malloc M (fsys u) Hh) as (s1 & E1 & Hh1). destruct (holds_malloc M s1 Hh1) as (s2 & E2 & Hh2).
  set (text := chars "Extracting ustar archive from scratch device into file system..." ++ nl). set (u0 := with_printed (with_fsys (with_fsys u s1) s2) (printed u ++ text)).
  assert (Hfirst : forall l, extract_first junk l u = put_files junk l u0).
  { intros l. unfold extract_first. erewrite stbind_step by (apply on_fs_step, E1). erewrite stbind_step by (apply on_fs_step, E2). erewrite stbind_step by reflexivity. done. }
  assert (Hex : fsutil_extract junk u = (extract_loop (S (length d)) junk;; print (chars "Erasing ustar archive..." ++ nl);; scratch_write 0 (replicate 512 0);; scratch_write 1 (replicate 512 0)) u0).
  { unfold fsutil_extract. erewrite stbind_step by (apply on_fs_step, E1). erewrite stbind_step by (apply on_fs_step, E2). cbn [negb orb].
    erewrite stbind_step by (unfold scratch_device; erewrite stbind_step by reflexivity; cbn [scratch with_fsys]; rewrite Hd; reflexivity). erewrite stbind_step by reflexivity. done. }
  assert (Hlen : (length files <= length (archive files))%nat).
  { clear. induction files as [|f files IH]; [done|]. rewrite archive_cons, length_app. unfold archived. cbn [length]. lia. }
  destruct (extract_loop_ok junk b files Hj (S (length d)) M 0 d u0 Hh2 HF HN Hd Ha Hst Hs ltac:(lia)) as [(u' & E' & Hh' & S' & _ & L')|(E' & files1 & g & files2 & u1 & Hfs & Ep & Hrest)].
  - left. exists u'. split; [by rewrite Hfirst|]. split; [done|]. rewrite Hex. destruct (b =? 0); [|erewrite stbind_err by exact L'; done].
    erewrite stbind_step by exact L'. erewrite stbind_step by reflexivity. assert (2 <= length d)%nat by (destruct files as [|f files]; [done|]; cbn [length] in Hlen; lia).
    erewrite stbind_step by (apply (scratch_write_ok _ d 0); [exact S'|lia]). rewrite (scratch_write_ok _ (<[0%nat := replicate 512 0]> d) 1); [|done|rewrite length_insert; lia]. eexists. split; [reflexivity|]. split; [done|].
    cbn [scratch with_scratch]. f_equal. cbn [list_inserts]. rewrite list_insert_insert_ne by lia. done.
  - right. split; [rewrite Hex; by erewrite stbind_err by exact E'|]. exists files1, g, files2, u1. split; [done|]. split; [by rewrite Hfirst|done].
Qed.

(** ** Listing, printing and deleting *)

(** Reading the directory from entry [k] on finds the first entry in use. *)
Lemma readdir_loop_ok ip i fuel : forall s k, dir_ok s (MkDir ip 0) i -> mallocs_ok s -> (k <= length (contents s i) / 20)%nat -> (length (contents s i) / 20 - k < fuel)%nat ->
  let used k := filter (fun e => e_in_use e = true) (drop k (entries (contents s i))) in
  exists m r d', dir_readdir_loop fuel (MkDir ip (Z.of_nat (k * 20))) s = Ok (r, d', with_mallocs s m) /\ Forall (fun b => b = true) m /\
    match r with
    | None => used k = []
    | Some nm => exists k' e, (k < k' <= length (contents s i) / 20)%nat /\ d' = MkDir ip (Z.of_nat (k' * 20)) /\ nm = e_name e /\ used k = e :: used k'
    end.
Proof.
  induction fuel as [|fuel IH]; intros s k Hd Hm Hk Hf; [lia|]. cbv zeta. cbn [dir_readdir_loop d_inode d_pos].
  destruct (read_entry s (MkDir ip 0) i k Hd Hm Hk) as (bs & m & E & Hm' & Hbs). cbn [d_inode] in E. erewrite stbind_step by exact E.
  destruct (entries (contents s i) !! k) as [e|] eqn:Ee.
  - destruct Hbs as [-> Hl]. rewrite Hl. change (Z.of_nat 20 =? sizeof_dir_entry) with true. cbv iota. pose proof (lookup_lt_Some _ _ _ Ee) as Hlt. rewrite length_entries in Hlt.
    replace (Z.of_nat (k * 20) + sizeof_dir_entry) with (Z.of_nat (S k * 20)) by (unfold sizeof_dir_entry; lia). rewrite (drop_S _ _ _ Ee), filter_cons. destruct (e_in_use e) eqn:Eu.
    + exists m, (Some (e_name e)), (MkDir ip (Z.of_nat (S k * 20))). split; [done|]. split; [done|]. exists (S k), e. split; [lia|]. by rewrite decide_True.
    + destruct (IH (with_mallocs s m) (S k) Hd Hm') as (m2 & r & d' & E2 & Hm2 & Hr); [exact Hlt|change (contents (with_mallocs s m) i) with (contents s i); lia|].
      exists m2, r, d'. split; [exact E2|]. split; [done|]. rewrite decide_False by done. destruct r as [nm|]; [|exact Hr]. destruct Hr as (k' & e' & Hk' & Hrest). exists k', e'. split; [change (contents (with_mallocs s m) i) with (contents s i) in Hk'; lia|exact Hrest].
  - rewrite (proj2 (Z.eqb_neq _ _)) by (unfold sizeof_dir_entry; lia). exists m, None, (MkDir ip (Z.of_nat (k * 20))). split; [done|]. split; [done|]. rewrite drop_ge by (by apply lookup_ge_None). done.
Qed.

(** The lines of a listing. *)
Definition listing (names : list (list Z)) : list Z := concat ((fun nm => nm ++ nl) <$> names).

Lemma ls_loop_ok ip i fuel : forall u k, dir_ok (fsys u) (MkDir ip 0) i -> mallocs_ok (fsys u) -> 0 <= length_ (data i) -> (k <= length (contents (fsys u) i) / 20)%nat -> (length (contents (fsys u) i) / 20 - k < fuel)%nat ->
  exists m, ls_loop fuel (MkDir ip (Z.of_nat (k * 20))) u =
    Ok (tt, with_printed (with_fsys u (with_mallocs (fsys u) m)) (printed u ++ listing (name_of <$> filter (fun e => e_in_use e = true) (drop k (entries (contents (fsys u) i)))))) /\ Forall (fun b => b = true) m.
Proof.
  induction fuel as [|fuel IH]; intros u k Hd Hm Hi Hk Hf; [lia|]. cbn [ls_loop].
  destruct (readdir_loop_ok ip i (S (Z.to_nat (length_ (data i)))) (fsys u) k Hd Hm Hk) as (m & r & d' & E & Hm' & Hr).
  { pose proof (length_contents (fsys u) i (proj1 (proj2 Hd))) as Hlc. rewrite Hlc. pose proof (div20 (Z.to_nat (length_ (data i)))). lia. }
  assert (Ed : dir_readdir (MkDir ip (Z.of_nat (k * 20))) (fsys u) = Ok (r, d', with_mallocs (fsys u) m)).
  { unfold dir_readdir. erewrite stbind_step by (unfold dir_fuel; erewrite stbind_step by (apply get_inode_Ok, Hd); reflexivity). exact E. }
  erewrite stbind_step by (apply on_fs_step, Ed). destruct r as [nm|].
  - destruct Hr as (k' & e & Hk' & -> & -> & ->). erewrite stbind_step by reflexivity.
    match goal with |- context[ls_loop _ _ ?st] => set (u1 := st) end.
    destruct (IH u1 k' Hd Hm' Hi ltac:(change (contents (fsys u1) i) with (contents (fsys u) i); lia) ltac:(change (contents (fsys u1) i) with (contents (fsys u) i); lia)) as (m2 & E2 & Hm2).
    exists m2. split; [|done]. rewrite E2. do 2 f_equal. unfold u1, with_printed, with_fsys. cbn [fsys scratch extract_sector append_sector behind printed]. f_equal. unfold listing. cbn [fmap list_fmap concat]. rewrite <- !app_assoc. done.
  - exists m. split; [|done]. rewrite Hr. cbn [fmap list_fmap listing concat]. rewrite app_nil_r. done.
Qed.

Definition names_in_use (es : list (list Z)) : list (list Z) := name_of <$> filter (fun e => e_in_use e = true) es.

Lemma elem_of_names es nm : nm ∈ names_in_use es <-> exists k e, es !! k = Some e /\ e_in_use e = true /\ name_of e = nm.
Proof.
  unfold names_in_use. rewrite list_elem_of_fmap. split.
  - intros (e & -> & He). apply list_elem_of_filter in He as [Hu He]. apply list_elem_of_lookup in He as [k Hk]. by exists k, e.
  - intros (k & e & Hk & Hu & <-). exists e. split; [done|]. apply list_elem_of_filter. split; [done|]. by eapply list_elem_of_lookup_2.
Qed.

Lemma NoDup_names es : (forall k1 k2 e1 e2, es !! k1 = Some e1 -> es !! k2 = Some e2 -> e_in_use e1 = true -> e_in_use e2 = true -> name_of e1 = name_of e2 -> k1 = k2) -> NoDup (names_in_use es).
Proof.
  induction es as [|e es IH]; intros H; [apply NoDup_nil; done|]. assert (IH' : NoDup (names_in_use es)).
  { apply IH. intros k1 k2 e1 e2 H1 H2 U1 U2 E. assert (S k1 = S k2) by (by eapply (H (S k1) (S k2))). lia. }
  unfold names_in_use. rewrite filter_cons. destruct (decide (e_in_use e = true)) as [Hu|]; [|exact IH']. cbn [fmap list_fmap]. apply NoDup_cons. split; [|exact IH'].
  intros Hin. apply elem_of_names in Hin as (k & e' & Hk & Hu' & En). assert (0%nat = S k) by (by eapply (H 0%nat (S k) e e')). lia.
Qed.

(** The names in the directory are those of the files. *)
Lemma names_files k rd ext M s : inv k rd ext M s -> NoDup (names_in_use (entries (contents s (root rd)))) /\ forall nm, nm ∈ names_in_use (entries (contents s (root rd))) <-> is_Some (M !! nm).
Proof.
  intros Hv. pose proof (v_dir _ _ _ _ _ Hv) as Hw. split; [by apply NoDup_names, Hw|]. intros nm. rewrite elem_of_names. split.
  - intros (j & e & Hj & Hu & Hn). assert (Hs : names s rd !! nm = Some (e_inode_sector e)) by (unfold names; rewrite (dirmap_Some _ _ _ Hw); by exists j, e).
    destruct (v_file _ _ _ _ _ Hv nm _ Hs) as (id & _ & ->). by eexists.
  - intros [c Hc]. destruct (names s rd !! nm) as [sec|] eqn:En; [|by rewrite (v_none _ _ _ _ _ Hv nm En) in Hc]. unfold names in En. rewrite (dirmap_Some _ _ _ Hw) in En. destruct En as (j & e & Hj & Hu & Hn & _). by exists j, e.
Qed.

(** The pages of a file from page [j] on, dumped one after the other. *)
Fixpoint dump_pages (n j : nat) (c text : list Z) : res (list Z) :=
  match n with
  | O => Ok text
  | S n => text ← hex_dump (4096 * Z.of_nat j) (take 4096 (drop (4096 * j) c)) true text; dump_pages n (S j) c text
  end.

Definition pages_of (c : list Z) : nat := Z.to_nat ((Z.of_nat (length c) + 4095) / 4096).

Lemma dump_pages_Ok c n : forall j text, exists t, dump_pages n j c text = Ok (text ++ t).
Proof.
  induction n as [|n IH]; intros j text; cbn [dump_pages]; [exists []; by rewrite app_nil_r|]. destruct (hex_dump_Ok (4096 * Z.of_nat j) (take 4096 (drop (4096 * j) c)) true text ltac:(lia)) as (t & ->). cbn [mbind res_bind].
  destruct (IH (S j) (text ++ t)) as (t' & ->). exists (t ++ t'). by rewrite app_assoc.
Qed.

Section Print.
Context (k : inode) (rd : inode_disk) (ext : area -> option (nat * nat)) (nm : list Z) (sec : Z) (id : inode_disk) (fip : Z) (f : file) (ip fp : Z).

#[local] Abbreviation in_file M pos s := (in_file k rd ext M nm sec id fip f ip fp pos s).

Lemma cat_loop_ok M c n : forall fuel j u p, p = Z.min (4096 * Z.of_nat j) (Z.of_nat (length c)) -> in_file M p (fsys u) -> contents (fsys u) (opened sec id) = c -> fits c ->
  Z.to_nat ((Z.of_nat (length c) - p + 4095) / 4096) = n -> (n < fuel)%nat ->
  exists u' pos, cat_loop fuel fp u = Ok (tt, u') /\ in_file M pos (fsys u') /\ dump_pages n j c (printed u) = Ok (printed u') /\ scratch u' = scratch u.
Proof.
  induction n as [|n IH]; intros [|fuel] j u p Hp Ho Hc Hf Hn Hfu; try lia; cbn [cat_loop dump_pages]; unfold fits in Hf;
    (erewrite stbind_step by (apply on_fs_step; unfold file_tell; erewrite stbind_step by (apply assertM_true; rewrite (proj2 (Z.eqb_neq fp 0)); [done|apply Ho]); erewrite stbind_step by (by apply (get_open k rd ext nm sec id fip f ip fp M p)); reflexivity));
    destruct (read_ok k rd ext nm sec id fip f ip fp M p (fsys u) PGSIZE Ho ltac:(lia) ltac:(unfold is_s32; lia) ltac:(unfold PGSIZE; lia)) as (s1 & E1 & Ho1 & C1);
    (erewrite stbind_step by (apply on_fs_step; exact E1)); rewrite Hc in *; set (bs := take (Z.to_nat PGSIZE) (drop (Z.to_nat p) c)) in *;
    assert (Hl : Z.of_nat (length bs) = Z.min 4096 (Z.of_nat (length c) - p)) by (unfold bs, PGSIZE; rewrite length_take, length_drop; lia); rewrite Hl in *.
  - assert (Z.of_nat (length c) - p = 0) by (Z.to_euclidean_division_equations; lia). replace (_ =? 0) with true by (symmetry; apply Z.eqb_eq; lia). eexists _, _. split; [reflexivity|]. split; [exact Ho1|done].
  - assert (Hr : 0 < Z.of_nat (length c) - p) by (Z.to_euclidean_division_equations; lia). rewrite (proj2 (Z.eqb_neq _ _)) by lia. assert (Hp2 : p = 4096 * Z.of_nat j) by lia. erewrite stbind_step by reflexivity. cbn [printed with_fsys f_pos].
    destruct (hex_dump_Ok (u32 p) bs true (printed u) ltac:(apply u32_range)) as (t & Et). erewrite stbind_step by (unfold lift; rewrite Et; reflexivity). erewrite stbind_step by reflexivity.
    rewrite u32_small in Et by (unfold is_u32; lia). rewrite Hp2 in Et at 1. replace bs with (take 4096 (drop (4096 * j) c)) in Et by (unfold bs; rewrite Hp2; f_equal; f_equal; lia). rewrite Et. cbn [mbind res_bind].
    match goal with |- exists _ _, cat_loop _ _ ?st = _ /\ _ => set (u1 := st) end. rewrite s32_small in Ho1 by (unfold is_s32; lia).
    destruct (IH fuel (S j) u1 (p + Z.min 4096 (Z.of_nat (length c) - p))) as (u' & pos & E & Hin & Hd & Hs); [lia|exact Ho1|exact C1|done| |lia|].
    { Z.to_euclidean_division_equations; lia. }
    exists u', pos. split; [exact E|]. split; [done|]. split; [exact Hd|exact Hs].
Qed.

End Print.

(** ** Claims *)

(** C33. Files survive the archive, if their names have 1 to 14 characters, do not begin with /, ./ or ../ and are not .. (ustar strips these prefixes), no file is open on either machine and all allocations succeed (the code panics otherwise): appending files of a file system to an empty archive on a large enough scratch device leaves the file system as it was; extracting the archive, on a machine that has none of these files, gives files of the same names with the same contents, next to those it had, and erases the start of the archive; unless its directory or its device is full after the first of them, when the kernel panics. All this if the byte behind the buffer of fsutil_append is zero: otherwise the end of the archive is not recognised, and extraction panics after the last file. *)
Theorem archive_roundtrip junk M files d u M2 s2 :
  length junk = 20%nat -> files <> [] -> NoDup files.*1 -> Forall (fun f => plain_name f.1 /\ M !! f.1 = Some f.2 /\ M2 !! f.1 = None) files ->
  holds M (fsys u) -> holds M2 s2 -> scratch u = Some d -> append_sector u = 0 -> extract_sector u = 0 ->
  (length (archive files) < length d)%nat -> Z.of_nat (length d) < 2 ^ 32 ->
  exists u1, append_all files.*1 u = Ok (tt, u1) /\ holds M (fsys u1) /\
    let machine := with_fsys u1 s2 in
    (exists u2, extract_first junk files machine = Ok (tt, u2) /\ holds (list_to_map files ∪ M2) (fsys u2) /\
       if behind u =? 0 then exists u3, fsutil_extract junk machine = Ok (tt, u3) /\ fsys u3 = fsys u2 /\ (exists d', scratch u3 = Some d' /\ take 2 d' = [replicate 512 0; replicate 512 0])
       else fsutil_extract junk machine = Err EPanic) \/
    (fsutil_extract junk machine = Err EPanic /\ stops (extract_first junk) machine M2 files).
Proof.
  intros Hj Hne HN HF Hh Hh2 Hd Ha Hx Hlt Hs.
  assert (Hlen : Forall (fun f => fits f.2) files).
  { apply (Forall_impl _ _ _ HF). intros [nm c] (Hn & HM & _). cbn [fst snd] in *. destruct Hh as (k & rd & ext & Hv & Hq). destruct (open_found k rd ext M (fsys u) nm c Hv Hq (proj1 Hn) HM) as (s & sec & id & fip & f & ip & fp & _ & Ho & <-). by eapply in_file_length. }
  destruct (append_all_ok M files 0 d u Hh) as (u1 & d1 & E1 & Hh1 & S1 & L1 & St1 & _ & A1 & X1 & B1 & _); [|done|done|done|done|by right|].
  { apply (Forall_impl _ _ _ HF). naive_solver. }
  exists u1. split; [done|]. split; [done|].
  destruct (extract_ok junk (behind u) files M2 d1 (with_fsys u1 s2) Hj Hh2) as [(u2 & E2 & Hh3 & Hr)|Hr]; [|done|done|done|by rewrite <- Hx|done|by rewrite L1|by rewrite L1| |by right].
  { apply Forall_forall. intros f Hf. rewrite Forall_forall in HF, Hlen. specialize (HF f Hf). specialize (Hlen f Hf). naive_solver. }
  left. exists u2. split; [done|]. split; [done|]. destruct (behind u =? 0); [|done]. destruct Hr as (u3 & E3 & F3 & S3). exists u3. split; [done|]. split; [done|]. eexists. split; [exact S3|].
  assert (Hl2 : (2 <= length d1)%nat) by (rewrite L1; destruct files as [|f files]; [done|]; rewrite archive_cons, length_app in Hlt; unfold archived in Hlt; cbn [length] in Hlt; lia).
  destruct d1 as [|x [|y d1]]; cbn in Hl2; [lia|lia|]. reflexivity.
Qed.

Definition demo_name : list Z := [97].
Definition demo_files : list (list Z * list Z) := [(demo_name, replicate 600 0)].
Definition demo_util (s : fs) : util := MkUtil s (Some (replicate 8 (replicate 512 0))) 0 0 0 [].

Lemma demo_plain : plain_name demo_name.
Proof. split; [constructor; [lia|constructor]|]. split; [repeat split; (discriminate || reflexivity)|cbn; lia]. Qed.

Lemma demo_holds : exists s, holds (list_to_map demo_files) s.
Proof.
  destruct (run_op_ok (replicate 20 0) (Create demo_name 600) ∅ formatted) as (r & s' & M' & E & Hs & Hh).
  - reflexivity.
  - split; [apply demo_plain|lia].
  - apply formatted_holds.
  - exists s'. assert (Hr : (match run_op (replicate 20 0) (Create demo_name 600) formatted with Ok (Success b, _) => b | _ => false end) = true) by (vm_compute; reflexivity).
    rewrite E in Hr. destruct Hs as [(_ & _ & _ & _ & ->)|(-> & _)]; [exact Hh|discriminate].
Qed.

Lemma archive_roundtrip_witness : exists s u1, append_all demo_files.*1 (demo_util s) = Ok (tt, u1) /\ holds (list_to_map demo_files) (fsys u1).
Proof.
  destruct demo_holds as (s & Hs). exists s.
  destruct (archive_roundtrip (replicate 20 0) (list_to_map demo_files) demo_files (replicate 8 (replicate 512 0)) (demo_util s) ∅ formatted) as (u1 & E & Hh & _).
  - reflexivity.
  - discriminate.
  - apply NoDup_singleton.
  - constructor; [|constructor]. split; [exact demo_plain|]. split; [apply lookup_insert_eq|apply lookup_empty].
  - exact Hs.
  - exact formatted_holds.
  - reflexivity.
  - reflexivity.
  - reflexivity.
  - vm_compute. lia.
  - vm_compute. reflexivity.
  - exists u1. split; [exact E|exact Hh].
Defined.

Definition cat_text (nm : list Z) : list Z := chars "Printing '" ++ nm ++ chars "' to the console..." ++ nl.

(** Listing, printing and deleting, on a file system that holds the files [M]: ls prints every name of [M] once, between its two lines, and leaves the root directory open; cat prints the dumps of the pages of the file, in order, and leaves the files alone; rm deletes the file; cat and rm of a file that does not exist are panics. *)
Theorem utilities_correct M u page nm : holds M (fsys u) -> valid_name nm ->
  (exists u' l, fsutil_ls u = Ok (tt, u') /\ NoDup l /\ (forall x, x ∈ l <-> is_Some (M !! x)) /\ dev (fsys u') = dev (fsys u) /\
     printed u' = printed u ++ (chars "Files in the root directory:" ++ nl) ++ listing l ++ chars "End of listing." ++ nl) /\
  match M !! nm with
  | Some c =>
      (if page : bool then exists u', fsutil_cat page nm u = Ok (tt, u') /\ holds M (fsys u') /\
         dump_pages (pages_of c) 0 c (printed u ++ cat_text nm ++ chars "This is the bastard one" ++ nl) = Ok (printed u')
       else fsutil_cat page nm u = Err EPanic) /\
      exists u', fsutil_rm nm u = Ok (tt, u') /\ holds (delete nm M) (fsys u')
  | None => fsutil_cat page nm u = Err EPanic /\ fsutil_rm nm u = Err EPanic
  end.
Proof.
  intros (k & rd & ext & Hv & Hq) Hn. split.
  - unfold fsutil_ls. erewrite stbind_step by reflexivity. set (u0 := with_printed _ _). destruct (open_root_in k rd ext M (fsys u0) Hv Hq) as (s1 & ip & E1 & O1 & _ & _ & _ & _ & D1 & _). erewrite stbind_step by (apply on_fs_step, E1).
    destruct (in_root_dir _ _ _ _ _ _ O1) as [Hdir Hmo]. erewrite stbind_step by (apply on_fs_step; unfold dir_fuel; erewrite stbind_step by (apply get_inode_Ok, Hdir); reflexivity).
    destruct (v_rd _ _ _ _ _ Hv) as (_ & G2 & _). pose proof (length_contents s1 (root rd) (proj1 (proj2 Hdir))) as Hlc. cbn [root opened data] in Hlc.
    destruct (ls_loop_ok ip (root rd) (S (Z.to_nat (length_ (data (root rd))))) (with_fsys (with_fsys u0 s1) s1) 0 Hdir Hmo) as (m & E2 & Hm); [done|lia|cbn [fsys with_fsys]; rewrite Hlc; pose proof (div20 (Z.to_nat (length_ rd))); cbn [root opened data]; lia|].
    erewrite stbind_step by exact E2. destruct (names_files k rd ext M s1 (o_inv _ _ _ _ _ _ O1)) as [Hnd Hdom].
    eexists _, _. split; [reflexivity|]. split; [exact Hnd|]. split; [exact Hdom|]. split; [exact D1|]. cbn [printed with_printed with_fsys u0]. rewrite <- !app_assoc. done.
  - destruct (remove_ok k rd ext M (fsys u) nm Hv Hq Hn) as (s1 & ext1 & E1 & Hv1 & Hq1). unfold fsutil_rm, fsutil_cat. destruct (M !! nm) as [c|] eqn:EM.
    + split; [|erewrite stbind_step by reflexivity; erewrite stbind_step by (apply on_fs_step, E1); eexists; split; [reflexivity|]; by exists k, rd, ext1].
      destruct (open_found k rd ext M (fsys u) nm c Hv Hq Hn EM) as (s2 & sec & id & fip & f & ip & fp & E2 & Ho2 & C2).
      erewrite stbind_step by reflexivity. erewrite stbind_step by (apply on_fs_step, E2). rewrite (proj2 (Z.eqb_neq fp 0)) by apply Ho2.
      destruct page; [|by erewrite stbind_step by reflexivity]. erewrite stbind_step by reflexivity. cbn [negb]. destruct (in_file_length k rd ext nm sec id fip f ip fp M 0 s2 Ho2) as [E3 Hf]. rewrite C2 in E3, Hf.
      erewrite stbind_step by (apply on_fs_step, E3). match goal with |- exists _, (cat_loop ?n _ ≫= _) ?st = _ /\ _ => set (u1 := st); destruct (cat_loop_ok k rd ext nm sec id fip f ip fp M c (pages_of c) n 0 u1 0) as (u2 & pos & E4 & Ho4 & Hp & _) end; [lia|exact Ho2|exact C2|done|unfold pages_of; f_equal; f_equal; lia|unfold pages_of; Z.to_euclidean_division_equations; lia|].
      erewrite stbind_step by exact E4. destruct (close_ok k rd ext nm sec id fip f ip fp M pos (fsys u2) Ho4) as (s5 & E5 & Hv5 & Hq5). eexists. split; [apply on_fs_step, E5|]. split; [by exists k, rd, ext|].
      cbn [printed with_fsys]. rewrite <- Hp. f_equal. cbn [printed with_fsys with_printed u1]. unfold cat_text. rewrite <- !app_assoc. done.
    + split; [|erewrite stbind_step by reflexivity; erewrite stbind_step by (apply on_fs_step, E1); done]. destruct (open_missing k rd ext M (fsys u) nm Hv Hq Hn EM) as (s2 & E2 & _). erewrite stbind_step by reflexivity. erewrite stbind_step by (apply on_fs_step, E2). done.
Qed.

Lemma utilities_correct_witness : exists (s : fs) (l : list (list Z)) (u' : util), holds (list_to_map demo_files) s /\ fsutil_ls (demo_util s) = Ok (tt, u') /\ demo_name ∈ l.
Proof.
  destruct demo_holds as (s & Hs). destruct (utilities_correct (list_to_map demo_files) (demo_util s) true demo_name Hs (proj1 demo_plain)) as [(u' & l & E & _ & Hl & _) _].
  exists s, l, u'. split; [exact Hs|]. split; [exact E|]. apply Hl. exists (replicate 600 0). apply lookup_insert_eq.
Defined.
