(* ===== verification/UserCall.v ===== *)
(** The user library's side of system calls: lib/user/syscall.c, on top of the
    kernel's side (Syscall.v).

    A stub pushes its arguments and the number of the call on the user stack,
    last argument first, and traps; the kernel's handler gets the stack pointer.
    Then the stub pops what it pushed, so its caller's stack pointer does not
    change. *)

From stdpp Require Import base list numbers gmap.
From Stdlib Require Import ZArith Lia.
From S2P Require Import Prelude Bitmap Inode FreeMap Directory Vm PageDir VmSpec VmBoot ByteMem Process LoadSpec StackSpec Syscall SyscallSpec SyscallRw.
Open Scope Z_scope.

#[local] Abbreviation M := (stM sys).

(** ** Numbers *)

Definition SYS_HALT : Z := 0.
Definition SYS_EXIT : Z := 1.
Definition SYS_EXEC : Z := 2.
Definition SYS_WAIT : Z := 3.
Definition SYS_CREATE : Z := 4.
Definition SYS_REMOVE : Z := 5.
Definition SYS_OPEN : Z := 6.
Definition SYS_FILESIZE : Z := 7.
Definition SYS_READ : Z := 8.
Definition SYS_WRITE : Z := 9.
Definition SYS_SEEK : Z := 10.
Definition SYS_TELL : Z := 11.
Definition SYS_CLOSE : Z := 12.
Definition SYS_MMAP : Z := 13.
Definition SYS_MUNMAP : Z := 14.
Definition SYS_CHDIR : Z := 15.
Definition SYS_MKDIR : Z := 16.
Definition SYS_READDIR : Z := 17.
Definition SYS_ISDIR : Z := 18.
Definition SYS_INUMBER : Z := 19.

(** ** Traps *)

Fixpoint pushes (ws : list Z) (esp : Z) : M Z :=
  match ws with
  | [] => mret esp
  | w :: ws => let esp := u32 (esp - 4) in on_vm (store_bytes esp (le_bytes w));; pushes ws esp
  end.

(** A conversion of the result to bool. *)
Definition as_bool (o : outcome) : outcome := match o with Ret r => Ret (if r =? 0 then 0 else 1) | _ => o end.

Section Stubs.
(** [junk] is that of the handler; [esp] the stack pointer of the program. *)
Context (junk : list Z) (esp : Z).

Definition syscall0 (number : Z) : M outcome := esp ← pushes [number] esp; syscall_handler junk esp.
Definition syscall1 (number arg0 : Z) : M outcome := esp ← pushes [arg0; number] esp; syscall_handler junk esp.
Definition syscall2 (number arg0 arg1 : Z) : M outcome := esp ← pushes [arg1; arg0; number] esp; syscall_handler junk esp.
Definition syscall3 (number arg0 arg1 arg2 : Z) : M outcome := esp ← pushes [arg2; arg1; arg0; number] esp; syscall_handler junk esp.

Definition to_bool (c : M outcome) : M outcome := o ← c; mret (as_bool o).

Definition halt : M outcome := syscall0 SYS_HALT.
Definition exit (status : Z) : M outcome := syscall1 SYS_EXIT status.
Definition exec (file : Z) : M outcome := syscall1 SYS_EXEC file.
Definition wait (pid : Z) : M outcome := syscall1 SYS_WAIT pid.
Definition create (file initial_size : Z) : M outcome := to_bool (syscall2 SYS_CREATE file initial_size).
Definition remove (file : Z) : M outcome := to_bool (syscall1 SYS_REMOVE file).
Definition open (file : Z) : M outcome := syscall1 SYS_OPEN file.
Definition filesize (fd : Z) : M outcome := syscall1 SYS_FILESIZE fd.
Definition read (fd buffer size : Z) : M outcome := syscall3 SYS_READ fd buffer size.
Definition write (fd buffer size : Z) : M outcome := syscall3 SYS_WRITE fd buffer size.
Definition seek (fd position : Z) : M outcome := syscall2 SYS_SEEK fd position.
Definition tell (fd : Z) : M outcome := syscall1 SYS_TELL fd.
Definition close (fd : Z) : M outcome := syscall1 SYS_CLOSE fd.
Definition mmap (fd addr : Z) : M outcome := syscall2 SYS_MMAP fd addr.
Definition munmap (mapid : Z) : M outcome := syscall1 SYS_MUNMAP mapid.
Definition chdir (dir : Z) : M outcome := to_bool (syscall1 SYS_CHDIR dir).
Definition mkdir (dir : Z) : M outcome := to_bool (syscall1 SYS_MKDIR dir).
Definition readdir (fd name : Z) : M outcome := to_bool (syscall2 SYS_READDIR fd name).
Definition isdir (fd : Z) : M outcome := to_bool (syscall1 SYS_ISDIR fd).
Definition inumber (fd : Z) : M outcome := syscall1 SYS_INUMBER fd.

End Stubs.

(** ** The stack of the caller *)

Section Stack.
Context (D : gset Z).

(** The program may write to the [n] bytes below [esp] and read the three words
    above: the handler reads three arguments whatever the call. *)
Record room (s : sys) (esp n : Z) : Prop := {
  r_runs : runs D s;
  r_low : n < esp;
  r_high : esp + 12 <= PHYS_BASE;
  r_below i : - n <= i < 0 -> exists p, translate (s_vm s) (cur_pagedir (s_vm s)) (esp + i) = Some (p, true);
  r_above i : 0 <= i < 12 -> is_Some (sees s (esp + i))
}.

(** Nothing has changed but bytes of the running process from [lo] to [hi]. *)
Record pushed (s s' : sys) (lo hi : Z) : Prop := {
  p_runs : runs D s';
  p_vm : s' = with_vm s (s_vm s');
  p_frame : uframe D (s_vm s) (s_vm s');
  p_bytes pd va : pd ∈ D -> 0 <= va < PHYS_BASE -> ~ (pd = cur_pagedir (s_vm s) /\ lo <= va < hi) -> ubyte (s_vm s') pd va = ubyte (s_vm s) pd va
}.

Lemma pushed_cur s s' lo hi : pushed s s' lo hi -> cur_pagedir (s_vm s') = cur_pagedir (s_vm s).
Proof. intros H. apply (uframe_cur D), H. Qed.

Lemma pushes_Ok ws : forall s esp, room s esp (4 * Z.of_nat (length ws)) -> Forall is_u32 ws ->
  exists s', pushes ws esp s = Ok (esp - 4 * Z.of_nat (length ws), s') /\ pushed s s' (esp - 4 * Z.of_nat (length ws)) esp /\
    mem_at (s_vm s') (cur_pagedir (s_vm s')) (esp - 4 * Z.of_nat (length ws)) (words (reverse ws)).
Proof.
  induction ws as [|w ws IH]; intros s esp HR Hu; cbn [pushes length] in *.
  - exists s. rewrite Z.sub_0_r. split; [done|]. split; [|intros i Hi; cbn in Hi; lia]. split; [apply HR|by destruct s|apply uframe_refl|done].
  - apply Forall_cons in Hu as [Hw Hu]. destruct HR as [[HI Hcur] Hlow Hhigh Hbelow Habove]. unfold PHYS_BASE in *. rewrite u32_small by (unfold is_u32; lia).
    destruct (store_bytes_Ok D (le_bytes w) (s_vm s) (esp - 4) HI Hcur) as (m & E & HI' & Hf & Hb); unfold PHYS_BASE; [lia|cbn; lia|apply le_bytes_u8| |].
    { intros i Hi. cbn in Hi. replace (esp - 4 + i) with (esp + (i - 4)) by lia. apply Hbelow. lia. }
    cbn [length le_bytes map] in Hb. change (Z.of_nat 4) with 4 in Hb. unfold PHYS_BASE in Hb.
    pose proof (uframe_cur D _ _ Hf) as Hc. erewrite stbind_step by (by apply on_vm_Ok). set (s1 := with_vm s m).
    destruct (IH s1 (esp - 4)) as (s' & E' & HP & Hm); [|done|].
    { split; unfold PHYS_BASE; [by split; [|cbn; rewrite Hc]|lia|lia| |].
      - intros i Hi. cbn. rewrite Hc, (uf_trans D _ _ Hf) by (done || unfold PHYS_BASE; lia). replace (esp - 4 + i) with (esp + (i - 4)) by lia. apply Hbelow. lia.
      - intros i Hi. unfold sees. cbn. rewrite Hc, Hb by (done || lia). destruct (decide (i < 4)).
        + rewrite bool_decide_true by lia. apply lookup_lt_is_Some_2. cbn. lia.
        + rewrite bool_decide_false by lia. replace (esp - 4 + i) with (esp + (i - 4)) by lia. apply Habove. lia. }
    pose proof (pushed_cur _ _ _ _ HP) as Hc'. exists s'. replace (esp - 4 * Z.of_nat (S (length ws))) with (esp - 4 - 4 * Z.of_nat (length ws)) by lia. split; [exact E'|]. split.
    + split; [apply HP|rewrite (p_vm _ _ _ _ HP); done|eapply uframe_trans; [exact Hf|apply HP]|]. intros pd va Hpd Hva Hn. rewrite (p_bytes _ _ _ _ HP) by (done || cbn; rewrite Hc; lia). cbn. unfold PHYS_BASE in *. rewrite Hb, bool_decide_false by (done || lia). done.
    + rewrite reverse_cons, words_app. intros i Hi. rewrite length_app, length_words, length_reverse in Hi. change (length (words [w])) with 4%nat in Hi.
      destruct (decide (i < 4 * Z.of_nat (length ws))).
      * rewrite lookup_app_l by (rewrite length_words, length_reverse; lia). apply Hm. rewrite length_words, length_reverse. lia.
      * rewrite lookup_app_r by (rewrite length_words, length_reverse; lia). rewrite length_words, length_reverse, Hc'.
        cbn [s1 s_vm with_vm]. rewrite Hc. rewrite (p_bytes _ _ _ _ HP) by (done || unfold PHYS_BASE; cbn; lia). cbn [s1 s_vm with_vm]. rewrite Hb, bool_decide_true by (done || lia).
        unfold words. cbn [fmap list_fmap mjoin list_join]. rewrite app_nil_r. f_equal. lia.
Qed.

Lemma le_bytes_word a b c d : is_u8 a -> is_u8 b -> is_u8 c -> is_u8 d -> is_u32 (le_word [a; b; c; d]) /\ le_bytes (le_word [a; b; c; d]) = [a; b; c; d].
Proof.
  unfold is_u8, is_u32. intros Ha Hb Hc Hd. unfold le_word. cbn [foldr]. split; [lia|]. unfold le_bytes. cbn [map]. change 255 with (Z.ones 8). rewrite !Z.land_ones, !Z.shiftr_div_pow2 by lia.
  change (2 ^ (8 * 0)) with 1. change (2 ^ (8 * 1)) with 256. change (2 ^ (8 * 2)) with 65536. change (2 ^ (8 * 3)) with 16777216. change (2 ^ 8) with 256.
  repeat f_equal; Z.to_euclidean_division_equations; lia.
Qed.

Lemma ubyte_u8 m pd va b : ubyte m pd va = Some b -> is_u8 b.
Proof.
  unfold ubyte, pbyte. destruct (translate m pd va) as [[p w]|]; [|done]. intros (x & _ & ->)%fmap_Some. unfold word_byte. change 255 with (Z.ones 8). rewrite Z.land_ones by lia. apply Z.mod_pos_bound. lia.
Qed.

(** Four bytes that can be read are a word. *)
Lemma word_seen s va : (forall i, 0 <= i < 4 -> is_Some (sees s (va + i))) -> exists w, is_u32 w /\ mem_at (s_vm s) (cur_pagedir (s_vm s)) va (le_bytes w).
Proof.
  intros H. destruct (H 0 ltac:(lia)) as [a Ha], (H 1 ltac:(lia)) as [b Hb], (H 2 ltac:(lia)) as [c Hc], (H 3 ltac:(lia)) as [d Hd]. unfold sees in *.
  destruct (le_bytes_word a b c d) as [Hu Hl]; [by eapply ubyte_u8..|]. exists (le_word [a; b; c; d]). split; [done|]. rewrite Hl. intros i Hi. cbn in Hi.
  assert (i = 0 \/ i = 1 \/ i = 2 \/ i = 3) as [->|[->|[->| ->]]] by lia; done.
Qed.

Lemma mem_at_join m pd va l k : mem_at m pd va l -> mem_at m pd (va + Z.of_nat (length l)) k -> mem_at m pd va (l ++ k).
Proof.
  intros Hl Hk i Hi. rewrite length_app in Hi. destruct (decide (i < Z.of_nat (length l))); [rewrite lookup_app_l by lia; apply Hl; lia|].
  rewrite lookup_app_r by lia. replace (va + i) with (va + Z.of_nat (length l) + (i - Z.of_nat (length l))) by lia. rewrite Hk by lia. f_equal. lia.
Qed.

(** Words that can be read. *)
Lemma words_seen n : forall s va, (forall i, 0 <= i < 4 * Z.of_nat n -> is_Some (sees s (va + i))) -> exists ws, length ws = n /\ Forall is_u32 ws /\ mem_at (s_vm s) (cur_pagedir (s_vm s)) va (words ws).
Proof.
  induction n as [|n IH]; intros s va H; [exists []; split; [done|]; split; [constructor|]; intros i Hi; cbn in Hi; lia|].
  destruct (word_seen s va) as (w & Hw & Hm); [intros i Hi; apply H; lia|]. destruct (IH s (va + 4)) as (ws & Hl & Hu & Hms); [intros i Hi; rewrite <- Z.add_assoc; apply H; lia|].
  exists (w :: ws). split; [by cbn; f_equal|]. split; [by constructor|]. change (words (w :: ws)) with (le_bytes w ++ words ws). by apply mem_at_join.
Qed.

(** A trap after pushes: the handler sees the number and the arguments pushed, and then whatever is on the stack. *)
Lemma trap_ok junk s esp n args : (length args <= 3)%nat -> is_u32 n -> Forall is_u32 args -> room s esp (4 * Z.of_nat (S (length args))) ->
  exists s' rest, pushed s s' (esp - 4 * Z.of_nat (S (length args))) esp /\ (length args + length rest = 3)%nat /\
    (esp ← pushes (reverse (n :: args)) esp; syscall_handler junk esp) s =
    (if SYSCALL_UPPER <? n then thread_exit else handler_table junk n (nth 0 (args ++ rest) 0) (nth 1 (args ++ rest) 0) (nth 2 (args ++ rest) 0)) s'.
Proof.
  intros Hl Hn Hu HR. assert (Hlen : length (reverse (n :: args)) = S (length args)) by (rewrite length_reverse; done).
  destruct (pushes_Ok (reverse (n :: args)) s esp) as (s' & E & HP & Hm); [by rewrite Hlen|by apply Forall_reverse; constructor|]. rewrite Hlen, reverse_involutive in *. pose proof (pushed_cur _ _ _ _ HP) as Hc.
  destruct (words_seen (3 - length args) s' esp) as (rest & Hr & Hur & Hmr).
  { intros i Hi. unfold sees. rewrite Hc, (p_bytes _ _ _ _ HP); [apply (r_above _ _ _ HR); lia|apply (r_runs _ _ _ HR)| |lia]. pose proof (r_low _ _ _ HR). pose proof (r_high _ _ _ HR). lia. }
  exists s', rest. split; [exact HP|]. split; [lia|]. erewrite stbind_step by exact E.
  apply (syscall_dispatch D); [apply HP|]. pose proof (r_low _ _ _ HR). pose proof (r_high _ _ _ HR).
  assert (Hall : Forall is_u32 (args ++ rest)) by (by apply Forall_app). assert (Hl3 : length (args ++ rest) = 3%nat) by (rewrite length_app; lia).
  assert (Hma : mem_at (s_vm s') (cur_pagedir (s_vm s')) (esp - 4 * Z.of_nat (S (length args))) (words (n :: args ++ rest))).
  { change (n :: args ++ rest) with ((n :: args) ++ rest). rewrite words_app. apply mem_at_join; [done|]. rewrite length_words. cbn [length]. by replace (_ + _) with esp by lia. }
  destruct (args ++ rest) as [|a1 [|a2 [|a3 [|]]]]; try done. split; [lia|]. split; [lia|]. split; [by constructor|]. exact Hma.
Qed.

End Stack.

(** ** Calls *)

Inductive call :=
  | Halt | Exit (status : Z) | Exec (file : Z) | WaitFor (pid : Z) | Create (file initial_size : Z) | Remove (file : Z) | Open (file : Z) | Filesize (fd : Z)
  | Read (fd buffer size : Z) | Write (fd buffer size : Z) | Seek (fd position : Z) | Tell (fd : Z) | Close (fd : Z)
  | Mmap (fd addr : Z) | Munmap (mapid : Z) | Chdir (dir : Z) | Mkdir (dir : Z) | Readdir (fd name : Z) | Isdir (fd : Z) | Inumber (fd : Z).

(** The function of the library. *)
Definition invoke (junk : list Z) (esp : Z) (c : call) : M outcome :=
  match c with
  | Halt => halt junk esp | Exit st => exit junk esp st | Exec f => exec junk esp f | WaitFor p => wait junk esp p
  | Create f n => create junk esp f n | Remove f => remove junk esp f | Open f => open junk esp f | Filesize d => filesize junk esp d
  | Read d b n => read junk esp d b n | Write d b n => write junk esp d b n | Seek d p => seek junk esp d p | Tell d => tell junk esp d | Close d => close junk esp d
  | Mmap d a => mmap junk esp d a | Munmap i => munmap junk esp i | Chdir d => chdir junk esp d | Mkdir d => mkdir junk esp d
  | Readdir d n => readdir junk esp d n | Isdir d => isdir junk esp d | Inumber d => inumber junk esp d
  end.

Definition arguments (c : call) : list Z :=
  match c with
  | Halt => []
  | Exit a | Exec a | WaitFor a | Remove a | Open a | Filesize a | Tell a | Close a | Munmap a | Chdir a | Mkdir a | Isdir a | Inumber a => [a]
  | Create a b | Seek a b | Mmap a b | Readdir a b => [a; b]
  | Read a b c | Write a b c => [a; b; c]
  end.

(** The kernel's function for it: those of the last projects do not exist. *)
Definition served (junk : list Z) (c : call) : M outcome :=
  match c with
  | Halt => halt_w | Exit st => exit_w st | Exec f => exec_w f | WaitFor p => wait_w p
  | Create f n => to_bool (create_w junk f n) | Remove f => to_bool (remove_w f) | Open f => open_w f | Filesize d => filesize_w d
  | Read d b n => read_w d b n | Write d b n => write_w d b n | Seek d p => seek_w d p | Tell d => tell_w d | Close d => close_w d
  | _ => raise EFault
  end.

Definition number (c : call) : Z :=
  match c with
  | Halt => SYS_HALT | Exit _ => SYS_EXIT | Exec _ => SYS_EXEC | WaitFor _ => SYS_WAIT | Create _ _ => SYS_CREATE | Remove _ => SYS_REMOVE | Open _ => SYS_OPEN | Filesize _ => SYS_FILESIZE
  | Read _ _ _ => SYS_READ | Write _ _ _ => SYS_WRITE | Seek _ _ => SYS_SEEK | Tell _ => SYS_TELL | Close _ => SYS_CLOSE | Mmap _ _ => SYS_MMAP | Munmap _ => SYS_MUNMAP
  | Chdir _ => SYS_CHDIR | Mkdir _ => SYS_MKDIR | Readdir _ _ => SYS_READDIR | Isdir _ => SYS_ISDIR | Inumber _ => SYS_INUMBER
  end.

Definition converted (c : call) (m : M outcome) : M outcome :=
  match c with Create _ _ | Remove _ | Chdir _ | Mkdir _ | Readdir _ _ | Isdir _ => to_bool m | _ => m end.

Lemma invoke_trap junk esp c : invoke junk esp c = converted c (esp ← pushes (reverse (number c :: arguments c)) esp; syscall_handler junk esp).
Proof. by destruct c. Qed.

Lemma served_table junk c rest s : (length (arguments c) + length rest = 3)%nat -> let l := arguments c ++ rest in
  converted c (handler_table junk (number c) (nth 0 l 0) (nth 1 l 0) (nth 2 l 0)) s = served junk c s.
Proof. intros _. by destruct c. Qed.

Lemma converted_same c (m m' : M outcome) s s' : m s = m' s' -> converted c m s = converted c m' s'.
Proof. intros H. destruct c; cbn [converted]; try exact H; unfold to_bool, mbind, stM_bind; by rewrite H. Qed.

(** ** Claims *)

(** C39. The two sides of a system call meet: for every function of the user library, if the program has room on its stack, the kernel runs the function for that call on exactly the arguments the program gave, whatever else is on the stack; all that has changed before is the bytes just below the stack pointer; and the value the program gets is the one the kernel's function returned, as 0 or 1 where the library says bool.  The calls of the last two projects jump to address 0 in the kernel. *)
Theorem stubs_correct D junk s esp c : room D s esp (4 * Z.of_nat (S (length (arguments c)))) -> Forall is_u32 (arguments c) ->
  exists s', pushed D s s' (esp - 4 * Z.of_nat (S (length (arguments c)))) esp /\ invoke junk esp c s = served junk c s'.
Proof.
  intros HR Hu. destruct (trap_ok D junk s esp (number c) (arguments c)) as (s' & rest & HP & Hl & E); [destruct c; cbn; lia|destruct c; (split; vm_compute; congruence)|done|done|].
  exists s'. split; [done|]. rewrite invoke_trap, <- (served_table junk c rest s' Hl). apply converted_same. rewrite E. destruct c; reflexivity.
Qed.

(** The stack of a program that the kernel has just started has room. *)
Lemma demo_room : room demo_dirs (demo_call 0 0 0 0) demo_esp 16.
Proof.
  destruct (demo_call_Ok 0 0 0 0) as (HR & (_ & _ & _ & Hm) & p & Hp); [repeat constructor; vm_compute; congruence|]. split.
  - exact HR.
  - vm_compute. reflexivity.
  - vm_compute. discriminate.
  - intros i Hi. exists p. apply Hp. assert (E : STACK + 16 <= demo_esp /\ demo_esp < PHYS_BASE) by (split; vm_compute; congruence). lia.
  - intros i Hi. unfold sees. rewrite Hm by (cbn; lia). apply lookup_lt_is_Some_2. cbn. lia.
Qed.

Lemma stubs_correct_witness : exists s', pushed demo_dirs (demo_call 0 0 0 0) s' (demo_esp - 16) demo_esp /\ invoke [] demo_esp (Read 2 STACK 700) (demo_call 0 0 0 0) = served [] (Read 2 STACK 700) s'.
Proof.
  apply (stubs_correct demo_dirs [] (demo_call 0 0 0 0) demo_esp (Read 2 STACK 700)).
  - exact demo_room.
  - repeat constructor; vm_compute; congruence.
Defined.

(** An empty name is removed with success: the kernel returns -1 for it, which the library turns into true. *)
Theorem remove_empty D junk s esp file : room D s esp 8 -> 0 <= file < PHYS_BASE -> sees s file = Some 0 -> ~ (esp - 8 <= file < esp) ->
  exists s', remove junk esp file s = Ok (Ret 1, s').
Proof.
  intros HR Hf Hs Hn. destruct (trap_ok D junk s esp SYS_REMOVE [file]) as (s' & rest & HP & Hl & E); [cbn; lia|split; vm_compute; congruence|constructor; [unfold is_u32, PHYS_BASE in *; lia|constructor]|exact HR|].
  pose proof (pushed_cur D _ _ _ _ HP) as Hc. assert (Hs' : sees s' file = Some 0) by (unfold sees in *; rewrite Hc, (p_bytes D _ _ _ _ HP); [done|apply HR|done|cbn in *; lia]).
  change (remove junk esp file s) with (converted (Remove file) (esp ← pushes (reverse [SYS_REMOVE; file]) esp; syscall_handler junk esp) s). rewrite (converted_same _ _ _ _ _ E). cbn [converted].
  assert (Hr : remove_w file s' = Ok (Ret NEG1, s')).
  { unfold remove_w. destruct (p_runs D _ _ _ _ HP) as [HI Hcur]. erewrite stbind_step by (apply (valid_ptr_Ok D s' file 0); [split|..]; done). cbn [negb].
    erewrite stbind_step by (apply on_vm_Ok, (load_string_Ok D (s_vm s') file []); [done|done|lia|cbn; lia| |constructor]; intros i Hi; cbn in Hi; replace i with 0 by lia; by rewrite Z.add_0_r). rewrite with_vm_id. done. }
  exists s'. change (to_bool (handler_table junk SYS_REMOVE (nth 0 ([file] ++ rest) 0) (nth 1 ([file] ++ rest) 0) (nth 2 ([file] ++ rest) 0)) s') with (to_bool (remove_w file) s'). unfold to_bool. by erewrite stbind_step by exact Hr.
Qed.

Lemma remove_empty_witness : exists s', remove [] demo_esp (demo_esp + 1) (demo_call 0 0 0 0) = Ok (Ret 1, s').
Proof.
  apply (remove_empty demo_dirs).
  - destruct demo_room as [A1 A2 A3 A4 A5]. constructor; [exact A1|lia|exact A3|intros i Hi; apply A4; lia|exact A5].
  - vm_compute. split; congruence.
  - destruct (demo_call_Ok 0 0 0 0) as (_ & (_ & _ & _ & Hm) & _); [repeat constructor; vm_compute; congruence|]. unfold sees. rewrite Hm by (cbn; lia). reflexivity.
  - lia.
Defined.
