(* ===== verification/UserIo.v ===== *)
(** The output functions of the user library: lib/user/console.c, with
    debug_panic of lib/user/debug.c and _start of lib/user/entry.c.

    What a program does is the list of its calls of write and exit, with the
    bytes it hands over; what the kernel makes of them is in Syscall.v. *)

From stdpp Require Import base list numbers gmap.
From Stdlib Require Import ZArith Lia.
From Stdlib Require String.
From S2P Require Import Prelude CString Stdio StdioSpec HexSpec.
Import String.StringSyntax.
Open Scope Z_scope.

Definition STDOUT_FILENO : Z := 1.

Inductive event := Write (handle : Z) (bytes : list Z) | Exit (status : Z).

(** ** vhprintf *)

(** The characters of the buffer up to [p], and the calls made so far. *)
Record vhprintf_aux := MkAux { buf : list Z; char_cnt : Z; handle : Z; calls : list event }.

Definition flush (aux : vhprintf_aux) : vhprintf_aux :=
  MkAux [] (char_cnt aux) (handle aux) (if (0 <? length (buf aux))%nat then calls aux ++ [Write (handle aux) (buf aux)] else calls aux).

Definition add_char (c : Z) (aux : vhprintf_aux) : vhprintf_aux :=
  let aux := MkAux (buf aux ++ [c]) (char_cnt aux) (handle aux) (calls aux) in
  let aux := if (64 <=? length (buf aux))%nat then flush aux else aux in
  MkAux (buf aux) (s32 (char_cnt aux + 1)) (handle aux) (calls aux).

Definition vhprintf (m : mem) (handle : Z) (format args : list Z) (l : list event) : res (Z * list event) :=
  aux ← __vprintf add_char m format args (MkAux [] 0 handle l);
  let aux := flush aux in
  Ok (char_cnt aux, calls aux).

Definition vprintf (m : mem) (format args : list Z) (l : list event) : res (Z * list event) := vhprintf m STDOUT_FILENO format args l.

Definition hprintf (m : mem) (handle : Z) (format args : list Z) (l : list event) : res (Z * list event) := vhprintf m handle format args l.

(** ** The rest *)

Definition putchar (c : Z) (l : list event) : Z * list event := (c, l ++ [Write STDOUT_FILENO [u8 c]]).

(** [s] is the string without its terminator. *)
Definition puts (s : list Z) (l : list event) : Z * list event :=
  let l := l ++ [Write STDOUT_FILENO s] in
  let '(_, l) := putchar 10 l in
  (0, l).

(** The first three arguments are the words of the location; [backtrace] is what
    debug_backtrace writes. *)
Definition debug_panic (m : mem) (file line function : Z) (message args : list Z) (backtrace : list event) (l : list event) : res (list event) :=
  '(_, l) ← vprintf m (chars "User process ABORT at %s:%d in %s(): ") [file; line; function] l;
  '(_, l) ← vprintf m message args l;
  '(_, l) ← vprintf m [10] [] l;
  Ok (l ++ backtrace ++ [Exit 1]).

(** main returns a status and has made some calls. *)
Definition _start (main : list event -> res (Z * list event)) (l : list event) : res (list event) :=
  '(status, l) ← main l; Ok (l ++ [Exit status]).

(** ** Facts *)

(** After some characters: whole buffers are written, the rest is in the buffer. *)
Definition buffered (h : Z) (l : list event) (t : list Z) (aux : vhprintf_aux) : Prop :=
  handle aux = h /\ (length (buf aux) < 64)%nat /\ char_cnt aux = s32 (Z.of_nat (length t)) /\
    exists ps, t = concat ps ++ buf aux /\ Forall (fun p => length p = 64%nat) ps /\ calls aux = l ++ (Write h <$> ps).

Lemma buffered_add h l t aux c : buffered h l t aux -> buffered h l (t ++ [c]) (add_char c aux).
Proof.
  intros (Hh & Hb & Hc & ps & Ht & HF & Hl). assert (Hcnt : s32 (char_cnt aux + 1) = s32 (Z.of_nat (length (t ++ [c])))).
  { rewrite Hc, length_app. cbn [length]. rewrite Nat2Z.inj_add. change (Z.of_nat 1) with 1. destruct (s32_ex (Z.of_nat (length t))) as [k ->]. rewrite <- (s32_shift (Z.of_nat (length t) + 1) k). f_equal. lia. }
  unfold add_char. cbn [buf char_cnt handle calls]. rewrite length_app. cbn [length]. destruct (Nat.leb_spec 64 (length (buf aux) + 1)).
  - cbn [flush buf char_cnt handle calls]. rewrite length_app. cbn [length]. rewrite (proj2 (Nat.ltb_lt _ _)) by lia. split; [done|]. split; [cbn; lia|]. split; [exact Hcnt|].
    exists (ps ++ [buf aux ++ [c]]). split; [rewrite concat_app; cbn [concat buf]; rewrite !app_nil_r, app_assoc; by rewrite Ht|]. split; [apply Forall_app; split; [done|]; constructor; [rewrite length_app; cbn; lia|constructor]|].
    cbn [calls]. rewrite Hl, fmap_app, <- app_assoc, Hh. done.
  - split; [done|]. split; [cbn [buf]; rewrite length_app; cbn; lia|]. split; [exact Hcnt|]. exists ps. split; [cbn [buf]; by rewrite Ht, app_assoc|done].
Qed.

Lemma buffered_all h l u : forall t aux, buffered h l t aux -> buffered h l (t ++ u) (fold_left (fun a c => add_char c a) u aux).
Proof.
  induction u as [|c u IH]; intros t aux Hb; cbn [fold_left]; [by rewrite app_nil_r|]. rewrite (app_assoc t [c] u : t ++ c :: u = (t ++ [c]) ++ u). by apply IH, buffered_add.
Qed.

Lemma length_concat_64 (ps : list (list Z)) : Forall (fun p => length p = 64%nat) ps -> length (concat ps) = (64 * length ps)%nat.
Proof. induction 1 as [|p ps Hp _ IH]; [done|]. cbn [concat length]. rewrite length_app, Hp, IH. lia. Qed.

(** What vhprintf has written at its end. *)
Lemma vhprintf_pieces m h format args l t : printf m format args [] = Ok t ->
  exists ps, vhprintf m h format args l = Ok (s32 (Z.of_nat (length t)), l ++ (Write h <$> ps)) /\ concat ps = t /\
    Forall (fun p => (1 <= length p <= 64)%nat) ps /\ length ps = ((length t + 63) / 64)%nat.
Proof.
  intros E. unfold vhprintf. rewrite vprintf_text, E. cbn [fmap res_fmap mbind res_bind].
  destruct (buffered_all h l t [] (MkAux [] 0 h l)) as (Hh & Hb & Hc & ps & Ht & HF & Hl).
  { split; [done|]. split; [cbn; lia|]. split; [done|]. exists []. split; [done|]. split; [constructor|]. cbn [fmap list_fmap calls]. by rewrite app_nil_r. }
  cbn [app] in Hc, Ht. set (aux := fold_left _ _ _) in *. pose proof (length_concat_64 ps HF) as Hlen. assert (Hlt : length t = (64 * length ps + length (buf aux))%nat) by (rewrite Ht, length_app; lia).
  assert (HF' : Forall (fun p => (1 <= length p <= 64)%nat) ps) by (apply (Forall_impl _ _ _ HF); lia). cbn [flush char_cnt calls]. rewrite Hc, Hh, Hl. destruct (Nat.ltb_spec 0 (length (buf aux))).
  - exists (ps ++ [buf aux]). split; [by rewrite fmap_app, <- app_assoc|]. split; [rewrite concat_app; cbn [concat]; by rewrite app_nil_r|]. split; [apply Forall_app; split; [done|]; constructor; [lia|constructor]|].
    rewrite length_app. cbn [length]. rewrite Hlt. apply (Nat.div_unique _ _ _ (length (buf aux) - 1)); lia.
  - exists ps. split; [done|]. assert (Hnil : buf aux = []) by (destruct (buf aux); [done|cbn in *; lia]). split; [by rewrite Ht, Hnil, app_nil_r|]. split; [done|]. rewrite Hlt. apply (Nat.div_unique _ _ _ 63); lia.
Qed.

(** ** Claims *)

(** Output of a user program: printf and its relatives hand the kernel exactly the text that the format and the arguments ask for, in order, to the right handle, in pieces of 64 bytes of which only the last may be shorter, never an empty one; the result is the number of characters. *)
Theorem user_printf m h format args l t : printf m format args [] = Ok t ->
  exists ps, vhprintf m h format args l = Ok (s32 (Z.of_nat (length t)), l ++ (Write h <$> ps)) /\ concat ps = t /\
    Forall (fun p => (1 <= length p <= 64)%nat) ps /\ length ps = ((length t + 63) / 64)%nat.
Proof. apply vhprintf_pieces. Qed.

Lemma user_printf_witness : exists ps, vhprintf ∅ 1 (chars "%080x") [48879] [] = Ok (80, [] ++ (Write 1 <$> ps)) /\ length ps = 2%nat.
Proof.
  destruct (user_printf ∅ 1 (chars "%080x") [48879] [] (replicate 76 48 ++ chars "beef")) as (ps & E & _ & _ & Hl).
  - vm_compute. reflexivity.
  - exists ps. split; [exact E|exact Hl].
Defined.

(** A user program that aborts says so, and ends with status 1. *)
Theorem user_abort m file line function message args backtrace t0 t1 : printf m (chars "User process ABORT at %s:%d in %s(): ") [file; line; function] [] = Ok t0 -> printf m message args [] = Ok t1 ->
  exists ps, debug_panic m file line function message args backtrace [] = Ok ((Write STDOUT_FILENO <$> ps) ++ backtrace ++ [Exit 1]) /\ concat ps = t0 ++ t1 ++ [10].
Proof.
  intros E0 E1. assert (Hp : forall format args l t, printf m format args [] = Ok t -> exists r ps, vprintf m format args l = Ok (r, l ++ (Write STDOUT_FILENO <$> ps)) /\ concat ps = t).
  { intros format a l t E. destruct (vhprintf_pieces m STDOUT_FILENO format a l t E) as (ps & Ev & Hc & _). by exists (s32 (Z.of_nat (length t))), ps. }
  unfold debug_panic. destruct (Hp _ _ [] _ E0) as (r0 & p0 & -> & H0). cbn [mbind res_bind]. destruct (Hp _ _ ([] ++ (Write STDOUT_FILENO <$> p0)) _ E1) as (r1 & p1 & -> & H1). cbn [mbind res_bind].
  destruct (Hp [10] [] (([] ++ (Write STDOUT_FILENO <$> p0)) ++ (Write STDOUT_FILENO <$> p1)) [10] eq_refl) as (r2 & p2 & -> & H2). cbn [mbind res_bind app].
  exists (p0 ++ p1 ++ p2). rewrite !concat_app, H0, H1, H2, !fmap_app, !app_assoc. done.
Qed.
