(* ===== verification/ThreadBoot.v ===== *)
(** The start of the thread system: thread_init, thread_start and idle of
    threads/thread.c.  Whatever timer interrupts come in between, they lead to
    states with the invariant of Synch.v, if there is a page for the idle thread,
    and to a panic otherwise.

    The code that runs when the kernel starts is turned into the thread at its
    page, 1; the idle thread gets page 2.  In this phase the only computation of
    a thread on variables is that of idle, which records itself in idle_thread:
    the action [AWork] stands for it, and the thread that thread_start creates
    executes [idle]. *)

From stdpp Require Import base list numbers gmap.
From Stdlib Require Import ZArith Lia.
From S2P Require Import Prelude Thread Synch.
Open Scope Z_scope.

#[local] Abbreviation K := (stM kernel).

Definition set_initial (t : Z) (k : kernel) : kernel :=
  MkKernel (threads k) (ready_list k) (all_list k) (idle_thread k) t (current k)
    (next_tid k) (next_page k) (thread_ticks k) (semas k) (holder k) (conds k) (owner k) (tid_log k).
Definition set_idle (t : Z) (k : kernel) : kernel :=
  MkKernel (threads k) (ready_list k) (all_list k) t (initial_thread k) (current k)
    (next_tid k) (next_page k) (thread_ticks k) (semas k) (holder k) (conds k) (owner k) (tid_log k).

(** The semaphore on the stack of thread_start. *)
Definition idle_started : Z := 1.

Definition idle : list action := [AWork; AUp (SPlain idle_started); AIdle].

(** thread_start, and then [rest]; [page_ok] is whether thread_create finds a page
    for the idle thread.  Its result is not looked at. *)
Definition thread_start (page_ok : bool) (rest : list action) : list action :=
  ASemaInit (SPlain idle_started) 0 :: thread_create page_ok PRI_MIN 0 ++ ADown (SPlain idle_started) :: rest.

(** The running thread performs an action of this phase. *)
Definition boot_exec (t : Z) (a : action) (rest : list action) : K unit :=
  match a with
  | AWork => set_cont t rest;; modify (set_idle t)
  | AStart _ =>
      set_cont t rest;;
      x ← get_thread t;
      alter_thread (v_t x) (with_tid (v_tid x) ∘ with_cont idle);;
      thread_unblock (v_t x)
  | _ => exec (fun _ => []) t a rest
  end.

(** Without interrupts and without blocking. *)
Fixpoint perform (t : Z) (l : list action) : K unit :=
  match l with [] => mret tt | a :: rest => boot_exec t a rest;; perform t rest end.

Definition thread_init : K unit :=
  lock_init tid_lock;;
  modify (upd_ready (fun _ => []));;
  modify (upd_all (fun _ => []));;
  t ← running_thread;
  modify (set_initial t);;
  init_thread t PRI_DEFAULT;;
  alter_thread t (with_status THREAD_RUNNING);;
  perform t allocate_tid;;
  x ← get_thread t;
  alter_thread t (with_tid (v_tid x)).

(** ** The phase as a transition system *)

(** Before thread_init there is no thread; the static variables are zero. *)
Definition before : kernel := MkKernel ∅ [] [] 0 0 1 1 2 0 ∅ ∅ ∅ ∅ [].

Definition started (page_ok : bool) (rest : list action) : res kernel :=
  '(_, k) ← thread_init before; Ok (upd_threads (alter (with_cont (thread_start page_ok rest)) 1) k).

Definition boot_run : K unit :=
  t ← thread_current;
  x ← get_thread t;
  match cont x with [] => thread_exit | a :: rest => boot_exec t a rest end.

(** Has the initial thread come to the end of thread_start? *)
Definition returned (k : kernel) : bool :=
  match threads k !! 1 with Some x => bool_decide (current k = 1) && bool_decide (cont x = []) | None => false end.

(** Interrupts are off until the idle thread exists. *)
Definition intr_on (k : kernel) : bool :=
  match threads k !! 1 with Some x => (length (cont x) <=? 1)%nat | None => false end.

Inductive boot_step (k k' : kernel) : Prop :=
  | BootRun : returned k = false -> boot_run k = Ok (tt, k') -> boot_step k k'
  | BootTick : returned k = false -> intr_on k = true -> thread_tick k = Ok (tt, k') -> boot_step k k'.

#[export] Instance action_eq_dec : EqDecision action.
Proof. solve_decision. Defined.
#[export] Instance thread_eq_dec : EqDecision thread.
Proof. solve_decision. Defined.
#[export] Instance kernel_eq_dec : EqDecision kernel.
Proof. solve_decision. Defined.

(** The steps from a state, with their outcomes. *)
Definition moves (k : kernel) : list (res (unit * kernel)) :=
  if returned k then [] else boot_run k :: (if intr_on k then [thread_tick k] else []).

Definition next (r : res (unit * kernel)) : list kernel := match r with Ok (_, k) => [k] | Err _ => [] end.

(** All states that can be reached, found by a search. *)
Fixpoint explore (fuel : nat) (todo seen : list kernel) : option (list kernel) :=
  match fuel, todo with
  | _, [] => Some seen
  | O, _ => None
  | S fuel, k :: todo =>
      if decide (k ∈ seen) then explore fuel todo seen
      else explore fuel (todo ++ (moves k ≫= next)) (k :: seen)
  end.

Definition start (page_ok : bool) : kernel := match started page_ok [] with Ok k => k | Err _ => before end.

Definition states (page_ok : bool) : list kernel := default [] (explore 2000 [start page_ok] []).

(** ** The states after thread_start *)

(** The state [boot] of Synch.v with the semaphore of thread_start and no locks but
    tid_lock, except that the idle thread has blocked or was preempted before it
    could, that [n] ticks have passed since the last switch, and that the locals
    of thread_create are set. *)
Definition settle (st : thread_status) (n : Z) (k : kernel) : kernel :=
  set_ticks n (upd_threads (fun m => alter (with_status st) 2 (alter (with_vtid 2 ∘ with_vt 2) 1 m)) k).

Definition settled (st : thread_status) (n : Z) : kernel := settle st n (boot (fun _ => []) 0 [(idle_started, 0)] []).

(** Going on without further interrupts, to the end or an error. *)
Fixpoint finishes (fuel : nat) (k : kernel) : res bool :=
  if returned k then Ok true
  else match fuel with O => Ok false | S fuel => '(_, k) ← boot_run k; finishes fuel k end.

Definition settled_states : list kernel :=
  st ← [THREAD_BLOCKED; THREAD_READY]; settled st <$> [0; 1; 2; 3].

Definition closed (page_ok : bool) (k : kernel) : bool := forallb (fun k' => bool_decide (k' ∈ states page_ok)) (moves k ≫= next).

Definition is_Ok {A} (r : res A) : bool := match r with Ok _ => true | Err _ => false end.

(** With a page every state has no failing step, and a way to the end, where it is
    settled; without one every state has a way to a failing assertion, and none
    is the end. *)
Definition state_ok (page_ok : bool) (k : kernel) : bool :=
  if page_ok then
    forallb is_Ok (moves k) && match finishes 30 k with Ok b => b | Err _ => false end && (if returned k then bool_decide (k ∈ settled_states) else true)
  else negb (returned k) && match finishes 30 k with Err EAssert => true | _ => false end.

Lemma states_closed page_ok : bool_decide (start page_ok ∈ states page_ok) && forallb (fun k => closed page_ok k && state_ok page_ok k) (states page_ok) = true.
Proof. destruct page_ok; vm_compute; reflexivity. Qed.

#[local] Opaque states start.

Lemma forallb_elem {A} (f : A -> bool) l x : forallb f l = true -> x ∈ l -> f x = true.
Proof. rewrite forallb_forall. intros H Hx. by apply H, list_elem_of_In. Qed.

Lemma states_ok page_ok k : k ∈ states page_ok -> closed page_ok k = true /\ state_ok page_ok k = true.
Proof. intros Hk. pose proof (states_closed page_ok) as H. apply andb_true_iff in H as [_ H]. by apply andb_true_iff, (forallb_elem _ _ _ H). Qed.

Lemma step_moves k k' : boot_step k k' -> Ok (tt, k') ∈ moves k.
Proof. intros [Hr E|Hr Hi E]; unfold moves; rewrite Hr, ?Hi, <- E; set_solver. Qed.

Lemma reached_in page_ok k : rtc boot_step (start page_ok) k -> k ∈ states page_ok.
Proof.
  intros H. apply (rtc_ind_r (R := boot_step) (fun k => k ∈ states page_ok) (start page_ok)); [| |exact H].
  - pose proof (states_closed page_ok) as Hc. apply andb_true_iff in Hc as [Hc _]. by apply bool_decide_eq_true in Hc.
  - intros y z _ Hyz Hy. destruct (states_ok page_ok y Hy) as [Hc _]. unfold closed in Hc.
    apply (bool_decide_eq_true (z ∈ states page_ok)), (forallb_elem _ _ _ Hc), list_elem_of_bind. exists (Ok (tt, z)). split; [by left|by apply step_moves].
Qed.

(** Where [finishes] leads. *)
Lemma finishes_run fuel : forall k, match finishes fuel k with
  | Ok true => exists k', rtc boot_step k k' /\ returned k' = true
  | Ok false => True
  | Err e => exists k', rtc boot_step k k' /\ returned k' = false /\ boot_run k' = Err e
  end.
Proof.
  induction fuel as [|fuel IH]; intros k; cbn [finishes]; destruct (returned k) eqn:Hr; try done; try (by exists k).
  destruct (boot_run k) as [[[] k1]|e] eqn:E; cbn [mbind res_bind]; [|by exists k]. specialize (IH k1).
  destruct (finishes fuel k1) as [[]|e]; [|done|]; destruct IH as (k' & Hk & H); exists k'; (split; [|done]); (eapply rtc_l; [by apply BootRun|exact Hk]).
Qed.

(** ** The invariant of Synch.v *)

(** The initial thread goes on with any program. *)
Definition goes_on (code : Z -> list command) (f : Z) (k : kernel) : kernel := upd_threads (alter (with_cont (body code f)) 1) k.

Lemma settled_boot code f st n : goes_on code f (settled st n) = settle st n (boot code f [(idle_started, 0)] []).
Proof. done. Qed.

Lemma settle_threads code f st n t x : threads (settle st n (boot code f [(idle_started, 0)] [])) !! t = Some x ->
  t = 1 /\ x = MkThread THREAD_RUNNING 1 PRI_DEFAULT (body code f) 2 2 \/ t = 2 /\ x = MkThread st 2 PRI_MIN [AIdle] 0 0.
Proof.
  cbn [threads settle set_ticks upd_threads]. intros [(<- & y & Hy & ->)|[Hne Hy]]%lookup_alter_Some.
  - rewrite lookup_alter_ne in Hy by done. apply boot_threads in Hy as [[? _]|[_ ->]]; [done|]. by right.
  - apply lookup_alter_Some in Hy as [(<- & y & Hy & ->)|[Hne1 Hy]]; apply boot_threads in Hy as [[? ->]|[? _]]; try done. by left.
Qed.

Lemma settled_inv code f st n : st = THREAD_BLOCKED \/ st = THREAD_READY -> full_inv (goes_on code f (settled st n)).
Proof.
  intros Hst. rewrite settled_boot. pose proof (boot_inv code f [(idle_started, 0)] []) as ([S1 S2 S3 S4 S5 S6 S7 S8 S9 S10 S11 S12 S13] & [L1 L2 L3 L4] & [T1 T2 T3]).
  destruct (wf_body code f) as [Hbw Hbc]. set (k := boot code f [(idle_started, 0)] []) in *.
  assert (Hw : forall t s, ~ waiting k t s).
  { intros t s (v & w & Hs & Hin). destruct (boot_semas _ _ _ _ _ _ _ Hs) as (-> & _). by apply elem_of_nil in Hin. }
  split_and!.
  - split; try done.
    + eexists. split; [reflexivity|done].
    + intros t x [[-> ->]|[-> ->]]%settle_threads; [done|]. cbn. by destruct Hst as [->| ->].
    + by intros t Ht%elem_of_nil.
    + eexists. split; [reflexivity|]. cbn. by destruct Hst as [->| ->].
    + by intros t s Ht%Hw.
    + intros t x [[-> ->]|[-> ->]]%settle_threads; cbn; lia.
    + intros t x [[-> ->]|[-> ->]]%settle_threads; cbn; by rewrite ?Hbc.
    + intros t u x y [[-> ->]|[-> ->]]%settle_threads; cbn; by rewrite ?Hbc.
    + intros t x [[-> ->]|[-> ->]]%settle_threads; cbn; [done|]. intros _. right. by left.
  - split; try done.
    + intros t x [[-> ->]|[-> ->]]%settle_threads; [|done]. eapply wf_cont_prev, Hbw.
  - split; try done.
    intros t x c [[-> ->]|[-> ->]]%settle_threads; [|done]. cbn. intros Hc. specialize (Hbw (fun _ => True)). rewrite Hc in Hbw. by destruct Hbw.
Qed.

Lemma later_inv code k k' : full_inv k -> reachable code k k' -> full_inv k'.
Proof. intros Hk. induction 1; [done|by eapply step_inv]. Qed.

(** ** Claim *)


