(* ===== verification/ProgramSpec.v ===== *)
(** Loading a program as a whole: load of userprog/process.c (Process.v), from
    a file of the file system to the memory of a new process. *)

From stdpp Require Import base list numbers gmap.
From Stdlib Require Import ZArith Lia.
From Stdlib Require String.
From S2P Require Import Prelude Bitmap Inode FreeMap Directory Vm PageDir VmSpec VmBoot ByteMem Process LoadSpec StackSpec FsFrame FsSpec OpenSpec.
Import String.StringSyntax.
Open Scope Z_scope.

(** ** Programs *)

Definition ehdr (c : list Z) : Elf32_Ehdr := ehdr_of (take 52 c).
Definition phdr_at (c : list Z) (ofs : Z) : Elf32_Phdr := phdr_of (take 32 (drop (Z.to_nat ofs) c)).
Fixpoint phdrs_at (k : nat) (c : list Z) (ofs : Z) : list Elf32_Phdr :=
  match k with O => [] | S k => phdr_at c ofs :: phdrs_at k c (ofs + 32) end.
Definition phdrs (c : list Z) : list Elf32_Phdr := phdrs_at (Z.to_nat (e_phnum (ehdr c))) c (e_phoff (ehdr c)).

Definition loadable (p : Elf32_Phdr) : bool := p_type p =? PT_LOAD.
Definition segments (ps : list Elf32_Phdr) : list Elf32_Phdr := List.filter loadable ps.
Definition seg_end (p : Elf32_Phdr) : Z := seg_start p + 4096 * seg_pages p.
Definition apart (p q : Elf32_Phdr) : bool := (seg_end p <=? seg_start q) || (seg_end q <=? seg_start p).
Fixpoint all_apart (ps : list Elf32_Phdr) : bool :=
  match ps with [] => true | p :: ps => forallb (apart p) ps && all_apart ps end.

(** A header that load goes on after: its bytes are in the file, and its pages
    below the stack. *)
Definition good_phdr (c : list Z) (p : Elf32_Phdr) : bool :=
  negb ((p_type p =? PT_DYNAMIC) || (p_type p =? PT_INTERP) || (p_type p =? PT_SHLIB)) &&
  (negb (loadable p) || (validate_segment p (Z.of_nat (length c)) && (p_offset p + p_filesz p <=? Z.of_nat (length c)) && (seg_end p <=? STACK))).

Definition good_program (c : list Z) : bool :=
  (52 <=? Z.of_nat (length c)) && negb (ehdr_bad (ehdr c)) && (e_phoff (ehdr c) + 32 * e_phnum (ehdr c) <=? Z.of_nat (length c)) &&
  forallb (good_phdr c) (phdrs c) && all_apart (segments (phdrs c)).

Definition pages_of (ps : list Elf32_Phdr) : nat := sum_list ((fun p => Z.to_nat (seg_pages p)) <$> ps).

(** The byte of segment [p] at [va]. *)
Definition image (c : list Z) (p : Elf32_Phdr) (va : Z) : Z :=
  if va <? p_vaddr p + p_filesz p then default 0 (c !! Z.to_nat (p_offset p + (va - p_vaddr p))) else 0.

Lemma le_word_bound l : Forall is_u8 l -> 0 <= le_word l < 256 ^ Z.of_nat (length l).
Proof.
  induction 1 as [|x l Hx Hl IH]; [cbn; lia|]. unfold le_word in *. cbn [foldr length]. rewrite Nat2Z.inj_succ, Z.pow_succ_r by lia. unfold is_u8 in Hx. lia.
Qed.

Lemma field_u32 c ofs n : Forall is_u8 c -> (n <= 4)%nat -> is_u32 (field c ofs n).
Proof.
  intros Hc Hn. unfold field. set (l := take n (drop ofs c)). assert (Hl : Forall is_u8 l) by (by apply Forall_take, Forall_drop). pose proof (le_word_bound l Hl) as Hb.
  assert (Hlen : (length l <= 4)%nat) by (unfold l; rewrite length_take; lia). assert (256 ^ Z.of_nat (length l) <= 256 ^ 4) by (apply Z.pow_le_mono_r; lia). unfold is_u32. lia.
Qed.

Lemma phdr_at_wf c ofs : Forall is_u8 c -> phdr_wf (phdr_at c ofs).
Proof. intros Hc. unfold phdr_at. assert (Forall is_u8 (take 32 (drop (Z.to_nat ofs) c))) by (by apply Forall_take, Forall_drop). split_and!; by apply field_u32. Qed.

(** ** What loading leaves alone *)

(** The inodes, and of the files all but the positions. *)
Record steady (s s' : fs) : Prop := {
  st_inodes : inodes s' = inodes s;
  st_dev : dev s' = dev s;
  st_files fp : (fun f => (f_inode f, f_deny_write f)) <$> files s' !! fp = (fun f => (f_inode f, f_deny_write f)) <$> files s !! fp
}.

Class Steady {A} (c : stM fs A) : Prop := steadily s a s' : c s = Ok (a, s') -> steady s s'.

#[export] Instance steady_ret {A} (a : A) : Steady (mret a).
Proof. intros s x s' [= <- <-]. done. Qed.
#[export] Instance steady_raise {A} e : Steady (raise e : stM fs A).
Proof. intros s x s'. done. Qed.
#[export] Instance steady_assert b : Steady (assertM b).
Proof. intros s x s'. destruct b; [|done]. intros [= <- <-]. done. Qed.
#[export] Instance steady_bind {A B} (c : stM fs A) (f : A -> stM fs B) : Steady c -> (forall a, Steady (f a)) -> Steady (c ≫= f).
Proof.
  intros Hc Hf s b s' E. apply stbind_Ok in E as (a & s1 & E1 & E2). destruct (Hc _ _ _ E1) as [A1 A2 A3], (Hf _ _ _ _ E2) as [B1 B2 B3].
  split; [congruence..|]. intros fp. by rewrite B3.
Qed.
#[export] Instance steady_malloc : Steady malloc.
Proof. intros s a s'. unfold malloc. destruct (mallocs s); intros [= <- <-]; done. Qed.
#[export] Instance steady_get_inode i : Steady (get_inode i).
Proof. intros s a s'. unfold get_inode. destruct (inodes s !! i); [|done]. intros [= <- <-]. done. Qed.
#[export] Instance steady_get_file i : Steady (get_file i).
Proof. intros s a s'. unfold get_file. destruct (files s !! i); [|done]. intros [= <- <-]. done. Qed.
#[export] Instance steady_block_read sec : Steady (block_read sec).
Proof. intros s a s'. unfold block_read. destruct (_ <=? _); [done|]. destruct (dev s !! _); [|done]. intros [= <- <-]. done. Qed.

Ltac steady :=
  repeat match goal with
  | |- Steady (_ ≫= _) => apply steady_bind; [|intros ?]
  | |- Steady (match ?x with _ => _ end) => destruct x
  | |- Steady _ => solve [typeclasses eauto]
  | H : forall _ _ _ _ _, Steady _ |- _ => apply H
  end.

#[export] Instance steady_read_loop k : forall i size ofs b acc, Steady (inode_read_loop k i size ofs b acc).
Proof. induction k as [|k IH]; intros i size ofs b acc; cbn [inode_read_loop]; steady. Qed.
#[export] Instance steady_read_at ip size ofs : Steady (inode_read_at ip size ofs).
Proof. unfold inode_read_at. steady. Qed.

(** Moving the position of a file. *)
Lemma steady_set fp f pos s s' : files s !! fp = Some f -> steady s s' ->
  steady s (with_files s' (<[fp := MkFile (f_inode f) pos (f_deny_write f)]> (files s'))).
Proof.
  intros Hf [A1 A2 A3]. split; [done..|]. intros q. cbn. destruct (decide (q = fp)) as [->|Hne]; [by rewrite lookup_insert_eq, Hf|by rewrite lookup_insert_ne].
Qed.

Lemma get_file_inv fp s f s' : get_file fp s = Ok (f, s') -> s' = s /\ files s !! fp = Some f.
Proof. unfold get_file. destruct (files s !! fp); [|done]. by intros [= <- <-]. Qed.

#[export] Instance steady_file_read fp n : Steady (file_read fp n).
Proof.
  intros s a s' E. unfold file_read in E. apply stbind_Ok in E as (f & s1 & [-> Hf]%get_file_inv & E). apply stbind_Ok in E as (bs & s2 & E2 & E).
  apply stbind_Ok in E as (u & s3 & [= _ <-] & [= _ <-]). apply steady_set; [done|]. by eapply steady_read_at.
Qed.
#[export] Instance steady_file_seek fp n : Steady (file_seek fp n).
Proof.
  intros s a s' E. unfold file_seek in E. apply stbind_Ok in E as (u & s1 & E1 & E). apply stbind_Ok in E as (u' & s2 & E2 & E).
  apply stbind_Ok in E as (f & s3 & [-> Hf]%get_file_inv & [= _ <-]). destruct (steady_assert _ _ _ _ E1) as [A1 A2 A3], (steady_assert _ _ _ _ E2) as [B1 B2 B3].
  apply (steady_set fp f n s2 s2) in Hf; [|done]. destruct Hf as [C1 C2 C3]. split; [congruence..|]. intros q. by rewrite C3, B3, A3.
Qed.
#[export] Instance steady_file_length fp : Steady (file_length fp).
Proof. unfold file_length. steady. Qed.

(** In the kernel: no field of the process changes but for its memory. *)
Class Inner {A} (c : stM sys A) : Prop := inner s a s' : c s = Ok (a, s') -> s' = with_fs (with_vm s (s_vm s')) (s_fs s') /\ steady (s_fs s) (s_fs s').

#[export] Instance inner_ret {A} (a : A) : Inner (mret a).
Proof. intros s x s' [= <- <-]. by destruct s. Qed.
#[export] Instance inner_raise {A} e : Inner (raise e : stM sys A).
Proof. intros s x s'. done. Qed.
#[export] Instance inner_assert b : Inner (assertM b).
Proof. intros s x s'. destruct b; [|done]. intros [= <- <-]. by destruct s. Qed.
#[export] Instance inner_vm {A} (c : stM vm A) : Inner (on_vm c).
Proof. intros s x s'. unfold on_vm. destruct (c (s_vm s)) as [[a m]|]; [|done]. intros [= <- <-]. by destruct s. Qed.
#[export] Instance inner_fs {A} (c : stM fs A) : Steady c -> Inner (on_fs c).
Proof.
  intros Hc s x s'. unfold on_fs. destruct (c (s_fs s)) as [[a m]|] eqn:E; [|done]. intros [= <- <-]. split; [by destruct s|]. by eapply Hc.
Qed.
#[export] Instance inner_bind {A B} (c : stM sys A) (f : A -> stM sys B) : Inner c -> (forall a, Inner (f a)) -> Inner (c ≫= f).
Proof.
  intros Hc Hf s b s' E. apply stbind_Ok in E as (a & s1 & E1 & E2). destruct (Hc _ _ _ E1) as [HA [A1 A2 A3]], (Hf _ _ _ _ E2) as [HB [B1 B2 B3]].
  split; [rewrite HA in HB; exact HB|]. split; [congruence..|]. intros fp. by rewrite B3.
Qed.

Ltac inner :=
  repeat match goal with
  | |- Inner (_ ≫= _) => apply inner_bind; [|intros ?]
  | |- Inner (let '(_, _) := ?x in _) => destruct x
  | |- Inner (match ?x with _ => _ end) => destruct x
  | |- Inner _ => solve [typeclasses eauto]
  | H : forall _ _ _ _ _, Inner _ |- _ => apply H
  | H : forall _ _, Inner _ |- _ => apply H
  end.

#[export] Instance inner_segment_loop k : forall fp upage r z w, Inner (load_segment_loop k fp upage r z w).
Proof. induction k as [|k IH]; intros fp upage r z w; cbn [load_segment_loop]; inner. Qed.
#[export] Instance inner_phdr fp p : Inner (load_phdr fp p).
Proof. unfold load_phdr, load_segment. inner. Qed.
#[export] Instance inner_phdrs k : forall fp ofs, Inner (load_phdrs k fp ofs).
Proof. induction k as [|k IH]; intros fp ofs; cbn [load_phdrs]; inner. Qed.

(** ** The loop over the headers *)

Section Load.
Context (D : gset Z).

(** The part of an address space that some segments make: their bytes are
    there, and what is on none of their pages is as before. *)
Definition laid_out (c : list Z) (ps : list Elf32_Phdr) (m m' : vm) : Prop :=
  (forall p va, p ∈ ps -> p_vaddr p <= va < p_vaddr p + p_memsz p ->
    (exists q, translate m' (cur_pagedir m) va = Some (q, has (p_flags p) PF_W)) /\ ubyte m' (cur_pagedir m) va = Some (image c p va)) /\
  (forall pd va, pd ∈ D -> 0 <= va < PHYS_BASE -> (pd = cur_pagedir m -> forall p, p ∈ ps -> ~ seg_start p <= va < seg_end p) ->
    translate m' pd va = translate m pd va /\ ubyte m' pd va = ubyte m pd va).

(** A loadable segment is on its pages. *)
Lemma seg_bounds c p : Forall is_u8 c -> Z.of_nat (length c) < 2 ^ 31 -> phdr_wf p -> validate_segment p (Z.of_nat (length c)) = true ->
  0 <= seg_start p <= p_vaddr p /\ p_vaddr p + p_memsz p <= seg_end p /\ 0 < seg_pages p /\ 0 < p_memsz p /\ p_vaddr p + p_memsz p < PHYS_BASE.
Proof.
  intros Hc Hl Hw Hv. apply validate_iff in Hv as (V1 & V2 & V3 & V4 & V5 & V6); [|done|lia]. destruct Hw as (U1 & U2 & U3 & U4). unfold is_u32 in *.
  unfold seg_end, seg_start, seg_pages. Z.to_euclidean_division_equations. lia.
Qed.

Lemma segments_in c : forall k ofs p, Forall is_u8 c -> Z.of_nat (length c) < 2 ^ 31 -> forallb (good_phdr c) (phdrs_at k c ofs) = true -> p ∈ segments (phdrs_at k c ofs) ->
  0 <= seg_start p <= p_vaddr p /\ p_vaddr p + p_memsz p <= seg_end p /\ seg_end p <= STACK.
Proof.
  induction k as [|k IH]; intros ofs p Hc Hl Hg Hp; [by apply not_elem_of_nil in Hp|]. cbn [phdrs_at forallb] in Hg. apply andb_true_iff in Hg as [Hg1 Hg2]. unfold segments in Hp. cbn [phdrs_at List.filter] in Hp.
  destruct (loadable (phdr_at c ofs)) eqn:El; [|by apply (IH (ofs + 32))]. apply elem_of_cons in Hp as [->|Hp]; [|by apply (IH (ofs + 32))].
  unfold good_phdr in Hg1. rewrite El in Hg1. cbn [negb orb] in Hg1. zbool. destruct (seg_bounds c (phdr_at c ofs)) as (B1 & B2 & _); [done|done|by apply phdr_at_wf|done|]. lia.
Qed.

Lemma all_apart_cons p ps : all_apart (p :: ps) = true -> (forall q, q ∈ ps -> seg_end p <= seg_start q \/ seg_end q <= seg_start p) /\ all_apart ps = true.
Proof.
  intros H. cbn in H. apply andb_true_iff in H as [H1 H2]. split; [|done]. intros q Hq. rewrite forallb_forall in H1. specialize (H1 q). rewrite <- list_elem_of_In in H1.
  specialize (H1 Hq). unfold apart in H1. apply orb_true_iff in H1 as [H1|H1]; apply Z.leb_le in H1; lia.
Qed.

Lemma laid_out_refl c m : laid_out c [] m m.
Proof. split; [|done]. intros p va Hp. by apply not_elem_of_nil in Hp. Qed.

(** One segment, then others that lie elsewhere. *)
Lemma laid_out_cons c p ps m m1 m2 : cur_pagedir m ∈ D -> cur_pagedir m1 = cur_pagedir m ->
  (forall q, q ∈ ps -> seg_end p <= seg_start q \/ seg_end q <= seg_start p) -> (forall q, q ∈ p :: ps -> 0 <= seg_start q <= p_vaddr q /\ p_vaddr q + p_memsz q <= seg_end q /\ p_vaddr q + p_memsz q < PHYS_BASE) ->
  laid_out c [p] m m1 -> laid_out c ps m1 m2 -> laid_out c (p :: ps) m m2.
Proof.
  intros Hcur Hc Ha Hb [F1 F2] [G1 G2]. rewrite Hc in *. split.
  - intros q va [->|Hq]%elem_of_cons Hva; [|by apply G1]. destruct (F1 p va) as [P1 P2]; [by left|done|]. destruct (Hb p) as (B1 & B2 & B3); [by left|].
    destruct (G2 (cur_pagedir m) va) as [-> ->]; [done|lia| |done]. intros _ q Hq Hin. destruct (Ha q Hq); lia.
  - intros pd va Hpd Hva Hn. destruct (G2 pd va Hpd Hva) as [-> ->]; [intros E q Hq; apply Hn; [done|by right]|]. apply F2; [done|done|].
    intros E q ->%list_elem_of_singleton. apply Hn; [done|by left].
Qed.

Lemma load_phdrs_ok e c fp : forall k ofs pos s,
  vm_inv D (s_vm s) -> cur_pagedir (s_vm s) ∈ D -> fp <> 0 -> reading (s_fs s) fp c pos -> Forall is_u8 c ->
  0 <= ofs -> ofs + 32 * Z.of_nat k <= Z.of_nat (length c) ->
  forallb (good_phdr c) (phdrs_at k c ofs) = true -> all_apart (segments (phdrs_at k c ofs)) = true ->
  (forall p va, p ∈ segments (phdrs_at k c ofs) -> seg_start p <= va < seg_end p -> translate (s_vm s) (cur_pagedir (s_vm s)) va = None) ->
  free_frames (s_vm s) (pages_of (segments (phdrs_at k c ofs)) + e) -> free_kernel (s_vm s) (pages_of (segments (phdrs_at k c ofs)) + e) ->
  exists s', load_phdrs k fp ofs s = Ok (true, s') /\ vm_inv D (s_vm s') /\ lframe (s_vm s) (s_vm s') /\
    (exists pos', reading (s_fs s') fp c pos') /\ free_frames (s_vm s') e /\ free_kernel (s_vm s') e /\
    laid_out c (segments (phdrs_at k c ofs)) (s_vm s) (s_vm s').
Proof.
  induction k as [|k IH]; intros ofs pos s HI Hcur Hfp Hrd Hu Ho Hend Hg Hap Hmap Hff Hfk.
  { exists s. split; [done|]. split; [done|]. split; [done|]. split; [by exists pos|]. split; [done|]. split; [done|]. apply laid_out_refl. }
  cbn [phdrs_at] in *. set (p := phdr_at c ofs) in *. cbn [forallb] in Hg. apply andb_true_iff in Hg as [Hp Hg]. destruct (file_length_Ok _ fp c pos Hfp Hrd) as [El Hl].
  cbn [load_phdrs]. erewrite stbind_step by (apply on_fs_Ok, El). rewrite (proj2 (Z.ltb_ge ofs 0)), (proj2 (Z.ltb_ge (Z.of_nat (length c)) ofs)) by lia. cbn [orb].
  destruct (file_seek_Ok (s_fs s) fp c pos ofs Hfp Hrd Ho) as (f1 & E1 & R1). erewrite stbind_step by (apply on_fs_Ok, E1).
  destruct (file_read_Ok f1 fp c ofs sizeof_Phdr R1) as (f2 & E2 & R2); [lia|done|]. erewrite stbind_step by (apply on_fs_Ok, E2).
  change (take (Z.to_nat sizeof_Phdr) (drop (Z.to_nat ofs) c)) with (take 32 (drop (Z.to_nat ofs) c)) in *.
  assert (Hlen : length (take 32 (drop (Z.to_nat ofs) c)) = 32%nat) by (rewrite length_take, length_drop; lia). rewrite Hlen. change (negb (Z.of_nat 32 =? sizeof_Phdr)) with false. cbn iota.
  change (phdr_of (take 32 (drop (Z.to_nat ofs) c))) with p. rewrite (s32_small (ofs + sizeof_Phdr)) by (unfold is_s32, sizeof_Phdr; lia). change (ofs + sizeof_Phdr) with (ofs + 32).
  pose proof (phdr_at_wf c ofs Hu) as Hwf. fold p in Hwf. set (s1 := with_fs (with_fs (with_fs s (s_fs s)) f1) f2). unfold good_phdr in Hp. apply andb_true_iff in Hp as [Hty Hp]. apply negb_true_iff in Hty.
  assert (Hcons : segments (p :: phdrs_at k c (ofs + 32)) = if loadable p then p :: segments (phdrs_at k c (ofs + 32)) else segments (phdrs_at k c (ofs + 32))) by done.
  rewrite Hcons in *. destruct (loadable p) eqn:Hload.
  - cbn [negb orb] in Hp. apply andb_true_iff in Hp as [Hp Hst]. apply andb_true_iff in Hp as [Hv Hfile]. apply Z.leb_le in Hfile. apply all_apart_cons in Hap as [Hap1 Hap2].
    destruct (load_phdr_spec D (pages_of (segments (phdrs_at k c (ofs + 32))) + e) s1 fp c _ p HI Hcur Hfp R2 Hu Hwf (proj1 (Z.eqb_eq _ _) Hload) Hv Hfile) as (s2 & E3 & HI2 & [L1 L2] & (pos2 & R3) & Hff2 & Hfk2 & Hfin).
    { intros j Hj. apply (Hmap p); [by left|]. unfold seg_end. lia. }
    { unfold pages_of in *. cbn in Hff. by rewrite Nat.add_assoc. } { unfold pages_of in *. cbn in Hfk. by rewrite Nat.add_assoc. }
    cbn [s_vm with_fs s1] in *. destruct (seg_bounds c p Hu Hl Hwf Hv) as (B1 & B2 & B3 & B4 & B5).
    assert (Hlay : laid_out c [p] (s_vm s) (s_vm s2)).
    { split.
      - intros q va ->%list_elem_of_singleton Hva. specialize (Hfin (cur_pagedir (s_vm s)) va Hcur ltac:(lia)). change (seg_start p + 4096 * seg_pages p) with (seg_end p) in Hfin. rewrite bool_decide_true in Hfin by lia. destruct Hfin as [F1 F2]. split; [done|]. by apply F2.
      - intros pd va Hpd Hva Hn. specialize (Hfin pd va Hpd Hva). change (seg_start p + 4096 * seg_pages p) with (seg_end p) in Hfin. rewrite bool_decide_false in Hfin; [done|]. intros [-> Hin]. apply (Hn eq_refl p); [by left|done]. }
    erewrite stbind_step by exact E3. cbv beta iota.
    assert (Hrest : forall q, q ∈ segments (phdrs_at k c (ofs + 32)) -> 0 <= seg_start q <= p_vaddr q /\ p_vaddr q + p_memsz q <= seg_end q /\ seg_end q <= STACK) by (intros q Hq; by apply (segments_in c k (ofs + 32))).
    assert (Hn2 : forall q va, q ∈ segments (phdrs_at k c (ofs + 32)) -> seg_start q <= va < seg_end q -> translate (s_vm s2) (cur_pagedir (s_vm s2)) va = None).
    { intros q va Hq Hva. destruct (Hrest q Hq) as (Q1 & Q2 & Q3). rewrite L1. destruct Hlay as [_ Hlay]. destruct (Hlay (cur_pagedir (s_vm s)) va) as [-> _]; [done|unfold STACK in *; lia| |by apply (Hmap q); [right|]].
      intros _ p' ->%list_elem_of_singleton Hin. destruct (Hap1 q Hq); lia. }
    destruct (IH (ofs + 32) pos2 s2 HI2) as (s3 & E4 & HI3 & [L3 L4] & R4 & Hff3 & Hfk3 & Hlay2); [by rewrite L1|done|done|done|lia|lia|done|done|done|done|done|].
    exists s3. split; [done|]. split; [done|]. split; [split; congruence|]. split; [done|]. split; [done|]. split; [done|].
    eapply laid_out_cons; [done|exact L1|exact Hap1| |exact Hlay|exact Hlay2]. intros q [->|Hq]%elem_of_cons; [lia|]. destruct (Hrest q Hq). unfold STACK in *. lia.
  - assert (E3 : load_phdr fp p s1 = Ok (true, s1)) by (unfold load_phdr; rewrite Hty; unfold loadable in Hload; by rewrite Hload). erewrite stbind_step by exact E3. cbv beta iota.
    destruct (IH (ofs + 32) _ s1 HI Hcur Hfp R2 Hu) as (s3 & E4 & HI3 & HL & R4 & Hff3 & Hfk3 & Hlay2); [lia|lia|done|done|done|done|done|].
    exists s3. split; [done|]. split; [done|]. split; [done|]. split; [done|]. split; [done|]. split; [done|]. done.
Qed.

End Load.

(** ** The parts of load *)

(** A new page directory, empty; what the other processes see stays. *)
Lemma load_pagedir_new D m n k : vm_inv D m -> cur_pagedir m = 0 -> free_kernel m (S n) -> free_frames m k ->
  exists m', load_pagedir m = Ok (true, m') /\ (cur_pagedir m' ∉ D) /\ vm_inv ({[cur_pagedir m']} ∪ D) m' /\ free_kernel m' n /\ free_frames m' k /\
    (forall va, 0 <= va < PHYS_BASE -> translate m' (cur_pagedir m') va = None) /\
    (forall pd va, pd ∈ D -> 0 <= va < PHYS_BASE -> translate m' pd va = translate m pd va /\ ubyte m' pd va = ubyte m pd va).
Proof.
  intros HI H0 Hfk Hff. destruct (pagedir_create_spec D m (vi_dir D m HI)) as [[E Hfull]|(pd & m1 & E & Hok & Hpd & HD & Hk & Hgr & Htr)]; [by destruct (free_kernel_one m n Hfk)|].
  assert (Hne : (pd =? 0) = false) by (apply Z.eqb_neq; destruct Hok; unfold PHYS_BASE in *; lia).
  assert (EL : load_pagedir m = Ok (true, set_cr3 (pd - PHYS_BASE) (set_current (cur_tid m1) pd m1))).
  { unfold load_pagedir. erewrite stbind_step by exact E. do 2 (erewrite stbind_step by done). rewrite Hne. erewrite stbind_step by (apply activate_Ok; by rewrite Hne). by rewrite Hne. }
  pose proof (load_inv D m true _ HI H0 EL) as HI'. set (m' := set_cr3 _ _) in *. exists m'. split; [done|]. split; [done|]. split; [exact HI'|].
  split. { eapply (free_kernel_step m m' n); [done|apply Hk|apply Hk|done]. }
  split. { destruct Hff as (X & Hn & HX). exists X. split; [done|]. intros j Hj. change (frame_pool m') with (frame_pool m1). rewrite (kf_frame _ _ Hk). by apply HX. }
  split. { intros va Hva. change (translate m1 pd va = None). rewrite Htr by (done || set_solver). by rewrite bool_decide_true. }
  intros pd' va Hpd' Hva. assert (Et : translate m' pd' va = translate m pd' va).
  { change (translate m1 pd' va = translate m pd' va). rewrite Htr by (done || set_solver). rewrite bool_decide_false; [done|]. intros ->. done. }
  split; [done|]. unfold ubyte. rewrite Et. destruct (translate m pd' va) as [[a w]|] eqn:Ea; [|done]. destruct (vi_mapped D m HI pd' va a w Hpd' Hva Ea) as (j & Hj & ->).
  unfold pbyte, word. change (Vm.pages m') with (Vm.pages m1). rewrite (kf_pages _ _ Hk); [done|]. apply (vi_sep D m HI). by eapply in_use_range.
Qed.

(** The inode of file [fp] must not be written. *)
Definition protected (s : fs) (fp : Z) : Prop :=
  exists ip pos i, files s !! fp = Some (MkFile ip pos true) /\ inodes s !! ip = Some i /\ deny_write_cnt i <> 0.

Lemma protected_steady s s' fp : steady s s' -> protected s fp -> protected s' fp.
Proof.
  intros [Hi _ Hf] (ip & pos & i & Hfp & Hip & Hd). specialize (Hf fp). rewrite Hfp in Hf. destruct (files s' !! fp) as [[ip' pos' dw]|] eqn:E; [|done]. cbn in Hf. injection Hf as -> ->.
  exists ip, pos', i. split; [done|]. by rewrite Hi.
Qed.

Lemma protected_write s fp buf n : protected s fp -> exists s', file_write fp buf n s = Ok (0, s') /\ dev s' = dev s.
Proof.
  intros (ip & pos & i & Hfp & Hip & Hd). unfold file_write. erewrite stbind_step by (by apply get_file_Ok). cbn [f_inode f_pos].
  assert (E : inode_write_at ip buf n pos s = Ok (0, s)) by (unfold inode_write_at; erewrite stbind_step by (by apply get_inode_Ok); by rewrite (proj2 (Z.eqb_neq _ 0) Hd)).
  erewrite stbind_step by exact E. erewrite stbind_step by reflexivity. by eexists.
Qed.

(** Opening the file and denying writes to it. *)
Lemma open_program s nm c : opens s nm c ->
  exists fp s1 s2, filesys_open nm s = Ok (fp, s1) /\ fp <> 0 /\ file_deny_write fp s1 = Ok (tt, s2) /\ reading s2 fp c 0 /\ protected s2 fp.
Proof.
  intros (fp & s1 & ip & i & E & Hfp & Hf & Hi & Hok & Hc & Hd & Hd0 & Hm). exists fp, s1. eexists. split; [exact E|]. split; [done|]. split.
  { unfold file_deny_write. erewrite stbind_step by (apply assertM_true; by rewrite (proj2 (Z.eqb_neq fp 0) Hfp)). erewrite stbind_step by (by apply get_file_Ok). cbn [f_deny_write negb].
    erewrite stbind_step by reflexivity. unfold inode_deny_write. erewrite stbind_step by (apply get_inode_Ok; exact Hi). erewrite stbind_step by reflexivity. apply assertM_true, Z.leb_le. lia. }
  split.
  - exists ip, true, (MkInode (sector i) (open_cnt i) (removed i) (deny_write_cnt i + 1) (data i)). cbn. rewrite !lookup_insert_eq. done.
  - exists ip, 0, (MkInode (sector i) (open_cnt i) (removed i) (deny_write_cnt i + 1) (data i)). cbn. rewrite !lookup_insert_eq. split; [done|]. split; [done|]. cbn. lia.
Qed.

(** The header is read. *)
Lemma read_ehdr s fp c : reading s fp c 0 -> exists s' pos, file_read fp sizeof_Ehdr s = Ok (take 52 c, s') /\ reading s' fp c pos.
Proof. intros H. destruct (file_read_Ok s fp c 0 sizeof_Ehdr H) as (s' & E & R); [lia|done|]. exists s', (0 + Z.of_nat (length (take 52 c))). done. Qed.

Lemma good_program_iff c : Forall is_u8 c -> good_program c = true ->
  length (take 52 c) = 52%nat /\ ehdr_bad (ehdr c) = false /\ (0 <= e_phoff (ehdr c) /\ 0 <= e_phnum (ehdr c) /\ e_phoff (ehdr c) + 32 * e_phnum (ehdr c) <= Z.of_nat (length c)) /\
  forallb (good_phdr c) (phdrs c) = true /\ all_apart (segments (phdrs c)) = true.
Proof.
  intros Hc Hg. unfold good_program in Hg. zbool. rewrite length_take. split; [lia|]. split; [done|]. split; [|done]. split; [|split; [|lia]].
  - by apply (field_u32 (take 52 c) 28 4); [apply Forall_take|].
  - apply (field_u32 (take 52 c) 44 2); [by apply Forall_take|lia].
Qed.

(** What is left of load when the header has been read. *)
Definition load_rest (file_name : list Z) (argv : list (list Z)) (c : list Z) (fp : Z) : stM sys (option (Z * Z)) :=
  if negb (Z.of_nat (length (take 52 c)) =? 52) || ehdr_bad (ehdr c) then
    print (chars "load: " ++ file_name ++ chars ": error loading executable" ++ [10]);; mret None
  else
    ok ← load_phdrs (Z.to_nat (e_phnum (ehdr c))) fp (s32 (e_phoff (ehdr c)));
    if negb ok then mret None
    else
      r ← setup_stack argv;
      let '(ok, esp) := r in
      if negb ok then mret None else mret (Some (e_entry (ehdr c), esp)).

(** The state at that point: a new directory [pd] and the open file. *)
Record header_read (D : gset Z) (c : list Z) (n k : nat) (s s' : sys) : Prop := {
  h_fresh : cur_pagedir (s_vm s') ∉ D;
  h_inv : vm_inv ({[cur_pagedir (s_vm s')]} ∪ D) (s_vm s');
  h_kernel : free_kernel (s_vm s') n;
  h_frames : free_frames (s_vm s') k;
  h_empty va : 0 <= va < PHYS_BASE -> translate (s_vm s') (cur_pagedir (s_vm s')) va = None;
  h_others pd va : pd ∈ D -> 0 <= va < PHYS_BASE -> translate (s_vm s') pd va = translate (s_vm s) pd va /\ ubyte (s_vm s') pd va = ubyte (s_vm s) pd va;
  h_file : executable s' <> 0;
  h_reading : exists pos, reading (s_fs s') (executable s') c pos;
  h_protected : protected (s_fs s') (executable s');
  h_console : console s' = console s
}.

Lemma load_header D s file_name c argv n k :
  vm_inv D (s_vm s) -> cur_pagedir (s_vm s) = 0 -> opens (s_fs s) file_name c -> free_kernel (s_vm s) (S n) -> free_frames (s_vm s) k ->
  exists s', load file_name argv s = load_rest file_name argv c (executable s') s' /\ header_read D c n k s s'.
Proof.
  intros HI H0 Hop Hfk Hff. destruct (load_pagedir_new D (s_vm s) n k HI H0 Hfk Hff) as (m1 & E1 & Hpd & HI1 & Hfk1 & Hff1 & Hnew & Hold).
  destruct (open_program (s_fs s) file_name c Hop) as (fp & f1 & f2 & E2 & Hfp & E3 & R2 & P2). destruct (read_ehdr f2 fp c R2) as (f3 & pos & E4 & R3).
  unfold load. erewrite stbind_step by (apply on_vm_Ok, E1). cbn [negb]. erewrite stbind_step by (apply on_fs_Ok, E2). erewrite stbind_step by reflexivity. rewrite (proj2 (Z.eqb_neq fp 0) Hfp).
  erewrite stbind_step by (apply on_fs_Ok, E3). erewrite stbind_step by (apply on_fs_Ok, E4). match goal with |- exists _, ?l ?x = _ /\ _ => exists x end. split; [reflexivity|].
  split; try done; [by exists pos|]. eapply protected_steady; [|exact P2]. by eapply steady_file_read.
Qed.

(** The segments and the stack. *)
Lemma load_body D c s fp pos argv :
  vm_inv D (s_vm s) -> cur_pagedir (s_vm s) ∈ D -> fp <> 0 -> reading (s_fs s) fp c pos -> Forall is_u8 c -> 0 <= e_phoff (ehdr c) -> 0 <= e_phnum (ehdr c) -> e_phoff (ehdr c) + 32 * e_phnum (ehdr c) <= Z.of_nat (length c) ->
  forallb (good_phdr c) (phdrs c) = true -> all_apart (segments (phdrs c)) = true -> (forall va, 0 <= va < PHYS_BASE -> translate (s_vm s) (cur_pagedir (s_vm s)) va = None) ->
  free_frames (s_vm s) (pages_of (segments (phdrs c)) + 1) -> free_kernel (s_vm s) (pages_of (segments (phdrs c)) + 1) ->
  Z.of_nat (length argv) <= 50 -> Forall (Forall is_u8) argv -> STACK <= final_esp argv ->
  exists s1 m', load_phdrs (Z.to_nat (e_phnum (ehdr c))) fp (s32 (e_phoff (ehdr c))) s = Ok (true, s1) /\ setup_stack argv s1 = Ok ((true, final_esp argv), with_vm s1 m') /\
    laid_out D c (segments (phdrs c)) (s_vm s) (s_vm s1) /\ (exists pos', reading (s_fs s1) fp c pos') /\ lframe (s_vm s) (s_vm s1) /\ sframe D (s_vm s1) m' /\
    exists ptrs pad, stack_inv D m' (final_esp argv) (le_bytes 0 ++ le_bytes (Z.of_nat (length argv)) ++ le_bytes (final_esp argv + 12) ++ words ptrs ++ le_bytes 0 ++ pad ++ strs argv) /\
      length ptrs = length argv /\ forall i arg, argv !! i = Some arg -> exists p, ptrs !! i = Some p /\ mem_at m' (cur_pagedir m') p (arg ++ [0]).
Proof.
  intros HI Hcur Hfp Hrd Hu Hpo Hpn Hph Hps Hap Hemp Hff Hfk Hargc Hargs Hroom. destruct (file_length_Ok _ fp c pos Hfp Hrd) as [_ Hl]. unfold phdrs in *.
  assert (Hin : forall p, p ∈ segments (phdrs_at (Z.to_nat (e_phnum (ehdr c))) c (e_phoff (ehdr c))) -> 0 <= seg_start p /\ seg_end p <= STACK) by (intros p Hp; apply (segments_in c) in Hp; [lia|done..]).
  destruct (load_phdrs_ok D 1 c fp (Z.to_nat (e_phnum (ehdr c))) (e_phoff (ehdr c)) pos s HI Hcur Hfp Hrd Hu Hpo) as (s1 & E1 & HI1 & [L1 L2] & R1 & Hff1 & Hfk1 & Hlay); [lia|done|done| |done|done|].
  { intros p va Hp Hva. apply Hemp. destruct (Hin p Hp). unfold STACK in *. lia. }
  assert (Hst : translate (s_vm s1) (cur_pagedir (s_vm s1)) STACK = None).
  { rewrite L1. destruct Hlay as [_ Hlay]. destruct (Hlay (cur_pagedir (s_vm s)) STACK) as [-> _]; [done|unfold STACK, PHYS_BASE; lia| |apply Hemp; unfold STACK, PHYS_BASE; lia]. intros _ p Hp. destruct (Hin p Hp). lia. }
  destruct (setup_stack_spec D s1 argv HI1 ltac:(by rewrite L1) Hst Hff1 Hfk1 Hargc Hargs Hroom) as (m' & esp & ptrs & pad & E2 & -> & HS & Hlp & Hp & Hsf).
  exists s1, m'. rewrite s32_small by (unfold is_s32; lia). split; [done|]. split; [done|]. split; [done|]. split; [done|]. split; [done|]. split; [done|]. by exists ptrs, pad.
Qed.

(** ** Programs that are refused *)

(** The header at [ofs] is not all in the file, or load does not accept it. *)
Definition refused (c : list Z) (ofs : Z) : bool :=
  let p := phdr_at c ofs in
  (Z.of_nat (length c) <? ofs + 32) || ((p_type p =? PT_DYNAMIC) || (p_type p =? PT_INTERP) || (p_type p =? PT_SHLIB)) ||
  (loadable p && negb (validate_segment p (Z.of_nat (length c)))).

Lemma load_phdrs_app fp k : forall j ofs s s', 0 <= ofs -> ofs + 32 * Z.of_nat j < 2 ^ 31 -> load_phdrs j fp ofs s = Ok (true, s') ->
  load_phdrs (j + k) fp ofs s = load_phdrs k fp (ofs + 32 * Z.of_nat j) s'.
Proof.
  induction j as [|j IH]; intros ofs s s' Ho Hl E. { injection E as <-. by rewrite Z.add_0_r. }
  cbn [load_phdrs] in E. apply stbind_Ok in E as (len & s1 & E1 & E). destruct (_ || _) eqn:C1; [done|]. apply stbind_Ok in E as (u & s2 & E2 & E). apply stbind_Ok in E as (b & s3 & E3 & E). destruct (negb _) eqn:C2; [done|].
  apply stbind_Ok in E as (ok & s4 & E4 & E). destruct ok; [|done]. rewrite s32_small in E by (unfold is_s32, sizeof_Phdr; lia). apply IH in E; [|unfold sizeof_Phdr in *; lia..].
  cbn [load_phdrs Nat.add]. erewrite stbind_step by exact E1. rewrite C1. erewrite stbind_step by exact E2. erewrite stbind_step by exact E3. rewrite C2. erewrite stbind_step by exact E4. cbv beta iota.
  rewrite s32_small by (unfold is_s32, sizeof_Phdr; lia). rewrite E. f_equal. unfold sizeof_Phdr. lia.
Qed.

Lemma load_phdrs_refused fp c k pos ofs s : fp <> 0 -> reading (s_fs s) fp c pos -> is_u32 ofs -> refused c ofs = true -> exists s', load_phdrs (S k) fp (s32 ofs) s = Ok (false, s').
Proof.
  intros Hfp Hrd Ho Hr. destruct (file_length_Ok _ fp c pos Hfp Hrd) as [El Hl]. cbn [load_phdrs]. erewrite stbind_step by (apply on_fs_Ok, El).
  destruct ((s32 ofs <? 0) || (Z.of_nat (length c) <? s32 ofs)) eqn:C1; [by eexists|]. zbool.
  assert (Hs : s32 ofs = ofs) by (unfold s32, is_u32 in *; Z.to_euclidean_division_equations; lia). rewrite Hs in *.
  destruct (file_seek_Ok (s_fs s) fp c pos ofs Hfp Hrd) as (f1 & E1 & R1); [lia|]. erewrite stbind_step by (apply on_fs_Ok, E1).
  destruct (file_read_Ok f1 fp c ofs sizeof_Phdr R1) as (f2 & E2 & R2); [lia|done|]. erewrite stbind_step by (apply on_fs_Ok, E2).
  change (take (Z.to_nat sizeof_Phdr) (drop (Z.to_nat ofs) c)) with (take 32 (drop (Z.to_nat ofs) c)) in *. destruct (negb _) eqn:C2; [by eexists|]. apply negb_false_iff, Z.eqb_eq in C2. rewrite length_take, length_drop in C2. unfold sizeof_Phdr in C2.
  unfold refused in Hr. rewrite (proj2 (Z.ltb_ge _ (ofs + 32))) in Hr by lia. cbn [orb] in Hr. fold (phdr_at c ofs). set (p := phdr_at c ofs) in *. set (s2 := with_fs _ f2).
  assert (E3 : load_phdr fp p s2 = Ok (false, s2)).
  { unfold load_phdr. destruct ((p_type p =? PT_DYNAMIC) || (p_type p =? PT_INTERP) || (p_type p =? PT_SHLIB)); [done|]. cbn [orb] in Hr. apply andb_true_iff in Hr as [Hlo Hv]. unfold loadable in Hlo. rewrite Hlo.
    destruct (file_length_Ok f2 fp c _ Hfp R2) as [El2 _]. erewrite stbind_step by (apply on_fs_Ok, El2). apply negb_true_iff in Hv. rewrite Hv. unfold s2. by destruct s. }
  erewrite stbind_step by exact E3. by eexists.
Qed.

(** The headers before the first one that is refused are loaded. *)
Lemma load_rest_refused D c s fp pos i file_name argv : vm_inv D (s_vm s) -> cur_pagedir (s_vm s) ∈ D -> fp <> 0 -> reading (s_fs s) fp c pos -> Forall is_u8 c -> length (take 52 c) = 52%nat -> ehdr_bad (ehdr c) = false ->
  (i < Z.to_nat (e_phnum (ehdr c)))%nat -> (i = 0%nat \/ e_phoff (ehdr c) + 32 * Z.of_nat i <= Z.of_nat (length c)) -> refused c (e_phoff (ehdr c) + 32 * Z.of_nat i) = true ->
  let ps := phdrs_at i c (e_phoff (ehdr c)) in
  forallb (good_phdr c) ps = true -> all_apart (segments ps) = true -> (forall va, 0 <= va < PHYS_BASE -> translate (s_vm s) (cur_pagedir (s_vm s)) va = None) ->
  free_frames (s_vm s) (pages_of (segments ps)) -> free_kernel (s_vm s) (pages_of (segments ps)) -> exists s', load_rest file_name argv c fp s = Ok (None, s') /\ console s' = console s.
Proof.
  intros HI Hcur Hfp Hrd Hu Hlen Hbad Hi Hin Href ps Hps Hap Hemp Hff Hfk. unfold load_rest. rewrite Hlen, Hbad. change (negb (Z.of_nat 52 =? 52) || false) with false. cbv iota.
  assert (Hpo : is_u32 (e_phoff (ehdr c))) by (apply (field_u32 (take 52 c) 28 4); [by apply Forall_take|done]). destruct (file_length_Ok _ fp c pos Hfp Hrd) as [_ Hl].
  assert (E : exists s', load_phdrs (Z.to_nat (e_phnum (ehdr c))) fp (s32 (e_phoff (ehdr c))) s = Ok (false, s')).
  { destruct i as [|i]; [rewrite Z.add_0_r in Href; destruct (Z.to_nat (e_phnum (ehdr c))) as [|k]; [lia|]; by eapply load_phdrs_refused|]. destruct Hin as [|Hin]; [done|].
    rewrite s32_small by (unfold is_s32, is_u32 in *; lia).
    destruct (load_phdrs_ok D 0 c fp (S i) (e_phoff (ehdr c)) pos s HI Hcur Hfp Hrd Hu) as (s1 & E1 & _ & _ & [pos1 R1] & _); [apply Hpo|done|done|done| |by rewrite Nat.add_0_r..|].
    { intros p va Hp Hva. apply Hemp. pose proof (segments_in c _ _ p Hu Hl Hps Hp). unfold STACK in *. lia. }
    replace (Z.to_nat (e_phnum (ehdr c))) with (S i + S (Z.to_nat (e_phnum (ehdr c)) - S i - 1))%nat by lia. unfold is_u32 in Hpo.
    rewrite (load_phdrs_app fp _ (S i) _ s s1) by (done || lia). rewrite <- (s32_small (_ + _)) by (unfold is_s32; lia). eapply load_phdrs_refused; [done|exact R1|unfold is_u32; lia|done]. }
  destruct E as [s' E]. exists s'. erewrite stbind_step by exact E. split; [done|]. destruct (inner_phdrs _ _ _ _ _ _ E) as [-> _]. done.
Qed.

(** ** Claims *)

(** C9. load makes a process out of a file.  The file system may have any other
    files open, this one included.  If the file holds a well-formed program (an
    ELF header, headers of segments that are in the file, on pages of their own
    below the stack), there are free frames for its pages and its stack and as
    many free kernel pages and one more (for the page tables and the page
    directory), the file system's allocations succeed, and the arguments are at
    most 50 and fit on the stack, load returns the entry point and the stack
    pointer.  The new process then sees, at the addresses of each segment, its
    bytes of the file followed by zeros, writable where the segment says so; on
    its stack the return address, argc, argv and the arguments; and nothing else
    is mapped.  What the other processes see has not changed, and the program's
    file stays open and cannot be written to. *)
Theorem load_correct D M s file_name c argv :
  vm_inv D (s_vm s) -> cur_pagedir (s_vm s) = 0 -> volume M (s_fs s) -> valid_name file_name -> M !! file_name = Some c -> Forall is_u8 c -> good_program c = true ->
  free_frames (s_vm s) (pages_of (segments (phdrs c)) + 1) -> free_kernel (s_vm s) (pages_of (segments (phdrs c)) + 2) ->
  Z.of_nat (length argv) <= 50 -> Forall (Forall is_u8) argv -> STACK <= final_esp argv ->
  exists s' ptrs, load file_name argv s = Ok (Some (e_entry (ehdr c), final_esp argv), s') /\
    let m := s_vm s' in let pd := cur_pagedir m in
    (pd ∉ D) /\ vm_inv ({[pd]} ∪ D) m /\
    (forall p va, p ∈ segments (phdrs c) -> p_vaddr p <= va < p_vaddr p + p_memsz p ->
      (exists q, translate m pd va = Some (q, has (p_flags p) PF_W)) /\ ubyte m pd va = Some (image c p va)) /\
    mem_at m pd (final_esp argv) (le_bytes 0 ++ le_bytes (Z.of_nat (length argv)) ++ le_bytes (final_esp argv + 12) ++ words ptrs ++ le_bytes 0) /\ length ptrs = length argv /\
    (forall i arg, argv !! i = Some arg -> exists a, ptrs !! i = Some a /\ mem_at m pd a (arg ++ [0])) /\
    (exists q, forall va, STACK <= va < PHYS_BASE -> translate m pd va = Some (q, true)) /\
    (forall va, 0 <= va < STACK -> (forall p, p ∈ segments (phdrs c) -> ~ seg_start p <= va < seg_end p) -> translate m pd va = None) /\
    (forall pd' va, pd' ∈ D -> 0 <= va < PHYS_BASE -> translate m pd' va = translate (s_vm s) pd' va /\ ubyte m pd' va = ubyte (s_vm s) pd' va) /\
    (exists pos, reading (s_fs s') (executable s') c pos) /\ forall buf n, exists f, file_write (executable s') buf n (s_fs s') = Ok (0, f) /\ dev f = dev (s_fs s').
Proof.
  intros HI H0 Hh Hn HM Hu Hg Hff Hfk Hargc Hargs Hroom. apply good_program_iff in Hg as (Hlen & Hbad & Hph & Hps & Hap); [|done]. rewrite Nat.add_succ_r in Hfk.
  destruct (load_header D s file_name c argv _ _ HI H0 (volume_open _ _ _ _ Hh Hn HM) Hfk Hff) as (s1 & -> & [A1 A2 A3 A4 A5 A6 A7 [pos A8] A9 _]).
  destruct (load_body _ c s1 (executable s1) pos argv A2 ltac:(set_solver) A7 A8 Hu) as (s2 & m' & E2 & E3 & [Hseg Helse] & R2 & [L1 _] & [[L2 _] Str Smem] & ptrs & pad & HS & Hlp & Hargp); try done; try lia.
  unfold load_rest. rewrite Hlen, Hbad. change (negb (Z.of_nat 52 =? 52) || false) with false. cbv iota. erewrite stbind_step by exact E2. cbn [negb]. erewrite stbind_step by exact E3. cbv beta iota. cbn [negb].
  destruct (inner_phdrs _ _ _ _ _ _ E2) as [Hs2 Hsteady]. assert (Hex : executable s2 = executable s1) by (by rewrite Hs2). exists (with_vm s2 m'), ptrs. split; [reflexivity|]. cbn zeta. cbn [s_vm s_fs executable with_vm].
  set (pd := cur_pagedir (s_vm s1)) in *. rewrite L1 in *. rewrite L2 in *.
  assert (Hbelow : forall pd' va, pd' ∈ {[pd]} ∪ D -> 0 <= va < PHYS_BASE -> (pd' = pd -> va < STACK) -> translate m' pd' va = translate (s_vm s2) pd' va /\ ubyte m' pd' va = ubyte (s_vm s2) pd' va).
  { intros pd' va Hp Hva Hs. split; [apply Str|apply Smem]; try done; intros [-> ?]; specialize (Hs eq_refl); lia. }
  destruct (file_length_Ok _ _ c pos A7 A8) as [_ Hl]. assert (Hst : STACK < PHYS_BASE) by done.
  split; [done|]. split; [apply HS|]. split; [|split; [|split; [done|]; split; [done|]; split; [|split; [|split; [|split]]]]].
  - intros p va Hp Hva. pose proof (segments_in c _ _ p Hu Hl Hps Hp) as (B1 & B2 & B3). destruct (Hbelow pd va) as [-> ->]; [set_solver|lia|lia|]. by apply Hseg.
  - pose proof (si_mem _ _ _ _ HS) as Hm. rewrite L2 in Hm. rewrite !app_assoc in Hm. apply mem_at_app in Hm as [Hm _]. apply mem_at_app in Hm as [Hm _]. by rewrite !app_assoc.
  - pose proof (si_map _ _ _ _ HS) as Hm. by rewrite L2 in Hm.
  - intros va Hva Hno. destruct (Hbelow pd va) as [-> _]; [set_solver|lia|lia|]. destruct (Helse pd va) as [-> _]; [set_solver|lia|done|]. apply A5. lia.
  - intros pd' va Hpd' Hva. assert (pd' <> pd) by (intros ->; done). destruct (Hbelow pd' va) as [-> ->]; [set_solver|done|done|]. destruct (Helse pd' va) as [-> ->]; [set_solver|done|done|]. by apply A6.
  - by rewrite Hex.
  - intros buf n. apply protected_write. rewrite Hex. by eapply protected_steady.
Qed.

(** C10. What load refuses, with a kernel page free for the page directory and a
    file system that may have any files open and whose allocations succeed: a
    name that is not there, and a file that is shorter than an ELF header or has
    a wrong one, are reported on the console; a file in which some program header
    is not inside the file, asks for dynamic linking or fails validate_segment,
    where those before it are in order and there are frames and kernel pages free
    for their segments, makes load return without a message.  In each case load
    returns false, and the kernel goes on. *)
Theorem load_refuses D M s file_name argv :
  vm_inv D (s_vm s) -> cur_pagedir (s_vm s) = 0 -> volume M (s_fs s) -> valid_name file_name -> free_kernel (s_vm s) 1 ->
  let reported text := exists s', load file_name argv s = Ok (None, s') /\ console s' = console s ++ chars "load: " ++ file_name ++ text ++ [10] in
  match M !! file_name with
  | None => reported (chars ": open failed")
  | Some c =>
      (Z.of_nat (length c) < 52 \/ ehdr_bad (ehdr c) = true -> reported (chars ": error loading executable")) /\
      (forall i, let ps := phdrs_at i c (e_phoff (ehdr c)) in
        Forall is_u8 c -> 52 <= Z.of_nat (length c) -> ehdr_bad (ehdr c) = false -> (i < Z.to_nat (e_phnum (ehdr c)))%nat ->
        (i = 0%nat \/ e_phoff (ehdr c) + 32 * Z.of_nat i <= Z.of_nat (length c)) -> forallb (good_phdr c) ps = true -> all_apart (segments ps) = true ->
        refused c (e_phoff (ehdr c) + 32 * Z.of_nat i) = true -> free_frames (s_vm s) (pages_of (segments ps)) -> free_kernel (s_vm s) (S (pages_of (segments ps))) ->
        exists s', load file_name argv s = Ok (None, s') /\ console s' = console s)
  end.
Proof.
  intros HI H0 Hh Hn Hfk reported. assert (Hz : free_frames (s_vm s) 0) by (exists ∅; split; [lia|set_solver]). destruct (M !! file_name) as [c|] eqn:EM.
  - split.
    + intros Hbad. destruct (load_header D s file_name c argv 0 0 HI H0 (volume_open _ _ _ _ Hh Hn EM) Hfk Hz) as (s1 & E & Hs). unfold reported. rewrite E. unfold load_rest.
      assert (Hb : negb (Z.of_nat (length (take 52 c)) =? 52) || ehdr_bad (ehdr c) = true) by (apply orb_true_iff; destruct Hbad as [Hb|Hb]; [left; apply negb_true_iff, Z.eqb_neq; rewrite length_take; lia|by right]).
      rewrite Hb. erewrite stbind_step by reflexivity. eexists. split; [reflexivity|]. cbn [console with_console]. by rewrite (h_console _ _ _ _ _ _ Hs).
    + intros i ps Hu Hlen Hbad Hi Hin Hps Hap Href Hff Hfk'. destruct (load_header D s file_name c argv _ _ HI H0 (volume_open _ _ _ _ Hh Hn EM) Hfk' Hff) as (s1 & -> & [A1 A2 A3 A4 A5 A6 A7 [pos A8] _ A10]).
      rewrite <- A10. eapply (load_rest_refused _ c s1 _ pos i); try done; [set_solver|rewrite length_take; lia].
  - destruct (load_pagedir_new D (s_vm s) 0 0 HI H0 Hfk Hz) as (m1 & E1 & _). destruct (volume_missing M (s_fs s) file_name Hh Hn EM) as (f1 & E2).
    unfold reported, load. erewrite stbind_step by (apply on_vm_Ok, E1). cbn [negb]. erewrite stbind_step by (apply on_fs_Ok, E2). erewrite stbind_step by reflexivity. change (0 =? 0) with true. cbv iota. erewrite stbind_step by reflexivity. by eexists.
Qed.

(** ** An example *)

Lemma free_frames_run m lo n : take n (drop lo (babs (used_map (frame_pool m)))) = replicate n false -> (lo + n <= Z.to_nat (bit_cnt (used_map (frame_pool m))))%nat -> free_frames m n.
Proof.
  intros Hr Hn. exists (list_to_set (seqZ (Z.of_nat lo) (Z.of_nat n))). split; [rewrite size_list_to_set by apply NoDup_seqZ; rewrite length_seqZ; lia|].
  intros k [Hk1 Hk2]%elem_of_list_to_set%elem_of_seqZ. split; [lia|]. intros [_ Hu].
  assert (Hf : replicate n false !! (Z.to_nat k - lo)%nat = Some true) by (rewrite <- Hr, lookup_take_lt, lookup_drop by lia; rewrite <- Hu; f_equal; lia).
  by apply lookup_replicate in Hf as [? _].
Qed.

Lemma free_kernel_run m lo n : take n (drop lo (babs (used_map (kernel_pool m)))) = replicate n false -> (lo + n <= Z.to_nat (bit_cnt (used_map (kernel_pool m))))%nat -> free_kernel m n.
Proof.
  intros Hr Hn. set (b := Vm.base (kernel_pool m)). exists (list_to_set ((fun k => b + PGSIZE * k) <$> seqZ (Z.of_nat lo) (Z.of_nat n))). change PGSIZE with 4096. split.
  - rewrite size_list_to_set; [rewrite length_fmap, length_seqZ; lia|]. apply NoDup_fmap; [intros x y; lia|apply NoDup_seqZ].
  - intros a Ha%elem_of_list_to_set. apply list_elem_of_fmap in Ha as (k & -> & [Hk1 Hk2]%elem_of_seqZ). split; [exists k; split; [lia|done]|]. intros (j & [Hj Hu] & Heq). fold b in Heq. change PGSIZE with 4096 in Heq.
    assert (j = k) as -> by lia. assert (Hf : replicate n false !! (Z.to_nat k - lo)%nat = Some true) by (rewrite <- Hr, lookup_take_lt, lookup_drop by lia; rewrite <- Hu; f_equal; lia).
    by apply lookup_replicate in Hf as [? _].
Qed.

#[local] Opaque demo0.

(** A program of one writable segment: the whole file, 120 bytes, and zeros up
    to two pages. *)
Definition demo_program : list Z :=
  elf_magic ++ replicate 9 0 ++ [2; 0; 3; 0] ++ le_bytes 1 ++ le_bytes 0x8048054 ++ le_bytes 52 ++ le_bytes 0 ++ le_bytes 0 ++ [52; 0; 32; 0; 1; 0; 0; 0; 0; 0; 0; 0] ++
  le_bytes 1 ++ le_bytes 0 ++ le_bytes 0x8048000 ++ le_bytes 0 ++ le_bytes 120 ++ le_bytes 5000 ++ le_bytes 6 ++ le_bytes 4096 ++ replicate 36 0x90.
Definition demo_file : list Z := [112; 114; 111; 103].
Definition demo_loaded (f : fs) : sys := MkSys demo0 f demo_file 2 0 [] true (-2) [] [].

Lemma demo_valid : valid_name demo_file.
Proof. repeat constructor; discriminate. Qed.

Lemma demo_bytes : Forall is_u8 demo_program.
Proof.
  assert (H : forallb (fun x => (0 <=? x) && (x <? 256)) demo_program = true) by (vm_compute; reflexivity).
  apply Forall_forall. intros x Hx. rewrite forallb_forall in H. specialize (H x). rewrite <- list_elem_of_In in H. specialize (H Hx). zbool. split; lia.
Qed.

(** The program is created and written. *)
Lemma demo_installed : exists f, holds {[ demo_file := demo_program ]} f.
Proof.
  destruct (run_op_ok (replicate 20 0) (Create demo_file 120) ∅ formatted) as (r & s1 & M1 & E & Hs & Hh); [reflexivity|split; [exact demo_valid|lia]|exact formatted_holds|].
  assert (Hr : (match run_op (replicate 20 0) (Create demo_file 120) formatted with Ok (Success b, _) => b | _ => false end) = true) by (vm_compute; reflexivity).
  rewrite E in Hr. destruct Hs as [(_ & _ & _ & _ & ->)|(-> & _)]; [|discriminate].
  destruct (run_op_ok (replicate 20 0) (WriteAt demo_file 0 demo_program) (<[demo_file := replicate 120 0]> ∅) s1 eq_refl) as (r2 & s2 & M2 & _ & Hs & Hh2); [split; [exact demo_valid|lia]|exact Hh|].
  exists s2. cbn [spec_op] in Hs. rewrite lookup_insert_eq in Hs. destruct Hs as [_ ->]. rewrite insert_insert_eq in Hh2.
  replace (list_inserts _ _ _) with demo_program in Hh2 by (vm_compute; reflexivity). exact Hh2.
Qed.

(** ... and opened. *)
Lemma demo_opened : exists f fp, volume {[ demo_file := demo_program ]} f /\ files f !! fp <> None /\ fp <> free_map_file f.
Proof.
  destruct demo_installed as (f & k & rd & ext & Hv & Hq). destruct (open_found k rd ext _ f demo_file demo_program Hv Hq demo_valid) as (s & sec & id & fip & g & ip & fp & _ & Ho & _); [apply lookup_insert_eq|].
  exists s, fp. split; [by eapply in_file_volume|]. split; [|apply Ho]. by rewrite (l_files _ _ _ _ _ _ _ _ _ _ _ _ _ Ho), lookup_insert_eq.
Qed.

(** The program is loaded while its file is open. *)
Lemma load_correct_witness : exists f fp s', files f !! fp <> None /\ fp <> free_map_file f /\ load demo_file [demo_file] (demo_loaded f) = Ok (Some (0x8048054, PHYS_BASE - 28), s') /\
  ubyte (s_vm s') (cur_pagedir (s_vm s')) 0x8048054 = Some 0x90 /\ ubyte (s_vm s') (cur_pagedir (s_vm s')) (0x8048000 + 4999) = Some 0.
Proof.
  destruct demo_opened as (f & fp & Hf & Hfp & Hne). exists f, fp.
  destruct (load_correct ∅ {[ demo_file := demo_program ]} (demo_loaded f) demo_file demo_program [demo_file]) as (s' & ptrs & E & _ & _ & H & _).
  - exact demo0_inv.
  - vm_compute. reflexivity.
  - exact Hf.
  - exact demo_valid.
  - apply lookup_insert_eq.
  - exact demo_bytes.
  - vm_compute. reflexivity.
  - apply (free_frames_run _ 0); vm_compute; [reflexivity|lia].
  - apply (free_kernel_run _ 100); vm_compute; [reflexivity|lia].
  - vm_compute. discriminate.
  - repeat constructor; discriminate.
  - vm_compute. discriminate.
  - exists s'. split; [exact Hfp|]. split; [exact Hne|]. split; [exact E|]. assert (Hin : phdr_at demo_program 52 ∈ segments (phdrs demo_program)) by (vm_compute; left).
    split; [destruct (H _ 0x8048054 Hin) as [_ ->]|destruct (H _ (0x8048000 + 4999) Hin) as [_ ->]]; [vm_compute; split; congruence|reflexivity|vm_compute; split; congruence|reflexivity].
Defined.

(** A name that is not there. *)
Lemma load_refuses_witness : exists f s', volume {[ demo_file := demo_program ]} f /\ load [120] [[120]] (demo_loaded f) = Ok (None, s') /\ console s' = chars "load: x: open failed" ++ [10].
Proof.
  destruct demo_opened as (f & fp & Hf & _ & _). exists f. pose proof (load_refuses ∅ {[ demo_file := demo_program ]} (demo_loaded f) [120] [[120]] demo0_inv) as H.
  assert (EM : ({[ demo_file := demo_program ]} : gmap (list Z) (list Z)) !! [120] = None) by (apply lookup_singleton_ne; discriminate). rewrite EM in H.
  destruct H as (s' & E & Hc).
  - vm_compute. reflexivity.
  - exact Hf.
  - repeat constructor; discriminate.
  - apply (free_kernel_run _ 100); vm_compute; [reflexivity|lia].
  - exists s'. split; [exact Hf|]. split; [exact E|exact Hc].
Defined.
