(* ===== verification/Exec.v ===== *)
(** From a command line to a process: the first half of process_execute and
    start_process of userprog/process.c, with the name that init_thread of
    threads/thread.c keeps.

    [bytes] is the memory that the strings are in: the command line, the two
    pages it is copied to, local arrays and literals.  A page comes from
    palloc_get_page (Vm.v), whose results are given by [outcomes], 0 for NULL; [held]
    are the pages that have not been returned.  The rest of the kernel, which
    load works on, is in [the].  What follows in both functions, the waiting of
    the parent and the signal of the child, is in Wait.v. *)

From stdpp Require Import base list numbers gmap.
From Stdlib Require Import ZArith Lia.
From S2P Require Import Prelude StackSpec CString Segments Interrupt Inode Vm Process.
Open Scope Z_scope.

Record exec := MkExec { bytes : mem; outcomes : list Z; held : list Z; the : sys }.

Definition with_bytes (x : exec) (m : mem) : exec := MkExec m (outcomes x) (held x) (the x).
Definition with_held (x : exec) (l : list Z) : exec := MkExec (bytes x) (outcomes x) l (the x).
Definition with_the (x : exec) (s : sys) : exec := MkExec (bytes x) (outcomes x) (held x) s.

#[local] Abbreviation X := (stM exec).

Definition on_bytes {A} (c : stM mem A) : X A := fun x =>
  match c (bytes x) with Ok (a, m) => Ok (a, with_bytes x m) | Err e => Err e end.
Definition on_sys {A} (c : stM sys A) : X A := fun x =>
  match c (the x) with Ok (a, s) => Ok (a, with_the x s) | Err e => Err e end.

(** palloc_get_page and palloc_free_page, as seen from here. *)
Definition get_page : X Z := fun x =>
  match outcomes x with
  | [] => Ok (0, x)
  | p :: l => Ok (p, MkExec (bytes x) l (if p =? 0 then held x else p :: held x) (the x))
  end.
Definition free_page (p : Z) : X unit := fun x =>
  if bool_decide (p ∈ held x) then Ok (tt, with_held x (filter (fun q => q <> p) (held x))) else Err EAssert.

(** The characters of a string. *)
Fixpoint read_loop (fuel : nat) (p : Z) : stM mem (list Z) :=
  match fuel with
  | O => raise EFuel
  | S fuel => b ← CString.load p; if b =? 0 then mret [] else l ← read_loop fuel (p + 1); mret (b :: l)
  end.
Definition read_str (p : Z) : stM mem (list Z) := fuel ← str_fuel; read_loop fuel p.
Fixpoint read_strs (ps : list Z) : stM mem (list (list Z)) :=
  match ps with [] => mret [] | p :: ps => s ← read_str p; l ← read_strs ps; mret (s :: l) end.

Definition PGSIZE : Z := 4096.
Definition MAX_ARGS : Z := 50.
Definition MAX_FILE_NAME_LEN : Z := 15.
Definition FLAG_MBS : Z := 0x2.
Definition FLAG_IF : Z := 0x200.

(** strlcpy (t->name, name, sizeof t->name), the array has 16 bytes. *)
Definition init_thread_name (name : Z) : X (list Z) :=
  assertM (negb (name =? 0));;
  s ← on_bytes (read_str name);
  mret (take 15 s).

(** [sep] is the address of the literal " "; [created] says whether
    thread_create finds a page for the thread.  Returns the name and the
    argument of the new thread, [None] for TID_ERROR. *)
Definition process_execute (cmd_line sep : Z) (created : bool) : X (option (list Z * Z)) :=
  cmd_copy1 ← get_page;
  cmd_copy2 ← get_page;
  if (cmd_copy1 =? 0) || (cmd_copy2 =? 0) then mret None
  else
    on_bytes (strlcpy cmd_copy1 cmd_line PGSIZE);;
    on_bytes (strlcpy cmd_copy2 cmd_line PGSIZE);;
    r ← on_bytes (strtok_r cmd_copy1 sep 0);
    let '(file_name, _) := r in
    tid ← (if created then name ← init_thread_name file_name; mret (Some name) else mret None);
    free_page cmd_copy1;;
    match tid with
    | None => free_page cmd_copy2;; mret None
    | Some name => mret (Some (name, cmd_copy2))
    end.

Definition argv_at (l : list Z) (i : nat) : Z := default 0 (l !! i).

(** [file_name] is the address of the local array.  Returns the frame with
    which the process starts, [None] if load fails. *)
Definition start_process (cmd_line sep file_name : Z) : X (option intr_frame) :=
  argv ← on_bytes (parse_args cmd_line sep);
  (if Z.of_nat (length argv) <? MAX_ARGS then mret tt else raise EFault);;
  on_bytes (strlcpy file_name (argv_at argv 0) MAX_FILE_NAME_LEN);;
  name ← on_bytes (read_str file_name);
  args ← on_bytes (read_strs argv);
  success ← on_sys (load name args);
  free_page cmd_line;;
  match success with
  | Some (eip, esp) =>
      mret (Some (Interrupt.MkFrame 0 0 0 0 0 0 0 0 SEL_UDSEG SEL_UDSEG SEL_UDSEG SEL_UDSEG 0 0 0 eip SEL_UCSEG (Z.lor FLAG_IF FLAG_MBS) esp SEL_UDSEG))
  | None => mret None
  end.

(** ** Lemmas *)

Lemma on_bytes_Ok {A} (c : stM mem A) x a m : c (bytes x) = Ok (a, m) -> on_bytes c x = Ok (a, with_bytes x m).
Proof. intros E. unfold on_bytes. by rewrite E. Qed.

Lemma read_loop_Ok s : forall fuel m p, is_str m p s -> (length s < fuel)%nat -> read_loop fuel p m = Ok (s, m).
Proof.
  induction s as [|b s IH]; intros [|fuel] m p Hs Hf; cbn [length] in Hf; try lia; cbn [read_loop].
  - apply is_str_nil in Hs as [Hp Hz]. by rewrite (stbind_step _ _ _ _ _ (load_Ok m p 0 Hp Hz)).
  - apply is_str_cons in Hs as (Hp & Hb & Hr & Hs). rewrite (stbind_step _ _ _ _ _ (load_Ok m p b Hp Hb)). rewrite (proj2 (Z.eqb_neq b 0)) by lia.
    by rewrite (stbind_step _ _ _ _ _ (IH fuel m (p + 1) Hs ltac:(lia))).
Qed.

Lemma read_str_Ok m p s : is_str m p s -> read_str p m = Ok (s, m).
Proof. intros Hs. unfold read_str. erewrite stbind_step by reflexivity. by apply read_loop_Ok, is_str_fuel with p. Qed.

Lemma read_strs_Ok m ps ws : Forall2 (is_str m) ps ws -> read_strs ps m = Ok (ws, m).
Proof.
  induction 1 as [|p w ps ws Hp _ IH]; [done|]. cbn [read_strs]. rewrite (stbind_step _ _ _ _ _ (read_str_Ok m p w Hp)). by rewrite (stbind_step _ _ _ _ _ IH).
Qed.

Lemma free_page_Ok p x : p ∈ held x -> free_page p x = Ok (tt, with_held x (filter (fun q => q <> p) (held x))).
Proof. intros H. unfold free_page. by rewrite bool_decide_true. Qed.

Lemma filter_other (p : Z) (l : list Z) : p ∉ l -> filter (fun q => q <> p) l = l.
Proof.
  induction l as [|q l IH]; [done|]. intros [Hq Hl]%not_elem_of_cons. by rewrite filter_cons_True, IH.
Qed.

Lemma init_thread_name_Ok x p s : is_str (bytes x) p s -> init_thread_name p x = Ok (take 15 s, x).
Proof.
  intros Hs. unfold init_thread_name. erewrite stbind_step by (apply assertM_true; by rewrite (nz p (is_str_pos _ _ _ Hs))).
  erewrite stbind_step by (apply on_bytes_Ok, read_str_Ok, Hs). by destruct x.
Qed.

(** The first word is what strtok_r finds. *)
Lemma words_first ds s : match words ds s with [] => (strtok_split ds s).1.2 = [] | w :: _ => (strtok_split ds s).1.2 = w /\ w <> [] end.
Proof. unfold words. cbn [words_aux]. destruct (strtok_split ds s) as [[pre tok] rest]. cbn. by destruct tok. Qed.

Lemma first_word m p sep s : is_str m p s -> is_str m sep [32] ->
  exists t next m', strtok_r p sep 0 m = Ok ((t, next), m') /\ same_outside m m' p (p + Z.of_nat (length s)) /\ match words [32] s with [] => t = 0 | w :: _ => is_str m' t w end.
Proof.
  intros Hs Hd. pose proof (is_str_pos _ _ _ Hs) as Hp. pose proof (words_first [32] s) as Hw. assert (Hs' : is_str m (if p =? 0 then 0 else p) s) by (by rewrite (nz p)).
  pose proof (strtok_r_none m s p 0 sep [32] Hs' Hd) as Hnone. pose proof (strtok_r_some m s p 0 sep [32] Hs' Hd) as Hsome. rewrite (nz p Hp) in Hsome, Hnone.
  destruct (strtok_split [32] s) as [[pre tok] rest]. cbn [fst snd] in *. destruct (words [32] s) as [|w ws].
  - exists 0, (p + Z.of_nat (length s)), m. split; [by apply Hnone|done].
  - destruct Hw as [-> Hw]. destruct (Hsome Hw) as (next & m' & E & Ht & _ & _ & _ & Ho). by exists (p + Z.of_nat (length pre)), next, m'.
Qed.

(** Two areas do not meet. *)
Definition disjoint_areas (a : Z) (n : Z) (b : Z) (k : Z) : Prop := a + n <= b \/ b + k <= a.

(** A frame that starts a program in user mode, with interrupts on. *)
Definition user_frame (f : intr_frame) (entry stack : Z) : Prop :=
  eip f = entry /\ esp f = stack /\ cs f = SEL_UCSEG /\ Forall (fun r => r = SEL_UDSEG) [gs f; Interrupt.fs f; es f; ds f; ss f] /\ Z.land (cs f) 3 = 3 /\ Z.testbit (eflags f) 9 = true.

Lemma start_process_spec x cmd_line sep buf s :
  is_str (bytes x) cmd_line s -> is_str (bytes x) sep [32] -> mapped (bytes x) buf 15 -> cmd_line ∈ held x ->
  disjoint_areas sep 2 cmd_line (Z.of_nat (length s) + 1) -> disjoint_areas buf 15 cmd_line (Z.of_nat (length s) + 1) ->
  match words [32] s with
  | [] => start_process cmd_line sep buf x = Err EAssert
  | w :: _ =>
      if MAX_ARGS <=? Z.of_nat (length (words [32] s)) then start_process cmd_line sep buf x = Err EFault
      else match load (take 14 w) (words [32] s) (the x) with
      | Ok (r, k) => exists m f, start_process cmd_line sep buf x = Ok (f, MkExec m (outcomes x) (filter (fun q => q <> cmd_line) (held x)) k) /\
          match r, f with Some (entry, stack), Some f => user_frame f entry stack | None, None => True | _, _ => False end
      | Err e => start_process cmd_line sep buf x = Err e
      end
  end.
Proof.
  intros Hs Hd Hb Hh D1 D2. unfold disjoint_areas in *. destruct (parse_args_spec (bytes x) cmd_line s sep [32] Hs Hd) as (argv & m1 & E1 & HF & Ho); [cbn [length]; lia|].
  unfold start_process. erewrite stbind_step by (apply on_bytes_Ok, E1). rewrite (Forall2_length _ _ _ HF). destruct (words [32] s) as [|w ws] eqn:Ew.
  - inversion HF; subst. erewrite stbind_step by reflexivity. apply stbind_err. unfold on_bytes. unfold argv_at. cbn [lookup list_lookup default].
    assert (E : strlcpy buf 0 MAX_FILE_NAME_LEN (bytes (with_bytes x m1)) = Err EAssert) by (unfold strlcpy; rewrite (nz buf) by apply Hb; done). by rewrite E.
  - inversion HF as [|a w' argv' ws' Ha HF' Eq1 Eq2]; subst. unfold MAX_ARGS at 2. unfold MAX_ARGS. destruct (Z.leb_spec 50 (Z.of_nat (length (w :: ws)))) as [Hn|Hn]; [rewrite (proj2 (Z.ltb_ge _ _)) by lia; by apply stbind_err|].
    rewrite (proj2 (Z.ltb_lt _ _)) by lia. erewrite stbind_step by reflexivity. change (argv_at (a :: argv') 0) with a.
    destruct Ha as (Ha1 & Ha2 & Ha3). assert (Hm1 : mapped m1 buf 15) by (split; [apply Hb|]; intros i Hi; rewrite Ho by lia; by apply Hb).
    destruct (strlcpy_correct m1 buf a w 15 Ha1 Hm1) as (m2 & E2 & Hbuf & _ & Ho2); [lia|lia|]. erewrite stbind_step by (apply on_bytes_Ok, E2). erewrite stbind_step by (apply on_bytes_Ok, read_str_Ok, Hbuf). change (15 - 1)%nat with 14%nat.
    assert (HF2 : Forall2 (is_str m2) (a :: argv') (w :: ws)) by (eapply Forall2_impl; [exact HF|]; intros q v (Q1 & Q2 & Q3); eapply is_str_same; [exact Ho2|lia|done]).
    erewrite stbind_step by (apply on_bytes_Ok, read_strs_Ok, HF2). destruct (load (take 14 w) (w :: ws) (the x)) as [[r k]|e] eqn:EL.
    + erewrite stbind_step by (unfold on_sys; cbn [the with_bytes]; rewrite EL; reflexivity). erewrite stbind_step by (by apply free_page_Ok).
      destruct r as [[entry stack]|]; [|by eexists m2, None]. eexists m2, (Some _). split; [reflexivity|]. repeat split; repeat constructor.
    + apply stbind_err. unfold on_sys. cbn [the with_bytes]. by rewrite EL.
Qed.

Lemma held_after (p1 p2 : Z) (l : list Z) : (p1 ∉ l) -> (p2 ∉ l) -> p1 <> p2 -> filter (fun q => q <> p1) (p2 :: p1 :: l) = p2 :: l /\ filter (fun q => q <> p2) (p2 :: l) = l.
Proof.
  intros H1 H2 Hne. rewrite filter_cons_True, filter_cons_False, filter_cons_False by naive_solver. by rewrite !filter_other.
Qed.

(** What is left of process_execute when the copies have been made. *)
Definition execute_rest (cmd_copy1 cmd_copy2 sep : Z) (created : bool) : X (option (list Z * Z)) :=
  r ← on_bytes (strtok_r cmd_copy1 sep 0);
  let '(file_name, _) := r in
  tid ← (if created then name ← init_thread_name file_name; mret (Some name) else mret None);
  free_page cmd_copy1;;
  match tid with
  | None => free_page cmd_copy2;; mret None
  | Some name => mret (Some (name, cmd_copy2))
  end.

Lemma execute_copies x cmd_line sep buf s p1 p2 l created :
  is_str (bytes x) cmd_line s -> is_str (bytes x) sep [32] -> mapped (bytes x) buf 15 -> outcomes x = p1 :: p2 :: l -> mapped (bytes x) p1 4096 -> mapped (bytes x) p2 4096 ->
  disjoint_areas p1 4096 p2 4096 -> Forall (fun p => disjoint_areas p 4096 cmd_line (Z.of_nat (length s) + 1) /\ disjoint_areas p 4096 sep 2 /\ disjoint_areas p 4096 buf 15) [p1; p2] ->
  exists m, process_execute cmd_line sep created x = execute_rest p1 p2 sep created (MkExec m l (p2 :: p1 :: held x) (the x)) /\
    is_str m p1 (take 4095 s) /\ is_str m p2 (take 4095 s) /\ is_str m sep [32] /\ mapped m buf 15.
Proof.
  intros Hs Hd Hb Hout M1 M2 D0 DF. inversion DF as [|? ? (D1 & D2 & D3) DF']; subst. inversion DF' as [|? ? (D4 & D5 & D6) _]; subst. clear DF DF'. unfold disjoint_areas in *.
  pose proof (length_take_le s 4095). pose proof (proj1 M1). pose proof (proj1 M2). assert (Hlen : (length (take 4095 s) <= 4095)%nat) by (rewrite length_take; lia).
  destruct (strlcpy_correct (bytes x) p1 cmd_line s 4096 Hs M1) as (m1 & E1 & C1 & S1 & O1); [lia|lia|]. assert (M2' : mapped m1 p2 4096) by (split; [done|]; intros i Hi; rewrite O1 by lia; by apply M2).
  destruct (strlcpy_correct m1 p2 cmd_line s 4096 S1 M2') as (m2 & E2 & C2 & S2 & O2); [lia|lia|]. exists m2. change (4096 - 1)%nat with 4095%nat in *.
  split; [|split; [eapply is_str_same; [exact O2|lia|done]|split; [done|split]]].
  - unfold process_execute. erewrite stbind_step by (unfold get_page; rewrite Hout; reflexivity). erewrite stbind_step by reflexivity. rewrite (nz p1), (nz p2) by done. cbn [orb].
    erewrite stbind_step by (apply on_bytes_Ok, E1). erewrite stbind_step by (apply on_bytes_Ok, E2). reflexivity.
  - eapply is_str_same; [exact O2|cbn; lia|]. eapply is_str_same; [exact O1|cbn; lia|done].
  - split; [apply Hb|]. intros i Hi. rewrite O2, O1 by lia. by apply Hb.
Qed.

(** ** Claims *)

(** C35. A command line becomes the arguments of a program.  If there are pages for the two copies, process_execute passes to the new thread a copy of (at most 4,095 characters of) the command line and names the thread after the first word; the other copy is given back.  When that thread runs start_process, whatever has happened to the rest of the kernel in between, it calls load with exactly the words of the line as arguments and the first 14 characters of the first word as the file, gives the copy back, and starts the program in user mode at the entry point and the stack pointer that load returns.  A line without words fails an assertion in the parent, and one of 50 words and more overflows an array in the child; without a thread both copies are given back. *)
Theorem exec_correct x cmd_line sep buf s p1 p2 l :
  is_str (bytes x) cmd_line s -> is_str (bytes x) sep [32] -> mapped (bytes x) buf 15 -> outcomes x = p1 :: p2 :: l -> mapped (bytes x) p1 4096 -> mapped (bytes x) p2 4096 -> (p1 ∉ held x) -> (p2 ∉ held x) ->
  disjoint_areas p1 4096 p2 4096 -> Forall (fun p => disjoint_areas p 4096 cmd_line (Z.of_nat (length s) + 1) /\ disjoint_areas p 4096 sep 2 /\ disjoint_areas p 4096 buf 15) [p1; p2] ->
  let ws := words [32] (take 4095 s) in
  (exists m, process_execute cmd_line sep false x = Ok (None, MkExec m l (held x) (the x))) /\
  match ws with
  | [] => process_execute cmd_line sep true x = Err EAssert
  | w :: _ => exists m1, process_execute cmd_line sep true x = Ok (Some (take 15 w, p2), MkExec m1 l (p2 :: held x) (the x)) /\
      forall o k, let child := start_process p2 sep buf (MkExec m1 o (p2 :: held x) k) in
        if MAX_ARGS <=? Z.of_nat (length ws) then child = Err EFault
        else match load (take 14 w) ws k with
        | Ok (r, k') => exists m2 f, child = Ok (f, MkExec m2 o (held x) k') /\
            match r, f with Some (entry, stack), Some f => user_frame f entry stack | None, None => True | _, _ => False end
        | Err e => child = Err e
        end
  end.
Proof.
  intros Hs Hd Hb Hout M1 M2 N1 N2 D0 DF ws.
  assert (Hne : p1 <> p2) by (unfold disjoint_areas in D0; lia). destruct (held_after p1 p2 (held x) N1 N2 Hne) as [F1 F2].
  destruct (execute_copies x cmd_line sep buf s p1 p2 l true Hs Hd Hb Hout M1 M2 D0 DF) as (m & E & C1 & C2 & Hd' & Hb').
  destruct (execute_copies x cmd_line sep buf s p1 p2 l false Hs Hd Hb Hout M1 M2 D0 DF) as (mf & Ef & C1f & _ & Hdf & _).
  pose proof (words_first [32] (take 4095 s)) as Hw. fold ws in Hw. inversion DF as [|? ? (D1 & D2 & D3) DF']; subst. inversion DF' as [|? ? (D4 & D5 & D6) _]; subst. clear DF DF'.
  assert (Hlen : (length (take 4095 s) <= 4095)%nat) by (rewrite length_take; lia). split.
  - destruct (first_word mf p1 sep _ C1f Hdf) as (t & next & mf' & Et & _). exists mf'. rewrite Ef. unfold execute_rest. erewrite stbind_step by (apply on_bytes_Ok, Et). cbv beta iota. erewrite stbind_step by reflexivity.
    erewrite stbind_step by (apply free_page_Ok; cbn; set_solver). cbn [held with_bytes with_held]. rewrite F1. erewrite stbind_step by (apply free_page_Ok; cbn; set_solver). cbn [held with_held]. by rewrite F2.
  - rewrite E. unfold execute_rest. destruct (first_word m p1 sep _ C1 Hd') as (t & next & m1 & Et & Ho & Hw'). fold ws in Hw'. destruct ws as [|w ws'] eqn:Ews.
    { subst t. erewrite stbind_step by (apply on_bytes_Ok, Et). by apply stbind_err. }
    exists m1. pose proof (is_str_pos _ _ _ Hw') as Hpos. split.
    + erewrite stbind_step by (apply on_bytes_Ok, Et). cbv beta iota. erewrite stbind_step by (erewrite stbind_step by (apply init_thread_name_Ok; exact Hw'); reflexivity).
      erewrite stbind_step by (apply free_page_Ok; cbn; set_solver). cbn [held with_bytes with_held]. by rewrite F1.
    + intros o k. assert (Hp2 : is_str m1 p2 (take 4095 s)) by (eapply is_str_same; [exact Ho|unfold disjoint_areas in *; lia|done]).
      pose proof (start_process_spec (MkExec m1 o (p2 :: held x) k) p2 sep buf (take 4095 s) Hp2) as Hsp. cbn [bytes held outcomes the] in Hsp. fold ws in Hsp. rewrite Ews, F2 in Hsp. apply Hsp.
      * eapply is_str_same; [exact Ho|unfold disjoint_areas in *; cbn; lia|done].
      * split; [apply Hb|]. intros i Hi. rewrite Ho by (unfold disjoint_areas in *; lia). by apply Hb'.
      * set_solver.
      * unfold disjoint_areas in *. lia.
      * unfold disjoint_areas in *. lia.
Qed.

(** When there is a page for the first copy only, it is never given back. *)
Theorem execute_leaks x cmd_line sep created p1 l : outcomes x = p1 :: 0 :: l -> p1 <> 0 ->
  process_execute cmd_line sep created x = Ok (None, MkExec (bytes x) l (p1 :: held x) (the x)).
Proof.
  intros Ho Hp. unfold process_execute. erewrite stbind_step by (unfold get_page; rewrite Ho; reflexivity). erewrite stbind_step by reflexivity. cbn [Z.eqb]. rewrite (proj2 (Z.eqb_neq p1 0) Hp). reflexivity.
Qed.

(** ** An example *)

(** The line "ls -l"; the two pages are at 4096 and 8192. *)
Definition demo_line : list Z := [108; 115; 32; 45; 108].
Definition demo_room_for : mem := write (write ∅ 4096 (replicate (Z.to_nat 8192) 0)) 300 (replicate 15 0).
Definition demo_strings : mem := write (write demo_room_for 200 [32; 0]) 100 [108; 115; 32; 45; 108; 0].
Definition demo_exec : exec := MkExec demo_strings [4096; 8192] [] demo_sys.

Lemma demo_mapped p n : (p = 300 /\ n = 15%nat) \/ (p = 4096 /\ n = 4096%nat) \/ (p = 8192 /\ n = 4096%nat) -> mapped demo_strings p n.
Proof.
  intros H. split; [lia|]. intros i Hi. unfold demo_strings. rewrite !write_lookup. do 2 (rewrite decide_False by (cbn [length]; lia)).
  unfold demo_room_for. rewrite !write_lookup. rewrite !length_replicate. destruct (decide (300 <= p + Z.of_nat i < 300 + Z.of_nat 15)) as [Hd|Hd]; [apply lookup_lt_is_Some_2; rewrite length_replicate; lia|].
  rewrite decide_True by lia. apply lookup_lt_is_Some_2. rewrite length_replicate. lia.
Qed.

Lemma exec_correct_witness : exists m1, process_execute 100 200 true demo_exec = Ok (Some ([108; 115], 8192), MkExec m1 [] [8192] demo_sys).
Proof.
  destruct (exec_correct demo_exec 100 200 300 demo_line 4096 8192 []) as (_ & m1 & E & _).
  - change (bytes demo_exec) with demo_strings. apply is_strb_ok. vm_compute. reflexivity.
  - change (bytes demo_exec) with demo_strings. apply is_strb_ok. vm_compute. reflexivity.
  - apply demo_mapped. auto.
  - reflexivity.
  - apply demo_mapped. auto.
  - apply demo_mapped. auto.
  - apply not_elem_of_nil.
  - apply not_elem_of_nil.
  - unfold disjoint_areas. lia.
  - repeat constructor; unfold disjoint_areas; cbn; lia.
  - exists m1. exact E.
Defined.
