(* ===== verification/Switch.v ===== *)
(** Switching between the stacks of kernel threads: threads/switch.S,
    threads/switch.h, and the stack that thread_create of threads/thread.c
    prepares for a new thread.

    The machine has the eight general registers, the address of the next
    instruction and memory in 32-bit words, by address.  Of the instructions only
    those of switch.S exist; each takes one address, from [switch_threads] and
    from [switch_entry] on.  At any other address the machine is in C code.  The
    addresses of functions and of the variable thread_stack_ofs are
    parameters. *)

From stdpp Require Import base list numbers gmap.
From Stdlib Require Import ZArith Lia.
From S2P Require Import Prelude.
Open Scope Z_scope.

(** ** The machine *)

Inductive reg := EAX | ECX | EDX | EBX | ESP | EBP | ESI | EDI.

Record machine := MkMachine { eax : Z; ecx : Z; edx : Z; ebx : Z; esp : Z; ebp : Z; esi : Z; edi : Z; eip : Z; words : gmap Z Z }.

Definition get_reg (r : reg) (m : machine) : Z :=
  match r with EAX => eax m | ECX => ecx m | EDX => edx m | EBX => ebx m | ESP => esp m | EBP => ebp m | ESI => esi m | EDI => edi m end.

Definition set_reg (r : reg) (v : Z) (m : machine) : machine :=
  match m with MkMachine a c d b s p i j e w =>
    match r with
    | EAX => MkMachine v c d b s p i j e w
    | ECX => MkMachine a v d b s p i j e w
    | EDX => MkMachine a c v b s p i j e w
    | EBX => MkMachine a c d v s p i j e w
    | ESP => MkMachine a c d b v p i j e w
    | EBP => MkMachine a c d b s v i j e w
    | ESI => MkMachine a c d b s p v j e w
    | EDI => MkMachine a c d b s p i v e w
    end
  end.

Definition jump (a : Z) (m : machine) : machine :=
  match m with MkMachine a' c d b s p i j _ w => MkMachine a' c d b s p i j a w end.
Definition with_words (m : machine) (w : gmap Z Z) : machine :=
  match m with MkMachine a c d b s p i j e _ => MkMachine a c d b s p i j e w end.

(** Memory that does not exist is a fault, [None]. *)
Definition load_word (a : Z) (m : machine) : option Z := words m !! a.
Definition store_word (a v : Z) (m : machine) : option machine :=
  _ ← words m !! a; Some (with_words m (<[a := v]> (words m))).

Inductive instr :=
  | Pushl (r : reg)                   (* pushl %r *)
  | Popl (r : reg)                    (* popl %r *)
  | Mov_abs (a : Z) (d : reg)         (* mov a, %d *)
  | Movl_at (ofs : Z) (b d : reg)     (* movl ofs(%b), %d *)
  | Movl_to (s b i : reg)             (* movl %s, (%b,%i,1) *)
  | Movl_from (b i d : reg)           (* movl (%b,%i,1), %d *)
  | Addl (n : Z) (d : reg)            (* addl $n, %d *)
  | Call (f : Z)                      (* call f *)
  | Ret.

Definition push (v : Z) (m : machine) : option machine :=
  let m := set_reg ESP (u32 (esp m - 4)) m in store_word (esp m) v m.
Definition pop (m : machine) : option (Z * machine) :=
  v ← load_word (esp m) m; Some (v, set_reg ESP (u32 (esp m + 4)) m).

(** The instruction at [eip m]; jumps apart the next one follows. *)
Definition exec (i : instr) (m : machine) : option machine :=
  let next := eip m + 1 in
  match i with
  | Pushl r => m ← push (get_reg r m) m; Some (jump next m)
  | Popl r => '(v, m) ← pop m; Some (jump next (set_reg r v m))
  | Mov_abs a d => v ← load_word a m; Some (jump next (set_reg d v m))
  | Movl_at ofs b d => v ← load_word (u32 (get_reg b m + ofs)) m; Some (jump next (set_reg d v m))
  | Movl_to s b i => m ← store_word (u32 (get_reg b m + get_reg i m)) (get_reg s m) m; Some (jump next m)
  | Movl_from b i d => v ← load_word (u32 (get_reg b m + get_reg i m)) m; Some (jump next (set_reg d v m))
  | Addl n d => Some (jump next (set_reg d (u32 (get_reg d m + n)) m))
  | Call f => m ← push next m; Some (jump f m)
  | Ret => '(v, m) ← pop m; Some (jump v m)
  end.

(** ** The code *)

Definition SWITCH_CUR : Z := 20.
Definition SWITCH_NEXT : Z := 24.

(** offsetof (struct thread, stack): after tid, status and name. *)
Definition thread_stack_ofs : Z := 24.

Section Switch.
Context (at_switch_threads at_switch_entry at_stack_ofs at_schedule_tail at_kernel_thread : Z).

Definition switch_threads : list instr :=
  [Pushl EBX; Pushl EBP; Pushl ESI; Pushl EDI;
   Mov_abs at_stack_ofs EDX;
   Movl_at SWITCH_CUR ESP EAX; Movl_to ESP EAX EDX;
   Movl_at SWITCH_NEXT ESP ECX; Movl_from ECX EDX ESP;
   Popl EDI; Popl ESI; Popl EBP; Popl EBX;
   Ret].

Definition switch_entry : list instr :=
  [Addl 8 ESP; Pushl EAX; Call at_schedule_tail; Addl 4 ESP; Ret].

Definition fetch (a : Z) : option instr :=
  if at_switch_threads <=? a then
    match switch_threads !! Z.to_nat (a - at_switch_threads) with
    | Some i => Some i
    | None => if at_switch_entry <=? a then switch_entry !! Z.to_nat (a - at_switch_entry) else None
    end
  else if at_switch_entry <=? a then switch_entry !! Z.to_nat (a - at_switch_entry) else None.

Definition step (m : machine) : option machine := i ← fetch (eip m); exec i m.

Fixpoint run (n : nat) (m : machine) : option machine :=
  match n with O => Some m | S n => m ← step m; run n m end.

(** ** The stack of a new thread *)

(** t->stack -= size, and the words of the frame. *)
Definition alloc_frame (t size : Z) (w : gmap Z Z) : option (Z * gmap Z Z) :=
  s ← w !! (t + thread_stack_ofs);
  let s := u32 (s - size) in
  Some (s, <[t + thread_stack_ofs := s]> w).

Definition put_word (a v : Z) (w : gmap Z Z) : option (gmap Z Z) := _ ← w !! a; Some (<[a := v]> w).

(** The part of thread_create that fills the stack of [t]. *)
Definition thread_create_frames (t function aux : Z) (w : gmap Z Z) : option (gmap Z Z) :=
  '(kf, w) ← alloc_frame t 12 w;
  w ← put_word kf 0 w;
  w ← put_word (kf + 4) function w;
  w ← put_word (kf + 8) aux w;
  '(ef, w) ← alloc_frame t 4 w;
  w ← put_word ef at_kernel_thread w;
  '(sf, w) ← alloc_frame t 28 w;
  w ← put_word (sf + 16) at_switch_entry w;
  put_word (sf + 8) 0 w.

(** running_thread: the page that the stack pointer is in. *)
Definition running_thread (m : machine) : Z := esp m / 4096 * 4096.

(** ** Contexts *)

(** Where a thread continues: the registers that a function has to preserve, the
    return address, the stack pointer after the return, and the words of its
    stack that are its own.  Other words may be shared: threads write to the
    struct thread of others, and to semaphores and list elements that are local
    variables of others. *)
Record context := MkContext { c_ebx : Z; c_ebp : Z; c_esi : Z; c_edi : Z; c_eip : Z; c_esp : Z; c_own : gmap Z Z }.

Definition thread_page (t : Z) : Prop := t mod 4096 = 0 /\ 0 < t /\ t + 4096 < 2 ^ 32.
Definition present (w : gmap Z Z) (t : Z) : Prop := forall a, t <= a < t + 4096 -> a mod 4 = 0 -> is_Some (w !! a).

(** A thread that is not running. *)
Record suspended (w : gmap Z Z) (t : Z) (c : context) : Prop := {
  s_ptr : w !! (t + thread_stack_ofs) = Some (c_esp c - 20);
  s_low : t + 28 <= c_esp c - 20;
  s_high : c_esp c < t + 4096;
  s_edi : w !! (c_esp c - 20) = Some (c_edi c);
  s_esi : w !! (c_esp c - 16) = Some (c_esi c);
  s_ebp : w !! (c_esp c - 12) = Some (c_ebp c);
  s_ebx : w !! (c_esp c - 8) = Some (c_ebx c);
  s_eip : w !! (c_esp c - 4) = Some (c_eip c);
  s_own a x : c_own c !! a = Some x -> c_esp c <= a < t + 4096 /\ w !! a = Some x
}.

(** The machine goes on in context [c]. *)
Definition resumed (m : machine) (c : context) : Prop :=
  ebx m = c_ebx c /\ ebp m = c_ebp c /\ esi m = c_esi c /\ edi m = c_edi c /\ eip m = c_eip c /\ esp m = c_esp c /\ c_own c ⊆ words m.

(** Thread [t] has called switch_threads (t, next), to return to [ra]. *)
Record calls (m : machine) (t next ra : Z) : Prop := {
  k_eip : eip m = at_switch_threads;
  k_low : t + 44 <= esp m;
  k_high : esp m + 12 <= t + 4096;
  k_align : esp m mod 4 = 0;
  k_ret : words m !! esp m = Some ra;
  k_cur : words m !! (esp m + 4) = Some t;
  k_next : words m !! (esp m + 8) = Some next
}.

(** The words [own] are on the stack of [t] above the return address. *)
Definition on_stack (m : machine) (t : Z) (own : gmap Z Z) : Prop := forall a x, own !! a = Some x -> esp m + 4 <= a < t + 4096 /\ words m !! a = Some x.

(** The context of the caller. *)
Definition context_of (m : machine) (ra : Z) (own : gmap Z Z) : context := MkContext (ebx m) (ebp m) (esi m) (edi m) ra (esp m + 4) own.

Hypothesis code_apart : at_switch_threads + 14 <= at_switch_entry \/ at_switch_entry + 5 <= at_switch_threads.

Lemma step_threads k i m : switch_threads !! k = Some i -> eip m = at_switch_threads + Z.of_nat k -> step m = exec i m.
Proof.
  intros Hi He. unfold step, fetch. rewrite He. rewrite (proj2 (Z.leb_le _ _)) by lia. replace (Z.to_nat (at_switch_threads + Z.of_nat k - at_switch_threads)) with k by lia. by rewrite Hi.
Qed.

Lemma step_entry k i m : switch_entry !! k = Some i -> eip m = at_switch_entry + Z.of_nat k -> step m = exec i m.
Proof.
  intros Hi He. pose proof (lookup_lt_Some _ _ _ Hi) as Hk. cbn in Hk. unfold step, fetch. rewrite He. rewrite (proj2 (Z.leb_le at_switch_entry _)) by lia.
  replace (Z.to_nat (at_switch_entry + Z.of_nat k - at_switch_entry)) with k by lia. destruct (Z.leb_spec at_switch_threads (at_switch_entry + Z.of_nat k)); [|by rewrite Hi].
  rewrite (lookup_ge_None_2 switch_threads) by (cbn; lia). by rewrite Hi.
Qed.

Lemma run_step n m m1 : step m = Some m1 -> run (S n) m = run n m1.
Proof. intros E. cbn [run]. by rewrite E. Qed.

Lemma exec_pushl r m x : words m !! u32 (esp m - 4) = Some x ->
  exec (Pushl r) m = Some (jump (eip m + 1) (with_words (set_reg ESP (u32 (esp m - 4)) m) (<[u32 (esp m - 4) := get_reg r m]> (words m)))).
Proof. intros H. unfold exec, push, store_word. destruct m. cbn in *. by rewrite H. Qed.
Lemma exec_popl r m v : words m !! esp m = Some v -> exec (Popl r) m = Some (jump (eip m + 1) (set_reg r v (set_reg ESP (u32 (esp m + 4)) m))).
Proof. intros H. unfold exec, pop, load_word. by rewrite H. Qed.
Lemma exec_mov_abs a d m v : words m !! a = Some v -> exec (Mov_abs a d) m = Some (jump (eip m + 1) (set_reg d v m)).
Proof. intros H. unfold exec, load_word. by rewrite H. Qed.
Lemma exec_movl_at ofs b d m v : words m !! u32 (get_reg b m + ofs) = Some v -> exec (Movl_at ofs b d) m = Some (jump (eip m + 1) (set_reg d v m)).
Proof. intros H. unfold exec, load_word. by rewrite H. Qed.
Lemma exec_movl_from b i d m v : words m !! u32 (get_reg b m + get_reg i m) = Some v -> exec (Movl_from b i d) m = Some (jump (eip m + 1) (set_reg d v m)).
Proof. intros H. unfold exec, load_word. by rewrite H. Qed.
Lemma exec_movl_to s b i m x : words m !! u32 (get_reg b m + get_reg i m) = Some x ->
  exec (Movl_to s b i) m = Some (jump (eip m + 1) (with_words m (<[u32 (get_reg b m + get_reg i m) := get_reg s m]> (words m)))).
Proof. intros H. unfold exec, store_word. by rewrite H. Qed.
Lemma exec_call f m x : words m !! u32 (esp m - 4) = Some x ->
  exec (Call f) m = Some (jump f (with_words (set_reg ESP (u32 (esp m - 4)) m) (<[u32 (esp m - 4) := eip m + 1]> (words m)))).
Proof. intros H. unfold exec, push, store_word. destruct m. cbn in *. by rewrite H. Qed.
Lemma exec_ret m v : words m !! esp m = Some v -> exec Ret m = Some (jump v (set_reg ESP (u32 (esp m + 4)) m)).
Proof. intros H. unfold exec, pop, load_word. by rewrite H. Qed.

Ltac fields := change SWITCH_CUR with 20; change SWITCH_NEXT with 24; cbn [get_reg set_reg jump with_words eax ecx edx ebx esp ebp esi edi eip words];
  repeat match goal with |- context [u32 ?x] => rewrite (u32_small x) by (unfold is_u32; lia) end.

(** Words at other addresses than the ones written; [H] gives the word. *)
Ltac elsewhere H := repeat rewrite lookup_insert_ne by lia; etrans; [|exact H]; f_equal; lia.

(** The word that was written last at this address. *)
Ltac written :=
  repeat rewrite lookup_insert_ne by lia;
  match goal with |- <[?k := _]> _ !! ?a = _ => replace a with k by lia; rewrite lookup_insert_eq; f_equal; lia end.

(** Instruction [k] of a function; [H] gives the word that it accesses. *)
Ltac instr lem k ex H :=
  erewrite run_step; [|etrans; [apply (lem k); [reflexivity|cbn [eip]; lia]|eapply ex; fields; elsewhere H]]; fields.

Lemma insert_some (w : gmap Z Z) a k v : is_Some (w !! a) -> is_Some (<[k := v]> w !! a).
Proof. intros H. destruct (decide (a = k)) as [->|]; [by rewrite lookup_insert_eq|by rewrite lookup_insert_ne]. Qed.

Lemma switch_run m t next ra c own :
  thread_page t -> thread_page next -> t <> next -> present (words m) t -> words m !! at_stack_ofs = Some thread_stack_ofs -> ~ (t <= at_stack_ofs < t + 4096) ->
  calls m t next ra -> suspended (words m) next c -> on_stack m t own ->
  exists m', run 14 m = Some m' /\ resumed m' c /\ eax m' = t /\ suspended (words m') t (context_of m ra own) /\ present (words m') t /\
    forall a, ~ (esp m - 16 <= a < esp m) -> a <> t + thread_stack_ofs -> words m' !! a = words m !! a.
Proof.
  intros (P1 & P2 & P3) (Q1 & Q2 & Q3) Hne Hpr Hofs Hout [K1 K2 K3 K4 K5 K6 K7] [S1 S2 S3 S4 S5 S6 S7 S8 S9] Hown. unfold on_stack in Hown.
  destruct m as [a c0 d b s p i j e w]. cbn [eip esp words eax ecx edx ebx ebp esi edi] in *. unfold thread_stack_ofs in *.
  assert (Hpg : t + 4096 <= next \/ next + 4096 <= t) by (Z.to_euclidean_division_equations; lia).
  assert (Hs : forall n, 0 <= n <= 4 -> is_Some (w !! (s - 4 * n))) by (intros n Hn; apply Hpr; [lia|Z.to_euclidean_division_equations; lia]).
  destruct (Hs 1) as [x1 H1]; [lia|]. destruct (Hs 2) as [x2 H2]; [lia|]. destruct (Hs 3) as [x3 H3]; [lia|]. destruct (Hs 4) as [x4 H4]; [lia|]. destruct (Hpr (t + 24)) as [x5 H5]; [lia|Z.to_euclidean_division_equations; lia|].
  instr step_threads 0%nat (exec_pushl EBX) H1. instr step_threads 1%nat (exec_pushl EBP) H2. instr step_threads 2%nat (exec_pushl ESI) H3. instr step_threads 3%nat (exec_pushl EDI) H4.
  instr step_threads 4%nat (exec_mov_abs at_stack_ofs EDX) Hofs. instr step_threads 5%nat (exec_movl_at 20 ESP EAX) K6. instr step_threads 6%nat (exec_movl_to ESP EAX EDX) H5.
  instr step_threads 7%nat (exec_movl_at 24 ESP ECX) K7. instr step_threads 8%nat (exec_movl_from ECX EDX ESP) S1.
  instr step_threads 9%nat (exec_popl EDI) S4. instr step_threads 10%nat (exec_popl ESI) S5. instr step_threads 11%nat (exec_popl EBP) S6. instr step_threads 12%nat (exec_popl EBX) S7. instr step_threads 13%nat exec_ret S8.
  eexists. split; [reflexivity|]. cbn [words eax]. split; [|split; [done|split]].
  - do 5 (split; [done|]). split; [cbn [esp]; lia|]. apply map_subseteq_spec. intros x v Hx. apply S9 in Hx as [Hx Hv]. cbn [words]. by repeat rewrite lookup_insert_ne by lia.
  - constructor; cbn [context_of c_esp c_edi c_esi c_ebp c_ebx c_eip c_own esp words ebx ebp esi edi]; unfold thread_stack_ofs; try lia.
    1-5: written.
    + elsewhere K5.
    + intros x v Hx. destruct (Hown x v Hx) as [Hr Hv]. split; [lia|]. by repeat rewrite lookup_insert_ne by lia.
  - split; [intros x Hx Hm; repeat apply insert_some; by apply Hpr|]. intros x Hx Hx'. by repeat rewrite lookup_insert_ne by lia.
Qed.

(** ** New threads *)

(** The context of a thread that has not run: switch_entry, above the arguments of switch_threads that it drops. *)
Definition new_context (t function aux : Z) : context :=
  let top := t + 4096 in
  MkContext 0 0 0 0 at_switch_entry (top - 24) (<[top - 16 := at_kernel_thread]> (<[top - 12 := 0]> (<[top - 8 := function]> {[top - 4 := aux]}))).

(** The page of a new thread when its stack is prepared: zeros where the frames
    go; what its struct thread holds does not matter. *)
Definition fresh_page (w : gmap Z Z) (t : Z) : Prop :=
  present w t /\ forall a, t + 4096 - 44 <= a < t + 4096 -> a mod 4 = 0 -> w !! a = Some 0.

Lemma obind_step {A B} (o : option A) (f : A -> option B) a : o = Some a -> o ≫= f = f a.
Proof. by intros ->. Qed.
Lemma alloc_frame_Ok t size w s : w !! (t + thread_stack_ofs) = Some s -> 0 <= s - size < 2 ^ 32 -> alloc_frame t size w = Some (s - size, <[t + thread_stack_ofs := s - size]> w).
Proof. intros H Hr. unfold alloc_frame. rewrite H. cbn. by rewrite u32_small. Qed.
Lemma put_word_Ok a v w x : w !! a = Some x -> put_word a v w = Some (<[a := v]> w).
Proof. intros H. unfold put_word. by rewrite H. Qed.

Lemma create_frames w t function aux : thread_page t -> fresh_page w t -> w !! (t + thread_stack_ofs) = Some (t + 4096) ->
  exists w', thread_create_frames t function aux w = Some w' /\ suspended w' t (new_context t function aux) /\ present w' t /\ forall a, ~ (t <= a < t + 4096) -> w' !! a = w !! a.
Proof.
  intros (P1 & P2 & P3) [Hpr Hf] Hs. unfold thread_stack_ofs in *.
  assert (Hz : forall k, 0 < k <= 44 -> k mod 4 = 0 -> w !! (t + 4096 - k) = Some 0) by (intros k Hk Hm; apply Hf; [lia|Z.to_euclidean_division_equations; lia]).
  pose proof (Hz 12 ltac:(lia) eq_refl) as H12. pose proof (Hz 8 ltac:(lia) eq_refl) as H8. pose proof (Hz 4 ltac:(lia) eq_refl) as H4. pose proof (Hz 16 ltac:(lia) eq_refl) as H16. pose proof (Hz 28 ltac:(lia) eq_refl) as H28. pose proof (Hz 36 ltac:(lia) eq_refl) as H36.
  eexists. split.
  - unfold thread_create_frames. erewrite obind_step by (apply alloc_frame_Ok; [exact Hs|lia]). cbv beta iota. unfold thread_stack_ofs.
    erewrite obind_step by (eapply put_word_Ok; elsewhere H12). erewrite obind_step by (eapply put_word_Ok; elsewhere H8). erewrite obind_step by (eapply put_word_Ok; elsewhere H4).
    erewrite obind_step by (apply alloc_frame_Ok; [repeat rewrite lookup_insert_ne by (unfold thread_stack_ofs; lia); apply lookup_insert_eq|lia]). cbv beta iota. unfold thread_stack_ofs.
    erewrite obind_step by (eapply put_word_Ok; elsewhere H16).
    erewrite obind_step by (apply alloc_frame_Ok; [repeat rewrite lookup_insert_ne by (unfold thread_stack_ofs; lia); apply lookup_insert_eq|lia]). cbv beta iota. unfold thread_stack_ofs.
    erewrite obind_step by (eapply put_word_Ok; elsewhere H28). eapply put_word_Ok. elsewhere H36.
  - split; [|split; [intros a Ha Hm; repeat apply insert_some; by apply Hpr|intros a Ha; by repeat rewrite lookup_insert_ne by lia]].
    constructor; cbn [new_context c_esp c_edi c_esi c_ebp c_ebx c_eip c_own]; unfold thread_stack_ofs; try lia.
    + written.
    + elsewhere (Hz 44 ltac:(lia) eq_refl).
    + elsewhere (Hz 40 ltac:(lia) eq_refl).
    + written.
    + elsewhere (Hz 32 ltac:(lia) eq_refl).
    + written.
    + intros a x Ha. rewrite !lookup_insert_Some, lookup_singleton_Some in Ha. destruct Ha as [[<- <-]|[_ [[<- <-]|[_ [[<- <-]|[_ [<- <-]]]]]]]; (split; [lia|]); written.
Qed.

(** switch_entry calls thread_schedule_tail (prev), and when that returns goes on in kernel_thread (function, aux). *)
Definition begins (m : machine) (t function aux : Z) : Prop :=
  exists m1, run 3 m = Some m1 /\ eip m1 = at_schedule_tail /\ words m1 !! (esp m1 + 4) = Some (eax m) /\ words m1 !! esp m1 = Some (at_switch_entry + 3) /\
    forall m2, eip m2 = at_switch_entry + 3 -> esp m2 = esp m1 + 4 -> (forall a, esp m2 + 4 <= a < t + 4096 -> words m2 !! a = words m1 !! a) ->
      exists m3, run 2 m2 = Some m3 /\ eip m3 = at_kernel_thread /\ words m3 !! esp m3 = Some 0 /\ words m3 !! (esp m3 + 4) = Some function /\ words m3 !! (esp m3 + 8) = Some aux.

Lemma resumed_begins m t function aux : thread_page t -> present (words m) t -> resumed m (new_context t function aux) -> begins m t function aux.
Proof.
  intros (P1 & P2 & P3) Hpr (_ & _ & _ & _ & Hip & Hsp & Hst). destruct m as [a c0 d b s p i j e w]. cbn [new_context c_eip c_esp c_own eip esp words] in *. subst e s.
  rewrite map_subseteq_spec in Hst. destruct (Hpr (t + 4096 - 20)) as [x20 H20]; [lia|Z.to_euclidean_division_equations; lia|]. destruct (Hpr (t + 4096 - 24)) as [x24 H24]; [lia|Z.to_euclidean_division_equations; lia|].
  assert (H16 : w !! (t + 4096 - 16) = Some at_kernel_thread) by (apply Hst, lookup_insert_eq). assert (H12 : w !! (t + 4096 - 12) = Some 0) by (apply Hst; written).
  assert (H8 : w !! (t + 4096 - 8) = Some function) by (apply Hst; written). assert (H4 : w !! (t + 4096 - 4) = Some aux) by (apply Hst; repeat rewrite lookup_insert_ne by lia; apply lookup_singleton_eq).
  eexists. split.
  { erewrite run_step; [|etrans; [apply (step_entry 0%nat); [reflexivity|cbn [eip]; lia]|reflexivity]]. fields.
    instr step_entry 1%nat (exec_pushl EAX) H20. instr step_entry 2%nat (exec_call at_schedule_tail) H24. reflexivity. }
  cbn [eip esp words eax]. split; [done|]. split; [written|]. split; [written|]. intros [a2 c2 d2 b2 s2 p2 i2 j2 e2 w2]. cbn [eip esp words]. intros -> -> Hsame.
  assert (Hin : forall k v, 0 < k <= 16 -> w !! (t + 4096 - k) = Some v -> w2 !! (t + 4096 - k) = Some v) by (intros k v Hk Hv; rewrite Hsame by lia; elsewhere Hv).
  apply Hin in H16, H12, H8, H4; [|lia..]. eexists. split.
  { erewrite run_step; [|etrans; [apply (step_entry 3%nat); [reflexivity|cbn [eip]; lia]|reflexivity]]. fields. instr step_entry 4%nat exec_ret H16. reflexivity. }
  cbn [eip esp words]. split; [done|]. split; [elsewhere H12|]. split; [elsewhere H8|elsewhere H4].
Qed.

(** ** Many threads *)

(** The words that a suspended thread needs to go on: its stack pointer in struct thread, what switch_threads has pushed, and the words that are its own. *)
Definition needs (t : Z) (c : context) (a : Z) : Prop := a = t + thread_stack_ofs \/ c_esp c - 20 <= a < c_esp c \/ is_Some (c_own c !! a).

(** What the threads do: the running one executes C code (interrupt handlers on
    its stack included), which may write anywhere but to the variable
    thread_stack_ofs and to the words that a suspended thread needs; it creates a
    thread; a thread that never runs again is given up, and its page with it; or
    the running thread calls switch_threads, where any words of its stack can be
    its own.  The map holds the context in which each thread that is not running
    has been left. *)
Inductive sstep : machine * gmap Z context -> machine * gmap Z context -> Prop :=
  | SWork m m' C : running_thread m' = running_thread m -> present (words m') (running_thread m) -> words m' !! at_stack_ofs = words m !! at_stack_ofs ->
      (forall t c, C !! t = Some c -> present (words m') t /\ forall a, needs t c a -> words m' !! a = words m !! a) -> sstep (m, C) (m', C)
  | SCreate m C t function aux w : thread_page t -> C !! t = None -> t <> running_thread m -> ~ (t <= at_stack_ofs < t + 4096) ->
      fresh_page (words m) t -> words m !! (t + thread_stack_ofs) = Some (t + 4096) -> thread_create_frames t function aux (words m) = Some w ->
      sstep (m, C) (with_words m w, <[t := new_context t function aux]> C)
  | SFree m C t : sstep (m, C) (m, delete t C)
  | SSwitch m m' C next ra own : calls m (running_thread m) next ra -> on_stack m (running_thread m) own -> is_Some (C !! next) -> run 14 m = Some m' ->
      sstep (m, C) (m', <[running_thread m := context_of m ra own]> (delete next C)).

Record threads_ok (m : machine) (C : gmap Z context) : Prop := {
  o_page : thread_page (running_thread m);
  o_present : present (words m) (running_thread m);
  o_other : C !! running_thread m = None;
  o_ofs : words m !! at_stack_ofs = Some thread_stack_ofs;
  o_apart t : t = running_thread m \/ is_Some (C !! t) -> ~ (t <= at_stack_ofs < t + 4096);
  o_susp t c : C !! t = Some c -> thread_page t /\ present (words m) t /\ suspended (words m) t c
}.

Lemma pages_apart t u : thread_page t -> thread_page u -> t <> u -> t + 4096 <= u \/ u + 4096 <= t.
Proof. intros (P1 & P2 & P3) (Q1 & Q2 & Q3) Hne. Z.to_euclidean_division_equations. lia. Qed.

(** A context depends on the words that it needs, which are in the page of its thread. *)
Lemma suspended_same w w' t c : (forall a, needs t c a -> w' !! a = w !! a) -> suspended w t c -> suspended w' t c.
Proof.
  intros Hs [S1 S2 S3 S4 S5 S6 S7 S8 S9]. unfold needs in Hs.
  constructor; try lia; try (rewrite Hs by lia; done). intros a x Ha. destruct (S9 a x Ha) as [Hr Hx]. split; [done|]. rewrite Hs; [done|]. right. right. by eexists.
Qed.

Lemma needs_page w t c a : suspended w t c -> needs t c a -> t <= a < t + 4096.
Proof. intros [S1 S2 S3 _ _ _ _ _ S9] [->|[Ha|[x Hx]]]; [unfold thread_stack_ofs; lia|lia|]. apply S9 in Hx. lia. Qed.

Lemma suspended_page w w' t c : (forall a, t <= a < t + 4096 -> w' !! a = w !! a) -> suspended w t c -> suspended w' t c.
Proof. intros Hs HS. eapply suspended_same; [|exact HS]. intros a Ha. apply Hs. by eapply needs_page. Qed.

Lemma present_same w w' t : (forall a, t <= a < t + 4096 -> w' !! a = w !! a) -> present w t -> present w' t.
Proof. intros Hs Hp a Ha Hm. rewrite Hs by done. by apply Hp. Qed.

Lemma running_resumed w t c : thread_page t -> suspended w t c -> forall m', resumed m' c -> running_thread m' = t.
Proof. intros (P1 & P2 & P3) [_ S2 S3 _ _ _ _ _ _] m' (_ & _ & _ & _ & _ & E & _). unfold running_thread. rewrite E. Z.to_euclidean_division_equations. lia. Qed.

(** The switch from a state that is in order. *)
Lemma switch_ok m C next ra c own : threads_ok m C -> calls m (running_thread m) next ra -> on_stack m (running_thread m) own -> C !! next = Some c ->
  exists m', run 14 m = Some m' /\ resumed m' c /\ running_thread m' = next /\ eax m' = running_thread m /\
    (forall a, ~ (esp m - 16 <= a < esp m) -> a <> running_thread m + thread_stack_ofs -> words m' !! a = words m !! a) /\
    threads_ok m' (<[running_thread m := context_of m ra own]> (delete next C)).
Proof.
  intros [O1 O2 O3 O4 O5 O6] Hc Hown Hn. set (t := running_thread m) in *. destruct (O6 next c Hn) as (N1 & N2 & N3). assert (Hne : t <> next) by (intros ->; congruence).
  destruct (switch_run m t next ra c own O1 N1 Hne O2 O4 (O5 t (or_introl eq_refl)) Hc N3 Hown) as (m' & E & Hr & Ha & Hs & Hp & Ho).
  pose proof (running_resumed _ next c N1 N3 m' Hr) as Hrun. exists m'. do 5 (split; [done|]).
  assert (Hfar : forall a, ~ (t <= a < t + 4096) -> words m' !! a = words m !! a) by (intros a Hx; destruct Hc; apply Ho; unfold thread_stack_ofs; lia).
  assert (Hkept : forall u, thread_page u -> u <> t -> forall a, u <= a < u + 4096 -> words m' !! a = words m !! a).
  { intros u Hu Hut a Ha'. apply Hfar. pose proof (pages_apart u t Hu O1 Hut). lia. }
  constructor; rewrite ?Hrun.
  - done.
  - eapply present_same; [|exact N2]. by apply Hkept.
  - rewrite lookup_insert_ne by done. by apply lookup_delete_eq.
  - rewrite Hfar by (apply O5; by left). done.
  - intros u [->|Hu]; [apply O5; right; by eexists|]. destruct (decide (u = t)) as [->|Hut]; [apply O5; by left|]. rewrite lookup_insert_ne in Hu by done. apply O5. right. destruct Hu as [x Hx]. apply lookup_delete_Some in Hx as [_ Hx]. by eexists.
  - intros u x Hu. destruct (decide (u = t)) as [->|Hut]; [rewrite lookup_insert_eq in Hu; by injection Hu as <-|]. rewrite lookup_insert_ne in Hu by done. apply lookup_delete_Some in Hu as [_ Hu].
    destruct (O6 u x Hu) as (U1 & U2 & U3). split; [done|]. split; [eapply present_same; [|exact U2]; by apply Hkept|]. eapply suspended_page; [|exact U3]. by apply Hkept.
Qed.

(** A new thread. *)
Lemma frames_create_ok m C t function aux w : threads_ok m C -> thread_page t -> C !! t = None -> t <> running_thread m -> ~ (t <= at_stack_ofs < t + 4096) ->
  fresh_page (words m) t -> words m !! (t + thread_stack_ofs) = Some (t + 4096) -> thread_create_frames t function aux (words m) = Some w ->
  threads_ok (with_words m w) (<[t := new_context t function aux]> C).
Proof.
  intros [O1 O2 O3 O4 O5 O6] Ht HC Hne Hout Hf Hs E. destruct (create_frames (words m) t function aux Ht Hf Hs) as (w' & E' & HS & HP & HO). rewrite E in E'. injection E' as <-.
  assert (Hrun : running_thread (with_words m w) = running_thread m) by (by destruct m). assert (Hww : words (with_words m w) = w) by (by destruct m).
  assert (Hkept : forall u, thread_page u -> u <> t -> forall a, u <= a < u + 4096 -> w !! a = words m !! a) by (intros u Hu Hut a Ha; apply HO; pose proof (pages_apart u t Hu Ht Hut); lia).
  constructor; rewrite ?Hrun, ?Hww.
  - done.
  - eapply present_same; [|exact O2]. by apply Hkept.
  - by rewrite lookup_insert_ne.
  - by rewrite HO.
  - intros u [->|Hu]; [apply O5; by left|]. destruct (decide (u = t)) as [->|]; [done|]. rewrite lookup_insert_ne in Hu by done. apply O5. by right.
  - intros u x Hu. destruct (decide (u = t)) as [->|Hut]; [rewrite lookup_insert_eq in Hu; by injection Hu as <-|]. rewrite lookup_insert_ne in Hu by done. destruct (O6 u x Hu) as (U1 & U2 & U3).
    split; [done|]. split; [eapply present_same; [|exact U2]; by apply Hkept|]. eapply suspended_page; [|exact U3]. by apply Hkept.
Qed.

Lemma threads_ok_step s s' : sstep s s' -> threads_ok s.1 s.2 -> threads_ok s'.1 s'.2.
Proof.
  intros [m m' C Hr Hp Ho Hk|m C t function aux w Ht HC Hne Hout Hf Hs E|m C t|m m' C next ra own Hc Hown [c Hn] E] HO; cbn [fst snd] in *.
  - destruct HO as [O1 O2 O3 O4 O5 O6]. constructor; rewrite ?Hr; try done; [congruence|]. intros t c Hc. destruct (O6 t c Hc) as (U1 & U2 & U3), (Hk t c Hc) as [Hpt Hw]. split; [done|]. split; [done|]. by eapply suspended_same.
  - by apply frames_create_ok.
  - destruct HO as [O1 O2 O3 O4 O5 O6]. constructor; try done.
    + apply lookup_delete_None. by right.
    + intros u [->|[x Hx]]; apply O5; [by left|]. apply lookup_delete_Some in Hx as [_ Hx]. right. by eexists.
    + intros u x Hx. apply lookup_delete_Some in Hx as [_ Hx]. by apply O6.
  - destruct (switch_ok m C next ra c own HO Hc Hown Hn) as (m1 & E1 & _ & _ & _ & _ & HO1). rewrite E in E1. by injection E1 as <-.
Qed.

Lemma threads_ok_reach s s' : rtc sstep s s' -> threads_ok s.1 s.2 -> threads_ok s'.1 s'.2.
Proof. induction 1 as [|s1 s2 s3 H _ IH]; [done|]. intros HO. by apply IH, (threads_ok_step s1). Qed.

(** ** Claim *)

(** C6. Switching threads is transparent.  Threads are created, give up their pages and switch in any order, and between switches C code, interrupt handlers included, writes anywhere, to the struct thread, the links and the local variables of suspended threads too, except to the variable thread_stack_ofs and, of each suspended thread, to its saved stack pointer, the five words that switch_threads has left on its stack, and the words of the stack that are its own (any words the thread had there when it switched; these restrictions on C code are assumed, and every stack has room for the four registers above struct thread).  Then, when a thread calls switch_threads for another one, the fourteen instructions take the machine, with the stack of that thread, to where that thread has left it: its return address, its callee-saved registers, its stack pointer and its own words of the stack, with the caller as the result of its own call; no word changes but the four below the caller's stack pointer and the stack field of the caller, and what the caller needs to go on in the same way is saved.  A thread that has never run, whose page held zeros where the frames go, and anything elsewhere, when thread_create filled them, begins in switch_entry, which calls thread_schedule_tail for the previous thread and then goes on in kernel_thread with the function and the argument that thread_create was given. *)
Theorem switch_transparent m0 m C next ra c own :
  threads_ok m0 ∅ -> rtc sstep (m0, ∅) (m, C) -> calls m (running_thread m) next ra -> on_stack m (running_thread m) own -> C !! next = Some c ->
  exists m', run 14 m = Some m' /\ resumed m' c /\ running_thread m' = next /\ eax m' = running_thread m /\
    (forall a, ~ (esp m - 16 <= a < esp m) -> a <> running_thread m + thread_stack_ofs -> words m' !! a = words m !! a) /\
    suspended (words m') (running_thread m) (context_of m ra own) /\
    sstep (m, C) (m', <[running_thread m := context_of m ra own]> (delete next C)) /\
    forall function aux, c = new_context next function aux -> begins m' next function aux.
Proof.
  intros H0 Hr Hc Hown Hn. pose proof (threads_ok_reach _ _ Hr H0) as HO. destruct (switch_ok m C next ra c own HO Hc Hown Hn) as (m' & E & Hres & Hrun & Ha & Hfr & HO').
  exists m'. do 5 (split; [done|]). split; [apply (o_susp _ _ HO'); apply lookup_insert_eq|]. split; [by apply (SSwitch m m' C next ra own)|].
  intros function aux ->. pose proof (o_present _ _ HO') as Hp. rewrite Hrun in Hp. apply resumed_begins; [|done..]. by apply (o_susp _ _ HO next _ Hn).
Qed.

End Switch.

(** ** An example *)

(** The initial thread at 8192 creates a thread at 16384, whose struct thread is
    filled in, writes to a link of it, and switches to it; the variable is at 3000. *)
Definition page_words (t : Z) : list (Z * Z) := (fun k => (t + 4 * k, 0)) <$> seqZ 0 1024.
Definition demo_words : gmap Z Z :=
  <[3000 := 24]> (<[16384 := 2]> (<[16384 + 4 := 1]> (<[16384 + 8 := 1835102822]> (<[16384 + 24 := 16384 + 4096]> (<[16384 + 28 := 31]> (<[12192 := 6000]> (<[12196 := 8192]> (<[12200 := 16384]>
    (list_to_map (page_words 8192 ++ page_words 16384)))))))))).
Definition demo_machine : machine := MkMachine 1 2 3 4 12192 5 6 7 1000 demo_words.

Lemma demo_scan (P : Z -> bool) t n : forallb (fun k => P (t + k)) (seqZ 0 n) = true -> forall a, t <= a < t + n -> P a = true.
Proof.
  intros H a Ha. rewrite forallb_forall in H. specialize (H (a - t)). rewrite <- list_elem_of_In, elem_of_seqZ in H. specialize (H ltac:(lia)). by replace (t + (a - t)) with a in H by lia.
Qed.

Definition demo_has (a : Z) : bool := negb (a mod 4 =? 0) || match demo_words !! a with Some _ => true | None => false end.
Definition demo_zero (a : Z) : bool := negb (a mod 4 =? 0) || match demo_words !! a with Some x => x =? 0 | None => false end.

Lemma demo_present t : forallb (fun k => demo_has (t + k)) (seqZ 0 4096) = true -> present demo_words t.
Proof. intros E a Ha Hm. pose proof (demo_scan demo_has t 4096 E a Ha) as H. unfold demo_has in H. rewrite (proj2 (Z.eqb_eq _ 0) Hm) in H. by destruct (demo_words !! a). Qed.

Lemma demo_threads_ok : threads_ok 3000 demo_machine ∅.
Proof.
  assert (Hr : running_thread demo_machine = 8192) by reflexivity. constructor; rewrite ?Hr.
  - repeat split; lia.
  - apply demo_present. vm_compute. reflexivity.
  - apply lookup_empty.
  - reflexivity.
  - intros t [->|Ht]; [lia|]. by rewrite lookup_empty in Ht; destruct Ht.
  - intros t c Ht. by rewrite lookup_empty in Ht.
Qed.

Lemma demo_fresh : fresh_page demo_words 16384.
Proof.
  split; [apply demo_present; vm_compute; reflexivity|]. intros a Ha Hm. pose proof (demo_scan demo_zero (16384 + 4096 - 44) 44 ltac:(vm_compute; reflexivity) a ltac:(lia)) as H. unfold demo_zero in H.
  rewrite (proj2 (Z.eqb_eq _ 0) Hm) in H. cbn [negb orb] in H. destruct (demo_words !! a) as [x|]; [|done]. by apply Z.eqb_eq in H as ->.
Qed.

Lemma switch_transparent_witness : exists m m', run 1000 2000 3000 4000 14 m = Some m' /\ words m !! (16384 + 40) = Some 9 /\ running_thread m = 8192 /\ running_thread m' = 16384 /\ eax m' = 8192 /\
  words m' !! 12196 = Some 8192 /\ begins 1000 2000 3000 4000 5000 m' 16384 77 88.
Proof.
  destruct (create_frames 2000 5000 demo_words 16384 77 88 ltac:(repeat split; lia) demo_fresh eq_refl) as (w & E & _ & HP & Hout). set (m1 := with_words demo_machine w). set (m := with_words demo_machine (<[16384 + 40 := 9]> w)).
  assert (H96 : words m !! 12196 = Some 8192) by (cbn [m words with_words demo_machine]; rewrite lookup_insert_ne, Hout by lia; reflexivity).
  destruct (switch_transparent 1000 2000 3000 4000 5000 ltac:(left; lia) demo_machine m {[ 16384 := new_context 2000 5000 16384 77 88 ]} 16384 6000 (new_context 2000 5000 16384 77 88) {[ 12196 := 8192 ]}) as (m' & R & _ & H1 & H2 & Hfr & _ & _ & H3).
  - exact demo_threads_ok.
  - eapply rtc_l; [|apply rtc_once].
    + apply (SCreate 1000 2000 3000 4000 5000 demo_machine ∅ 16384 77 88 w).
      * repeat split; lia.
      * apply lookup_empty.
      * vm_compute. discriminate.
      * lia.
      * exact demo_fresh.
      * reflexivity.
      * exact E.
    + rewrite insert_empty. apply (SWork 1000 2000 3000 4000 5000 m1 m).
      * reflexivity.
      * change (present (<[16384 + 40 := 9]> w) 8192). intros a Ha Hm. apply insert_some. rewrite Hout by lia. apply (o_present 3000 demo_machine ∅ demo_threads_ok a); [|done]. exact Ha.
      * change (<[16384 + 40 := 9]> w !! 3000 = w !! 3000). by rewrite lookup_insert_ne by lia.
      * intros t c Ht. apply lookup_singleton_Some in Ht as [<- <-]. change (present (<[16384 + 40 := 9]> w) 16384 /\ forall a, needs 16384 (new_context 2000 5000 16384 77 88) a -> <[16384 + 40 := 9]> w !! a = w !! a).
        split; [intros a Ha Hm; apply insert_some; by apply HP|]. intros a Ha. apply lookup_insert_ne. intros <-. destruct Ha as [Ha|[Ha|[x Ha]]]; [done|cbn in Ha; lia|]. by vm_compute in Ha.
  - constructor.
    + reflexivity.
    + vm_compute. discriminate.
    + vm_compute. discriminate.
    + reflexivity.
    + change (<[16384 + 40 := 9]> w !! 12192 = Some 6000). rewrite lookup_insert_ne, Hout by lia. reflexivity.
    + exact H96.
    + change (<[16384 + 40 := 9]> w !! 12200 = Some 16384). rewrite lookup_insert_ne, Hout by lia. reflexivity.
  - intros a x Ha. apply lookup_singleton_Some in Ha as [<- <-]. split; [|exact H96]. cbn. vm_compute. split; [discriminate|reflexivity].
  - apply lookup_singleton_eq.
  - exists m, m'. split; [exact R|]. split; [apply lookup_insert_eq|]. split; [reflexivity|]. split; [exact H1|]. split; [exact H2|]. split; [|apply H3; reflexivity]. rewrite Hfr; [exact H96|cbn; lia|cbn; discriminate].
Defined.
